(* ===== verification/_CoqProject ===== *)
-Q . S2P
Prelude.v
KVBlock.v
FreeQueue.v
LinkedQueue.v
Heapq.v
HPUQueue.v
Sampling.v
Request.v
BlockHashing.v
KVSpec.v
BlockPool.v
SingleType.v
Coordinator.v
KVManager.v
KVConfig.v
EncoderCache.v
Scheduler.v
SchedulerSpec.v
SchedulerLife.v
SchedulerProgress.v
Defrag.v
PyOrder.v
PyText.v
BucketRanges.v
BucketGen.v
BucketManager.v
VisionBuckets.v
BlockTable.v
InputBatch.v
ModelRunner.v
Numpy.v
UnifiedBatch.v
UnifiedAttention.v
V0Block.v
V0Sequence.v
V0Table.v
V0Manager.v
V0BlockSpec.v
V0SwapSpec.v
V0TableSpec.v
V0ManagerSpec.v
V0Cache.v
V0CacheSpec.v
V0Swap.v
V0Results.v
DecodeInputs.v
DecodeSpec.v
DecodeRows.v
PagedAttention.v
DecodeResults.v
PrefillInputs.v
PrefillSpec.v
PrefillGather.v
PrefillResults.v
StepInputs.v
