(* ===== verification/Prelude.v ===== *)
(** * vLLM for Gaudi: the engine cores and the batches of the HPU worker

    A model of the parts of the program that decide which tokens run in which
    step, where their keys and values live and which of them a token reads: the
    scheduler and the KV-cache management of [src/vllm/v1/core], the batch and
    the state of the worker ([src/vllm/v1/worker]), the HPU extension
    ([src/vllm_gaudi/extension]): bucketing, defragmentation and the batches of
    unified attention, its model runner ([src/vllm_gaudi/v1/worker]): the inputs
    of a step and the paged attention over them, and the block management of the
    older engine, V0 ([src/vllm/core]).  The source is Python over lists, dicts
    and numpy arrays; of the arithmetic on tensors only the paged attention is
    modelled.

    ** The program

    A [Scheduler] (sched/scheduler.py) owns the requests.  Each engine step
    calls [schedule], which gives tokens to the running requests, preempting
    from the tail when blocks run out, then admits waiting requests; the model
    runs; [update_from_output] appends the generated tokens and frees what has
    stopped.  Requests arrive ([add_request]) and are aborted
    ([finish_requests]) between the calls.  The scheduler asks a
    [KVCacheManager] (kv_cache_manager.py) for slots.  That one hashes the
    tokens of a request block by block (kv_cache_utils.py), looks the hashes up
    and allocates through a coordinator (kv_cache_coordinator.py), which has
    one manager per group of layers (single_type_kv_cache_manager.py) over one
    shared [BlockPool] (block_pool.py).  The pool keeps the free blocks in a
    queue, linked through the blocks themselves or, on the HPU, a heap of ids.
    Encoder outputs have their own cache (encoder_cache_manager.py).

    On the worker the model runner keeps a row per request in the persistent
    batch and brings it in line with each [SchedulerOutput]; the rows are laid
    out as one list of tokens with masks that say which cached blocks each token
    reads, in a shape that the bucketing manager has prepared.  Without unified
    attention, the runner of vllm_gaudi splits the batch
    ([_prepare_inputs]): a row per token of the decodes, with lists of blocks
    that the paged attention (extension/ops.py) works through block by block,
    and batches of prompts, as padded rows or merged into one row.

    The older engine, V0, has a block manager instead (core/block_manager.py):
    a [BlockTable] per sequence (core/block/block_table.py) lists block objects,
    which are taken from a pool, refer to physical blocks with reference counts,
    and are copied on write when a shared block grows; sequences fork, drop the
    blocks behind a sliding window, and are swapped between GPU and CPU by two
    allocators (core/block/naive_block.py, cpu_gpu_block_allocator.py).

    ** How it is modelled

    - Effects: the monad [M S A] below: a method takes the state of its object
      and returns ([Ret]) or raises ([Raise]); both carry the state, as Python
      keeps the mutations made before an exception.  Functions without state
      return [result].  [wp m Q s] says that [m] returns from [s] and [Q] holds
      of the value and the state; so every theorem stated with [wp] includes
      that nothing is raised and that the loops end.
    - Objects: blocks are shared by tables, queue and cache, so they live in a
      store, the pool's list [blocks], and are named by their id; requests
      are shared by the two queues and the dict and live in the scheduler's
      [heap], named by the request id.
    - Integers are Z (Python's are unbounded), ids and indices into a store are
      nat, dicts and sets are [gmap] and [gset], an ordered dict or a deque is a
      list.  An assertion is [py_assert]; a missing key or index raises.
    - Loops run on fuel where they do not follow a list: the preemption loop and
      the loop over the running requests (fuel: the number of running
      requests), the loop over the waiting requests (their number), the
      binary search of [estimate_max_model_len] (the length searched) and
      the heap's sift loops (the length of the array).  The theorems about
      them show that the fuel is enough.  The recursion over the chain of blocks
      in V0's fork has Python's recursion limit as a parameter, and runs into
      [RuntimeError] as Python does.

    ** The files

    - Prelude (this one): exceptions, monads, [wp], [cdiv] (vllm/utils.py),
      Python slices and ranges, the hint database [py].
    - KVBlock: hashes with decidable equality, [KVCacheBlock], the block store.
    - FreeQueue: the interface [FreeBlockQueue] of a queue of free blocks, its
      laws [FreeBlockQueueSpec] and those of removal [FreeBlockQueueRemove].
    - LinkedQueue, Heapq, HPUQueue: the two implementations
      ([FreeKVCacheBlockQueue], [FreeKVCacheBlockQueueHPU] with the standard
      library's heap), each an instance of the interface.
    - Request: [Request], [RequestStatus], [check_stop] (sched/utils.py).
    - BlockHashing: extra keys, [hash_request_tokens] and the reference chain.
    - KVSpec: the specifications of kv_cache_interface.py.
    - BlockPool: the pool over any queue; the invariant [pool_inv].
    - SingleType: [FullAttentionManager], [SlidingWindowManager].
    - Coordinator: the unitary and the hybrid coordinator.
    - KVManager: [KVCacheManager], its invariant [kv_inv], prefix-cache metrics.
    - KVConfig: memory checks, grouping of layers, configuration per worker.
    - EncoderCache: [EncoderCacheManager] and the encoder budgets.
    - Scheduler: the operations of the scheduler.
    - SchedulerSpec: its invariant [sched_inv] and one call of [schedule].
    - SchedulerLife: creation, arrival, aborts, results, and every interleaving
      of them as a step relation ([sched_step]).
    - SchedulerProgress: the oldest request is scheduled by every step and
      finishes; rounds of arrivals, steps and results ([round]).
    - Defrag: the block renaming of the HPU worker
      (src/vllm_gaudi/extension/defragmentation.py).
    - PyOrder, PyText: comparison, sorting and bisection of Python values;
      strings.
    - BucketRanges, BucketGen, BucketManager: the shapes prepared for the HPU
      (src/vllm_gaudi/extension/bucketing): ranges per dimension, lists of
      buckets, and [HPUBucketingManager] with its lookups.
    - VisionBuckets: buckets of images (bucketing/vision.py).
    - Sampling, BlockTable, InputBatch: sampling parameters, block tables and
      the persistent batch of the worker (src/vllm/v1/worker).
    - ModelRunner: what the HPU model runner does to its state in a step, before
      and after the forward pass (hpu_model_runner.py).
    - Numpy: the operations on numpy arrays, with negative indices and
      broadcasting, and arrays as functions of their indices.
    - UnifiedBatch: [create_unified_batch] (extension/unified_batch.py), stage by
      stage, and the reference of its arrays over the list [tokens].
    - UnifiedAttention: the keys that the attention (extension/unified.py) reads
      through a batch, and the theorems about them.
    - DecodeInputs, DecodeSpec, DecodeRows: the inputs of the decodes
      ([_create_decode_input_data] of vllm_gaudi/v1/worker/hpu_model_runner.py):
      the block buffers, which slots a row attends through them, and the rows.
    - PagedAttention: [flat_pa] (extension/ops.py) over the real numbers, and
      [softmax_attention], the reference.
    - DecodeResults: from the persistent batch to the attention of a row.
    - PrefillInputs, PrefillSpec, PrefillGather: the inputs of the prompts
      ([_prepare_prefill_inputs]): a batch of prompts as rows and merged, then
      the gathering of the prompts of a step into batches.
    - PrefillResults, StepInputs: the theorems on prompts, and [_prepare_inputs].
    - V0Block, V0Table, V0Sequence, V0Manager: the older engine's blocks with
      reference counts and copy on write (core/block/common.py, naive_block.py,
      cpu_gpu_block_allocator.py), block tables (block_table.py), sequences
      (sequence.py) and the manager (core/block_manager.py).
    - V0BlockSpec, V0SwapSpec, V0TableSpec, V0ManagerSpec: their invariants
      ([alloc_ok], [table_ok], [manager_ok]) and what each operation does to them.
    - V0Cache, V0CacheSpec: the rows of the cache (extension/cache_ops.py), an
      engine that allocates, appends, computes, forks and frees in any order
      ([V0Cache.step]), and its invariant [engine_ok].
    - V0Swap, V0Results: swapping down to the rows, and the theorems on V0.

    Operations have the names of the source; where several classes use the same
    one it is prefixed ([kv_free], [coord_free], [mgr_free], [enc_free]).

    ** What is shown

    - Queues: the linked list and the heap refine a list (LinkedQueue, HPUQueue).
    - Pool: allocation, freeing, touching, resetting and caching do exactly what
      they promise and keep the reference counts, the free list and the prefix
      cache consistent; eviction is in order of release.
    - Hashing: a hash identifies the whole prefix; lookups return the longest
      cached prefix of their attention type.
    - Manager: [allocate_slots] returns nothing only when blocks are short, gives
      up only blocks in front of the attention window, and otherwise appends the
      hits and new blocks that cover the tokens; reference counts equal the table
      entries, so nothing leaks.
    - Configuration: the memory bound, the group structure, the greatest model
      length.
    - Scheduler: from a new scheduler, no interleaving of its operations raises
      or loses blocks, in the configurations below ([covered]); budgets and
      limits hold; preemption keeps the order; computed tokens advance by what
      was scheduled; exactly the requests that no generated token stops go on,
      with these tokens appended; and the oldest request, if it has no encoder
      inputs, is never starved: within as many rounds as the model has positions
      it finishes, if the cache has [room] for one request of maximal length.
    - Defragmentation: under any sequence of its operations the cache read
      through the renaming is the cache without a defragmenter.
    - Bucketing: the lookup returns the least bucket that fits; what the
      generation returns; a missing bucket is added once; with contiguous
      attention decoding never misses.
    - Worker: the batch is a map from requests to rows ([view]) and every
      operation a change of that map; a step brings it in line with what the
      scheduler sent ([stepped]), keeps every request's tokens a prefix of the
      scheduler's ([linked]) and splits it into decodes and prompts.
    - Unified attention: a token of a prompt, or of a batch of decodes, attends
      exactly the keys of its request up to its own, each once, however the
      blocks are split into shared and unique ([unified_batch_attention]); the
      device and the host build the same masks; logits, positions and shapes.
    - Inputs of a step: a decode writes the slot of its position, and the paged
      attention of its row is the softmax attention over exactly its positions
      up to that one ([decode_attention_spec]); a prompt writes the slots of its
      new positions and its queries read the positions up to their own
      ([prefill_rows_spec], [merged_prefill_spec]); a step of both is formed
      without raising, and its writes meet neither each other nor what another
      request reads ([step_writes_apart]).
    - V0: whatever is shared, copied on write, dropped behind the window, freed
      and used again, a sequence reads through its block table, after the pending
      copies, the values of its own tokens ([v0_reads_own_kv]); reference counts
      are the references ([v0_blocks_accounted]); what the admission tests
      promise holds; a sequence swapped out and in has its rows again; deltas
      bring a worker's copy up to date.
    - Deviations: theorems that exhibit, on concrete runs, where the code
      does not do what it means to.

    ** Assumptions

    The hash function is a parameter; soundness of a cache hit needs it
    collision-free ([ideal_hash]).  The KV connector is the interface
    [KVConnector]; the grammar manager is two functions.  The theorems on every
    interleaving ([covered]) are for full attention without prefix caching,
    adapters and connector (progress: without encoder inputs too), and for
    arriving requests no longer than the model
    ([addable]), which the input processor guarantees; results of the model
    runner satisfy [runner_ok].
    The powers of numpy in the exponential ranges are [PowerSteps] with
    [PowerLaws], which an exact computation satisfies ([exact_power_laws]).
    The lookups of buckets assume sorted lists ([lookup_inv]), which generation
    and lookups keep; the profiling path, which puts a bucket at the front of the
    lists by hand (vllm_gaudi/v1/worker/hpu_model_runner.py), is outside it.
    Divisions and roots of floats are exact in the ranges their comments give.
    The worker's theorems assume outputs that fit the arrays and name requests
    the runner knows ([output_ok]), and no draft tokens for the agreement of
    tokens; a set is iterated in any order.  The row of a request ([view]) leaves
    out its logit bias and its row of the allowed-token mask; both are
    modelled, and a swap can get the mask wrong ([swap_states_merges_masks]).  The split into decodes and prompts is for
    batches without resumed requests that have output ([kinds_ok]), for which the
    code fails its assertion ([resumed_with_output_asserts]).
    The theorems on unified batches assume consistent arrays and tables and a
    bucket that holds the batch, with padding that is safe where the biases are
    computed on the device ([batch_ok], [padding_safe]), and host arrays in
    place of asynchronous inputs; the order in which the device
    performs indexed writes is a parameter, any permutation.
    The inputs of a step assume a batch whose rows agree with its block table
    ([step_ok], [prefill_ok]), blocks below the padding block, and a bucket
    list that keeps the number of blocks within the pool ([pool_buckets]); how
    many rows the ranks of data parallelism agree to add is a parameter that
    keeps the pool's size ([padding_ok]).  With a cache that is read from its
    start (contiguous attention) the decodes have one token each and share no
    block, and what a prompt reads is stated only for prompts without context:
    the examples [contiguous_drafts_example] and [contiguous_context_example]
    show why.  The attention is over the real
    numbers, for one head; on the device the mask adds minus infinity, which is
    an absent score here, and block usages are exact in the types used, up to
    256 in bfloat16.  The operations of torch follow its documentation; one-hot
    rows of negative groups are zero.
    The theorems on V0 are about every order of the manager's operations that
    keeps the scheduler's rules ([V0Cache.step]): prompts are allocated only when
    there are blocks for them, slots are appended only when the
    admission test allows it (with a sliding window, with one block more for the
    null block), a sequence that was given slots is neither forked nor freed
    before its batch ran, copies are made before the batch is computed, and a
    sequence whose window has dropped blocks is not forked; groups with encoder
    sequences are modelled but not part of those steps, and swapping has its own
    theorem.

    ** Not modelled

    The padding of the list of swaps of a defragmentation with pairs of -1, which
    touch only the dummy block.  Time stamps and logging, the publishing of events, tracing and shutdown;
    log-probabilities and the grammar bit mask (tensors); the worker side of
    the KV transfer; tensors, kernels, model code, distributed execution, the
    entry points and configuration parsing; of V0 the scheduler and the prefix
    cache (core/scheduler.py, block/prefix_caching_block.py, evictor.py).  Of
    the inputs of a step: the positions of M-RoPE, tokens that stay on the device
    under asynchronous scheduling, the metadata of speculative decoding and
    multi-modal inputs, and the mask of a sliding window over prompts; of the
    attention: fused kernels, grouped heads, latent attention, quantised caches
    and rounding.  The rest of the model runners: sampling metadata, warm-up,
    profiling and the forward pass are work on tensors.  Of the unified batches the metadata of
    speculative decoding and the buffers of the softmax are left out. *)

From Stdlib Require Import ZArith Lia.
From stdpp Require Import base strings numbers gmap list.

Open Scope Z_scope.

(** ** Python exceptions and the state-and-error monad

    A Python method may read and mutate its objects and may raise.  A raised
    exception keeps the mutations made so far, so an outcome carries the
    state in both cases. *)

Inductive exn :=
  | AssertionError
  | ValueError
  | KeyError
  | IndexError
  | NameError
  | RuntimeError
  | TypeError
  | AttributeError
  | ZeroDivisionError
  | NotImplementedError
  | BucketingFailedException
  (** [BlockAllocator.NoFreeBlocksError], a [ValueError]. *)
  | NoFreeBlocksError
  (** Also the end of a list that is built without end. *)
  | MemoryError.

#[export] Instance exn_eq_dec : EqDecision exn.
Proof. solve_decision. Defined.

Inductive outcome (S A : Type) :=
  | Ret (a : A) (s : S)
  | Raise (e : exn) (s : S).
Arguments Ret {S A} a s.
Arguments Raise {S A} e s.

Definition M (S A : Type) := S -> outcome S A.

Definition M_ret {S A} (a : A) : M S A := fun s => Ret a s.

Definition M_bind {S A B} (f : A -> M S B) (m : M S A) : M S B := fun s =>
  match m s with
  | Ret a s' => f a s'
  | Raise e s' => Raise e s'
  end.

#[export] Instance M_mret S : MRet (M S) := @M_ret S.
#[export] Instance M_mbind S : MBind (M S) := @M_bind S.

Definition raise {S A} (e : exn) : M S A := fun s => Raise e s.
Definition get_state {S} : M S S := fun s => Ret s s.
Definition put_state {S} (s : S) : M S unit := fun _ => Ret tt s.
Definition modify {S} (f : S -> S) : M S unit := fun s => Ret tt (f s).
Definition gets {S A} (f : S -> A) : M S A := fun s => Ret (f s) s.

(** [assert b] of Python. *)
Definition py_assert {S} (b : bool) : M S unit :=
  if b then mret tt else raise AssertionError.

(** An operation of a sub-object run inside the object that owns it. *)
Definition zoom {S T A} (get : S -> T) (put : T -> S -> S) (m : M T A) : M S A :=
  fun s => match m (get s) with
  | Ret a t => Ret a (put t s)
  | Raise e t => Raise e (put t s)
  end.

(** A [for] loop whose body only has effects. *)
Fixpoint for_each {S A} (body : A -> M S unit) (l : list A) : M S unit :=
  match l with
  | [] => mret tt
  | x :: l' => body x ;; for_each body l'
  end.

(** A list comprehension whose element expression has effects. *)
Fixpoint map_each {S A B} (body : A -> M S B) (l : list A) : M S (list B) :=
  match l with
  | [] => mret []
  | x :: l' => y ← body x; ys ← map_each body l'; mret (y :: ys)
  end.

(** Pure functions that may raise. *)
Inductive result (A : Type) :=
  | Ok (a : A)
  | Err (e : exn).
Arguments Ok {A} a.
Arguments Err {A} e.

#[export] Instance result_mret : MRet result := @Ok.
#[export] Instance result_mbind : MBind result := fun A B f r =>
  match r with Ok a => f a | Err e => Err e end.

Definition guard_or (b : bool) (e : exn) : result unit := if b then Ok tt else Err e.

Definition lift_result {S A} (r : result A) : M S A := fun s =>
  match r with Ok a => Ret a s | Err e => Raise e s end.

(** ** Total correctness

    [wp m Q s]: from [s] the operation returns, without raising, and its
    value and final state satisfy [Q]. *)

Definition wp {S A} (m : M S A) (Q : A -> S -> Prop) (s : S) : Prop :=
  match m s with
  | Ret a s' => Q a s'
  | Raise _ _ => False
  end.

Lemma wp_ret {S A} (a : A) (Q : A -> S -> Prop) s : Q a s -> wp (mret a) Q s.
Proof. done. Qed.

Lemma wp_bind {S A B} (m : M S A) (f : A -> M S B) Q s :
  wp m (fun a s' => wp (f a) Q s') s -> wp (mbind f m) Q s.
Proof.
  unfold wp, mbind, M_mbind, M_bind. by destruct (m s).
Qed.

Lemma wp_mono {S A} (m : M S A) (Q Q' : A -> S -> Prop) s :
  wp m Q s -> (forall a s', Q a s' -> Q' a s') -> wp m Q' s.
Proof. unfold wp. destruct (m s); eauto. Qed.

Lemma wp_intro {S A} (m : M S A) (Q : A -> S -> Prop) s a s' :
  m s = Ret a s' -> Q a s' -> wp m Q s.
Proof. unfold wp. by intros ->. Qed.

Lemma wp_elim {S A} (m : M S A) (Q : A -> S -> Prop) s :
  wp m Q s -> exists a s', m s = Ret a s' /\ Q a s'.
Proof. unfold wp. destruct (m s) eqn:E; [eauto | contradiction]. Qed.

Lemma wp_gets {S A} (f : S -> A) (Q : A -> S -> Prop) s :
  Q (f s) s -> wp (gets f) Q s.
Proof. done. Qed.

Lemma wp_get_state {S} (Q : S -> S -> Prop) s : Q s s -> wp get_state Q s.
Proof. done. Qed.

Lemma wp_modify {S} (f : S -> S) (Q : unit -> S -> Prop) s :
  Q tt (f s) -> wp (modify f) Q s.
Proof. done. Qed.

Lemma wp_assert {S} b (Q : unit -> S -> Prop) s :
  b = true -> Q tt s -> wp (py_assert b) Q s.
Proof. by intros ->. Qed.

Lemma wp_lift {S A} (r : result A) a (Q : A -> S -> Prop) s : r = Ok a -> Q a s -> wp (lift_result r) Q s.
Proof. by intros ->. Qed.

Lemma wp_zoom {S T A} (get : S -> T) put (m : M T A) (Q : A -> S -> Prop) s :
  wp m (fun a t => Q a (put t s)) (get s) -> wp (zoom get put m) Q s.
Proof. unfold wp, zoom. by destruct (m (get s)). Qed.

(** The rule of a [for] loop: an invariant indexed by what is left to do. *)
Lemma wp_for_each {S A} (body : A -> M S unit) (I : list A -> S -> Prop) l s :
  I l s ->
  (forall x l' s', I (x :: l') s' -> wp (body x) (fun _ s'' => I l' s'') s') ->
  wp (for_each body l) (fun _ s' => I [] s') s.
Proof.
  intros HI Hstep. revert s HI.
  induction l as [|x l IH]; intros s HI; simpl; [done|].
  apply wp_bind. eapply wp_mono; [by apply Hstep|].
  intros [] s' HI'. by apply IH.
Qed.

(** The rule of a comprehension: the values built so far are in the invariant. *)
Lemma wp_map_each {S A B} (body : A -> M S B) (I : list B -> list A -> S -> Prop) l acc s :
  I acc l s ->
  (forall ys x l' s', I ys (x :: l') s' ->
     wp (body x) (fun y s'' => I (ys ++ [y]) l' s'') s') ->
  wp (map_each body l) (fun ys s' => I (acc ++ ys) [] s') s.
Proof.
  intros HI Hstep. revert s acc HI.
  induction l as [|x l IH]; intros s acc HI; simpl.
  { apply wp_ret. by rewrite app_nil_r. }
  apply wp_bind. eapply wp_mono; [by apply Hstep|].
  intros y s' HI'. apply wp_bind. eapply wp_mono; [eapply IH, HI'|].
  intros ys s'' H''. apply wp_ret. cbv beta in H''. by rewrite <- app_assoc in H''.
Qed.

(** [always m Q s]: whether the operation returns or raises, its final state
    satisfies [Q]; what an exception may leave behind. *)
Definition always {S A} (m : M S A) (Q : S -> Prop) (s : S) : Prop :=
  match m s with Ret _ s' | Raise _ s' => Q s' end.

Lemma always_ret {S A} (a : A) (Q : S -> Prop) s : Q s -> always (mret a) Q s.
Proof. done. Qed.

Lemma always_raise {S A} e (Q : S -> Prop) s : Q s -> always (raise (A := A) e) Q s.
Proof. done. Qed.

Lemma always_bind {S A B} (m : M S A) (f : A -> M S B) (Q : S -> Prop) s :
  match m s with
  | Ret a s' => always (f a) Q s'
  | Raise _ s' => Q s'
  end -> always (mbind f m) Q s.
Proof. unfold always, mbind, M_mbind, M_bind. by destruct (m s). Qed.

(** An operation that preserves [Q] in every outcome, then another one. *)
Lemma always_seq {S A B} (m : M S A) (f : A -> M S B) (Q : S -> Prop) s :
  always m Q s -> (forall a s', Q s' -> always (f a) Q s') -> always (mbind f m) Q s.
Proof.
  intros Hm Hf. apply always_bind. unfold always in Hm. destruct (m s); [by apply Hf|done].
Qed.

Lemma always_mono {S A} (m : M S A) (Q Q' : S -> Prop) s :
  always m Q s -> (forall s', Q s' -> Q' s') -> always m Q' s.
Proof. unfold always. destruct (m s); eauto. Qed.

Lemma always_of_wp {S A} (m : M S A) (Q : A -> S -> Prop) (Q' : S -> Prop) s :
  wp m Q s -> (forall a s', Q a s' -> Q' s') -> always m Q' s.
Proof. unfold wp, always. destruct (m s); [eauto|contradiction]. Qed.

Lemma always_zoom {S T A} (get : S -> T) put (m : M T A) (Q : S -> Prop) s :
  always m (fun t => Q (put t s)) (get s) -> always (zoom get put m) Q s.
Proof. unfold always, zoom. by destruct (m (get s)). Qed.

Lemma always_assert {S} b (Q : S -> Prop) s : Q s -> always (py_assert b) Q s.
Proof. unfold py_assert. by destruct b. Qed.

Lemma always_lift {S A} (r : result A) (Q : S -> Prop) s : Q s -> always (lift_result r) Q s.
Proof. unfold always, lift_result. by destruct r. Qed.

Lemma always_for_each {S A} (body : A -> M S unit) (Q : S -> Prop) l s :
  Q s -> (forall x s', x ∈ l -> Q s' -> always (body x) Q s') -> always (for_each body l) Q s.
Proof.
  revert s. induction l as [|x l IH]; intros s Hs Hb; simpl; [done|].
  apply always_seq; [apply Hb; [set_solver|done]|]. intros [] s' Hs'. apply IH; [done|].
  intros y s'' Hy. apply Hb. set_solver.
Qed.

(** The step tactic of the program logic: peel binds, returns, reads, writes
    and assertions until a call of a named operation is at the head. *)
Ltac wp_step :=
  lazymatch goal with
  | |- wp (mbind _ _) _ _ => apply wp_bind
  | |- wp (mret _) _ _ => apply wp_ret
  | |- wp (gets _) _ _ => apply wp_gets
  | |- wp get_state _ _ => apply wp_get_state
  | |- wp (modify _) _ _ => apply wp_modify
  | |- wp (put_state _) _ _ => apply (wp_modify (fun _ => _))
  | |- wp (zoom _ _ _) _ _ => apply wp_zoom
  end; cbv beta.
Ltac wp_steps := repeat wp_step.

(** ** Python integers and containers *)

(** [vllm.utils.cdiv]: ceiling division written with floor division. *)
Definition cdiv (a b : Z) : Z := - (a / - b).

Lemma cdiv_spec a b : 0 < b -> (cdiv a b - 1) * b < a <= cdiv a b * b.
Proof.
  intros Hb. unfold cdiv.
  pose proof (Z.div_mod a (- b) ltac:(lia)) as E.
  pose proof (Z.mod_neg_bound a (- b) ltac:(lia)). nia.
Qed.

Lemma cdiv_le_iff a b n : 0 < b -> cdiv a b <= n <-> a <= n * b.
Proof. intros Hb. pose proof (cdiv_spec a b Hb). nia. Qed.

Lemma cdiv_nonneg a b : 0 < b -> 0 <= a -> 0 <= cdiv a b.
Proof. intros Hb Ha. pose proof (cdiv_spec a b Hb). nia. Qed.

Lemma cdiv_mono a a' b : 0 < b -> a <= a' -> cdiv a b <= cdiv a' b.
Proof. intros Hb Ha. pose proof (cdiv_spec a b Hb). pose proof (cdiv_spec a' b Hb). nia. Qed.

Lemma div_le_cdiv a b : 0 < b -> a / b <= cdiv a b.
Proof.
  intros Hb. pose proof (cdiv_spec a b Hb).
  pose proof (Z.mul_div_le a b Hb). nia.
Qed.

(** [a // b], and [math.ceil(a / b)].  The latter divides floats; for operands
    below 2^53 the rounded quotient has the exact quotient's ceiling. *)
Definition floordiv (a b : Z) : result Z := if b =? 0 then Err ZeroDivisionError else Ok (a / b).
Definition ceildiv (a b : Z) : result Z := if b =? 0 then Err ZeroDivisionError else Ok (cdiv a b).

Lemma floordiv_ok a b : b <> 0 -> floordiv a b = Ok (a / b).
Proof. intros Hb. unfold floordiv. by rewrite (proj2 (Z.eqb_neq _ _)). Qed.

Lemma ceildiv_ok a b : b <> 0 -> ceildiv a b = Ok (cdiv a b).
Proof. intros Hb. unfold ceildiv. by rewrite (proj2 (Z.eqb_neq _ _)). Qed.

(** [len] of Python. *)
Definition len {A} (l : list A) : Z := Z.of_nat (length l).

Lemma len_nonneg {A} (l : list A) : 0 <= len l.
Proof. unfold len. lia. Qed.

Lemma len_app {A} (l k : list A) : len (l ++ k) = len l + len k.
Proof. unfold len. rewrite length_app. lia. Qed.

Lemma len_cons {A} (x : A) l : len (x :: l) = 1 + len l.
Proof. unfold len. simpl. lia. Qed.

(** [l[i:j]] for non-negative bounds (Python clamps them to the length). *)
Definition slice {A} (i j : Z) (l : list A) : list A :=
  take (Z.to_nat (j - i)) (drop (Z.to_nat i) l).

(** [range(i, j, step)] for a positive step. *)
Fixpoint range_fuel (n : nat) (i step : Z) : list Z :=
  match n with
  | O => []
  | S n' => i :: range_fuel n' (i + step) step
  end.
Definition py_range (i j step : Z) : list Z :=
  range_fuel (Z.to_nat (cdiv (j - i) step)) i step.

(** A [defaultdict(list)]: the value of a missing key is the empty list.  No
    method of the modelled classes tests membership in or iterates over such
    a dict, so the key a read inserts is not observable. *)
Definition dd_get `{Countable K} {A} (m : gmap K (list A)) (k : K) : list A :=
  default [] (m !! k).

(** [list.remove] restricted to lists without duplicates: every occurrence. *)
Definition without `{EqDecision A} (x : A) (l : list A) : list A :=
  filter (fun y => y <> x) l.

Lemma elem_of_without `{EqDecision A} (x y : A) l : y ∈ without x l <-> y ∈ l /\ y <> x.
Proof. unfold without. rewrite list_elem_of_filter. tauto. Qed.

Lemma without_not_elem `{EqDecision A} (x : A) l : x ∉ l -> without x l = l.
Proof.
  intros Hx. induction l as [|y l IH]; [done|]. unfold without in *.
  rewrite filter_cons_True by set_solver. rewrite IH; set_solver.
Qed.

Lemma without_middle `{EqDecision A} (x : A) l1 l2 :
  NoDup (l1 ++ x :: l2) -> without x (l1 ++ x :: l2) = l1 ++ l2.
Proof.
  intros Hnd. apply NoDup_app in Hnd as (? & Hd & [Hx ?]%NoDup_cons).
  unfold without. rewrite filter_app, filter_cons_False by tauto.
  fold (without x l1) (without x l2). f_equal; apply without_not_elem; [|done].
  intros ?. apply (Hd x); set_solver.
Qed.

Lemma elem_of_take_sub {A} n (l : list A) x : x ∈ take n l -> x ∈ l.
Proof.
  intros [k Hk]%list_elem_of_lookup_1. apply lookup_take_Some in Hk as [Hk _].
  by eapply list_elem_of_lookup_2.
Qed.

Lemma NoDup_without `{EqDecision A} (x : A) l : NoDup l -> NoDup (without x l).
Proof. apply NoDup_filter. Qed.

Lemma filter_none {A} (P : A -> Prop) `{!forall x, Decision (P x)} (l : list A) :
  (forall x, x ∈ l -> ~ P x) -> filter P l = [].
Proof.
  induction l as [|x l IH]; intros HP; [done|].
  rewrite filter_cons_False by (apply HP; set_solver). apply IH. intros y Hy. apply HP. set_solver.
Qed.

(** ** Slices and ranges *)

Lemma slice_length {A} i j (l : list A) :
  0 <= i -> i <= j -> len (slice i j l) = Z.min (j - i) (Z.max 0 (len l - i)).
Proof. intros Hi Hj. unfold slice, len. rewrite length_take, length_drop. lia. Qed.

Lemma lookup_range_fuel n i step k :
  (k < n)%nat -> range_fuel n i step !! k = Some (i + Z.of_nat k * step).
Proof.
  revert i k. induction n as [|n IH]; intros i k Hk; [lia|].
  destruct k as [|k]; simpl; [f_equal; lia|]. rewrite IH by lia. f_equal. lia.
Qed.

Lemma length_range_fuel n i step : length (range_fuel n i step) = n.
Proof. revert i. induction n as [|n IH]; intros i; simpl; [done|]. by rewrite IH. Qed.

(** ** Counting block references *)

(** How many times [i] occurs. *)
Definition occ (i : nat) (l : list nat) : Z := len (filter (fun j => j = i) l).

Lemma occ_cons i x l : occ i (x :: l) = (if decide (x = i) then 1 else 0) + occ i l.
Proof.
  unfold occ. rewrite filter_cons. destruct (decide (x = i)); simpl; [by rewrite len_cons|done].
Qed.

Lemma occ_app i l k : occ i (l ++ k) = occ i l + occ i k.
Proof. unfold occ. by rewrite filter_app, len_app. Qed.

Lemma occ_nonneg i l : 0 <= occ i l.
Proof. apply len_nonneg. Qed.

Lemma occ_pos_iff i l : 0 < occ i l <-> i ∈ l.
Proof.
  induction l as [|x l IH]; [change (occ i []) with 0; split; [lia|by intros ?%not_elem_of_nil]|].
  rewrite occ_cons, elem_of_cons. pose proof (occ_nonneg i l).
  destruct (decide (x = i)) as [<-|Hne]; [split; [by left|lia]|].
  rewrite Z.add_0_l, IH. split; [by right|]. intros [->|]; done.
Qed.

Lemma occ_perm i l k : l ≡ₚ k -> occ i l = occ i k.
Proof. intros E. unfold occ, len. by rewrite E. Qed.

Lemma occ_rev i l : occ i (rev l) = occ i l.
Proof. apply occ_perm. by rewrite <- Permutation_rev. Qed.

Lemma occ_NoDup i l : NoDup l -> occ i l = if decide (i ∈ l) then 1 else 0.
Proof.
  induction 1 as [|x l Hx Hnd IH]; [by rewrite decide_False by set_solver|].
  rewrite occ_cons, IH. destruct (decide (x = i)) as [<-|].
  - by rewrite decide_False, decide_True by set_solver.
  - destruct (decide (i ∈ l));
      [rewrite decide_True by set_solver|rewrite decide_False by set_solver]; lia.
Qed.

(** All block references in a table of blocks per request. *)
Definition table_blocks (t : gmap string (list nat)) : list nat := concat (map_to_list t).*2.

Lemma table_blocks_delete t k : table_blocks t ≡ₚ dd_get t k ++ table_blocks (delete k t).
Proof.
  unfold table_blocks, dd_get. destruct (t !! k) as [l|] eqn:E; simpl.
  - by rewrite <- (map_to_list_delete t k l E).
  - by rewrite delete_id.
Qed.

Lemma table_blocks_insert t k l :
  table_blocks (<[k := l]> t) ≡ₚ l ++ table_blocks (delete k t).
Proof.
  unfold table_blocks. rewrite <- insert_delete_eq.
  by rewrite map_to_list_insert by apply lookup_delete_eq.
Qed.

(** ** Automation

    The database [py] closes the side conditions that arithmetic on Python
    integers and lists leaves: signs of lengths and quotients, and membership
    in slices. *)

Create HintDb py discriminated.
Create Rewrite HintDb py.
#[export] Hint Resolve len_nonneg cdiv_nonneg : py.
#[export] Hint Resolve elem_of_take_sub NoDup_without : py.
#[export] Hint Rewrite @len_app @len_cons : py.

(** Arithmetic goals about lengths: split the lists, bring in the signs. *)
Ltac len_lia :=
  repeat match goal with
  | |- context [len ?l] => lazymatch goal with _ : 0 <= len l |- _ => fail | _ => pose proof (len_nonneg l) end
  | _ : context [len ?l] |- _ => lazymatch goal with _ : 0 <= len l |- _ => fail | _ => pose proof (len_nonneg l) end
  end;
  autorewrite with py in *; lia.
