(* ===== verification/KVBlock.v ===== *)
(** The KV cache block objects of [vllm/v1/core/kv_cache_utils.py]: block
    hashes ([BlockHash], [BlockHashWithGroupId]), the block metadata
    ([KVCacheBlock]) and the store of blocks.

    A [KVCacheBlock] is a shared mutable object: the pool's [blocks] list, the
    free queue, the prefix cache and the block lists of requests all point to
    the same objects.  Every block is created once by the pool, with
    [block_id] equal to its index in [blocks], so a reference to a block is
    modelled by its [block_id] and the objects live in one store, the list
    [blocks] itself. *)

From Stdlib Require Import ZArith Lia.
From stdpp Require Import base strings numbers gmap list.
From S2P Require Import Prelude.

Open Scope Z_scope.

(** Extra hash keys are LoRA ids (integers), multi-modal hashes and cache
    salts (strings). *)
Inductive ExtraKey :=
  | KInt (n : Z)
  | KStr (s : string).

#[export] Instance ExtraKey_eq_dec : EqDecision ExtraKey.
Proof. solve_decision. Defined.
#[export] Instance ExtraKey_countable : Countable ExtraKey.
Proof.
  apply (inj_countable' (fun k => match k with KInt n => inl n | KStr s => inr s end)
           (fun k => match k with inl n => KInt n | inr s => KStr s end)).
  by intros [].
Defined.

(** The value the hash function returns for the block, the token ids of the
    block and the extra keys; equality is that of the whole tuple. *)
Record BlockHash := mkBlockHash {
  hash_value : Z;
  token_ids : list Z;
  extra_keys : option (list ExtraKey)
}.

#[export] Instance BlockHash_eq_dec : EqDecision BlockHash.
Proof. solve_decision. Defined.
#[export] Instance BlockHash_countable : Countable BlockHash.
Proof.
  apply (inj_countable' (fun h => (hash_value h, token_ids h, extra_keys h))
           (fun t => mkBlockHash t.1.1 t.1.2 t.2)).
  by intros [].
Defined.

Record BlockHashWithGroupId := mkBlockHashWithGroupId {
  block_hash : BlockHash;
  group_id : nat
}.

#[export] Instance BlockHashWithGroupId_eq_dec : EqDecision BlockHashWithGroupId.
Proof. solve_decision. Defined.
#[export] Instance BlockHashWithGroupId_countable : Countable BlockHashWithGroupId.
Proof.
  apply (inj_countable' (fun h => (block_hash h, group_id h))
           (fun t => mkBlockHashWithGroupId t.1 t.2)).
  by intros [].
Defined.

Definition get_hash_value (h : BlockHashWithGroupId) : Z := hash_value (block_hash h).

Record KVCacheBlock := mkKVCacheBlock {
  block_id : nat;
  ref_cnt : Z;
  _block_hash : option BlockHashWithGroupId;
  prev_free_block : option nat;
  next_free_block : option nat;
  is_null : bool
}.

(** [KVCacheBlock(idx)]: the field defaults. *)
Definition new_block (idx : nat) : KVCacheBlock :=
  mkKVCacheBlock idx 0 None None None false.

#[export] Instance KVCacheBlock_inhabited : Inhabited KVCacheBlock := populate (new_block 0).

Definition set_ref_cnt (n : Z) (b : KVCacheBlock) : KVCacheBlock :=
  mkKVCacheBlock (block_id b) n (_block_hash b) (prev_free_block b) (next_free_block b) (is_null b).
Definition set_hash (h : option BlockHashWithGroupId) (b : KVCacheBlock) : KVCacheBlock :=
  mkKVCacheBlock (block_id b) (ref_cnt b) h (prev_free_block b) (next_free_block b) (is_null b).
Definition set_prev (p : option nat) (b : KVCacheBlock) : KVCacheBlock :=
  mkKVCacheBlock (block_id b) (ref_cnt b) (_block_hash b) p (next_free_block b) (is_null b).
Definition set_next (n : option nat) (b : KVCacheBlock) : KVCacheBlock :=
  mkKVCacheBlock (block_id b) (ref_cnt b) (_block_hash b) (prev_free_block b) n (is_null b).
Definition set_null (v : bool) (b : KVCacheBlock) : KVCacheBlock :=
  mkKVCacheBlock (block_id b) (ref_cnt b) (_block_hash b) (prev_free_block b) (next_free_block b) v.

Definition incr_ref (b : KVCacheBlock) : KVCacheBlock := set_ref_cnt (ref_cnt b + 1) b.
Definition decr_ref (b : KVCacheBlock) : KVCacheBlock := set_ref_cnt (ref_cnt b - 1) b.
(** [reset_hash] *)
Definition reset_hash (b : KVCacheBlock) : KVCacheBlock := set_hash None b.

(** ** The store

    A reference that is read always denotes an existing object. *)

Definition store := list KVCacheBlock.

Definition obj (bs : list KVCacheBlock) (i : nat) : KVCacheBlock := bs !!! i.

(** What the free queue may change: the two link fields.  [core] is the rest. *)
Definition core (b : KVCacheBlock) : nat * Z * option BlockHashWithGroupId * bool :=
  (block_id b, ref_cnt b, _block_hash b, is_null b).
Definition links (b : KVCacheBlock) : nat * option nat * option nat :=
  (block_id b, prev_free_block b, next_free_block b).

Definition same_core (bs bs' : list KVCacheBlock) : Prop := core <$> bs = core <$> bs'.
Definition same_links (bs bs' : list KVCacheBlock) : Prop := links <$> bs = links <$> bs'.

(** Block [i] of the list has id [i]. *)
Definition numbered (bs : list KVCacheBlock) : Prop :=
  forall i b, bs !! i = Some b -> block_id b = i.

#[export] Instance same_core_equiv : Equivalence same_core.
Proof. split; unfold same_core; repeat intro; congruence. Qed.
#[export] Instance same_links_equiv : Equivalence same_links.
Proof. split; unfold same_links; repeat intro; congruence. Qed.

Lemma alter_fmap_id {A B} (g : A -> B) (f : A -> A) (l : list A) i :
  (forall x, g (f x) = g x) -> g <$> alter f i l = g <$> l.
Proof.
  intros Hg. apply list_eq. intros j. rewrite !list_lookup_fmap.
  destruct (decide (i = j)) as [->|Hne].
  - rewrite list_lookup_alter_eq. destruct (l !! j); simpl; [by rewrite Hg | done].
  - by rewrite list_lookup_alter_ne.
Qed.

Lemma same_core_alter f bs i :
  (forall b, core (f b) = core b) -> same_core (alter f i bs) bs.
Proof. apply alter_fmap_id. Qed.
Lemma same_links_alter f bs i :
  (forall b, links (f b) = links b) -> same_links (alter f i bs) bs.
Proof. apply alter_fmap_id. Qed.

Lemma same_core_lookup bs bs' i :
  same_core bs bs' -> core <$> bs !! i = core <$> bs' !! i.
Proof. unfold same_core. intros E. by rewrite <- !list_lookup_fmap, E. Qed.
Lemma same_links_lookup bs bs' i :
  same_links bs bs' -> links <$> bs !! i = links <$> bs' !! i.
Proof. unfold same_links. intros E. by rewrite <- !list_lookup_fmap, E. Qed.

Lemma same_core_length bs bs' : same_core bs bs' -> length bs = length bs'.
Proof. intros E%(f_equal length). by rewrite !length_fmap in E. Qed.
Lemma same_links_length bs bs' : same_links bs bs' -> length bs = length bs'.
Proof. intros E%(f_equal length). by rewrite !length_fmap in E. Qed.

Lemma same_core_inv bs bs' i b :
  same_core bs bs' -> bs' !! i = Some b -> exists b', bs !! i = Some b' /\ core b' = core b.
Proof.
  intros E Hb. pose proof (same_core_lookup _ _ i E) as El. rewrite Hb in El.
  destruct (bs !! i) as [b'|]; [|done]. apply (inj Some) in El. eauto.
Qed.

Lemma numbered_same_core bs bs' : same_core bs bs' -> numbered bs' -> numbered bs.
Proof.
  intros E Hn i b Hb. symmetry in E.
  destruct (same_core_inv _ _ _ _ E Hb) as (b' & Hb' & [=]).
  apply Hn in Hb'. congruence.
Qed.

Lemma lookup_obj bs i : (i < length bs)%nat -> bs !! i = Some (obj bs i).
Proof. intros Hi. by apply list_lookup_lookup_total_lt. Qed.

Lemma obj_alter_eq f bs i : (i < length bs)%nat -> obj (alter f i bs) i = f (obj bs i).
Proof.
  intros Hi. apply Some_inj. rewrite <- lookup_obj by (by rewrite length_alter).
  rewrite list_lookup_alter_eq. by rewrite (lookup_obj bs i Hi).
Qed.

Lemma obj_alter_ne f bs i j : i <> j -> obj (alter f i bs) j = obj bs j.
Proof. intros Hne. unfold obj. by apply list_lookup_total_alter_ne. Qed.

Lemma obj_same_core bs bs' i : same_core bs bs' -> core (obj bs i) = core (obj bs' i).
Proof.
  intros E. unfold obj. rewrite !list_lookup_total_alt.
  pose proof (same_core_lookup _ _ i E) as El.
  destruct (bs !! i), (bs' !! i); simpl in *; congruence.
Qed.
Lemma obj_same_links bs bs' i : same_links bs bs' -> links (obj bs i) = links (obj bs' i).
Proof.
  intros E. unfold obj. rewrite !list_lookup_total_alt.
  pose proof (same_links_lookup _ _ i E) as El.
  destruct (bs !! i), (bs' !! i); simpl in *; congruence.
Qed.
