(* ===== verification/FreeQueue.v ===== *)
(** The interface of the free-block queues that [BlockPool] uses.

    [block_pool.py] picks one of two classes, [FreeKVCacheBlockQueue] (a
    doubly linked list threaded through the blocks) and
    [FreeKVCacheBlockQueueHPU] (a binary heap of block ids), and calls the
    same methods on either.  [FreeBlockQueue] is the duck type, the classes
    [FreeBlockQueueSpec] and [FreeBlockQueueRemove] are what the pool relies on:
    the queue holds a list of distinct block ids, [popleft] takes the first,
    [append] adds one, and only the link fields of the blocks change. *)

From Stdlib Require Import ZArith Lia.
From stdpp Require Import base strings numbers gmap list.
From S2P Require Import Prelude.
From S2P Require Import KVBlock.

Open Scope Z_scope.

(** A queue object together with the block store it threads its links through. *)
Class FreeBlockQueue (Q : Type) := {
  fq_init : list KVCacheBlock -> result (list KVCacheBlock * Q);
  fq_popleft : M (list KVCacheBlock * Q) nat;
  fq_remove : nat -> M (list KVCacheBlock * Q) unit;
  fq_append : nat -> M (list KVCacheBlock * Q) unit;
  fq_num_free_blocks : Q -> Z
}.

Class FreeBlockQueueSpec (Q : Type) `{FreeBlockQueue Q} := {
  (** [fq_rep bs q l]: [q] holds the ids [l], in the order they will be popped. *)
  fq_rep : list KVCacheBlock -> Q -> list nat -> Prop;
  (** Where [append] puts an id. *)
  fq_insert : nat -> list nat -> list nat;
  fq_insert_perm x l : fq_insert x l ≡ₚ x :: l;
  fq_rep_wf bs q l :
    fq_rep bs q l -> NoDup l /\ Forall (fun i => (i < length bs)%nat) l;
  (** The pool may write the other fields of the blocks. *)
  fq_rep_links bs bs' q l : same_links bs bs' -> fq_rep bs q l -> fq_rep bs' q l;
  fq_num_free_spec bs q l : fq_rep bs q l -> fq_num_free_blocks q = len l;
  fq_init_spec n :
    (0 < n)%nat ->
    exists bs q, fq_init (new_block <$> seq 0 n) = Ok (bs, q) /\
      same_core bs (new_block <$> seq 0 n) /\ fq_rep bs q (seq 0 n);
  fq_popleft_nil bs q : fq_rep bs q [] -> fq_popleft (bs, q) = Raise ValueError (bs, q);
  fq_popleft_cons bs q x l :
    fq_rep bs q (x :: l) ->
    wp fq_popleft (fun y '(bs', q') =>
      y = x /\ same_core bs' bs /\ fq_rep bs' q' l) (bs, q);
  fq_append_spec bs q l x :
    fq_rep bs q l -> (x < length bs)%nat -> x ∉ l ->
    wp (fq_append x) (fun _ '(bs', q') =>
      same_core bs' bs /\ fq_rep bs' q' (fq_insert x l)) (bs, q)
}.

(** [remove] of a block in the middle; needed only when prefix caching is on. *)
Class FreeBlockQueueRemove (Q : Type) `{FreeBlockQueueSpec Q} := {
  fq_remove_spec bs q l x :
    fq_rep bs q l -> x ∈ l ->
    wp (fq_remove x) (fun _ '(bs', q') =>
      same_core bs' bs /\ fq_rep bs' q' (without x l)) (bs, q)
}.
