(* ===== verification/LinkedQueue.v ===== *)
(** [FreeKVCacheBlockQueue] of [vllm/v1/core/kv_cache_utils.py]: a doubly
    linked list of free blocks threaded through [prev_free_block] and
    [next_free_block].  It refines a list of block ids: [popleft] is the head
    of the list, [append] its end, [remove] deletes in the middle. *)

From Stdlib Require Import ZArith Lia.
From stdpp Require Import base strings numbers gmap list.
From S2P Require Import Prelude.
From S2P Require Import KVBlock.
From S2P Require Import FreeQueue.

Open Scope Z_scope.

Module FreeKVCacheBlockQueue.

Record t := mk {
  num_free_blocks : Z;
  free_list_head : option nat;
  free_list_tail : option nat
}.

Definition set_num (f : Z -> Z) (q : t) : t := mk (f (num_free_blocks q)) (free_list_head q) (free_list_tail q).
Definition set_head (h : option nat) (q : t) : t := mk (num_free_blocks q) h (free_list_tail q).
Definition set_tail (h : option nat) (q : t) : t := mk (num_free_blocks q) (free_list_head q) h.

(** The loop of [__init__] links block [i] with blocks [i - 1] and [i + 1]. *)
Definition link_block (num : nat) (i : nat) (b : KVCacheBlock) : KVCacheBlock :=
  let b := if (0 <? i)%nat then set_prev (Some (i - 1)%nat) b else b in
  if (i <? num - 1)%nat then set_next (Some (i + 1)%nat) b else b.

(** [__init__]; [blocks[0]] raises [IndexError] on an empty list. *)
Definition init (blocks : list KVCacheBlock) : result (list KVCacheBlock * t) :=
  match blocks with
  | [] => Err IndexError
  | _ =>
      let num := length blocks in
      Ok (imap (link_block num) blocks,
          mk (Z.of_nat num) (Some (block_id (obj blocks 0)))
             (Some (block_id (obj blocks (num - 1)))))
  end.

Definition write (f : KVCacheBlock -> KVCacheBlock) (i : nat) : M (list KVCacheBlock * t) unit :=
  modify (fun '(bs, q) => (alter f i bs, q)).
Definition read {A} (f : KVCacheBlock -> A) (i : nat) : M (list KVCacheBlock * t) A :=
  gets (fun '(bs, _) => f (obj bs i)).
Definition upd (f : t -> t) : M (list KVCacheBlock * t) unit :=
  modify (fun '(bs, q) => (bs, f q)).

Definition remove (block : nat) : M (list KVCacheBlock * t) unit :=
  prev ← read prev_free_block block;
  match prev with
  | Some p => next ← read next_free_block block; write (set_next next) p
  | None => mret tt
  end ;;
  next ← read next_free_block block;
  match next with
  | Some n => prev ← read prev_free_block block; write (set_prev prev) n
  | None => mret tt
  end ;;
  head ← gets (fun '(_, q) => free_list_head q);
  (if bool_decide (head = Some block)
   then next ← read next_free_block block; upd (set_head next) else mret tt) ;;
  tail ← gets (fun '(_, q) => free_list_tail q);
  (if bool_decide (tail = Some block)
   then prev ← read prev_free_block block; upd (set_tail prev) else mret tt) ;;
  write (set_prev None) block ;;
  write (set_next None) block ;;
  upd (set_num (fun n => n - 1)).

Definition popleft : M (list KVCacheBlock * t) nat :=
  head ← gets (fun '(_, q) => free_list_head q);
  match head with
  | None => raise ValueError
  | Some block => remove block ;; mret block
  end.

Definition append (block : nat) : M (list KVCacheBlock * t) unit :=
  tail ← gets (fun '(_, q) => free_list_tail q);
  match tail with
  | Some l =>
      write (set_next (Some block)) l ;;
      write (set_prev (Some l)) block ;;
      upd (set_tail (Some block))
  | None =>
      head ← gets (fun '(_, q) => free_list_head q);
      py_assert (bool_decide (head = None)) ;;
      upd (fun q => set_head (Some block) (set_tail (Some block) q))
  end ;;
  write (set_next None) block ;;
  upd (set_num (fun n => n + 1)).

(** [get_all_free_blocks]: the loop follows [next_free_block] from the head; a
    list that is no cycle has at most one step per block. *)
Fixpoint walk (fuel : nat) (bs : list KVCacheBlock) (curr : option nat) : list nat :=
  match fuel, curr with
  | S fuel', Some i => i :: walk fuel' bs (next_free_block (obj bs i))
  | _, _ => []
  end.
Definition get_all_free_blocks (bs : list KVCacheBlock) (q : t) : list nat :=
  walk (length bs) bs (free_list_head q).

(** ** Representation *)

Definition first_or (l : list nat) (d : option nat) : option nat :=
  match l with [] => d | x :: _ => Some x end.
Definition last_or (l : list nat) (d : option nat) : option nat :=
  match last l with Some x => Some x | None => d end.

(** [seg bs pp l qn]: the blocks [l] are linked in this order, the first one's
    predecessor is [pp] and the last one's successor is [qn]. *)
Fixpoint seg (bs : list KVCacheBlock) (pp : option nat) (l : list nat) (qn : option nat) : Prop :=
  match l with
  | [] => True
  | x :: l' =>
      prev_free_block (obj bs x) = pp /\
      next_free_block (obj bs x) = first_or l' qn /\
      seg bs (Some x) l' qn
  end.

Record rep (bs : list KVCacheBlock) (q : t) (l : list nat) : Prop := {
  rep_nodup : NoDup l;
  rep_bound : Forall (fun i => (i < length bs)%nat) l;
  rep_num : num_free_blocks q = len l;
  rep_head : free_list_head q = first_or l None;
  rep_tail : free_list_tail q = last l;
  rep_seg : seg bs None l None;
  (** Blocks outside the list have no links. *)
  rep_out : forall i, i ∉ l -> (i < length bs)%nat ->
    prev_free_block (obj bs i) = None /\ next_free_block (obj bs i) = None
}.

Lemma seg_app bs pp l1 l2 qn :
  seg bs pp (l1 ++ l2) qn <-> seg bs pp l1 (first_or l2 qn) /\ seg bs (last_or l1 pp) l2 qn.
Proof.
  revert pp. induction l1 as [|x l1 IH]; intros pp; simpl; [tauto|].
  rewrite IH. replace (first_or (l1 ++ l2) qn) with (first_or l1 (first_or l2 qn)) by by destruct l1.
  replace (last_or (x :: l1) pp) with (last_or l1 (Some x)); [tauto|].
  unfold last_or. rewrite last_cons. by destruct (last l1).
Qed.

Lemma seg_frame bs bs' pp l qn :
  (forall i, i ∈ l -> links (obj bs' i) = links (obj bs i)) -> seg bs pp l qn -> seg bs' pp l qn.
Proof.
  revert pp. induction l as [|x l IH]; intros pp Hf; simpl; [done|].
  intros (Hp & Hn & Hs). pose proof (Hf x ltac:(set_solver)) as [= _ -> ->].
  split_and!; [done..|]. apply IH; [set_solver|done].
Qed.

Lemma seg_frame_alter f bs pp l qn i :
  i ∉ l -> seg bs pp l qn -> seg (alter f i bs) pp l qn.
Proof.
  intros Hi. apply seg_frame. intros j Hj. rewrite obj_alter_ne; [done|set_solver].
Qed.

(** Redirecting the end of a segment. *)
Lemma seg_set_end bs pp l p qn n :
  NoDup (l ++ [p]) -> (p < length bs)%nat ->
  seg bs pp (l ++ [p]) qn -> seg (alter (set_next n) p bs) pp (l ++ [p]) n.
Proof.
  intros [_ [Hd _]]%NoDup_app Hp. rewrite !seg_app; simpl.
  intros [Hl (Hpp & _ & _)]. rewrite obj_alter_eq by done. split_and!; simpl; try done.
  apply seg_frame_alter; [|done]. intros ?. eapply Hd; set_solver.
Qed.

(** Redirecting the start of a segment. *)
Lemma seg_set_start bs pp l p qn n :
  NoDup (p :: l) -> (p < length bs)%nat ->
  seg bs pp (p :: l) qn -> seg (alter (set_prev n) p bs) n (p :: l) qn.
Proof.
  intros [Hd _]%NoDup_cons Hp (_ & Hn & Hs). simpl. rewrite obj_alter_eq by done.
  split_and!; simpl; try done. by apply seg_frame_alter.
Qed.

Lemma last_or_last l : last_or l None = last l.
Proof. unfold last_or. by destruct (last l). Qed.

Lemma wp_write f i (Q : unit -> list KVCacheBlock * t -> Prop) bs q :
  Q tt (alter f i bs, q) -> wp (write f i) Q (bs, q).
Proof. done. Qed.
Lemma wp_read {A} (f : KVCacheBlock -> A) i (Q : A -> list KVCacheBlock * t -> Prop) bs q :
  Q (f (obj bs i)) (bs, q) -> wp (read f i) Q (bs, q).
Proof. done. Qed.
Lemma wp_upd f (Q : unit -> list KVCacheBlock * t -> Prop) bs q :
  Q tt (bs, f q) -> wp (upd f) Q (bs, q).
Proof. done. Qed.

Ltac q_step :=
  first [ wp_step | apply wp_write | apply wp_read | apply wp_upd ]; cbv beta; simpl.

(** The store after [remove]: the neighbours of [x] point to each other. *)
Definition unlink (bs : list KVCacheBlock) (l1 : list nat) (x : nat) (l2 : list nat) :=
  let bs1 := match last l1 with
             | Some p => alter (set_next (first_or l2 None)) p bs | None => bs end in
  let bs2 := match first_or l2 None with
             | Some n => alter (set_prev (last l1)) n bs1 | None => bs1 end in
  alter (set_next None) x (alter (set_prev None) x bs2).

Lemma unlink_core bs l1 x l2 : same_core (unlink bs l1 x l2) bs.
Proof.
  unfold unlink. destruct (last l1), (first_or l2 None);
    rewrite !same_core_alter by done; done.
Qed.

Lemma unlink_length bs l1 x l2 : length (unlink bs l1 x l2) = length bs.
Proof. apply same_core_length, unlink_core. Qed.

Lemma rep_middle bs q l1 x l2 :
  rep bs q (l1 ++ x :: l2) ->
  prev_free_block (obj bs x) = last l1 /\ next_free_block (obj bs x) = first_or l2 None.
Proof.
  intros R. pose proof (rep_seg _ _ _ R) as S. apply seg_app in S as [_ S]. simpl in S.
  rewrite last_or_last in S. tauto.
Qed.

(** The new head and tail are those of the shortened list. *)
Lemma head_after l1 x l2 :
  NoDup (l1 ++ x :: l2) ->
  first_or (l1 ++ l2) None =
    if bool_decide (first_or (l1 ++ x :: l2) None = Some x)
    then first_or l2 None else first_or (l1 ++ x :: l2) None.
Proof.
  intros Hnd. destruct l1 as [|y l1]; simpl.
  - by rewrite bool_decide_true.
  - rewrite bool_decide_false; [done|]. intros [= ->].
    apply NoDup_cons in Hnd as [Hnd _]. set_solver.
Qed.

Lemma tail_after (l1 : list nat) x l2 :
  NoDup (l1 ++ x :: l2) ->
  last (l1 ++ l2) =
    if bool_decide (last (l1 ++ x :: l2) = Some x) then last l1 else last (l1 ++ x :: l2).
Proof.
  intros Hnd. destruct l2 as [|y l2 _] using rev_ind.
  - rewrite last_snoc, bool_decide_true, app_nil_r by done. done.
  - rewrite app_comm_cons, !app_assoc, !last_snoc.
    rewrite bool_decide_false; [done|]. intros [= ->].
    apply NoDup_app in Hnd as (_ & _ & [Hx _]%NoDup_cons). set_solver.
Qed.

Lemma remove_runs bs q l1 x l2 :
  rep bs q (l1 ++ x :: l2) ->
  remove x (bs, q) =
    Ret tt (unlink bs l1 x l2,
            mk (num_free_blocks q - 1) (first_or (l1 ++ l2) None) (last (l1 ++ l2))).
Proof.
  intros R. destruct (rep_middle _ _ _ _ _ R) as [Hp Hn].
  pose proof (rep_nodup _ _ _ R) as Hnd.
  rewrite (head_after l1 x l2), (tail_after l1 x l2) by done.
  destruct q as [n h tl]. pose proof (rep_head _ _ _ R) as Hh. pose proof (rep_tail _ _ _ R) as Ht.
  simpl in Hh, Ht. rewrite <- Hh, <- Ht. clear R Hh Ht.
  apply NoDup_app in Hnd as (_ & Hd & [Hx _]%NoDup_cons).
  assert (forall p, last l1 = Some p -> p <> x) as Hpx.
  { intros p Hl ->. apply last_Some_elem_of in Hl. apply (Hd x); set_solver. }
  assert (forall y, first_or l2 None = Some y -> y <> x) as Hnx.
  { intros y Hy ->. destruct l2; simplify_eq/=. set_solver. }
  unfold remove, unlink, read, write, upd, gets, modify.
  unfold mbind, M_mbind, M_bind, mret, M_mret, M_ret. rewrite Hp.
  destruct (last l1) as [p|] eqn:E1, (first_or l2 None) as [y|] eqn:E2;
    rewrite ?obj_alter_ne by eauto; rewrite ?Hn, ?Hp; simpl;
    rewrite ?obj_alter_ne by eauto; rewrite ?Hn, ?Hp; simpl;
    repeat case_bool_decide; simplify_eq/=;
    rewrite ?obj_alter_ne by eauto; rewrite ?Hn, ?Hp; done.
Qed.

Lemma seg_unlink bs l1 x l2 :
  NoDup (l1 ++ x :: l2) -> Forall (fun i => (i < length bs)%nat) (l1 ++ x :: l2) ->
  seg bs None (l1 ++ x :: l2) None -> seg (unlink bs l1 x l2) None (l1 ++ l2) None.
Proof.
  intros (Hnd1 & Hd & [Hx Hnd2]%NoDup_cons)%NoDup_app Hb%Forall_app HS.
  destruct Hb as [Hb1 [Hbx Hb2]%Forall_cons].
  apply seg_app in HS as [H1 H2]. simpl in H2. destruct H2 as (_ & _ & H2).
  apply seg_app. rewrite last_or_last. unfold unlink.
  assert (x ∉ l1) by (intros ?; apply (Hd x); set_solver).
  split; repeat (apply seg_frame_alter; [assumption|]).
  - destruct (first_or l2 None) as [y|] eqn:E2.
    { apply seg_frame_alter; [destruct l2; simplify_eq/=; intros ?; apply (Hd y); set_solver|].
      destruct l1 as [|p l1 _] using rev_ind; [done|]. rewrite last_snoc.
      eapply seg_set_end; [done| |done]. by apply Forall_app in Hb1 as [_ [? _]%Forall_cons]. }
    destruct l1 as [|p l1 _] using rev_ind; [done|]. rewrite last_snoc.
    eapply seg_set_end; [done| |done]. by apply Forall_app in Hb1 as [_ [? _]%Forall_cons].
  - destruct l2 as [|y l2]; [done|]. simpl first_or.
    eapply seg_set_start; [done| | ].
    { apply Forall_cons in Hb2 as [? _]. by destruct (last l1); rewrite ?length_alter. }
    destruct (last l1) as [p|] eqn:E1; [|done].
    apply seg_frame_alter; [|done]. apply last_Some_elem_of in E1. intros ?.
    apply (Hd p); set_solver.
Qed.

Lemma unlink_out bs l1 x l2 :
  NoDup (l1 ++ x :: l2) -> (x < length bs)%nat ->
  (forall i, i ∉ l1 ++ x :: l2 -> (i < length bs)%nat ->
     prev_free_block (obj bs i) = None /\ next_free_block (obj bs i) = None) ->
  forall i, i ∉ l1 ++ l2 -> (i < length bs)%nat ->
    prev_free_block (obj (unlink bs l1 x l2) i) = None /\
    next_free_block (obj (unlink bs l1 x l2) i) = None.
Proof.
  intros Hnd Hx Hout i Hi Hb. unfold unlink.
  destruct (decide (i = x)) as [->|Hne].
  - rewrite !obj_alter_eq; [done|..]; rewrite ?length_alter;
      destruct (last l1), (first_or l2 None); rewrite ?length_alter; done.
  - assert (forall p, last l1 = Some p -> p <> i) as Hp.
    { intros p E ->. apply last_Some_elem_of in E. set_solver. }
    assert (forall y, first_or l2 None = Some y -> y <> i) as Hy.
    { intros y E ->. destruct l2; simplify_eq/=. set_solver. }
    rewrite !(obj_alter_ne _ _ x) by done.
    destruct (last l1), (first_or l2 None); rewrite ?obj_alter_ne by eauto;
      apply Hout; set_solver.
Qed.

(** [remove] of any listed block. *)
Lemma remove_middle bs q l1 x l2 :
  rep bs q (l1 ++ x :: l2) ->
  wp (remove x) (fun _ '(bs', q') => same_core bs' bs /\ rep bs' q' (l1 ++ l2)) (bs, q).
Proof.
  intros R. eapply wp_intro; [by apply remove_runs|]. simpl. split; [apply unlink_core|].
  destruct R as [Hnd Hb Hn Hh Ht HS Ho]. split; simpl.
  - apply NoDup_app in Hnd as (? & Hd & [? ?]%NoDup_cons). apply NoDup_app. set_solver.
  - rewrite unlink_length. rewrite Forall_app, Forall_cons in Hb. apply Forall_app. tauto.
  - rewrite Hn, !len_app, len_cons. lia.
  - done.
  - done.
  - by apply seg_unlink.
  - intros i Hi Hl. rewrite unlink_length in Hl. apply unlink_out; try done.
    rewrite Forall_app, Forall_cons in Hb. tauto.
Qed.

Lemma remove_spec bs q l x :
  rep bs q l -> x ∈ l ->
  wp (remove x) (fun _ '(bs', q') => same_core bs' bs /\ rep bs' q' (without x l)) (bs, q).
Proof.
  intros R (l1 & l2 & ->)%list_elem_of_split.
  rewrite without_middle by apply (rep_nodup _ _ _ R). by apply remove_middle.
Qed.

Lemma popleft_nil bs q : rep bs q [] -> popleft (bs, q) = Raise ValueError (bs, q).
Proof.
  intros R. unfold popleft, mbind, M_mbind, M_bind, gets.
  by rewrite (rep_head _ _ _ R).
Qed.

Lemma popleft_cons bs q x l :
  rep bs q (x :: l) ->
  wp popleft (fun y '(bs', q') => y = x /\ same_core bs' bs /\ rep bs' q' l) (bs, q).
Proof.
  intros R. unfold popleft. q_step. q_step. rewrite (rep_head _ _ _ R). simpl. q_step.
  eapply wp_mono; [by apply (remove_middle _ _ [] x l)|].
  intros [] [bs' q'] [? ?]. q_step. done.
Qed.

Lemma append_spec bs q l x :
  rep bs q l -> (x < length bs)%nat -> x ∉ l ->
  wp (append x) (fun _ '(bs', q') => same_core bs' bs /\ rep bs' q' (l ++ [x])) (bs, q).
Proof.
  intros [Hnd Hb Hn Hh Ht HS Ho] Hx Hxl. unfold append. q_step. q_step. rewrite Ht.
  destruct l as [|p l _] using rev_ind.
  - simpl. repeat q_step. rewrite Hh. apply wp_assert; [done|]. repeat q_step.
    split; [by apply same_core_alter|].
    destruct (Ho x Hxl Hx) as [Hp _]. split; simpl.
    + apply NoDup_singleton.
    + rewrite length_alter. by apply Forall_singleton.
    + by rewrite Hn.
    + done.
    + done.
    + by rewrite obj_alter_eq.
    + intros i Hi. rewrite length_alter. intros Hl. rewrite obj_alter_ne by set_solver.
      apply Ho; set_solver.
  - rewrite last_snoc. repeat q_step.
    assert (p <> x) as Hpx by set_solver.
    assert ((p < length bs)%nat) as Hp by (by apply Forall_app in Hb as [_ [? _]%Forall_cons]).
    split; [by rewrite !same_core_alter|]. split; simpl.
    + apply NoDup_app. split_and!; [done|set_solver|apply NoDup_singleton].
    + rewrite !length_alter. apply Forall_app. split; [done|by apply Forall_singleton].
    + rewrite Hn, !len_app. done.
    + rewrite Hh. by destruct l.
    + by rewrite last_snoc.
    + apply seg_app. split.
      * do 2 (apply seg_frame_alter; [done|]). eapply seg_set_end; [done..|]. done.
      * rewrite last_or_last, last_snoc. simpl.
        rewrite !obj_alter_eq by (by rewrite ?length_alter). done.
    + intros i Hi. rewrite !length_alter. intros Hl.
      rewrite !obj_alter_ne by set_solver. apply Ho; set_solver.
Qed.

Lemma seg_seq bs pp s m qn :
  (forall i, (s <= i < s + m)%nat ->
     prev_free_block (obj bs i) = (if decide (i = s) then pp else Some (i - 1)%nat) /\
     next_free_block (obj bs i) = (if decide (S i = s + m)%nat then qn else Some (S i))) ->
  seg bs pp (seq s m) qn.
Proof.
  revert pp s. induction m as [|m IH]; intros pp s Hl; simpl; [done|].
  destruct (Hl s) as [Hp Hn]; [lia|]. rewrite decide_True in Hp by done.
  split_and!; [done| |].
  - rewrite Hn. destruct m; simpl; [by rewrite decide_True by lia | by rewrite decide_False by lia].
  - apply IH. intros i Hi. destruct (Hl i) as [Hp' Hn']; [lia|].
    rewrite decide_False in Hp' by lia. split.
    + rewrite Hp'. destruct (decide (i = S s)); [f_equal; lia|done].
    + rewrite Hn'. destruct (decide (S i = S s + m)%nat), (decide (S i = s + S m)%nat);
        done || lia.
Qed.

Lemma obj_init n i :
  (i < n)%nat -> obj (imap (link_block n) (new_block <$> seq 0 n)) i = link_block n i (new_block i).
Proof.
  intros Hi. unfold obj. apply list_lookup_total_correct.
  by rewrite list_lookup_imap, list_lookup_fmap, lookup_seq_lt.
Qed.

Lemma init_spec n :
  (0 < n)%nat ->
  exists bs q, init (new_block <$> seq 0 n) = Ok (bs, q) /\
    same_core bs (new_block <$> seq 0 n) /\ rep bs q (seq 0 n).
Proof.
  intros Hn.
  set (bs := imap (link_block n) (new_block <$> seq 0 n)).
  assert (length bs = n) as Hlen by (unfold bs; by rewrite length_imap, length_fmap, length_seq).
  exists bs, (mk (Z.of_nat n) (Some 0%nat) (Some (n - 1)%nat)). split_and!.
  - assert (length (new_block <$> seq 0 n) = n) as E by by rewrite length_fmap, length_seq.
    assert (forall i, (i < n)%nat -> block_id (obj (new_block <$> seq 0 n) i) = i) as Hid.
    { intros i Hi. unfold obj.
      erewrite list_lookup_total_correct; [|by rewrite list_lookup_fmap, lookup_seq_lt]. done. }
    unfold init. rewrite E, !Hid by lia. unfold bs. by destruct n; [lia|].
  - unfold same_core, bs. apply list_eq. intros i.
    rewrite !list_lookup_fmap, list_lookup_imap, list_lookup_fmap.
    destruct (seq 0 n !! i); simpl; [|done]. unfold link_block. f_equal.
    by destruct (0 <? i)%nat, (i <? n - 1)%nat.
  - split; simpl.
    + apply NoDup_seq.
    + apply Forall_forall. intros i Hi%elem_of_seq. lia.
    + unfold len. by rewrite length_seq.
    + by destruct n; [lia|].
    + destruct n as [|n]; [lia|]. rewrite seq_S, last_snoc. simpl. f_equal. lia.
    + apply seg_seq. intros i Hi. unfold bs. rewrite obj_init by lia. unfold link_block.
      destruct (Nat.ltb_spec 0 i), (Nat.ltb_spec i (n - 1)); repeat case_decide; try lia;
        simpl; split; try done; f_equal; lia.
    + intros i Hi. rewrite Hlen. intros Hl. exfalso. apply Hi, elem_of_seq. lia.
Qed.

(** Following the links from the head lists the queue in order. *)
Lemma walk_seg fuel bs pp l :
  (length l <= fuel)%nat -> seg bs pp l None -> walk fuel bs (first_or l None) = l.
Proof.
  revert pp l. induction fuel as [|fuel IH]; intros pp l Hl HS; destruct l as [|x l];
    simpl in *; try done; [lia|].
  destruct HS as (_ & -> & HS). f_equal. eapply IH; [lia|done].
Qed.

Lemma get_all_free_blocks_rep bs q l : rep bs q l -> get_all_free_blocks bs q = l.
Proof.
  intros R. unfold get_all_free_blocks. rewrite (rep_head _ _ _ R).
  eapply walk_seg; [|apply (rep_seg _ _ _ R)].
  rewrite <- (length_seq (length bs) 0).
  apply submseteq_length, NoDup_submseteq; [apply (rep_nodup _ _ _ R)|].
  intros i Hi. apply elem_of_seq.
  pose proof (proj1 (Forall_forall _ _) (rep_bound _ _ _ R) i Hi). simpl in *. lia.
Qed.

Lemma rep_links bs bs' q l : same_links bs bs' -> rep bs q l -> rep bs' q l.
Proof.
  intros E [Hnd Hb Hn Hh Ht HS Ho].
  pose proof (same_links_length _ _ E) as Hlen.
  assert (forall i, links (obj bs' i) = links (obj bs i)) as Hl.
  { intros i. symmetry. by apply obj_same_links. }
  split; try done.
  - by rewrite <- Hlen.
  - by apply seg_frame with bs.
  - intros i Hi Hlt. rewrite <- Hlen in Hlt. pose proof (Hl i) as [= _ -> ->]. by apply Ho.
Qed.

End FreeKVCacheBlockQueue.

#[export] Instance FreeKVCacheBlockQueue_ops : FreeBlockQueue FreeKVCacheBlockQueue.t := {
  fq_init := FreeKVCacheBlockQueue.init;
  fq_popleft := FreeKVCacheBlockQueue.popleft;
  fq_remove := FreeKVCacheBlockQueue.remove;
  fq_append := FreeKVCacheBlockQueue.append;
  fq_num_free_blocks := FreeKVCacheBlockQueue.num_free_blocks
}.

(** The linked list discharges the whole interface; [append] goes to the end. *)
#[export] Instance FreeKVCacheBlockQueue_spec : FreeBlockQueueSpec FreeKVCacheBlockQueue.t.
Proof.
  refine {| fq_rep := FreeKVCacheBlockQueue.rep; fq_insert := fun x l => l ++ [x] |}.
  - intros x l. by rewrite Permutation_app_comm.
  - intros bs q l R. split; apply R.
  - apply FreeKVCacheBlockQueue.rep_links.
  - intros bs q l R. apply R.
  - apply FreeKVCacheBlockQueue.init_spec.
  - apply FreeKVCacheBlockQueue.popleft_nil.
  - apply FreeKVCacheBlockQueue.popleft_cons.
  - apply FreeKVCacheBlockQueue.append_spec.
Defined.

#[export] Instance FreeKVCacheBlockQueue_remove : FreeBlockQueueRemove FreeKVCacheBlockQueue.t.
Proof. constructor. apply FreeKVCacheBlockQueue.remove_spec. Qed.

(** *** Properties *)

(** C30: the doubly linked list implements a queue without duplicates: following
    the links lists it in order and the counter is its length; [popleft] takes
    the first id or raises on an empty queue, [append] adds at the end, and
    [remove] takes an id out of the middle; only the links of blocks change. *)
Theorem linked_queue_refines bs q l :
  FreeKVCacheBlockQueue.rep bs q l ->
  FreeKVCacheBlockQueue.get_all_free_blocks bs q = l /\ FreeKVCacheBlockQueue.num_free_blocks q = len l /\
  match l with
  | [] => FreeKVCacheBlockQueue.popleft (bs, q) = Raise ValueError (bs, q)
  | x :: l' => wp FreeKVCacheBlockQueue.popleft (fun y '(bs', q') =>
      y = x /\ same_core bs' bs /\ FreeKVCacheBlockQueue.rep bs' q' l') (bs, q)
  end /\
  (forall x, (x < length bs)%nat -> x ∉ l -> wp (FreeKVCacheBlockQueue.append x) (fun _ '(bs', q') =>
     same_core bs' bs /\ FreeKVCacheBlockQueue.rep bs' q' (l ++ [x])) (bs, q)) /\
  (forall x, x ∈ l -> wp (FreeKVCacheBlockQueue.remove x) (fun _ '(bs', q') =>
     same_core bs' bs /\ FreeKVCacheBlockQueue.rep bs' q' (without x l)) (bs, q)).
Proof.
  intros R. split; [by apply FreeKVCacheBlockQueue.get_all_free_blocks_rep|]. split; [apply R|].
  split; [|split].
  - destruct l; [by apply FreeKVCacheBlockQueue.popleft_nil|by apply FreeKVCacheBlockQueue.popleft_cons].
  - intros x. by apply FreeKVCacheBlockQueue.append_spec.
  - intros x. by apply FreeKVCacheBlockQueue.remove_spec.
Qed.

Lemma linked_queue_refines_witness :
  exists bs q, FreeKVCacheBlockQueue.init (new_block <$> seq 0 3) = Ok (bs, q) /\
    FreeKVCacheBlockQueue.get_all_free_blocks bs q = [0; 1; 2]%nat.
Proof.
  destruct (FreeKVCacheBlockQueue.init_spec 3 ltac:(lia)) as (bs & q & E & _ & R).
  exists bs, q. split; [exact E|]. apply (linked_queue_refines bs q [0; 1; 2]%nat R).
Defined.
