(* ===== verification/Heapq.v ===== *)
(** The parts of Python's [heapq] that [FreeKVCacheBlockQueueHPU] uses, as
    CPython computes them on a list, and the proof that they implement a
    priority queue: [heappush], [heappop] and [heapify] keep the heap order
    and the multiset of elements, and [heappop] returns the least one. *)

From Stdlib Require Import ZArith Lia Sorted.
From stdpp Require Import base strings numbers gmap list.
From S2P Require Import Prelude.

Open Scope nat_scope.

(** ** Replacing elements *)

Lemma insert_Permutation {A} (l : list A) i x :
  i < length l -> <[i := x]> l ≡ₚ x :: delete i l.
Proof.
  revert i. induction l as [|y l IH]; intros [|i] Hi; simpl in *; try lia; [done|].
  rewrite IH by lia. apply Permutation_swap.
Qed.

(** Moving the element at [i] to [j] and storing [x] at [i] instead. *)
Lemma insert_move {A} (l : list A) i j x a :
  i <> j -> l !! i = Some a -> j < length l ->
  <[i := x]> (<[j := a]> l) ≡ₚ <[j := x]> l.
Proof.
  intros Hij Ha Hj. pose proof (lookup_lt_Some _ _ _ Ha) as Hi.
  etrans; [apply insert_Permutation; by rewrite length_insert|].
  etrans; [|symmetry; by apply insert_Permutation]. apply perm_skip.
  apply (Permutation_cons_inv (a := a)). etrans; [symmetry; apply delete_Permutation|].
  - by rewrite list_lookup_insert_ne.
  - by apply insert_Permutation.
Qed.

Lemma total_insert (l : list nat) i j x :
  i < length l -> <[i := x]> l !!! j = if decide (i = j) then x else l !!! j.
Proof.
  intros Hi. case_decide as E; [subst; by apply list_lookup_total_insert_eq|].
  by apply list_lookup_total_insert_ne.
Qed.

(** ** The algorithms *)

Definition parent (j : nat) : nat := (j - 1) / 2.

(** [_siftdown]: [newitem] moves up until its parent is no greater. *)
Fixpoint siftdown_loop (fuel : nat) (newitem startpos pos : nat) (heap : list nat) : list nat :=
  match fuel with
  | O => <[pos := newitem]> heap
  | S fuel' =>
      if startpos <? pos then
        let p := heap !!! parent pos in
        if newitem <? p
        then siftdown_loop fuel' newitem startpos (parent pos) (<[pos := p]> heap)
        else <[pos := newitem]> heap
      else <[pos := newitem]> heap
  end.
Definition siftdown (startpos pos : nat) (heap : list nat) : list nat :=
  siftdown_loop pos (heap !!! pos) startpos pos heap.

(** The child of [childpos]'s parent that [_siftup] follows. *)
Definition smaller_child (childpos : nat) (heap : list nat) : nat :=
  let rightpos := childpos + 1 in
  if (rightpos <? length heap) && negb (heap !!! childpos <? heap !!! rightpos)
  then rightpos else childpos.

(** [_siftup]: the smaller child moves up until a leaf is hit, then the new
    item is placed there and sifted to its place. *)
Fixpoint siftup_loop (fuel : nat) (newitem startpos pos : nat) (heap : list nat) : list nat :=
  let done := siftdown startpos pos (<[pos := newitem]> heap) in
  match fuel with
  | O => done
  | S fuel' =>
      let childpos := 2 * pos + 1 in
      if childpos <? length heap then
        let child := smaller_child childpos heap in
        siftup_loop fuel' newitem startpos child (<[pos := heap !!! child]> heap)
      else done
  end.
Definition siftup (pos : nat) (heap : list nat) : list nat :=
  siftup_loop (length heap) (heap !!! pos) pos pos heap.

Definition heappush (item : nat) (heap : list nat) : list nat :=
  let heap := heap ++ [item] in siftdown 0 (length heap - 1) heap.

(** [None]: [pop] of an empty list raises [IndexError]. *)
Definition heappop (heap : list nat) : option (nat * list nat) :=
  match last heap with
  | None => None
  | Some lastelt =>
      let heap := take (length heap - 1) heap in
      match heap with
      | [] => Some (lastelt, [])
      | returnitem :: _ => Some (returnitem, siftup 0 (<[0 := lastelt]> heap))
      end
  end.

Definition heapify (heap : list nat) : list nat :=
  fold_right siftup heap (seq 0 (length heap / 2)).

(** ** The heap order *)

(** The order holds below every position from [lo] on. *)
Definition heap_from (lo : nat) (h : list nat) : Prop :=
  forall j, 0 < j < length h -> lo <= parent j -> h !!! parent j <= h !!! j.

Abbreviation is_heap := (heap_from 0).

(** [pos] is reached from [lo] by going to children. *)
Inductive below (lo : nat) : nat -> Prop :=
  | below_refl : below lo lo
  | below_child pos : lo < pos -> below lo (parent pos) -> below lo pos.

Lemma parent_lt j : 0 < j -> parent j < j.
Proof. unfold parent. intros. apply Nat.Div0.div_lt_upper_bound; lia. Qed.

Lemma parent_children c p : 0 < c -> parent c = p <-> c = 2 * p + 1 \/ c = 2 * p + 2.
Proof.
  unfold parent. intros Hc. pose proof (Nat.div_mod_eq (c - 1) 2).
  pose proof (Nat.mod_upper_bound (c - 1) 2). split; [lia|].
  intros [-> | ->]; [symmetry; apply Nat.div_unique with 0 | symmetry; apply Nat.div_unique with 1]; lia.
Qed.

Lemma below_ge lo pos : below lo pos -> lo <= pos.
Proof. induction 1; lia. Qed.

Lemma below_0 pos : below 0 pos.
Proof.
  induction pos as [pos IH] using lt_wf_ind. destruct (decide (pos = 0)) as [->|]; [constructor|].
  apply below_child; [lia|]. apply IH, parent_lt. lia.
Qed.

(** The state of [_siftdown]: all but [pos] is in order, and [newitem] would be
    in order with the children of [pos]. *)
Record down_inv (newitem lo pos : nat) (h : list nat) : Prop := {
  down_pos : pos < length h;
  down_below : below lo pos;
  down_other : forall j, 0 < j < length h -> lo <= parent j -> j <> pos -> parent j <> pos ->
    h !!! parent j <= h !!! j;
  down_new : forall c, 0 < c < length h -> parent c = pos -> newitem <= h !!! c;
  down_grand : forall c, 0 < c < length h -> parent c = pos -> 0 < pos -> lo <= parent pos ->
    h !!! parent pos <= h !!! c
}.

Lemma down_done newitem lo pos h :
  down_inv newitem lo pos h ->
  (0 < pos -> lo <= parent pos -> h !!! parent pos <= newitem) ->
  heap_from lo (<[pos := newitem]> h).
Proof.
  intros [Hp Hb Ho Hn Hg] Hpar j. rewrite length_insert. intros Hj Hlo.
  pose proof (parent_lt j ltac:(lia)). rewrite !total_insert by done.
  destruct (decide (pos = j)) as [E1|], (decide (pos = parent j)); try subst j; try lia; auto with lia.
Qed.

Lemma down_step newitem lo pos h :
  down_inv newitem lo pos h -> lo < pos -> newitem < h !!! parent pos ->
  down_inv newitem lo (parent pos) (<[pos := h !!! parent pos]> h).
Proof.
  intros [Hp Hb Ho Hn Hg] Hlt Hnew.
  pose proof (parent_lt pos ltac:(lia)) as Hpp.
  assert (below lo (parent pos)) as Hb' by (inversion Hb; subst; [lia|done]).
  pose proof (below_ge _ _ Hb') as Hge.
  split; [by rewrite length_insert; lia|done|..].
  - intros j. rewrite length_insert. intros Hj Hlo Hne Hne'. rewrite !total_insert by done.
    destruct (decide (pos = j)) as [E1|], (decide (pos = parent j)); try subst j; try done; auto with lia.
  - intros c. rewrite length_insert. intros Hc Hpc. rewrite !total_insert by done.
    destruct (decide (pos = c)) as [<-|]; [lia|]. pose proof (Ho c). rewrite Hpc in *. lia.
  - intros c. rewrite length_insert. intros Hc Hpc Hpos Hlo.
    pose proof (parent_lt (parent pos) Hpos). rewrite !total_insert by done.
    rewrite decide_False by lia. pose proof (Ho (parent pos)) as H1.
    destruct (decide (pos = c)) as [<-|]; [lia|].
    pose proof (Ho c) as H2. rewrite Hpc in *. lia.
Qed.

Lemma siftdown_loop_spec fuel newitem lo pos h :
  pos <= fuel -> down_inv newitem lo pos h ->
  heap_from lo (siftdown_loop fuel newitem lo pos h) /\
  siftdown_loop fuel newitem lo pos h ≡ₚ <[pos := newitem]> h.
Proof.
  revert pos h. induction fuel as [|fuel IH]; intros pos h Hf I; simpl.
  { split; [|done]. apply down_done; [done|lia]. }
  destruct (Nat.ltb_spec lo pos) as [Hlt|Hge]; [|split; [|done]].
  - pose proof (parent_lt pos ltac:(lia)) as Hpp. pose proof (down_pos _ _ _ _ I) as Hp.
    destruct (Nat.ltb_spec newitem (h !!! parent pos)) as [Hnew|Hnew].
    + destruct (IH (parent pos) (<[pos := h !!! parent pos]> h)) as [Hh Hperm];
        [lia|by apply down_step|]. split; [done|]. rewrite Hperm.
      apply insert_move; [lia| |done]. apply list_lookup_lookup_total_lt. lia.
    + split; [|done]. by apply down_done.
  - apply down_done; [done|]. intros Hpos Hpar. pose proof (parent_lt pos Hpos). lia.
Qed.

Lemma siftdown_spec lo pos h :
  down_inv (h !!! pos) lo pos h ->
  heap_from lo (siftdown lo pos h) /\ siftdown lo pos h ≡ₚ h.
Proof.
  intros I. destruct (siftdown_loop_spec pos (h !!! pos) lo pos h) as [Hh Hp]; [lia|done|].
  split; [done|]. unfold siftdown. rewrite Hp, list_insert_id; [done|].
  apply list_lookup_lookup_total_lt, I.
Qed.

(** The state of [_siftup]: [pos] is a hole. *)
Record up_inv (lo pos : nat) (h : list nat) : Prop := {
  up_pos : pos < length h;
  up_below : below lo pos;
  up_other : forall j, 0 < j < length h -> lo <= parent j -> j <> pos -> parent j <> pos ->
    h !!! parent j <= h !!! j;
  up_grand : forall c, 0 < c < length h -> parent c = pos -> 0 < pos -> lo <= parent pos ->
    h !!! parent pos <= h !!! c
}.

Lemma up_step lo pos c h :
  up_inv lo pos h -> 0 < c < length h -> parent c = pos ->
  (forall d, 0 < d < length h -> parent d = pos -> h !!! c <= h !!! d) ->
  up_inv lo c (<[pos := h !!! c]> h).
Proof.
  intros [Hp Hb Ho Hg] Hc Hpc Hmin. pose proof (below_ge _ _ Hb) as Hge.
  pose proof (parent_lt c ltac:(lia)) as Hlt. split; rewrite ?length_insert.
  - lia.
  - apply below_child; [lia|]. by rewrite Hpc.
  - intros j Hj Hlo Hne Hne'. rewrite !total_insert by done.
    destruct (decide (pos = j)), (decide (pos = parent j)); try subst j.
    + pose proof (parent_lt pos). lia.
    + apply Hg; auto with lia.
    + apply Hmin; auto with lia.
    + apply Ho; auto with lia.
  - intros d Hd Hpd _ Hlo. pose proof (parent_lt d ltac:(lia)).
    rewrite !total_insert by done. rewrite decide_True by done. rewrite decide_False by lia.
    rewrite <- Hpd. apply Ho; lia.
Qed.

Lemma up_leaf newitem lo pos h :
  up_inv lo pos h -> length h <= 2 * pos + 1 ->
  down_inv (<[pos := newitem]> h !!! pos) lo pos (<[pos := newitem]> h).
Proof.
  intros [Hp Hb Ho Hg] Hleaf.
  assert (forall c, 0 < c < length h -> parent c <> pos) as Hno.
  { intros c Hc [Ec|Ec]%parent_children; lia. }
  split; rewrite ?length_insert; try done.
  - intros j Hj Hlo Hne Hne'. rewrite !total_insert by done.
    rewrite !decide_False by done. by apply Ho.
  - intros c Hc Hpc. by destruct (Hno c).
  - intros c Hc Hpc. by destruct (Hno c).
Qed.

Lemma smaller_child_spec pos h :
  2 * pos + 1 < length h ->
  let child := smaller_child (2 * pos + 1) h in
  0 < child < length h /\ parent child = pos /\
  (forall d, 0 < d < length h -> parent d = pos -> h !!! child <= h !!! d).
Proof.
  intros Hlt. unfold smaller_child.
  remember (2 * pos + 1) as c eqn:Ec.
  destruct (Nat.ltb_spec (c + 1) (length h)) as [Hr|Hr]; simpl;
    [destruct (Nat.ltb_spec (h !!! c) (h !!! (c + 1))) as [Hs|Hs]|]; simpl;
    (split_and!; [lia|lia|apply parent_children; lia|]);
    intros d Hd Hpd; apply parent_children in Hpd; [|lia| |lia| |lia];
    (assert (d = c \/ d = c + 1) as [-> | ->] by lia); lia.
Qed.

Lemma siftup_loop_spec fuel newitem lo pos h :
  length h <= fuel + pos -> up_inv lo pos h ->
  heap_from lo (siftup_loop fuel newitem lo pos h) /\
  siftup_loop fuel newitem lo pos h ≡ₚ <[pos := newitem]> h.
Proof.
  revert pos h. induction fuel as [|fuel IH]; intros pos h Hf I; simpl.
  { apply siftdown_spec, up_leaf; [done|lia]. }
  change (pos + (pos + 0) + 1) with (2 * pos + 1).
  destruct (Nat.ltb_spec (2 * pos + 1) (length h)) as [Hlt|Hge];
    [|apply siftdown_spec, up_leaf; [done|lia]].
  set (child := smaller_child (2 * pos + 1) h).
  destruct (smaller_child_spec pos h Hlt) as (Hc & Hpc & Hmin). fold child in Hc, Hpc, Hmin.
  destruct (IH child (<[pos := h !!! child]> h)) as [Hh Hperm];
    [rewrite length_insert; pose proof (parent_lt child); lia|by apply up_step|].
  split; [done|]. rewrite Hperm. pose proof (parent_lt child ltac:(lia)).
  apply insert_move; [lia| |apply I]. apply list_lookup_lookup_total_lt. lia.
Qed.

Lemma siftup_spec pos h :
  pos < length h -> heap_from (S pos) h ->
  heap_from pos (siftup pos h) /\ siftup pos h ≡ₚ h.
Proof.
  intros Hp Hh. destruct (siftup_loop_spec (length h) (h !!! pos) pos pos h) as [Hh' Hperm]; [lia| |].
  - split; [done|constructor|..].
    + intros j Hj Hlo _ Hne. apply Hh; [done|lia].
    + intros c _ _ Hpos Hlo. pose proof (parent_lt pos Hpos). lia.
  - split; [done|]. unfold siftup. rewrite Hperm, list_insert_id; [done|].
    by apply list_lookup_lookup_total_lt.
Qed.

(** ** The priority queue *)

Lemma heappush_spec x h :
  is_heap h -> is_heap (heappush x h) /\ heappush x h ≡ₚ x :: h.
Proof.
  intros Hh. unfold heappush. rewrite length_app. simpl.
  replace (length h + 1 - 1) with (length h) by lia.
  destruct (siftdown_spec 0 (length h) (h ++ [x])) as [Hh' Hp].
  - assert (forall c, 0 < c < length (h ++ [x]) -> parent c <> length h) as Hno.
    { intros c. rewrite length_app. simpl. intros Hc. pose proof (parent_lt c). lia. }
    split; [rewrite length_app; simpl; lia|apply below_0|..].
    + intros j. rewrite length_app. simpl. intros Hj _ Hne Hne'.
      pose proof (parent_lt j ltac:(lia)). rewrite !lookup_total_app_l by lia. apply Hh; lia.
    + intros c Hc Hpc. by destruct (Hno c).
    + intros c Hc Hpc. by destruct (Hno c).
  - split; [done|]. rewrite Hp. by rewrite Permutation_app_comm.
Qed.

Lemma heap_root_min h j : is_heap h -> j < length h -> h !!! 0 <= h !!! j.
Proof.
  intros Hh. induction j as [j IH] using lt_wf_ind. intros Hj.
  destruct (decide (j = 0)) as [->|]; [done|].
  pose proof (parent_lt j ltac:(lia)). etrans; [apply (IH (parent j)); lia|]. apply Hh; lia.
Qed.

Lemma heap_from_weaken lo h : is_heap h -> heap_from lo h.
Proof. intros Hh j Hj _. apply Hh; lia. Qed.

(** [heappop] returns the least element and keeps the others as a heap. *)
Lemma heappop_spec h :
  is_heap h -> h <> [] ->
  exists x h', heappop h = Some (x, h') /\ h ≡ₚ x :: h' /\ is_heap h' /\
    Forall (fun y => x <= y) h'.
Proof.
  intros Hh Hne. destruct h as [|z h _] using rev_ind; [done|]. clear Hne.
  unfold heappop. rewrite last_snoc, length_app. simpl.
  replace (length h + 1 - 1) with (length h) by lia. rewrite take_app_length.
  destruct h as [|r h].
  { exists z, []. split_and!; [done..| |constructor]. intros j Hj. simpl in Hj. lia. }
  destruct (siftup_spec 0 (z :: h)) as [Hh' Hperm].
  - simpl. lia.
  - intros j Hj Hlo. simpl in Hj.
    assert (forall i, 0 < i <= length h -> (z :: h) !!! i = ((r :: h) ++ [z]) !!! i) as E.
    { intros [|i] Hi; [lia|]. simpl. rewrite lookup_total_app_l by lia. done. }
    pose proof (parent_lt j ltac:(lia)). rewrite !E by lia. apply Hh; [|lia].
    rewrite length_app. simpl. lia.
  - exists r, (siftup 0 (z :: h)). split_and!; [done| |done|].
    + rewrite Hperm. simpl. f_equiv. by rewrite Permutation_app_comm.
    + rewrite Hperm. apply Forall_forall. intros y Hy.
      assert (y ∈ (r :: h) ++ [z]) as (i & Hi)%list_elem_of_lookup by set_solver.
      pose proof (heap_root_min _ i Hh (lookup_lt_Some _ _ _ Hi)) as Hmin.
      apply list_lookup_total_correct in Hi. by rewrite Hi in Hmin.
Qed.

Lemma heapify_spec h : is_heap (heapify h) /\ heapify h ≡ₚ h.
Proof.
  unfold heapify.
  assert (forall k s, k + s = length h / 2 ->
    heap_from s (fold_right siftup h (seq s k)) /\ fold_right siftup h (seq s k) ≡ₚ h) as Hgen.
  { induction k as [|k IH]; intros s Hs; simpl.
    - split; [|done]. intros j Hj Hlo. pose proof (Nat.div_mod_eq (length h) 2).
      pose proof (Nat.mod_upper_bound (length h) 2).
      destruct (parent_children j (parent j) ltac:(lia)) as [[]]; lia.
    - destruct (IH (S s)) as [Hh Hp]; [lia|].
      destruct (siftup_spec s (fold_right siftup h (seq (S s) k))) as [Hh' Hp']; [|done|].
      + rewrite (Permutation_length Hp). pose proof (Nat.div_lt (length h) 2).
        destruct (length h); simpl in *; lia.
      + split; [done|]. by rewrite Hp'. }
  apply (Hgen (length h / 2) 0). lia.
Qed.
