(* ===== verification/HPUQueue.v ===== *)
(** [FreeKVCacheBlockQueueHPU] of [vllm/v1/core/kv_cache_utils.py]: the free
    block ids in a binary heap, so that blocks are handed out in increasing
    order of id (contiguous paged attention).  It discharges the queue
    interface with [append] inserting in order.  It does not discharge
    [FreeBlockQueueRemove]: [list.remove] on the heap's list does not restore
    the heap order ([remove_breaks_heap_order]). *)

From Stdlib Require Import ZArith Lia Sorted.
From stdpp Require Import base strings numbers gmap list.
From S2P Require Import Prelude.
From S2P Require Import KVBlock.
From S2P Require Import FreeQueue.
From S2P Require Import Heapq.

Open Scope Z_scope.

Module FreeKVCacheBlockQueueHPU.

(** [block_list] is the pool's own list of blocks, i.e. the store. *)
Record t := mk { free_blocks_ids_queue : list nat }.

Definition init (blocks : list KVCacheBlock) : result (list KVCacheBlock * t) :=
  Ok (blocks, mk (heapify (block_id <$> blocks))).

Definition pop : M (list KVCacheBlock * t) nat := fun '(bs, q) =>
  match heappop (free_blocks_ids_queue q) with
  | None => Raise ValueError (bs, q)
  | Some (i, heap) =>
      match bs !! i with
      | None => Raise IndexError (bs, mk heap)
      | Some _ => Ret i (bs, mk heap)
      end
  end.

Definition popleft : M (list KVCacheBlock * t) nat := pop.

Definition append (block : nat) : M (list KVCacheBlock * t) unit := fun '(bs, q) =>
  Ret tt (bs, mk (heappush (block_id (obj bs block)) (free_blocks_ids_queue q))).

(** [list.remove]: drops the first occurrence. *)
Fixpoint list_remove (x : nat) (l : list nat) : option (list nat) :=
  match l with
  | [] => None
  | y :: l' => if (x =? y)%nat then Some l' else cons y <$> list_remove x l'
  end.

Definition remove (block : nat) : M (list KVCacheBlock * t) unit := fun '(bs, q) =>
  match list_remove (block_id (obj bs block)) (free_blocks_ids_queue q) with
  | None => Raise ValueError (bs, q)
  | Some l => Ret tt (bs, mk l)
  end.

Definition get_all_free_blocks (bs : list KVCacheBlock) (q : t) : list nat :=
  block_id <$> filter (fun b => block_id b ∈ free_blocks_ids_queue q) bs.

Definition num_free_blocks (q : t) : Z := len (free_blocks_ids_queue q).

(** Ordered insertion: where an appended id comes in the pop order. *)
Fixpoint insert_sorted (x : nat) (l : list nat) : list nat :=
  match l with
  | [] => [x]
  | y :: l' => if (x <=? y)%nat then x :: y :: l' else y :: insert_sorted x l'
  end.

Lemma insert_sorted_perm x l : insert_sorted x l ≡ₚ x :: l.
Proof.
  induction l as [|y l IH]; simpl; [done|]. destruct (x <=? y)%nat; [done|].
  rewrite IH. apply Permutation_swap.
Qed.

Lemma insert_sorted_sorted x l : StronglySorted le l -> StronglySorted le (insert_sorted x l).
Proof.
  induction 1 as [|y l Hs IH Hy]; simpl; [repeat constructor|].
  destruct (Nat.leb_spec x y); constructor; try done.
  - by constructor.
  - constructor; [done|]. eapply Forall_impl; [exact Hy|]. simpl. lia.
  - rewrite insert_sorted_perm. constructor; [lia|done].
Qed.

(** The queue holds the ids [l], sorted: the order [pop] hands them out. *)
Record rep (bs : list KVCacheBlock) (q : t) (l : list nat) : Prop := {
  rep_heap : is_heap (free_blocks_ids_queue q);
  rep_perm : free_blocks_ids_queue q ≡ₚ l;
  rep_sorted : StronglySorted le l;
  rep_nodup : NoDup l;
  rep_bound : Forall (fun i => (i < length bs)%nat) l;
  rep_ids : numbered bs
}.

Lemma hpu_rep_links bs bs' q l : same_links bs bs' -> rep bs q l -> rep bs' q l.
Proof.
  intros E [Hh Hp Hs Hnd Hb Hi]. split; try done.
  - by rewrite <- (same_links_length _ _ E).
  - intros i b Hb'. pose proof (same_links_lookup _ _ i E) as El. rewrite Hb' in El.
    destruct (bs !! i) as [b0|] eqn:Eb; simpl in El; [|done].
    pose proof (Hi _ _ Eb). unfold links in El. congruence.
Qed.

Lemma numbered_new n : numbered (new_block <$> seq 0 n).
Proof.
  intros i b. rewrite list_lookup_fmap.
  destruct (seq 0 n !! i) as [j|] eqn:E; [|done]. apply lookup_seq in E as [-> _].
  by intros [= <-].
Qed.

Lemma StronglySorted_seq s n : StronglySorted le (seq s n).
Proof.
  revert s. induction n as [|n IH]; intros s; simpl; [constructor|].
  constructor; [done|]. apply Forall_forall. intros i Hi%elem_of_seq. lia.
Qed.

Lemma hpu_init_spec n :
  (0 < n)%nat ->
  exists bs q, init (new_block <$> seq 0 n) = Ok (bs, q) /\
    same_core bs (new_block <$> seq 0 n) /\ rep bs q (seq 0 n).
Proof.
  intros _. destruct (heapify_spec (block_id <$> (new_block <$> seq 0 n))) as [Hh Hp].
  eexists _, _. split_and!; [done|done|]. split; simpl.
  - done.
  - rewrite Hp, <- list_fmap_compose. rewrite list_fmap_id. done.
  - apply StronglySorted_seq.
  - apply NoDup_seq.
  - rewrite length_fmap, length_seq. apply Forall_forall. intros i Hi%elem_of_seq. lia.
  - apply numbered_new.
Qed.

Lemma hpu_popleft_nil bs q : rep bs q [] -> popleft (bs, q) = Raise ValueError (bs, q).
Proof.
  intros R. pose proof (rep_perm _ _ _ R) as E.
  symmetry in E. apply Permutation_nil_l in E. destruct q as [h]. simpl in E. by subst.
Qed.

Lemma hpu_popleft_cons bs q x l :
  rep bs q (x :: l) ->
  wp popleft (fun y '(bs', q') => y = x /\ same_core bs' bs /\ rep bs' q' l) (bs, q).
Proof.
  intros [Hh Hp [Hs Hx]%StronglySorted_inv Hnd Hb Hi].
  destruct (heappop_spec _ Hh) as (y & h' & Epop & Hp' & Hh' & Hmin).
  { intros E. rewrite E in Hp. by apply Permutation_nil_cons in Hp. }
  rewrite Hp' in Hp.
  assert (y = x) as ->.
  { assert (y ∈ x :: l) as Hy by (rewrite <- Hp; set_solver).
    assert (x ∈ y :: h') as Hx' by (rewrite Hp; set_solver).
    apply elem_of_cons in Hy as [->|Hy]; [done|]. apply elem_of_cons in Hx' as [->|Hx']; [done|].
    rewrite Forall_forall in Hx, Hmin. pose proof (Hx _ Hy). pose proof (Hmin _ Hx'). simpl in *. lia. }
  apply Permutation_cons_inv in Hp. apply Forall_cons in Hb as [Hbx Hb].
  apply NoDup_cons in Hnd as [_ Hnd].
  unfold wp, popleft, pop. rewrite Epop, (lookup_obj bs x Hbx).
  split_and!; [done|done|]. by split.
Qed.

Lemma hpu_append_spec bs q l x :
  rep bs q l -> (x < length bs)%nat -> x ∉ l ->
  wp (append x) (fun _ '(bs', q') => same_core bs' bs /\ rep bs' q' (insert_sorted x l)) (bs, q).
Proof.
  intros [Hh Hp Hs Hnd Hb Hi] Hx Hxl. split; [done|].
  rewrite (Hi x _ (lookup_obj _ _ Hx)).
  destruct (heappush_spec x _ Hh) as [Hh' Hp']. split; simpl; try done.
  - by rewrite Hp', Hp, insert_sorted_perm.
  - by apply insert_sorted_sorted.
  - rewrite insert_sorted_perm. by constructor.
  - rewrite insert_sorted_perm. by constructor.
Qed.

(** The listing of the free blocks is the queue, in the order of the ids. *)
Lemma hpu_get_all_free_blocks_rep bs q l : rep bs q l -> get_all_free_blocks bs q ≡ₚ l.
Proof.
  intros [Hh Hp Hs Hnd Hb Hi]. unfold get_all_free_blocks.
  apply NoDup_Permutation; [|done|].
  - assert (block_id <$> bs = seq 0 (length bs)) as E.
    { apply list_eq. intros i. rewrite list_lookup_fmap. destruct (bs !! i) as [b|] eqn:Eb; simpl.
      - rewrite (Hi _ _ Eb). symmetry. apply lookup_seq. split; [done|]. by eapply lookup_lt_Some.
      - symmetry. apply lookup_seq_ge. by apply lookup_ge_None. }
    eapply sublist_NoDup; [apply (NoDup_seq 0 (length bs))|]. rewrite <- E.
    apply fmap_sublist, sublist_filter.
  - intros i. rewrite list_elem_of_fmap. setoid_rewrite list_elem_of_filter.
    setoid_rewrite Hp. split; [naive_solver|]. intros Hil.
    rewrite Forall_forall in Hb. pose proof (Hb _ Hil) as Hlt. simpl in Hlt.
    exists (obj bs i). pose proof (Hi _ _ (lookup_obj _ _ Hlt)) as E.
    rewrite E. split_and!; [done..|]. by eapply list_elem_of_lookup_2, lookup_obj.
Qed.

End FreeKVCacheBlockQueueHPU.

#[export] Instance FreeKVCacheBlockQueueHPU_ops : FreeBlockQueue FreeKVCacheBlockQueueHPU.t := {
  fq_init := FreeKVCacheBlockQueueHPU.init;
  fq_popleft := FreeKVCacheBlockQueueHPU.popleft;
  fq_remove := FreeKVCacheBlockQueueHPU.remove;
  fq_append := FreeKVCacheBlockQueueHPU.append;
  fq_num_free_blocks := FreeKVCacheBlockQueueHPU.num_free_blocks
}.

#[export] Instance FreeKVCacheBlockQueueHPU_spec : FreeBlockQueueSpec FreeKVCacheBlockQueueHPU.t.
Proof.
  refine {| fq_rep := FreeKVCacheBlockQueueHPU.rep;
            fq_insert := FreeKVCacheBlockQueueHPU.insert_sorted |}.
  - apply FreeKVCacheBlockQueueHPU.insert_sorted_perm.
  - intros bs q l R. split; apply R.
  - apply FreeKVCacheBlockQueueHPU.hpu_rep_links.
  - intros bs q l R. unfold fq_num_free_blocks; simpl.
    unfold FreeKVCacheBlockQueueHPU.num_free_blocks, len.
    by rewrite (Permutation_length (FreeKVCacheBlockQueueHPU.rep_perm _ _ _ R)).
  - apply FreeKVCacheBlockQueueHPU.hpu_init_spec.
  - apply FreeKVCacheBlockQueueHPU.hpu_popleft_nil.
  - apply FreeKVCacheBlockQueueHPU.hpu_popleft_cons.
  - apply FreeKVCacheBlockQueueHPU.hpu_append_spec.
Defined.

(** *** Properties *)

(** C31: the HPU queue implements a priority queue on the block ids: [popleft]
    takes the least free id or raises on an empty queue, [append] adds an id in
    order, and the blocks themselves are not touched. *)
Theorem hpu_queue_refines bs q l :
  FreeKVCacheBlockQueueHPU.rep bs q l ->
  FreeKVCacheBlockQueueHPU.get_all_free_blocks bs q ≡ₚ l /\ FreeKVCacheBlockQueueHPU.num_free_blocks q = len l /\
  match l with
  | [] => FreeKVCacheBlockQueueHPU.popleft (bs, q) = Raise ValueError (bs, q)
  | x :: l' => Forall (fun y => x <= y)%nat l' /\
      wp FreeKVCacheBlockQueueHPU.popleft (fun y '(bs', q') =>
        y = x /\ same_core bs' bs /\ FreeKVCacheBlockQueueHPU.rep bs' q' l') (bs, q)
  end /\
  (forall x, (x < length bs)%nat -> x ∉ l -> wp (FreeKVCacheBlockQueueHPU.append x) (fun _ '(bs', q') =>
     same_core bs' bs /\ FreeKVCacheBlockQueueHPU.rep bs' q' (FreeKVCacheBlockQueueHPU.insert_sorted x l)) (bs, q)).
Proof.
  intros R. split; [by apply FreeKVCacheBlockQueueHPU.hpu_get_all_free_blocks_rep|]. split.
  { unfold FreeKVCacheBlockQueueHPU.num_free_blocks, len.
    by rewrite (Permutation_length (FreeKVCacheBlockQueueHPU.rep_perm _ _ _ R)). }
  split; [|intros x; by apply FreeKVCacheBlockQueueHPU.hpu_append_spec].
  destruct l; [by apply FreeKVCacheBlockQueueHPU.hpu_popleft_nil|].
  split; [|by apply FreeKVCacheBlockQueueHPU.hpu_popleft_cons].
  by destruct (StronglySorted_inv (FreeKVCacheBlockQueueHPU.rep_sorted _ _ _ R)).
Qed.

Lemma hpu_queue_refines_witness :
  exists bs q, FreeKVCacheBlockQueueHPU.init (new_block <$> seq 0 3) = Ok (bs, q) /\
    wp FreeKVCacheBlockQueueHPU.popleft (fun y _ => y = 0%nat) (bs, q).
Proof.
  destruct (FreeKVCacheBlockQueueHPU.hpu_init_spec 3 ltac:(lia)) as (bs & q & E & _ & R).
  exists bs, q. split; [exact E|].
  destruct (hpu_queue_refines bs q [0; 1; 2]%nat R) as (_ & _ & (_ & Hp) & _).
  eapply wp_mono; [exact Hp|]. intros y [bs' q'] (Hy & _). exact Hy.
Defined.

(** Seven blocks, one popped, then [remove] of the least free one. *)
Definition pop_then_remove : M (list KVCacheBlock * FreeKVCacheBlockQueueHPU.t) nat :=
  first ← FreeKVCacheBlockQueueHPU.popleft;
  FreeKVCacheBlockQueueHPU.remove (S first);;
  FreeKVCacheBlockQueueHPU.popleft.

(** [remove] takes an element out of the array without restoring the heap
    order: the next [popleft] returns block 3 although block 2 is free. *)
Theorem hpu_remove_breaks_order :
  match FreeKVCacheBlockQueueHPU.init (new_block <$> seq 0 7) with
  | Ok s => match pop_then_remove s with
      | Ret y (bs, q) => y = 3%nat /\ 2%nat ∈ FreeKVCacheBlockQueueHPU.get_all_free_blocks bs q
      | Raise _ _ => False
      end
  | Err _ => False
  end.
Proof. vm_compute. split; [reflexivity|]. left. Qed.
