(* ===== verification/Sampling.v ===== *)
(** The sampling parameters of a request ([src/vllm/sampling_params.py]) as far
    as the worker's batch reads them.  Floats are rationals. *)

From Stdlib Require Import ZArith QArith Lia.
From stdpp Require Import base strings numbers gmap.

Open Scope Z_scope.

Inductive SamplingType := GREEDY | RANDOM | RANDOM_SEED.

#[export] Instance SamplingType_eq_dec : EqDecision SamplingType.
Proof. solve_decision. Defined.

Record Sampling := mkSampling {
  temperature : Q;
  top_p : Q;
  top_k : Z;
  min_p : Q;
  frequency_penalty : Q;
  presence_penalty : Q;
  repetition_penalty : Q;
  seed : option Z;
  min_tokens : Z;
  all_stop_token_ids : gset Z;
  logprobs : option Z;
  logit_bias : option (list (Z * Q));
  allowed_token_ids : option (list Z);
  bad_words_token_ids : option (list (list Z))
}.

(** [x < y] of two floats. *)
Definition Q_lt (x y : Q) : bool := negb (Qle_bool y x).

Definition _SAMPLING_EPS : Q := 1 # 100000.

Definition sampling_type (s : Sampling) : SamplingType :=
  if Q_lt (temperature s) _SAMPLING_EPS then GREEDY
  else match seed s with Some _ => RANDOM_SEED | None => RANDOM end.

(** The defaults of the class. *)
Definition default_sampling : Sampling :=
  mkSampling 1 1 0 0 0 0 1 None 0 ∅ None None None None.
