(* ===== verification/Request.v ===== *)
(** The request object of [vllm/v1/request.py] and the stop check of
    [vllm/v1/core/sched/utils.py]: the token lists of a request, its status
    machine and when a generated token ends it. *)

From Stdlib Require Import ZArith Lia.
From stdpp Require Import base strings numbers gmap list.
From S2P Require Import Prelude.
From S2P Require Import Sampling.

Open Scope Z_scope.

(** ** Statuses *)

(** [RequestStatus] is an [IntEnum] with automatic values 1, 2, ... *)
Inductive RequestStatus :=
  | WAITING
  | WAITING_FOR_FSM
  | WAITING_FOR_REMOTE_KVS
  | RUNNING
  | PREEMPTED
  | FINISHED_STOPPED
  | FINISHED_LENGTH_CAPPED
  | FINISHED_ABORTED
  | FINISHED_IGNORED.

#[export] Instance RequestStatus_eq_dec : EqDecision RequestStatus.
Proof. solve_decision. Defined.

Definition status_value (st : RequestStatus) : Z :=
  match st with
  | WAITING => 1 | WAITING_FOR_FSM => 2 | WAITING_FOR_REMOTE_KVS => 3
  | RUNNING => 4 | PREEMPTED => 5 | FINISHED_STOPPED => 6
  | FINISHED_LENGTH_CAPPED => 7 | FINISHED_ABORTED => 8 | FINISHED_IGNORED => 9
  end.

(** [RequestStatus.is_finished]: "anything after PREEMPTED". *)
Definition status_is_finished (st : RequestStatus) : bool :=
  status_value PREEMPTED <? status_value st.

Inductive FinishReason := STOP | LENGTH | ABORT.

(** [_FINISHED_REASON_MAP.get] *)
Definition finished_reason_map (st : RequestStatus) : option FinishReason :=
  match st with
  | FINISHED_STOPPED => Some STOP
  | FINISHED_LENGTH_CAPPED => Some LENGTH
  | FINISHED_ABORTED => Some ABORT
  | FINISHED_IGNORED => Some LENGTH
  | _ => None
  end.

(** ** Data *)

(** [PlaceholderRange] of [vllm/multimodal/inputs.py], without the embedding mask. *)
Record PlaceholderRange := mkPlaceholderRange { offset : Z; pr_length : Z }.

(** The fields of [LoRARequest] that the core reads. *)
Record LoRARequest := mkLoRARequest { lora_name : string; lora_int_id : Z }.

(** The fields of [SamplingParams] that the core reads, then those of the
    worker; [guided_decoding] is whether the field is set. *)
Record SamplingParams := mkSamplingParams {
  sp_max_tokens : option Z;
  ignore_eos : bool;
  stop_token_ids : option (list Z);
  prompt_logprobs : option Z;
  guided_decoding : bool;
  sp_sampling : Sampling
}.

Inductive EngineCoreEventType := QUEUED | SCHEDULED | EV_PREEMPTED.

Record Request := mkRequest {
  request_id : string;
  client_index : Z;
  sampling_params : SamplingParams;
  eos_token_id : option Z;
  lora_request : option LoRARequest;
  (** Whether [structured_output_request.grammar] has been compiled. *)
  grammar_ready : bool;
  status : RequestStatus;
  events : list EngineCoreEventType;
  stop_reason : option Z;
  max_tokens : Z;
  prompt_token_ids : list Z;
  _output_token_ids : list Z;
  _all_token_ids : list Z;
  spec_token_ids : list Z;
  num_computed_tokens : Z;
  cache_salt : option string;
  mm_positions : list PlaceholderRange;
  mm_hashes : list (option string);
  num_cached_tokens : Z
}.

(** Functional updates. *)
Definition with_status (st : RequestStatus) (r : Request) : Request :=
  mkRequest (request_id r) (client_index r) (sampling_params r) (eos_token_id r) (lora_request r)
    (grammar_ready r) st (events r) (stop_reason r) (max_tokens r) (prompt_token_ids r)
    (_output_token_ids r) (_all_token_ids r) (spec_token_ids r) (num_computed_tokens r)
    (cache_salt r) (mm_positions r) (mm_hashes r) (num_cached_tokens r).
Definition with_stop_reason (sr : option Z) (r : Request) : Request :=
  mkRequest (request_id r) (client_index r) (sampling_params r) (eos_token_id r) (lora_request r)
    (grammar_ready r) (status r) (events r) sr (max_tokens r) (prompt_token_ids r)
    (_output_token_ids r) (_all_token_ids r) (spec_token_ids r) (num_computed_tokens r)
    (cache_salt r) (mm_positions r) (mm_hashes r) (num_cached_tokens r).
Definition with_events (ev : list EngineCoreEventType) (r : Request) : Request :=
  mkRequest (request_id r) (client_index r) (sampling_params r) (eos_token_id r) (lora_request r)
    (grammar_ready r) (status r) ev (stop_reason r) (max_tokens r) (prompt_token_ids r)
    (_output_token_ids r) (_all_token_ids r) (spec_token_ids r) (num_computed_tokens r)
    (cache_salt r) (mm_positions r) (mm_hashes r) (num_cached_tokens r).
Definition with_tokens (out all : list Z) (r : Request) : Request :=
  mkRequest (request_id r) (client_index r) (sampling_params r) (eos_token_id r) (lora_request r)
    (grammar_ready r) (status r) (events r) (stop_reason r) (max_tokens r) (prompt_token_ids r)
    out all (spec_token_ids r) (num_computed_tokens r)
    (cache_salt r) (mm_positions r) (mm_hashes r) (num_cached_tokens r).
Definition with_spec_token_ids (ids : list Z) (r : Request) : Request :=
  mkRequest (request_id r) (client_index r) (sampling_params r) (eos_token_id r) (lora_request r)
    (grammar_ready r) (status r) (events r) (stop_reason r) (max_tokens r) (prompt_token_ids r)
    (_output_token_ids r) (_all_token_ids r) ids (num_computed_tokens r)
    (cache_salt r) (mm_positions r) (mm_hashes r) (num_cached_tokens r).
Definition with_num_computed_tokens (n : Z) (r : Request) : Request :=
  mkRequest (request_id r) (client_index r) (sampling_params r) (eos_token_id r) (lora_request r)
    (grammar_ready r) (status r) (events r) (stop_reason r) (max_tokens r) (prompt_token_ids r)
    (_output_token_ids r) (_all_token_ids r) (spec_token_ids r) n
    (cache_salt r) (mm_positions r) (mm_hashes r) (num_cached_tokens r).
Definition with_num_cached_tokens (n : Z) (r : Request) : Request :=
  mkRequest (request_id r) (client_index r) (sampling_params r) (eos_token_id r) (lora_request r)
    (grammar_ready r) (status r) (events r) (stop_reason r) (max_tokens r) (prompt_token_ids r)
    (_output_token_ids r) (_all_token_ids r) (spec_token_ids r) (num_computed_tokens r)
    (cache_salt r) (mm_positions r) (mm_hashes r) n.

(** ** Operations *)

(** [__init__]: the assertions and the initial field values.  [mm_inputs] only
    counts here. *)
Definition init_request (request_id : string) (prompt_token_ids : list Z) (num_mm_inputs : nat)
    (mm_hashes : list (option string)) (mm_positions : list PlaceholderRange)
    (sampling_params : SamplingParams) (eos_token_id : option Z) (client_index : Z)
    (lora_request : option LoRARequest) (cache_salt : option string) : result Request :=
  match sp_max_tokens sampling_params with
  | None => Err AssertionError
  | Some max_tokens =>
      if negb (num_mm_inputs =? length mm_positions)%nat then Err AssertionError
      else if negb (length mm_hashes =? 0)%nat && negb (num_mm_inputs =? length mm_hashes)%nat
      then Err AssertionError
      else Ok (mkRequest request_id client_index sampling_params eos_token_id lora_request false
             (if guided_decoding sampling_params then WAITING_FOR_FSM else WAITING)
             [] None max_tokens prompt_token_ids [] prompt_token_ids [] 0 cache_salt
             mm_positions mm_hashes (-1))
  end.

(** [append_output_token_ids] with one token or a list of tokens. *)
Definition append_output_token_ids (ids : list Z) (r : Request) : Request :=
  with_tokens (_output_token_ids r ++ ids) (_all_token_ids r ++ ids) r.

Definition num_prompt_tokens (r : Request) : Z := len (prompt_token_ids r).
Definition num_tokens (r : Request) : Z := len (_all_token_ids r).
Definition num_tokens_with_spec (r : Request) : Z := len (_all_token_ids r) + len (spec_token_ids r).
Definition num_output_tokens (r : Request) : Z := len (_output_token_ids r).
Definition is_finished (r : Request) : bool := status_is_finished (status r).
Definition get_finished_reason (r : Request) : option FinishReason := finished_reason_map (status r).

(** [num_encoder_inputs = len(mm_inputs)], asserted equal to [len(mm_positions)]. *)
Definition has_encoder_inputs (r : Request) : bool := (0 <? length (mm_positions r))%nat.

(** [assert input_id < len(self.mm_positions)] *)
Definition get_num_encoder_tokens (r : Request) (input_id : nat) : result Z :=
  match mm_positions r !! input_id with
  | Some p => Ok (pr_length p)
  | None => Err AssertionError
  end.

Definition use_structured_output (r : Request) : bool := guided_decoding (sampling_params r).

Definition record_event (e : EngineCoreEventType) (r : Request) : Request :=
  with_events (events r ++ [e]) r.

Definition take_events (r : Request) : option (list EngineCoreEventType) * Request :=
  match events r with
  | [] => (None, r)
  | evs => (Some evs, with_events [] r)
  end.

(** [check_stop]: the length cap first, then the end-of-sequence token, then
    the stop tokens.  [output_token_ids[-1]] raises on an empty list. *)
Definition check_stop (max_model_len : Z) : M Request bool := fun r =>
  if (max_model_len <=? num_tokens r) || (max_tokens r <=? num_output_tokens r)
  then Ret true (with_status FINISHED_LENGTH_CAPPED r)
  else match last (_output_token_ids r) with
  | None => Raise IndexError r
  | Some last_token_id =>
      if negb (ignore_eos (sampling_params r)) && bool_decide (Some last_token_id = eos_token_id r)
      then Ret true (with_status FINISHED_STOPPED r)
      else if bool_decide (last_token_id ∈ default [] (stop_token_ids (sampling_params r)))
      then Ret true (with_stop_reason (Some last_token_id) (with_status FINISHED_STOPPED r))
      else Ret false r
  end.

(** ** Lemmas *)

(** The token lists of a request are in step: all tokens are the prompt's
    followed by the generated ones. *)
Definition tokens_wf (r : Request) : Prop :=
  _all_token_ids r = prompt_token_ids r ++ _output_token_ids r.

Lemma init_request_tokens_wf id p n h ms sp eos ci lr cs r :
  init_request id p n h ms sp eos ci lr cs = Ok r -> tokens_wf r /\ is_finished r = false.
Proof.
  unfold init_request, tokens_wf. destruct (sp_max_tokens sp); [|done].
  destruct (negb _); [done|]. destruct (_ && _); [done|]. intros [= <-]. simpl.
  split; [by rewrite app_nil_r|]. by destruct (guided_decoding sp).
Qed.

Lemma append_tokens_wf ids r : tokens_wf r -> tokens_wf (append_output_token_ids ids r).
Proof. unfold tokens_wf. simpl. intros ->. by rewrite app_assoc. Qed.

Lemma finished_reason_iff r : is_Some (get_finished_reason r) <-> is_finished r = true.
Proof.
  unfold get_finished_reason, is_finished. split.
  - intros [? ?]. by destruct (status r).
  - destruct (status r); simpl; eauto; done.
Qed.

(** [check_stop] only ends a request, it never restarts one, and a [True]
    answer is exactly a finished status. *)
Lemma check_stop_spec mml r b r' :
  is_finished r = false -> check_stop mml r = Ret b r' ->
  is_finished r' = b /\ _all_token_ids r' = _all_token_ids r /\
  _output_token_ids r' = _output_token_ids r /\ num_computed_tokens r' = num_computed_tokens r /\
  request_id r' = request_id r.
Proof.
  unfold check_stop. intros Hf.
  destruct (_ || _); [by intros [= <- <-]|]. destruct (last _); [|done].
  destruct (_ && _); [by intros [= <- <-]|]. case_bool_decide; intros [= <- <-]; done.
Qed.

(** A request that goes on has room for one more token. *)
Lemma check_stop_continue mml r r' :
  check_stop mml r = Ret false r' ->
  r' = r /\ num_tokens r < mml /\ num_output_tokens r < max_tokens r.
Proof.
  unfold check_stop. destruct (_ || _) eqn:E; [done|]. apply orb_false_iff in E as [E1 E2].
  destruct (last _); [|done]. destruct (_ && _); [done|]. case_bool_decide; [done|].
  intros [= <-]. split_and!; [done|lia|lia].
Qed.

(** ** Concrete requests for the witnesses *)

Definition sample_params : SamplingParams := mkSamplingParams (Some 16) false (Some [7]) None false default_sampling.

Definition sample_request (id : string) (tokens : list Z) : Request :=
  mkRequest id 0 sample_params (Some 2) None false WAITING [] None 16 tokens [] tokens [] 0 None [] [] (-1).

(** The same request for a LoRA adapter. *)
Definition with_lora (l : option LoRARequest) (r : Request) : Request :=
  mkRequest (request_id r) (client_index r) (sampling_params r) (eos_token_id r) l
    (grammar_ready r) (status r) (events r) (stop_reason r) (max_tokens r) (prompt_token_ids r)
    (_output_token_ids r) (_all_token_ids r) (spec_token_ids r) (num_computed_tokens r)
    (cache_salt r) (mm_positions r) (mm_hashes r) (num_cached_tokens r).

(** A request whose prompt holds one image of four tokens at offset 4. *)
Definition sample_image_request (id : string) (tokens : list Z) : Request :=
  mkRequest id 0 sample_params (Some 2) None false WAITING [] None 16 tokens [] tokens [] 0 None
    [mkPlaceholderRange 4 4] [Some "image"%string] (-1).

#[export] Instance Request_inhabited : Inhabited Request := populate (sample_request "" []).

(** *** Properties *)

(** [check_stop] on a request that is not finished.  It answers whether the
    request ends, exactly when its status becomes finished; it keeps the tokens
    and what is computed; and a request that goes on is unchanged and has room
    for another token, in the model and under its own limit. *)
Theorem check_stop_ends mml r b r' :
  is_finished r = false -> check_stop mml r = Ret b r' ->
  is_finished r' = b /\ (is_Some (get_finished_reason r') <-> b = true) /\
  _all_token_ids r' = _all_token_ids r /\ num_computed_tokens r' = num_computed_tokens r /\
  (b = false -> r' = r /\ num_tokens r < mml /\ num_output_tokens r < max_tokens r).
Proof.
  intros Hf E. destruct (check_stop_spec mml r b r' Hf E) as (Hb & Ht & _ & Hc & _).
  split; [done|]. split; [by rewrite finished_reason_iff, Hb|]. split; [done|]. split; [done|].
  intros ->. by apply check_stop_continue in E.
Qed.

Lemma check_stop_ends_witness :
  exists r', check_stop 100 (append_output_token_ids [2] (sample_request "a" [1; 3])) = Ret true r' /\ is_finished r' = true.
Proof.
  eexists. split; [reflexivity|].
  apply (check_stop_ends 100 (append_output_token_ids [2] (sample_request "a" [1; 3])) true); reflexivity.
Defined.
