(* ===== verification/BlockHashing.v ===== *)
(** Block hashes of a request ([vllm/v1/core/kv_cache_utils.py]):
    [need_extra_keys], [generate_block_hash_extra_keys], [hash_block_tokens] and
    [hash_request_tokens], the chain of hashes that indexes the prefix cache. *)

From Stdlib Require Import ZArith Lia.
From stdpp Require Import base strings numbers gmap list.
From S2P Require Import Prelude.
From S2P Require Import KVBlock.
From S2P Require Import Request.

Open Scope Z_scope.

(** ** Extra keys *)

Definition need_extra_keys (r : Request) : bool :=
  negb (length (mm_positions r) =? 0)%nat || bool_decide (is_Some (lora_request r))
  || bool_decide (is_Some (cache_salt r)).

(** The [while] loop of [_gen_mm_extra_hash_keys]; [items] are the inputs from
    [curr_mm_idx] on, each with its position and hash. *)
Fixpoint gen_mm_loop (items : list (PlaceholderRange * option string))
    (start_token_idx end_token_idx curr_mm_idx : Z) (keys : list ExtraKey)
    : result (list ExtraKey * Z) :=
  match items with
  | [] => Ok (keys, curr_mm_idx)
  | (_, None) :: _ => Err AssertionError
  | (p, Some h) :: rest =>
      if offset p <? end_token_idx then
        if offset p + pr_length p <? start_token_idx
        then gen_mm_loop rest start_token_idx end_token_idx (curr_mm_idx + 1) keys
        else
          let keys := keys ++ [KStr h] in
          if offset p + pr_length p <=? end_token_idx
          then gen_mm_loop rest start_token_idx end_token_idx (curr_mm_idx + 1) keys
          else Ok (keys, curr_mm_idx)
      else Ok (keys, curr_mm_idx)
  end.

Definition _gen_mm_extra_hash_keys (r : Request) (start_token_idx end_token_idx start_mm_idx : Z)
    : result (list ExtraKey * Z) :=
  match last (mm_positions r) with
  | None => Ok ([], start_mm_idx)
  | Some p =>
      if negb (length (mm_positions r) =? length (mm_hashes r))%nat then Err ValueError
      else if offset p + pr_length p <? start_token_idx then Ok ([], start_mm_idx)
      else
        let n := len (mm_positions r) in
        if (start_mm_idx <? 0) && (n <? - start_mm_idx) then Err AssertionError
        else
          let start_mm_idx := if start_mm_idx <? 0 then n + start_mm_idx else start_mm_idx in
          gen_mm_loop (drop (Z.to_nat start_mm_idx) (zip (mm_positions r) (mm_hashes r)))
            start_token_idx end_token_idx start_mm_idx []
  end.

Definition _gen_lora_extra_hash_keys (r : Request) : list ExtraKey :=
  match lora_request r with
  | None => []
  | Some l => [KInt (lora_int_id l)]
  end.

(** [if start_token_idx == 0 and request.cache_salt]: an empty salt is no salt. *)
Definition cache_salt_keys (r : Request) (start_token_idx : Z) : list ExtraKey :=
  match cache_salt r with
  | Some s => if (start_token_idx =? 0) && negb (bool_decide (s = ""%string)) then [KStr s] else []
  | None => []
  end.

Definition generate_block_hash_extra_keys (r : Request) (start_token_idx end_token_idx start_mm_idx : Z)
    : result (option (list ExtraKey) * Z) :=
  '(mm_extra_keys, new_start_mm_idx) ←
    _gen_mm_extra_hash_keys r start_token_idx end_token_idx start_mm_idx;
  let keys := _gen_lora_extra_hash_keys r ++ mm_extra_keys ++ cache_salt_keys r start_token_idx in
  match keys with
  | [] => mret (None, new_start_mm_idx)
  | _ => mret (Some keys, new_start_mm_idx)
  end.

(** ** Hashes

    The hash function is [hash] or [sha256] of the tuple (parent hash, token
    ids, extra keys); [NONE_HASH] is the seed of the process. *)

Section hashing.
Context (hash_function : Z * list Z * option (list ExtraKey) -> Z) (NONE_HASH : Z).

(** [if not parent_block_hash]: a missing and a zero parent hash both become
    the seed. *)
Definition parent_or_seed (parent_block_hash : option Z) : Z :=
  match parent_block_hash with
  | None => NONE_HASH
  | Some h => if h =? 0 then NONE_HASH else h
  end.

Definition hash_block_tokens (parent_block_hash : option Z) (curr_block_token_ids : list Z)
    (keys : option (list ExtraKey)) : BlockHash :=
  mkBlockHash (hash_function (parent_or_seed parent_block_hash, curr_block_token_ids, keys))
    curr_block_token_ids keys.

(** The [for] loop of [hash_request_tokens] over the block starts. *)
Fixpoint hash_blocks (r : Request) (block_size : Z) (starts : list Z)
    (req_extra_keys : option (list ExtraKey)) (curr_mm_idx : Z) (parent : option Z)
    : result (list BlockHash) :=
  match starts with
  | [] => mret []
  | start :: starts' =>
      let block_token_ids := slice start (start + block_size) (_all_token_ids r) in
      if len block_token_ids <? block_size then mret []
      else
        '(req_extra_keys, curr_mm_idx) ←
          (if need_extra_keys r
           then generate_block_hash_extra_keys r start (start + block_size) curr_mm_idx
           else mret (req_extra_keys, curr_mm_idx));
        let h := hash_block_tokens parent block_token_ids req_extra_keys in
        hs ← hash_blocks r block_size starts' req_extra_keys curr_mm_idx (Some (hash_value h));
        mret (h :: hs)
  end.

Definition hash_request_tokens (block_size : Z) (r : Request) : result (list BlockHash) :=
  hash_blocks r block_size (py_range 0 (len (_all_token_ids r)) block_size) None 0 None.

End hashing.

(** ** The extra keys of a block are the inputs it contains

    For inputs in order that do not overlap, a block computed after the blocks
    before it gets the hashes of exactly the inputs that share a token with it. *)

Definition mm_end (p : PlaceholderRange) : Z := offset p + pr_length p.

Definition overlaps (s e : Z) (p : PlaceholderRange) : Prop := offset p < e /\ s < mm_end p.
#[export] Instance overlaps_dec s e p : Decision (overlaps s e p).
Proof. unfold overlaps. apply _. Defined.

(** Inputs are non-empty, hashed, in order and disjoint. *)
Fixpoint mm_sorted (from : Z) (items : list (PlaceholderRange * option string)) : Prop :=
  match items with
  | [] => True
  | (p, h) :: rest => from <= offset p /\ 0 < pr_length p /\ is_Some h /\ mm_sorted (mm_end p) rest
  end.

Definition key_of (it : PlaceholderRange * option string) : ExtraKey := KStr (default ""%string it.2).

Definition mm_keys (items : list (PlaceholderRange * option string)) (s e : Z) : list ExtraKey :=
  key_of <$> filter (fun it => overlaps s e it.1) items.

(** The number of inputs that end at or before [e]: the index the next block starts from. *)
Definition mm_passed (items : list (PlaceholderRange * option string)) (e : Z) : nat :=
  length (filter (fun it => mm_end it.1 <= e) items).

Lemma mm_sorted_weaken f f' items : f' <= f -> mm_sorted f items -> mm_sorted f' items.
Proof. destruct items as [|[p h] items]; simpl; [done|]. intuition lia. Qed.

Lemma mm_sorted_all from items :
  mm_sorted from items -> Forall (fun it => from <= offset it.1 /\ 0 < pr_length it.1) items.
Proof.
  revert from. induction items as [|[p h] items IH]; intros from; simpl; [constructor|].
  intros (H1 & H2 & _ & Hs). constructor; [done|]. unfold mm_end in Hs.
  eapply Forall_impl; [by apply IH|]. simpl. intros. lia.
Qed.

Lemma mm_keys_after items s e from : mm_sorted from items -> e <= from -> mm_keys items s e = [].
Proof.
  intros Hs He. unfold mm_keys.
  assert (filter (fun it => overlaps s e it.1) items = []) as ->; [|done].
  apply filter_none. intros x Hin Hx. unfold overlaps in Hx.
  pose proof (proj1 (Forall_forall _ _) (mm_sorted_all _ _ Hs) x Hin). simpl in *. lia.
Qed.

Lemma mm_passed_after items e from : mm_sorted from items -> e <= from -> mm_passed items e = 0%nat.
Proof.
  intros Hs He. unfold mm_passed.
  assert (filter (fun it => mm_end it.1 <= e) items = []) as ->; [|done].
  apply filter_none. intros x Hin Hx. unfold mm_end in Hx.
  pose proof (proj1 (Forall_forall _ _) (mm_sorted_all _ _ Hs) x Hin). simpl in *. lia.
Qed.

Lemma mm_passed_cons p h items e :
  mm_passed ((p, h) :: items) e =
    if decide (mm_end p <= e) then S (mm_passed items e) else mm_passed items e.
Proof. unfold mm_passed. rewrite filter_cons. simpl. by case_decide. Qed.

Lemma mm_keys_cons p h items s e :
  mm_keys ((p, h) :: items) s e =
    if decide (overlaps s e p) then key_of (p, h) :: mm_keys items s e else mm_keys items s e.
Proof. unfold mm_keys. rewrite filter_cons. simpl. by case_decide. Qed.

(** The inputs passed by a block start are the first ones. *)
Lemma mm_sorted_drop items from s :
  mm_sorted from items ->
  let rest := drop (mm_passed items s) items in
  Forall (fun it => s < mm_end it.1) rest /\ (exists from', mm_sorted from' rest) /\
  (forall e, mm_keys rest s e = mm_keys items s e) /\
  (forall e, s <= e -> mm_passed items e = (mm_passed items s + mm_passed rest e)%nat).
Proof.
  revert from. induction items as [|[p h] items IH]; intros from.
  { intros _. split_and!; [constructor|by exists 0|done|done]. }
  intros (H1 & H2 & H3 & Hs). rewrite mm_passed_cons.
  destruct (decide (mm_end p <= s)) as [Hp|Hp].
  - destruct (IH _ Hs) as (IH1 & IH2 & IH3 & IH4). split_and!; [exact IH1|exact IH2| |].
    + intros e. rewrite mm_keys_cons, decide_False by (unfold overlaps; lia). apply IH3.
    + intros e He. rewrite mm_passed_cons, decide_True by lia. simpl. f_equal. by apply IH4.
  - rewrite (mm_passed_after _ _ _ Hs) by lia. simpl. split_and!.
    + constructor; [simpl; lia|]. eapply Forall_impl; [by eapply mm_sorted_all|].
      unfold mm_end in *. simpl. intros. lia.
    + by exists from.
    + done.
    + done.
Qed.

Lemma gen_mm_loop_spec items from s e idx acc :
  mm_sorted from items -> Forall (fun it => s < mm_end it.1) items -> s <= e ->
  gen_mm_loop items s e idx acc = Ok (acc ++ mm_keys items s e, idx + Z.of_nat (mm_passed items e)).
Proof.
  revert from idx acc. induction items as [|[p h] items IH]; intros from idx acc Hs Hf He.
  { simpl. rewrite app_nil_r. do 2 f_equal. unfold mm_passed. simpl. lia. }
  destruct Hs as (H1 & H2 & [h' ->] & Hs). apply Forall_cons in Hf as [Hp Hf]. simpl in Hp.
  rewrite mm_keys_cons, mm_passed_cons. cbn [gen_mm_loop]. fold (mm_end p).
  destruct (Z.ltb_spec (offset p) e) as [Ho|Ho].
  - destruct (Z.ltb_spec (mm_end p) s) as [Hlt|Hge]; [lia|].
    rewrite (decide_True (P := overlaps s e p)) by (unfold overlaps; lia).
    destruct (Z.leb_spec (mm_end p) e) as [Hle|Hgt].
    + rewrite decide_True by done. erewrite IH by done. rewrite <- app_assoc.
      do 2 f_equal. lia.
    + rewrite decide_False, (mm_passed_after _ _ _ Hs), (mm_keys_after _ _ _ _ Hs) by lia.
      do 2 f_equal. lia.
  - unfold mm_end in *. rewrite !decide_False by (unfold overlaps, mm_end; lia).
    rewrite (mm_passed_after _ _ _ Hs), (mm_keys_after _ _ _ _ Hs) by (unfold mm_end; lia).
    rewrite app_nil_r. do 2 f_equal. lia.
Qed.

(** ** The chain of hashes *)

Definition mm_items (r : Request) : list (PlaceholderRange * option string) :=
  zip (mm_positions r) (mm_hashes r).

(** A request whose multi-modal inputs are hashed, in order and disjoint. *)
Definition mm_wf (r : Request) : Prop :=
  length (mm_positions r) = length (mm_hashes r) /\ mm_sorted 0 (mm_items r).

(** The extra keys of the block [s, e): LoRA id, the inputs with a token in the
    block, and the salt on the first block. *)
Definition block_keys (r : Request) (s e : Z) : option (list ExtraKey) :=
  match _gen_lora_extra_hash_keys r ++ mm_keys (mm_items r) s e ++ cache_salt_keys r s with
  | [] => None
  | ks => Some ks
  end.

Lemma mm_end_last_lt items p h s from :
  mm_sorted from items -> last items = Some (p, h) -> mm_end p <= s ->
  mm_passed items s = length items.
Proof.
  revert from. induction items as [|[q g] items IH]; intros from; [done|].
  intros (H1 & H2 & _ & Hs) Hl He. rewrite mm_passed_cons.
  destruct items as [|it items].
  { simplify_eq/=. by rewrite decide_True. }
  rewrite last_cons_cons in Hl. assert (mm_end q <= s).
  { apply last_Some_elem_of in Hl.
    pose proof (proj1 (Forall_forall _ _) (mm_sorted_all _ _ Hs) _ Hl) as Ha. simpl in Ha.
    unfold mm_end in *. lia. }
  rewrite decide_True by done. erewrite IH by done. done.
Qed.

Lemma last_zip_fst {A B} (l : list A) (k : list B) x :
  length l = length k -> last l = Some x -> exists y, last (zip l k) = Some (x, y).
Proof.
  revert k. induction l as [|a l IH]; intros k Hlen Hl; [done|].
  destruct k as [|b k]; [done|]. destruct l as [|a' l].
  { destruct k; [|done]. simplify_eq/=. by eexists. }
  destruct k as [|b' k]; [done|]. apply (IH (b' :: k)); [simpl in *; lia|done].
Qed.

Lemma length_mm_items r : mm_wf r -> length (mm_items r) = length (mm_positions r).
Proof. intros [Hl _]. unfold mm_items. rewrite length_zip_with_l_eq; done. Qed.

Lemma gen_mm_spec r s e :
  mm_wf r -> 0 <= s -> s <= e ->
  _gen_mm_extra_hash_keys r s e (Z.of_nat (mm_passed (mm_items r) s)) =
    Ok (mm_keys (mm_items r) s e, Z.of_nat (mm_passed (mm_items r) e)).
Proof.
  intros Hwf Hs He. pose proof (length_mm_items r Hwf) as Hlen. destruct Hwf as [Hl Hso].
  unfold _gen_mm_extra_hash_keys. fold (mm_items r).
  destruct (mm_sorted_drop _ _ s Hso) as (D1 & [f D2] & D3 & D4).
  destruct (last (mm_positions r)) as [p|] eqn:El.
  - rewrite (proj2 (Nat.eqb_eq _ _) Hl). simpl. fold (mm_end p).
    destruct (last_zip_fst _ _ _ Hl El) as [h Hz]. fold (mm_items r) in Hz.
    destruct (Z.ltb_spec (mm_end p) s) as [Hlt|Hge].
    + assert (mm_passed (mm_items r) s = length (mm_items r)) as E
        by (eapply mm_end_last_lt; [done..|lia]).
      rewrite <- D3, (D4 e He), E, drop_all. unfold mm_keys, mm_passed. simpl.
      do 2 f_equal. lia.
    + rewrite (proj2 (Z.ltb_ge _ 0)) by lia. simpl. rewrite Nat2Z.id.
      erewrite gen_mm_loop_spec by done. rewrite D3, (D4 e He). do 2 f_equal. lia.
  - apply last_None in El. unfold mm_items in *. rewrite El. unfold mm_keys, mm_passed. done.
Qed.

Lemma generate_spec r s e :
  mm_wf r -> 0 <= s -> s <= e ->
  generate_block_hash_extra_keys r s e (Z.of_nat (mm_passed (mm_items r) s)) =
    Ok (block_keys r s e, Z.of_nat (mm_passed (mm_items r) e)).
Proof.
  intros Hwf Hs He. unfold generate_block_hash_extra_keys, block_keys.
  rewrite gen_mm_spec by done. simpl. by destruct (_ ++ _ ++ _).
Qed.

Section chain.
Context (hash_function : Z * list Z * option (list ExtraKey) -> Z) (NONE_HASH : Z).

(** What block [i] of the request contributes to its hash. *)
Definition block_content (r : Request) (block_size : Z) (i : nat)
    : list Z * option (list ExtraKey) :=
  let s := Z.of_nat i * block_size in
  (slice s (s + block_size) (_all_token_ids r),
   if need_extra_keys r then block_keys r s (s + block_size) else None).

Definition num_full_blocks (r : Request) (block_size : Z) : nat :=
  Z.to_nat (len (_all_token_ids r) / block_size).

(** The reference definition: the contents of the full blocks, chained. *)
Fixpoint chain (parent : option Z) (blocks : list (list Z * option (list ExtraKey)))
    : list BlockHash :=
  match blocks with
  | [] => []
  | (ids, keys) :: blocks' =>
      let h := hash_block_tokens hash_function NONE_HASH parent ids keys in
      h :: chain (Some (hash_value h)) blocks'
  end.

Definition block_contents (r : Request) (block_size : Z) : list (list Z * option (list ExtraKey)) :=
  block_content r block_size <$> seq 0 (num_full_blocks r block_size).

Lemma hash_blocks_spec r bs n : forall i keys parent,
  0 < bs -> mm_wf r ->
  (need_extra_keys r = false -> keys = None) ->
  n = (Z.to_nat (cdiv (len (_all_token_ids r)) bs) - i)%nat ->
  hash_blocks hash_function NONE_HASH r bs (range_fuel n (Z.of_nat i * bs) bs) keys
    (Z.of_nat (mm_passed (mm_items r) (Z.of_nat i * bs))) parent =
  Ok (chain parent (block_content r bs <$> seq i (num_full_blocks r bs - i))).
Proof.
  induction n as [|n IH]; intros i keys parent Hbs Hwf Hk Hn; cbn [range_fuel hash_blocks].
  - pose proof (div_le_cdiv (len (_all_token_ids r)) bs Hbs).
    replace (num_full_blocks r bs - i)%nat with 0%nat by (unfold num_full_blocks; lia). done.
  - pose proof (cdiv_spec (len (_all_token_ids r)) bs Hbs) as Hc.
    set (toks := _all_token_ids r) in *. assert (Hi : Z.of_nat i * bs < len toks) by nia.
    rewrite (slice_length _ _ toks) by nia.
    destruct (Z.ltb_spec (Z.min (Z.of_nat i * bs + bs - Z.of_nat i * bs)
        (Z.max 0 (len toks - Z.of_nat i * bs))) bs) as [Hlt|Hge].
    + assert (len toks / bs < Z.of_nat i + 1) by (apply Z.div_lt_upper_bound; nia).
      replace (num_full_blocks r bs - i)%nat with 0%nat
        by (unfold num_full_blocks; fold toks; lia). done.
    + assert (Z.of_nat i + 1 <= len toks / bs) by (apply Z.div_le_lower_bound; nia).
      replace (num_full_blocks r bs - i)%nat with (S (num_full_blocks r bs - S i))
        by (unfold num_full_blocks; fold toks; lia).
      cbn [seq fmap list_fmap]. unfold block_content at 1. fold toks.
      replace (Z.of_nat i * bs + bs) with (Z.of_nat (S i) * bs) by lia.
      destruct (need_extra_keys r) eqn:En.
      * rewrite generate_spec by (done || nia). cbn [mbind result_mbind].
        rewrite IH by (done || lia). done.
      * rewrite (Hk eq_refl). cbn [mbind result_mbind mret result_mret].
        assert (mm_items r = []) as Em.
        { unfold need_extra_keys in En. apply orb_false_iff in En as [En _].
          apply orb_false_iff in En as [En _]. apply negb_false_iff, Nat.eqb_eq in En.
          unfold mm_items. by apply nil_length_inv in En as ->. }
        specialize (IH (S i) None
          (Some (hash_value (hash_block_tokens hash_function NONE_HASH parent
             (slice (Z.of_nat i * bs) (Z.of_nat (S i) * bs) toks) None)))).
        rewrite Em in IH |- *. unfold mm_passed in *. cbn in IH |- *.
        rewrite IH by (done || lia). done.
Qed.

Lemma hash_request_tokens_chain_aux r bs :
  0 < bs -> mm_wf r ->
  hash_request_tokens hash_function NONE_HASH bs r = Ok (chain None (block_contents r bs)).
Proof.
  intros Hbs Hwf. unfold hash_request_tokens, block_contents, py_range. rewrite Z.sub_0_r.
  pose proof (hash_blocks_spec r bs _ 0 None None Hbs Hwf (fun _ => eq_refl) eq_refl) as H.
  rewrite !Nat.sub_0_r in H. rewrite <- H. f_equal.
  rewrite (mm_passed_after _ _ 0); [done|apply Hwf|lia].
Qed.

Lemma length_chain parent blocks : length (chain parent blocks) = length blocks.
Proof.
  revert parent. induction blocks as [|[ids keys] blocks IH]; intros parent; simpl; [done|].
  by rewrite IH.
Qed.

(** The hash function on the inputs that occur: no collisions, and no value
    that reads as "no parent". *)
Record ideal_hash : Prop := {
  ih_inj x y : hash_function x = hash_function y -> x = y;
  ih_nonzero x : hash_function x <> 0;
  ih_seed x : hash_function x <> NONE_HASH
}.

Definition last_value (hs : list BlockHash) : option Z := hash_value <$> last hs.

Lemma chain_snoc blocks : forall parent c,
  chain parent (blocks ++ [c]) =
    chain parent blocks ++
      [hash_block_tokens hash_function NONE_HASH
         (match last_value (chain parent blocks) with Some h => Some h | None => parent end)
         c.1 c.2].
Proof.
  induction blocks as [|[ids keys] blocks IH]; intros parent c; simpl; [by destruct c|].
  rewrite IH. do 3 f_equal. unfold last_value.
  rewrite last_cons. by destruct (last (chain _ blocks)).
Qed.

Lemma last_value_snoc blocks c :
  last_value (chain None (blocks ++ [c])) =
    Some (hash_function (parent_or_seed NONE_HASH (last_value (chain None blocks)), c.1, c.2)).
Proof.
  unfold last_value at 1. rewrite chain_snoc, last_snoc. simpl. by destruct (last_value _).
Qed.

Lemma seed_inj (Hid : ideal_hash) b1 b2 :
  parent_or_seed NONE_HASH (last_value (chain None b1)) =
    parent_or_seed NONE_HASH (last_value (chain None b2)) ->
  last_value (chain None b1) = last_value (chain None b2).
Proof.
  assert (forall x, parent_or_seed NONE_HASH (Some (hash_function x)) = hash_function x) as Hs.
  { intros x. simpl. destruct (Z.eqb_spec (hash_function x) 0) as [E|]; [|done].
    by apply (ih_nonzero Hid) in E. }
  destruct b1 as [|c1 b1 _] using rev_ind; destruct b2 as [|c2 b2 _] using rev_ind;
    rewrite ?last_value_snoc, ?Hs; simpl; intros E; [done| | |by rewrite E].
  - symmetry in E. by apply (ih_seed Hid) in E.
  - by apply (ih_seed Hid) in E.
Qed.

(** The value of the last block of a chain determines the whole chain. *)
Lemma chain_inj (Hid : ideal_hash) b1 : forall b2,
  last_value (chain None b1) = last_value (chain None b2) -> b1 = b2.
Proof.
  induction b1 as [|c1 b1 IH] using rev_ind; intros b2;
    destruct b2 as [|c2 b2 _] using rev_ind; rewrite ?last_value_snoc; [done..|].
  intros [= E]. apply (ih_inj Hid) in E. injection E as Ep Et Ek.
  apply (seed_inj Hid), IH in Ep as ->. destruct c1, c2. simpl in *. by subst.
Qed.

Lemma chain_take n : forall parent blocks, chain parent (take n blocks) = take n (chain parent blocks).
Proof.
  induction n as [|n IH]; intros parent [|[ids keys] blocks]; simpl; [done..|]. by rewrite IH.
Qed.

Lemma last_value_take i hs h :
  hs !! i = Some h -> last_value (take (S i) hs) = Some (hash_value h).
Proof. intros Hi. unfold last_value. by erewrite take_S_r, last_snoc. Qed.
End chain.

Lemma take_drop_app {A} (n m : nat) (l : list A) : take (n + m) l = take n l ++ take m (drop n l).
Proof.
  revert l. induction n as [|n IH]; intros [|x l]; simpl; [done..|by rewrite take_nil|by rewrite IH].
Qed.

(** The tokens of the first blocks, put together, are the first tokens. *)
Lemma block_contents_tokens r bs n :
  0 < bs -> (n <= length (block_contents r bs))%nat ->
  take (n * Z.to_nat bs) (_all_token_ids r) = mjoin (fst <$> take n (block_contents r bs)).
Proof.
  intros Hbs. induction n as [|n IH]; intros Hn; [done|].
  unfold block_contents in *. rewrite length_fmap, length_seq in *.
  erewrite (take_S_r _ n); [|rewrite list_lookup_fmap, lookup_seq_lt by lia; done].
  rewrite fmap_app, join_app, <- IH by lia. simpl. rewrite app_nil_r.
  replace (Z.to_nat bs + n * Z.to_nat bs)%nat with (n * Z.to_nat bs + Z.to_nat bs)%nat by lia.
  rewrite take_drop_app. unfold slice. f_equal. f_equal; [lia|]. f_equal. lia.
Qed.

(** A hash function without collisions, for the witnesses: the tuple's own code. *)
Definition code_hash (x : Z * list Z * option (list ExtraKey)) : Z := Z.pos (encode x).

Lemma code_hash_ideal : ideal_hash code_hash (-1).
Proof. split; [intros x y [= E]; by apply encode_inj in E|done|done]. Qed.

(** ** Properties of [hash_request_tokens] *)

(** The loop of [hash_request_tokens] computes the reference chain: one
    hash per full block, in order; the content of a block is its token slice
    with the LoRA id, the hashes of exactly the multi-modal inputs that have a
    token in the block and, on the first block, the salt; each hash is chained
    to the value of the one before. *)
Theorem hash_request_tokens_chain hash_function NONE_HASH (r : Request) (block_size : Z) :
  0 < block_size -> mm_wf r ->
  hash_request_tokens hash_function NONE_HASH block_size r =
    Ok (chain hash_function NONE_HASH None (block_contents r block_size)).
Proof. apply hash_request_tokens_chain_aux. Qed.

Lemma hash_request_tokens_chain_witness :
  hash_request_tokens code_hash (-1) 4 (sample_image_request "a" [1; 2; 3; 4; 5; 6; 7; 8; 9]) =
    Ok (chain code_hash (-1) None [([1; 2; 3; 4], None); ([5; 6; 7; 8], Some [KStr "image"])]).
Proof.
  apply (hash_request_tokens_chain code_hash (-1)
    (sample_image_request "a" [1; 2; 3; 4; 5; 6; 7; 8; 9]) 4); [lia|].
  split; [done|]. simpl. split_and!; [lia|lia|by eexists|done].
Defined.

(** C29: with a collision-free hash function, two requests with the same hash
    at block [i] have the same first [i + 1] blocks: the same tokens and the
    same extra keys, not only in block [i].  A prefix-cache hit is sound. *)
Theorem equal_hash_equal_prefix hash_function NONE_HASH (r1 r2 : Request) (block_size : Z) hs1 hs2 i h1 h2 :
  ideal_hash hash_function NONE_HASH -> 0 < block_size -> mm_wf r1 -> mm_wf r2 ->
  hash_request_tokens hash_function NONE_HASH block_size r1 = Ok hs1 ->
  hash_request_tokens hash_function NONE_HASH block_size r2 = Ok hs2 ->
  hs1 !! i = Some h1 -> hs2 !! i = Some h2 ->
  hash_value h1 = hash_value h2 ->
  take (S i) (block_contents r1 block_size) = take (S i) (block_contents r2 block_size) /\
  take (S i * Z.to_nat block_size) (_all_token_ids r1) =
    take (S i * Z.to_nat block_size) (_all_token_ids r2).
Proof.
  intros Hid Hbs Hw1 Hw2 E1 E2 Hi1 Hi2 Hv.
  rewrite (hash_request_tokens_chain_aux _ _ _ _ Hbs Hw1) in E1.
  rewrite (hash_request_tokens_chain_aux _ _ _ _ Hbs Hw2) in E2. simplify_eq.
  assert (take (S i) (block_contents r1 block_size) = take (S i) (block_contents r2 block_size)) as E.
  { apply (chain_inj _ _ Hid). rewrite !chain_take.
    by rewrite (last_value_take _ _ _ Hi1), (last_value_take _ _ _ Hi2), Hv. }
  split; [exact E|].
  apply lookup_lt_Some in Hi1, Hi2. rewrite length_chain in Hi1, Hi2.
  rewrite (block_contents_tokens r1), (block_contents_tokens r2) by done. by rewrite E.
Qed.

Lemma equal_hash_equal_prefix_witness :
  let r1 := sample_request "a" [1; 2; 3; 4; 5] in
  let r2 := sample_request "b" [1; 2; 3; 4] in
  take 2 (block_contents r1 2) = take 2 (block_contents r2 2) /\
  take 4 (_all_token_ids r1) = take 4 (_all_token_ids r2).
Proof.
  intros r1 r2.
  eapply (equal_hash_equal_prefix code_hash (-1) r1 r2 2 _ _ 1);
    [apply code_hash_ideal|lia|by split|by split
    |vm_compute; reflexivity|vm_compute; reflexivity|reflexivity|reflexivity|reflexivity].
Defined.

(** ** The last input of a block completed by generated tokens *)

(** Starting from the last input gives the keys [hash_request_tokens] gives. *)
Definition last_input_suffices (r : Request) (s e : Z) : Prop :=
  exists n, generate_block_hash_extra_keys r s e (-1) = Ok (block_keys r s e, n).

Lemma no_mm_suffices r s e : mm_positions r = [] -> last_input_suffices r s e.
Proof.
  intros E. exists (-1). unfold generate_block_hash_extra_keys, _gen_mm_extra_hash_keys, block_keys, mm_items.
  rewrite E. simpl. by destruct (_ ++ _).
Qed.

Lemma late_block_suffices r s e items p h :
  mm_wf r -> 0 <= s -> s < e -> mm_items r = items ++ [(p, h)] ->
  Forall (fun it => mm_end it.1 <= s) items -> mm_end p <> s ->
  last_input_suffices r s e.
Proof.
  intros Hwf Hs He Hi Hall Hp. pose proof (length_mm_items r Hwf) as Hlm. pose proof Hwf as [Hlen Hso].
  pose proof (generate_spec r s e Hwf Hs ltac:(lia)) as Hgen.
  unfold last_input_suffices, generate_block_hash_extra_keys, _gen_mm_extra_hash_keys in *.
  assert (last (mm_positions r) = Some p) as Hlast.
  { rewrite <- (fst_zip (mm_positions r) (mm_hashes r)) by lia. fold (mm_items r).
    rewrite Hi, fmap_app. apply last_snoc. }
  rewrite Hlast, (proj2 (Nat.eqb_eq _ _) Hlen) in *. simpl in *. fold (mm_end p) in *.
  destruct (Z.ltb_spec (mm_end p) s) as [Hlt|Hge].
  - simpl in *. exists (-1). unfold mret, result_mret in *.
    destruct (_gen_lora_extra_hash_keys r ++ cache_salt_keys r s); injection Hgen as E _; by rewrite <- E.
  - assert (mm_passed (mm_items r) s = length items) as Ep.
    { rewrite Hi. unfold mm_passed. rewrite filter_app, length_app.
      rewrite filter_cons_False by (simpl; lia). simpl.
      assert (filter (fun it : PlaceholderRange * option string => mm_end it.1 <= s) items = items) as ->; [|lia].
      clear -Hall. induction Hall as [|it items Hit _ IH]; [done|]. by rewrite filter_cons_True, IH. }
    fold (mm_items r) in *. rewrite Ep in Hgen. unfold len in *.
    assert (length (mm_positions r) = S (length items)) as El
      by (rewrite <- Hlm, Hi, length_app; simpl; lia).
    rewrite El in *. rewrite (proj2 (Z.ltb_ge _ 1)) by lia.
    rewrite (proj2 (Z.ltb_ge (Z.of_nat (length items)) 0)) in Hgen by lia. simpl in Hgen.
    replace (Z.of_nat (S (length items)) + -1) with (Z.of_nat (length items)) by lia.
    exists (Z.of_nat (mm_passed (mm_items r) e)). exact Hgen.
Qed.

Lemma no_keys r s e : mm_wf r -> need_extra_keys r = false -> block_keys r s e = None.
Proof.
  unfold need_extra_keys, block_keys, mm_items, _gen_lora_extra_hash_keys, cache_salt_keys.
  intros _ E. apply orb_false_iff in E as [E E3]. apply orb_false_iff in E as [E1 E2].
  apply negb_false_iff, Nat.eqb_eq, nil_length_inv in E1. rewrite E1.
  destruct (lora_request r); [done|]. by destruct (cache_salt r).
Qed.

(** [cache_full_blocks] computes the extra keys of a block that decoding
    completed from index -1, the last input.  For a block that starts right
    where that input ends, the input is still counted ([>] where the interval
    test needs [>=]), whereas [hash_request_tokens] counts it to the block
    before only: the two hashes of the same block differ. *)
Theorem last_input_key_boundary (r : Request) p h s e :
  mm_wf r -> last (mm_items r) = Some (p, Some h) -> mm_end p = s -> s < e ->
  (exists n, _gen_mm_extra_hash_keys r s e (-1) = Ok ([KStr h], n)) /\
  (exists n, _gen_mm_extra_hash_keys r s e (Z.of_nat (mm_passed (mm_items r) s)) = Ok ([], n)).
Proof.
  intros Hwf Hl Hp He. pose proof Hwf as [Hlen Hso].
  assert (0 <= s) as Hs0.
  { apply last_Some_elem_of in Hl. unfold mm_end in Hp.
    pose proof (proj1 (Forall_forall _ _) (mm_sorted_all _ _ Hso) _ Hl) as Ha. simpl in Ha. lia. }
  assert (mm_keys (mm_items r) s e = []) as Hk.
  { destruct (mm_sorted_drop _ _ s Hso) as (_ & _ & D3 & _). rewrite <- D3.
    rewrite (mm_end_last_lt _ _ _ _ _ Hso Hl) by lia. by rewrite drop_all. }
  split; [|eexists; rewrite gen_mm_spec, Hk by (done || lia); done].
  pose proof (length_mm_items r Hwf) as Hlm. unfold _gen_mm_extra_hash_keys.
  apply last_Some in Hl as [items Hi].
  assert (mm_positions r = items.*1 ++ [p]) as Hpos.
  { rewrite <- (fst_zip (mm_positions r) (mm_hashes r)) by lia. fold (mm_items r).
    rewrite Hi, fmap_app. done. }
  rewrite Hpos, last_snoc, <- Hpos, (proj2 (Nat.eqb_eq _ _) Hlen). simpl. fold (mm_end p).
  rewrite Hp, Z.ltb_irrefl. fold (mm_items r). unfold len. rewrite <- Hlm, Hi, length_app. simpl.
  rewrite (proj2 (Z.ltb_ge _ 1)) by lia.
  rewrite drop_app_ge by lia.
  replace (Z.to_nat _ - length items)%nat with 0%nat by lia. cbn [drop gen_mm_loop].
  fold (mm_end p). pose proof (mm_sorted_all _ _ Hso) as Ha. rewrite Hi in Ha.
  apply Forall_app in Ha as [_ Ha]. apply Forall_cons in Ha as [Ha _]. simpl in Ha.
  unfold mm_end in *. rewrite (proj2 (Z.ltb_lt _ _)) by lia.
  rewrite Hp, Z.ltb_irrefl, (proj2 (Z.leb_le _ _)) by lia. eexists. reflexivity.
Qed.

Lemma last_input_key_boundary_witness :
  let r := sample_image_request "a" [1; 2; 3; 4; 5; 6; 7; 8; 9; 10; 11; 12] in
  (exists n, _gen_mm_extra_hash_keys r 8 12 (-1) = Ok ([KStr "image"], n)) /\
  (exists n, _gen_mm_extra_hash_keys r 8 12 1 = Ok ([], n)).
Proof.
  intros r. apply (last_input_key_boundary r (mkPlaceholderRange 4 4) "image" 8 12);
    [|reflexivity|reflexivity|lia].
  split; [done|]. simpl. split_and!; [lia|lia|by eexists|done].
Defined.
