(* ===== verification/KVSpec.v ===== *)
(** The KV-cache specifications of [vllm/v1/kv_cache_interface.py]: the two
    layer types, their page sizes and memory bounds, merging, and the
    configuration records. *)

From Stdlib Require Import ZArith Lia.
From stdpp Require Import base strings numbers pretty gmap list.
From S2P Require Import Prelude.

Open Scope Z_scope.

(** A [torch.dtype]: its name and element size ([get_dtype_size]). *)
Record dtype := mkDtype { dtype_name : string; dtype_size : Z }.

#[export] Instance dtype_eq_dec : EqDecision dtype.
Proof. solve_decision. Defined.

(** The fields of [AttentionSpec] (with [block_size] of [KVCacheSpec]). *)
Record AttentionSpec := mkAttentionSpec {
  attn_block_size : Z;
  num_kv_heads : Z;
  head_size : Z;
  attn_dtype : dtype;
  use_mla : bool
}.

#[export] Instance AttentionSpec_eq_dec : EqDecision AttentionSpec.
Proof. solve_decision. Defined.

Inductive KVCacheSpec :=
  | FullAttentionSpec (a : AttentionSpec) (sliding_window : option Z)
  | SlidingWindowSpec (a : AttentionSpec) (sliding_window : Z).

#[export] Instance KVCacheSpec_eq_dec : EqDecision KVCacheSpec.
Proof. solve_decision. Defined.

Definition attention_spec (s : KVCacheSpec) : AttentionSpec :=
  match s with FullAttentionSpec a _ | SlidingWindowSpec a _ => a end.

Definition block_size (s : KVCacheSpec) : Z := attn_block_size (attention_spec s).

Definition is_full_attention (s : KVCacheSpec) : bool :=
  match s with FullAttentionSpec _ _ => true | SlidingWindowSpec _ _ => false end.

(** [SlidingWindowSpec.__post_init__] *)
Definition make_sliding_window_spec (a : AttentionSpec) (sliding_window : Z) : result KVCacheSpec :=
  if use_mla a then Err AssertionError else Ok (SlidingWindowSpec a sliding_window).

(** [AttentionSpec.page_size_bytes] *)
Definition page_size_bytes (s : KVCacheSpec) : Z :=
  let a := attention_spec s in
  (if use_mla a then 1 else 2) * attn_block_size a * num_kv_heads a * head_size a
    * dtype_size (attn_dtype a).

(** The [type_id] properties: f-strings of the sizes. *)
Definition type_id (s : KVCacheSpec) : string :=
  match s with
  | FullAttentionSpec _ _ =>
      "full_attention_" +:+ pretty (block_size s) +:+ "_" +:+ pretty (page_size_bytes s)
  | SlidingWindowSpec _ sw =>
      "sliding_window_" +:+ pretty sw +:+ "_" +:+ pretty (block_size s) +:+ "_"
        +:+ pretty (page_size_bytes s)
  end.

(** The settings of [VllmConfig] that the KV-cache code reads. *)
Record VllmConfig := mkVllmConfig {
  max_model_len : Z;
  max_num_batched_tokens : Z;
  num_gpu_blocks_override : option Z;
  disable_hybrid_kv_cache_manager : bool;
  gpu_memory_utilization_pct : Z
}.

Definition full_max_memory_usage_bytes (vllm_config : VllmConfig) (s : KVCacheSpec) : Z :=
  cdiv (max_model_len vllm_config) (block_size s) * page_size_bytes s.

Definition sliding_max_memory_usage_bytes (vllm_config : VllmConfig) (s : KVCacheSpec)
    (sliding_window : Z) : Z :=
  let num_tokens := Z.min (sliding_window - 1 + max_num_batched_tokens vllm_config)
                          (max_model_len vllm_config) in
  (cdiv num_tokens (block_size s) + 1) * page_size_bytes s.

Definition spec_max_memory_usage_bytes (vllm_config : VllmConfig) (s : KVCacheSpec) : Z :=
  match s with
  | FullAttentionSpec _ _ => full_max_memory_usage_bytes vllm_config s
  | SlidingWindowSpec _ sw => sliding_max_memory_usage_bytes vllm_config s sw
  end.

(** [KVCacheSpec.merge]; an empty list has no first element to copy. *)
Definition base_merge (specs : list KVCacheSpec) : result KVCacheSpec :=
  match specs with
  | [] => Err IndexError
  | s :: rest =>
      if forallb (fun s' => bool_decide (type_id s' = type_id s)) rest
      then Ok s else Err AssertionError
  end.

(** The sliding windows of full-attention specs, as the set comprehension. *)
Definition full_windows (specs : list KVCacheSpec) : list Z :=
  remove_dups (omap (fun s => match s with
                              | FullAttentionSpec _ sw => sw
                              | SlidingWindowSpec _ sw => Some sw end) specs).

(** [FullAttentionSpec.merge]: also one sliding window at most. *)
Definition full_merge (specs : list KVCacheSpec) : result KVCacheSpec :=
  merged_spec ← base_merge specs;
  match full_windows specs with
  | [] => Ok (FullAttentionSpec (attention_spec merged_spec) None)
  | [sw] => Ok (FullAttentionSpec (attention_spec merged_spec) (Some sw))
  | _ => Err ValueError
  end.

(** [merge] dispatches on the class it is called on, that of the first spec. *)
Definition merge (specs : list KVCacheSpec) : result KVCacheSpec :=
  match specs with
  | FullAttentionSpec _ _ :: _ => full_merge specs
  | _ => base_merge specs
  end.

Record KVCacheTensor := mkKVCacheTensor { size : Z; shared_by : list string }.
Record KVCacheGroupSpec := mkKVCacheGroupSpec {
  layer_names : list string;
  kv_cache_spec : KVCacheSpec
}.
Record KVCacheConfig := mkKVCacheConfig {
  num_blocks : Z;
  kv_cache_tensors : list KVCacheTensor;
  kv_cache_groups : list KVCacheGroupSpec
}.

#[export] Instance KVCacheTensor_eq_dec : EqDecision KVCacheTensor.
Proof. solve_decision. Defined.
#[export] Instance KVCacheGroupSpec_eq_dec : EqDecision KVCacheGroupSpec.
Proof. solve_decision. Defined.

(** ** Lemmas *)

(** The sizes of a real layer are positive. *)
Definition spec_wf (s : KVCacheSpec) : Prop :=
  let a := attention_spec s in
  0 < attn_block_size a /\ 0 < num_kv_heads a /\ 0 < head_size a /\ 0 < dtype_size (attn_dtype a).

Lemma page_size_pos s : spec_wf s -> 0 < page_size_bytes s.
Proof. unfold spec_wf, page_size_bytes. destruct (use_mla _); intros (? & ? & ? & ?); nia. Qed.

(** The bound of a full-attention layer is monotone in the model length: what
    the search for the largest servable length relies on. *)
Lemma spec_max_memory_mono c c' s :
  spec_wf s -> max_num_batched_tokens c = max_num_batched_tokens c' ->
  max_model_len c <= max_model_len c' ->
  spec_max_memory_usage_bytes c s <= spec_max_memory_usage_bytes c' s.
Proof.
  intros Hs Eb Hl. pose proof (page_size_pos s Hs) as Hp. destruct Hs as (Hb & _).
  destruct s as [a sw|a sw]; unfold spec_max_memory_usage_bytes, full_max_memory_usage_bytes,
    sliding_max_memory_usage_bytes, block_size; simpl in *.
  - apply Z.mul_le_mono_nonneg_r; [lia|]. by apply cdiv_mono.
  - apply Z.mul_le_mono_nonneg_r; [lia|]. rewrite Eb. apply Z.add_le_mono_r, cdiv_mono; lia.
Qed.

(** The last [sliding_window - 1] computed tokens and the new ones always fit
    in the blocks of the bound, wherever in a block the window starts. *)
Lemma sliding_bound_covers (bs first n : Z) :
  0 < bs -> 0 <= first -> 0 <= n ->
  cdiv (first + n) bs - first / bs <= cdiv n bs + 1.
Proof.
  intros Hb Hf Hn. apply Z.le_sub_le_add_r, cdiv_le_iff; [done|].
  pose proof (cdiv_spec n bs Hb). pose proof (Z.mod_pos_bound first bs Hb).
  pose proof (Z.div_mod first bs ltac:(lia)). nia.
Qed.

Lemma base_merge_ok specs s :
  base_merge specs = Ok s -> head specs = Some s /\ Forall (fun s' => type_id s' = type_id s) specs.
Proof.
  destruct specs as [|s0 rest]; [done|]. simpl. destruct (forallb _ _) eqn:E; [|done].
  intros [= <-]. split; [done|]. constructor; [done|]. apply Forall_forall. intros s' Hs.
  apply forallb_forall with (x := s') in E; [|by apply list_elem_of_In].
  by apply bool_decide_eq_true in E.
Qed.
