(* ===== verification/BlockPool.v ===== *)
(** The block pool of [vllm/v1/core/block_pool.py]: allocation, reference
    counting, freeing, the prefix cache and its eviction.  The operations are
    written against the queue interface of FreeQueue.v, and proved to preserve
    [pool_inv], which ties the free queue, the reference counts, the block
    hashes and the prefix cache together. *)

From Stdlib Require Import ZArith Lia.
From stdpp Require Import base strings numbers gmap list.
From S2P Require Import Prelude.
From S2P Require Import KVBlock.
From S2P Require Import FreeQueue.
From S2P Require Import LinkedQueue.
From S2P Require Import HPUQueue.
From S2P Require Import Request.
From S2P Require Import BlockHashing.

Open Scope Z_scope.

(** [KVCacheEvent] of [vllm/distributed/kv_events.py], as the pool builds it. *)
Inductive KVCacheEvent :=
  | BlockStored (block_hashes : list Z) (parent_block_hash : option Z) (token_ids : list Z)
      (block_size : Z) (lora_id : option Z)
  | BlockRemoved (block_hashes : list Z)
  | AllBlocksCleared.

(** The inner dict [{block id: block}] of the cache is the list of its keys in
    insertion order; its values are the blocks with these ids. *)
Record BlockPool (Q : Type) := mkBlockPool {
  num_gpu_blocks : Z;
  enable_caching : bool;
  blocks : list KVCacheBlock;
  free_block_queue : Q;
  cached_block_hash_to_block : gmap BlockHashWithGroupId (list nat);
  null_block : nat;
  enable_kv_cache_events : bool;
  kv_event_queue : list KVCacheEvent
}.
Arguments mkBlockPool {Q}.
Arguments num_gpu_blocks {Q}.
Arguments enable_caching {Q}.
Arguments blocks {Q}.
Arguments free_block_queue {Q}.
Arguments cached_block_hash_to_block {Q}.
Arguments null_block {Q}.
Arguments enable_kv_cache_events {Q}.
Arguments kv_event_queue {Q}.

Section pool.
Context {Q : Type} `{FreeBlockQueue Q}.
Abbreviation pool := (BlockPool Q).

Definition set_blocks (bs : list KVCacheBlock) (p : pool) : pool :=
  mkBlockPool (num_gpu_blocks p) (enable_caching p) bs (free_block_queue p)
    (cached_block_hash_to_block p) (null_block p) (enable_kv_cache_events p) (kv_event_queue p).
Definition set_queue (q : Q) (p : pool) : pool :=
  mkBlockPool (num_gpu_blocks p) (enable_caching p) (blocks p) q
    (cached_block_hash_to_block p) (null_block p) (enable_kv_cache_events p) (kv_event_queue p).
Definition set_cached (c : gmap BlockHashWithGroupId (list nat)) (p : pool) : pool :=
  mkBlockPool (num_gpu_blocks p) (enable_caching p) (blocks p) (free_block_queue p)
    c (null_block p) (enable_kv_cache_events p) (kv_event_queue p).
Definition set_events (evs : list KVCacheEvent) (p : pool) : pool :=
  mkBlockPool (num_gpu_blocks p) (enable_caching p) (blocks p) (free_block_queue p)
    (cached_block_hash_to_block p) (null_block p) (enable_kv_cache_events p) evs.

(** A method of the queue, which shares the block objects with the pool. *)
Definition queue_op {A} (m : M (list KVCacheBlock * Q) A) : M pool A :=
  zoom (fun p => (blocks p, free_block_queue p))
       (fun bq p => set_queue bq.2 (set_blocks bq.1 p)) m.

Definition upd_block (f : KVCacheBlock -> KVCacheBlock) (i : nat) : M pool unit :=
  modify (fun p => set_blocks (alter f i (blocks p)) p).

Definition get_block (i : nat) : M pool KVCacheBlock := gets (fun p => obj (blocks p) i).

Definition emit (e : KVCacheEvent) : M pool unit :=
  modify (fun p => if enable_kv_cache_events p then set_events (kv_event_queue p ++ [e]) p else p).

(** [__init__] *)
Definition init_pool (num_gpu_blocks : Z) (enable_caching enable_kv_cache_events : bool) : result pool :=
  guard_or (0 <? num_gpu_blocks) AssertionError;;
  '(bs, q) ← fq_init (new_block <$> seq 0 (Z.to_nat num_gpu_blocks));
  match fq_popleft (bs, q) with
  | Ret nb (bs, q) =>
      Ok (mkBlockPool num_gpu_blocks enable_caching (alter (set_null true) nb bs) q ∅ nb
            enable_kv_cache_events [])
  | Raise e _ => Err e
  end.

(** The loop of [get_cached_block]. *)
Fixpoint get_cached_block (block_hash : BlockHash) (kv_cache_group_ids : list nat) (p : pool)
    : option (list nat) :=
  match kv_cache_group_ids with
  | [] => Some []
  | group_id :: rest =>
      match dd_get (cached_block_hash_to_block p) (mkBlockHashWithGroupId block_hash group_id) with
      | [] => None
      | first_block_id :: _ =>
          match get_cached_block block_hash rest p with
          | Some cached_blocks => Some (first_block_id :: cached_blocks)
          | None => None
          end
      end
  end.

(** [d[h][block_id] = blk] on the [defaultdict] of dicts: a new key goes last. *)
Definition cache_insert (h : BlockHashWithGroupId) (i : nat)
    (c : gmap BlockHashWithGroupId (list nat)) : gmap BlockHashWithGroupId (list nat) :=
  let ids := dd_get c h in
  <[h := if decide (i ∈ ids) then ids else ids ++ [i]]> c.

(** [_maybe_evict_cached_block] *)
Definition _maybe_evict_cached_block (block : nat) : M pool bool :=
  b ← get_block block;
  c ← gets cached_block_hash_to_block;
  match _block_hash b with
  | None => mret false
  | Some h =>
      match c !! h with
      | None => mret false
      | Some ids =>
          upd_block reset_hash block;;
          (if decide (block ∈ ids) then mret tt else raise KeyError);;
          let ids' := without block ids in
          modify (set_cached (if (length ids' =? 0)%nat then delete h c else <[h := ids']> c));;
          emit (BlockRemoved [get_hash_value h]);;
          mret true
      end
  end.

Definition get_num_free_blocks (p : pool) : Z := fq_num_free_blocks (free_block_queue p).

(** The body of the [while] loop of [get_new_blocks]. *)
Definition get_new_block : M pool nat :=
  curr_block ← queue_op fq_popleft;
  b ← get_block curr_block;
  py_assert (ref_cnt b =? 0);;
  caching ← gets enable_caching;
  (if caching : bool then _maybe_evict_cached_block curr_block;; mret tt else mret tt);;
  upd_block incr_ref curr_block;;
  mret curr_block.

Definition get_new_blocks (num_blocks : Z) : M pool (list nat) :=
  free ← gets get_num_free_blocks;
  if free <? num_blocks then raise ValueError
  else map_each (fun _ => get_new_block) (seq 0 (Z.to_nat num_blocks)).

(** The inner loop body of [touch]; [touch] runs it over all blocks of all groups. *)
Definition touch_block (block : nat) : M pool unit :=
  b ← get_block block;
  (if (ref_cnt b =? 0) && negb (is_null b) then queue_op (fq_remove block) else mret tt);;
  upd_block incr_ref block.

Definition touch (bss : list (list nat)) : M pool unit :=
  for_each (for_each touch_block) bss.

Definition free_block (block : nat) : M pool unit :=
  upd_block decr_ref block;;
  b ← get_block block;
  if (ref_cnt b =? 0) && negb (is_null b) then queue_op (fq_append block) else mret tt.

Definition free_blocks (ordered_blocks : list nat) : M pool unit :=
  for_each free_block ordered_blocks.

Definition reset_prefix_cache : M pool bool :=
  p ← get_state;
  if negb (num_gpu_blocks p - get_num_free_blocks p =? 1) then mret false
  else
    modify (set_cached ∅);;
    modify (fun p => set_blocks (reset_hash <$> blocks p) p);;
    emit AllBlocksCleared;;
    mret true.

(** [get_usage] as the exact fraction of blocks in use (the code returns the float). *)
Definition get_usage (p : pool) : Z * Z :=
  (num_gpu_blocks p - get_num_free_blocks p, num_gpu_blocks p).

Definition take_events : M pool (list KVCacheEvent) :=
  p ← get_state;
  if negb (enable_kv_cache_events p) then mret []
  else modify (set_events []);; mret (kv_event_queue p).

(** *** [cache_full_blocks]

    The caller's [block_hashes] list is appended to in place, so it is part of
    the state. *)
Section cache_full_blocks.
Context (hash_fn : Z * list Z * option (list ExtraKey) -> Z) (NONE_HASH : Z).

Definition in_pool {A} (m : M pool A) : M (pool * list BlockHash) A :=
  zoom fst (fun p s => (p, s.2)) m.

(** The hash of a block that is not in [block_hashes] yet. *)
Definition compute_block_hash (request : Request) (block_size blk_idx : Z)
    (prev_block_hash_value : option Z) : result BlockHash :=
  let start_token_idx := blk_idx * block_size in
  let end_token_idx := (blk_idx + 1) * block_size in
  let block_tokens := slice start_token_idx end_token_idx (_all_token_ids request) in
  guard_or (len block_tokens =? block_size) AssertionError;;
  '(extra_keys, _) ← generate_block_hash_extra_keys request start_token_idx end_token_idx (-1);
  mret (hash_block_tokens hash_fn NONE_HASH prev_block_hash_value block_tokens extra_keys).

(** The [for] loop: [i] is the index in [new_full_blocks], the result is the
    list of the hash values of the new blocks. *)
Fixpoint cache_loop (request : Request) (num_cached_blocks block_size : Z) (kv_cache_group_id : nat)
    (new_block_hashes : list BlockHash) (new_full_blocks : list nat) (i : nat)
    (prev_block_hash_value : option Z) : M (pool * list BlockHash) (list Z) :=
  match new_full_blocks with
  | [] => mret []
  | blk :: rest =>
      b ← in_pool (get_block blk);
      py_assert (bool_decide (_block_hash b = None));;
      block_hash ←
        match new_block_hashes !! i with
        | Some h => mret h
        | None =>
            h ← lift_result (compute_block_hash request block_size (num_cached_blocks + Z.of_nat i)
                  prev_block_hash_value);
            modify (fun s => (s.1, s.2 ++ [h]));; mret h
        end;
      let hg := mkBlockHashWithGroupId block_hash kv_cache_group_id in
      in_pool (upd_block (set_hash (Some hg)) blk);;
      in_pool (modify (fun p => set_cached (cache_insert hg blk (cached_block_hash_to_block p)) p));;
      values ← cache_loop request num_cached_blocks block_size kv_cache_group_id new_block_hashes
        rest (S i) (Some (hash_value block_hash));
      mret (hash_value block_hash :: values)
  end.

(** [request.lora_request.id] raises: [LoRARequest] has no such attribute. *)
Definition stored_event (request : Request) (num_cached_blocks num_full_blocks block_size : Z)
    (new_hashes : list Z) (parent_block_hash : option Z) : result KVCacheEvent :=
  match lora_request request with
  | Some _ => Err AttributeError
  | None => Ok (BlockStored new_hashes parent_block_hash
      (slice (num_cached_blocks * block_size) (num_full_blocks * block_size) (_all_token_ids request))
      block_size None)
  end.

Definition cache_full_blocks (request : Request) (blks : list nat)
    (num_cached_blocks num_full_blocks block_size : Z) (kv_cache_group_id : nat)
    : M (pool * list BlockHash) unit :=
  if num_cached_blocks =? num_full_blocks then mret tt
  else
    block_hashes ← gets snd;
    py_assert (num_cached_blocks <=? len block_hashes);;
    prev_block_hash_value ←
      (if num_cached_blocks =? 0 then mret None
       else match blks !! Z.to_nat (num_cached_blocks - 1) with
       | None => raise IndexError
       | Some prev_block =>
           b ← in_pool (get_block prev_block);
           match _block_hash b with
           | None => raise AssertionError
           | Some h => mret (Some (get_hash_value h))
           end
       end);
    new_hashes ← cache_loop request num_cached_blocks block_size kv_cache_group_id
      (drop (Z.to_nat num_cached_blocks) block_hashes)
      (slice num_cached_blocks num_full_blocks blks) 0 prev_block_hash_value;
    p ← gets fst;
    if enable_kv_cache_events p then
      e ← lift_result (stored_event request num_cached_blocks num_full_blocks block_size
            new_hashes prev_block_hash_value);
      in_pool (modify (fun p => set_events (kv_event_queue p ++ [e]) p))
    else mret tt.
End cache_full_blocks.
End pool.

(** [BlockPool.__init__] picks the class of the queue. *)
Definition init_block_pool (is_hpu : bool) (num_gpu_blocks : Z)
    (enable_caching enable_kv_cache_events : bool)
    : result (BlockPool FreeKVCacheBlockQueueHPU.t + BlockPool FreeKVCacheBlockQueue.t) :=
  if is_hpu && negb enable_caching
  then p ← init_pool num_gpu_blocks enable_caching enable_kv_cache_events; mret (inl p)
  else p ← init_pool num_gpu_blocks enable_caching enable_kv_cache_events; mret (inr p).

(** ** The invariant *)

(** Hashes and the cache: an id is listed under [h] iff its block carries [h]. *)
Record cache_ok (hs : list (option BlockHashWithGroupId))
    (c : gmap BlockHashWithGroupId (list nat)) : Prop := {
  co_inner h ids : c !! h = Some ids -> ids <> [] /\ NoDup ids;
  co_iff h i : i ∈ dd_get c h <-> hs !! i = Some (Some h)
}.

(** Reference counts and the free list: a block is free iff it is not the null
    block and nobody holds it; only the null block is marked as such. *)
Record counts_ok (rn : list (Z * bool)) (null : nat) (l : list nat) : Prop := {
  ct_free i : i ∈ l <-> rn !! i = Some (0, false);
  ct_null : exists r, rn !! null = Some (r, true);
  ct_rest i r b : rn !! i = Some (r, b) -> i <> null -> b = false /\ 0 <= r
}.

Lemma cache_ok_NoDup hs c h : cache_ok hs c -> NoDup (dd_get c h).
Proof.
  intros [Hin _]. unfold dd_get. destruct (c !! h) eqn:E; simpl; [by eapply Hin|constructor].
Qed.

Lemma cache_ok_insert hs c h i :
  cache_ok hs c -> hs !! i = Some None -> cache_ok (<[i := Some h]> hs) (cache_insert h i c).
Proof.
  intros Hco Hi. pose proof (cache_ok_NoDup _ _ h Hco) as Hnd. destruct Hco as [Hin Hiff].
  assert (i ∉ dd_get c h) as Hni by (rewrite Hiff; congruence).
  unfold cache_insert. rewrite decide_False by done. split.
  - intros h' ids. destruct (decide (h = h')) as [<-|Hne].
    + rewrite lookup_insert_eq. intros [= <-]. split; [by destruct (dd_get c h)|].
      apply NoDup_app. split_and!; [done|set_solver|apply NoDup_singleton].
    + rewrite lookup_insert_ne by done. apply Hin.
  - intros h' j. unfold dd_get at 1. pose proof (lookup_lt_Some _ _ _ Hi).
    destruct (decide (h = h')) as [<-|Hne].
    + rewrite lookup_insert_eq. simpl. rewrite elem_of_app, list_elem_of_singleton, Hiff.
      destruct (decide (i = j)) as [<-|Hij].
      * rewrite list_lookup_insert_eq by done. split; [done|by right].
      * rewrite list_lookup_insert_ne by done. intuition congruence.
    + rewrite lookup_insert_ne by done. fold (dd_get c h'). rewrite Hiff.
      destruct (decide (i = j)) as [<-|Hij].
      * rewrite list_lookup_insert_eq by done. split; congruence.
      * by rewrite list_lookup_insert_ne.
Qed.

Definition cache_remove (h : BlockHashWithGroupId) (i : nat)
    (c : gmap BlockHashWithGroupId (list nat)) : gmap BlockHashWithGroupId (list nat) :=
  let ids' := without i (dd_get c h) in
  if (length ids' =? 0)%nat then delete h c else <[h := ids']> c.

Lemma dd_get_cache_remove h i c h' :
  dd_get (cache_remove h i c) h' = if decide (h = h') then without i (dd_get c h) else dd_get c h'.
Proof.
  unfold cache_remove. destruct (Nat.eqb_spec (length (without i (dd_get c h))) 0) as [E|E];
    unfold dd_get at 1; destruct (decide (h = h')) as [<-|Hne].
  - rewrite lookup_delete_eq. simpl. by apply nil_length_inv in E.
  - by rewrite lookup_delete_ne.
  - by rewrite lookup_insert_eq.
  - by rewrite lookup_insert_ne.
Qed.

Lemma cache_ok_remove hs c h i :
  cache_ok hs c -> hs !! i = Some (Some h) -> cache_ok (<[i := None]> hs) (cache_remove h i c).
Proof.
  intros Hco Hi. pose proof (cache_ok_NoDup _ _ h Hco) as Hnd. destruct Hco as [Hin Hiff].
  pose proof (lookup_lt_Some _ _ _ Hi). split.
  - intros h' ids. unfold cache_remove.
    destruct (Nat.eqb_spec (length (without i (dd_get c h))) 0) as [E|E].
    + intros [_ Hl]%lookup_delete_Some. by eapply Hin.
    + intros [[<- <-]|[_ Hl]]%lookup_insert_Some; [|by eapply Hin].
      split; [intros Ew; by rewrite Ew in E|by apply NoDup_without].
  - intros h' j. rewrite dd_get_cache_remove.
    destruct (decide (i = j)) as [<-|Hij];
      [rewrite list_lookup_insert_eq by done|rewrite list_lookup_insert_ne by done];
      destruct (decide (h = h')) as [<-|Hne]; rewrite ?elem_of_without, Hiff;
      (split; [|try discriminate]); intuition congruence.
Qed.

Lemma cache_ok_reset {A} (hs : list A) : cache_ok ((fun _ => None) <$> hs) ∅.
Proof.
  split.
  - intros h ids. by rewrite lookup_empty.
  - intros h i. unfold dd_get. rewrite lookup_empty, list_lookup_fmap. simpl.
    split; [by intros ?%not_elem_of_nil|]. by destruct (hs !! i).
Qed.

(** The counter of a block goes up or down. *)
Definition bump (d : Z) (p : Z * bool) : Z * bool := (p.1 + d, p.2).

Lemma lookup_bump d (rn : list (Z * bool)) (x i : nat) :
  alter (bump d) x rn !! i = if decide (x = i) then bump d <$> rn !! i else rn !! i.
Proof.
  destruct (decide (x = i)) as [<-|Hne].
  - apply list_lookup_alter_eq.
  - by apply list_lookup_alter_ne.
Qed.

(** All the changes of one counter: what has to hold of the free list after. *)
Lemma counts_ok_bump rn null l l' x r b d :
  counts_ok rn null l -> rn !! x = Some (r, b) -> (b = false -> 0 <= r + d) ->
  (forall i, i ∈ l' <-> if decide (i = x) then b = false /\ r + d = 0 else i ∈ l) ->
  counts_ok (alter (bump d) x rn) null l'.
Proof.
  intros [Hf [rn' Hn] Hr] Hx Hd Hl'. split.
  - intros i. rewrite Hl', lookup_bump. destruct (decide (i = x)) as [->|Hne].
    + rewrite decide_True, Hx by done. unfold bump. simpl.
      split; [intros [-> ->]; done|intros [= -> ->]; done].
    + rewrite decide_False by done. apply Hf.
  - rewrite lookup_bump. destruct (decide (x = null)) as [->|]; [|eauto].
    rewrite Hn. unfold bump. simpl. eauto.
  - intros i r' b'. rewrite lookup_bump. destruct (decide (x = i)) as [<-|]; [|apply Hr].
    rewrite Hx. unfold bump. simpl. intros [= <- <-] Hin.
    destruct (Hr _ _ _ Hx Hin) as [-> _]. split; [done|by apply Hd].
Qed.

(** The fields the operations do not change. *)
Definition pool_config {Q} (p : BlockPool Q) : Z * bool * nat * bool :=
  (num_gpu_blocks p, enable_caching p, null_block p, enable_kv_cache_events p).

Definition hashes {Q} (p : BlockPool Q) : list (option BlockHashWithGroupId) :=
  _block_hash <$> blocks p.
Definition ref_nulls {Q} (p : BlockPool Q) : list (Z * bool) :=
  (fun b => (ref_cnt b, is_null b)) <$> blocks p.

(** The reference count of a block, as its holders see it. *)
Definition refs {Q} (p : BlockPool Q) (i : nat) : Z := ref_cnt (obj (blocks p) i).

(** ** The operations preserve the invariant *)

Section proofs.
Context {Q : Type} `{FreeBlockQueueSpec Q}.
Abbreviation pool := (BlockPool Q).

(** All of the invariant but the counters, which are out of step with the
    queue in the middle of an operation. *)
Record pool_base (p : pool) (l : list nat) : Prop := {
  pb_queue : fq_rep (blocks p) (free_block_queue p) l;
  pb_numbered : numbered (blocks p);
  pb_num : num_gpu_blocks p = len (blocks p);
  pb_cache : cache_ok (hashes p) (cached_block_hash_to_block p);
  pb_off : enable_caching p = false -> cached_block_hash_to_block p = ∅
}.

(** The invariant; [l] is the free list in the order of allocation. *)
Record pool_inv (p : pool) (l : list nat) : Prop := {
  pi_base : pool_base p l;
  pi_counts : counts_ok (ref_nulls p) (null_block p) l
}.

Lemma pi_NoDup (p : pool) l : pool_inv p l -> NoDup l.
Proof. intros Hp. apply (fq_rep_wf _ _ _ (pb_queue _ _ (pi_base _ _ Hp))). Qed.

Lemma lookup_ref_nulls (p : pool) i :
  (i < length (blocks p))%nat ->
  ref_nulls p !! i = Some (refs p i, is_null (obj (blocks p) i)).
Proof. intros Hi. unfold ref_nulls. by rewrite list_lookup_fmap, lookup_obj. Qed.

Lemma lookup_hashes (p : pool) i :
  (i < length (blocks p))%nat -> hashes p !! i = Some (_block_hash (obj (blocks p) i)).
Proof. intros Hi. unfold hashes. by rewrite list_lookup_fmap, lookup_obj. Qed.

(** The null block and the free list, through the objects. *)
Lemma pi_null_iff (p : pool) l i :
  pool_inv p l -> (i < length (blocks p))%nat ->
  is_null (obj (blocks p) i) = bool_decide (i = null_block p).
Proof.
  intros Hp Hi. destruct (pi_counts _ _ Hp) as [_ [r Hn] Hr].
  pose proof (lookup_ref_nulls p i Hi) as E. case_bool_decide as Hin.
  - subst. congruence.
  - by destruct (Hr _ _ _ E Hin).
Qed.

Lemma pi_null_lt (p : pool) l : pool_inv p l -> (null_block p < length (blocks p))%nat.
Proof.
  intros Hp. destruct (pi_counts _ _ Hp) as [_ [r Hn] _]. apply lookup_lt_Some in Hn.
  unfold ref_nulls in Hn. by rewrite length_fmap in Hn.
Qed.

Lemma pi_free_iff (p : pool) l i :
  pool_inv p l -> (i < length (blocks p))%nat ->
  i ∈ l <-> i <> null_block p /\ refs p i = 0.
Proof.
  intros Hp Hi. rewrite (ct_free _ _ _ (pi_counts _ _ Hp)), lookup_ref_nulls by done.
  rewrite (pi_null_iff _ _ _ Hp Hi). split.
  - intros [= E Hb]. by apply bool_decide_eq_false in Hb.
  - intros [Hn ->]. by rewrite bool_decide_eq_false_2.
Qed.

Lemma pi_refs_nonneg (p : pool) l i :
  pool_inv p l -> (i < length (blocks p))%nat -> i <> null_block p -> 0 <= refs p i.
Proof.
  intros Hp Hi Hn. destruct (pi_counts _ _ Hp) as [_ _ Hr].
  by destruct (Hr _ _ _ (lookup_ref_nulls _ _ Hi) Hn).
Qed.

Lemma pi_free_lt (p : pool) l i : pool_inv p l -> i ∈ l -> (i < length (blocks p))%nat.
Proof.
  intros Hp Hi. destruct (fq_rep_wf _ _ _ (pb_queue _ _ (pi_base _ _ Hp))) as [_ Hl].
  by apply (proj1 (Forall_forall _ _) Hl).
Qed.

(** A queue operation leaves the counts and hashes alone. *)
Lemma same_core_ref_nulls (p : pool) bs q :
  same_core bs (blocks p) ->
  ref_nulls (set_queue q (set_blocks bs p)) = ref_nulls p /\
  hashes (set_queue q (set_blocks bs p)) = hashes p /\
  length bs = length (blocks p) /\ (forall i, core (obj bs i) = core (obj (blocks p) i)).
Proof.
  intros E. split_and!; [| |by apply same_core_length|intros; by apply obj_same_core].
  - unfold ref_nulls. simpl. apply (f_equal (fmap (fun c => (c.1.1.2, c.2)))) in E.
    by rewrite <- !list_fmap_compose in E.
  - unfold hashes. simpl. apply (f_equal (fmap (fun c => c.1.2))) in E.
    by rewrite <- !list_fmap_compose in E.
Qed.

(** A change of the counters or the hash of one block leaves the links alone. *)
Lemma fmap_alter_comm {A B} (g : A -> B) (f : A -> A) (f' : B -> B) i (l : list A) :
  (forall x, g (f x) = f' (g x)) -> g <$> alter f i l = alter f' i (g <$> l).
Proof.
  intros Hg. apply list_eq. intros j. rewrite list_lookup_fmap.
  destruct (decide (i = j)) as [<-|].
  - rewrite !list_lookup_alter_eq, list_lookup_fmap. destruct (l !! i); simpl; [by rewrite Hg|done].
  - by rewrite !list_lookup_alter_ne, list_lookup_fmap.
Qed.

Lemma numbered_alter f bs i :
  (forall b, block_id (f b) = block_id b) -> numbered bs -> numbered (alter f i bs).
Proof.
  intros Hf Hn j b Hb. destruct (decide (i = j)) as [<-|].
  - rewrite list_lookup_alter_eq in Hb. destruct (bs !! i) eqn:E; [|done].
    simplify_eq/=. rewrite Hf. by apply Hn.
  - rewrite list_lookup_alter_ne in Hb by done. by apply Hn.
Qed.

(** What the specifications say of a pool, without the queue and the links. *)
Definition pool_view (p : pool) :=
  (pool_config p, ref_nulls p, hashes p, cached_block_hash_to_block p, kv_event_queue p).

Lemma pool_view_inv (p : pool) c rn hs ca ev :
  pool_view p = (c, rn, hs, ca, ev) ->
  pool_config p = c /\ ref_nulls p = rn /\ hashes p = hs /\
  cached_block_hash_to_block p = ca /\ kv_event_queue p = ev.
Proof.
  intros E. split_and!; [apply (f_equal (fun v => v.1.1.1.1)) in E|apply (f_equal (fun v => v.1.1.1.2)) in E
    |apply (f_equal (fun v => v.1.1.2)) in E|apply (f_equal (fun v => v.1.2)) in E
    |apply (f_equal snd) in E]; exact E.
Qed.

Lemma wp_queue_op {A} (m : M (list KVCacheBlock * Q) A) (R : A -> Prop) p l l' :
  pool_base p l ->
  wp m (fun a '(bs', q') => R a /\ same_core bs' (blocks p) /\ fq_rep bs' q' l')
    (blocks p, free_block_queue p) ->
  wp (queue_op m) (fun a p' => R a /\ pool_base p' l' /\ pool_view p' = pool_view p) p.
Proof.
  intros Hb Hm. apply wp_zoom. eapply wp_mono; [exact Hm|].
  intros a [bs' q'] (HR & Hc & Hq). destruct (same_core_ref_nulls p bs' q' Hc) as (E1 & E2 & E3 & _).
  destruct Hb as [_ Hnb Hnum Hca Hoff]. split_and!; [done| |].
  - split; simpl in *; [done|by eapply numbered_same_core|by rewrite Hnum; unfold len; rewrite E3| |done].
    by rewrite E2.
  - unfold pool_view. simpl in *. by rewrite E1, E2.
Qed.

Lemma wp_bump (f : KVCacheBlock -> KVCacheBlock) d x p l (R : unit -> pool -> Prop) :
  (forall b, f b = set_ref_cnt (ref_cnt b + d) b) ->
  pool_base p l ->
  (forall p', pool_base p' l ->
    pool_view p' = (pool_config p, alter (bump d) x (ref_nulls p), hashes p,
                    cached_block_hash_to_block p, kv_event_queue p) -> R tt p') ->
  wp (upd_block f x) R p.
Proof.
  intros Hf [Hq Hnb Hnum Hca Hoff] HR. apply wp_modify.
  assert (hashes (set_blocks (alter f x (blocks p)) p) = hashes p) as Eh
    by (apply alter_fmap_id; intros b; by rewrite Hf).
  assert (ref_nulls (set_blocks (alter f x (blocks p)) p) = alter (bump d) x (ref_nulls p)) as Er
    by (apply fmap_alter_comm; intros b; by rewrite Hf).
  apply HR.
  - split; simpl.
    + eapply fq_rep_links; [|done]. symmetry. apply same_links_alter. intros b. by rewrite Hf.
    + apply numbered_alter; [intros b; by rewrite Hf|done].
    + rewrite Hnum. unfold len. by rewrite length_alter.
    + by rewrite Eh.
    + done.
  - unfold pool_view. by rewrite Eh, Er.
Qed.

Lemma refs_lookup (p : pool) i : refs p i = default 0 (fst <$> ref_nulls p !! i).
Proof.
  unfold refs, ref_nulls, obj. rewrite list_lookup_fmap, list_lookup_total_alt.
  by destruct (blocks p !! i).
Qed.

Lemma refs_bump (p p' : pool) d x i :
  ref_nulls p' = alter (bump d) x (ref_nulls p) -> (x < length (blocks p))%nat ->
  refs p' i = refs p i + if decide (x = i) then d else 0.
Proof.
  intros E Hx. rewrite !refs_lookup, E, lookup_bump. destruct (decide (x = i)) as [<-|]; [|lia].
  by rewrite lookup_ref_nulls.
Qed.

Lemma view_length (p p' : pool) rn :
  ref_nulls p' = rn -> length rn = length (ref_nulls p) -> length (blocks p') = length (blocks p).
Proof. intros <-. unfold ref_nulls. by rewrite !length_fmap. Qed.

(** *** Eviction *)

Lemma hash_cached p l x h :
  pool_base p l -> (x < length (blocks p))%nat -> _block_hash (obj (blocks p) x) = Some h ->
  exists ids, cached_block_hash_to_block p !! h = Some ids /\ x ∈ ids.
Proof.
  intros Hb Hx Eh. pose proof (proj2 (co_iff _ _ (pb_cache _ _ Hb) h x)) as Hin.
  rewrite lookup_hashes, Eh in Hin by done. specialize (Hin eq_refl). unfold dd_get in Hin.
  destruct (cached_block_hash_to_block p !! h); [eauto|by apply not_elem_of_nil in Hin].
Qed.

Definition clear (hs : list (option BlockHashWithGroupId)) (x : nat) :=
  alter (fun _ => None) x hs.

Lemma set_hash_view f h x (p : pool) :
  (forall b, f b = set_hash h b) ->
  ref_nulls (set_blocks (alter f x (blocks p)) p) = ref_nulls p /\
  hashes (set_blocks (alter f x (blocks p)) p) = alter (fun _ => h) x (hashes p) /\
  same_links (alter f x (blocks p)) (blocks p).
Proof.
  intros Hf. split_and!.
  - apply alter_fmap_id. intros b. by rewrite Hf.
  - apply fmap_alter_comm. intros b. by rewrite Hf.
  - apply same_links_alter. intros b. by rewrite Hf.
Qed.

Lemma alter_const {A} (l : list A) x a b : l !! x = Some b -> alter (fun _ => a) x l = <[x := a]> l.
Proof.
  intros Hx. pose proof (lookup_lt_Some _ _ _ Hx). apply list_eq. intros j.
  destruct (decide (x = j)) as [<-|].
  - by rewrite list_lookup_alter_eq, Hx, list_lookup_insert_eq.
  - by rewrite list_lookup_alter_ne, list_lookup_insert_ne.
Qed.

Lemma alter_same {A} (f : A -> A) (l : list A) x a : l !! x = Some a -> f a = a -> alter f x l = l.
Proof.
  intros Hx Hf. apply list_eq. intros j. destruct (decide (x = j)) as [<-|].
  - rewrite list_lookup_alter_eq, Hx. simpl. by rewrite Hf.
  - by rewrite list_lookup_alter_ne.
Qed.

Lemma wp_evict x p l :
  pool_base p l -> (x < length (blocks p))%nat ->
  wp (_maybe_evict_cached_block x) (fun evicted p' =>
    evicted = bool_decide (is_Some (_block_hash (obj (blocks p) x))) /\
    pool_base p' l /\ pool_config p' = pool_config p /\ ref_nulls p' = ref_nulls p /\
    hashes p' = clear (hashes p) x) p.
Proof.
  intros Hb Hx. pose proof (lookup_hashes p x Hx) as Hl. unfold _maybe_evict_cached_block, get_block.
  wp_steps. destruct (_block_hash (obj (blocks p) x)) as [h|] eqn:Eh.
  - destruct (hash_cached _ _ _ _ Hb Hx Eh) as (ids & Ec & Hin). rewrite Ec.
    unfold upd_block. wp_steps. rewrite decide_True by done. wp_steps.
    destruct (set_hash_view reset_hash None x p (fun _ => eq_refl)) as (E1 & E2 & E3).
    unfold emit. wp_steps.
    destruct Hb as [Hq Hnb Hnum Hca Hoff]. rewrite <- Eh in Hl. rewrite Eh in Hl.
    pose proof (cache_ok_remove _ _ _ _ Hca Hl) as Hco. unfold cache_remove, dd_get in Hco.
    rewrite Ec in Hco. cbn [from_option id] in Hco.
    assert (clear (hashes p) x = <[x := None]> (hashes p)) as Ecl by (by eapply alter_const).
    split_and!; [by rewrite bool_decide_eq_true_2 by eauto| | | |].
    + destruct (enable_kv_cache_events _); split; simpl;
        try (by eapply fq_rep_links; [symmetry; exact E3|]);
        try (by apply numbered_alter); try (by rewrite Hnum; unfold len; rewrite length_alter);
        try (by intros Hc; rewrite (Hoff Hc) in Ec).
      all: unfold hashes in *; simpl in *; rewrite E2; unfold clear in Ecl; rewrite Ecl; exact Hco.
    + by destruct (enable_kv_cache_events _).
    + destruct (enable_kv_cache_events _); exact E1.
    + destruct (enable_kv_cache_events _); exact E2.
  - wp_steps. split_and!; [by rewrite bool_decide_eq_false_2 by (by intros [? ?])|done..|].
    symmetry. by eapply alter_same.
Qed.
(** *** Allocation *)

Lemma wp_get_new_block p x l :
  pool_inv p (x :: l) ->
  wp get_new_block (fun y p' =>
    y = x /\ pool_inv p' l /\ pool_config p' = pool_config p /\
    ref_nulls p' = alter (bump 1) x (ref_nulls p) /\ hashes p' = clear (hashes p) x) p.
Proof.
  intros Hp. pose proof (pi_NoDup _ _ Hp) as [Hxl _]%NoDup_cons.
  pose proof (pi_free_lt _ _ x Hp ltac:(set_solver)) as Hx.
  destruct (proj1 (pi_free_iff _ _ x Hp Hx) ltac:(set_solver)) as [_ Hr0].
  pose proof (ct_free _ _ _ (pi_counts _ _ Hp) x) as [Hrn _]. specialize (Hrn ltac:(set_solver)).
  unfold get_new_block. wp_step. eapply wp_mono.
  { eapply (wp_queue_op _ (fun y => y = x)); [apply Hp|]. apply fq_popleft_cons, (pi_base _ _ Hp). }
  intros y p1 (-> & Hb1 & Hv1). apply pool_view_inv in Hv1 as (Ec1 & Er1 & Eh1 & Eca1 & Eev1).
  assert (length (blocks p1) = length (blocks p)) as El1 by (by eapply view_length).
  assert (refs p1 x = 0) as Hr1 by (rewrite refs_lookup, Er1, <- refs_lookup; done).
  unfold get_block, py_assert. wp_steps. unfold refs in Hr1. rewrite Hr1. simpl. wp_steps.
  assert (forall p2, pool_base p2 l -> pool_config p2 = pool_config p -> ref_nulls p2 = ref_nulls p ->
    hashes p2 = clear (hashes p) x ->
    wp (upd_block incr_ref x;; mret x) (fun y p' =>
      y = x /\ pool_inv p' l /\ pool_config p' = pool_config p /\
      ref_nulls p' = alter (bump 1) x (ref_nulls p) /\ hashes p' = clear (hashes p) x) p2) as Hend.
  { intros p2 Hb2 Ec2 Er2 Eh2. wp_step. eapply (wp_bump _ 1); [done|done|].
    intros p3 Hb3 Hv3. apply pool_view_inv in Hv3 as (Ec3 & Er3 & Eh3 & _ & _). wp_steps.
    split_and!; [done| |congruence..]. split; [done|].
    assert (null_block p3 = null_block p) as -> by (unfold pool_config in *; congruence).
    rewrite Er3, Er2. eapply counts_ok_bump; [apply Hp|exact Hrn|lia|].
    intros i. destruct (decide (i = x)) as [->|Hne]; set_solver by lia. }
  destruct (enable_caching p1) eqn:Ecache.
  - wp_steps. eapply wp_mono; [apply (wp_evict _ _ _ Hb1); lia|].
    intros b p2 (_ & Hb2 & Ec2 & Er2 & Eh2). wp_steps. apply Hend; congruence.
  - wp_steps. apply Hend; [done..|]. rewrite Eh1. symmetry.
    pose proof (lookup_hashes p x Hx) as Hl.
    destruct (_block_hash (obj (blocks p) x)) as [h|] eqn:Eh; [|by eapply alter_same].
    destruct (hash_cached _ _ _ _ (pi_base _ _ Hp) Hx Eh) as (ids & Eids & _).
    rewrite (pb_off _ _ (pi_base _ _ Hp)) in Eids; [done|].
    unfold pool_config in Ec1. congruence.
Qed.

(** The effect on the views of taking a list of blocks. *)
Definition taken (p p' : pool) (ids : list nat) : Prop :=
  pool_config p' = pool_config p /\ length (blocks p') = length (blocks p) /\
  (forall i, refs p' i = refs p i + occ i ids) /\
  (forall i, (i < length (blocks p))%nat ->
     _block_hash (obj (blocks p') i) =
       if decide (i ∈ ids) then None else _block_hash (obj (blocks p) i)).

Lemma hash_lookup (p : pool) i :
  (i < length (blocks p))%nat -> _block_hash (obj (blocks p) i) = default None (hashes p !! i).
Proof. intros Hi. by rewrite lookup_hashes. Qed.

Lemma wp_get_new_blocks p l n :
  pool_inv p l -> 0 <= n <= len l ->
  wp (get_new_blocks n) (fun ids p' =>
    ids = take (Z.to_nat n) l /\ pool_inv p' (drop (Z.to_nat n) l) /\ taken p p' ids) p.
Proof.
  intros Hp Hn. unfold get_new_blocks, get_num_free_blocks. wp_steps.
  rewrite (fq_num_free_spec _ _ _ (pb_queue _ _ (pi_base _ _ Hp))).
  rewrite (proj2 (Z.ltb_ge _ _)) by lia.
  set (k := Z.to_nat n). assert (k <= length l)%nat as Hk by (unfold len in *; lia).
  eapply wp_mono.
  { apply (wp_map_each _ (fun ys xs p' => (length ys + length xs = k)%nat /\
      ys = take (length ys) l /\ pool_inv p' (drop (length ys) l) /\ taken p p' ys) _ []).
    - rewrite length_seq. split_and!; [done..|]. split_and!; [done..| |done].
      intros i. change (occ i []) with 0. lia.
    - intros ys x xs p1 (Hlen & Hys & Hp1 & Hc & Hl & Hr & Hh). simpl in Hlen.
      assert (exists y l', drop (length ys) l = y :: l') as (y & l' & Ed).
      { destruct (drop (length ys) l) eqn:E; [|eauto].
        apply (f_equal length) in E. rewrite length_drop in E. simpl in E. lia. }
      rewrite Ed in Hp1. eapply wp_mono; [by apply wp_get_new_block|].
      pose proof (pi_free_lt _ _ y Hp1 ltac:(set_solver)) as Hy.
      intros ? p2 (-> & Hp2 & Ec2 & Er2 & Eh2).
      assert (length (blocks p2) = length (blocks p1)) as El2
        by (eapply view_length; [exact Er2|apply length_alter]).
      rewrite length_app. simpl. rewrite Nat.add_1_r.
      assert (l !! length ys = Some y) as Hy' by (rewrite <- (Nat.add_0_r (length ys)),
        <- lookup_drop, Ed; done).
      pose proof (drop_S _ _ _ Hy') as Ed'. rewrite Ed in Ed'. injection Ed' as ->.
      split_and!; [lia|by erewrite take_S_r, <- Hys by done|done|].
      split_and!; [congruence|lia| |].
      + intros i. rewrite (refs_bump _ _ _ _ i Er2 Hy), Hr, occ_app, occ_cons.
        change (occ i []) with 0. lia.
      + intros i Hi. rewrite hash_lookup, Eh2 by lia. unfold clear.
        destruct (decide (y = i)) as [<-|Hne].
        * rewrite list_lookup_alter_eq, decide_True by set_solver. by destruct (hashes p1 !! y).
        * rewrite list_lookup_alter_ne, <- hash_lookup, Hh by (done || lia).
          destruct (decide (i ∈ ys)); [by rewrite decide_True by set_solver|].
          by rewrite decide_False by set_solver. }
  intros ids p' (Hlen & Hids & Hp' & Ht). simpl in *. rewrite Nat.add_0_r in Hlen.
  by rewrite Hlen in *.
Qed.

Lemma get_new_blocks_error_aux p l n :
  pool_inv p l -> len l < n -> get_new_blocks n p = Raise ValueError p.
Proof.
  intros Hp Hn. unfold get_new_blocks, get_num_free_blocks.
  pose proof (fq_num_free_spec _ _ _ (pb_queue _ _ (pi_base _ _ Hp))) as E.
  unfold mbind, M_mbind, M_bind, gets. by rewrite E, (proj2 (Z.ltb_lt _ _)) by lia.
Qed.
(** *** Freeing *)

(** The blocks keep their hashes, so a freed block can still be hit. *)
Definition released (d : Z) (p p' : pool) (ids : list nat) : Prop :=
  pool_config p' = pool_config p /\ hashes p' = hashes p /\
  cached_block_hash_to_block p' = cached_block_hash_to_block p /\
  length (blocks p') = length (blocks p) /\
  (forall i, refs p' i = refs p i + d * occ i ids).

(** The free list after [free_blocks]: every block whose last reference is
    given up is put where the queue's [append] puts it. *)
Fixpoint free_into (rc : nat -> Z) (null : nat) (ids l : list nat) : list nat :=
  match ids with
  | [] => l
  | x :: ids' =>
      free_into (fun i => if decide (x = i) then rc i - 1 else rc i) null ids'
        (if (rc x =? 1) && negb (bool_decide (x = null)) then fq_insert x l else l)
  end.

Lemma released_trans d p1 p2 p3 x ids :
  released d p1 p2 [x] -> released d p2 p3 ids -> released d p1 p3 (x :: ids).
Proof.
  intros (A1 & A2 & A3 & A4 & A5) (B1 & B2 & B3 & B4 & B5). split_and!; [congruence..|].
  intros i. rewrite B5, A5, !occ_cons. change (occ i []) with 0. lia.
Qed.

Lemma released_bump d p p' x :
  (x < length (blocks p))%nat ->
  pool_view p' = (pool_config p, alter (bump d) x (ref_nulls p), hashes p,
                  cached_block_hash_to_block p, kv_event_queue p) ->
  released d p p' [x].
Proof.
  intros Hx Hv. apply pool_view_inv in Hv as (Ec & Er & Eh & Eca & _).
  split_and!; [done..| |].
  - eapply view_length; [exact Er|apply length_alter].
  - intros i. rewrite (refs_bump _ _ _ _ i Er Hx), occ_cons. change (occ i []) with 0.
    destruct (decide (x = i)); lia.
Qed.

Lemma released_view d p1 p2 p2' ids :
  released d p1 p2 ids -> pool_view p2' = pool_view p2 -> released d p1 p2' ids.
Proof.
  intros (A1 & A2 & A3 & A4 & A5) Hv. apply pool_view_inv in Hv as (Ec & Er & Eh & Eca & _).
  split_and!; [congruence..| |].
  - rewrite <- A4. by eapply view_length.
  - intros i. rewrite <- A5, !refs_lookup. by rewrite Er.
Qed.

Lemma config_null (p p' : pool) : pool_config p' = pool_config p -> null_block p' = null_block p.
Proof. unfold pool_config. congruence. Qed.

Lemma wp_free_block p l x :
  pool_inv p l -> (x < length (blocks p))%nat -> (x <> null_block p -> 1 <= refs p x) ->
  wp (free_block x) (fun _ p' =>
    pool_inv p' (if (refs p x =? 1) && negb (bool_decide (x = null_block p))
                 then fq_insert x l else l) /\ released (-1) p p' [x]) p.
Proof.
  intros Hp Hx Hr. pose proof (lookup_ref_nulls p x Hx) as Hrn.
  rewrite (pi_null_iff _ _ _ Hp Hx) in Hrn. unfold free_block. wp_step.
  eapply (wp_bump _ (-1)); [done|apply Hp|]. intros p1 Hb1 Hv1.
  pose proof (released_bump _ _ _ _ Hx Hv1) as Hrel.
  apply pool_view_inv in Hv1 as (Ec1 & Er1 & _).
  assert (length (blocks p1) = length (blocks p)) as El1 by apply Hrel.
  assert (ref_nulls p1 !! x = Some (refs p x - 1, bool_decide (x = null_block p))) as Hl1.
  { rewrite Er1, list_lookup_alter_eq, Hrn. done. }
  assert (Hct : forall l', (forall i, i ∈ l' <-> if decide (i = x)
      then bool_decide (x = null_block p) = false /\ refs p x + -1 = 0 else i ∈ l) ->
      counts_ok (ref_nulls p1) (null_block p1) l').
  { intros l' Hl'. rewrite (config_null _ _ Ec1), Er1.
    eapply counts_ok_bump; [apply Hp|exact Hrn| |exact Hl'].
    intros Hn%bool_decide_eq_false. specialize (Hr Hn). lia. }
  pose proof (pi_free_iff _ _ x Hp Hx) as Hfree.
  unfold get_block. wp_steps.
  rewrite lookup_ref_nulls in Hl1 by lia. injection Hl1 as Hr1 Hn1. unfold refs at 1 in Hr1.
  rewrite Hr1, Hn1. replace (refs p x - 1 =? 0) with (refs p x =? 1) by lia.
  destruct ((refs p x =? 1) && negb (bool_decide (x = null_block p))) eqn:Ecase.
  - apply andb_true_iff in Ecase as [E1 E2]. apply Z.eqb_eq in E1. apply negb_true_iff in E2.
    assert (x ∉ l) by (rewrite Hfree; lia).
    eapply wp_mono; [apply (wp_queue_op _ (fun _ => True) _ l (fq_insert x l) Hb1)|].
    { eapply wp_mono; [apply fq_append_spec; [apply Hb1|lia|done]|]. by intros [] [bs' q'] [? ?]. }
    intros [] p2 (_ & Hb2 & Hv2). split; [|by eapply released_view].
    split; [done|]. apply pool_view_inv in Hv2 as (Ec2 & Er2 & _).
    rewrite (config_null _ _ Ec2), Er2. apply Hct. intros i. rewrite (fq_insert_perm x l).
    destruct (decide (i = x)) as [->|]; [|set_solver]. split; [split; [done|lia]|set_solver].
  - wp_steps. split; [|done]. split; [done|]. apply Hct. intros i.
    destruct (decide (i = x)) as [->|]; [|done]. rewrite Hfree.
    apply andb_false_iff in Ecase as [E%Z.eqb_neq|E%negb_false_iff].
    + split; [|intros [? ?]; lia]. intros [Hn Hz]. specialize (Hr Hn). lia.
    + apply bool_decide_eq_true in E. rewrite bool_decide_eq_true_2 by done.
      split; [by intros [? _]|by intros [? _]].
Qed.

Lemma free_into_ext rc rc' null ids : forall l,
  (forall i, rc i = rc' i) -> free_into rc null ids l = free_into rc' null ids l.
Proof.
  revert rc rc'. induction ids as [|x ids IH]; intros rc rc' l E; simpl; [done|].
  rewrite E. apply IH. intros i. by rewrite E.
Qed.

Lemma wp_free_blocks ids : forall p l,
  pool_inv p l -> (forall i, i ∈ ids -> (i < length (blocks p))%nat) ->
  (forall i, i <> null_block p -> occ i ids <= refs p i) ->
  wp (free_blocks ids) (fun _ p' =>
    pool_inv p' (free_into (refs p) (null_block p) ids l) /\ released (-1) p p' ids) p.
Proof.
  unfold free_blocks. induction ids as [|x ids IH]; intros p l Hp Hlt Hocc; simpl.
  - wp_steps. split; [done|]. split_and!; [done..|]. intros i. change (occ i []) with 0. lia.
  - wp_step. eapply wp_mono.
    { apply wp_free_block; [done|apply Hlt; set_solver|]. intros Hn. specialize (Hocc _ Hn).
      rewrite occ_cons, decide_True in Hocc by done. pose proof (occ_nonneg x ids). lia. }
    intros [] p1 (Hp1 & Hrel). pose proof Hrel as (Ec & _ & _ & El & Er).
    eapply wp_mono; [apply (IH _ _ Hp1)|].
    + intros i Hi. rewrite El. apply Hlt. set_solver.
    + intros i. rewrite (config_null _ _ Ec), Er. intros Hn. specialize (Hocc _ Hn).
      rewrite occ_cons in *. change (occ i []) with 0. destruct (decide (x = i)); lia.
    + intros [] p2 (Hp2 & Hrel2). split; [|by eapply released_trans].
      rewrite (config_null _ _ Ec) in Hp2.
      erewrite free_into_ext; [exact Hp2|]. intros i. rewrite Er, occ_cons.
      change (occ i []) with 0. destruct (decide (x = i)); lia.
Qed.

(** Blocks held once each, the common case: they are appended in order. *)
Lemma free_into_once rc null ids : forall l,
  NoDup ids -> (forall i, i ∈ ids -> rc i = 1 /\ i <> null) ->
  free_into rc null ids l = foldl (fun l x => fq_insert x l) l ids.
Proof.
  revert rc. induction ids as [|x ids IH]; intros rc l Hnd Hrc; simpl; [done|].
  apply NoDup_cons in Hnd as [Hx Hnd]. destruct (Hrc x ltac:(set_solver)) as [-> Hn].
  rewrite bool_decide_eq_false_2 by done. simpl. apply IH; [done|].
  intros i Hi. rewrite decide_False by set_solver. apply Hrc. set_solver.
Qed.
End proofs.

(** *** Touching: hits take blocks out of the free list *)

Section touch_proofs.
Context {Q : Type} `{FreeBlockQueueRemove Q}.
Abbreviation pool := (BlockPool Q).

Lemma wp_touch_block p l x :
  pool_inv p l -> (x < length (blocks p))%nat ->
  wp (touch_block x) (fun _ p' => pool_inv p' (without x l) /\ released 1 p p' [x]) p.
Proof.
  intros Hp Hx. pose proof (lookup_ref_nulls p x Hx) as Hrn.
  rewrite (pi_null_iff _ _ _ Hp Hx) in Hrn. pose proof (pi_free_iff _ _ x Hp Hx) as Hfree.
  assert (forall p1, pool_base p1 (without x l) -> pool_view p1 = pool_view p ->
    wp (upd_block incr_ref x) (fun _ p' => pool_inv p' (without x l) /\ released 1 p p' [x]) p1)
    as Hend.
  { intros p1 Hb1 Hv1. apply pool_view_inv in Hv1 as (Ec1 & Er1 & Eh1 & Eca1 & Eev1).
    eapply (wp_bump _ 1); [done|exact Hb1|]. intros p2 Hb2 Hv2.
    rewrite Ec1, Er1, Eh1, Eca1, Eev1 in Hv2. split; [|by apply released_bump].
    split; [done|]. apply pool_view_inv in Hv2 as (Ec2 & Er2 & _).
    rewrite (config_null _ _ Ec2), Er2. eapply counts_ok_bump; [apply Hp|exact Hrn| |].
    - intros Hn%bool_decide_eq_false. pose proof (pi_refs_nonneg _ _ _ Hp Hx Hn). lia.
    - intros i. rewrite elem_of_without. destruct (decide (i = x)) as [->|]; [|tauto].
      split; [tauto|]. intros [Hn%bool_decide_eq_false Hz].
      pose proof (pi_refs_nonneg _ _ _ Hp Hx Hn). lia. }
  unfold touch_block, get_block. wp_steps. rewrite (pi_null_iff _ _ _ Hp Hx).
  fold (refs p x).
  destruct ((refs p x =? 0) && negb (bool_decide (x = null_block p))) eqn:E.
  - apply andb_true_iff in E as [E1%Z.eqb_eq E2%negb_true_iff%bool_decide_eq_false].
    eapply wp_mono; [apply (wp_queue_op _ (fun _ => True) _ l (without x l)); [apply Hp|]|].
    { eapply wp_mono; [apply fq_remove_spec; [apply Hp|by apply Hfree]|].
      by intros [] [bs' q'] [? ?]. }
    intros [] p1 (_ & Hb1 & Hv1). by apply Hend.
  - wp_steps. apply Hend; [|done]. rewrite without_not_elem; [apply Hp|].
    rewrite Hfree. apply andb_false_iff in E as [E%Z.eqb_neq|E%negb_false_iff%bool_decide_eq_true];
      [by intros [_ ?]|by intros [? _]].
Qed.

(** The free list without the touched blocks. *)
Definition untouched (ids l : list nat) : list nat := filter (fun i => i ∉ ids) l.

Lemma untouched_cons x ids l : untouched (x :: ids) l = untouched ids (without x l).
Proof.
  unfold untouched, without. rewrite list_filter_filter. apply list_filter_iff.
  intros i. rewrite not_elem_of_cons. tauto.
Qed.

Lemma wp_touch_list ids : forall p l,
  pool_inv p l -> (forall i, i ∈ ids -> (i < length (blocks p))%nat) ->
  wp (for_each touch_block ids) (fun _ p' =>
    pool_inv p' (untouched ids l) /\ released 1 p p' ids) p.
Proof.
  induction ids as [|x ids IH]; intros p l Hp Hlt; simpl.
  - wp_steps. split; [|split_and!; [done..|intros i; change (occ i []) with 0; lia]].
    assert (untouched [] l = l) as ->; [|done].
    clear. induction l as [|y l IH]; [done|]. unfold untouched in *.
    rewrite filter_cons_True by set_solver. by rewrite IH.
  - wp_step. eapply wp_mono; [apply wp_touch_block; [done|apply Hlt; set_solver]|].
    intros [] p1 (Hp1 & Hrel). rewrite untouched_cons.
    eapply wp_mono; [apply (IH _ _ Hp1)|].
    + intros i Hi. destruct Hrel as (_ & _ & _ & -> & _). apply Hlt. set_solver.
    + intros [] p2 (Hp2 & Hrel2). split; [done|by eapply released_trans].
Qed.

Lemma for_each_concat {S A} (body : A -> M S unit) (ls : list (list A)) s :
  for_each (for_each body) ls s = for_each body (concat ls) s.
Proof.
  revert s. induction ls as [|l ls IH]; intros s; simpl; [done|].
  assert (forall l' k s, for_each body (l' ++ k) s = (for_each body l';; for_each body k) s) as Happ.
  { clear. induction l' as [|x l' IHl]; intros k s; [done|]. simpl.
    unfold mbind, M_mbind, M_bind in *. destruct (body x s); [|done]. apply IHl. }
  rewrite Happ. unfold mbind, M_mbind, M_bind. by destruct (for_each body l s).
Qed.

Lemma wp_touch bss p l :
  pool_inv p l -> (forall i, i ∈ concat bss -> (i < length (blocks p))%nat) ->
  wp (touch bss) (fun _ p' =>
    pool_inv p' (untouched (concat bss) l) /\ released 1 p p' (concat bss)) p.
Proof.
  intros Hp Hlt. pose proof (wp_touch_list _ _ _ Hp Hlt) as Hw.
  unfold wp, touch in *. by rewrite for_each_concat.
Qed.
End touch_proofs.

(** *** Creation, reset and events *)

Section other_proofs.
Context {Q : Type} `{FreeBlockQueueSpec Q}.
Abbreviation pool := (BlockPool Q).

Lemma init_pool_aux n caching events :
  0 < n ->
  exists p, init_pool n caching events = Ok p /\
    pool_inv p (seq 1 (Z.to_nat n - 1)) /\ pool_config p = (n, caching, 0%nat, events) /\
    (forall i, refs p i = 0) /\ cached_block_hash_to_block p = ∅.
Proof.
  intros Hn. unfold init_pool. rewrite (proj2 (Z.ltb_lt _ _)) by lia. simpl.
  destruct (fq_init_spec (Z.to_nat n) ltac:(lia)) as (bs & q & -> & Hc & Hq). simpl.
  destruct (Z.to_nat n) as [|k] eqn:Ek; [lia|]. simpl in Hq. replace (S k - 1)%nat with k by lia.
  destruct (wp_elim _ _ _ (fq_popleft_cons _ _ _ _ Hq)) as (y & [bs1 q1] & -> & -> & Hc1 & Hq1).
  assert (same_core bs1 (new_block <$> seq 0 (S k))) as Hcore by (by etrans).
  pose proof (same_core_length _ _ Hcore) as Hlen. rewrite length_fmap, length_seq in Hlen.
  assert (forall i, core (obj bs1 i) = core (obj (new_block <$> seq 0 (S k)) i)) as Hobj
    by (intros; by apply obj_same_core).
  assert (forall i, (i < S k)%nat -> obj (new_block <$> seq 0 (S k)) i = new_block i) as Hnew.
  { intros i Hi. unfold obj. apply list_lookup_total_correct.
    rewrite list_lookup_fmap, lookup_seq_lt by lia. done. }
  eexists. split; [done|].
  assert (Hhash : hashes (mkBlockPool n caching (alter (set_null true) 0%nat bs1) q1 ∅ 0%nat events [])
     = (fun _ => None) <$> seq 0 (S k)).
  { unfold hashes. simpl. rewrite alter_fmap_id by done.
    apply (f_equal (fmap (fun c => c.1.2))) in Hcore. rewrite <- !list_fmap_compose in Hcore.
    etrans; [exact Hcore|]. done. }
  split_and!; [|done| |done].
  - split; [split|]; simpl.
    + eapply fq_rep_links; [symmetry; by apply same_links_alter|done].
    + apply numbered_alter; [done|]. eapply numbered_same_core; [exact Hcore|].
      intros i b. rewrite list_lookup_fmap. intros Hb.
      destruct (seq 0 (S k) !! i) eqn:E; [|done]. apply lookup_seq in E as [-> _]. by simplify_eq/=.
    + unfold len. rewrite length_alter, Hlen. lia.
    + rewrite Hhash. apply cache_ok_reset.
    + done.
    + assert (forall i, ref_nulls (mkBlockPool n caching (alter (set_null true) 0%nat bs1) q1 ∅ 0%nat events [])
        !! i = if decide (i < S k)%nat then Some (0, bool_decide (i = 0%nat)) else None) as Hrn.
      { intros i. unfold ref_nulls. simpl. rewrite list_lookup_fmap.
        destruct (decide (i < S k)%nat) as [Hi|Hi].
        - rewrite lookup_obj by (rewrite length_alter; lia). simpl. f_equal.
          pose proof (Hobj i) as Ho. rewrite Hnew in Ho by done.
          destruct i as [|i]; [rewrite obj_alter_eq by lia|rewrite obj_alter_ne by done];
            injection Ho as H1 H2 H3 H4; simpl; by rewrite H2, ?H4.
        - rewrite lookup_ge_None_2 by (rewrite length_alter; lia). done. }
      split.
      * intros i. rewrite Hrn, elem_of_seq. destruct (decide (i < S k)%nat); [|split; [lia|done]].
        split; [|intros [= ?%bool_decide_eq_false]; lia].
        intros [? ?]. by rewrite bool_decide_eq_false_2 by lia.
      * exists 0. rewrite Hrn, decide_True by lia. done.
      * intros i r b. rewrite Hrn. case_decide; [|done]. intros [= <- <-] Hi.
        by rewrite bool_decide_eq_false_2.
  - intros i. unfold refs. simpl. destruct (decide (i < S k)%nat) as [Hi|Hi].
    + pose proof (Hobj i) as Ho. rewrite Hnew in Ho by done. injection Ho as _ Hz _ _.
      destruct i as [|i]; [rewrite obj_alter_eq by lia|rewrite obj_alter_ne by done];
        exact Hz.
    + unfold obj. rewrite list_lookup_total_alt, lookup_ge_None_2; [done|rewrite length_alter; lia].
Qed.

(** The blocks other than the null block. *)
Lemma free_list_submseteq p l :
  pool_inv p l ->
  l ⊆+ without (null_block p) (seq 0 (length (blocks p))) /\
  S (length (without (null_block p) (seq 0 (length (blocks p))))) = length (blocks p).
Proof.
  intros Hp. split.
  - apply NoDup_submseteq; [by eapply pi_NoDup|]. intros i Hi.
    pose proof (pi_free_lt _ _ _ Hp Hi) as Hlt. apply (pi_free_iff _ _ _ Hp Hlt) in Hi as [Hn _].
    rewrite elem_of_without, elem_of_seq. split; [lia|done].
  - pose proof (pi_null_lt _ _ Hp) as Hn.
    assert (null_block p ∈ seq 0 (length (blocks p))) as Hin by (rewrite elem_of_seq; lia).
    apply list_elem_of_split in Hin as (l1 & l2 & E). pose proof (NoDup_seq 0 (length (blocks p))) as Hnd.
    rewrite E in Hnd |- *. rewrite without_middle by done.
    apply (f_equal length) in E. rewrite length_seq, length_app in E. rewrite length_app. simpl in E. lia.
Qed.

Lemma all_free_iff p l :
  pool_inv p l ->
  num_gpu_blocks p - get_num_free_blocks p = 1 <->
  (forall i, (i < length (blocks p))%nat -> i <> null_block p -> refs p i = 0).
Proof.
  intros Hp. unfold get_num_free_blocks.
  rewrite (fq_num_free_spec _ _ _ (pb_queue _ _ (pi_base _ _ Hp))), (pb_num _ _ (pi_base _ _ Hp)).
  destruct (free_list_submseteq _ _ Hp) as [Hsub Hlen].
  set (s := without (null_block p) (seq 0 (length (blocks p)))) in *.
  assert (Hs : forall i, i ∈ s <-> i <> null_block p /\ (i < length (blocks p))%nat)
    by (intros i; unfold s; rewrite elem_of_without, elem_of_seq; intuition lia).
  unfold len. split.
  - intros E i Hi Hn. apply (pi_free_iff _ _ _ Hp Hi).
    assert (l ≡ₚ s) as -> by (apply submseteq_length_Permutation; [done|lia]). by apply Hs.
  - intros Hall. assert (s ⊆+ l) as Hsub'.
    { apply NoDup_submseteq; [apply NoDup_without, NoDup_seq|]. intros i [Hn Hi]%Hs.
      apply (pi_free_iff _ _ _ Hp Hi). split; [done|by apply Hall]. }
    apply submseteq_length in Hsub, Hsub'. lia.
Qed.

(** Reset works exactly when nothing but the null block is in use. *)
Lemma wp_reset_prefix_cache p l :
  pool_inv p l ->
  wp reset_prefix_cache (fun b p' =>
    (b = true <-> forall i, (i < length (blocks p))%nat -> i <> null_block p -> refs p i = 0) /\
    pool_inv p' l /\ pool_config p' = pool_config p /\ (forall i, refs p' i = refs p i) /\
    (b = false -> p' = p) /\
    (b = true -> cached_block_hash_to_block p' = ∅ /\
       forall i, _block_hash (obj (blocks p') i) = None)) p.
Proof.
  intros Hp. pose proof (all_free_iff _ _ Hp) as Hall. unfold reset_prefix_cache. wp_steps. simpl.
  destruct (Z.eqb_spec (num_gpu_blocks p - get_num_free_blocks p) 1) as [E|E]; simpl.
  - unfold emit. wp_steps.
    set (p1 := set_blocks (reset_hash <$> blocks (set_cached ∅ p)) (set_cached ∅ p)).
    assert (Hr : ref_nulls p1 = ref_nulls p)
      by (unfold ref_nulls, p1; simpl; rewrite <- list_fmap_compose; done).
    assert (Hh : hashes p1 = (fun _ => None) <$> blocks p)
      by (unfold hashes, p1; simpl; rewrite <- list_fmap_compose; done).
    assert (pool_inv p1 l) as Hp1.
    { destruct Hp as [[Hq Hnb Hnum Hca Hoff] Hct]. split; [split|]; simpl.
      - eapply fq_rep_links; [|exact Hq]. unfold same_links. by rewrite <- list_fmap_compose.
      - intros i b. rewrite list_lookup_fmap. intros Hb. destruct (blocks p !! i) eqn:Eb; [|done].
        simplify_eq/=. by apply Hnb.
      - rewrite Hnum. unfold len. by rewrite length_fmap.
      - rewrite Hh. apply cache_ok_reset.
      - done.
      - by rewrite Hr. }
    assert (forall p2 : pool, blocks p2 = blocks p1 -> ref_nulls p2 = ref_nulls p1 ->
      forall i, refs p2 i = refs p i) as Hrefs.
    { intros p2 _ E2 i. by rewrite !refs_lookup, E2, Hr. }
    assert (forall i, _block_hash (obj (blocks p1) i) = None) as Hnone.
    { intros i. unfold obj. rewrite list_lookup_total_alt. simpl. rewrite list_lookup_fmap.
      by destruct (blocks p !! i). }
    fold p1. destruct (enable_kv_cache_events p1);
      (split_and!; [split; [by intros _; apply Hall|done]| |done|by apply Hrefs|done|]; [|done]);
      [|done].
    destruct Hp1 as [[? ? ? ? ?] ?]. by split; [split|].
  - wp_steps. split_and!; [split; [done|by intros ?%Hall]|done..].
Qed.

Lemma wp_take_events p l :
  pool_inv p l ->
  wp take_events (fun evs p' =>
    pool_inv p' l /\ blocks p' = blocks p /\ null_block p' = null_block p /\
    enable_caching p' = enable_caching p /\
    (enable_kv_cache_events p = true -> evs = kv_event_queue p /\ kv_event_queue p' = []) /\
    (enable_kv_cache_events p = false -> evs = [] /\ p' = p)) p.
Proof.
  intros Hp. unfold take_events. wp_steps. simpl. destruct (enable_kv_cache_events p); simpl; wp_steps.
  - split_and!; [|done..]. destruct Hp as [[? ? ? ? ?] ?]. by split; [split|].
  - split_and!; done.
Qed.
End other_proofs.

(** *** Caching full blocks *)

Section cache_proofs.
Context {Q : Type} `{FreeBlockQueueSpec Q}.
Abbreviation pool := (BlockPool Q).
Context (hash_fn : Z * list Z * option (list ExtraKey) -> Z) (NONE_HASH : Z).

(** The hashes the loop assigns to [n] blocks: the known ones, then computed ones. *)
Fixpoint assigned (request : Request) (num_cached_blocks block_size : Z)
    (known : list BlockHash) (n i : nat) (prev : option Z) : result (list BlockHash) :=
  match n with
  | O => Ok []
  | S n' =>
      h ← match known !! i with
          | Some h => Ok h
          | None => compute_block_hash hash_fn NONE_HASH request block_size
                      (num_cached_blocks + Z.of_nat i) prev
          end;
      hs ← assigned request num_cached_blocks block_size known n' (S i) (Some (hash_value h));
      Ok (h :: hs)
  end.

Lemma wp_in_pool {A} (m : M pool A) (R : A -> pool * list BlockHash -> Prop) p bh :
  wp m (fun a p' => R a (p', bh)) p -> wp (in_pool m) R (p, bh).
Proof. intros Hm. by apply wp_zoom. Qed.

Lemma pool_inv_set_hash p l x hg :
  pool_inv p l -> enable_caching p = true -> (x < length (blocks p))%nat ->
  _block_hash (obj (blocks p) x) = None ->
  let p1 := set_blocks (alter (set_hash (Some hg)) x (blocks p)) p in
  pool_inv (set_cached (cache_insert hg x (cached_block_hash_to_block p1)) p1) l /\
  ref_nulls p1 = ref_nulls p /\ hashes p1 = <[x := Some hg]> (hashes p).
Proof.
  intros [[Hq Hnb Hnum Hca Hoff] Hct] Hcache Hx Hn p1.
  destruct (set_hash_view (set_hash (Some hg)) (Some hg) x p (fun _ => eq_refl)) as (E1 & E2 & E3).
  pose proof (lookup_hashes p x Hx) as Hl. rewrite Hn in Hl.
  rewrite (alter_const _ _ _ _ Hl) in E2. split_and!; [|done|done].
  split; [split|]; simpl.
  - by eapply fq_rep_links; [symmetry; exact E3|].
  - by apply numbered_alter.
  - rewrite Hnum. unfold len. by rewrite length_alter.
  - change (cache_ok (hashes p1) (cache_insert hg x (cached_block_hash_to_block p))).
    unfold p1. rewrite E2. by apply cache_ok_insert.
  - by rewrite Hcache.
  - change (counts_ok (ref_nulls p1) (null_block p) l). unfold p1. by rewrite E1.
Qed.

(** What caching changes: the hashes of the new blocks, nothing else. *)
Definition hashed (p p' : pool) (g : nat) (blks : list nat) (hs : list BlockHash) : Prop :=
  pool_config p' = pool_config p /\ length (blocks p') = length (blocks p) /\
  (forall i, refs p' i = refs p i) /\
  (forall k x h, blks !! k = Some x -> hs !! k = Some h ->
     _block_hash (obj (blocks p') x) = Some (mkBlockHashWithGroupId h g)) /\
  (forall x, (x < length (blocks p))%nat -> x ∉ blks ->
     _block_hash (obj (blocks p') x) = _block_hash (obj (blocks p) x)).

Lemma wp_cache_loop request nc bs g known blks : forall i prev p bh l hs,
  pool_inv p l -> enable_caching p = true -> NoDup blks ->
  (forall x, x ∈ blks -> (x < length (blocks p))%nat /\ _block_hash (obj (blocks p) x) = None) ->
  assigned request nc bs known (length blks) i prev = Ok hs ->
  wp (cache_loop hash_fn NONE_HASH request nc bs g known blks i prev)
    (fun vals '(p', bh') => vals = hash_value <$> hs /\ bh' = bh ++ drop (length known - i) hs /\
       pool_inv p' l /\ kv_event_queue p' = kv_event_queue p /\ hashed p p' g blks hs) (p, bh).
Proof.
  induction blks as [|x blks IH]; intros i prev p bh l hs Hp Hc Hnd Hfresh; simpl.
  - intros [= <-]. wp_steps. rewrite drop_nil, app_nil_r. by split_and!.
  - apply NoDup_cons in Hnd as [Hxb Hnd]. destruct (Hfresh x ltac:(set_solver)) as [Hx Hn].
    destruct (match known !! i with Some h => Ok h | None => _ end) as [h|] eqn:Eh; [|done].
    simpl. destruct (assigned _ _ _ _ _ _ _) as [hs'|] eqn:Ehs; [|done]. intros [= <-].
    wp_step. apply wp_in_pool. unfold get_block. wp_step. rewrite Hn. wp_step.
    apply wp_assert; [done|]. wp_step.
    assert (Hrest : forall bh1, bh1 = bh ++ match known !! i with Some _ => [] | None => [h] end ->
      wp (let hg := mkBlockHashWithGroupId h g in
          in_pool (upd_block (set_hash (Some hg)) x);;
          in_pool (modify (fun p => set_cached (cache_insert hg x (cached_block_hash_to_block p)) p));;
          values ← cache_loop hash_fn NONE_HASH request nc bs g known blks (S i) (Some (hash_value h));
          mret (hash_value h :: values))
        (fun vals '(p', bh') => vals = hash_value <$> h :: hs' /\
           bh' = bh ++ drop (length known - i) (h :: hs') /\
           pool_inv p' l /\ kv_event_queue p' = kv_event_queue p /\ hashed p p' g (x :: blks) (h :: hs'))
        (p, bh1)).
    { intros bh1 ->. cbv zeta. set (hg := mkBlockHashWithGroupId h g).
      destruct (pool_inv_set_hash p l x hg Hp Hc Hx Hn) as (Hp1 & E1 & E2).
      wp_step. apply wp_in_pool, wp_modify. wp_step. apply wp_in_pool, wp_modify. wp_step.
      set (p1 := set_cached _ _) in *.
      assert (length (blocks p1) = length (blocks p)) as El1 by apply length_alter.
      assert (hashes p1 = <[x := Some hg]> (hashes p)) as Eh1 by exact E2.
      assert (ref_nulls p1 = ref_nulls p) as Er1 by exact E1.
      assert (Hne : forall y, y <> x -> obj (blocks p1) y = obj (blocks p) y)
        by (intros y Hy; by apply obj_alter_ne).
      eapply wp_mono.
      { eapply (IH (S i) _ p1); [done|done|done| |done]. intros y Hy. rewrite El1, Hne by set_solver.
        apply Hfresh. set_solver. }
      intros vals [p2 bh2] (-> & -> & Hp2 & Hev & Hcfg & Hl2 & Hr2 & Hset & Hkeep). wp_steps.
      split_and!; [done| |done|done|].
      { rewrite <- app_assoc. f_equal. destruct (known !! i) eqn:Ek.
        - apply lookup_lt_Some in Ek. by replace (length known - i)%nat with (S (length known - S i)) by lia.
        - apply lookup_ge_None in Ek. replace (length known - i)%nat with 0%nat by lia.
          by replace (length known - S i)%nat with 0%nat by lia. }
      split_and!; [by rewrite Hcfg|congruence| | |].
      - intros y. by rewrite Hr2, !refs_lookup, Er1.
      - intros [|k] y h' Hy Hh'; simpl in *; [|by eapply Hset].
        simplify_eq. rewrite Hkeep by (done || lia). by unfold p1; simpl; rewrite obj_alter_eq.
      - intros y Hy [Hyx Hyb]%not_elem_of_cons. rewrite Hkeep by (done || lia). by rewrite Hne. }
    destruct (known !! i) as [h0|].
    + injection Eh as ->. wp_step. apply Hrest. by rewrite app_nil_r.
    + rewrite Eh. unfold lift_result. wp_step. simpl. wp_steps. by apply Hrest.
Qed.
(** The value the first new block is chained to. *)
Definition prev_value (p : pool) (blks : list nat) (num_cached_blocks : Z) : option (option Z) :=
  if num_cached_blocks =? 0 then Some None
  else match blks !! Z.to_nat (num_cached_blocks - 1) with
  | Some x => match _block_hash (obj (blocks p) x) with
    | Some h => Some (Some (get_hash_value h))
    | None => None
    end
  | None => None
  end.

(** The blocks to cache: distinct, in the pool and not hashed yet. *)
Definition fresh (p : pool) (new : list nat) : Prop :=
  NoDup new /\
  forall x, x ∈ new -> (x < length (blocks p))%nat /\ _block_hash (obj (blocks p) x) = None.

Lemma cache_full_blocks_runs request blks nc nf bs g p bh l hs pv :
  pool_inv p l -> enable_caching p = true -> nc <> nf -> nc <= len bh ->
  fresh p (slice nc nf blks) -> prev_value p blks nc = Some pv ->
  assigned request nc bs (drop (Z.to_nat nc) bh) (length (slice nc nf blks)) 0 pv = Ok hs ->
  exists p1 bh1, pool_inv p1 l /\ hashed p p1 g (slice nc nf blks) hs /\
    bh1 = bh ++ drop (length (drop (Z.to_nat nc) bh)) hs /\
    kv_event_queue p1 = kv_event_queue p /\
    cache_full_blocks hash_fn NONE_HASH request blks nc nf bs g (p, bh) =
      (if enable_kv_cache_events p
       then match stored_event request nc nf bs (hash_value <$> hs) pv with
            | Ok e => Ret tt (set_events (kv_event_queue p1 ++ [e]) p1, bh1)
            | Err e => Raise e (p1, bh1)
            end
       else Ret tt (p1, bh1)).
Proof.
  intros Hp Hc Hne Hlen [Hnd Hfresh] Hpv Hhs.
  pose proof (wp_cache_loop request nc bs g _ _ 0 pv p bh l hs Hp Hc Hnd Hfresh Hhs) as Hw.
  apply wp_elim in Hw as (vals & [p1 bh1] & Erun & -> & Hbh & Hp1 & Hev & Hhashed).
  exists p1, bh1. rewrite Nat.sub_0_r in Hbh. split_and!; [done|apply Hhashed..|done|done|].
  assert (enable_kv_cache_events p1 = enable_kv_cache_events p) as Een
    by (destruct Hhashed as [E _]; unfold pool_config in E; congruence).
  unfold cache_full_blocks, py_assert. rewrite (proj2 (Z.eqb_neq _ _) Hne).
  cbv [mbind M_mbind M_bind gets snd mret M_mret M_ret]. rewrite (proj2 (Z.leb_le _ _) Hlen).
  unfold prev_value in Hpv. destruct (nc =? 0).
  - injection Hpv as <-. rewrite Erun. cbn [fst snd]. rewrite Een. destruct (enable_kv_cache_events p); [|done].
    unfold lift_result. by destruct (stored_event _ _ _ _ _ _).
  - destruct (blks !! Z.to_nat (nc - 1)) as [x|]; [|done]. cbv [in_pool zoom get_block gets fst snd].
    destruct (_block_hash (obj (blocks p) x)) as [h|]; [|done]. injection Hpv as <-.
    rewrite Erun. cbn [fst snd]. rewrite Een. destruct (enable_kv_cache_events p); [|done].
    unfold lift_result. by destruct (stored_event _ _ _ _ _ _).
Qed.

(** The loop computes the hashes [hash_request_tokens] would compute. *)
Lemma compute_block_hash_chain r bs i prev :
  0 < bs -> mm_wf r -> (i < num_full_blocks r bs)%nat ->
  last_input_suffices r (Z.of_nat i * bs) (Z.of_nat i * bs + bs) ->
  compute_block_hash hash_fn NONE_HASH r bs (Z.of_nat i) prev =
    Ok (hash_block_tokens hash_fn NONE_HASH prev (block_content r bs i).1 (block_content r bs i).2).
Proof.
  intros Hbs Hwf Hi [n Hk]. unfold compute_block_hash, block_content, num_full_blocks in *.
  replace ((Z.of_nat i + 1) * bs) with (Z.of_nat i * bs + bs) by lia.
  pose proof (Z.mul_div_le (len (_all_token_ids r)) bs Hbs).
  rewrite slice_length by nia. rewrite (proj2 (Z.eqb_eq _ _)) by nia. simpl. rewrite Hk. simpl.
  destruct (need_extra_keys r) eqn:E; [done|]. by rewrite no_keys.
Qed.

Lemma chain_lookup_S parent bl i h c :
  chain hash_fn NONE_HASH parent bl !! i = Some h -> bl !! S i = Some c ->
  chain hash_fn NONE_HASH parent bl !! S i =
    Some (hash_block_tokens hash_fn NONE_HASH (Some (hash_value h)) c.1 c.2).
Proof.
  revert parent i. induction bl as [|[ids keys] bl IH]; intros parent i; [done|]. simpl.
  destruct i as [|i]; simpl.
  - intros [= <-] Hc. destruct bl as [|[ids' keys'] bl]; [done|]. by simplify_eq/=.
  - intros Hh Hc. by apply IH.
Qed.

Lemma assigned_chain r bs nc known : forall n i prev,
  0 < bs -> mm_wf r ->
  let ch := chain hash_fn NONE_HASH None (block_contents r bs) in
  (nc + i + n <= num_full_blocks r bs)%nat ->
  (forall j, (length known <= j < i + n)%nat ->
     let s := Z.of_nat (nc + j) * bs in last_input_suffices r s (s + bs)) ->
  (forall j h, known !! j = Some h -> ch !! (nc + j)%nat = Some h) ->
  prev = (if decide (nc + i = 0)%nat then None else hash_value <$> ch !! (nc + i - 1)%nat) ->
  assigned r (Z.of_nat nc) bs known n i prev = Ok (take n (drop (nc + i) ch)).
Proof.
  intros n i prev Hbs Hwf ch. revert i prev.
  assert (length ch = num_full_blocks r bs) as Hlen.
  { unfold ch. rewrite length_chain. unfold block_contents. by rewrite length_fmap, length_seq. }
  induction n as [|n IH]; intros i prev Hn Hsuf Hknown Hprev; simpl; [done|].
  destruct (lookup_lt_is_Some_2 ch (nc + i)) as [h Hh]; [lia|].
  assert (match known !! i with Some h0 => Ok h0 | None =>
      compute_block_hash hash_fn NONE_HASH r bs (Z.of_nat nc + Z.of_nat i) prev end = Ok h) as ->.
  { destruct (known !! i) as [h'|] eqn:Ek; [apply Hknown in Ek; congruence|].
    apply lookup_ge_None in Ek. rewrite <- Nat2Z.inj_add.
    rewrite compute_block_hash_chain by (done || lia || (apply Hsuf; lia)). f_equal.
    assert (block_contents r bs !! (nc + i)%nat = Some (block_content r bs (nc + i))) as Hc
      by (unfold block_contents; rewrite list_lookup_fmap, lookup_seq_lt by lia; done).
    destruct (nc + i)%nat as [|k] eqn:Eki.
    - unfold ch in Hh. destruct (block_contents r bs) as [|[ids keys] bl]; [done|].
      cbn in Hc. apply (inj Some) in Hc. rewrite <- Hc. apply (inj Some) in Hh. rewrite <- Hh.
      by rewrite Hprev, decide_True by lia.
    - rewrite Nat.sub_succ, Nat.sub_0_r, decide_False in Hprev by lia.
      destruct (lookup_lt_is_Some_2 ch k) as [h0 Hh0]; [lia|]. rewrite Hh0 in Hprev. simpl in Hprev.
      pose proof (chain_lookup_S _ _ _ _ _ Hh0 Hc) as E. fold ch in E. rewrite Hh in E.
      by injection E as ->; rewrite Hprev. }
  simpl. rewrite (IH (S i)); simpl.
  - rewrite Nat.add_succ_r, (drop_S _ _ _ Hh). done.
  - lia.
  - intros j Hj. apply Hsuf. lia.
  - done.
  - rewrite decide_False by lia. replace (nc + S i - 1)%nat with (nc + i)%nat by lia. by rewrite Hh.
Qed.
End cache_proofs.

(** *** Caching that may raise

    Without any assumption on the request and its hashes, caching may stop at
    an assertion, but it never breaks the pool. *)

Section cache_always.
Context {Q : Type} `{FreeBlockQueueSpec Q}.
Abbreviation pool := (BlockPool Q).
Context (hash_fn : Z * list Z * option (list ExtraKey) -> Z) (NONE_HASH : Z).

(** Same pool up to hashes, the cache and events. *)
Definition recached (p : pool) (l : list nat) (p' : pool) : Prop :=
  pool_inv p' l /\ pool_config p' = pool_config p /\ ref_nulls p' = ref_nulls p.

Lemma recached_refs p l p' i : recached p l p' -> refs p' i = refs p i.
Proof. intros (_ & _ & E). by rewrite !refs_lookup, E. Qed.

Lemma recached_length p l p' : recached p l p' -> length (blocks p') = length (blocks p).
Proof. intros (_ & _ & E). by eapply view_length. Qed.

Lemma cache_loop_always request nc bs g known blks : forall i prev p l s,
  enable_caching p = true -> (forall x, x ∈ blks -> (x < length (blocks p))%nat) ->
  recached p l s.1 ->
  always (cache_loop hash_fn NONE_HASH request nc bs g known blks i prev)
    (fun s' => recached p l s'.1) s.
Proof.
  induction blks as [|x blks IH]; intros i prev p l [p1 bh1] Hc Hlt Hs; simpl; [done|].
  simpl in Hs. apply always_bind. unfold in_pool at 1, zoom, get_block, gets. simpl.
  unfold py_assert. apply always_bind. case_bool_decide as Hn; simpl; [|done].
  assert (Hrest : forall h bh2, always (let hg := mkBlockHashWithGroupId h g in
      in_pool (upd_block (set_hash (Some hg)) x);;
      in_pool (modify (fun p => set_cached (cache_insert hg x (cached_block_hash_to_block p)) p));;
      values ← cache_loop hash_fn NONE_HASH request nc bs g known blks (S i) (Some (hash_value h));
      mret (hash_value h :: values)) (fun s' => recached p l s'.1) (p1, bh2)).
  { intros h bh2. cbv zeta. apply always_bind. unfold in_pool, zoom, upd_block, modify. simpl.
    apply always_bind. simpl. apply always_seq; [|done]. apply (IH _ _ p l); [done|set_solver|].
    destruct Hs as (Hp1 & Hcfg & Hrn).
    destruct (pool_inv_set_hash p1 l x (mkBlockHashWithGroupId h g) Hp1) as (Hp2 & E1 & E2).
    - unfold pool_config in Hcfg. congruence.
    - erewrite view_length; [apply Hlt; set_solver|exact Hrn|done].
    - done.
    - split_and!; [exact Hp2|done|]. simpl. rewrite <- Hrn. exact E1. }
  destruct (known !! i) as [h|]; apply always_bind; simpl; [apply Hrest|].
  unfold mbind, M_mbind, M_bind, lift_result.
  destruct (compute_block_hash _ _ _ _ _ _); simpl; [apply Hrest|done].
Qed.

Lemma elem_of_slice {A} i j (l : list A) x : x ∈ slice i j l -> x ∈ l.
Proof.
  unfold slice. intros [k Hk]%list_elem_of_lookup_1. apply lookup_take_Some in Hk as [Hk _].
  rewrite lookup_drop in Hk. by eapply list_elem_of_lookup_2.
Qed.

Lemma cache_full_blocks_always request blks nc nf bs g p l bh :
  enable_caching p = true -> pool_inv p l -> (forall x, x ∈ blks -> (x < length (blocks p))%nat) ->
  always (cache_full_blocks hash_fn NONE_HASH request blks nc nf bs g)
    (fun s' => recached p l s'.1) (p, bh).
Proof.
  intros Hc Hp Hlt. assert (recached p l p) as Hrefl by done.
  unfold cache_full_blocks. destruct (nc =? nf); [done|]. apply always_bind. simpl.
  apply always_bind. unfold py_assert. destruct (nc <=? len bh); simpl; [|done].
  apply always_seq.
  { destruct (nc =? 0); [done|]. destruct (blks !! _); [|done].
    apply always_bind. unfold in_pool, zoom, get_block, gets. simpl. by destruct (_block_hash _). }
  intros prev [p1 bh1] H1. apply always_seq.
  { apply cache_loop_always; [done| |done]. intros x Hx. by eapply Hlt, elem_of_slice. }
  intros vals [p2 bh2] H2. apply always_bind. simpl. destruct (enable_kv_cache_events p2); [|done].
  apply always_seq; [by apply always_lift|]. intros e [p3 bh3] (H3 & H4 & H5).
  split_and!; [|done|done]. simpl in *. destruct H3 as [[? ? ? ? ?] ?]. by split; [split|].
Qed.
End cache_always.

(** ** Properties of the pool *)

Section properties.
Context {Q : Type} `{FreeBlockQueueSpec Q}.
Abbreviation pool := (BlockPool Q).

(** A new pool satisfies the invariant: block 0 is the null block, all
    other blocks are free, in order, unreferenced and not cached. *)
Theorem init_pool_inv (n : Z) (caching events : bool) :
  0 < n ->
  exists p, init_pool n caching events = Ok p /\
    pool_inv p (seq 1 (Z.to_nat n - 1)) /\ pool_config p = (n, caching, 0%nat, events) /\
    (forall i, refs p i = 0) /\ cached_block_hash_to_block p = ∅.
Proof. apply init_pool_aux. Qed.

(** [get_new_blocks] with enough free blocks returns the first [n] of the
    free list, each with one more reference and no hash (a cached one is
    evicted), changes no other block, and keeps the invariant. *)
Theorem get_new_blocks_spec (p : pool) l (n : Z) :
  pool_inv p l -> 0 <= n <= len l ->
  wp (get_new_blocks n) (fun ids p' =>
    ids = take (Z.to_nat n) l /\ pool_inv p' (drop (Z.to_nat n) l) /\ taken p p' ids) p.
Proof. apply wp_get_new_blocks. Qed.

(** Asking for more blocks than are free raises [ValueError] and changes nothing. *)
Theorem get_new_blocks_error (p : pool) l (n : Z) :
  pool_inv p l -> len l < n -> get_new_blocks n p = Raise ValueError p.
Proof. apply get_new_blocks_error_aux. Qed.

(** [free_blocks] gives up one reference per occurrence; the blocks that
    lose their last one go back to the queue in order, the null block never
    does; hashes and the prefix cache stay, so a freed block can be hit. *)
Theorem free_blocks_spec (p : pool) l ids :
  pool_inv p l -> (forall i, i ∈ ids -> (i < length (blocks p))%nat) ->
  (forall i, i <> null_block p -> occ i ids <= refs p i) ->
  wp (free_blocks ids) (fun _ p' =>
    pool_inv p' (free_into (refs p) (null_block p) ids l) /\ released (-1) p p' ids) p.
Proof. apply wp_free_blocks. Qed.

(** The prefix cache is reset exactly when nothing but the null block is in
    use; then no block has a hash; otherwise nothing changes. *)
Theorem reset_prefix_cache_spec (p : pool) l :
  pool_inv p l ->
  wp reset_prefix_cache (fun b p' =>
    (b = true <-> forall i, (i < length (blocks p))%nat -> i <> null_block p -> refs p i = 0) /\
    pool_inv p' l /\ pool_config p' = pool_config p /\ (forall i, refs p' i = refs p i) /\
    (b = false -> p' = p) /\
    (b = true -> cached_block_hash_to_block p' = ∅ /\
       forall i, _block_hash (obj (blocks p') i) = None)) p.
Proof. apply wp_reset_prefix_cache. Qed.

Lemma get_cached_block_aux (p : pool) l h gs :
  pool_inv p l ->
  match get_cached_block h gs p with
  | Some ids => Forall2 (fun i g => (i < length (blocks p))%nat /\
      _block_hash (obj (blocks p) i) = Some (mkBlockHashWithGroupId h g)) ids gs
  | None => exists g, g ∈ gs /\ forall i, (i < length (blocks p))%nat ->
      _block_hash (obj (blocks p) i) <> Some (mkBlockHashWithGroupId h g)
  end.
Proof.
  intros Hp. destruct (pb_cache _ _ (pi_base _ _ Hp)) as [_ Hiff].
  induction gs as [|g gs IH]; simpl; [constructor|].
  pose proof (Hiff (mkBlockHashWithGroupId h g)) as Hg.
  destruct (dd_get _ _) as [|i ids].
  - exists g. split; [set_solver|]. intros i Hi E.
    apply (not_elem_of_nil i), Hg. by rewrite lookup_hashes, E.
  - assert (hashes p !! i = Some (Some (mkBlockHashWithGroupId h g))) as Hi by (apply Hg; set_solver).
    destruct (get_cached_block h gs p).
    + constructor; [|done]. pose proof (lookup_lt_Some _ _ _ Hi) as Hlt. unfold hashes in Hlt.
      rewrite length_fmap in Hlt. rewrite lookup_hashes in Hi by done. split; [done|congruence].
    + destruct IH as (g' & ? & ?). exists g'. split; [set_solver|done].
Qed.

(** [get_cached_block] is sound and complete: it returns, for each group, a
    block that carries that hash for that group, and [None] only if some group
    has no such block. *)
Theorem get_cached_block_spec (p : pool) l h gs :
  pool_inv p l ->
  match get_cached_block h gs p with
  | Some ids => Forall2 (fun i g => (i < length (blocks p))%nat /\
      _block_hash (obj (blocks p) i) = Some (mkBlockHashWithGroupId h g)) ids gs
  | None => exists g, g ∈ gs /\ forall i, (i < length (blocks p))%nat ->
      _block_hash (obj (blocks p) i) <> Some (mkBlockHashWithGroupId h g)
  end.
Proof. apply get_cached_block_aux. Qed.

(** The side conditions of [cache_full_blocks], shared by the next two theorems. *)
Record cache_pre (hash_fn : Z * list Z * option (list ExtraKey) -> Z) (NONE_HASH : Z)
    (r : Request) (p : pool) (bh : list BlockHash) (blks : list nat) (nc nf bs : Z) (g : nat) : Prop := {
  cp_on : enable_caching p = true;
  cp_bs : 0 < bs;
  cp_wf : mm_wf r;
  cp_range : 0 <= nc < nf /\ nf <= len blks /\ nf * bs <= len (_all_token_ids r);
  cp_known : nc <= len bh;
  cp_chain : bh `prefix_of` chain hash_fn NONE_HASH None (block_contents r bs);
  cp_late : forall j, len bh <= j < nf -> last_input_suffices r (j * bs) (j * bs + bs);
  cp_fresh : fresh p (slice nc nf blks);
  (** The last block cached before is that of the chain. *)
  cp_prev : 0 < nc -> exists x h, blks !! Z.to_nat (nc - 1) = Some x /\
    bh !! Z.to_nat (nc - 1) = Some h /\
    _block_hash (obj (blocks p) x) = Some (mkBlockHashWithGroupId h g)
}.

Lemma extend_prefix {A} (bh tl : list A) nc nf :
  0 <= nc <= nf -> (Z.to_nat nc <= length bh)%nat ->
  bh ++ drop (length bh - Z.to_nat nc) (slice nc nf (bh ++ tl)) =
    take (Nat.max (length bh) (Z.to_nat nf)) (bh ++ tl).
Proof.
  intros Hr Hk. unfold slice. rewrite skipn_firstn_comm, drop_drop.
  replace (Z.to_nat nc + (length bh - Z.to_nat nc))%nat with (length bh) by lia.
  rewrite drop_app_length, take_app, (take_ge bh) by lia. do 2 f_equal. lia.
Qed.

Lemma cache_full_blocks_runs_chain hash_fn NONE_HASH r p l bh blks nc nf bs g :
  pool_inv p l -> cache_pre hash_fn NONE_HASH r p bh blks nc nf bs g ->
  let ch := chain hash_fn NONE_HASH None (block_contents r bs) in
  let bh' := take (Nat.max (length bh) (Z.to_nat nf)) ch in
  let hs := slice nc nf ch in
  exists p1 pv, pool_inv p1 l /\ hashed p p1 g (slice nc nf blks) hs /\
    kv_event_queue p1 = kv_event_queue p /\
    cache_full_blocks hash_fn NONE_HASH r blks nc nf bs g (p, bh) =
      (if enable_kv_cache_events p
       then match stored_event r nc nf bs (hash_value <$> hs) pv with
            | Ok e => Ret tt (set_events (kv_event_queue p1 ++ [e]) p1, bh')
            | Err e => Raise e (p1, bh')
            end
       else Ret tt (p1, bh')).
Proof.
  intros Hp [Hon Hbs Hwf (Hr1 & Hr2 & Hr3) Hknown Hchain Hlate Hfresh Hprev] ch bh' hs.
  assert (length ch = num_full_blocks r bs) as Hlen
    by (unfold ch; rewrite length_chain; unfold block_contents; by rewrite length_fmap, length_seq).
  assert (Z.to_nat nf <= num_full_blocks r bs)%nat as Hnf.
  { unfold num_full_blocks. apply Z2Nat.inj_le; [lia|apply Z.div_pos; [apply len_nonneg|lia]|].
    apply Z.div_le_lower_bound; lia. }
  destruct Hchain as [tl Hchain]. fold ch in Hchain.
  assert (Hnl : length (slice nc nf blks) = Z.to_nat (nf - nc)).
  { pose proof (slice_length nc nf blks ltac:(lia) ltac:(lia)). unfold len in *. lia. }
  assert (exists pv, prev_value p blks nc = Some pv /\
    pv = (if decide (Z.to_nat nc + 0 = 0)%nat then None
          else hash_value <$> ch !! (Z.to_nat nc + 0 - 1)%nat)) as (pv & Hpv & Epv).
  { unfold prev_value. destruct (Z.eqb_spec nc 0) as [->|Hn0]; [by eexists|].
    destruct (Hprev ltac:(lia)) as (x & h & -> & Hh & ->). eexists. split; [done|].
    rewrite decide_False by lia. rewrite Hchain.
    replace (Z.to_nat nc + 0 - 1)%nat with (Z.to_nat (nc - 1)) by lia.
    by rewrite lookup_app_l, Hh by (by eapply lookup_lt_Some). }
  assert (assigned hash_fn NONE_HASH r nc bs (drop (Z.to_nat nc) bh)
            (length (slice nc nf blks)) 0 pv = Ok hs) as Hass.
  { rewrite Hnl. rewrite <- (Z2Nat.id nc) at 1 by lia.
    erewrite (assigned_chain hash_fn NONE_HASH); [|done..| | | |exact Epv].
    - fold ch. rewrite Nat.add_0_r. done.
    - lia.
    - intros j Hj. rewrite length_drop in Hj. unfold len in *. apply Hlate. lia.
    - intros j h. rewrite lookup_drop. fold ch. rewrite Hchain. intros Hj. by apply lookup_app_l_Some. }
  destruct (cache_full_blocks_runs hash_fn NONE_HASH r blks nc nf bs g p bh l hs pv Hp Hon)
    as (p1 & bh1 & Hp1 & Hh & Ebh & Hev & Erun); [lia|done..|].
  assert (bh1 = bh') as ->; [|by eauto 10].
  rewrite Ebh. unfold bh', hs. rewrite Hchain. unfold len in *.
  rewrite length_drop. by apply extend_prefix; unfold slice; lia.
Qed.

(** C28: [cache_full_blocks] gives block [j] of the request the [j]-th hash of
    the request's chain (the one [hash_request_tokens] computes), extends the
    caller's hash list along that chain, and keeps the invariant and every
    reference count. Conditions: caching is on; the blocks to cache, at least
    one, are full, are distinct and carry no hash yet, and the one before them
    carries that of the chain; the hashes known are a beginning of the chain;
    the request has one hash per multi-modal input, and for each newly hashed
    block the last input alone gives the block's keys ([last_input_suffices];
    without it they can differ: see [last_input_key_boundary]); and events are
    off or the request has no LoRA adapter, since otherwise the code raises an
    AttributeError. *)
Theorem cache_full_blocks_spec hash_fn NONE_HASH r (p : pool) l bh blks nc nf bs g :
  pool_inv p l -> cache_pre hash_fn NONE_HASH r p bh blks nc nf bs g ->
  enable_kv_cache_events p = false \/ lora_request r = None ->
  let ch := chain hash_fn NONE_HASH None (block_contents r bs) in
  wp (cache_full_blocks hash_fn NONE_HASH r blks nc nf bs g) (fun _ '(p', bh') =>
    bh' = take (Nat.max (length bh) (Z.to_nat nf)) ch /\
    pool_inv p' l /\ hashed p p' g (slice nc nf blks) (slice nc nf ch)) (p, bh).
Proof.
  intros Hp Hpre Hev ch.
  destruct (cache_full_blocks_runs_chain _ _ _ _ _ _ _ _ _ _ _ Hp Hpre)
    as (p1 & pv & Hp1 & Hh & _ & Erun).
  unfold wp. rewrite Erun. destruct (enable_kv_cache_events p); [|done].
  destruct Hev as [?|Hl]; [done|]. unfold stored_event. rewrite Hl.
  split_and!; [done|destruct Hp1 as [[? ? ? ? ?] ?]; by split; [split|]|exact Hh].
Qed.

(** With KV-cache events enabled, caching the blocks of a LoRA request
    raises [AttributeError] (the event reads [lora_request.id], which does not
    exist), after the blocks have been hashed and cached. *)
Theorem cache_full_blocks_lora_event_error hash_fn NONE_HASH r (p : pool) l bh blks nc nf bs g lr :
  pool_inv p l -> cache_pre hash_fn NONE_HASH r p bh blks nc nf bs g ->
  enable_kv_cache_events p = true -> lora_request r = Some lr ->
  exists s, cache_full_blocks hash_fn NONE_HASH r blks nc nf bs g (p, bh) = Raise AttributeError s /\
    pool_inv s.1 l /\
    hashed p s.1 g (slice nc nf blks)
      (slice nc nf (chain hash_fn NONE_HASH None (block_contents r bs))).
Proof.
  intros Hp Hpre Hev Hl.
  destruct (cache_full_blocks_runs_chain _ _ _ _ _ _ _ _ _ _ _ Hp Hpre)
    as (p1 & pv & Hp1 & Hh & _ & Erun).
  rewrite Erun, Hev. unfold stored_event. rewrite Hl. eauto.
Qed.
End properties.

(** [touch] adds one reference per occurrence and takes the blocks that had
    none out of the free list, keeping the order of the others; with
    [enable_caching] the queue is the linked list. *)
Theorem touch_spec (p : BlockPool FreeKVCacheBlockQueue.t) l bss :
  pool_inv p l -> (forall i, i ∈ concat bss -> (i < length (blocks p))%nat) ->
  wp (touch bss) (fun _ p' =>
    pool_inv p' (untouched (concat bss) l) /\ released 1 p p' (concat bss)) p.
Proof. apply wp_touch. Qed.

(** Eviction order of the linked queue.  Blocks freed in order [ids] go
    behind all blocks that were free already, so the next allocations take the
    blocks free for longest first and then [ids] in order. *)
Theorem free_then_allocate_lru (p : BlockPool FreeKVCacheBlockQueue.t) l ids n :
  pool_inv p l -> NoDup ids ->
  (forall i, i ∈ ids -> (i < length (blocks p))%nat /\ i <> null_block p /\ refs p i = 1) ->
  0 <= n <= len l + len ids ->
  wp (free_blocks ids;; get_new_blocks n) (fun got p' =>
    got = take (Z.to_nat n) (l ++ ids) /\ pool_inv p' (drop (Z.to_nat n) (l ++ ids))) p.
Proof.
  intros Hp Hnd Hids Hn. wp_step. eapply wp_mono.
  { apply wp_free_blocks; [exact Hp|intros i Hi; by apply Hids|]. intros i Hnull.
    rewrite (occ_NoDup _ _ Hnd). case_decide as Hi.
    - destruct (Hids i Hi) as (_ & _ & ->). lia.
    - destruct (decide (i < length (blocks p))%nat) as [Hlt|Hge].
      + by apply (pi_refs_nonneg _ _ _ Hp).
      + unfold refs, obj. by rewrite list_lookup_total_alt, lookup_ge_None_2 by lia. }
  intros [] p1 [Hp1 _].
  rewrite free_into_once in Hp1 by (done || (intros i Hi; destruct (Hids i Hi) as (? & ? & ?); done)).
  replace (foldl _ l ids) with (l ++ ids) in Hp1.
  - eapply wp_mono; [apply wp_get_new_blocks; [exact Hp1|rewrite len_app; lia]|]. by intros ? ? (-> & ? & _).
  - simpl. clear. revert l. induction ids as [|x ids IH]; intros l; simpl; [by rewrite app_nil_r|].
    by rewrite <- IH, <- app_assoc.
Qed.

(** ** The theorems at concrete pools *)

Abbreviation lpool := (BlockPool FreeKVCacheBlockQueue.t).

(** Five blocks, of which a request holds 1 and 2. *)
Lemma sample_pool events :
  exists p : lpool, pool_inv p [3; 4]%nat /\ pool_config p = (5, true, 0%nat, events) /\
    length (blocks p) = 5%nat /\ refs p 1 = 1 /\ refs p 2 = 1 /\
    _block_hash (obj (blocks p) 1) = None /\ _block_hash (obj (blocks p) 2) = None /\
    refs p 3 = 0 /\ refs p 4 = 0.
Proof.
  destruct (init_pool_aux (Q := FreeKVCacheBlockQueue.t) 5 true events ltac:(lia))
    as (p & _ & Hp & Hc & Hr & _).
  destruct (wp_elim _ _ _ (wp_get_new_blocks p _ 2 Hp ltac:(done)))
    as (ids & p1 & _ & -> & Hp1 & Hc1 & Hl1 & Hr1 & Hh1). exists p1.
  assert (length (blocks p) = 5%nat) as Hl.
  { pose proof (pb_num _ _ (pi_base _ _ Hp)) as E. unfold len, pool_config in *.
    assert (num_gpu_blocks p = 5) by congruence. lia. }
  rewrite !Hr1, !Hr, !Hh1 by lia. split_and!; try done; congruence.
Qed.

Lemma init_pool_inv_witness :
  exists p : lpool, init_pool 3 true false = Ok p /\ pool_inv p [1; 2]%nat.
Proof.
  destruct (init_pool_inv (Q := FreeKVCacheBlockQueue.t) 3 true false) as (p & E & Hp & _); [lia|].
  exists p. split; [exact E|exact Hp].
Defined.

Lemma get_new_blocks_spec_witness :
  exists p : lpool, wp (get_new_blocks 1) (fun ids p' => ids = [3]%nat /\ pool_inv p' [4]%nat) p.
Proof.
  destruct (sample_pool false) as (p & Hp & _). exists p.
  eapply wp_mono; [apply (get_new_blocks_spec p [3; 4]%nat 1 Hp); vm_compute; split; discriminate|].
  intros ids p' (E1 & E2 & _). split; [exact E1|exact E2].
Defined.

Lemma get_new_blocks_error_witness :
  exists p : lpool, pool_inv p [3; 4]%nat /\ get_new_blocks 3 p = Raise ValueError p.
Proof.
  destruct (sample_pool false) as (p & Hp & _). exists p. split; [exact Hp|].
  apply (get_new_blocks_error p [3; 4]%nat 3 Hp). reflexivity.
Defined.

Lemma free_blocks_spec_witness :
  exists p : lpool, wp (free_blocks [2]%nat) (fun _ p' => pool_inv p' [3; 4; 2]%nat) p.
Proof.
  destruct (sample_pool false) as (p & Hp & Hc & Hl & H1 & H2 & _). exists p.
  eapply wp_mono; [apply (free_blocks_spec p [3; 4]%nat [2]%nat Hp)|].
  - intros i Hi. apply list_elem_of_singleton in Hi as ->. lia.
  - intros i Hn. rewrite occ_cons. change (occ i []) with 0. destruct (decide (2%nat = i)) as [<-|]; [lia|].
    destruct (decide (i < 5)%nat) as [Hi|Hi].
    + apply (pi_refs_nonneg _ _ _ Hp); [lia|exact Hn].
    + unfold refs, obj. by rewrite list_lookup_total_alt, lookup_ge_None_2 by lia.
  - intros [] p' [Hp' _]. simpl in Hp'. rewrite H2 in Hp'. unfold pool_config in Hc.
    rewrite bool_decide_eq_false_2 in Hp' by congruence. exact Hp'.
Defined.

Lemma reset_prefix_cache_spec_witness :
  exists p : lpool, wp reset_prefix_cache (fun b p' => b = false) p.
Proof.
  destruct (sample_pool false) as (p & Hp & Hc & Hl & H1 & _). exists p.
  eapply wp_mono; [apply (reset_prefix_cache_spec p [3; 4]%nat Hp)|].
  intros [] p' (Hb & _); [|reflexivity]. exfalso.
  pose proof (proj1 Hb eq_refl 1%nat) as E. unfold pool_config in Hc.
  rewrite H1 in E. assert (1 = 0); [apply E; [lia|congruence]|lia].
Defined.

Lemma get_cached_block_spec_witness :
  exists p : lpool, get_cached_block (mkBlockHash 1 [2] None) [] p = Some [] /\
  match get_cached_block (mkBlockHash 1 [2] None) [0]%nat p with
  | Some ids => Forall2 (fun i g => (i < length (blocks p))%nat /\
      _block_hash (obj (blocks p) i) = Some (mkBlockHashWithGroupId (mkBlockHash 1 [2] None) g)) ids [0]%nat
  | None => exists g, g ∈ [0]%nat /\ forall i, (i < length (blocks p))%nat ->
      _block_hash (obj (blocks p) i) <> Some (mkBlockHashWithGroupId (mkBlockHash 1 [2] None) g)
  end.
Proof.
  destruct (sample_pool false) as (p & Hp & _). exists p. split; [reflexivity|].
  apply (get_cached_block_spec p [3; 4]%nat (mkBlockHash 1 [2] None) [0]%nat Hp).
Defined.

Lemma touch_spec_witness :
  exists p : lpool, wp (touch [[4]; [1]]%nat) (fun _ p' => pool_inv p' [3]%nat /\ refs p' 1 = 2) p.
Proof.
  destruct (sample_pool false) as (p & Hp & Hc & Hl & H1 & _). exists p.
  eapply wp_mono; [apply (touch_spec p [3; 4]%nat [[4]; [1]]%nat Hp)|].
  - simpl. intros i Hi. rewrite !elem_of_cons, elem_of_nil in Hi. lia.
  - intros [] p' (Hp' & Hrel). split; [exact Hp'|]. destruct Hrel as (_ & _ & _ & _ & ->).
    rewrite H1. reflexivity.
Defined.

Lemma free_then_allocate_lru_witness :
  exists p : lpool, wp (free_blocks [2; 1]%nat;; get_new_blocks 3) (fun got p' => got = [3; 4; 2]%nat) p.
Proof.
  destruct (sample_pool false) as (p & Hp & Hc & Hl & H1 & H2 & _). exists p.
  eapply wp_mono; [apply (free_then_allocate_lru p [3; 4]%nat [2; 1]%nat 3 Hp)|].
  - repeat constructor; set_solver.
  - unfold pool_config in Hc. intros i Hi. rewrite !elem_of_cons, elem_of_nil in Hi.
    assert (null_block p = 0%nat) as -> by congruence.
    destruct Hi as [->|[->|[]]]; split_and!; lia.
  - vm_compute. split; discriminate.
  - intros got p' [E _]. exact E.
Defined.

Lemma sample_cache_pre events :
  exists p : lpool, pool_inv p [3; 4]%nat /\ enable_kv_cache_events p = events /\
    forall r, r = sample_request "a" [10; 11; 12; 13; 14] \/
              r = with_lora (Some (mkLoRARequest "l" 1)) (sample_request "a" [10; 11; 12; 13; 14]) ->
    cache_pre code_hash (-1) r p [] [1; 2]%nat 0 2 2 0.
Proof.
  destruct (sample_pool events) as (p & Hp & Hc & Hl & _ & _ & H1 & H2 & _). exists p.
  unfold pool_config in Hc. split_and!; [done|congruence|].
  intros r Hr. assert (mm_positions r = [] /\ mm_hashes r = [] /\ len (_all_token_ids r) = 5)
    as (E1 & E2 & E3) by (by destruct Hr as [-> | ->]).
  split; [congruence|lia|split; [by rewrite E1, E2|unfold mm_items; by rewrite E1]
    |rewrite E3; vm_compute; intuition discriminate|done|apply prefix_nil| | |lia].
  - intros j _. by apply no_mm_suffices.
  - split; [repeat constructor; set_solver|]. intros x Hx. change (x ∈ [1; 2]%nat) in Hx.
    rewrite !elem_of_cons, elem_of_nil in Hx. destruct Hx as [->|[->|[]]]; split; (lia || done).
Qed.

Lemma cache_full_blocks_spec_witness :
  exists p : lpool,
  wp (cache_full_blocks code_hash (-1) (sample_request "a" [10; 11; 12; 13; 14]) [1; 2]%nat 0 2 2 0)
    (fun _ '(p', bh') => length bh' = 2%nat /\ pool_inv p' [3; 4]%nat) (p, []).
Proof.
  destruct (sample_cache_pre true) as (p & Hp & _ & Hpre). exists p.
  eapply wp_mono; [apply (cache_full_blocks_spec code_hash (-1) _ p [3; 4]%nat [] _ 0 2 2 0 Hp)|].
  - apply Hpre. left. reflexivity.
  - right. reflexivity.
  - intros [] [p' bh'] (-> & Hp' & _). split; [vm_compute; reflexivity|exact Hp'].
Defined.

Lemma cache_full_blocks_lora_event_error_witness :
  exists (p : lpool) s,
  cache_full_blocks code_hash (-1)
    (with_lora (Some (mkLoRARequest "l" 1)) (sample_request "a" [10; 11; 12; 13; 14]))
    [1; 2]%nat 0 2 2 0 (p, []) = Raise AttributeError s.
Proof.
  destruct (sample_cache_pre true) as (p & Hp & He & Hpre). exists p.
  edestruct (cache_full_blocks_lora_event_error code_hash (-1)
    (with_lora (Some (mkLoRARequest "l" 1)) (sample_request "a" [10; 11; 12; 13; 14]))
    p [3; 4]%nat [] [1; 2]%nat 0 2 2 0) as (s & E & _);
    [exact Hp|apply Hpre; right; reflexivity|exact He|reflexivity|].
  exists s. exact E.
Defined.
