(* ===== verification/SingleType.v ===== *)
(** The per-type KV-cache managers of
    [vllm/v1/core/single_type_kv_cache_manager.py]: the block table of every
    request for one KV-cache group, and the prefix-cache lookup of full and
    sliding-window attention.

    A manager and the pool it shares with the other managers are the state of
    its methods; [cache_blocks] also mutates the caller's list of hashes. *)

From Stdlib Require Import ZArith Lia.
From stdpp Require Import base strings numbers gmap list.
From S2P Require Import Prelude.
From S2P Require Import KVBlock.
From S2P Require Import FreeQueue.
From S2P Require Import LinkedQueue.
From S2P Require Import HPUQueue.
From S2P Require Import Request.
From S2P Require Import BlockHashing.
From S2P Require Import KVSpec.
From S2P Require Import BlockPool.

Open Scope Z_scope.

Record Manager := mkManager {
  mgr_spec : KVCacheSpec;
  kv_cache_group_id : nat;
  req_to_blocks : gmap string (list nat);
  num_cached_block : gmap string Z
}.

#[export] Instance Manager_inhabited : Inhabited Manager :=
  populate (mkManager (FullAttentionSpec (mkAttentionSpec 1 1 1 (mkDtype "" 1) false) None) 0 ∅ ∅).

(** [SingleTypeKVCacheManager.__init__] (the pool is passed around). *)
Definition init_manager (spec : KVCacheSpec) (group_id : nat) : Manager :=
  mkManager spec group_id ∅ ∅.

Definition mgr_block_size (m : Manager) : Z := block_size (mgr_spec m).

Definition set_req_to_blocks (t : gmap string (list nat)) (m : Manager) : Manager :=
  mkManager (mgr_spec m) (kv_cache_group_id m) t (num_cached_block m).
Definition set_num_cached (t : gmap string Z) (m : Manager) : Manager :=
  mkManager (mgr_spec m) (kv_cache_group_id m) (req_to_blocks m) t.

(** [self.req_to_blocks[request_id]] of a [defaultdict(list)]. *)
Definition req_blocks (m : Manager) (request_id : string) : list nat :=
  dd_get (req_to_blocks m) request_id.

Section manager.
Context {Q : Type} `{FreeBlockQueue Q}.
Abbreviation pool := (BlockPool Q).

Definition on_pool {A} (m : M pool A) : M (pool * Manager) A := zoom fst (fun p s => (p, s.2)) m.
Definition on_manager {A} (m : M Manager A) : M (pool * Manager) A := zoom snd (fun mg s => (s.1, mg)) m.

(** Whether a block is an eviction candidate. *)
Definition evictable (p : pool) (i : nat) : bool :=
  (ref_cnt (obj (blocks p) i) =? 0) && negb (is_null (obj (blocks p) i)).

Definition get_num_blocks_to_allocate (p : pool) (m : Manager) (request_id : string)
    (num_tokens : Z) (new_computed_blocks : list nat) : Z :=
  let num_required_blocks := cdiv num_tokens (mgr_block_size m) in
  let num_new_blocks := num_required_blocks - len new_computed_blocks - len (req_blocks m request_id) in
  let num_evictable_computed_blocks := len (filter (fun i => evictable p i = true) new_computed_blocks) in
  num_new_blocks + num_evictable_computed_blocks.

Definition save_new_computed_blocks (request_id : string) (new_computed_blocks : list nat)
    : M Manager unit := fun m =>
  match num_cached_block m !! request_id with
  | None =>
      if (length (req_blocks m request_id) =? 0)%nat then
        Ret tt (set_num_cached (<[request_id := len new_computed_blocks]> (num_cached_block m))
          (set_req_to_blocks (<[request_id := new_computed_blocks]> (req_to_blocks m)) m))
      else Raise AssertionError m
  | Some _ =>
      if (length new_computed_blocks =? 0)%nat then Ret tt m else Raise AssertionError m
  end.

Definition extend_req_blocks (request_id : string) (new_blocks : list nat) (m : Manager) : Manager :=
  set_req_to_blocks (<[request_id := req_blocks m request_id ++ new_blocks]> (req_to_blocks m)) m.

Definition allocate_new_blocks (request_id : string) (num_tokens : Z)
    : M (pool * Manager) (list nat) :=
  m ← gets snd;
  let num_required_blocks := cdiv num_tokens (mgr_block_size m) in
  let num_new_blocks := num_required_blocks - len (req_blocks m request_id) in
  if num_new_blocks <=? 0 then mret []
  else
    new_blocks ← on_pool (get_new_blocks num_new_blocks);
    on_manager (modify (extend_req_blocks request_id new_blocks));;
    mret new_blocks.

Section hash.
Context (hash_fn : Z * list Z * option (list ExtraKey) -> Z) (NONE_HASH : Z).

Definition mgr_cache_blocks (request : Request) (num_tokens : Z)
    : M (pool * Manager * list BlockHash) unit :=
  m ← gets (fun s => s.1.2);
  match num_cached_block m !! request_id request with
  | None => raise KeyError
  | Some num_cached_blocks =>
      let num_full_blocks := num_tokens / mgr_block_size m in
      zoom (fun s => (s.1.1, s.2)) (fun t s => (t.1, s.1.2, t.2))
        (cache_full_blocks hash_fn NONE_HASH request (req_blocks m (request_id request))
           num_cached_blocks num_full_blocks (mgr_block_size m) (kv_cache_group_id m));;
      modify (fun s => (s.1.1,
        set_num_cached (<[request_id request := num_full_blocks]> (num_cached_block s.1.2)) s.1.2, s.2))
  end.
End hash.

(** [free]: the table entry goes first, then the blocks in reverse order. *)
Definition mgr_free (request_id : string) : M (pool * Manager) unit :=
  m ← gets snd;
  on_manager (modify (fun m => set_req_to_blocks (delete request_id (req_to_blocks m)) m));;
  on_pool (free_blocks (rev (req_blocks m request_id)));;
  on_manager (modify (fun m => set_num_cached (delete request_id (num_cached_block m)) m)).

(** *** Full attention *)

(** [del computed_blocks[j][n:]] and [computed_blocks[j].pop()] for all groups. *)
Definition truncate (n : nat) (bss : list (list nat)) : list (list nat) := take n <$> bss.
Definition drop_last (use_eagle : bool) (bss : list (list nat)) : result (list (list nat)) :=
  if use_eagle then
    match bss with
    | [] => Err IndexError
    | bs :: _ => Ok (if (0 <? length bs)%nat then (fun l => take (length l - 1) l) <$> bss else bss)
    end
  else Ok bss.

Fixpoint full_hit_loop (p : pool) (block_hashes : list BlockHash) (gs : list nat) (n i : nat)
    (computed : list (list nat)) : result (list (list nat)) :=
  match n with
  | O => Ok computed
  | S n' =>
      match block_hashes !! i with
      | None => Err IndexError
      | Some h =>
          match get_cached_block h gs p with
          | Some (b :: bs) =>
              full_hit_loop p block_hashes gs n' (S i)
                (zip_with (fun l c => l ++ [c]) computed (b :: bs))
          | _ => Ok computed
          end
      end
  end.

Definition full_find_longest_cache_hit (block_hashes : list BlockHash) (max_length : Z)
    (gs : list nat) (p : pool) (spec : KVCacheSpec) (use_eagle : bool) : result (list (list nat)) :=
  guard_or (is_full_attention spec) AssertionError;;
  computed ← full_hit_loop p block_hashes gs (Z.to_nat (max_length / block_size spec)) 0
               (replicate (length gs) []);
  drop_last use_eagle computed.

Definition full_get_num_common_prefix_blocks (p : pool) (m : Manager) (request_id : string)
    (num_running_requests : Z) : Z :=
  (fix count (l : list nat) : Z :=
     match l with
     | [] => 0
     | b :: l' => if ref_cnt (obj (blocks p) b) =? num_running_requests then 1 + count l' else 0
     end) (req_blocks m request_id).

(** *** Sliding window *)

(** The loop over [i] from right to left; [n] is [i + 1].  The result of a
    match or of the exhausted loop, trimmed. *)
Fixpoint sliding_hit_loop (p : pool) (block_hashes : list BlockHash) (gs : list nat) (need : Z)
    (n : nat) (computed : list (list nat)) (num_contiguous_blocks : nat) : result (list (list nat)) :=
  match n with
  | O => Ok (truncate num_contiguous_blocks computed)
  | S i =>
      match block_hashes !! i with
      | None => Err IndexError
      | Some h =>
          match get_cached_block h gs p with
          | Some (b :: bs) =>
              let computed := zip_with (fun l c => <[i := c]> l) computed (b :: bs) in
              let num_contiguous_blocks := S num_contiguous_blocks in
              if need <=? Z.of_nat num_contiguous_blocks
              then Ok (truncate (i + num_contiguous_blocks) computed)
              else sliding_hit_loop p block_hashes gs need i computed num_contiguous_blocks
          | _ => sliding_hit_loop p block_hashes gs need i computed 0
          end
      end
  end.

(** The number of contiguous blocks needed for a hit. *)
Definition sliding_window_contiguous_blocks (sw bs : Z) (use_eagle : bool) : Z :=
  cdiv (sw - 1) bs + if use_eagle then 1 else 0.

Definition sliding_find_longest_cache_hit (block_hashes : list BlockHash) (max_length : Z)
    (gs : list nat) (p : pool) (spec : KVCacheSpec) (use_eagle : bool) : result (list (list nat)) :=
  match spec with
  | FullAttentionSpec _ _ => Err AssertionError
  | SlidingWindowSpec _ sw =>
      let max_num_blocks := Z.to_nat (max_length / block_size spec) in
      computed ← sliding_hit_loop p block_hashes gs
        (sliding_window_contiguous_blocks sw (block_size spec) use_eagle) max_num_blocks
        (replicate (length gs) (replicate max_num_blocks (null_block p))) 0;
      drop_last use_eagle computed
  end.

Definition find_longest_cache_hit (spec : KVCacheSpec) (block_hashes : list BlockHash)
    (max_length : Z) (gs : list nat) (p : pool) (use_eagle : bool) : result (list (list nat)) :=
  match spec with
  | FullAttentionSpec _ _ => full_find_longest_cache_hit block_hashes max_length gs p spec use_eagle
  | SlidingWindowSpec _ _ => sliding_find_longest_cache_hit block_hashes max_length gs p spec use_eagle
  end.

(** The loop of [remove_skipped_blocks] from block [n - 1] down: the removed
    blocks in order and the new table; [blocks[i]] raises past the end. *)
Fixpoint skip_loop (null : nat) (n : nat) (bl : list nat) : result (list nat * list nat) :=
  match n with
  | O => Ok ([], bl)
  | S i =>
      match bl !! i with
      | None => Err IndexError
      | Some b =>
          if (b =? null)%nat then Ok ([], bl)
          else
            '(removed, bl') ← skip_loop null i (<[i := null]> bl);
            Ok (b :: removed, bl')
      end
  end.

(** The table is written as the loop goes; on the [IndexError] of the very
    first access nothing has been written. *)
Definition sliding_remove_skipped_blocks (sw : Z) (request_id : string) (num_computed_tokens : Z)
    : M (pool * Manager) unit :=
  s ← get_state;
  let '(p, m) := s in
  let last_useful_token := num_computed_tokens - sw + 1 in
  let last_useful_block := last_useful_token / mgr_block_size m in
  '(removed_blocks, bl) ← lift_result
    (skip_loop (null_block p) (Z.to_nat last_useful_block) (req_blocks m request_id));
  on_manager (modify (fun m => set_req_to_blocks (<[request_id := bl]> (req_to_blocks m)) m));;
  on_pool (free_blocks removed_blocks).

Definition mgr_remove_skipped_blocks (request_id : string) (num_computed_tokens : Z)
    : M (pool * Manager) unit :=
  m ← gets snd;
  match mgr_spec m with
  | FullAttentionSpec _ _ => mret tt
  | SlidingWindowSpec _ sw => sliding_remove_skipped_blocks sw request_id num_computed_tokens
  end.

Definition mgr_get_num_common_prefix_blocks (p : pool) (m : Manager) (request_id : string)
    (num_running_requests : Z) : Z :=
  match mgr_spec m with
  | FullAttentionSpec _ _ => full_get_num_common_prefix_blocks p m request_id num_running_requests
  | SlidingWindowSpec _ _ => 0
  end.
End manager.

(** ** Prefix-cache lookup: the longest hit *)

Section lookup.
Context {Q : Type} `{FreeBlockQueueSpec Q}.
Abbreviation pool := (BlockPool Q).

(** The blocks of all groups that hit at index [i]. *)
Definition row_at (p : pool) (block_hashes : list BlockHash) (gs : list nat) (i : nat)
    : option (list nat) :=
  match block_hashes !! i with
  | Some h => get_cached_block h gs p
  | None => None
  end.

Lemma get_cached_block_length (p : pool) h gs row :
  get_cached_block h gs p = Some row -> length row = length gs.
Proof.
  revert row. induction gs as [|g gs IH]; intros row; simpl; [by intros [= <-]|].
  destruct (dd_get _ _); [done|]. destruct (get_cached_block h gs p); [|done].
  intros [= <-]. simpl. by rewrite IH.
Qed.

(** Entry [i] of column [j]. *)
Definition entry (cols : list (list nat)) (j i : nat) : option nat := cols !! j ≫= (.!! i).

(** The columns hold the row [row] at index [i]. *)
Definition has_row (cols : list (list nat)) (i : nat) (row : list nat) : Prop :=
  forall j, (j < length cols)%nat -> entry cols j i = row !! j.

Definition cols_ok (ng k : nat) (cols : list (list nat)) : Prop :=
  length cols = ng /\ Forall (fun l => length l = k) cols.

Lemma has_row_snoc_old ng k cols row row' i :
  cols_ok ng k cols -> (i < k)%nat -> length row' = ng -> has_row cols i row ->
  has_row (zip_with (fun l c => l ++ [c]) cols row') i row.
Proof.
  intros [Hl Hk] Hi Hr Hrow j Hj. rewrite length_zip_with in Hj.
  rewrite <- Hrow by lia. unfold entry. rewrite lookup_zip_with.
  destruct (lookup_lt_is_Some_2 cols j) as [l Hlj]; [lia|].
  destruct (lookup_lt_is_Some_2 row' j) as [c Hc]; [lia|]. rewrite Hlj, Hc. simpl.
  apply lookup_app_l. apply (Forall_lookup_1 _ _ _ _ Hk) in Hlj. lia.
Qed.

Lemma has_row_snoc_new ng k cols row :
  cols_ok ng k cols -> length row = ng -> has_row (zip_with (fun l c => l ++ [c]) cols row) k row.
Proof.
  intros [Hl Hk] Hr j Hj. rewrite length_zip_with in Hj. unfold entry. rewrite lookup_zip_with.
  destruct (lookup_lt_is_Some_2 cols j) as [l Hlj]; [lia|].
  destruct (lookup_lt_is_Some_2 row j) as [c Hc]; [lia|]. rewrite Hlj, Hc. simpl.
  apply (Forall_lookup_1 _ _ _ _ Hk) in Hlj. by rewrite <- Hlj, list_lookup_middle.
Qed.

Lemma cols_ok_zip ng k k' cols row (f : list nat -> nat -> list nat) :
  cols_ok ng k cols -> length row = ng -> (forall l c, length l = k -> length (f l c) = k') ->
  cols_ok ng k' (zip_with f cols row).
Proof.
  intros [Hl Hk] Hr Hf. split; [rewrite length_zip_with; lia|].
  apply Forall_lookup. intros j l. rewrite lookup_zip_with.
  destruct (cols !! j) as [l0|] eqn:E; [|done]. destruct (row !! j); [|done].
  intros [= <-]. apply Hf. by eapply (Forall_lookup_1 _ _ _ _ Hk).
Qed.

Lemma full_hit_loop_spec (p : pool) bhs gs n : forall i cols,
  gs <> [] -> (i + n <= length bhs)%nat -> cols_ok (length gs) i cols ->
  (forall i', (i' < i)%nat -> exists row, row_at p bhs gs i' = Some row /\ has_row cols i' row) ->
  exists k res, full_hit_loop p bhs gs n i cols = Ok res /\ (i <= k <= i + n)%nat /\
    cols_ok (length gs) k res /\
    (forall i', (i' < k)%nat -> exists row, row_at p bhs gs i' = Some row /\ has_row res i' row) /\
    ((k < i + n)%nat -> row_at p bhs gs k = None).
Proof.
  induction n as [|n IH]; intros i cols Hgs Hlen Hcols Hrows; simpl.
  { exists i, cols. split_and!; [done|lia|lia|done|done|lia]. }
  destruct (lookup_lt_is_Some_2 bhs i) as [h Hh]; [lia|]. rewrite Hh.
  destruct (get_cached_block h gs p) as [row|] eqn:Erow.
  - pose proof (get_cached_block_length _ _ _ _ Erow) as Hrl.
    destruct row as [|b bs] eqn:Eb; [by destruct gs|]. rewrite <- Eb in *.
    destruct (IH (S i) (zip_with (fun l c => l ++ [c]) cols row)) as (k & res & E & Hk & Hc & Hr & Hm);
      [done|lia| | |exists k, res; split_and!; [done|lia|lia|done|done|intros; apply Hm; lia]].
    + eapply cols_ok_zip; [done|done|]. intros l c Hl. rewrite length_app. simpl. lia.
    + intros i' Hi'. destruct (decide (i' = i)) as [->|Hne].
      * exists row. unfold row_at. rewrite Hh. split; [done|]. by eapply has_row_snoc_new.
      * destruct (Hrows i' ltac:(lia)) as (row' & E1 & E2). exists row'. split; [done|].
        eapply has_row_snoc_old; [done|lia|done|done].
  - exists i, cols. split_and!; [done|lia|lia|done|done|].
    intros _. unfold row_at. by rewrite Hh.
Qed.

(** What a lookup returns: [k] blocks per group; block [i] of them is the row
    that hits at [i] if it is among the last [need], else the null block. *)
Definition hit_result (p : pool) (bhs : list BlockHash) (gs : list nat) (need k : nat)
    (res : list (list nat)) : Prop :=
  cols_ok (length gs) k res /\
  forall i, (i < k)%nat ->
    if decide (k <= i + need)%nat
    then exists row, row_at p bhs gs i = Some row /\ has_row res i row
    else has_row res i (replicate (length gs) (null_block p)).

(** No longer prefix would do: some block that it needs is a miss. *)
Definition hit_maximal (p : pool) (bhs : list BlockHash) (gs : list nat) (need k max : nat) : Prop :=
  forall k', (k < k' <= max)%nat ->
    exists i, (i < k')%nat /\ (k' <= i + need)%nat /\ row_at p bhs gs i = None.

Lemma has_row_insert_new ng k cols row i :
  cols_ok ng k cols -> (i < k)%nat -> length row = ng ->
  has_row (zip_with (fun l c => <[i := c]> l) cols row) i row.
Proof.
  intros [Hl Hk] Hi Hr j Hj. rewrite length_zip_with in Hj. unfold entry. rewrite lookup_zip_with.
  destruct (lookup_lt_is_Some_2 cols j) as [l Hlj]; [lia|].
  destruct (lookup_lt_is_Some_2 row j) as [c Hc]; [lia|]. rewrite Hlj, Hc. simpl.
  apply (Forall_lookup_1 _ _ _ _ Hk) in Hlj. by rewrite list_lookup_insert_eq by lia.
Qed.

Lemma has_row_insert_old ng k cols row row' i i' :
  cols_ok ng k cols -> length row' = ng -> i <> i' -> has_row cols i' row ->
  has_row (zip_with (fun l c => <[i := c]> l) cols row') i' row.
Proof.
  intros [Hl Hk] Hr Hne Hrow j Hj. rewrite length_zip_with in Hj.
  rewrite <- Hrow by lia. unfold entry. rewrite lookup_zip_with.
  destruct (lookup_lt_is_Some_2 cols j) as [l Hlj]; [lia|].
  destruct (lookup_lt_is_Some_2 row' j) as [c Hc]; [lia|]. rewrite Hlj, Hc. simpl.
  by rewrite list_lookup_insert_ne.
Qed.

Lemma has_row_truncate k cols i row : (i < k)%nat -> has_row cols i row -> has_row (truncate k cols) i row.
Proof.
  intros Hi Hrow j Hj. unfold truncate in *. rewrite length_fmap in Hj. rewrite <- Hrow by done.
  unfold entry. rewrite list_lookup_fmap. destruct (cols !! j); [|done]. simpl.
  by rewrite lookup_take_lt.
Qed.

Lemma cols_ok_truncate ng k k' cols :
  cols_ok ng k cols -> (k' <= k)%nat -> cols_ok ng k' (truncate k' cols).
Proof.
  intros [Hl Hk] Hk'. unfold truncate. split; [by rewrite length_fmap|].
  apply Forall_fmap. eapply Forall_impl; [exact Hk|]. intros l Hll. simpl in *. rewrite length_take. lia.
Qed.

(** The state of the loop: [n] blocks to look at, then a run of [c] hits. *)
Definition sliding_inv (p : pool) bhs gs (need max n c : nat) (cols : list (list nat)) : Prop :=
  cols_ok (length gs) max cols /\ (n + c <= max)%nat /\ (c < need)%nat /\
  (forall i, (i < n)%nat -> has_row cols i (replicate (length gs) (null_block p))) /\
  (forall i, (n <= i < n + c)%nat -> exists row, row_at p bhs gs i = Some row /\ has_row cols i row) /\
  ((n + c < max)%nat -> row_at p bhs gs (n + c) = None) /\
  hit_maximal p bhs gs need (n + c) max.

Lemma sliding_inv_miss (p : pool) bhs gs need max n c cols :
  sliding_inv p bhs gs need max (S n) c cols -> row_at p bhs gs n = None ->
  sliding_inv p bhs gs need max n 0 cols.
Proof.
  intros (H1 & H2 & H3 & H4 & H5 & H6 & H7) Hmiss.
  split_and!; [done|lia|lia|intros; apply H4; lia|intros; lia|by rewrite Nat.add_0_r|].
  intros k' Hk'. destruct (decide (S n + c < k')%nat); [by apply H7; lia|].
  exists n. split_and!; [lia|lia|done].
Qed.

Lemma sliding_inv_hit (p : pool) bhs gs need max n c cols row :
  sliding_inv p bhs gs need max (S n) c cols -> row_at p bhs gs n = Some row ->
  length row = length gs ->
  let cols' := zip_with (fun l c => <[n := c]> l) cols row in
  cols_ok (length gs) max cols' /\
  (forall i, (i < n)%nat -> has_row cols' i (replicate (length gs) (null_block p))) /\
  (forall i, (n <= i < n + S c)%nat -> exists row, row_at p bhs gs i = Some row /\ has_row cols' i row).
Proof.
  intros (H1 & H2 & H3 & H4 & H5 & H6 & H7) Hrow Hlen cols'.
  split_and!.
  - eapply cols_ok_zip; [done|done|]. intros. by rewrite length_insert.
  - intros i Hi. eapply has_row_insert_old; [done|done|lia|]. apply H4. lia.
  - intros i Hi. destruct (decide (n = i)) as [<-|Hne].
    + exists row. split; [done|]. eapply has_row_insert_new; [done|lia|done].
    + destruct (H5 i ltac:(lia)) as (row' & E1 & E2). exists row'. split; [done|].
      by eapply has_row_insert_old.
Qed.

Lemma sliding_hit_loop_spec (p : pool) bhs gs need max n : forall c cols,
  gs <> [] -> (max <= length bhs)%nat -> (0 < need)%Z ->
  sliding_inv p bhs gs (Z.to_nat need) max n c cols ->
  exists k res, sliding_hit_loop p bhs gs need n cols c = Ok res /\ (k <= max)%nat /\
    hit_result p bhs gs (Z.to_nat need) k res /\ hit_maximal p bhs gs (Z.to_nat need) k max.
Proof.
  induction n as [|n IH]; intros c cols Hgs Hlen Hneed Hinv; simpl.
  - destruct Hinv as (H1 & H2 & H3 & H4 & H5 & H6 & H7). simpl in *.
    exists c, (truncate c cols). split_and!; [done|lia| |done].
    split; [by eapply cols_ok_truncate|]. intros i Hi. rewrite decide_True by lia. destruct (H5 i ltac:(lia)) as (row & E1 & E2).
    exists row. split; [done|by apply has_row_truncate].
  - pose proof Hinv as (H1 & H2 & H3 & H4 & H5 & H6 & H7).
    destruct (lookup_lt_is_Some_2 bhs n) as [h Hh]; [lia|]. rewrite Hh.
    assert (row_at p bhs gs n = get_cached_block h gs p) as Erow by (unfold row_at; by rewrite Hh).
    destruct (get_cached_block h gs p) as [row|] eqn:Eg.
    + pose proof (get_cached_block_length _ _ _ _ Eg) as Hrl.
      destruct row as [|b bs] eqn:Eb; [by destruct gs|]. rewrite <- Eb in *.
      destruct (sliding_inv_hit _ _ _ _ _ _ _ _ _ Hinv Erow Hrl) as (C1 & C2 & C3).
      destruct (Z.leb_spec need (Z.of_nat (S c))) as [Hle|Hgt].
      * eexists (n + S c)%nat, _. split_and!; [done|lia| |].
        -- split; [by eapply cols_ok_truncate; [exact C1|lia]|]. intros i Hi. destruct (decide (n + S c <= i + Z.to_nat need)%nat).
           ++ destruct (C3 i ltac:(lia)) as (row' & E1 & E2). exists row'.
              split; [done|by apply has_row_truncate].
           ++ apply has_row_truncate; [done|]. apply C2. lia.
        -- by replace (n + S c)%nat with (S n + c)%nat by lia.
      * apply IH; [done|done|done|]. replace (S n + c)%nat with (n + S c)%nat in * by lia.
        split_and!; [done|lia|lia|done|done|done|done].
    + apply IH; [done..|]. by eapply sliding_inv_miss.
Qed.

Lemma sliding_inv_start (p : pool) bhs gs need max :
  (0 < need)%nat ->
  sliding_inv p bhs gs need max max 0 (replicate (length gs) (replicate max (null_block p))).
Proof.
  intros Hneed. split_and!; [|lia|lia| |intros; lia|intros; lia|intros k' Hk'; lia].
  - split; [by rewrite length_replicate|]. apply Forall_replicate. by rewrite length_replicate.
  - intros i Hi j Hj. rewrite length_replicate in Hj. unfold entry.
    rewrite !lookup_replicate_2 by done. simpl. by rewrite lookup_replicate_2.
Qed.
End lookup.

(** ** Accounting: who holds which block *)

(** How often a manager holds a block. *)
Definition held (m : Manager) (i : nat) : Z := occ i (table_blocks (req_to_blocks m)).

Lemma held_set t m i : held (set_req_to_blocks t m) i = occ i (table_blocks t).
Proof. done. Qed.

Lemma held_insert m k l i :
  held (set_req_to_blocks (<[k := l]> (req_to_blocks m)) m) i =
    held m i - occ i (req_blocks m k) + occ i l.
Proof.
  unfold held, req_blocks. simpl. rewrite (occ_perm _ _ _ (table_blocks_insert _ _ _)).
  rewrite (occ_perm _ _ _ (table_blocks_delete (req_to_blocks m) k)), !occ_app. lia.
Qed.

Lemma held_delete m k i :
  held (set_req_to_blocks (delete k (req_to_blocks m)) m) i = held m i - occ i (req_blocks m k).
Proof.
  unfold held, req_blocks. simpl.
  rewrite (occ_perm _ _ _ (table_blocks_delete (req_to_blocks m) k)), occ_app. lia.
Qed.

Lemma held_ge m k i : occ i (req_blocks m k) <= held m i.
Proof.
  unfold held, req_blocks. rewrite (occ_perm _ _ _ (table_blocks_delete (req_to_blocks m) k)), occ_app.
  pose proof (occ_nonneg i (table_blocks (delete k (req_to_blocks m)))). lia.
Qed.

Lemma held_pos_in m k i : i ∈ req_blocks m k -> 0 < held m i.
Proof. intros Hi%occ_pos_iff. pose proof (held_ge m k i). lia. Qed.

Section accounting.
Context {Q : Type} `{FreeBlockQueueSpec Q}.
Abbreviation pool := (BlockPool Q).

(** The blocks a manager refers to exist. *)
Definition ids_ok (p : pool) (m : Manager) : Prop :=
  forall i, 0 < held m i -> (i < length (blocks p))%nat.

(** A step of a manager with its pool: every reference it takes or gives up is
    counted, on every block but the null block. *)
Record delta_ok (p p' : pool) (m m' : Manager) : Prop := {
  dl_config : pool_config p' = pool_config p;
  dl_length : length (blocks p') = length (blocks p);
  dl_refs i : i <> null_block p -> refs p' i - refs p i = held m' i - held m i;
  dl_ids : ids_ok p m -> ids_ok p' m';
  dl_same : mgr_spec m' = mgr_spec m /\ kv_cache_group_id m' = kv_cache_group_id m
}.

Lemma delta_ok_refl p m : delta_ok p p m m.
Proof. split; (done || lia). Qed.

Lemma delta_ok_trans p1 p2 p3 m1 m2 m3 :
  delta_ok p1 p2 m1 m2 -> delta_ok p2 p3 m2 m3 -> delta_ok p1 p3 m1 m3.
Proof.
  intros [A1 A2 A3 A4 [A5 A6]] [B1 B2 B3 B4 [B5 B6]]. split; [congruence|congruence| |tauto|split; congruence].
  intros i Hi. specialize (A3 i Hi). rewrite (config_null _ _ A1) in B3. specialize (B3 i Hi). lia.
Qed.

Lemma wp_on_pool {A} (m : M pool A) (R : A -> pool * Manager -> Prop) p mg :
  wp m (fun a p' => R a (p', mg)) p -> wp (on_pool m) R (p, mg).
Proof. intros Hm. by apply wp_zoom. Qed.

(** [allocate_new_blocks] with enough free blocks. *)
Lemma wp_allocate_new_blocks p m l id num_tokens :
  pool_inv p l -> cdiv num_tokens (mgr_block_size m) - len (req_blocks m id) <= len l ->
  let n := Z.to_nat (cdiv num_tokens (mgr_block_size m) - len (req_blocks m id)) in
  wp (allocate_new_blocks id num_tokens) (fun ids '(p', m') =>
    ids = take n l /\ pool_inv p' (drop n l) /\ delta_ok p p' m m' /\
    req_blocks m' id = req_blocks m id ++ ids /\
    (forall id', id' <> id -> req_blocks m' id' = req_blocks m id') /\
    num_cached_block m' = num_cached_block m) (p, m).
Proof.
  intros Hp Hn n. unfold allocate_new_blocks. wp_steps. simpl.
  destruct (Z.leb_spec (cdiv num_tokens (mgr_block_size m) - len (req_blocks m id)) 0) as [Hle|Hgt].
  - wp_steps. replace n with 0%nat by lia. rewrite drop_0.
    split_and!; [done|done|apply delta_ok_refl|by rewrite app_nil_r|done|done].
  - wp_step. apply wp_on_pool.
    eapply wp_mono; [apply (wp_get_new_blocks _ _ _ Hp); lia|].
    intros ids p1 (-> & Hp1 & Ec & El & Er & _). fold n in Hp1, Er |- *.
    unfold on_manager. wp_steps.
    assert (Hheld : forall i, held (extend_req_blocks id (take n l) m) i = held m i + occ i (take n l)).
    { intros i. unfold extend_req_blocks. rewrite held_insert, occ_app. lia. }
    simpl. split_and!; [done|done| |by unfold req_blocks, dd_get; simpl; rewrite lookup_insert_eq| |done].
    + split; [done|done| | |done].
      * intros i _. simpl. rewrite Er, Hheld. lia.
      * intros Hids i Hi. rewrite El. simpl in Hi. rewrite Hheld in Hi.
        destruct (decide (0 < held m i)) as [Hpos|Hz]; [by apply Hids|].
        apply (pi_free_lt _ _ i Hp). assert (0 < occ i (take n l)) as Ho%occ_pos_iff by lia.
        by eapply elem_of_take_sub.
    + intros id' Hne. unfold req_blocks, dd_get, extend_req_blocks. simpl. by rewrite lookup_insert_ne.
Qed.

Lemma refs_out (p : pool) i : (length (blocks p) <= i)%nat -> refs p i = 0.
Proof. intros Hi. unfold refs, obj. by rewrite list_lookup_total_alt, lookup_ge_None_2. Qed.

(** [free] of a request. *)
Lemma wp_mgr_free p m l id :
  pool_inv p l -> ids_ok p m -> (forall i, i <> null_block p -> occ i (req_blocks m id) <= refs p i) ->
  wp (mgr_free id) (fun _ '(p', m') =>
    (exists l', pool_inv p' l') /\ delta_ok p p' m m' /\ cached_block_hash_to_block p' = cached_block_hash_to_block p /\
    req_blocks m' id = [] /\ num_cached_block m' !! id = None /\
    (forall id', id' <> id -> req_blocks m' id' = req_blocks m id' /\
       num_cached_block m' !! id' = num_cached_block m !! id')) (p, m).
Proof.
  intros Hp Hids Hocc. unfold mgr_free, on_manager. wp_steps. simpl. apply wp_on_pool.
  eapply wp_mono.
  { apply (wp_free_blocks _ _ _ Hp).
    - intros i Hi. rewrite <- (Permutation_rev (req_blocks m id)) in Hi. by eapply Hids, held_pos_in.
    - intros i Hn. rewrite occ_rev. by apply Hocc. }
  intros [] p1 (Hp1 & Ec & Eh & Eca & El & Er). wp_steps. simpl.
  split_and!; [by eexists| |done|by unfold req_blocks, dd_get; simpl; rewrite lookup_delete_eq
    |by rewrite lookup_delete_eq|].
  - split; [done|done| | |done].
    + intros i _. change (held (set_num_cached _ ?m0) i) with (held m0 i).
      rewrite held_delete, Er, occ_rev. lia.
    + intros _ i Hi. rewrite El. apply Hids.
      change (held (set_num_cached _ ?m0) i) with (held m0 i) in Hi. rewrite held_delete in Hi.
      pose proof (occ_nonneg i (req_blocks m id)). lia.
  - intros id' Hne. split; [|by rewrite lookup_delete_ne].
    unfold req_blocks, dd_get. simpl. by rewrite lookup_delete_ne.
Qed.
(** *** Leaving the window *)

Lemma occ_insert x i b c bl :
  bl !! i = Some b ->
  occ x (<[i := c]> bl) =
    (occ x bl - (if decide (b = x) then 1 else 0)) + (if decide (c = x) then 1 else 0).
Proof.
  intros Hi. pose proof (lookup_lt_Some _ _ _ Hi) as Hlt.
  rewrite insert_take_drop by done. rewrite <- (take_drop_middle bl i b Hi) at 3.
  rewrite !occ_app, !occ_cons. lia.
Qed.

(** Among the first [n] blocks the null blocks come first. *)
Definition null_prefix (null n : nat) (bl : list nat) : Prop :=
  forall i j, (i <= j < n)%nat -> bl !! j = Some null -> bl !! i = Some null.

Lemma skip_loop_spec null n : forall bl,
  (n <= length bl)%nat ->
  exists removed bl', skip_loop null n bl = Ok (removed, bl') /\ length bl' = length bl /\
    (null ∉ removed) /\
    (forall x, x <> null -> occ x bl = occ x bl' + occ x removed) /\
    (forall j, (n <= j)%nat -> bl' !! j = bl !! j) /\
    (null_prefix null n bl -> forall j, (j < n)%nat -> bl' !! j = Some null) /\
    (forall j, (j < n)%nat -> bl' !! j = bl !! j \/ bl' !! j = Some null).
Proof.
  induction n as [|n IH]; intros bl Hn; simpl.
  { exists [], bl. split_and!; [done|done|set_solver|intros; change (occ x []) with 0; lia|done|intros; lia|by left]. }
  destruct (lookup_lt_is_Some_2 bl n) as [b Hb]; [lia|]. rewrite Hb.
  destruct (Nat.eqb_spec b null) as [->|Hne].
  - exists [], bl. split_and!; [done|done|set_solver|intros; change (occ x []) with 0; lia|done| |by left].
    intros Hnp j Hj. by apply (Hnp j n); [lia|].
  - destruct (IH (<[n := null]> bl)) as (rm & bl' & E & Hl & Hnull & Ho & Hs & Hp & Hk);
      [rewrite length_insert; lia|].
    rewrite E. simpl. exists (b :: rm), bl'. rewrite length_insert in Hl.
    split_and!; [done|done|set_solver| | | |].
    + intros x Hx. specialize (Ho x Hx).
      rewrite (occ_insert _ _ _ _ _ Hb), (decide_False (P := null = x)) in Ho by done.
      rewrite occ_cons. lia.
    + intros j Hj. rewrite Hs by lia. apply list_lookup_insert_ne. lia.
    + intros Hnp j Hj. destruct (decide (j = n)) as [->|Hjn].
      * rewrite Hs by lia. apply list_lookup_insert_eq. lia.
      * apply Hp; [|lia]. intros i k Hik. rewrite !list_lookup_insert_ne by lia. apply Hnp. lia.
    + intros j Hj. destruct (decide (j = n)) as [->|Hjn].
      * right. rewrite Hs by lia. apply list_lookup_insert_eq. lia.
      * rewrite <- (list_lookup_insert_ne bl n j null) by lia. apply Hk. lia.
Qed.

(** The block index below which a window of [sw] tokens needs no block. *)
Definition last_useful_block (m : Manager) (sw num_computed_tokens : Z) : nat :=
  Z.to_nat ((num_computed_tokens - sw + 1) / mgr_block_size m).

(** How many of a request's first blocks its group's attention no longer reads. *)
Definition skipped_blocks (m : Manager) (num_computed_tokens : Z) : nat :=
  match mgr_spec m with
  | FullAttentionSpec _ _ => 0
  | SlidingWindowSpec _ sw => last_useful_block m sw num_computed_tokens
  end.

(** [bs] is the table of request [id] after giving up blocks outside the
    window: each entry is as it was or is a null block in front of the window,
    and all entries in front of the window are null blocks if the null blocks
    came first. *)
Record given_up (null : nat) (num_computed_tokens : Z) (id : string) (m : Manager) (bs : list nat) : Prop := {
  gu_length : length bs = length (req_blocks m id);
  gu_kept : forall j, (skipped_blocks m num_computed_tokens <= j)%nat -> bs !! j = req_blocks m id !! j;
  gu_null : forall j, (j < skipped_blocks m num_computed_tokens)%nat ->
    bs !! j = req_blocks m id !! j \/ bs !! j = Some null;
  gu_all : null_prefix null (skipped_blocks m num_computed_tokens) (req_blocks m id) ->
    forall j, (j < skipped_blocks m num_computed_tokens)%nat -> bs !! j = Some null
}.

Lemma wp_mgr_remove_skipped p m l id num_computed_tokens :
  pool_inv p l -> ids_ok p m -> (forall i, i <> null_block p -> occ i (req_blocks m id) <= refs p i) ->
  (forall sw, mgr_spec m = SlidingWindowSpec (attention_spec (mgr_spec m)) sw ->
     (last_useful_block m sw num_computed_tokens <= length (req_blocks m id))%nat) ->
  wp (mgr_remove_skipped_blocks id num_computed_tokens) (fun _ '(p', m') =>
    (exists l', pool_inv p' l') /\ delta_ok p p' m m' /\ num_cached_block m' = num_cached_block m /\
    given_up (null_block p) num_computed_tokens id m (req_blocks m' id) /\
    (forall id', id' <> id -> req_blocks m' id' = req_blocks m id')) (p, m).
Proof.
  intros Hp Hids Hocc Hlen. unfold mgr_remove_skipped_blocks. wp_steps. simpl.
  destruct (mgr_spec m) as [a w|a sw] eqn:Espec.
  { wp_steps. split_and!; [by eexists|apply delta_ok_refl|done| |done].
    split; unfold skipped_blocks; rewrite ?Espec; [done|done|by left|intros; lia]. }
  specialize (Hlen sw eq_refl). unfold sliding_remove_skipped_blocks. wp_steps. simpl.
  fold (last_useful_block m sw num_computed_tokens).
  destruct (skip_loop_spec (null_block p) _ _ Hlen) as (rm & bl & E & Hl & Hnull & Ho & Hs & Hall & Hk).
  rewrite E. unfold lift_result, on_manager. simpl. wp_steps. simpl. wp_steps. simpl.
  apply wp_on_pool. eapply wp_mono.
  { apply (wp_free_blocks _ _ _ Hp).
    - intros i Hi. apply Hids. assert (i <> null_block p) as Hn by (by intros ->).
      pose proof (Ho i Hn). pose proof (held_ge m id i). apply occ_pos_iff in Hi.
      pose proof (occ_nonneg i bl). lia.
    - intros i Hn. specialize (Hocc i Hn). pose proof (Ho i Hn). pose proof (occ_nonneg i bl). lia. }
  intros [] p1 (Hp1 & Ec & Eh & Eca & El & Er).
  split_and!; [by eexists| |done| |].
  2: { replace (req_blocks _ id) with bl by (unfold req_blocks, dd_get; simpl; by rewrite lookup_insert_eq).
    split; unfold skipped_blocks; rewrite ?Espec; [done|exact Hs|exact Hk|exact Hall]. }
  - split; [done|done| | |done].
    + intros i Hn. simpl. rewrite held_insert, Er. pose proof (Ho i Hn). lia.
    + intros _ i Hi. rewrite El. simpl in Hi. rewrite held_insert in Hi.
      destruct (decide (i = null_block p)) as [->|Hn]; [by eapply pi_null_lt|].
      apply Hids. pose proof (Ho i Hn). pose proof (occ_nonneg i rm). lia.
  - intros id' Hne. unfold req_blocks, dd_get. simpl. by rewrite lookup_insert_ne.
Qed.

(** *** Saving hits *)

Lemma wp_save_new_computed_blocks m id bl :
  (num_cached_block m !! id = None -> req_blocks m id = []) ->
  (is_Some (num_cached_block m !! id) -> bl = []) ->
  wp (save_new_computed_blocks id bl) (fun _ m' =>
    (forall i, held m' i = held m i + occ i bl) /\
    req_blocks m' id = req_blocks m id ++ bl /\ is_Some (num_cached_block m' !! id) /\
    (forall id', id' <> id -> req_blocks m' id' = req_blocks m id' /\
       num_cached_block m' !! id' = num_cached_block m !! id') /\
    mgr_spec m' = mgr_spec m /\ kv_cache_group_id m' = kv_cache_group_id m) m.
Proof.
  intros Hnew Hold. unfold save_new_computed_blocks, wp.
  destruct (num_cached_block m !! id) as [k|] eqn:E.
  - rewrite Hold by eauto. simpl. rewrite E.
    split_and!; [intros; change (occ i []) with 0; lia|by rewrite app_nil_r|eauto|done..].
  - rewrite Hnew by done. simpl. split_and!; [| | | |done|done].
    + intros i. change (held (set_num_cached _ ?m0) i) with (held m0 i).
      rewrite held_insert, Hnew by done. change (occ i []) with 0. lia.
    + unfold req_blocks, dd_get. simpl. by rewrite lookup_insert_eq.
    + rewrite lookup_insert_eq. eauto.
    + intros id' Hne. unfold req_blocks, dd_get. simpl. by rewrite !lookup_insert_ne.
Qed.

(** *** Caching: no reference moves, whatever the outcome *)

Lemma mgr_cache_blocks_always hash_fn NONE_HASH request num_tokens p m l bh :
  pool_inv p l -> enable_caching p = true -> ids_ok p m ->
  always (mgr_cache_blocks hash_fn NONE_HASH request num_tokens) (fun '(p', m', _) =>
    recached p l p' /\ req_to_blocks m' = req_to_blocks m /\
    mgr_spec m' = mgr_spec m /\ kv_cache_group_id m' = kv_cache_group_id m /\
    (forall id', id' <> request_id request ->
       num_cached_block m' !! id' = num_cached_block m !! id') /\
    (is_Some (num_cached_block m !! request_id request) ->
       is_Some (num_cached_block m' !! request_id request))) (p, m, bh).
Proof.
  intros Hp Hc Hids. unfold mgr_cache_blocks. apply always_bind. simpl.
  destruct (num_cached_block m !! request_id request) as [k|] eqn:E; [|by split_and!].
  apply always_bind. unfold zoom. simpl.
  pose proof (cache_full_blocks_always hash_fn NONE_HASH request (req_blocks m (request_id request)) k
    (num_tokens / mgr_block_size m) (mgr_block_size m) (kv_cache_group_id m) p l bh Hc Hp) as Ha.
  unfold always in Ha. destruct (cache_full_blocks _ _ _ _ _ _ _ _ _) as [[] [p1 bh1]|e [p1 bh1]].
  - unfold always, modify. simpl. split_and!; [apply Ha|done|done|done| |].
    + intros x Hx. by eapply Hids, held_pos_in.
    + intros id' Hne. by rewrite lookup_insert_ne.
    + intros _. rewrite lookup_insert_eq. eauto.
  - simpl. split_and!; [apply Ha|done..|].
    + intros x Hx. by eapply Hids, held_pos_in.
    + by rewrite E.
Qed.
End accounting.

(** ** Properties of the managers *)

Section properties.
Context {Q : Type} `{FreeBlockQueueSpec Q}.
Abbreviation pool := (BlockPool Q).

Lemma truncate_all ng k cols : cols_ok ng k cols -> truncate k cols = cols.
Proof.
  intros [_ Hk]. unfold truncate. induction Hk as [|l cols Hl _ IH]; [done|].
  rewrite fmap_cons, IH. by rewrite take_ge by lia.
Qed.

Lemma drop_last_spec e ng k cols :
  cols_ok ng k cols -> (0 < ng)%nat ->
  drop_last e cols = Ok (truncate (if e then k - 1 else k) cols).
Proof.
  intros Hc Hng. destruct e; simpl; [|by erewrite truncate_all].
  destruct Hc as [Hl Hk]. destruct cols as [|l cols]; [simpl in Hl; lia|].
  pose proof Hk as [Hlk _]%Forall_cons. rewrite Hlk. f_equal. destruct (Nat.ltb_spec 0 k).
  - clear -Hk. unfold truncate. induction Hk as [|l' cols' Hl' _ IH]; [done|]. by rewrite !fmap_cons, IH, Hl'.
  - replace k with 0%nat in * by lia. symmetry. by eapply truncate_all.
Qed.

(** A match needs at least one block. *)
Lemma sliding_need_max (p : pool) bhs gs n0 n : forall c cols,
  sliding_hit_loop p bhs gs (Z.max 1 n0) n cols c = sliding_hit_loop p bhs gs n0 n cols c.
Proof.
  induction n as [|n IH]; intros c cols; simpl; [done|]. destruct (bhs !! n); [|done].
  destruct (get_cached_block _ _ _) as [[|? ?]|]; [apply IH| |apply IH].
  replace (Z.max 1 n0 <=? Z.of_nat (S c)) with (n0 <=? Z.of_nat (S c))
    by (destruct (Z.leb_spec n0 (Z.of_nat (S c))), (Z.leb_spec (Z.max 1 n0) (Z.of_nat (S c)));
        done || lia).
  destruct (_ <=? _); [done|]. apply IH.
Qed.

(** The number of blocks that may hit. *)
Definition max_blocks (spec : KVCacheSpec) (max_length : Z) : nat :=
  Z.to_nat (max_length / block_size spec).

(** C32: the full-attention lookup returns, for every group, the blocks of the
    longest run of leading hits within [max_length] tokens (a hit is a block
    cached for all groups), one block less with eagle, and never raises when
    the hashes cover that length. *)
Theorem full_find_longest_cache_hit_spec (p : pool) bhs gs max_length spec use_eagle :
  is_full_attention spec = true -> gs <> [] -> (max_blocks spec max_length <= length bhs)%nat ->
  exists k res,
    full_find_longest_cache_hit bhs max_length gs p spec use_eagle = Ok res /\
    (k <= max_blocks spec max_length)%nat /\
    (forall i, (i < k)%nat -> is_Some (row_at p bhs gs i)) /\
    ((k < max_blocks spec max_length)%nat -> row_at p bhs gs k = None) /\
    let n := (if use_eagle then k - 1 else k)%nat in
    cols_ok (length gs) n res /\
    (forall i row, (i < n)%nat -> row_at p bhs gs i = Some row -> has_row res i row).
Proof.
  intros Hfull Hgs Hlen. unfold full_find_longest_cache_hit. rewrite Hfull. simpl.
  fold (max_blocks spec max_length).
  destruct (full_hit_loop_spec p bhs gs (max_blocks spec max_length) 0 (replicate (length gs) []))
    as (k & res & E & Hk & Hc & Hr & Hm); [done|lia| |intros; lia|].
  { split; [by rewrite length_replicate|]. by apply Forall_replicate. }
  rewrite E. simpl. assert (0 < length gs)%nat by (destruct gs; [done|simpl; lia]).
  rewrite (drop_last_spec _ _ _ _ Hc) by done. eexists k, _. split; [done|].
  split_and!; [lia| |done| |].
  - intros i Hi. destruct (Hr i Hi) as (row & -> & _). eauto.
  - eapply cols_ok_truncate; [done|]. destruct use_eagle; lia.
  - intros i row Hi Hrow. apply has_row_truncate; [done|].
    destruct (Hr i) as (row' & E' & Hrow'); [destruct use_eagle; lia|].
    rewrite Hrow in E'. by injection E' as ->.
Qed.

(** The sliding-window lookup returns the longest prefix of at most
    [max_length] tokens whose last [need] blocks (all its blocks if it has
    fewer) are cached for all groups: these blocks, and the null block before
    them; with eagle [need] is one more and the last block is dropped. *)
Theorem sliding_find_longest_cache_hit_spec (p : pool) bhs gs max_length a sw use_eagle :
  let spec := SlidingWindowSpec a sw in
  let need := Z.to_nat (Z.max 1 (sliding_window_contiguous_blocks sw (block_size spec) use_eagle)) in
  gs <> [] -> (max_blocks spec max_length <= length bhs)%nat ->
  exists k res,
    (drop_last use_eagle res = sliding_find_longest_cache_hit bhs max_length gs p spec use_eagle) /\
    drop_last use_eagle res = Ok (truncate (if use_eagle then k - 1 else k) res) /\
    (k <= max_blocks spec max_length)%nat /\
    hit_result p bhs gs need k res /\
    hit_maximal p bhs gs need k (max_blocks spec max_length).
Proof.
  intros spec need Hgs Hlen.
  change (sliding_find_longest_cache_hit bhs max_length gs p spec use_eagle) with
    (computed ← sliding_hit_loop p bhs gs
        (sliding_window_contiguous_blocks sw (block_size spec) use_eagle) (max_blocks spec max_length)
        (replicate (length gs) (replicate (max_blocks spec max_length) (null_block p))) 0;
      drop_last use_eagle computed).
  set (n0 := sliding_window_contiguous_blocks sw (block_size spec) use_eagle) in *.
  rewrite <- sliding_need_max.
  destruct (sliding_hit_loop_spec p bhs gs (Z.max 1 n0) (max_blocks spec max_length)
    (max_blocks spec max_length) 0 (replicate (length gs) (replicate (max_blocks spec max_length) (null_block p))))
    as (k & res & E & Hk & Hres & Hmax); [done|done|lia|apply sliding_inv_start; lia|].
  rewrite E. simpl. exists k, res. split_and!; [done| |done|done|done].
  assert (0 < length gs)%nat by (destruct gs; [done|simpl; lia]).
  by apply (drop_last_spec _ _ _ _ (proj1 Hres)).
Qed.
End properties.

(** A pool in which the first block of a two-block prompt is cached. *)
Definition sample_hashes : list BlockHash := [mkBlockHash 5 [1; 2] None; mkBlockHash 6 [3; 4] None].

Definition sample_cached_pool : BlockPool FreeKVCacheBlockQueue.t :=
  mkBlockPool 3 true [] (FreeKVCacheBlockQueue.mk 0 None None)
    {[mkBlockHashWithGroupId (mkBlockHash 5 [1; 2] None) 0 := [2]%nat]} 0 false [].

Definition sample_attention : AttentionSpec := mkAttentionSpec 2 8 128 (mkDtype "bfloat16" 2) false.

Lemma full_find_longest_cache_hit_spec_witness :
  full_find_longest_cache_hit sample_hashes 5 [0]%nat sample_cached_pool
    (FullAttentionSpec sample_attention None) false = Ok [[2]]%nat /\
  exists k res,
    full_find_longest_cache_hit sample_hashes 5 [0]%nat sample_cached_pool
      (FullAttentionSpec sample_attention None) false = Ok res /\ (k <= 2)%nat.
Proof.
  split; [vm_compute; reflexivity|].
  destruct (full_find_longest_cache_hit_spec sample_cached_pool sample_hashes [0]%nat 5
    (FullAttentionSpec sample_attention None) false) as (k & res & E & Hk & _);
    [reflexivity|discriminate|vm_compute; repeat constructor|].
  exists k, res. split; [exact E|exact Hk].
Defined.

Lemma sliding_find_longest_cache_hit_spec_witness :
  sliding_find_longest_cache_hit sample_hashes 5 [0]%nat sample_cached_pool
    (SlidingWindowSpec sample_attention 3) false = Ok [[2]]%nat /\
  exists k res,
    drop_last false res = sliding_find_longest_cache_hit sample_hashes 5 [0]%nat sample_cached_pool
      (SlidingWindowSpec sample_attention 3) false /\
    hit_result sample_cached_pool sample_hashes [0]%nat 1 k res.
Proof.
  split; [vm_compute; reflexivity|].
  destruct (sliding_find_longest_cache_hit_spec sample_cached_pool sample_hashes [0]%nat 5
    sample_attention 3 false) as (k & res & E & _ & _ & Hr & _);
    [discriminate|vm_compute; repeat constructor|].
  exists k, res. split; [exact E|exact Hr].
Defined.
