(* ===== verification/Coordinator.v ===== *)
(** The KV-cache coordinators of [vllm/v1/core/kv_cache_coordinator.py]: one
    manager per KV-cache group over a shared block pool, and the prefix-cache
    lookup for one group ([UnitaryKVCacheCoordinator]) or for full attention
    combined with another type ([HybridKVCacheCoordinator]). *)

From Stdlib Require Import ZArith Lia.
From stdpp Require Import base strings numbers gmap list.
From S2P Require Import Prelude.
From S2P Require Import KVBlock.
From S2P Require Import FreeQueue.
From S2P Require Import LinkedQueue.
From S2P Require Import HPUQueue.
From S2P Require Import Request.
From S2P Require Import BlockHashing.
From S2P Require Import KVSpec.
From S2P Require Import BlockPool.
From S2P Require Import SingleType.

Open Scope Z_scope.

(** What [verify_and_split_kv_cache_groups] sets up for a hybrid coordinator. *)
Record HybridSplit := mkHybridSplit {
  full_attention_group_ids : list nat;
  other_group_ids : list nat;
  full_attention_spec : KVCacheSpec;
  other_spec : KVCacheSpec
}.

Inductive CoordinatorKind :=
  | Unitary (spec : KVCacheSpec)
  | Hybrid (split : HybridSplit).

Record Coordinator (Q : Type) := mkCoordinator {
  block_pool : BlockPool Q;
  single_type_managers : list Manager;
  use_eagle : bool;
  kind : CoordinatorKind
}.
Arguments mkCoordinator {Q}.
Arguments block_pool {Q}.
Arguments single_type_managers {Q}.
Arguments use_eagle {Q}.
Arguments kind {Q}.

(** The loop of [verify_and_split_kv_cache_groups]: ids and type ids so far. *)
Fixpoint split_groups (groups : list KVCacheGroupSpec) (i : nat) (full_type other_type : option string)
    (full_ids other_ids : list nat)
    : result (option string * option string * list nat * list nat) :=
  match groups with
  | [] => Ok (full_type, other_type, full_ids, other_ids)
  | g :: groups' =>
      let ty := type_id (kv_cache_spec g) in
      if is_full_attention (kv_cache_spec g) then
        match full_type with
        | None => split_groups groups' (S i) (Some ty) other_type (full_ids ++ [i]) other_ids
        | Some t =>
            if decide (t = ty)
            then split_groups groups' (S i) full_type other_type (full_ids ++ [i]) other_ids
            else Err AssertionError
        end
      else
        match other_type with
        | None => split_groups groups' (S i) full_type (Some ty) full_ids (other_ids ++ [i])
        | Some t =>
            if decide (t = ty)
            then split_groups groups' (S i) full_type other_type full_ids (other_ids ++ [i])
            else Err AssertionError
        end
  end.

Definition group_spec (groups : list KVCacheGroupSpec) (i : nat) : result KVCacheSpec :=
  match groups !! i with Some g => Ok (kv_cache_spec g) | None => Err IndexError end.

Definition head_id (ids : list nat) : result nat :=
  match ids with i :: _ => Ok i | [] => Err IndexError end.

Definition verify_and_split_kv_cache_groups (groups : list KVCacheGroupSpec) : result HybridSplit :=
  '(full_type, other_type, full_ids, other_ids) ← split_groups groups 0 None None [] [];
  guard_or (bool_decide (is_Some full_type)) AssertionError;;
  guard_or (bool_decide (is_Some other_type)) AssertionError;;
  i ← head_id full_ids;
  j ← head_id other_ids;
  full_spec ← group_spec groups i;
  other_spec ← group_spec groups j;
  (** A zero block size of the full attention raises in [%]. *)
  guard_or (negb (block_size full_spec =? 0)) ZeroDivisionError;;
  guard_or (block_size other_spec mod block_size full_spec =? 0) AssertionError;;
  mret (mkHybridSplit full_ids other_ids full_spec other_spec).

(** [list.insert(i, x)]: an index past the end appends. *)
Definition py_insert {A} (i : nat) (x : A) (l : list A) : list A := take i l ++ x :: drop i l.

(** [for group_id, blocks in enumerate(...): hit_blocks.insert(group_id, blocks)] *)
Fixpoint insert_all {A} (i : nat) (xs hit_blocks : list A) : list A :=
  match xs with
  | [] => hit_blocks
  | x :: xs' => insert_all (S i) xs' (py_insert i x hit_blocks)
  end.

(** [computed_blocks[0]] *)
Definition first_len (bss : list (list nat)) : result Z :=
  match bss with bs :: _ => Ok (len bs) | [] => Err IndexError end.

Section coordinator.
Context {Q : Type} `{FreeBlockQueue Q}.
Abbreviation pool := (BlockPool Q).
Abbreviation coordinator := (Coordinator Q).

(** [get_kv_cache_coordinator] with the two constructors. *)
Definition get_kv_cache_coordinator (config : KVCacheConfig)
    (use_eagle enable_caching enable_kv_cache_events : bool) : result coordinator :=
  let groups := kv_cache_groups config in
  p ← init_pool (num_blocks config) enable_caching enable_kv_cache_events;
  let managers := imap (fun i g => init_manager (kv_cache_spec g) i) groups in
  match groups with
  | [g] => mret (mkCoordinator p managers use_eagle (Unitary (kv_cache_spec g)))
  | _ =>
      split ← verify_and_split_kv_cache_groups groups;
      mret (mkCoordinator p managers use_eagle (Hybrid split))
  end.

(** [for i, manager in enumerate(self.single_type_managers)]: the body runs on
    the shared pool and one manager; an exception stops the loop. *)
Fixpoint each_manager {A} (body : nat -> M (pool * Manager) A) (i : nat) (ms : list Manager)
    (p : pool) : outcome (pool * list Manager) (list A) :=
  match ms with
  | [] => Ret [] (p, [])
  | m :: ms' =>
      match body i (p, m) with
      | Raise e (p', m') => Raise e (p', m' :: ms')
      | Ret a (p', m') =>
          match each_manager body (S i) ms' p' with
          | Raise e (p'', ms'') => Raise e (p'', m' :: ms'')
          | Ret as_ (p'', ms'') => Ret (a :: as_) (p'', m' :: ms'')
          end
      end
  end.

Definition set_pool_managers (pm : pool * list Manager) (c : coordinator) : coordinator :=
  mkCoordinator pm.1 pm.2 (use_eagle c) (kind c).

Definition for_managers {A} (body : nat -> M (pool * Manager) A) : M coordinator (list A) := fun c =>
  match each_manager body 0 (single_type_managers c) (block_pool c) with
  | Ret as_ pm => Ret as_ (set_pool_managers pm c)
  | Raise e pm => Raise e (set_pool_managers pm c)
  end.

Definition on_block_pool {A} (m : M pool A) : M coordinator A :=
  zoom block_pool (fun p c => set_pool_managers (p, single_type_managers c) c) m.

(** [new_computed_blocks[i]] *)
Definition nth_blocks (bss : list (list nat)) (i : nat) : result (list nat) :=
  match bss !! i with Some bs => Ok bs | None => Err IndexError end.

Fixpoint sum_blocks_to_allocate (p : pool) (ms : list Manager) (request_id : string) (num_tokens : Z)
    (new_computed_blocks : list (list nat)) (i : nat) : result Z :=
  match ms with
  | [] => Ok 0
  | m :: ms' =>
      bs ← nth_blocks new_computed_blocks i;
      rest ← sum_blocks_to_allocate p ms' request_id num_tokens new_computed_blocks (S i);
      mret (get_num_blocks_to_allocate p m request_id num_tokens bs + rest)
  end.

Definition coord_get_num_blocks_to_allocate (c : coordinator) (request_id : string) (num_tokens : Z)
    (new_computed_blocks : list (list nat)) : result Z :=
  sum_blocks_to_allocate (block_pool c) (single_type_managers c) request_id num_tokens new_computed_blocks 0.

Definition coord_save_new_computed_blocks (request_id : string) (new_computed_blocks : list (list nat))
    : M coordinator unit :=
  for_managers (fun i => bs ← lift_result (nth_blocks new_computed_blocks i);
                         on_manager (save_new_computed_blocks request_id bs));;
  mret tt.

Definition coord_allocate_new_blocks (request_id : string) (num_tokens : Z)
    : M coordinator (list (list nat)) :=
  for_managers (fun _ => allocate_new_blocks request_id num_tokens).

Definition coord_free (request_id : string) : M coordinator unit :=
  for_managers (fun _ => mgr_free request_id);; mret tt.

Definition coord_remove_skipped_blocks (request_id : string) (num_computed_tokens : Z)
    : M coordinator unit :=
  for_managers (fun _ => mgr_remove_skipped_blocks request_id num_computed_tokens);; mret tt.

Definition coord_get_num_common_prefix_blocks (c : coordinator) (request_id : string)
    (num_running_requests : Z) : list Z :=
  (fun m => mgr_get_num_common_prefix_blocks (block_pool c) m request_id num_running_requests)
    <$> single_type_managers c.

Definition get_blocks (c : coordinator) (request_id : string) : list (list nat) :=
  (fun m => req_blocks m request_id) <$> single_type_managers c.

(** [cache_blocks]: every manager may append to the same list of hashes. *)
Fixpoint each_cache (body : M (pool * Manager * list BlockHash) unit) (ms : list Manager)
    (p : pool) (bh : list BlockHash) : outcome (pool * list Manager * list BlockHash) unit :=
  match ms with
  | [] => Ret tt (p, [], bh)
  | m :: ms' =>
      match body (p, m, bh) with
      | Raise e (p', m', bh') => Raise e (p', m' :: ms', bh')
      | Ret _ (p', m', bh') =>
          match each_cache body ms' p' bh' with
          | Raise e (p'', ms'', bh'') => Raise e (p'', m' :: ms'', bh'')
          | Ret _ (p'', ms'', bh'') => Ret tt (p'', m' :: ms'', bh'')
          end
      end
  end.

Definition coord_cache_blocks (hash_fn : Z * list Z * option (list ExtraKey) -> Z) (NONE_HASH : Z)
    (request : Request) (num_computed_tokens : Z) : M (coordinator * list BlockHash) unit := fun s =>
  let '(c, bh) := s in
  match each_cache (mgr_cache_blocks hash_fn NONE_HASH request num_computed_tokens)
          (single_type_managers c) (block_pool c) bh with
  | Ret _ (p, ms, bh') => Ret tt (set_pool_managers (p, ms) c, bh')
  | Raise e (p, ms, bh') => Raise e (set_pool_managers (p, ms) c, bh')
  end.

(** *** Lookup *)

Definition unitary_find_longest_cache_hit (c : coordinator) (spec : KVCacheSpec)
    (block_hashes : list BlockHash) (max_cache_hit_length : Z) : result (list (list nat) * Z) :=
  hit_blocks ← find_longest_cache_hit spec block_hashes max_cache_hit_length [0]%nat
                 (block_pool c) (use_eagle c);
  n ← first_len hit_blocks;
  mret (hit_blocks, n * block_size spec).

Definition hybrid_find_longest_cache_hit (c : coordinator) (s : HybridSplit)
    (block_hashes : list BlockHash) (max_cache_hit_length : Z) : result (list (list nat) * Z) :=
  hit_blocks_full_attn ←
    full_find_longest_cache_hit block_hashes max_cache_hit_length (full_attention_group_ids s)
      (block_pool c) (full_attention_spec s) (use_eagle c);
  n_full ← first_len hit_blocks_full_attn;
  let full_bs := block_size (full_attention_spec s) in
  hit_blocks_other_attn ←
    find_longest_cache_hit (other_spec s) block_hashes (n_full * full_bs) (other_group_ids s)
      (block_pool c) (use_eagle c);
  n_other ← first_len hit_blocks_other_attn;
  let hit_length := n_other * block_size (other_spec s) in
  guard_or (hit_length mod full_bs =? 0) AssertionError;;
  let hit_blocks_full_attn := truncate (Z.to_nat (hit_length / full_bs)) hit_blocks_full_attn in
  mret (insert_all 0 hit_blocks_full_attn hit_blocks_other_attn, hit_length).

Definition coord_find_longest_cache_hit (c : coordinator) (block_hashes : list BlockHash)
    (max_cache_hit_length : Z) : result (list (list nat) * Z) :=
  match kind c with
  | Unitary spec => unitary_find_longest_cache_hit c spec block_hashes max_cache_hit_length
  | Hybrid split => hybrid_find_longest_cache_hit c split block_hashes max_cache_hit_length
  end.
End coordinator.

(** ** Accounting over all managers *)

Definition totals (ms : list Manager) (i : nat) : Z := foldr (fun m acc => held m i + acc) 0 ms.

Lemma totals_nonneg ms i : 0 <= totals ms i.
Proof.
  induction ms as [|m ms IH]; simpl; [lia|]. unfold held at 1.
  pose proof (occ_nonneg i (table_blocks (req_to_blocks m))). lia.
Qed.

Section accounting.
Context {Q : Type} `{FreeBlockQueueSpec Q}.
Abbreviation pool := (BlockPool Q).

(** The step of all managers together, see [delta_ok]. *)
Record deltas_ok (p p' : pool) (ms ms' : list Manager) : Prop := {
  ds_config : pool_config p' = pool_config p;
  ds_length : length (blocks p') = length (blocks p);
  ds_refs i : i <> null_block p -> refs p' i - refs p i = totals ms' i - totals ms i;
  ds_ids : Forall (ids_ok p) ms -> Forall (ids_ok p') ms';
  ds_same : (fun m => (mgr_spec m, SingleType.kv_cache_group_id m)) <$> ms' =
            (fun m => (mgr_spec m, SingleType.kv_cache_group_id m)) <$> ms
}.

Lemma deltas_ok_nil p : deltas_ok p p [] [].
Proof. split; (done || (intros; simpl; lia)). Qed.

Lemma deltas_ok_refl p ms : deltas_ok p p ms ms.
Proof. split; (done || (intros; lia)). Qed.

Lemma ids_ok_length (p p' : pool) m : length (blocks p') = length (blocks p) -> ids_ok p m -> ids_ok p' m.
Proof. intros E Hm i Hi. rewrite E. by apply Hm. Qed.

Lemma deltas_ok_cons p p1 p2 m m1 ms ms2 :
  delta_ok p p1 m m1 -> deltas_ok p1 p2 ms ms2 -> deltas_ok p p2 (m :: ms) (m1 :: ms2).
Proof.
  intros [A1 A2 A3 A4 [A5 A6]] [B1 B2 B3 B4 B5]. split; [congruence|congruence| | |].
  - intros i Hi. simpl. specialize (A3 i Hi). rewrite (config_null _ _ A1) in B3.
    specialize (B3 i Hi). lia.
  - intros [Hm Hms]%Forall_cons. constructor.
    + by eapply ids_ok_length, A4.
    + apply B4. eapply Forall_impl; [exact Hms|]. intros. by eapply ids_ok_length.
  - rewrite !fmap_cons, B5. by rewrite A5, A6.
Qed.

Lemma deltas_ok_trans p1 p2 p3 m1 m2 m3 :
  deltas_ok p1 p2 m1 m2 -> deltas_ok p2 p3 m2 m3 -> deltas_ok p1 p3 m1 m3.
Proof.
  intros [A1 A2 A3 A4 A5] [B1 B2 B3 B4 B5]. split; [congruence|congruence| |tauto|congruence].
  intros i Hi. specialize (A3 i Hi). rewrite (config_null _ _ A1) in B3. specialize (B3 i Hi). lia.
Qed.

(** The rule of the loops over the managers. *)
Lemma each_manager_rule {A} (body : nat -> M (pool * Manager) A)
    (Pre : nat -> pool -> list Manager -> Prop)
    (Post : nat -> pool -> list Manager -> list A -> pool -> list Manager -> Prop) :
  (forall i p, Pre i p [] -> Post i p [] [] p []) ->
  (forall i p m ms, Pre i p (m :: ms) ->
     wp (body i) (fun a '(p1, m1) => Pre (S i) p1 ms /\
       forall as_ p2 ms2, Post (S i) p1 ms as_ p2 ms2 -> Post i p (m :: ms) (a :: as_) p2 (m1 :: ms2))
       (p, m)) ->
  forall ms i p, Pre i p ms ->
  exists as_ p' ms', each_manager body i ms p = Ret as_ (p', ms') /\ Post i p ms as_ p' ms'.
Proof.
  intros Hnil Hcons. induction ms as [|m ms IH]; intros i p Hpre; simpl.
  { exists [], p, []. by auto. }
  destruct (wp_elim _ _ _ (Hcons i p m ms Hpre)) as (a & [p1 m1] & -> & Hpre1 & Hpost).
  destruct (IH (S i) p1 Hpre1) as (as_ & p2 & ms2 & -> & Hpost2). eauto 10.
Qed.

Lemma wp_for_managers {A} (body : nat -> M (pool * Manager) A) c (R : list A -> Coordinator Q -> Prop)
    (Post : list A -> pool -> list Manager -> Prop) :
  (exists as_ p' ms', each_manager body 0 (single_type_managers c) (block_pool c) = Ret as_ (p', ms') /\
     Post as_ p' ms') ->
  (forall as_ p' ms', Post as_ p' ms' -> R as_ (set_pool_managers (p', ms') c)) ->
  wp (for_managers body) R c.
Proof.
  intros (as_ & p' & ms' & E & HP) HR. unfold wp, for_managers. rewrite E. by apply HR.
Qed.

(** Tables of one request, by group. *)
Definition tables (ms : list Manager) (id : string) : list (list nat) :=
  (fun m => req_blocks m id) <$> ms.

Definition cached_nums (ms : list Manager) (id : string) : list (option Z) :=
  (fun m => num_cached_block m !! id) <$> ms.

Lemma tables_cons m ms id : tables (m :: ms) id = req_blocks m id :: tables ms id.
Proof. done. Qed.
Lemma cached_nums_cons m ms id : cached_nums (m :: ms) id = num_cached_block m !! id :: cached_nums ms id.
Proof. done. Qed.
#[local] Arguments tables : simpl never.
#[local] Arguments cached_nums : simpl never.

(** *** Allocation by all managers *)

(** The number of new blocks a table of length [n] needs. *)
Definition blocks_needed (m : Manager) (id : string) (num_tokens : Z) : nat :=
  Z.to_nat (cdiv num_tokens (mgr_block_size m) - len (req_blocks m id)).

Definition total_needed (ms : list Manager) (id : string) (num_tokens : Z) : nat :=
  foldr (fun m acc => (blocks_needed m id num_tokens + acc)%nat) 0%nat ms.

Lemma each_allocate id num_tokens ms : forall i p l,
  pool_inv p l -> (total_needed ms id num_tokens <= length l)%nat ->
  exists new p' ms',
    each_manager (fun _ => allocate_new_blocks id num_tokens) i ms p = Ret new (p', ms') /\
    pool_inv p' (drop (total_needed ms id num_tokens) l) /\ deltas_ok p p' ms ms' /\
    concat new = take (total_needed ms id num_tokens) l /\
    length new = length ms /\
    tables ms' id = zip_with (++) (tables ms id) new /\
    Forall2 (fun m bs => length bs = blocks_needed m id num_tokens) ms new /\
    (forall id', id' <> id -> tables ms' id' = tables ms id') /\
    (forall id', cached_nums ms' id' = cached_nums ms id').
Proof.
  induction ms as [|m ms IH]; intros i p l Hp Hn; simpl in *.
  { exists [], p, []. split_and!; (done || apply deltas_ok_nil || constructor). }
  assert (Hm : cdiv num_tokens (mgr_block_size m) - len (req_blocks m id) <= len l).
  { unfold blocks_needed in *. unfold len in *. lia. }
  destruct (wp_elim _ _ _ (wp_allocate_new_blocks p m l id num_tokens Hp Hm))
    as (new & [p1 m1] & -> & -> & Hp1 & Hd & Ht & Hother & Hnum).
  fold (blocks_needed m id num_tokens) in *. set (k := blocks_needed m id num_tokens) in *.
  destruct (IH (S i) p1 _ Hp1)
    as (news & p2 & ms2 & -> & Hp2 & Hds & Hcat & Hlen & Hts & Hneed & Hothers & Hnums);
    [rewrite length_drop; lia|].
  eexists _, p2, _. split; [done|]. rewrite drop_drop in Hp2.
  split_and!; [done|by eapply deltas_ok_cons| |simpl; lia| | | |].
  - simpl. rewrite Hcat. by rewrite take_drop_app.
  - by rewrite !tables_cons, Ht, Hts.
  - constructor; [|done]. rewrite length_take. lia.
  - intros id' Hne. by rewrite !tables_cons, Hothers, Hother.
  - intros id'. by rewrite !cached_nums_cons, Hnums, Hnum.
Qed.
(** *** Removing skipped blocks *)

(** What the references of a request need: each is counted on its block. *)
Definition counted (p : pool) (ms : list Manager) : Prop :=
  forall i, i <> null_block p -> totals ms i <= refs p i.

Lemma counted_cons p m ms id i :
  counted p (m :: ms) -> i <> null_block p -> occ i (req_blocks m id) <= refs p i.
Proof.
  intros Hc Hi. specialize (Hc i Hi). simpl in Hc. pose proof (held_ge m id i).
  pose proof (totals_nonneg ms i). lia.
Qed.

Lemma counted_tail p p1 m m1 ms :
  counted p (m :: ms) -> delta_ok p p1 m m1 -> counted p1 ms.
Proof.
  intros Hc [A1 _ A3 _ _] i Hi. rewrite (config_null _ _ A1) in Hi. specialize (Hc i Hi).
  specialize (A3 i Hi). simpl in Hc. unfold held in *.
  pose proof (occ_nonneg i (table_blocks (req_to_blocks m1))). lia.
Qed.

(** The tables are long enough for the windows. *)
Definition window_ok (num_computed_tokens : Z) (id : string) (m : Manager) : Prop :=
  forall sw, mgr_spec m = SlidingWindowSpec (attention_spec (mgr_spec m)) sw ->
    (last_useful_block m sw num_computed_tokens <= length (req_blocks m id))%nat.

Lemma each_remove_skipped id n ms : forall i p,
  (exists l, pool_inv p l) -> Forall (ids_ok p) ms -> counted p ms -> Forall (window_ok n id) ms ->
  exists us p' ms',
    each_manager (fun _ => mgr_remove_skipped_blocks id n) i ms p = Ret us (p', ms') /\
    (exists l', pool_inv p' l') /\ deltas_ok p p' ms ms' /\
    Forall2 (given_up (null_block p) n id) ms (tables ms' id) /\
    (forall id', id' <> id -> tables ms' id' = tables ms id') /\
    (forall id', cached_nums ms' id' = cached_nums ms id').
Proof.
  induction ms as [|m ms IH]; intros i p [l Hp] Hids Hc Hw; simpl.
  { exists [], p, []. split_and!; (done || apply deltas_ok_nil || constructor || eauto). }
  apply Forall_cons in Hids as [Hid Hids], Hw as [Hwm Hw].
  destruct (wp_elim _ _ _ (wp_mgr_remove_skipped p m l id n Hp Hid
    (fun i Hi => counted_cons p m ms id i Hc Hi) Hwm))
    as ([] & [p1 m1] & -> & Hp1 & Hd & Hnum & Hlen & Hother).
  destruct (IH (S i) p1 Hp1) as (us & p2 & ms2 & -> & Hp2 & Hds & Hlens & Hothers & Hnums).
  { eapply Forall_impl; [exact Hids|]. intros m'. apply ids_ok_length, Hd. }
  { by eapply counted_tail. }
  { done. }
  eexists _, p2, _. split; [done|]. split_and!; [done|by eapply deltas_ok_cons| | |].
  - rewrite tables_cons. constructor; [done|]. by rewrite <- (config_null _ _ (dl_config _ _ _ _ Hd)).
  - intros id' Hne. by rewrite !tables_cons, Hothers, Hother.
  - intros id'. by rewrite !cached_nums_cons, Hnums, Hnum.
Qed.

Lemma given_up_lengths null n id ms bss :
  Forall2 (given_up null n id) ms bss -> length <$> bss = length <$> tables ms id.
Proof.
  induction 1 as [|m bs ms bss Hg _ IH]; [done|].
  by rewrite tables_cons, !fmap_cons, IH, (gu_length _ _ _ _ _ Hg).
Qed.

(** *** Freeing *)

Lemma each_free id ms : forall i p,
  (exists l, pool_inv p l) -> Forall (ids_ok p) ms -> counted p ms ->
  exists us p' ms',
    each_manager (fun _ => mgr_free id) i ms p = Ret us (p', ms') /\
    (exists l', pool_inv p' l') /\ deltas_ok p p' ms ms' /\
    cached_block_hash_to_block p' = cached_block_hash_to_block p /\
    tables ms' id = replicate (length ms) [] /\ cached_nums ms' id = replicate (length ms) None /\
    (forall id', id' <> id -> tables ms' id' = tables ms id' /\ cached_nums ms' id' = cached_nums ms id').
Proof.
  induction ms as [|m ms IH]; intros i p [l Hp] Hids Hc; simpl.
  { exists [], p, []. split_and!; (done || apply deltas_ok_nil || eauto). }
  apply Forall_cons in Hids as [Hid Hids].
  destruct (wp_elim _ _ _ (wp_mgr_free p m l id Hp Hid
    (fun i Hi => counted_cons p m ms id i Hc Hi)))
    as ([] & [p1 m1] & -> & Hp1 & Hd & Hca & Ht & Hn & Hother).
  destruct (IH (S i) p1 Hp1) as (us & p2 & ms2 & -> & Hp2 & Hds & Hcas & Hts & Hns & Hothers).
  { eapply Forall_impl; [exact Hids|]. intros m'. apply ids_ok_length, Hd. }
  { by eapply counted_tail. }
  eexists _, p2, _. split; [done|]. split_and!; [done|by eapply deltas_ok_cons|congruence| | |].
  - by rewrite tables_cons, Ht, Hts.
  - by rewrite cached_nums_cons, Hn, Hns.
  - intros id' Hne. destruct (Hother id' Hne) as [E1 E2], (Hothers id' Hne) as [E3 E4].
    by rewrite !tables_cons, !cached_nums_cons, E1, E2, E3, E4.
Qed.

(** *** Saving the hits *)

(** A request that is tracked gets no new hits, an untracked one has no blocks. *)
Definition save_ok (id : string) (m : Manager) (bs : list nat) : Prop :=
  (num_cached_block m !! id = None -> req_blocks m id = []) /\
  (is_Some (num_cached_block m !! id) -> bs = []).

Definition saves (id : string) (new : list (list nat)) (i : nat) : M (pool * Manager) unit :=
  bs ← lift_result (nth_blocks new i); on_manager (save_new_computed_blocks id bs).

Lemma each_save id p ms : forall i pre new,
  Forall2 (save_ok id) ms new -> length pre = i ->
  exists us ms',
    each_manager (saves id (pre ++ new)) i ms p = Ret us (p, ms') /\
    (forall j, totals ms' j = totals ms j + occ j (concat new)) /\
    tables ms' id = zip_with (++) (tables ms id) new /\
    Forall is_Some (cached_nums ms' id) /\
    (forall id', id' <> id -> tables ms' id' = tables ms id' /\ cached_nums ms' id' = cached_nums ms id') /\
    (fun m => (mgr_spec m, SingleType.kv_cache_group_id m)) <$> ms' =
    (fun m => (mgr_spec m, SingleType.kv_cache_group_id m)) <$> ms.
Proof.
  induction ms as [|m ms IH]; intros i pre new Hok Hi.
  { apply Forall2_nil_inv_l in Hok as ->. exists [], []. split_and!; [done| |done|constructor|done|done].
    intros j. change (occ j (concat [])) with 0. lia. }
  apply Forall2_cons_inv_l in Hok as (bs & new' & [Hnew Hold] & Hok & ->). simpl.
  unfold saves at 1, mbind, M_mbind, M_bind, lift_result, nth_blocks.
  rewrite list_lookup_middle by done. unfold on_manager, zoom. simpl.
  destruct (wp_elim _ _ _ (wp_save_new_computed_blocks m id bs Hnew Hold))
    as ([] & m1 & -> & Hh & Ht & Hn & Hother & Es & Eg). simpl.
  destruct (IH (S i) (pre ++ [bs]) new' Hok) as (us & ms2 & E & Hhs & Hts & Hns & Hothers & Ess);
    [rewrite length_app; simpl; lia|].
  rewrite <- app_assoc in E. simpl in E. rewrite E. eexists _, _. split; [done|]. split_and!.
  - intros j. simpl. rewrite Hh, Hhs, occ_app. lia.
  - by rewrite !tables_cons, Ht, Hts.
  - rewrite cached_nums_cons. by constructor.
  - intros id' Hne. destruct (Hother id' Hne) as [E1 E2], (Hothers id' Hne) as [E3 E4].
    by rewrite !tables_cons, !cached_nums_cons, E1, E2, E3, E4.
  - by rewrite !fmap_cons, Ess, Es, Eg.
Qed.

(** *** Caching: whatever the outcome, no reference moves *)

Lemma each_cache_always hash_fn NONE_HASH request n l ms : forall p bh,
  pool_inv p l -> enable_caching p = true -> Forall (ids_ok p) ms ->
  match each_cache (mgr_cache_blocks hash_fn NONE_HASH request n) ms p bh with
  | Ret _ (p', ms', _) | Raise _ (p', ms', _) =>
      recached p l p' /\ req_to_blocks <$> ms' = req_to_blocks <$> ms /\
      (fun m => (mgr_spec m, SingleType.kv_cache_group_id m)) <$> ms' =
      (fun m => (mgr_spec m, SingleType.kv_cache_group_id m)) <$> ms /\
      (forall id', id' <> request_id request -> cached_nums ms' id' = cached_nums ms id') /\
      (Forall is_Some (cached_nums ms (request_id request)) ->
       Forall is_Some (cached_nums ms' (request_id request)))
  end.
Proof.
  induction ms as [|m ms IH]; intros p bh Hp Hc Hids; simpl; [done|].
  apply Forall_cons in Hids as [Hid Hids].
  pose proof (mgr_cache_blocks_always hash_fn NONE_HASH request n p m l bh Hp Hc Hid) as Ha.
  unfold always in Ha.
  destruct (mgr_cache_blocks hash_fn NONE_HASH request n (p, m, bh)) as [[] [[p1 m1] bh1]|e [[p1 m1] bh1]];
    destruct Ha as (Hrec & Ht & Es & Eg & Hnum & Hkeep).
  - pose proof Hrec as (Hp1 & Ecfg & _).
    specialize (IH p1 bh1 Hp1).
    assert (enable_caching p1 = true) as Hc1 by (unfold pool_config in Ecfg; congruence).
    assert (Forall (ids_ok p1) ms) as Hids1.
    { eapply Forall_impl; [exact Hids|]. intros m'. apply ids_ok_length. by eapply recached_length. }
    specialize (IH Hc1 Hids1).
    assert (Htr : forall p2, recached p1 l p2 -> recached p l p2).
    { intros p2 (A & B & C). destruct Hrec as (_ & B' & C'). split_and!; [done|congruence|congruence]. }
    destruct (each_cache _ ms p1 bh1) as [[] [[p2 ms2] bh2]|e [[p2 ms2] bh2]];
      destruct IH as (H2 & Hts & Ess & Hnums & Hkeeps);
      (split_and!; [by apply Htr|by rewrite !fmap_cons, Ht, Hts|by rewrite !fmap_cons, Es, Eg, Ess| |]).
    all: try (intros id' Hne; by rewrite !cached_nums_cons, Hnum, Hnums).
    all: rewrite !cached_nums_cons; intros [? ?]%Forall_cons; constructor; auto.
  - split_and!; [done|by rewrite !fmap_cons, Ht|by rewrite !fmap_cons, Es, Eg| |].
    + intros id' Hne. by rewrite !cached_nums_cons, Hnum.
    + rewrite !cached_nums_cons. intros [? ?]%Forall_cons. constructor; auto.
Qed.
End accounting.

(** ** The hybrid lookup *)

Lemma insert_all_app {A} (xs : list A) : forall pre ys,
  insert_all (length pre) xs (pre ++ ys) = pre ++ xs ++ ys.
Proof.
  induction xs as [|x xs IH]; intros pre ys; simpl; [done|].
  unfold py_insert. rewrite take_app_length, drop_app_length.
  specialize (IH (pre ++ [x]) ys). rewrite length_app, Nat.add_1_r, <- !app_assoc in IH. exact IH.
Qed.

Section hybrid.
Context {Q : Type} `{FreeBlockQueueSpec Q}.
Abbreviation pool := (BlockPool Q).

Lemma cols_ok_first ng k cols : cols_ok ng k cols -> (0 < ng)%nat -> first_len cols = Ok (Z.of_nat k).
Proof.
  intros [Hl Hk] Hng. destruct cols as [|l cols]; [simpl in Hl; lia|].
  apply Forall_cons in Hk as [Hk _]. simpl. unfold len. by rewrite Hk.
Qed.

(** What any lookup returns, whichever the attention type. *)
Lemma find_longest_cache_hit_cols spec bhs max_length gs (p : pool) eagle :
  gs <> [] -> (max_blocks spec max_length <= length bhs)%nat ->
  exists k res, find_longest_cache_hit spec bhs max_length gs p eagle = Ok res /\
    cols_ok (length gs) k res /\ (k <= max_blocks spec max_length)%nat.
Proof.
  intros Hgs Hlen. assert (0 < length gs)%nat by (destruct gs; [done|simpl; lia]).
  destruct spec as [a w|a sw]; simpl.
  - unfold full_find_longest_cache_hit. simpl.
    destruct (full_hit_loop_spec p bhs gs (max_blocks (FullAttentionSpec a w) max_length) 0 (replicate (length gs) []))
      as (k & res & E & Hk & Hc & _); [done|lia| |intros; lia|].
    { split; [by rewrite length_replicate|]. by apply Forall_replicate. }
    unfold max_blocks in E. rewrite E. simpl. rewrite (drop_last_spec _ _ _ _ Hc) by done.
    eexists _, _. split; [done|]. split; [eapply cols_ok_truncate; [done|]|]; destruct eagle; lia.
  - destruct (sliding_hit_loop_spec p bhs gs
      (Z.max 1 (sliding_window_contiguous_blocks sw (block_size (SlidingWindowSpec a sw)) eagle))
      (max_blocks (SlidingWindowSpec a sw) max_length) (max_blocks (SlidingWindowSpec a sw) max_length) 0
      (replicate (length gs) (replicate (max_blocks (SlidingWindowSpec a sw) max_length) (null_block p))))
      as (k & res & E & Hk & Hres & _); [done|done|lia|apply sliding_inv_start; lia|].
    rewrite sliding_need_max in E. unfold max_blocks in E. rewrite E. simpl.
    rewrite (drop_last_spec _ _ _ _ (proj1 Hres)) by done.
    eexists _, _. split; [done|]. split; [eapply cols_ok_truncate; [apply Hres|]|]; destruct eagle; lia.
Qed.

(** C33: the hybrid lookup never raises on hashes that cover the length, and
    returns one list per group in the order full-attention groups, then the
    others: the position in the result is the group id only when the
    full-attention groups come first.  The hit is within the limit, a multiple
    of both block sizes, and the full-attention blocks are cached prefix blocks. *)
Theorem hybrid_find_longest_cache_hit_spec (c : Coordinator Q) (s : HybridSplit) bhs max_length :
  full_attention_group_ids s <> [] -> other_group_ids s <> [] ->
  is_full_attention (full_attention_spec s) = true ->
  0 < block_size (full_attention_spec s) -> 0 < block_size (other_spec s) ->
  block_size (other_spec s) mod block_size (full_attention_spec s) = 0 -> 0 <= max_length ->
  (max_blocks (full_attention_spec s) max_length <= length bhs)%nat ->
  exists full other hit_length,
    hybrid_find_longest_cache_hit c s bhs max_length = Ok (full ++ other, hit_length) /\
    0 <= hit_length <= max_length /\
    cols_ok (length (full_attention_group_ids s))
      (Z.to_nat (hit_length / block_size (full_attention_spec s))) full /\
    cols_ok (length (other_group_ids s)) (Z.to_nat (hit_length / block_size (other_spec s))) other /\
    hit_length mod block_size (other_spec s) = 0 /\
    hit_length mod block_size (full_attention_spec s) = 0 /\
    (forall i, (i < Z.to_nat (hit_length / block_size (full_attention_spec s)))%nat ->
       exists row, row_at (block_pool c) bhs (full_attention_group_ids s) i = Some row /\ has_row full i row).
Proof.
  intros Hf Ho Hfull Hb1 Hb2 Hmod Hm0 Hlen. unfold hybrid_find_longest_cache_hit.
  assert (0 < length (full_attention_group_ids s))%nat by (destruct (full_attention_group_ids s); [done|simpl; lia]).
  assert (0 < length (other_group_ids s))%nat by (destruct (other_group_ids s); [done|simpl; lia]).
  set (b1 := block_size (full_attention_spec s)) in *. set (b2 := block_size (other_spec s)) in *.
  unfold full_find_longest_cache_hit. rewrite Hfull. simpl. fold b1.
  destruct (full_hit_loop_spec (block_pool c) bhs (full_attention_group_ids s)
    (max_blocks (full_attention_spec s) max_length) 0 (replicate (length (full_attention_group_ids s)) []))
    as (k & res & E & Hk & Hc & Hrows & _); [done|lia| |intros; lia|].
  { split; [by rewrite length_replicate|]. by apply Forall_replicate. }
  unfold max_blocks in E, Hk, Hlen. fold b1 in E, Hk, Hlen. rewrite E. simpl.
  rewrite (drop_last_spec _ _ _ _ Hc) by done. simpl.
  set (k1 := if use_eagle c then (k - 1)%nat else k). assert (k1 <= k)%nat by (unfold k1; destruct (use_eagle c); lia).
  pose proof (cols_ok_truncate _ _ k1 _ Hc ltac:(done)) as Hc1. rewrite (cols_ok_first _ _ _ Hc1) by done. simpl.
  pose proof (Z.mul_div_le max_length b1 Hb1).
  assert (Hk1 : Z.of_nat k1 <= max_length / b1).
  { pose proof (Z.div_pos max_length b1 Hm0 Hb1). lia. }
  assert (Hdiv : b2 = b1 * (b2 / b1)) by (pose proof (Z.div_mod b2 b1 ltac:(lia)); lia).
  assert (Hb12 : b1 <= b2) by (assert (1 <= b2 / b1) by nia; nia).
  destruct (find_longest_cache_hit_cols (other_spec s) bhs (Z.of_nat k1 * b1) (other_group_ids s)
    (block_pool c) (use_eagle c)) as (k2 & res2 & E2 & Hc2 & Hk2); [done| |].
  { unfold max_blocks. fold b2. assert (Z.of_nat k1 * b1 / b2 <= Z.of_nat k1); [|lia].
    apply Z.div_le_upper_bound; nia. }
  fold b1 in E2. rewrite E2. simpl. rewrite (cols_ok_first _ _ _ Hc2) by done. simpl.
  unfold max_blocks in Hk2. fold b2 in Hk2. pose proof (Z.mul_div_le (Z.of_nat k1 * b1) b2 Hb2).
  assert (Hk2' : Z.of_nat k2 * b2 <= Z.of_nat k1 * b1) by nia.
  assert (Hm1 : (Z.of_nat k2 * b2) mod b1 = 0)
    by (rewrite Hdiv; replace (Z.of_nat k2 * (b1 * (b2 / b1))) with (Z.of_nat k2 * (b2 / b1) * b1) by lia;
        apply Z.mod_mul; lia).
  rewrite Hm1. simpl. set (n := Z.to_nat (Z.of_nat k2 * b2 / b1)).
  assert (Hn : (n <= k1)%nat).
  { assert (Z.of_nat k2 * b2 / b1 <= Z.of_nat k1); [|lia]. apply Z.div_le_upper_bound; lia. }
  pose proof (insert_all_app (truncate n (truncate k1 res)) [] res2) as Ei. simpl in Ei. rewrite Ei.
  eexists _, _, _. split; [done|]. split_and!; [nia|nia| | |by apply Z.mod_mul; lia|done|].
  - by eapply cols_ok_truncate.
  - rewrite Z.div_mul, Nat2Z.id by lia. done.
  - fold n. intros i Hi. destruct (Hrows i ltac:(lia)) as (row & Er & Hr). exists row. split; [done|].
    apply has_row_truncate; [done|]. apply has_row_truncate; [lia|done].
Qed.
End hybrid.

(** A full-attention group 0 and a sliding-window group 1 of block size 2. *)
Definition sample_split (full other : nat) : HybridSplit :=
  mkHybridSplit [full] [other] (FullAttentionSpec sample_attention None) (SlidingWindowSpec sample_attention 3).

Definition sample_hybrid (split : HybridSplit) : Coordinator FreeKVCacheBlockQueue.t :=
  mkCoordinator
    (mkBlockPool 3 true [] (FreeKVCacheBlockQueue.mk 0 None None)
      {[mkBlockHashWithGroupId (mkBlockHash 5 [1; 2] None) 0 := [1]%nat;
        mkBlockHashWithGroupId (mkBlockHash 5 [1; 2] None) 1 := [2]%nat]} 0 false [])
    [] false (Hybrid split).

Lemma hybrid_find_longest_cache_hit_spec_witness :
  (** Group 0 full: result in group order.  Group 1 full: the lists are swapped. *)
  hybrid_find_longest_cache_hit (sample_hybrid (sample_split 0 1)) (sample_split 0 1) sample_hashes 5
    = Ok ([[1]; [2]]%nat, 2) /\
  hybrid_find_longest_cache_hit (sample_hybrid (sample_split 1 0)) (sample_split 1 0) sample_hashes 5
    = Ok ([[2]; [1]]%nat, 2) /\
  exists full other hit_length,
    hybrid_find_longest_cache_hit (sample_hybrid (sample_split 1 0)) (sample_split 1 0) sample_hashes 5
      = Ok (full ++ other, hit_length) /\ 0 <= hit_length <= 5.
Proof.
  split; [vm_compute; reflexivity|]. split; [vm_compute; reflexivity|].
  destruct (hybrid_find_longest_cache_hit_spec (sample_hybrid (sample_split 1 0)) (sample_split 1 0)
    sample_hashes 5) as (full & other & n & E & Hn & _);
    [discriminate|discriminate|reflexivity|reflexivity|reflexivity|reflexivity|lia
    |vm_compute; repeat constructor|].
  exists full, other, n. split; [exact E|exact Hn].
Defined.
