(* ===== verification/KVManager.v ===== *)
(** The KV-cache manager of [vllm/v1/core/kv_cache_manager.py]: what the
    scheduler calls to look up cached blocks, allocate slots and free them. *)

From Stdlib Require Import ZArith Lia.
From stdpp Require Import base strings numbers gmap list.
From S2P Require Import Prelude.
From S2P Require Import KVBlock.
From S2P Require Import FreeQueue.
From S2P Require Import LinkedQueue.
From S2P Require Import HPUQueue.
From S2P Require Import Request.
From S2P Require Import BlockHashing.
From S2P Require Import KVSpec.
From S2P Require Import BlockPool.
From S2P Require Import SingleType.
From S2P Require Import Coordinator.

Open Scope Z_scope.

(** [PrefixCacheStats] of [vllm/v1/metrics/stats.py]. *)
Record PrefixCacheStats := mkPrefixCacheStats {
  stats_reset : bool;
  requests : Z;
  queries : Z;
  hits : Z
}.
Definition empty_stats : PrefixCacheStats := mkPrefixCacheStats false 0 0 0.

(** [KVCacheBlocks.__add__], [get_block_ids] (the identity on ids) and
    [get_unhashed_block_ids]. *)
Definition KVCacheBlocks_add (a b : list (list nat)) : list (list nat) := zip_with (++) a b.
Definition get_unhashed_block_ids (store : list KVCacheBlock) (bss : list (list nat))
    : result (list nat) :=
  match bss with
  | [bs] => Ok (filter (fun i => _block_hash (obj store i) = None) bs)
  | _ => Err AssertionError
  end.

(** *** Rolling prefix-cache metrics ([PrefixCachingMetrics] of kv_cache_utils.py) *)

Record PrefixCachingMetrics := mkMetrics {
  max_recent_requests : Z;
  aggregated_requests : Z;
  aggregated_query_total : Z;
  aggregated_query_hit : Z;
  query_queue : list (Z * Z * Z)
}.

Definition init_metrics (max_recent_requests : Z) : PrefixCachingMetrics :=
  mkMetrics max_recent_requests 0 0 0 [].

Definition reset_metrics (m : PrefixCachingMetrics) : PrefixCachingMetrics :=
  mkMetrics (max_recent_requests m) 0 0 0 [].

Definition observe (stats : PrefixCacheStats) (m : PrefixCachingMetrics) : PrefixCachingMetrics :=
  let m := if stats_reset stats then reset_metrics m else m in
  let queue := query_queue m ++ [(requests stats, queries stats, hits stats)] in
  let reqs := aggregated_requests m + requests stats in
  let total := aggregated_query_total m + queries stats in
  let hit := aggregated_query_hit m + hits stats in
  if max_recent_requests m <? reqs then
    match queue with
    | (old_requests, old_queries, old_hits) :: queue' =>
        mkMetrics (max_recent_requests m) (reqs - old_requests) (total - old_queries) (hit - old_hits) queue'
    | [] => mkMetrics (max_recent_requests m) reqs total hit queue
    end
  else mkMetrics (max_recent_requests m) reqs total hit queue.

(** [hit_rate] as an exact fraction (the code returns the float quotient). *)
Definition hit_rate (m : PrefixCachingMetrics) : Z * Z :=
  if aggregated_query_total m =? 0 then (0, 1)
  else (aggregated_query_hit m, aggregated_query_total m).

(** The aggregates are the sums over the recent observations. *)
Definition total_of (f : Z * Z * Z -> Z) (q : list (Z * Z * Z)) : Z := foldr (fun x acc => f x + acc) 0 q.

Record metrics_inv (m : PrefixCachingMetrics) : Prop := {
  me_requests : aggregated_requests m = total_of (fun x => x.1.1) (query_queue m);
  me_total : aggregated_query_total m = total_of (fun x => x.1.2) (query_queue m);
  me_hit : aggregated_query_hit m = total_of (fun x => x.2) (query_queue m);
  me_hits : Forall (fun x => 0 <= x.2 <= x.1.2) (query_queue m)
}.

Lemma total_of_app f q r : total_of f (q ++ r) = total_of f q + total_of f r.
Proof. induction q as [|x q IH]; simpl; [done|]. unfold total_of in *. simpl. lia. Qed.

Lemma total_of_nil f : total_of f [] = 0.
Proof. done. Qed.

Lemma total_of_cons f x q : total_of f (x :: q) = f x + total_of f q.
Proof. done. Qed.

Lemma reset_metrics_inv m : metrics_inv (reset_metrics m).
Proof. by split. Qed.

Lemma observe_keeps stats m : 0 <= hits stats <= queries stats -> metrics_inv m -> metrics_inv (observe stats m).
Proof.
  intros Hs Hm. unfold observe.
  assert (Hm' : metrics_inv (if stats_reset stats then reset_metrics m else m))
    by (destruct (stats_reset stats); [apply reset_metrics_inv|done]).
  destruct (if stats_reset stats then reset_metrics m else m) as [mx reqs total hit queue].
  destruct Hm' as [E1 E2 E3 Hh]. simpl in *.
  assert (Hh' : Forall (fun x : Z * Z * Z => 0 <= x.2 <= x.1.2) (queue ++ [(requests stats, queries stats, hits stats)]))
    by (apply Forall_app; split; [done|by constructor]).
  assert (Ht : forall f, total_of f (queue ++ [(requests stats, queries stats, hits stats)]) =
    total_of f queue + f (requests stats, queries stats, hits stats)).
  { intros f. rewrite total_of_app. unfold total_of at 2. simpl. lia. }
  pose proof (Ht (fun x => x.1.1)) as T1. pose proof (Ht (fun x => x.1.2)) as T2. pose proof (Ht (fun x => x.2)) as T3.
  destruct (mx <? _).
  - destruct (queue ++ _) as [|[[a b] c] queue'].
    { rewrite total_of_nil in T1, T2, T3. simpl in T1, T2, T3. split; simpl; [lia|lia|lia|constructor]. }
    rewrite total_of_cons in T1, T2, T3. simpl in T1, T2, T3.
    apply Forall_cons in Hh' as [_ Hh']. split; simpl; [lia|lia|lia|done].
  - simpl in T1, T2, T3. split; simpl; [lia|lia|lia|done].
Qed.

(** Prefix-cache metrics.  After every observation the aggregates are the sums
    over the observations still in the window, so the hit rate is a fraction
    between zero and one. *)
Theorem observe_spec stats m :
  0 <= hits stats <= queries stats -> metrics_inv m ->
  metrics_inv (observe stats m) /\
  let '(num, den) := hit_rate (observe stats m) in 0 <= num <= den /\ 0 < den.
Proof.
  intros Hs Hm. pose proof (observe_keeps stats m Hs Hm) as Hm'. split; [done|].
  destruct Hm' as [_ E2 E3 Hh]. unfold hit_rate.
  assert (Hle : 0 <= total_of (fun x => x.2) (query_queue (observe stats m)) <=
    total_of (fun x => x.1.2) (query_queue (observe stats m))).
  { clear -Hh. induction Hh as [|x q Hx _ IH]; unfold total_of in *; simpl; lia. }
  destruct (_ =? 0) eqn:E; lia.
Qed.

Lemma observe_spec_witness : metrics_inv (observe (mkPrefixCacheStats false 1 10 4) (init_metrics 1000)).
Proof. apply (observe_spec (mkPrefixCacheStats false 1 10 4) (init_metrics 1000)); [simpl; lia|by split]. Defined.

(** *** The manager *)

Record KVCacheManager (Q : Type) := mkKVCacheManager {
  kv_max_model_len : Z;
  kv_enable_caching : bool;
  kv_log_stats : bool;
  prefix_cache_stats : option PrefixCacheStats;
  kv_block_size : Z;
  coordinator : Coordinator Q;
  num_kv_cache_groups : nat;
  req_to_block_hashes : gmap string (list BlockHash)
}.
Arguments mkKVCacheManager {Q}.
Arguments kv_max_model_len {Q}.
Arguments kv_enable_caching {Q}.
Arguments kv_log_stats {Q}.
Arguments prefix_cache_stats {Q}.
Arguments kv_block_size {Q}.
Arguments coordinator {Q}.
Arguments num_kv_cache_groups {Q}.
Arguments req_to_block_hashes {Q}.

Section kv_manager.
Context {Q : Type} `{FreeBlockQueue Q}.
Abbreviation kvm := (KVCacheManager Q).

Definition set_coordinator (c : Coordinator Q) (k : kvm) : kvm :=
  mkKVCacheManager (kv_max_model_len k) (kv_enable_caching k) (kv_log_stats k) (prefix_cache_stats k)
    (kv_block_size k) c (num_kv_cache_groups k) (req_to_block_hashes k).
Definition set_stats (s : option PrefixCacheStats) (k : kvm) : kvm :=
  mkKVCacheManager (kv_max_model_len k) (kv_enable_caching k) (kv_log_stats k) s
    (kv_block_size k) (coordinator k) (num_kv_cache_groups k) (req_to_block_hashes k).
Definition set_hashes (t : gmap string (list BlockHash)) (k : kvm) : kvm :=
  mkKVCacheManager (kv_max_model_len k) (kv_enable_caching k) (kv_log_stats k) (prefix_cache_stats k)
    (kv_block_size k) (coordinator k) (num_kv_cache_groups k) t.

Definition on_coordinator {A} (m : M (Coordinator Q) A) : M kvm A := zoom coordinator set_coordinator m.

(** [__init__]; the hash function is a parameter of the methods that use it. *)
Definition init_kv_cache_manager (config : KVCacheConfig) (max_model_len : Z)
    (enable_caching use_eagle log_stats enable_kv_cache_events : bool) : result kvm :=
  match remove_dups ((fun g => block_size (kv_cache_spec g)) <$> kv_cache_groups config) with
  | [bs] =>
      c ← get_kv_cache_coordinator config use_eagle enable_caching enable_kv_cache_events;
      mret (mkKVCacheManager max_model_len enable_caching log_stats
        (if log_stats then Some empty_stats else None) bs c (length (kv_cache_groups config)) ∅)
  | _ => Err AssertionError
  end.

Definition create_empty_block_list (k : kvm) : list (list nat) := replicate (num_kv_cache_groups k) [].

Definition make_prefix_cache_stats : M kvm (option PrefixCacheStats) :=
  k ← get_state;
  if negb (kv_log_stats k) then mret None
  else modify (set_stats (Some empty_stats));; mret (prefix_cache_stats k).

(** Updates of [self.prefix_cache_stats], which is asserted to be there. *)
Definition upd_stats (f : PrefixCacheStats -> PrefixCacheStats) : M kvm unit :=
  k ← get_state;
  if kv_log_stats k then
    match prefix_cache_stats k with
    | Some s => modify (set_stats (Some (f s)))
    | None => raise AssertionError
    end
  else mret tt.

Section hash.
Context (hash_fn : Z * list Z * option (list ExtraKey) -> Z) (NONE_HASH : Z).

Definition get_computed_blocks (request : Request) : M kvm (list (list nat) * Z) :=
  k ← get_state;
  if negb (kv_enable_caching k) || bool_decide (is_Some (prompt_logprobs (sampling_params request)))
  then mret (create_empty_block_list k, 0)
  else
    let known := dd_get (req_to_block_hashes k) (request_id request) in
    block_hashes ←
      (if (length known =? 0)%nat then
         hs ← lift_result (hash_request_tokens hash_fn NONE_HASH (kv_block_size k) request);
         modify (fun k => set_hashes (<[request_id request := hs]> (req_to_block_hashes k)) k);;
         mret hs
       else mret known);
    upd_stats (fun s => mkPrefixCacheStats (stats_reset s) (requests s + 1) (queries s) (hits s));;
    let max_cache_hit_length := num_tokens request - 1 in
    k ← get_state;
    '(computed_blocks, num_new_computed_tokens) ←
      lift_result (coord_find_longest_cache_hit (coordinator k) block_hashes max_cache_hit_length);
    upd_stats (fun s => mkPrefixCacheStats (stats_reset s) (requests s)
      (queries s + num_tokens request) (hits s + num_new_computed_tokens));;
    mret (computed_blocks, num_new_computed_tokens).

(** [self.coordinator.cache_blocks] on the manager's own list of hashes. *)
Definition cache_request_blocks (request : Request) (num_computed_tokens : Z) : M kvm unit :=
  zoom (fun k => (coordinator k, dd_get (req_to_block_hashes k) (request_id request)))
    (fun s k => set_hashes (<[request_id request := s.2]> (req_to_block_hashes k)) (set_coordinator s.1 k))
    (coord_cache_blocks hash_fn NONE_HASH request num_computed_tokens).

(** The part of [allocate_slots] up to the new blocks. *)
Definition reserve_slots (request : Request) (num_new_tokens num_new_computed_tokens : Z)
    (new_computed_blocks : option (list (list nat))) (num_lookahead_tokens : Z)
    : M kvm (option (list (list nat))) :=
  k ← get_state;
  let new_computed_block_list :=
    match new_computed_blocks with Some b => b | None => create_empty_block_list k end in
  on_coordinator (coord_remove_skipped_blocks (request_id request) (num_computed_tokens request));;
  k ← get_state;
  let num_computed_tokens := num_computed_tokens request + num_new_computed_tokens in
  let num_tokens_need_slot :=
    Z.min (num_computed_tokens + num_new_tokens + num_lookahead_tokens) (kv_max_model_len k) in
  num_blocks_to_allocate ←
    lift_result (coord_get_num_blocks_to_allocate (coordinator k) (request_id request)
      num_tokens_need_slot new_computed_block_list);
  if get_num_free_blocks (block_pool (coordinator k)) <? num_blocks_to_allocate then mret None
  else
    (if kv_enable_caching k
     then on_coordinator (on_block_pool (touch new_computed_block_list))
     else py_assert (forallb (fun bs => (length bs =? 0)%nat) new_computed_block_list));;
    on_coordinator (coord_save_new_computed_blocks (request_id request) new_computed_block_list);;
    new_blocks ← on_coordinator (coord_allocate_new_blocks (request_id request) num_tokens_need_slot);
    mret (Some new_blocks).

Definition allocate_slots (request : Request) (num_new_tokens num_new_computed_tokens : Z)
    (new_computed_blocks : option (list (list nat))) (num_draft_tokens num_lookahead_tokens : Z)
    (delay_cache_blocks : bool) : M kvm (option (list (list nat))) :=
  if num_new_tokens =? 0 then raise ValueError
  else
    reserved ← reserve_slots request num_new_tokens num_new_computed_tokens new_computed_blocks
                 num_lookahead_tokens;
    match reserved with
    | None => mret None
    | Some new_blocks =>
        k ← get_state;
        if negb (kv_enable_caching k) || delay_cache_blocks then mret (Some new_blocks)
        else
          cache_request_blocks request
            (num_computed_tokens request + num_new_computed_tokens + num_new_tokens - num_draft_tokens);;
          mret (Some new_blocks)
    end.
End hash.

(** [free] *)
Definition kv_free (request : Request) : M kvm unit := on_coordinator (coord_free (request_id request)).

Definition kv_reset_prefix_cache : M kvm bool :=
  ok ← on_coordinator (on_block_pool reset_prefix_cache);
  if negb ok then mret false
  else
    upd_stats (fun s => mkPrefixCacheStats true (requests s) (queries s) (hits s));;
    mret true.

Definition kv_get_num_common_prefix_blocks (k : kvm) (request : Request) (num_running_requests : Z)
    : result (list Z) :=
  guard_or (bool_decide (status request = RUNNING)) AssertionError;;
  mret (coord_get_num_common_prefix_blocks (coordinator k) (request_id request) num_running_requests).

Definition free_block_hashes (request : Request) : M kvm unit :=
  modify (fun k => set_hashes (delete (request_id request) (req_to_block_hashes k)) k).

Definition kv_take_events : M kvm (list KVCacheEvent) := on_coordinator (on_block_pool take_events).

Definition kv_get_block_ids (k : kvm) (request_id : string) : list (list nat) :=
  get_blocks (coordinator k) request_id.

Definition kv_usage (k : kvm) : Z * Z := get_usage (block_pool (coordinator k)).
End kv_manager.

(** ** The invariant of the manager *)

Section invariant.
Context {Q : Type} `{FreeBlockQueueSpec Q}.
Abbreviation kvm := (KVCacheManager Q).
Abbreviation pool_of k := (block_pool (coordinator k)).
Abbreviation managers_of k := (single_type_managers (coordinator k)).

(** A request is tracked by all managers or by none, and has blocks only if tracked. *)
Definition tracked_ok (ms : list Manager) : Prop := forall id,
  (Forall (fun n => n = None) (cached_nums ms id) /\ Forall (fun bs => bs = []) (tables ms id)) \/
  Forall is_Some (cached_nums ms id).

(** All tables of a request have the same length. *)
Definition aligned (bss : list (list nat)) (n : nat) : Prop := Forall (fun bs => length bs = n) bss.

(** The reference count of every block but the null block is the number of
    times the tables of the requests mention it. *)
Record kv_inv (k : kvm) (l : list nat) : Prop := {
  ki_pool : pool_inv (pool_of k) l;
  ki_refs i : i <> null_block (pool_of k) -> refs (pool_of k) i = totals (managers_of k) i;
  ki_ids : Forall (ids_ok (pool_of k)) (managers_of k);
  ki_caching : enable_caching (pool_of k) = kv_enable_caching k;
  ki_bs : 0 < kv_block_size k /\ Forall (fun m => mgr_block_size m = kv_block_size k) (managers_of k);
  ki_groups : length (managers_of k) = num_kv_cache_groups k;
  ki_aligned id : exists n, aligned (tables (managers_of k) id) n;
  ki_tracked : tracked_ok (managers_of k)
}.

Lemma ki_counted k l : kv_inv k l -> counted (pool_of k) (managers_of k).
Proof. intros Hk i Hi. rewrite (ki_refs _ _ Hk i Hi). lia. Qed.

Definition specs_of (ms : list Manager) := (fun m => (mgr_spec m, SingleType.kv_cache_group_id m)) <$> ms.

Lemma specs_block_size bs ms ms' :
  specs_of ms' = specs_of ms -> Forall (fun m => mgr_block_size m = bs) ms ->
  Forall (fun m => mgr_block_size m = bs) ms'.
Proof.
  revert ms'. induction ms as [|m ms IH]; intros [|m' ms'] E Hf; try discriminate; [constructor|].
  apply Forall_cons in Hf as [Hm Hf]. injection E as E1 E2 E3.
  constructor; [unfold mgr_block_size in *; by rewrite E1|by apply IH].
Qed.

Lemma specs_length ms ms' : specs_of ms' = specs_of ms -> length ms' = length ms.
Proof. intros E%(f_equal length). unfold specs_of in E. by rewrite !length_fmap in E. Qed.

Lemma length_tables ms id : length (tables ms id) = length ms.
Proof. apply length_fmap. Qed.

(** A step of the coordinator that keeps the books and the tables in order. *)
Lemma kv_inv_step k l c' l' :
  kv_inv k l -> pool_inv (block_pool c') l' ->
  pool_config (block_pool c') = pool_config (pool_of k) ->
  (forall i, i <> null_block (pool_of k) -> refs (block_pool c') i = totals (single_type_managers c') i) ->
  Forall (ids_ok (block_pool c')) (single_type_managers c') ->
  specs_of (single_type_managers c') = specs_of (managers_of k) ->
  (forall id, exists n, aligned (tables (single_type_managers c') id) n) ->
  tracked_ok (single_type_managers c') ->
  kv_inv (set_coordinator c' k) l'.
Proof.
  intros Hk Hp Hcfg Hrefs Hids Hspecs Hal Htr. split; simpl; [done| |done| | | |done|done].
  - rewrite (config_null _ _ Hcfg). exact Hrefs.
  - rewrite <- (ki_caching _ _ Hk). unfold pool_config in Hcfg. congruence.
  - split; [apply (ki_bs _ _ Hk)|]. eapply specs_block_size; [exact Hspecs|apply (ki_bs _ _ Hk)].
  - rewrite (specs_length _ _ Hspecs). apply (ki_groups _ _ Hk).
Qed.

Lemma deltas_refs k l p' ms' :
  kv_inv k l -> deltas_ok (pool_of k) p' (managers_of k) ms' ->
  (forall i, i <> null_block (pool_of k) -> refs p' i = totals ms' i).
Proof.
  intros Hk Hd i Hi. pose proof (ds_refs _ _ _ _ Hd i Hi). rewrite (ki_refs _ _ Hk i Hi) in *. lia.
Qed.

Lemma aligned_fmap bss bss' n : length <$> bss' = length <$> bss -> aligned bss n -> aligned bss' n.
Proof.
  unfold aligned. revert bss'. induction bss as [|bs bss IH]; intros [|bs' bss'] E Ha; try discriminate; [done|].
  injection E as E1 E2. apply Forall_cons in Ha as [Hb Ha]. constructor; [congruence|by apply IH].
Qed.

Lemma aligned_nil bss : aligned bss 0 -> Forall (fun bs => bs = []) bss.
Proof. intros Ha. eapply Forall_impl; [exact Ha|]. intros bs E. by apply nil_length_inv. Qed.

Lemma nil_aligned bss : Forall (fun bs : list nat => bs = []) bss -> aligned bss 0.
Proof. intros Ha. eapply Forall_impl; [exact Ha|]. by intros bs ->. Qed.

(** What no operation on a request changes. *)
Definition kv_frame (k k' : kvm) : Prop :=
  kv_max_model_len k' = kv_max_model_len k /\ kv_enable_caching k' = kv_enable_caching k /\
  kv_block_size k' = kv_block_size k /\ num_kv_cache_groups k' = num_kv_cache_groups k /\
  req_to_block_hashes k' = req_to_block_hashes k /\ specs_of (managers_of k') = specs_of (managers_of k) /\
  kv_log_stats k' = kv_log_stats k /\ prefix_cache_stats k' = prefix_cache_stats k /\
  pool_config (pool_of k') = pool_config (pool_of k).

(** *** Freeing a request *)

Lemma wp_kv_free k l request :
  kv_inv k l ->
  wp (kv_free request) (fun _ k' => (exists l', kv_inv k' l') /\
    Forall (fun bs => bs = []) (tables (managers_of k') (request_id request)) /\
    (forall id', id' <> request_id request ->
       tables (managers_of k') id' = tables (managers_of k) id') /\
    kv_frame k k' /\
    cached_block_hash_to_block (pool_of k') = cached_block_hash_to_block (pool_of k)) k.
Proof.
  intros Hk. unfold kv_free, on_coordinator, coord_free. wp_steps.
  destruct (each_free (request_id request) (managers_of k) 0 (pool_of k) (ex_intro _ l (ki_pool _ _ Hk))
    (ki_ids _ _ Hk) (ki_counted _ _ Hk)) as (us & p' & ms' & E & [l' Hp'] & Hd & Hca & Ht & Hn & Hother).
  eapply wp_for_managers with (Post := fun _ p ms => p = p' /\ ms = ms').
  { exists us, p', ms'. done. }
  intros _ _ _ [-> ->]. apply wp_ret. simpl.
  assert (Hnil : Forall (fun bs => bs = []) (tables ms' (request_id request)))
    by (rewrite Ht; by apply Forall_replicate).
  split_and!; [|done|intros id' Hne; by apply Hother|by split_and!; try done; apply Hd|done].
  exists l'. apply (kv_inv_step k l); simpl; [done|done|apply Hd|by eapply deltas_refs
    |apply Hd, (ki_ids _ _ Hk)|apply Hd| |].
  - intros id. destruct (decide (id = request_id request)) as [->|Hne].
    + exists 0%nat. by apply nil_aligned.
    + destruct (Hother id Hne) as [-> _]. apply (ki_aligned _ _ Hk).
  - intros id. destruct (decide (id = request_id request)) as [->|Hne].
    + left. split; [|done]. rewrite Hn. by apply Forall_replicate.
    + destruct (Hother id Hne) as [-> ->]. apply (ki_tracked _ _ Hk).
Qed.

(** *** Counting the blocks an allocation needs *)

Definition evictable_count (p : BlockPool Q) (bss : list (list nat)) : Z :=
  len (filter (fun i => evictable p i = true) (concat bss)).

Lemma sum_blocks_spec p id num_tokens bs n c ms : forall pre new,
  Forall (fun m => mgr_block_size m = bs) ms -> aligned (tables ms id) n -> aligned new c ->
  length new = length ms ->
  sum_blocks_to_allocate p ms id num_tokens (pre ++ new) (length pre) =
    Ok (len ms * (cdiv num_tokens bs - Z.of_nat c - Z.of_nat n) + evictable_count p new).
Proof.
  induction ms as [|m ms IH]; intros pre new Hbs Ht Hnew Hlen.
  { apply nil_length_inv in Hlen as ->. done. }
  destruct new as [|b new]; [done|]. apply Forall_cons in Hbs as [Hb Hbs].
  unfold aligned in Ht. rewrite tables_cons in Ht. apply Forall_cons in Ht as [Hm Ht], Hnew as [Hc Hnew].
  simpl. unfold nth_blocks. rewrite list_lookup_middle by done. simpl.
  specialize (IH (pre ++ [b]) new Hbs Ht Hnew ltac:(simpl in Hlen; lia)).
  rewrite <- app_assoc, length_app, Nat.add_1_r in IH. simpl in IH. rewrite IH. simpl.
  unfold get_num_blocks_to_allocate, evictable_count. simpl.
  rewrite filter_app, len_app, len_cons, Hb. unfold len at 1 2. rewrite Hm, Hc. unfold mret, result_mret. f_equal. lia.
Qed.

(** Touching takes at most the evictable blocks out of the free list. *)
Lemma untouched_length p l ids :
  pool_inv p l -> (forall i, i ∈ ids -> (i < length (blocks p))%nat) ->
  len l <= len (untouched ids l) + len (filter (fun i => evictable p i = true) ids).
Proof.
  intros Hp Hlt. pose proof (pi_NoDup _ _ Hp) as Hnd.
  assert (length l = length (filter (fun i => i ∈ ids) l) + length (untouched ids l))%nat as El.
  { clear. unfold untouched. induction l as [|x l IH]; [done|]. rewrite !filter_cons.
    destruct (decide (x ∈ ids)); destruct (decide (x ∉ ids)); simpl; (tauto || lia). }
  assert (filter (fun i => i ∈ ids) l ⊆+ filter (fun i => evictable p i = true) ids) as Hsub.
  { apply NoDup_submseteq; [by apply NoDup_filter|]. intros i. rewrite !list_elem_of_filter.
    intros [Hin Hil]. split; [|done]. apply (pi_free_iff _ _ _ Hp (Hlt i Hin)) in Hil as [Hn Hr].
    unfold evictable. fold (refs p i). rewrite Hr, (pi_null_iff _ _ _ Hp (Hlt i Hin)).
    by rewrite bool_decide_eq_false_2. }
  apply submseteq_length in Hsub. unfold len. lia.
Qed.

Lemma total_needed_aligned ms id num_tokens bs n :
  Forall (fun m => mgr_block_size m = bs) ms -> aligned (tables ms id) n ->
  total_needed ms id num_tokens = (length ms * Z.to_nat (cdiv num_tokens bs - Z.of_nat n))%nat.
Proof.
  induction ms as [|m ms IH]; intros Hbs Ht; simpl; [done|].
  apply Forall_cons in Hbs as [Hb Hbs]. unfold aligned in Ht. rewrite tables_cons in Ht.
  apply Forall_cons in Ht as [Hm Ht]. rewrite IH by done. unfold blocks_needed, len. by rewrite Hb, Hm.
Qed.
(** *** Allocating slots *)

(** What the scheduler guarantees when it calls [allocate_slots]: hits only for
    a request that holds no blocks, the same number for every group, of
    existing blocks, none without prefix caching; and, for a sliding window,
    that the request's tables cover its computed tokens. *)
Record alloc_pre (k : kvm) (request : Request) (nb : list (list nat)) (c : nat) : Prop := {
  ap_groups : length nb = num_kv_cache_groups k;
  ap_aligned : aligned nb c;
  ap_ids i : i ∈ concat nb -> (i < length (blocks (pool_of k)))%nat;
  ap_tracked : Forall is_Some (cached_nums (managers_of k) (request_id request)) -> c = 0%nat;
  ap_off : kv_enable_caching k = false -> c = 0%nat;
  ap_window : Forall (window_ok (num_computed_tokens request) (request_id request)) (managers_of k)
}.

Lemma forall_empty bss : aligned bss 0 -> forallb (fun bs => (length bs =? 0)%nat) bss = true.
Proof.
  induction 1 as [|bs bss Hb _ IH]; [done|]. simpl. by rewrite Hb, IH.
Qed.

Lemma concat_empty (bss : list (list nat)) : aligned bss 0 -> concat bss = [].
Proof. induction 1 as [|bs bss Hb _ IH]; [done|]. simpl. apply nil_length_inv in Hb as ->. done. Qed.

(** The pool after the hits are touched (or, without caching, unchanged). *)
Lemma wp_touch_hits (k : kvm) l nb (R : unit -> kvm -> Prop) :
  (kv_enable_caching k = true -> FreeBlockQueueRemove Q) ->
  (kv_enable_caching k = false -> aligned nb 0) ->
  pool_inv (pool_of k) l -> (forall i, i ∈ concat nb -> (i < length (blocks (pool_of k)))%nat) ->
  (forall p', pool_inv p' (untouched (concat nb) l) -> released 1 (pool_of k) p' (concat nb) ->
     R tt (set_coordinator (set_pool_managers (p', managers_of k) (coordinator k)) k)) ->
  wp (if kv_enable_caching k then on_coordinator (on_block_pool (touch nb))
      else py_assert (forallb (fun bs => (length bs =? 0)%nat) nb)) R k.
Proof.
  intros Hrem Hoff Hp Hlt HR. destruct (kv_enable_caching k).
  - specialize (Hrem eq_refl). unfold on_coordinator, on_block_pool. apply wp_zoom, wp_zoom.
    eapply wp_mono; [by apply (wp_touch nb _ l)|]. intros [] p' [H1 H2]. by apply HR.
  - specialize (Hoff eq_refl). apply wp_assert; [by apply forall_empty|].
    rewrite (concat_empty _ Hoff) in HR. specialize (HR (pool_of k)).
    assert (set_coordinator (set_pool_managers (pool_of k, managers_of k) (coordinator k)) k = k) as E
      by (by destruct k as [? ? ? ? ? [] ? ?]).
    rewrite E in HR. apply HR.
    + assert (untouched [] l = l) as ->; [|done]. clear. unfold untouched.
      induction l as [|x l IH]; [done|]. rewrite filter_cons_True by set_solver. by rewrite IH.
    + split_and!; [done..|]. intros i. change (occ i []) with 0. lia.
Qed.

Lemma save_ok_all id nb c ms :
  tracked_ok ms -> length nb = length ms -> aligned nb c ->
  (Forall is_Some (cached_nums ms id) -> c = 0%nat) ->
  Forall2 (save_ok id) ms nb.
Proof.
  intros Htr Hlen Hnb Hc. destruct (Htr id) as [[Hn Ht]|Hs].
  - clear Hc Htr. revert nb Hlen Hnb Hn Ht.
    induction ms as [|m ms IH]; intros [|b nb] Hlen Hnb Hn Ht; try discriminate; constructor.
    + rewrite cached_nums_cons, tables_cons in *. apply Forall_cons in Hn as [Hn _], Ht as [Ht _].
      split; [done|]. rewrite Hn. by intros [? ?].
    + rewrite cached_nums_cons, tables_cons in *. apply Forall_cons in Hn as [_ Hn], Ht as [_ Ht], Hnb as [_ Hnb].
      apply IH; [simpl in Hlen; lia|done..].
  - rewrite (Hc Hs) in Hnb. apply aligned_nil in Hnb. clear Hc Htr. revert nb Hlen Hnb Hs.
    induction ms as [|m ms IH]; intros [|b nb] Hlen Hnb Hs; try discriminate; constructor.
    + rewrite cached_nums_cons in Hs. apply Forall_cons in Hs as [Hs _], Hnb as [-> _].
      split; [|done]. intros E. rewrite E in Hs. by destruct Hs.
    + rewrite cached_nums_cons in Hs. apply Forall_cons in Hs as [_ Hs], Hnb as [_ Hnb].
      apply IH; [simpl in Hlen; lia|done..].
Qed.

Lemma aligned_zip_app bss new n c :
  aligned bss n -> aligned new c -> aligned (zip_with (++) bss new) (n + c).
Proof.
  intros Hb. revert new. induction Hb as [|b bss Hbl _ IH]; intros new Hn; [by constructor|].
  destruct new as [|x new]; [constructor|]. apply Forall_cons in Hn as [Hx Hn].
  constructor; [rewrite length_app; lia|by apply IH].
Qed.

(** The books are in order and, for the request, the hits [nb] and the blocks
    [new] were appended to the tables [kept], of length [n]. *)
Definition filled (k k' : kvm) (request : Request) (num_tokens_need_slot : Z) (n c : nat)
    (kept nb new : list (list nat)) : Prop :=
  (exists l', kv_inv k' l') /\
  length new = num_kv_cache_groups k /\
  tables (managers_of k') (request_id request) = zip_with (++) (zip_with (++) kept nb) new /\
  aligned (tables (managers_of k') (request_id request))
    (Nat.max (n + c) (Z.to_nat (cdiv num_tokens_need_slot (kv_block_size k)))) /\
  Forall is_Some (cached_nums (managers_of k') (request_id request)) /\
  (forall id, id <> request_id request -> tables (managers_of k') id = tables (managers_of k) id) /\
  kv_frame k k'.

(** The request's tables after giving up blocks outside the window. *)
Definition trimmed (k : kvm) (request : Request) (kept : list (list nat)) : Prop :=
  Forall2 (given_up (null_block (pool_of k)) (num_computed_tokens request) (request_id request))
    (managers_of k) kept.

(** The state after [reserve_slots]: the hits [nb] and new blocks were appended
    to the request's tables less the blocks outside the window. *)
Definition reserved (k k' : kvm) (request : Request) (num_tokens_need_slot : Z) (n c : nat)
    (nb new : list (list nat)) : Prop :=
  exists kept, trimmed k request kept /\ filled k k' request num_tokens_need_slot n c kept nb new.

Lemma reserved_filled k k' request num_tokens n c nb new :
  reserved k k' request num_tokens n c nb new -> exists kept, filled k k' request num_tokens n c kept nb new.
Proof. intros (kept & _ & Hfl). by exists kept. Qed.

(** Not enough free blocks: only blocks outside the window were given up. *)
Definition refused (k k' : kvm) (request : Request) (num_tokens_need_slot : Z) (n c : nat)
    (nb : list (list nat)) : Prop :=
  (exists l', kv_inv k' l' /\
     len l' < Z.of_nat (num_kv_cache_groups k) *
         (cdiv num_tokens_need_slot (kv_block_size k) - Z.of_nat c - Z.of_nat n) +
       evictable_count (pool_of k') nb) /\
  aligned (tables (managers_of k') (request_id request)) n /\
  trimmed k request (tables (managers_of k') (request_id request)) /\
  (forall id, id <> request_id request -> tables (managers_of k') id = tables (managers_of k) id) /\
  kv_frame k k'.

Lemma wp_remove_skipped (k : kvm) l request :
  kv_inv k l -> Forall (window_ok (num_computed_tokens request) (request_id request)) (managers_of k) ->
  wp (on_coordinator (coord_remove_skipped_blocks (request_id request) (num_computed_tokens request)))
    (fun _ k' => exists l' p' ms', k' = set_coordinator (set_pool_managers (p', ms') (coordinator k)) k /\
       kv_inv k' l' /\ length (blocks p') = length (blocks (pool_of k)) /\
       pool_config p' = pool_config (pool_of k) /\
       trimmed k request (tables ms' (request_id request)) /\
       (forall id, id <> request_id request -> tables ms' id = tables (managers_of k) id) /\
       (forall id, cached_nums ms' id = cached_nums (managers_of k) id) /\
       specs_of ms' = specs_of (managers_of k)) k.
Proof.
  intros Hk Hw. unfold on_coordinator, coord_remove_skipped_blocks. wp_steps.
  destruct (each_remove_skipped (request_id request) (num_computed_tokens request) (managers_of k) 0
    (pool_of k) (ex_intro _ l (ki_pool _ _ Hk)) (ki_ids _ _ Hk) (ki_counted _ _ Hk) Hw)
    as (us & p' & ms' & E & [l' Hp'] & Hd & Hgu & Hother & Hnum).
  pose proof (given_up_lengths _ _ _ _ _ Hgu) as Hlen.
  eapply wp_for_managers with (Post := fun _ p ms => p = p' /\ ms = ms').
  { exists us, p', ms'. done. }
  intros _ _ _ [-> ->]. apply wp_ret. exists l', p', ms'. split; [done|].
  split_and!; [|apply Hd|apply Hd|done|done|done|apply Hd].
  apply (kv_inv_step k l); simpl; [done|done|apply Hd|by eapply deltas_refs
    |apply Hd, (ki_ids _ _ Hk)|apply Hd| |].
  - intros id. destruct (ki_aligned _ _ Hk id) as [n Hn]. exists n.
    destruct (decide (id = request_id request)) as [->|Hne]; [by eapply aligned_fmap|by rewrite Hother].
  - intros id. rewrite Hnum. destruct (ki_tracked _ _ Hk id) as [[Hn Ht]|Hs]; [left|by right].
    split; [done|]. destruct (decide (id = request_id request)) as [->|Hne]; [|by rewrite Hother].
    apply aligned_nil. by eapply aligned_fmap, nil_aligned.
Qed.

Lemma concat_lt_length (k : kvm) (p' : BlockPool Q) (nb : list (list nat)) :
  length (blocks p') = length (blocks (pool_of k)) ->
  (forall i, i ∈ concat nb -> (i < length (blocks (pool_of k)))%nat) ->
  (forall i, i ∈ concat nb -> (i < length (blocks p'))%nat).
Proof. intros E Hlt i Hi. rewrite E. by apply Hlt. Qed.

(** Saving the hits and allocating: from a pool whose references already
    include the hits. *)
Lemma wp_save_allocate (k : kvm) l request nb c n num_tokens :
  pool_inv (pool_of k) l ->
  (forall i, i <> null_block (pool_of k) ->
     refs (pool_of k) i = totals (managers_of k) i + occ i (concat nb)) ->
  Forall (ids_ok (pool_of k)) (managers_of k) ->
  (forall i, i ∈ concat nb -> (i < length (blocks (pool_of k)))%nat) ->
  enable_caching (pool_of k) = kv_enable_caching k ->
  0 < kv_block_size k -> Forall (fun m => mgr_block_size m = kv_block_size k) (managers_of k) ->
  length (managers_of k) = num_kv_cache_groups k ->
  (forall id, exists n, aligned (tables (managers_of k) id) n) -> tracked_ok (managers_of k) ->
  length nb = num_kv_cache_groups k -> aligned nb c ->
  (Forall is_Some (cached_nums (managers_of k) (request_id request)) -> c = 0%nat) ->
  aligned (tables (managers_of k) (request_id request)) n ->
  Z.of_nat (num_kv_cache_groups k) *
    (cdiv num_tokens (kv_block_size k) - Z.of_nat c - Z.of_nat n) <= len l ->
  wp (on_coordinator (coord_save_new_computed_blocks (request_id request) nb);;
      on_coordinator (coord_allocate_new_blocks (request_id request) num_tokens))
    (fun new k' => filled k k' request num_tokens n c
       (tables (managers_of k) (request_id request)) nb new) k.
Proof.
  intros Hp Hrefs Hids Hlt Hcache Hbs0 Hbs Hg Hal Htr Hnbl Hnb Hc Hn Hfit.
  unfold on_coordinator, coord_save_new_computed_blocks. wp_steps.
  pose proof (save_ok_all (request_id request) nb c (managers_of k) Htr ltac:(congruence) Hnb Hc) as Hsave.
  destruct (each_save (request_id request) (pool_of k) (managers_of k) 0 [] nb Hsave eq_refl)
    as (us & ms1 & E1 & Ht1 & Htab1 & Hn1 & Hother1 & Hspec1). simpl in E1.
  eapply wp_for_managers with (Post := fun _ p ms => p = pool_of k /\ ms = ms1).
  { exists us, (pool_of k), ms1. split; [exact E1|done]. }
  intros _ _ _ [-> ->]. apply wp_ret.
  unfold coord_allocate_new_blocks. apply wp_zoom. simpl.
  assert (Hbs1 : Forall (fun m => mgr_block_size m = kv_block_size k) ms1)
    by (by eapply specs_block_size).
  assert (Hal1 : aligned (tables ms1 (request_id request)) (n + c))
    by (rewrite Htab1; by apply aligned_zip_app).
  assert (Hids1 : Forall (ids_ok (pool_of k)) ms1).
  { apply Forall_forall. intros m Hm i Hi.
    destruct (decide (0 < totals (managers_of k) i)) as [Hpos|Hz].
    - clear -Hpos Hids. induction Hids as [|m ms Hmi _ IH]; simpl in Hpos; [lia|].
      destruct (decide (0 < held m i)); [by apply Hmi|apply IH; lia].
    - apply Hlt, occ_pos_iff. specialize (Ht1 i).
      assert (held m i <= totals ms1 i).
      { clear -Hm. apply list_elem_of_split in Hm as (l1 & l2 & ->).
        induction l1 as [|m1 l1 IH]; simpl; [pose proof (totals_nonneg l2 i); lia|].
        unfold held at 2. pose proof (occ_nonneg i (table_blocks (req_to_blocks m1))). lia. }
      lia. }
  assert (Hlen1 : length ms1 = num_kv_cache_groups k) by (rewrite (specs_length _ _ Hspec1); done).
  pose proof (total_needed_aligned ms1 (request_id request) num_tokens _ _ Hbs1 Hal1) as Htot.
  destruct (each_allocate (request_id request) num_tokens ms1 0 (pool_of k) l Hp)
    as (new & p2 & ms2 & E2 & Hp2 & Hd2 & Hcat & Hlnew & Htab2 & Hneed & Hother2 & Hnum2).
  { rewrite Htot, Hlen1. unfold len in Hfit.
    destruct (Z.le_gt_cases (cdiv num_tokens (kv_block_size k) - Z.of_nat (n + c)) 0); [|nia].
    replace (Z.to_nat (cdiv num_tokens (kv_block_size k) - Z.of_nat (n + c))) with 0%nat by lia. lia. }
  eapply wp_for_managers with (Post := fun new' p ms => new' = new /\ p = p2 /\ ms = ms2).
  { exists new, p2, ms2. split; [exact E2|done]. }
  intros _ _ _ (-> & -> & ->). simpl.
  assert (Hnew : aligned new (Z.to_nat (cdiv num_tokens (kv_block_size k) - Z.of_nat (n + c)))).
  { clear -Hneed Hbs1 Hal1. induction Hneed as [|m bs ms new Hb _ IH]; [by constructor|].
    apply Forall_cons in Hbs1 as [Hbm Hbs1]. unfold aligned in Hal1. rewrite tables_cons in Hal1.
    apply Forall_cons in Hal1 as [Hm Hal1]. constructor; [|by apply IH].
    rewrite Hb. unfold blocks_needed, len. by rewrite Hbm, Hm. }
  assert (Hal2 : aligned (tables ms2 (request_id request))
    (Nat.max (n + c) (Z.to_nat (cdiv num_tokens (kv_block_size k))))).
  { rewrite Htab2. replace (Nat.max _ _) with
      (n + c + Z.to_nat (cdiv num_tokens (kv_block_size k) - Z.of_nat (n + c)))%nat by lia.
    by apply aligned_zip_app. }
  split_and!; [|simpl; congruence|by simpl; rewrite Htab2, Htab1|done|by rewrite Hnum2| |].
  - exists (drop (total_needed ms1 (request_id request) num_tokens) l). split; simpl.
    + done.
    + rewrite (config_null _ _ (ds_config _ _ _ _ Hd2)). intros i Hi.
      pose proof (ds_refs _ _ _ _ Hd2 i Hi). rewrite Hrefs, Ht1 in * by done. lia.
    + by apply Hd2.
    + rewrite <- Hcache. pose proof (ds_config _ _ _ _ Hd2) as E. unfold pool_config in E. congruence.
    + split; [done|]. eapply specs_block_size; [apply (ds_same _ _ _ _ Hd2)|done].
    + rewrite (specs_length _ _ (ds_same _ _ _ _ Hd2)). done.
    + intros id. destruct (decide (id = request_id request)) as [->|Hne]; [by eexists|].
      rewrite Hother2 by done. destruct (Hother1 id Hne) as [-> _]. apply Hal.
    + intros id. rewrite Hnum2. destruct (decide (id = request_id request)) as [->|Hne]; [by right|].
      rewrite Hother2 by done. destruct (Hother1 id Hne) as [-> ->]. apply Htr.
  - intros id Hne. rewrite Hother2 by done. by apply Hother1.
  - split_and!; try done; [|apply Hd2]. etrans; [apply (ds_same _ _ _ _ Hd2)|exact Hspec1].
Qed.

(** How many token slots the request has to have. *)
Definition tokens_need_slot (k : kvm) (request : Request)
    (num_new_tokens num_new_computed_tokens num_lookahead_tokens : Z) : Z :=
  Z.min (num_computed_tokens request + num_new_computed_tokens + num_new_tokens + num_lookahead_tokens)
    (kv_max_model_len k).

Definition hits_of (k : kvm) (new_computed_blocks : option (list (list nat))) : list (list nat) :=
  match new_computed_blocks with Some b => b | None => create_empty_block_list k end.

Lemma wp_reserve_slots (k : kvm) l request num_new_tokens num_new_computed_tokens ncb num_lookahead_tokens c n :
  (kv_enable_caching k = true -> FreeBlockQueueRemove Q) ->
  kv_inv k l -> alloc_pre k request (hits_of k ncb) c ->
  aligned (tables (managers_of k) (request_id request)) n ->
  let num_tokens := tokens_need_slot k request num_new_tokens num_new_computed_tokens num_lookahead_tokens in
  wp (reserve_slots request num_new_tokens num_new_computed_tokens ncb num_lookahead_tokens)
    (fun res k' => match res with
     | None => refused k k' request num_tokens n c (hits_of k ncb)
     | Some new => reserved k k' request num_tokens n c (hits_of k ncb) new
     end) k.
Proof.
  intros Hrem Hk [Hg Hal Hids Htr Hoff Hw] Hn num_tokens. unfold reserve_slots. wp_step. wp_step.
  change (match ncb with Some b => b | None => create_empty_block_list k end) with (hits_of k ncb).
  set (nb := hits_of k ncb) in *. wp_step.
  eapply wp_mono; [by eapply wp_remove_skipped|].
  intros [] k1 (l1 & p1 & ms1 & Ek1 & Hk1 & Hlen1 & Hcfg1 & Htrim & Hto & Hnums & Hspecs). wp_step. wp_step. simpl.
  pose proof (given_up_lengths _ _ _ _ _ Htrim) as Htl.
  assert (kv_max_model_len k1 = kv_max_model_len k /\ kv_block_size k1 = kv_block_size k /\
    num_kv_cache_groups k1 = num_kv_cache_groups k /\ kv_enable_caching k1 = kv_enable_caching k /\
    req_to_block_hashes k1 = req_to_block_hashes k /\ pool_of k1 = p1 /\ managers_of k1 = ms1 /\
    kv_log_stats k1 = kv_log_stats k /\ prefix_cache_stats k1 = prefix_cache_stats k)
    as (Eml & Ebs & Eg & Ec & Eh & Epool & Ems & Elog & Est) by (by rewrite Ek1).
  rewrite Eml. fold (tokens_need_slot k request num_new_tokens num_new_computed_tokens num_lookahead_tokens).
  fold num_tokens. wp_step.
  assert (Hn1 : aligned (tables (managers_of k1) (request_id request)) n)
    by (rewrite Ems; by eapply aligned_fmap).
  assert (Hlm : length nb = length (managers_of k1)) by (rewrite (ki_groups _ _ Hk1), Eg; done).
  destruct (ki_bs _ _ Hk1) as [Hbs0 Hbs1].
  pose proof (sum_blocks_spec (pool_of k1) (request_id request) num_tokens _ n c
    (managers_of k1) [] nb Hbs1 Hn1 Hal Hlm) as Hsum. simpl in Hsum.
  unfold lift_result, coord_get_num_blocks_to_allocate. unfold wp at 1. rewrite Hsum.
  unfold get_num_free_blocks.
  rewrite (fq_num_free_spec _ _ _ (pb_queue _ _ (pi_base _ _ (ki_pool _ _ Hk1)))).
  assert (Hids1 : forall i, i ∈ concat nb -> (i < length (blocks (pool_of k1)))%nat)
    by (eapply concat_lt_length; [by rewrite Epool|exact Hids]).
  destruct (Z.ltb_spec (len l1) (len (managers_of k1) *
     (cdiv num_tokens (kv_block_size k1) - Z.of_nat c - Z.of_nat n) + evictable_count (pool_of k1) nb))
    as [Hlt|Hge].
  - apply wp_ret. unfold len at 2 in Hlt. rewrite (ki_groups _ _ Hk1), Eg, Ebs in Hlt.
    split_and!; [by exists l1|done|by rewrite Ems| |split_and!; try done; congruence].
    intros id Hne. rewrite Ems. by apply Hto.
  - wp_step. eapply (wp_touch_hits k1 l1 nb); [by rewrite Ec|rewrite Ec; intros E; by rewrite <- (Hoff E)
      |apply (ki_pool _ _ Hk1)|exact Hids1|].
    intros p2 Hp2 (Ecfg2 & _ & _ & Elen2 & Er2).
    set (k2 := set_coordinator _ k1).
    pose proof (untouched_length _ _ _ (ki_pool _ _ Hk1) Hids1) as Hun.
    pose proof (wp_save_allocate k2 (untouched (concat nb) l1) request nb c n num_tokens) as Hsa.
    assert (Hall : wp (on_coordinator (coord_save_new_computed_blocks (request_id request) nb);;
      on_coordinator (coord_allocate_new_blocks (request_id request) num_tokens))
      (fun new k' => filled k2 k' request num_tokens n c
         (tables (managers_of k2) (request_id request)) nb new) k2).
    { apply Hsa; simpl.
      - done.
      - intros i Hi. rewrite (config_null _ _ Ecfg2) in Hi. rewrite Er2, (ki_refs _ _ Hk1 i Hi). lia.
      - eapply Forall_impl; [apply (ki_ids _ _ Hk1)|]. intros m. by apply ids_ok_length.
      - intros i Hi. rewrite Elen2. by apply Hids1.
      - rewrite <- (ki_caching _ _ Hk1). unfold pool_config in Ecfg2. congruence.
      - done.
      - done.
      - apply (ki_groups _ _ Hk1).
      - apply (ki_aligned _ _ Hk1).
      - apply (ki_tracked _ _ Hk1).
      - congruence.
      - done.
      - intros Hs. apply Htr. by rewrite <- Hnums, <- Ems.
      - done.
      - unfold evictable_count in Hge. unfold len at 1 in Hge. rewrite (ki_groups _ _ Hk1) in Hge. lia. }
    unfold wp, mbind, M_mbind, M_bind in Hall |- *.
    destruct (on_coordinator (coord_save_new_computed_blocks (request_id request) nb) k2) as [u k3|]; [|done].
    destruct (on_coordinator (coord_allocate_new_blocks (request_id request) num_tokens) k3) as [new k4|]; [|done].
    simpl. destruct Hall as (A1 & A2 & A0 & A3 & A4 & A5 & A6). simpl in *.
    exists (tables ms1 (request_id request)). split; [done|].
    split_and!; [done|congruence|by rewrite A0, Ems|by rewrite <- Ebs|done| |].
    + intros id Hne. rewrite A5 by done. rewrite Ems. by apply Hto.
    + destruct A6 as (B1 & B2 & B3 & B4 & B5 & B6 & B7 & B8 & B9). simpl in *. rewrite Ems in B6.
      split_and!; congruence.
Qed.

(** The same without the [kv_inv] of the caching step: caching keeps the books
    whether it returns or raises. *)
Lemma cache_request_blocks_always hash_fn NONE_HASH request n (k : kvm) l :
  kv_inv k l -> kv_enable_caching k = true ->
  Forall is_Some (cached_nums (managers_of k) (request_id request)) ->
  always (cache_request_blocks hash_fn NONE_HASH request n) (fun k' =>
    kv_inv k' l /\ (forall id, tables (managers_of k') id = tables (managers_of k) id) /\
    Forall is_Some (cached_nums (managers_of k') (request_id request)) /\
    kv_enable_caching k' = kv_enable_caching k) k.
Proof.
  intros Hk Hc Hsome. unfold cache_request_blocks. apply always_zoom. unfold always, coord_cache_blocks.
  pose proof (each_cache_always hash_fn NONE_HASH request n l (managers_of k) (pool_of k)
    (dd_get (req_to_block_hashes k) (request_id request)) (ki_pool _ _ Hk)
    ltac:(rewrite (ki_caching _ _ Hk); done) (ki_ids _ _ Hk)) as Ha.
  enough (Hgen : forall p' ms' bh',
    recached (pool_of k) l p' /\ req_to_blocks <$> ms' = req_to_blocks <$> managers_of k /\
    specs_of ms' = specs_of (managers_of k) /\
    (forall id', id' <> request_id request -> cached_nums ms' id' = cached_nums (managers_of k) id') /\
    (Forall is_Some (cached_nums (managers_of k) (request_id request)) ->
     Forall is_Some (cached_nums ms' (request_id request))) ->
    let k' := set_hashes (<[request_id request := bh']> (req_to_block_hashes k))
                (set_coordinator (set_pool_managers (p', ms') (coordinator k)) k) in
    kv_inv k' l /\ (forall id, tables (managers_of k') id = tables (managers_of k) id) /\
    Forall is_Some (cached_nums (managers_of k') (request_id request)) /\
    kv_enable_caching k' = kv_enable_caching k).
  { destruct (each_cache _ _ _ _) as [[] [[p' ms'] bh']|e [[p' ms'] bh']]; simpl; by apply Hgen. }
  clear Ha. intros p' ms' bh' (Hrec & Ht & Hs & Hnum & Hkeep) k'.
  assert (Htab : forall id, tables ms' id = tables (managers_of k) id).
  { intros id. unfold tables, req_blocks. apply (f_equal (fmap (fun t => dd_get t id))) in Ht.
    by rewrite <- !list_fmap_compose in Ht. }
  assert (Htot : forall i, totals ms' i = totals (managers_of k) i).
  { intros i. clear -Ht. revert ms' Ht. induction (managers_of k) as [|m ms IH]; intros [|m' ms'] Ht;
      try discriminate; [done|]. injection Ht as E Ht. simpl. rewrite (IH _ Ht). unfold held. by rewrite E. }
  split_and!; [|done|by apply Hkeep|done].
  assert (kv_inv (set_coordinator (set_pool_managers (p', ms') (coordinator k)) k) l) as [? ? ? ? ? ? ? ?].
  2: by split.
  pose proof Hrec as (Hp' & Hcfg & _). apply (kv_inv_step k l); simpl; [done|done|done| | |done| |].
  - intros i Hi. rewrite (recached_refs _ _ _ i Hrec), Htot. by apply (ki_refs _ _ Hk).
  - apply Forall_forall. intros m' Hm i Hi. rewrite (recached_length _ _ _ Hrec).
    assert (exists m, m ∈ managers_of k /\ req_to_blocks m' = req_to_blocks m) as (m & Hmm & E).
    { apply list_elem_of_lookup_1 in Hm as [j Hj].
      assert ((req_to_blocks <$> ms') !! j = Some (req_to_blocks m')) as Hj'
        by (by rewrite list_lookup_fmap, Hj).
      rewrite Ht, list_lookup_fmap in Hj'. destruct (managers_of k !! j) as [m|] eqn:Em; [|done].
      injection Hj' as E. exists m. split; [by eapply list_elem_of_lookup_2|done]. }
    apply (proj1 (Forall_forall _ _) (ki_ids _ _ Hk) m Hmm). unfold held in *. by rewrite <- E.
  - intros id. rewrite Htab. apply (ki_aligned _ _ Hk).
  - intros id. rewrite Htab. destruct (ki_tracked _ _ Hk id) as [[Hn Htt]|Hall].
    + destruct (decide (id = request_id request)) as [->|Hne]; [right; by apply Hkeep|left; by rewrite Hnum].
    + destruct (decide (id = request_id request)) as [->|Hne]; [right; by apply Hkeep|right; by rewrite Hnum].
Qed.

Lemma allocate_slots_spec_aux hash_fn NONE_HASH (k : kvm) l request num_new_tokens num_new_computed_tokens
    ncb num_draft_tokens num_lookahead_tokens delay c n :
  (kv_enable_caching k = true -> FreeBlockQueueRemove Q) ->
  kv_inv k l -> alloc_pre k request (hits_of k ncb) c ->
  aligned (tables (managers_of k) (request_id request)) n -> num_new_tokens <> 0 ->
  let num_tokens := tokens_need_slot k request num_new_tokens num_new_computed_tokens num_lookahead_tokens in
  match allocate_slots hash_fn NONE_HASH request num_new_tokens num_new_computed_tokens ncb
          num_draft_tokens num_lookahead_tokens delay k with
  | Ret None k' => refused k k' request num_tokens n c (hits_of k ncb)
  | Ret (Some new) k' =>
      exists k1, reserved k k1 request num_tokens n c (hits_of k ncb) new /\ (exists l', kv_inv k' l') /\
        (forall id, tables (managers_of k') id = tables (managers_of k1) id) /\
        (kv_enable_caching k = false \/ delay = true -> k' = k1)
  | Raise e k' =>
      kv_enable_caching k = true /\ delay = false /\
      exists k1 new, reserved k k1 request num_tokens n c (hits_of k ncb) new /\ (exists l', kv_inv k' l') /\
        (forall id, tables (managers_of k') id = tables (managers_of k1) id)
  end.
Proof.
  intros Hrem Hk Hpre Hn Hnz num_tokens. unfold allocate_slots. rewrite (proj2 (Z.eqb_neq _ _) Hnz).
  destruct (wp_elim _ _ _ (wp_reserve_slots k l request num_new_tokens num_new_computed_tokens ncb
    num_lookahead_tokens c n Hrem Hk Hpre Hn)) as ([new|] & k1 & E & HR);
    unfold mbind at 1, M_mbind, M_bind at 1; rewrite E; [|exact HR].
  pose proof HR as (kept & _ & [l1 Hk1] & _ & _ & _ & Hsome & _ & _ & Hc & _). cbn [mbind M_mbind M_bind get_state].
  unfold mbind, M_mbind, M_bind, get_state. rewrite Hc.
  destruct (negb (kv_enable_caching k) || delay) eqn:Eb.
  { exists k1. split; [exact HR|]. split; [by exists l1|]. done. }
  apply orb_false_iff in Eb as [Eb1 Eb2]. apply negb_false_iff in Eb1.
  pose proof (cache_request_blocks_always hash_fn NONE_HASH request
    (num_computed_tokens request + num_new_computed_tokens + num_new_tokens - num_draft_tokens)
    k1 l1 Hk1 ltac:(congruence) Hsome) as Ha. unfold always in Ha.
  destruct (cache_request_blocks _ _ _ _ k1) as [[] k2|e k2]; destruct Ha as (Hk2 & Ht & _).
  - exists k1. split; [exact HR|]. split; [by exists l1|]. split; [done|].
    rewrite Eb1, Eb2. by intros [?|?].
  - split_and!; [done|done|]. exists k1, new. split; [exact HR|]. split; [by exists l1|done].
Qed.

(** *** Properties *)

(** C27: [allocate_slots] for a non-zero number of new tokens, called as the
    scheduler does ([alloc_pre]: hits of existing blocks, as many in every
    group, only for a request without blocks and only with prefix caching;
    tables that cover the window). It returns [None] only when the free blocks
    do not cover the request; its tables are then as before but for entries in
    front of the attention window, which may have become null blocks (all of
    them, if the null blocks came first). Otherwise its tables are the old
    ones, given up the same way, followed by the hits and the new blocks, and
    cover the tokens that need a slot. With prefix caching the free queue
    supports removal. The other requests' tables are untouched. In every case
    the invariant holds after: reference counts are exactly the table entries,
    so no block is leaked or shared by accident. Only caching the full blocks
    may raise, after the slots are allocated. *)
Theorem allocate_slots_spec hash_fn NONE_HASH (k : kvm) l request num_new_tokens num_new_computed_tokens
    ncb num_draft_tokens num_lookahead_tokens delay c n :
  (kv_enable_caching k = true -> FreeBlockQueueRemove Q) ->
  kv_inv k l -> alloc_pre k request (hits_of k ncb) c ->
  aligned (tables (managers_of k) (request_id request)) n -> num_new_tokens <> 0 ->
  let num_tokens := tokens_need_slot k request num_new_tokens num_new_computed_tokens num_lookahead_tokens in
  match allocate_slots hash_fn NONE_HASH request num_new_tokens num_new_computed_tokens ncb
          num_draft_tokens num_lookahead_tokens delay k with
  | Ret None k' => refused k k' request num_tokens n c (hits_of k ncb)
  | Ret (Some new) k' =>
      exists k1, reserved k k1 request num_tokens n c (hits_of k ncb) new /\ (exists l', kv_inv k' l') /\
        (forall id, tables (managers_of k') id = tables (managers_of k1) id)
  | Raise e k' =>
      kv_enable_caching k = true /\ delay = false /\
      exists k1 new, reserved k k1 request num_tokens n c (hits_of k ncb) new /\ (exists l', kv_inv k' l') /\
        (forall id, tables (managers_of k') id = tables (managers_of k1) id)
  end.
Proof.
  intros Hrem Hk Hpre Hn Hnz num_tokens.
  pose proof (allocate_slots_spec_aux hash_fn NONE_HASH k l request num_new_tokens num_new_computed_tokens ncb
    num_draft_tokens num_lookahead_tokens delay c n Hrem Hk Hpre Hn Hnz) as T. cbv zeta in T.
  destruct (allocate_slots _ _ _ _ _ _ _ _ _ _) as [[new|] k'|e k']; [|exact T|exact T].
  destruct T as (k1 & H1 & H2 & H3 & _). eauto.
Qed.

(** Freeing a request empties its tables, leaves the tables of all others,
    the recorded hashes and the prefix cache alone, and keeps the invariant. *)
Theorem kv_free_spec (k : kvm) l request :
  kv_inv k l ->
  wp (kv_free request) (fun _ k' => (exists l', kv_inv k' l') /\
    Forall (fun bs => bs = []) (tables (managers_of k') (request_id request)) /\
    (forall id', id' <> request_id request ->
       tables (managers_of k') id' = tables (managers_of k) id') /\
    kv_frame k k' /\
    cached_block_hash_to_block (pool_of k') = cached_block_hash_to_block (pool_of k)) k.
Proof. apply wp_kv_free. Qed.

Lemma held_empty (ms : list Manager) i :
  (forall id, Forall (fun bs => bs = []) (tables ms id)) -> totals ms i = 0.
Proof.
  intros Hempty. induction ms as [|m ms IH]; simpl; [done|]. rewrite IH.
  2: { intros id. specialize (Hempty id). rewrite tables_cons in Hempty. by apply Forall_cons in Hempty as [_ ?]. }
  enough (held m i = 0) by lia. unfold held.
  assert (table_blocks (req_to_blocks m) = []) as ->; [|done].
  unfold table_blocks. assert (Forall (fun bs => bs = []) (map_to_list (req_to_blocks m)).*2) as Hf.
  { apply Forall_fmap, Forall_forall. intros [id bs] Hin%elem_of_map_to_list. simpl.
    specialize (Hempty id). rewrite tables_cons in Hempty. apply Forall_cons in Hempty as [Hb _].
    unfold req_blocks, dd_get in Hb. rewrite Hin in Hb. exact Hb. }
  induction Hf as [|bs bss -> _ IHf]; [done|]. exact IHf.
Qed.

Lemma all_blocks_free (k : kvm) l :
  kv_inv k l -> (forall id, Forall (fun bs => bs = []) (tables (managers_of k) id)) ->
  get_num_free_blocks (pool_of k) = num_gpu_blocks (pool_of k) - 1.
Proof.
  intros Hk Hempty. pose proof (ki_pool _ _ Hk) as Hp.
  enough (num_gpu_blocks (pool_of k) - get_num_free_blocks (pool_of k) = 1) by lia.
  apply (all_free_iff _ _ Hp). intros i _ Hi. rewrite (ki_refs _ _ Hk i Hi). by apply held_empty.
Qed.

(** No leaks.  When no request has blocks, every block but the null block
    is free again. *)
Theorem no_block_leaks (k : kvm) l :
  kv_inv k l -> (forall id, Forall (fun bs => bs = []) (tables (managers_of k) id)) ->
  len l = num_gpu_blocks (pool_of k) - 1 /\
  get_num_free_blocks (pool_of k) = num_gpu_blocks (pool_of k) - 1.
Proof.
  intros Hk Hempty. pose proof (all_blocks_free k l Hk Hempty) as E. split; [|done].
  rewrite <- E. symmetry. eapply fq_num_free_spec; apply (pb_queue _ _ (pi_base _ _ (ki_pool _ _ Hk))).
Qed.
End invariant.

(** ** Creation *)

Section creation.
Context {Q : Type} `{FreeBlockQueueSpec Q}.
Abbreviation kvm := (KVCacheManager Q).

Definition new_managers (groups : list KVCacheGroupSpec) : list Manager :=
  imap (fun i g => init_manager (kv_cache_spec g) i) groups.

Lemma new_managers_Forall (P : Manager -> Prop) groups :
  (forall i g, g ∈ groups -> P (init_manager (kv_cache_spec g) i)) -> Forall P (new_managers groups).
Proof.
  intros HP. apply Forall_lookup. intros i m. unfold new_managers. rewrite list_lookup_imap.
  destruct (groups !! i) as [g|] eqn:E; [|done]. intros [= <-]. apply HP. by eapply list_elem_of_lookup_2.
Qed.

Lemma new_coordinator config eagle caching events c :
  get_kv_cache_coordinator (Q := Q) config eagle caching events = Ok c ->
  0 < num_blocks config /\ single_type_managers c = new_managers (kv_cache_groups config) /\
  init_pool (num_blocks config) caching events = Ok (block_pool c).
Proof.
  unfold get_kv_cache_coordinator. destruct (0 <? num_blocks config) eqn:E0.
  - destruct (init_pool _ _ _) as [p|]; [|done]. cbn [mbind result_mbind].
    destruct (kv_cache_groups config) as [|g [|g' gs]] eqn:Eg; [done| |].
    + intros [= <-]. split_and!; [lia|done|done].
    + destruct (verify_and_split_kv_cache_groups _) as [split|]; [|done].
      intros [= <-]. split_and!; [lia|done|done].
  - unfold init_pool. rewrite E0. done.
Qed.

Lemma init_kv_inv config max_model_len caching eagle log events (k : kvm) :
  init_kv_cache_manager config max_model_len caching eagle log events = Ok k -> 0 < kv_block_size k ->
  exists l, kv_inv k l /\ len l = num_blocks config - 1 /\
    (forall id, Forall (fun bs => bs = []) (tables (single_type_managers (coordinator k)) id)) /\
    kv_enable_caching k = caching.
Proof.
  unfold init_kv_cache_manager. destruct (remove_dups _) as [|bs [|? ?]] eqn:Ebs; [done| |done].
  destruct (get_kv_cache_coordinator _ _ _ _) as [c|] eqn:Ec; [|done].
  cbn [mbind result_mbind mret result_mret]. intros [= <-] Hbs. simpl in Hbs.
  destruct (new_coordinator _ _ _ _ _ Ec) as (Hn & Em & Ep).
  destruct (init_pool_aux (Q := Q) (num_blocks config) caching events Hn) as (p & Ep' & Hp & Hcfg & Hr & Hca).
  rewrite Ep in Ep'. injection Ep' as <-.
  assert (Htab : forall id, Forall (fun bs => bs = []) (tables (new_managers (kv_cache_groups config)) id)).
  { intros id. apply Forall_fmap. by apply new_managers_Forall. }
  exists (seq 1 (Z.to_nat (num_blocks config) - 1)). split; [|].
  - split; simpl; rewrite ?Em.
    + done.
    + intros i _. rewrite Hr. unfold new_managers. clear. generalize 0%nat as o.
      assert (forall (groups : list KVCacheGroupSpec) (f : nat -> nat),
        0 = totals (imap (fun i g => init_manager (kv_cache_spec g) (f i)) groups) i) as Hgen.
      { induction groups as [|g groups IH]; intros f; [done|]. rewrite imap_cons. simpl.
        change (held _ i) with 0. apply (IH (fun x => f (S x))). }
      intros _. apply (Hgen _ id).
    + apply new_managers_Forall. intros i g _ j. change (held _ j) with 0. lia.
    + unfold pool_config in Hcfg. congruence.
    + split; [done|]. apply new_managers_Forall. intros i g Hg. simpl.
      assert (block_size (kv_cache_spec g) ∈ [bs]) as Hin.
      { rewrite <- Ebs. apply elem_of_remove_dups. apply list_elem_of_fmap. eauto. }
      by apply list_elem_of_singleton in Hin.
    + unfold new_managers. by rewrite length_imap.
    + intros id. exists 0%nat. by apply nil_aligned.
    + intros id. left. split; [|done]. apply Forall_fmap. by apply new_managers_Forall.
  - unfold len. rewrite length_seq. simpl. rewrite Em. split_and!; [lia|done|done].
Qed.

(** A new manager satisfies the invariant with every block but the null
    block free. *)
Theorem init_kv_cache_manager_inv config max_model_len caching eagle log events (k : kvm) :
  init_kv_cache_manager config max_model_len caching eagle log events = Ok k -> 0 < kv_block_size k ->
  exists l, kv_inv k l /\ len l = num_blocks config - 1.
Proof.
  intros E Hb. destruct (init_kv_inv _ _ _ _ _ _ _ E Hb) as (l & Hk & Hl & _). eauto.
Qed.
End creation.

(** ** The theorems at concrete managers *)

Abbreviation lkvm := (KVCacheManager FreeKVCacheBlockQueue.t).

(** One group of full attention, blocks of two tokens. *)
Definition sample_config : KVCacheConfig :=
  mkKVCacheConfig 5 [] [mkKVCacheGroupSpec ["layer"%string] (FullAttentionSpec sample_attention None)].

Lemma sample_kvm caching :
  exists (k : lkvm) l, init_kv_cache_manager sample_config 100 caching false false false = Ok k /\
    kv_inv k l /\ len l = 4 /\ kv_enable_caching k = caching /\
    (forall id, Forall (fun bs => bs = []) (tables (single_type_managers (coordinator k)) id)) /\
    num_kv_cache_groups k = 1%nat /\ single_type_managers (coordinator k) = new_managers (kv_cache_groups sample_config).
Proof.
  destruct (init_kv_cache_manager sample_config 100 caching false false false) as [k|] eqn:E.
  2: { by destruct caching. }
  assert (0 < kv_block_size k /\ num_kv_cache_groups k = 1%nat /\
    single_type_managers (coordinator k) = new_managers (kv_cache_groups sample_config)) as (Hb & Hg & Hm).
  { destruct caching; vm_compute in E; injection E as <-; done. }
  destruct (init_kv_inv _ _ _ _ _ _ k E Hb) as (l & Hk & Hl & Ht & Hc).
  exists k, l. split_and!; done.
Qed.

Lemma init_kv_cache_manager_inv_witness :
  exists (k : lkvm) (l : list nat), kv_inv k l /\ len l = 4.
Proof.
  destruct (init_kv_cache_manager (Q := FreeKVCacheBlockQueue.t) sample_config 100 true false false false)
    as [k|] eqn:E; [|discriminate E].
  exists k. apply (init_kv_cache_manager_inv sample_config 100 true false false false k E).
  vm_compute in E. injection E as <-. reflexivity.
Defined.

Lemma sample_alloc_pre (k : lkvm) request :
  num_kv_cache_groups k = 1%nat -> single_type_managers (coordinator k) = new_managers (kv_cache_groups sample_config) ->
  alloc_pre k request (hits_of k None) 0.
Proof.
  intros Hg Hm. unfold hits_of, create_empty_block_list. rewrite Hg. simpl.
  split; [done|by repeat constructor|intros i Hi; by apply not_elem_of_nil in Hi|done|done|].
  rewrite Hm. repeat constructor. by intros sw.
Qed.

Lemma allocate_slots_spec_witness :
  exists (k : lkvm) (l : list nat), kv_inv k l /\
  match allocate_slots code_hash (-1) (sample_request "a" [1; 2; 3]) 3 0 None 0 0 false k with
  | Ret None k' => refused k k' (sample_request "a" [1; 2; 3]) 3 0 0 [[]]
  | Ret (Some new) k' => exists k1, reserved k k1 (sample_request "a" [1; 2; 3]) 3 0 0 [[]] new /\
      (exists l', kv_inv k' l')
  | Raise e k' => exists l', kv_inv k' l'
  end.
Proof.
  destruct (sample_kvm true) as (k & l & E & Hk & _ & Hc & Ht & Hg & Hm). exists k, l. split; [exact Hk|].
  assert (tokens_need_slot k (sample_request "a" [1; 2; 3]) 3 0 0 = 3) as Et
    by (vm_compute in E; injection E as <-; reflexivity).
  assert (hits_of k None = [[]]) as Eh by (unfold hits_of, create_empty_block_list; rewrite Hg; reflexivity).
  pose proof (allocate_slots_spec code_hash (-1) k l (sample_request "a" [1; 2; 3]) 3 0 None 0 0 false 0 0
    (fun _ => FreeKVCacheBlockQueue_remove) Hk (sample_alloc_pre _ _ Hg Hm)
    (nil_aligned _ (Ht "a"%string)) ltac:(discriminate)) as T.
  cbv zeta in T. rewrite Et, Eh in T.
  destruct (allocate_slots _ _ _ _ _ _ _ _ _ _) as [[new|] k'|e k']; [|exact T|].
  - destruct T as (k1 & H1 & H2 & _). exists k1. split; assumption.
  - destruct T as (_ & _ & k1 & new & _ & H2 & _). exact H2.
Defined.

Lemma kv_free_spec_witness :
  exists (k : lkvm) (l : list nat), kv_inv k l /\ wp (kv_free (sample_request "a" [1])) (fun _ k' => exists l', kv_inv k' l') k.
Proof.
  destruct (sample_kvm true) as (k & l & _ & Hk & _). exists k, l. split; [exact Hk|].
  eapply wp_mono; [apply (kv_free_spec k l (sample_request "a" [1]) Hk)|]. intros [] k' (Hk' & _). exact Hk'.
Defined.

Lemma no_block_leaks_witness :
  exists (k : lkvm) (l : list nat), len l = num_gpu_blocks (block_pool (coordinator k)) - 1.
Proof.
  destruct (sample_kvm true) as (k & l & _ & Hk & _ & _ & Ht & _). exists k, l.
  apply (no_block_leaks k l Hk Ht).
Defined.

(** *** A window inside one block

    Blocks of four tokens, a window of two, prefix caching on. *)
Definition small_window_config : KVCacheConfig :=
  mkKVCacheConfig 10 [] [mkKVCacheGroupSpec ["layer"%string]
    (SlidingWindowSpec (mkAttentionSpec 4 8 128 (mkDtype "bfloat16" 2) false) 2)].

(** Prefill of five tokens, then one token per step: number of computed
    tokens, all tokens so far, new tokens. *)
Definition decode_step (step : Z * list Z * Z) : M lkvm unit :=
  let '(n, tokens, new) := step in
  allocate_slots code_hash (-1) (with_num_computed_tokens n (sample_request "a" tokens)) new 0 None 0 0 false;;
  mret tt.

Definition decode_trace : list (Z * list Z * Z) :=
  [(0, [1; 2; 3; 4; 5], 5); (5, [1; 2; 3; 4; 5; 6], 1); (6, [1; 2; 3; 4; 5; 6; 7], 1);
   (7, [1; 2; 3; 4; 5; 6; 7; 8], 1)].

(** A sliding window no longer than a block breaks prefix caching: the
    block before the one being completed has left the window and was replaced
    by the null block, which has no hash, so [cache_full_blocks] fails its
    assertion on the token that completes the block; the steps before succeed. *)
Theorem small_window_decode_fails :
  exists k, init_kv_cache_manager small_window_config 100 true false false false = Ok k /\
  match for_each decode_step (take 3 decode_trace) k with
  | Ret _ k' =>
      (tables (single_type_managers (coordinator k')) "a" = [[0; 2]])%nat /\
      match for_each decode_step (drop 3 decode_trace) k' with
      | Raise AssertionError _ => True
      | _ => False
      end
  | Raise _ _ => False
  end.
Proof. eexists. split; [reflexivity|]. vm_compute. split; [reflexivity|exact I]. Qed.
