(* ===== verification/KVConfig.v ===== *)
(** The KV-cache configuration of [vllm/v1/core/kv_cache_utils.py]: the memory
    check with its binary search for the largest model length, the grouping of
    the layers, the size of the pool, and the unification over workers.

    The dict from layer names to specs is a list of pairs in insertion order. *)

From Stdlib Require Import ZArith Lia String.
From stdpp Require Import base strings numbers gmap list.
From S2P Require Import Prelude.
From S2P Require Import KVBlock.
From S2P Require Import FreeQueue.
From S2P Require Import LinkedQueue.
From S2P Require Import Request.
From S2P Require Import BlockHashing.
From S2P Require Import KVSpec.
From S2P Require Import BlockPool.
From S2P Require Import SingleType.
From S2P Require Import Coordinator.
From S2P Require Import KVManager.

Open Scope Z_scope.

Definition Layers := list (string * KVCacheSpec).

(** ** Memory *)

Definition max_memory_usage_bytes (vllm_config : VllmConfig) (kv_cache_specs : list KVCacheSpec) : Z :=
  foldr (fun s acc => spec_max_memory_usage_bytes vllm_config s + acc) 0 kv_cache_specs.

Definition with_max_model_len (n : Z) (c : VllmConfig) : VllmConfig :=
  mkVllmConfig n (max_num_batched_tokens c) (num_gpu_blocks_override c)
    (disable_hybrid_kv_cache_manager c) (gpu_memory_utilization_pct c).

(** The closure of [estimate_max_model_len]: it leaves the probed length in the
    configuration. *)
Definition fits_in_memory (specs : list KVCacheSpec) (available_memory model_len : Z) : M VllmConfig bool :=
  modify (with_max_model_len model_len);;
  gets (fun c => max_memory_usage_bytes c specs <=? available_memory).

(** [while left <= right]; the distance shrinks in every round. *)
Fixpoint search_loop (fuel : nat) (specs : list KVCacheSpec) (available_memory left right result : Z)
    : M VllmConfig Z :=
  match fuel with
  | O => mret result
  | S fuel' =>
      if left <=? right then
        let mid := (left + right) / 2 in
        fits ← fits_in_memory specs available_memory mid;
        if fits : bool then search_loop fuel' specs available_memory (mid + 1) right mid
        else search_loop fuel' specs available_memory left (mid - 1) result
      else mret result
  end.

Definition estimate_max_model_len (specs : list KVCacheSpec) (available_memory : Z) : M VllmConfig Z :=
  current_max ← gets max_model_len;
  fits ← fits_in_memory specs available_memory 1;
  if negb fits then mret 0
  else search_loop (Z.to_nat current_max) specs available_memory 1 current_max 1.

(** The estimate only goes into the message of the error. *)
Definition check_enough_kv_cache_memory (layers : Layers) (available_memory : Z) : M VllmConfig unit :=
  if available_memory <=? 0 then raise ValueError
  else
    needed_memory ← gets (fun c => max_memory_usage_bytes c layers.*2);
    if available_memory <? needed_memory then
      estimated ← estimate_max_model_len layers.*2 available_memory;
      raise ValueError
    else mret tt.

(** ** Groups *)

(** [kv_cache_spec[name]] *)
Fixpoint layer_lookup (layers : Layers) (name : string) : result KVCacheSpec :=
  match layers with
  | [] => Err KeyError
  | (n, s) :: rest => if decide (n = name) then Ok s else layer_lookup rest name
  end.

Fixpoint layer_specs (layers : Layers) (names : list string) : result (list KVCacheSpec) :=
  match names with
  | [] => Ok []
  | n :: rest => s ← layer_lookup layers n; ss ← layer_specs layers rest; Ok (s :: ss)
  end.

Fixpoint create_kv_cache_group_specs (layers : Layers) (grouped_layer_names : list (list string))
    : result (list KVCacheGroupSpec) :=
  match grouped_layer_names with
  | [] => Ok []
  | names :: rest =>
      specs ← layer_specs layers names;
      merged ← merge specs;
      groups ← create_kv_cache_group_specs layers rest;
      Ok (mkKVCacheGroupSpec names merged :: groups)
  end.

Definition is_kv_cache_type_uniform (layers : Layers) : bool :=
  (length (remove_dups (type_id <$> layers.*2)) =? 1)%nat.

Definition is_kv_cache_page_size_uniform (layers : Layers) : bool :=
  (length (remove_dups (page_size_bytes <$> layers.*2)) =? 1)%nat.

Definition get_uniform_page_size (layers : Layers) : result Z :=
  match remove_dups (page_size_bytes <$> layers.*2) with
  | [p] => Ok p
  | _ => Err AssertionError
  end.

(** The concurrency is the quotient of the two numbers; only whether it can be
    computed matters (it is logged). *)
Definition get_max_concurrency_for_kv_cache_config (c : VllmConfig) (config : KVCacheConfig) : result (Z * Z) :=
  match kv_cache_groups config with
  | [] => Err ValueError
  | g :: gs =>
      let num_layer_per_group := foldl Z.max (len (layer_names g)) ((fun g => len (layer_names g)) <$> gs) in
      let max_memory_usage_per_request :=
        num_layer_per_group * max_memory_usage_bytes c (kv_cache_spec <$> (g :: gs)) in
      let memory_per_block := page_size_bytes (kv_cache_spec g) * num_layer_per_group in
      guard_or (negb (memory_per_block =? 0)) ZeroDivisionError;;
      let num_block_per_request := cdiv max_memory_usage_per_request memory_per_block in
      guard_or (negb (num_block_per_request =? 0)) ZeroDivisionError;;
      Ok (num_blocks config, num_block_per_request)
  end.

(** The override is logged, not applied. *)
Definition get_num_blocks (c : VllmConfig) (num_layers available_memory page_size : Z) : result Z :=
  a ← floordiv available_memory page_size;
  b ← floordiv a num_layers;
  let num_blocks := Z.max b 0 in
  match num_gpu_blocks_override c with
  | Some num_gpu_blocks_override => Ok num_blocks
  | None => Ok num_blocks
  end.

Definition _get_kv_cache_config_uniform_type (c : VllmConfig) (layers : Layers) (available_memory : Z)
    : result KVCacheConfig :=
  page_size ← get_uniform_page_size layers;
  n ← get_num_blocks c (len layers) available_memory page_size;
  let per_layer_size := page_size * n in
  let tensors := (fun name => mkKVCacheTensor per_layer_size [name]) <$> layers.*1 in
  groups ← create_kv_cache_group_specs layers [layers.*1];
  let config := mkKVCacheConfig n tensors groups in
  get_max_concurrency_for_kv_cache_config c config;;
  Ok config.

(** ** Several attention types with one page size *)

(** [same_type_layers[type_id].append(layer_name)] *)
Fixpoint append_layer (key name : string) (groups : list (string * list string)) : list (string * list string) :=
  match groups with
  | [] => [(key, [name])]
  | (k, names) :: rest =>
      if decide (k = key) then (k, names ++ [name]) :: rest else (k, names) :: append_layer key name rest
  end.

Definition same_type_layers (layers : Layers) : list (list string) :=
  (foldl (fun g '(name, spec) => append_layer (type_id spec) name g) [] layers).*2.

(** [layers[i:i + group_size] for i in range(0, len(layers), group_size)] *)
Definition split_layers (group_size : Z) (names : list string) : list (list string) :=
  (fun i => slice i (i + group_size) names) <$> py_range 0 (len names) group_size.

(** The layers that share the [i]-th tensor: the [i]-th of every group that has
    one. *)
Definition shared_layers (grouped_layers : list (list string)) (i : nat) : list string :=
  omap (fun names : list string => names !! i) grouped_layers.

Definition _get_kv_cache_config_uniform_page_size (c : VllmConfig) (layers : Layers) (available_memory : Z)
    : result KVCacheConfig :=
  match same_type_layers layers with
  | [] => Err ValueError
  | names :: rest =>
      let group_size := foldl Nat.min (length names) (length <$> rest) in
      let grouped_layers := concat (split_layers (Z.of_nat group_size) <$> (names :: rest)) in
      groups ← create_kv_cache_group_specs layers grouped_layers;
      page_size ← get_uniform_page_size layers;
      n ← get_num_blocks c (Z.of_nat group_size) available_memory page_size;
      let tensors := (fun i => mkKVCacheTensor (page_size * n) (shared_layers grouped_layers i)) <$> seq 0 group_size in
      let config := mkKVCacheConfig n tensors groups in
      get_max_concurrency_for_kv_cache_config c config;;
      Ok config
  end.

(** ** The whole configuration *)

Definition to_full_attention (s : KVCacheSpec) : KVCacheSpec :=
  match s with
  | SlidingWindowSpec a sw => FullAttentionSpec a (Some sw)
  | FullAttentionSpec _ _ => s
  end.

Definition is_hybrid (layers : Layers) : bool := (1 <? length (remove_dups (type_id <$> layers.*2)))%nat.

(** The dict is updated in place. *)
Definition unify_hybrid_kv_cache_specs : M Layers unit :=
  layers ← get_state;
  if negb (is_hybrid layers) then mret tt
  else
    (if existsb is_full_attention layers.*2 && existsb (fun s => negb (is_full_attention s)) layers.*2
     then modify (fmap (fun p => (p.1, to_full_attention p.2)))
     else mret tt);;
    layers ← get_state;
    if is_hybrid layers then raise ValueError else mret tt.

Definition get_kv_cache_config (available_memory : Z) : M (VllmConfig * Layers) KVCacheConfig :=
  s ← get_state;
  zoom fst (fun c s => (c, s.2)) (check_enough_kv_cache_memory s.2 available_memory);;
  (if disable_hybrid_kv_cache_manager s.1
   then zoom snd (fun l s => (s.1, l)) unify_hybrid_kv_cache_specs else mret tt);;
  '(c, layers) ← get_state;
  if is_kv_cache_type_uniform layers
  then lift_result (_get_kv_cache_config_uniform_type c layers available_memory)
  else if is_kv_cache_page_size_uniform layers
  then lift_result (_get_kv_cache_config_uniform_page_size c layers available_memory)
  else raise NotImplementedError.

(** ** One configuration for all workers *)

(** [list.sort], stable, with [type_id] as the key. *)
Fixpoint insert_group (g : KVCacheGroupSpec) (l : list KVCacheGroupSpec) : list KVCacheGroupSpec :=
  match l with
  | [] => [g]
  | h :: rest =>
      if String.leb (type_id (kv_cache_spec g)) (type_id (kv_cache_spec h)) then g :: h :: rest
      else h :: insert_group g rest
  end.
Definition sort_groups (l : list KVCacheGroupSpec) : list KVCacheGroupSpec := foldr insert_group [] l.

Definition with_groups (g : list KVCacheGroupSpec) (c : KVCacheConfig) : KVCacheConfig :=
  mkKVCacheConfig (num_blocks c) (kv_cache_tensors c) g.
Definition with_num_blocks (n : Z) (c : KVCacheConfig) : KVCacheConfig :=
  mkKVCacheConfig n (kv_cache_tensors c) (kv_cache_groups c).

(** [zip] stops at the shorter list. *)
Definition groups_agree (a b : KVCacheConfig) : bool :=
  forallb (fun p => bool_decide (kv_cache_spec p.1 = kv_cache_spec p.2))
    (zip (kv_cache_groups a) (kv_cache_groups b)).

Definition unify_kv_cache_configs : M (list KVCacheConfig) (list KVCacheConfig) :=
  modify (fmap (fun c => with_groups (sort_groups (kv_cache_groups c)) c));;
  configs ← get_state;
  py_assert (match configs with [] => true | c0 :: rest => forallb (groups_agree c0) rest end);;
  match configs with
  | [] => raise ValueError
  | c0 :: rest =>
      let min_num_blocks := foldl Z.min (num_blocks c0) (num_blocks <$> rest) in
      modify (fmap (with_num_blocks min_num_blocks));;
      get_state
  end.

(** ** The search for the largest model length *)

Section memory.
Context (c : VllmConfig) (specs : list KVCacheSpec) (available_memory : Z).
Hypothesis specs_wf : Forall spec_wf specs.

(** Whether requests of [n] tokens fit. *)
Definition fits (n : Z) : Prop := max_memory_usage_bytes (with_max_model_len n c) specs <= available_memory.

Lemma fits_anti n m : n <= m -> fits m -> fits n.
Proof.
  unfold fits. intros Hnm. enough (max_memory_usage_bytes (with_max_model_len n c) specs <=
    max_memory_usage_bytes (with_max_model_len m c) specs) by lia.
  unfold max_memory_usage_bytes. induction specs_wf as [|s l Hs _ IH]; simpl; [done|].
  pose proof (spec_max_memory_mono (with_max_model_len n c) (with_max_model_len m c) s Hs eq_refl Hnm).
  apply Forall_cons in specs_wf as [_ Hl]. specialize (IH Hl). lia.
Qed.

Lemma wp_fits_in_memory n m (P : bool -> VllmConfig -> Prop) :
  P (max_memory_usage_bytes (with_max_model_len n c) specs <=? available_memory) (with_max_model_len n c) ->
  wp (fits_in_memory specs available_memory n) P (with_max_model_len m c).
Proof. intros HP. unfold fits_in_memory. by wp_steps. Qed.

(** Everything up to [result] fits, nothing beyond [right] does. *)
Lemma wp_search_loop max fuel left right result m :
  1 <= left -> right <= max -> left <= right + 1 -> 1 <= result <= max -> fits result ->
  (left <= right -> right - left + 1 <= Z.of_nat fuel) -> (result = left - 1 \/ left = 1 /\ result = 1) ->
  (forall n, right < n <= max -> ~ fits n) ->
  wp (search_loop fuel specs available_memory left right result) (fun r c' =>
    1 <= r <= max /\ fits r /\ (forall n, r < n <= max -> ~ fits n) /\ exists m', c' = with_max_model_len m' c)
    (with_max_model_len m c).
Proof.
  revert left right result m.
  induction fuel as [|fuel IH]; intros left right result m Hl Hr Hlr Hres Hfit Hfuel Hinv Hbig; cbn [search_loop].
  - wp_steps. split; [done|]. split; [done|]. split; [|by exists m]. intros n Hn. apply Hbig. lia.
  - destruct (left <=? right) eqn:E.
    2:{ wp_steps. split; [done|]. split; [done|]. split; [|by exists m]. intros n Hn. apply Hbig. lia. }
    assert (Hmid : left <= (left + right) / 2 <= right).
    { pose proof (Z.div_mod (left + right) 2 ltac:(lia)). pose proof (Z.mod_pos_bound (left + right) 2 ltac:(lia)). lia. }
    cbv zeta. set (mid := (left + right) / 2) in *. wp_step. apply wp_fits_in_memory.
    destruct (_ <=? available_memory) eqn:Ef.
    + apply IH; try lia; [|done]. unfold fits. lia.
    + apply IH; try lia; [done|]. intros n Hn Hfn. apply (fits_anti mid) in Hfn; [|lia]. unfold fits in Hfn. lia.
Qed.

Lemma wp_estimate :
  1 <= max_model_len c ->
  wp (estimate_max_model_len specs available_memory) (fun r c' =>
    (r = 0 /\ ~ fits 1 \/ 1 <= r <= max_model_len c /\ fits r /\ (forall n, r < n <= max_model_len c -> ~ fits n)) /\
    exists m, c' = with_max_model_len m c) c.
Proof.
  intros Hmax. unfold estimate_max_model_len. wp_steps.
  unfold fits_in_memory. wp_steps. destruct (_ <=? available_memory) eqn:Ef; simpl.
  - eapply wp_mono; [apply (wp_search_loop (max_model_len c)); try lia; unfold fits; lia|].
    intros r c' (H1 & H2 & H3 & H4). split; [by right|done].
  - wp_steps. split; [left; split; [done|unfold fits; lia]|by eexists].
Qed.
End memory.

(** The check returns exactly when one request of the maximal length fits. *)
Lemma check_enough_iff c layers available_memory :
  Forall spec_wf layers.*2 -> 1 <= max_model_len c ->
  match check_enough_kv_cache_memory layers available_memory c with
  | Ret _ c' => c' = c /\ 0 < available_memory /\ max_memory_usage_bytes c layers.*2 <= available_memory
  | Raise e _ => e = ValueError /\ (available_memory <= 0 \/ available_memory < max_memory_usage_bytes c layers.*2)
  end.
Proof.
  intros Hwf Hmax. unfold check_enough_kv_cache_memory. destruct (available_memory <=? 0) eqn:E0.
  { split; [done|left; lia]. }
  unfold mbind, M_mbind, M_bind, gets. destruct (available_memory <? _) eqn:E1.
  - destruct (wp_elim _ _ _ (wp_estimate c layers.*2 available_memory Hwf Hmax)) as (r & c' & -> & _).
    split; [done|right; lia].
  - simpl. split_and!; [done|lia|lia].
Qed.

(** ** Groups *)

Lemma layer_lookup_ok layers name s :
  layer_lookup layers name = Ok s -> (name, s) ∈ layers.
Proof.
  induction layers as [|[n s'] rest IH]; simpl; [done|]. case_decide as Hd; [|intros; right; auto].
  intros [= ->]. subst. left.
Qed.

Lemma layer_specs_ok layers names specs :
  layer_specs layers names = Ok specs -> Forall2 (fun n s => (n, s) ∈ layers) names specs.
Proof.
  revert specs. induction names as [|n names IH]; intros specs; simpl; [intros [= <-]; constructor|].
  destruct (layer_lookup layers n) as [s|] eqn:E; [|done]. simpl.
  destruct (layer_specs layers names) as [ss|]; [|done]. simpl. intros [= <-].
  constructor; [by apply layer_lookup_ok|by apply IH].
Qed.

(** A merged spec has the type of all the specs it stands for. *)
Lemma merge_ok specs s :
  merge specs = Ok s -> Forall (fun s' => type_id s' = type_id s) specs /\ specs <> [] /\
    (forall s0, head specs = Some s0 -> attention_spec s = attention_spec s0 /\ is_full_attention s = is_full_attention s0).
Proof.
  assert (Hbase : forall s', base_merge specs = Ok s' -> Forall (fun s'' => type_id s'' = type_id s') specs /\ specs <> [] /\
    head specs = Some s') by (intros s' [Hh Hf]%base_merge_ok; destruct specs; done).
  unfold merge. intros Hm.
  destruct specs as [|[a sw|a sw] rest]; [done| |].
  - unfold full_merge in Hm. destruct (base_merge _) as [m|] eqn:E; [|done].
    destruct (Hbase m eq_refl) as (Hf & Hne & Hh). simpl in Hh. injection Hh as <-. simpl in Hm.
    assert (exists sw', s = FullAttentionSpec a sw') as [sw' ->].
    { destruct (full_windows _) as [|w [|w' ws]]; [| |done]; injection Hm as <-; by eexists. }
    split; [exact Hf|]. split; [done|]. by intros s0 [= <-].
  - destruct (Hbase s Hm) as (Hf & Hne & Hh). split; [done|]. split; [done|]. intros s0 E. rewrite Hh in E. by injection E as ->.
Qed.

Definition group_ok (layers : Layers) (g : KVCacheGroupSpec) : Prop :=
  layer_names g <> [] /\
  Forall (fun n => exists s, (n, s) ∈ layers /\ type_id s = type_id (kv_cache_spec g)) (layer_names g).

Lemma create_groups_ok layers grouped groups :
  create_kv_cache_group_specs layers grouped = Ok groups ->
  layer_names <$> groups = grouped /\ Forall (group_ok layers) groups.
Proof.
  revert groups. induction grouped as [|names grouped IH]; intros groups; simpl; [intros [= <-]; by split|].
  destruct (layer_specs layers names) as [specs|] eqn:Es; [|done]. simpl.
  destruct (merge specs) as [m|] eqn:Em; [|done]. simpl.
  destruct (create_kv_cache_group_specs layers grouped) as [gs|]; [|done]. simpl. intros [= <-].
  destruct (IH gs eq_refl) as [E Hg]. rewrite fmap_cons, E. split; [done|]. constructor; [|done].
  apply layer_specs_ok in Es. destruct (merge_ok _ _ Em) as (Hf & Hne & _).
  split; simpl.
  - intros ->. apply Forall2_nil_inv_l in Es. done.
  - clear -Es Hf. induction Es as [|n s names specs Hn _ IHs]; [constructor|].
    apply Forall_cons in Hf as [Ht Hf]. constructor; [by exists s|by apply IHs].
Qed.

Lemma get_uniform_page_size_ok layers p :
  get_uniform_page_size layers = Ok p -> Forall (fun s => page_size_bytes s = p) layers.*2.
Proof.
  unfold get_uniform_page_size. destruct (remove_dups _) as [|p' [|? ?]] eqn:E; [done| |done].
  intros [= <-]. apply Forall_forall. intros s Hs.
  assert (page_size_bytes s ∈ remove_dups (page_size_bytes <$> layers.*2)) as Hin.
  { apply elem_of_remove_dups, list_elem_of_fmap. eauto. }
  rewrite E in Hin. by apply list_elem_of_singleton in Hin.
Qed.

(** The blocks of all pools fit in the memory, and no further block per pool does. *)
Lemma get_num_blocks_ok c pools available_memory page n :
  0 < pools -> 0 < page -> 0 <= available_memory -> get_num_blocks c pools available_memory page = Ok n ->
  0 <= n /\ pools * (page * n) <= available_memory < pools * (page * (n + 1)).
Proof.
  intros Hp Hpage Ha. unfold get_num_blocks, floordiv.
  rewrite (proj2 (Z.eqb_neq page 0)) by lia. simpl. rewrite (proj2 (Z.eqb_neq pools 0)) by lia. simpl. intros En.
  assert (n = available_memory / page / pools) as ->.
  { assert (0 <= available_memory / page / pools) by (apply Z.div_pos; [apply Z.div_pos; lia|lia]).
    destruct (num_gpu_blocks_override c); injection En as <-; lia. }
  rewrite Z.div_div by lia.
  assert (0 <= available_memory / (page * pools)) by (apply Z.div_pos; nia).
  pose proof (Z.mul_div_le available_memory (page * pools) ltac:(nia)).
  pose proof (Z.mul_succ_div_gt available_memory (page * pools) ltac:(nia)). split; [done|]. nia.
Qed.

(** [num_gpu_blocks_override] has no effect. *)
Lemma get_num_blocks_override c o pools available_memory page :
  get_num_blocks (mkVllmConfig (max_model_len c) (max_num_batched_tokens c) o
    (disable_hybrid_kv_cache_manager c) (gpu_memory_utilization_pct c)) pools available_memory page =
  get_num_blocks c pools available_memory page.
Proof.
  unfold get_num_blocks. destruct (floordiv _ _); [|done]. simpl. destruct (floordiv _ _); [|done]. simpl.
  by destruct o, (num_gpu_blocks_override c).
Qed.

(** ** Models whose layers all have full attention *)

Definition total_size (config : KVCacheConfig) : Z := foldr (fun t acc => size t + acc) 0 (kv_cache_tensors config).

Lemma total_size_const {A} (f : A -> list string) n l :
  foldr (fun t acc => size t + acc) 0 ((fun x => mkKVCacheTensor n (f x)) <$> l) = len l * n.
Proof. induction l as [|x l IH]; [done|]. rewrite fmap_cons. simpl. rewrite IH, len_cons. lia. Qed.

(** Layers with block size [b], page size [p] and at most one window size. *)
Record full_layers (layers : Layers) (b p : Z) : Prop := {
  fl_nonempty : layers <> [];
  fl_wf : Forall spec_wf layers.*2;
  fl_specs : Forall (fun s => is_full_attention s = true /\ block_size s = b /\ page_size_bytes s = p) layers.*2;
  fl_windows : (length (full_windows layers.*2) <= 1)%nat;
  fl_names : NoDup layers.*1
}.

Lemma remove_dups_const {A} `{EqDecision A} (x : A) l :
  l <> [] -> Forall (fun y => y = x) l -> remove_dups l = [x].
Proof.
  intros Hne Hall.
  assert (Hin : forall y, y ∈ remove_dups l <-> y = x).
  { intros y. rewrite elem_of_remove_dups. rewrite Forall_forall in Hall. split; [apply Hall|intros ->].
    destruct l as [|z l]; [done|]. rewrite <- (Hall z) by set_solver. set_solver. }
  assert (Hp : remove_dups l ≡ₚ [x]).
  { apply NoDup_Permutation; [apply NoDup_remove_dups|apply NoDup_singleton|]. intros y. rewrite Hin. set_solver. }
  by apply Permutation_singleton_r in Hp.
Qed.

Lemma layer_specs_all layers : NoDup layers.*1 -> layer_specs layers layers.*1 = Ok layers.*2.
Proof.
  intros Hnd.
  assert (Hl : forall n s, (n, s) ∈ layers -> layer_lookup layers n = Ok s).
  { clear -Hnd. induction layers as [|[n' s'] rest IH]; intros n s Hin; [by apply not_elem_of_nil in Hin|].
    apply NoDup_cons in Hnd as [Hn Hnd]. simpl. apply elem_of_cons in Hin as [[= -> ->]|Hin].
    - by rewrite decide_True.
    - rewrite decide_False; [by apply IH|]. intros ->. apply Hn. apply list_elem_of_fmap. by exists (n, s). }
  assert (Hg : forall l, (forall x, x ∈ l -> x ∈ layers) -> layer_specs layers l.*1 = Ok l.*2).
  { induction l as [|[n s] l IH]; intros Hin; [done|]. rewrite !fmap_cons. cbn [layer_specs fst snd].
    rewrite (Hl n s) by (apply Hin; by left). cbn [mbind result_mbind]. rewrite IH; [done|]. intros x Hx. apply Hin. by right. }
  by apply Hg.
Qed.

Section full.
Context (c : VllmConfig) (layers : Layers) (b p : Z).
Hypothesis Hl : full_layers layers b p.
Hypothesis Hmax : 1 <= max_model_len c.

Lemma full_types : exists t, Forall (fun s => type_id s = t) layers.*2.
Proof.
  eexists. eapply Forall_impl; [apply (fl_specs _ _ _ Hl)|]. intros s (Hf & Hb & Hp).
  destruct s as [a sw|a sw]; [|done]. unfold type_id. rewrite Hb, Hp. reflexivity.
Qed.

Lemma full_specs_nonempty : layers.*2 <> [].
Proof. pose proof (fl_nonempty _ _ _ Hl). by destruct layers. Qed.

Lemma full_sizes : 0 < b /\ 0 < p /\ 0 < len layers.
Proof.
  pose proof (fl_wf _ _ _ Hl) as Hwf. pose proof (fl_specs _ _ _ Hl) as Hs. pose proof (fl_nonempty _ _ _ Hl).
  destruct layers as [|[n s] rest]; [done|]. rewrite fmap_cons in *.
  apply Forall_cons in Hwf as [Hwf _]. apply Forall_cons in Hs as [(_ & <- & <-) _].
  split; [apply Hwf|]. split; [by apply page_size_pos|]. rewrite len_cons. pose proof (len_nonneg rest). lia.
Qed.

Lemma full_needed : max_memory_usage_bytes c layers.*2 = len layers * (cdiv (max_model_len c) b * p).
Proof.
  pose proof (fl_specs _ _ _ Hl) as Hs. clear Hl. unfold max_memory_usage_bytes.
  induction layers as [|[n s] rest IH]; [done|]. rewrite fmap_cons in *. apply Forall_cons in Hs as [(Hf & Hb & Hp) Hs].
  simpl in Hf, Hb, Hp |- *. rewrite IH by done. destruct s as [a sw|a sw]; [|done]. simpl.
  unfold full_max_memory_usage_bytes. rewrite Hb, Hp, len_cons. lia.
Qed.

(** What the configuration promises: one tensor per layer, within the memory;
    one group of all layers; and enough blocks for a request of maximal length. *)
Definition full_config_ok (available_memory : Z) (config : KVCacheConfig) : Prop :=
  (shared_by <$> kv_cache_tensors config) = (fun n => [n]) <$> layers.*1 /\
  total_size config <= available_memory /\
  (exists s, kv_cache_groups config = [mkKVCacheGroupSpec layers.*1 s] /\ is_full_attention s = true /\
     block_size s = b /\ page_size_bytes s = p) /\
  cdiv (max_model_len c) b <= num_blocks config.

Lemma full_merge_ok :
  exists s, merge layers.*2 = Ok s /\ is_full_attention s = true /\ block_size s = b /\ page_size_bytes s = p.
Proof.
  pose proof (fl_specs _ _ _ Hl) as Hs. pose proof (fl_windows _ _ _ Hl) as Hw. destruct full_types as [t Ht].
  pose proof full_specs_nonempty as Hne. destruct layers.*2 as [|s0 rest]; [done|].
  apply Forall_cons in Hs as [(Hf & Hb & Hp) _]. apply Forall_cons in Ht as [Ht0 Ht].
  destruct s0 as [a sw|a sw]; [|done]. unfold merge, full_merge, base_merge.
  assert (E : forallb (fun s' => bool_decide (type_id s' = type_id (FullAttentionSpec a sw))) rest = true).
  { apply forallb_forall. intros x Hx%list_elem_of_In. apply bool_decide_eq_true. rewrite Ht0.
    by apply (proj1 (Forall_forall _ _) Ht). }
  rewrite E. cbn [mbind result_mbind].
  destruct (full_windows (FullAttentionSpec a sw :: rest)) as [|w [|w' ws]];
    [by eexists|by eexists|simpl in Hw; lia].
Qed.

Lemma uniform_type_ok available_memory :
  0 < available_memory -> max_memory_usage_bytes c layers.*2 <= available_memory ->
  exists config, _get_kv_cache_config_uniform_type c layers available_memory = Ok config /\
    full_config_ok available_memory config.
Proof.
  intros Ha Hneed. destruct full_sizes as (Hb & Hp & Hlen). rewrite full_needed in Hneed.
  unfold _get_kv_cache_config_uniform_type.
  assert (Ep : get_uniform_page_size layers = Ok p).
  { unfold get_uniform_page_size. rewrite (remove_dups_const p); [done| |].
    - pose proof full_specs_nonempty. by destruct layers.*2.
    - apply Forall_fmap. eapply Forall_impl; [apply (fl_specs _ _ _ Hl)|]. by intros s (_ & _ & ?). }
  rewrite Ep. cbn [mbind result_mbind].
  destruct (get_num_blocks c (len layers) available_memory p) as [n|e] eqn:En.
  2:{ exfalso. unfold get_num_blocks, floordiv in En. rewrite !(proj2 (Z.eqb_neq _ 0)) in En by lia. simpl in En.
      by destruct (num_gpu_blocks_override c). }
  destruct (get_num_blocks_ok c (len layers) available_memory p n Hlen Hp ltac:(lia) En) as (Hn & Hle & Hgt).
  destruct full_merge_ok as (s & Em & Hf & Hbs & Hps).
  cbn [create_kv_cache_group_specs]. rewrite layer_specs_all by apply Hl. cbn [mbind result_mbind].
  rewrite Em. cbn [mbind result_mbind].
  pose proof (cdiv_spec (max_model_len c) b Hb) as Hcd.
  assert (Hc1 : 1 <= cdiv (max_model_len c) b) by nia.
  unfold get_max_concurrency_for_kv_cache_config. simpl. rewrite Hps.
  assert (Elen : len layers.*1 = len layers) by (unfold len; by rewrite length_fmap).
  rewrite Elen, (proj2 (Z.eqb_neq (p * len layers) 0)) by nia. simpl.
  assert (Eu : spec_max_memory_usage_bytes c s = cdiv (max_model_len c) b * p).
  { destruct s; [|done]. simpl. unfold full_max_memory_usage_bytes. by rewrite Hbs, Hps. }
  rewrite Eu. pose proof (cdiv_spec (len layers * (cdiv (max_model_len c) b * p + 0)) (p * len layers) ltac:(nia)).
  rewrite (proj2 (Z.eqb_neq (cdiv _ _) 0)) by nia. simpl.
  eexists. split; [done|]. split_and!; simpl.
  - rewrite <- list_fmap_compose. done.
  - unfold total_size. simpl. rewrite (total_size_const (fun n => [n])), Elen. lia.
  - by exists s.
  - nia.
Qed.

Lemma full_config available_memory :
  match get_kv_cache_config available_memory (c, layers) with
  | Ret config s' => s' = (c, layers) /\ max_memory_usage_bytes c layers.*2 <= available_memory /\
      full_config_ok available_memory config
  | Raise e _ => e = ValueError /\
      (available_memory <= 0 \/ available_memory < max_memory_usage_bytes c layers.*2)
  end.
Proof.
  pose proof (check_enough_iff c layers available_memory (fl_wf _ _ _ Hl) Hmax) as Hc.
  destruct full_types as [t Ht]. pose proof full_specs_nonempty as Hne.
  assert (Et : remove_dups (type_id <$> layers.*2) = [t]).
  { apply remove_dups_const; [by destruct layers.*2|]. by apply Forall_fmap. }
  assert (Ez : zoom fst (fun (c : VllmConfig) (s : VllmConfig * Layers) => (c, s.2))
      (check_enough_kv_cache_memory layers available_memory) (c, layers) =
    match check_enough_kv_cache_memory layers available_memory c with
    | Ret a t => Ret a (t, layers)
    | Raise e t => Raise e (t, layers)
    end) by done.
  unfold get_kv_cache_config, mbind, M_mbind, M_bind, get_state. cbn [fst snd]. rewrite Ez.
  destruct (check_enough_kv_cache_memory layers available_memory c) as [[] c'|e c']; [|exact Hc].
  destruct Hc as (-> & Ha & Hneed). cbn [fst snd].
  assert (Eu : (if disable_hybrid_kv_cache_manager c
    then zoom snd (fun (l : Layers) (s : VllmConfig * Layers) => (s.1, l)) unify_hybrid_kv_cache_specs
    else mret tt) (c, layers) = Ret tt (c, layers)).
  { destruct (disable_hybrid_kv_cache_manager c); [|done]. unfold zoom, unify_hybrid_kv_cache_specs, is_hybrid. simpl.
    unfold mbind, M_mbind, M_bind, get_state. by rewrite Et. }
  rewrite Eu. cbn [fst snd]. unfold is_kv_cache_type_uniform. rewrite Et. cbn [length Nat.eqb].
  destruct (uniform_type_ok available_memory Ha Hneed) as (config & E & Hok). unfold lift_result. by rewrite E.
Qed.
End full.

(** ** Models with several attention types of one page size *)

Lemma append_layer_spec key name groups :
  concat (append_layer key name groups).*2 ≡ₚ name :: concat groups.*2 /\
  (Forall (fun g => g.2 <> []) groups -> Forall (fun g => g.2 <> []) (append_layer key name groups)).
Proof.
  induction groups as [|[k names] rest [IHp IHn]]; cbn [append_layer].
  - split; [done|]. intros _. by constructor.
  - case_decide as Hd.
    + rewrite !fmap_cons. simpl. split; [solve_Permutation|].
      intros [Hn Hr]%Forall_cons. constructor; [by destruct names|done].
    + rewrite !fmap_cons. simpl. split; [rewrite IHp; solve_Permutation|].
      intros [Hn Hr]%Forall_cons. constructor; [done|by apply IHn].
Qed.

Lemma same_type_layers_spec layers :
  concat (same_type_layers layers) ≡ₚ layers.*1 /\ Forall (fun names => names <> []) (same_type_layers layers).
Proof.
  unfold same_type_layers.
  assert (Hg : forall l g, Forall (fun g => g.2 <> []) g ->
    concat (foldl (fun g '(name, spec) => append_layer (type_id spec) name g) g l).*2 ≡ₚ l.*1 ++ concat g.*2 /\
    Forall (fun g => g.2 <> []) (foldl (fun g '(name, spec) => append_layer (type_id spec) name g) g l)).
  { induction l as [|[name spec] l IH]; intros g Hg; [by split|]. rewrite fmap_cons. simpl.
    destruct (append_layer_spec (type_id spec) name g) as [Hp Hn].
    destruct (IH _ (Hn Hg)) as [IHp IHn]. split; [|done]. rewrite IHp, Hp. solve_Permutation. }
  destruct (Hg layers [] ltac:(constructor)) as [Hp Hn]. split; [rewrite Hp; simpl; by rewrite app_nil_r|].
  by apply Forall_fmap.
Qed.

Lemma split_range n i g (names : list string) :
  0 < g -> 0 <= i ->
  concat ((fun j => slice j (j + g) names) <$> range_fuel n i g) = take (n * Z.to_nat g) (drop (Z.to_nat i) names).
Proof.
  intros Hg. revert i. induction n as [|n IH]; intros i Hi; [done|]. cbn [range_fuel].
  rewrite fmap_cons. cbn [concat]. rewrite IH by lia. unfold slice.
  replace (Z.to_nat (i + g - i)) with (Z.to_nat g) by lia.
  replace (Z.to_nat (i + g)) with (Z.to_nat i + Z.to_nat g)%nat by lia.
  rewrite <- drop_drop. cbn [Nat.mul]. apply take_take_drop.
Qed.

Lemma split_layers_spec g names :
  0 < g -> concat (split_layers g names) = names /\ Forall (fun l => (length l <= Z.to_nat g)%nat) (split_layers g names).
Proof.
  intros Hg. unfold split_layers, py_range. split.
  - rewrite split_range by lia. simpl. apply take_ge.
    pose proof (cdiv_spec (len names - 0) g Hg). unfold len in *. nia.
  - apply Forall_fmap, Forall_forall. intros i _. simpl. unfold slice. rewrite length_take. lia.
Qed.

Lemma concat_pointwise (f g : nat -> list string) l :
  concat ((fun i => f i ++ g i) <$> l) ≡ₚ concat (f <$> l) ++ concat (g <$> l).
Proof. induction l as [|i l IH]; [done|]. rewrite !fmap_cons. simpl. rewrite IH. solve_Permutation. Qed.

Lemma concat_columns (names : list string) o g :
  (length names <= g)%nat -> concat ((fun i => option_list (names !! (i - o)%nat)) <$> seq o g) = names.
Proof.
  revert o g. induction names as [|n names IH]; intros o g Hg.
  - assert (forall l : list nat, concat ((fun i : nat => option_list (([] : list string) !! (i - o)%nat)) <$> l) = []) as Hnil.
    { induction l as [|i l IHl]; [done|]. rewrite fmap_cons. simpl. done. }
    apply Hnil.
  - destruct g as [|g]; [simpl in Hg; lia|]. cbn [seq]. rewrite fmap_cons. cbn [concat].
    rewrite Nat.sub_diag. cbn [option_list app lookup list_lookup]. simpl. f_equal.
    etrans; [|apply (IH (S o) g); simpl in Hg; lia]. f_equal.
    apply list_fmap_ext. intros j i Hi%list_elem_of_lookup_2%elem_of_seq.
    replace (i - o)%nat with (S (i - S o)) by lia. done.
Qed.

(** Every layer shares exactly one tensor. *)
Lemma shared_layers_perm grouped g :
  Forall (fun names : list string => (length names <= g)%nat) grouped ->
  concat (shared_layers grouped <$> seq 0 g) ≡ₚ concat grouped.
Proof.
  induction 1 as [|names grouped Hn _ IH]; simpl.
  - generalize (seq 0 g) as l. induction l as [|i l IHl]; [done|]. by rewrite fmap_cons.
  - rewrite <- IH. rewrite <- (concat_columns names 0 g Hn) at 2.
    rewrite <- concat_pointwise.
    assert (shared_layers (names :: grouped) <$> seq 0 g =
      (fun i => option_list (names !! (i - 0)%nat) ++ shared_layers grouped i) <$> seq 0 g) as ->; [|done].
    apply list_fmap_ext. intros j i _. unfold shared_layers. simpl. rewrite Nat.sub_0_r. by destruct (names !! i).
Qed.

Lemma foldl_min_le l : forall x y, y = x \/ y ∈ l -> (foldl Nat.min x l <= y)%nat.
Proof.
  induction l as [|z l IH]; intros x y; simpl.
  - intros [->|Hy]; [lia|by apply not_elem_of_nil in Hy].
  - intros Hy. rewrite elem_of_cons in Hy. destruct Hy as [->|[->|Hy]].
    + etrans; [apply (IH (Nat.min x z) (Nat.min x z)); by left|lia].
    + etrans; [apply (IH (Nat.min x z) (Nat.min x z)); by left|lia].
    + apply IH. by right.
Qed.

Lemma foldl_min_pos l x : (0 < x)%nat -> Forall (fun y => (0 < y)%nat) l -> (0 < foldl Nat.min x l)%nat.
Proof. revert x. induction l as [|y l IH]; intros x Hx Hl; [done|]. apply Forall_cons in Hl as [Hy Hl]. apply IH; [lia|done]. Qed.

Lemma total_size_tensors (f : nat -> list string) n g gs nb :
  total_size (mkKVCacheConfig nb ((fun i => mkKVCacheTensor n (f i)) <$> seq 0 g) gs) = Z.of_nat g * n.
Proof. unfold total_size. simpl. rewrite total_size_const. unfold len. by rewrite length_seq. Qed.

Lemma page_size_config_ok c layers available_memory config :
  Forall spec_wf layers.*2 -> 0 <= available_memory ->
  _get_kv_cache_config_uniform_page_size c layers available_memory = Ok config ->
  concat (layer_names <$> kv_cache_groups config) ≡ₚ layers.*1 /\
  concat (shared_by <$> kv_cache_tensors config) ≡ₚ layers.*1 /\
  Forall (group_ok layers) (kv_cache_groups config) /\
  Forall (fun g => (length (layer_names g) <= length (kv_cache_tensors config))%nat) (kv_cache_groups config) /\
  total_size config <= available_memory.
Proof.
  intros Hwf Ha. unfold _get_kv_cache_config_uniform_page_size.
  destruct (same_type_layers_spec layers) as [Hperm Hne].
  destruct (same_type_layers layers) as [|names rest]; [done|]. apply Forall_cons in Hne as [Hn0 Hne].
  cbv zeta. set (g := foldl Nat.min (length names) (length <$> rest)).
  assert (Hg : (0 < g)%nat).
  { apply foldl_min_pos; [by destruct names; simpl; [|lia]|]. apply Forall_fmap. eapply Forall_impl; [exact Hne|].
    intros l Hl. simpl. destruct l; [done|simpl; lia]. }
  set (grouped := concat (split_layers (Z.of_nat g) <$> (names :: rest))).
  assert (Hgroups : concat grouped = concat (names :: rest) /\ Forall (fun l => (length l <= g)%nat) grouped).
  { unfold grouped. generalize (names :: rest) as ls. induction ls as [|l ls [IH1 IH2]]; [done|].
    destruct (split_layers_spec (Z.of_nat g) l ltac:(lia)) as [E1 E2]. rewrite Nat2Z.id in E2.
    rewrite fmap_cons. cbn [concat]. rewrite concat_app, E1, IH1. split; [done|]. by apply Forall_app. }
  destruct Hgroups as [Eg Hlen]. clearbody grouped.
  destruct (create_kv_cache_group_specs layers grouped) as [groups|] eqn:Ec; [|done]. cbn [mbind result_mbind].
  destruct (get_uniform_page_size layers) as [p|] eqn:Ep; [|done]. cbn [mbind result_mbind].
  destruct (get_num_blocks c (Z.of_nat g) available_memory p) as [n|] eqn:En; [|done]. cbn [mbind result_mbind].
  destruct (get_max_concurrency_for_kv_cache_config c _) as [q|]; [|done]. cbn [mbind result_mbind].
  intros [= <-]. cbn [kv_cache_groups kv_cache_tensors].
  destruct (create_groups_ok _ _ _ Ec) as [Enames Hok].
  assert (Hp : 0 < p).
  { pose proof (get_uniform_page_size_ok _ _ Ep) as Hpp.
    destruct layers as [|[x s] ls]; [simpl in Hperm; by apply Permutation_nil_r in Hperm; destruct names|].
    rewrite fmap_cons in *. apply Forall_cons in Hpp as [<- _]. apply Forall_cons in Hwf as [Hs _]. by apply page_size_pos. }
  destruct (get_num_blocks_ok c (Z.of_nat g) available_memory p n ltac:(lia) Hp Ha En) as (Hn & Hle & _).
  split_and!.
  - by rewrite Enames, Eg, Hperm.
  - rewrite <- list_fmap_compose. change (shared_by ∘ _) with (shared_layers grouped).
    rewrite shared_layers_perm by done. by rewrite Eg, Hperm.
  - done.
  - rewrite length_fmap, length_seq. rewrite <- Enames in Hlen. by rewrite Forall_fmap in Hlen.
  - rewrite total_size_tensors. lia.
Qed.

(** ** Workers *)

Lemma insert_group_perm g l : insert_group g l ≡ₚ g :: l.
Proof.
  induction l as [|h l IH]; [done|]. cbn [insert_group]. destruct (String.leb _ _); [done|].
  rewrite IH. solve_Permutation.
Qed.

Lemma sort_groups_perm l : sort_groups l ≡ₚ l.
Proof. induction l as [|g l IH]; [done|]. cbn [sort_groups foldr]. rewrite insert_group_perm. by f_equiv. Qed.

Lemma foldl_zmin_le l : forall x y, y = x \/ y ∈ l -> foldl Z.min x l <= y.
Proof.
  induction l as [|z l IH]; intros x y; simpl.
  - intros [->|Hy]; [lia|by apply not_elem_of_nil in Hy].
  - intros Hy. rewrite elem_of_cons in Hy. destruct Hy as [->|[->|Hy]].
    + etrans; [apply (IH (Z.min x z) (Z.min x z)); by left|lia].
    + etrans; [apply (IH (Z.min x z) (Z.min x z)); by left|lia].
    + apply IH. by right.
Qed.

Lemma foldl_zmin_in l x : foldl Z.min x l ∈ x :: l.
Proof.
  revert x. induction l as [|z l IH]; intros x; simpl; [set_solver|]. specialize (IH (Z.min x z)).
  destruct (Z.min_spec x z) as [[_ E]|[_ E]]; rewrite E in *; set_solver.
Qed.

(** ** Properties *)

(** The search for the largest model length terminates with the greatest
    length, up to the configured one, whose requests fit in memory, or zero if
    not even one token fits. *)
Theorem estimate_max_model_len_spec c specs available_memory :
  Forall spec_wf specs -> 1 <= max_model_len c ->
  exists r c', estimate_max_model_len specs available_memory c = Ret r c' /\
    (r = 0 /\ ~ fits c specs available_memory 1 \/
     1 <= r <= max_model_len c /\ fits c specs available_memory r /\
       forall n, r < n <= max_model_len c -> ~ fits c specs available_memory n).
Proof.
  intros Hwf Hmax. destruct (wp_elim _ _ _ (wp_estimate c specs available_memory Hwf Hmax)) as (r & c' & E & Hr & _).
  by exists r, c'.
Qed.

(** The configuration of a model with full attention.  It is computed exactly
    when a request of maximal length fits in the memory, a [ValueError]
    otherwise; every layer has its own tensor, the tensors stay within the
    memory, all layers form one group, and there are blocks for a request of
    maximal length. *)
Theorem get_kv_cache_config_spec c layers b p available_memory :
  full_layers layers b p -> 1 <= max_model_len c ->
  match get_kv_cache_config available_memory (c, layers) with
  | Ret config s' => s' = (c, layers) /\ max_memory_usage_bytes c layers.*2 <= available_memory /\
      full_config_ok c layers b p available_memory config
  | Raise e _ => e = ValueError /\
      (available_memory <= 0 \/ available_memory < max_memory_usage_bytes c layers.*2)
  end.
Proof. intros Hl Hmax. by apply full_config. Qed.

(** The configuration of a hybrid model.  Every layer is in exactly one group
    and shares exactly one tensor, the layers of a group have the type of the
    group, no group has more layers than there are tensors, and the tensors
    stay within the memory. *)
Theorem uniform_page_size_config_spec c layers available_memory config :
  Forall spec_wf layers.*2 -> 0 <= available_memory ->
  _get_kv_cache_config_uniform_page_size c layers available_memory = Ok config ->
  concat (layer_names <$> kv_cache_groups config) ≡ₚ layers.*1 /\
  concat (shared_by <$> kv_cache_tensors config) ≡ₚ layers.*1 /\
  Forall (group_ok layers) (kv_cache_groups config) /\
  Forall (fun g => (length (layer_names g) <= length (kv_cache_tensors config))%nat) (kv_cache_groups config) /\
  total_size config <= available_memory.
Proof. apply page_size_config_ok. Qed.

(** Unifying the workers gives all of them the smallest number of blocks, one
    of theirs, keeps their tensors, and only reorders their groups. *)
Theorem unify_kv_cache_configs_spec configs configs' s' :
  unify_kv_cache_configs configs = Ret configs' s' ->
  exists n, n ∈ num_blocks <$> configs /\ Forall (fun c => n <= num_blocks c) configs /\
    Forall2 (fun c c' => num_blocks c' = n /\ kv_cache_tensors c' = kv_cache_tensors c /\
      kv_cache_groups c' ≡ₚ kv_cache_groups c) configs configs'.
Proof.
  unfold unify_kv_cache_configs, mbind, M_mbind, M_bind, modify, get_state, py_assert.
  destruct (match _ with [] => _ | _ => _ end); [|done]. cbn [mret M_mret M_ret].
  destruct configs as [|c0 rest]; [done|]. rewrite fmap_cons. cbn [num_blocks with_groups].
  set (n := foldl Z.min _ _). unfold M_mret, M_ret. cbn beta iota. intros [= <- _]. exists n.
  assert (E : num_blocks <$> ((fun c => with_groups (sort_groups (kv_cache_groups c)) c) <$> rest) = num_blocks <$> rest)
    by (rewrite <- list_fmap_compose; done).
  unfold n. rewrite E. split; [rewrite fmap_cons; apply foldl_zmin_in|]. split.
  - apply Forall_forall. intros c Hc. apply foldl_zmin_le. apply elem_of_cons in Hc as [->|Hc]; [by left|].
    right. apply list_elem_of_fmap. by exists c.
  - rewrite <- list_fmap_compose. constructor; [simpl; by rewrite sort_groups_perm|].
    apply Forall2_fmap_r, Forall_Forall2_diag, Forall_forall. intros c _. simpl. by rewrite sort_groups_perm.
Qed.

(** *** Concrete configurations *)

Definition sample_vllm_config (max_len : Z) (override : option Z) : VllmConfig :=
  mkVllmConfig max_len 64 override false 90.

Definition sample_layers : Layers :=
  [("l0"%string, FullAttentionSpec sample_attention None); ("l1"%string, FullAttentionSpec sample_attention None)].

(** One full and two sliding-window layers. *)
Definition hybrid_layers : Layers :=
  [("f"%string, FullAttentionSpec sample_attention None); ("s0"%string, SlidingWindowSpec sample_attention 4);
   ("s1"%string, SlidingWindowSpec sample_attention 4)].

Lemma sample_full_layers : full_layers sample_layers 2 8192.
Proof.
  split; [done| | |vm_compute; lia|].
  - repeat constructor.
  - repeat constructor.
  - apply (bool_decide_unpack _). reflexivity.
Qed.

(** The block the pool keeps as null block is not counted: with exactly the
    memory that the check asks for, the configuration is accepted, but an empty
    manager refuses a request of the maximal length. *)
Theorem maximal_request_is_refused :
  match get_kv_cache_config 65536 (sample_vllm_config 8 None, sample_layers) with
  | Ret config _ =>
      match init_kv_cache_manager (Q := FreeKVCacheBlockQueue.t) config 8 false false false false with
      | Ok k =>
          match allocate_slots code_hash (-1) (sample_request "a" [1; 2; 3; 4; 5; 6; 7; 8]) 8 0 None 0 0 false k with
          | Ret None _ => True
          | _ => False
          end
      | Err _ => False
      end
  | Raise _ _ => False
  end.
Proof. vm_compute. exact I. Qed.

(** [num_gpu_blocks_override] is logged as applied and has no effect. *)
Theorem num_gpu_blocks_override_is_ignored c o pools available_memory page :
  get_num_blocks (mkVllmConfig (max_model_len c) (max_num_batched_tokens c) o
    (disable_hybrid_kv_cache_manager c) (gpu_memory_utilization_pct c)) pools available_memory page =
  get_num_blocks c pools available_memory page.
Proof. apply get_num_blocks_override. Qed.

(** The comparison of the workers' groups stops at the shorter list: a worker
    with one group and one with two are unified without an error. *)
Theorem unify_accepts_different_groups :
  let g name := mkKVCacheGroupSpec [name] (FullAttentionSpec sample_attention None) in
  let one := mkKVCacheConfig 7 [] [g "l0"%string] in
  let two := mkKVCacheConfig 5 [] [g "l0"%string; g "l1"%string] in
  match unify_kv_cache_configs [one; two] with
  | Ret configs _ => (fun c => length (kv_cache_groups c)) <$> configs = [1; 2]%nat
  | Raise _ _ => False
  end.
Proof. vm_compute. reflexivity. Qed.

Lemma estimate_max_model_len_spec_witness :
  exists r c', estimate_max_model_len sample_layers.*2 40000 (sample_vllm_config 64 None) = Ret r c' /\ r <= 64.
Proof.
  destruct (estimate_max_model_len_spec (sample_vllm_config 64 None) sample_layers.*2 40000
    (fl_wf _ _ _ sample_full_layers) ltac:(simpl; lia)) as (r & c' & E & Hr).
  exists r, c'. split; [exact E|]. simpl in Hr. destruct Hr as [[Hr _]|[Hr _]]; lia.
Defined.

Lemma get_kv_cache_config_spec_witness :
  match get_kv_cache_config 100000 (sample_vllm_config 8 None, sample_layers) with
  | Ret config _ => full_config_ok (sample_vllm_config 8 None) sample_layers 2 8192 100000 config
  | Raise _ _ => False
  end.
Proof.
  assert (Hret : match get_kv_cache_config 100000 (sample_vllm_config 8 None, sample_layers) with
    | Ret _ _ => True | Raise _ _ => False end) by (vm_compute; exact I).
  pose proof (get_kv_cache_config_spec (sample_vllm_config 8 None) sample_layers 2 8192 100000
    sample_full_layers ltac:(simpl; lia)) as Hspec.
  destruct (get_kv_cache_config _ _) as [config s'|e s']; [|exact Hret]. apply Hspec.
Defined.

Lemma uniform_page_size_config_spec_witness :
  exists config, _get_kv_cache_config_uniform_page_size (sample_vllm_config 8 None) hybrid_layers 100000 = Ok config /\
    total_size config <= 100000.
Proof.
  destruct (_get_kv_cache_config_uniform_page_size (sample_vllm_config 8 None) hybrid_layers 100000) as [config|] eqn:E;
    [|vm_compute in E; discriminate E].
  exists config. split; [reflexivity|].
  apply (uniform_page_size_config_spec (sample_vllm_config 8 None) hybrid_layers 100000 config);
    [repeat constructor|lia|exact E].
Defined.

Lemma unify_kv_cache_configs_spec_witness :
  exists n, n ∈ num_blocks <$> [mkKVCacheConfig 7 [] []; mkKVCacheConfig 5 [] []].
Proof.
  destruct (unify_kv_cache_configs_spec [mkKVCacheConfig 7 [] []; mkKVCacheConfig 5 [] []] _ _ eq_refl) as (n & Hn & _).
  exists n. exact Hn.
Defined.
