(* ===== verification/EncoderCache.v ===== *)
(** The encoder cache of [vllm/v1/core/encoder_cache_manager.py]: which
    multi-modal inputs of which requests have their encoder output stored, how
    many token slots are free, and the budgets. *)

From Stdlib Require Import ZArith Lia.
From stdpp Require Import base strings numbers gmap list.
From S2P Require Import Prelude.
From S2P Require Import Request.

Open Scope Z_scope.

Record EncoderCacheManager := mkEncoderCache {
  cache_size : Z;
  num_free_slots : Z;
  cached : gmap string (gset nat);
  freed : list (string * nat)
}.

Definition init_encoder_cache (cache_size : Z) : EncoderCacheManager :=
  mkEncoderCache cache_size cache_size ∅ [].

Definition has_cache (e : EncoderCacheManager) (r : Request) (input_id : nat) : bool :=
  match cached e !! request_id r with
  | Some ids => bool_decide (input_id ∈ ids)
  | None => false
  end.

Definition can_allocate (e : EncoderCacheManager) (r : Request) (input_id : nat) : result bool :=
  n ← get_num_encoder_tokens r input_id;
  mret (n <=? num_free_slots e).

(** The set is extended before the size is looked up. *)
Definition enc_allocate (r : Request) (input_id : nat) : M EncoderCacheManager unit :=
  modify (fun e => mkEncoderCache (cache_size e) (num_free_slots e)
    (<[request_id r := default ∅ (cached e !! request_id r) ∪ {[input_id]}]> (cached e)) (freed e));;
  n ← lift_result (get_num_encoder_tokens r input_id);
  modify (fun e => mkEncoderCache (cache_size e) (num_free_slots e - n) (cached e) (freed e)).

Definition get_cached_input_ids (e : EncoderCacheManager) (r : Request) : gset nat :=
  default ∅ (cached e !! request_id r).

Definition free_encoder_input (r : Request) (input_id : nat) : M EncoderCacheManager unit :=
  e ← get_state;
  match cached e !! request_id r with
  | None => mret tt
  | Some ids =>
      let ids' := ids ∖ {[input_id]} in
      modify (fun e => mkEncoderCache (cache_size e) (num_free_slots e)
        (if decide (ids' = ∅) then delete (request_id r) (cached e)
         else <[request_id r := ids']> (cached e)) (freed e));;
      n ← lift_result (get_num_encoder_tokens r input_id);
      modify (fun e => mkEncoderCache (cache_size e) (num_free_slots e + n) (cached e)
        (freed e ++ [(request_id r, input_id)]))
  end.

(** [free] iterates over a copy of the set (in the order of [elements]). *)
Definition enc_free (r : Request) : M EncoderCacheManager unit :=
  e ← get_state;
  for_each (free_encoder_input r) (elements (get_cached_input_ids e r)).

Definition get_freed_ids : M EncoderCacheManager (list (string * nat)) :=
  e ← get_state;
  put_state (mkEncoderCache (cache_size e) (num_free_slots e) (cached e) []);;
  mret (freed e).

(** *** Budgets

    The largest item of each enabled modality comes from the multi-modal
    registry; [max] takes the first largest, only its size is used. *)

Record EncoderConfig := mkEncoderConfig {
  is_multimodal_model : bool;
  cfg_disable_chunked_mm_input : bool;
  cfg_max_num_batched_tokens : Z;
  max_num_encoder_input_tokens : Z;
  encoder_cache_size : Z
}.

Definition _compute_encoder_budget_multimodal (c : EncoderConfig) (max_tokens_by_modality : list Z)
    : result (Z * Z) :=
  match max_tokens_by_modality with
  | [] => Ok (0, 0)
  | x :: xs =>
      let max_tokens_per_mm_item := foldl Z.max x xs in
      if cfg_disable_chunked_mm_input c && (cfg_max_num_batched_tokens c <? max_tokens_per_mm_item)
      then Err ValueError
      else Ok (Z.max (max_num_encoder_input_tokens c) max_tokens_per_mm_item,
               Z.max (encoder_cache_size c) max_tokens_per_mm_item)
  end.

Definition compute_encoder_budget (c : EncoderConfig) (max_tokens_by_modality : list Z)
    : result (Z * Z) :=
  if negb (is_multimodal_model c) then Ok (0, 0)
  else _compute_encoder_budget_multimodal c max_tokens_by_modality.

(** ** The slots are accounted for

    [reqs] are the requests the cache holds inputs of; their placeholder
    ranges do not change. *)

Definition input_tokens (r : Request) (i : nat) : Z :=
  match mm_positions r !! i with Some p => pr_length p | None => 0 end.

Definition sum_tokens (r : Request) (ids : gset nat) : Z :=
  foldr (fun i acc => input_tokens r i + acc) 0 (elements ids).

Lemma foldr_perm (f : nat -> Z) l k :
  l ≡ₚ k -> foldr (fun i acc => f i + acc) 0 l = foldr (fun i acc => f i + acc) 0 k.
Proof. induction 1; simpl; lia. Qed.

Lemma sum_tokens_add r ids i :
  i ∉ ids -> sum_tokens r (ids ∪ {[i]}) = sum_tokens r ids + input_tokens r i.
Proof.
  intros Hi. unfold sum_tokens. rewrite (foldr_perm _ _ (i :: elements ids)).
  - simpl. lia.
  - rewrite (comm_L union). by apply elements_union_singleton.
Qed.

Lemma sum_tokens_remove r ids i :
  i ∈ ids -> sum_tokens r ids = sum_tokens r (ids ∖ {[i]}) + input_tokens r i.
Proof.
  intros Hi. rewrite <- sum_tokens_add by set_solver. f_equal. apply set_eq. intros x.
  destruct (decide (x = i)); set_solver.
Qed.

Lemma sum_tokens_empty r : sum_tokens r ∅ = 0.
Proof. done. Qed.

(** Slots in use by the request [id]. *)
Definition used_by (reqs : gmap string Request) (id : string) (ids : gset nat) : Z :=
  match reqs !! id with Some r => sum_tokens r ids | None => 0 end.

Definition used (reqs : gmap string Request) (c : gmap string (gset nat)) : Z :=
  foldr (fun kv acc => used_by reqs kv.1 kv.2 + acc) 0 (map_to_list c).

Lemma used_perm reqs l k : l ≡ₚ k ->
  foldr (fun kv acc => used_by reqs kv.1 kv.2 + acc) 0 l =
  foldr (fun (kv : string * gset nat) acc => used_by reqs kv.1 kv.2 + acc) 0 k.
Proof. induction 1; simpl; lia. Qed.

Lemma used_delete reqs c id :
  used reqs c = used_by reqs id (default ∅ (c !! id)) + used reqs (delete id c).
Proof.
  unfold used. destruct (c !! id) as [ids|] eqn:E; simpl.
  - by rewrite (used_perm _ _ _ (Permutation_sym (map_to_list_delete c id ids E))).
  - rewrite delete_id by done. unfold used_by. destruct (reqs !! id); [rewrite sum_tokens_empty|]; lia.
Qed.

Lemma used_insert reqs c id ids :
  used reqs (<[id := ids]> c) = used_by reqs id ids + used reqs (delete id c).
Proof.
  rewrite (used_delete reqs (<[id := ids]> c) id), lookup_insert_eq, delete_insert_eq. done.
Qed.

(** The invariant: free slots and stored inputs make up the cache, no request
    is listed without an input, and only valid inputs are stored. *)
Record enc_inv (reqs : gmap string Request) (e : EncoderCacheManager) : Prop := {
  ei_slots : num_free_slots e + used reqs (cached e) = cache_size e;
  ei_nonempty id ids : cached e !! id = Some ids -> ids <> ∅;
  ei_valid id ids i : cached e !! id = Some ids -> i ∈ ids ->
    exists r, reqs !! id = Some r /\ (i < length (mm_positions r))%nat
}.

Lemma get_num_encoder_tokens_ok r i :
  (i < length (mm_positions r))%nat -> get_num_encoder_tokens r i = Ok (input_tokens r i).
Proof.
  intros Hi. unfold get_num_encoder_tokens, input_tokens.
  destruct (lookup_lt_is_Some_2 _ _ Hi) as [p ->]. done.
Qed.

Lemma has_cache_iff e r i : has_cache e r i = true <-> i ∈ get_cached_input_ids e r.
Proof.
  unfold has_cache, get_cached_input_ids. destruct (cached e !! request_id r); simpl.
  - apply bool_decide_eq_true.
  - split; [done|set_solver].
Qed.

Lemma wp_enc_allocate reqs e r i :
  enc_inv reqs e -> reqs !! request_id r = Some r -> (i < length (mm_positions r))%nat ->
  has_cache e r i = false ->
  wp (enc_allocate r i) (fun _ e' => enc_inv reqs e' /\
    num_free_slots e' = num_free_slots e - input_tokens r i /\
    get_cached_input_ids e' r = get_cached_input_ids e r ∪ {[i]} /\ has_cache e' r i = true) e.
Proof.
  intros [Hs Hne Hv] Hr Hi Hc. unfold enc_allocate. wp_steps. simpl.
  rewrite get_num_encoder_tokens_ok by done. unfold lift_result. unfold wp at 1. simpl.
  assert (i ∉ get_cached_input_ids e r) as Hni by (rewrite <- has_cache_iff, Hc; done).
  unfold get_cached_input_ids in *. split_and!; [split; simpl|done| |].
  - rewrite used_insert. rewrite (used_delete reqs (cached e) (request_id r)) in Hs.
    unfold used_by in *. rewrite Hr in *. rewrite sum_tokens_add by done. lia.
  - intros id ids [[<- <-]|[_ Hl]]%lookup_insert_Some; [set_solver|by eapply Hne].
  - intros id ids j [[<- <-]|[_ Hl]]%lookup_insert_Some Hj; [|by eapply Hv].
    exists r. split; [done|]. apply elem_of_union in Hj as [Hj|Hj]; [|by apply elem_of_singleton in Hj as ->].
    destruct (cached e !! request_id r) as [ids0|] eqn:E; simpl in Hj; [|set_solver].
    destruct (Hv _ _ _ E Hj) as (r' & Hr' & Hlt). congruence.
  - simpl. by rewrite lookup_insert_eq.
  - unfold has_cache. simpl. rewrite lookup_insert_eq. apply bool_decide_eq_true. set_solver.
Qed.

Lemma wp_free_encoder_input reqs e r i :
  enc_inv reqs e -> reqs !! request_id r = Some r -> i ∈ get_cached_input_ids e r ->
  wp (free_encoder_input r i) (fun _ e' => enc_inv reqs e' /\
    num_free_slots e' = num_free_slots e + input_tokens r i /\
    get_cached_input_ids e' r = get_cached_input_ids e r ∖ {[i]} /\
    freed e' = freed e ++ [(request_id r, i)]) e.
Proof.
  intros [Hs Hne Hv] Hr Hi. unfold free_encoder_input. wp_steps. unfold get_cached_input_ids in *. simpl.
  destruct (cached e !! request_id r) as [ids|] eqn:E; simpl in *; [|set_solver].
  assert (i < length (mm_positions r))%nat as Hlt.
  { destruct (Hv _ _ _ E Hi) as (r' & Hr' & ?). congruence. }
  wp_steps. rewrite get_num_encoder_tokens_ok by done. unfold lift_result. unfold wp at 1. simpl.
  split_and!; [split; simpl|done| |done].
  - rewrite (used_delete reqs (cached e) (request_id r)), E in Hs. simpl in Hs.
    unfold used_by in Hs. rewrite Hr in Hs. rewrite (sum_tokens_remove _ _ _ Hi) in Hs.
    case_decide as Hd; [rewrite Hd, sum_tokens_empty in Hs; lia|].
    rewrite used_insert. unfold used_by. rewrite Hr. lia.
  - intros id ids'. case_decide; [intros [_ Hl]%lookup_delete_Some; by eapply Hne|].
    intros [[<- <-]|[_ Hl]]%lookup_insert_Some; [done|by eapply Hne].
  - intros id ids' j. case_decide; [intros [_ Hl]%lookup_delete_Some; by apply Hv|].
    intros [[<- <-]|[_ Hl]]%lookup_insert_Some Hj; [|by eapply Hv].
    eapply Hv; [exact E|set_solver].
  - simpl. case_decide as Hd; [rewrite lookup_delete_eq; simpl; by rewrite Hd|by rewrite lookup_insert_eq].
Qed.

Lemma wp_enc_free reqs e r :
  enc_inv reqs e -> reqs !! request_id r = Some r ->
  wp (enc_free r) (fun _ e' => enc_inv reqs e' /\ get_cached_input_ids e' r = ∅ /\
    num_free_slots e' = num_free_slots e + sum_tokens r (get_cached_input_ids e r)) e.
Proof.
  intros He Hr. unfold enc_free. wp_steps. simpl.
  eapply wp_mono.
  { apply (wp_for_each _ (fun l e' => enc_inv reqs e' /\ NoDup l /\
      get_cached_input_ids e' r = list_to_set l /\
      num_free_slots e' + foldr (fun i acc => input_tokens r i + acc) 0 l =
      num_free_slots e + sum_tokens r (get_cached_input_ids e r))).
    - split_and!; [done|apply NoDup_elements|by rewrite list_to_set_elements_L|done].
    - intros i l e' (He' & Hnd & Hset & Hsum). apply NoDup_cons in Hnd as [Hi Hnd].
      eapply wp_mono; [apply (wp_free_encoder_input reqs e' r i He' Hr); set_solver|].
      intros [] e'' (He'' & Hfree & Hset' & _). split_and!; [done|done| |simpl in Hsum; lia].
      rewrite Hset', Hset. simpl. assert (i ∉@{gset nat} list_to_set l) by set_solver. set_solver. }
  intros [] e' (He' & _ & Hset & Hsum). simpl in *. split_and!; [done|done|lia].
Qed.

(** *** Properties *)

(** Allocating an input that is not cached takes exactly its tokens from the
    free slots and caches it, and keeps the accounting: the free slots are the
    cache size less the tokens of all cached inputs. *)
Theorem enc_allocate_spec reqs e r i :
  enc_inv reqs e -> reqs !! request_id r = Some r -> (i < length (mm_positions r))%nat ->
  has_cache e r i = false ->
  exists e', enc_allocate r i e = Ret tt e' /\ enc_inv reqs e' /\
    num_free_slots e' = num_free_slots e - input_tokens r i /\ has_cache e' r i = true.
Proof.
  intros He Hr Hi Hc. destruct (wp_elim _ _ _ (wp_enc_allocate reqs e r i He Hr Hi Hc)) as ([] & e' & E & H1 & H2 & _ & H3).
  by exists e'.
Qed.

(** Freeing a request gives back the tokens of exactly its cached inputs. *)
Theorem enc_free_spec reqs e r :
  enc_inv reqs e -> reqs !! request_id r = Some r ->
  exists e', enc_free r e = Ret tt e' /\ enc_inv reqs e' /\ get_cached_input_ids e' r = ∅ /\
    num_free_slots e' = num_free_slots e + sum_tokens r (get_cached_input_ids e r).
Proof.
  intros He Hr. destruct (wp_elim _ _ _ (wp_enc_free reqs e r He Hr)) as ([] & e' & E & H1 & H2 & H3).
  by exists e'.
Qed.

Lemma foldl_max_ge l : forall x y, y = x \/ y ∈ l -> y <= foldl Z.max x l.
Proof.
  induction l as [|z l IH]; intros x y; simpl.
  - intros [->|Hy]; [lia|by apply not_elem_of_nil in Hy].
  - intros Hy. rewrite elem_of_cons in Hy. destruct Hy as [->|[->|Hy]].
    + etrans; [|apply IH; by left]. lia.
    + etrans; [|apply IH; by left]. lia.
    + apply IH. by right.
Qed.

(** The encoder budgets.  Unless chunked multi-modal input is disabled and an
    item exceeds the batch, which is an error, both the compute budget and the
    cache hold the largest item of every modality. *)
Theorem compute_encoder_budget_spec c items :
  is_multimodal_model c = true ->
  match compute_encoder_budget c items with
  | Ok (compute, cache) => Forall (fun n => n <= compute /\ n <= cache) items /\
      (items <> [] -> max_num_encoder_input_tokens c <= compute /\ encoder_cache_size c <= cache) /\
      (cfg_disable_chunked_mm_input c = true -> Forall (fun n => n <= cfg_max_num_batched_tokens c) items)
  | Err e => e = ValueError /\ cfg_disable_chunked_mm_input c = true /\
      exists n, n ∈ items /\ cfg_max_num_batched_tokens c < n
  end.
Proof.
  intros Hm. unfold compute_encoder_budget. rewrite Hm. simpl.
  destruct items as [|x xs]; simpl; [done|].
  assert (Hge : forall y, y ∈ x :: xs -> y <= foldl Z.max x xs).
  { intros y Hy. apply foldl_max_ge. by rewrite elem_of_cons in Hy. }
  assert (Hin : forall l z, foldl Z.max z l ∈ z :: l).
  { induction l as [|y l IH]; intros z; simpl; [set_solver|]. specialize (IH (Z.max z y)).
    destruct (Z.max_spec z y) as [[_ E]|[_ E]]; rewrite E in *; set_solver. }
  destruct (cfg_disable_chunked_mm_input c && _) eqn:E.
  - apply andb_true_iff in E as [Ed E]. split; [done|]. split; [done|]. exists (foldl Z.max x xs). split; [apply Hin|lia].
  - split; [|split].
    + apply Forall_forall. intros y Hy%Hge. lia.
    + lia.
    + intros Hd. rewrite Hd in E. simpl in E. apply Forall_forall. intros y Hy%Hge. lia.
Qed.

Lemma enc_allocate_spec_witness :
  let r := sample_image_request "a" [1; 2; 3; 4; 5; 6; 7; 8] in
  exists e', enc_allocate r 0 (init_encoder_cache 10) = Ret tt e' /\ num_free_slots e' = 6.
Proof.
  intros r.
  assert (Hi : enc_inv {["a"%string := r]} (init_encoder_cache 10)).
  { split; [reflexivity| |]; intros id ids; simpl; rewrite lookup_empty; discriminate. }
  destruct (enc_allocate_spec {["a"%string := r]} (init_encoder_cache 10) r 0 Hi ltac:(reflexivity)
    ltac:(simpl; lia) ltac:(reflexivity)) as (e' & E & _ & Hf & _).
  exists e'. split; [exact E|]. rewrite Hf. reflexivity.
Defined.

Lemma enc_free_spec_witness :
  let r := sample_image_request "a" [1; 2; 3; 4; 5; 6; 7; 8] in
  exists e e', enc_free r e = Ret tt e' /\ num_free_slots e' = 10.
Proof.
  intros r.
  assert (Hi : enc_inv {["a"%string := r]} (init_encoder_cache 10)).
  { split; [reflexivity| |]; intros id ids; simpl; rewrite lookup_empty; discriminate. }
  destruct (enc_free_spec {["a"%string := r]} (init_encoder_cache 10) r Hi ltac:(reflexivity)) as (e' & E & _ & _ & Hf).
  exists (init_encoder_cache 10), e'. split; [exact E|]. rewrite Hf. reflexivity.
Defined.

Lemma compute_encoder_budget_spec_witness :
  Forall (fun n => n <= 9 /\ n <= 9) [3; 9; 4].
Proof.
  apply (compute_encoder_budget_spec (mkEncoderConfig true false 8 5 6) [3; 9; 4]). reflexivity.
Defined.
