(* ===== verification/Scheduler.v ===== *)
(** The scheduler of [vllm/v1/core/sched/scheduler.py]: queues of requests,
    [schedule], [update_from_output] and the life of a request.

    A [Request] object is shared by the queues and the [requests] dict; it is
    referred to by its id (ids of live requests are unique) and the objects
    are in [heap].  The KV connector and the structured-output manager are
    interfaces: a connector is any state with the four operations of
    [KVConnector], the grammar decisions are functions. *)

From Stdlib Require Import ZArith Lia.
From stdpp Require Import base strings numbers gmap list.
From S2P Require Import Prelude.
From S2P Require Import KVBlock.
From S2P Require Import FreeQueue.
From S2P Require Import LinkedQueue.
From S2P Require Import HPUQueue.
From S2P Require Import Request.
From S2P Require Import BlockHashing.
From S2P Require Import KVSpec.
From S2P Require Import BlockPool.
From S2P Require Import SingleType.
From S2P Require Import Coordinator.
From S2P Require Import KVManager.
From S2P Require Import EncoderCache.

Open Scope Z_scope.

(** ** Outputs ([sched/output.py], [v1/engine], [v1/outputs.py]) *)

Record NewRequestData := mkNewRequestData {
  nr_req_id : string;
  nr_prompt_token_ids : list Z;
  nr_mm_hashes : list (option string);
  nr_mm_positions : list PlaceholderRange;
  nr_sampling_params : SamplingParams;
  nr_block_ids : list (list nat);
  nr_num_computed_tokens : Z;
  nr_lora_request : option LoRARequest
}.

Definition NewRequestData_from_request (r : Request) (block_ids : list (list nat)) : NewRequestData :=
  mkNewRequestData (request_id r) (prompt_token_ids r) (mm_hashes r) (mm_positions r)
    (sampling_params r) block_ids (num_computed_tokens r) (lora_request r).

Record CachedRequestData := mkCachedRequestData {
  cr_req_id : string;
  resumed_from_preemption : bool;
  new_token_ids : list Z;
  new_block_ids : list (list nat);
  cr_num_computed_tokens : Z
}.

Definition CachedRequestData_from_request (r : Request) (resumed : bool) (tokens : list Z)
    (block_ids : list (list nat)) : CachedRequestData :=
  mkCachedRequestData (request_id r) resumed tokens block_ids (num_computed_tokens r).

Record SchedulerOutput := mkSchedulerOutput {
  scheduled_new_reqs : list NewRequestData;
  scheduled_cached_reqs : list CachedRequestData;
  num_scheduled_tokens : gmap string Z;
  total_num_scheduled_tokens : Z;
  scheduled_spec_decode_tokens : gmap string (list Z);
  scheduled_encoder_inputs : gmap string (list nat);
  num_common_prefix_blocks : list Z;
  out_finished_req_ids : gset string;
  free_encoder_input_ids : list (string * nat);
  structured_output_request_ids : gmap string nat;
  (** The KV events handed to the publisher. *)
  published_events : list KVCacheEvent
}.

(** The fields of [ModelRunnerOutput] the scheduler reads; of the prompt
    log-probabilities only whether a request has some. *)
Record ModelRunnerOutput := mkModelRunnerOutput {
  req_id_to_index : gmap string nat;
  sampled_token_ids : list (list Z);
  mro_spec_token_ids : option (list (list Z));
  has_prompt_logprobs : gset string;
  finished_sending : list string;
  finished_recving : list string
}.

(** Parameters for the peer of a KV transfer; a non-empty dict counts as true. *)
Definition KVParams := option (list (string * string)).

Record EngineCoreOutput := mkEngineCoreOutput {
  eo_request_id : string;
  eo_new_token_ids : list Z;
  eo_finish_reason : option FinishReason;
  eo_stop_reason : option Z;
  eo_events : option (list EngineCoreEventType);
  eo_kv_transfer_params : KVParams;
  eo_num_cached_tokens : Z
}.

(** ** The interfaces *)

Class KVConnector (C : Type) := {
  get_num_new_matched_tokens : Request -> Z -> C -> (Z * bool) * C;
  update_state_after_alloc : Request -> list (list nat) -> Z -> C -> C;
  build_connector_meta : C -> C;
  (** Whether freeing the blocks is delayed, and the parameters to return. *)
  request_finished : Request -> list nat -> C -> (bool * KVParams) * C
}.

(** ** State *)

Record SchedConfig := mkSchedConfig {
  max_num_running_reqs : Z;
  max_num_scheduled_tokens : Z;
  sched_max_model_len : Z;
  long_prefill_token_threshold : Z;
  disable_chunked_mm_input : bool;
  max_loras : option Z;
  sched_log_stats : bool;
  sched_block_size : Z;
  num_lookahead_tokens : Z;
  num_spec_tokens : Z;
  sched_max_num_encoder_input_tokens : Z
}.

Record Scheduler (Q C : Type) := mkScheduler {
  cfg : SchedConfig;
  heap : gmap string Request;
  requests : gset string;
  waiting : list string;
  running : list string;
  finished_req_ids : gset string;
  finished_req_ids_dict : option (gmap Z (gset string));
  finished_recving_kv_req_ids : gset string;
  _cached_reqs_data : gmap string (list CachedRequestData);
  encoder_cache_manager : EncoderCacheManager;
  kv_cache_manager : KVCacheManager Q;
  connector : option C
}.
Arguments mkScheduler {Q C}.
Arguments cfg {Q C}.
Arguments heap {Q C}.
Arguments requests {Q C}.
Arguments waiting {Q C}.
Arguments running {Q C}.
Arguments finished_req_ids {Q C}.
Arguments finished_req_ids_dict {Q C}.
Arguments finished_recving_kv_req_ids {Q C}.
Arguments _cached_reqs_data {Q C}.
Arguments encoder_cache_manager {Q C}.
Arguments kv_cache_manager {Q C}.
Arguments connector {Q C}.

Section setters.
Context {Q C : Type}.
Abbreviation sched := (Scheduler Q C).
Definition set_heap (h : gmap string Request) (s : sched) : sched :=
  mkScheduler (cfg s) h (requests s) (waiting s) (running s) (finished_req_ids s) (finished_req_ids_dict s)
    (finished_recving_kv_req_ids s) (_cached_reqs_data s) (encoder_cache_manager s) (kv_cache_manager s) (connector s).
Definition set_requests (r : gset string) (s : sched) : sched :=
  mkScheduler (cfg s) (heap s) r (waiting s) (running s) (finished_req_ids s) (finished_req_ids_dict s)
    (finished_recving_kv_req_ids s) (_cached_reqs_data s) (encoder_cache_manager s) (kv_cache_manager s) (connector s).
Definition set_waiting (w : list string) (s : sched) : sched :=
  mkScheduler (cfg s) (heap s) (requests s) w (running s) (finished_req_ids s) (finished_req_ids_dict s)
    (finished_recving_kv_req_ids s) (_cached_reqs_data s) (encoder_cache_manager s) (kv_cache_manager s) (connector s).
Definition set_running (r : list string) (s : sched) : sched :=
  mkScheduler (cfg s) (heap s) (requests s) (waiting s) r (finished_req_ids s) (finished_req_ids_dict s)
    (finished_recving_kv_req_ids s) (_cached_reqs_data s) (encoder_cache_manager s) (kv_cache_manager s) (connector s).
Definition set_finished (f : gset string) (s : sched) : sched :=
  mkScheduler (cfg s) (heap s) (requests s) (waiting s) (running s) f (finished_req_ids_dict s)
    (finished_recving_kv_req_ids s) (_cached_reqs_data s) (encoder_cache_manager s) (kv_cache_manager s) (connector s).
Definition set_finished_dict (f : option (gmap Z (gset string))) (s : sched) : sched :=
  mkScheduler (cfg s) (heap s) (requests s) (waiting s) (running s) (finished_req_ids s) f
    (finished_recving_kv_req_ids s) (_cached_reqs_data s) (encoder_cache_manager s) (kv_cache_manager s) (connector s).
Definition set_recving (f : gset string) (s : sched) : sched :=
  mkScheduler (cfg s) (heap s) (requests s) (waiting s) (running s) (finished_req_ids s) (finished_req_ids_dict s)
    f (_cached_reqs_data s) (encoder_cache_manager s) (kv_cache_manager s) (connector s).
Definition set_cached_data (d : gmap string (list CachedRequestData)) (s : sched) : sched :=
  mkScheduler (cfg s) (heap s) (requests s) (waiting s) (running s) (finished_req_ids s) (finished_req_ids_dict s)
    (finished_recving_kv_req_ids s) d (encoder_cache_manager s) (kv_cache_manager s) (connector s).
Definition set_encoder (e : EncoderCacheManager) (s : sched) : sched :=
  mkScheduler (cfg s) (heap s) (requests s) (waiting s) (running s) (finished_req_ids s) (finished_req_ids_dict s)
    (finished_recving_kv_req_ids s) (_cached_reqs_data s) e (kv_cache_manager s) (connector s).
Definition set_kv (k : KVCacheManager Q) (s : sched) : sched :=
  mkScheduler (cfg s) (heap s) (requests s) (waiting s) (running s) (finished_req_ids s) (finished_req_ids_dict s)
    (finished_recving_kv_req_ids s) (_cached_reqs_data s) (encoder_cache_manager s) k (connector s).
Definition set_connector (c : option C) (s : sched) : sched :=
  mkScheduler (cfg s) (heap s) (requests s) (waiting s) (running s) (finished_req_ids s) (finished_req_ids_dict s)
    (finished_recving_kv_req_ids s) (_cached_reqs_data s) (encoder_cache_manager s) (kv_cache_manager s) c.
End setters.

(** ** Creation *)

(** The fields of [VllmConfig] that [__init__] reads; [speculative_config] is the
    number of speculative tokens and [use_eagle()]. *)
Record SchedulerInit := mkSchedulerInit {
  init_max_num_seqs : Z;
  init_max_num_batched_tokens : Z;
  init_max_model_len : Z;
  init_long_prefill_token_threshold : Z;
  init_max_loras : option Z;
  init_num_gpu_blocks : option Z;
  init_block_size : Z;
  init_enable_prefix_caching : bool;
  init_speculative_config : option (Z * bool);
  init_enable_kv_cache_events : bool;
  init_include_finished_set : bool;
  init_log_stats : bool;
  init_encoder_config : EncoderConfig
}.

Definition init_use_eagle (i : SchedulerInit) : bool :=
  match init_speculative_config i with Some (_, b) => b | None => false end.

(** The configuration the methods read afterwards. *)
Definition init_config (i : SchedulerInit) (encoder_compute_budget : Z) : SchedConfig :=
  mkSchedConfig (init_max_num_seqs i) (init_max_num_batched_tokens i) (init_max_model_len i)
    (init_long_prefill_token_threshold i) (cfg_disable_chunked_mm_input (init_encoder_config i))
    (init_max_loras i) (init_log_stats i) (init_block_size i)
    (match init_speculative_config i with Some (n, true) => n | _ => 0 end)
    (match init_speculative_config i with Some (n, _) => n | None => 0 end) encoder_compute_budget.

(** [__init__]; [new_connector] is the connector of the factory, if any. *)
Definition init_scheduler {Q C} `{FreeBlockQueue Q} (i : SchedulerInit) (config : KVCacheConfig)
    (max_tokens_by_modality : list Z) (new_connector : option C) : result (Scheduler Q C) :=
  guard_or (match init_num_gpu_blocks i with Some n => 0 <? n | None => false end) AssertionError;;
  '(encoder_compute_budget, encoder_cache_size) ←
    compute_encoder_budget (init_encoder_config i) max_tokens_by_modality;
  k ← init_kv_cache_manager config (init_max_model_len i) (init_enable_prefix_caching i)
        (init_use_eagle i) (init_log_stats i) (init_enable_kv_cache_events i);
  mret (mkScheduler (init_config i encoder_compute_budget) ∅ ∅ [] [] ∅
    (if init_include_finished_set i then Some ∅ else None) ∅ ∅
    (init_encoder_cache encoder_cache_size) k new_connector).

(** The request object with this id. *)
Definition req_of {Q C} (s : Scheduler Q C) (id : string) : Request := heap s !!! id.

(** What one call of [schedule] builds up. *)
Record Local := mkLocal {
  req_index : nat;
  token_budget : Z;
  encoder_budget : Z;
  l_new_reqs : list string;
  l_resumed_reqs : list string;
  l_running_reqs : list string;
  l_preempted_reqs : list string;
  l_structured : gmap string nat;
  l_new_block_ids : gmap string (list (list nat));
  l_num_scheduled : gmap string Z;
  l_spec_tokens : gmap string (list Z);
  l_encoder_inputs : gmap string (list nat);
  l_loras : gset Z;
  l_skipped : list string
}.

Definition init_local (c : SchedConfig) : Local :=
  mkLocal 0 (max_num_scheduled_tokens c) (sched_max_num_encoder_input_tokens c) [] [] [] [] ∅ ∅ ∅ ∅ ∅ ∅ [].

(** Going on with the loop or leaving it. *)
Inductive Step := Continue (l : Local) | Break (l : Local).

Section scheduler.
Context {Q C : Type} `{FreeBlockQueue Q, KVConnector C}.
Abbreviation sched := (Scheduler Q C).
Context (hash_fn : Z * list Z * option (list ExtraKey) -> Z) (NONE_HASH : Z).
(** [structured_output_manager.should_advance] and [grammar.validate_tokens]. *)
Context (should_advance : Request -> bool) (validate_tokens : Request -> list Z -> list Z).

Definition get_req (id : string) : M sched Request := gets (fun s => req_of s id).
Definition upd_req (id : string) (f : Request -> Request) : M sched unit :=
  modify (fun s => set_heap (<[id := f (req_of s id)]> (heap s)) s).
Definition kv_op {A} (m : M (KVCacheManager Q) A) : M sched A := zoom kv_cache_manager set_kv m.
Definition enc_op {A} (m : M EncoderCacheManager A) : M sched A := zoom encoder_cache_manager set_encoder m.

(** An operation of a single request, on the object in the heap. *)
Definition req_op {A} (id : string) (m : M Request A) : M sched A :=
  zoom (fun s => req_of s id) (fun r s => set_heap (<[id := r]> (heap s)) s) m.

(** ** Encoder inputs *)

(** The loop of [_try_schedule_encoder_inputs] over the inputs from [i] on. *)
Fixpoint encoder_loop (c : SchedConfig) (e : EncoderCacheManager) (r : Request)
    (num_computed num_new budget : Z) (positions : list PlaceholderRange) (i : nat) (acc : list nat)
    : result (list nat * Z * Z) :=
  match positions with
  | [] => Ok (acc, num_new, budget)
  | pos :: rest =>
      let start_pos := offset pos in
      let num_encoder_tokens := pr_length pos in
      if num_computed + num_new <=? start_pos then Ok (acc, num_new, budget)
      else if start_pos + num_encoder_tokens <=? num_computed
      then encoder_loop c e r num_computed num_new budget rest (S i) acc
      else if has_cache e r i
      then encoder_loop c e r num_computed num_new budget rest (S i) acc
      else if disable_chunked_mm_input c && (num_computed <? start_pos)
              && (num_computed + num_new <? start_pos + num_encoder_tokens)
      then Ok (acc, start_pos - num_computed, budget)
      else
        can ← can_allocate e r i;
        if negb can || (budget <? num_encoder_tokens)
        then Ok (acc, (if num_computed <? start_pos then start_pos - num_computed else 0), budget)
        else encoder_loop c e r num_computed num_new (budget - num_encoder_tokens) rest (S i) (acc ++ [i])
  end.

Definition _try_schedule_encoder_inputs (s : sched) (r : Request)
    (num_computed_tokens num_new_tokens encoder_budget : Z) : result (list nat * Z * Z) :=
  if (num_new_tokens =? 0) || negb (has_encoder_inputs r) then Ok ([], num_new_tokens, encoder_budget)
  else encoder_loop (cfg s) (encoder_cache_manager s) r num_computed_tokens num_new_tokens encoder_budget
         (mm_positions r) 0 [].

(** [if 0 < long_prefill_token_threshold < num_new_tokens] *)
Definition cap_long_prefill (c : SchedConfig) (n : Z) : Z :=
  if (0 <? long_prefill_token_threshold c) && (long_prefill_token_threshold c <? n)
  then long_prefill_token_threshold c else n.

(** ** Running requests *)

Definition num_new_tokens_running (c : SchedConfig) (r : Request) (budget : Z) : Z :=
  Z.min (Z.min (cap_long_prefill c (num_tokens_with_spec r - num_computed_tokens r)) budget)
    (sched_max_model_len c - num_computed_tokens r).

Definition when (b : bool) (m : M sched unit) : M sched unit := if b then m else mret tt.

(** Preempting [id], the last running request. *)
Definition preempt (id : string) (rest : list string) : M sched unit :=
  modify (set_running rest);;
  r ← get_req id;
  kv_op (kv_free r);;
  upd_req id (with_status PREEMPTED);;
  upd_req id (with_num_computed_tokens 0);;
  s ← get_state;
  when (sched_log_stats (cfg s)) (upd_req id (record_event EV_PREEMPTED));;
  modify (fun s => set_waiting (id :: waiting s) s).

(** The [while True] loop: allocate, or preempt the last running request and
    try again; [fuel] is the number of running requests, and popping from an
    empty list raises.  The result is the new blocks ([None] if the request
    itself was preempted) and the requests preempted, in order. *)
Fixpoint preempt_loop (fuel : nat) (id : string) (num_new_tokens num_draft_tokens : Z)
    : M sched (option (list (list nat)) * list string) :=
  s ← get_state;
  r ← get_req id;
  new_blocks ← kv_op (allocate_slots hash_fn NONE_HASH r num_new_tokens 0 None num_draft_tokens
                        (num_lookahead_tokens (cfg s)) false);
  match new_blocks with
  | Some b => mret (Some b, [])
  | None =>
      s ← get_state;
      match last (running s), fuel with
      | Some p, S fuel' =>
          preempt p (take (length (running s) - 1) (running s));;
          if decide (p = id) then mret (None, [p])
          else
            '(res, ps) ← preempt_loop fuel' id num_new_tokens num_draft_tokens;
            mret (res, p :: ps)
      | _, _ => raise IndexError
      end
  end.

(** Bookkeeping of a scheduled request, shared by both loops. *)
Definition note_structured (r : Request) (l : Local) : gmap string nat :=
  if use_structured_output r then <[request_id r := req_index l]> (l_structured l) else l_structured l.

Definition allocate_encoder (r : Request) (inputs : list nat) : M sched unit :=
  for_each (fun i => enc_op (enc_allocate r i)) inputs.

(** The draft tokens that were scheduled: the request's list is trimmed. *)
Definition schedule_spec_tokens (id : string) (num_new : Z) (l : Local) : M sched (gmap string (list Z)) :=
  r ← get_req id;
  if (length (spec_token_ids r) =? 0)%nat then mret (l_spec_tokens l)
  else
    let n := num_new + num_computed_tokens r - num_tokens r in
    if 0 <? n then
      upd_req id (fun r => with_spec_token_ids (take (Z.to_nat n) (spec_token_ids r)) r);;
      mret (<[id := take (Z.to_nat n) (spec_token_ids r)]> (l_spec_tokens l))
    else mret (l_spec_tokens l).

(** One iteration of the loop over the running requests. *)
Definition schedule_running_one (id : string) (l : Local) : M sched Step :=
  s ← get_state;
  let r := req_of s id in
  let num_new := num_new_tokens_running (cfg s) r (token_budget l) in
  '(inputs, num_new, new_encoder_budget) ←
    (if has_encoder_inputs r
     then lift_result (_try_schedule_encoder_inputs s r (num_computed_tokens r) num_new (encoder_budget l))
     else mret ([], num_new, encoder_budget l));
  if num_new =? 0 then
    mret (Continue (mkLocal (S (req_index l)) (token_budget l) (encoder_budget l) (l_new_reqs l)
      (l_resumed_reqs l) (l_running_reqs l) (l_preempted_reqs l) (l_structured l) (l_new_block_ids l)
      (l_num_scheduled l) (l_spec_tokens l) (l_encoder_inputs l) (l_loras l) (l_skipped l)))
  else
    let num_draft := Z.max (num_new + num_computed_tokens r - num_tokens r) 0 in
    '(new_blocks, preempted) ← preempt_loop (length (running s)) id num_new num_draft;
    match new_blocks with
    | None =>
        mret (Break (mkLocal (req_index l) (token_budget l) (encoder_budget l) (l_new_reqs l)
          (l_resumed_reqs l) (l_running_reqs l) (l_preempted_reqs l ++ preempted) (l_structured l)
          (l_new_block_ids l) (l_num_scheduled l) (l_spec_tokens l) (l_encoder_inputs l) (l_loras l)
          (l_skipped l)))
    | Some blocks =>
        spec ← schedule_spec_tokens id num_new l;
        allocate_encoder r inputs;;
        let has_inputs := negb (length inputs =? 0)%nat in
        mret (Continue (mkLocal (S (req_index l)) (token_budget l - num_new)
          (if has_inputs then new_encoder_budget else encoder_budget l)
          (l_new_reqs l) (l_resumed_reqs l) (l_running_reqs l ++ [id]) (l_preempted_reqs l ++ preempted)
          (note_structured r l) (<[id := blocks]> (l_new_block_ids l))
          (<[id := num_new]> (l_num_scheduled l)) spec
          (if has_inputs then <[id := inputs]> (l_encoder_inputs l) else l_encoder_inputs l)
          (l_loras l) (l_skipped l)))
    end.

(** [while req_index < len(self.running) and token_budget > 0]; every iteration
    advances the index or leaves the loop. *)
Fixpoint running_loop (fuel : nat) (l : Local) : M sched Local :=
  s ← get_state;
  match running s !! req_index l, fuel with
  | Some id, S fuel' =>
      if 0 <? token_budget l then
        step ← schedule_running_one id l;
        match step with
        | Continue l' => running_loop fuel' l'
        | Break l' => mret l'
        end
      else mret l
  | _, _ => mret l
  end.

(** [lora_int_id] of the scheduled requests that use an adapter. *)
Definition lora_of (s : sched) (id : string) : option Z :=
  match lora_request (req_of s id) with
  | Some lr => if 0 <? lora_int_id lr then Some (lora_int_id lr) else None
  | None => None
  end.

Definition record_loras (l : Local) : M sched Local :=
  s ← get_state;
  match max_loras (cfg s) with
  | None => mret l
  | Some n =>
      let loras : gset Z := list_to_set (omap (lora_of s) (l_running_reqs l)) in
      py_assert (Z.of_nat (base.size loras) <=? n);;
      mret (mkLocal (req_index l) (token_budget l) (encoder_budget l) (l_new_reqs l)
        (l_resumed_reqs l) (l_running_reqs l) (l_preempted_reqs l) (l_structured l) (l_new_block_ids l)
        (l_num_scheduled l) (l_spec_tokens l) (l_encoder_inputs l) loras (l_skipped l))
  end.

(** ** Remote KV transfer *)

Definition _update_waiting_for_remote_kv (id : string) : M sched bool :=
  s ← get_state;
  if decide (id ∉ finished_recving_kv_req_ids s) then mret false
  else
    py_assert (num_kv_cache_groups (kv_cache_manager s) =? 1)%nat;;
    match kv_get_block_ids (kv_cache_manager s) id with
    | [] => raise IndexError
    | block_ids :: _ =>
        r ← get_req id;
        let n := Z.min (len block_ids * sched_block_size (cfg s)) (num_tokens r) in
        let n := if n =? num_tokens r then n - 1 else n in
        kv_op (cache_request_blocks hash_fn NONE_HASH r n);;
        upd_req id (with_num_computed_tokens n);;
        modify (fun s => set_recving (finished_recving_kv_req_ids s ∖ {[id]}) s);;
        mret true
    end.
(** ** Waiting requests *)

(** A skipped request leaves the head of the queue. *)
Definition skip_request (id : string) (rest : list string) (l : Local) : M sched Step :=
  modify (set_waiting rest);;
  mret (Continue (mkLocal (req_index l) (token_budget l) (encoder_budget l) (l_new_reqs l)
    (l_resumed_reqs l) (l_running_reqs l) (l_preempted_reqs l) (l_structured l) (l_new_block_ids l)
    (l_num_scheduled l) (l_spec_tokens l) (l_encoder_inputs l) (l_loras l) (id :: l_skipped l))).

(** Whether the request has to be skipped: remote KVs not there, grammar not
    compiled, or too many adapters.  Ready requests become [WAITING]. *)
Definition must_skip (id : string) (l : Local) : M sched bool :=
  r ← get_req id;
  not_ready ←
    (if decide (status r = WAITING_FOR_REMOTE_KVS) then
       is_ready ← _update_waiting_for_remote_kv id;
       if is_ready : bool then upd_req id (with_status WAITING);; mret false else mret true
     else mret false);
  if not_ready : bool then mret true
  else
    r ← get_req id;
    no_grammar ←
      (if decide (status r = WAITING_FOR_FSM) then
         if grammar_ready r then upd_req id (with_status WAITING);; mret false else mret true
       else mret false);
    if no_grammar : bool then mret true
    else
      s ← get_state;
      mret (match max_loras (cfg s), lora_request r with
            | Some n, Some lr =>
                (Z.of_nat (base.size (l_loras l)) =? n) && negb (bool_decide (lora_int_id lr ∈ l_loras l))
            | _, _ => false
            end).

(** What is already computed: local hits, external tokens, asynchronous load. *)
Record Hits := mkHits {
  h_blocks : list (list nat);
  h_local : Z;
  h_external : Z;
  h_async : bool;
  h_computed : Z
}.

Definition find_hits (id : string) : M sched Hits :=
  s ← get_state;
  r ← get_req id;
  if num_computed_tokens r =? 0 then
    '(blks, n_local) ← kv_op (get_computed_blocks hash_fn NONE_HASH r);
    '(n_ext, load_async) ←
      match connector s with
      | None => mret (0, false)
      | Some c =>
          let '(res, c') := get_num_new_matched_tokens r n_local c in
          modify (set_connector (Some c'));; mret res
      end;
    mret (mkHits blks n_local n_ext load_async (n_local + n_ext))
  else
    mret (mkHits (create_empty_block_list (kv_cache_manager s)) 0 0 false (num_computed_tokens r)).

(** The number of new tokens; [None]: the encoder inputs do not fit. *)
Definition new_tokens_waiting (id : string) (l : Local) (h : Hits)
    : M sched (option (list nat * Z * Z)) :=
  s ← get_state;
  let r := req_of s id in
  if h_async h then
    py_assert (0 <? h_external h);; mret (Some ([], 0, encoder_budget l))
  else
    let n := Z.min (cap_long_prefill (cfg s) (num_tokens r - h_computed h)) (token_budget l) in
    py_assert (0 <? n);;
    if has_encoder_inputs r then
      '(inputs, n, budget) ← lift_result (_try_schedule_encoder_inputs s r (h_computed h) n (encoder_budget l));
      if n =? 0 then mret None else mret (Some (inputs, n, budget))
    else mret (Some ([], n, encoder_budget l)).

(** A waiting request joins the running ones. *)
Definition admit_request (id : string) (l : Local) (h : Hits) (inputs : list nat) (num_new new_encoder_budget : Z)
    : M sched Step :=
  r ← get_req id;
  modify (fun s => set_running (running s ++ [id]) s);;
  s ← get_state;
  when (sched_log_stats (cfg s)) (upd_req id (record_event SCHEDULED));;
  '(new_reqs, resumed) ←
    match status r with
    | WAITING => mret (l_new_reqs l ++ [id], l_resumed_reqs l)
    | PREEMPTED => mret (l_new_reqs l, l_resumed_reqs l ++ [id])
    | _ => raise RuntimeError
    end;
  s ← get_state;
  let loras := match max_loras (cfg s), lora_request r with
               | Some _, Some lr => l_loras l ∪ {[lora_int_id lr]}
               | _, _ => l_loras l
               end in
  let block_ids := kv_get_block_ids (kv_cache_manager s) id in
  upd_req id (with_status RUNNING);;
  upd_req id (with_num_computed_tokens (h_computed h));;
  when (num_cached_tokens r <? 0) (upd_req id (with_num_cached_tokens (h_computed h)));;
  allocate_encoder r inputs;;
  let has_inputs := negb (length inputs =? 0)%nat in
  mret (Continue (mkLocal (S (req_index l)) (token_budget l - num_new)
    (if has_inputs then new_encoder_budget else encoder_budget l)
    new_reqs resumed (l_running_reqs l) (l_preempted_reqs l) (note_structured r l)
    (<[id := block_ids]> (l_new_block_ids l)) (<[id := num_new]> (l_num_scheduled l)) (l_spec_tokens l)
    (if has_inputs then <[id := inputs]> (l_encoder_inputs l) else l_encoder_inputs l)
    loras (l_skipped l))).

(** One iteration of the loop over the waiting requests. *)
Definition schedule_waiting_one (id : string) (rest : list string) (l : Local) : M sched Step :=
  skip ← must_skip id l;
  if skip : bool then skip_request id rest l
  else
    h ← find_hits id;
    planned ← new_tokens_waiting id l h;
    match planned with
    | None => mret (Break l)
    | Some (inputs, num_new, new_encoder_budget) =>
        s ← get_state;
        r ← get_req id;
        new_blocks ← kv_op (allocate_slots hash_fn NONE_HASH r (num_new + h_external h) (h_local h)
                              (Some (h_blocks h)) 0 (num_lookahead_tokens (cfg s)) (h_async h));
        match new_blocks with
        | None => mret (Break l)
        | Some blks =>
            modify (fun s => match connector s with
              | Some c => set_connector (Some (update_state_after_alloc r
                            (KVCacheBlocks_add (h_blocks h) blks) (h_external h) c)) s
              | None => s
              end);;
            if h_async h then
              step ← skip_request id rest l;
              upd_req id (with_status WAITING_FOR_REMOTE_KVS);;
              mret step
            else
              modify (set_waiting rest);;
              admit_request id l h inputs num_new new_encoder_budget
        end
    end.

(** [while self.waiting and token_budget > 0]; every iteration takes the head
    of the queue or leaves the loop. *)
Fixpoint waiting_loop (fuel : nat) (l : Local) : M sched Local :=
  s ← get_state;
  match waiting s, fuel with
  | id :: rest, S fuel' =>
      if 0 <? token_budget l then
        if len (running s) =? max_num_running_reqs (cfg s) then mret l
        else
          step ← schedule_waiting_one id rest l;
          match step with
          | Continue l' => waiting_loop fuel' l'
          | Break l' => mret l'
          end
      else mret l
  | _, _ => mret l
  end.

(** ** The output of a step *)

Definition _make_cached_request_data (id : string) (num_scheduled num_spec : Z)
    (block_ids : list (list nat)) (resumed : bool) : M sched CachedRequestData :=
  s ← get_state;
  let r := req_of s id in
  let n := num_computed_tokens r in
  let tokens := slice n (n + (num_scheduled - num_spec)) (_all_token_ids r) in
  match _cached_reqs_data s !! id with
  | Some (d :: ds) =>
      modify (fun s => set_cached_data (<[id := ds]> (_cached_reqs_data s)) s);;
      mret (mkCachedRequestData (cr_req_id d) resumed tokens block_ids n)
  | _ => mret (CachedRequestData_from_request r resumed tokens block_ids)
  end.

(** [d[k]] *)
Definition get_item {A} (m : gmap string A) (k : string) : M sched A :=
  match m !! k with Some v => mret v | None => raise KeyError end.

Definition cached_data_of (l : Local) (resumed : bool) (id : string) : M sched CachedRequestData :=
  n ← get_item (l_num_scheduled l) id;
  blks ← get_item (l_new_block_ids l) id;
  _make_cached_request_data id n (len (dd_get (l_spec_tokens l) id)) blks resumed.

Definition new_data_of (l : Local) (id : string) : M sched NewRequestData :=
  blks ← get_item (l_new_block_ids l) id;
  r ← get_req id;
  mret (NewRequestData_from_request r blks).

Definition sum_values (m : gmap string Z) : Z := foldr Z.add 0 (map_to_list m).*2.

(** [self.requests[req_id].num_computed_tokens += n] for every scheduled request. *)
Definition advance (kv : string * Z) : M sched unit :=
  s ← get_state;
  if decide (kv.1 ∈ requests s)
  then upd_req kv.1 (fun r => with_num_computed_tokens (num_computed_tokens r + kv.2) r)
  else raise KeyError.

Definition common_prefix_blocks : M sched (list Z) :=
  s ← get_state;
  match running s with
  | [] => mret (replicate (num_kv_cache_groups (kv_cache_manager s)) 0)
  | any_request :: _ =>
      lift_result (kv_get_num_common_prefix_blocks (kv_cache_manager s) (req_of s any_request)
        (len (running s)))
  end.

(** From the end of the loops to the return. *)
Definition finish_schedule (l : Local) : M sched SchedulerOutput :=
  modify (fun s => set_waiting (rev (l_skipped l) ++ waiting s) s);;
  s ← get_state;
  let total := sum_values (l_num_scheduled l) in
  py_assert (total <=? max_num_scheduled_tokens (cfg s));;
  py_assert (0 <=? token_budget l);;
  py_assert (len (running s) <=? max_num_running_reqs (cfg s));;
  py_assert (len (l_new_reqs l) + len (l_resumed_reqs l) + len (l_running_reqs l) <=? len (running s));;
  prefix_blocks ← common_prefix_blocks;
  new_reqs_data ← map_each (new_data_of l) (l_new_reqs l);
  resumed_reqs_data ← map_each (cached_data_of l true) (l_resumed_reqs l);
  running_reqs_data ← map_each (cached_data_of l false) (l_running_reqs l);
  finished ← gets finished_req_ids;
  freed ← enc_op get_freed_ids;
  modify (fun s => set_connector (build_connector_meta <$> connector s) s);;
  events ← kv_op kv_take_events;
  for_each advance (map_to_list (l_num_scheduled l));;
  modify (set_finished ∅);;
  mret (mkSchedulerOutput new_reqs_data (resumed_reqs_data ++ running_reqs_data) (l_num_scheduled l) total
    (l_spec_tokens l) (l_encoder_inputs l) prefix_blocks finished freed (l_structured l) events).

Definition schedule : M sched SchedulerOutput :=
  s ← get_state;
  l ← running_loop (length (running s)) (init_local (cfg s));
  l ← record_loras l;
  s ← get_state;
  l ← (if (length (l_preempted_reqs l) =? 0)%nat then waiting_loop (length (waiting s)) l else mret l);
  finish_schedule l.

(** ** The life of a request *)

Definition add_request (r : Request) : M sched unit :=
  modify (fun s => set_waiting (waiting s ++ [request_id r]) s);;
  modify (fun s => set_heap (<[request_id r := r]> (heap s)) (set_requests (requests s ∪ {[request_id r]}) s));;
  s ← get_state;
  when (sched_log_stats (cfg s)) (upd_req (request_id r) (record_event QUEUED)).

Definition _connector_finished (id : string) : M sched (bool * KVParams) :=
  s ← get_state;
  match connector s with
  | None => mret (false, None)
  | Some c =>
      py_assert (num_kv_cache_groups (kv_cache_manager s) =? 1)%nat;;
      match kv_get_block_ids (kv_cache_manager s) id with
      | [] => raise IndexError
      | block_ids :: _ =>
          let '(res, c') := request_finished (req_of s id) block_ids c in
          modify (set_connector (Some c'));; mret res
      end
  end.

Definition _free_blocks (id : string) : M sched unit :=
  s ← get_state;
  let r := req_of s id in
  py_assert (is_finished r);;
  py_assert (bool_decide (_cached_reqs_data s !! id = None));;
  kv_op (kv_free r);;
  kv_op (free_block_hashes r);;
  if decide (id ∈ requests s)
  then modify (fun s => set_requests (requests s ∖ {[id]}) s)
  else raise KeyError.

(** [self.finished_req_ids_dict[client_index].add(request_id)] *)
Definition note_finished (id : string) (client : Z) (s : sched) : sched :=
  let s := set_cached_data (delete id (_cached_reqs_data s)) s in
  let s := set_finished (finished_req_ids s ∪ {[id]}) s in
  match finished_req_ids_dict s with
  | None => s
  | Some d => set_finished_dict (Some (<[client := default ∅ (d !! client) ∪ {[id]}]> d)) s
  end.

Definition _free_request (id : string) : M sched KVParams :=
  r ← get_req id;
  py_assert (is_finished r);;
  '(delay_free_blocks, kv_xfer_params) ← _connector_finished id;
  enc_op (enc_free r);;
  modify (note_finished id (client_index r));;
  (if delay_free_blocks : bool then mret tt else _free_blocks id);;
  mret kv_xfer_params.

(** [list.remove]: the first occurrence; [ValueError] if there is none. *)
Definition remove_first (id : string) (l : list string) : result (list string) :=
  match list_find (fun x => x = id) l with
  | Some (i, _) => Ok (take i l ++ drop (S i) l)
  | None => Err ValueError
  end.

Definition finish_one (finished_status : RequestStatus) (id : string) : M sched unit :=
  s ← get_state;
  if decide (id ∈ requests s) then
    (if decide (status (req_of s id) = RUNNING)
     then r ← lift_result (remove_first id (running s)); modify (set_running r)
     else w ← lift_result (remove_first id (waiting s)); modify (set_waiting w));;
    upd_req id (with_status finished_status);;
    _free_request id;;
    mret tt
  else mret tt.

(** [request_ids] without duplicates, in the order of the set. *)
Definition finish_requests (request_ids : list string) (finished_status : RequestStatus) : M sched unit :=
  py_assert (status_is_finished finished_status);;
  for_each (finish_one finished_status) request_ids.

Definition _update_from_kv_xfer_finished (o : ModelRunnerOutput) : M sched unit :=
  for_each (fun id => modify (fun s => set_recving (finished_recving_kv_req_ids s ∪ {[id]}) s))
    (finished_recving o);;
  for_each (fun id => s ← get_state;
                      if decide (id ∈ requests s) then _free_blocks id else raise KeyError)
    (finished_sending o).

Definition get_request_counts (s : sched) : Z * Z := (len (running s), len (waiting s)).
Definition get_num_unfinished_requests (s : sched) : Z := len (waiting s) + len (running s).
Definition has_finished_requests (s : sched) : bool := (0 <? base.size (finished_req_ids s))%nat.
Definition sched_reset_prefix_cache : M sched bool := kv_op kv_reset_prefix_cache.

(** ** Statistics *)

(** [SpecDecodingStats] of [vllm/v1/spec_decode/metrics.py]. *)
Record SpecDecodingStats := mkSpecDecodingStats {
  sd_num_spec_tokens : Z;
  num_drafts : Z;
  num_draft_tokens : Z;
  num_accepted_tokens : Z;
  num_accepted_tokens_per_pos : list Z
}.

Definition new_spec_stats (num_spec_tokens : Z) : SpecDecodingStats :=
  mkSpecDecodingStats num_spec_tokens 0 0 0 (replicate (Z.to_nat num_spec_tokens) 0).

(** [observe_draft]: the first [num_accepted] positions count one more. *)
Definition observe_draft (num_draft num_accepted : Z) (st : SpecDecodingStats) : result SpecDecodingStats :=
  guard_or (num_accepted <=? sd_num_spec_tokens st) AssertionError;;
  Ok (mkSpecDecodingStats (sd_num_spec_tokens st) (num_drafts st + 1) (num_draft_tokens st + num_draft)
    (num_accepted_tokens st + num_accepted)
    (imap (fun i n => if Z.of_nat i <? num_accepted then n + 1 else n) (num_accepted_tokens_per_pos st))).

Definition make_spec_decoding_stats (c : SchedConfig) (stats : option SpecDecodingStats)
    (num_draft num_accepted : Z) : result (option SpecDecodingStats) :=
  if negb (sched_log_stats c) then Ok None
  else
    st ← observe_draft num_draft num_accepted (default (new_spec_stats (num_spec_tokens c)) stats);
    Ok (Some st).

Record SchedulerStats := mkSchedulerStats {
  num_running_reqs : Z;
  num_waiting_reqs : Z;
  gpu_cache_usage : Z * Z;
  stats_prefix_cache : PrefixCacheStats;
  spec_decoding_stats : option SpecDecodingStats
}.

Definition make_stats (spec : option SpecDecodingStats) : M sched (option SchedulerStats) :=
  s ← get_state;
  if negb (sched_log_stats (cfg s)) then mret None
  else
    stats ← kv_op make_prefix_cache_stats;
    match stats with
    | None => raise AssertionError
    | Some st =>
        s ← get_state;
        mret (Some (mkSchedulerStats (len (running s)) (len (waiting s)) (kv_usage (kv_cache_manager s)) st spec))
    end.

(** ** After the model has run *)

(** Encoder inputs whose tokens are all computed are given back. *)
Definition free_processed_inputs (id : string) : M sched unit :=
  s ← get_state;
  for_each (fun i =>
    r ← get_req id;
    match mm_positions r !! i with
    | None => raise IndexError
    | Some p =>
        if offset p + pr_length p <=? num_computed_tokens r
        then enc_op (free_encoder_input r i) else mret tt
    end) (elements (get_cached_input_ids (encoder_cache_manager s) (req_of s id))).

(** The loop over the generated tokens: append, check for stop, and on a stop
    free the request and drop the tokens after.  Returns whether it stopped,
    the tokens kept and the transfer parameters. *)
Fixpoint append_loop (id : string) (todo kept : list Z) : M sched (bool * list Z * KVParams) :=
  match todo with
  | [] => mret (false, kept, None)
  | t :: todo' =>
      upd_req id (append_output_token_ids [t]);;
      s ← get_state;
      stopped ← req_op id (check_stop (sched_max_model_len (cfg s)));
      if stopped : bool then
        params ← _free_request id;
        mret (true, kept ++ [t], params)
      else append_loop id todo' (kept ++ [t])
  end.

(** Rejected draft tokens do not count as computed; the statistics so far are
    threaded through. *)
Definition account_rejected (id : string) (spec generated : list Z) (stats : option SpecDecodingStats)
    : M sched (option SpecDecodingStats) :=
  if (length spec =? 0)%nat then mret stats
  else
    upd_req id (fun r => with_num_computed_tokens
      (num_computed_tokens r - (len spec + 1 - len generated)) r);;
    s ← get_state;
    lift_result (make_spec_decoding_stats (cfg s) stats (len spec) (len generated - 1)).

Definition update_spec_tokens (id : string) (o : ModelRunnerOutput) (index : nat) : M sched unit :=
  match mro_spec_token_ids o with
  | None => mret tt
  | Some spec =>
      match spec !! index with
      | None => raise IndexError
      | Some ids =>
          upd_req id (fun r => with_spec_token_ids
            (if should_advance r then validate_tokens r ids else ids) r)
      end
  end.

(** [if new_token_ids or kv_transfer_params] *)
Definition truthy_params (p : KVParams) : bool :=
  match p with Some (_ :: _) => true | _ => false end.

(** One running request: whether it goes on running, its output, and the
    statistics. *)
Definition update_one (so : SchedulerOutput) (o : ModelRunnerOutput) (id : string)
    (stats : option SpecDecodingStats) : M sched (bool * option (Z * EngineCoreOutput) * option SpecDecodingStats) :=
  if default 0 (num_scheduled_tokens so !! id) =? 0 then mret (true, None, stats)
  else
    index ← get_item (req_id_to_index o) id;
    match sampled_token_ids o !! index with
    | None => raise IndexError
    | Some generated =>
        stats ← account_rejected id (dd_get (scheduled_spec_decode_tokens so) id) generated stats;
        free_processed_inputs id;;
        '(stopped, tokens, params) ← append_loop id generated [];
        update_spec_tokens id o index;;
        if (0 <? length tokens)%nat || truthy_params params then
          r ← get_req id;
          let '(evs, r') := Request.take_events r in
          upd_req id (fun _ => r');;
          mret (negb stopped, Some (client_index r,
            mkEngineCoreOutput id tokens (get_finished_reason r) (stop_reason r) evs params
              (num_cached_tokens r)), stats)
        else
          py_assert (negb (bool_decide (id ∈ has_prompt_logprobs o)));;
          mret (negb stopped, None, stats)
    end.

(** The loop over the running requests. *)
Fixpoint update_loop (so : SchedulerOutput) (o : ModelRunnerOutput) (ids : list string)
    (stats : option SpecDecodingStats)
    : M sched (list (string * (bool * option (Z * EngineCoreOutput))) * option SpecDecodingStats) :=
  match ids with
  | [] => mret ([], stats)
  | id :: ids' =>
      '(res, stats) ← update_one so o id stats;
      '(results, stats) ← update_loop so o ids' stats;
      mret ((id, res) :: results, stats)
  end.

(** Reused request data goes back unless the request has finished. *)
Definition return_cached_data (d : CachedRequestData) : M sched unit :=
  modify (fun s =>
    if decide (cr_req_id d ∈ finished_req_ids s) then s
    else set_cached_data (<[cr_req_id d := dd_get (_cached_reqs_data s) (cr_req_id d) ++ [d]]>
           (_cached_reqs_data s)) s).

(** The outputs per client, and the finished ids for the clients that want them. *)
Definition group_outputs (outs : list (Z * EngineCoreOutput)) : gmap Z (list EngineCoreOutput) :=
  foldl (fun m '(c, o) => <[c := dd_get m c ++ [o]]> m) ∅ outs.

(** The outputs per client, with the finished ids, and the statistics that one
    of the clients gets. *)
Definition update_from_output (so : SchedulerOutput) (o : ModelRunnerOutput)
    : M sched (gmap Z (list EngineCoreOutput * option (gset string)) * option SchedulerStats) :=
  ids ← gets running;
  '(results, spec_stats) ← update_loop so o ids None;
  _update_from_kv_xfer_finished o;;
  for_each return_cached_data (scheduled_cached_reqs so);;
  modify (set_running (fst <$> filter (fun p => p.2.1 = true) results));;
  s ← get_state;
  let outs := group_outputs (omap (fun p => p.2.2) results) in
  let finished := default ∅ (finished_req_ids_dict s) in
  modify (set_finished_dict ((fun _ => ∅) <$> finished_req_ids_dict s));;
  let engine_core_outputs := base.merge (fun a b => match a, b with
        | None, None => None
        | _, _ => Some (default [] a, b)
        end) outs finished in
  stats ← (if (base.size engine_core_outputs =? 0)%nat then mret None else make_stats spec_stats);
  mret (engine_core_outputs, stats).
End scheduler.
