(* ===== verification/SchedulerSpec.v ===== *)
(** Correctness of [schedule] (Scheduler.v): with prefix caching off and full
    attention (the configuration that uses the heap-ordered queue on HPU), a
    step always returns, every internal assertion holds, the token budget and
    the limit on running requests are respected, the preemption loop
    terminates, and no request is lost or duplicated. *)

From Stdlib Require Import ZArith Lia Sorted.
From stdpp Require Import base strings numbers gmap list.
From S2P Require Import Prelude.
From S2P Require Import KVBlock.
From S2P Require Import FreeQueue.
From S2P Require Import LinkedQueue.
From S2P Require Import HPUQueue.
From S2P Require Import Request.
From S2P Require Import BlockHashing.
From S2P Require Import KVSpec.
From S2P Require Import BlockPool.
From S2P Require Import SingleType.
From S2P Require Import Coordinator.
From S2P Require Import KVManager.
From S2P Require Import EncoderCache.
From S2P Require Import Scheduler.

Open Scope Z_scope.

(** ** Sums over a dict *)

Lemma sum_values_perm (l k : list Z) : l ≡ₚ k -> foldr Z.add 0 l = foldr Z.add 0 k.
Proof. induction 1; simpl; lia. Qed.

Lemma sum_values_insert m id n : m !! id = None -> sum_values (<[id := n]> m) = n + sum_values m.
Proof.
  intros Hm. unfold sum_values.
  rewrite (sum_values_perm _ (n :: (map_to_list m).*2)); [done|].
  by rewrite (map_to_list_insert m id n Hm).
Qed.

Lemma sum_values_empty : sum_values ∅ = 0.
Proof. done. Qed.

Section spec.
Context {Q C : Type} `{FreeBlockQueueSpec Q, KVConnector C}.
Abbreviation sched := (Scheduler Q C).
Context (hash_fn : Z * list Z * option (list ExtraKey) -> Z) (NONE_HASH : Z).

(** ** The KV cache without prefix caching *)

Definition full_only (k : KVCacheManager Q) : Prop :=
  Forall (fun m => is_full_attention (mgr_spec m) = true) (single_type_managers (coordinator k)).

Record kv_ok (log : bool) (k : KVCacheManager Q) : Prop := {
  ko_inv : exists l, kv_inv k l;
  ko_off : kv_enable_caching k = false;
  ko_full : full_only k;
  ko_log : kv_log_stats k = log;
  ko_stats : log = true -> is_Some (prefix_cache_stats k)
}.

(** What no operation changes: the limits and the size of the pool. *)
Definition kv_shape (k : KVCacheManager Q) : Z * Z * nat * Z :=
  (kv_max_model_len k, kv_block_size k, num_kv_cache_groups k, num_gpu_blocks (block_pool (coordinator k))).

Lemma kv_frame_shape k k' : kv_frame k k' -> kv_shape k' = kv_shape k.
Proof. unfold kv_frame, kv_shape, pool_config. intros (-> & _ & -> & -> & _ & _ & _ & _ & E). by injection E as -> _ _ _. Qed.

Lemma full_only_specs k k' :
  specs_of (single_type_managers (coordinator k')) = specs_of (single_type_managers (coordinator k)) ->
  full_only k -> full_only k'.
Proof.
  unfold full_only. generalize (single_type_managers (coordinator k)) as ms.
  induction (single_type_managers (coordinator k')) as [|m' ms' IH]; intros [|m ms] E Hf;
    try discriminate; [constructor|].
  apply Forall_cons in Hf as [Hm Hf]. injection E as E1 E2 E3.
  constructor; [by rewrite E1|by eapply IH].
Qed.

(** Operations on a request keep what they do not mention. *)
Lemma kv_ok_frame log k k' : (exists l, kv_inv k' l) -> kv_frame k k' -> kv_ok log k -> kv_ok log k'.
Proof.
  intros Hk (_ & F2 & _ & _ & _ & F6 & F7 & F8 & _) [_ Hoff Hf Hl Hs].
  split; [done|congruence|by eapply full_only_specs|congruence|by rewrite F8].
Qed.

Lemma full_alloc_pre k l r nb :
  kv_inv k l -> full_only k -> length nb = num_kv_cache_groups k -> aligned nb 0 -> alloc_pre k r nb 0.
Proof.
  intros Hk Hf Hn Hal. split; [done|done| |done|done|].
  - rewrite (concat_empty _ Hal). by intros i ?%not_elem_of_nil.
  - eapply Forall_impl; [exact Hf|]. intros m Hm sw E. simpl in Hm. by rewrite E in Hm.
Qed.

(** Only the requests [ids] have blocks. *)
Definition no_blocks (k : KVCacheManager Q) (id : string) : Prop :=
  Forall (fun bs => bs = []) (tables (single_type_managers (coordinator k)) id).

Definition tables_ok (k : KVCacheManager Q) (ids : list string) : Prop :=
  forall id, id ∉ ids -> no_blocks k id.

Lemma tables_ok_mono k ids ids' :
  (forall id, id ∈ ids -> id ∈ ids') -> tables_ok k ids -> tables_ok k ids'.
Proof. intros Hi Hk id Hid. apply Hk. auto. Qed.

Lemma no_blocks_aligned k id : no_blocks k id <-> aligned (tables (single_type_managers (coordinator k)) id) 0.
Proof.
  unfold no_blocks, aligned. rewrite !Forall_forall.
  split; intros Hk bs Hbs; specialize (Hk bs Hbs); [by rewrite Hk|by destruct bs].
Qed.

Lemma aligned_exists k l id :
  kv_inv k l -> exists n, aligned (tables (single_type_managers (coordinator k)) id) n /\ (no_blocks k id -> n = 0%nat).
Proof.
  intros Hk. destruct (decide (Forall (fun bs => bs = []) (tables (single_type_managers (coordinator k)) id))) as [Hd|Hd].
  - exists 0%nat. split; [by apply no_blocks_aligned|done].
  - destruct (ki_aligned _ _ Hk id) as [n Hn]. by exists n.
Qed.

Lemma wp_allocate log (k : KVCacheManager Q) r n ncb num_draft num_lookahead :
  kv_ok log k -> n <> 0 -> (ncb = None \/ ncb = Some (create_empty_block_list k)) ->
  wp (allocate_slots hash_fn NONE_HASH r n 0 ncb num_draft num_lookahead false)
    (fun res k' => kv_ok log k' /\ kv_frame k k' /\
       (forall ids, tables_ok k ids -> tables_ok k' (request_id r :: ids)) /\
       (res = None -> forall ids, tables_ok k ids -> tables_ok k' ids)) k.
Proof.
  intros Hkok Hn Hncb. pose proof Hkok as [[l Hk] Hoff Hf _ _].
  assert (Hnb : hits_of k ncb = create_empty_block_list k) by (by destruct Hncb as [-> | ->]).
  assert (Hal : aligned (hits_of k ncb) 0)
    by (rewrite Hnb; unfold create_empty_block_list; by apply Forall_replicate).
  destruct (aligned_exists k l (request_id r) Hk) as (m & Hm & Hm0).
  pose proof (allocate_slots_spec_aux hash_fn NONE_HASH k l r n 0 ncb num_draft num_lookahead false 0 m
    ltac:(intros E; congruence) Hk
    (full_alloc_pre k l r (hits_of k ncb) Hk Hf ltac:(rewrite Hnb; apply length_replicate) Hal) Hm Hn) as T.
  assert (Hothers : forall k' ids, (forall id, id <> request_id r ->
    tables (single_type_managers (coordinator k')) id = tables (single_type_managers (coordinator k)) id) ->
    tables_ok k ids -> tables_ok k' (request_id r :: ids)).
  { intros k' ids Hsame Hok id [Hne Hid]%not_elem_of_cons. unfold no_blocks. rewrite Hsame by done. by apply Hok. }
  cbv zeta in T. unfold wp. destruct (allocate_slots _ _ _ _ _ _ _ _ _ _) as [[new|] k'|e k'].
  - destruct T as (k1 & Hr & _ & _ & E). rewrite (E (or_introl Hoff)).
    destruct (reserved_filled _ _ _ _ _ _ _ _ Hr) as (kept & Hk' & _ & _ & _ & _ & Hsame & Hframe). split; [|split; [done|split; [by eauto|done]]].
    by apply (kv_ok_frame log k).
  - destruct T as ([l' [Hk' _]] & Hal' & _ & Hsame & Hframe). split; [|split; [done|split; [by eauto|]]].
    + apply (kv_ok_frame log k); [by exists l'|done|done].
    + intros _ ids Hok id Hid. destruct (decide (id = request_id r)) as [->|Hne].
      * apply no_blocks_aligned. rewrite (Hm0 (Hok _ Hid)) in Hal'. done.
      * unfold no_blocks. rewrite Hsame by done. by apply Hok.
  - destruct T as (E & _). congruence.
Qed.

Lemma wp_free log (k : KVCacheManager Q) r :
  kv_ok log k -> wp (kv_free r) (fun _ k' => kv_ok log k' /\ kv_frame k k' /\
    (forall ids, tables_ok k (request_id r :: ids) -> tables_ok k' ids)) k.
Proof.
  intros Hkok. pose proof Hkok as [[l Hk] Hoff Hf _ _]. eapply wp_mono; [by eapply wp_kv_free|].
  intros [] k' (Hk' & Hempty & Hsame & Hframe & _). split; [|split; [done|]].
  - by apply (kv_ok_frame log k).
  - intros ids Hok id Hid. destruct (decide (id = request_id r)) as [->|Hne]; [done|].
    unfold no_blocks. rewrite Hsame by done. apply Hok. set_solver.
Qed.

(** ** The invariant of the scheduler

    Every queued request is live and fits the model; the running ones have
    status [RUNNING] and no more computed than they have tokens, the waiting
    ones have nothing computed. *)

Definition live (s : sched) (id : string) : Prop :=
  request_id (req_of s id) = id /\ id ∈ requests s /\
  0 < num_tokens (req_of s id) <= sched_max_model_len (cfg s).

(** What may be computed after the step. *)
Definition computed_ok (s : sched) (r : Request) (n : Z) : Prop :=
  0 <= n <= num_tokens_with_spec r /\ n <= sched_max_model_len (cfg s).

Definition running_ok (s : sched) (id : string) : Prop :=
  live s id /\ status (req_of s id) = RUNNING /\
  computed_ok s (req_of s id) (num_computed_tokens (req_of s id)).

Definition waiting_ok (s : sched) (id : string) : Prop :=
  live s id /\ (status (req_of s id) = WAITING \/ status (req_of s id) = WAITING_FOR_FSM \/
                status (req_of s id) = PREEMPTED) /\
  num_computed_tokens (req_of s id) = 0.

(** The encoder cache holds inputs of live requests only, and ones they have. *)
Definition enc_ok (s : sched) : Prop := forall id ids,
  cached (encoder_cache_manager s) !! id = Some ids ->
  id ∈ requests s /\ ids <> ∅ /\ forall i, i ∈ ids -> (i < length (mm_positions (req_of s id)))%nat.

Record sched_inv (s : sched) : Prop := {
  si_kv : kv_ok (sched_log_stats (cfg s)) (kv_cache_manager s);
  si_connector : connector s = None;
  si_loras : max_loras (cfg s) = None;
  si_budget : 0 <= max_num_scheduled_tokens (cfg s);
  si_nodup : NoDup (running s ++ waiting s);
  si_running : Forall (running_ok s) (running s);
  si_waiting : Forall (waiting_ok s) (waiting s);
  si_limit : len (running s) <= max_num_running_reqs (cfg s);
  si_enc : enc_ok s;
  si_tables : tables_ok (kv_cache_manager s) (running s);
  si_all : forall id, id ∈ requests s -> id ∈ running s ++ waiting s
}.

(** What a step never changes of a request. *)
Definition inputs_of (r : Request) : list Z * list PlaceholderRange := (_all_token_ids r, mm_positions r).

(** The same in the middle of a step that started from [s0], with the skipped
    requests [sk] taken off the queue. *)
Record mid_inv (s0 s : sched) (sk : list string) : Prop := {
  mi_kv : kv_ok (sched_log_stats (cfg s)) (kv_cache_manager s);
  mi_cfg : cfg s = cfg s0;
  mi_connector : connector s = None;
  mi_requests : requests s = requests s0;
  mi_perm : running s ++ sk ++ waiting s ≡ₚ running s0 ++ waiting s0;
  mi_running : Forall (running_ok s) (running s);
  mi_waiting : Forall (waiting_ok s) (sk ++ waiting s);
  mi_limit : len (running s) <= max_num_running_reqs (cfg s);
  mi_enc : enc_ok s;
  mi_shape : kv_shape (kv_cache_manager s) = kv_shape (kv_cache_manager s0);
  mi_inputs : forall x, inputs_of (req_of s x) = inputs_of (req_of s0 x)
}.

Lemma mid_inv_start s : sched_inv s -> mid_inv s s [].
Proof. intros []. by split. Qed.

Lemma mi_nodup s0 s sk : sched_inv s0 -> mid_inv s0 s sk -> NoDup (running s ++ sk ++ waiting s).
Proof. intros Hs Hm. rewrite (mi_perm _ _ _ Hm). apply (si_nodup _ Hs). Qed.

Lemma live_ext (s s' : sched) id :
  req_of s' id = req_of s id -> requests s' = requests s -> cfg s' = cfg s -> live s id -> live s' id.
Proof. unfold live. by intros -> -> ->. Qed.

Lemma running_ok_ext (s s' : sched) id :
  req_of s' id = req_of s id -> requests s' = requests s -> cfg s' = cfg s ->
  running_ok s id -> running_ok s' id.
Proof.
  unfold running_ok, computed_ok. intros E Er Ec [Hl Hs].
  split; [by eapply live_ext|by rewrite E, Ec].
Qed.

Lemma waiting_ok_ext (s s' : sched) id :
  req_of s' id = req_of s id -> requests s' = requests s -> cfg s' = cfg s ->
  waiting_ok s id -> waiting_ok s' id.
Proof. unfold waiting_ok. intros E Er Ec [Hl Hs]. split; [by eapply live_ext|by rewrite E]. Qed.

(** It only depends on the placeholders. *)
Lemma enc_ok_ext (s s' : sched) :
  (forall id, mm_positions (req_of s' id) = mm_positions (req_of s id)) -> requests s' = requests s ->
  cached (encoder_cache_manager s') = cached (encoder_cache_manager s) -> enc_ok s -> enc_ok s'.
Proof. intros Hmm Hr Hc He id ids. rewrite Hc, Hr, Hmm. apply He. Qed.

(** The rule of an update of one request: the others keep their objects. *)
Lemma wp_upd_req id f (P : unit -> sched -> Prop) s :
  (forall h, h !!! id = f (req_of s id) -> (forall id', id' <> id -> h !!! id' = req_of s id') ->
     P tt (set_heap h s)) ->
  wp (upd_req id f) P s.
Proof.
  intros HP. unfold upd_req. apply wp_modify. apply HP.
  - by rewrite lookup_total_insert_eq.
  - intros id' Hne. by rewrite lookup_total_insert_ne.
Qed.

(** ** Preemption *)

(** Changing queued requests that the step is allowed to change. *)
Lemma Forall_ext_in {A} (P P' : A -> Prop) l :
  (forall x, x ∈ l -> P x -> P' x) -> Forall P l -> Forall P' l.
Proof.
  intros HP Hl. apply Forall_forall. intros x Hx. apply HP; [done|].
  by apply (proj1 (Forall_forall _ _) Hl).
Qed.

Lemma wp_preempt s0 s sk p rest :
  sched_inv s0 -> mid_inv s0 s sk -> running s = rest ++ [p] -> tables_ok (kv_cache_manager s) (running s) ->
  wp (preempt p rest) (fun _ s' => mid_inv s0 s' sk /\ tables_ok (kv_cache_manager s') rest /\ running s' = rest /\ waiting s' = p :: waiting s /\
    (forall id, id <> p -> req_of s' id = req_of s id)) s.
Proof.
  intros Hs0 Hm Hrun Htab. pose proof (mi_nodup _ _ _ Hs0 Hm) as Hnd.
  destruct Hm as [Hkv Hcfg Hcon Hreq Hperm Hr Hw Hlim Henc Hsh Htoks]. rewrite Hrun in *.
  apply Forall_app in Hr as [Hr [Hrp _]%Forall_cons].
  assert (Hend : forall h k',
    kv_ok (sched_log_stats (cfg s)) k' -> kv_shape k' = kv_shape (kv_cache_manager s) -> tables_ok k' rest -> request_id (h !!! p) = request_id (req_of s p) ->
    _all_token_ids (h !!! p) = _all_token_ids (req_of s p) ->
    mm_positions (h !!! p) = mm_positions (req_of s p) -> status (h !!! p) = PREEMPTED -> num_computed_tokens (h !!! p) = 0 ->
    (forall id, id <> p -> h !!! id = req_of s id) ->
    forall s', heap s' = h -> kv_cache_manager s' = k' -> running s' = rest -> waiting s' = p :: waiting s ->
    cfg s' = cfg s -> connector s' = connector s -> requests s' = requests s ->
    encoder_cache_manager s' = encoder_cache_manager s -> mid_inv s0 s' sk /\ tables_ok (kv_cache_manager s') rest /\ running s' = rest /\ waiting s' = p :: waiting s /\
    (forall id, id <> p -> req_of s' id = req_of s id)).
  { intros h k' Hk Hshk Htk Eid Etok Emm Est Enc Hoth s' Eh Ek Er Ew Ecfg Econ Ereq Ee.
    assert (Hq : forall id, id <> p -> req_of s' id = req_of s id) by (intros; unfold req_of at 1; rewrite Eh; by apply Hoth).
    assert (Hnin : forall id, id ∈ rest ++ sk ++ waiting s -> id <> p).
    { intros id Hid ->. rewrite <- app_assoc in Hnd. apply NoDup_app in Hnd as (_ & Hd & Hnd2).
      simpl in Hnd2. apply NoDup_cons in Hnd2 as [Hp2 _].
      apply elem_of_app in Hid as [Hid|Hid]; [|done]. apply (Hd p Hid). set_solver. }
    split; [|split; [by rewrite Ek|done]].
    split; rewrite ?Ek, ?Er, ?Ew, ?Ecfg, ?Econ, ?Ereq; [done|done|done|done| | | | | |congruence|].
    6:{ intros x. rewrite <- Htoks. destruct (decide (x = p)) as [->|Hne]; [|by rewrite Hq].
        unfold inputs_of, req_of at 1 2. rewrite Eh. by rewrite Etok, Emm. }
    5:{ apply (enc_ok_ext s); [|done|by rewrite Ee|done]. intros id. unfold req_of at 1. rewrite Eh.
        destruct (decide (id = p)) as [->|Hne]; [done|by rewrite Hoth]. }
    - rewrite <- Hperm. solve_Permutation.
    - eapply Forall_ext_in; [|exact Hr]. intros id Hid. apply running_ok_ext; [|done|done]. apply Hq, Hnin. set_solver.
    - apply Forall_app in Hw as [Hw1 Hw2]. apply Forall_app. split; [|constructor].
      + eapply Forall_ext_in; [|exact Hw1]. intros id Hid.
        apply waiting_ok_ext; [|done|done]. apply Hq, Hnin. set_solver.
      + destruct Hrp as [(A1 & A2 & A3) _].
        assert (Ep : req_of s' p = h !!! p) by (unfold req_of; by rewrite Eh).
        split; [|rewrite Ep; tauto].
        unfold live. rewrite Ep, Ereq, Ecfg. split_and!; [congruence|done| |]; unfold num_tokens in *; rewrite Etok; lia.
      + eapply Forall_ext_in; [|exact Hw2]. intros id Hid.
        apply waiting_ok_ext; [|done|done]. apply Hq, Hnin. set_solver.
    - rewrite Hcfg in Hlim. rewrite len_app in Hlim. change (len [p]) with 1 in Hlim. rewrite Hcfg. lia. }
  unfold preempt, get_req, kv_op. wp_steps. simpl.
  eapply wp_mono; [by apply wp_free|]. intros [] k' (Hk' & Hfr & Htk). apply kv_frame_shape in Hfr.
  destruct Hrp as [(Hpid & Hpl) Hps]. change (request_id (req_of (set_running rest s) p)) with (request_id (req_of s p)) in Htk.
  rewrite Hpid in Htk.
  assert (Htk' : tables_ok k' rest).
  { apply Htk. eapply tables_ok_mono; [|exact Htab]. set_solver. }
  wp_steps. apply wp_upd_req. intros h1 E1 O1. wp_steps. apply wp_upd_req. intros h2 E2 O2.
  change (req_of (set_heap h1 _) p) with (h1 !!! p) in E2.
  assert (O : forall id, id <> p -> h2 !!! id = req_of s id).
  { intros id Hne. rewrite O2 by done. by apply O1. }
  assert (T : request_id (h2 !!! p) = request_id (req_of s p) /\
    _all_token_ids (h2 !!! p) = _all_token_ids (req_of s p) /\
    mm_positions (h2 !!! p) = mm_positions (req_of s p) /\ status (h2 !!! p) = PREEMPTED /\ num_computed_tokens (h2 !!! p) = 0) by (rewrite E2, E1; done).
  destruct T as (T1 & T2 & T5 & T3 & T4). wp_steps. simpl.
  unfold when. destruct (sched_log_stats _); [apply wp_upd_req; intros h3 E3 O3|]; wp_steps; simpl.
  - change (h3 !!! p = record_event EV_PREEMPTED (h2 !!! p)) in E3.
    eapply (Hend h3); try done; rewrite ?E3; simpl; try done.
    intros id Hne. rewrite O3 by done. by apply O.
  - eapply (Hend h2); try done.
Qed.

Lemma mid_inv_set_kv s0 (s : sched) sk k :
  kv_ok (sched_log_stats (cfg s)) k -> kv_shape k = kv_shape (kv_cache_manager s) ->
  mid_inv s0 s sk -> mid_inv s0 (set_kv k s) sk.
Proof. intros Hk Hsh []. split; try done. simpl. congruence. Qed.

Lemma wp_kv_allocate s0 sk (s : sched) r n ncb num_draft num_lookahead (P : _ -> sched -> Prop) :
  mid_inv s0 s sk -> n <> 0 -> (ncb = None \/ ncb = Some (create_empty_block_list (kv_cache_manager s))) ->
  tables_ok (kv_cache_manager s) (running s) ->
  (forall res k', mid_inv s0 (set_kv k' s) sk -> tables_ok k' (request_id r :: running s) ->
     (res = None -> tables_ok k' (running s)) -> P res (set_kv k' s)) ->
  wp (kv_op (allocate_slots hash_fn NONE_HASH r n 0 ncb num_draft num_lookahead false)) P s.
Proof.
  intros Hm Hn Hncb Htab HP. unfold kv_op. wp_step.
  eapply wp_mono; [apply wp_allocate; [apply Hm|done|done]|].
  intros res k' (Hk & Hf & Ht1 & Ht2). apply HP; [apply mid_inv_set_kv; [done|by apply kv_frame_shape|done]|by apply Ht1|].
  intros E. by apply Ht2.
Qed.

(** The loop ends within one iteration per running request, never pops from an
    empty list, and preempts from the tail of the running list until the
    allocation succeeds or the request itself has gone. *)
Lemma wp_preempt_loop s0 sk n nd id pre post fuel s :
  sched_inv s0 -> mid_inv s0 s sk -> running s = pre ++ id :: post -> n <> 0 ->
  tables_ok (kv_cache_manager s) (running s) -> (length post < fuel)%nat ->
  wp (preempt_loop hash_fn NONE_HASH fuel id n nd) (fun res s' =>
    mid_inv s0 s' sk /\ tables_ok (kv_cache_manager s') (running s') /\ waiting s' = rev res.2 ++ waiting s /\
    (forall x, x ∉ res.2 -> req_of s' x = req_of s x) /\
    match res.1 with
    | Some _ => exists post', post = post' ++ rev res.2 /\ running s' = pre ++ id :: post'
    | None => rev res.2 = id :: post /\ running s' = pre
    end) s.
Proof.
  intros Hs0. revert s post. induction fuel as [|fuel IH]; intros s post Hm Hrun Hn Htab Hf; [lia|].
  assert (Hid : request_id (req_of s id) = id).
  { pose proof (mi_running _ _ _ Hm) as Hr. rewrite Forall_forall in Hr. apply (Hr id). rewrite Hrun. set_solver. }
  cbn [preempt_loop]. unfold get_req. wp_steps. eapply wp_kv_allocate; [done|done|by left|done|].
  intros [blocks|] k' Hm' Hk1 Hk2.
  { wp_steps. split; [done|]. split; [|split; [done|split; [done|]]].
    - simpl. eapply tables_ok_mono; [|exact Hk1]. rewrite Hid, Hrun. set_solver.
    - exists post. by rewrite app_nil_r. }
  specialize (Hk2 eq_refl).
  wp_steps. simpl. rewrite Hrun.
  destruct post as [|p post _] using rev_ind.
  - rewrite last_snoc. wp_step. rewrite length_app. simpl. rewrite take_app_length' by lia.
    eapply wp_mono; [by apply (wp_preempt s0 _ sk id pre Hs0 Hm')|].
    intros [] s' (Hm2 & Ht & Hr & Hw & Hq). rewrite decide_True by done. wp_steps.
    split; [done|]. split; [by rewrite Hr|]. split; [by rewrite Hw|]. split; [|done]. simpl. intros x Hx. apply Hq. set_solver.
  - rewrite app_comm_cons, app_assoc, last_snoc. wp_step.
    rewrite length_app, take_app_length' by (simpl; lia).
    eapply wp_mono; [apply (wp_preempt s0 _ sk p (pre ++ id :: post) Hs0 Hm'); [simpl; rewrite Hrun;
      by rewrite app_comm_cons, app_assoc|done]|].
    intros [] s' (Hm2 & Ht & Hr & Hw & Hq). rewrite decide_False.
    + wp_step. eapply wp_mono; [eapply IH; [done|exact Hr|done|by rewrite Hr|rewrite length_app in Hf; simpl in Hf; lia]|].
      intros [res ps] s2 (Hm3 & Ht3 & Hw3 & Hq3 & Hres). simpl in *. wp_steps. simpl.
      split; [done|]. split; [done|]. split; [rewrite Hw3, Hw; by rewrite <- app_assoc|split].
      * intros x Hx. rewrite Hq3 by set_solver. apply Hq. set_solver.
      * destruct res as [b|].
        -- destruct Hres as (post' & -> & Hr3). exists post'. by rewrite <- app_assoc.
        -- destruct Hres as [-> Hr3]. done.
    + intros ->. pose proof (mi_nodup _ _ _ Hs0 Hm) as Hnd. rewrite Hrun in Hnd.
      apply NoDup_app in Hnd as [Hnd _]. apply NoDup_app in Hnd as (_ & _ & Hnd).
      apply NoDup_cons in Hnd as [Hin _]. set_solver.
Qed.

(** ** Encoder inputs *)

Definition total_input_tokens (r : Request) (inputs : list nat) : Z :=
  foldr (fun i acc => input_tokens r i + acc) 0 inputs.

Lemma total_input_tokens_app r l k :
  total_input_tokens r (l ++ k) = total_input_tokens r l + total_input_tokens r k.
Proof. induction l as [|i l IH]; simpl; [done|]. unfold total_input_tokens in *. lia. Qed.

(** The placeholder range [pos] overlaps the tokens [a, b). *)
Definition overlaps (pos : PlaceholderRange) (a b : Z) : Prop :=
  a < b /\ offset pos < b /\ a < offset pos + pr_length pos.

Abbreviation by_offset := (StronglySorted (fun p q => offset p <= offset q)).

(** What the loop answers from input [i] on. *)
Definition encoder_loop_post (e : EncoderCacheManager) (r : Request) (nc n b : Z)
    (positions : list PlaceholderRange) (i : nat) (acc : list nat) (inputs : list nat) (n' b' : Z) : Prop :=
  exists new, inputs = acc ++ new /\ 0 <= n' <= n /\ b' + total_input_tokens r new = b /\ (0 <= b -> 0 <= b') /\
    Forall (fun j => (i <= j < length (mm_positions r))%nat /\ has_cache e r j = false) new /\
    (by_offset positions -> forall k pos, positions !! k = Some pos -> overlaps pos nc (nc + n') ->
       has_cache e r (i + k)%nat = true \/ (i + k)%nat ∈ new).

Lemma encoder_loop_stop e r nc n b positions i acc n' :
  0 <= n' <= n ->
  (forall p ps, positions = p :: ps -> n' = 0 \/ nc + n' <= offset p) ->
  encoder_loop_post e r nc n b positions i acc acc n' b.
Proof.
  intros Hn Hp. exists []. rewrite app_nil_r. split_and!; [done|lia|lia|simpl; lia|done|constructor|].
  intros Hsort k pos Hk (Ho1 & Ho2 & Ho3). exfalso. destruct positions as [|p ps]; [done|].
  specialize (Hp p ps eq_refl). apply StronglySorted_inv in Hsort as [_ Hall].
  destruct k as [|k]; simpl in Hk; [simplify_eq; lia|].
  pose proof (Forall_lookup_1 _ _ _ _ Hall Hk) as Hle. simpl in Hle. lia.
Qed.

(** Going past an input: it is cached, it does not overlap, or it is scheduled. *)
Lemma encoder_loop_skip e r nc n b p positions i acc inputs n' b' :
  (has_cache e r i = true \/ offset p + pr_length p <= nc) ->
  encoder_loop_post e r nc n b positions (S i) acc inputs n' b' ->
  encoder_loop_post e r nc n b (p :: positions) i acc inputs n' b'.
Proof.
  intros Hp (new & -> & Hn & Hb & Hb0 & Hnew & Hcov). exists new. split_and!; try done; try lia.
  { eapply Forall_impl; [exact Hnew|]. simpl. intros j [??]. split; [lia|done]. }
  intros Hsort [|k] pos Hk Ho; simpl in Hk.
  - simplify_eq. rewrite Nat.add_0_r. destruct Ho as (?&?&?). destruct Hp as [Hp|Hp]; [by left|lia].
  - rewrite Nat.add_succ_r. eapply Hcov; [by apply StronglySorted_inv in Hsort as [? _]|done|done].
Qed.

Lemma encoder_loop_take e r nc n b p positions i acc inputs n' b' :
  mm_positions r !! i = Some p -> has_cache e r i = false -> pr_length p <= b ->
  encoder_loop_post e r nc n (b - pr_length p) positions (S i) (acc ++ [i]) inputs n' b' ->
  encoder_loop_post e r nc n b (p :: positions) i acc inputs n' b'.
Proof.
  intros Hi Hc Hle (new & -> & Hn & Hb & Hb0 & Hnew & Hcov). exists (i :: new).
  rewrite <- app_assoc. split_and!; try done; try lia.
  - change (i :: new) with ([i] ++ new). rewrite total_input_tokens_app. simpl.
    unfold input_tokens at 1. rewrite Hi. lia.
  - constructor; [split; [split; [lia|by eapply lookup_lt_Some]|done]|].
    eapply Forall_impl; [exact Hnew|]. simpl. intros j [??]. split; [lia|done].
  - intros Hsort [|k] pos Hk Ho; simpl in Hk.
    + right. rewrite Nat.add_0_r. set_solver.
    + rewrite Nat.add_succ_r. destruct (Hcov ltac:(by apply StronglySorted_inv in Hsort as [? _]) k pos Hk Ho);
        [by left|right; set_solver].
Qed.

Lemma encoder_loop_ok c e r nc n b positions i acc :
  0 <= n -> drop i (mm_positions r) = positions ->
  exists inputs n' b', encoder_loop c e r nc n b positions i acc = Ok (inputs, n', b') /\
    encoder_loop_post e r nc n b positions i acc inputs n' b'.
Proof.
  intros Hn. revert i b acc. induction positions as [|p positions IH]; intros i b acc Hd; simpl.
  { exists acc, n, b. split; [done|]. by apply encoder_loop_stop; [lia|]. }
  assert (Hi : mm_positions r !! i = Some p).
  { rewrite <- (Nat.add_0_r i), <- lookup_drop, Hd. done. }
  assert (Hd' : drop (S i) (mm_positions r) = positions).
  { replace (S i) with (i + 1)%nat by lia. rewrite <- drop_drop, Hd. done. }
  destruct (nc + n <=? offset p) eqn:E1.
  { exists acc, n, b. split; [done|]. apply encoder_loop_stop; [lia|]. intros p' ps [= <- <-]. lia. }
  destruct (offset p + pr_length p <=? nc) eqn:E2.
  { destruct (IH (S i) b acc Hd') as (inputs & n' & b' & -> & Hpost). exists inputs, n', b'.
    split; [done|]. apply encoder_loop_skip; [right; lia|done]. }
  destruct (has_cache e r i) eqn:E3.
  { destruct (IH (S i) b acc Hd') as (inputs & n' & b' & -> & Hpost). exists inputs, n', b'.
    split; [done|]. apply encoder_loop_skip; [by left|done]. }
  destruct (disable_chunked_mm_input c && (nc <? offset p) && (nc + n <? offset p + pr_length p)) eqn:E4.
  { exists acc, (offset p - nc), b. split; [done|]. apply encoder_loop_stop; [lia|].
    intros p' ps [= <- <-]. lia. }
  unfold can_allocate. rewrite get_num_encoder_tokens_ok by (by eapply lookup_lt_Some). simpl.
  destruct (negb _ || (b <? pr_length p)) eqn:E5.
  { exists acc. eexists _, b. split; [done|]. apply encoder_loop_stop.
    - destruct (nc <? offset p) eqn:?; lia.
    - intros p' ps [= <- <-]. destruct (nc <? offset p) eqn:?; lia. }
  apply orb_false_iff in E5 as [_ E5].
  destruct (IH (S i) (b - pr_length p) (acc ++ [i]) Hd') as (inputs & n' & b' & -> & Hpost).
  exists inputs, n', b'. split; [done|]. by apply encoder_loop_take; [| |lia|].
Qed.

Lemma try_schedule_encoder_ok (s : sched) r nc n b :
  0 <= n ->
  exists inputs n' b', _try_schedule_encoder_inputs s r nc n b = Ok (inputs, n', b') /\ 0 <= n' <= n /\
    Forall (fun j => (j < length (mm_positions r))%nat) inputs.
Proof.
  intros Hn. unfold _try_schedule_encoder_inputs. destruct ((n =? 0) || negb (has_encoder_inputs r)) eqn:E.
  { exists [], n, b. split_and!; [done|lia|lia|constructor]. }
  destruct (encoder_loop_ok (cfg s) (encoder_cache_manager s) r nc n b (mm_positions r) 0 [] Hn
    ltac:(by rewrite drop_0)) as (inputs & n' & b' & -> & new & -> & Hn' & _ & _ & Hnew & _).
  exists new, n', b'. split_and!; [done|lia|lia|]. eapply Forall_impl; [exact Hnew|]. simpl. lia.
Qed.

Lemma wp_allocate_encoder (s : sched) r inputs :
  Forall (fun j => (j < length (mm_positions r))%nat) inputs ->
  wp (allocate_encoder r inputs) (fun _ s' => exists e, s' = set_encoder e s /\
    (enc_ok s -> request_id r ∈ requests s -> mm_positions (req_of s (request_id r)) = mm_positions r ->
     enc_ok s')) s.
Proof.
  intros Hin. unfold allocate_encoder.
  eapply wp_mono; [apply (wp_for_each _ (fun l s' =>
    Forall (fun j => (j < length (mm_positions r))%nat) l /\ exists e, s' = set_encoder e s /\
    (enc_ok s -> request_id r ∈ requests s -> mm_positions (req_of s (request_id r)) = mm_positions r ->
     enc_ok s')))|by intros [] s' [_ ?]].
  { split; [done|]. exists (encoder_cache_manager s). split; [by destruct s|]. by destruct s. }
  intros i l s' [[Hi Hl]%Forall_cons (e & -> & He)]. unfold enc_op. wp_step. unfold enc_allocate. wp_steps.
  rewrite get_num_encoder_tokens_ok by done. unfold wp, lift_result, modify. simpl.
  split; [done|]. eexists. split; [done|]. intros Hok Hreq Hmm id ids. simpl.
  destruct (decide (request_id r = id)) as [<-|Hne].
  - rewrite lookup_insert_eq. intros [= <-]. split; [done|]. split; [set_solver|].
    intros j [Hj|Hj%elem_of_singleton]%elem_of_union; [|subst j; unfold req_of in *; simpl in *; by rewrite Hmm].
    specialize (He Hok Hreq Hmm (request_id r)). simpl in He.
    destruct (cached e !! request_id r) as [ids0|]; [|by apply not_elem_of_empty in Hj].
    by apply (He ids0).
  - rewrite lookup_insert_ne by done. by apply (He Hok Hreq Hmm).
Qed.

(** ** The local variables of a step *)

Definition scheduled (l : Local) : list string := l_new_reqs l ++ l_resumed_reqs l ++ l_running_reqs l.

(** Of the first [total] tokens, those that are not the request's own are the
    draft tokens that are scheduled. *)
Definition drafts_ok (r : Request) (drafts : list Z) (total : Z) : Prop :=
  len drafts = Z.max 0 (total - num_tokens r).

(** The running requests have computed what they had before the step. *)
Definition computed_same (s0 s : sched) : Prop := forall x,
  x ∈ running s -> num_computed_tokens (req_of s x) = num_computed_tokens (req_of s0 x).

Record loop_inv (s0 s : sched) (l : Local) : Prop := {
  li_mid : mid_inv s0 s (l_skipped l);
  li_budget : 0 <= token_budget l;
  li_total : token_budget l + sum_values (l_num_scheduled l) = max_num_scheduled_tokens (cfg s0);
  li_nums : forall id, is_Some (l_num_scheduled l !! id) <-> id ∈ scheduled l;
  li_blocks : forall id, id ∈ scheduled l -> is_Some (l_new_block_ids l !! id);
  li_nodup : NoDup (scheduled l);
  li_sub : forall id, id ∈ scheduled l -> id ∈ running s;
  li_counts : forall id n, l_num_scheduled l !! id = Some n ->
    1 <= n /\ computed_ok s (req_of s id) (num_computed_tokens (req_of s id) + n);
  li_spec_sub : forall id, is_Some (l_spec_tokens l !! id) -> id ∈ scheduled l;
  li_spec : forall id n, l_num_scheduled l !! id = Some n ->
    drafts_ok (req_of s id) (dd_get (l_spec_tokens l) id) (num_computed_tokens (req_of s id) + n);
  li_computed : computed_same s0 s
}.

Lemma loop_inv_start s0 : sched_inv s0 -> loop_inv s0 s0 (init_local (cfg s0)).
Proof.
  intros Hs. split; simpl.
  - by apply mid_inv_start.
  - apply (si_budget _ Hs).
  - rewrite sum_values_empty. lia.
  - intros id. rewrite lookup_empty. split; [by intros [? ?]|by intros ?%not_elem_of_nil].
  - by intros id ?%not_elem_of_nil.
  - constructor.
  - by intros id ?%not_elem_of_nil.
  - intros id n. by rewrite lookup_empty.
  - intros id. rewrite lookup_empty. by intros [? ?].
  - intros id n. by rewrite lookup_empty.
  - by intros x.
Qed.

(** The state may change as long as the scheduled requests do not. *)
Lemma loop_inv_state s0 (s s' : sched) l :
  loop_inv s0 s l -> mid_inv s0 s' (l_skipped l) -> computed_same s0 s' ->
  (forall id, id ∈ scheduled l -> id ∈ running s' /\ req_of s' id = req_of s id) -> loop_inv s0 s' l.
Proof.
  intros [Hm Hb Ht Hn Hbl Hnd Hsub Hc Hss Hsp _] Hm' Hcs Hs. split; try done.
  - intros id Hid. by apply Hs.
  - intros id n Hid. destruct (Hc id n Hid) as [? Hok]. destruct (Hs id) as [_ ->]; [apply Hn; by eexists|].
    split; [done|]. unfold computed_ok. rewrite (mi_cfg _ _ _ Hm'), <- (mi_cfg _ _ _ Hm). exact Hok.
  - intros id n Hid. destruct (Hs id) as [_ ->]; [apply Hn; by eexists|]. by apply Hsp.
Qed.

(** Scheduling [n] tokens of one more request. *)
Lemma loop_inv_add s0 s l l' id n blocks :
  loop_inv s0 s l -> id ∉ scheduled l -> id ∈ running s -> 1 <= n <= token_budget l ->
  computed_ok s (req_of s id) (num_computed_tokens (req_of s id) + n) ->
  l_num_scheduled l' = <[id := n]> (l_num_scheduled l) ->
  l_new_block_ids l' = <[id := blocks]> (l_new_block_ids l) ->
  token_budget l' = token_budget l - n -> l_skipped l' = l_skipped l ->
  scheduled l' ≡ₚ id :: scheduled l ->
  (forall x, x <> id -> l_spec_tokens l' !! x = l_spec_tokens l !! x) ->
  drafts_ok (req_of s id) (dd_get (l_spec_tokens l') id) (num_computed_tokens (req_of s id) + n) ->
  loop_inv s0 s l'.
Proof.
  intros [Hm Hb Ht Hn Hbl Hnd Hsub Hc Hss Hsp Hcs] Hid Hrun Hle Hok E1 E2 E3 E4 Hp Hsx Hsid.
  assert (Hnone : l_num_scheduled l !! id = None).
  { apply eq_None_not_Some. by rewrite Hn. }
  split; rewrite ?E1, ?E2, ?E3, ?E4.
  - done.
  - lia.
  - rewrite sum_values_insert by done. lia.
  - intros i. rewrite Hp, elem_of_cons, <- Hn. destruct (decide (id = i)) as [<-|Hne].
    + rewrite lookup_insert_eq. split; [by left|by eexists].
    + rewrite lookup_insert_ne by done. split; [by right|by intros [<-|?]].
  - intros i. rewrite Hp, elem_of_cons. destruct (decide (id = i)) as [<-|Hne].
    + rewrite lookup_insert_eq. by eexists.
    + rewrite lookup_insert_ne by done. intros [->|?]; [done|by apply Hbl].
  - rewrite Hp. by constructor.
  - intros i. rewrite Hp, elem_of_cons. intros [->|?]; [done|by apply Hsub].
  - intros i m. destruct (decide (id = i)) as [<-|Hne].
    + rewrite lookup_insert_eq. intros [= <-]. split; [lia|done].
    + rewrite lookup_insert_ne by done. apply Hc.
  - intros i. rewrite Hp, elem_of_cons. destruct (decide (i = id)) as [->|Hne]; [by left|].
    rewrite Hsx by done. intros Hi. right. by apply Hss.
  - intros i m. destruct (decide (id = i)) as [<-|Hne].
    + rewrite lookup_insert_eq. by intros [= <-].
    + rewrite lookup_insert_ne by done. unfold dd_get. rewrite Hsx by done. apply Hsp.
  - done.
Qed.

(** Changing the object of one request. *)
Lemma inputs_upd (s0 s : sched) id h :
  (forall id', id' <> id -> h !!! id' = req_of s id') -> inputs_of (h !!! id) = inputs_of (req_of s id) ->
  (forall x, inputs_of (req_of s x) = inputs_of (req_of s0 x)) ->
  forall x, inputs_of (req_of (set_heap h s) x) = inputs_of (req_of s0 x).
Proof.
  intros Hoth Hid Hs x. rewrite <- Hs. unfold req_of at 1. simpl.
  destruct (decide (x = id)) as [->|Hne]; [done|by rewrite Hoth].
Qed.

Lemma enc_ok_upd (s : sched) id h :
  (forall id', id' <> id -> h !!! id' = req_of s id') -> mm_positions (h !!! id) = mm_positions (req_of s id) ->
  enc_ok s -> enc_ok (set_heap h s).
Proof.
  intros Hoth Hmm. apply enc_ok_ext; [|done|done]. intros x. unfold req_of at 1. simpl.
  destruct (decide (x = id)) as [->|Hne]; [done|by rewrite Hoth].
Qed.

Lemma mid_inv_upd s0 (s : sched) sk id h :
  sched_inv s0 -> mid_inv s0 s sk -> id ∈ running s ->
  (forall id', id' <> id -> h !!! id' = req_of s id') -> inputs_of (h !!! id) = inputs_of (req_of s id) ->
  running_ok (set_heap h s) id -> mid_inv s0 (set_heap h s) sk.
Proof.
  intros Hs0 Hm Hid Hoth Hin Hok. pose proof (mi_nodup _ _ _ Hs0 Hm) as Hnd.
  destruct Hm as [Hkv Hcfg Hcon Hreq Hperm Hr Hw Hlim Henc Hsh Htoks].
  split; try done; simpl; [| |apply (enc_ok_upd s id); [done|by injection Hin|done]|by apply (inputs_upd s0 s id)].
  - eapply Forall_ext_in; [|exact Hr]. intros x Hx Hxok. destruct (decide (x = id)) as [->|Hne]; [done|].
    apply (running_ok_ext s); [|done|done|done]. by apply Hoth.
  - eapply Forall_ext_in; [|exact Hw]. intros x Hx. apply (waiting_ok_ext s); [|done|done].
    apply Hoth. intros ->. apply NoDup_app in Hnd as (_ & Hd & _). by apply (Hd id).
Qed.

Lemma mid_inv_set_encoder s0 (s : sched) sk e :
  mid_inv s0 s sk -> enc_ok (set_encoder e s) -> mid_inv s0 (set_encoder e s) sk.
Proof. intros []. by split. Qed.

(** Trimming the draft tokens of a running request to what is scheduled. *)
Lemma wp_schedule_spec_tokens s0 (s : sched) sk id n l :
  sched_inv s0 -> mid_inv s0 s sk -> id ∈ running s -> 1 <= n ->
  computed_ok s (req_of s id) (num_computed_tokens (req_of s id) + n) -> l_spec_tokens l !! id = None ->
  wp (schedule_spec_tokens id n l) (fun spec s' =>
    (forall x, x <> id -> spec !! x = l_spec_tokens l !! x) /\
    drafts_ok (req_of s' id) (dd_get spec id) (num_computed_tokens (req_of s' id) + n) /\ exists h, s' = set_heap h s /\ mid_inv s0 s' sk /\
    (forall id', id' <> id -> req_of s' id' = req_of s id') /\ mm_positions (req_of s' id) = mm_positions (req_of s id) /\
    num_computed_tokens (req_of s' id) = num_computed_tokens (req_of s id) /\
    computed_ok s' (req_of s' id) (num_computed_tokens (req_of s' id) + n)) s.
Proof.
  intros Hs0 Hm Hid Hn Hok Hnone.
  assert (Hsame : exists h, s = set_heap h s) by (exists (heap s); by destruct s).
  destruct Hsame as [h0 Hh0].
  assert (Hnone' : dd_get (l_spec_tokens l) id = []) by (unfold dd_get; by rewrite Hnone).
  unfold schedule_spec_tokens, get_req. wp_steps. destruct Hok as [Ho1 Ho2].
  destruct (_ =? 0)%nat eqn:E0.
  { wp_steps. split; [done|]. rewrite Hnone'. apply Nat.eqb_eq in E0.
    split; [|by exists h0]. unfold drafts_ok, num_tokens_with_spec, num_tokens, len in *. simpl. lia. }
  destruct (0 <? _) eqn:E.
  2:{ wp_steps. split; [done|]. rewrite Hnone'. split; [|by exists h0].
      unfold drafts_ok, num_tokens_with_spec, num_tokens, len in *. simpl. lia. }
  wp_step. apply wp_upd_req. intros h Hh Hoth. wp_steps.
  change (req_of (set_heap h s) id) with (h !!! id).
  split. { intros x Hx. by rewrite lookup_insert_ne. }
  split. { unfold dd_get. rewrite lookup_insert_eq, Hh.
    unfold drafts_ok, num_tokens_with_spec, num_tokens, len in *. simpl. rewrite length_take. lia. }
  exists h. split; [done|].
  assert (Hrun : running_ok s id).
  { by apply (proj1 (Forall_forall _ _) (mi_running _ _ _ Hm) id). }
  assert (Hok' : computed_ok (set_heap h s) (h !!! id) (num_computed_tokens (h !!! id) + n)).
  { rewrite Hh. split; [|exact Ho2]. split; [apply Ho1|].
    unfold num_tokens_with_spec, num_tokens, len in *. simpl. rewrite length_take. lia. }
  split; [|split; [done|split; [by rewrite Hh|split; [by rewrite Hh|exact Hok']]]].
  apply (mid_inv_upd s0 s sk id h); [done|done|done|done|by rewrite Hh|].
  destruct Hrun as [(A1 & A2 & A3) [A4 [[A5 _] _]]]. unfold running_ok, live.
  change (req_of (set_heap h s) id) with (h !!! id).
  assert (Hnc : num_computed_tokens (h !!! id) = num_computed_tokens (req_of s id)) by (by rewrite Hh).
  destruct Hok' as [Hok1 Hok2]. rewrite Hnc in *.
  split; [|split; [by rewrite Hh|split; [lia|]]]; [|simpl in *; lia].
  rewrite Hh. by split_and!; try apply A3.
Qed.

(** ** The loop over the running requests *)

(** The scheduled requests are among the first [req_index]; the preempted ones
    are the tail of the running list and lead the waiting queue. *)
Record run_inv (s0 s : sched) (l : Local) : Prop := {
  ri_loop : loop_inv s0 s l;
  ri_sub : forall id, id ∈ scheduled l -> id ∈ take (req_index l) (running s);
  ri_running : running s0 = running s ++ rev (l_preempted_reqs l);
  ri_waiting : waiting s = rev (l_preempted_reqs l) ++ waiting s0;
  ri_new : l_new_reqs l = [] /\ l_resumed_reqs l = [];
  ri_skipped : l_skipped l = [];
  ri_tables : tables_ok (kv_cache_manager s) (running s)
}.

Lemma run_inv_start s0 : sched_inv s0 -> run_inv s0 s0 (init_local (cfg s0)).
Proof.
  intros Hs. split; simpl; try done.
  - by apply loop_inv_start.
  - by rewrite app_nil_r.
  - apply (si_tables _ Hs).
Qed.

Lemma num_new_tokens_running_bounds (s : sched) id b :
  running_ok s id -> 0 < b ->
  0 <= num_new_tokens_running (cfg s) (req_of s id) b <= b /\
  (forall n, 0 <= n <= num_new_tokens_running (cfg s) (req_of s id) b ->
     computed_ok s (req_of s id) (num_computed_tokens (req_of s id) + n)).
Proof.
  intros (_ & _ & [Ho1 Ho2]) Hb. unfold num_new_tokens_running, cap_long_prefill, computed_ok.
  destruct (_ && _) eqn:E; [apply andb_true_iff in E as [E1 E2]|]; split; try lia; intros n Hn; lia.
Qed.

Definition running_step_post (s0 s : sched) (l : Local) (step : Step) (s' : sched) : Prop :=
  match step with
  | Continue l' => run_inv s0 s' l' /\ req_index l' = S (req_index l) /\
                   (length (running s') <= length (running s))%nat
  | Break l' => run_inv s0 s' l' /\ l_preempted_reqs l' <> []
  end.

(** The encoder part of an iteration: some number of tokens up to the first one. *)
Lemma wp_plan_encoder (s : sched) r nc n b :
  0 <= n ->
  wp (if has_encoder_inputs r then lift_result (_try_schedule_encoder_inputs s r nc n b)
      else mret ([], n, b))
    (fun res s' => s' = s /\ 0 <= res.1.2 <= n /\
       Forall (fun j => (j < length (mm_positions r))%nat) res.1.1) s.
Proof.
  intros Hn. destruct (has_encoder_inputs r).
  - destruct (try_schedule_encoder_ok s r nc n b Hn) as (inputs & n' & b' & -> & ? & ?). done.
  - apply wp_ret. simpl. split_and!; [done|lia|lia|constructor].
Qed.

Lemma wp_schedule_running_one s0 s l id :
  sched_inv s0 -> run_inv s0 s l -> running s !! req_index l = Some id -> 0 < token_budget l ->
  wp (schedule_running_one hash_fn NONE_HASH id l) (running_step_post s0 s l) s.
Proof.
  intros Hs0 [Hl Hsub Hr Hw Hnew Hsk Htab] Hid Hb. pose proof (li_mid _ _ _ Hl) as Hm.
  assert (Hok : running_ok s id).
  { apply (proj1 (Forall_forall _ _) (mi_running _ _ _ Hm) id). by eapply list_elem_of_lookup_2. }
  destruct (num_new_tokens_running_bounds s id (token_budget l) Hok Hb) as [Hn0 Hc0].
  unfold schedule_running_one. wp_steps.
  eapply wp_mono; [by apply (wp_plan_encoder s (req_of s id)), Hn0|].
  intros [[inputs n] eb] s1 (-> & Hn & Hin). simpl in Hn, Hin. cbv beta iota.
  destruct (n =? 0) eqn:En.
  { wp_steps. split; [|done]. split; simpl; try done.
    - destruct Hl. by split.
    - intros x (k & Hx & Hk)%Hsub%elem_of_take. apply elem_of_take. exists k. split; [done|lia]. }
  wp_step. rewrite <- (take_drop_middle _ _ _ Hid) at 1.
  set (pre := take (req_index l) (running s)). set (post := drop (S (req_index l)) (running s)).
  assert (Hrun : running s = pre ++ id :: post) by (symmetry; by apply take_drop_middle).
  assert (Hpre : length pre = req_index l).
  { apply length_take_le. apply lookup_lt_Some in Hid. lia. }
  eapply wp_mono; [apply (wp_preempt_loop s0 _ n _ id pre post _ s Hs0 Hm Hrun); [lia|done|]|].
  { rewrite length_app. simpl. lia. }
  pose proof (mi_nodup _ _ _ Hs0 Hm) as Hnd. rewrite Hrun in Hnd. apply NoDup_app in Hnd as [Hnd _].
  apply NoDup_app in Hnd as (_ & Hdis & [Hidpost Hndpost]%NoDup_cons).
  intros [[blocks|] ps] s2 (Hm2 & Ht2 & Hw2 & Hq2 & Hres); simpl in *.
  - destruct Hres as (post' & Hpost & Hr2).
    assert (Hps : forall x, x ∈ pre ++ id :: post' -> x ∉ ps).
    { intros x Hx Hin'. assert (Hx' : x ∈ rev ps) by (by rewrite <- (Permutation_rev ps)).
      apply elem_of_app in Hx as [Hx|[->|Hx]%elem_of_cons].
      - apply (Hdis x Hx). rewrite Hpost. set_solver.
      - rewrite Hpost in Hidpost. set_solver.
      - rewrite Hpost in Hndpost. apply NoDup_app in Hndpost as (_ & Hd & _). by apply (Hd x). }
    assert (Hid2 : id ∈ running s2) by (rewrite Hr2; set_solver).
    assert (Hpre2 : forall x, x ∈ scheduled l -> x ∈ pre /\ x <> id).
    { intros x Hx. apply Hsub in Hx. split; [done|]. intros ->. apply (Hdis id Hx). set_solver. }
    assert (Hl2 : loop_inv s0 s2 l).
    { apply (loop_inv_state s0 s s2 l Hl Hm2).
      { intros x Hx. rewrite Hr2 in Hx. rewrite Hq2 by (by apply Hps). apply (li_computed _ _ _ Hl). rewrite Hrun, Hpost. set_solver. }
      intros x [Hx _]%Hpre2. rewrite Hr2.
      split; [set_solver|]. apply Hq2, Hps. set_solver. }
    assert (Hc2 : computed_ok s2 (req_of s2 id) (num_computed_tokens (req_of s2 id) + n)).
    { rewrite Hq2 by (apply Hps; set_solver). unfold computed_ok. rewrite (mi_cfg _ _ _ Hm2), <- (mi_cfg _ _ _ Hm).
      apply Hc0. lia. }
    wp_step. eapply wp_mono; [apply (wp_schedule_spec_tokens s0 s2 _ id n l Hs0 Hm2 Hid2); [lia|done|]|].
    { apply eq_None_not_Some. intros Hs%(li_spec_sub _ _ _ Hl)%Hpre2. by destruct Hs. }
    intros spec s3 (Hspx & Hspid & h & -> & Hm3 & Hq3 & Hmm3 & Hnc3 & Hc3). wp_step.
    eapply wp_mono; [by apply wp_allocate_encoder|]. intros [] s4 (e & -> & He). wp_steps.
    assert (Hlive : live s id) by apply Hok. destruct Hlive as (Hrid & Hreqs & _).
    assert (He' : enc_ok (set_encoder e (set_heap h s2))).
    { apply He; [apply (mi_enc _ _ _ Hm3)|rewrite Hrid; simpl; by rewrite (mi_requests _ _ _ Hm2), <- (mi_requests _ _ _ Hm)|].
      rewrite Hrid, Hmm3. by rewrite Hq2 by (apply Hps; set_solver). }
    assert (Hl3 : loop_inv s0 (set_encoder e (set_heap h s2)) l).
    { apply (loop_inv_state s0 s2 _ l Hl2 (mid_inv_set_encoder _ _ _ _ Hm3 He')).
      { intros x Hx. rewrite <- (li_computed _ _ _ Hl2 x Hx).
        destruct (decide (x = id)) as [->|Hne]; [exact Hnc3|]. f_equal. by apply (Hq3 x). }
      intros x Hx. split; [apply (li_sub _ _ _ Hl2 x Hx)|]. by apply (Hq3 x), Hpre2. }
    split; [|split; [done|]]; [split; simpl|].
    + apply (loop_inv_add s0 _ l _ id n blocks Hl3); try done; try lia.
      * intros Hx%Hpre2. by destruct Hx.
      * unfold scheduled. simpl. solve_Permutation.
    + assert (Htake : take (S (req_index l)) (pre ++ id :: post') = pre ++ [id]).
      { rewrite cons_middle, app_assoc. apply take_app_length'. rewrite length_app. simpl. lia. }
      intros x. unfold scheduled. simpl. rewrite Hr2, Htake.
      intros Hx. assert (x ∈ scheduled l \/ x = id) as [?%Hpre2 | ->] .
      { unfold scheduled. rewrite !elem_of_app, list_elem_of_singleton in *. tauto. }
      all: set_solver.
    + rewrite Hr2, rev_app_distr, Hr, Hrun, Hpost. rewrite <- !app_assoc. simpl. by rewrite <- !app_assoc.
    + rewrite rev_app_distr, Hw2, Hw. by rewrite app_assoc.
    + done.
    + done.
    + done.
    + simpl. rewrite Hr2, Hrun, Hpost, !length_app. simpl. rewrite length_app. lia.
  - destruct Hres as [Hps Hr2]. wp_steps. split.
    + split; simpl.
      * assert (Hq : forall x, x ∈ pre -> x ∉ ps).
        { intros x Hx Hin'. apply (Hdis x Hx). rewrite <- Hps, <- (Permutation_rev ps). done. }
        apply (loop_inv_state s0 s) with (l := l) in Hm2 as Hl2; [|done| |].
        2:{ intros x Hx. rewrite Hr2 in Hx. rewrite Hq2 by (by apply Hq). apply (li_computed _ _ _ Hl). rewrite Hrun. set_solver. }
        { destruct Hl2. by split. }
        intros x Hx%Hsub. rewrite Hr2. split; [done|]. apply Hq2, Hq. done.
      * intros x Hx%Hsub. rewrite Hr2. unfold pre. rewrite take_take, Nat.min_id. done.
      * rewrite Hr2, rev_app_distr, Hps, Hr, Hrun. by rewrite <- !app_assoc.
      * rewrite rev_app_distr, Hw2, Hw. by rewrite app_assoc.
      * done.
      * done.
      * done.
    + simpl. intros [_ E]%app_eq_nil. by rewrite E in Hps.
Qed.

(** The loop ends because it has preempted, seen every running request or
    used up the budget; its fuel is enough. *)
Definition running_exit (l : Local) (s : sched) : Prop :=
  l_preempted_reqs l <> [] \/ (length (running s) <= req_index l)%nat \/ token_budget l = 0.

Lemma wp_running_loop s0 s l fuel :
  sched_inv s0 -> run_inv s0 s l -> (length (running s) <= req_index l + fuel)%nat ->
  wp (running_loop hash_fn NONE_HASH fuel l) (fun l' s' => run_inv s0 s' l' /\ running_exit l' s') s.
Proof.
  intros Hs0. revert s l. induction fuel as [|fuel IH]; intros s l Hl Hf; cbn [running_loop]; wp_steps;
    (destruct (running s !! req_index l : option string) as [id|] eqn:Hid;
      [|wp_steps; split; [done|right; left; by apply lookup_ge_None]]).
  { apply lookup_lt_Some in Hid. simpl in *. lia. }
  destruct (0 <? token_budget l) eqn:Hb.
  - wp_step. eapply wp_mono; [apply (wp_schedule_running_one s0 s l _ Hs0 Hl Hid); lia|].
    intros [l'|l'] s' Hstep; simpl in Hstep.
    + destruct Hstep as (Hl' & Hi & Hlen). apply IH; [done|]. lia.
    + wp_steps. destruct Hstep as [Hl' Hp]. split; [done|by left].
  - wp_steps. split; [done|]. right; right. pose proof (li_budget _ _ _ (ri_loop _ _ _ Hl)). lia.
Qed.

(** ** The loop over the waiting requests *)

(** An update keeps what the scheduler relies on. *)
Definition like (r r' : Request) : Prop :=
  request_id r' = request_id r /\ _all_token_ids r' = _all_token_ids r /\
  spec_token_ids r' = spec_token_ids r /\ mm_positions r' = mm_positions r.

Lemma live_like (s s' : sched) id :
  live s id -> like (req_of s id) (req_of s' id) -> requests s' = requests s -> cfg s' = cfg s -> live s' id.
Proof.
  unfold live, num_tokens. intros (L1 & L2 & L3) (E1 & E2 & E3 & _) -> ->. rewrite E1, E2. done.
Qed.

(** A prefix of the queue has been admitted or skipped, in order. *)
Definition wait_order (s0 s : sched) (l : Local) : Prop :=
  exists pre admitted, waiting s0 = pre ++ waiting s /\ running s = running s0 ++ admitted /\
    sublist admitted pre /\ sublist (rev (l_skipped l)) pre /\ pre ≡ₚ rev (l_skipped l) ++ admitted.

Record wait_inv (s0 s : sched) (l : Local) : Prop := {
  wi_loop : loop_inv s0 s l;
  wi_order : wait_order s0 s l;
  wi_tables : tables_ok (kv_cache_manager s) (running s)
}.

Lemma mid_inv_upd_waiting s0 (s : sched) sk id h :
  sched_inv s0 -> mid_inv s0 s sk -> id ∈ waiting s ->
  (forall id', id' <> id -> h !!! id' = req_of s id') -> inputs_of (h !!! id) = inputs_of (req_of s id) ->
  waiting_ok (set_heap h s) id -> mid_inv s0 (set_heap h s) sk.
Proof.
  intros Hs0 Hm Hid Hoth Hin Hok. pose proof (mi_nodup _ _ _ Hs0 Hm) as Hnd.
  destruct Hm as [Hkv Hcfg Hcon Hreq Hperm Hr Hw Hlim Henc Hsh Htoks].
  split; try done; simpl; [| |apply (enc_ok_upd s id); [done|by injection Hin|done]|by apply (inputs_upd s0 s id)].
  - eapply Forall_ext_in; [|exact Hr]. intros x Hx. apply (running_ok_ext s); [|done|done].
    apply Hoth. intros ->. apply NoDup_app in Hnd as (_ & Hd & _). apply (Hd id Hx). set_solver.
  - eapply Forall_ext_in; [|exact Hw]. intros x Hx Hxok. destruct (decide (x = id)) as [->|Hne]; [done|].
    apply (waiting_ok_ext s); [|done|done|done]. by apply Hoth.
Qed.

(** Grammars that are ready make the request [WAITING]; nothing else is skipped. *)
Lemma wp_must_skip s0 (s : sched) l sk id rest :
  sched_inv s0 -> mid_inv s0 s sk -> waiting s = id :: rest ->
  wp (must_skip hash_fn NONE_HASH id l) (fun b s' => exists h, s' = set_heap h s /\ mid_inv s0 s' sk /\
    (forall id', id' <> id -> req_of s' id' = req_of s id') /\
    (b = false -> status (req_of s' id) = WAITING \/ status (req_of s' id) = PREEMPTED)) s.
Proof.
  intros Hs0 Hm Hw.
  assert (Hsame : exists h, s = set_heap h s) by (exists (heap s); by destruct s).
  destruct Hsame as [h0 Hh0].
  assert (Hok : waiting_ok s id).
  { apply (proj1 (Forall_forall _ _) (mi_waiting _ _ _ Hm) id). rewrite Hw. set_solver. }
  pose proof Hok as (Hlive & Hst & Hnc).
  assert (Hml : max_loras (cfg s) = None) by (rewrite (mi_cfg _ _ _ Hm); apply (si_loras _ Hs0)).
  unfold must_skip, get_req. wp_steps. rewrite decide_False by (intros E; destruct Hst as [?|[?|?]]; congruence).
  wp_steps. destruct (decide (status (req_of s id) = WAITING_FOR_FSM)) as [E|E].
  - destruct (grammar_ready _) eqn:Eg.
    + wp_steps. apply wp_upd_req. intros h Hh Hoth. wp_steps. simpl. rewrite Hml.
      exists h. split; [done|].
      change (req_of (set_heap h s) id) with (h !!! id).
      split; [|split; [done|intros _; left; unfold req_of; simpl; by rewrite Hh]].
      apply (mid_inv_upd_waiting s0 s sk id h Hs0 Hm); [rewrite Hw; set_solver|done|by rewrite Hh|].
      unfold waiting_ok. change (req_of (set_heap h s) id) with (h !!! id).
      split; [|rewrite Hh; split; [by left|done]].
      apply (live_like s); [done| |done|done]. unfold req_of at 2. simpl. by rewrite Hh.
    + wp_steps. by exists h0.
  - wp_steps. simpl. rewrite Hml. exists h0. split_and!; try done. tauto.
Qed.

(** With caching off there is nothing to hit. *)
Lemma wp_find_hits s0 (s : sched) sk id :
  sched_inv s0 -> mid_inv s0 s sk -> num_computed_tokens (req_of s id) = 0 ->
  wp (find_hits hash_fn NONE_HASH id)
    (fun h s' => s' = s /\ h = mkHits (create_empty_block_list (kv_cache_manager s)) 0 0 false 0) s.
Proof.
  intros Hs0 Hm Hnc. unfold find_hits, get_req. wp_steps. rewrite Hnc. simpl. wp_steps.
  unfold kv_op, get_computed_blocks. wp_steps. rewrite (ko_off _ _ (mi_kv _ _ _ Hm)). simpl. wp_steps.
  assert (E : set_kv (kv_cache_manager s) s = s) by (by destruct s).
  rewrite E, (mi_connector _ _ _ Hm). wp_steps. by split.
Qed.

Lemma wp_new_tokens_waiting (s : sched) id l blks :
  live s id -> 0 < token_budget l ->
  wp (new_tokens_waiting id l (mkHits blks 0 0 false 0)) (fun res s' => s' = s /\
    match res with
    | None => True
    | Some (inputs, n, _) => 1 <= n <= token_budget l /\ n <= num_tokens (req_of s id) /\ computed_ok s (req_of s id) n /\
        Forall (fun j => (j < length (mm_positions (req_of s id)))%nat) inputs
    end) s.
Proof.
  intros (_ & _ & Hlen) Hb. unfold new_tokens_waiting. wp_steps. simpl.
  set (n0 := Z.min _ _).
  assert (Hn0 : 1 <= n0 <= token_budget l /\ n0 <= num_tokens (req_of s id)).
  { unfold n0, cap_long_prefill. destruct (_ && _) eqn:E; [apply andb_true_iff in E as [E1 E2]|]; lia. }
  clearbody n0. apply wp_bind, wp_assert; [lia|].
  assert (Hok : forall n, 0 <= n <= n0 -> computed_ok s (req_of s id) n).
  { intros n Hn. unfold computed_ok, num_tokens_with_spec, num_tokens, len in *. lia. }
  destruct (has_encoder_inputs _).
  - wp_step. destruct (try_schedule_encoder_ok s (req_of s id) 0 n0 (encoder_budget l) ltac:(lia))
      as (inputs & n' & b' & -> & Hn' & Hin).
    unfold lift_result. unfold wp at 1. destruct (n' =? 0) eqn:E; wp_steps; [done|].
    split; [done|]. split; [lia|]. split; [lia|]. split; [apply Hok; lia|done].
  - wp_steps. split; [done|]. split; [lia|]. split; [lia|]. split; [apply Hok; lia|constructor].
Qed.

Lemma wp_upd_like (s : sched) id f (P : unit -> sched -> Prop) b :
  (forall r, like r (f r)) ->
  (forall h, like (req_of s id) (h !!! id) ->
     (h !!! id = f (req_of s id) \/ b = false /\ h !!! id = req_of s id) ->
     (forall id', id' <> id -> h !!! id' = req_of s id') -> P tt (set_heap h s)) ->
  wp (when b (upd_req id f)) P s.
Proof.
  intros Hf HP. unfold when. destruct b.
  - apply wp_upd_req. intros h Hh Hoth. apply HP; [rewrite Hh; apply Hf|by left|done].
  - apply wp_ret. replace s with (set_heap (heap s) s) by (by destruct s). apply HP; [done|by right|done].
Qed.

Lemma like_trans r1 r2 r3 : like r1 r2 -> like r2 r3 -> like r1 r3.
Proof. intros (?&?&?&?) (?&?&?&?). split_and!; congruence. Qed.

(** What admitting a request changes. *)
Lemma wp_admit (s : sched) id l blks inputs n eb :
  status (req_of s id) = WAITING \/ status (req_of s id) = PREEMPTED ->
  Forall (fun j => (j < length (mm_positions (req_of s id)))%nat) inputs ->
  wp (admit_request id l (mkHits blks 0 0 false 0) inputs n eb) (fun step s' => exists l' hp e b,
    step = Continue l' /\ s' = set_encoder e (set_heap hp (set_running (running s ++ [id]) s)) /\
    (forall id', id' <> id -> hp !!! id' = req_of s id') /\ like (req_of s id) (hp !!! id) /\
    status (hp !!! id) = RUNNING /\ num_computed_tokens (hp !!! id) = 0 /\
    l_num_scheduled l' = <[id := n]> (l_num_scheduled l) /\
    l_new_block_ids l' = <[id := b]> (l_new_block_ids l) /\
    token_budget l' = token_budget l - n /\ l_skipped l' = l_skipped l /\
    scheduled l' ≡ₚ id :: scheduled l /\ l_spec_tokens l' = l_spec_tokens l /\
    (enc_ok s -> request_id (req_of s id) = id -> id ∈ requests s -> enc_ok s')) s.
Proof.
  intros Hst Hin. unfold admit_request, get_req. wp_steps. apply wp_upd_like; [done|].
  intros h1 L1 _ O1. wp_step.
  set (lists := match status (req_of s id) with
    | WAITING => (l_new_reqs l ++ [id], l_resumed_reqs l)
    | _ => (l_new_reqs l, l_resumed_reqs l ++ [id]) end).
  eapply (wp_mono _ (fun p s' => s' = set_heap h1 (set_running (running s ++ [id]) s) /\ p = lists)).
  { unfold lists. destruct Hst as [-> | ->]; by wp_steps. }
  intros [nr rr] s' [-> Hlists]. wp_steps. apply wp_upd_req. intros h2 E2 O2. wp_steps.
  apply wp_upd_req. intros h3 E3 O3. wp_step. apply wp_upd_like; [done|]. intros h4 L4 F4 O4. wp_step.
  change (req_of (set_heap h1 (set_running (running s ++ [id]) s)) id) with (h1 !!! id) in E2.
  change (req_of (set_heap h2 (set_heap h1 (set_running (running s ++ [id]) s))) id) with (h2 !!! id) in E3.
  change (like (h3 !!! id) (h4 !!! id)) in L4.
  change (h4 !!! id = with_num_cached_tokens 0 (h3 !!! id) \/
    (num_cached_tokens (req_of s id) <? 0) = false /\ h4 !!! id = h3 !!! id) in F4.
  eapply wp_mono; [by apply wp_allocate_encoder|]. intros [] s5 (e & -> & He). wp_steps.
  eexists _, h4, e, _. split; [done|]. split; [done|].
  assert (HO : forall id', id' <> id -> h4 !!! id' = req_of s id').
  { intros id' Hne. rewrite O4 by done. unfold req_of at 1. simpl. rewrite O3 by done.
    unfold req_of at 1. simpl. rewrite O2 by done. by apply (O1 id'). }
  assert (HL : like (req_of s id) (h4 !!! id)).
  { eapply like_trans; [exact L1|]. eapply like_trans; [|exact L4]. rewrite E3, E2. by repeat split. }
  split; [done|]. split; [done|].
  split. { destruct F4 as [F4|[_ F4]]; rewrite F4, E3, E2; done. }
  split. { destruct F4 as [F4|[_ F4]]; rewrite F4, E3; done. }
  split; [done|]. split; [done|]. split; [done|]. split; [done|]. split.
  2:{ split; [done|]. intros Hok Hrid Hreq. rewrite Hrid in He. apply He; [|done|apply HL].
      apply (enc_ok_upd (set_running (running s ++ [id]) s) id h4); [done|apply HL|done]. }
  unfold scheduled. simpl. unfold lists in Hlists.
  destruct Hst as [E|E]; rewrite E in Hlists; injection Hlists as -> ->; solve_Permutation.
Qed.

Definition waiting_step_post (s0 s : sched) (step : Step) (s' : sched) : Prop :=
  match step with
  | Continue l' => wait_inv s0 s' l' /\ (length (waiting s') < length (waiting s))%nat
  | Break l' => wait_inv s0 s' l'
  end.

Lemma wait_inv_state s0 (s s' : sched) l :
  wait_inv s0 s l -> loop_inv s0 s' l -> waiting s' = waiting s -> running s' = running s ->
  tables_ok (kv_cache_manager s') (running s) -> wait_inv s0 s' l.
Proof.
  intros [_ (pre & adm & Hord) _] Hl Ew Er Ht. split; [done| |by rewrite Er].
  exists pre, adm. by rewrite Ew, Er.
Qed.

(** The head of the queue is skipped. *)
Lemma wp_skip_request s0 (s : sched) l id rest :
  wait_inv s0 s l -> waiting s = id :: rest ->
  wp (skip_request id rest l) (waiting_step_post s0 s) s.
Proof.
  intros [Hl (pre & adm & Hp1 & Hp2 & Hs1 & Hs2 & Hp3) Htab] Hw. unfold skip_request. wp_steps.
  split; [|simpl; rewrite Hw; simpl; lia]. split; [| |done].
  - destruct Hl as [[M1 M2 M3 M4 M5 M6 M7 M8 M9 M10 M11] L2 L3 L4 L5 L6 L7 L8 L9 L10 L11]. rewrite Hw in *. split; try done.
    split; simpl; try done.
    + rewrite <- M5. solve_Permutation.
    + rewrite Permutation_middle. exact M7.
  - exists (pre ++ [id]), adm. simpl. split_and!.
    + rewrite Hp1, Hw. by rewrite <- app_assoc.
    + done.
    + by apply sublist_inserts_r.
    + by apply sublist_app.
    + rewrite Hp3. solve_Permutation.
Qed.

(** The head of the queue is admitted. *)
Lemma wp_admit_head s0 (s : sched) l id rest blks inputs n eb :
  sched_inv s0 -> loop_inv s0 s l -> wait_order s0 s l -> tables_ok (kv_cache_manager s) (id :: running s) ->
  waiting s = id :: rest -> len (running s) <> max_num_running_reqs (cfg s) ->
  status (req_of s id) = WAITING \/ status (req_of s id) = PREEMPTED ->
  Forall (fun j => (j < length (mm_positions (req_of s id)))%nat) inputs ->
  1 <= n <= token_budget l -> n <= num_tokens (req_of s id) -> computed_ok s (req_of s id) n ->
  wp (admit_request id l (mkHits blks 0 0 false 0) inputs n eb) (waiting_step_post s0 s) (set_waiting rest s).
Proof.
  intros Hs0 Hl (pre & adm & Hp1 & Hp2 & Hs1 & Hs2 & Hp3) Htab Hw Hmax Hst Hin Hn Hnt Hok.
  pose proof (li_mid _ _ _ Hl) as Hm. pose proof (mi_nodup _ _ _ Hs0 Hm) as Hnd. rewrite Hw in Hnd.
  assert (Hwok : waiting_ok s id).
  { apply (proj1 (Forall_forall _ _) (mi_waiting _ _ _ Hm) id). rewrite Hw. set_solver. }
  assert (Hidr : id ∉ running s).
  { intros Hid. apply NoDup_app in Hnd as (_ & Hd & _). apply (Hd id Hid). set_solver. }
  assert (Hidw : forall x, x ∈ l_skipped l ++ rest -> x <> id).
  { intros x Hx ->. apply NoDup_app in Hnd as (_ & _ & Hnd). rewrite <- Permutation_middle in Hnd.
    by apply NoDup_cons in Hnd as [Hnd _]. }
  eapply wp_mono; [by apply (wp_admit (set_waiting rest s))|].
  intros step s' (l' & hp & e & b & -> & -> & Hoth & Hlike & Hrun & Hnc & E1 & E2 & E3 & E4 & E5 & E6 & Henc).
  destruct Hwok as ((Hrid & Hreqs & Hlen) & _).
  specialize (Henc (mi_enc _ _ _ Hm) Hrid Hreqs).
  set (s' := set_encoder e _) in *. change (req_of (set_waiting rest s)) with (req_of s) in *.
  assert (Hq : forall x, x <> id -> req_of s' x = req_of s x) by (intros x Hx; by apply (Hoth x)).
  assert (Hid' : req_of s' id = hp !!! id) by done.
  assert (Hm' : mid_inv s0 s' (l_skipped l)).
  { destruct Hm as [M1 M2 M3 M4 M5 M6 M7 M8 M9 M10 M11]. rewrite Hw in *. split; simpl; try done.
    - rewrite <- M5. solve_Permutation.
    - apply Forall_app. split.
      + eapply Forall_ext_in; [|exact M6]. intros x Hx. apply (running_ok_ext s); [|done|done].
        apply Hq. by intros ->.
      + constructor; [|constructor]. split; [|rewrite Hid'; split; [done|]].
        * apply (live_like s); [done|by rewrite Hid'|done|done].
        * rewrite Hnc. unfold computed_ok, num_tokens_with_spec in *. simpl.
          destruct Hlike as (_ & -> & -> & _). lia.
    - apply Forall_app in M7 as [M7 M7']. apply Forall_cons in M7' as [_ M7'].
      apply Forall_app. split; (eapply Forall_ext_in; [|eassumption]); intros x Hx;
        (apply (waiting_ok_ext s); [|done|done]); apply Hq, Hidw; set_solver.
    - rewrite len_app. change (len [id]) with 1. rewrite Hp2 in *. lia.
    - intros x. rewrite <- M11. destruct (decide (x = id)) as [->|Hne]; [|by rewrite Hq].
      rewrite Hid'. destruct Hlike as (_ & L1 & _ & L2). unfold inputs_of. by rewrite L1, L2. }
  assert (Hl' : loop_inv s0 s' l).
  { apply (loop_inv_state s0 s s' l Hl Hm').
    { intros x [Hx|Hx%list_elem_of_singleton]%elem_of_app.
      - rewrite Hq by (by intros ->). by apply (li_computed _ _ _ Hl).
      - subst x. rewrite Hid', Hnc. symmetry. pose proof (si_waiting _ Hs0) as Hw0. rewrite Forall_forall in Hw0.
        apply (Hw0 id). rewrite Hp1, Hw. set_solver. }
    intros x Hx%(li_sub _ _ _ Hl). simpl. split; [set_solver|]. apply Hq. by intros ->. }
  split; [split|simpl; rewrite Hw; simpl; lia].
  3:{ eapply tables_ok_mono; [|exact Htab]. simpl. set_solver. }
  - apply (loop_inv_add s0 s' l l' id n b Hl'); try done.
    + by intros Hx%(li_sub _ _ _ Hl).
    + simpl. set_solver.
    + rewrite Hid', Hnc. unfold computed_ok, num_tokens_with_spec in *. simpl.
      destruct Hlike as (_ & -> & -> & _). lia.
    + by rewrite E6.
    + rewrite E6. assert (l_spec_tokens l !! id = None) as Hnone.
      { apply eq_None_not_Some. by intros Hs%(li_spec_sub _ _ _ Hl)%(li_sub _ _ _ Hl). }
      unfold dd_get. rewrite Hnone, Hid', Hnc. unfold drafts_ok, num_tokens. destruct Hlike as (_ & -> & _).
      change (len (_all_token_ids (req_of s id))) with (num_tokens (req_of s id)). simpl.
      change (len []) with 0. lia.
  - exists (pre ++ [id]), (adm ++ [id]). rewrite E4. simpl. split_and!.
    + rewrite Hp1, Hw. by rewrite <- app_assoc.
    + by rewrite Hp2, app_assoc.
    + by apply sublist_app.
    + by apply sublist_inserts_r.
    + rewrite Hp3. by rewrite app_assoc.
Qed.

Lemma wait_inv_mid s0 (s s' : sched) l :
  wait_inv s0 s l -> mid_inv s0 s' (l_skipped l) -> waiting s' = waiting s -> running s' = running s ->
  tables_ok (kv_cache_manager s') (running s) -> (forall x, x ∈ running s -> req_of s' x = req_of s x) -> wait_inv s0 s' l.
Proof.
  intros Hl Hm Ew Er Ht Hq. apply (wait_inv_state s0 s s' l Hl); [|done|done|done].
  apply (loop_inv_state s0 s s' l (wi_loop _ _ _ Hl) Hm).
  { intros x. rewrite Er. intros Hx. rewrite Hq by done. by apply (li_computed _ _ _ (wi_loop _ _ _ Hl)). }
  intros x Hx%(li_sub _ _ _ (wi_loop _ _ _ Hl)). rewrite Er. split; [done|by apply Hq].
Qed.

Lemma wp_schedule_waiting_one s0 (s : sched) l id rest :
  sched_inv s0 -> wait_inv s0 s l -> waiting s = id :: rest -> 0 < token_budget l ->
  len (running s) <> max_num_running_reqs (cfg s) ->
  wp (schedule_waiting_one hash_fn NONE_HASH id rest l) (waiting_step_post s0 s) s.
Proof.
  intros Hs0 Hl Hw Hb Hmax. pose proof (li_mid _ _ _ (wi_loop _ _ _ Hl)) as Hm.
  unfold schedule_waiting_one. wp_step. eapply wp_mono; [by apply (wp_must_skip s0 s l (l_skipped l) id rest)|].
  intros skip s1 (h & -> & Hm1 & Hq1 & Hst). set (s1 := set_heap h s) in *.
  assert (Hl1 : wait_inv s0 s1 l).
  { apply (wait_inv_mid s0 s s1 l Hl Hm1); [done|done|apply (wi_tables _ _ _ Hl)|]. intros x Hx. apply Hq1. intros ->.
    pose proof (mi_nodup _ _ _ Hs0 Hm) as Hnd. rewrite Hw in Hnd.
    apply NoDup_app in Hnd as (_ & Hd & _). apply (Hd id Hx). set_solver. }
  destruct skip; [by apply (wp_skip_request s0 s1)|]. specialize (Hst eq_refl).
  assert (Hwok : waiting_ok s1 id).
  { apply (proj1 (Forall_forall _ _) (mi_waiting _ _ _ Hm1) id). simpl. rewrite Hw. set_solver. }
  wp_step. eapply wp_mono; [apply (wp_find_hits s0 s1 _ id Hs0 Hm1); apply Hwok|].
  intros hits s2 [-> ->]. wp_step.
  eapply wp_mono; [apply wp_new_tokens_waiting; [apply Hwok|done]|].
  intros [[[inputs n] eb]|] s2 [-> Hplan]; [|by wp_steps]. destruct Hplan as (Hn & Hnt & Hok & Hin).
  wp_steps. unfold get_req. wp_steps. simpl. rewrite Z.add_0_r.
  destruct Hl1 as [Hl1 Ho1 Ht1].
  eapply wp_kv_allocate; [done|lia|by right|done|]. intros [blks|] k' Hm2 Htk Htn.
  2:{ wp_steps. simpl. apply (wait_inv_mid s0 s1); try done. by apply Htn. }
  wp_steps. simpl. rewrite (mi_connector _ _ _ Hm). simpl. wp_steps.
  eapply (wp_mono _ (waiting_step_post s0 (set_kv k' s1))); [|done].
  assert (Hl2 : loop_inv s0 (set_kv k' s1) l).
  { apply (loop_inv_state s0 s1 _ l Hl1 Hm2 (li_computed _ _ _ Hl1)). intros x Hx. split; [by apply (li_sub _ _ _ Hl1)|done]. }
  apply (wp_admit_head s0 (set_kv k' s1) l id rest); try done.
  destruct Hwok as [[Hrid _] _]. rewrite Hrid in Htk. exact Htk.
Qed.

Lemma wp_waiting_loop s0 fuel s l :
  sched_inv s0 -> wait_inv s0 s l ->
  wp (waiting_loop hash_fn NONE_HASH fuel l) (fun l' s' => wait_inv s0 s' l') s.
Proof.
  intros Hs0. revert s l. induction fuel as [|fuel IH]; intros s l Hl; cbn [waiting_loop]; wp_steps;
    (destruct (waiting s) as [|id rest] eqn:Hw; [by wp_steps|]); [by wp_steps|].
  destruct (0 <? token_budget l) eqn:Hb; [|by wp_steps]. destruct (_ =? _) eqn:Hmax; [by wp_steps|].
  wp_step. eapply wp_mono; [apply (wp_schedule_waiting_one s0 s l id rest Hs0 Hl Hw); lia|].
  intros [l'|l'] s' Hstep; simpl in Hstep; [|by wp_steps]. apply IH, Hstep.
Qed.

(** The fuel of [schedule] is enough: more of it changes nothing. *)
Lemma waiting_loop_fuel s0 fuel k s l :
  sched_inv s0 -> wait_inv s0 s l -> (length (waiting s) <= fuel)%nat ->
  waiting_loop hash_fn NONE_HASH (fuel + k) l s = waiting_loop hash_fn NONE_HASH fuel l s.
Proof.
  intros Hs0. revert s l. induction fuel as [|fuel IH]; intros s l Hl Hf.
  - destruct (waiting s) as [|id rest] eqn:Hw; [|simpl in Hf; lia].
    destruct k; cbn; unfold mbind, M_mbind, M_bind, get_state; by rewrite Hw.
  - cbn [waiting_loop Nat.add]. unfold mbind at 1 3, M_mbind, M_bind, get_state.
    destruct (waiting s) as [|id rest] eqn:Hw; [done|].
    destruct (0 <? token_budget l) eqn:Hb; [|done]. destruct (_ =? _) eqn:Hmax; [done|].
    destruct (wp_elim _ _ _ (wp_schedule_waiting_one s0 s l id rest Hs0 Hl Hw ltac:(lia) ltac:(lia)))
      as (step & s' & E & Hstep).
    unfold mbind, M_mbind, M_bind. rewrite E. destruct step as [l'|l']; [|done].
    destruct Hstep as [Hl' Hlen]. apply IH; [done|]. rewrite Hw in Hlen. simpl in *. lia.
Qed.

(** ** The end of the step *)

Lemma wp_kv_take_events log (k : KVCacheManager Q) :
  kv_ok log k -> wp kv_take_events (fun _ k' => kv_ok log k' /\ kv_shape k' = kv_shape k /\
    forall ids, tables_ok k ids -> tables_ok k' ids) k.
Proof.
  intros [[l Hk] Hoff Hf Hlog Hst]. unfold kv_take_events, on_coordinator, on_block_pool. wp_steps.
  eapply wp_mono; [apply (wp_take_events _ l), (ki_pool _ _ Hk)|].
  intros evs p' (Hp & Hb & Hnull & Hc & _).
  pose proof (pb_num _ _ (pi_base _ _ Hp)) as Hn'. pose proof (pb_num _ _ (pi_base _ _ (ki_pool _ _ Hk))) as Hn.
  rewrite Hb, <- Hn in Hn'.
  destruct Hk as [K1 K2 K3 K4 K5 K6 K7 K8].
  split; [|split; [unfold kv_shape; simpl; by rewrite Hn'|by intros ids]]. split; [exists l|done|exact Hf|exact Hlog|exact Hst].
  split; simpl; try done.
  - intros i. unfold refs. rewrite Hb, Hnull. apply K2.
  - eapply Forall_impl; [exact K3|]. intros m Hm. unfold ids_ok in *. by rewrite Hb.
  - congruence.
Qed.

Lemma wp_advance_all kvs (s : sched) :
  NoDup kvs.*1 -> (forall id, id ∈ kvs.*1 -> id ∈ requests s) ->
  wp (for_each advance kvs) (fun _ s' => exists h, s' = set_heap h s /\
    (forall id, id ∉ kvs.*1 -> h !!! id = req_of s id) /\
    (forall id n, (id, n) ∈ kvs ->
       h !!! id = with_num_computed_tokens (num_computed_tokens (req_of s id) + n) (req_of s id))) s.
Proof.
  revert s. induction kvs as [|[id n] kvs IH]; intros s Hnd Hin; cbn [for_each].
  { apply wp_ret. exists (heap s). split; [by destruct s|]. split; [done|]. by intros ? ? ?%not_elem_of_nil. }
  rewrite fmap_cons in Hnd. apply NoDup_cons in Hnd as [Hid Hnd]. simpl in Hid.
  wp_step. unfold advance. wp_steps. simpl. rewrite decide_True by (apply Hin; by left).
  apply wp_upd_req. intros h Hh Hoth.
  eapply wp_mono; [apply (IH (set_heap h s) Hnd); intros x Hx; apply Hin; by right|].
  intros [] s' (h' & -> & Hn & Hi). exists h'. split; [done|]. split.
  - intros x [Hx1 Hx2]%not_elem_of_cons. rewrite Hn by done. by apply (Hoth x).
  - intros x m [[= -> ->]|Hx]%elem_of_cons.
    + rewrite Hn by done. done.
    + rewrite (Hi x m Hx). assert (Hne : x <> id).
      { intros ->. apply Hid. apply list_elem_of_fmap. by exists (id, m). }
      change (req_of (set_heap h s) x) with (h !!! x). by rewrite Hoth.
Qed.

(** Preparing the output reads the objects; only the reused records change. *)
Definition cached_data_only (s s' : sched) : Prop := exists d, s' = set_cached_data d s.

Lemma wp_new_data l ids (s : sched) :
  (forall id, id ∈ ids -> is_Some (l_new_block_ids l !! id)) ->
  wp (map_each (new_data_of l) ids) (fun ds s' => s' = s /\ nr_req_id <$> ds = (fun id => request_id (req_of s id)) <$> ids) s.
Proof.
  induction ids as [|id ids IH]; intros Hin; cbn [map_each]; [by wp_steps|].
  wp_step. unfold new_data_of at 1, get_item, get_req. destruct (Hin id) as [b Hb]; [set_solver|]. rewrite Hb. wp_steps.
  eapply wp_mono; [apply IH; intros x Hx; apply Hin; set_solver|]. intros ds s' [-> E]. wp_steps.
  split; [done|]. rewrite !fmap_cons, E. done.
Qed.

Lemma wp_cached_data l resumed ids (s : sched) :
  (forall id, id ∈ ids -> is_Some (l_num_scheduled l !! id) /\ is_Some (l_new_block_ids l !! id)) ->
  wp (map_each (cached_data_of l resumed) ids) (fun _ s' => cached_data_only s s') s.
Proof.
  revert s. induction ids as [|id ids IH]; intros s Hin; cbn [map_each].
  { wp_steps. exists (_cached_reqs_data s). by destruct s. }
  wp_step. unfold cached_data_of at 1, get_item. destruct (Hin id) as [[n Hn] [b Hb]]; [set_solver|]. rewrite Hn, Hb. wp_steps.
  apply (wp_mono _ (fun _ s' => cached_data_only s s')).
  - unfold _make_cached_request_data. wp_steps.
    destruct (_cached_reqs_data s !! id) as [[|d ds]|]; wp_steps;
      [exists (_cached_reqs_data s); by destruct s|by eexists|exists (_cached_reqs_data s); by destruct s].
  - intros d s' [m ->]. wp_step. eapply wp_mono; [apply IH; intros x Hx; apply Hin; set_solver|].
    intros ds s2 [m2 ->]. wp_steps. by exists m2.
Qed.

(** What the end of the step leaves: the scheduled requests have advanced. *)
Record finished_step (s : sched) (l : Local) (out : SchedulerOutput) (s' : sched) : Prop := {
  fs_nums : num_scheduled_tokens out = l_num_scheduled l;
  fs_drafts : scheduled_spec_decode_tokens out = l_spec_tokens l;
  fs_total : total_num_scheduled_tokens out = sum_values (l_num_scheduled l);
  fs_running : running s' = running s;
  fs_waiting : waiting s' = rev (l_skipped l) ++ waiting s;
  fs_advanced : forall id n, l_num_scheduled l !! id = Some n ->
    req_of s' id = with_num_computed_tokens (num_computed_tokens (req_of s id) + n) (req_of s id);
  fs_others : forall id, l_num_scheduled l !! id = None -> req_of s' id = req_of s id
}.

Lemma finished_step_inv s0 s l out s' :
  sched_inv s0 -> loop_inv s0 s l -> finished_step s l out s' ->
  kv_ok (sched_log_stats (cfg s')) (kv_cache_manager s') -> connector s' = None -> requests s' = requests s -> cfg s' = cfg s ->
  enc_ok s' -> tables_ok (kv_cache_manager s') (running s) -> sched_inv s'.
Proof.
  intros Hs0 [[M1 M2 M3 M4 M5 M6 M7 M8 _ _ _] L2 L3 L4 L5 L6 L7 L8 _ _ _] [F1 F0 F2 F3 F4 F5 F6] Hk Hcon Hreq Hcfg Henc Htab.
  assert (Hnd : NoDup (running s ++ l_skipped l ++ waiting s)) by (rewrite M5; apply (si_nodup _ Hs0)).
  assert (Hw : forall id, id ∈ l_skipped l ++ waiting s -> req_of s' id = req_of s id).
  { intros id Hid. apply F6. apply eq_None_not_Some. rewrite L4. intros Hsch%L7.
    apply NoDup_app in Hnd as (_ & Hd & _). by apply (Hd id). }
  rewrite Hcfg, M2 in Hk. split; rewrite ?Hcfg, ?M2; try done.
  - apply (si_loras _ Hs0).
  - apply (si_budget _ Hs0).
  - rewrite F3, F4, <- (Permutation_rev (l_skipped l)). done.
  - rewrite F3. eapply Forall_ext_in; [|exact M6]. intros id Hid Hok.
    destruct (l_num_scheduled l !! id) as [n|] eqn:En; [|apply (running_ok_ext s); [by apply F6|done..]].
    destruct (L8 id n En) as [_ Hc]. destruct Hok as (Hlive & Hst & _). pose proof (F5 id n En) as E.
    split; [|split; [by rewrite E|]].
    + apply (live_like s); [done| |done|done]. by rewrite E.
    + rewrite E. unfold computed_ok, num_tokens_with_spec in *. simpl. by rewrite Hcfg.
  - rewrite F4. rewrite <- (Permutation_rev (l_skipped l)). eapply Forall_ext_in; [|exact M7].
    intros id Hid. apply (waiting_ok_ext s); [by apply Hw|done|done].
  - rewrite F3, <- M2. done.
  - by rewrite F3.
  - intros id. rewrite Hreq, M4. intros Hid%(si_all _ Hs0). rewrite <- M5 in Hid.
    rewrite F3, F4, <- (Permutation_rev (l_skipped l)). done.
Qed.

Lemma wp_common_prefix_blocks (s : sched) :
  Forall (running_ok s) (running s) -> wp common_prefix_blocks (fun _ s' => s' = s) s.
Proof.
  intros Hr. unfold common_prefix_blocks. wp_steps. destruct (running s) as [|id ids]; [by wp_steps|].
  apply Forall_cons in Hr as [(_ & Hst & _) _]. unfold kv_get_num_common_prefix_blocks.
  rewrite Hst, bool_decide_true by done. done.
Qed.

Lemma wp_finish_schedule s0 s l :
  sched_inv s0 -> loop_inv s0 s l -> tables_ok (kv_cache_manager s) (running s) ->
  wp (finish_schedule l) (fun out s' => sched_inv s' /\ finished_step s l out s' /\
    kv_shape (kv_cache_manager s') = kv_shape (kv_cache_manager s) /\ cfg s' = cfg s /\ requests s' = requests s) s.
Proof.
  intros Hs0 Hl Htab. pose proof (li_mid _ _ _ Hl) as Hm. pose proof Hl as [_ L2 L3 L4 L5 L6 L7 L8 L9 L10 _].
  assert (Hsch : (length (scheduled l) <= length (running s))%nat).
  { apply submseteq_length. apply NoDup_submseteq; [done|exact L7]. }
  unfold scheduled in Hsch. rewrite !length_app in Hsch.
  assert (Hget : forall id, id ∈ scheduled l -> is_Some (l_num_scheduled l !! id) /\ is_Some (l_new_block_ids l !! id)).
  { intros id Hid. split; [by apply L4|by apply L5]. }
  unfold finish_schedule. wp_steps. simpl. set (s1 := set_waiting _ s).
  apply wp_assert; [rewrite (mi_cfg _ _ _ Hm); lia|].
  apply wp_bind, wp_assert; [lia|].
  apply wp_bind, wp_assert; [pose proof (mi_limit _ _ _ Hm); lia|].
  apply wp_bind, wp_assert; [unfold len; lia|].
  wp_step. eapply wp_mono; [apply wp_common_prefix_blocks, (mi_running _ _ _ Hm)|]. intros prefix s2 ->.
  wp_step. eapply wp_mono; [apply wp_new_data; intros id Hid; apply Hget; unfold scheduled; set_solver|].
  intros news s2 [-> _]. wp_step.
  eapply wp_mono; [apply wp_cached_data; intros id Hid; apply Hget; unfold scheduled; set_solver|].
  intros resumed s2 [d2 ->]. wp_step.
  eapply wp_mono; [apply wp_cached_data; intros id Hid; apply Hget; unfold scheduled; set_solver|].
  intros cached s2 [d3 ->]. wp_steps. unfold enc_op, get_freed_ids. wp_steps. unfold kv_op. wp_steps. simpl.
  eapply wp_mono; [apply wp_kv_take_events, (mi_kv _ _ _ Hm)|]. intros evs k' (Hk & Hshk & Htk). wp_steps.
  eapply wp_mono; [apply wp_advance_all|].
  - apply NoDup_fst_map_to_list.
  - intros id [[id' n] [-> Hin]]%list_elem_of_fmap. apply elem_of_map_to_list in Hin. simpl.
    pose proof (mi_running _ _ _ Hm) as Hr. rewrite Forall_forall in Hr.
    apply (Hr id'). apply L7, L4. by eexists.
  - intros [] s3 (h & -> & Hno & Hyes). wp_steps.
    set (out := mkSchedulerOutput _ _ _ _ _ _ _ _ _ _ _).
    match goal with |- _ /\ finished_step _ _ _ ?t /\ _ => set (s' := t) end.
    assert (Hfin : finished_step s l out s').
    { split; try done.
      - intros id n En. apply (Hyes id n). by apply elem_of_map_to_list.
      - intros id En. apply (Hno id). intros [[id' n] [-> Hin]]%list_elem_of_fmap.
        apply elem_of_map_to_list in Hin. simpl in En. congruence. }
    split; [|done]. apply (finished_step_inv s0 s l out s'); try done.
    { simpl. by rewrite (mi_connector _ _ _ Hm). }
    2:{ by apply Htk. }
    apply (enc_ok_ext s); [|done|done|apply (mi_enc _ _ _ Hm)]. intros id.
    destruct (l_num_scheduled l !! id) as [n|] eqn:En.
    + by rewrite (fs_advanced _ _ _ _ Hfin id n En).
    + by rewrite (fs_others _ _ _ _ Hfin id En).
Qed.

(** ** A whole step *)

(** Either the tail of the running requests was preempted, in order, to the
    front of the queue, and nobody was admitted; or some of a prefix of the
    queue was admitted in order, the rest of it staying in order. *)
Definition queues_after (s s' : sched) : Prop :=
  (exists victims, victims <> [] /\ running s = running s' ++ victims /\ waiting s' = victims ++ waiting s) \/
  (exists pre skipped admitted rest, running s' = running s ++ admitted /\ waiting s = pre ++ rest /\
     waiting s' = skipped ++ rest /\ pre ≡ₚ skipped ++ admitted /\ sublist admitted pre /\ sublist skipped pre).

(** What the step does to the requests: the scheduled ones have computed the
    tokens that were scheduled, the others that run have computed no more. *)
Record advanced (out : SchedulerOutput) (s s' : sched) : Prop := {
  av_cfg : cfg s' = cfg s;
  av_requests : requests s' = requests s;
  av_shape : kv_shape (kv_cache_manager s') = kv_shape (kv_cache_manager s);
  av_inputs : forall id, inputs_of (req_of s' id) = inputs_of (req_of s id);
  av_computed : forall id, id ∈ running s' ->
    num_computed_tokens (req_of s' id) = num_computed_tokens (req_of s id) + default 0 (num_scheduled_tokens out !! id)
}.

Lemma finished_advanced s0 s l out s' :
  loop_inv s0 s l -> finished_step s l out s' -> kv_shape (kv_cache_manager s') = kv_shape (kv_cache_manager s) ->
  cfg s' = cfg s -> requests s' = requests s -> advanced out s0 s'.
Proof.
  intros Hl [F1 F0 F2 F3 F4 F5 F6] Hsh Hcfg Hreq. pose proof (li_mid _ _ _ Hl) as Hm.
  split; [by rewrite Hcfg, (mi_cfg _ _ _ Hm)|by rewrite Hreq, (mi_requests _ _ _ Hm)|by rewrite Hsh, (mi_shape _ _ _ Hm)| |].
  - intros id. rewrite <- (mi_inputs _ _ _ Hm). destruct (l_num_scheduled l !! id) as [n|] eqn:E.
    + by rewrite (F5 id n E).
    + by rewrite (F6 id E).
  - intros id. rewrite F3, F1. intros Hid. rewrite <- (li_computed _ _ _ Hl id Hid).
    destruct (l_num_scheduled l !! id) as [n|] eqn:E; simpl.
    + by rewrite (F5 id n E).
    + rewrite (F6 id E). lia.
Qed.

(** What the results of a scheduled step may rely on until it has run. *)
Definition pending (out : SchedulerOutput) (s : sched) : Prop := forall id n,
  id ∈ running s -> num_scheduled_tokens out !! id = Some n ->
  1 <= n /\ drafts_ok (req_of s id) (dd_get (scheduled_spec_decode_tokens out) id) (num_computed_tokens (req_of s id)).

Lemma wp_schedule s :
  sched_inv s ->
  wp (schedule hash_fn NONE_HASH) (fun out s' => sched_inv s' /\ queues_after s s' /\
    total_num_scheduled_tokens out = sum_values (num_scheduled_tokens out) /\
    total_num_scheduled_tokens out <= max_num_scheduled_tokens (cfg s) /\
    (forall id n, num_scheduled_tokens out !! id = Some n -> 1 <= n /\ id ∈ running s') /\
    pending out s' /\ advanced out s s') s.
Proof.
  intros Hs. unfold schedule. wp_steps.
  eapply wp_mono; [apply (wp_running_loop s s _ _ Hs (run_inv_start _ Hs)); simpl; lia|].
  intros l1 s1 [Hr _]. wp_step. unfold record_loras. wp_steps.
  pose proof (li_mid _ _ _ (ri_loop _ _ _ Hr)) as Hm1.
  rewrite (mi_cfg _ _ _ Hm1), (si_loras _ Hs). wp_steps.
  eapply (wp_mono _ (fun l2 s2 => loop_inv s s2 l2 /\ tables_ok (kv_cache_manager s2) (running s2) /\
    (forall s', running s' = running s2 -> waiting s' = rev (l_skipped l2) ++ waiting s2 -> queues_after s s'))).
  - destruct (length (l_preempted_reqs l1) =? 0)%nat eqn:E.
    + assert (Hp : l_preempted_reqs l1 = []) by (destruct (l_preempted_reqs l1); [done|simpl in E; lia]).
      pose proof Hr as [R1 R2 R3 R4 _ R6 R7]. rewrite Hp in R3, R4. simpl in R3, R4. rewrite app_nil_r in R3.
      eapply wp_mono; [apply (wp_waiting_loop s _ s1 l1 Hs)|].
      * split; [done| |done]. exists [], []. rewrite R6, app_nil_r. by repeat split.
      * intros l2 s2 [Hl2 (pre & adm & O1 & O2 & O3 & O4 & O5) Ht2]. split; [done|]. split; [done|].
        intros s' Er Ew. right. exists pre, (rev (l_skipped l2)), adm, (waiting s2). by rewrite Er, Ew.
    + wp_steps. destruct Hr as [R1 R2 R3 R4 _ R6 R7]. split; [done|]. split; [done|]. intros s' Er Ew. left.
      exists (rev (l_preempted_reqs l1)). rewrite Er, Ew, R6. split_and!; [|done|done].
      intros Hrev. apply Nat.eqb_neq in E. apply E. rewrite <- length_rev. by rewrite Hrev.
  - intros l2 s2 (Hl2 & Ht2 & Hq). eapply wp_mono; [by apply (wp_finish_schedule s s2 l2 Hs)|].
    intros out s' (Hs' & Hfin & Hsh & Hcfg & Hreq).
    pose proof (finished_advanced s s2 l2 out s' Hl2 Hfin Hsh Hcfg Hreq) as Hadv.
    destruct Hfin as [F1 F0 F2 F3 F4 F5 F6]. rewrite F1, F2.
    split; [done|]. split; [by apply Hq|]. split; [done|]. split; [|split; [|split; [|exact Hadv]]].
    + pose proof (li_total _ _ _ Hl2). pose proof (li_budget _ _ _ Hl2). lia.
    + intros id n En. destruct (li_counts _ _ _ Hl2 id n En) as [Hn _]. split; [done|].
      rewrite F3. apply (li_sub _ _ _ Hl2), (li_nums _ _ _ Hl2). by eexists.
    + intros id n _. rewrite F1, F0. intros En. destruct (li_counts _ _ _ Hl2 id n En) as [Hn _]. split; [done|].
      rewrite (F5 id n En). apply (li_spec _ _ _ Hl2 id n En).
Qed.
End spec.
