(* ===== verification/SchedulerLife.v ===== *)
(** The life of requests in the scheduler (Scheduler.v): creation, arrival,
    steps, results, aborts.  Every operation keeps the invariant of
    SchedulerSpec.v, so no interleaving of them raises an exception or loses
    blocks. *)

From Stdlib Require Import ZArith Lia Sorted.
From stdpp Require Import base strings numbers gmap list relations.
From S2P Require Import Prelude.
From S2P Require Import KVBlock.
From S2P Require Import FreeQueue.
From S2P Require Import LinkedQueue.
From S2P Require Import HPUQueue.
From S2P Require Import Request.
From S2P Require Import BlockHashing.
From S2P Require Import KVSpec.
From S2P Require Import BlockPool.
From S2P Require Import SingleType.
From S2P Require Import Coordinator.
From S2P Require Import KVManager.
From S2P Require Import EncoderCache.
From S2P Require Import Scheduler.
From S2P Require Import SchedulerSpec.

Open Scope Z_scope.

Section life.
Context {Q C : Type} `{FreeBlockQueueSpec Q, KVConnector C}.
Abbreviation sched := (Scheduler Q C).
Context (hash_fn : Z * list Z * option (list ExtraKey) -> Z) (NONE_HASH : Z).

(** ** Creation *)

(** The configuration the invariant covers. *)
Definition covered (i : SchedulerInit) (config : KVCacheConfig) : Prop :=
  init_enable_prefix_caching i = false /\ init_max_loras i = None /\
  0 <= init_max_num_batched_tokens i /\ 0 <= init_max_num_seqs i /\
  Forall (fun g => is_full_attention (kv_cache_spec g) = true /\ 0 < block_size (kv_cache_spec g)) (kv_cache_groups config).

Lemma init_inv i config mt (s : sched) :
  covered i config -> init_scheduler i config mt None = Ok s ->
  sched_inv s /\ cfg s = init_config i (sched_max_num_encoder_input_tokens (cfg s)) /\
  running s = [] /\ waiting s = [] /\ requests s = ∅.
Proof.
  intros (Hoff & Hlora & Hbud & Hseq & Hg). unfold init_scheduler.
  destruct (guard_or _ _) as [[]|]; [|done]. cbn [mbind result_mbind].
  destruct (compute_encoder_budget _ _) as [[eb es]|]; [|done]. cbn [mbind result_mbind].
  destruct (init_kv_cache_manager _ _ _ _ _ _) as [k|] eqn:Ek; [|done]. intros [= <-]. simpl.
  assert (Hbs : 0 < kv_block_size k).
  { pose proof Ek as E. unfold init_kv_cache_manager in E. destruct (remove_dups _) as [|bs [|? ?]] eqn:Ebs; [done| |done].
    destruct (get_kv_cache_coordinator _ _ _ _); [|done]. injection E as <-. simpl.
    assert (bs ∈ remove_dups ((fun g => block_size (kv_cache_spec g)) <$> kv_cache_groups config)) as Hin
      by (rewrite Ebs; set_solver).
    apply elem_of_remove_dups, list_elem_of_fmap in Hin as (g & -> & Hgin).
    rewrite Forall_forall in Hg. by apply Hg. }
  destruct (init_kv_inv _ _ _ _ _ _ _ Ek Hbs) as (l & Hk & _ & Ht & Hc).
  split; [|done]. split; simpl; try done.
  - unfold init_kv_cache_manager in Ek.
    destruct (remove_dups _) as [|bs [|? ?]]; [done| |done].
    destruct (get_kv_cache_coordinator _ _ _ _) as [c|] eqn:Ec; [|done]. injection Ek as <-.
    split; simpl; [by exists l|done| |done|by intros ->].
    destruct (new_coordinator _ _ _ _ _ Ec) as (_ & Em & _). unfold full_only. simpl. rewrite Em.
    apply new_managers_Forall. intros j g Hgin. simpl. rewrite Forall_forall in Hg. by apply Hg.
  - constructor.
  - intros id _. apply Ht.
Qed.

(** ** Arrival *)

Record addable (s : sched) (r : Request) : Prop := {
  ad_fresh : request_id r ∉ requests s;
  ad_status : status r = WAITING \/ status r = WAITING_FOR_FSM;
  ad_computed : num_computed_tokens r = 0;
  ad_tokens : 0 < num_tokens r <= sched_max_model_len (cfg s)
}.

Lemma queued_live (s : sched) id : sched_inv s -> id ∈ running s ++ waiting s -> live s id.
Proof.
  intros Hs [Hid|Hid]%elem_of_app.
  - pose proof (si_running _ Hs) as Hr. rewrite Forall_forall in Hr. apply (Hr id Hid).
  - pose proof (si_waiting _ Hs) as Hr. rewrite Forall_forall in Hr. apply (Hr id Hid).
Qed.

(** Changing the objects and the set of live requests away from the queues. *)
Lemma running_ok_keep (s s' : sched) id :
  running_ok s id -> req_of s' id = req_of s id -> id ∈ requests s' -> cfg s' = cfg s -> running_ok s' id.
Proof.
  unfold running_ok, live, computed_ok. intros ((A1 & A2 & A3) & A4 & A5) -> Hr ->. by repeat split; try apply A3; try apply A5.
Qed.

Lemma waiting_ok_keep (s s' : sched) id :
  waiting_ok s id -> req_of s' id = req_of s id -> id ∈ requests s' -> cfg s' = cfg s -> waiting_ok s' id.
Proof.
  unfold waiting_ok, live. intros ((A1 & A2 & A3) & A4 & A5) -> Hr ->. by repeat split; try apply A3.
Qed.

Lemma wp_add_request (s : sched) r :
  sched_inv s -> addable s r ->
  wp (add_request r) (fun _ s' => sched_inv s' /\ running s' = running s /\
    waiting s' = waiting s ++ [request_id r] /\ requests s' = requests s ∪ {[request_id r]} /\
    cfg s' = cfg s /\ kv_cache_manager s' = kv_cache_manager s /\ (forall id, id <> request_id r -> req_of s' id = req_of s id)) s.
Proof.
  intros Hs [Hfresh Hst Hnc Htok]. set (id := request_id r).
  assert (Hnin : forall x, x ∈ running s ++ waiting s -> x <> id).
  { intros x Hx ->. apply Hfresh. apply (queued_live s id Hs Hx). }
  assert (Hend : forall s' r', like r r' -> status r' = status r -> num_computed_tokens r' = 0 ->
    req_of s' id = r' -> (forall x, x <> id -> req_of s' x = req_of s x) -> running s' = running s ->
    waiting s' = waiting s ++ [id] -> requests s' = requests s ∪ {[id]} -> cfg s' = cfg s ->
    connector s' = connector s -> encoder_cache_manager s' = encoder_cache_manager s ->
    kv_cache_manager s' = kv_cache_manager s -> sched_inv s').
  { intros s' r' (L1 & L2 & L3 & L4) Est Enc Er Eo E1 E2 E3 E4 E5 E6 E7.
    destruct Hs as [S1 S2 S3 S4 S5 S6 S7 S8 S9 S10 S11].
    split; rewrite ?E1, ?E2, ?E3, ?E4, ?E5, ?E7; try done.
    - rewrite app_assoc. apply NoDup_app. split; [done|]. split; [|apply NoDup_singleton].
      intros x Hx ->%list_elem_of_singleton. by apply (Hnin id).
    - eapply Forall_ext_in; [|exact S6]. intros x Hx Hok. apply (running_ok_keep s s' x Hok); [|rewrite E3|done].
      + apply Eo, Hnin. set_solver.
      + destruct Hok as [(_ & ? & _) _]. set_solver.
    - apply Forall_app. split; [|constructor; [|constructor]].
      + eapply Forall_ext_in; [|exact S7]. intros x Hx Hok. apply (waiting_ok_keep s s' x Hok); [|rewrite E3|done].
        * apply Eo, Hnin. set_solver.
        * destruct Hok as [(_ & ? & _) _]. set_solver.
      + unfold waiting_ok, live, num_tokens. rewrite Er, E3, E4, L1, L2, Est. split_and!; [done|set_solver|apply Htok|apply Htok|tauto|done].
    - intros x ids. rewrite E6, E3. intros Hx. destruct (S9 x ids Hx) as (Hr & Hne & Hi).
      split; [set_solver|]. split; [done|]. rewrite Eo; [done|]. intros ->. done.
    - intros x [Hx|Hx%elem_of_singleton]%elem_of_union; [apply S11 in Hx; set_solver|subst; set_solver]. }
  unfold add_request. wp_steps. simpl. fold id.
  set (s1 := set_heap _ _).
  assert (Hr1 : req_of s1 id = r) by (unfold s1, req_of; simpl; by rewrite lookup_total_insert_eq).
  assert (Ho1 : forall x, x <> id -> req_of s1 x = req_of s x)
    by (intros x Hx; unfold s1, req_of; simpl; by rewrite lookup_total_insert_ne).
  unfold when. destruct (sched_log_stats (cfg s)); [apply wp_upd_req; intros h Hh Hoth|wp_steps].
  - rewrite Hr1 in Hh.
    assert (Hoth' : forall x, x <> id -> req_of (set_heap h s1) x = req_of s x)
      by (intros x Hx; unfold req_of at 1; simpl; rewrite Hoth by done; by apply Ho1).
    split; [|done]. apply (Hend _ (record_event QUEUED r)); done.
  - split; [|done]. apply (Hend _ r); done.
Qed.

(** ** Freeing a request *)

(** Giving back one cached input. *)
Lemma wp_free_input r i e :
  (i < length (mm_positions r))%nat ->
  wp (free_encoder_input r i) (fun _ e' =>
    match cached e !! request_id r with
    | None => cached e' = cached e
    | Some ids => cached e' = if decide (ids ∖ {[i]} = ∅) then delete (request_id r) (cached e)
                              else <[request_id r := ids ∖ {[i]}]> (cached e)
    end) e.
Proof.
  intros Hi. unfold free_encoder_input. wp_step. wp_step.
  destruct (cached e !! request_id r) as [ids|] eqn:E; [|by wp_steps]. wp_steps. simpl.
  rewrite get_num_encoder_tokens_ok by done. done.
Qed.

Lemma wp_free_inputs r e :
  (forall ids, cached e !! request_id r = Some ids ->
     ids <> ∅ /\ forall i, i ∈ ids -> (i < length (mm_positions r))%nat) ->
  wp (enc_free r) (fun _ e' => cached e' = delete (request_id r) (cached e)) e.
Proof.
  intros He. unfold enc_free. wp_steps. unfold get_cached_input_ids.
  destruct (cached e !! request_id r) as [ids|] eqn:E; simpl.
  2:{ rewrite elements_empty. simpl. wp_steps. by rewrite delete_id. }
  destruct (He ids eq_refl) as [Hne Hi].
  eapply wp_mono; [apply (wp_for_each _ (fun l e' => NoDup l /\ (forall i, i ∈ l -> i ∈ ids) /\
    cached e' = if decide (l = []) then delete (request_id r) (cached e)
                else <[request_id r := list_to_set l]> (cached e)))|].
  - split; [apply NoDup_elements|]. split; [by intros i ?%elem_of_elements|].
    rewrite list_to_set_elements_L, insert_id by done. rewrite decide_False; [done|].
    intros Hel. by apply elements_empty_inv, leibniz_equiv in Hel.
  - intros i l e' ([Hil Hnd]%NoDup_cons & Hsub & Hc). rewrite decide_False in Hc by done.
    eapply wp_mono; [apply wp_free_input, Hi, Hsub; by left|]. intros [] e2. rewrite Hc, lookup_insert_eq.
    assert (Hd : list_to_set (i :: l) ∖ {[i]} = (list_to_set l : gset nat)).
    { apply leibniz_equiv. intros x. rewrite elem_of_difference, list_to_set_cons, elem_of_union, elem_of_singleton.
      rewrite elem_of_list_to_set. split; [intros [[?|?] ?]; done|]. intros Hx. split; [by right|by intros ->]. }
    rewrite Hd, delete_insert_eq, insert_insert_eq. intros Hc2. split; [done|]. split; [intros x Hx; apply Hsub; by right|].
    rewrite Hc2. destruct (decide (l = [])) as [->|Hl]; [by rewrite decide_True|]. rewrite decide_False; [done|].
    intros Hempty. destruct l as [|x l]; [done|]. rewrite list_to_set_cons in Hempty. set_solver.
  - intros [] e' (_ & _ & Hc). rewrite decide_True in Hc by done. done.
Qed.

Lemma enc_ok_delete (s s' : sched) id :
  enc_ok s -> cached (encoder_cache_manager s') = delete id (cached (encoder_cache_manager s)) ->
  requests s' = requests s ∖ {[id]} -> heap s' = heap s -> enc_ok s'.
Proof.
  intros He Hc Hr Hh x ids. rewrite Hc, Hr. intros [Hne Hx]%lookup_delete_Some.
  destruct (He x ids Hx) as (H1' & H2' & H3'). split; [set_solver|]. split; [done|].
  unfold req_of in *. by rewrite Hh.
Qed.

(** What freeing a request leaves alone. *)
Record freed_request (s s' : sched) (id : string) : Prop := {
  fr_kv : kv_ok (sched_log_stats (cfg s')) (kv_cache_manager s');
  fr_tables : forall ids, tables_ok (kv_cache_manager s) (id :: ids) -> tables_ok (kv_cache_manager s') ids;
  fr_enc : enc_ok s';
  fr_requests : requests s' = requests s ∖ {[id]};
  fr_heap : heap s' = heap s;
  fr_running : running s' = running s;
  fr_waiting : waiting s' = waiting s;
  fr_cfg : cfg s' = cfg s;
  fr_connector : connector s' = None;
  fr_shape : kv_shape (kv_cache_manager s') = kv_shape (kv_cache_manager s)
}.

Lemma wp_free_request (s : sched) id :
  is_finished (req_of s id) = true -> request_id (req_of s id) = id -> id ∈ requests s ->
  connector s = None -> kv_ok (sched_log_stats (cfg s)) (kv_cache_manager s) -> enc_ok s ->
  wp (_free_request id) (fun params s' => params = None /\ freed_request s s' id /\ id ∈ finished_req_ids s') s.
Proof.
  intros Hfin Hid Hreq Hcon Hkv Henc. unfold _free_request, get_req. wp_steps.
  apply wp_assert; [done|]. wp_step. unfold _connector_finished. wp_steps. rewrite Hcon. wp_steps.
  unfold enc_op. wp_steps.
  eapply wp_mono; [apply wp_free_inputs; intros ids Hids; rewrite Hid in Hids; by destruct (Henc id ids Hids) as (_ & ? & ?)|].
  intros [] e Hc. rewrite Hid in Hc. wp_steps. set (s1 := note_finished _ _ _).
  assert (Hs1 : cfg s1 = cfg s /\ heap s1 = heap s /\ requests s1 = requests s /\ waiting s1 = waiting s /\
    running s1 = running s /\ encoder_cache_manager s1 = e /\ kv_cache_manager s1 = kv_cache_manager s /\
    connector s1 = None /\ _cached_reqs_data s1 !! id = None /\ id ∈ finished_req_ids s1).
  { unfold s1, note_finished. simpl. destruct (finished_req_ids_dict s); simpl; rewrite lookup_delete_eq; split_and!; set_solver. }
  clearbody s1. destruct Hs1 as (E1 & E2 & E3 & E4 & E5 & E6 & E7 & E8 & E9 & E10).
  assert (Er : req_of s1 id = req_of s id) by (unfold req_of; by rewrite E2).
  unfold _free_blocks. wp_steps. apply wp_assert; [by rewrite Er|].
  apply wp_bind, wp_assert; [by apply bool_decide_eq_true|]. wp_step. unfold kv_op. wp_steps. rewrite E7, Er.
  eapply wp_mono; [by apply wp_free|]. intros [] k' (Hk' & Hfr%kv_frame_shape & Ht'). rewrite Hid in Ht'. wp_step. wp_steps.
  unfold free_block_hashes. wp_steps. simpl. rewrite decide_True by (by rewrite E3). wp_steps.
  split; [done|]. split; [|done]. split; simpl; rewrite ?E3; try done.
  - rewrite E1. destruct Hk' as [[l [K1 K2 K3 K4 K5 K6 K7 K8]] Hoff Hf Hlog Hst]. split; try done. exists l. by split.
  - apply (enc_ok_delete s _ id Henc); simpl; [by rewrite E6|by rewrite ?E3|by rewrite ?E2].
Qed.

(** ** Aborts *)

Lemma remove_first_spec id (l : list string) :
  id ∈ l -> exists l1 l2, l = l1 ++ id :: l2 /\ remove_first id l = Ok (l1 ++ l2).
Proof.
  intros Hid. unfold remove_first.
  destruct (list_find (fun x => x = id) l) as [[i x]|] eqn:E.
  - apply list_find_Some in E as (Hx & -> & _). exists (take i l), (drop (S i) l).
    split; [by rewrite take_drop_middle|done].
  - apply list_find_None in E. rewrite Forall_forall in E. by destruct (E id Hid).
Qed.

(** The state after [id] has left the queues and its object was freed. *)
Lemma removed_inv (s s' : sched) id r w :
  sched_inv s -> id ∈ requests s -> sublist r (running s) -> sublist w (waiting s) ->
  running s ++ waiting s ≡ₚ id :: r ++ w ->
  running s' = r -> waiting s' = w -> cfg s' = cfg s -> connector s' = None -> requests s' = requests s ∖ {[id]} ->
  (forall x, x <> id -> req_of s' x = req_of s x) -> enc_ok s' -> kv_ok (sched_log_stats (cfg s')) (kv_cache_manager s') ->
  tables_ok (kv_cache_manager s') r -> sched_inv s'.
Proof.
  intros [S1 S2 S3 S4 S5 S6 S7 S8 S9 S10 S11] Hreq Hr Hw Hp E1 E2 E3 E4 E5 Eo Henc Hkv Ht.
  rewrite Hp in S5. apply NoDup_cons in S5 as [Hnin Hnd].
  assert (Hne : forall x, x ∈ r ++ w -> x <> id) by (by intros x Hx ->).
  rewrite E3 in Hkv. split; rewrite ?E1, ?E2, ?E3; try done.
  - apply Forall_forall. intros x Hx. assert (Hx' : x ∈ running s) by (by eapply sublist_subseteq).
    rewrite Forall_forall in S6. specialize (S6 x Hx'). apply (running_ok_keep s s' x S6); [| |done].
    + apply Eo, Hne. set_solver.
    + rewrite E5. destruct S6 as [(_ & ? & _) _]. assert (x <> id) by (apply Hne; set_solver). set_solver.
  - apply Forall_forall. intros x Hx. assert (Hx' : x ∈ waiting s) by (by eapply sublist_subseteq).
    rewrite Forall_forall in S7. specialize (S7 x Hx'). apply (waiting_ok_keep s s' x S7); [| |done].
    + apply Eo, Hne. set_solver.
    + rewrite E5. destruct S7 as [(_ & ? & _) _]. assert (x <> id) by (apply Hne; set_solver). set_solver.
  - apply sublist_length in Hr. unfold len in *. lia.
  - intros x. rewrite E5. intros [Hx Hxi]%elem_of_difference. apply S11 in Hx. rewrite Hp in Hx. set_solver.
Qed.

(** The requests still running have not changed. *)
Definition quiet (s s' : sched) : Prop :=
  forall x, x ∈ running s' -> x ∈ running s /\ req_of s' x = req_of s x.

Lemma quiet_trans s1 s2 s3 : quiet s1 s2 -> quiet s2 s3 -> quiet s1 s3.
Proof. intros H12 H23 x [Hx2 E2]%H23. destruct (H12 x Hx2) as [Hx1 E1]. split; [done|congruence]. Qed.

Lemma pending_quiet out (s s' : sched) : quiet s s' -> pending out s -> pending out s'.
Proof. intros Hq Hp id n [Hid E]%Hq Hn. rewrite E. by apply Hp. Qed.

(** A request that has left its queue is given a finished status and freed. *)
Lemma wp_finish_removed (s : sched) st id r w :
  sched_inv s -> status_is_finished st = true -> id ∈ requests s ->
  sublist r (running s) -> sublist w (waiting s) -> running s ++ waiting s ≡ₚ id :: r ++ w ->
  forall s1, running s1 = r -> waiting s1 = w -> cfg s1 = cfg s -> connector s1 = connector s ->
  requests s1 = requests s -> heap s1 = heap s -> encoder_cache_manager s1 = encoder_cache_manager s ->
  kv_cache_manager s1 = kv_cache_manager s ->
  wp (upd_req id (with_status st);; _free_request id;; mret tt) (fun _ s' =>
    sched_inv s' /\ quiet s s' /\ requests s' = requests s ∖ {[id]} /\ id ∈ finished_req_ids s') s1.
Proof.
  intros Hs Hst Hreq Hr Hw Hp s1 E1 E2 E3 E4 E5 E6 E7 E8.
  assert (Hlive : live s id).
  { apply (queued_live s id Hs). by apply (si_all _ Hs). }
  destruct Hlive as (Hid & _ & _).
  assert (Hq1 : forall x, req_of s1 x = req_of s x) by (intros x; unfold req_of; by rewrite E6).
  wp_step. apply wp_upd_req. intros h Hh Hoth. rewrite Hq1 in Hh. wp_step.
  eapply wp_mono.
  { apply wp_free_request; change (req_of (set_heap h s1) id) with (h !!! id); rewrite ?Hh; simpl; rewrite ?E4, ?E5, ?E8.
    - exact Hst.
    - done.
    - done.
    - apply (si_connector _ Hs).
    - rewrite E3; apply (si_kv _ Hs).
    - apply (enc_ok_upd s1 id h).
      + done.
      + by rewrite Hh, Hq1.
      + eapply (enc_ok_ext s); [|done|by rewrite E7|apply (si_enc _ Hs)]. intros x. by rewrite Hq1. }
  intros params s2 (-> & [F1 F2 F3 F4 F5 F6 F7 F8 F9 _] & Hfin). wp_steps.
  simpl in *. rewrite E1 in F6. rewrite E2 in F7. rewrite E3 in F8. rewrite E5 in F4. rewrite E8 in F2.
  assert (Hq : forall x, x <> id -> req_of s2 x = req_of s x).
  { intros x Hx. unfold req_of at 1. rewrite F5, Hoth by done. apply Hq1. }
  split; [|split; [|done]].
  - apply (removed_inv s s2 id r w); try done. apply F2. eapply tables_ok_mono; [|apply (si_tables _ Hs)].
    intros x Hx. assert (x ∈ id :: r ++ w) as Hx2 by (rewrite <- Hp; set_solver).
    apply elem_of_cons in Hx2 as [->|[?|Hxw]%elem_of_app]; [by left|by right|].
    exfalso. eapply sublist_subseteq in Hxw; [|exact Hw]. pose proof (si_nodup _ Hs) as Hnd.
    apply NoDup_app in Hnd as (_ & Hd & _). by apply (Hd x).
  - intros x. rewrite F6. intros Hx. split; [by eapply sublist_subseteq|]. apply Hq. intros ->.
    pose proof (si_nodup _ Hs) as Hnd. rewrite Hp in Hnd. apply NoDup_cons in Hnd as [Hn _]. apply Hn. set_solver.
Qed.

Lemma wp_finish_one (s : sched) st id :
  sched_inv s -> status_is_finished st = true ->
  wp (finish_one st id) (fun _ s' => sched_inv s' /\ quiet s s' /\ requests s' = requests s ∖ {[id]} /\
    (id ∈ requests s -> id ∈ finished_req_ids s')) s.
Proof.
  intros Hs Hst. unfold finish_one. wp_steps. destruct (decide (id ∈ requests s)) as [Hin|Hout].
  2:{ wp_steps. split; [done|]. split; [by intros x|]. split; [set_solver|done]. }
  pose proof (si_all _ Hs id Hin) as Hq. rewrite elem_of_app in Hq.
  assert (Hend : forall r w (s1 : sched), sublist r (running s) -> sublist w (waiting s) ->
    running s ++ waiting s ≡ₚ id :: r ++ w -> running s1 = r -> waiting s1 = w -> cfg s1 = cfg s ->
    connector s1 = connector s -> requests s1 = requests s -> heap s1 = heap s ->
    encoder_cache_manager s1 = encoder_cache_manager s -> kv_cache_manager s1 = kv_cache_manager s ->
    wp (upd_req id (with_status st);; _free_request id;; mret tt) (fun _ s' => sched_inv s' /\ quiet s s' /\
      requests s' = requests s ∖ {[id]} /\ (id ∈ requests s -> id ∈ finished_req_ids s')) s1).
  { intros r w s1 Hr Hw Hp E1 E2 E3 E4 E5 E6 E7 E8.
    eapply wp_mono; [by apply (wp_finish_removed s st id r w Hs Hst Hin Hr Hw Hp)|].
    intros [] s' (?&?&?&?). by split_and!. }
  wp_step. pose proof (si_running _ Hs) as Hrun. pose proof (si_waiting _ Hs) as Hwait.
  rewrite Forall_forall in Hrun, Hwait. destruct (decide (status (req_of s id) = RUNNING)) as [Er|Er].
  - assert (Hir : id ∈ running s).
    { destruct Hq as [?|Hw]; [done|]. destruct (Hwait id Hw) as (_ & Hw' & _). rewrite Er in Hw'. naive_solver. }
    destruct (remove_first_spec id (running s) Hir) as (l1 & l2 & E & ->). wp_steps. unfold lift_result. unfold wp at 1. wp_steps.
    apply (Hend (l1 ++ l2) (waiting s)); try done; rewrite E; [|solve_Permutation].
    apply sublist_app; [done|]. by apply sublist_cons.
  - assert (Hiw : id ∈ waiting s).
    { destruct Hq as [Hr|?]; [|done]. destruct (Hrun id Hr) as (_ & Hr' & _). congruence. }
    destruct (remove_first_spec id (waiting s) Hiw) as (l1 & l2 & E & ->). wp_steps. unfold lift_result. unfold wp at 1. wp_steps.
    apply (Hend (running s) (l1 ++ l2)); try done; rewrite E; [|solve_Permutation].
    apply sublist_app; [done|]. by apply sublist_cons.
Qed.

Lemma wp_finish_requests (s : sched) ids st :
  sched_inv s -> status_is_finished st = true ->
  wp (finish_requests ids st) (fun _ s' => sched_inv s' /\ quiet s s' /\
    requests s' = requests s ∖ list_to_set ids) s.
Proof.
  intros Hs Hst. unfold finish_requests. apply wp_bind, wp_assert; [done|].
  revert s Hs. induction ids as [|id ids IH]; intros s Hs; simpl.
  { wp_steps. split; [done|]. split; [by intros x|]. set_solver. }
  wp_step. eapply wp_mono; [by apply wp_finish_one|]. intros [] s1 (Hs1 & Hq1 & Hr1 & _).
  eapply wp_mono; [by apply IH|]. intros [] s2 (Hs2 & Hq2 & Hr2). split; [done|].
  split; [by eapply quiet_trans|]. rewrite Hr2, Hr1. set_solver.
Qed.

(** ** Results *)

Lemma wp_check_stop mml r :
  _output_token_ids r <> [] -> is_finished r = false ->
  wp (check_stop mml) (fun b r' => is_finished r' = b /\ request_id r' = request_id r /\
    mm_positions r' = mm_positions r /\ (b = false -> r' = r /\ num_tokens r < mml) /\ check_stop mml r = Ret b r') r.
Proof.
  intros Ho Hf. unfold wp. destruct (check_stop mml r) as [b r'|e r'] eqn:E.
  - destruct (check_stop_spec mml r b r' Hf E) as (Hb & _ & _ & _ & Hid). split; [done|]. split; [done|]. split.
    + unfold check_stop in E. destruct (_ || _); [by simplify_eq|]. destruct (last _); [|done].
      destruct (_ && _); [by simplify_eq|]. case_bool_decide; by simplify_eq.
    + split; [|done]. intros ->. by destruct (check_stop_continue mml r r' E) as (-> & ? & _).
  - unfold check_stop in E. destruct (_ || _); [done|].
    destruct (last (_output_token_ids r)) eqn:El; [|by apply last_None in El].
    destruct (_ && _); [done|]. case_bool_decide; done.
Qed.

(** A step that only changes the object of [id], and frees it if [gone]. *)
Record upd_frame (id : string) (gone : bool) (s s' : sched) : Prop := {
  uf_running : running s' = running s;
  uf_waiting : waiting s' = waiting s;
  uf_cfg : cfg s' = cfg s;
  uf_connector : connector s' = None;
  uf_kv : kv_ok (sched_log_stats (cfg s')) (kv_cache_manager s');
  uf_tables : forall ids, tables_ok (kv_cache_manager s) (if gone then id :: ids else ids) ->
    tables_ok (kv_cache_manager s') ids;
  uf_enc : enc_ok s';
  uf_requests : requests s' = if gone then requests s ∖ {[id]} else requests s;
  uf_others : forall x, x <> id -> req_of s' x = req_of s x;
  uf_shape : kv_shape (kv_cache_manager s') = kv_shape (kv_cache_manager s)
}.

Lemma upd_frame_trans id g1 g2 s1 s2 s3 :
  upd_frame id g1 s1 s2 -> upd_frame id g2 s2 s3 -> upd_frame id (g1 || g2) s1 s3.
Proof.
  intros [A1 A2 A3 A4 A5 A6 A7 A8 A9 A10] [B1 B2 B3 B4 B5 B6 B7 B8 B9 B10]. split; try congruence; try done.
  - intros ids Ht. apply B6, A6. destruct g1, g2; simpl in *; try done.
    eapply tables_ok_mono; [|exact Ht]. intros x Hx. set_solver.
  - rewrite B8, A8. destruct g1, g2; simpl; set_solver.
  - intros x Hx. rewrite B9 by done. by apply A9.
Qed.

(** An update of the object that keeps the placeholders. *)
Lemma upd_frame_heap (s : sched) id h :
  connector s = None -> kv_ok (sched_log_stats (cfg s)) (kv_cache_manager s) -> enc_ok s ->
  (forall x, x <> id -> h !!! x = req_of s x) -> mm_positions (h !!! id) = mm_positions (req_of s id) ->
  upd_frame id false s (set_heap h s).
Proof. intros Hc Hk He Hoth Hmm. split; try done. by apply (enc_ok_upd s id h). Qed.

Lemma upd_frame_freed (s s' : sched) id : heap s' = heap s -> freed_request s s' id -> upd_frame id true s s'.
Proof.
  intros Hh [F1 F2 F3 F4 F5 F6 F7 F8 F9 F10]. split; try done. intros x _. unfold req_of. by rewrite Hh.
Qed.

(** Appending the generated tokens until one of them stops the request. *)
Definition appended (s s' : sched) (id : string) (todo : list Z) : Prop :=
  let r := req_of s id in let r' := req_of s' id in
  request_id r' = request_id r /\ status r' = status r /\ num_computed_tokens r' = num_computed_tokens r /\
  num_tokens r' = num_tokens r + len todo /\ (todo <> [] -> num_tokens r' < sched_max_model_len (cfg s)) /\
  spec_token_ids r' = spec_token_ids r /\ mm_positions r' = mm_positions r /\
  _output_token_ids r' = _output_token_ids r ++ todo /\ _all_token_ids r' = _all_token_ids r ++ todo.

(** Whether one of the tokens, appended after the ones before it, stops the
    request. *)
Fixpoint stops (mml : Z) (r : Request) (todo : list Z) : bool :=
  match todo with
  | [] => false
  | t :: todo' =>
      let r := append_output_token_ids [t] r in
      match check_stop mml r with Ret b _ => b || stops mml r todo' | Raise _ _ => false end
  end.

Lemma wp_append_loop (s : sched) id todo kept :
  connector s = None -> kv_ok (sched_log_stats (cfg s)) (kv_cache_manager s) -> enc_ok s -> request_id (req_of s id) = id ->
  id ∈ requests s -> is_finished (req_of s id) = false ->
  wp (append_loop id todo kept) (fun res s' => let '(stopped, tokens, params) := res in
    upd_frame id stopped s s' /\ params = None /\ stopped = stops (sched_max_model_len (cfg s)) (req_of s id) todo /\
    if stopped : bool then tokens <> [] else tokens = kept ++ todo /\ appended s s' id todo) s.
Proof.
  revert s kept. induction todo as [|t todo IH]; intros s kept Hc Hk He Hid Hreq Hf; cbn [append_loop].
  { wp_steps. split; [by split|]. split; [done|]. split; [done|]. rewrite app_nil_r. split; [done|].
    unfold appended. simpl. change (len []) with 0. rewrite !app_nil_r. split_and!; try done. lia. }
  wp_step. apply wp_upd_req. intros h Hh Hoth. set (s1 := set_heap h s).
  assert (Hr1 : req_of s1 id = append_output_token_ids [t] (req_of s id)) by exact Hh.
  assert (Hf1 : upd_frame id false s s1) by (apply upd_frame_heap; try done; by rewrite Hh).
  wp_steps. unfold req_op. wp_steps. rewrite Hr1.
  eapply wp_mono; [apply wp_check_stop; [simpl; by destruct (_output_token_ids _)|done]|].
  intros b r' (Hb & Hid' & Hmm' & Hcont & Hcs). simpl in Hid', Hmm'. change (cfg s1) with (cfg s) in Hcs. set (s2 := set_heap _ s1).
  assert (Hr2 : req_of s2 id = r') by (unfold s2, req_of; simpl; by rewrite lookup_total_insert_eq).
  assert (Hf2 : upd_frame id false s s2).
  { apply (upd_frame_trans id false false s s1 s2 Hf1). apply upd_frame_heap; try apply Hf1.
    - intros x Hx. by rewrite lookup_total_insert_ne.
    - rewrite lookup_total_insert_eq, Hr1. done. }
  destruct b.
  - wp_step. eapply wp_mono; [apply wp_free_request; rewrite ?Hr2; try apply Hf2; [done|congruence|done]|].
    intros params s3 (-> & Hfr & _). wp_steps.
    split; [|split; [done|split; [cbn [stops]; by rewrite Hcs|by destruct kept]]].
    apply (upd_frame_trans id false true s s2 s3 Hf2). apply upd_frame_freed; [apply Hfr|done].
  - destruct (Hcont eq_refl) as [-> Hlt].
    eapply wp_mono; [apply IH; rewrite ?Hr2; try apply Hf2; [congruence|done|done]|].
    intros [[stopped tokens] params] s3 (Hf3 & -> & Hstop & Hres).
    split; [apply (upd_frame_trans id false stopped s s2 s3 Hf2 Hf3)|]. split; [done|].
    split; [cbn [stops]; rewrite Hcs; by rewrite Hstop, Hr2, (uf_cfg _ _ _ _ Hf2)|].
    destruct stopped; [done|]. destruct Hres as [-> (A1 & A2 & A3 & A4 & A5 & A6 & A7 & A8 & A9)]. rewrite <- app_assoc. split; [done|].
    rewrite Hr2 in *. unfold appended. assert (Hn : num_tokens (append_output_token_ids [t] (req_of s id)) =
      num_tokens (req_of s id) + 1) by (unfold num_tokens; simpl; by rewrite len_app).
    split_and!; [done|done|done|rewrite A4, Hn, len_cons; lia| |done|done|rewrite A8; simpl; by rewrite <- app_assoc|rewrite A9; simpl; by rewrite <- app_assoc].
    intros _.
    destruct todo as [|t' todo]; [|by apply A5]. rewrite A4. change (len []) with 0.
    change (cfg s1) with (cfg s) in Hlt. lia.
Qed.

Lemma wp_free_processed_inputs (s : sched) id :
  enc_ok s -> request_id (req_of s id) = id ->
  wp (free_processed_inputs id) (fun _ s' => exists e, s' = set_encoder e s /\ enc_ok s') s.
Proof.
  intros He Hid. unfold free_processed_inputs. wp_steps. set (r := req_of s id) in *.
  eapply wp_mono; [apply (wp_for_each _ (fun l s' => (forall i, i ∈ l -> (i < length (mm_positions r))%nat) /\
    exists e, s' = set_encoder e s /\ enc_ok s'))|by intros [] s' [_ ?]].
  - split.
    + intros i. rewrite elem_of_elements. unfold get_cached_input_ids. rewrite Hid.
      destruct (cached _ !! id) as [ids|] eqn:E; simpl; [|by intros ?%not_elem_of_empty].
      apply (He id ids E).
    + exists (encoder_cache_manager s). destruct s. by split.
  - intros i l s' (Hl & e & -> & Hok). unfold get_req. wp_steps.
    change (req_of (set_encoder e s) id) with r.
    assert (Hi : (i < length (mm_positions r))%nat) by (apply Hl; by left).
    assert (Hl' : forall j, j ∈ l -> (j < length (mm_positions r))%nat) by (intros j Hj; apply Hl; by right).
    destruct (lookup_lt_is_Some_2 _ _ Hi) as [p ->].
    destruct (_ <=? _); [|wp_steps; split; [done|by exists e]].
    unfold enc_op. wp_steps. eapply wp_mono; [by apply wp_free_input|]. intros [] e' Hc.
    split; [done|]. exists e'. split; [done|]. rewrite Hid in Hc. simpl in Hc.
    intros x ids. simpl. destruct (cached e !! id) as [ids0|] eqn:E; rewrite Hc; [|apply Hok].
    case_decide as Hd; [intros [_ Hx]%lookup_delete_Some; by apply (Hok x ids)|].
    intros [[<- <-]|[_ Hx]]%lookup_insert_Some; [|by apply (Hok x ids)].
    destruct (Hok id ids0 E) as (H1' & H2' & H3'). split; [done|]. split; [done|].
    intros j Hj. apply H3'. set_solver.
Qed.

Context (should_advance : Request -> bool) (validate_tokens : Request -> list Z -> list Z).

(** What the model runner has to return for the running requests that were
    scheduled: an index, tokens at that index, at least one if draft tokens
    were to be verified but not more than can be accepted, and no
    log-probabilities without a token. *)
Definition result_ok (c : SchedConfig) (so : SchedulerOutput) (o : ModelRunnerOutput) (id : string) : Prop :=
  forall n, num_scheduled_tokens so !! id = Some n ->
  exists index generated, req_id_to_index o !! id = Some index /\
    sampled_token_ids o !! index = Some generated /\
    (dd_get (scheduled_spec_decode_tokens so) id <> [] ->
       generated <> [] /\ len generated - 1 <= num_spec_tokens c) /\
    (generated = [] -> id ∉ has_prompt_logprobs o) /\
    (forall spec, mro_spec_token_ids o = Some spec -> (index < length spec)%nat).

Definition drafts_pending (so : SchedulerOutput) (s : sched) (id : string) : Prop := forall n,
  num_scheduled_tokens so !! id = Some n ->
  1 <= n /\ drafts_ok (req_of s id) (dd_get (scheduled_spec_decode_tokens so) id) (num_computed_tokens (req_of s id)).

Lemma wp_upd_frame (s : sched) id f (P : unit -> sched -> Prop) :
  connector s = None -> kv_ok (sched_log_stats (cfg s)) (kv_cache_manager s) -> enc_ok s ->
  mm_positions (f (req_of s id)) = mm_positions (req_of s id) ->
  (forall s', upd_frame id false s s' -> req_of s' id = f (req_of s id) -> P tt s') ->
  wp (upd_req id f) P s.
Proof.
  intros Hc Hk He Hmm HP. apply wp_upd_req. intros h Hh Hoth. apply HP; [|exact Hh].
  apply upd_frame_heap; try done. by rewrite Hh.
Qed.

Lemma wp_update_spec_tokens (s : sched) id o index :
  connector s = None -> kv_ok (sched_log_stats (cfg s)) (kv_cache_manager s) -> enc_ok s ->
  (forall spec, mro_spec_token_ids o = Some spec -> (index < length spec)%nat) ->
  wp (update_spec_tokens should_advance validate_tokens id o index) (fun _ s' => upd_frame id false s s' /\
    exists ids, req_of s' id = with_spec_token_ids ids (req_of s id) /\
      (mro_spec_token_ids o = None -> ids = spec_token_ids (req_of s id))) s.
Proof.
  intros Hc Hk He Hspec. unfold update_spec_tokens. destruct (mro_spec_token_ids o) as [spec|].
  - destruct (lookup_lt_is_Some_2 _ _ (Hspec spec eq_refl)) as [ids ->].
    apply wp_upd_frame; try done. intros s' Hf E. split; [done|]. by eexists.
  - wp_steps. split; [by split|]. exists (spec_token_ids (req_of s id)). split; [by destruct (req_of s id)|done].
Qed.

(** The statistics of a step count what the configuration allows. *)
Definition stats_ok (c : SchedConfig) (stats : option SpecDecodingStats) : Prop :=
  match stats with Some st => sd_num_spec_tokens st = num_spec_tokens c | None => True end.

Lemma make_spec_stats_ok c stats d a :
  stats_ok c stats -> a <= num_spec_tokens c ->
  exists stats', make_spec_decoding_stats c stats d a = Ok stats' /\ stats_ok c stats'.
Proof.
  intros Hs Ha. unfold make_spec_decoding_stats. destruct (negb _); [by exists None|].
  assert (E : sd_num_spec_tokens (default (new_spec_stats (num_spec_tokens c)) stats) = num_spec_tokens c)
    by (by destruct stats).
  unfold observe_draft. rewrite E. rewrite (proj2 (Z.leb_le _ _) Ha). simpl. by eexists.
Qed.

(** The count of computed tokens without the rejected draft tokens. *)
Definition settled (drafts generated : list Z) (computed : Z) : Z :=
  if (length drafts =? 0)%nat then computed else computed - (len drafts + 1 - len generated).

Lemma wp_account_rejected (s : sched) id drafts generated stats :
  connector s = None -> kv_ok (sched_log_stats (cfg s)) (kv_cache_manager s) -> enc_ok s ->
  drafts_ok (req_of s id) drafts (num_computed_tokens (req_of s id)) ->
  0 <= num_computed_tokens (req_of s id) ->
  (drafts <> [] -> generated <> [] /\ len generated - 1 <= num_spec_tokens (cfg s)) -> stats_ok (cfg s) stats ->
  wp (account_rejected id drafts generated stats) (fun stats' s' => upd_frame id false s s' /\ stats_ok (cfg s) stats' /\
    let m := settled drafts generated (num_computed_tokens (req_of s id)) in
    0 <= m <= num_tokens (req_of s id) + len generated /\
    req_of s' id = with_num_computed_tokens m (req_of s id)) s.
Proof.
  intros Hc Hk He Hd Hcok Hg Hst. unfold account_rejected. unfold drafts_ok in Hd. destruct drafts as [|d drafts]; simpl.
  - wp_steps. change (len []) with 0 in *. pose proof (len_nonneg generated). split; [by split|]. split; [done|].
    cbv zeta. change (settled [] generated) with (fun n : Z => n). cbv beta. split; [lia|]. by destruct (req_of s id).
  - destruct (Hg ltac:(done)) as [Hne Hacc]. wp_step.
    apply wp_upd_frame; try done. intros s' Hf E. wp_steps. rewrite (uf_cfg _ _ _ _ Hf).
    destruct (make_spec_stats_ok (cfg s) stats (len (d :: drafts)) (len generated - 1) Hst Hacc) as (stats' & -> & Hst').
    unfold lift_result, wp. split; [done|]. split; [done|]. cbv zeta.
    change (settled (d :: drafts) generated) with (fun n => n - (len (d :: drafts) + 1 - len generated)). cbv beta.
    split; [|exact E]. destruct generated as [|g generated]; [done|]. rewrite !len_cons in *.
    pose proof (len_nonneg generated). pose proof (len_nonneg drafts).
    pose proof (len_nonneg (_all_token_ids (req_of s id))). unfold num_tokens in *. lia.
Qed.

(** What the results do to a request that goes on: nothing if it was not
    scheduled; otherwise the generated tokens are appended, the rejected draft
    tokens do not count, and there is room for more. *)
Definition continued (c : SchedConfig) (so : SchedulerOutput) (o : ModelRunnerOutput) (id : string)
    (r r' : Request) : Prop :=
  match num_scheduled_tokens so !! id with
  | None => r' = r
  | Some _ => exists index generated, req_id_to_index o !! id = Some index /\
      sampled_token_ids o !! index = Some generated /\
      num_tokens r' = num_tokens r + len generated /\
      (generated <> [] -> num_tokens r' < sched_max_model_len c) /\
      num_computed_tokens r' =
        settled (dd_get (scheduled_spec_decode_tokens so) id) generated (num_computed_tokens r) /\
      (mro_spec_token_ids o = None -> spec_token_ids r' = spec_token_ids r) /\
      mm_positions r' = mm_positions r /\
      _output_token_ids r' = _output_token_ids r ++ generated /\ _all_token_ids r' = _all_token_ids r ++ generated
  end.

(** Whether a request goes on: it was not scheduled, or none of its generated
    tokens stops it. *)
Definition goes_on (c : SchedConfig) (so : SchedulerOutput) (o : ModelRunnerOutput) (id : string) (r : Request) : bool :=
  match num_scheduled_tokens so !! id, req_id_to_index o !! id ≫= (fun index => sampled_token_ids o !! index) with
  | Some _, Some generated =>
      let computed := settled (dd_get (scheduled_spec_decode_tokens so) id) generated (num_computed_tokens r) in
      negb (stops (sched_max_model_len c) (with_num_computed_tokens computed r) generated)
  | _, _ => true
  end.

Lemma wp_update_one (s : sched) so o id stats :
  connector s = None -> kv_ok (sched_log_stats (cfg s)) (kv_cache_manager s) -> enc_ok s -> running_ok s id ->
  drafts_pending so s id -> result_ok (cfg s) so o id -> stats_ok (cfg s) stats ->
  wp (update_one should_advance validate_tokens so o id stats) (fun res s' =>
    upd_frame id (negb res.1.1) s s' /\ res.1.1 = goes_on (cfg s) so o id (req_of s id) /\
    (res.1.1 = true -> running_ok s' id /\ continued (cfg s) so o id (req_of s id) (req_of s' id)) /\
    stats_ok (cfg s) res.2) s.
Proof.
  intros Hc Hk He Hrun Hdr Hro Hst0. unfold update_one.
  destruct (num_scheduled_tokens so !! id) as [n|] eqn:En; simpl.
  2:{ wp_steps. simpl. split; [by split|]. split; [unfold goes_on; by rewrite En|]. split; [|done]. intros _. split; [done|]. unfold continued. by rewrite En. }
  destruct (Hdr n En) as [Hn Hdrafts]. destruct (Hro n En) as (index & generated & Hi & Hgen & Hg1 & Hg2 & Hg3).
  rewrite (proj2 (Z.eqb_neq _ _)) by lia. wp_step. unfold get_item. rewrite Hi. wp_step. rewrite Hgen.
  destruct Hrun as ((Hid & Hreq & Hnt) & Hst & Hcok).
  wp_step. eapply wp_mono; [apply wp_account_rejected; try done; apply Hcok|]. intros stats1 s1 (Hf1 & Hst1 & Hm & E1).
  set (m := settled _ _ _) in *.
  wp_step. eapply wp_mono; [apply wp_free_processed_inputs; [apply Hf1|by rewrite E1]|]. intros [] s2 (e & -> & He2).
  assert (Hf2 : upd_frame id false s (set_encoder e s1)).
  { apply (upd_frame_trans id false false s s1 _ Hf1). destruct Hf1. by split. }
  set (s2 := set_encoder e s1) in *. change (req_of s2 id = with_num_computed_tokens m (req_of s id)) in E1.
  clearbody s2. wp_step.
  eapply wp_mono; [apply wp_append_loop; try apply Hf2; rewrite ?E1; [done|by rewrite (uf_requests _ _ _ _ Hf2)|
    simpl; unfold is_finished; simpl; by rewrite Hst]|].
  intros [[stopped tokens] params] s3 (Hf3 & -> & Hstop & Hres).
  assert (Hgoes : negb stopped = goes_on (cfg s) so o id (req_of s id)).
  { unfold goes_on. rewrite En, Hi. cbn [mbind option_bind]. rewrite Hgen. by rewrite Hstop, E1, (uf_cfg _ _ _ _ Hf2). }
  pose proof (upd_frame_trans _ _ _ _ _ _ Hf2 Hf3) as Hf3'. simpl in Hf3'.
  wp_step. eapply wp_mono; [apply (wp_update_spec_tokens s3 id o index); [apply Hf3|apply Hf3|apply Hf3|done]|].
  intros [] s4 (Hf4 & ids & E4 & Hids). pose proof (upd_frame_trans _ _ _ _ _ _ Hf3' Hf4) as Hf4'. rewrite orb_false_r in Hf4'.
  assert (Hend : forall s5 evs, upd_frame id false s4 s5 -> req_of s5 id = with_events evs (req_of s4 id) ->
    upd_frame id (negb (negb stopped)) s s5 /\ negb stopped = goes_on (cfg s) so o id (req_of s id) /\
    (negb stopped = true -> running_ok s5 id /\ continued (cfg s) so o id (req_of s id) (req_of s5 id)) /\
    stats_ok (cfg s) stats1).
  { intros s5 evs Hf5 E5. pose proof (upd_frame_trans _ _ _ _ _ _ Hf4' Hf5) as Hf5'. rewrite orb_false_r in Hf5'.
    rewrite negb_involutive. split; [exact Hf5'|]. split; [exact Hgoes|]. split; [|done]. intros ->%negb_true_iff.
    destruct Hres as [-> (A1 & A2 & A3 & A4 & A5 & A6 & A7 & A8 & A9)]. rewrite E1 in A1, A2, A3, A4, A6, A7, A8, A9. simpl in A1, A2, A3, A6, A7, A8, A9.
    change (num_tokens (with_num_computed_tokens m (req_of s id))) with (num_tokens (req_of s id)) in A4.
    split; [|unfold continued; rewrite En; exists index, generated; rewrite E5, E4; simpl; split_and!; [done|done|exact A4| |exact A3| |exact A7|exact A8|exact A9]].
    2:{ intros Hne. rewrite <- (uf_cfg _ _ _ _ Hf2). by apply A5. }
    2:{ intros Hno. by rewrite (Hids Hno), A6. }
    unfold running_ok, live, computed_ok. rewrite E5, E4. simpl.
    rewrite (uf_requests _ _ _ _ Hf5'), (uf_cfg _ _ _ _ Hf5'). simpl.
    rewrite (uf_cfg _ _ _ _ Hf2) in A5.
    assert (Hlt : num_tokens (req_of s3 id) <= sched_max_model_len (cfg s)).
    { rewrite A4 in *. destruct generated as [|g gs]; [change (len []) with 0; lia|]. specialize (A5 ltac:(done)). lia. }
    unfold num_tokens_with_spec, num_tokens in *. simpl. rewrite A1, A2, A3.
    pose proof (len_nonneg generated). pose proof (len_nonneg ids). split_and!; try done; lia. }
  assert (Hsame : forall evs, evs = events (req_of s4 id) -> req_of s4 id = with_events evs (req_of s4 id))
    by (intros evs ->; by destruct (req_of s4 id)).
  assert (Hrefl : upd_frame id false s4 s4) by (destruct Hf4'; by split).
  simpl; rewrite orb_false_r. destruct (0 <? length tokens)%nat eqn:Et.
  - unfold get_req. wp_steps. unfold Request.take_events. destruct (events (req_of s4 id)) as [|ev evs] eqn:Eev.
    + wp_steps. apply wp_upd_frame; try apply Hf4'; [done|]. intros s5 Hf5 E5. wp_steps. simpl.
      apply (Hend s5 [] Hf5). rewrite E5. by apply Hsame.
    + wp_steps. apply wp_upd_frame; try apply Hf4'; [done|]. intros s5 Hf5 E5. wp_steps. simpl.
      by apply (Hend s5 [] Hf5).
  - assert (Hempty : tokens = []) by (destruct tokens; [done|discriminate Et]).
    destruct stopped; [done|]. destruct Hres as [Htok _]. rewrite Hempty in Htok. simpl in Htok.
    apply wp_bind, wp_assert; [apply negb_true_iff, bool_decide_eq_false; by apply Hg2|]. wp_steps. simpl.
    by apply (Hend s4 (events (req_of s4 id)) Hrefl), Hsame.
Qed.

(** The requests that go on running after the results seen so far. *)
Abbreviation results := (list (string * (bool * option (Z * EngineCoreOutput)))).
Definition kept (ys : results) : list string := fst <$> filter (fun p => p.2.1 = true) ys.

Lemma kept_app ys id res : kept (ys ++ [(id, res)]) = kept ys ++ (if res.1 then [id] else []).
Proof.
  unfold kept. rewrite filter_app, fmap_app. f_equal. by destruct res as [[] out].
Qed.

(** Those of a list that go on. *)
Definition going (so : SchedulerOutput) (o : ModelRunnerOutput) (s : sched) (ids : list string) : list string :=
  filter (fun id => goes_on (cfg s) so o id (req_of s id) = true) ids.

Record update_inv (s0 : sched) (so : SchedulerOutput) (o : ModelRunnerOutput) (ys : results) (todo : list string) (s : sched) : Prop := {
  ui_running : running s = running s0;
  ui_waiting : waiting s = waiting s0;
  ui_cfg : cfg s = cfg s0;
  ui_connector : connector s = None;
  ui_kv : kv_ok (sched_log_stats (cfg s)) (kv_cache_manager s);
  ui_enc : enc_ok s;
  ui_sub : sublist (kept ys ++ todo) (running s0);
  ui_live : Forall (running_ok s) (kept ys ++ todo);
  ui_drafts : Forall (drafts_pending so s) todo;
  ui_wait : Forall (waiting_ok s) (waiting s0);
  ui_tables : tables_ok (kv_cache_manager s) (kept ys ++ todo);
  ui_all : forall x, x ∈ requests s -> x ∈ kept ys ++ todo ++ waiting s0;
  ui_todo : forall x, x ∈ todo -> req_of s x = req_of s0 x;
  ui_kept : forall x, x ∈ kept ys -> continued (cfg s0) so o x (req_of s0 x) (req_of s x);
  ui_shape : kv_shape (kv_cache_manager s) = kv_shape (kv_cache_manager s0);
  ui_goes : kept ys ++ going so o s0 todo = going so o s0 (running s0)
}.

Lemma wp_update_step s0 so o ys id todo stats (s : sched) :
  sched_inv s0 -> update_inv s0 so o ys (id :: todo) s -> result_ok (cfg s0) so o id -> stats_ok (cfg s0) stats ->
  wp (update_one should_advance validate_tokens so o id stats)
    (fun res s' => update_inv s0 so o (ys ++ [(id, res.1)]) todo s' /\ stats_ok (cfg s0) res.2) s.
Proof.
  intros Hs0 [U1 U2 U3 U4 U5 U6 U7 U8 U9 U10 U11 U12 U13 U14 U15 U16] Hro Hst. rewrite <- U3 in Hro, Hst.
  apply Forall_app in U8 as [Hkept [Hrun Htodo]%Forall_cons]. apply Forall_cons in U9 as [Hdr Hdrs].
  pose proof (si_nodup _ Hs0) as Hnd. apply NoDup_app in Hnd as (Hnd & Hdis & _).
  pose proof (sublist_NoDup _ _ Hnd U7) as Hnd1. rewrite <- Permutation_middle in Hnd1.
  apply NoDup_cons in Hnd1 as [Hid Hnd1].
  assert (Hidr : id ∈ running s0) by (eapply sublist_subseteq; [exact U7|set_solver]).
  assert (Hne : forall x, x ∈ kept ys ++ todo ++ waiting s0 -> x <> id).
  { intros x Hx ->. rewrite app_assoc in Hx. apply elem_of_app in Hx as [Hx|Hx]; [done|by apply (Hdis id)]. }
  eapply wp_mono; [by apply wp_update_one|]. intros [res stats'] s' ([F1 F2 F3 F4 F5 F6 F7 F8 F9 F10] & Hgo & Hok & Hst'). simpl in *.
  assert (Hreq : forall x, x ∈ requests s -> x <> id -> x ∈ requests s').
  { intros x Hx Hxi. rewrite F8. destruct (negb _); set_solver. }
  assert (Hkeep : forall x, x ∈ kept ys ++ todo ++ waiting s0 -> req_of s' x = req_of s x) by (intros x Hx; by apply F9, Hne).
  assert (Hrok : forall l, (forall x, x ∈ l -> x ∈ kept ys ++ todo ++ waiting s0) ->
    Forall (running_ok s) l -> Forall (running_ok s') l).
  { intros l Hl Hall. eapply Forall_ext_in; [|exact Hall]. intros x Hx Hxok.
    apply (running_ok_keep s s' x Hxok); [by apply Hkeep, Hl| |done].
    apply Hreq; [apply Hxok|by apply Hne, Hl]. }
  rewrite U3 in Hst'. split; [|done]. rewrite F3 in F5. split; rewrite ?F1, ?F2, ?F3, ?kept_app; try done.
  - etrans; [|exact U7]. rewrite <- app_assoc. apply sublist_app; [done|].
    destruct (res.1); [done|]. by apply sublist_cons.
  - apply Forall_app. split; [apply Forall_app; split|].
    + apply Hrok; [set_solver|done].
    + destruct (res.1); [|constructor]. constructor; [by apply (Hok eq_refl)|constructor].
    + apply Hrok; [set_solver|done].
  - eapply Forall_ext_in; [|exact Hdrs]. intros x Hx Hd n. unfold drafts_pending in *. rewrite Hkeep by set_solver. apply Hd.
  - eapply Forall_ext_in; [|exact U10]. intros x Hx Hxok.
    apply (waiting_ok_keep s s' x Hxok); [apply Hkeep; set_solver| |done].
    apply Hreq; [apply Hxok|apply Hne; set_solver].
  - apply F6. eapply tables_ok_mono; [|exact U11]. intros x. clear.
    destruct (res.1); simpl; set_solver.
  - intros x. rewrite F8. destruct (res.1); simpl.
    + intros Hx%U12. set_solver.
    + intros [Hx Hxi]%elem_of_difference. apply U12 in Hx. set_solver.
  - intros x Hx. rewrite Hkeep by set_solver. apply U13. by right.
  - intros x [Hx|Hx]%elem_of_app; [rewrite Hkeep by set_solver; by apply U14|].
    destruct (res.1) eqn:Er; [|by apply not_elem_of_nil in Hx]. apply list_elem_of_singleton in Hx as ->.
    rewrite <- U3, <- (U13 id) by (by left). by apply (Hok eq_refl).
  - congruence.
  - rewrite <- U16, <- app_assoc. f_equal. unfold going. rewrite U3, (U13 id) in Hgo by (by left). rewrite filter_cons, Hgo.
    by case_decide as Eg; [rewrite Eg|destruct (goes_on _ _ _ _ _)].
Qed.

(** Nothing of what the invariant mentions. *)
Record neutral (s s' : sched) : Prop := {
  ne_running : running s' = running s;
  ne_waiting : waiting s' = waiting s;
  ne_cfg : cfg s' = cfg s;
  ne_connector : connector s' = connector s;
  ne_kv : kv_cache_manager s' = kv_cache_manager s;
  ne_enc : encoder_cache_manager s' = encoder_cache_manager s;
  ne_requests : requests s' = requests s;
  ne_heap : heap s' = heap s
}.

Lemma neutral_refl s : neutral s s.
Proof. by split. Qed.

Lemma neutral_trans s1 s2 s3 : neutral s1 s2 -> neutral s2 s3 -> neutral s1 s3.
Proof. intros [] []. split; congruence. Qed.

Lemma wp_for_each_neutral {A} (body : A -> M sched unit) l (s : sched) :
  (forall x s', wp (body x) (fun _ s'' => neutral s' s'') s') ->
  wp (for_each body l) (fun _ s' => neutral s s') s.
Proof.
  intros Hb. apply (wp_for_each body (fun _ s' => neutral s s')); [apply neutral_refl|].
  intros x l' s' Hs. eapply wp_mono; [apply Hb|]. intros [] s''. by apply neutral_trans.
Qed.

Definition runner_ok (so : SchedulerOutput) (o : ModelRunnerOutput) (s : sched) : Prop :=
  finished_sending o = [] /\ Forall (result_ok (cfg s) so o) (running s).

Lemma update_done s0 so o ys (s s' : sched) :
  sched_inv s0 -> update_inv s0 so o ys [] s -> neutral s s' -> sched_inv (set_running (kept ys) s').
Proof.
  intros Hs0 [U1 U2 U3 U4 U5 U6 U7 U8 U9 U10 U11 U12 _ _ _ _] [N1 N2 N3 N4 N5 N6 N7 N8].
  rewrite app_nil_r in *. destruct Hs0 as [S1 S2 S3 S4 S5 S6 S7 S8 S9 S10 S11].
  assert (U5' : kv_ok (sched_log_stats (cfg s0)) (kv_cache_manager s)) by (by rewrite <- U3).
  assert (Hq : forall x, req_of (set_running (kept ys) s') x = req_of s x) by (intros x; unfold req_of; simpl; by rewrite N8).
  split; simpl; rewrite ?N2, ?N3, ?N4, ?N5, ?N7, ?U2, ?U3; try done.
  - eapply sublist_NoDup; [exact S5|]. by apply sublist_app.
  - eapply Forall_impl; [exact U8|]. intros x. apply running_ok_ext; [apply Hq|done|done].
  - eapply Forall_impl; [exact U10|]. intros x. apply waiting_ok_ext; [apply Hq|done|done].
  - apply sublist_length in U7. unfold len in *. lia.
  - apply (enc_ok_ext s); [intros x; by rewrite Hq|done|simpl; by rewrite N6|done].
Qed.

(** The loop over the running requests. *)
Lemma wp_update_loop s0 so o todo : forall ys stats (s : sched),
  sched_inv s0 -> update_inv s0 so o ys todo s -> Forall (result_ok (cfg s0) so o) todo -> stats_ok (cfg s0) stats ->
  wp (update_loop should_advance validate_tokens so o todo stats)
    (fun res s' => update_inv s0 so o (ys ++ res.1) [] s' /\ stats_ok (cfg s0) res.2) s.
Proof.
  induction todo as [|id todo IH]; intros ys stats s Hs0 Hu Hro Hst; cbn [update_loop].
  { wp_steps. simpl. by rewrite app_nil_r. }
  apply Forall_cons in Hro as [Hr1 Hr2].
  wp_step. eapply wp_mono; [by apply (wp_update_step s0 so o ys id todo)|]. intros [res stats1] s1 [Hu1 Hst1].
  simpl in *. wp_step. eapply wp_mono; [by apply (IH _ stats1 s1 Hs0 Hu1)|]. intros [results stats2] s2 [Hu2 Hst2].
  simpl in *. wp_steps. simpl. by rewrite <- app_assoc in Hu2.
Qed.

(** The statistics are there when they are logged, and making them only starts
    new ones. *)
Lemma wp_make_stats (s : sched) spec :
  sched_inv s ->
  wp (make_stats spec) (fun _ s' => sched_inv s' /\ running s' = running s /\ waiting s' = waiting s /\
    cfg s' = cfg s /\ kv_shape (kv_cache_manager s') = kv_shape (kv_cache_manager s) /\ heap s' = heap s) s.
Proof.
  intros Hs. pose proof (si_kv _ Hs) as [(l & Hk) Hoff Hfull Hlog Hstats].
  unfold make_stats. wp_steps. destruct (sched_log_stats (cfg s)) eqn:El; simpl; [|by wp_steps].
  unfold kv_op, make_prefix_cache_stats. wp_steps. rewrite Hlog. simpl. wp_steps.
  destruct (Hstats eq_refl) as [st ->]. wp_steps. split; [|done].
  destruct Hs as [S1 S2 S3 S4 S5 S6 S7 S8 S9 S10 S11]. split; simpl; try done.
  rewrite El. destruct Hk as [K1 K2 K3 K4 K5 K6 K7 K8]. split; simpl; try done. exists l. by split.
Qed.

(** The requests that go on, and what is left alone. *)
Record updated (so : SchedulerOutput) (o : ModelRunnerOutput) (s s' : sched) : Prop := {
  up_running : sublist (running s') (running s);
  up_waiting : waiting s' = waiting s;
  up_cfg : cfg s' = cfg s;
  up_shape : kv_shape (kv_cache_manager s') = kv_shape (kv_cache_manager s);
  up_continued : forall id, id ∈ running s' -> continued (cfg s) so o id (req_of s id) (req_of s' id);
  (** Exactly those whose tokens do not stop them; the others are gone. *)
  up_goes : running s' = going so o s (running s);
  up_gone : forall id, id ∈ running s -> id ∉ running s' -> id ∉ requests s'
}.

Lemma wp_update_from_output (s : sched) so o :
  sched_inv s -> pending so s -> runner_ok so o s ->
  wp (update_from_output should_advance validate_tokens so o) (fun _ s' => sched_inv s' /\ updated so o s s') s.
Proof.
  intros Hs Hp [Hsend Hro]. unfold update_from_output. wp_steps.
  assert (Hu0 : update_inv s so o [] (running s) s).
  { split; simpl; try done; try apply Hs; [|by intros x ?%not_elem_of_nil].
    apply Forall_forall. intros id Hid n Hn. by apply Hp. }
  eapply wp_mono; [by apply (wp_update_loop s so o (running s) [] None s Hs Hu0)|].
  intros [ys spec] s1 [Hu _]. simpl in Hu. wp_step. unfold _update_from_kv_xfer_finished. rewrite Hsend. wp_step.
  eapply wp_mono; [by apply wp_for_each_neutral; intros id s'; wp_steps|]. intros [] s2 Hn2. simpl. wp_steps.
  eapply wp_mono.
  { apply wp_for_each_neutral. intros d s'. unfold return_cached_data. wp_steps. by case_decide. }
  intros [] s3 Hn3. pose proof (neutral_trans _ _ _ Hn2 Hn3) as Hn. wp_steps.
  pose proof (update_done s so o ys s1 s3 Hs Hu Hn) as Hend.
  set (s4 := set_finished_dict _ _).
  assert (Hs4 : sched_inv s4) by (destruct Hend; by split).
  assert (Hu4 : updated so o s s4).
  { destruct Hu as [U1 U2 U3 U4 U5 U6 U7 U8 U9 U10 U11 U12 U13 U14 U15 U16], Hn as [N1 N2 N3 N4 N5 N6 N7 N8].
    cbn [app going filter list_filter] in U16. rewrite app_nil_r in U7, U16.
    split; [exact U7|simpl; congruence|simpl; congruence|simpl; by rewrite N5| |exact U16|].
    - intros id Hid. unfold req_of at 2. simpl. rewrite N8. by apply U14.
    - intros id Hid Hno. simpl in *. rewrite N7. intros [?|Hw]%U12%elem_of_app; [by apply Hno|]. simpl in Hw.
      pose proof (si_nodup _ Hs) as Hnd. apply NoDup_app in Hnd as (_ & Hd & _). by apply (Hd id). }
  clearbody s4. destruct (_ =? _)%nat.
  - wp_steps. done.
  - eapply wp_mono; [by apply wp_make_stats|]. intros stats s5 (Hs5 & E1 & E2 & E3 & E4 & E5). wp_steps.
    split; [done|]. destruct Hu4 as [V1 V2 V3 V4 V5 V6 V7]. split; rewrite ?E1, ?E2, ?E3, ?E4; try done.
    + intros id Hid. unfold req_of at 2. rewrite E5. by apply V5.
    + intros id Hid Hno. intros Hr%(si_all _ Hs5). rewrite E1, E2, V2 in Hr. apply elem_of_app in Hr as [?|Hw]; [by apply Hno|].
      pose proof (si_nodup _ Hs) as Hnd. apply NoDup_app in Hnd as (_ & Hd & _). by apply (Hd id).
Qed.

(** ** Every interleaving

    The engine adds and aborts requests at any time, and alternates between
    scheduling a step and handing in its results. *)

Inductive sched_step : sched * option SchedulerOutput -> sched * option SchedulerOutput -> Prop :=
  | step_add s p r s' :
      addable s r -> add_request r s = Ret tt s' -> sched_step (s, p) (s', p)
  | step_finish s p ids st s' :
      status_is_finished st = true -> finish_requests ids st s = Ret tt s' -> sched_step (s, p) (s', p)
  | step_schedule s out s' :
      schedule hash_fn NONE_HASH s = Ret out s' -> sched_step (s, None) (s', Some out)
  | step_update s out o res s' :
      runner_ok out o s -> update_from_output should_advance validate_tokens out o s = Ret res s' ->
      sched_step (s, Some out) (s', None).

Definition reachable_inv (x : sched * option SchedulerOutput) : Prop :=
  sched_inv x.1 /\ forall out, x.2 = Some out -> pending out x.1.

Lemma wp_result {S A} (m : M S A) (P : A -> S -> Prop) s a s' : wp m P s -> m s = Ret a s' -> P a s'.
Proof. unfold wp. intros Hw E. by rewrite E in Hw. Qed.

Lemma sched_step_inv x y : reachable_inv x -> sched_step x y -> reachable_inv y.
Proof.
  intros [Hs Hp]. destruct 1 as [s p r s' Ha E|s p ids st s' Hst E|s out s' E|s out o res s' Hro E]; simpl in *.
  - destruct (wp_result _ _ _ _ _ (wp_add_request s r Hs Ha) E) as (Hs' & Er & _ & _ & _ & _ & Eo).
    split; [done|]. intros out Ho. apply (pending_quiet out s); [|by apply Hp].
    intros x Hx. simpl in *. rewrite Er in Hx. split; [done|]. apply Eo. intros ->. apply (ad_fresh _ _ Ha).
    apply (queued_live s _ Hs). set_solver.
  - destruct (wp_result _ _ _ _ _ (wp_finish_requests s ids st Hs Hst) E) as (Hs' & Hq & _).
    split; [done|]. intros out Ho. by apply (pending_quiet out s s' Hq), Hp.
  - destruct (wp_result _ _ _ _ _ (wp_schedule hash_fn NONE_HASH s Hs) E) as (Hs' & _ & _ & _ & _ & Hpend & _).
    split; [done|]. by intros ? [= <-].
  - destruct (wp_result _ _ _ _ _ (wp_update_from_output s out o Hs (Hp out eq_refl) Hro) E) as (Hs' & _).
    by split.
Qed.

Lemma reachable i config mt (s0 s : sched) p :
  covered i config -> init_scheduler i config mt None = Ok s0 ->
  rtc sched_step (s0, None) (s, p) -> reachable_inv (s, p).
Proof.
  intros Hc Hi Hr. apply (rtc_ind_r reachable_inv (s0, None)) in Hr; [done| |].
  - split; [apply (init_inv i config mt s0 Hc Hi)|done].
  - intros y z _ Hyz Hy. by apply (sched_step_inv y).
Qed.

(** C1: the scheduler never raises, for a covered configuration: full
    attention in every group of layers, no prefix caching, no limit on LoRA
    adapters, no KV connector and no negative budget. In every state the
    engine can bring a new scheduler to, by any interleaving of arrivals,
    aborts, steps and results, each of the four operations returns: no
    assertion fails, no lookup misses and no loop gets stuck. Arriving
    requests are new, not started and have at least one token and no more than
    the model length ([addable]); aborts give a finished status; the results
    satisfy [runner_ok]: they name every scheduled request with its tokens,
    where draft tokens were sent at least one and no more than can be
    accepted, no prompt log-probabilities without a token, and no finished KV
    transfers. With a limit on adapters it can raise: see
    [lora_limit_exceeded]. *)
Theorem scheduler_never_raises i config mt (s0 s : sched) p :
  covered i config -> init_scheduler i config mt None = Ok s0 ->
  rtc sched_step (s0, None) (s, p) ->
  (forall r, addable s r -> exists s', add_request r s = Ret tt s') /\
  (forall ids st, status_is_finished st = true -> exists s', finish_requests ids st s = Ret tt s') /\
  (exists out s', schedule hash_fn NONE_HASH s = Ret out s') /\
  (forall out o, p = Some out -> runner_ok out o s ->
     exists res s', update_from_output should_advance validate_tokens out o s = Ret res s').
Proof.
  intros Hc Hi Hr. destruct (reachable i config mt s0 s p Hc Hi Hr) as [Hs Hp]. simpl in *. split_and!.
  - intros r Ha. destruct (wp_elim _ _ _ (wp_add_request s r Hs Ha)) as ([] & s' & E & _). by exists s'.
  - intros ids st Hst. destruct (wp_elim _ _ _ (wp_finish_requests s ids st Hs Hst)) as ([] & s' & E & _). by exists s'.
  - destruct (wp_elim _ _ _ (wp_schedule hash_fn NONE_HASH s Hs)) as (out & s' & E & _). by exists out, s'.
  - intros out o Ho Hro.
    destruct (wp_elim _ _ _ (wp_update_from_output s out o Hs (Hp out Ho) Hro)) as (res & s' & E & _). by exists res, s'.
Qed.

(** C2: no KV block is leaked over the life of the scheduler, for a covered
    configuration (full attention in every group, no prefix caching, no limit
    on LoRA adapters) and without a KV connector, which would delay frees:
    after any interleaving of arrivals of requests that fit the model, aborts,
    steps and results as the runner has to give them, whenever no request is
    running, every block but the null block is free. *)
Theorem scheduler_releases_blocks i config mt (s0 s : sched) p :
  covered i config -> init_scheduler i config mt None = Ok s0 ->
  rtc sched_step (s0, None) (s, p) -> running s = [] ->
  get_num_free_blocks (block_pool (coordinator (kv_cache_manager s))) =
    num_gpu_blocks (block_pool (coordinator (kv_cache_manager s))) - 1.
Proof.
  intros Hc Hi Hr Hrun. destruct (reachable i config mt s0 s p Hc Hi Hr) as [Hs _]. simpl in *.
  destruct (ko_inv _ _ (si_kv _ Hs)) as [l Hk]. apply (all_blocks_free _ l Hk).
  intros id. apply (si_tables _ Hs id). rewrite Hrun. by intros ?%not_elem_of_nil.
Qed.

(** C3: one step of the scheduler, from a state with the scheduler's
    invariant, which fixes the configuration: full attention, no prefix
    caching, no limit on LoRA adapters, no KV connector. [schedule] returns;
    the number of scheduled tokens is the sum over the requests, each running
    and scheduled at least one token, and within the budget; it has computed
    just that many more and the others that run no more; either the tail of
    the running requests was preempted in order to the front of the queue and
    nobody was admitted, or requests were admitted from the queue in order,
    the others keeping theirs; and the invariant holds after, with the results
    of the step still due. *)
Theorem schedule_spec (s : sched) :
  sched_inv s ->
  exists out s', schedule hash_fn NONE_HASH s = Ret out s' /\ reachable_inv (s', Some out) /\ queues_after s s' /\
    total_num_scheduled_tokens out = sum_values (num_scheduled_tokens out) /\
    total_num_scheduled_tokens out <= max_num_scheduled_tokens (cfg s) /\
    len (running s') <= max_num_running_reqs (cfg s') /\
    (forall id n, num_scheduled_tokens out !! id = Some n -> 1 <= n /\ id ∈ running s') /\
    advanced out s s'.
Proof.
  intros Hs. destruct (wp_elim _ _ _ (wp_schedule hash_fn NONE_HASH s Hs)) as (out & s' & E & H').
  destruct H' as (Hs' & Hq & Ht & Hb & Hn & Hp & Ha). exists out, s'.
  split; [done|]. split; [split; [done|by intros ? [= <-]]|]. split_and!; try done. apply (si_limit _ Hs').
Qed.

(** What a round of preemptions for [id] did: the victims are the tail of the
    running requests, the last one first, moved to the front of the queue; it
    stopped when the slots were allocated or [id] itself had to go. *)
Definition preempt_outcome (s s' : sched) (id : string) (pre post : list string)
    (allocated : option (list (list nat))) (victims : list string) : Prop :=
  waiting s' = rev victims ++ waiting s /\ (forall x, x ∉ victims -> req_of s' x = req_of s x) /\
  match allocated with
  | Some _ => exists post', post = post' ++ rev victims /\ running s' = pre ++ id :: post'
  | None => rev victims = id :: post /\ running s' = pre
  end.

(** The preemption loop.  It ends, within one round per running request; it
    takes victims from the tail only, until the allocation succeeds or the
    request itself had to go, and puts them at the front of the queue. *)
Theorem preempt_loop_spec (s : sched) n num_draft id pre post :
  sched_inv s -> running s = pre ++ id :: post -> n <> 0 ->
  wp (preempt_loop hash_fn NONE_HASH (length (running s)) id n num_draft) (fun res s' =>
    preempt_outcome s s' id pre post res.1 res.2) s.
Proof.
  intros Hs Hr Hn. eapply wp_mono.
  - apply (wp_preempt_loop hash_fn NONE_HASH s [] n num_draft id pre post _ s Hs (mid_inv_start s Hs) Hr Hn
      (si_tables _ Hs)). rewrite Hr, length_app. simpl. lia.
  - intros res s' (_ & _ & Hw & Hq & Hres). done.
Qed.

(** How the loop over the running requests leaves: nobody is lost, and it ended
    by a preemption, at the end of the list or without budget. *)
Definition running_left (s : sched) (l' : Local) (s' : sched) : Prop :=
  running_exit l' s' /\ running s = running s' ++ rev (l_preempted_reqs l').

(** The loop over the running requests ends because it preempted, has seen
    every running request, or has used up the budget, never for lack of fuel. *)
Theorem running_loop_exits (s : sched) :
  sched_inv s ->
  wp (running_loop hash_fn NONE_HASH (length (running s)) (init_local (cfg s))) (fun l' s' =>
    running_left s l' s') s.
Proof.
  intros Hs. eapply wp_mono; [apply (wp_running_loop hash_fn NONE_HASH s s _ _ Hs (run_inv_start _ Hs)); simpl; lia|].
  intros l' s' [Hl He]. split; [done|]. apply (ri_running _ _ _ Hl).
Qed.

(** The inputs to encode for the tokens from [num_computed]: they fit the
    budget, none is cached, and with them every input that overlaps the
    tokens that are left to schedule is there. *)
Record inputs_ok (s : sched) (r : Request) (num_computed num_new budget : Z)
    (inputs : list nat) (num_new' budget' : Z) : Prop := {
  in_tokens : 0 <= num_new' <= num_new;
  in_budget : 0 <= budget' /\ budget' + total_input_tokens r inputs = budget;
  in_new : Forall (fun i => (i < length (mm_positions r))%nat /\ has_cache (encoder_cache_manager s) r i = false) inputs;
  in_cover : forall i pos, mm_positions r !! i = Some pos -> overlaps pos num_computed (num_computed + num_new') ->
    has_cache (encoder_cache_manager s) r i = true \/ i ∈ inputs
}.

(** C40: encoder inputs.  The number of new tokens only shrinks, the inputs fit
    the budget, none is cached already, and when the placeholders are sorted
    every input that overlaps the scheduled tokens is cached or scheduled. *)
Theorem try_schedule_encoder_inputs_spec (s : sched) r num_computed num_new budget :
  0 < num_new -> 0 <= budget -> has_encoder_inputs r = true -> StronglySorted (fun p q => offset p <= offset q) (mm_positions r) ->
  exists inputs num_new' budget',
    _try_schedule_encoder_inputs s r num_computed num_new budget = Ok (inputs, num_new', budget') /\
    inputs_ok s r num_computed num_new budget inputs num_new' budget'.
Proof.
  intros Hn Hb Hh Hsort. unfold _try_schedule_encoder_inputs. rewrite Hh.
  rewrite (proj2 (Z.eqb_neq _ _)) by lia. simpl.
  destruct (encoder_loop_ok (cfg s) (encoder_cache_manager s) r num_computed num_new budget (mm_positions r) 0 []
    ltac:(lia) ltac:(by rewrite drop_0)) as (inputs & n' & b' & -> & new & -> & Hn' & Hb' & Hb0 & Hnew & Hcov).
  exists new, n', b'. simpl. split; [done|]. split; try lia; try done.
  - eapply Forall_impl; [exact Hnew|]. simpl. intros i [??]. split; [lia|done].
  - by apply Hcov.
Qed.

(** Aborting requests removes exactly them, whether they are running,
    waiting or unknown, leaves the requests that go on running untouched, and
    keeps the invariant. *)
Theorem finish_requests_spec (s : sched) ids st :
  sched_inv s -> status_is_finished st = true ->
  exists s', finish_requests ids st s = Ret tt s' /\ sched_inv s' /\ requests s' = requests s ∖ list_to_set ids /\
    quiet s s'.
Proof.
  intros Hs Hst. destruct (wp_elim _ _ _ (wp_finish_requests s ids st Hs Hst)) as ([] & s' & E & Hs' & Hq & Hr).
  by exists s'.
Qed.

(** C4: the results of a step, in a state with the scheduler's invariant (full
    attention, no prefix caching, no limit on LoRA adapters, no KV connector),
    for the step's own output and results that name every scheduled request
    with its tokens and no finished KV transfers ([runner_ok]).
    [update_from_output] returns and keeps the invariant and the queue. The
    running list is then, in order, exactly the requests none of whose
    generated tokens stops them, checked one after the other; the others have
    left the scheduler. A scheduled request that goes on has exactly its
    generated tokens appended to its outputs and to all its tokens, its
    rejected draft tokens do not count as computed, and there is room for more
    if there were any; one that was not scheduled is as before. *)
Theorem update_from_output_spec (s : sched) so o :
  sched_inv s -> pending so s -> runner_ok so o s ->
  exists res s', update_from_output should_advance validate_tokens so o s = Ret res s' /\ sched_inv s' /\
    updated so o s s'.
Proof.
  intros Hs Hp Hro. destruct (wp_elim _ _ _ (wp_update_from_output s so o Hs Hp Hro)) as (res & s' & E & Hs').
  by exists res, s'.
Qed.
End life.

(** ** The theorems at concrete schedulers *)

Abbreviation lsched := (Scheduler FreeKVCacheBlockQueue.t unit).

#[export] Instance no_connector : KVConnector unit := {
  get_num_new_matched_tokens _ _ c := ((0, false), c);
  update_state_after_alloc _ _ _ c := c;
  build_connector_meta c := c;
  request_finished _ _ c := ((false, None), c)
}.

(** One group of full attention, 39 usable blocks of two tokens. *)
Definition sample_kv_config : KVCacheConfig :=
  mkKVCacheConfig 40 [] [mkKVCacheGroupSpec ["layer"%string] (FullAttentionSpec sample_attention None)].

Definition sample_init (max_tokens threshold encoder : Z) (loras : option Z) : SchedulerInit :=
  mkSchedulerInit 4 max_tokens 100 threshold loras (Some 40) 2 false None false false false
    (mkEncoderConfig true false max_tokens encoder encoder).

Lemma sample_covered max_tokens threshold encoder :
  0 <= max_tokens -> covered (sample_init max_tokens threshold encoder None) sample_kv_config.
Proof. intros Hm. split_and!; try done. by repeat constructor. Qed.

Definition run_schedule : M lsched SchedulerOutput := schedule code_hash (-1).
Definition run_update (so : SchedulerOutput) (o : ModelRunnerOutput) : M lsched unit :=
  update_from_output (fun _ => false) (fun _ l => l) so o;; mret tt.

(** A request whose prompt holds images of four tokens at the given offsets. *)
Definition image_request (id : string) (tokens : list Z) (offsets : list Z) : Request :=
  mkRequest id 0 sample_params (Some 2) None false WAITING [] None 16 tokens [] tokens [] 0 None
    ((fun o => mkPlaceholderRange o 4) <$> offsets) ((fun _ => Some "image"%string) <$> offsets) (-1).

(** The results of a step: for each request the tokens it generated. *)
Definition results_of (l : list (string * list Z)) : ModelRunnerOutput :=
  mkModelRunnerOutput (list_to_map (imap (fun i p => (p.1, i)) l)) (snd <$> l) None ∅ [] [].

Definition step_with (l : list (string * list Z)) : M lsched SchedulerOutput :=
  so ← run_schedule; run_update so (results_of l);; mret so.

Definition ten : list Z := [1; 3; 4; 5; 6; 8; 9; 10; 11; 12].

(** *** The encoder cache is over-committed

    Eight slots and a budget of eight tokens per step.  The image of [a] is
    still cached when [b] asks for two images in one step. *)
Definition overcommit : M lsched SchedulerOutput :=
  add_request (image_request "a" (ten ++ take 4 ten) [10]);;
  step_with [("a"%string, [])];;
  add_request (image_request "b" (take 8 ten) [0; 4]);;
  run_schedule.

(** The room for an encoder input is checked input by input against the same
    free slots, so a step that schedules several inputs over-commits the cache:
    here four slots are free, two images of four are scheduled, and the number
    of free slots ends at minus four. *)
Theorem encoder_cache_overcommits :
  match init_scheduler (sample_init 12 0 8 None) sample_kv_config [4] None with
  | Ok s0 =>
      match overcommit s0 with
      | Ret out s => num_free_slots (encoder_cache_manager s) = -4 /\
          scheduled_encoder_inputs out !! "b"%string = Some [0; 1]%nat
      | Raise _ _ => False
      end
  | Err _ => False
  end.
Proof. vm_compute. split; reflexivity. Qed.

(** *** The limit on adapters can be exceeded

    One adapter at a time.  [a] runs with the first adapter but waits for room
    in the encoder cache, so the step does not count its adapter and admits
    [b] with the second one. *)
Definition lora_request_of (n : Z) : option LoRARequest := Some (mkLoRARequest "adapter" n).
Definition too_many_loras : M lsched (list SchedulerOutput) :=
  add_request (image_request "c" ten [6]);;
  add_request (with_lora (lora_request_of 1) (image_request "a" (take 8 ten) [4]));;
  o1 ← step_with [("c"%string, []); ("a"%string, [])];
  add_request (with_lora (lora_request_of 2) (sample_request "b" [1; 3; 4]));;
  o2 ← step_with [("c"%string, [5]); ("b"%string, [5])];
  mret [o1; o2].

(** Adapters are counted over the running requests scheduled in the step
    only; a running request that got no tokens does not count, another adapter
    is admitted, and the step in which both have tokens fails its assertion. *)
Theorem lora_limit_exceeded :
  match init_scheduler (sample_init 12 8 4 (Some 1)) sample_kv_config [4] None with
  | Ok s0 =>
      match too_many_loras s0 with
      | Ret _ s => running s = ["c"; "a"; "b"]%string /\
          match run_schedule s with Raise AssertionError _ => True | _ => False end
      | Raise _ _ => False
      end
  | Err _ => False
  end.
Proof. vm_compute. split; [reflexivity|exact I]. Qed.

(** *** Witnesses *)

Abbreviation sample_step := (sched_step code_hash (-1) (fun _ => false) (fun _ l => l)).

(** A new scheduler, one request added, one step scheduled. *)
Definition sample_run : option (lsched * lsched * SchedulerOutput * lsched) :=
  match init_scheduler (sample_init 12 0 8 None) sample_kv_config [4] None with
  | Ok s0 => match add_request (sample_request "a" [1; 3; 4]) s0 with
    | Ret _ s1 => match run_schedule s1 with
      | Ret out s2 => Some (s0, s1, out, s2)
      | Raise _ _ => None
      end
    | Raise _ _ => None
    end
  | Err _ => None
  end.

Lemma sample_run_spec :
  exists s0 s1 out s2, sample_run = Some (s0, s1, out, s2) /\
    init_scheduler (sample_init 12 0 8 None) sample_kv_config [4] None = Ok s0 /\
    rtc sample_step (s0, None) (s1, None) /\ rtc sample_step (s0, None) (s2, Some out) /\
    sched_inv s1 /\ sched_inv s2 /\ pending out s2 /\ running s1 = [] /\ running s2 = ["a"%string] /\
    num_spec_tokens (cfg s2) = 0.
Proof.
  assert (Hrun : match sample_run with
    | Some (_, s1, _, s2) => running s1 = [] /\ running s2 = ["a"%string] /\ num_spec_tokens (cfg s2) = 0
      | None => False end) by (vm_compute; split_and!; reflexivity).
  unfold sample_run in *. destruct (init_scheduler _ _ _ _) as [s0|] eqn:E0; [|done].
  destruct (add_request _ s0) as [[] s1|] eqn:E1; [|done].
  destruct (run_schedule s1) as [out s2|] eqn:E2; [|done].
  destruct (init_inv _ _ _ s0 (sample_covered 12 0 8 ltac:(lia)) E0) as (Hs0 & Hc & _ & _ & Hreq).
  assert (Ha : addable s0 (sample_request "a" [1; 3; 4])).
  { split; [rewrite Hreq; set_solver|by left|done|rewrite Hc; vm_compute; split; congruence]. }
  assert (H1 : sample_step (s0, None) (s1, None)) by (by eapply step_add).
  assert (H2 : sample_step (s1, None) (s2, Some out)) by (by eapply step_schedule).
  assert (Hi0 : reachable_inv (s0, None)) by (by split).
  pose proof (sched_step_inv _ _ _ _ _ _ Hi0 H1) as Hi1. pose proof (sched_step_inv _ _ _ _ _ _ Hi1 H2) as Hi2.
  exists s0, s1, out, s2. split; [done|]. split; [done|]. split; [by eapply rtc_once|].
  split; [by eapply rtc_l, rtc_once|]. split; [apply Hi1|]. split; [apply Hi2|]. split; [by apply Hi2|done].
Qed.

Lemma scheduler_never_raises_witness :
  exists (s0 s : lsched) out, rtc sample_step (s0, None) (s, Some out) /\
    (exists out2 s', schedule code_hash (-1) s = Ret out2 s').
Proof.
  destruct sample_run_spec as (s0 & s1 & out & s2 & _ & E0 & _ & Hr & _). exists s0, s2, out. split; [exact Hr|].
  apply (scheduler_never_raises code_hash (-1) (fun _ => false) (fun _ l => l) _ _ _ s0 s2 (Some out)
    (sample_covered 12 0 8 ltac:(lia)) E0 Hr).
Defined.

Lemma scheduler_releases_blocks_witness :
  exists s : lsched, get_num_free_blocks (block_pool (coordinator (kv_cache_manager s))) =
    num_gpu_blocks (block_pool (coordinator (kv_cache_manager s))) - 1.
Proof.
  destruct sample_run_spec as (s0 & s1 & out & s2 & _ & E0 & Hr & _ & _ & _ & _ & Hrun & _ & _). exists s1.
  apply (scheduler_releases_blocks code_hash (-1) (fun _ => false) (fun _ l => l) _ _ _ s0 s1 None
    (sample_covered 12 0 8 ltac:(lia)) E0 Hr Hrun).
Defined.

Lemma schedule_spec_witness :
  exists (s : lsched) out s', schedule code_hash (-1) s = Ret out s' /\ total_num_scheduled_tokens out <= 12.
Proof.
  destruct sample_run_spec as (s0 & s1 & out & s2 & Er & _ & _ & _ & Hs & _).
  destruct (schedule_spec code_hash (-1) s1 Hs) as (out' & s' & E & _ & _ & _ & Hb & _).
  exists s1, out', s'. split; [exact E|]. vm_compute in Er. injection Er as _ <- _ _. exact Hb.
Defined.

Lemma preempt_loop_spec_witness :
  exists s : lsched, running s = ["a"%string] /\
    wp (preempt_loop code_hash (-1) (length (running s)) "a" 5 0) (fun res s' => waiting s' = rev res.2 ++ waiting s) s.
Proof.
  destruct sample_run_spec as (s0 & s1 & out & s2 & _ & _ & _ & _ & _ & Hs & _ & _ & Hr & _).
  exists s2. split; [exact Hr|].
  eapply wp_mono; [apply (preempt_loop_spec code_hash (-1) s2 5 0 "a"%string [] [] Hs Hr); discriminate|].
  intros res s' (Hw & _). exact Hw.
Defined.

Lemma running_loop_exits_witness :
  exists s : lsched, running s = ["a"%string] /\
    wp (running_loop code_hash (-1) (length (running s)) (init_local (cfg s))) (fun l' s' => running_exit l' s') s.
Proof.
  destruct sample_run_spec as (s0 & s1 & out & s2 & _ & _ & _ & _ & _ & Hs & _ & _ & Hr & _).
  exists s2. split; [exact Hr|].
  eapply wp_mono; [apply (running_loop_exits code_hash (-1) s2 Hs)|]. intros l' s' [He _]. exact He.
Defined.

Lemma try_schedule_encoder_inputs_spec_witness :
  exists (s : lsched) inputs num_new budget,
    _try_schedule_encoder_inputs s (image_request "b" (take 8 ten) [0; 4]) 0 8 8 = Ok (inputs, num_new, budget) /\
    0 <= num_new <= 8 /\ 0 <= budget.
Proof.
  destruct sample_run_spec as (s0 & _). exists s0.
  assert (Hsort : StronglySorted (fun p q => offset p <= offset q) (mm_positions (image_request "b" (take 8 ten) [0; 4]))).
  { repeat constructor; simpl; lia. }
  destruct (try_schedule_encoder_inputs_spec s0 (image_request "b" (take 8 ten) [0; 4]) 0 8 8 ltac:(lia) ltac:(lia) eq_refl Hsort)
    as (inputs & n & b & E & [Hn [Hb _] _ _]).
  exists inputs, n, b. split; [exact E|]. split; [exact Hn|exact Hb].
Defined.

Lemma finish_requests_spec_witness :
  exists (s s' : lsched), finish_requests ["a"; "unknown"]%string FINISHED_ABORTED s = Ret tt s' /\ sched_inv s'.
Proof.
  destruct sample_run_spec as (s0 & s1 & out & s2 & _ & _ & _ & _ & _ & Hs & _).
  destruct (finish_requests_spec s2 ["a"; "unknown"]%string FINISHED_ABORTED Hs eq_refl) as (s' & E & Hs' & _).
  exists s2, s'. split; [exact E|exact Hs'].
Defined.

Lemma update_from_output_spec_witness :
  exists (s s' : lsched) so res,
    update_from_output (fun _ => false) (fun _ l => l) so (results_of [("a"%string, [5])]) s = Ret res s' /\ sched_inv s'.
Proof.
  destruct sample_run_spec as (s0 & s1 & out & s2 & _ & _ & _ & _ & _ & Hs & Hp & _ & Hr & Hsp).
  assert (Hro : runner_ok out (results_of [("a"%string, [5])]) s2).
  { split; [reflexivity|]. rewrite Hr. constructor; [|constructor]. intros n _.
    exists 0%nat, [5]. split; [reflexivity|]. split; [reflexivity|].
    split; [intros _; split; [discriminate|rewrite Hsp; vm_compute; discriminate]|]. split; [discriminate|]. intros spec Hspec. discriminate Hspec. }
  destruct (update_from_output_spec (fun _ => false) (fun _ l => l) s2 out _ Hs Hp Hro) as (res & s' & E & Hs' & _).
  exists s2, s', out, res. split; [exact E|exact Hs'].
Defined.
