(* ===== verification/SchedulerProgress.v ===== *)
(** Progress of the scheduler of [vllm/v1/core/sched/scheduler.py].

    When the KV cache has room for one request of the maximal length besides
    the null block, the request first in line is scheduled by every step
    ([oldest_request_progresses]), so it finishes within as many rounds of
    scheduling and results as the model has positions
    ([oldest_request_finishes]): preemption starves nobody who is first. *)

From Stdlib Require Import ZArith Lia Sorted.
From stdpp Require Import base strings numbers gmap list relations.
From S2P Require Import Prelude.
From S2P Require Import KVBlock.
From S2P Require Import FreeQueue.
From S2P Require Import LinkedQueue.
From S2P Require Import HPUQueue.
From S2P Require Import Request.
From S2P Require Import BlockHashing.
From S2P Require Import KVSpec.
From S2P Require Import BlockPool.
From S2P Require Import SingleType.
From S2P Require Import Coordinator.
From S2P Require Import KVManager.
From S2P Require Import EncoderCache.
From S2P Require Import Scheduler.
From S2P Require Import SchedulerSpec.
From S2P Require Import SchedulerLife.

Open Scope Z_scope.

(** ** Room for one request *)

Section room.
Context {Q C : Type} `{FreeBlockQueueSpec Q}.
Abbreviation pool_of k := (block_pool (coordinator k)).
Abbreviation managers_of k := (single_type_managers (coordinator k)).

(** The blocks, without the null block, hold a request of the maximal length. *)
Definition room (k : KVCacheManager Q) : Prop :=
  Z.of_nat (num_kv_cache_groups k) * cdiv (kv_max_model_len k) (kv_block_size k) <= num_gpu_blocks (pool_of k) - 1.

Lemma room_shape (k k' : KVCacheManager Q) : kv_shape k' = kv_shape k -> room k -> room k'.
Proof. unfold kv_shape, room. by intros [= -> -> -> ->]. Qed.

(** A block that is held is in the table of some request. *)
Lemma held_in_table m i : 0 < held m i -> exists id, i ∈ req_blocks m id.
Proof.
  unfold held, table_blocks. rewrite occ_pos_iff, list_elem_of_In, in_concat. intros (bs & Hbs & Hi).
  apply list_elem_of_In, list_elem_of_fmap in Hbs as ([id bs'] & -> & Hin%elem_of_map_to_list).
  exists id. unfold req_blocks, dd_get. rewrite Hin. by apply list_elem_of_In.
Qed.

Lemma totals_in_table ms i : 0 < totals ms i -> exists id, i ∈ concat (tables ms id).
Proof.
  induction ms as [|m ms IH]; cbn [totals foldr]; [lia|]. fold (totals ms i). intros Hi.
  pose proof (occ_nonneg i (table_blocks (req_to_blocks m))) as Hm. fold (held m i) in Hm.
  destruct (decide (0 < held m i)) as [Hp|Hz].
  - destruct (held_in_table m i Hp) as [id Hid]. exists id. rewrite tables_cons. cbn [concat]. set_solver.
  - destruct IH as [id Hid]; [lia|]. exists id. rewrite tables_cons. cbn [concat]. set_solver.
Qed.

Lemma aligned_concat (bss : list (list nat)) n : aligned bss n -> length (concat bss) = (length bss * n)%nat.
Proof. induction 1 as [|bs bss Hb _ IH]; [done|]. cbn [concat length]. rewrite length_app, Hb, IH. lia. Qed.

(** If only [id] has blocks, what is not free is in its tables. *)
Lemma blocks_of_one (k : KVCacheManager Q) l id n :
  kv_inv k l -> tables_ok k [id] -> aligned (tables (managers_of k) id) n ->
  num_gpu_blocks (pool_of k) - 1 <= len l + Z.of_nat (num_kv_cache_groups k) * Z.of_nat n.
Proof.
  intros Hk Hone Hal. pose proof (ki_pool _ _ Hk) as Hp. destruct (free_list_submseteq _ _ Hp) as [_ Hlen].
  set (s := without (null_block (pool_of k)) (seq 0 (length (blocks (pool_of k))))) in *.
  assert (Hsub : s ⊆+ l ++ concat (tables (managers_of k) id)).
  { apply NoDup_submseteq; [apply NoDup_without, NoDup_seq|]. intros i.
    unfold s. rewrite elem_of_without, elem_of_seq. intros [Hi Hn]. apply elem_of_app.
    destruct (decide (refs (pool_of k) i = 0)) as [Hz|Hnz].
    - left. apply (pi_free_iff _ _ _ Hp); [lia|done].
    - right. pose proof (pi_refs_nonneg _ _ i Hp ltac:(lia) Hn) as Hnn.
      rewrite (ki_refs _ _ Hk i Hn) in *. destruct (totals_in_table (managers_of k) i) as [id' Hid']; [lia|].
      destruct (decide (id' = id)) as [->|Hne]; [done|]. exfalso.
      assert (Hno : no_blocks k id') by (apply Hone; set_solver).
      apply no_blocks_aligned, concat_empty in Hno. rewrite Hno in Hid'. by apply not_elem_of_nil in Hid'. }
  apply submseteq_length in Hsub. rewrite length_app, (aligned_concat _ n Hal), length_tables in Hsub.
  rewrite (ki_groups _ _ Hk) in Hsub. rewrite (pb_num _ _ (pi_base _ _ Hp)). unfold len. lia.
Qed.

Context (hash_fn : Z * list Z * option (list ExtraKey) -> Z) (NONE_HASH : Z).

(** Whoever is alone in the cache gets its slots. *)
Lemma allocate_alone log (k k' : KVCacheManager Q) r n ncb num_draft num_lookahead :
  kv_ok log k -> n <> 0 -> (ncb = None \/ ncb = Some (create_empty_block_list k)) -> room k ->
  tables_ok k [request_id r] ->
  allocate_slots hash_fn NONE_HASH r n 0 ncb num_draft num_lookahead false k <> Ret None k'.
Proof.
  intros Hkok Hn Hncb Hroom Hone Hrun. pose proof Hkok as [[l Hk] Hoff Hf _ _].
  assert (Hnb : hits_of k ncb = create_empty_block_list k) by (by destruct Hncb as [-> | ->]).
  assert (Hal : aligned (hits_of k ncb) 0)
    by (rewrite Hnb; unfold create_empty_block_list; by apply Forall_replicate).
  destruct (aligned_exists k l (request_id r) Hk) as (m & Hm & _).
  pose proof (allocate_slots_spec_aux hash_fn NONE_HASH k l r n 0 ncb num_draft num_lookahead false 0 m
    ltac:(intros E; congruence) Hk
    (full_alloc_pre k l r (hits_of k ncb) Hk Hf ltac:(rewrite Hnb; apply length_replicate) Hal) Hm Hn) as T.
  cbv zeta in T. rewrite Hrun in T. destruct T as ((l' & Hk' & Hlt) & Hal' & _ & Hsame & Hframe).
  assert (Hone' : tables_ok k' [request_id r]).
  { intros id Hid. unfold no_blocks. rewrite Hsame by set_solver. by apply Hone. }
  pose proof (blocks_of_one k' l' (request_id r) m Hk' Hone' Hal') as Hcount.
  unfold evictable_count in Hlt. rewrite (concat_empty _ Hal) in Hlt. change (len (filter _ [])) with 0 in Hlt.
  pose proof (kv_frame_shape _ _ Hframe) as Hsh. pose proof (room_shape _ _ Hsh Hroom) as Hroom'.
  destruct Hframe as (E1 & _ & E3 & E4 & _). unfold room in Hroom'. rewrite E1, E3, E4 in Hroom'. rewrite E4 in Hcount.
  destruct (ki_bs _ _ Hk) as [Hbs _].
  pose proof (cdiv_mono (tokens_need_slot k r n 0 num_lookahead) (kv_max_model_len k) (kv_block_size k) Hbs
    ltac:(unfold tokens_need_slot; lia)) as Hmono.
  set (need := cdiv (tokens_need_slot k r n 0 num_lookahead) (kv_block_size k)) in *. nia.
Qed.
End room.

(** ** What holds of a value if it is returned *)

Definition after {S A} (m : M S A) (P : A -> S -> Prop) (s : S) : Prop := forall a s', m s = Ret a s' -> P a s'.

Lemma after_ret {S A} (a : A) (P : A -> S -> Prop) s : P a s -> after (mret a) P s.
Proof. by intros HP a' s' [= <- <-]. Qed.

Lemma after_bind {S A B} (m : M S A) (f : A -> M S B) P s :
  after m (fun a s' => after (f a) P s') s -> after (mbind f m) P s.
Proof.
  unfold after, mbind, M_mbind, M_bind. intros Hm b s' E. destruct (m s) as [a s1|] eqn:Em; [|done].
  by apply (Hm a s1).
Qed.

Lemma after_any {S A} (m : M S A) (P : A -> S -> Prop) s : (forall a s', P a s') -> after m P s.
Proof. by intros HP a s' _. Qed.

Lemma after_mono {S A} (m : M S A) (P P' : A -> S -> Prop) s :
  after m P s -> (forall a s', P a s' -> P' a s') -> after m P' s.
Proof. intros Hm HP a s' E. by apply HP, Hm. Qed.

(** What is known of a run that returns, and that it returns. *)
Lemma after_of_wp {S A} (m : M S A) (P : A -> S -> Prop) s : wp m P s -> after m P s.
Proof. unfold wp, after. intros Hm a s' E. by rewrite E in Hm. Qed.

Lemma wp_after {S A} (m : M S A) (P P' : A -> S -> Prop) s :
  wp m P s -> after m P' s -> wp m (fun a s' => P a s' /\ P' a s') s.
Proof. unfold wp, after. intros Hm Ha. destruct (m s) as [a s'|]; [|done]. split; [done|by apply Ha]. Qed.

(** ** The head of the running requests is never preempted *)

Section progress.
Context {Q C : Type} `{FreeBlockQueueSpec Q, KVConnector C}.
Abbreviation sched := (Scheduler Q C).
Context (hash_fn : Z * list Z * option (list ExtraKey) -> Z) (NONE_HASH : Z).

Lemma preempt_loop_head s0 sk n nd id : n <> 0 -> forall fuel post (s : sched),
  sched_inv s0 -> mid_inv s0 s sk -> room (kv_cache_manager s) -> running s = id :: post ->
  tables_ok (kv_cache_manager s) (running s) -> (length post < fuel)%nat ->
  after (preempt_loop hash_fn NONE_HASH fuel id n nd) (fun res _ => is_Some res.1) s.
Proof.
  intros Hn. induction fuel as [|fuel IH]; intros post s Hs0 Hm Hroom Hrun Htab Hf; [lia|].
  assert (Hid : request_id (req_of s id) = id).
  { pose proof (mi_running _ _ _ Hm) as Hr. rewrite Forall_forall in Hr. apply (Hr id). rewrite Hrun. set_solver. }
  cbn [preempt_loop]. unfold get_req. apply after_bind. intros _ s1 [= <- <-]. apply after_bind. intros r s1 [= <- <-].
  apply after_bind. set (alloc := kv_op _).
  assert (Hw : wp alloc (fun res s' => mid_inv s0 s' sk /\ room (kv_cache_manager s') /\ running s' = id :: post /\
    tables_ok (kv_cache_manager s') (if res is Some _ then id :: running s else running s)) s).
  { apply (wp_kv_allocate hash_fn NONE_HASH s0 sk s); [done|done|by left|done|].
    intros res k' Hm' Hk1 Hk2. split; [done|]. split; [|split; [done|]].
    - apply (room_shape (kv_cache_manager s)); [|done].
      etrans; [exact (mi_shape _ _ _ Hm')|symmetry; exact (mi_shape _ _ _ Hm)].
    - destruct res; [by rewrite <- Hid at 1|by apply Hk2]. }
  eapply after_mono; [apply after_of_wp, (wp_after _ _ (fun res _ => post = [] -> is_Some res) _ Hw)|].
  { intros res s' E ->. unfold alloc, kv_op, zoom in E. destruct (allocate_slots _ _ _ _ _ _ _ _ _ _) as [res' k'|] eqn:Ea; [|done].
    injection E as <- _. destruct res'; [done|]. exfalso.
    apply (allocate_alone hash_fn NONE_HASH _ _ _ _ _ _ _ _ (mi_kv _ _ _ Hm) Hn (or_introl eq_refl) Hroom) in Ea; [done|].
    by rewrite Hid, <- Hrun. }
  intros [blocks|] s1 [(Hm1 & Hroom1 & Hrun1 & Ht1) Halone]; [by apply after_ret|].
  destruct post as [|p post _] using rev_ind; [by destruct (Halone eq_refl)|].
  apply after_bind. intros _ s2 [= <- <-]. rewrite Hrun1, app_comm_cons, last_snoc. apply after_bind.
  rewrite length_app, take_app_length' by (simpl; lia).
  eapply after_mono; [apply after_of_wp, (wp_preempt hash_fn NONE_HASH s0 s1 sk p (id :: post) Hs0 Hm1); [done|by rewrite Hrun1, <- Hrun]|].
  intros [] s2 (Hm2 & Ht2 & Hr2 & _). rewrite decide_False.
  - apply after_bind. eapply after_mono; [apply (IH post s2 Hs0 Hm2)|].
    + apply (room_shape (kv_cache_manager s1)); [|done]. by rewrite (mi_shape _ _ _ Hm2), (mi_shape _ _ _ Hm1).
    + done.
    + by rewrite Hr2.
    + rewrite length_app in Hf. simpl in Hf. lia.
    + intros [res ps] s3 Hres. by apply after_ret.
  - intros ->. pose proof (mi_nodup _ _ _ Hs0 Hm) as Hnd. rewrite Hrun in Hnd.
    apply NoDup_app in Hnd as [Hnd _]. apply NoDup_cons in Hnd as [Hnin _]. set_solver.
Qed.

(** ** A scheduled request stays scheduled *)

Definition in_step (id : string) (l : Local) : Prop := is_Some (l_num_scheduled l !! id).

(** Whatever an operation returns, go on after it. *)
Ltac after_next := apply after_bind, after_any.

Lemma running_one_keeps id x l (s : sched) : in_step id l ->
  after (schedule_running_one hash_fn NONE_HASH x l) (fun st _ =>
    match st with Continue l' | Break l' => in_step id l' end) s.
Proof.
  intros Hl. unfold schedule_running_one. after_next. intros s1 ?. after_next. intros [[inputs n] eb] ?.
  destruct (n =? 0); [by apply after_ret|]. after_next. intros [[blocks|] ps] ?; [|by apply after_ret].
  after_next. intros spec ?. after_next. intros ? ?. apply after_ret. apply lookup_insert_is_Some'. by right.
Qed.

Lemma running_loop_keeps id fuel : forall l (s : sched), in_step id l ->
  after (running_loop hash_fn NONE_HASH fuel l) (fun l' _ => in_step id l') s.
Proof.
  induction fuel as [|fuel IH]; intros l s Hl; cbn [running_loop]; after_next; intros s1 ?;
    (destruct (running s1 !! req_index l); [|by apply after_ret]); [by apply after_ret|].
  destruct (0 <? token_budget l); [|by apply after_ret]. apply after_bind.
  eapply after_mono; [by apply running_one_keeps|]. intros [l'|l'] s2 Hl'; [by apply IH|by apply after_ret].
Qed.

Lemma record_loras_keeps id l (s : sched) : in_step id l -> after (record_loras l) (fun l' _ => in_step id l') s.
Proof.
  intros Hl. unfold record_loras. after_next. intros s1 ?. destruct (max_loras _); [|by apply after_ret].
  after_next. intros ? ?. by apply after_ret.
Qed.

Lemma skip_request_keeps id x rest l (s : sched) : in_step id l ->
  after (skip_request x rest l) (fun st _ => match st with Continue l' | Break l' => in_step id l' end) s.
Proof. intros Hl. unfold skip_request. after_next. intros ? ?. by apply after_ret. Qed.

(** A request that is let in is scheduled, and nobody is dropped for it. *)
Lemma admit_request_schedules id x l h inputs n eb (s : sched) : x = id \/ in_step id l ->
  after (admit_request x l h inputs n eb) (fun st _ => exists l', st = Continue l' /\ in_step id l') s.
Proof.
  intros Hl. unfold admit_request. after_next. intros r ?. after_next. intros ? ?. after_next. intros s1 ?.
  after_next. intros ? ?. after_next. intros [news resumed] ?. after_next. intros s2 ?. cbv zeta.
  after_next. intros ? ?. after_next. intros ? ?. after_next. intros ? ?. after_next. intros ? ?.
  apply after_ret. eexists. split; [done|]. apply lookup_insert_is_Some'. destruct Hl; [by left|by right].
Qed.

Lemma waiting_one_keeps id x rest l (s : sched) : in_step id l ->
  after (schedule_waiting_one hash_fn NONE_HASH x rest l) (fun st _ =>
    match st with Continue l' | Break l' => in_step id l' end) s.
Proof.
  intros Hl. unfold schedule_waiting_one. after_next. intros skip ?.
  destruct skip; [by apply skip_request_keeps|]. after_next. intros h ?. after_next.
  intros [[[inputs n] eb]|] ?; [|by apply after_ret]. after_next. intros s1 ?. after_next. intros r ?. after_next.
  intros [blks|] ?; [|by apply after_ret]. after_next. intros ? ?. destruct (h_async h).
  - apply after_bind. eapply after_mono; [by apply skip_request_keeps|]. intros st s2 Hst.
    after_next. intros ? ?. by apply after_ret.
  - after_next. intros _ s2. eapply after_mono; [apply admit_request_schedules; by right|].
    by intros st s3 (l' & -> & Hl').
Qed.

Lemma waiting_loop_keeps id fuel : forall l (s : sched), in_step id l ->
  after (waiting_loop hash_fn NONE_HASH fuel l) (fun l' _ => in_step id l') s.
Proof.
  induction fuel as [|fuel IH]; intros l s Hl; cbn [waiting_loop]; after_next; intros s1 ?;
    (destruct (waiting s1) as [|x rest]; [by apply after_ret|]); [by apply after_ret|].
  destruct (0 <? token_budget l); [|by apply after_ret]. destruct (_ =? _); [by apply after_ret|]. apply after_bind.
  eapply after_mono; [by apply waiting_one_keeps|]. intros [l'|l'] s2 Hl'; [by apply IH|by apply after_ret].
Qed.

(** ** The first iteration *)

Lemma running_head_step (s : sched) id post :
  sched_inv s -> room (kv_cache_manager s) -> running s = id :: post -> has_encoder_inputs (req_of s id) = false ->
  let l := init_local (cfg s) in 0 < num_new_tokens_running (cfg s) (req_of s id) (token_budget l) ->
  after (schedule_running_one hash_fn NONE_HASH id l) (fun st _ => exists l', st = Continue l' /\ in_step id l') s.
Proof.
  intros Hs Hroom Hrun Henc l Hn. unfold schedule_running_one. apply after_bind. intros _ s1 [= <- <-]. cbv zeta.
  rewrite Henc. apply after_bind. intros _ s1 [= <- <-]. set (n := num_new_tokens_running _ _ _) in *.
  destruct (Z.eqb_spec n 0) as [E|_]; [lia|]. apply after_bind. eapply after_mono.
  { apply (preempt_loop_head s [] _ _ id) with (post := post); [lia|done|by apply mid_inv_start|done|exact Hrun|apply (si_tables _ Hs)|].
    rewrite Hrun. simpl. lia. }
  intros [[blocks|] ps] s1 Hsome; [|by destruct Hsome]. after_next. intros spec ?. after_next. intros ? ?.
  apply after_ret. eexists. split; [done|]. apply lookup_insert_is_Some'. by left.
Qed.

(** A request whose grammar is not compiled yet is passed over. *)
Definition grammar_wait (r : Request) : bool := bool_decide (status r = WAITING_FOR_FSM) && negb (grammar_ready r).

Lemma must_skip_value (s : sched) l id :
  status (req_of s id) <> WAITING_FOR_REMOTE_KVS -> max_loras (cfg s) = None ->
  after (must_skip hash_fn NONE_HASH id l) (fun b s' => b = grammar_wait (req_of s id) /\ (b = true -> s' = s)) s.
Proof.
  intros Hst Hml. unfold must_skip, grammar_wait, get_req. apply after_bind. intros r s1 [= <- <-]. rewrite decide_False by done.
  apply after_bind. intros nr s1 [= <- <-]. apply after_bind. intros r s1 [= <- <-]. apply after_bind. case_decide as Hf.
  - rewrite bool_decide_eq_true_2 by done. destruct (grammar_ready (req_of s id)).
    + apply after_bind. intros [] s1 E. injection E as <-. apply after_ret. apply after_bind. intros s2 s3 [= <- <-].
      cbn [cfg set_heap]. rewrite Hml. by apply after_ret.
    + apply after_ret. by apply after_ret.
  - rewrite bool_decide_eq_false_2 by done. apply after_ret. apply after_bind. intros _ s2 [= <- <-]. rewrite Hml.
    by apply after_ret.
Qed.

Lemma blocked_step s0 (s : sched) l x rest :
  sched_inv s0 -> wait_inv s0 s l -> waiting s = x :: rest -> grammar_wait (req_of s x) = true ->
  after (schedule_waiting_one hash_fn NONE_HASH x rest l) (fun st s' => exists l', st = Continue l' /\
    s' = set_waiting rest s /\ token_budget l' = token_budget l /\ wait_inv s0 s' l') s.
Proof.
  intros Hs0 Hl Hw Hg. pose proof (li_mid _ _ _ (wi_loop _ _ _ Hl)) as Hm.
  assert (Hml : max_loras (cfg s) = None) by (rewrite (mi_cfg _ _ _ Hm); apply (si_loras _ Hs0)).
  unfold schedule_waiting_one. apply after_bind. eapply after_mono; [apply must_skip_value; [|done]|].
  { unfold grammar_wait in Hg. apply andb_true_iff in Hg as [Hg%bool_decide_eq_true _]. by rewrite Hg. }
  intros b s1 [-> Hs1]. rewrite (Hs1 Hg), Hg. pose proof (wp_skip_request s0 s l x rest Hl Hw) as Hskip.
  unfold skip_request in *. apply wp_elim in Hskip as (st & s2 & E & Hpost). intros st' s2' E'.
  rewrite E in E'. injection E' as <- <-. injection E as <- <-. eexists. split; [done|]. split; [done|]. split; [done|].
  apply Hpost.
Qed.

Lemma new_tokens_alone (s : sched) id l blks :
  has_encoder_inputs (req_of s id) = false ->
  after (new_tokens_waiting id l (mkHits blks 0 0 false 0)) (fun res s' => s' = s /\
    exists inputs n b, res = Some (inputs, n, b) /\ 0 < n) s.
Proof.
  intros Henc. unfold new_tokens_waiting. apply after_bind. intros _ s1 [= <- <-]. simpl. apply after_bind.
  intros [] s1 E. unfold py_assert in E. destruct (0 <? _) eqn:En; [|done]. injection E as <-. rewrite Henc.
  apply after_ret. split; [done|]. eexists _, _, _. split; [done|lia].
Qed.

Lemma waiting_head_step s0 (s : sched) l id rest :
  sched_inv s0 -> wait_inv s0 s l -> room (kv_cache_manager s) -> running s = [] -> waiting s = id :: rest ->
  0 < token_budget l -> has_encoder_inputs (req_of s id) = false -> grammar_wait (req_of s id) = false ->
  after (schedule_waiting_one hash_fn NONE_HASH id rest l) (fun st _ => exists l', st = Continue l' /\ in_step id l') s.
Proof.
  intros Hs0 Hl Hroom Hrun Hw Hb Henc Hg. pose proof (li_mid _ _ _ (wi_loop _ _ _ Hl)) as Hm.
  assert (Hwok : forall s', mid_inv s0 s' (l_skipped l) -> waiting s' = id :: rest -> waiting_ok s' id).
  { intros s' Hm' Hw'. apply (proj1 (Forall_forall _ _) (mi_waiting _ _ _ Hm') id). rewrite Hw'. set_solver. }
  unfold schedule_waiting_one. apply after_bind.
  eapply after_mono; [apply after_of_wp, wp_after;
    [by apply (wp_must_skip hash_fn NONE_HASH s0 s l (l_skipped l) id rest)|apply must_skip_value]|].
  { destruct (Hwok s Hm Hw) as (_ & [Hst|[Hst|Hst]] & _); by rewrite Hst. }
  { rewrite (mi_cfg _ _ _ Hm). apply (si_loras _ Hs0). }
  intros skip s1 [(h & -> & Hm1 & Hq1 & _) [-> _]]. rewrite Hg. set (s1 := set_heap h s) in *.
  destruct (Hwok s1 Hm1 Hw) as ((Hid & _) & Hst & Hnc).
  apply after_bind. eapply after_mono; [by apply after_of_wp, (wp_find_hits hash_fn NONE_HASH s0 s1 _ id Hs0 Hm1)|].
  intros hits s2 [-> ->]. apply after_bind.
  eapply after_mono; [apply new_tokens_alone|].
  { pose proof (mi_inputs _ _ _ Hm1 id) as E1. pose proof (mi_inputs _ _ _ Hm id) as E2.
    unfold has_encoder_inputs, inputs_of in *. congruence. }
  intros res s2 (-> & inputs & n & eb & -> & Hn). apply after_bind. intros _ s2 [= <- <-]. apply after_bind.
  intros r s2 [= <- <-]. apply after_bind. intros [blks|] s2 E.
  - after_next. intros ? ?. simpl. after_next. intros ? ?. apply admit_request_schedules. by left.
  - exfalso. unfold kv_op, zoom in E. destruct (allocate_slots _ _ _ _ _ _ _ _ _ _) as [res' k'|] eqn:Ea; [|done].
    injection E as -> <-. revert Ea. apply (allocate_alone hash_fn NONE_HASH (sched_log_stats (cfg s1))).
    + apply (mi_kv _ _ _ Hm1).
    + simpl. lia.
    + by right.
    + done.
    + pose proof (wi_tables _ _ _ Hl) as Ht. rewrite Hrun in Ht.
      apply (tables_ok_mono _ []); [by intros ? ?%not_elem_of_nil|exact Ht].
Qed.

Lemma waiting_loop_head s0 id rest fuel : forall blocked l (s : sched),
  sched_inv s0 -> wait_inv s0 s l -> room (kv_cache_manager s) -> running s = [] ->
  waiting s = blocked ++ id :: rest -> (length blocked < fuel)%nat ->
  0 < token_budget l -> 0 < max_num_running_reqs (cfg s) ->
  Forall (fun x => grammar_wait (req_of s x) = true) blocked ->
  has_encoder_inputs (req_of s id) = false -> grammar_wait (req_of s id) = false ->
  after (waiting_loop hash_fn NONE_HASH fuel l) (fun l' _ => in_step id l') s.
Proof.
  induction fuel as [|fuel IH]; intros blocked l s Hs0 Hl Hroom Hrun Hw Hf Hb Hmax Hbl Henc Hg; [lia|].
  cbn [waiting_loop]. apply after_bind. intros s1 s2 [= <- <-].
  assert (E : (len (running s) =? max_num_running_reqs (cfg s)) = false) by (rewrite Hrun; apply Z.eqb_neq; change (len []) with 0; lia).
  rewrite Hw, (proj2 (Z.ltb_lt _ _) Hb). destruct blocked as [|x blocked]; cbn [app]; rewrite E; apply after_bind.
  - eapply after_mono; [by apply (waiting_head_step s0)|]. intros st s1 (l' & -> & Hl'). by apply waiting_loop_keeps.
  - apply Forall_cons in Hbl as [Hx Hbl]. eapply after_mono; [by apply (blocked_step s0)|].
    intros st s1 (l' & -> & -> & Hb' & Hl'). simpl in Hf. apply (IH blocked); try done; [lia|by rewrite Hb'].
Qed.

(** First in line: at the head of the running requests with tokens to compute,
    or nothing runs and only requests without a grammar wait before it. *)
Definition first_in_line (s : sched) (id : string) : Prop :=
  (exists rest, running s = id :: rest /\
     0 < num_new_tokens_running (cfg s) (req_of s id) (max_num_scheduled_tokens (cfg s))) \/
  (running s = [] /\ exists blocked rest, waiting s = blocked ++ id :: rest /\
     Forall (fun x => grammar_wait (req_of s x) = true) blocked /\ grammar_wait (req_of s id) = false).

Lemma finish_schedule_nums l (s : sched) :
  after (finish_schedule l) (fun out _ => num_scheduled_tokens out = l_num_scheduled l) s.
Proof.
  unfold finish_schedule. repeat (after_next; intros ? ?; cbv beta zeta). by apply after_ret.
Qed.

Lemma schedule_first_in_line (s : sched) id :
  sched_inv s -> room (kv_cache_manager s) -> 0 < max_num_scheduled_tokens (cfg s) ->
  0 < max_num_running_reqs (cfg s) -> has_encoder_inputs (req_of s id) = false -> first_in_line s id ->
  after (schedule hash_fn NONE_HASH) (fun out _ => is_Some (num_scheduled_tokens out !! id)) s.
Proof.
  intros Hs Hroom Hb Hmax Henc Hfirst. unfold schedule. apply after_bind. intros s1 s2 [= <- <-].
  assert (Hend : forall l s', in_step id l -> after (finish_schedule l)
    (fun out (_ : sched) => is_Some (num_scheduled_tokens out !! id)) s').
  { intros l s' Hl. eapply after_mono; [apply finish_schedule_nums|]. by intros out s2 ->. }
  destruct Hfirst as [(rest & Hrun & Hn)|(Hrun & blocked & rest & Hw & Hbl & Hg)]; apply after_bind.
  - eapply (after_mono _ (fun l _ => in_step id l)).
    + rewrite Hrun. cbn [length running_loop]. apply after_bind. intros s1 s2 [= <- <-].
      rewrite Hrun. cbn [init_local req_index lookup list_lookup token_budget]. rewrite (proj2 (Z.ltb_lt _ _) Hb).
      apply after_bind. eapply after_mono; [by apply (running_head_step s id rest)|].
      intros st s1 (l' & -> & Hl'). by apply running_loop_keeps.
    + intros l1 s1 Hl1. apply after_bind. eapply after_mono; [by apply record_loras_keeps|]. intros l2 s2 Hl2.
      after_next. intros s3 s4. apply after_bind. destruct (length (l_preempted_reqs l2) =? 0)%nat.
      * eapply after_mono; [apply (waiting_loop_keeps id); exact Hl2|]. intros l3 s5 Hl3. by apply Hend.
      * apply after_ret. by apply Hend.
  - rewrite Hrun. cbn [length running_loop]. apply after_bind. intros s1 s2 [= <- <-]. rewrite Hrun. apply after_ret.
    apply after_bind. unfold record_loras. apply after_bind. intros s1 s2 [= <- <-]. rewrite (si_loras _ Hs).
    apply after_ret. apply after_bind. intros s1 s2 [= <- <-]. apply after_bind. cbn [init_local l_preempted_reqs length Nat.eqb].
    eapply after_mono; [apply (waiting_loop_head s id rest _ blocked); try done|].
    + split; [by apply loop_inv_start| |apply (si_tables _ Hs)]. exists [], []. rewrite app_nil_r. by repeat split.
    + rewrite Hw, length_app. simpl. lia.
    + intros l1 s1 Hl1. by apply Hend.
Qed.

Lemma wp_schedule_first (s : sched) id :
  sched_inv s -> room (kv_cache_manager s) -> 0 < max_num_scheduled_tokens (cfg s) ->
  0 < max_num_running_reqs (cfg s) -> has_encoder_inputs (req_of s id) = false -> first_in_line s id ->
  wp (schedule hash_fn NONE_HASH) (fun out s' => sched_inv s' /\ queues_after s s' /\ pending out s' /\ advanced out s s' /\
    exists n, num_scheduled_tokens out !! id = Some n /\ 1 <= n /\ id ∈ running s') s.
Proof.
  intros Hs Hroom Hb Hmax Henc Hfirst.
  eapply wp_mono; [apply wp_after; [by apply wp_schedule|by apply (schedule_first_in_line s id)]|].
  intros out s' ((Hs' & Hq & _ & _ & Hn & Hp & Ha) & n & En). split_and!; try done. exists n. split; [done|]. by apply Hn.
Qed.

(** ** Rounds

    Requests arrive, a step is scheduled and run, and its results are handed
    in.  The runner answers as the scheduler expects, and samples at least one
    token for a request whose tokens are all computed. *)

Context (should_advance : Request -> bool) (validate_tokens : Request -> list Z -> list Z).

Definition arrives (s s' : sched) : Prop := exists r, addable s r /\ add_request r s = Ret tt s'.

Definition sampled (out : SchedulerOutput) (o : ModelRunnerOutput) (s : sched) : Prop :=
  forall id index generated, id ∈ running s -> is_Some (num_scheduled_tokens out !! id) ->
  num_tokens (req_of s id) <= num_computed_tokens (req_of s id) ->
  req_id_to_index o !! id = Some index -> sampled_token_ids o !! index = Some generated -> generated <> [].

Inductive round : sched -> sched -> Prop :=
  | round_intro s s1 out s2 o res s' :
      rtc arrives s s1 -> schedule hash_fn NONE_HASH s1 = Ret out s2 ->
      runner_ok out o s2 -> sampled out o s2 ->
      update_from_output should_advance validate_tokens out o s2 = Ret res s' -> round s s'.

(** The oldest request: at the head of the running ones and not done, or
    nothing runs and it heads the queue. *)
Definition oldest (s : sched) (id : string) : Prop :=
  (exists rest, running s = id :: rest /\ num_computed_tokens (req_of s id) < num_tokens (req_of s id)) \/
  (running s = [] /\ (exists rest, waiting s = id :: rest) /\ grammar_wait (req_of s id) = false).

Record on_turn (c : SchedConfig) (s : sched) (id : string) : Prop := {
  ot_inv : sched_inv s;
  ot_cfg : cfg s = c;
  ot_room : room (kv_cache_manager s);
  ot_text : has_encoder_inputs (req_of s id) = false;
  ot_oldest : oldest s id
}.

Lemma on_turn_queued c s id : on_turn c s id -> id ∈ running s ++ waiting s.
Proof. intros [_ _ _ _ [(rest & -> & _)|(-> & (rest & ->) & _)]]; by left. Qed.

Lemma on_turn_first c s id : 0 < max_num_scheduled_tokens c -> on_turn c s id -> first_in_line s id.
Proof.
  intros Hb [Hs Hc _ _ [(rest & Hrun & Hn)|(Hrun & (rest & Hw) & Hg)]].
  - left. exists rest. split; [done|]. pose proof (si_running _ Hs) as Hr. rewrite Forall_forall in Hr.
    destruct (Hr id) as ((_ & _ & Hlen) & _); [rewrite Hrun; by left|]. rewrite Hc in *.
    unfold num_new_tokens_running, cap_long_prefill, num_tokens_with_spec in *.
    pose proof (len_nonneg (spec_token_ids (req_of s id))). unfold num_tokens in *.
    destruct (_ && _) eqn:E; [apply andb_true_iff in E as [E1 E2]|]; lia.
  - right. split; [done|]. exists [], rest. by repeat split.
Qed.

(** Arrivals join the end of the queue. *)
Lemma on_turn_arrives c s s' id :
  on_turn c s id -> rtc arrives s s' ->
  on_turn c s' id /\ num_computed_tokens (req_of s' id) = num_computed_tokens (req_of s id).
Proof.
  intros Ho Hr. revert Ho. induction Hr as [s|s s1 s' (r & Ha & E) _ IH]; intros Ho; [done|].
  pose proof (on_turn_queued _ _ _ Ho) as Hid. destruct Ho as [Hs Hc Hroom Htext Hold].
  destruct (wp_result _ _ _ _ _ (wp_add_request hash_fn NONE_HASH s r Hs Ha) E) as (Hs1 & Er & Ew & _ & Ec & Ek & Eo).
  assert (Hne : id <> request_id r) by (intros ->; by apply (ad_fresh _ _ Ha), (queued_live s)).
  assert (Ho1 : on_turn c s1 id).
  { split; [done|congruence|by rewrite Ek|by rewrite Eo|]. unfold oldest. rewrite Er, Ew, Eo by done.
    destruct Hold as [?|(? & (rest & ->) & ?)]; [by left|]. right. split; [done|]. split; [by eexists|done]. }
  destruct (IH Ho1) as [Ho' E']. split; [done|]. by rewrite E', Eo.
Qed.

Lemma sublist_head (x : string) l k : NoDup (x :: k) -> x ∈ l -> sublist l (x :: k) -> exists l', l = x :: l'.
Proof.
  intros [Hx _]%NoDup_cons Hin [Hsub|(l' & -> & _)]%sublist_cons_r; [|by exists l'].
  exfalso. apply Hx. by eapply sublist_subseteq.
Qed.

Lemma oldest_heads (s s' : sched) id :
  sched_inv s -> oldest s id -> queues_after s s' -> id ∈ running s' -> exists rest, running s' = id :: rest.
Proof.
  intros Hs Hold Hq Hid. pose proof (si_nodup _ Hs) as Hnd.
  destruct Hold as [(rest & Hrun & _)|(Hrun & (rest & Hw) & _)], Hq as
    [(victims & Hv & Hr & _)|(pre & skipped & admitted & rest' & Hr & Hw' & _ & _ & Hsub & _)]; rewrite Hrun in Hr.
  - destruct (running s') as [|x t]; [by apply not_elem_of_nil in Hid|]. injection Hr as <- _. by exists t.
  - by eexists.
  - symmetry in Hr. by apply app_eq_nil in Hr as [_ ->].
  - rewrite Hr in *. rewrite Hrun, Hw in Hnd. cbn [app] in Hid, Hnd. destruct pre as [|x pre].
    { apply sublist_nil_r in Hsub as ->. by apply not_elem_of_nil in Hid. }
    rewrite Hw in Hw'. injection Hw' as <- ->. apply (sublist_head id admitted pre); [|done|done].
    rewrite app_comm_cons in Hnd. by apply NoDup_app in Hnd as [Hnd _].
Qed.

(** What remains of it before the step. *)
Lemma on_turn_behind c s id : on_turn c s id -> 0 <= num_computed_tokens (req_of s id) < num_tokens (req_of s id).
Proof.
  intros [Hs _ _ _ [(rest & Hrun & Hn)|(_ & (rest & Hw) & _)]].
  - split; [|done]. pose proof (si_running _ Hs) as Hr. rewrite Forall_forall in Hr.
    destruct (Hr id) as (_ & _ & [? _] & _); [rewrite Hrun; by left|done].
  - pose proof (si_waiting _ Hs) as Hr. rewrite Forall_forall in Hr.
    destruct (Hr id) as ((_ & _ & ?) & _ & ->); [rewrite Hw; by left|lia].
Qed.

Lemma on_turn_update c (s s2 s' : sched) out o id n rest :
  sched_inv s2 -> cfg s2 = c -> room (kv_cache_manager s2) -> has_encoder_inputs (req_of s2 id) = false ->
  running s2 = id :: rest -> pending out s2 -> num_scheduled_tokens out !! id = Some n ->
  num_computed_tokens (req_of s2 id) = num_computed_tokens (req_of s id) + n -> 1 <= n ->
  num_computed_tokens (req_of s id) < num_tokens (req_of s2 id) ->
  runner_ok out o s2 -> sampled out o s2 -> sched_inv s' -> updated out o s2 s' ->
  id ∉ requests s' \/ on_turn c s' id /\ num_computed_tokens (req_of s id) < num_computed_tokens (req_of s' id).
Proof.
  intros Hs2 Hc Hroom Htext Hrun Hp Hn Hnc Hn1 Hlt Hro Hsam Hs' [U1 U2 U3 U4 U5 _ _].
  pose proof (si_nodup _ Hs2) as Hnd. rewrite Hrun in Hnd.
  destruct (decide (id ∈ running s')) as [Hid|Hid].
  2:{ left. intros Hr%(si_all _ Hs'). apply elem_of_app in Hr as [?|Hr]; [done|]. rewrite U2 in Hr.
      apply NoDup_app in Hnd as (_ & Hd & _). apply (Hd id); [by left|done]. }
  right. apply NoDup_app in Hnd as (Hnd & _). rewrite Hrun in U1.
  destruct (sublist_head id _ rest Hnd Hid U1) as [rest' Hrun'].
  specialize (U5 id Hid). unfold continued in U5. rewrite Hn in U5.
  destruct U5 as (index & generated & Hi & Hg & Ht & Hmax & Hcomp & _ & Hmm & _).
  assert (Hin : id ∈ running s2) by (rewrite Hrun; by left).
  destruct (Hp id n Hin Hn) as [_ Hd]. set (drafts := dd_get _ id) in *.
  destruct Hro as [_ Hro]. rewrite Forall_forall in Hro.
  destruct (Hro id Hin n Hn) as (index' & generated' & Hi' & Hg' & Hdr & _).
  fold drafts in Hdr.
  assert (index' = index) as -> by congruence. assert (generated' = generated) as -> by congruence.
  specialize (Hsam id index generated Hin ltac:(by eexists)). unfold drafts_ok in Hd.
  pose proof (len_nonneg generated) as Hgl. pose proof (len_nonneg drafts) as Hdl.
  assert (Hgen : generated <> [] -> 1 <= len generated).
  { destruct generated; [done|]. rewrite len_cons. pose proof (len_nonneg generated). lia. }
  assert (Hnew : num_computed_tokens (req_of s id) < num_computed_tokens (req_of s' id) /\
    num_computed_tokens (req_of s' id) < num_tokens (req_of s' id)).
  { rewrite Hcomp, Ht. unfold settled. destruct drafts as [|d drafts']; cbn [length Nat.eqb].
    - change (len []) with 0 in Hd.
      destruct (Z.le_gt_cases (num_tokens (req_of s2 id)) (num_computed_tokens (req_of s2 id))) as [Hle|Hgt]; [|lia].
      specialize (Hgen (Hsam Hle Hi Hg)). lia.
    - destruct Hdr as [Hne _]; [done|]. specialize (Hgen Hne). rewrite len_cons in *. lia. }
  split; [|lia]. split; [done|congruence| |unfold has_encoder_inputs in *; by rewrite Hmm|].
  - by apply (room_shape (kv_cache_manager s2)).
  - left. exists rest'. split; [done|lia].
Qed.

Lemma on_turn_round c s s' id :
  0 < max_num_scheduled_tokens c -> 0 < max_num_running_reqs c -> on_turn c s id -> round s s' ->
  id ∉ requests s' \/ on_turn c s' id /\ num_computed_tokens (req_of s id) < num_computed_tokens (req_of s' id).
Proof.
  intros Hb Hmax Ho Hr. destruct Hr as [s s1 out s2 o res s' Harr E1 Hro Hsam E2].
  destruct (on_turn_arrives _ _ _ _ Ho Harr) as [Ho1 <-].
  pose proof (on_turn_first _ _ _ Hb Ho1) as Hfirst. pose proof (on_turn_behind _ _ _ Ho1) as Hlt.
  destruct Ho1 as [Hs1 Hc1 Hroom1 Htext1 Hold1].
  destruct (wp_result _ _ _ _ _ (wp_schedule_first s1 id Hs1 Hroom1 ltac:(by rewrite Hc1) ltac:(by rewrite Hc1) Htext1 Hfirst) E1)
    as (Hs2 & Hq & Hp & [A1 A2 A3 A4 A5] & n & Hn & Hn1 & Hin).
  destruct (oldest_heads s1 s2 id Hs1 Hold1 Hq Hin) as [rest Hrun].
  destruct (wp_result _ _ _ _ _ (wp_update_from_output should_advance validate_tokens s2 out o Hs2 Hp Hro) E2) as [Hs' Hu].
  specialize (A5 id Hin). rewrite Hn in A5. simpl in A5. specialize (A4 id). unfold inputs_of in A4. injection A4 as Ht Hmm.
  apply (on_turn_update c s1 s2 s' out o id n rest); try done; [congruence|by apply (room_shape (kv_cache_manager s1))| |].
  - unfold has_encoder_inputs in *. by rewrite Hmm.
  - unfold num_tokens in *. rewrite Ht. lia.
Qed.

Lemma finishes_within c id k : forall (s s' : sched),
  0 < max_num_scheduled_tokens c -> 0 < max_num_running_reqs c -> on_turn c s id ->
  sched_max_model_len c - num_computed_tokens (req_of s id) <= Z.of_nat k -> nsteps round k s s' ->
  exists j sj, (j <= k)%nat /\ nsteps round j s sj /\ nsteps round (k - j) sj s' /\ id ∉ requests sj.
Proof.
  induction k as [|k IH]; intros s s' Hb Hmax Ho Hk Hr.
  - exfalso. pose proof (on_turn_behind _ _ _ Ho) as Hlt.
    destruct (queued_live s id (ot_inv _ _ _ Ho) (on_turn_queued _ _ _ Ho)) as (_ & _ & Hlen).
    rewrite (ot_cfg _ _ _ Ho) in Hlen. lia.
  - inversion Hr as [|? ? s1 ? Hr1 Hr2]; subst. destruct (on_turn_round c s s1 id Hb Hmax Ho Hr1) as [Hgone|[Ho1 Hlt]].
    + exists 1%nat, s1. split; [lia|]. split; [by apply nsteps_once|]. split; [by rewrite Nat.sub_succ, Nat.sub_0_r|done].
    + destruct (IH s1 s' Hb Hmax Ho1 ltac:(lia) Hr2) as (j & sj & Hj & Hj1 & Hj2 & Hgone).
      exists (S j), sj. split; [lia|]. split; [by eapply nsteps_l|]. by rewrite Nat.sub_succ.
Qed.

(** C6: progress of a text request. In a state with the scheduler's invariant
    (full attention, no prefix caching, no limit on LoRA adapters, no KV
    connector), with positive budgets and a cache that has room for one
    request of maximal length in every group besides the null block, the first
    request in line, if it has no encoder inputs, is scheduled at least one
    token, and has computed that many more after, whatever the others hold,
    since they are preempted before it. First in line: the head of the running
    requests, with a token to compute, or, when nothing runs, the first in the
    queue that does not wait for a grammar. *)
Theorem oldest_request_progresses (s : sched) id :
  sched_inv s -> room (kv_cache_manager s) -> 0 < max_num_scheduled_tokens (cfg s) ->
  0 < max_num_running_reqs (cfg s) -> has_encoder_inputs (req_of s id) = false -> first_in_line s id ->
  exists out s' n, schedule hash_fn NONE_HASH s = Ret out s' /\ sched_inv s' /\
    num_scheduled_tokens out !! id = Some n /\ 1 <= n /\ id ∈ running s' /\
    num_computed_tokens (req_of s' id) = num_computed_tokens (req_of s id) + n.
Proof.
  intros Hs Hroom Hb Hmax Henc Hfirst.
  destruct (wp_elim _ _ _ (wp_schedule_first s id Hs Hroom Hb Hmax Henc Hfirst)) as (out & s' & E & Hs' & _ & _ & Ha & n & Hn & Hn1 & Hin).
  exists out, s', n. pose proof (av_computed _ _ _ Ha id Hin) as Hc. rewrite Hn in Hc. by split_and!.
Qed.

(** C5: no starvation of text requests, in rounds of arrivals, one step and
    its results, without aborts. If the configuration is that of the invariant
    (full attention, no prefix caching, no limit on LoRA adapters, no KV
    connector), the budgets are positive, the cache has room for one request
    of maximal length in every group besides the null block ([room]), and the
    runner returns at least one token for a request whose tokens are all
    computed ([sampled]), then the oldest request, if it has no encoder inputs
    and does not wait for a grammar, finishes: in any run of as many rounds as
    the model has positions there is a round after which it has left the
    scheduler. *)
Theorem oldest_request_finishes (s s' : sched) id k :
  sched_inv s -> room (kv_cache_manager s) -> 0 < max_num_scheduled_tokens (cfg s) ->
  0 < max_num_running_reqs (cfg s) -> has_encoder_inputs (req_of s id) = false -> oldest s id ->
  sched_max_model_len (cfg s) <= Z.of_nat k -> nsteps round k s s' ->
  exists j sj, (j <= k)%nat /\ nsteps round j s sj /\ nsteps round (k - j) sj s' /\ id ∉ requests sj.
Proof.
  intros Hs Hroom Hb Hmax Henc Hold Hk Hr.
  assert (Ho : on_turn (cfg s) s id) by (by split).
  pose proof (on_turn_behind _ _ _ Ho). apply (finishes_within (cfg s) id k s s'); try done. lia.
Qed.
End progress.

(** ** Two requests that do not fit together

    Four usable blocks of two tokens and six positions: [b] is preempted for
    [a], which finishes. *)

Definition tight_config : KVCacheConfig :=
  mkKVCacheConfig 5 [] [mkKVCacheGroupSpec ["layer"%string] (FullAttentionSpec sample_attention None)].
Definition tight_init : SchedulerInit :=
  mkSchedulerInit 4 12 6 0 None (Some 5) 2 false None false false false (mkEncoderConfig true false 12 8 8).

(** A runner that generates the token [t] for everyone. *)
Definition answer (t : Z) (s : lsched) : ModelRunnerOutput :=
  mkModelRunnerOutput (gset_to_gmap 0%nat (list_to_set (running s))) [[t]] None ∅ [] [].
Definition do_round (t : Z) : M lsched unit := out ← run_schedule; s ← get_state; run_update out (answer t s).

Abbreviation sample_round := (round code_hash (-1) (fun _ => false) (fun _ l => l)).

Lemma answer_lookup t (s : lsched) id : id ∈ running s -> req_id_to_index (answer t s) !! id = Some 0%nat.
Proof. intros Hid. apply lookup_gset_to_gmap_Some. by split; [apply elem_of_list_to_set|]. Qed.

Lemma do_round_ok t (s s' : lsched) :
  sched_inv s -> 0 <= num_spec_tokens (cfg s) -> do_round t s = Ret tt s' ->
  sample_round s s' /\ sched_inv s' /\ cfg s' = cfg s.
Proof.
  intros Hs Hspec E. unfold do_round, mbind, M_mbind, M_bind in E.
  destruct (run_schedule s) as [out s2|] eqn:E1; [|done]. simpl in E. unfold run_update, mbind, M_mbind, M_bind in E.
  destruct (update_from_output _ _ _ _ s2) as [res s3|] eqn:E2; [|done]. injection E as <-.
  destruct (wp_result _ _ _ _ _ (wp_schedule code_hash (-1) s Hs) E1) as (Hs2 & _ & _ & _ & _ & Hp & Ha).
  assert (Hro : runner_ok out (answer t s2) s2).
  { split; [done|]. apply Forall_forall. intros id Hid n _. exists 0%nat, [t].
    split; [by apply answer_lookup|]. rewrite (av_cfg _ _ _ Ha). by split_and!. }
  destruct (wp_result _ _ _ _ _ (wp_update_from_output _ _ s2 out _ Hs2 Hp Hro) E2) as (Hs3 & Hu).
  split; [|split; [done|by rewrite (up_cfg _ _ _ _ Hu), (av_cfg _ _ _ Ha)]].
  econstructor; [apply rtc_refl|exact E1|exact Hro| |exact E2].
  intros id index generated Hid _ _ Hi Hg. rewrite (answer_lookup t s2 id Hid) in Hi. injection Hi as <-.
  by injection Hg as <-.
Qed.

(** Both requests are added; then eight rounds. *)
Definition tight_start : option lsched :=
  match init_scheduler tight_init tight_config [4] None with
  | Ok s0 => match add_request (sample_request "a" [1; 3; 4]) s0 with
    | Ret _ s1 => match add_request (sample_request "b" [1; 3; 4]) s1 with
      | Ret _ s2 => Some s2
      | Raise _ _ => None
      end
    | Raise _ _ => None
    end
  | Err _ => None
  end.

Fixpoint run_rounds (n : nat) (s : lsched) : option lsched :=
  match n with
  | O => Some s
  | S n' => match do_round 5 s with Ret _ s' => run_rounds n' s' | Raise _ _ => None end
  end.


Lemma run_rounds_ok n : forall s s' : lsched,
  sched_inv s -> 0 <= num_spec_tokens (cfg s) -> run_rounds n s = Some s' -> nsteps sample_round n s s'.
Proof.
  induction n as [|n IH]; intros s s' Hs Hspec; cbn [run_rounds]; [intros [= <-]; constructor|].
  destruct (do_round 5 s) as [[] s1|] eqn:E; [|done]. intros E1.
  destruct (do_round_ok 5 s s1 Hs Hspec E) as (Hr & Hs1 & Hc). eapply nsteps_l; [exact Hr|].
  apply IH; [done|by rewrite Hc|done].
Qed.

Definition tight_check (s : lsched) : Prop :=
  match run_rounds 6 s with Some _ => True | None => False end /\ room (kv_cache_manager s) /\
  running s = [] /\ waiting s = ["a"; "b"]%string /\ cfg s = init_config tight_init 8 /\
  has_encoder_inputs (req_of s "a") = false /\ grammar_wait (req_of s "a") = false.

Lemma tight_start_checks : match tight_start with Some s => tight_check s | None => False end.
Proof. vm_compute. split_and!; (reflexivity || discriminate || exact I). Qed.

Lemma tight_start_inv s : tight_start = Some s -> sched_inv s.
Proof.
  unfold tight_start. destruct (init_scheduler _ _ _ _) as [s0|] eqn:E0; [|done].
  destruct (add_request _ s0) as [[] s1|] eqn:E1; [|done]. destruct (add_request _ s1) as [[] s2|] eqn:E2; [|done].
  intros [= <-].
  assert (Hcov : covered tight_init tight_config) by (split_and!; try done; by repeat constructor).
  destruct (init_inv _ _ _ s0 Hcov E0) as (Hs0 & Hc & _ & _ & Hreq).
  assert (Ha : addable s0 (sample_request "a" [1; 3; 4])).
  { split; [rewrite Hreq; set_solver|by left|done|rewrite Hc; vm_compute; split; congruence]. }
  destruct (wp_result _ _ _ _ _ (wp_add_request code_hash (-1) s0 _ Hs0 Ha) E1) as (Hs1 & _ & _ & Hreq1 & Hc1 & _).
  assert (Hb : addable s1 (sample_request "b" [1; 3; 4])).
  { split; [rewrite Hreq1, Hreq; set_solver|by left|done|rewrite Hc1, Hc; vm_compute; split; congruence]. }
  apply (wp_result _ _ _ _ _ (wp_add_request code_hash (-1) s1 _ Hs1 Hb) E2).
Qed.

Lemma tight_start_spec :
  exists s s' : lsched, run_rounds 6 s = Some s' /\ sched_inv s /\ tight_check s.
Proof.
  pose proof tight_start_checks as Hrun. destruct tight_start as [s|] eqn:Es; [|done].
  pose proof (tight_start_inv s Es) as Hs. pose proof Hrun as [Hsome _].
  destruct (run_rounds 6 s) as [s'|] eqn:Er; [|done]. exists s, s'. split; [exact Er|]. split; [exact Hs|exact Hrun].
Qed.

Lemma oldest_request_progresses_witness :
  exists (s : lsched) out s' n, schedule code_hash (-1) s = Ret out s' /\
    num_scheduled_tokens out !! "a"%string = Some n /\ 1 <= n.
Proof.
  destruct tight_start_spec as (s & _ & _ & Hs & _ & Hroom & Hrun & Hw & Hc & Henc & Hg). exists s.
  destruct (oldest_request_progresses code_hash (-1) s "a"%string Hs Hroom) as (out & s' & n & E & _ & Hn & Hn1 & _).
  - rewrite Hc. reflexivity.
  - rewrite Hc. reflexivity.
  - exact Henc.
  - right. split; [exact Hrun|]. exists [], ["b"%string]. split; [exact Hw|]. split; [constructor|exact Hg].
  - exists out, s', n. split; [exact E|]. split; [exact Hn|exact Hn1].
Defined.

Lemma oldest_request_finishes_witness :
  exists (s sj : lsched) j, (j <= 6)%nat /\ nsteps sample_round j s sj /\ "a"%string ∉ requests sj.
Proof.
  destruct tight_start_spec as (s & s' & Hr & Hs & _ & Hroom & Hrun & Hw & Hc & Henc & Hg). exists s.
  destruct (oldest_request_finishes code_hash (-1) (fun _ => false) (fun _ l => l) s s' "a"%string 6 Hs Hroom)
    as (j & sj & Hj & Hsj & _ & Hgone).
  - rewrite Hc. reflexivity.
  - rewrite Hc. reflexivity.
  - exact Henc.
  - right. split; [exact Hrun|]. split; [exists ["b"%string]; exact Hw|exact Hg].
  - rewrite Hc. vm_compute. discriminate.
  - apply run_rounds_ok; [exact Hs|rewrite Hc; vm_compute; discriminate|exact Hr].
  - exists sj, j. split; [exact Hj|]. split; [exact Hsj|exact Hgone].
Defined.
