(* ===== verification/Defrag.v ===== *)
(** Online defragmentation of the KV cache on the HPU
    ([src/vllm_gaudi/extension/defragmentation.py]): the defragmenter renames
    blocks behind the scheduler's back.  It counts the uses of physical blocks,
    keeps the renaming as two arrays, and swaps the highest used blocks with
    the lowest free ones. *)

From Stdlib Require Import ZArith Lia.
From stdpp Require Import base strings numbers gmap list sorting.
From S2P Require Import Prelude.

Open Scope Z_scope.

(** ** State *)

Record OnlineDefragmenter := mkDefrag {
  threshold : Z;
  to_swap_pad_thresholds : list Z;
  used_blocks : gmap nat Z;
  req_blocks : gmap string (list nat);
  fwd_mapping_table : list nat;
  bwd_mapping_table : list nat;
  enabled : bool;
  (** Whether [initialize] has set [cache_utils]. *)
  cache_utils : bool
}.

(** [with_default] of [extension/utils.py]. *)
Definition with_default {A} (value : option A) (d : A) : A :=
  match value with Some v => v | None => d end.

(** [__init__]: the threshold of the configuration and its [defrag] flag. *)
Definition init_defrag (cfg_threshold : option Z) (cfg_defrag : bool) : OnlineDefragmenter :=
  mkDefrag (with_default cfg_threshold 32) [8; 16; 32; 64; 128; 256; 512] ∅ ∅ [] [] cfg_defrag false.

Definition set_used (u : gmap nat Z) (s : OnlineDefragmenter) : OnlineDefragmenter :=
  mkDefrag (threshold s) (to_swap_pad_thresholds s) u (req_blocks s) (fwd_mapping_table s)
    (bwd_mapping_table s) (enabled s) (cache_utils s).
Definition set_req_blocks (r : gmap string (list nat)) (s : OnlineDefragmenter) : OnlineDefragmenter :=
  mkDefrag (threshold s) (to_swap_pad_thresholds s) (used_blocks s) r (fwd_mapping_table s)
    (bwd_mapping_table s) (enabled s) (cache_utils s).
Definition set_tables (f b : list nat) (s : OnlineDefragmenter) : OnlineDefragmenter :=
  mkDefrag (threshold s) (to_swap_pad_thresholds s) (used_blocks s) (req_blocks s) f b (enabled s) (cache_utils s).

(** [initialize]. *)
Definition initialize : M OnlineDefragmenter unit := modify (fun s =>
  mkDefrag (threshold s) (to_swap_pad_thresholds s) (used_blocks s) (req_blocks s) (fwd_mapping_table s)
    (bwd_mapping_table s) (enabled s) true).

(** ** Operations *)

Abbreviation MD := (M OnlineDefragmenter).

(** Both tables grow by the identity up to [block_id]. *)
Definition _extend_mapping_table (block_id : nat) : MD unit := modify (fun s =>
  let f := fwd_mapping_table s in let b := bwd_mapping_table s in
  if (length f <=? block_id)%nat
  then set_tables (f ++ seq (length f) (S block_id - length f)) (b ++ seq (length b) (S block_id - length b)) s
  else s).

Definition get_ref_count (s : OnlineDefragmenter) (block_id : nat) : Z := default 0 (used_blocks s !! block_id).

(** [del] of a missing key raises. *)
Definition set_ref_count (block_id : nat) (ref_count : Z) : MD unit :=
  s ← get_state;
  if ref_count <=? 0 then
    match used_blocks s !! block_id with
    | None => raise KeyError
    | Some _ => modify (set_used (delete block_id (used_blocks s)))
    end
  else modify (set_used (<[block_id := ref_count]> (used_blocks s))).

Definition swap_refs (block_a block_b : nat) : MD unit :=
  s ← get_state;
  let a_refs := get_ref_count s block_a in
  let b_refs := get_ref_count s block_b in
  set_ref_count block_a b_refs;;
  set_ref_count block_b a_refs.

Definition use_block (block_id : nat) : MD unit :=
  s ← get_state; set_ref_count block_id (get_ref_count s block_id + 1).
Definition free_block (block_id : nat) : MD unit :=
  s ← get_state; set_ref_count block_id (get_ref_count s block_id - 1).

Definition resolve (s : OnlineDefragmenter) (block_id : nat) : nat :=
  if negb (enabled s) || (length (fwd_mapping_table s) <=? block_id)%nat then block_id
  else default block_id (fwd_mapping_table s !! block_id).

Definition resolve_all (s : OnlineDefragmenter) (block_table_list : list (list nat)) : list (list nat) :=
  (fun bl : list nat => resolve s <$> bl) <$> block_table_list.

Definition unresolve (block_id : nat) : MD nat :=
  s ← get_state;
  match bwd_mapping_table s !! block_id with Some b => mret b | None => raise IndexError end.

(** Assignments to list elements. *)
Definition update_mapping (orig_block new_block : nat) : MD unit :=
  s ← get_state;
  if (length (fwd_mapping_table s) <=? orig_block)%nat then raise IndexError else
  modify (set_tables (<[orig_block := new_block]> (fwd_mapping_table s)) (bwd_mapping_table s));;
  if (length (bwd_mapping_table s) <=? new_block)%nat then raise IndexError else
  modify (fun s => set_tables (fwd_mapping_table s) (<[new_block := orig_block]> (bwd_mapping_table s)) s).

Definition list_max (l : list nat) : nat := foldr Nat.max 0%nat l.

(** The new blocks of one request. *)
Definition add_blocks (r : string * list nat) : MD unit :=
  match r.2 with
  | [] => mret tt
  | blocks =>
      modify (fun s => set_req_blocks (<[r.1 := default [] (req_blocks s !! r.1) ++ blocks]> (req_blocks s)) s);;
      _extend_mapping_table (list_max blocks);;
      for_each (fun b => s ← get_state; use_block (resolve s b)) blocks
  end.

Definition drop_request (req_id : string) : MD unit :=
  s ← get_state;
  match req_blocks s !! req_id with
  | None => raise KeyError
  | Some blocks =>
      for_each (fun b => s ← get_state; free_block (resolve s b)) blocks;;
      modify (fun s => set_req_blocks (delete req_id (req_blocks s)) s)
  end.

(** [new_blocks] is a dict, given by its items in order. *)
Definition update_state (new_blocks : list (string * list nat)) (finished_reqs : list string) : MD unit :=
  s ← get_state;
  if negb (enabled s) then mret tt
  else for_each add_blocks new_blocks;; for_each drop_request finished_reqs.

(** The generator [free_blocks], its first [n] values: the gaps between the
    sorted used ids from [last] on, then every id behind them. *)
Fixpoint free_from (n : nat) (last : nat) (used : list nat) : list nat :=
  match used with
  | [] => seq last n
  | u :: used' =>
      let gap := seq last (u - last) in
      take n gap ++ free_from (n - length gap) (S u) used'
  end.

Definition sorted_keys (u : gmap nat Z) : list nat := merge_sort (≤)%nat (elements (dom u)).

(** The loop that pairs the highest used blocks with the lowest free ones. *)
Fixpoint plan_swaps (s : OnlineDefragmenter) (limit : Z) (pairs to_swap : list (nat * nat)) : result (list (nat * nat)) :=
  match pairs with
  | [] => Ok to_swap
  | (used_block, free_block) :: pairs' =>
      if (len to_swap =? limit) || (used_block <? free_block)%nat then Ok to_swap
      else
        guard_or (bool_decide (is_Some (used_blocks s !! used_block))) AssertionError;;
        guard_or (bool_decide (used_blocks s !! free_block = None)) AssertionError;;
        plan_swaps s limit pairs' (to_swap ++ [(used_block, free_block)])
  end.

(** One swap: the counts and the renaming. *)
Definition apply_swap (p : nat * nat) : MD unit :=
  let '(used_block, free_block) := p in
  swap_refs used_block free_block;;
  orig_used_block ← unresolve used_block;
  orig_free_block ← unresolve free_block;
  update_mapping orig_used_block free_block;;
  update_mapping orig_free_block used_block.

(** [defragment]; returns what is handed to [cache_utils.swap], if anything:
    the pairs and the length they are padded to. *)
Definition defragment : MD (option (list (nat * nat) * Z)) :=
  s ← get_state;
  if negb (enabled s) then mret None
  else match sorted_keys (used_blocks s) with
  | [] => mret None
  | used_ascending =>
      let max_used := default 0%nat (last used_ascending) in
      let num_used := len used_ascending in
      if Z.of_nat max_used - threshold s <=? num_used then mret None
      else
        let free := free_from (length used_ascending) 1 used_ascending in
        let used := reverse used_ascending in
        match last (to_swap_pad_thresholds s) with
        | None => raise IndexError
        | Some limit =>
            to_swap ← lift_result (plan_swaps s limit (zip used free) []);
            for_each apply_swap to_swap;;
            s ← get_state;
            py_assert (cache_utils s);;
            mret (Some (to_swap,
              default limit (head (filter (fun x => len to_swap <= x) (to_swap_pad_thresholds s)))))
        end
  end.

(** ** The invariant *)

(** The two tables are inverse to each other. *)
Definition inverse (f b : list nat) : Prop :=
  length f = length b /\ forall i j, f !! i = Some j <-> b !! j = Some i.

(** The defragmenter is in use: the tables are a permutation, the counts are
    those of the renamed blocks of all requests, and only used blocks have one. *)
Record defrag_inv (s : OnlineDefragmenter) : Prop := {
  di_enabled : enabled s = true;
  di_tables : inverse (fwd_mapping_table s) (bwd_mapping_table s);
  di_refs : forall j, get_ref_count s j = occ j (resolve s <$> table_blocks (req_blocks s));
  di_pos : forall j n, used_blocks s !! j = Some n -> 0 < n;
  di_known : Forall (fun b => (b < length (fwd_mapping_table s))%nat) (table_blocks (req_blocks s));
  di_pads : to_swap_pad_thresholds s = [8; 16; 32; 64; 128; 256; 512]
}.

Lemma inverse_bound f b i j : inverse f b -> f !! i = Some j -> (j < length f)%nat.
Proof. intros [Hl Hi] Hj. rewrite Hl. apply Hi in Hj. by eapply lookup_lt_Some. Qed.

(** Extending both tables by the identity. *)
Lemma inverse_extend f b n : inverse f b -> inverse (f ++ seq (length f) n) (b ++ seq (length b) n).
Proof.
  intros Hinv. pose proof Hinv as [Hl Hi]. split; [by rewrite !length_app, !length_seq, Hl|].
  assert (Hdir : forall f b i j, inverse f b -> (f ++ seq (length f) n) !! i = Some j ->
    (b ++ seq (length b) n) !! j = Some i).
  { clear. intros f b i j Hinv. pose proof Hinv as [Hl Hi]. rewrite lookup_app. destruct (f !! i) as [j'|] eqn:E.
    - intros [= <-]. apply lookup_app_l_Some. by apply Hi.
    - intros [-> Hn]%lookup_seq. apply lookup_ge_None in E. rewrite lookup_app_r by lia.
      apply lookup_seq. lia. }
  intros i j. split; [by apply Hdir|]. apply Hdir. split; [done|]. intros x y. symmetry. apply Hi.
Qed.

(** Exchanging the values [u] and [v]. *)
Definition swap (u v z : nat) : nat := if decide (z = u) then v else if decide (z = v) then u else z.

Lemma swap_invol u v z : swap u v (swap u v z) = z.
Proof. unfold swap. repeat case_decide; congruence. Qed.

Lemma swap_inj u v x y : swap u v x = swap u v y <-> x = y.
Proof. split; [|congruence]. intros E. rewrite <- (swap_invol u v x), E. apply swap_invol. Qed.

Lemma inverse_swap f b x y u v f' b' :
  inverse f b -> f !! x = Some u -> f !! y = Some v -> u <> v ->
  f' = <[y := u]> (<[x := v]> f) -> b' = <[u := y]> (<[v := x]> b) ->
  inverse f' b' /\ forall i, f' !! i = swap u v <$> (f !! i).
Proof.
  intros Hinv Hx Hy Huv -> ->. pose proof Hinv as [Hl Hi].
  assert (Hxy : x <> y) by congruence.
  pose proof (lookup_lt_Some _ _ _ Hx) as Lx. pose proof (lookup_lt_Some _ _ _ Hy) as Ly.
  pose proof (inverse_bound _ _ _ _ Hinv Hx) as Lu. pose proof (inverse_bound _ _ _ _ Hinv Hy) as Lv.
  assert (Hf : forall i, <[y := u]> (<[x := v]> f) !! i = swap u v <$> (f !! i)).
  { intros i. destruct (decide (i = y)) as [->|Hiy].
    { rewrite list_lookup_insert_eq by (rewrite length_insert; done). rewrite Hy. simpl. unfold swap.
      by rewrite decide_False, decide_True by congruence. }
    rewrite list_lookup_insert_ne by done. destruct (decide (i = x)) as [->|Hix].
    { rewrite list_lookup_insert_eq by done. rewrite Hx. simpl. unfold swap. by rewrite decide_True. }
    rewrite list_lookup_insert_ne by done. destruct (f !! i) as [z|] eqn:Ez; [|done]. simpl. unfold swap.
    rewrite decide_False by (intros ->; apply Hi in Ez, Hx; congruence).
    by rewrite decide_False by (intros ->; apply Hi in Ez, Hy; congruence). }
  split; [|done]. split; [by rewrite !length_insert|]. intros i j. rewrite Hf.
  assert (Hb : <[u := y]> (<[v := x]> b) !! j = b !! (swap u v j)).
  { unfold swap. case_decide as Hj; [subst j; rewrite list_lookup_insert_eq by (rewrite length_insert; lia);
      symmetry; by apply Hi|].
    rewrite list_lookup_insert_ne by done. case_decide as Hj2; [subst j; rewrite list_lookup_insert_eq by lia;
      symmetry; by apply Hi|]. by rewrite list_lookup_insert_ne. }
  rewrite Hb, <- Hi. destruct (f !! i) as [z|]; simpl; [|done].
  split; intros [= E]; f_equal; [by rewrite <- E, swap_invol|by rewrite E, swap_invol].
Qed.

(** ** Counting *)

Lemma wp_set_ref_count j n P (s : OnlineDefragmenter) :
  0 <= n -> (n = 0 -> 0 < get_ref_count s j) ->
  (forall u, (forall k, default 0 (u !! k) = if decide (k = j) then n else get_ref_count s k) ->
     (forall k m, u !! k = Some m -> used_blocks s !! k = Some m \/ 0 < m) -> P tt (set_used u s)) ->
  wp (set_ref_count j n) P s.
Proof.
  intros Hn Hz HP. unfold set_ref_count. wp_steps. destruct (Z.leb_spec n 0).
  - assert (n = 0) as -> by lia. specialize (Hz eq_refl). unfold get_ref_count in Hz.
    destruct (used_blocks s !! j) eqn:E; [|simpl in Hz; lia]. wp_steps. apply HP.
    + intros k. destruct (decide (k = j)) as [->|]; [by rewrite lookup_delete_eq|by rewrite lookup_delete_ne].
    + intros k m [_ Hm]%lookup_delete_Some. by left.
  - wp_steps. apply HP.
    + intros k. destruct (decide (k = j)) as [->|]; [by rewrite lookup_insert_eq|by rewrite lookup_insert_ne].
    + intros k m [[<- <-]|[_ Hm]]%lookup_insert_Some; [by right|by left].
Qed.

Lemma ref_count_nonneg (s : OnlineDefragmenter) j :
  (forall k n, used_blocks s !! k = Some n -> 0 < n) -> 0 <= get_ref_count s j.
Proof. intros Hp. unfold get_ref_count. destruct (used_blocks s !! j) eqn:E; simpl; [|done]. apply Hp in E. lia. Qed.

(** Adding [d], one or minus one, to the count of a block. *)
Lemma wp_count d j P (s : OnlineDefragmenter) :
  (forall k n, used_blocks s !! k = Some n -> 0 < n) ->
  0 <= get_ref_count s j + d -> (d < 0 -> 0 < get_ref_count s j) -> d <> 0 ->
  (forall u, (forall k, default 0 (u !! k) = get_ref_count s k + if decide (k = j) then d else 0) ->
     (forall k n, u !! k = Some n -> 0 < n) -> P tt (set_used u s)) ->
  wp (set_ref_count j (get_ref_count s j + d)) P s.
Proof.
  intros Hpos Hn Hd Hd0 HP. pose proof (ref_count_nonneg s j Hpos). apply wp_set_ref_count; [done|lia|]. intros u Hu Hu2. apply HP.
  - intros k. rewrite Hu. case_decide as E; [subst; lia|lia].
  - intros k n Hk. destruct (Hu2 k n Hk); [by eapply Hpos|done].
Qed.

(** Two states that differ in the counts only. *)
Definition same_mapping (s s' : OnlineDefragmenter) : Prop := exists u, s' = set_used u s.

Lemma same_mapping_resolve s s' b : same_mapping s s' -> resolve s' b = resolve s b.
Proof. by intros [u ->]. Qed.

(** Counting a list of blocks up or down. *)
Lemma wp_count_blocks d (s : OnlineDefragmenter) bs (op : nat -> MD unit) :
  (forall j s', op j s' = set_ref_count j (get_ref_count s' j + d) s') -> d = 1 \/ d = -1 ->
  (forall k n, used_blocks s !! k = Some n -> 0 < n) ->
  (d = -1 -> forall j, occ j (resolve s <$> bs) <= get_ref_count s j) ->
  wp (for_each (fun b => s ← get_state; op (resolve s b)) bs) (fun _ s' => same_mapping s s' /\
    (forall k n, used_blocks s' !! k = Some n -> 0 < n) /\
    forall j, get_ref_count s' j = get_ref_count s j + d * occ j (resolve s <$> bs)) s.
Proof.
  intros Hop Hd Hpos Hge.
  eapply wp_mono; [apply (wp_for_each _ (fun todo s' => same_mapping s s' /\
    (forall k n, used_blocks s' !! k = Some n -> 0 < n) /\ (d = -1 -> forall j, occ j (resolve s <$> todo) <= get_ref_count s' j) /\
    forall j, get_ref_count s' j + d * occ j (resolve s <$> todo) = get_ref_count s j + d * occ j (resolve s <$> bs)))|].
  - split; [exists (used_blocks s); by destruct s|]. done.
  - intros b todo s' (Hm & Hp & Hg & Hc). wp_steps. unfold wp. rewrite Hop. rewrite (same_mapping_resolve _ _ _ Hm).
    setoid_rewrite fmap_cons in Hg. setoid_rewrite fmap_cons in Hc.
    setoid_rewrite occ_cons in Hg. setoid_rewrite occ_cons in Hc.
    assert (Hj : d = -1 -> 0 < get_ref_count s' (resolve s b)).
    { intros E. specialize (Hg E (resolve s b)). rewrite decide_True in Hg by done.
      pose proof (occ_nonneg (resolve s b) (resolve s <$> todo)). lia. }
    assert (Hj' : d < 0 -> 0 < get_ref_count s' (resolve s b)) by (intros; apply Hj; lia).
    pose proof (ref_count_nonneg s' (resolve s b) Hp).
    apply wp_count; [done|destruct (Z.lt_ge_cases d 0) as [Hd0|]; [specialize (Hj' Hd0)|]; lia|done|lia|].
    intros u Hu Hup.
    split; [destruct Hm as [u0 ->]; by exists u|]. split; [done|]. unfold get_ref_count at 1. split.
    + intros E j. unfold get_ref_count. simpl. rewrite Hu. specialize (Hg E j). repeat case_decide; subst; try done; lia.
    + intros j. unfold get_ref_count at 1. simpl. rewrite Hu. specialize (Hc j). repeat case_decide; subst; try done; lia.
  - intros [] s' (Hm & Hp & _ & Hc). split; [done|]. split; [done|]. intros j. specialize (Hc j). simpl in Hc.
    change (occ j []) with 0 in Hc. lia.
Qed.

(** ** Requests come and go *)

Lemma resolve_known (s : OnlineDefragmenter) b :
  enabled s = true -> (b < length (fwd_mapping_table s))%nat ->
  resolve s b = fwd_mapping_table s !!! b.
Proof.
  intros He Hb. unfold resolve. rewrite He, (proj2 (Nat.leb_gt _ _)) by done. simpl.
  by rewrite list_lookup_total_alt; destruct (lookup_lt_is_Some_2 _ _ Hb) as [x ->].
Qed.

Lemma list_max_in b l : list_max (b :: l) ∈ b :: l.
Proof.
  revert b. induction l as [|x l IH]; intros b; simpl; [rewrite Nat.max_0_r; by left|].
  specialize (IH x). simpl in IH. destruct (Nat.max_spec b (Nat.max x (list_max l))) as [[_ ->]|[_ ->]]; [by right|by left].
Qed.

Lemma list_max_ge l b : b ∈ l -> (b <= list_max l)%nat.
Proof. induction l as [|x l IH]; [by intros ?%not_elem_of_nil|]. simpl. intros [->|Hb]%elem_of_cons; [lia|]. specialize (IH Hb). lia. Qed.

Lemma occ_resolve_ext (s s' : OnlineDefragmenter) j l :
  (forall b, resolve s' b = resolve s b) -> occ j (resolve s' <$> l) = occ j (resolve s <$> l).
Proof. intros E. f_equal. by apply list_fmap_ext. Qed.

(** Extending the tables: every id up to [n] is known, and no renaming changes. *)
Lemma wp_extend (s : OnlineDefragmenter) n :
  enabled s = true -> inverse (fwd_mapping_table s) (bwd_mapping_table s) ->
  wp (_extend_mapping_table n) (fun _ s' => exists f b, s' = set_tables f b s /\ inverse f b /\
    (n < length f)%nat /\ (length (fwd_mapping_table s) <= length f)%nat /\
    (forall m, (length (fwd_mapping_table s) <= m)%nat -> (n < m)%nat -> (length f <= m)%nat) /\
    forall b, resolve s' b = resolve s b) s.
Proof.
  intros He Hinv. pose proof Hinv as [Hl _]. unfold _extend_mapping_table. wp_steps. destruct (Nat.leb_spec (length (fwd_mapping_table s)) n) as [Hle|Hlt].
  2:{ exists (fwd_mapping_table s), (bwd_mapping_table s). split; [by destruct s|]. split_and!; try done; lia. }
  eexists _, _. split; [done|]. simpl. rewrite !length_app, !length_seq. split; [rewrite <- Hl at 2; by apply inverse_extend|].
  split; [lia|]. split; [lia|]. split; [lia|]. intros b. unfold resolve. simpl. rewrite He. simpl.
  rewrite length_app, length_seq.
  destruct (Nat.leb_spec (length (fwd_mapping_table s)) b) as [Hb|Hb]; [|rewrite (proj2 (Nat.leb_gt _ _)) by lia; by rewrite lookup_app_l].
  destruct (Nat.leb_spec (length (fwd_mapping_table s) + (S n - length (fwd_mapping_table s))) b) as [|Hb2]; [done|].
  rewrite lookup_app_r by done. rewrite (proj2 (lookup_seq _ _ _ b)); [done|]. lia.
Qed.

Definition add_to (t : gmap string (list nat)) (r : string * list nat) : gmap string (list nat) :=
  match r.2 with [] => t | _ => <[r.1 := dd_get t r.1 ++ r.2]> t end.

(** The state after an operation on the requests that brought the blocks [new]:
    the renaming is the old one. *)
Record requests_step (s s' : OnlineDefragmenter) (t : gmap string (list nat)) (new : list nat) : Prop := {
  rs_inv : defrag_inv s';
  rs_blocks : req_blocks s' = t;
  rs_resolve : forall b, resolve s' b = resolve s b;
  rs_cache : cache_utils s' = cache_utils s;
  rs_threshold : threshold s' = threshold s;
  rs_length : forall n, (length (fwd_mapping_table s) <= n)%nat -> Forall (fun b => b < n)%nat new ->
    (length (fwd_mapping_table s') <= n)%nat
}.

Lemma wp_add_blocks (s : OnlineDefragmenter) r :
  defrag_inv s -> wp (add_blocks r) (fun _ s' => requests_step s s' (add_to (req_blocks s) r) r.2) s.
Proof.
  intros Hs. destruct r as [id bs]. unfold add_blocks, add_to. cbn [fst snd].
  destruct bs as [|b0 bs0]; [wp_steps; by split|]. set (bs := b0 :: bs0). destruct Hs as [I1 I2 I3 I4 I5 I6].
  wp_steps. set (t := <[id := default [] (req_blocks s !! id) ++ bs]> (req_blocks s)).
  eapply wp_mono; [by apply (wp_extend (set_req_blocks t s))|]. intros [] s1 (f & b & E & H1 & H2 & H3 & H3' & H4). wp_steps.
  assert (Hres : forall b, resolve s1 b = resolve s b) by (intros; rewrite H4; done).
  assert (Htb : table_blocks t ≡ₚ table_blocks (req_blocks s) ++ bs).
  { unfold t. rewrite table_blocks_insert, (table_blocks_delete (req_blocks s) id). unfold dd_get. solve_Permutation. }
  eapply wp_mono; [apply (wp_count_blocks 1 s1 bs use_block); [done|by left|by subst|done]|].
  intros [] s2 (Hm & Hp & Hc). assert (Hres2 : forall b, resolve s2 b = resolve s b).
  { intros x. by rewrite (same_mapping_resolve _ _ _ Hm). }
  destruct Hm as [u ->]. subst s1. split; [|done|done|done|done|].
  2:{ intros n Hn Hnew. simpl. apply H3'; [done|]. rewrite Forall_forall in Hnew. clear -Hnew.
      assert (Hin : list_max bs ∈ bs) by (apply list_max_in; by destruct bs0). by apply Hnew. }
  split; try done.
  - intros j. rewrite Hc, (occ_resolve_ext _ _ _ _ Hres). unfold get_ref_count at 1. simpl. fold (get_ref_count s j). rewrite I3.
    rewrite (occ_perm _ _ _ (fmap_Permutation _ _ _ Htb)), fmap_app, occ_app.
    rewrite !(occ_resolve_ext _ _ _ _ Hres2). rewrite Z.mul_1_l. reflexivity.
  - simpl in H3. cbn [fwd_mapping_table set_used set_tables]. simpl req_blocks. rewrite Htb. apply Forall_app. split; [eapply Forall_impl; [exact I5|]; simpl; lia|].
    apply Forall_forall. intros x Hx%list_max_ge. change (b0 `max` list_max bs0)%nat with (list_max bs) in H2. lia.
Qed.

Lemma wp_drop_request (s : OnlineDefragmenter) id :
  defrag_inv s -> is_Some (req_blocks s !! id) ->
  wp (drop_request id) (fun _ s' => requests_step s s' (delete id (req_blocks s)) []) s.
Proof.
  intros [I1 I2 I3 I4 I5 I6] [bs Ebs]. unfold drop_request. wp_steps. rewrite Ebs.
  assert (Htb : table_blocks (req_blocks s) ≡ₚ bs ++ table_blocks (delete id (req_blocks s))).
  { rewrite (table_blocks_delete _ id). unfold dd_get. by rewrite Ebs. }
  assert (Hocc : forall j, get_ref_count s j = occ j (resolve s <$> bs) + occ j (resolve s <$> table_blocks (delete id (req_blocks s)))).
  { intros j. by rewrite I3, (occ_perm _ _ _ (fmap_Permutation _ _ _ Htb)), fmap_app, occ_app. }
  wp_step. eapply wp_mono; [apply (wp_count_blocks (-1) s bs free_block); [done|by right|done|]|].
  { intros _ j. rewrite Hocc. pose proof (occ_nonneg j (resolve s <$> table_blocks (delete id (req_blocks s)))). lia. }
  intros [] s2 (Hm & Hp & Hc). wp_steps. destruct Hm as [u ->]. split; [|done|done|done|done|done]. split; try done.
  - intros j. specialize (Hc j). unfold get_ref_count at 1 in Hc. unfold get_ref_count at 1. simpl in *.
    rewrite (occ_resolve_ext s) by done. rewrite Hc, Hocc. lia.
  - simpl. rewrite Htb in I5. by apply Forall_app in I5 as [_ ?].
Qed.

Definition add_all (t : gmap string (list nat)) (new_blocks : list (string * list nat)) := foldl add_to t new_blocks.
Definition drop_all (t : gmap string (list nat)) (ids : list string) := foldl (fun t id => delete id t) t ids.

Lemma requests_step_trans s1 s2 s3 t2 t3 new2 new3 :
  requests_step s1 s2 t2 new2 -> requests_step s2 s3 t3 new3 -> requests_step s1 s3 t3 (new2 ++ new3).
Proof.
  intros [A1 A2 A3 A4 A5 A6] [B1 B2 B3 B4 B5 B6]. split; try congruence.
  intros n Hn [H2 H3]%Forall_app. apply B6; [by apply A6|done].
Qed.

Lemma wp_add_all (s : OnlineDefragmenter) new :
  defrag_inv s -> wp (for_each add_blocks new) (fun _ s' => requests_step s s' (add_all (req_blocks s) new) (concat (snd <$> new))) s.
Proof.
  revert s. induction new as [|r new IH]; intros s Hs; simpl; [by wp_steps|].
  wp_step. eapply wp_mono; [by apply wp_add_blocks|]. intros [] s1 H1.
  eapply wp_mono; [apply IH, H1|]. intros [] s2 H2. rewrite (rs_blocks _ _ _ _ H1) in H2.
  by eapply requests_step_trans.
Qed.

Lemma wp_drop_all (s : OnlineDefragmenter) ids :
  defrag_inv s -> NoDup ids -> (forall id, id ∈ ids -> is_Some (req_blocks s !! id)) ->
  wp (for_each drop_request ids) (fun _ s' => requests_step s s' (drop_all (req_blocks s) ids) []) s.
Proof.
  revert s. induction ids as [|id ids IH]; intros s Hs Hnd Hin; simpl; [by wp_steps|].
  apply NoDup_cons in Hnd as [Hid Hnd]. wp_step. eapply wp_mono; [apply wp_drop_request; [done|apply Hin; by left]|].
  intros [] s1 H1. eapply wp_mono; [apply IH; [apply H1|done|]|].
  - intros x Hx. rewrite (rs_blocks _ _ _ _ H1). rewrite lookup_delete_ne by (by intros ->). apply Hin. by right.
  - intros [] s2 H2. rewrite (rs_blocks _ _ _ _ H1) in H2. exact (requests_step_trans _ _ _ _ _ [] [] H1 H2).
Qed.

Lemma wp_update_state (s : OnlineDefragmenter) new finished :
  defrag_inv s -> NoDup finished -> (forall id, id ∈ finished -> is_Some (add_all (req_blocks s) new !! id)) ->
  wp (update_state new finished) (fun _ s' => requests_step s s' (drop_all (add_all (req_blocks s) new) finished) (concat (snd <$> new))) s.
Proof.
  intros Hs Hnd Hin. unfold update_state. wp_steps. rewrite (di_enabled _ Hs). simpl. wp_step.
  eapply wp_mono; [by apply wp_add_all|]. intros [] s1 H1.
  eapply wp_mono; [apply wp_drop_all; [apply H1|done|by rewrite (rs_blocks _ _ _ _ H1)]|].
  intros [] s2 H2. rewrite (rs_blocks _ _ _ _ H1) in H2. rewrite <- (app_nil_r (concat _)). by eapply requests_step_trans.
Qed.

(** ** The plan *)

Lemma StronglySorted_lt_lookup (R : nat -> nat -> Prop) l i j x y :
  StronglySorted R l -> (i < j)%nat -> l !! i = Some x -> l !! j = Some y -> R x y.
Proof.
  intros Hs. revert i j. induction Hs as [|z l Hs IH Hz]; intros i j Hij; [done|].
  destruct j as [|j]; [lia|]. destruct i as [|i]; simpl.
  - intros [= <-] Hy. rewrite Forall_forall in Hz. apply Hz. by eapply list_elem_of_lookup_2.
  - apply IH. lia.
Qed.

(** The first [n] free ids from [from] on: in order, free, and none is left out. *)
Record first_free (n from : nat) (used l : list nat) : Prop := {
  ff_length : length l = n;
  ff_sorted : StronglySorted lt l;
  ff_free : Forall (fun x => (from <= x)%nat /\ x ∉ used) l;
  ff_all : forall k f x, l !! k = Some f -> (from <= x < f)%nat -> x ∉ used -> x ∈ take k l
}.

Lemma StronglySorted_seq_lt s n : StronglySorted lt (seq s n).
Proof.
  revert s. induction n as [|n IH]; intros s; simpl; [constructor|].
  constructor; [done|]. apply Forall_forall. intros i Hi%elem_of_seq. lia.
Qed.

Lemma elem_of_take_seq s n k x : (s <= x < s + Nat.min k n)%nat -> x ∈ take k (seq s n).
Proof. intros Hx. rewrite take_seq, elem_of_seq. lia. Qed.

Lemma free_from_first n from used :
  StronglySorted lt used -> Forall (fun u => from <= u)%nat used -> first_free n from used (free_from n from used).
Proof.
  revert n from. induction used as [|u used IH]; intros n from Hs Hu; simpl.
  { split; [by rewrite length_seq|apply StronglySorted_seq_lt| |].
    - apply Forall_forall. intros x Hx%elem_of_seq. split; [lia|apply not_elem_of_nil].
    - intros k f x [-> Hk]%lookup_seq Hx _. apply elem_of_take_seq. lia. }
  apply StronglySorted_cons in Hs as [Hus Hs]. apply Forall_cons in Hu as [Hfu Hu]. rewrite length_seq.
  rewrite take_seq. set (g := Nat.min n (u - from)).
  destruct (IH (n - (u - from))%nat (S u) Hs) as [L1 L2 L3 L4]; [eapply Forall_impl; [exact Hus|]; simpl; lia|].
  set (rest := free_from _ _ _) in *. rewrite Forall_forall in Hus, L3.
  split.
  - rewrite length_app, length_seq, L1. lia.
  - apply StronglySorted_app. split; [|split; [apply StronglySorted_seq_lt|done]].
    intros x y Hx%elem_of_seq Hy%L3. lia.
  - apply Forall_app. split; apply Forall_forall.
    + intros x Hx%elem_of_seq. split; [lia|]. intros [->|Hin]%elem_of_cons; [lia|]. specialize (Hus x Hin). lia.
    + intros x [Hx Hxu]%L3. split; [lia|]. intros [->|Hin]%elem_of_cons; [lia|done].
  - intros k f x Hk Hx Hxu. rewrite take_app, length_seq. apply elem_of_app. apply lookup_app_Some in Hk as [Hk|[Hk1 Hk2]].
    + left. apply lookup_seq in Hk as [-> Hk]. apply elem_of_take_seq. lia.
    + rewrite length_seq in Hk1, Hk2. pose proof (lookup_lt_Some _ _ _ Hk2) as Hlt.
      assert (Hne : x <> u) by (intros ->; apply Hxu; by left).
      destruct (Nat.lt_ge_cases x u) as [Hxu'|Hxu']; [left; apply elem_of_take_seq; lia|].
      right. apply (L4 _ f); [done|lia|]. intros Hin. apply Hxu. by right.
Qed.

(** The pairs planned are the first ones, until one would go up or the limit. *)
Lemma plan_swaps_spec (s : OnlineDefragmenter) limit pairs acc :
  Forall (fun p => is_Some (used_blocks s !! p.1) /\ used_blocks s !! p.2 = None) pairs -> len acc <= limit ->
  exists k, plan_swaps s limit pairs acc = Ok (acc ++ take k pairs) /\ (k <= length pairs)%nat /\
    Forall (fun p => p.2 < p.1)%nat (take k pairs) /\ len acc + Z.of_nat k <= limit /\
    (k = length pairs \/ len acc + Z.of_nat k = limit \/ exists u f, pairs !! k = Some (u, f) /\ (u < f)%nat).
Proof.
  revert acc. induction pairs as [|[u f] pairs IH]; intros acc Hp Hacc; cbn [plan_swaps].
  { exists 0%nat. rewrite app_nil_r. split_and!; [done|simpl; lia|by constructor|lia|by left]. }
  apply Forall_cons in Hp as [[Hu Hf] Hp]. simpl in Hu, Hf.
  destruct (Z.eqb_spec (len acc) limit) as [E|E]; simpl.
  { exists 0%nat. rewrite app_nil_r. split_and!; [done|lia|constructor|lia|right; left; lia]. }
  destruct (Nat.ltb_spec u f) as [Huf|Huf].
  { exists 0%nat. rewrite app_nil_r. split_and!; [done|lia|constructor|lia|]. right; right. by exists u, f. }
  rewrite !bool_decide_eq_true_2 by done. simpl.
  destruct (IH (acc ++ [(u, f)]) Hp) as (k & E1 & E2 & E3 & E4 & E5); [rewrite len_app; change (len [(u, f)]) with 1; lia|].
  rewrite len_app in E4, E5. change (len [(u, f)]) with 1 in E4, E5.
  exists (S k). rewrite E1, <- app_assoc. simpl. split_and!; [done|lia| |lia|].
  - constructor; [|done]. simpl. assert (u <> f) by (intros ->; destruct Hu as [? Hu]; congruence). lia.
  - destruct E5 as [E5|[E5|E5]]; [left; lia|right; left; lia|by right; right].
Qed.

(** ** Applying the swaps *)

Definition swaps (l : list (nat * nat)) (z : nat) : nat := foldl (fun z p => swap p.1 p.2 z) z l.

(** The ids that take part, each once. *)
Definition disjoint_pairs (l : list (nat * nat)) : Prop := NoDup ((l.*1) ++ (l.*2)).

Lemma disjoint_pairs_cons u v l :
  disjoint_pairs ((u, v) :: l) -> u <> v /\ ~ (u ∈ l.*1 ++ l.*2) /\ ~ (v ∈ l.*1 ++ l.*2) /\ disjoint_pairs l.
Proof.
  unfold disjoint_pairs. simpl. intros [Hu Hnd]%NoDup_cons. rewrite <- Permutation_middle in Hnd, Hu.
  apply NoDup_cons in Hnd as [Hv Hnd]. split_and!; [|set_solver|done|done]. intros ->. apply Hu. by left.
Qed.

Lemma swaps_other l z : z ∉ l.*1 ++ l.*2 -> swaps l z = z.
Proof.
  unfold swaps. revert z. induction l as [|[u v] l IH]; intros z Hz; simpl; [done|].
  assert (z <> u /\ z <> v /\ z ∉ (l.*1) ++ (l.*2)) as (Hu & Hv & Hl) by (simpl in Hz; set_solver).
  unfold swap at 2. rewrite !decide_False by done. by apply IH.
Qed.

Lemma swaps_pair l u v : disjoint_pairs l -> (u, v) ∈ l -> swaps l u = v /\ swaps l v = u.
Proof.
  induction l as [|[u0 v0] l IH]; [by intros _ ?%not_elem_of_nil|].
  intros (Hne & Hu0 & Hv0 & Hd)%disjoint_pairs_cons Hin. unfold swaps. simpl. fold (swaps l (swap u0 v0 u)) (swaps l (swap u0 v0 v)).
  unfold swap. apply elem_of_cons in Hin as [[= -> ->]|Hin].
  - rewrite decide_True, decide_False, decide_True by congruence. by rewrite !swaps_other.
  - assert (Hu : u ∈ l.*1) by (apply list_elem_of_fmap; by exists (u, v)).
    assert (Hv : v ∈ l.*2) by (apply list_elem_of_fmap; by exists (u, v)).
    rewrite !decide_False by set_solver. by apply IH.
Qed.

Lemma swaps_invol l z : disjoint_pairs l -> swaps l (swaps l z) = z.
Proof.
  intros Hd. destruct (decide (z ∈ l.*1 ++ l.*2)) as [[Hz|Hz]%elem_of_app|Hz].
  - apply list_elem_of_fmap in Hz as ([u v] & -> & Hin). simpl. destruct (swaps_pair l u v Hd Hin) as [-> ?]. done.
  - apply list_elem_of_fmap in Hz as ([u v] & -> & Hin). simpl. destruct (swaps_pair l u v Hd Hin) as [? ->]. done.
  - by rewrite !swaps_other by (rewrite ?swaps_other; done).
Qed.

(** The physical blocks have been renamed by [g]: requests see their blocks at
    the new places, and the counts moved with them. *)
Record renamed (g : nat -> nat) (s s' : OnlineDefragmenter) : Prop := {
  rn_inv : defrag_inv s';
  rn_blocks : req_blocks s' = req_blocks s;
  rn_length : length (fwd_mapping_table s') = length (fwd_mapping_table s);
  rn_resolve : forall b, (b < length (fwd_mapping_table s))%nat -> resolve s' b = g (resolve s b);
  rn_refs : forall z, get_ref_count s' (g z) = get_ref_count s z;
  rn_cache : cache_utils s' = cache_utils s;
  rn_threshold : threshold s' = threshold s
}.

Lemma renamed_refl s : defrag_inv s -> renamed (fun z => z) s s.
Proof. by split. Qed.

Lemma renamed_trans g h s1 s2 s3 : renamed g s1 s2 -> renamed h s2 s3 -> renamed (fun z => h (g z)) s1 s3.
Proof.
  intros [A1 A2 A3 A4 A5 A6 A7] [B1 B2 B3 B4 B5 B6 B7]. split; try congruence.
  intros b Hb. rewrite B4 by congruence. by rewrite A4.
Qed.

Lemma wp_swap_refs (s : OnlineDefragmenter) u v :
  0 < get_ref_count s u -> get_ref_count s v = 0 -> u <> v -> (forall k n, used_blocks s !! k = Some n -> 0 < n) ->
  wp (swap_refs u v) (fun _ s' => exists w, s' = set_used w s /\ (forall k n, w !! k = Some n -> 0 < n) /\
    forall z, default 0 (w !! z) = get_ref_count s (swap u v z)) s.
Proof.
  intros Hu Hv Hne Hpos. unfold swap_refs. wp_step. wp_step. rewrite Hv. wp_step.
  apply wp_set_ref_count; [lia|done|]. intros w1 Hw1 Hp1.
  apply wp_set_ref_count; [lia|lia|]. intros w2 Hw2 Hp2. exists w2. split; [done|]. split.
  - intros k n Hk. destruct (Hp2 k n Hk) as [H1|]; [|done]. simpl in H1. destruct (Hp1 k n H1); [by eapply Hpos|done].
  - intros z. rewrite Hw2. unfold get_ref_count at 2. simpl. rewrite Hw1. unfold swap.
    repeat case_decide; subst; done.
Qed.

Lemma update_mapping_ok (s : OnlineDefragmenter) x v :
  (x < length (fwd_mapping_table s))%nat -> (v < length (bwd_mapping_table s))%nat ->
  update_mapping x v s = Ret tt (set_tables (<[x := v]> (fwd_mapping_table s)) (<[v := x]> (bwd_mapping_table s)) s).
Proof.
  intros Hx Hv. unfold update_mapping, mbind, M_mbind, M_bind, get_state, modify, raise.
  rewrite (proj2 (Nat.leb_gt _ _)) by done. by rewrite (proj2 (Nat.leb_gt _ _)) by done.
Qed.

Lemma default_total (f : list nat) x d : (x < length f)%nat -> f !! x = Some (default d (f !! x)).
Proof. intros Hx. destruct (lookup_lt_is_Some_2 _ _ Hx) as [y ->]. done. Qed.

Lemma wp_apply_swap (s : OnlineDefragmenter) u v :
  defrag_inv s -> 0 < get_ref_count s u -> get_ref_count s v = 0 -> (v < u)%nat ->
  wp (apply_swap (u, v)) (fun _ s' => renamed (swap u v) s s') s.
Proof.
  intros [I1 I2 I3 I4 I5 I6] Hu Hv Hlt. pose proof I2 as [Il Ii].
  assert (Hbu : (u < length (bwd_mapping_table s))%nat).
  { rewrite I3 in Hu. apply occ_pos_iff, list_elem_of_fmap in Hu as (b & -> & Hb).
    rewrite Forall_forall in I5. specialize (I5 b Hb). rewrite <- Il. rewrite resolve_known by done.
    apply (inverse_bound _ _ b _ I2). by apply list_lookup_lookup_total_lt. }
  assert (Hbv : (v < length (bwd_mapping_table s))%nat) by lia.
  destruct (lookup_lt_is_Some_2 _ _ Hbu) as [x Hx]. destruct (lookup_lt_is_Some_2 _ _ Hbv) as [y Hy].
  pose proof (proj2 (Ii x u) Hx) as Hfx. pose proof (proj2 (Ii y v) Hy) as Hfy.
  unfold apply_swap. wp_step. eapply wp_mono; [apply wp_swap_refs; [done|done|lia|done]|].
  intros [] s1 (w & -> & Hw & Hcnt). unfold unresolve. wp_steps. simpl. rewrite Hx. wp_steps. simpl. rewrite Hy. wp_steps.
  pose proof (lookup_lt_Some _ _ _ Hfx). pose proof (lookup_lt_Some _ _ _ Hfy).
  unfold wp at 1. rewrite update_mapping_ok by done. unfold wp.
  rewrite update_mapping_ok by (simpl; rewrite length_insert; done). simpl.
  destruct (inverse_swap _ _ x y u v _ _ I2 Hfx Hfy ltac:(lia) eq_refl eq_refl) as [Hinv Hlk].
  set (f' := <[y := u]> _) in *. set (b' := <[u := y]> _) in *. set (s' := set_tables _ _ _).
  assert (Hlen : length f' = length (fwd_mapping_table s)) by (unfold f'; by rewrite !length_insert).
  assert (Hres : forall b, (b < length (fwd_mapping_table s))%nat -> resolve s' b = swap u v (resolve s b)).
  { intros b Hb. unfold resolve. change (enabled s') with (enabled s). change (fwd_mapping_table s') with f'.
    rewrite I1, Hlen, (proj2 (Nat.leb_gt _ _)) by done. simpl. rewrite Hlk.
    destruct (lookup_lt_is_Some_2 _ _ Hb) as [z ->]. done. }
  assert (Hrefs : forall z, get_ref_count s' (swap u v z) = get_ref_count s z).
  { intros z. unfold get_ref_count at 1. change (used_blocks s') with w. by rewrite Hcnt, swap_invol. }
  split; try done. split; try done.
  - intros j. rewrite <- (swap_invol u v j) at 1. rewrite Hrefs, I3.
    change (req_blocks s') with (req_blocks s). clear -Hres I5. induction I5 as [|b bs Hb _ IH]; [done|].
    rewrite !fmap_cons, !occ_cons, IH, Hres by done. f_equal.
    destruct (decide (resolve s b = swap u v j)) as [E|E].
    + rewrite decide_True; [done|]. by rewrite E, swap_invol.
    + rewrite decide_False; [done|]. intros E2. apply E. by rewrite <- E2, swap_invol.
  - change (fwd_mapping_table s') with f'. by rewrite Hlen.
Qed.

Lemma wp_apply_swaps (s : OnlineDefragmenter) l :
  defrag_inv s -> disjoint_pairs l ->
  Forall (fun p => 0 < get_ref_count s p.1 /\ get_ref_count s p.2 = 0 /\ (p.2 < p.1)%nat) l ->
  wp (for_each apply_swap l) (fun _ s' => renamed (swaps l) s s') s.
Proof.
  revert s. induction l as [|[u v] l IH]; intros s Hs Hd Hl; cbn [for_each].
  { wp_steps. by apply renamed_refl. }
  apply Forall_cons in Hl as [(Hu & Hv & Hlt) Hl]. destruct (disjoint_pairs_cons _ _ _ Hd) as (Hne & Hun & Hvn & Hd').
  wp_step. eapply wp_mono; [by apply wp_apply_swap|]. intros [] s1 H1.
  assert (Hsame : forall z, z ∈ ((l.*1) ++ (l.*2)) -> get_ref_count s1 z = get_ref_count s z).
  { intros z Hz. rewrite <- (rn_refs _ _ _ H1 z). f_equal. unfold swap. by rewrite !decide_False by (intros ->; done). }
  eapply wp_mono; [apply IH; [apply H1|done|]|].
  - apply Forall_forall. intros [a b] Hin. rewrite Forall_forall in Hl. specialize (Hl _ Hin). simpl in *.
    assert (a ∈ l.*1) by (apply list_elem_of_fmap; by exists (a, b)).
    assert (b ∈ l.*2) by (apply list_elem_of_fmap; by exists (a, b)).
    by rewrite !Hsame by set_solver.
  - intros [] s2 H2. exact (renamed_trans _ _ _ _ _ H1 H2).
Qed.

(** ** The whole defragmentation *)

Lemma sorted_keys_spec u : (forall j, j ∈ sorted_keys u <-> is_Some (u !! j)) /\ StronglySorted lt (sorted_keys u).
Proof.
  assert (Hp : sorted_keys u ≡ₚ elements (dom u)) by apply merge_sort_Permutation. split.
  - intros j. by rewrite Hp, elem_of_elements, elem_of_dom.
  - assert (Hs : StronglySorted (≤)%nat (sorted_keys u)) by (apply StronglySorted_merge_sort; apply _).
    assert (Hnd : NoDup (sorted_keys u)) by (rewrite Hp; apply NoDup_elements).
    clear Hp. revert Hnd. induction Hs as [|x l Hs IH Hx]; [constructor|]. intros [Hxl Hnd]%NoDup_cons.
    constructor; [by apply IH|]. apply Forall_forall. intros y Hy. rewrite Forall_forall in Hx. specialize (Hx y Hy).
    assert (x <> y) by (by intros ->). lia.
Qed.

(** The free ids the generator yields, whether or not id 0 is used. *)
Lemma free_from_keys n used : StronglySorted lt used -> first_free n 1 used (free_from n 1 used).
Proof.
  intros Hs. destruct used as [|[|u] used].
  - by apply free_from_first.
  - apply StronglySorted_cons in Hs as [Hu Hs]. cbn [free_from]. change (seq 1 (0 - 1)) with (@nil nat).
    rewrite take_nil. simpl. rewrite Nat.sub_0_r.
    destruct (free_from_first n 1 used Hs) as [L1 L2 L3 L4]; [eapply Forall_impl; [exact Hu|]; simpl; lia|].
    split; [done|done| |].
    + eapply Forall_impl; [exact L3|]. simpl. intros x [Hx Hxu]. split; [done|]. intros [->|]%elem_of_cons; [lia|done].
    + intros k f x Hk Hx Hxu. apply (L4 k f); [done|done|]. intros Hin. apply Hxu. by right.
  - apply free_from_first; [done|]. apply StronglySorted_cons in Hs as [Hu _]. constructor; [lia|].
    eapply Forall_impl; [exact Hu|]. simpl. lia.
Qed.

(** What is known of a plan of [k] swaps: [hi] are the used ids from the highest
    down, [lo] the free ones from the lowest up. *)
Record plan_ok (s : OnlineDefragmenter) (hi lo : list nat) (k : nat) : Prop := {
  po_length : length hi = length lo;
  po_hi : forall j, j ∈ hi <-> is_Some (used_blocks s !! j);
  po_desc : StronglySorted gt hi;
  po_lo : first_free (length hi) 1 hi lo;
  po_k : (k <= length hi)%nat;
  po_down : Forall (fun p => p.2 < p.1)%nat (take k (zip hi lo))
}.

Lemma plan_firsts s hi lo k : plan_ok s hi lo k -> (take k (zip hi lo)).*1 = take k hi /\ (take k (zip hi lo)).*2 = take k lo.
Proof. intros [Hl _ _ _ _ _]. by rewrite !fmap_take, fst_zip, snd_zip by lia. Qed.

Lemma StronglySorted_NoDup (R : nat -> nat -> Prop) l : (forall x, ~ R x x) -> StronglySorted R l -> NoDup l.
Proof.
  intros HR. induction 1 as [|x l Hs IH Hx]; constructor; [|done].
  intros Hin. rewrite Forall_forall in Hx. by apply (HR x), Hx.
Qed.

Lemma plan_disjoint s hi lo k : plan_ok s hi lo k -> disjoint_pairs (take k (zip hi lo)).
Proof.
  intros Hp. unfold disjoint_pairs. destruct (plan_firsts _ _ _ _ Hp) as [-> ->]. destruct Hp as [_ _ Hd [_ Hls Hlf _] _ _].
  apply NoDup_app. split_and!.
  - eapply sublist_NoDup; [|apply sublist_take]. apply (StronglySorted_NoDup gt); [lia|done].
  - intros x Hx%elem_of_take_sub Hy%elem_of_take_sub. rewrite Forall_forall in Hlf. by destruct (Hlf x Hy).
  - eapply sublist_NoDup; [|apply sublist_take]. apply (StronglySorted_NoDup lt); [lia|done].
Qed.

Lemma plan_counts (s : OnlineDefragmenter) hi lo k :
  defrag_inv s -> plan_ok s hi lo k ->
  Forall (fun p => 0 < get_ref_count s p.1 /\ get_ref_count s p.2 = 0 /\ (p.2 < p.1)%nat) (take k (zip hi lo)).
Proof.
  intros Hs [Hl Hhi _ [_ _ Hlf _] _ Hdown]. rewrite Forall_forall in Hlf. rewrite Forall_forall in Hdown.
  apply Forall_forall. intros [u f] Hin.
  specialize (Hdown _ Hin). apply elem_of_take_sub in Hin. simpl in *.
  apply elem_of_zip_l in Hin as Hu. apply elem_of_zip_r in Hin as Hf. split_and!; [| |done].
  - apply Hhi in Hu as [n Hn]. unfold get_ref_count. rewrite Hn. simpl. by apply (di_pos _ Hs u).
  - destruct (Hlf f Hf) as [_ Hnf]. unfold get_ref_count. destruct (used_blocks s !! f) eqn:E; [|done].
    exfalso. apply Hnf, Hhi. by eexists.
Qed.

Lemma used_iff (s : OnlineDefragmenter) j : defrag_inv s -> is_Some (used_blocks s !! j) <-> 0 < get_ref_count s j.
Proof.
  intros Hs. unfold get_ref_count. destruct (used_blocks s !! j) as [n|] eqn:E; simpl.
  - pose proof (di_pos _ Hs j n E). split; [done|by eexists].
  - split; [by intros []|lia].
Qed.

(** What is used afterwards: the places swapped in, and what was not swapped out. *)
Lemma used_after (s s' : OnlineDefragmenter) hi lo k j :
  defrag_inv s -> plan_ok s hi lo k -> renamed (swaps (take k (zip hi lo))) s s' ->
  is_Some (used_blocks s' !! j) <-> j ∈ take k lo \/ (j ∈ hi /\ j ∉ take k hi).
Proof.
  intros Hs Hp Hren. pose proof (plan_disjoint _ _ _ _ Hp) as Hd. destruct (plan_firsts _ _ _ _ Hp) as [E1 E2].
  pose proof (plan_counts s hi lo k Hs Hp) as Hc. rewrite Forall_forall in Hc. set (l := take k (zip hi lo)) in *.
  rewrite (used_iff s') by apply Hren. rewrite (po_hi _ _ _ _ Hp), (used_iff s) by done.
  rewrite <- (swaps_invol l j Hd) at 1. rewrite (rn_refs _ _ _ Hren).
  destruct (decide (j ∈ take k lo)) as [Hj|Hj].
  { rewrite <- E2 in Hj. apply list_elem_of_fmap in Hj as ([u f] & -> & Hin). simpl.
    destruct (swaps_pair l u f Hd Hin) as [_ ->]. destruct (Hc _ Hin) as (H1 & _). simpl in H1. split; [|done].
    intros _. left. rewrite <- E2. apply list_elem_of_fmap. by exists (u, f). }
  destruct (decide (j ∈ take k hi)) as [Hj2|Hj2].
  - rewrite <- E1 in Hj2. apply list_elem_of_fmap in Hj2 as ([u f] & -> & Hin). simpl.
    destruct (swaps_pair l u f Hd Hin) as [-> _]. destruct (Hc _ Hin) as (_ & H2 & _). simpl in H2. rewrite H2.
    split; [lia|]. intros [?|[_ Hn]]; [done|]. exfalso. apply Hn. rewrite <- E1. apply list_elem_of_fmap. by exists (u, f).
  - rewrite swaps_other by (rewrite E1, E2; set_solver). split; [by right|]. by intros [?|[? _]].
Qed.

Section plan.
Context (s s' : OnlineDefragmenter) (hi lo : list nat) (k : nat).
Context (Hs : defrag_inv s) (Hp : plan_ok s hi lo k) (Hren : renamed (swaps (take k (zip hi lo))) s s').

Lemma hi_desc i j a b : (i < j)%nat -> hi !! i = Some a -> hi !! j = Some b -> (b < a)%nat.
Proof. intros. by eapply (StronglySorted_lt_lookup gt); [apply Hp|..]. Qed.

Lemma plan_pair i a b : (i < k)%nat -> hi !! i = Some a -> lo !! i = Some b -> (b < a)%nat.
Proof.
  intros Hi Ha Hb. pose proof (po_down _ _ _ _ Hp) as Hdown. rewrite Forall_forall in Hdown.
  apply (Hdown (a, b)), (list_elem_of_lookup_2 _ i). rewrite lookup_take_lt by done.
  apply lookup_zip_with_Some. by exists a, b.
Qed.

Lemma not_taken i j : hi !! i = Some j -> j ∉ take k hi -> (k <= i)%nat.
Proof.
  intros Hi Hj. destruct (Nat.le_gt_cases k i); [done|]. exfalso. apply Hj, (list_elem_of_lookup_2 _ i).
  by rewrite lookup_take_lt.
Qed.

(** Below a used id, no swapped-out id is left as a hole. *)
Lemma below_not_taken x m :
  x ∈ hi -> (x < m)%nat -> m ∈ take k lo \/ (m ∈ hi /\ m ∉ take k hi) -> x ∉ take k hi.
Proof.
  intros Hxh Hx Hm [i Hi]%list_elem_of_lookup_1. apply lookup_take_Some in Hi as [Hi Hik].
  destruct (lookup_lt_is_Some_2 lo i) as [f Hf]; [rewrite <- (po_length _ _ _ _ Hp); by eapply lookup_lt_Some|].
  pose proof (plan_pair i x f Hik Hi Hf). destruct Hm as [Hm|[Hm Hm2]].
  - apply list_elem_of_lookup_1 in Hm as [i' Hi']. apply lookup_take_Some in Hi' as [Hi' Hik'].
    destruct (lookup_lt_is_Some_2 hi i') as [u Hu]; [rewrite (po_length _ _ _ _ Hp); by eapply lookup_lt_Some|].
    pose proof (plan_pair i' u m Hik' Hu Hi'). destruct (Nat.lt_total i i') as [Hii|[->|Hii]].
    + pose proof (hi_desc i i' x u Hii Hi Hu). lia.
    + rewrite Hf in Hi'. injection Hi' as ->. lia.
    + pose proof (StronglySorted_lt_lookup lt lo i' i m f (ff_sorted _ _ _ _ (po_lo _ _ _ _ Hp)) Hii Hi' Hf). lia.
  - apply list_elem_of_lookup_1 in Hm as [i' Hi']. pose proof (not_taken i' m Hi' Hm2).
    pose proof (hi_desc i i' x m ltac:(lia) Hi Hi'). lia.
Qed.

(** Below a used id, every free id was swapped in, unless the plan was cut off. *)
Lemma below_swapped_in x m :
  k = length hi \/ (exists u f, zip hi lo !! k = Some (u, f) /\ (u < f)%nat) ->
  x ∉ hi -> (1 <= x < m)%nat -> m ∈ take k lo \/ (m ∈ hi /\ m ∉ take k hi) -> x ∈ take k lo.
Proof.
  intros Hstop Hxh Hx Hm. pose proof (po_lo _ _ _ _ Hp) as [_ _ _ La]. destruct Hm as [Hm|[Hm Hm2]].
  - apply list_elem_of_lookup_1 in Hm as [i Hi]. apply lookup_take_Some in Hi as [Hi Hik].
    pose proof (La i m x Hi ltac:(lia) Hxh) as Hin. replace i with (Nat.min i k) in Hin by lia.
    rewrite <- take_take in Hin. by apply elem_of_take_sub in Hin.
  - apply list_elem_of_lookup_1 in Hm as [i Hi]. pose proof (not_taken i m Hi Hm2) as Hki.
    destruct Hstop as [->|(u & f & Huf & Hlt')]; [apply lookup_lt_Some in Hi; lia|].
    apply lookup_zip_with_Some in Huf as (u' & f' & [= -> ->] & Hu & Hf).
    apply (La k f' x Hf); [|done]. destruct (decide (k = i)) as [->|]; [rewrite Hu in Hi; injection Hi as ->; lia|].
    pose proof (hi_desc k i u' m ltac:(lia) Hu Hi). lia.
Qed.

(** The used ids are compact if the plan was not cut off. *)
Lemma compact m :
  k = length hi \/ (exists u f, zip hi lo !! k = Some (u, f) /\ (u < f)%nat) ->
  is_Some (used_blocks s' !! m) -> (m <= base.size (used_blocks s'))%nat.
Proof.
  intros Hstop Hm. assert (Hsub : seq 1 m ⊆+ elements (dom (used_blocks s'))).
  { apply NoDup_submseteq; [apply NoDup_seq|]. intros x Hx%elem_of_seq. apply elem_of_elements, elem_of_dom.
    destruct (decide (x = m)) as [->|Hxm]; [done|]. apply (used_after s s' hi lo k) in Hm; [|done..].
    apply (used_after s s' hi lo k); [done..|]. destruct (decide (x ∈ hi)) as [Hxh|Hxh].
    - right. split; [done|]. apply (below_not_taken x m Hxh); [lia|done].
    - left. apply (below_swapped_in x m Hstop Hxh); [lia|done]. }
  apply submseteq_length in Hsub. rewrite length_seq in Hsub.
  change (length (elements (dom (used_blocks s')))) with (base.size (dom (used_blocks s'))) in Hsub.
  by rewrite size_dom in Hsub.
Qed.
End plan.

(** The state in which [defragment] acts: a plan, and what came out of it. *)
Record defragmented (s s' : OnlineDefragmenter) (l : list (nat * nat)) (pad : Z) : Prop := {
  dg_renamed : renamed (swaps l) s s';
  dg_disjoint : disjoint_pairs l;
  dg_swaps : Forall (fun p => 0 < get_ref_count s p.1 /\ get_ref_count s p.2 = 0 /\ (p.2 < p.1)%nat) l;
  dg_pad : len l <= pad <= 512 /\ pad ∈ to_swap_pad_thresholds s;
  dg_compact : len l < 512 -> forall j, is_Some (used_blocks s' !! j) -> (j <= base.size (used_blocks s'))%nat
}.

Lemma pad_choice n : n <= 512 ->
  let pads := [8; 16; 32; 64; 128; 256; 512] in
  let pad := default 512 (head (filter (fun x => n <= x) pads)) in n <= pad <= 512 /\ pad ∈ pads.
Proof.
  intros Hn pads. set (l := filter (fun x => n <= x) pads).
  assert (Hin : 512 ∈ l) by (apply list_elem_of_filter; split; [done|unfold pads; set_solver]).
  destruct l as [|x l'] eqn:E; [by apply not_elem_of_nil in Hin|]. simpl.
  assert (Hx : x ∈ l) by (rewrite E; by left). unfold l in Hx. apply list_elem_of_filter in Hx as [Hx1 Hx2].
  split; [|done]. split; [done|]. unfold pads in Hx2. repeat (apply elem_of_cons in Hx2 as [->|Hx2]; [lia|]).
  by apply not_elem_of_nil in Hx2.
Qed.

Lemma last_greatest l j : StronglySorted lt l -> j ∈ l -> (j <= default 0%nat (last l))%nat.
Proof.
  intros Hs [i Hi]%list_elem_of_lookup_1. pose proof (lookup_lt_Some _ _ _ Hi) as Hlt. rewrite last_lookup.
  destruct (lookup_lt_is_Some_2 l (pred (length l))) as [x Hx]; [lia|]. rewrite Hx. simpl.
  destruct (decide (i = pred (length l))) as [->|]; [rewrite Hi in Hx; injection Hx as ->; done|].
  pose proof (StronglySorted_lt_lookup lt l i (pred (length l)) j x Hs ltac:(lia) Hi Hx). lia.
Qed.

Lemma reverse_desc l : StronglySorted lt l -> StronglySorted gt (reverse l).
Proof.
  induction 1 as [|x l Hs IH Hx]; [constructor|]. rewrite reverse_cons. apply StronglySorted_app. split; [|split; [done|repeat constructor]].
  intros a b Ha. rewrite elem_of_reverse in Ha. intros ->%list_elem_of_singleton. rewrite Forall_forall in Hx. exact (Hx a Ha).
Qed.

(** The first part of [defragment]: the plan. *)
Lemma defragment_plan (s : OnlineDefragmenter) asc :
  asc = sorted_keys (used_blocks s) ->
  exists k, plan_swaps s 512 (zip (reverse asc) (free_from (length asc) 1 asc)) [] =
      Ok (take k (zip (reverse asc) (free_from (length asc) 1 asc))) /\
    plan_ok s (reverse asc) (free_from (length asc) 1 asc) k /\ Z.of_nat k <= 512 /\
    (Z.of_nat k < 512 -> k = length (reverse asc) \/
       exists u f, zip (reverse asc) (free_from (length asc) 1 asc) !! k = Some (u, f) /\ (u < f)%nat).
Proof.
  intros ->. destruct (sorted_keys_spec (used_blocks s)) as [Hk1 Hk2]. set (asc := sorted_keys _) in *.
  pose proof (free_from_keys (length asc) asc Hk2) as [L1 L2 L3 L4]. set (lo := free_from _ _ _) in *.
  assert (Hzl : length (zip (reverse asc) lo) = length asc) by (rewrite length_zip, length_reverse; lia).
  destruct (plan_swaps_spec s 512 (zip (reverse asc) lo) []) as (k & E & E2 & E3 & E4 & E5).
  - apply Forall_forall. intros [u f] Hin. simpl. apply elem_of_zip_l in Hin as Hu. apply elem_of_zip_r in Hin as Hf.
    split; [apply Hk1; by apply elem_of_reverse|]. rewrite Forall_forall in L3. destruct (L3 f Hf) as [_ Hn].
    destruct (used_blocks s !! f) eqn:Ef; [|done]. exfalso. apply Hn, Hk1. by eexists.
  - done.
  - change (len []) with 0 in E4, E5. exists k. split; [done|]. split; [|split; [lia|]].
    + split; rewrite ?length_reverse; try done; [|by apply reverse_desc| |lia].
      * intros j. by rewrite elem_of_reverse.
      * split; [done|done| |].
        -- eapply Forall_impl; [exact L3|]. simpl. intros x. by rewrite elem_of_reverse.
        -- intros i f x Hi Hx. rewrite elem_of_reverse. intros Hxu. by apply (L4 i f).
    + rewrite length_reverse. intros Hk512. destruct E5 as [E5|[E5|E5]]; [left; lia|lia|by right].
Qed.

Lemma wp_defragment (s : OnlineDefragmenter) :
  defrag_inv s -> cache_utils s = true ->
  wp defragment (fun res s' => match res with
    | None => s' = s /\ forall j, is_Some (used_blocks s !! j) ->
        Z.of_nat j - threshold s <= Z.of_nat (base.size (used_blocks s))
    | Some (l, pad) => defragmented s s' l pad
    end) s.
Proof.
  intros Hs Hcache. unfold defragment. wp_steps. rewrite (di_enabled _ Hs). cbn [negb].
  destruct (sorted_keys_spec (used_blocks s)) as [Hk1 Hk2].
  destruct (defragment_plan s _ eq_refl) as (k & Eplan & Hplan & Hk & Hstop).
  assert (Hlen : len (sorted_keys (used_blocks s)) = Z.of_nat (base.size (used_blocks s))).
  { unfold len, sorted_keys. rewrite merge_sort_Permutation. f_equal.
    change (base.size (dom (used_blocks s)) = base.size (used_blocks s)). apply size_dom. }
  destruct (sorted_keys (used_blocks s)) as [|a0 asc'].
  { wp_steps. split; [done|]. by intros j []%Hk1%not_elem_of_nil. }
  set (asc := a0 :: asc') in *. clearbody asc. rewrite Hlen. case_match eqn:Ethr.
  { wp_steps. split; [done|]. intros j Hj%Hk1. pose proof (last_greatest _ _ Hk2 Hj). lia. }
  rewrite (di_pads _ Hs). cbn [last]. rewrite Eplan. wp_step. unfold lift_result. unfold wp at 1. wp_step.
  set (l := take k _) in *. pose proof (plan_disjoint _ _ _ _ Hplan) as Hd.
  eapply wp_mono; [apply wp_apply_swaps; [done|done|by apply plan_counts]|]. intros [] s' Hren. wp_steps.
  rewrite (rn_cache _ _ _ Hren), Hcache. apply wp_assert; [done|]. wp_steps.
  assert (Hll : len l = Z.of_nat k).
  { unfold len, l. rewrite length_take, length_zip, <- (po_length _ _ _ _ Hplan). pose proof (po_k _ _ _ _ Hplan). lia. }
  rewrite (di_pads _ (rn_inv _ _ _ Hren)). split; [done|done|by apply plan_counts| |].
  - rewrite (di_pads _ Hs). apply pad_choice. lia.
  - intros Hlt j Hj. eapply (compact s s'); [done..| |exact Hj]. apply Hstop. lia.
Qed.

(** ** Moving the data ([CacheSwapUtils])

    A cache is its list of rows, [block_size] rows to a block.  The tensor
    operations are parameters: [index_select] gathers rows, [index_copy] writes
    rows to given places.  The padding of the index lists is left out. *)
Section cache.
Context {A : Type}.
Context (index_select : list A -> list nat -> list A) (index_copy : list A -> list nat -> list A -> list A).

(** [(blocks * block_size).unsqueeze(-1) + block_slots], flattened. *)
Definition slots (block_size : nat) (blocks : list nat) : list nat :=
  blocks ≫= fun b => seq (b * block_size) block_size.

(** [forward] on one cache. *)
Definition forward (enable_prefix_caching : bool) (block_size : nat) (srcs dsts : list nat) (cache : list A) : list A :=
  let srcs := slots block_size srcs in
  let dsts := slots block_size dsts in
  let prev_srcs := index_select cache srcs in
  let cache := if enable_prefix_caching then index_copy cache srcs (index_select cache dsts) else cache in
  index_copy cache dsts prev_srcs.

(** What the documentation of the two operations says. *)
Record tensor_ops : Prop := {
  select_spec cache idx k : Forall (fun i => i < length cache)%nat idx ->
    index_select cache idx !! k = idx !! k ≫= (cache !!.);
  copy_length cache idx rows : length (index_copy cache idx rows) = length cache;
  copy_there cache idx rows k i : NoDup idx -> Forall (fun i => i < length cache)%nat idx ->
    length rows = length idx -> idx !! k = Some i -> index_copy cache idx rows !! i = rows !! k;
  copy_elsewhere cache idx rows i : i ∉ idx -> index_copy cache idx rows !! i = cache !! i
}.
Context (ops : tensor_ops) (bs : nat).

Lemma slots_cons b blocks : slots bs (b :: blocks) = seq (b * bs) bs ++ slots bs blocks.
Proof. done. Qed.

Lemma length_slots blocks : length (slots bs blocks) = (length blocks * bs)%nat.
Proof. induction blocks as [|b blocks IH]; [done|]. rewrite slots_cons, length_app, length_seq, IH. simpl. lia. Qed.

Lemma lookup_slots blocks k r : (r < bs)%nat -> slots bs blocks !! (k * bs + r)%nat = (fun b => b * bs + r)%nat <$> (blocks !! k).
Proof.
  intros Hr. revert k. induction blocks as [|b blocks IH]; intros k; [done|]. rewrite slots_cons. destruct k as [|k]; simpl.
  - rewrite lookup_app_l by (rewrite length_seq; lia). apply lookup_seq. lia.
  - rewrite lookup_app_r by (rewrite length_seq; lia). rewrite length_seq, <- IH. f_equal. lia.
Qed.

Lemma elem_of_slots blocks b r : (r < bs)%nat -> (b * bs + r)%nat ∈ slots bs blocks <-> b ∈ blocks.
Proof.
  intros Hr. induction blocks as [|x blocks IH]; [split; by intros ?%not_elem_of_nil|].
  rewrite slots_cons, elem_of_app, elem_of_cons, IH, elem_of_seq. split; [|intros [->|]; [left; lia|by right]].
  intros [Hx|]; [left|by right]. nia.
Qed.

Lemma slot_of i : (0 < bs)%nat -> exists b r, i = (b * bs + r)%nat /\ (r < bs)%nat.
Proof.
  intros Hbs. exists (i / bs)%nat, (i mod bs)%nat. pose proof (Nat.div_mod_eq i bs). pose proof (Nat.mod_upper_bound i bs). lia.
Qed.

Lemma NoDup_slots blocks : (0 < bs)%nat -> NoDup blocks -> NoDup (slots bs blocks).
Proof.
  intros Hbs. induction 1 as [|b blocks Hb Hnd IH]; [constructor|]. rewrite slots_cons. apply NoDup_app.
  split; [apply NoDup_seq|]. split; [|done]. intros i Hi%elem_of_seq Hin.
  destruct (slot_of i Hbs) as (b' & r & -> & Hr). apply elem_of_slots in Hin; [|done]. assert (b' = b) as -> by nia. done.
Qed.

Lemma slots_bound blocks n : (0 < bs)%nat -> Forall (fun b => b < n)%nat blocks -> Forall (fun i => i < n * bs)%nat (slots bs blocks).
Proof.
  intros Hbs Hb. apply Forall_forall. intros i Hi. destruct (slot_of i Hbs) as (b & r & -> & Hr).
  apply elem_of_slots in Hi; [|done]. rewrite Forall_forall in Hb. specialize (Hb b Hi). simpl in Hb. nia.
Qed.

Lemma length_select cache idx :
  Forall (fun i => i < length cache)%nat idx -> length (index_select cache idx) = length idx.
Proof.
  intros Hidx. apply Nat.le_antisymm; apply Nat.nlt_ge; intros Hlt.
  - destruct (lookup_lt_is_Some_2 (index_select cache idx) (length idx)) as [x Hx]; [lia|].
    rewrite (select_spec ops) in Hx by done. by rewrite lookup_ge_None_2 in Hx by lia.
  - pose proof (lookup_ge_None_2 (index_select cache idx) (length (index_select cache idx)) ltac:(lia)) as Hx.
    rewrite (select_spec ops) in Hx by done. destruct (lookup_lt_is_Some_2 idx _ Hlt) as [i Hi]. rewrite Hi in Hx. simpl in Hx.
    rewrite Forall_forall in Hidx. specialize (Hidx i (list_elem_of_lookup_2 _ _ _ Hi)). apply lookup_ge_None in Hx. lia.
Qed.

(** Copying the blocks [from] of one cache to the places [to] of another. *)
Lemma copy_blocks src dst from to n r :
  (0 < bs)%nat -> length src = (n * bs)%nat -> length dst = (n * bs)%nat -> (r < bs)%nat -> length from = length to ->
  NoDup to -> Forall (fun b => b < n)%nat from -> Forall (fun b => b < n)%nat to ->
  let res := index_copy dst (slots bs to) (index_select src (slots bs from)) in
  (forall k u v, from !! k = Some u -> to !! k = Some v -> res !! (v * bs + r)%nat = src !! (u * bs + r)%nat) /\
  (forall b, b ∉ to -> res !! (b * bs + r)%nat = dst !! (b * bs + r)%nat).
Proof.
  intros Hbs Ls Ld Hr Hft Hnd Bf Bt res.
  apply (slots_bound _ n Hbs) in Bf. apply (slots_bound _ n Hbs) in Bt. split.
  - intros k u v Hu Hv. unfold res. rewrite (copy_there ops _ _ _ (k * bs + r)%nat); [|by apply NoDup_slots|by rewrite Ld| |].
    + rewrite (select_spec ops) by (by rewrite Ls). by rewrite lookup_slots, Hu by done.
    + rewrite length_select by (by rewrite Ls). by rewrite !length_slots, Hft.
    + by rewrite lookup_slots, Hv by done.
  - intros b Hb. apply (copy_elsewhere ops). by rewrite elem_of_slots.
Qed.

(** Row [r] of block [b] is found in block [swaps l b] after the move. *)
Lemma forward_moves pc l n cache b r :
  (0 < bs)%nat -> disjoint_pairs l -> Forall (fun p => p.1 < n /\ p.2 < n)%nat l -> length cache = (n * bs)%nat ->
  pc = true \/ b ∉ l.*2 -> (r < bs)%nat ->
  forward pc bs l.*1 l.*2 cache !! (swaps l b * bs + r)%nat = cache !! (b * bs + r)%nat.
Proof.
  intros Hbs Hd Hl Hlen Hpc Hr. unfold forward. pose proof Hd as Hd'. unfold disjoint_pairs in Hd'.
  apply NoDup_app in Hd' as (N1 & Hdis & N2).
  assert (B1 : Forall (fun b => b < n)%nat l.*1) by (apply Forall_fmap; eapply Forall_impl; [exact Hl|]; by intros [? ?] [? ?]).
  assert (B2 : Forall (fun b => b < n)%nat l.*2) by (apply Forall_fmap; eapply Forall_impl; [exact Hl|]; by intros [? ?] [? ?]).
  assert (Ll : length l.*1 = length l.*2) by (by rewrite !length_fmap).
  set (mid := if pc then _ else cache). assert (Lm : length mid = (n * bs)%nat) by (unfold mid; destruct pc; rewrite ?(copy_length ops); done).
  destruct (copy_blocks cache mid l.*1 l.*2 n r Hbs Hlen Lm Hr Ll N2 B1 B2) as [Hto Helse].
  assert (Hmid : pc = true -> (forall k u v, l.*2 !! k = Some v -> l.*1 !! k = Some u -> mid !! (u * bs + r)%nat = cache !! (v * bs + r)%nat) /\
    forall b, b ∉ l.*1 -> mid !! (b * bs + r)%nat = cache !! (b * bs + r)%nat).
  { unfold mid. intros ->. destruct (copy_blocks cache cache l.*2 l.*1 n r Hbs Hlen Hlen Hr (eq_sym Ll) N1 B2 B1) as [Hm1 Hm2].
    split; [|done]. intros k u v Hv Hu. by apply (Hm1 k). }
  destruct (decide (b ∈ l.*1 ++ l.*2)) as [[Hb|Hb]%elem_of_app|Hb].
  - apply list_elem_of_fmap in Hb as ([u v] & -> & Hin). simpl. destruct (swaps_pair l u v Hd Hin) as [-> _].
    apply list_elem_of_lookup_1 in Hin as [k Hk]. by apply (Hto k u v); rewrite list_lookup_fmap, Hk.
  - destruct Hpc as [->|?]; [|done]. destruct (Hmid eq_refl) as [Hm _].
    apply list_elem_of_fmap in Hb as ([u v] & -> & Hin). simpl. destruct (swaps_pair l u v Hd Hin) as [_ ->].
    rewrite Helse by (apply Hdis, list_elem_of_fmap; by exists (u, v)).
    apply list_elem_of_lookup_1 in Hin as [k Hk]. by apply (Hm k u v); rewrite list_lookup_fmap, Hk.
  - rewrite swaps_other by done. rewrite Helse by set_solver.
    destruct pc; [|done]. apply Hmid; [done|]. set_solver.
Qed.
End cache.

(** ** The memory behind the renaming

    A program that writes and reads rows of blocks through [resolve], adds and
    drops requests and defragments, against the same program on a memory
    without a defragmenter. *)

Section memory.
Context {A : Type}.
Context (index_select : list A -> list nat -> list A) (index_copy : list A -> list nat -> list A -> list A).
Context (bs n : nat).

Inductive op :=
  | Update (new_blocks : list (string * list nat)) (finished_reqs : list string)
  | Write (b r : nat) (x : A)
  | Defragment.

Definition on_state {B} (m : MD B) : M (OnlineDefragmenter * list A) B := zoom fst (fun s p => (s, p.2)) m.

(** A step of the worker: prefix caching is on. *)
Definition run_op (o : op) : M (OnlineDefragmenter * list A) unit :=
  match o with
  | Update new finished => on_state (update_state new finished)
  | Write b r x => modify (fun p => (p.1, <[(resolve p.1 b * bs + r)%nat := x]> p.2))
  | Defragment =>
      res ← on_state defragment;
      match res with
      | None => mret tt
      | Some (l, _) => modify (fun p => (p.1, forward index_select index_copy true bs l.*1 l.*2 p.2))
      end
  end.

Definition spec_op (o : op) (mem : list A) : list A :=
  match o with Write b r x => <[(b * bs + r)%nat := x]> mem | _ => mem end.

(** Blocks are those of the cache, and requests finish once. *)
Fixpoint valid (t : gmap string (list nat)) (ops : list op) : Prop :=
  match ops with
  | [] => True
  | Update new finished :: ops =>
      Forall (fun b => b < n)%nat (concat (snd <$> new)) /\ NoDup finished /\
      (forall id, id ∈ finished -> is_Some (add_all t new !! id)) /\
      valid (drop_all (add_all t new) finished) ops
  | Write b r x :: ops => (b < n)%nat /\ (r < bs)%nat /\ valid t ops
  | Defragment :: ops => valid t ops
  end.

(** What is read through the renaming is what the plain memory holds. *)
Record memory_rel (p : OnlineDefragmenter * list A) (mem : list A) : Prop := {
  mr_inv : defrag_inv p.1;
  mr_cache : cache_utils p.1 = true;
  mr_known : (length (fwd_mapping_table p.1) <= n)%nat;
  mr_length : length p.2 = (n * bs)%nat;
  mr_mem : length mem = (n * bs)%nat;
  mr_read : forall b r, (b < n)%nat -> (r < bs)%nat -> p.2 !! (resolve p.1 b * bs + r)%nat = mem !! (b * bs + r)%nat
}.

Lemma resolve_bound (s : OnlineDefragmenter) b :
  defrag_inv s -> (length (fwd_mapping_table s) <= n)%nat -> (b < n)%nat -> (resolve s b < n)%nat.
Proof.
  intros Hs Hn Hb. unfold resolve. rewrite (di_enabled _ Hs). simpl.
  destruct (Nat.leb_spec (length (fwd_mapping_table s)) b) as [|Hlt]; [done|].
  destruct (lookup_lt_is_Some_2 _ _ Hlt) as [j Hj]. rewrite Hj. simpl.
  pose proof (inverse_bound _ _ _ _ (di_tables _ Hs) Hj). lia.
Qed.

Lemma resolve_inj (s : OnlineDefragmenter) b c : defrag_inv s -> resolve s b = resolve s c -> b = c.
Proof.
  intros Hs. pose proof (di_tables _ Hs) as Hinv. pose proof Hinv as [_ Hi]. unfold resolve. rewrite (di_enabled _ Hs). simpl.
  destruct (Nat.leb_spec (length (fwd_mapping_table s)) b) as [Hb|Hb], (Nat.leb_spec (length (fwd_mapping_table s)) c) as [Hc|Hc]; [done| | |].
  - destruct (lookup_lt_is_Some_2 _ _ Hc) as [j Hj]. rewrite Hj. simpl. intros ->.
    pose proof (inverse_bound _ _ _ _ Hinv Hj). lia.
  - destruct (lookup_lt_is_Some_2 _ _ Hb) as [j Hj]. rewrite Hj. simpl. intros ->.
    pose proof (inverse_bound _ _ _ _ Hinv Hj). lia.
  - destruct (lookup_lt_is_Some_2 _ _ Hb) as [j Hj], (lookup_lt_is_Some_2 _ _ Hc) as [k Hk]. rewrite Hj, Hk. simpl. intros ->.
    apply Hi in Hj, Hk. congruence.
Qed.

Lemma write_rel p mem b r x :
  (0 < bs)%nat -> memory_rel p mem -> (b < n)%nat -> (r < bs)%nat ->
  memory_rel (p.1, <[(resolve p.1 b * bs + r)%nat := x]> p.2) (<[(b * bs + r)%nat := x]> mem).
Proof.
  intros Hbs [H1 H2 H3 H4 H5 H6] Hb Hr. split; simpl; rewrite ?length_insert; try done.
  pose proof (resolve_bound _ b H1 H3 Hb) as Hrb. intros c q Hc Hq.
  destruct (decide (c = b /\ q = r)) as [[-> ->]|Hne].
  - by rewrite !list_lookup_insert_eq by nia.
  - rewrite !list_lookup_insert_ne; [by apply H6| |].
    + intros E. apply Hne. assert (b = c) by nia. subst c. split; [done|nia].
    + intros E. apply Hne. assert (resolve p.1 b = resolve p.1 c) as Er by nia.
      pose proof (resolve_inj _ _ _ H1 Er) as ->. split; [done|nia].
Qed.

(** Swapped ids are known to the tables. *)
Lemma used_bound (s : OnlineDefragmenter) u :
  defrag_inv s -> 0 < get_ref_count s u -> (u < length (fwd_mapping_table s))%nat.
Proof.
  intros Hs Hu. rewrite (di_refs _ Hs) in Hu. apply occ_pos_iff, list_elem_of_fmap in Hu as (b & -> & Hb).
  pose proof (di_known _ Hs) as Hk. rewrite Forall_forall in Hk. specialize (Hk b Hb). simpl in Hk.
  rewrite resolve_known by (done || apply Hs). apply (inverse_bound _ _ b _ (di_tables _ Hs)).
  by apply list_lookup_lookup_total_lt.
Qed.

Lemma defragmented_bound s s' l pad :
  defrag_inv s -> defragmented s s' l pad ->
  Forall (fun p => p.1 < length (fwd_mapping_table s) /\ p.2 < length (fwd_mapping_table s))%nat l.
Proof.
  intros Hs [_ _ Hl _ _]. eapply Forall_impl; [exact Hl|]. simpl. intros [u v] (Hu & _ & Hlt). simpl in *.
  apply used_bound in Hu; [lia|done].
Qed.

Lemma defragment_rel p mem s' l pad :
  (0 < bs)%nat -> tensor_ops index_select index_copy -> memory_rel p mem -> defragmented p.1 s' l pad ->
  memory_rel (s', forward index_select index_copy true bs l.*1 l.*2 p.2) mem.
Proof.
  intros Hbs ops [H1 H2 H3 H4 H5 H6] Hdg. pose proof (defragmented_bound _ _ _ _ H1 Hdg) as Hb.
  pose proof Hdg as [[R1 R2 R3 R4 R5 R6 R7] Hd _ _ _]. split; simpl; try done; try congruence.
  - unfold forward. by rewrite !(copy_length _ _ ops).
  - intros b r Hbn Hr. assert (Hres : resolve s' b = swaps l (resolve p.1 b)).
    { destruct (Nat.lt_ge_cases b (length (fwd_mapping_table p.1))) as [Hlt|Hge]; [by apply R4|].
      assert (Eb : resolve p.1 b = b).
      { unfold resolve. rewrite (proj2 (Nat.leb_le _ _)) by done. by rewrite orb_true_r. }
      rewrite Eb, swaps_other.
      - unfold resolve. rewrite R3, (proj2 (Nat.leb_le _ _)) by done. by rewrite orb_true_r.
      - rewrite Forall_forall in Hb. rewrite elem_of_app, !list_elem_of_fmap.
        intros [([u v] & -> & Hin)|([u v] & -> & Hin)]; destruct (Hb _ Hin); simpl in *; lia. }
    rewrite Hres, (forward_moves _ _ ops bs true l n); [by apply H6|done|done| |done|by left|done].
    eapply Forall_impl; [exact Hb|]. simpl. lia.
Qed.

Lemma wp_run_op o p mem :
  (0 < bs)%nat -> tensor_ops index_select index_copy -> memory_rel p mem -> valid (req_blocks p.1) [o] ->
  wp (run_op o) (fun _ p' => memory_rel p' (spec_op o mem) /\
    req_blocks p'.1 = match o with Update new finished => drop_all (add_all (req_blocks p.1) new) finished | _ => req_blocks p.1 end) p.
Proof.
  intros Hbs ops Hrel Hv. destruct o as [new finished|b r x|]; simpl in *.
  - destruct Hv as (Hb & Hnd & Hin & _). unfold on_state. wp_steps.
    eapply wp_mono; [apply wp_update_state; [apply Hrel|done|done]|]. intros [] s' [S1 S2 S3 S4 S5 S6].
    destruct Hrel as [H1 H2 H3 H4 H5 H6]. split; [|done]. split; simpl; try done; [congruence|by apply S6|].
    intros b r Hbn Hr. rewrite S3. by apply H6.
  - destruct Hv as (Hb & Hr & _). wp_steps. split; [|done]. by apply write_rel.
  - unfold on_state. wp_steps. eapply wp_mono; [apply wp_defragment; apply Hrel|]. intros [[l pad]|] s'; wp_steps.
    + intros Hdg. wp_steps. simpl. split; [by apply (defragment_rel p mem s' l pad)|]. apply Hdg.
    + intros [-> _]. wp_steps. split; [|done]. by destruct p.
Qed.

Lemma wp_run ops p mem :
  (0 < bs)%nat -> tensor_ops index_select index_copy -> memory_rel p mem -> valid (req_blocks p.1) ops ->
  wp (for_each run_op ops) (fun _ p' => memory_rel p' (foldl (fun m o => spec_op o m) mem ops)) p.
Proof.
  intros Hbs Hops. revert p mem. induction ops as [|o ops IH]; intros p mem Hrel Hv; simpl; [by wp_steps|].
  wp_step. eapply wp_mono; [apply (wp_run_op o p mem Hbs Hops Hrel)|].
  - destruct o; simpl in *; tauto.
  - intros [] p' [Hrel' Ht]. apply IH; [done|]. rewrite Ht. destruct o; simpl in *; tauto.
Qed.
End memory.

(** A new defragmenter, its cache utilities set. *)
Definition ready (cfg_threshold : option Z) : OnlineDefragmenter :=
  match initialize (init_defrag cfg_threshold true) with Ret _ s | Raise _ s => s end.

Lemma ready_inv t : defrag_inv (ready t).
Proof. split; try done. Qed.

(** ** Properties *)

(** C34: the defragmenter is invisible.  From a new one, any sequence of adding
    and dropping requests, writing rows through the renaming and defragmenting
    returns, and every row read through the renaming is what a memory without
    a defragmenter holds (with prefix caching, so that swaps go both ways). *)
Theorem defragmenter_refines_memory {A} (select : list A -> list nat -> list A) (copy : list A -> list nat -> list A -> list A)
    bs n t ops cache :
  (0 < bs)%nat -> tensor_ops select copy -> length cache = (n * bs)%nat -> valid bs n ∅ ops ->
  exists s' cache', for_each (run_op select copy bs) ops (ready t, cache) = Ret tt (s', cache') /\
    forall b r, (b < n)%nat -> (r < bs)%nat ->
      cache' !! (resolve s' b * bs + r)%nat = foldl (fun m o => spec_op bs o m) cache ops !! (b * bs + r)%nat.
Proof.
  intros Hbs Hops Hlen Hv. assert (Hrel : memory_rel bs n (ready t, cache) cache).
  { split; try done. simpl. lia. }
  destruct (wp_elim _ _ _ (wp_run select copy bs n ops (ready t, cache) cache Hbs Hops Hrel Hv)) as ([] & [s' cache'] & E & H').
  exists s', cache'. split; [done|]. apply H'.
Qed.

(** C35: [update_state] keeps the books: the count of a physical block is the
    number of times a live request holds it, no renaming changes, and it does
    not raise when the finished requests are known and named once. *)
Theorem update_state_spec (s : OnlineDefragmenter) new finished :
  defrag_inv s -> NoDup finished -> (forall id, id ∈ finished -> is_Some (add_all (req_blocks s) new !! id)) ->
  exists s', update_state new finished s = Ret tt s' /\ defrag_inv s' /\
    req_blocks s' = drop_all (add_all (req_blocks s) new) finished /\ forall b, resolve s' b = resolve s b.
Proof.
  intros Hs Hnd Hin. destruct (wp_elim _ _ _ (wp_update_state s new finished Hs Hnd Hin)) as ([] & s' & E & [? ? ? ? ? ?]).
  by exists s'.
Qed.

(** One defragmentation.  It does nothing unless the highest used id exceeds
    the number of used blocks by more than the threshold; otherwise it swaps
    used with free ids, downwards only, each id once and at most 512 pairs,
    keeps the books, and if it was not cut off at 512 it leaves no gap: every
    used id is at most the number of used blocks. *)
Theorem defragment_spec (s : OnlineDefragmenter) :
  defrag_inv s -> cache_utils s = true ->
  exists res s', defragment s = Ret res s' /\ defrag_inv s' /\ req_blocks s' = req_blocks s /\
    match res with
    | None => s' = s /\ forall j, is_Some (used_blocks s !! j) ->
        Z.of_nat j - threshold s <= Z.of_nat (base.size (used_blocks s))
    | Some (l, pad) => defragmented s s' l pad
    end.
Proof.
  intros Hs Hc. destruct (wp_elim _ _ _ (wp_defragment s Hs Hc)) as (res & s' & E & H').
  exists res, s'. split; [done|]. destruct res as [[l pad]|].
  - split; [apply H'|]. split; [apply H'|done].
  - destruct H' as [-> H']. done.
Qed.

(** ** The theorems at concrete states *)

(** Index operations on lists. *)
Definition list_select (cache : list nat) (idx : list nat) : list nat := (fun i => cache !!! i) <$> idx.
Definition list_copy (cache : list nat) (idx rows : list nat) : list nat :=
  foldl (fun c p => <[p.1 := p.2]> c) cache (zip idx rows).

Lemma list_copy_elsewhere cache idx rows i : i ∉ idx -> list_copy cache idx rows !! i = cache !! i.
Proof.
  unfold list_copy. revert cache rows. induction idx as [|j idx IH]; intros cache rows Hi; [done|].
  destruct rows as [|x rows]; [done|]. simpl. apply not_elem_of_cons in Hi as [Hij Hi].
  rewrite IH by done. by rewrite list_lookup_insert_ne.
Qed.

Lemma list_copy_there cache idx rows k i :
  NoDup idx -> Forall (fun i => i < length cache)%nat idx -> length rows = length idx ->
  idx !! k = Some i -> list_copy cache idx rows !! i = rows !! k.
Proof.
  revert cache rows k. induction idx as [|j idx IH]; intros cache rows k; [done|].
  intros [Hj Hnd]%NoDup_cons [Hjl Hb]%Forall_cons Hlen Hk. destruct rows as [|x rows]; [done|].
  destruct k as [|k]; simpl in *.
  - injection Hk as ->. change (list_copy (<[i:=x]> cache) idx rows !! i = Some x).
    rewrite list_copy_elsewhere by done. by rewrite list_lookup_insert_eq.
  - apply IH; [done|by rewrite length_insert|lia|done].
Qed.

Lemma list_tensor_ops : tensor_ops list_select list_copy.
Proof.
  split.
  - intros cache idx k Hidx. unfold list_select. rewrite list_lookup_fmap. destruct (idx !! k) as [i|] eqn:E; [|done].
    simpl. symmetry. apply list_lookup_lookup_total_lt. rewrite Forall_forall in Hidx. apply Hidx.
    by eapply list_elem_of_lookup_2.
  - intros cache idx rows. unfold list_copy. revert cache rows.
    induction idx as [|j idx IH]; intros cache rows; [done|]. destruct rows as [|x rows]; [done|]. simpl.
    by rewrite IH, length_insert.
  - apply list_copy_there.
  - apply list_copy_elsewhere.
Qed.

(** Two requests, the first one finishes, the second one moves down. *)
Definition sample_ops : list (op (A := nat)) :=
  [Update [("a", [1; 2])] []; Update [("b", [9])] []; Write 9 1 7; Update [] ["a"]; Defragment; Write 9 0 5]%nat%string.

Lemma sample_ops_valid : valid 2 10 ∅ sample_ops.
Proof.
  repeat split; try (vm_compute; lia); try (by apply NoDup_nil); try (by intros id ?%not_elem_of_nil).
  - vm_compute. repeat constructor.
  - vm_compute. repeat constructor.
  - apply Forall_nil_2.
  - apply NoDup_singleton.
  - intros id ->%list_elem_of_singleton. vm_compute. by eexists.
Qed.

Lemma defragmenter_refines_memory_witness :
  exists s' cache', for_each (run_op list_select list_copy 2) sample_ops (ready (Some 2), seq 0 20) = Ret tt (s', cache') /\
    resolve s' 9 = 1%nat /\ cache' !! (resolve s' 9 * 2 + 1)%nat = Some 7%nat.
Proof.
  destruct (defragmenter_refines_memory list_select list_copy 2 10 (Some 2) sample_ops (seq 0 20) ltac:(lia) list_tensor_ops
    eq_refl sample_ops_valid) as (s' & cache' & E & H').
  exists s', cache'. split; [exact E|]. split.
  - vm_compute in E. injection E as <- _. reflexivity.
  - rewrite (H' 9 1)%nat by lia. reflexivity.
Defined.

Definition sample_defrag : OnlineDefragmenter :=
  match update_state [("a", [1; 2]); ("b", [9])]%nat%string ["a"%string] (ready (Some 2)) with Ret _ s | Raise _ s => s end.

Lemma sample_defrag_inv : defrag_inv sample_defrag /\ cache_utils sample_defrag = true.
Proof.
  assert (Hin : forall id, id ∈ ["a"%string] -> is_Some (add_all (req_blocks (ready (Some 2))) [("a", [1; 2]); ("b", [9])]%nat%string !! id)).
  { intros id ->%list_elem_of_singleton. vm_compute. by eexists. }
  split; [|reflexivity].
  destruct (wp_elim _ _ _ (wp_update_state (ready (Some 2)) _ _ (ready_inv _) (NoDup_singleton _) Hin)) as ([] & s' & E & [? ? ? ? ? ?]).
  unfold sample_defrag. by rewrite E.
Qed.

Lemma update_state_spec_witness :
  exists s', update_state [("c", [3])]%nat%string ["b"%string] sample_defrag = Ret tt s' /\ defrag_inv s'.
Proof.
  assert (Hin : forall id, id ∈ ["b"%string] -> is_Some (add_all (req_blocks sample_defrag) [("c", [3])]%nat%string !! id)).
  { intros id ->%list_elem_of_singleton. vm_compute. by eexists. }
  destruct (update_state_spec sample_defrag [("c", [3])]%nat%string ["b"%string] (proj1 sample_defrag_inv) (NoDup_singleton _) Hin)
    as (s' & E & Hs' & _).
  exists s'. split; [exact E|exact Hs'].
Defined.

Lemma defragment_spec_witness :
  exists l pad s', defragment sample_defrag = Ret (Some (l, pad)) s' /\ l = [(9, 1)]%nat /\ pad = 8 /\ defrag_inv s'.
Proof.
  destruct (defragment_spec sample_defrag (proj1 sample_defrag_inv) (proj2 sample_defrag_inv)) as (res & s' & E & Hs' & _).
  exists [(9, 1)]%nat, 8, s'. vm_compute in E. injection E as <- <-. split; [reflexivity|].
  split; [reflexivity|]. split; [reflexivity|exact Hs'].
Defined.
