(* ===== verification/PyOrder.v ===== *)
(** Order of Python values: comparison of integers and of tuples
    (lexicographic), [sorted], sets as lists without duplicates, and
    [bisect.bisect_left] of the standard library. *)

From Stdlib Require Import ZArith Lia.
From stdpp Require Import base numbers list sorting.
From S2P Require Import Prelude.

Open Scope Z_scope.

(** ** Comparison *)

(** [a < b] of Python. *)
Class PyOrd (A : Type) := py_lt : A -> A -> bool.

#[export] Instance Z_ord : PyOrd Z := Z.ltb.

(** Tuples are nested pairs to the left, so the order of a tuple is the
    lexicographic one. *)
#[export] Instance prod_ord {A B} `{PyOrd A, PyOrd B, EqDecision A} : PyOrd (A * B) := fun x y =>
  py_lt x.1 y.1 || (bool_decide (x.1 = y.1) && py_lt x.2 y.2).

(** What sorting and bisection rely on: a strict total order. *)
Class PyOrdLaws (A : Type) `{PyOrd A} := {
  py_lt_irrefl : forall a : A, py_lt a a = false;
  py_lt_trans : forall a b c : A, py_lt a b = true -> py_lt b c = true -> py_lt a c = true;
  py_lt_total : forall a b : A, py_lt a b = false -> py_lt b a = false -> a = b
}.

#[export] Instance Z_ord_laws : PyOrdLaws Z.
Proof. split; unfold py_lt, Z_ord; lia. Qed.

#[export] Instance prod_ord_laws {A B} `{PyOrdLaws A, PyOrdLaws B, EqDecision A} : PyOrdLaws (A * B).
Proof.
  split.
  - intros [a b]. unfold py_lt, prod_ord. simpl. by rewrite !py_lt_irrefl, andb_false_r.
  - intros [a1 b1] [a2 b2] [a3 b3]. unfold py_lt, prod_ord. simpl. rewrite !orb_true_iff, !andb_true_iff.
    rewrite !bool_decide_eq_true. intros [L1|[-> L1]] [L2|[-> L2]].
    + left. by eapply py_lt_trans.
    + by left.
    + by left.
    + right. split; [done|]. by eapply py_lt_trans.
  - intros [a1 b1] [a2 b2]. unfold py_lt, prod_ord. simpl. rewrite !orb_false_iff, !andb_false_iff.
    rewrite !bool_decide_eq_false. intros [L1 R1] [L2 R2]. pose proof (py_lt_total _ _ L1 L2) as ->.
    f_equal. apply py_lt_total; [by destruct R1|by destruct R2].
Qed.

Lemma py_lt_pair {A B} `{PyOrd A, PyOrd B, EqDecision A} (a a' : A) (b b' : B) :
  py_lt (a, b) (a', b') = py_lt a a' || (bool_decide (a = a') && py_lt b b').
Proof. done. Qed.

Lemma py_lt_Z (a b : Z) : py_lt a b = (a <? b).
Proof. done. Qed.

(** [a <= b] as the relation of the sorting functions. *)
Definition py_le `{PyOrd A} (a b : A) : Prop := py_lt b a = false.

#[export] Instance py_le_dec `{PyOrd A} : RelDecision (@py_le A _).
Proof. intros a b. unfold py_le. apply _. Defined.

#[export] Instance py_le_trans `{PyOrdLaws A} : Transitive (@py_le A _).
Proof.
  intros a b c Hab Hbc. unfold py_le in *. destruct (py_lt c a) eqn:Hca; [|done].
  destruct (py_lt a b) eqn:E; [by rewrite (py_lt_trans _ _ _ Hca E) in Hbc|].
  pose proof (py_lt_total _ _ E Hab) as ->. by rewrite Hca in Hbc.
Qed.

#[export] Instance py_le_total `{PyOrdLaws A} : Total (@py_le A _).
Proof.
  intros a b. unfold py_le. destruct (py_lt b a) eqn:E; [|by left]. right.
  destruct (py_lt a b) eqn:E'; [|done]. by rewrite <- (py_lt_irrefl a), (py_lt_trans _ _ _ E' E).
Qed.

#[export] Instance py_le_antisymm `{PyOrdLaws A} : AntiSymm (=) (@py_le A _).
Proof. intros a b Hab Hba. by apply py_lt_total. Qed.

Lemma py_lt_le `{PyOrdLaws A} (a b : A) : py_lt a b = true <-> py_le a b /\ a <> b.
Proof.
  split.
  - intros L. split.
    + unfold py_le. destruct (py_lt b a) eqn:E; [|done]. by rewrite <- (py_lt_irrefl a), (py_lt_trans _ _ _ L E).
    + intros ->. by rewrite py_lt_irrefl in L.
  - intros [Hle Hne]. destruct (py_lt a b) eqn:E; [done|]. exfalso. apply Hne. by apply py_lt_total.
Qed.

(** The order of integers and of triples, spelled out. *)
Lemma py_le_Z (a b : Z) : py_le a b <-> a <= b.
Proof. unfold py_le, py_lt, Z_ord. lia. Qed.

Lemma py_lt_triple (a b c a' b' c' : Z) :
  py_lt (a, b, c) (a', b', c') = true <-> a < a' \/ (a = a' /\ (b < b' \/ (b = b' /\ c < c'))).
Proof.
  cbv [py_lt prod_ord Z_ord fst snd].
  rewrite !orb_true_iff, !andb_true_iff, !bool_decide_eq_true, !Z.ltb_lt.
  split.
  - intros [[?|[-> ?]]|[[= -> ->] ?]]; auto.
  - intros [?|[-> [?|[-> ?]]]]; auto.
Qed.

(** ** Sorting *)

Definition sorted `{PyOrd A} (l : list A) : list A := merge_sort py_le l.

(** [sorted(set(l))]. *)
Definition sorted_set `{PyOrd A, EqDecision A} (l : list A) : list A := sorted (remove_dups l).

Section sorting.
Context {A : Type} `{PyOrdLaws A}.

Lemma sorted_perm (l : list A) : sorted l ≡ₚ l.
Proof. apply merge_sort_Permutation. Qed.

Lemma elem_of_sorted (l : list A) x : x ∈ sorted l <-> x ∈ l.
Proof. by rewrite sorted_perm. Qed.

Lemma sorted_sorted (l : list A) : StronglySorted py_le (sorted l).
Proof. apply (StronglySorted_merge_sort py_le l). Qed.

Lemma elem_of_sorted_set `{EqDecision A} (l : list A) x : x ∈ sorted_set l <-> x ∈ l.
Proof. unfold sorted_set. by rewrite elem_of_sorted, elem_of_remove_dups. Qed.

Lemma sorted_set_sorted `{EqDecision A} (l : list A) : StronglySorted py_le (sorted_set l).
Proof. apply sorted_sorted. Qed.

Lemma sorted_set_NoDup `{EqDecision A} (l : list A) : NoDup (sorted_set l).
Proof. unfold sorted_set. rewrite sorted_perm. apply NoDup_remove_dups. Qed.

(** A sorted list without duplicates is determined by its elements: the order
    in which a set is iterated cannot show in [sorted(set)]. *)
Lemma sorted_set_unique `{EqDecision A} (l k : list A) :
  StronglySorted py_le k -> NoDup k -> (forall x, x ∈ k <-> x ∈ l) -> sorted_set l = k.
Proof.
  intros Hk Hnd Hx. apply (StronglySorted_unique py_le); [apply sorted_set_sorted|done|].
  apply NoDup_Permutation; [apply sorted_set_NoDup|done|]. intros x. rewrite elem_of_sorted_set. by rewrite Hx.
Qed.

Lemma StronglySorted_lookup (l : list A) i j x y :
  StronglySorted py_le l -> l !! i = Some x -> l !! j = Some y -> (i <= j)%nat -> py_le x y.
Proof.
  intros Hs. revert i j. induction Hs as [|z l Hs IH Hz]; intros i j Hi Hj Hij; [done|].
  destruct i as [|i], j as [|j]; simpl in *.
  - simplify_eq. unfold py_le. apply py_lt_irrefl.
  - simplify_eq. rewrite Forall_forall in Hz. apply Hz. by eapply list_elem_of_lookup_2.
  - lia.
  - eapply IH; [done..|lia].
Qed.

(** ** Bisection *)

(** The loop of [bisect_left]. *)
Fixpoint bisect_loop (fuel : nat) (a : list A) (x : A) (lo hi : nat) : nat :=
  match fuel with
  | O => lo
  | S fuel' =>
      if (lo <? hi)%nat then
        let mid := ((lo + hi) / 2)%nat in
        match a !! mid with
        | Some y => if py_lt y x then bisect_loop fuel' a x (S mid) hi else bisect_loop fuel' a x lo mid
        | None => lo
        end
      else lo
  end.

Definition bisect_left (a : list A) (x : A) : nat := bisect_loop (length a) a x 0 (length a).

(** The halves of the list around the position: below, not below. *)
Definition splits_at (a : list A) (x : A) (i : nat) : Prop :=
  (forall j y, a !! j = Some y -> (j < i)%nat -> py_lt y x = true) /\
  (forall j y, a !! j = Some y -> (i <= j)%nat -> py_lt y x = false).

Lemma bisect_loop_splits fuel (a : list A) x lo hi :
  StronglySorted py_le a -> (hi - lo <= fuel)%nat -> (lo <= hi <= length a)%nat ->
  (forall j y, a !! j = Some y -> (j < lo)%nat -> py_lt y x = true) ->
  (forall j y, a !! j = Some y -> (hi <= j)%nat -> py_lt y x = false) ->
  splits_at a x (bisect_loop fuel a x lo hi).
Proof.
  intros Hs. revert lo hi. induction fuel as [|fuel IH]; intros lo hi Hf Hb Hlo Hhi; cbn [bisect_loop].
  { assert (lo = hi) as -> by lia. done. }
  destruct (Nat.ltb_spec lo hi); [|assert (lo = hi) as -> by lia; done].
  assert (Hm : (lo <= (lo + hi) / 2 < hi)%nat).
  { split; [apply Nat.div_le_lower_bound|apply Nat.Div0.div_lt_upper_bound]; lia. }
  set (mid := ((lo + hi) / 2)%nat) in *. clearbody mid.
  destruct (lookup_lt_is_Some_2 a mid) as [y Hy]; [lia|]. rewrite Hy. destruct (py_lt y x) eqn:E.
  - apply IH; [lia..| |done]. intros j z Hz Hj.
    apply py_lt_le in E as [Hyx Hne]. apply py_lt_le.
    assert (Hzy : py_le z y) by (eapply (StronglySorted_lookup _ j mid); [done..|lia]).
    split; [by etrans|]. intros ->. apply Hne. apply (anti_symm py_le); done.
  - apply IH; [lia..|done|]. intros j z Hz Hj.
    assert (Hyz : py_le y z) by (eapply (StronglySorted_lookup _ mid j); [done..|lia]).
    change (py_le x z). etrans; done.
Qed.

Lemma bisect_left_splits (a : list A) x : StronglySorted py_le a -> splits_at a x (bisect_left a x).
Proof.
  intros Hs. apply bisect_loop_splits; [done|lia|lia|lia|].
  intros j y Hy Hj. apply lookup_lt_Some in Hy. lia.
Qed.

End sorting.

