(* ===== verification/PyText.v ===== *)
(** Python strings as far as the configuration code reads them: [upper],
    [lower], [strip], [split] and the conversion [int] of a decimal string.
    Characters are ASCII. *)

From Stdlib Require Import ZArith Lia Ascii String.
From stdpp Require Import base strings numbers list.
From S2P Require Import Prelude.

Open Scope string_scope.
Open Scope Z_scope.

Definition chars (s : string) : list ascii := list_ascii_of_string s.
Definition text (l : list ascii) : string := string_of_list_ascii l.

Definition code (c : ascii) : Z := Z.of_N (N_of_ascii c).
Definition shift (d : Z) (c : ascii) : ascii := ascii_of_N (Z.to_N (code c + d)).

Definition upper_char (c : ascii) : ascii := if (97 <=? code c) && (code c <=? 122) then shift (-32) c else c.
Definition lower_char (c : ascii) : ascii := if (65 <=? code c) && (code c <=? 90) then shift 32 c else c.

(** [s.upper()], [s.lower()]. *)
Definition upper (s : string) : string := text (upper_char <$> chars s).
Definition lower (s : string) : string := text (lower_char <$> chars s).

(** [s.strip()]. *)
Definition is_space (c : ascii) : bool :=
  ((9 <=? code c) && (code c <=? 13)) || ((28 <=? code c) && (code c <=? 32)).
Fixpoint lstrip (l : list ascii) : list ascii :=
  match l with
  | [] => []
  | c :: l' => if is_space c then lstrip l' else l
  end.
Definition strip_chars (l : list ascii) : list ascii := rev (lstrip (rev (lstrip l))).
Definition strip (s : string) : string := text (strip_chars (chars s)).

(** [s.split(sep)] for a separator of one character: never empty. *)
Fixpoint split_chars (sep : ascii) (l : list ascii) : list (list ascii) :=
  match l with
  | [] => [[]]
  | c :: l' =>
      if decide (c = sep) then [] :: split_chars sep l'
      else match split_chars sep l' with
      | w :: ws => (c :: w) :: ws
      | [] => [[c]]
      end
  end.
Definition split (sep : ascii) (s : string) : list string := text <$> split_chars sep (chars s).

(** [int(s)]: blanks around, a sign, digits, and single underscores between
    digits. *)
Definition is_digit (c : ascii) : bool := (48 <=? code c) && (code c <=? 57).
Fixpoint digits (l : list ascii) (acc : Z) (after_digit : bool) : option Z :=
  match l with
  | [] => if after_digit then Some acc else None
  | c :: l' =>
      if is_digit c then digits l' (10 * acc + (code c - 48)) true
      else if bool_decide (c = "_"%char) && after_digit then digits l' acc false
      else None
  end.
Definition py_int (s : string) : result Z :=
  let value := match strip_chars (chars s) with
    | c :: l =>
        if decide (c = "-"%char) then Z.opp <$> digits l 0 false
        else if decide (c = "+"%char) then digits l 0 false
        else digits (c :: l) 0 false
    | [] => None
    end in
  match value with Some n => Ok n | None => Err ValueError end.

Example py_int_examples :
  (py_int " 12", py_int "-1_000", py_int "1__0", py_int "", py_int "0x10") =
  (Ok 12, Ok (-1000), Err ValueError, Err ValueError, Err ValueError).
Proof. reflexivity. Qed.

Lemma text_chars s : text (chars s) = s.
Proof. apply string_of_list_ascii_of_string. Qed.

Lemma chars_text l : chars (text l) = l.
Proof. apply list_ascii_of_string_of_list_ascii. Qed.
