(* ===== verification/BucketRanges.v ===== *)
(** The values that the HPU warm-up prepares graphs for, one dimension at a
    time: the linear, exponential and unified bucketing strategies
    ([src/vllm_gaudi/extension/bucketing/linear.py], [exponential.py],
    [unified.py]) and the rounding of a value that has no bucket
    ([calc_fallback_value] of [common.py]). *)

From Stdlib Require Import ZArith Lia.
From stdpp Require Import base strings numbers list sorting sets.
From S2P Require Import Prelude.
From S2P Require Import PyOrder.
From S2P Require Import PyText.

Open Scope Z_scope.
Open Scope string_scope.
Open Scope list_scope.
Open Scope Z_scope.

(** ** Configuration *)

(** What bucketing reads of [get_config()]. *)
Record RuntimeConfig := mkRuntimeConfig {
  merged_prefill : bool;
  use_contiguous_pa : bool;
  VLLM_EXPONENTIAL_BUCKETING : option bool;
  VLLM_PROMPT_QUERY_BUCKET_MIN : option Z;
  VLLM_BUCKETING_FROM_FILE : option string;
  PT_HPU_SDPA_QKV_SLICE_MODE_FWD : option bool;
  PT_HPU_SDPA_BC_FACTOR : option Z;
  VLLM_FUSEDSDPA_SLIDE_THLD : option Z
}.

(** A range is given by its minimum, step and maximum; for the exponential
    strategy also by the number of buckets. *)
Definition Cfg : Type := Z * Z * Z.
Definition LimitCfg : Type := Z * Z * Z * Z.

(** [math.ceil(math.log2(n))]: exact for the sizes in use (below 2^48). *)
Definition log2_ceil (n : Z) : result Z := if n <=? 0 then Err ValueError else Ok (Z.log2_up n).

(** [math.ceil(math.pow(n, 1 / 3))] for [1 < n]: the least integer whose cube
    reaches [n] (the float 1/3 is below a third and the error of [pow] is far
    smaller than the gap between cubes, for [n] below 2^45).  One bit at a
    time: the greatest integer whose cube is below [n], plus one. *)
Fixpoint cube_below (bits : nat) (acc n : Z) : Z :=
  match bits with
  | O => acc
  | S bits' =>
      let c := acc + 2 ^ Z.of_nat bits' in
      cube_below bits' (if c ^ 3 <? n then c else acc) n
  end.
Definition cbrt_ceil (n : Z) : Z := 1 + cube_below (S (Z.to_nat (Z.log2 n))) 0 n.

Definition calc_fallback_value (n base_step : Z) : result Z :=
  if n <=? 1 then Ok n else
  let bucket_size := cbrt_ceil n * base_step in
  steps ← ceildiv n bucket_size;
  Ok (steps * bucket_size).

(** ** The linear strategy *)

(** One parameter of a dimension: the variable of the environment, for
    queries also its older name, or the default. *)
Definition read_bucket_setting (environ : string -> option string) (phase dim p : string) (d : Z) : result Z :=
  let val :=
    match environ (upper ("VLLM_" +:+ phase +:+ "_" +:+ dim +:+ "_BUCKET_" +:+ p)) with
    | Some v => Some v
    | None =>
        if decide (dim = "query") then environ (upper ("VLLM_" +:+ phase +:+ "_SEQ_BUCKET_" +:+ p)) else None
    end in
  match val with Some v => py_int v | None => Ok d end.

Definition read_bucket_settings (environ : string -> option string) (phase dim : string) (min step max : Z) : result Cfg :=
  vmin ← read_bucket_setting environ phase dim "min" min;
  vstep ← read_bucket_setting environ phase dim "step" step;
  vmax ← read_bucket_setting environ phase dim "max" max;
  Ok (vmin, vstep, vmax).

(** [list(takewhile(x < bstep and x <= bmax, accumulate(repeat(2), mul)))]:
    doubling; the list has no end when the start is negative. *)
Fixpoint ramp_up (fuel : nat) (x bstep bmax : Z) : result (list Z) :=
  match fuel with
  | O => Err MemoryError
  | S fuel' =>
      if (x <? bstep) && (x <=? bmax) then rest ← ramp_up fuel' (x * 2) bstep bmax; Ok (x :: rest)
      else Ok []
  end.

Definition warmup_range (config : Cfg) : result (list Z) :=
  let '(bmin, bstep, bmax) := config in
  let add_zero_bucket := bmin =? 0 in
  guard_or (bmin <=? bmax) AssertionError;;
  if add_zero_bucket && (bmax =? 0) then Ok [0] else
  let bmin := if add_zero_bucket then bstep else bmin in
  guard_or (negb (bstep =? 0)) ValueError;;
  let stable := py_range bstep (bmax + 1) bstep in
  ramp_up_tw ← ramp_up (S (Z.to_nat bstep)) bmin bstep bmax;
  let buckets := filter (fun b => bmin <= b) (ramp_up_tw ++ stable) in
  Ok (if add_zero_bucket then buckets ++ [0] else buckets).

Definition linear_get_prompt_cfgs (rc : RuntimeConfig) (environ : string -> option string)
    (max_num_prefill_seqs block_size max_num_batched_tokens max_model_len : Z) : result (Cfg * Cfg * Cfg) :=
  prompt_bs_bucket_cfg ← read_bucket_settings environ "prompt" "bs" 1 1 max_num_prefill_seqs;
  prompt_query_bucket_cfg ← read_bucket_settings environ "prompt" "query" block_size block_size max_num_batched_tokens;
  let '(query_min, query_step, _) := prompt_query_bucket_cfg in
  max_ctx ← floordiv (max_model_len - query_min) block_size;
  prompt_ctx_bucket_cfg ← read_bucket_settings environ "prompt" "ctx" 0 1 max_ctx;
  if merged_prefill rc then
    prompt_ctx_bucket_cfg ← read_bucket_settings environ "prompt" "ctx" 0 4 (max_ctx * max_num_prefill_seqs);
    Ok ((1, 1, 1), (query_min, query_step * 4, max_num_batched_tokens), prompt_ctx_bucket_cfg)
  else Ok (prompt_bs_bucket_cfg, prompt_query_bucket_cfg, prompt_ctx_bucket_cfg).

(** [max_blocks] is [None] before the cache is allocated; comparing with it
    raises. *)
Definition linear_get_decode_cfgs (rc : RuntimeConfig) (environ : string -> option string)
    (max_num_seqs block_size max_num_batched_tokens max_model_len : Z) (max_blocks : option Z) : result (Cfg * Cfg * Cfg) :=
  decode_bs_bucket_cfg ← read_bucket_settings environ "decode" "bs" 1 32 max_num_seqs;
  blocks ← floordiv (max_model_len * max_num_seqs) block_size;
  let max_decode_blocks := if use_contiguous_pa rc then default 0 max_blocks else Z.max blocks block_size in
  decode_block_bucket_cfg ← read_bucket_settings environ "decode" "block" 1 block_size max_decode_blocks;
  match max_blocks with
  | None => Err TypeError
  | Some max_blocks =>
      let '(bmin, bstep, bmax) := decode_block_bucket_cfg in
      let decode_block_bucket_cfg :=
        if max_blocks <? bmax then
          (if max_blocks <? bmin then Z.max 1 (max_blocks - bstep) else bmin, bstep, max_blocks)
        else (bmin, bstep, bmax) in
      Ok (decode_bs_bucket_cfg, (1, 1, 1), decode_block_bucket_cfg)
  end.

Definition linear_get_range (cfg : Cfg) : result (list Z) := r ← warmup_range cfg; Ok (sorted r).

(** ** The exponential and the unified strategy *)

(** [power_steps bmin last n i step] stands for
    [math.ceil(bmin * np.float_power(last / bmin, 1 / (n - 1) * i) / step)],
    which numpy computes. *)
Class PowerSteps := power_steps : Z -> Z -> Z -> Z -> Z -> Z.

Definition exponential_get_prompt_cfgs (rc : RuntimeConfig)
    (max_num_prefill_seqs block_size max_num_batched_tokens max_model_len : Z) : result (LimitCfg * LimitCfg * LimitCfg) :=
  let query_min := if decide (VLLM_PROMPT_QUERY_BUCKET_MIN rc = Some 1) then 1 else block_size in
  bs_log ← log2_ceil max_num_prefill_seqs;
  let prompt_bs_bucket_cfg := (1, 2, max_num_prefill_seqs, bs_log + 1) in
  max_prompt_seq_limit ← log2_ceil max_num_batched_tokens;
  let prompt_query_bucket_cfg := (query_min, block_size, max_num_batched_tokens, max_prompt_seq_limit) in
  ctx ← floordiv (max_model_len - query_min) block_size;
  let max_ctx := Z.max 1 ctx in
  max_prompt_ctx_limit ← (if max_ctx =? 1 then Ok 2 else l ← log2_ceil max_ctx; Ok (l + 1));
  if merged_prefill rc then
    Ok ((1, 1, 1, 1), (query_min, block_size * 4, max_num_batched_tokens, max_prompt_seq_limit),
        (0, 4, max_ctx * max_num_prefill_seqs, max_prompt_ctx_limit))
  else Ok (prompt_bs_bucket_cfg, prompt_query_bucket_cfg, (0, 1, max_ctx, max_prompt_ctx_limit)).

Definition exponential_get_decode_cfgs (rc : RuntimeConfig)
    (max_num_seqs block_size max_num_batched_tokens max_model_len : Z) (max_blocks : option Z) :
    result (LimitCfg * LimitCfg * LimitCfg) :=
  bs_log ← log2_ceil max_num_seqs;
  match max_blocks with
  | None => Err TypeError
  | Some max_blocks =>
      block_log ← log2_ceil max_blocks;
      max_decode_blocks ←
        (if use_contiguous_pa rc then Ok max_blocks
         else per_seq ← floordiv max_model_len block_size; Ok (Z.min (per_seq * max_num_seqs) max_blocks));
      Ok ((1, 2, max_num_seqs, bs_log + 1), (1, 1, 1, 1), (1, max_num_seqs, max_decode_blocks, block_log + 1))
  end.

(** [warmup_range_with_limit], with [long_context] false as in its only call.
    The grid [linear_buckets] is computed (and needs a step) but not used. *)
Definition warmup_range_with_limit `{PowerSteps} (rc : RuntimeConfig) (config : LimitCfg) : result (list Z) :=
  let '(bmin_origin, bstep, bmax, num_buckets) := config in
  let add_zero_or_one_bucket := (bmin_origin =? 0) || (bmin_origin =? 1) in
  let bmin := if add_zero_or_one_bucket then bstep else bmin_origin in
  guard_or (negb (bstep =? 0)) ZeroDivisionError;;
  guard_or (0 <? num_buckets) AssertionError;;
  if num_buckets =? 1 then Ok [bmax] else
  let bucket i :=
    if (i =? num_buckets - 1) && use_contiguous_pa rc then bmax
    else power_steps bmin bmax num_buckets i bstep * bstep in
  Ok (sorted_set ((bucket <$> seqZ 0 num_buckets) ++ (if add_zero_or_one_bucket then [bmin_origin] else []))).

Definition exponential_get_range `{PowerSteps} (rc : RuntimeConfig) (cfg : LimitCfg) : result (list Z) :=
  r ← warmup_range_with_limit rc cfg; Ok (sorted r).

(** Minimum, maximum and turning point of queries, shared and unique blocks. *)
Definition get_unified_cfgs (bs max_model_len block_size : Z) (max_blocks : option Z) (max_num_batched_tokens : Z) :
    result (Cfg * Cfg * Cfg) :=
  shared ← floordiv max_model_len block_size;
  match max_blocks with
  | None => Err TypeError
  | Some max_blocks =>
      Ok ((1, max_num_batched_tokens, bs), (0, Z.min shared max_blocks, bs), (0, max_blocks, bs))
  end.

(** Ten buckets; the turning point, a positive number, is the step. *)
Definition warmup_unified_range `{PowerSteps} (cfg : Cfg) : list Z :=
  let '(bmin, bmax, turning_point) := cfg in
  let limit := 10 in
  let round_up := turning_point in
  let zero := if bmin =? 0 then [0] else [] in
  let bmin := if bmin =? 0 then 1 else bmin in
  let bucket i := if i =? limit - 1 then bmax else power_steps bmin bmax limit i round_up * round_up in
  sorted_set (zero ++ (bucket <$> seqZ 0 limit)).

Definition unified_get_range `{PowerSteps} (cfg : Cfg) : list Z := sorted (warmup_unified_range cfg).

(** ** Rounding *)

Lemma cube_below_spec bits acc n :
  0 <= acc -> acc ^ 3 < n <= (acc + 2 ^ Z.of_nat bits) ^ 3 ->
  let r := cube_below bits acc n in 0 <= r /\ r ^ 3 < n <= (r + 1) ^ 3.
Proof.
  revert acc. induction bits as [|bits IH]; intros acc Ha Hn; [done|]. cbn [cube_below].
  rewrite Nat2Z.inj_succ, Z.pow_succ_r in Hn by lia.
  pose proof (Z.pow_nonneg 2 (Z.of_nat bits) ltac:(lia)).
  destruct (Z.ltb_spec ((acc + 2 ^ Z.of_nat bits) ^ 3) n); apply IH; [lia| |lia|lia].
  replace (acc + 2 ^ Z.of_nat bits + 2 ^ Z.of_nat bits) with (acc + 2 * 2 ^ Z.of_nat bits) by lia. lia.
Qed.

Lemma cbrt_ceil_spec n : 1 <= n -> 1 <= cbrt_ceil n /\ (cbrt_ceil n - 1) ^ 3 < n <= cbrt_ceil n ^ 3.
Proof.
  intros Hn. unfold cbrt_ceil. pose proof (Z.log2_nonneg n) as Hlog.
  destruct (cube_below_spec (S (Z.to_nat (Z.log2 n))) 0 n ltac:(lia)) as [H0 H1].
  - split; [change (0 ^ 3) with 0; lia|]. rewrite Nat2Z.inj_succ, Z2Nat.id, Z.add_0_l by done.
    pose proof (proj2 (Z.log2_spec n ltac:(lia))) as Hlt.
    set (p := 2 ^ Z.succ (Z.log2 n)) in *. assert (1 <= p) by lia. nia.
  - split; [lia|]. rewrite Z.add_comm. replace (cube_below _ 0 n + 1 - 1) with (cube_below (S (Z.to_nat (Z.log2 n))) 0 n) by lia. done.
Qed.

Lemma calc_fallback_value_ok n base_step : 0 < base_step ->
  exists v, calc_fallback_value n base_step = Ok v /\ n <= v /\ (n <= 1 -> v = n) /\
    (1 < n -> (base_step | v) /\ v < n + cbrt_ceil n * base_step).
Proof.
  intros Hb. unfold calc_fallback_value. destruct (Z.leb_spec n 1); [exists n; split_and!; [done|lia..]|].
  destruct (cbrt_ceil_spec n ltac:(lia)) as [Hc _].
  set (size := cbrt_ceil n * base_step). assert (0 < size) by (unfold size; nia).
  rewrite ceildiv_ok by lia. simpl. eexists. split; [done|]. pose proof (cdiv_spec n size ltac:(lia)).
  split_and!; [nia|lia|]. intros _. split; [|nia]. exists (cdiv n size * cbrt_ceil n). unfold size. ring.
Qed.

(** ** The linear range *)

Lemma ramp_up_spec fuel x bstep bmax :
  1 <= x -> Z.max 0 (bstep - x) < Z.of_nat fuel -> exists l, ramp_up fuel x bstep bmax = Ok l /\
    forall y, y ∈ l <-> exists k, 0 <= k /\ y = x * 2 ^ k /\ y < bstep /\ y <= bmax.
Proof.
  revert x. induction fuel as [|fuel IH]; intros x Hx Hf; cbn [ramp_up]; [lia|].
  destruct ((x <? bstep) && (x <=? bmax)) eqn:E.
  - apply andb_true_iff in E as [E1%Z.ltb_lt E2%Z.leb_le].
    destruct (IH (x * 2) ltac:(lia) ltac:(lia)) as (l & -> & Hl). simpl. eexists. split; [done|].
    intros y. rewrite elem_of_cons, Hl. split.
    + intros [->|(k & Hk & -> & ?)]; [exists 0; rewrite Z.pow_0_r; lia|].
      exists (k + 1). split; [lia|]. rewrite Z.pow_add_r by lia. change (2 ^ 1) with 2. lia.
    + intros (k & Hk & Hy & ?). destruct (decide (k = 0)) as [->|]; [left; rewrite Z.pow_0_r in Hy; lia|].
      right. exists (k - 1). split; [lia|]. replace k with (k - 1 + 1) in Hy by lia.
      rewrite Z.pow_add_r in Hy by lia. change (2 ^ 1) with 2 in Hy. lia.
  - eexists. split; [done|]. intros y. split; [by intros ?%not_elem_of_nil|]. intros (k & Hk & -> & ? & ?).
    pose proof (Z.pow_pos_nonneg 2 k ltac:(lia) Hk). apply andb_false_iff in E as [E%Z.ltb_ge|E%Z.leb_gt]; nia.
Qed.

Lemma elem_of_range_fuel n i step y :
  y ∈ range_fuel n i step <-> exists k, 0 <= k < Z.of_nat n /\ y = i + k * step.
Proof.
  rewrite list_elem_of_lookup. split.
  - intros [k Hk]. pose proof (lookup_lt_Some _ _ _ Hk) as Hlt. rewrite length_range_fuel in Hlt.
    rewrite lookup_range_fuel in Hk by done. simplify_eq. exists (Z.of_nat k). lia.
  - intros (k & Hk & ->). exists (Z.to_nat k). rewrite lookup_range_fuel by lia. by rewrite Z2Nat.id by lia.
Qed.

Lemma elem_of_stable bstep bmax y : 0 < bstep ->
  y ∈ py_range bstep (bmax + 1) bstep <-> (bstep | y) /\ bstep <= y <= bmax.
Proof.
  intros Hb. unfold py_range. rewrite elem_of_range_fuel. pose proof (cdiv_spec (bmax + 1 - bstep) bstep Hb) as Hc.
  split.
  - intros (k & Hk & ->). split; [exists (k + 1); ring|]. split; [nia|].
    assert (k <= cdiv (bmax + 1 - bstep) bstep - 1) by lia. nia.
  - intros [[q ->] Hq]. exists (q - 1). split; [|ring].
    assert (1 <= q) by nia. split; [lia|]. assert (q - 1 < cdiv (bmax + 1 - bstep) bstep) by nia. lia.
Qed.

(** The values of the linear range: doubling from the minimum below the step,
    then the multiples of the step up to the maximum; a minimum of 0 is kept
    and the doubling starts at the step. *)
Definition linear_value (bmin bstep bmax y : Z) : Prop :=
  (1 <= bmin /\ exists k, 0 <= k /\ y = bmin * 2 ^ k /\ y < bstep /\ y <= bmax) \/
  ((bstep | y) /\ Z.max bmin bstep <= y <= bmax) \/ (bmin = 0 /\ y = 0).

Lemma warmup_range_ok bmin bstep bmax : 0 <= bmin <= bmax -> 0 < bstep ->
  exists l, warmup_range (bmin, bstep, bmax) = Ok l /\ forall y, y ∈ l <-> linear_value bmin bstep bmax y.
Proof.
  intros Hm Hb. unfold warmup_range. rewrite (proj2 (Z.leb_le _ _)) by lia. cbn [guard_or mbind result_mbind].
  destruct (Z.eqb_spec bmin 0) as [->|Hne]; simpl.
  - destruct (Z.eqb_spec bmax 0) as [->|]; simpl.
    { eexists. split; [done|]. intros y. rewrite list_elem_of_singleton. unfold linear_value.
      split; [intros ->; by right; right|]. intros [[? _]|[[_ ?]|[_ ->]]]; [lia..|done]. }
    rewrite (proj2 (Z.eqb_neq _ _)) by lia. cbn [negb guard_or mbind result_mbind].
    rewrite Z.ltb_irrefl. simpl. eexists. split; [done|].
    intros y. rewrite elem_of_app, list_elem_of_filter, elem_of_stable, list_elem_of_singleton by done.
    unfold linear_value. rewrite Z.max_r by lia. split.
    + intros [(? & ? & ?)| ->]; [right; left; split; [done|lia]|by right; right].
    + intros [[? _]|[[? ?]|[_ ?]]]; [lia|left|by right]. split; [lia|done].
  - rewrite (proj2 (Z.eqb_neq bstep _)) by lia. cbn [negb guard_or mbind result_mbind].
    destruct (ramp_up_spec (S (Z.to_nat bstep)) bmin bstep bmax ltac:(lia) ltac:(lia)) as (l & Hl & Hy).
    cbn [ramp_up] in Hl |- *. rewrite Hl. simpl. eexists. split; [done|].
    intros y. rewrite list_elem_of_filter, elem_of_app, elem_of_stable, Hy by done. unfold linear_value. split.
    + intros [Hge [?|[? ?]]]; [left; split; [lia|done]|right; left; split; [done|lia]].
    + intros [[? (k & Hk & -> & ?)]|[[? ?]|[? _]]]; [|split; [lia|right; split; [done|lia]]|lia].
      pose proof (Z.pow_pos_nonneg 2 k ltac:(lia) Hk). split; [nia|]. left. by exists k.
Qed.

(** Doubling reaches the interval from [v] to twice [v]. *)
Lemma doubling_reaches b v : 1 <= b <= v -> exists k, 0 <= k /\ v <= b * 2 ^ k < 2 * v.
Proof.
  remember (Z.to_nat (v - b)) as n eqn:En. revert b En. induction n as [n IH] using lt_wf_ind. intros b -> Hb.
  destruct (decide (b = v)) as [->|]; [exists 0; rewrite Z.pow_0_r; lia|].
  destruct (Z.le_gt_cases (2 * b) v) as [H2|H2].
  - destruct (IH (Z.to_nat (v - 2 * b)) ltac:(lia) (2 * b) eq_refl ltac:(lia)) as (k & Hk & Hv).
    exists (k + 1). split; [lia|]. rewrite Z.pow_add_r by lia. change (2 ^ 1) with 2. lia.
  - exists 1. change (2 ^ 1) with 2. lia.
Qed.

(** The last value of the range when the step fits. *)
Definition last_linear (bstep bmax : Z) : Z := bmax / bstep * bstep.

Lemma linear_value_covers bmin bstep bmax v :
  0 <= bmin <= bmax -> 0 < bstep -> 1 <= v -> bmin <= v <= last_linear bstep bmax ->
  exists b, linear_value bmin bstep bmax b /\ v <= b < v + bstep /\ (1 <= bmin -> b < 2 * v).
Proof.
  unfold last_linear. intros Hm Hs Hv Hb.
  pose proof (Z.mul_div_le bmax bstep Hs) as Hq. pose proof (cdiv_spec v bstep Hs) as Hc.
  assert (Hle : cdiv v bstep * bstep <= bmax).
  { assert (cdiv v bstep <= bmax / bstep) by (apply cdiv_le_iff; lia). nia. }
  assert (Hc1 : 0 < cdiv v bstep) by (destruct (Z.lt_ge_cases 0 (cdiv v bstep)); [done|nia]).
  assert (Hge : bstep <= cdiv v bstep * bstep) by nia.
  destruct (Z.lt_ge_cases v bstep) as [Hlt|].
  - destruct (decide (1 <= bmin)) as [H1|].
    2:{ exists (cdiv v bstep * bstep). split; [|lia]. right. left. split; [by eexists|lia]. }
    destruct (doubling_reaches bmin v ltac:(lia)) as (k & Hk & Hkv).
    destruct (Z.lt_ge_cases (bmin * 2 ^ k) bstep).
    + exists (bmin * 2 ^ k). split; [|lia]. left. split; [done|]. exists k. lia.
    + exists bstep. split; [|lia]. right. left. split; [done|lia].
  - exists (cdiv v bstep * bstep). split; [|lia]. right. left. split; [by eexists|lia].
Qed.

(** The linear strategy.  For a minimum not above the maximum and a positive
    step, [get_range] returns, sorted, the doublings of the minimum below the
    step and the multiples of the step up to the maximum.  A value up to the
    last multiple is rounded up by less than the step, and to less than its
    double; values behind the last multiple have no bucket even if they are
    below the maximum. *)
Theorem linear_range_spec bmin bstep bmax :
  0 <= bmin <= bmax -> 0 < bstep ->
  exists l, linear_get_range (bmin, bstep, bmax) = Ok l /\ StronglySorted py_le l /\
    (forall y, y ∈ l <-> linear_value bmin bstep bmax y) /\
    (forall v, 1 <= v -> bmin <= v <= last_linear bstep bmax ->
       exists b, b ∈ l /\ v <= b < v + bstep /\ (1 <= bmin -> b < 2 * v)) /\
    (bstep <= bmax -> forall y, y ∈ l -> y <= last_linear bstep bmax).
Proof.
  intros Hm Hs. destruct (warmup_range_ok bmin bstep bmax Hm Hs) as (l & E & Hl).
  unfold linear_get_range. rewrite E. simpl. exists (sorted l). split; [done|]. split; [apply sorted_sorted|].
  assert (Hy : forall y, y ∈ sorted l <-> linear_value bmin bstep bmax y) by (intros y; by rewrite elem_of_sorted).
  split; [done|]. split.
  - intros v H1 Hv. destruct (linear_value_covers bmin bstep bmax v Hm Hs H1 Hv) as (b & Hb & ?).
    exists b. split; [by apply Hy|done].
  - intros Hle y [[? (k & ? & _ & ? & ?)]|[[[q ->] ?]|[_ ->]]]%Hy; unfold last_linear.
    + pose proof (Z.div_le_lower_bound bmax bstep 1 Hs ltac:(lia)). nia.
    + assert (q <= bmax / bstep) by (apply Z.div_le_lower_bound; lia). nia.
    + pose proof (Z.div_pos bmax bstep ltac:(lia) Hs). nia.
Qed.

Lemma linear_range_spec_witness :
  exists l, linear_get_range (2, 32, 100) = Ok l /\ StronglySorted py_le l /\
    (forall y, y ∈ l <-> linear_value 2 32 100 y) /\
    (forall v, 1 <= v -> 2 <= v <= last_linear 32 100 ->
       exists b, b ∈ l /\ v <= b < v + 32 /\ (1 <= 2 -> b < 2 * v)) /\
    (32 <= 100 -> forall y, y ∈ l -> y <= last_linear 32 100).
Proof. apply (linear_range_spec 2 32 100); lia. Defined.

Example linear_range_example : linear_get_range (2, 32, 100) = Ok [2; 4; 8; 16; 32; 64; 96].
Proof. vm_compute. reflexivity. Qed.

(** ** The exponential ranges *)

(** What the ranges rely on of numpy's power: the power 0 is 1, and the power
    of the last step reaches the maximum (its exponent is 1 up to rounding, and
    the quotient is rounded up). *)
Class PowerLaws (P : PowerSteps) := {
  power_first : forall bmin last n step, 0 < bmin -> 0 < step -> 0 <= last ->
    power_steps bmin last n 0 step = cdiv bmin step;
  power_last : forall bmin last n step, 1 < n -> 0 < bmin -> 0 < step -> 0 <= last ->
    last <= power_steps bmin last n (n - 1) step * step
}.

(** The power computed exactly: the least number of steps whose [n-1]-th power
    is not below [bmin^(n-1-i) * last^i]. *)
Fixpoint least_steps (fuel : nat) (k step n target : Z) : Z :=
  match fuel with
  | O => k
  | S f => if target <=? (k * step) ^ (n - 1) then k else least_steps f (k + 1) step n target
  end.
Definition exact_power_steps : PowerSteps := fun bmin last n i step =>
  if i =? 0 then cdiv bmin step
  else least_steps (Z.to_nat (cdiv (Z.max bmin last) step)) 0 step n (bmin ^ (n - 1 - i) * last ^ i).

Lemma least_steps_reaches fuel k step n target :
  0 <= k -> 0 < step -> 1 < n -> target <= ((k + Z.of_nat fuel) * step) ^ (n - 1) ->
  let r := least_steps fuel k step n target in k <= r /\ target <= (r * step) ^ (n - 1).
Proof.
  revert k. induction fuel as [|fuel IH]; intros k Hk Hs Hn Ht; cbn [least_steps].
  - rewrite Z.add_0_r in Ht. simpl. lia.
  - destruct (Z.leb_spec target ((k * step) ^ (n - 1))); [simpl; lia|].
    destruct (IH (k + 1) ltac:(lia) Hs Hn) as [? ?]; [by replace (k + 1 + Z.of_nat fuel) with (k + Z.of_nat (S fuel)) by lia|].
    simpl. split; [lia|done].
Qed.

#[export] Instance exact_power_laws : PowerLaws exact_power_steps.
Proof.
  split; [done|]. intros bmin last n step Hn Hb Hs Hl. unfold power_steps, exact_power_steps.
  rewrite (proj2 (Z.eqb_neq _ _)) by lia. replace (n - 1 - (n - 1)) with 0 by lia. rewrite Z.pow_0_r, Z.mul_1_l.
  pose proof (cdiv_spec (Z.max bmin last) step Hs) as Hc.
  pose proof (cdiv_nonneg (Z.max bmin last) step Hs ltac:(lia)).
  destruct (least_steps_reaches (Z.to_nat (cdiv (Z.max bmin last) step)) 0 step n (last ^ (n - 1))) as [Hr Hp]; [lia..| |].
  { apply Z.pow_le_mono_l. lia. }
  set (r := least_steps _ _ _ _ _) in *. destruct (Z.le_gt_cases last (r * step)) as [|Hlt]; [done|].
  pose proof (Z.pow_lt_mono_l (r * step) last (n - 1) ltac:(nia) ltac:(nia)). lia.
Qed.

Lemma remove_dups_length `{EqDecision A} (l : list A) : (length (remove_dups l) <= length l)%nat.
Proof. induction l as [|x l IH]; simpl; [lia|]. case_decide; simpl; lia. Qed.

Lemma sorted_set_length `{PyOrd A, EqDecision A} (l : list A) : (length (sorted_set l) <= length l)%nat.
Proof. unfold sorted_set, sorted. rewrite merge_sort_Permutation. apply remove_dups_length. Qed.

(** What a range needs to be: sorted, without duplicates, every value on the
    grid of the step or one of the two given ends, few values, and a value at
    or above everything up to the maximum. *)
Record good_range (ends : list Z) (bstep bmax : Z) (count : Z) (l : list Z) : Prop := {
  gr_sorted : StronglySorted py_le l;
  gr_NoDup : NoDup l;
  gr_grid : forall y, y ∈ l -> y ∈ ends \/ (bstep | y);
  gr_count : len l <= count;
  gr_cover : forall v, v <= bmax -> exists b, b ∈ l /\ v <= b
}.

Lemma sorted_set_good ends bstep bmax count (k : list Z) :
  (forall y, y ∈ k -> y ∈ ends \/ (bstep | y)) -> len k <= count -> (exists b, b ∈ k /\ bmax <= b) ->
  good_range ends bstep bmax count (sorted (sorted_set k)).
Proof.
  intros Hg Hc (b & Hb & Hm). pose proof (sorted_perm (sorted_set k)) as Hp. split.
  - apply sorted_sorted.
  - rewrite Hp. apply sorted_set_NoDup.
  - intros y. rewrite elem_of_sorted, elem_of_sorted_set. apply Hg.
  - unfold len in *. rewrite Hp. pose proof (sorted_set_length k). lia.
  - intros v Hv. exists b. rewrite elem_of_sorted, elem_of_sorted_set. split; [done|lia].
Qed.

Lemma exponential_range_ok `{P : PowerSteps} `{!PowerLaws P} rc bmin bstep bmax n :
  0 <= bmin -> 0 < bstep -> 0 <= bmax -> 1 <= n ->
  exists l, exponential_get_range rc (bmin, bstep, bmax, n) = Ok l /\
    good_range [bmin; bmax] bstep bmax (n + 1) l /\
    (1 < n -> bmin <= 1 -> bmin ∈ l) /\ (1 < n -> 2 <= bmin -> (cdiv bmin bstep * bstep) ∈ l) /\
    (use_contiguous_pa rc = true -> bmax ∈ l).
Proof.
  intros Hmin Hstep Hmax Hn. unfold exponential_get_range, warmup_range_with_limit.
  rewrite (proj2 (Z.eqb_neq bstep 0)), (proj2 (Z.ltb_lt 0 n)) by lia. cbn [negb guard_or mbind result_mbind].
  set (zero := (bmin =? 0) || (bmin =? 1)).
  destruct (Z.eqb_spec n 1) as [->|Hn1].
  { cbn [mbind result_mbind]. exists [bmax]. split; [done|]. split; [|split; [intros; lia|split; [intros; lia|intros _; set_solver]]].
    assert (Hg : good_range [bmin; bmax] bstep bmax (1 + 1) (sorted (sorted_set [bmax]))); [|exact Hg].
    apply sorted_set_good; [set_solver|done|]. exists bmax. split; [set_solver|lia]. }
  cbn [mbind result_mbind]. eexists. split; [done|].
  set (b0 := if zero then bstep else bmin). assert (0 < b0) by (unfold b0, zero; repeat case_match; lia).
  set (bucket := fun i => if (i =? n - 1) && use_contiguous_pa rc then bmax else power_steps b0 bmax n i bstep * bstep).
  assert (Hin : forall i, 0 <= i < n -> bucket i ∈ bucket <$> seqZ 0 n).
  { intros i Hi. apply list_elem_of_fmap. exists i. split; [done|]. apply elem_of_seqZ. lia. }
  split.
  - apply sorted_set_good.
    + intros y [(i & -> & _)%list_elem_of_fmap|Hy]%elem_of_app.
      * unfold bucket. destruct (_ && _); [left; set_solver|right; by eexists].
      * left. destruct zero; set_solver.
    + rewrite len_app. unfold len. rewrite length_fmap, length_seqZ. destruct zero; simpl; lia.
    + exists (bucket (n - 1)). split; [apply elem_of_app; left; apply Hin; lia|].
      unfold bucket. destruct (_ && _); [done|]. by apply power_last; lia.
  - setoid_rewrite elem_of_sorted. setoid_rewrite elem_of_sorted_set. setoid_rewrite elem_of_app. split_and!.
    + intros _ Hb. right. assert (zero = true) as -> by (unfold zero; lia). set_solver.
    + intros _ Hb. left. assert (zero = false) as Hz by (unfold zero; lia).
      assert (E : bucket 0 = cdiv bmin bstep * bstep).
      { unfold bucket. rewrite (proj2 (Z.eqb_neq 0 (n - 1))) by lia. simpl. rewrite power_first by lia.
        unfold b0. by rewrite Hz. }
      rewrite <- E. apply Hin. lia.
    + intros Hc. left. assert (E : bucket (n - 1) = bmax) by (unfold bucket; by rewrite Z.eqb_refl, Hc).
      rewrite <- E at 1. apply Hin. lia.
Qed.

(** The exponential strategy returns at most [n + 1] values (so the number
    of graphs is logarithmic), sorted and without duplicates, on the grid of the
    step except for the ends; everything up to the maximum has a value at or
    above it; with contiguous attention the maximum itself is one. *)
Theorem exponential_range_spec `{P : PowerSteps} `{!PowerLaws P} rc bmin bstep bmax n :
  0 <= bmin -> 0 < bstep -> 0 <= bmax -> 1 <= n ->
  exists l, exponential_get_range rc (bmin, bstep, bmax, n) = Ok l /\
    good_range [bmin; bmax] bstep bmax (n + 1) l /\
    (1 < n -> bmin <= 1 -> bmin ∈ l) /\ (1 < n -> 2 <= bmin -> (cdiv bmin bstep * bstep) ∈ l) /\
    (use_contiguous_pa rc = true -> bmax ∈ l).
Proof. apply exponential_range_ok. Qed.

Definition sample_runtime : RuntimeConfig := mkRuntimeConfig false true None None None None None None.

Lemma exponential_range_spec_witness :
  exists l, exponential_get_range (H := exact_power_steps) sample_runtime (1, 32, 100, 5) = Ok l /\
    good_range [1; 100] 32 100 6 l /\
    (1 < 5 -> 1 <= 1 -> 1 ∈ l) /\ (1 < 5 -> 2 <= 1 -> (cdiv 1 32 * 32) ∈ l) /\
    (use_contiguous_pa sample_runtime = true -> 100 ∈ l).
Proof. apply (exponential_range_spec (P := exact_power_steps) sample_runtime 1 32 100 5); lia. Defined.

(** The example of the comment of [warmup_range_with_limit]. *)
Example exponential_doc_example :
  exponential_get_range (H := exact_power_steps) sample_runtime (128, 128, 2048, 10) =
  Ok [128; 256; 384; 512; 640; 896; 1152; 1536; 2048].
Proof. vm_compute. reflexivity. Qed.

Lemma unified_range_ok `{P : PowerSteps} bmin bmax turning_point :
  0 <= bmin -> 0 <= bmax -> 0 < turning_point ->
  let l := unified_get_range (bmin, bmax, turning_point) in
  good_range [bmin; bmax] turning_point bmax 11 l /\ bmax ∈ l /\ (bmin = 0 -> 0 ∈ l).
Proof.
  intros Hmin Hmax Ht l. unfold l, unified_get_range, warmup_unified_range.
  set (zero := if bmin =? 0 then [0] else []). set (b0 := if bmin =? 0 then 1 else bmin).
  set (bucket := fun i => if i =? 10 - 1 then bmax else power_steps b0 bmax 10 i turning_point * turning_point).
  assert (Hin : bmax ∈ bucket <$> seqZ 0 10) by (apply list_elem_of_fmap; exists 9; split; [done|apply elem_of_seqZ; lia]).
  split; [|rewrite !elem_of_sorted, !elem_of_sorted_set, !elem_of_app; split; [by right|]].
  - apply sorted_set_good.
    + intros y [Hy|(i & -> & _)%list_elem_of_fmap]%elem_of_app.
      * left. unfold zero in Hy. destruct (Z.eqb_spec bmin 0) as [->|]; [|by apply not_elem_of_nil in Hy].
        apply list_elem_of_singleton in Hy as ->. by left.
      * unfold bucket. destruct (i =? 10 - 1); [left; right; by left|right; by eexists].
    + rewrite len_app. unfold len. rewrite length_fmap, length_seqZ. unfold zero. destruct (bmin =? 0); simpl; lia.
    + exists bmax. split; [|lia]. apply elem_of_app. by right.
  - intros ->. left. by left.
Qed.

(** The unified strategy returns at most eleven values on the grid of the
    turning point and the two ends, with the maximum last, whatever the
    rounding of the powers. *)
Theorem unified_range_spec `{P : PowerSteps} bmin bmax turning_point :
  0 <= bmin -> 0 <= bmax -> 0 < turning_point ->
  let l := unified_get_range (bmin, bmax, turning_point) in
  good_range [bmin; bmax] turning_point bmax 11 l /\ bmax ∈ l /\ (bmin = 0 -> 0 ∈ l).
Proof. apply unified_range_ok. Qed.

Lemma unified_range_spec_witness :
  let l := unified_get_range (H := exact_power_steps) (0, 100, 32) in
  good_range [0; 100] 32 100 11 l /\ 100 ∈ l /\ (0 = 0 -> 0 ∈ l).
Proof. apply (unified_range_spec (P := exact_power_steps) 0 100 32); lia. Defined.
