(* ===== verification/BucketGen.v ===== *)
(** Lists of buckets: from the ranges of a strategy or from a file, with the
    filters and corrections of each phase, and the lookup of a bucket for a
    shape ([src/vllm_gaudi/extension/bucketing/common.py], module functions,
    and [file_strategy.py]). *)

From Stdlib Require Import ZArith Lia Ascii.
From stdpp Require Import base strings numbers list sorting sets.
From S2P Require Import Prelude.
From S2P Require Import PyOrder.
From S2P Require Import PyText.
From S2P Require Import BucketRanges.

Open Scope Z_scope.

(** Batch size, query length, blocks of context. *)
Abbreviation Bucket := (Z * Z * Z)%type.
(** Queries, shared blocks, unique blocks, and 1 for a causal batch. *)
Abbreviation UnifiedBucket := (Z * Z * Z * Z)%type.

(** The first three components of a tuple, which the lookup compares. *)
Class Dims (A : Type) := dims : A -> Z * Z * Z.
#[export] Instance bucket_dims : Dims Bucket := fun b => b.
#[export] Instance unified_dims : Dims UnifiedBucket := fun b => b.1.

(** ** Lookup *)

Definition is_greater_or_equal `{Dims A} (tuple1 tuple2 : A) : bool :=
  let '(a1, b1, c1) := dims tuple1 in
  let '(a2, b2, c2) := dims tuple2 in
  (a2 <=? a1) && (b2 <=? b1) && (c2 <=? c1).

Fixpoint first_greater `{Dims A} (l : list A) (target : A) : option A :=
  match l with
  | [] => None
  | b :: l' => if is_greater_or_equal b target then Some b else first_greater l' target
  end.

Definition find_equal_or_closest_greater_config `{PyOrd A, Dims A} (sorted_list : list A) (target_tuple : A) : option A :=
  let idx := bisect_left sorted_list target_tuple in
  first_greater (drop idx sorted_list) target_tuple.

(** ** Filters and corrections *)

(** [all(f(x) for f in filters)]: stops at the first that does not hold. *)
Fixpoint all_filters (filters : list (Bucket -> result bool)) (b : Bucket) : result bool :=
  match filters with
  | [] => Ok true
  | f :: rest => ok ← f b; if ok : bool then all_filters rest b else Ok false
  end.

(** The loops that collect what the filters accept, corrected. *)
Fixpoint collect (filters : list (Bucket -> result bool)) (corrector : Bucket -> result Bucket) (l : list Bucket) :
    result (list Bucket) :=
  match l with
  | [] => Ok []
  | b :: l' =>
      ok ← all_filters filters b;
      if ok : bool then c ← corrector b; rest ← collect filters corrector l'; Ok (c :: rest)
      else collect filters corrector l'
  end.

Definition not_over_max_model_len (max_model_len block_size : Z) (b : Bucket) : result bool :=
  let '(bs, query, ctx) := b in Ok (query + ctx * block_size <=? max_model_len).
Definition not_over_max_num_batched_tokens (max_num_batched_tokens : Z) (b : Bucket) : result bool :=
  let '(bs, query, ctx) := b in Ok (bs * query <=? max_num_batched_tokens).
Definition ctx_not_over_max_ctx_for_merged_prefill (max_num_prefill_seqs max_model_len block_size : Z) (b : Bucket) :
    result bool :=
  let '(bs, query, ctx) := b in
  q ← floordiv query max_num_prefill_seqs;
  c ← floordiv (max_model_len - q) block_size;
  Ok (ctx <=? max_num_prefill_seqs * c).
Definition batch_size_smaller_than_blocks (b : Bucket) : result bool :=
  let '(bs, query, ctx) := b in Ok (bs <=? ctx).

Definition no_corrections (b : Bucket) : result Bucket := Ok b.
Definition correct_for_max_model_len (max_model_len block_size : Z) (b : Bucket) : result Bucket :=
  let '(bs, query, ctx) := b in
  blocks ← ceildiv max_model_len block_size;
  Ok (bs, query, Z.min ctx (bs * blocks)).

Definition get_filters (rc : RuntimeConfig) (is_prompt : bool)
    (max_model_len max_num_prefill_seqs max_num_batched_tokens block_size : Z) : list (Bucket -> result bool) :=
  if is_prompt then
    if merged_prefill rc then [ctx_not_over_max_ctx_for_merged_prefill max_num_prefill_seqs max_model_len block_size]
    else [not_over_max_model_len max_model_len block_size; not_over_max_num_batched_tokens max_num_batched_tokens]
  else if use_contiguous_pa rc then [] else [batch_size_smaller_than_blocks].

Definition get_corrector (rc : RuntimeConfig) (is_prompt : bool) (max_model_len block_size : Z) : Bucket -> result Bucket :=
  if is_prompt || use_contiguous_pa rc then no_corrections else correct_for_max_model_len max_model_len block_size.

(** The pairs at an index, at the next in one or the other dimension, and at
    the next in both, as far as they exist. *)
Definition expand_to_neighbor_buckets (bs_idx : nat) (bs_range : list Z) (ctx_idx : nat) (ctx_range : list Z) : list (Z * Z) :=
  let candidates := [(bs_idx, ctx_idx); (S bs_idx, ctx_idx); (bs_idx, S ctx_idx); (S bs_idx, S ctx_idx)] in
  omap (fun '(b_idx, q_idx) =>
    match bs_range !! b_idx, ctx_range !! q_idx with Some b, Some q => Some (b, q) | _, _ => None end) candidates.

Definition generate_buckets (rc : RuntimeConfig) (bs_range query_range ctx_range : list Z) (is_prompt : bool)
    (max_model_len max_num_prefill_seqs max_num_batched_tokens block_size : Z)
    (file_buckets : option (list Bucket)) : result (list Bucket) :=
  let filters := get_filters rc is_prompt max_model_len max_num_prefill_seqs max_num_batched_tokens block_size in
  let corrector := get_corrector rc is_prompt max_model_len block_size in
  let candidates :=
    match file_buckets with
    | Some (b :: l) => b :: l
    | _ =>
        let buckets_2d := remove_dups (
          '(bs_idx, bs) ← imap pair bs_range;
          '(ctx_idx, ctx) ← imap pair ctx_range;
          if is_prompt then [(bs, ctx)] else expand_to_neighbor_buckets bs_idx bs_range ctx_idx ctx_range) in
        '(bs, ctx) ← buckets_2d; query ← query_range; [(bs, query, ctx)]
    end in
  buckets ← collect filters corrector candidates;
  match buckets with
  | [] => Err RuntimeError
  | _ => Ok (sorted_set buckets)
  end.

(** ** Unified attention *)

Definition unified_accepts (bs block_size max_model_len : Z) (b : UnifiedBucket) : result bool :=
  let '(query, shared_ctx, unique_ctx, causal) := b in
  if negb (causal =? 0) then
    let max_bs := Z.min bs query in
    q ← floordiv (shared_ctx * block_size) max_bs;
    Ok (q <=? max_model_len)
  else if query <=? bs then
    if (0 <? shared_ctx) || (0 <? unique_ctx) then
      fits ← (if shared_ctx =? 0 then Ok true
              else q ← floordiv (shared_ctx * block_size) (query / 2); Ok (q <=? max_model_len));
      Ok (fits && ((0 <? shared_ctx) || (query <=? unique_ctx)))
    else Ok false
  else Ok false.

Fixpoint collect_unified (bs block_size max_model_len : Z) (l : list UnifiedBucket) : result (list UnifiedBucket) :=
  match l with
  | [] => Ok []
  | b :: l' =>
      ok ← unified_accepts bs block_size max_model_len b;
      rest ← collect_unified bs block_size max_model_len l';
      Ok (if ok : bool then b :: rest else rest)
  end.

Definition generate_unified_buckets (query_range shared_ctx_range unique_ctx_range : list Z)
    (bs block_size max_model_len : Z) : result (list UnifiedBucket) :=
  buckets ← collect_unified bs block_size max_model_len
    (query ← query_range; shared_ctx ← shared_ctx_range; unique_ctx ← unique_ctx_range; causal ← [0; 1];
     [(query, shared_ctx, unique_ctx, causal)]);
  Ok (sorted_set buckets).

(** ** Buckets from a file *)

(** The values a line can evaluate to; floats are left out. *)
#[warnings="-register-all"]
Inductive PyVal :=
  | VInt (n : Z)
  | VStr (s : string)
  | VNone
  | VList (l : list PyVal)
  | VTuple (l : list PyVal)
  | VRange (i j step : Z).

Definition ensure_is_list (value : PyVal) : list PyVal :=
  match value with
  | VList l => l
  | VRange i j step => VInt <$> py_range i j step
  | v => [v]
  end.

(** [int(v)]. *)
Definition to_int (v : PyVal) : result Z :=
  match v with VInt n => Ok n | VStr s => py_int s | _ => Err TypeError end.

(** One line: nothing for a blank line, a comment, a line that does not
    evaluate, or one that is not a triple. *)
Definition line_buckets (eval : string -> option PyVal) (line : string) : result (list Bucket) :=
  let line := strip line in
  if bool_decide (line = EmptyString) || bool_decide (head (chars line) = Some "#"%char) then Ok []
  else match eval line with
  | Some (VTuple [x; y; z]) =>
      mapM (fun '(x, y, z) => x ← to_int x; y ← to_int y; z ← to_int z; Ok (x, y, z))
        (x ← ensure_is_list x; y ← ensure_is_list y; z ← ensure_is_list z; [(x, y, z)])
  | _ => Ok []
  end.

Definition is_decode (b : Bucket) : Prop := b.1.2 = 1.

Definition get_buckets (eval : string -> option PyVal) (lines : list string) (is_prompt : bool) : result (list Bucket) :=
  all ← mapM (line_buckets eval) lines;
  let buckets := concat all in
  Ok (sorted (if is_prompt then filter (fun b => ~ is_decode b) buckets else filter is_decode buckets)).

(** ** Lookup is exact *)

Section lookup.
Context {A : Type} `{PyOrdLaws A} `{!Dims A}.

Lemma first_greater_spec (l : list A) t : StronglySorted py_le l ->
  match first_greater l t with
  | Some b => b ∈ l /\ is_greater_or_equal b t = true /\
      forall b', b' ∈ l -> is_greater_or_equal b' t = true -> py_le b b'
  | None => forall b', b' ∈ l -> is_greater_or_equal b' t = false
  end.
Proof.
  induction 1 as [|b l Hs IH Hb]; simpl; [by intros b' ?%not_elem_of_nil|].
  rewrite Forall_forall in Hb. destruct (is_greater_or_equal b t) eqn:E.
  - split; [by left|]. split; [done|]. intros b' [->|Hb']%elem_of_cons _; [|by apply Hb].
    unfold py_le. apply py_lt_irrefl.
  - destruct (first_greater l t) as [b''|].
    + destruct IH as (? & ? & Hle). split; [by right|]. split; [done|].
      intros b' [->|Hb']%elem_of_cons Hg; [congruence|by apply Hle].
    + intros b' [->|Hb']%elem_of_cons; [done|by apply IH].
Qed.

Lemma StronglySorted_drop (l : list A) n : StronglySorted py_le l -> StronglySorted py_le (drop n l).
Proof.
  intros Hs. revert n. induction Hs as [|x l Hs IH Hx]; intros [|n]; simpl; [constructor..| |apply IH].
  by constructor.
Qed.

Lemma elem_of_drop_bisect (l : list A) t b : StronglySorted py_le l ->
  b ∈ drop (bisect_left l t) l <-> b ∈ l /\ py_le t b.
Proof.
  intros Hs. destruct (bisect_left_splits l t Hs) as [Hlt Hge]. rewrite !list_elem_of_lookup. split.
  - intros [i Hi]. rewrite lookup_drop in Hi. split; [by eexists|]. eapply Hge; [done|lia].
  - intros [[i Hi] Hle]. unfold py_le in Hle. destruct (Nat.lt_ge_cases i (bisect_left l t)) as [Hlt'|].
    + by rewrite (Hlt _ _ Hi Hlt') in Hle.
    + exists (i - bisect_left l t)%nat. rewrite lookup_drop. by replace (bisect_left l t + (i - bisect_left l t))%nat with i by lia.
Qed.

Lemma find_config_ok (l : list A) t : StronglySorted py_le l ->
  match find_equal_or_closest_greater_config l t with
  | Some b => b ∈ l /\ py_le t b /\ is_greater_or_equal b t = true /\
      forall b', b' ∈ l -> py_le t b' -> is_greater_or_equal b' t = true -> py_le b b'
  | None => forall b', b' ∈ l -> py_le t b' -> is_greater_or_equal b' t = false
  end.
Proof.
  intros Hs. unfold find_equal_or_closest_greater_config.
  pose proof (first_greater_spec (drop (bisect_left l t) l) t (StronglySorted_drop _ _ Hs)) as Hf.
  destruct (first_greater _ t) as [b|].
  - destruct Hf as (Hb & Hg & Hle). apply elem_of_drop_bisect in Hb as [Hb Htb]; [|done].
    split_and!; [done..|]. intros b' Hb' Htb' Hg'. apply Hle; [|done]. by apply elem_of_drop_bisect.
  - intros b' Hb' Htb'. apply Hf. by apply elem_of_drop_bisect.
Qed.

End lookup.

(** [b] is at least [t] in every dimension. *)
Definition dominates (b t : Bucket) : Prop := t.1.1 <= b.1.1 /\ t.1.2 <= b.1.2 /\ t.2 <= b.2.

Lemma ge_dominates (b t : Bucket) : is_greater_or_equal b t = true <-> dominates b t.
Proof.
  destruct b as [[a1 b1] c1], t as [[a2 b2] c2]. unfold is_greater_or_equal, dominates, dims, bucket_dims. simpl.
  rewrite !andb_true_iff, !Z.leb_le. tauto.
Qed.

Lemma dominates_le (b t : Bucket) : dominates b t -> py_le t b.
Proof.
  destruct b as [[a1 b1] c1], t as [[a2 b2] c2]. unfold dominates, py_le. simpl. intros (? & ? & ?).
  destruct (py_lt _ _) eqn:E; [|done]. apply py_lt_triple in E. lia.
Qed.

Lemma find_bucket_ok (l : list Bucket) t : StronglySorted py_le l ->
  match find_equal_or_closest_greater_config l t with
  | Some b => b ∈ l /\ dominates b t /\ forall b', b' ∈ l -> dominates b' t -> py_le b b'
  | None => forall b', b' ∈ l -> ~ dominates b' t
  end.
Proof.
  intros Hs. pose proof (find_config_ok l t Hs) as Hf.
  destruct (find_equal_or_closest_greater_config l t) as [b|].
  - destruct Hf as (Hb & _ & Hg & Hle). split; [done|]. split; [by apply ge_dominates|].
    intros b' Hb' Hd. apply Hle; [done|by apply dominates_le|by apply ge_dominates].
  - intros b' Hb' Hd. pose proof (Hf b' Hb' (dominates_le _ _ Hd)). apply ge_dominates in Hd. congruence.
Qed.

(** C36: the lookup.  In a sorted list of buckets the bisection and the scan
    behind it return the least bucket, in the order of tuples, that is at least
    the shape in every dimension, and nothing exactly when there is none. *)
Theorem find_bucket_spec (l : list Bucket) t : StronglySorted py_le l ->
  (forall b, find_equal_or_closest_greater_config l t = Some b <->
     b ∈ l /\ dominates b t /\ forall b', b' ∈ l -> dominates b' t -> py_le b b') /\
  (find_equal_or_closest_greater_config l t = None <-> forall b, b ∈ l -> ~ dominates b t).
Proof.
  intros Hs. pose proof (find_bucket_ok l t Hs) as Hf.
  destruct (find_equal_or_closest_greater_config l t) as [b0|].
  - destruct Hf as (Hb & Hd & Hle). split.
    + intros b. split; [by intros [= <-]|]. intros (Hb' & Hd' & Hle'). f_equal.
      apply (anti_symm py_le); [by apply Hle|by apply Hle'].
    + split; [done|]. intros Hn. by destruct (Hn b0 Hb).
  - split; [|done]. intros b. split; [done|]. intros (Hb & Hd & _). by destruct (Hf b Hb).
Qed.

Lemma find_bucket_spec_witness :
  let l := [(1, 32, 0); (1, 64, 4); (2, 32, 8)] in let t := (1, 20, 3) in
  (forall b, find_equal_or_closest_greater_config l t = Some b <->
     b ∈ l /\ dominates b t /\ forall b', b' ∈ l -> dominates b' t -> py_le b b') /\
  (find_equal_or_closest_greater_config l t = None <-> forall b, b ∈ l -> ~ dominates b t).
Proof.
  apply find_bucket_spec. repeat (constructor; [|repeat constructor; reflexivity]). constructor.
Defined.

(** ** Generation *)

(** What the filters of a phase accept and what the correction makes of it,
    with the divisions of the code, for positive sizes. *)
Definition accepted (rc : RuntimeConfig) (is_prompt : bool)
    (max_model_len max_num_prefill_seqs max_num_batched_tokens block_size : Z) (b : Bucket) : bool :=
  let '(bs, query, ctx) := b in
  if is_prompt then
    if merged_prefill rc then
      ctx <=? max_num_prefill_seqs * ((max_model_len - query / max_num_prefill_seqs) / block_size)
    else (query + ctx * block_size <=? max_model_len) && (bs * query <=? max_num_batched_tokens)
  else use_contiguous_pa rc || (bs <=? ctx).

Definition corrected (rc : RuntimeConfig) (is_prompt : bool) (max_model_len block_size : Z) (b : Bucket) : Bucket :=
  let '(bs, query, ctx) := b in
  if is_prompt || use_contiguous_pa rc then b else (bs, query, Z.min ctx (bs * cdiv max_model_len block_size)).

Section generate.
Context (rc : RuntimeConfig) (is_prompt : bool).
Context (max_model_len max_num_prefill_seqs max_num_batched_tokens block_size : Z).
Context (block_size_pos : 0 < block_size) (prefill_pos : 0 < max_num_prefill_seqs).

Abbreviation filters := (get_filters rc is_prompt max_model_len max_num_prefill_seqs max_num_batched_tokens block_size).
Abbreviation accept := (accepted rc is_prompt max_model_len max_num_prefill_seqs max_num_batched_tokens block_size).
Abbreviation correct := (corrected rc is_prompt max_model_len block_size).

Lemma filters_ok b : all_filters filters b = Ok (accept b).
Proof.
  destruct b as [[bs query] ctx]. unfold get_filters, accepted.
  destruct is_prompt, (merged_prefill rc), (use_contiguous_pa rc); simpl; try done.
  - rewrite floordiv_ok by lia. simpl. rewrite floordiv_ok by lia. simpl. by destruct (_ <=? _).
  - rewrite floordiv_ok by lia. simpl. rewrite floordiv_ok by lia. simpl. by destruct (_ <=? _).
  - destruct (_ <=? max_model_len); simpl; [|done]. by destruct (_ <=? _).
  - destruct (_ <=? max_model_len); simpl; [|done]. by destruct (_ <=? _).
  - by destruct (_ <=? _).
  - by destruct (_ <=? _).
Qed.

Lemma corrector_ok b : get_corrector rc is_prompt max_model_len block_size b = Ok (correct b).
Proof.
  destruct b as [[bs query] ctx]. unfold get_corrector, corrected. destruct (_ || _); [done|].
  simpl. by rewrite ceildiv_ok by lia.
Qed.

Lemma collect_ok l :
  collect filters (get_corrector rc is_prompt max_model_len block_size) l = Ok (correct <$> filter accept l).
Proof.
  induction l as [|b l IH]; [done|]. cbn [collect]. rewrite filters_ok. cbn [mbind result_mbind].
  rewrite filter_cons. destruct (decide (accept b)) as [Ha|Ha].
  - rewrite (Is_true_true_1 _ Ha), corrector_ok, IH. done.
  - destruct (accept b); [by destruct Ha|]. by rewrite IH.
Qed.

(** The candidates: those of the file if it has any, else every combination
    of the ranges; the expansion to neighbours adds nothing. *)
Definition candidate (bs_range query_range ctx_range : list Z) (file_buckets : option (list Bucket)) (b : Bucket) : Prop :=
  match file_buckets with
  | Some (b0 :: l) => b ∈ b0 :: l
  | _ => b.1.1 ∈ bs_range /\ b.1.2 ∈ query_range /\ b.2 ∈ ctx_range
  end.

Lemma elem_of_imap_pair {A} (l : list A) i x : (i, x) ∈ imap pair l <-> l !! i = Some x.
Proof.
  rewrite list_elem_of_lookup. setoid_rewrite list_lookup_imap. split.
  - intros [j Hj]. destruct (l !! j) eqn:E; simplify_eq/=. done.
  - intros Hi. exists i. by rewrite Hi.
Qed.

Lemma elem_of_expand i bs_range j ctx_range bs ctx :
  (bs, ctx) ∈ expand_to_neighbor_buckets i bs_range j ctx_range -> bs ∈ bs_range /\ ctx ∈ ctx_range.
Proof.
  unfold expand_to_neighbor_buckets. rewrite list_elem_of_omap. intros ([b_idx q_idx] & _ & Hx).
  destruct (bs_range !! b_idx) eqn:E1, (ctx_range !! q_idx) eqn:E2; simplify_eq.
  split; by eapply list_elem_of_lookup_2.
Qed.

Lemma elem_of_buckets_2d bs_range ctx_range bs ctx :
  (bs, ctx) ∈ ('(bs_idx, bs) ← imap pair bs_range; '(ctx_idx, ctx) ← imap pair ctx_range;
     if is_prompt then [(bs, ctx)] else expand_to_neighbor_buckets bs_idx bs_range ctx_idx ctx_range) <->
  bs ∈ bs_range /\ ctx ∈ ctx_range.
Proof.
  rewrite list_elem_of_bind. split.
  - intros ([i b] & Hin & Hb%elem_of_imap_pair). apply list_elem_of_bind in Hin as ([j c] & Hin & Hc%elem_of_imap_pair).
    destruct is_prompt; [|by eapply elem_of_expand].
    apply list_elem_of_singleton in Hin as [= -> ->]. split; by eapply list_elem_of_lookup_2.
  - intros [[i Hi]%list_elem_of_lookup [j Hj]%list_elem_of_lookup].
    exists (i, bs). split; [|by apply elem_of_imap_pair]. apply list_elem_of_bind. exists (j, ctx).
    split; [|by apply elem_of_imap_pair]. destruct is_prompt; [by apply list_elem_of_singleton|].
    unfold expand_to_neighbor_buckets. apply list_elem_of_omap. exists (i, j). split; [left|]. by rewrite Hi, Hj.
Qed.

End generate.

(** What generation promises: an error exactly when no candidate is accepted;
    otherwise the corrected accepted candidates, sorted, without duplicates. *)
Definition generation_outcome (cand : Bucket -> Prop) (accept : Bucket -> bool) (correct : Bucket -> Bucket)
    (r : result (list Bucket)) : Prop :=
  match r with
  | Ok l => l <> [] /\ StronglySorted py_le l /\ NoDup l /\
      forall b, b ∈ l <-> exists c, cand c /\ accept c = true /\ b = correct c
  | Err e => e = RuntimeError /\ forall c, cand c -> accept c = false
  end.

Lemma generate_buckets_ok rc bs_range query_range ctx_range is_prompt
    max_model_len max_num_prefill_seqs max_num_batched_tokens block_size file_buckets :
  0 < block_size -> 0 < max_num_prefill_seqs ->
  generation_outcome (candidate bs_range query_range ctx_range file_buckets)
    (accepted rc is_prompt max_model_len max_num_prefill_seqs max_num_batched_tokens block_size)
    (corrected rc is_prompt max_model_len block_size)
    (generate_buckets rc bs_range query_range ctx_range is_prompt max_model_len max_num_prefill_seqs
       max_num_batched_tokens block_size file_buckets).
Proof.
  intros Hb Hp. set (cand := candidate _ _ _ _). set (accept := accepted _ _ _ _ _ _). unfold generate_buckets.
  match goal with |- context [collect _ _ ?l] => set (cands := l) end.
  assert (Hc : forall c, c ∈ cands <-> cand c).
  { intros [[bs query] ctx]. unfold cands, cand, candidate. destruct file_buckets as [[|b0 l]|]; [|done|];
      (rewrite list_elem_of_bind; split;
       [intros ([b c] & Hin & Hbc%elem_of_remove_dups%elem_of_buckets_2d);
        apply list_elem_of_bind in Hin as (q & [= -> -> ->]%list_elem_of_singleton & Hq); simpl; tauto
       |simpl; intros (? & ? & ?); exists (bs, ctx); split;
        [apply list_elem_of_bind; exists query; split; [by apply list_elem_of_singleton|done]
        |by apply elem_of_remove_dups, elem_of_buckets_2d]]). }
  clearbody cands. rewrite collect_ok by done. cbn [mbind result_mbind].
  match goal with |- context [fmap ?g ?l] => set (out := fmap g l) end.
  assert (Ho : forall b, b ∈ out <-> exists c, cand c /\ accept c = true /\ b = corrected rc is_prompt max_model_len block_size c).
  { intros b. unfold out. rewrite list_elem_of_fmap. setoid_rewrite list_elem_of_filter. setoid_rewrite Hc. split.
    - intros (c & -> & Ha%Is_true_true & ?). by exists c.
    - intros (c & ? & ? & ->). exists c. split; [done|]. split; [by apply Is_true_true|done]. }
  clearbody out. unfold generation_outcome. destruct out as [|b0 out].
  - simpl. split; [done|]. intros c Hcc. destruct (accept c) eqn:E; [|done].
    exfalso. eapply not_elem_of_nil, Ho. by exists c.
  - split; [|split; [apply sorted_set_sorted|split; [apply sorted_set_NoDup|intros b; by rewrite elem_of_sorted_set]]].
    intros E. eapply (not_elem_of_nil b0). rewrite <- E. apply elem_of_sorted_set. left.
Qed.

(** C37: generation, for positive block size and prefill batch size: an error
    exactly when no candidate passes the filters of the phase, otherwise the
    sorted list, without duplicates, of the corrected accepted candidates.
    The candidates are those of the file, or all combinations of the ranges:
    the expansion of decode pairs to their neighbours changes nothing. *)
Theorem generate_buckets_spec rc bs_range query_range ctx_range is_prompt
    max_model_len max_num_prefill_seqs max_num_batched_tokens block_size file_buckets :
  0 < block_size -> 0 < max_num_prefill_seqs ->
  generation_outcome (candidate bs_range query_range ctx_range file_buckets)
    (accepted rc is_prompt max_model_len max_num_prefill_seqs max_num_batched_tokens block_size)
    (corrected rc is_prompt max_model_len block_size)
    (generate_buckets rc bs_range query_range ctx_range is_prompt max_model_len max_num_prefill_seqs
       max_num_batched_tokens block_size file_buckets).
Proof. apply generate_buckets_ok. Qed.

Lemma generate_buckets_spec_witness :
  generation_outcome (candidate [1; 2] [32; 64] [0; 4] None) (accepted sample_runtime true 128 1 128 16)
    (corrected sample_runtime true 128 16)
    (generate_buckets sample_runtime [1; 2] [32; 64] [0; 4] true 128 1 128 16 None).
Proof. apply generate_buckets_spec; lia. Defined.

Example generate_buckets_example :
  generate_buckets sample_runtime [1; 2] [32; 64] [0; 4] true 128 1 128 16 None =
  Ok [(1, 32, 0); (1, 32, 4); (1, 64, 0); (1, 64, 4); (2, 32, 0); (2, 32, 4); (2, 64, 0); (2, 64, 4)].
Proof. vm_compute. reflexivity. Qed.

(** *** Unified attention *)

Lemma collect_unified_err bs block_size max_model_len l :
  (exists b e, b ∈ l /\ unified_accepts bs block_size max_model_len b = Err e) ->
  collect_unified bs block_size max_model_len l = Err ZeroDivisionError.
Proof.
  assert (Hz : forall b e, unified_accepts bs block_size max_model_len b = Err e -> e = ZeroDivisionError).
  { intros [[[q s] u] c] e. unfold unified_accepts, floordiv.
    destruct (negb _); [by destruct (_ =? 0); intros [= <-]|].
    destruct (_ <=? bs); [|done]. destruct (_ || _); [|done].
    destruct (s =? 0); [done|]. by destruct (_ =? 0); intros [= <-]. }
  assert (Ho : (exists k, collect_unified bs block_size max_model_len l = Ok k) \/
    collect_unified bs block_size max_model_len l = Err ZeroDivisionError).
  { induction l as [|b l IH]; [left; by eexists|]. cbn [collect_unified].
    destruct (unified_accepts _ _ _ b) eqn:E; [|right; by rewrite (Hz _ _ E)].
    destruct IH as [[k ->] | ->]; [left; by eexists|by right]. }
  intros (b & e & Hb & He). destruct Ho as [[k Hk]|]; [|done]. exfalso. clear Hz. revert k Hk.
  induction l as [|b' l IH]; [by apply not_elem_of_nil in Hb|]. intros k. cbn [collect_unified].
  apply elem_of_cons in Hb as [<-|Hb]; [by rewrite He|].
  destruct (unified_accepts _ _ _ b'); [|done]. cbn [mbind result_mbind].
  destruct (collect_unified _ _ _ l) eqn:E; [|done]. by destruct (IH Hb a0).
Qed.

Lemma collect_unified_ok bs block_size max_model_len l (acc : UnifiedBucket -> bool) :
  (forall b, b ∈ l -> unified_accepts bs block_size max_model_len b = Ok (acc b)) ->
  collect_unified bs block_size max_model_len l = Ok (filter acc l).
Proof.
  induction l as [|b l IH]; intros Hacc; [done|]. cbn [collect_unified].
  rewrite (Hacc b) by left. cbn [mbind result_mbind]. rewrite IH by (intros; apply Hacc; by right).
  cbn [mbind result_mbind]. rewrite filter_cons. f_equal. by destruct (acc b).
Qed.

Lemma elem_of_product {A B C D} (a : list A) (b : list B) (c : list C) (d : list D) x :
  x ∈ (q ← a; s ← b; u ← c; k ← d; [(q, s, u, k)]) <->
  x.1.1.1 ∈ a /\ x.1.1.2 ∈ b /\ x.1.2 ∈ c /\ x.2 ∈ d.
Proof.
  destruct x as [[[q s] u] k]. simpl. rewrite list_elem_of_bind. setoid_rewrite list_elem_of_bind.
  setoid_rewrite list_elem_of_bind. setoid_rewrite list_elem_of_bind. setoid_rewrite list_elem_of_singleton. split.
  - by intros (? & (? & (? & (? & [= -> -> -> ->] & ?) & ?) & ?) & ?).
  - intros (? & ? & ? & ?). eauto 12.
Qed.

(** What a unified bucket has to satisfy: enough room for the shared blocks of
    one sequence of the batch; a batch that is not causal has one query per
    sequence and some context. *)
Definition unified_fits (bs block_size max_model_len : Z) (b : UnifiedBucket) : Prop :=
  let '(query, shared_ctx, unique_ctx, causal) := b in
  if causal =? 0 then
    query <= bs /\ ((shared_ctx = 0 /\ query <= unique_ctx) \/
      (0 < shared_ctx /\ shared_ctx * block_size / (query / 2) <= max_model_len))
  else shared_ctx * block_size / Z.min bs query <= max_model_len.

#[export] Instance unified_fits_dec bs block_size max_model_len b : Decision (unified_fits bs block_size max_model_len b).
Proof. destruct b as [[[q s] u] c]. unfold unified_fits. destruct (c =? 0); apply _. Defined.

Lemma unified_accepts_ok bs block_size max_model_len query shared_ctx unique_ctx causal :
  1 <= bs -> 2 <= query -> 0 <= shared_ctx ->
  unified_accepts bs block_size max_model_len (query, shared_ctx, unique_ctx, causal) =
  Ok (bool_decide (unified_fits bs block_size max_model_len (query, shared_ctx, unique_ctx, causal))).
Proof.
  intros Hb Hq Hs. pose proof (Z.div_le_lower_bound query 2 1 ltac:(lia) ltac:(lia)).
  assert (exists a, unified_accepts bs block_size max_model_len (query, shared_ctx, unique_ctx, causal) = Ok a /\
    (a = true <-> unified_fits bs block_size max_model_len (query, shared_ctx, unique_ctx, causal))) as (a & -> & Ha).
  2:{ f_equal. apply eq_true_iff_eq. by rewrite Ha, bool_decide_eq_true. }
  unfold unified_accepts, unified_fits. rewrite !floordiv_ok by lia. cbn [mbind result_mbind].
  set (d1 := shared_ctx * block_size / Z.min bs query). set (d2 := shared_ctx * block_size / (query / 2)).
  destruct (Z.eqb_spec causal 0); cbn [negb]; [|eexists; split; [done|lia]].
  destruct (Z.leb_spec query bs); [|eexists; split; [done|lia]].
  destruct (Z.ltb_spec 0 shared_ctx); simpl.
  - rewrite (proj2 (Z.eqb_neq _ _)) by lia. simpl. eexists. split; [done|]. lia.
  - rewrite (proj2 (Z.eqb_eq _ _)) by lia. simpl. destruct (0 <? unique_ctx) eqn:E; simpl; (eexists; split; [done|lia]).
Qed.

(** The unified buckets, for a batch and queries of at least one and two:
    no error, sorted, and exactly the combinations of the ranges that fit. *)
Theorem generate_unified_buckets_spec query_range shared_ctx_range unique_ctx_range bs block_size max_model_len :
  1 <= bs -> Forall (fun q => 2 <= q) query_range -> Forall (fun s => 0 <= s) shared_ctx_range ->
  exists l, generate_unified_buckets query_range shared_ctx_range unique_ctx_range bs block_size max_model_len = Ok l /\
    StronglySorted py_le l /\ NoDup l /\
    forall q s u c, (q, s, u, c) ∈ l <->
      q ∈ query_range /\ s ∈ shared_ctx_range /\ u ∈ unique_ctx_range /\ (c = 0 \/ c = 1) /\
      unified_fits bs block_size max_model_len (q, s, u, c).
Proof.
  intros Hb Hq Hs. unfold generate_unified_buckets. set (P := unified_fits bs block_size max_model_len).
  rewrite (collect_unified_ok _ _ _ _ (fun b => bool_decide (P b))).
  2:{ intros [[[q s] u] c] (Hx & Hy & _)%elem_of_product. rewrite Forall_forall in Hq, Hs. simpl in *.
      apply unified_accepts_ok; auto. }
  eexists. split; [done|]. split; [apply sorted_set_sorted|]. split; [apply sorted_set_NoDup|].
  intros q s u c. rewrite elem_of_sorted_set, list_elem_of_filter, elem_of_product, bool_decide_spec. simpl.
  rewrite !elem_of_cons. pose proof (not_elem_of_nil c). tauto.
Qed.

Lemma generate_unified_buckets_spec_witness :
  exists l, generate_unified_buckets [2; 8] [0; 4] [0; 8] 4 16 256 = Ok l /\
    StronglySorted py_le l /\ NoDup l /\
    forall q s u c, (q, s, u, c) ∈ l <->
      q ∈ [2; 8] /\ s ∈ [0; 4] /\ u ∈ [0; 8] /\ (c = 0 \/ c = 1) /\ unified_fits 4 16 256 (q, s, u, c).
Proof. apply generate_unified_buckets_spec; [lia|repeat constructor; lia..]. Defined.

(** A query range with 1 and shared blocks: half a query is 0. *)
Lemma generate_unified_buckets_error query_range shared_ctx_range unique_ctx_range bs block_size max_model_len s :
  1 <= bs -> 1 ∈ query_range -> s ∈ shared_ctx_range -> 0 < s -> unique_ctx_range <> [] ->
  generate_unified_buckets query_range shared_ctx_range unique_ctx_range bs block_size max_model_len = Err ZeroDivisionError.
Proof.
  intros Hb Hq Hs Hpos Hu. destruct unique_ctx_range as [|u us]; [done|]. unfold generate_unified_buckets.
  rewrite collect_unified_err; [done|]. exists (1, s, u, 0), ZeroDivisionError. split.
  - apply elem_of_product. simpl. split_and!; [done..|left|left].
  - unfold unified_accepts. simpl. rewrite (proj2 (Z.leb_le 1 bs)), (proj2 (Z.ltb_lt 0 s)) by lia. simpl.
    by rewrite (proj2 (Z.eqb_neq s 0)) by lia.
Qed.

(** *** Files *)

(** The buckets of a file.  Reading for prompts and for decoding fail alike;
    otherwise both lists are sorted, together they are the buckets of the lines,
    and a bucket is for decoding exactly when its query length is 1. *)
Theorem get_buckets_partition (eval : string -> option PyVal) (lines : list string) :
  match get_buckets eval lines true, get_buckets eval lines false, mapM (line_buckets eval) lines with
  | Ok prompt, Ok decode, Ok all =>
      StronglySorted py_le prompt /\ StronglySorted py_le decode /\ prompt ++ decode ≡ₚ concat all /\
      (forall b, b ∈ decode <-> b ∈ concat all /\ is_decode b) /\ (forall b, b ∈ prompt <-> b ∈ concat all /\ ~ is_decode b)
  | Err e1, Err e2, Err e3 => e1 = e2 /\ e2 = e3
  | _, _, _ => False
  end.
Proof.
  unfold get_buckets. destruct (mapM (line_buckets eval) lines) as [all|e]; simpl; [|done].
  split; [apply sorted_sorted|]. split; [apply sorted_sorted|]. split.
  - rewrite !sorted_perm. rewrite (Permutation_app_comm). symmetry.
    induction (concat all) as [|b l IH]; [done|]. rewrite !filter_cons.
    destruct (decide (is_decode b)).
    + rewrite decide_False by tauto. simpl. by constructor.
    + rewrite decide_True by done. rewrite IH at 1. by rewrite Permutation_middle.
  - split; intros b; rewrite elem_of_sorted, list_elem_of_filter; tauto.
Qed.
