(* ===== verification/BucketManager.v ===== *)
(** [HPUBucketingManager] of [src/vllm_gaudi/extension/bucketing/common.py]: it
    generates the lists of buckets at start-up and answers the lookups of the
    model runner, adding a bucket when none fits. *)

From Stdlib Require Import ZArith Lia.
From stdpp Require Import base strings numbers list sorting sets.
From S2P Require Import Prelude.
From S2P Require Import PyOrder.
From S2P Require Import PyText.
From S2P Require Import BucketRanges.
From S2P Require Import BucketGen.

Open Scope Z_scope.

(** ** State *)

Record HPUBucketingManager := mkManager {
  initialized : bool;
  max_num_seqs : Z;
  max_num_prefill_seqs : Z;
  block_size : Z;
  max_num_batched_tokens : Z;
  num_hpu_blocks : option Z;
  max_model_len : Z;
  num_speculative_tokens : Z;
  fallback_bs_base_step : Z;
  fallback_seq_base_step : Z;
  fallback_blocks_base_step : Z;
  use_sliding_window : bool;
  slice_size : Z;
  slice_thld : Z;
  prompt_buckets : list Bucket;
  decode_buckets : list Bucket;
  unified_buckets : list UnifiedBucket;
  seed_decode_buckets : option (list Bucket)
}.

(** The instance before [initialize]: no bucketing, empty lists. *)
Definition new_manager : HPUBucketingManager :=
  mkManager false 0 0 0 0 None 0 0 0 0 0 false 0 0 [] [] [] None.

Definition set_prompt_buckets (l : list Bucket) (m : HPUBucketingManager) : HPUBucketingManager :=
  mkManager (initialized m) (max_num_seqs m) (max_num_prefill_seqs m) (block_size m) (max_num_batched_tokens m)
    (num_hpu_blocks m) (max_model_len m) (num_speculative_tokens m) (fallback_bs_base_step m)
    (fallback_seq_base_step m) (fallback_blocks_base_step m) (use_sliding_window m) (slice_size m) (slice_thld m)
    l (decode_buckets m) (unified_buckets m) (seed_decode_buckets m).
Definition set_decode_buckets (l : list Bucket) (m : HPUBucketingManager) : HPUBucketingManager :=
  mkManager (initialized m) (max_num_seqs m) (max_num_prefill_seqs m) (block_size m) (max_num_batched_tokens m)
    (num_hpu_blocks m) (max_model_len m) (num_speculative_tokens m) (fallback_bs_base_step m)
    (fallback_seq_base_step m) (fallback_blocks_base_step m) (use_sliding_window m) (slice_size m) (slice_thld m)
    (prompt_buckets m) l (unified_buckets m) (seed_decode_buckets m).
Definition set_unified_buckets (l : list UnifiedBucket) (m : HPUBucketingManager) : HPUBucketingManager :=
  mkManager (initialized m) (max_num_seqs m) (max_num_prefill_seqs m) (block_size m) (max_num_batched_tokens m)
    (num_hpu_blocks m) (max_model_len m) (num_speculative_tokens m) (fallback_bs_base_step m)
    (fallback_seq_base_step m) (fallback_blocks_base_step m) (use_sliding_window m) (slice_size m) (slice_thld m)
    (prompt_buckets m) (decode_buckets m) l (seed_decode_buckets m).
Definition set_seed_decode_buckets (l : list Bucket) (m : HPUBucketingManager) : HPUBucketingManager :=
  mkManager (initialized m) (max_num_seqs m) (max_num_prefill_seqs m) (block_size m) (max_num_batched_tokens m)
    (num_hpu_blocks m) (max_model_len m) (num_speculative_tokens m) (fallback_bs_base_step m)
    (fallback_seq_base_step m) (fallback_blocks_base_step m) (use_sliding_window m) (slice_size m) (slice_thld m)
    (prompt_buckets m) (decode_buckets m) (unified_buckets m) (Some l).
(** The model runner sets the number of blocks when the cache is allocated. *)
Definition set_num_hpu_blocks (n : Z) (m : HPUBucketingManager) : HPUBucketingManager :=
  mkManager (initialized m) (max_num_seqs m) (max_num_prefill_seqs m) (block_size m) (max_num_batched_tokens m)
    (Some n) (max_model_len m) (num_speculative_tokens m) (fallback_bs_base_step m)
    (fallback_seq_base_step m) (fallback_blocks_base_step m) (use_sliding_window m) (slice_size m) (slice_thld m)
    (prompt_buckets m) (decode_buckets m) (unified_buckets m) (seed_decode_buckets m).

Section manager.
(** The configuration, the environment, the lines of a file, and the evaluation
    of a line by Python. *)
Context `{P : PowerSteps} (rc : RuntimeConfig) (environ : string -> option string).
Context (read_lines : string -> list string) (eval : string -> option PyVal).

Abbreviation MB := (M HPUBucketingManager).

Definition initialize (seqs prefill_seqs block batched_tokens model_len speculative_tokens : Z) : MB unit :=
  modify (fun m =>
    let sliding := default false (PT_HPU_SDPA_QKV_SLICE_MODE_FWD rc) in
    mkManager true seqs prefill_seqs block batched_tokens None model_len speculative_tokens 2 32 32 sliding
      (if sliding then default 1024 (PT_HPU_SDPA_BC_FACTOR rc) else slice_size m)
      (if sliding then default 8192 (VLLM_FUSEDSDPA_SLIDE_THLD rc) else slice_thld m)
      (prompt_buckets m) (decode_buckets m) (unified_buckets m) (seed_decode_buckets m)).

(** ** Generation *)

(** The file name, when it is set and not empty. *)
Definition bucketing_file : option string :=
  match VLLM_BUCKETING_FROM_FILE rc with
  | Some f => if decide (f = EmptyString) then None else Some f
  | None => None
  end.

Definition read_from_file (file_name : string) (is_prompt : bool) : result (list Bucket) :=
  get_buckets eval (read_lines file_name) is_prompt.

(** [get_bucketing_strategy]: exponential unless it is switched off. *)
Definition use_exponential_bucketing : bool := default true (VLLM_EXPONENTIAL_BUCKETING rc).

Abbreviation Ranges := (list Z * list Z * list Z)%type.

Definition get_prompt_ranges (m : HPUBucketingManager) : result Ranges :=
  if use_exponential_bucketing then
    '(bs_cfg, query_cfg, ctx_cfg) ← exponential_get_prompt_cfgs rc (max_num_prefill_seqs m) (block_size m)
      (max_num_batched_tokens m) (max_model_len m);
    bs_range ← exponential_get_range rc bs_cfg;
    query_range ← exponential_get_range rc query_cfg;
    ctx_range ← exponential_get_range rc ctx_cfg;
    Ok (bs_range, query_range, ctx_range)
  else
    '(bs_cfg, query_cfg, ctx_cfg) ← linear_get_prompt_cfgs rc environ (max_num_prefill_seqs m) (block_size m)
      (max_num_batched_tokens m) (max_model_len m);
    bs_range ← linear_get_range bs_cfg;
    query_range ← linear_get_range query_cfg;
    ctx_range ← linear_get_range ctx_cfg;
    Ok (bs_range, query_range, ctx_range).

(** With contiguous attention the last block is added to the linear range. *)
Definition add_last_block (m : HPUBucketingManager) (ctx_range : list Z) : result (list Z) :=
  if use_contiguous_pa rc then
    match last ctx_range, num_hpu_blocks m with
    | None, _ => Err IndexError
    | _, None => Err TypeError
    | Some b, Some n => Ok (if b <? n then ctx_range ++ [n] else ctx_range)
    end
  else Ok ctx_range.

Definition get_decode_ranges (m : HPUBucketingManager) : result Ranges :=
  '(bs_range, query_range, ctx_range) ←
    (if use_exponential_bucketing then
      '(bs_cfg, query_cfg, ctx_cfg) ← exponential_get_decode_cfgs rc (max_num_seqs m) (block_size m)
        (max_num_batched_tokens m) (max_model_len m) (num_hpu_blocks m);
      bs_range ← exponential_get_range rc bs_cfg;
      query_range ← exponential_get_range rc query_cfg;
      ctx_range ← exponential_get_range rc ctx_cfg;
      Ok (bs_range, query_range, ctx_range)
    else
      '(bs_cfg, query_cfg, ctx_cfg) ← linear_get_decode_cfgs rc environ (max_num_seqs m) (block_size m)
        (max_num_batched_tokens m) (max_model_len m) (num_hpu_blocks m);
      bs_range ← linear_get_range bs_cfg;
      query_range ← linear_get_range query_cfg;
      ctx_range ← linear_get_range ctx_cfg;
      Ok (bs_range, query_range, ctx_range));
  ctx_range ← add_last_block m ctx_range;
  Ok (bs_range, query_range, ctx_range).

(** The buckets of one phase, from the file or from the strategy. *)
Definition phase_buckets (m : HPUBucketingManager) (is_prompt : bool) : result (list Bucket) :=
  match bucketing_file with
  | Some f =>
      buckets_from_file ← read_from_file f is_prompt;
      generate_buckets rc [] [] [] is_prompt (max_model_len m) (max_num_prefill_seqs m)
        (max_num_batched_tokens m) (block_size m) (Some buckets_from_file)
  | None =>
      '(bs_range, query_range, ctx_range) ← (if is_prompt then get_prompt_ranges m else get_decode_ranges m);
      generate_buckets rc bs_range query_range ctx_range is_prompt (max_model_len m) (max_num_prefill_seqs m)
        (max_num_batched_tokens m) (block_size m) None
  end.

(** The prompts that the sliding window takes: short ones, those with context,
    and whole slices. *)
Definition sliding_ok (m : HPUBucketingManager) (t : Bucket) : result bool :=
  let '(bs, query, ctx) := t in
  if negb (ctx =? 0) then Ok true
  else if query <? slice_thld m then Ok true
  else if slice_size m =? 0 then Err ZeroDivisionError
  else Ok (query mod slice_size m =? 0).

Fixpoint filter_sliding (m : HPUBucketingManager) (l : list Bucket) : result (list Bucket) :=
  match l with
  | [] => Ok []
  | t :: l' => ok ← sliding_ok m t; rest ← filter_sliding m l'; Ok (if ok : bool then t :: rest else rest)
  end.

Definition generate_prompt_buckets : MB unit :=
  m ← get_state;
  if initialized m then
    buckets ← lift_result (phase_buckets m true);
    modify (set_prompt_buckets buckets);;
    if use_sliding_window m then
      kept ← lift_result (filter_sliding m buckets);
      modify (set_prompt_buckets kept)
    else mret tt
  else modify (set_prompt_buckets []).

(** The buckets for one seed bucket when [num_tokens] tokens are verified at a
    time: more sequences, and more sequences with more context. *)
Definition spec_decode_of (corrector : Bucket -> result Bucket) (num_tokens : Z) (bucket : Bucket) : result (list Bucket) :=
  let '(bs, query, ctx) := bucket in
  let spec_decode_bs := bs * num_tokens in
  wide ← (if spec_decode_bs <=? ctx then c ← corrector (spec_decode_bs, query, ctx); Ok [c] else Ok []);
  deep ← corrector (spec_decode_bs, query, ctx * num_tokens);
  Ok (bucket :: wide ++ [deep]).

Definition generate_spec_decode_buckets (m : HPUBucketingManager) (seeds : list Bucket) : result (list Bucket) :=
  let corrector :=
    if use_contiguous_pa rc then no_corrections else correct_for_max_model_len (max_model_len m) (block_size m) in
  let num_tokens := 1 + num_speculative_tokens m in
  buckets ← mapM (spec_decode_of corrector num_tokens) seeds;
  Ok (sorted_set (concat buckets)).

Definition generate_decode_buckets : MB unit :=
  m ← get_state;
  if initialized m then
    buckets ← lift_result (phase_buckets m false);
    modify (set_decode_buckets buckets);;
    if negb (num_speculative_tokens m =? 0) then
      modify (set_seed_decode_buckets buckets);;
      more ← lift_result (generate_spec_decode_buckets m buckets);
      modify (set_decode_buckets more)
    else mret tt
  else modify (set_decode_buckets []).

(** The check that no file is configured asserts a non-empty string, which is
    always true. *)
Definition manager_unified_buckets : MB unit :=
  m ← get_state;
  if initialized m then
    '(query_cfg, shared_ctx_cfg, unique_ctx_cfg) ← lift_result
      (get_unified_cfgs (max_num_seqs m) (max_model_len m) (block_size m) (num_hpu_blocks m) (max_num_batched_tokens m));
    let query_range := unified_get_range query_cfg in
    let shared_ctx_range := unified_get_range shared_ctx_cfg in
    let unique_ctx_range := unified_get_range unique_ctx_cfg in
    buckets ← lift_result (generate_unified_buckets query_range shared_ctx_range unique_ctx_range
      (max_num_seqs m) (block_size m) (max_model_len m));
    modify (set_unified_buckets buckets)
  else modify (set_unified_buckets []).

End manager.

(** ** Lookup *)

Abbreviation MB := (M HPUBucketingManager).

Definition generate_fallback_bucket (m : HPUBucketingManager) (batch_size seq_len ctx : Z) : result Bucket :=
  new_batch_size ← calc_fallback_value batch_size (fallback_bs_base_step m);
  new_seq_len ←
    (if use_sliding_window m && (slice_thld m <=? seq_len) then
       slices ← ceildiv seq_len (slice_size m); Ok (slices * slice_size m)
     else v ← calc_fallback_value seq_len (fallback_seq_base_step m); Ok (Z.min v (max_num_batched_tokens m)));
  new_ctx ←
    match num_hpu_blocks m with
    | None => Ok 0
    | Some n => v ← calc_fallback_value ctx (fallback_blocks_base_step m); Ok (Z.min v n)
    end;
  Ok (new_batch_size, new_seq_len, new_ctx).

Definition find_prompt_bucket (batch_size seq_len ctx : Z) : MB Bucket :=
  m ← get_state;
  if initialized m then
    match find_equal_or_closest_greater_config (prompt_buckets m) (batch_size, seq_len, ctx) with
    | None =>
        new_bucket ← lift_result (generate_fallback_bucket m batch_size seq_len ctx);
        modify (set_prompt_buckets (sorted (prompt_buckets m ++ [new_bucket])));;
        mret new_bucket
    | Some found_bucket => mret found_bucket
    end
  else mret (batch_size, seq_len, ctx).

Definition find_decode_bucket (batch_size num_blocks : Z) (seed_buckets : bool) : MB Bucket :=
  m ← get_state;
  if initialized m then
    let from_seeds :=
      match seed_decode_buckets m with
      | Some seeds =>
          if seed_buckets then find_equal_or_closest_greater_config seeds (batch_size, 1, num_blocks) else None
      | None => None
      end in
    match from_seeds with
    | Some found_bucket => mret found_bucket
    | None =>
        match find_equal_or_closest_greater_config (decode_buckets m) (batch_size, 1, num_blocks) with
        | None =>
            new_bucket ← lift_result (generate_fallback_bucket m batch_size 1 num_blocks);
            modify (set_decode_buckets (sorted (decode_buckets m ++ [new_bucket])));;
            mret new_bucket
        | Some found_bucket => mret found_bucket
        end
    end
  else mret (batch_size, 1, num_blocks).

(** The result is the bucket, or the request when there is none (then without
    the fourth component). *)
Definition find_unified_bucket (query shared_ctx unique_ctx : Z) (is_causal : bool) : MB (Bucket * option Z) :=
  m ← get_state;
  if initialized m then
    match find_equal_or_closest_greater_config (unified_buckets m)
      (query, shared_ctx, unique_ctx, if is_causal then 1 else 0) with
    | None => mret ((query, shared_ctx, unique_ctx), None)
    | Some (b, causal) => mret (b, Some causal)
    end
  else mret ((query, shared_ctx, unique_ctx), None).

Definition get_max_prompt_shape (m : HPUBucketingManager) : Z :=
  match (fun b : Bucket => b.1.2) <$> prompt_buckets m with
  | [] => max_model_len m
  | q :: qs => foldl Z.max q qs
  end.

(** ** Lookups *)

(** The state the lookups keep: initialised, with sorted lists. *)
Record lookup_inv (m : HPUBucketingManager) : Prop := {
  li_initialized : initialized m = true;
  li_prompt : StronglySorted py_le (prompt_buckets m);
  li_decode : StronglySorted py_le (decode_buckets m);
  li_seeds : forall l, seed_decode_buckets m = Some l -> StronglySorted py_le l;
  li_bs_step : 0 < fallback_bs_base_step m;
  li_seq_step : 0 < fallback_seq_base_step m;
  li_blocks_step : 0 < fallback_blocks_base_step m;
  li_slice : use_sliding_window m = true -> 0 < slice_size m
}.

(** Requests within the limits of the runner: no more tokens than a batch has
    (or a prompt for the sliding window) and no more blocks than there are. *)
Definition fits (m : HPUBucketingManager) (t : Bucket) : Prop :=
  (t.1.2 <= max_num_batched_tokens m \/ (use_sliding_window m = true /\ slice_thld m <= t.1.2)) /\
  t.2 <= default 0 (num_hpu_blocks m).

Lemma fallback_ok m bs seq ctx : lookup_inv m ->
  exists b, generate_fallback_bucket m bs seq ctx = Ok b /\ (fits m (bs, seq, ctx) -> dominates b (bs, seq, ctx)).
Proof.
  intros Hm. unfold generate_fallback_bucket.
  destruct (calc_fallback_value_ok bs (fallback_bs_base_step m) (li_bs_step m Hm)) as (b1 & -> & H1 & _).
  destruct (calc_fallback_value_ok seq (fallback_seq_base_step m) (li_seq_step m Hm)) as (s1 & -> & H2 & _).
  destruct (calc_fallback_value_ok ctx (fallback_blocks_base_step m) (li_blocks_step m Hm)) as (c1 & -> & H3 & _).
  cbn [mbind result_mbind]. unfold fits, dominates. simpl.
  destruct (use_sliding_window m && (slice_thld m <=? seq)) eqn:Es.
  - apply andb_true_iff in Es as [Hs _]. pose proof (li_slice m Hm Hs). rewrite ceildiv_ok by lia. cbn [mbind result_mbind].
    pose proof (cdiv_spec seq (slice_size m) ltac:(lia)).
    destruct (num_hpu_blocks m); simpl; (eexists; split; [done|]; simpl; lia).
  - apply andb_false_iff in Es. destruct (num_hpu_blocks m); simpl; (eexists; split; [done|]; simpl; intros [[?|[Hs ?]] ?];
      [lia|destruct Es; [congruence|lia]]).
Qed.

(** What a lookup of [t] in a list [l] gives: the least bucket that fits and
    the same list, or a new bucket in the list; when the request is within the
    limits the bucket fits and a second lookup finds it. *)
Definition lookup_result (m : HPUBucketingManager) (l l' : list Bucket) (t b : Bucket) : Prop :=
  StronglySorted py_le l' /\ b ∈ l' /\
  ((l' = l /\ dominates b t /\ forall b', b' ∈ l -> dominates b' t -> py_le b b') \/
   (l' ≡ₚ b :: l /\ forall b', b' ∈ l -> ~ dominates b' t)) /\
  (fits m t -> dominates b t /\ find_equal_or_closest_greater_config l' t = Some b).

Lemma find_unique (l : list Bucket) t b : StronglySorted py_le l ->
  b ∈ l -> dominates b t -> (forall b', b' ∈ l -> dominates b' t -> py_le b b') ->
  find_equal_or_closest_greater_config l t = Some b.
Proof.
  intros Hs Hb Hd Hle. pose proof (find_bucket_ok l t Hs) as Hf.
  destruct (find_equal_or_closest_greater_config l t) as [b0|]; [|by destruct (Hf b Hb)].
  destruct Hf as (? & ? & Hle0). f_equal. apply (anti_symm py_le); [by apply Hle0|by apply Hle].
Qed.

Lemma lookup_ok m l t : lookup_inv m -> StronglySorted py_le l ->
  exists b l', lookup_result m l l' t b /\
    (find_equal_or_closest_greater_config l t = Some b /\ l' = l \/
     find_equal_or_closest_greater_config l t = None /\
       generate_fallback_bucket m t.1.1 t.1.2 t.2 = Ok b /\ l' = sorted (l ++ [b])).
Proof.
  intros Hm Hs. pose proof (find_bucket_ok l t Hs) as Hf.
  destruct (find_equal_or_closest_greater_config l t) as [b|] eqn:E.
  - destruct Hf as (Hb & Hd & Hle). exists b, l. split; [|by left]. split; [done|]. split; [done|]. split; [by left|]. done.
  - destruct (fallback_ok m t.1.1 t.1.2 t.2 Hm) as (b & Eb & Hd). exists b, (sorted (l ++ [b])).
    assert (Hp : sorted (l ++ [b]) ≡ₚ b :: l) by (rewrite sorted_perm; symmetry; apply Permutation_cons_append).
    assert (Hin : b ∈ sorted (l ++ [b])) by (rewrite Hp; left).
    split; [|by right]. split; [apply sorted_sorted|]. split; [done|]. split; [right; by split|].
    intros Ht. destruct t as [[bs seq] ctx]. specialize (Hd Ht). split; [done|].
    apply find_unique; [apply sorted_sorted|done|done|].
    intros b'. rewrite Hp. intros [->|Hb']%elem_of_cons Hd'; [unfold py_le; apply py_lt_irrefl|by destruct (Hf b' Hb')].
Qed.

Lemma lookup_inv_prompt m l : lookup_inv m -> StronglySorted py_le l -> lookup_inv (set_prompt_buckets l m).
Proof. by intros [] ?; split. Qed.

Lemma lookup_inv_decode m l : lookup_inv m -> StronglySorted py_le l -> lookup_inv (set_decode_buckets l m).
Proof. by intros [] ?; split. Qed.

Lemma set_prompt_same m : set_prompt_buckets (prompt_buckets m) m = m.
Proof. by destruct m. Qed.
Lemma set_decode_same m : set_decode_buckets (decode_buckets m) m = m.
Proof. by destruct m. Qed.

(** C39: looking up a prompt.  It never raises; only the list of prompt buckets
    may change, and it stays sorted.  If a bucket fits, the least one is the
    answer and nothing changes; otherwise one bucket is added.  For a request
    within the limits the answer is at least the request in every dimension,
    and the same request is then answered from the list. *)
Theorem find_prompt_bucket_spec m batch_size seq_len ctx : lookup_inv m ->
  exists b l', find_prompt_bucket batch_size seq_len ctx m = Ret b (set_prompt_buckets l' m) /\
    lookup_inv (set_prompt_buckets l' m) /\
    lookup_result m (prompt_buckets m) l' (batch_size, seq_len, ctx) b /\
    (fits m (batch_size, seq_len, ctx) ->
       find_prompt_bucket batch_size seq_len ctx (set_prompt_buckets l' m) = Ret b (set_prompt_buckets l' m)).
Proof.
  intros Hm. destruct (lookup_ok m (prompt_buckets m) (batch_size, seq_len, ctx) Hm (li_prompt m Hm)) as (b & l' & Hr & Hc).
  exists b, l'. split; [|split; [apply lookup_inv_prompt, Hr; done|split; [done|]]].
  - unfold find_prompt_bucket, mbind, M_mbind, M_bind, get_state. rewrite (li_initialized m Hm).
    destruct Hc as [[-> ->]|(-> & Eb & ->)]; [by rewrite set_prompt_same|]. simpl in Eb.
    unfold lift_result, modify. by rewrite Eb.
  - intros Hf. destruct (proj2 (proj2 (proj2 Hr)) Hf) as [_ E].
    unfold find_prompt_bucket, mbind, M_mbind, M_bind, get_state. simpl. rewrite (li_initialized m Hm). by rewrite E.
Qed.

(** Looking up a decode batch, likewise; with [seed_buckets] a bucket of the
    seeds that fits is preferred. *)
Theorem find_decode_bucket_spec m batch_size num_blocks seed_buckets : lookup_inv m ->
  let t := (batch_size, 1, num_blocks) in
  exists b l', find_decode_bucket batch_size num_blocks seed_buckets m = Ret b (set_decode_buckets l' m) /\
    lookup_inv (set_decode_buckets l' m) /\ (fits m t -> dominates b t) /\
    (lookup_result m (decode_buckets m) l' t b \/
     l' = decode_buckets m /\ seed_buckets = true /\ exists seeds, seed_decode_buckets m = Some seeds /\ b ∈ seeds /\ dominates b t).
Proof.
  intros Hm t. unfold find_decode_bucket, mbind, M_mbind, M_bind, get_state. rewrite (li_initialized m Hm). fold t.
  set (from := match seed_decode_buckets m with Some _ => _ | None => None end).
  destruct from as [b|] eqn:Ef.
  - exists b, (decode_buckets m). rewrite set_decode_same. unfold from in Ef.
    destruct (seed_decode_buckets m) as [seeds|] eqn:Es; [|done]. destruct seed_buckets; [|done].
    pose proof (find_bucket_ok seeds t (li_seeds m Hm _ Es)) as Hf. rewrite Ef in Hf. destruct Hf as (Hb & Hd & _).
    split; [done|]. split; [done|]. split; [done|]. right. split; [done|]. split; [done|]. by exists seeds.
  - destruct (lookup_ok m (decode_buckets m) t Hm (li_decode m Hm)) as (b & l' & Hr & Hc).
    exists b, l'. split; [|split; [apply lookup_inv_decode, Hr; done|split; [apply Hr|by left]]].
    destruct Hc as [[-> ->]|(-> & Eb & ->)]; [by rewrite set_decode_same|]. simpl in Eb.
    unfold lift_result, modify. by rewrite Eb.
Qed.

Definition sample_manager : HPUBucketingManager :=
  mkManager true 4 1 16 2048 (Some 100) 1024 0 2 32 32 false 0 0 [(1, 32, 0); (1, 64, 4)] [(1, 1, 8)] [] None.

Lemma sample_manager_inv : lookup_inv sample_manager.
Proof. split; try done; repeat constructor. Qed.

Lemma find_prompt_bucket_spec_witness :
  fits sample_manager (1, 100, 3) /\
  exists b l', find_prompt_bucket 1 100 3 sample_manager = Ret b (set_prompt_buckets l' sample_manager) /\
    lookup_inv (set_prompt_buckets l' sample_manager) /\
    lookup_result sample_manager (prompt_buckets sample_manager) l' (1, 100, 3) b /\
    (fits sample_manager (1, 100, 3) ->
       find_prompt_bucket 1 100 3 (set_prompt_buckets l' sample_manager) = Ret b (set_prompt_buckets l' sample_manager)).
Proof. split; [split; simpl; lia|]. apply (find_prompt_bucket_spec sample_manager 1 100 3), sample_manager_inv. Defined.

Lemma find_decode_bucket_spec_witness :
  let t := (3, 1, 20) in
  fits sample_manager t /\
  exists b l', find_decode_bucket 3 20 false sample_manager = Ret b (set_decode_buckets l' sample_manager) /\
    lookup_inv (set_decode_buckets l' sample_manager) /\ (fits sample_manager t -> dominates b t) /\
    (lookup_result sample_manager (decode_buckets sample_manager) l' t b \/
     l' = decode_buckets sample_manager /\ false = true /\
       exists seeds, seed_decode_buckets sample_manager = Some seeds /\ b ∈ seeds /\ dominates b t).
Proof. split; [split; simpl; lia|]. apply (find_decode_bucket_spec sample_manager 3 20 false), sample_manager_inv. Defined.

(** Two lookups of a prompt that was not prepared: 100 tokens are rounded up to
    160, and the new bucket answers the second. *)
Example find_prompt_example :
  match find_prompt_bucket 1 100 3 sample_manager with
  | Ret b m => (b, prompt_buckets m) | Raise _ _ => ((0, 0, 0), [])
  end = ((1, 160, 64), [(1, 32, 0); (1, 64, 4); (1, 160, 64)]).
Proof. vm_compute. reflexivity. Qed.

(** The order of four-tuples: by the first three, then by the flag. *)
Lemma unified_le (b b' : Bucket) (k k' : Z) : py_le (b, k) (b', k') <-> (py_le b b' /\ b <> b') \/ (b = b' /\ k <= k').
Proof.
  unfold py_le. rewrite (py_lt_pair b' b k' k), orb_false_iff, andb_false_iff, bool_decide_eq_false, py_lt_Z, Z.ltb_ge.
  destruct (decide (b = b')) as [->|].
  - rewrite py_lt_irrefl. split; [intros [_ [?|?]]; [done|by right]|intros [[_ ?]|[_ ?]]; [done|by auto]].
  - split; [intros [? _]; by left|intros [[? _]|[? _]]; [|done]; split; [done|left; congruence]].
Qed.

(** Looking up a unified batch changes nothing and never raises.  A bucket
    that is returned is in the list and at least the shape in every dimension;
    none is returned only if no bucket fits, or for a causal batch if only the
    bucket of exactly its shape fits and that is not causal (the flag is part
    of the order but is not compared). *)
Theorem find_unified_bucket_spec m query shared_ctx unique_ctx is_causal :
  initialized m = true -> StronglySorted py_le (unified_buckets m) ->
  let t := (query, shared_ctx, unique_ctx) in
  match find_unified_bucket query shared_ctx unique_ctx is_causal m with
  | Ret (b, Some k) m' => m' = m /\ (b, k) ∈ unified_buckets m /\ dominates b t
  | Ret (b, None) m' => m' = m /\ b = t /\ forall b' k, (b', k) ∈ unified_buckets m -> dominates b' t ->
      b' = t /\ k < (if is_causal then 1 else 0)
  | Raise _ _ => False
  end.
Proof.
  intros Hi Hs t. unfold find_unified_bucket, mbind, M_mbind, M_bind, get_state. rewrite Hi. fold t.
  pose proof (find_config_ok (unified_buckets m) (t, if is_causal then 1 else 0) Hs) as Hf.
  assert (Hg : forall (b : Bucket) k k', is_greater_or_equal (b, k) (t, k') = true <-> dominates b t).
  { intros b k k'. rewrite <- ge_dominates. done. }
  destruct (find_equal_or_closest_greater_config _ _) as [[b k]|]; simpl.
  - destruct Hf as (? & _ & Hd & _). split; [done|]. split; [done|]. by eapply Hg.
  - split; [done|]. split; [done|]. intros b' k Hb' Hd. destruct (decide (py_le (t, if is_causal then 1 else 0) (b', k))) as [Hle|Hn].
    + pose proof (Hf _ Hb' Hle) as Hfalse. rewrite (proj2 (Hg b' k _) Hd) in Hfalse. done.
    + rewrite unified_le in Hn. pose proof (dominates_le b' t Hd).
      destruct (decide (t = b')) as [E|]; [|tauto]. split; [done|].
      apply Z.nle_gt. intros ?. apply Hn. by right.
Qed.

Lemma find_unified_bucket_spec_witness :
  let m := set_unified_buckets [(1, 0, 1, 0); (8, 4, 4, 1)] sample_manager in
  match find_unified_bucket 1 0 1 true m with
  | Ret (b, Some k) m' => m' = m /\ (b, k) ∈ unified_buckets m /\ dominates b (1, 0, 1)
  | Ret (b, None) m' => m' = m /\ b = (1, 0, 1) /\ forall b' k, (b', k) ∈ unified_buckets m -> dominates b' (1, 0, 1) ->
      b' = (1, 0, 1) /\ k < 1
  | Raise _ _ => False
  end.
Proof.
  apply (find_unified_bucket_spec (set_unified_buckets [(1, 0, 1, 0); (8, 4, 4, 1)] sample_manager) 1 0 1 true); [done|].
  repeat (constructor; [|repeat constructor; reflexivity]). constructor.
Defined.

(** ** Generation *)

Lemma spec_decode_of_ok corrector corr num_tokens b : (forall c, corrector c = Ok (corr c)) ->
  exists l, spec_decode_of corrector num_tokens b = Ok l /\ forall c, c ∈ l <->
    c = b \/ (b.1.1 * num_tokens <= b.2 /\ c = corr (b.1.1 * num_tokens, b.1.2, b.2)) \/
    c = corr (b.1.1 * num_tokens, b.1.2, b.2 * num_tokens).
Proof.
  intros Hc. destruct b as [[bs query] ctx]. unfold spec_decode_of. simpl. rewrite !Hc.
  destruct (Z.leb_spec (bs * num_tokens) ctx); simpl; (eexists; split; [done|]); intros c;
    rewrite !elem_of_cons; pose proof (not_elem_of_nil c); [tauto|].
  split; [tauto|]. intros [?|[[? ?]|?]]; [tauto|lia|tauto].
Qed.

Lemma mapM_result_ok {A B} (f : A -> result B) (g : A -> B) (l : list A) :
  (forall x, x ∈ l -> f x = Ok (g x)) -> mapM f l = Ok (g <$> l).
Proof.
  induction l as [|x l IH]; intros Hf; [done|]. simpl. rewrite Hf by left. simpl. rewrite IH; [done|].
  intros y Hy. apply Hf. by right.
Qed.

Lemma generate_spec_decode_buckets_ok rc m seeds : 0 < block_size m ->
  exists l, generate_spec_decode_buckets rc m seeds = Ok l /\ StronglySorted py_le l /\ NoDup l /\
    let n := 1 + num_speculative_tokens m in
    let correct := corrected rc false (max_model_len m) (block_size m) in
    forall c, c ∈ l <-> exists b, b ∈ seeds /\
      (c = b \/ (b.1.1 * n <= b.2 /\ c = correct (b.1.1 * n, b.1.2, b.2)) \/ c = correct (b.1.1 * n, b.1.2, b.2 * n)).
Proof.
  intros Hb. unfold generate_spec_decode_buckets. set (n := 1 + num_speculative_tokens m).
  set (correct := corrected rc false (max_model_len m) (block_size m)).
  match goal with |- context [mapM (spec_decode_of ?c _)] => set (corrector := c) end.
  assert (Hc : forall c, corrector c = Ok (correct c)) by (intros c; apply (corrector_ok rc false _ _ Hb)).
  assert (exists ls, mapM (spec_decode_of corrector n) seeds = Ok ls /\ forall c, c ∈ concat ls <-> exists b, b ∈ seeds /\
    (c = b \/ (b.1.1 * n <= b.2 /\ c = correct (b.1.1 * n, b.1.2, b.2)) \/ c = correct (b.1.1 * n, b.1.2, b.2 * n))) as (ls & -> & Hls).
  { clear -Hc. induction seeds as [|b seeds (ls & E & Hls)].
    - exists []. split; [done|]. intros c. split; [by intros ?%not_elem_of_nil|]. by intros (b & ?%not_elem_of_nil & _).
    - destruct (spec_decode_of_ok corrector correct n b Hc) as (l & El & Hl). exists (l :: ls). simpl. rewrite El. simpl. rewrite E.
      split; [done|]. intros c. rewrite elem_of_app, Hl, Hls. setoid_rewrite elem_of_cons. split.
      + intros [?|(b' & ? & ?)]; [exists b; by auto|exists b'; by auto].
      + intros (b' & [->|?] & ?); [by left|right; by exists b']. }
  simpl. eexists. split; [done|]. split; [apply sorted_set_sorted|]. split; [apply sorted_set_NoDup|].
  intros c. rewrite elem_of_sorted_set. apply Hls.
Qed.

(** The buckets for speculative decoding.  With [n] tokens verified per
    sequence the result is sorted, without duplicates, and holds the seeds and
    for each seed [(bs, q, c)] the bucket of [bs * n] sequences with [c * n]
    blocks, and with [c] blocks if that many sequences can have a block each;
    without contiguous attention the blocks are cut to what the sequences can
    use. *)
Theorem generate_spec_decode_buckets_spec rc m seeds : 0 < block_size m ->
  exists l, generate_spec_decode_buckets rc m seeds = Ok l /\ StronglySorted py_le l /\ NoDup l /\
    let n := 1 + num_speculative_tokens m in
    let correct := corrected rc false (max_model_len m) (block_size m) in
    forall c, c ∈ l <-> exists b, b ∈ seeds /\
      (c = b \/ (b.1.1 * n <= b.2 /\ c = correct (b.1.1 * n, b.1.2, b.2)) \/ c = correct (b.1.1 * n, b.1.2, b.2 * n)).
Proof. apply generate_spec_decode_buckets_ok. Qed.

Lemma generate_spec_decode_buckets_spec_witness :
  exists l, generate_spec_decode_buckets sample_runtime sample_manager [(1, 1, 8)] = Ok l /\ StronglySorted py_le l /\ NoDup l /\
    let n := 1 + num_speculative_tokens sample_manager in
    let correct := corrected sample_runtime false (max_model_len sample_manager) (block_size sample_manager) in
    forall c, c ∈ l <-> exists b, b ∈ [(1, 1, 8)] /\
      (c = b \/ (b.1.1 * n <= b.2 /\ c = correct (b.1.1 * n, b.1.2, b.2)) \/ c = correct (b.1.1 * n, b.1.2, b.2 * n)).
Proof. apply generate_spec_decode_buckets_spec. reflexivity. Defined.

(** The exponential ranges of decoding with contiguous attention reach every
    batch size and every block. *)
Lemma decode_ranges_cover `{P : PowerSteps} `{!PowerLaws P} rc environ m n :
  use_exponential_bucketing rc = true -> use_contiguous_pa rc = true -> num_hpu_blocks m = Some n ->
  1 <= max_num_seqs m -> 1 <= n ->
  exists bs_range ctx_range, get_decode_ranges rc environ m = Ok (bs_range, [1], ctx_range) /\
    (forall v, v <= max_num_seqs m -> exists b, b ∈ bs_range /\ v <= b) /\
    (forall v, v <= n -> exists c, c ∈ ctx_range /\ v <= c).
Proof.
  intros He Hc Hn Hseqs H1. unfold get_decode_ranges. rewrite He, Hn. unfold exponential_get_decode_cfgs, log2_ceil.
  rewrite !(proj2 (Z.leb_gt _ _)) by lia. rewrite Hc. cbn [mbind result_mbind].
  pose proof (Z.log2_up_nonneg (max_num_seqs m)). pose proof (Z.log2_up_nonneg n).
  destruct (exponential_range_ok rc 1 2 (max_num_seqs m) (Z.log2_up (max_num_seqs m) + 1)) as (lb & -> & Hb & _); [lia..|].
  cbn [mbind result_mbind].
  destruct (exponential_range_ok rc 1 1 1 1) as (lq & Eq & _); [lia..|].
  assert (Eq1 : exponential_get_range rc (1, 1, 1, 1) = Ok [1]) by reflexivity. rewrite Eq1. cbn [mbind result_mbind].
  destruct (exponential_range_ok rc 1 (max_num_seqs m) n (Z.log2_up n + 1)) as (lc & -> & Hcov & _); [lia..|].
  cbn [mbind result_mbind]. unfold add_last_block. rewrite Hc, Hn.
  destruct (gr_cover _ _ _ _ _ Hcov n ltac:(lia)) as (b0 & Hb0 & _).
  destruct (last lc) as [z|] eqn:El; [|apply last_None in El; subst; by apply not_elem_of_nil in Hb0].
  cbn [mbind result_mbind]. eexists lb, _. split; [done|]. split; [apply (gr_cover _ _ _ _ _ Hb)|].
  intros v Hv. destruct (gr_cover _ _ _ _ _ Hcov v Hv) as (c & Hc' & ?). exists c. split; [|done].
  destruct (z <? n); [apply elem_of_app; by left|done].
Qed.

(** A list of decode buckets that reaches every batch within the two limits. *)
Definition covers (seqs blocks : Z) (l : list Bucket) : Prop :=
  forall bs c, bs <= seqs -> c <= blocks -> exists b, b ∈ l /\ dominates b (bs, 1, c).

Lemma decode_phase_covers `{P : PowerSteps} `{!PowerLaws P} rc environ read_lines eval m n :
  use_exponential_bucketing rc = true -> use_contiguous_pa rc = true -> bucketing_file rc = None ->
  num_hpu_blocks m = Some n -> 1 <= n -> 1 <= max_num_seqs m -> 1 <= max_num_prefill_seqs m -> 0 < block_size m ->
  exists seeds, phase_buckets rc environ read_lines eval m false = Ok seeds /\ StronglySorted py_le seeds /\
    covers (max_num_seqs m) n seeds.
Proof.
  intros He Hc Hf Hn H1 Hseqs Hpre Hbs.
  destruct (decode_ranges_cover rc environ m n He Hc Hn Hseqs H1) as (lb & lc & Er & Hlb & Hlc).
  unfold phase_buckets. rewrite Hf, Er. cbn [mbind result_mbind].
  pose proof (generate_buckets_ok rc lb [1] lc false (max_model_len m) (max_num_prefill_seqs m) (max_num_batched_tokens m)
    (block_size m) None Hbs ltac:(lia)) as Hg. destruct (generate_buckets _ _ _ _ _ _ _ _ _ _) as [l|e]; simpl in Hg.
  - destruct Hg as (_ & Hsl & _ & Hl). exists l. split; [done|]. split; [done|]. intros bs c Hb Hcn.
    destruct (Hlb bs Hb) as (b' & Hb' & ?), (Hlc c Hcn) as (c' & Hc' & ?). exists (b', 1, c').
    split; [|unfold dominates; simpl; lia]. apply Hl. exists (b', 1, c'). simpl. rewrite Hc. simpl.
    split; [split; [done|split; [left|done]]|done].
  - destruct Hg as [_ Hg]. destruct (Hlb 0 ltac:(lia)) as (b' & Hb' & _), (Hlc 0 ltac:(lia)) as (c' & Hc' & _).
    specialize (Hg (b', 1, c')). simpl in Hg. rewrite Hc in Hg. simpl in Hg.
    discriminate Hg. split; [done|split; [left|done]].
Qed.

(** A lookup in lists that reach the batch adds nothing. *)
Lemma prepared_lookup m seqs blocks bs c sb : lookup_inv m -> covers seqs blocks (decode_buckets m) ->
  bs <= seqs -> c <= blocks -> exists b, find_decode_bucket bs c sb m = Ret b m /\ dominates b (bs, 1, c).
Proof.
  intros Hm Hcov Hb Hc. unfold find_decode_bucket, mbind, M_mbind, M_bind, get_state. rewrite (li_initialized m Hm).
  set (from := match seed_decode_buckets m with Some _ => _ | None => None end). destruct from as [b|] eqn:Ef.
  - exists b. split; [done|]. unfold from in Ef. destruct (seed_decode_buckets m) as [l|] eqn:El; [|done]. destruct sb; [|done].
    pose proof (find_bucket_ok l (bs, 1, c) (li_seeds m Hm _ El)) as Hl. rewrite Ef in Hl. apply Hl.
  - pose proof (find_bucket_ok (decode_buckets m) (bs, 1, c) (li_decode m Hm)) as Hl.
    destruct (find_equal_or_closest_greater_config (decode_buckets m) _) as [b|]; [by exists b; split; [|apply Hl]|].
    destruct (Hcov bs c Hb Hc) as (b & Hbin & Hdom). by destruct (Hl b Hbin).
Qed.

Lemma lookup_inv_seeds m l : lookup_inv m -> StronglySorted py_le l -> lookup_inv (set_seed_decode_buckets l m).
Proof. intros [] ?; split; simpl; try done. by intros ? [= <-]. Qed.

(** From seeds that are sorted, generation returns with sorted lists that hold
    the seeds. *)
Lemma generate_decode_ok `{P : PowerSteps} rc environ read_lines eval m seeds : lookup_inv m -> 0 < block_size m ->
  phase_buckets rc environ read_lines eval m false = Ok seeds -> StronglySorted py_le seeds ->
  exists m', generate_decode_buckets rc environ read_lines eval m = Ret tt m' /\ lookup_inv m' /\
    forall b, b ∈ seeds -> b ∈ decode_buckets m'.
Proof.
  intros Hm Hb Hp Hs. unfold generate_decode_buckets, mbind, M_mbind, M_bind, get_state, lift_result, modify.
  rewrite (li_initialized m Hm), Hp. destruct (Z.eqb_spec (num_speculative_tokens m) 0); simpl.
  - eexists. split; [done|]. split; [by apply lookup_inv_decode|done].
  - destruct (generate_spec_decode_buckets_ok rc m seeds Hb) as (l & -> & Hl & _ & Hin).
    eexists. split; [done|]. split; [by apply lookup_inv_decode; [apply lookup_inv_seeds; [apply lookup_inv_decode|]|]|].
    intros b Hbs. apply Hin. exists b. split; [done|]. by left.
Qed.

(** C38: decode batches are prepared.  With the exponential strategy, contiguous
    attention and no file, generation succeeds, with or without speculative
    tokens, and afterwards every batch of at most [max_num_seqs] sequences and
    [num_hpu_blocks] blocks finds a prepared bucket that is large enough:
    decoding never adds one. *)
Theorem decode_batches_are_prepared `{P : PowerSteps} `{!PowerLaws P} rc environ read_lines eval m n :
  lookup_inv m -> use_exponential_bucketing rc = true -> use_contiguous_pa rc = true -> bucketing_file rc = None ->
  num_hpu_blocks m = Some n -> 1 <= n -> 1 <= max_num_seqs m -> 1 <= max_num_prefill_seqs m -> 0 < block_size m ->
  exists m', generate_decode_buckets rc environ read_lines eval m = Ret tt m' /\
    forall batch_size num_blocks seed_buckets, batch_size <= max_num_seqs m -> num_blocks <= n ->
      exists b, find_decode_bucket batch_size num_blocks seed_buckets m' = Ret b m' /\ dominates b (batch_size, 1, num_blocks).
Proof.
  intros Hm He Hc Hf Hn H1 Hseqs Hpre Hbs.
  destruct (decode_phase_covers rc environ read_lines eval m n He Hc Hf Hn H1 Hseqs Hpre Hbs) as (seeds & Es & Hs & Hcov).
  destruct (generate_decode_ok rc environ read_lines eval m seeds Hm Hbs Es Hs) as (m' & E & Hm' & Hin).
  exists m'. split; [done|]. intros bs c sb Hb Hcn. apply (prepared_lookup m' (max_num_seqs m) n); [done| |done..].
  intros bs' c' ? ?. destruct (Hcov bs' c') as (b & ? & ?); [done..|]. exists b. split; [by apply Hin|done].
Qed.

Lemma decode_batches_are_prepared_witness :
  exists m', generate_decode_buckets (P := exact_power_steps) sample_runtime (fun _ => None) (fun _ => []) (fun _ => None)
      sample_manager = Ret tt m' /\
    forall batch_size num_blocks seed_buckets, batch_size <= 4 -> num_blocks <= 100 ->
      exists b, find_decode_bucket batch_size num_blocks seed_buckets m' = Ret b m' /\ dominates b (batch_size, 1, num_blocks).
Proof.
  apply (decode_batches_are_prepared (P := exact_power_steps) sample_runtime (fun _ => None) (fun _ => []) (fun _ => None)
    sample_manager 100); [apply sample_manager_inv|try reflexivity..]; simpl; lia.
Defined.

(** The ranges of unified attention for one sequence at a time hold the query
    length 1 and their maxima. *)
Lemma unified_first `{P : PowerSteps} `{!PowerLaws P} bmax : 0 <= bmax -> 1 ∈ unified_get_range (1, bmax, 1).
Proof.
  intros Hm. unfold unified_get_range, warmup_unified_range.
  rewrite elem_of_sorted, elem_of_sorted_set. apply elem_of_app. right. apply list_elem_of_fmap. exists 0.
  split; [|apply elem_of_seqZ; lia]. simpl. by rewrite power_first by lia.
Qed.

(** Unified attention with [max_num_seqs] 1 cannot start: whenever a block
    fits the model length and there is a block, generating the buckets divides
    by half of a query of length 1, which is 0. *)
Theorem single_sequence_unified_error `{P : PowerSteps} `{!PowerLaws P} m n :
  initialized m = true -> max_num_seqs m = 1 -> 0 <= max_num_batched_tokens m ->
  0 < block_size m <= max_model_len m -> num_hpu_blocks m = Some n -> 1 <= n ->
  manager_unified_buckets m = Raise ZeroDivisionError m.
Proof.
  intros Hi Hseq Htok Hbs Hn H1. unfold manager_unified_buckets, mbind, M_mbind, M_bind, get_state, lift_result.
  rewrite Hi. unfold get_unified_cfgs. rewrite Hn, Hseq, floordiv_ok by lia. cbn [mbind result_mbind].
  pose proof (Z.div_le_lower_bound (max_model_len m) (block_size m) 1 ltac:(lia) ltac:(lia)).
  set (s := Z.min (max_model_len m / block_size m) n).
  rewrite (generate_unified_buckets_error _ _ _ 1 (block_size m) (max_model_len m) s); [done|lia| | |lia|].
  - by apply unified_first.
  - apply (unified_range_ok 0 s 1); lia.
  - destruct (unified_range_ok 0 n 1 ltac:(lia) ltac:(lia) ltac:(lia)) as (_ & Hin & _). intros E.
    cbv zeta in Hin. rewrite E in Hin. by apply not_elem_of_nil in Hin.
Qed.

Lemma single_sequence_unified_error_witness :
  let m := mkManager true 1 1 16 2048 (Some 100) 1024 0 2 32 32 false 0 0 [] [] [] None in
  manager_unified_buckets (P := exact_power_steps) m = Raise ZeroDivisionError m.
Proof.
  apply (single_sequence_unified_error (P := exact_power_steps)
    (mkManager true 1 1 16 2048 (Some 100) 1024 0 2 32 32 false 0 0 [] [] [] None) 100); simpl; try reflexivity; lia.
Defined.

(** The whole slices rule, decided without the division. *)
Definition window_ok (m : HPUBucketingManager) (t : Bucket) : bool :=
  negb (t.2 =? 0) || (t.1.2 <? slice_thld m) || (t.1.2 mod slice_size m =? 0).

Lemma filter_sliding_ok m l : 0 < slice_size m -> filter_sliding m l = Ok (filter (fun t => window_ok m t) l).
Proof.
  intros Hs. induction l as [|[[bs query] ctx] l IH]; [done|]. cbn [filter_sliding].
  assert (E : sliding_ok m (bs, query, ctx) = Ok (window_ok m (bs, query, ctx))).
  { unfold sliding_ok, window_ok. simpl. destruct (ctx =? 0); [|done]. destruct (query <? slice_thld m); [done|].
    by rewrite (proj2 (Z.eqb_neq _ _)) by lia. }
  rewrite E, IH. simpl. rewrite filter_cons. by destruct (window_ok m (bs, query, ctx)).
Qed.

Lemma StronglySorted_filter {A} (R : relation A) (Q : A -> Prop) `{!forall x, Decision (Q x)} (l : list A) :
  StronglySorted R l -> StronglySorted R (filter Q l).
Proof.
  induction 1 as [|x l Hs IH Hx]; [constructor|]. rewrite filter_cons. case_decide; [|done]. constructor; [done|].
  rewrite Forall_forall in Hx |- *. intros y [_ Hy]%list_elem_of_filter. by apply Hx.
Qed.

Lemma generate_buckets_member rc r1 r2 r3 prompt len1 seqs tokens bs file l b : 0 < bs -> 0 < seqs ->
  generate_buckets rc r1 r2 r3 prompt len1 seqs tokens bs file = Ok l ->
  StronglySorted py_le l /\ (b ∈ l -> exists c, accepted rc prompt len1 seqs tokens bs c = true /\ b = corrected rc prompt len1 bs c).
Proof.
  intros Hb Hs E. pose proof (generate_buckets_ok rc r1 r2 r3 prompt len1 seqs tokens bs file Hb Hs) as Hg.
  rewrite E in Hg. destruct Hg as (_ & ? & _ & Hl). split; [done|]. intros (c & _ & ? & ?)%Hl. by exists c.
Qed.

(** Preparing the prompts.  Whatever the strategy or the file, either an
    exception leaves the manager as it was, or the list is sorted and without
    merged prefill every bucket fits the model length with its context and the
    token budget with its batch; with a sliding window a long prompt without
    context is a whole number of slices. *)
Theorem generate_prompt_buckets_spec `{P : PowerSteps} rc environ read_lines eval m :
  lookup_inv m -> 0 < block_size m -> 0 < max_num_prefill_seqs m ->
  match generate_prompt_buckets rc environ read_lines eval m with
  | Raise _ m' => m' = m
  | Ret _ m' => lookup_inv m' /\ m' = set_prompt_buckets (prompt_buckets m') m /\
      forall bs query ctx, (bs, query, ctx) ∈ prompt_buckets m' ->
        (merged_prefill rc = false -> query + ctx * block_size m <= max_model_len m /\ bs * query <= max_num_batched_tokens m) /\
        (use_sliding_window m = true -> ctx = 0 -> slice_thld m <= query -> (slice_size m | query))
  end.
Proof.
  intros Hm Hb Hp. unfold generate_prompt_buckets, mbind, M_mbind, M_bind, get_state, lift_result, modify.
  rewrite (li_initialized m Hm). destruct (phase_buckets rc environ read_lines eval m true) as [l|e] eqn:E; [|done].
  assert (Hl : StronglySorted py_le l /\ forall b, b ∈ l -> exists c,
    accepted rc true (max_model_len m) (max_num_prefill_seqs m) (max_num_batched_tokens m) (block_size m) c = true /\
    b = corrected rc true (max_model_len m) (block_size m) c).
  { assert (Hg : exists r1 r2 r3 file, generate_buckets rc r1 r2 r3 true (max_model_len m) (max_num_prefill_seqs m)
      (max_num_batched_tokens m) (block_size m) file = Ok l).
    { unfold phase_buckets in E. destruct (bucketing_file rc).
      - destruct (read_from_file _ _ _ _); [|done]. by eexists _, _, _, _.
      - destruct (get_prompt_ranges _ _ _) as [[[r1 r2] r3]|]; [|done]. by eexists _, _, _, _. }
    destruct Hg as (r1 & r2 & r3 & file & Hg).
    split; [apply (generate_buckets_member _ _ _ _ _ _ _ _ _ _ _ (0, 0, 0) Hb Hp Hg)|].
    intros b. apply (generate_buckets_member _ _ _ _ _ _ _ _ _ _ _ b Hb Hp Hg). }
  destruct Hl as [Hs Hl].
  assert (Hlim : forall bs query ctx, (bs, query, ctx) ∈ l -> merged_prefill rc = false ->
    query + ctx * block_size m <= max_model_len m /\ bs * query <= max_num_batched_tokens m).
  { intros bs query ctx ([[bs' query'] ctx'] & Ha & Hc)%Hl Hmp. simpl in Ha, Hc. rewrite Hmp in Ha. simplify_eq.
    apply andb_true_iff in Ha as [?%Z.leb_le ?%Z.leb_le]. done. }
  destruct (use_sliding_window m) eqn:Ew.
  - rewrite filter_sliding_ok by (by apply (li_slice m Hm)). split; [by apply lookup_inv_prompt; [apply lookup_inv_prompt|apply StronglySorted_filter]|].
    split; [done|]. intros bs query ctx [Hw%Is_true_true Hin]%list_elem_of_filter. split; [by apply (Hlim bs query ctx)|].
    intros _ -> Hq. unfold window_ok in Hw. simpl in Hw. rewrite (proj2 (Z.ltb_ge _ _)) in Hw by done. simpl in Hw.
    apply Z.eqb_eq in Hw. by apply Z.mod_divide; [pose proof (li_slice m Hm Ew); lia|].
  - split; [by apply lookup_inv_prompt|]. split; [done|]. intros bs query ctx Hin. split; [by apply (Hlim bs query ctx)|done].
Qed.

Lemma generate_prompt_buckets_spec_witness :
  match generate_prompt_buckets (P := exact_power_steps) sample_runtime (fun _ => None) (fun _ => []) (fun _ => None) sample_manager with
  | Raise _ m' => m' = sample_manager
  | Ret _ m' => lookup_inv m' /\ m' = set_prompt_buckets (prompt_buckets m') sample_manager /\
      forall bs query ctx, (bs, query, ctx) ∈ prompt_buckets m' ->
        (merged_prefill sample_runtime = false -> query + ctx * 16 <= 1024 /\ bs * query <= 2048) /\
        (use_sliding_window sample_manager = true -> ctx = 0 -> slice_thld sample_manager <= query -> (slice_size sample_manager | query))
  end.
Proof.
  apply (generate_prompt_buckets_spec (P := exact_power_steps) sample_runtime (fun _ => None) (fun _ => []) (fun _ => None) sample_manager);
    [apply sample_manager_inv|reflexivity..].
Defined.

(** A small engine prepares 62 prompts, the longest of 784 tokens (the next
    value of the range is above the model length), and 27 decode batches. *)
Example generation_example :
  match generate_prompt_buckets (P := exact_power_steps) sample_runtime (fun _ => None) (fun _ => []) (fun _ => None) sample_manager,
        generate_decode_buckets (P := exact_power_steps) sample_runtime (fun _ => None) (fun _ => []) (fun _ => None) sample_manager with
  | Ret _ m1, Ret _ m2 => (length (prompt_buckets m1), length (decode_buckets m2), get_max_prompt_shape m1)
  | _, _ => (0%nat, 0%nat, 0)
  end = (62%nat, 27%nat, 784).
Proof. vm_compute. reflexivity. Qed.
