(* ===== verification/VisionBuckets.v ===== *)
(** Buckets of image patches ([src/vllm_gaudi/extension/bucketing/vision.py]):
    the choice of a bucket, the padding of an image grid to it, and the split
    of a batch of images into prepared batch sizes. *)

From Stdlib Require Import ZArith Lia Ascii.
From stdpp Require Import base strings numbers list sorting sets.
From S2P Require Import Prelude.
From S2P Require Import PyOrder.
From S2P Require Import PyText.

Open Scope string_scope.
Open Scope list_scope.
Open Scope Z_scope.

(** ** Configuration *)

Record MMConfig := mkMMConfig { cfg_is_batch_based : bool; cfg_buckets : list Z }.

(** [MULTIMODAL_CONFIG], in the order of the dict. *)
Definition MULTIMODAL_CONFIG : list (string * MMConfig) := [
  ("gemma-3", mkMMConfig true [1; 2; 4; 8]);
  ("ovis2.5", mkMMConfig false [784; 1600; 3136; 4096; 6400; 7744; 9216; 12544]);
  ("qwen2_5_vl", mkMMConfig false [1600; 3136; 4096; 6400; 7744; 9216; 12544]);
  ("qwen3_vl", mkMMConfig false
    [512; 1024; 2048; 3072; 4096; 5120; 6144; 7168; 8192; 9216; 10240; 11264; 12288; 131076])
].

(** [key in name]: the characters occur in a row. *)
Fixpoint contains (key name : list ascii) : bool :=
  bool_decide (take (length key) name = key) ||
  match name with [] => false | _ :: name' => contains key name' end.

(** [s.replace('-', '').replace('.', '')]. *)
Definition plain (s : string) : list ascii := filter (fun c => c <> "-"%char /\ c <> "."%char) (chars s).

Definition _get_multimodal_config (model_name : string) : MMConfig :=
  let model_name_lower := plain (lower model_name) in
  match filter (fun e : string * MMConfig => contains (plain e.1) model_name_lower) MULTIMODAL_CONFIG with
  | (_, config) :: _ => config
  | [] => mkMMConfig true [1; 2; 4; 8]
  end.

Definition _process_buckets (buckets : list Z) : list Z := sorted buckets.

Record HPUVisionBucketManager := mkVision { is_batch_based : bool; multimodal_buckets : option (list Z) }.

(** [__init__]; [envvar] is [VLLM_MULTIMODAL_BUCKETS], empty when not set. *)
Definition init_vision (model_name : string) (batch_based : option bool) (envvar : string) : result HPUVisionBucketManager :=
  let config := _get_multimodal_config model_name in
  let is_batch_based := default (cfg_is_batch_based config) batch_based in
  if decide (envvar = "None") then Ok (mkVision is_batch_based None)
  else
    buckets ← (if decide (envvar = EmptyString) then Ok (cfg_buckets config) else mapM py_int (split ","%char envvar));
    Ok (mkVision is_batch_based (Some (_process_buckets buckets))).

(** ** Operations *)

Fixpoint first_bucket (n : Z) (l : list Z) : Z :=
  match l with
  | [] => n
  | mm_bucket :: l' => if n <=? mm_bucket then mm_bucket else first_bucket n l'
  end.

Definition get_multimodal_bucket (v : HPUVisionBucketManager) (curr_num_image_patches : Z) : Z :=
  match multimodal_buckets v with
  | Some l => first_bucket curr_num_image_patches l
  | None => 0
  end.

(** The loop over [range(orig + 1, desired_patches + 1)]. *)
Fixpoint find_factor_from (desired_patches : Z) (candidates : list Z) : result (option Z) :=
  match candidates with
  | [] => Ok None
  | i :: rest =>
      if i =? 0 then Err ZeroDivisionError
      else if desired_patches mod i =? 0 then
        if negb (i mod 2 =? 0) then find_factor_from desired_patches rest else Ok (Some i)
      else find_factor_from desired_patches rest
  end.
Definition find_factor (desired_patches orig : Z) : result (option Z) :=
  find_factor_from desired_patches (py_range (orig + 1) (desired_patches + 1) 1).

Definition modulo (a b : Z) : result Z := if b =? 0 then Err ZeroDivisionError else Ok (a mod b).

(** The padding before the last check. *)
Definition candidate_padding (h_orig w_orig desired_patches : Z) : result (Z * Z) :=
  rh ← modulo desired_patches h_orig;
  if rh =? 0 then
    let w_factor := desired_patches / h_orig in
    Ok (0, if (w_orig <? w_factor) && (w_factor mod 2 =? 0) then w_factor - w_orig else 0)
  else
    rw ← modulo desired_patches w_orig;
    if rw =? 0 then
      let h_factor := desired_patches / w_orig in
      Ok (if (h_orig <? h_factor) && (h_factor mod 2 =? 0) then h_factor - h_orig else 0, 0)
    else if w_orig <? h_orig then
      f ← find_factor desired_patches w_orig;
      match f with
      | Some w_factor =>
          let h_factor := desired_patches / w_factor in
          Ok (if h_orig <? h_factor then h_factor - h_orig else 0, w_factor - w_orig)
      | None => Ok (0, 0)
      end
    else
      f ← find_factor desired_patches h_orig;
      match f with
      | Some h_factor =>
          let w_factor := desired_patches / h_factor in
          Ok (h_factor - h_orig, if w_orig <? w_factor then w_factor - w_orig else 0)
      | None => Ok (0, 0)
      end.

Definition find_padding (h_orig w_orig desired_patches : Z) : result (Z * Z) :=
  '(best_pad_h, best_pad_w) ← candidate_padding h_orig w_orig desired_patches;
  Ok (if (best_pad_h + h_orig) * (best_pad_w + w_orig) =? desired_patches then (best_pad_h, best_pad_w) else (0, 0)).

(** A tensor of patches as its rows, a grid as its rows [(t, h, w)]. *)
Definition Grid : Type := list (Z * Z * Z).
Definition patches (g : Z * Z * Z) : Z := g.1.1 * g.1.2 * g.2.

Definition pad_multimodal_data {A} (v : HPUVisionBucketManager) (pad_row : A) (pixel_values : list A) (image_grid_thw : Grid) :
    result (list A * Grid) :=
  let desired_number_of_pixels := get_multimodal_bucket v (len pixel_values) in
  let padding_len := desired_number_of_pixels - len pixel_values in
  if padding_len <=? 0 then Ok (pixel_values, image_grid_thw) else
  match image_grid_thw with
  | [] => Err IndexError
  | (_, h_orig, w_orig) :: _ =>
      '(pad_h, pad_w) ← find_padding h_orig w_orig desired_number_of_pixels;
      if (pad_h =? 0) && (pad_w =? 0) then Ok (pixel_values, image_grid_thw) else
      let pixel_values := pixel_values ++ replicate (Z.to_nat padding_len) pad_row in
      let image_grid_thw := [(1, h_orig + pad_h, w_orig + pad_w)] in
      guard_or (foldl Z.add 0 (patches <$> image_grid_thw) =? desired_number_of_pixels) AssertionError;;
      Ok (pixel_values, image_grid_thw)
  end.

(** The loop of [greedy_plan]: what is left, and the sizes from [idx] on.  Each
    turn takes a size or drops one. *)
Fixpoint greedy_loop (fuel : nat) (left_to_process : Z) (sizes : list Z) (acc : list Z) : result (Z * list Z) :=
  match fuel with
  | O => Err MemoryError
  | S f =>
      match sizes with
      | [] => Ok (left_to_process, acc)
      | size :: rest =>
          if left_to_process <=? 0 then Ok (left_to_process, acc)
          else if size <=? left_to_process then greedy_loop f (left_to_process - size) sizes (acc ++ [size])
          else greedy_loop f left_to_process rest acc
      end
  end.

(** [sorted(..., key=lambda x: -x)]: equal keys are equal numbers. *)
Definition descending (l : list Z) : list Z := reverse (sorted l).

Definition greedy_plan (batchsize : Z) (available_batchsizes : list Z) : result (list Z) :=
  let available_batchsizes_sorted := descending available_batchsizes in
  '(left_to_process, plan) ←
    greedy_loop (S (Z.to_nat batchsize + length available_batchsizes_sorted)) batchsize available_batchsizes_sorted [];
  if 0 <? left_to_process then
    match last available_batchsizes_sorted with
    | Some smallest => Ok (plan ++ [smallest])
    | None => Err IndexError
    end
  else Ok plan.

(** The slices of the batch that [_process_image_input] of
    [src/vllm_gaudi/models/gemma3_mm.py] runs, one for each size of the plan. *)
Fixpoint batch_slices (start_idx : Z) (batch_breakdown : list Z) : list (Z * Z) :=
  match batch_breakdown with
  | [] => []
  | i :: rest => (start_idx, start_idx + i) :: batch_slices (start_idx + i) rest
  end.

(** ** Choice of a bucket *)

(** The bucket of an image.  With sorted buckets it is the least that is
    not below the number of patches; an image larger than all keeps its size. *)
Theorem get_multimodal_bucket_spec v l n : multimodal_buckets v = Some l -> StronglySorted py_le l ->
  let b := get_multimodal_bucket v n in
  (b ∈ l /\ n <= b /\ forall b', b' ∈ l -> n <= b' -> b <= b') \/ (b = n /\ forall b', b' ∈ l -> b' < n).
Proof.
  intros Hl Hs. unfold get_multimodal_bucket. rewrite Hl. simpl. clear Hl.
  induction Hs as [|x l Hs IH Hx]; simpl; [right; split; [done|by intros b' ?%not_elem_of_nil]|].
  rewrite Forall_forall in Hx. setoid_rewrite py_le_Z in Hx. destruct (Z.leb_spec n x).
  - left. split; [left|]. split; [done|]. intros b' [->|Hb']%elem_of_cons _; [lia|by apply Hx].
  - destruct IH as [(Hin & Hn & Hle)|[-> Hlt]].
    + left. split; [by right|]. split; [done|]. intros b' [->|Hb']%elem_of_cons ?; [lia|by apply Hle].
    + right. split; [done|]. intros b' [->|Hb']%elem_of_cons; [lia|by apply Hlt].
Qed.

Lemma get_multimodal_bucket_spec_witness :
  let v := mkVision false (Some [784; 1600; 3136]) in
  let b := get_multimodal_bucket v 1000 in
  (b ∈ [784; 1600; 3136] /\ 1000 <= b /\ forall b', b' ∈ [784; 1600; 3136] -> 1000 <= b' -> b <= b') \/
  (b = 1000 /\ forall b', b' ∈ [784; 1600; 3136] -> b' < 1000).
Proof.
  apply (get_multimodal_bucket_spec (mkVision false (Some [784; 1600; 3136]))); [done|].
  repeat (constructor; [|repeat constructor; reflexivity]). constructor.
Defined.

(** ** Padding *)

Lemma find_factor_ok desired l : Forall (fun i => 0 < i) l -> exists f, find_factor_from desired l = Ok f /\
  forall i, f = Some i -> i ∈ l /\ (i | desired) /\ Z.Even i.
Proof.
  induction 1 as [|i l Hi Hl (f & E & Hf)]; simpl; [by exists None|].
  rewrite (proj2 (Z.eqb_neq i 0)) by lia.
  assert (Hf' : forall j, f = Some j -> j ∈ i :: l /\ (j | desired) /\ Z.Even j).
  { intros j Hj. destruct (Hf j Hj) as (? & ? & ?). split; [by right|done]. }
  destruct (Z.eqb_spec (desired mod i) 0); [|by exists f]. destruct (Z.eqb_spec (i mod 2) 0) as [He|]; simpl; [|by exists f].
  exists (Some i). split; [done|]. intros j [= <-]. split; [left|]. split; [by apply Z.mod_divide; [lia|]|].
  exists (i / 2). pose proof (Z.div_mod i 2). lia.
Qed.

Lemma find_factor_spec desired orig : 0 <= orig -> exists f, find_factor desired orig = Ok f /\
  forall i, f = Some i -> orig < i /\ (i | desired) /\ Z.Even i.
Proof.
  intros Ho. unfold find_factor.
  assert (Hr : forall i, i ∈ py_range (orig + 1) (desired + 1) 1 -> orig < i).
  { intros i [k Hk]%list_elem_of_lookup. unfold py_range in Hk.
    pose proof (lookup_lt_Some _ _ _ Hk) as Hlt. rewrite length_range_fuel in Hlt.
    rewrite lookup_range_fuel in Hk by done. simplify_eq. lia. }
  destruct (find_factor_ok desired (py_range (orig + 1) (desired + 1) 1)) as (f & -> & Hf).
  { apply Forall_forall. intros i Hi. pose proof (Hr i Hi). lia. }
  exists f. split; [done|]. intros i Hi. destruct (Hf i Hi) as (? & ? & ?). split; [by apply Hr|done].
Qed.

Lemma find_padding_ok h w desired : 0 < h -> 0 < w ->
  exists ph pw, find_padding h w desired = Ok (ph, pw) /\ 0 <= ph /\ 0 <= pw /\
    ((ph = 0 /\ pw = 0) \/ (h + ph) * (w + pw) = desired).
Proof.
  intros Hh Hw. unfold find_padding.
  assert (exists ph pw, candidate_padding h w desired = Ok (ph, pw) /\ 0 <= ph /\ 0 <= pw) as (ph & pw & -> & H1 & H2).
  { unfold candidate_padding, modulo. rewrite (proj2 (Z.eqb_neq h 0)), (proj2 (Z.eqb_neq w 0)) by lia. cbn [mbind result_mbind].
    destruct (_ =? 0); [eexists _, _; split; [done|]; case_match; lia|].
    destruct (_ =? 0); [eexists _, _; split; [done|]; case_match; lia|].
    destruct (w <? h).
    - destruct (find_factor_spec desired w ltac:(lia)) as ([f|] & -> & Hf); simpl; [|by exists 0, 0].
      destruct (Hf f eq_refl) as (? & _). eexists _, _. split; [done|]. case_match; lia.
    - destruct (find_factor_spec desired h ltac:(lia)) as ([f|] & -> & Hf); simpl; [|by exists 0, 0].
      destruct (Hf f eq_refl) as (? & _). eexists _, _. split; [done|]. case_match; lia. }
  simpl. destruct (Z.eqb_spec ((ph + h) * (pw + w)) desired); [|exists 0, 0; split; [done|lia]].
  exists ph, pw. split_and!; [done..|]. right. lia.
Qed.

(** Padding an image grid with positive sides raises nothing, shrinks
    nothing, and either adds nothing or reaches the desired number of patches
    exactly. *)
Theorem find_padding_spec h w desired : 0 < h -> 0 < w ->
  exists ph pw, find_padding h w desired = Ok (ph, pw) /\ 0 <= ph /\ 0 <= pw /\
    ((ph = 0 /\ pw = 0) \/ (h + ph) * (w + pw) = desired).
Proof. apply find_padding_ok. Qed.

Lemma find_padding_spec_witness :
  exists ph pw, find_padding 28 28 1600 = Ok (ph, pw) /\ 0 <= ph /\ 0 <= pw /\
    ((ph = 0 /\ pw = 0) \/ (28 + ph) * (28 + pw) = 1600).
Proof. apply find_padding_spec; lia. Defined.

(** The factor that is searched is even, the other one need not be: a grid of
    120 by 56 patches, even sides, is padded to 121 by 64. *)
Lemma find_padding_odd_side :
  get_multimodal_bucket (mkVision false (Some (cfg_buckets (_get_multimodal_config "Qwen2.5-VL")))) (120 * 56) = 6720 /\
  get_multimodal_bucket (mkVision false (Some (cfg_buckets (_get_multimodal_config "qwen2_5_vl")))) (120 * 56) = 7744 /\
  find_padding 120 56 7744 = Ok (1, 8).
Proof. vm_compute. done. Qed.

Lemma length_padded {A} (l : list A) (x : A) n : 0 <= n -> len (l ++ replicate (Z.to_nat n) x) = len l + n.
Proof. intros Hn. rewrite len_app. unfold len at 2. rewrite length_replicate. lia. Qed.

(** Padding the data of one image.  The assertion on the padded grid never
    fails: the call returns, the rows given come first, the rows and the grid
    still agree, and rows are added exactly when the grid grows. *)
Theorem pad_multimodal_data_spec {A} v (row : A) (rows : list A) h w : 0 < h -> 0 < w -> len rows = h * w ->
  exists k h' w', pad_multimodal_data v row rows [(1, h, w)] = Ok (rows ++ replicate k row, [(1, h', w')]) /\
    h <= h' /\ w <= w' /\ len (rows ++ replicate k row) = h' * w' /\
    (k <> 0%nat -> h' * w' = get_multimodal_bucket v (len rows)).
Proof.
  intros Hh Hw Hl. unfold pad_multimodal_data. set (d := get_multimodal_bucket v (len rows)).
  assert (Hsame : exists k h' w', Ok (rows, [(1, h, w)]) = Ok (rows ++ replicate k row, [(1, h', w')]) /\
    h <= h' /\ w <= w' /\ len (rows ++ replicate k row) = h' * w' /\ (k <> 0%nat -> h' * w' = d)).
  { exists 0%nat, h, w. rewrite app_nil_r. split; [done|]. split; [lia|]. split; [lia|]. split; [done|]. by intros []. }
  destruct (Z.leb_spec (d - len rows) 0); [exact Hsame|].
  destruct (find_padding_ok h w d Hh Hw) as (ph & pw & -> & H1 & H2 & Hor). cbn [mbind result_mbind].
  destruct ((ph =? 0) && (pw =? 0)) eqn:E; [exact Hsame|].
  assert (Hd : (h + ph) * (w + pw) = d) by (destruct Hor as [[-> ->]|]; [done|lia]).
  unfold patches. simpl. rewrite Z.mul_1_l, Hd, Z.eqb_refl. simpl.
  exists (Z.to_nat (d - len rows)), (h + ph), (w + pw). split; [done|]. rewrite length_padded by lia. lia.
Qed.

Lemma pad_multimodal_data_spec_witness :
  exists k h' w', pad_multimodal_data (mkVision false (Some [12; 16])) 0 (replicate 8 7) [(1, 4, 2)] =
      Ok (replicate 8 7 ++ replicate k 0, [(1, h', w')]) /\
    4 <= h' /\ 2 <= w' /\ len (replicate 8 7 ++ replicate k 0) = h' * w' /\
    (k <> 0%nat -> h' * w' = get_multimodal_bucket (mkVision false (Some [12; 16])) (len (replicate 8 7))).
Proof. apply (pad_multimodal_data_spec (mkVision false (Some [12; 16])) 0 (replicate 8 7) 4 2); [lia..|done]. Defined.

(** ** Splitting a batch *)

Definition total (l : list Z) : Z := foldr Z.add 0 l.

Lemma total_app l k : total (l ++ k) = total l + total k.
Proof. unfold total. induction l as [|x l IH]; simpl; [done|]. rewrite IH. lia. Qed.

(** The loop takes whole sizes as long as they fit. *)
Lemma greedy_loop_ok fuel n sizes acc : 0 <= n -> Forall (fun s => 0 < s) sizes ->
  n + len sizes < Z.of_nat fuel ->
  exists n' plan, greedy_loop fuel n sizes acc = Ok (n', acc ++ plan) /\ 0 <= n' /\ total plan + n' = n /\
    Forall (fun s => s ∈ sizes) plan /\ (n' = 0 \/ Forall (fun s => n' < s) sizes).
Proof.
  revert n sizes acc. induction fuel as [|fuel IH]; intros n sizes acc Hn Hs Hf; [pose proof (len_nonneg sizes); lia|].
  destruct sizes as [|size rest]; cbn [greedy_loop].
  { exists n, []. rewrite app_nil_r. split; [done|]. split; [done|]. split; [done|]. split; [constructor|by right]. }
  destruct (Z.leb_spec n 0).
  { exists n, []. rewrite app_nil_r. split; [done|]. split; [done|]. split; [done|]. split; [constructor|left; lia]. }
  rewrite len_cons in Hf. pose proof (Forall_inv Hs) as Hpos. simpl in Hpos.
  destruct (Z.leb_spec size n).
  - destruct (IH (n - size) (size :: rest) (acc ++ [size])) as (n' & plan & -> & Hn' & Ht & Hin & Hor);
      [lia|done|rewrite len_cons; lia|].
    exists n', (size :: plan). rewrite <- app_assoc. split; [done|]. split; [done|].
    split; [change (total (size :: plan)) with (size + total plan); lia|]. split; [by constructor; [left|]|done].
  - destruct (IH n rest acc) as (n' & plan & -> & Hn' & Ht & Hin & Hor); [done|by inversion Hs|lia|].
    exists n', plan. split; [done|]. split; [done|]. split; [done|]. split.
    + eapply Forall_impl; [exact Hin|]. intros s Hsin. by right.
    + destruct Hor as [|Hor]; [by left|]. right. constructor; [|done].
      assert (0 <= total plan); [|lia]. clear -Hin Hs. inversion Hs as [|? ? _ Hr]; subst. rewrite Forall_forall in Hr.
      induction Hin as [|s plan Hsin Hin IHp]; [done|]. change (total (s :: plan)) with (s + total plan).
      specialize (Hr s Hsin). lia.
Qed.

(** The last of the descending sizes is the least. *)
Lemma descending_perm l : descending l ≡ₚ l.
Proof. unfold descending. by rewrite reverse_Permutation, sorted_perm. Qed.

Lemma descending_last l z : last (descending l) = Some z -> z ∈ l /\ forall s, s ∈ l -> z <= s.
Proof.
  intros El. split; [rewrite <- descending_perm; by apply last_Some_elem_of|].
  intros s Hs. unfold descending in El. rewrite last_reverse in El. rewrite <- elem_of_sorted in Hs.
  pose proof (sorted_sorted l) as Hss. destruct (sorted l) as [|x k]; [done|].
  injection El as ->. inversion Hss as [|? ? _ Hall]; subst. rewrite Forall_forall in Hall.
  apply elem_of_cons in Hs as [->|Hsl]; [lia|]. apply py_le_Z. by apply Hall.
Qed.

(** The plan for a batch.  With positive sizes it uses only these, covers
    the batch, and exceeds it by less than every size, so that only the last
    part is padded; with the size 1 it is exact.  The loop ends. *)
Theorem greedy_plan_spec n sizes : 0 <= n -> sizes <> [] -> Forall (fun s => 0 < s) sizes ->
  exists plan, greedy_plan n sizes = Ok plan /\ Forall (fun s => s ∈ sizes) plan /\
    n <= total plan /\ (forall s, s ∈ sizes -> total plan < n + s) /\ (1 ∈ sizes -> total plan = n).
Proof.
  intros Hn Hne Hs. unfold greedy_plan. set (d := descending sizes). pose proof (descending_perm sizes) as Hd. fold d in Hd.
  destruct (greedy_loop_ok (S (Z.to_nat n + length d)) n d []) as (n' & plan & -> & Hn' & Ht & Hin & Hor);
    [done|by rewrite Hd|unfold len; lia|]. cbn [mbind result_mbind app]. rewrite Hd in Hor.
  assert (Hin' : Forall (fun s => s ∈ sizes) plan).
  { eapply Forall_impl; [exact Hin|]. intros s Hx. rewrite <- Hd. exact Hx. }
  assert (Hfin : forall plan', Forall (fun s => s ∈ sizes) plan' -> n <= total plan' -> (forall s, s ∈ sizes -> total plan' < n + s) ->
    exists plan, Ok plan' = Ok plan /\ Forall (fun s => s ∈ sizes) plan /\
      n <= total plan /\ (forall s, s ∈ sizes -> total plan < n + s) /\ (1 ∈ sizes -> total plan = n)).
  { intros plan' H0 H1 H2. exists plan'. split; [done|]. split; [done|]. split; [done|]. split; [done|].
    intros H3. specialize (H2 1 H3). lia. }
  rewrite Forall_forall in Hs. destruct (Z.ltb_spec 0 n').
  - destruct Hor as [->|Hor]; [lia|]. rewrite Forall_forall in Hor.
    destruct (last d) as [z|] eqn:El; [|apply last_None in El; rewrite El in Hd; by apply Permutation_nil_l in Hd].
    destruct (descending_last _ _ El) as [Hz Hmin].
    apply Hfin; [by apply Forall_app; split; [|by constructor]| |]; rewrite total_app; change (total [z]) with (z + 0).
    + specialize (Hor z Hz). simpl in Hor. lia.
    + intros s Hsin. specialize (Hmin s Hsin). lia.
  - apply Hfin; [done|lia|]. intros s Hsin. specialize (Hs s Hsin). simpl in Hs. lia.
Qed.

Lemma greedy_plan_spec_witness :
  exists plan, greedy_plan 11 [1; 2; 4; 8] = Ok plan /\ Forall (fun s => s ∈ [1; 2; 4; 8]) plan /\
    11 <= total plan /\ (forall s, s ∈ [1; 2; 4; 8] -> total plan < 11 + s) /\ (1 ∈ [1; 2; 4; 8] -> total plan = 11).
Proof. apply (greedy_plan_spec 11 [1; 2; 4; 8]); [lia|done|]. repeat constructor. Defined.

(** Without the size 1 the last slice ends behind the batch; the caller does not
    pad, so its indices are out of range. *)
Lemma greedy_plan_over_batch : exists plan, greedy_plan 5 [4; 8] = Ok plan /\ batch_slices 0 plan = [(0, 4); (4, 8)].
Proof. by eexists. Qed.
