(* ===== verification/BlockTable.v ===== *)
(** The block table of the worker's batch
    ([src/vllm/v1/worker/block_table.py]): one row of block ids per request and
    group of layers, in arrays of fixed width. *)

From Stdlib Require Import ZArith Lia.
From stdpp Require Import base numbers list.
From S2P Require Import Prelude.

Open Scope Z_scope.

(** ** numpy *)

(** [a[i]] and [a[i] = x] for an index that is not negative. *)
Definition py_get {A} (l : list A) (i : nat) : result A :=
  match l !! i with Some x => Ok x | None => Err IndexError end.
Definition py_set {A} (l : list A) (i : nat) (x : A) : result (list A) :=
  if (i <? length l)%nat then Ok (<[i := x]> l) else Err IndexError.

(** [row[start:start + len(vals)] = vals]: the slice is clipped at the end of
    the row, and a shorter slice does not take the values, except that a single
    value is broadcast to the empty slice and no value needs no room. *)
Definition write_slice {A} (start : nat) (vals row : list A) : result (list A) :=
  if (start + length vals <=? length row)%nat then Ok (take start row ++ vals ++ drop (start + length vals) row)
  else if (length vals <=? 1)%nat then Ok row
  else Err ValueError.

Lemma py_get_Some {A} (l : list A) i x : l !! i = Some x -> py_get l i = Ok x.
Proof. unfold py_get. by intros ->. Qed.

Lemma py_set_ok {A} (l : list A) i x : (i < length l)%nat -> py_set l i x = Ok (<[i := x]> l).
Proof. intros Hi. unfold py_set. by rewrite (proj2 (Nat.ltb_lt _ _)). Qed.

Lemma write_slice_ok {A} start (vals row : list A) : (start + length vals <= length row)%nat ->
  write_slice start vals row = Ok (take start row ++ vals ++ drop (start + length vals) row).
Proof. intros H. unfold write_slice. by rewrite (proj2 (Nat.leb_le _ _)). Qed.

Lemma write_slice_length {A} start (vals row row' : list A) :
  write_slice start vals row = Ok row' -> length row' = length row.
Proof.
  unfold write_slice. destruct (Nat.leb_spec (start + length vals) (length row)).
  - intros [= <-]. rewrite !length_app, length_take, length_drop. lia.
  - destruct (_ <=? _)%nat; [by intros [= <-]|done].
Qed.

(** ** One group *)

Record BlockTable := mkBlockTable {
  max_num_blocks_per_req : nat;
  block_table_np : list (list nat);
  num_blocks_per_row : list nat
}.

Definition init_block_table (max_num_reqs max_num_blocks_per_req : nat) : BlockTable :=
  mkBlockTable max_num_blocks_per_req (replicate max_num_reqs (replicate max_num_blocks_per_req 0%nat))
    (replicate max_num_reqs 0%nat).

(** The number is raised before the row is written. *)
Definition append_row (block_ids : list nat) (row_idx : nat) : M BlockTable unit :=
  match block_ids with
  | [] => mret tt
  | _ =>
      t ← get_state;
      let num_blocks := length block_ids in
      start ← lift_result (py_get (num_blocks_per_row t) row_idx);
      nums ← lift_result (py_set (num_blocks_per_row t) row_idx (start + num_blocks)%nat);
      modify (fun t => mkBlockTable (max_num_blocks_per_req t) (block_table_np t) nums);;
      row ← lift_result (py_get (block_table_np t) row_idx);
      row' ← lift_result (write_slice start block_ids row);
      rows ← lift_result (py_set (block_table_np t) row_idx row');
      modify (fun t => mkBlockTable (max_num_blocks_per_req t) rows (num_blocks_per_row t))
  end.

Definition add_row (block_ids : list nat) (row_idx : nat) : M BlockTable unit :=
  t ← get_state;
  nums ← lift_result (py_set (num_blocks_per_row t) row_idx 0%nat);
  modify (fun t => mkBlockTable (max_num_blocks_per_req t) (block_table_np t) nums);;
  append_row block_ids row_idx.

Definition move_row (src tgt : nat) : M BlockTable unit :=
  t ← get_state;
  num_blocks ← lift_result (py_get (num_blocks_per_row t) src);
  from ← lift_result (py_get (block_table_np t) src);
  to ← lift_result (py_get (block_table_np t) tgt);
  row ← lift_result (write_slice 0 (take num_blocks from) to);
  rows ← lift_result (py_set (block_table_np t) tgt row);
  nums ← lift_result (py_set (num_blocks_per_row t) tgt num_blocks);
  modify (fun t => mkBlockTable (max_num_blocks_per_req t) rows nums).

(** The rows are exchanged through an index array, which copies them. *)
Definition swap_row (src tgt : nat) : M BlockTable unit :=
  t ← get_state;
  num_src ← lift_result (py_get (num_blocks_per_row t) src);
  num_tgt ← lift_result (py_get (num_blocks_per_row t) tgt);
  nums ← lift_result (py_set (num_blocks_per_row t) src num_tgt);
  nums ← lift_result (py_set nums tgt num_src);
  row_src ← lift_result (py_get (block_table_np t) src);
  row_tgt ← lift_result (py_get (block_table_np t) tgt);
  rows ← lift_result (py_set (block_table_np t) src row_tgt);
  rows ← lift_result (py_set rows tgt row_src);
  modify (fun t => mkBlockTable (max_num_blocks_per_req t) rows nums).

(** ** All groups *)

(** One table per group; the operations run over them in order. *)
Definition MultiGroupBlockTable : Type := list BlockTable.

Definition init_multi (max_num_reqs : nat) (max_model_len : Z) (block_sizes : list Z) : MultiGroupBlockTable :=
  (fun block_size => init_block_table max_num_reqs (Z.to_nat (cdiv max_model_len block_size))) <$> block_sizes.

(** [for i, t in enumerate(tables): op(t, i)]. *)
Fixpoint each_table (op : nat -> M BlockTable unit) (i : nat) (ts : MultiGroupBlockTable) : outcome MultiGroupBlockTable unit :=
  match ts with
  | [] => Ret tt []
  | t :: ts' =>
      match op i t with
      | Raise e t' => Raise e (t' :: ts')
      | Ret _ t' =>
          match each_table op (S i) ts' with
          | Ret _ ts'' => Ret tt (t' :: ts'')
          | Raise e ts'' => Raise e (t' :: ts'')
          end
      end
  end.

Definition multi_append_row (block_ids : list (list nat)) (row_idx : nat) : M MultiGroupBlockTable unit :=
  each_table (fun i => ids ← lift_result (py_get block_ids i); append_row ids row_idx) 0.
Definition multi_add_row (block_ids : list (list nat)) (row_idx : nat) : M MultiGroupBlockTable unit :=
  each_table (fun i => ids ← lift_result (py_get block_ids i); add_row ids row_idx) 0.
Definition multi_move_row (src tgt : nat) : M MultiGroupBlockTable unit := each_table (fun _ => move_row src tgt) 0.
Definition multi_swap_row (src tgt : nat) : M MultiGroupBlockTable unit := each_table (fun _ => swap_row src tgt) 0.

(** ** What a table holds *)

(** The blocks of row [i]. *)
Definition row_blocks (t : BlockTable) (i : nat) : list nat :=
  take (default 0%nat (num_blocks_per_row t !! i)) (default [] (block_table_np t !! i)).

(** A table for [n] requests: all rows there, of the given width, and no row
    over its width. *)
Record table_ok (n : nat) (t : BlockTable) : Prop := {
  to_rows : length (block_table_np t) = n;
  to_nums : length (num_blocks_per_row t) = n;
  to_width : forall i row, block_table_np t !! i = Some row -> length row = max_num_blocks_per_req t;
  to_fits : forall i k, num_blocks_per_row t !! i = Some k -> (k <= max_num_blocks_per_req t)%nat
}.

(** What an operation has to do to the rows. *)
Definition rows_become (n : nat) (t t' : BlockTable) (f : nat -> list nat) : Prop :=
  table_ok n t' /\ max_num_blocks_per_req t' = max_num_blocks_per_req t /\ forall i, row_blocks t' i = f i.

Lemma init_block_table_ok n w : table_ok n (init_block_table n w).
Proof.
  split; simpl; [apply length_replicate..| |].
  - intros i row [-> _]%lookup_replicate. apply length_replicate.
  - intros i k [-> _]%lookup_replicate. lia.
Qed.

Section table.
Context (n : nat) (t : BlockTable) (t_ok : table_ok n t).

Lemma table_row i : (i < n)%nat -> exists row k, block_table_np t !! i = Some row /\ num_blocks_per_row t !! i = Some k /\
  length row = max_num_blocks_per_req t /\ (k <= max_num_blocks_per_req t)%nat /\ row_blocks t i = take k row.
Proof.
  intros Hi. destruct (lookup_lt_is_Some_2 (block_table_np t) i) as [row Hr]; [by rewrite (to_rows _ _ t_ok)|].
  destruct (lookup_lt_is_Some_2 (num_blocks_per_row t) i) as [k Hk]; [by rewrite (to_nums _ _ t_ok)|].
  exists row, k. split_and!; [done..|by eapply to_width|by eapply to_fits|]. unfold row_blocks. by rewrite Hr, Hk.
Qed.

(** Writing row [i] and its number. *)
Lemma rows_become_insert i row k :
  (i < n)%nat -> length row = max_num_blocks_per_req t -> (k <= max_num_blocks_per_req t)%nat ->
  rows_become n t (mkBlockTable (max_num_blocks_per_req t) (<[i := row]> (block_table_np t)) (<[i := k]> (num_blocks_per_row t)))
    (fun j => if decide (j = i) then take k row else row_blocks t j).
Proof.
  intros Hi Hrow Hk. pose proof (to_rows _ _ t_ok) as Hr. pose proof (to_nums _ _ t_ok) as Hn. split; [|split; [done|]].
  - split; simpl; [by rewrite length_insert..| |].
    + intros j row' [(-> & <- & _)|[_ Hj]]%list_lookup_insert_Some; [done|by eapply to_width].
    + intros j k' [(-> & <- & _)|[_ Hj]]%list_lookup_insert_Some; [done|by eapply to_fits].
  - intros j. unfold row_blocks. simpl. case_decide as Ej; [subst j|].
    + by rewrite !list_lookup_insert_eq by lia.
    + by rewrite !list_lookup_insert_ne by done.
Qed.

Lemma wp_append_row block_ids i P : (i < n)%nat ->
  (length (row_blocks t i) + length block_ids <= max_num_blocks_per_req t)%nat ->
  (forall t', rows_become n t t' (fun j => if decide (j = i) then row_blocks t i ++ block_ids else row_blocks t j) -> P tt t') ->
  wp (append_row block_ids i) P t.
Proof.
  intros Hi Hlen HP. destruct (table_row i Hi) as (row & k & Er & Ek & Hw & Hk & Eb).
  destruct block_ids as [|b bs]; [wp_steps; apply HP; split; [done|split; [done|]]; intros j; case_decide as Ej;
    [subst; by rewrite app_nil_r|done]|].
  cbn [append_row]. set (ids := b :: bs) in *. unfold wp, mbind, M_mbind, M_bind, get_state, lift_result, modify.
  rewrite Eb, length_take in Hlen.
  rewrite (py_get_Some _ _ _ Ek), py_set_ok, (py_get_Some _ _ _ Er), write_slice_ok, py_set_ok
    by (rewrite ?(to_rows _ _ t_ok), ?(to_nums _ _ t_ok); lia).
  apply HP. simpl.
  destruct (rows_become_insert i (take k row ++ ids ++ drop (k + length ids) row) (k + length ids)) as (H1 & H2 & H3);
    [done|rewrite !length_app, length_take, length_drop; lia|lia|].
  split; [done|]. split; [done|]. intros j. rewrite H3, Eb. case_decide; [|done].
  rewrite app_assoc, take_app_length'; [done|]. rewrite length_app, length_take. lia.
Qed.

Lemma wp_move_row src tgt P : (src < n)%nat -> (tgt < n)%nat ->
  (forall t', rows_become n t t' (fun j => if decide (j = tgt) then row_blocks t src else row_blocks t j) -> P tt t') ->
  wp (move_row src tgt) P t.
Proof.
  intros Hs Ht HP. destruct (table_row src Hs) as (row & k & Er & Ek & Hw & Hk & Eb).
  destruct (table_row tgt Ht) as (row2 & k2 & Er2 & Ek2 & Hw2 & Hk2 & Eb2).
  unfold wp, move_row, mbind, M_mbind, M_bind, get_state, lift_result, modify.
  rewrite (py_get_Some _ _ _ Ek), (py_get_Some _ _ _ Er), (py_get_Some _ _ _ Er2), write_slice_ok, !py_set_ok
    by (rewrite ?(to_rows _ _ t_ok), ?(to_nums _ _ t_ok), ?length_take; lia).
  apply HP. simpl.
  destruct (rows_become_insert tgt (take k row ++ drop (length (take k row)) row2) k) as (H1 & H2 & H3);
    [done|rewrite length_app, length_drop, length_take; lia|lia|].
  split; [done|]. split; [done|]. intros j. rewrite H3, Eb. case_decide; [|done].
  rewrite take_app_length'; [done|]. rewrite length_take. lia.
Qed.

End table.

Lemma wp_add_row n t block_ids i P : table_ok n t -> (i < n)%nat -> (length block_ids <= max_num_blocks_per_req t)%nat ->
  (forall t', rows_become n t t' (fun j => if decide (j = i) then block_ids else row_blocks t j) -> P tt t') ->
  wp (add_row block_ids i) P t.
Proof.
  intros Ht Hi Hlen HP. destruct (table_row n t Ht i Hi) as (row & k & Er & Ek & Hw & Hk & Eb).
  unfold add_row. wp_steps. eapply wp_lift; [apply py_set_ok; rewrite (to_nums _ _ Ht); lia|]. wp_steps.
  destruct (rows_become_insert n t Ht i row 0 Hi Hw ltac:(lia)) as (H1 & H2 & H3).
  rewrite list_insert_id in H1, H2, H3 by done.
  apply (wp_append_row n _ H1 block_ids i); [done|rewrite H3, decide_True by done; simpl; lia|].
  intros t' (G1 & G2 & G3). apply HP. split; [done|]. split; [done|]. intros j. rewrite G3, !H3.
  case_decide; [by rewrite decide_True|done].
Qed.

Lemma wp_swap_row n t src tgt P : table_ok n t -> (src < n)%nat -> (tgt < n)%nat ->
  (forall t', rows_become n t t' (fun j => if decide (j = tgt) then row_blocks t src
     else if decide (j = src) then row_blocks t tgt else row_blocks t j) -> P tt t') ->
  wp (swap_row src tgt) P t.
Proof.
  intros Ht Hs Hg HP. destruct (table_row n t Ht src Hs) as (row & k & Er & Ek & Hw & Hk & Eb).
  destruct (table_row n t Ht tgt Hg) as (row2 & k2 & Er2 & Ek2 & Hw2 & Hk2 & Eb2).
  unfold wp, swap_row, mbind, M_mbind, M_bind, get_state, lift_result, modify.
  rewrite (py_get_Some _ _ _ Ek), (py_get_Some _ _ _ Ek2), (py_get_Some _ _ _ Er), (py_get_Some _ _ _ Er2), !py_set_ok
    by (rewrite ?length_insert, ?(to_rows _ _ Ht), ?(to_nums _ _ Ht); lia).
  apply HP. simpl. destruct (rows_become_insert n t Ht src row2 k2 Hs Hw2 Hk2) as (H1 & H2 & H3).
  destruct (rows_become_insert n _ H1 tgt row k Hg) as (G1 & G2 & G3); [done..|]. simpl in *.
  split; [done|]. split; [done|]. intros j. rewrite G3, H3, Eb, Eb2. done.
Qed.

(** *** All groups *)

(** Every table is well formed; the rows of request [i], one per group. *)
Definition multi_ok (n : nat) (ts : MultiGroupBlockTable) : Prop := Forall (table_ok n) ts.
Definition multi_blocks (ts : MultiGroupBlockTable) (i : nat) : list (list nat) := (fun t => row_blocks t i) <$> ts.
Definition multi_width (ts : MultiGroupBlockTable) : list nat := max_num_blocks_per_req <$> ts.
#[global] Arguments multi_blocks : simpl never.
#[global] Arguments multi_width : simpl never.

Lemma multi_width_lookup (ts : MultiGroupBlockTable) g t :
  (ts : list BlockTable) !! g = Some t -> multi_width ts !! g = Some (max_num_blocks_per_req t).
Proof. unfold MultiGroupBlockTable in *. intros Ht. unfold multi_width. by rewrite list_lookup_fmap, Ht. Qed.

Lemma multi_blocks_lookup (ts : MultiGroupBlockTable) i g t :
  (ts : list BlockTable) !! g = Some t -> multi_blocks ts i !! g = Some (row_blocks t i).
Proof. unfold MultiGroupBlockTable in *. intros Ht. unfold multi_blocks. by rewrite list_lookup_fmap, Ht. Qed.

Lemma wp_each_table n (op : nat -> M BlockTable unit) (f : nat -> BlockTable -> nat -> list nat) ts P :
  multi_ok n ts ->
  (forall i t, ts !! i = Some t -> table_ok n t -> forall Q, (forall t', rows_become n t t' (f i t) -> Q tt t') -> wp (op i) Q t) ->
  (forall ts', multi_ok n ts' -> multi_width ts' = multi_width ts ->
     (forall j, multi_blocks ts' j = imap (fun i t => f i t j) ts) -> P tt ts') ->
  wp (each_table op 0) P ts.
Proof.
  intros Hok Hop HP.
  assert (Hgen : forall k ts, multi_ok n ts ->
    (forall i t, ts !! i = Some t -> table_ok n t -> forall Q, (forall t', rows_become n t t' (f (k + i)%nat t) -> Q tt t') -> wp (op (k + i)%nat) Q t) ->
    exists ts', each_table op k ts = Ret tt ts' /\ multi_ok n ts' /\ multi_width ts' = multi_width ts /\
      forall j, multi_blocks ts' j = imap (fun i t => f (k + i)%nat t j) ts).
  { clear. intros k ts Hok. revert k. induction Hok as [|t ts Ht Hok IH]; intros k Hop; [exists []; split_and!; by try constructor|]. cbn [each_table].
    pose proof (Hop 0%nat t eq_refl Ht) as H0. rewrite Nat.add_0_r in H0.
    destruct (wp_elim _ _ _ (H0 (fun _ t' => rows_become n t t' (f k t)) ltac:(done))) as ([] & t' & -> & G1 & G2 & G3).
    destruct (IH (S k)) as (ts' & -> & I1 & I2 & I3).
    { intros i u Hu. specialize (Hop (S i) u Hu). by rewrite Nat.add_succ_r in Hop. }
    exists (t' :: ts'). split; [done|]. split; [by constructor|]. split.
    - unfold multi_width in *. rewrite !fmap_cons. by rewrite G2, I2.
    - intros j. unfold multi_blocks in *. rewrite fmap_cons, imap_cons, G3, I3, Nat.add_0_r. f_equal.
      apply imap_ext. intros i u _. simpl. by rewrite Nat.add_succ_r. }
  destruct (Hgen 0%nat ts Hok) as (ts' & E & H1 & H2 & H3); [apply Hop|].
  apply (wp_intro _ _ _ tt ts'); [done|]. by apply HP.
Qed.

(** The row of every group is replaced. *)
Lemma wp_multi_add_row n block_ids row ts P : multi_ok n ts -> (row < n)%nat ->
  (forall g w, multi_width ts !! g = Some w -> exists ids, block_ids !! g = Some ids /\ (length ids <= w)%nat) ->
  (forall ts', multi_ok n ts' -> multi_width ts' = multi_width ts ->
     (forall j, multi_blocks ts' j = if decide (j = row) then take (length ts) block_ids else multi_blocks ts j) -> P tt ts') ->
  wp (multi_add_row block_ids row) P ts.
Proof.
  unfold MultiGroupBlockTable in *. intros Hok Hrow Hids HP. unfold multi_add_row.
  assert (Hg : forall g t, ts !! g = Some t -> exists ids, block_ids !! g = Some ids /\ (length ids <= max_num_blocks_per_req t)%nat).
  { intros g t Ht. apply Hids. unfold multi_width. by rewrite list_lookup_fmap, Ht. }
  apply (wp_each_table n _ (fun g t j => if decide (j = row) then default [] (block_ids !! g) else row_blocks t j)); [done|..].
  - intros g t Ht Htok Q HQ. destruct (Hg g t Ht) as (ids & Eids & Hlen). wp_steps.
    eapply wp_lift; [by apply py_get_Some|]. eapply wp_add_row; [done..|]. by rewrite Eids in HQ.
  - intros ts' H1 H2 H3. apply HP; [done..|]. intros j. rewrite H3. case_decide as Ej.
    + apply list_eq. intros g. rewrite list_lookup_imap. destruct (ts !! g) as [t|] eqn:Et; simpl.
      * pose proof (lookup_lt_Some _ _ _ Et). rewrite lookup_take_lt by done. by destruct (Hg g t Et) as (ids & -> & _).
      * apply lookup_ge_None in Et. by rewrite lookup_take_ge.
    + apply list_eq. intros g. unfold multi_blocks. rewrite list_lookup_imap, list_lookup_fmap. done.
Qed.

Lemma wp_multi_move_row n src tgt ts P : multi_ok n ts -> (src < n)%nat -> (tgt < n)%nat ->
  (forall ts', multi_ok n ts' -> multi_width ts' = multi_width ts ->
     (forall j, multi_blocks ts' j = if decide (j = tgt) then multi_blocks ts src else multi_blocks ts j) -> P tt ts') ->
  wp (multi_move_row src tgt) P ts.
Proof.
  unfold MultiGroupBlockTable in *. intros Hok Hs Ht HP. unfold multi_move_row.
  apply (wp_each_table n _ (fun _ t j => if decide (j = tgt) then row_blocks t src else row_blocks t j)); [done|..].
  - intros g t _ Htok Q HQ. by eapply wp_move_row.
  - intros ts' H1 H2 H3. apply HP; [done..|]. intros j. rewrite H3. unfold multi_blocks.
    apply list_eq. intros g. rewrite list_lookup_imap. case_decide; by rewrite list_lookup_fmap; destruct (ts !! g).
Qed.

Lemma wp_multi_swap_row n src tgt ts P : multi_ok n ts -> (src < n)%nat -> (tgt < n)%nat ->
  (forall ts', multi_ok n ts' -> multi_width ts' = multi_width ts ->
     (forall j, multi_blocks ts' j = if decide (j = tgt) then multi_blocks ts src
        else if decide (j = src) then multi_blocks ts tgt else multi_blocks ts j) -> P tt ts') ->
  wp (multi_swap_row src tgt) P ts.
Proof.
  unfold MultiGroupBlockTable in *. intros Hok Hs Ht HP. unfold multi_swap_row.
  apply (wp_each_table n _ (fun _ t j => if decide (j = tgt) then row_blocks t src
    else if decide (j = src) then row_blocks t tgt else row_blocks t j)); [done|..].
  - intros g t _ Htok Q HQ. by eapply wp_swap_row.
  - intros ts' H1 H2 H3. apply HP; [done..|]. intros j. rewrite H3. unfold multi_blocks.
    apply list_eq. intros g. rewrite list_lookup_imap. repeat case_decide; by rewrite list_lookup_fmap; destruct (ts !! g).
Qed.

(** The blocks of every group go after those of the row. *)
Lemma wp_multi_append_row n block_ids row ts P : multi_ok n ts -> (row < n)%nat ->
  (forall g t, ts !! g = Some t -> exists ids, block_ids !! g = Some ids /\
     (length (row_blocks t row) + length ids <= max_num_blocks_per_req t)%nat) ->
  (forall ts', multi_ok n ts' -> multi_width ts' = multi_width ts ->
     (forall j, multi_blocks ts' j = if decide (j = row) then zip_with app (multi_blocks ts row) block_ids else multi_blocks ts j) -> P tt ts') ->
  wp (multi_append_row block_ids row) P ts.
Proof.
  unfold MultiGroupBlockTable in *. intros Hok Hrow Hg HP. unfold multi_append_row.
  apply (wp_each_table n _ (fun g t j => if decide (j = row) then row_blocks t row ++ default [] (block_ids !! g) else row_blocks t j)); [done|..].
  - intros g t Ht Htok Q HQ. destruct (Hg g t Ht) as (ids & Eids & Hlen). wp_steps.
    eapply wp_lift; [by apply py_get_Some|]. eapply wp_append_row; [done..|]. by rewrite Eids in HQ.
  - intros ts' H1 H2 H3. apply HP; [done..|]. intros j. rewrite H3. apply list_eq. intros g. rewrite list_lookup_imap.
    unfold multi_blocks. case_decide.
    + rewrite lookup_zip_with, list_lookup_fmap. destruct (ts !! g) as [t|] eqn:Et; simpl; [|done].
      by destruct (Hg g t Et) as (ids & -> & _).
    + by rewrite list_lookup_fmap.
Qed.
