(* ===== verification/InputBatch.v ===== *)
(** The persistent batch of the worker ([src/vllm/v1/worker/gpu_input_batch.py]):
    parallel arrays indexed by the position of a request, dicts by position,
    dicts and sets by request id.  Requests come and go; removal leaves holes,
    which are filled by new requests or closed by [condense]. *)

From Stdlib Require Import ZArith QArith Lia.
From stdpp Require Import base strings numbers gmap list sorting.
From S2P Require Import Prelude.
From S2P Require Import Sampling.
From S2P Require Import Request.
From S2P Require Import BlockTable.

Open Scope list_scope.
Open Scope Z_scope.

(** ** Data *)

(** A generator is named by its seed.  Multi-modal inputs are left out. *)
Record CachedRequestState := mkCachedRequestState {
  c_req_id : string;
  c_prompt_token_ids : list Z;
  c_sampling_params : SamplingParams;
  c_generator : option Z;
  c_block_ids : list (list nat);
  c_num_computed_tokens : Z;
  c_output_token_ids : list Z;
  c_lora_request : option LoRARequest
}.

Definition c_num_tokens (c : CachedRequestState) : Z := len (c_prompt_token_ids c) + len (c_output_token_ids c).

(** The arrays with one element (or row) per position, taken together: one
    record per position. *)
Record Slot := mkSlot {
  token_ids_cpu : list Z;
  num_tokens : Z;
  num_tokens_no_spec : Z;
  num_prompt_tokens : Z;
  num_computed_tokens_cpu : Z;
  temperature_cpu : Q;
  top_p_cpu : Q;
  top_k_cpu : Z;
  min_p_cpu : Q;
  frequency_penalties_cpu : Q;
  presence_penalties_cpu : Q;
  repetition_penalties_cpu : Q;
  request_lora_mapping : Z
}.

(** The sets and dicts keyed by request id. *)
Record ReqSets := mkReqSets {
  greedy_reqs : gset string;
  random_reqs : gset string;
  top_p_reqs : gset string;
  top_k_reqs : gset string;
  min_p_reqs : gset string;
  frequency_penalties_reqs : gset string;
  presence_penalties_reqs : gset string;
  repetition_penalties_reqs : gset string;
  has_allowed_token_ids : gset string;
  num_logprobs : gmap string Z;
  num_prompt_logprobs : gmap string Z
}.

(** The dicts keyed by position. *)
Record IndexDicts := mkIndexDicts {
  min_tokens_at : gmap nat (Z * gset Z);
  generators : gmap nat Z;
  bad_words_at : gmap nat (list (list Z))
}.

(** [req_output_token_ids] holds the output lists of the requests themselves,
    named by the request. *)
Record InputBatch := mkInputBatch {
  max_num_reqs : nat;
  max_model_len : nat;
  vocab_size : nat;
  _req_ids : list (option string);
  req_output_token_ids : list (option string);
  req_id_to_index : gmap string nat;
  slots : list Slot;
  block_table : MultiGroupBlockTable;
  reqs : ReqSets;
  dicts : IndexDicts;
  lora_id_to_request_ids : gmap Z (gset string);
  lora_id_to_lora_request : gmap Z LoRARequest;
  logit_biases : list (option (list (Z * Q)));
  allowed_token_ids_mask : option (list (list bool))
}.

Definition set_ids (ids outs : list (option string)) (m : gmap string nat) (b : InputBatch) : InputBatch :=
  mkInputBatch (max_num_reqs b) (max_model_len b) (vocab_size b) ids outs m (slots b) (block_table b) (reqs b) (dicts b)
    (lora_id_to_request_ids b) (lora_id_to_lora_request b) (logit_biases b) (allowed_token_ids_mask b).
Definition set_slots (s : list Slot) (b : InputBatch) : InputBatch :=
  mkInputBatch (max_num_reqs b) (max_model_len b) (vocab_size b) (_req_ids b) (req_output_token_ids b) (req_id_to_index b) s
    (block_table b) (reqs b) (dicts b) (lora_id_to_request_ids b) (lora_id_to_lora_request b) (logit_biases b)
    (allowed_token_ids_mask b).
Definition set_table (t : MultiGroupBlockTable) (b : InputBatch) : InputBatch :=
  mkInputBatch (max_num_reqs b) (max_model_len b) (vocab_size b) (_req_ids b) (req_output_token_ids b) (req_id_to_index b)
    (slots b) t (reqs b) (dicts b) (lora_id_to_request_ids b) (lora_id_to_lora_request b) (logit_biases b)
    (allowed_token_ids_mask b).
Definition set_reqs (r : ReqSets) (d : IndexDicts) (b : InputBatch) : InputBatch :=
  mkInputBatch (max_num_reqs b) (max_model_len b) (vocab_size b) (_req_ids b) (req_output_token_ids b) (req_id_to_index b)
    (slots b) (block_table b) r d (lora_id_to_request_ids b) (lora_id_to_lora_request b) (logit_biases b)
    (allowed_token_ids_mask b).
Definition set_loras (ids : gmap Z (gset string)) (rs : gmap Z LoRARequest) (b : InputBatch) : InputBatch :=
  mkInputBatch (max_num_reqs b) (max_model_len b) (vocab_size b) (_req_ids b) (req_output_token_ids b) (req_id_to_index b)
    (slots b) (block_table b) (reqs b) (dicts b) ids rs (logit_biases b) (allowed_token_ids_mask b).
Definition set_biases (l : list (option (list (Z * Q)))) (b : InputBatch) : InputBatch :=
  mkInputBatch (max_num_reqs b) (max_model_len b) (vocab_size b) (_req_ids b) (req_output_token_ids b) (req_id_to_index b)
    (slots b) (block_table b) (reqs b) (dicts b) (lora_id_to_request_ids b) (lora_id_to_lora_request b) l
    (allowed_token_ids_mask b).
Definition set_mask (m : option (list (list bool))) (b : InputBatch) : InputBatch :=
  mkInputBatch (max_num_reqs b) (max_model_len b) (vocab_size b) (_req_ids b) (req_output_token_ids b) (req_id_to_index b)
    (slots b) (block_table b) (reqs b) (dicts b) (lora_id_to_request_ids b) (lora_id_to_lora_request b) (logit_biases b) m.

(** [__init__].  The sampling arrays are uninitialised memory; zeros here. *)
Definition empty_slot (max_model_len : nat) : Slot := mkSlot (replicate max_model_len 0) 0 0 0 0 0 0 0 0 0 0 0 0.
Definition init_batch (max_num_reqs max_model_len vocab_size : nat) (block_sizes : list Z) : InputBatch :=
  mkInputBatch max_num_reqs max_model_len vocab_size [] [] ∅ (replicate max_num_reqs (empty_slot max_model_len))
    (init_multi max_num_reqs (Z.of_nat max_model_len) block_sizes)
    (mkReqSets ∅ ∅ ∅ ∅ ∅ ∅ ∅ ∅ ∅ ∅ ∅) (mkIndexDicts ∅ ∅ ∅) ∅ ∅ (replicate max_num_reqs None) None.

Abbreviation MI := (M InputBatch).

Definition num_reqs (b : InputBatch) : nat := size (req_id_to_index b).

(** ** Adding a request *)

(** Assignments to the arrays at one position. *)
Definition upd_slot (i : nat) (f : Slot -> result Slot) : MI unit :=
  b ← get_state;
  s ← lift_result (py_get (slots b) i);
  s' ← lift_result (f s);
  modify (set_slots (<[i := s']> (slots b))).

Definition slot_tokens (row : list Z) (s : Slot) : Slot :=
  mkSlot row (num_tokens s) (num_tokens_no_spec s) (num_prompt_tokens s) (num_computed_tokens_cpu s) (temperature_cpu s)
    (top_p_cpu s) (top_k_cpu s) (min_p_cpu s) (frequency_penalties_cpu s) (presence_penalties_cpu s)
    (repetition_penalties_cpu s) (request_lora_mapping s).
Definition slot_nums (n no_spec prompt computed : Z) (s : Slot) : Slot :=
  mkSlot (token_ids_cpu s) n no_spec prompt computed (temperature_cpu s) (top_p_cpu s) (top_k_cpu s) (min_p_cpu s)
    (frequency_penalties_cpu s) (presence_penalties_cpu s) (repetition_penalties_cpu s) (request_lora_mapping s).
Definition slot_lora (lora : Z) (s : Slot) : Slot :=
  mkSlot (token_ids_cpu s) (num_tokens s) (num_tokens_no_spec s) (num_prompt_tokens s) (num_computed_tokens_cpu s)
    (temperature_cpu s) (top_p_cpu s) (top_k_cpu s) (min_p_cpu s) (frequency_penalties_cpu s) (presence_penalties_cpu s)
    (repetition_penalties_cpu s) lora.

(** The sampling arrays; a greedy request gets temperature -1, and a top-k that
    does not restrict becomes the size of the vocabulary. *)
Definition restricts_top_k (vocab_size : nat) (p : Sampling) : bool :=
  (0 <? top_k p) && (top_k p <? Z.of_nat vocab_size).
Definition slot_sampling (vocab_size : nat) (p : Sampling) (s : Slot) : Slot :=
  mkSlot (token_ids_cpu s) (num_tokens s) (num_tokens_no_spec s) (num_prompt_tokens s) (num_computed_tokens_cpu s)
    (if decide (sampling_type p = GREEDY) then (-1)%Q else temperature p) (top_p p)
    (if restricts_top_k vocab_size p then top_k p else Z.of_nat vocab_size) (min_p p)
    (frequency_penalty p) (presence_penalty p) (repetition_penalty p) (request_lora_mapping s).

(** [s.add(id)] under a condition. *)
Definition add_if (c : bool) (id : string) (s : gset string) : gset string := if c then {[id]} ∪ s else s.
Definition set_opt {K A} `{Countable K} (k : K) (v : option A) (m : gmap K A) : gmap K A :=
  match v with Some x => <[k := x]> m | None => m end.
(** A list that is set and not empty. *)
Definition truthy {A} (l : option (list A)) : option (list A) :=
  match l with Some (_ :: _) => l | _ => None end.

Definition classify (vocab_size : nat) (id : string) (p : Sampling) (prompt_logprobs : option Z) (r : ReqSets) : ReqSets :=
  let greedy := bool_decide (sampling_type p = GREEDY) in
  mkReqSets (add_if greedy id (greedy_reqs r)) (add_if (negb greedy) id (random_reqs r))
    (add_if (Q_lt (top_p p) 1) id (top_p_reqs r)) (add_if (restricts_top_k vocab_size p) id (top_k_reqs r))
    (add_if (Q_lt _SAMPLING_EPS (min_p p)) id (min_p_reqs r))
    (add_if (negb (Qeq_bool (frequency_penalty p) 0)) id (frequency_penalties_reqs r))
    (add_if (negb (Qeq_bool (presence_penalty p) 0)) id (presence_penalties_reqs r))
    (add_if (negb (Qeq_bool (repetition_penalty p) 1)) id (repetition_penalties_reqs r))
    (add_if (bool_decide (is_Some (truthy (allowed_token_ids p)))) id (has_allowed_token_ids r))
    (set_opt id (logprobs p) (num_logprobs r)) (set_opt id prompt_logprobs (num_prompt_logprobs r)).

Definition add_dicts (i : nat) (p : Sampling) (generator : option Z) (d : IndexDicts) : IndexDicts :=
  mkIndexDicts (if min_tokens p =? 0 then min_tokens_at d else <[i := (min_tokens p, all_stop_token_ids p)]> (min_tokens_at d))
    (set_opt i generator (generators d)) (set_opt i (truthy (bad_words_token_ids p)) (bad_words_at d)).

(** [mask[i][ids] = False]: negative indices count from the end. *)
Definition clear_token (row : list bool) (t : Z) : result (list bool) :=
  let n := len row in
  let j := if t <? 0 then t + n else t in
  if (0 <=? j) && (j <? n) then Ok (<[Z.to_nat j := false]> row) else Err IndexError.
Fixpoint clear_tokens (ids : list Z) (row : list bool) : result (list bool) :=
  match ids with
  | [] => Ok row
  | t :: ids' => row' ← clear_token row t; clear_tokens ids' row'
  end.

Definition add_mask (i : nat) (p : Sampling) : MI unit :=
  match truthy (allowed_token_ids p) with
  | None => mret tt
  | Some ids =>
      b ← get_state;
      let mask := default (replicate (max_num_reqs b) (replicate (vocab_size b) false)) (allowed_token_ids_mask b) in
      mask ← lift_result (py_set mask i (replicate (vocab_size b) true));
      modify (set_mask (Some mask));;
      row ← lift_result (clear_tokens ids (replicate (vocab_size b) true));
      modify (set_mask (Some (<[i := row]> mask)))
  end.

(** Position [i] of the two lists of requests: appended or assigned. *)
Definition put_id {A} (l : list A) (i : nat) (x : A) : result (list A) :=
  if (i =? length l)%nat then Ok (l ++ [x]) else py_set l i x.

Definition add_lora (i : nat) (request : CachedRequestState) : MI unit :=
  match c_lora_request request with
  | Some lora =>
      let lora_id := lora_int_id lora in
      upd_slot i (fun s => Ok (slot_lora lora_id s));;
      modify (fun b => set_loras
        (<[lora_id := {[c_req_id request]} ∪ default ∅ (lora_id_to_request_ids b !! lora_id)]> (lora_id_to_request_ids b))
        (<[lora_id := lora]> (lora_id_to_lora_request b)) b)
  | None => upd_slot i (fun s => Ok (slot_lora 0 s))
  end.

Definition add_request (request : CachedRequestState) (req_index : option nat) : MI unit :=
  b ← get_state;
  let i := default (num_reqs b) req_index in
  py_assert (i <? max_num_reqs b)%nat;;
  let req_id := c_req_id request in
  ids ← lift_result (put_id (_req_ids b) i (Some req_id));
  outs ← lift_result (put_id (req_output_token_ids b) i (Some req_id));
  modify (set_ids ids outs (<[req_id := i]> (req_id_to_index b)));;
  let prompt := c_prompt_token_ids request in
  upd_slot i (fun s => Ok (slot_nums (num_tokens s) (num_tokens_no_spec s) (len prompt) (num_computed_tokens_cpu s) s));;
  upd_slot i (fun s => row ← write_slice 0 prompt (token_ids_cpu s); Ok (slot_tokens row s));;
  upd_slot i (fun s => row ← write_slice (length prompt) (c_output_token_ids request) (token_ids_cpu s); Ok (slot_tokens row s));;
  upd_slot i (fun s => Ok (slot_nums (c_num_tokens request) (c_num_tokens request) (num_prompt_tokens s) (c_num_computed_tokens request) s));;
  zoom block_table set_table (multi_add_row (c_block_ids request) i);;
  let p := sp_sampling (c_sampling_params request) in
  upd_slot i (fun s => Ok (slot_sampling (vocab_size b) p s));;
  modify (fun b => set_reqs (classify (vocab_size b) req_id p (prompt_logprobs (c_sampling_params request)) (reqs b))
    (add_dicts i p (c_generator request) (dicts b)) b);;
  match logit_bias p with
  | Some bias => b ← get_state; l ← lift_result (py_set (logit_biases b) i (Some bias)); modify (set_biases l)
  | None => mret tt
  end;;
  add_mask i p;;
  add_lora i request.

(** ** Removing a request *)

Definition discard (id : string) (r : ReqSets) : ReqSets :=
  mkReqSets (greedy_reqs r ∖ {[id]}) (random_reqs r ∖ {[id]}) (top_p_reqs r ∖ {[id]}) (top_k_reqs r ∖ {[id]})
    (min_p_reqs r ∖ {[id]}) (frequency_penalties_reqs r ∖ {[id]}) (presence_penalties_reqs r ∖ {[id]})
    (repetition_penalties_reqs r ∖ {[id]}) (has_allowed_token_ids r ∖ {[id]})
    (delete id (num_logprobs r)) (delete id (num_prompt_logprobs r)).
Definition pop_dicts (i : nat) (d : IndexDicts) : IndexDicts :=
  mkIndexDicts (delete i (min_tokens_at d)) (delete i (generators d)) (delete i (bad_words_at d)).

Definition remove_lora (i : nat) (req_id : string) : MI unit :=
  b ← get_state;
  s ← lift_result (py_get (slots b) i);
  let lora_id := request_lora_mapping s in
  if lora_id =? 0 then mret tt else
  match lora_id_to_request_ids b !! lora_id with
  | None => raise KeyError
  | Some ids =>
      let ids := ids ∖ {[req_id]} in
      (if decide (ids = ∅) then
         modify (set_loras (delete lora_id (lora_id_to_request_ids b)) (lora_id_to_lora_request b));;
         (if decide (is_Some (lora_id_to_lora_request b !! lora_id)) then
            modify (fun b => set_loras (lora_id_to_request_ids b) (delete lora_id (lora_id_to_lora_request b)) b)
          else raise KeyError)
       else modify (set_loras (<[lora_id := ids]> (lora_id_to_request_ids b)) (lora_id_to_lora_request b)));;
      upd_slot i (fun s => Ok (slot_lora 0 s))
  end.

Definition remove_request (req_id : string) : MI (option nat) :=
  b ← get_state;
  match req_id_to_index b !! req_id with
  | None => mret None
  | Some i =>
      modify (set_ids (_req_ids b) (req_output_token_ids b) (delete req_id (req_id_to_index b)));;
      ids ← lift_result (py_set (_req_ids b) i None);
      outs ← lift_result (py_set (req_output_token_ids b) i None);
      modify (fun b => set_ids ids outs (req_id_to_index b) b);;
      modify (fun b => set_reqs (discard req_id (reqs b)) (pop_dicts i (dicts b)) b);;
      remove_lora i req_id;;
      b ← get_state;
      l ← lift_result (py_set (logit_biases b) i None);
      modify (set_biases l);;
      match allowed_token_ids_mask b with
      | Some mask =>
          row ← lift_result (py_get mask i);
          modify (set_mask (Some (<[i := replicate (length row) false]> mask)))
      | None => mret tt
      end;;
      mret (Some i)
  end.

(** ** Moving requests *)

(** [swap_dict_values] of [vllm/utils.py]. *)
Definition swap_dict_values {A} (k1 k2 : nat) (m : gmap nat A) : gmap nat A :=
  let v1 := m !! k1 in
  let v2 := m !! k2 in
  let m := match v1 with Some x => <[k2 := x]> m | None => delete k2 m end in
  match v2 with Some x => <[k1 := x]> m | None => delete k1 m end.

Definition swap_list {A} (i1 i2 : nat) (l : list A) : result (list A) :=
  x1 ← py_get l i1; x2 ← py_get l i2; Ok (<[i2 := x1]> (<[i1 := x2]> l)).

(** Rows of a tensor are views: after the first assignment of
    [mask[i1], mask[i2] = mask[i2], mask[i1]] the view of row [i1] already
    shows row [i2], so both rows end as the old row [i2]. *)
Definition swap_rows (i1 i2 : nat) (l : list (list bool)) : result (list (list bool)) :=
  x2 ← py_get l i2;
  l1 ← py_set l i1 x2;
  view ← py_get l1 i1;
  py_set l1 i2 view.

(** The arrays at the two positions are exchanged one after the other (the
    token rows through a copy). *)
Definition swap_states (i1 i2 : nat) : MI unit :=
  b ← get_state;
  old_id_i1 ← lift_result (py_get (_req_ids b) i1);
  old_id_i2 ← lift_result (py_get (_req_ids b) i2);
  ids ← lift_result (swap_list i1 i2 (_req_ids b));
  outs ← lift_result (swap_list i1 i2 (req_output_token_ids b));
  modify (set_ids ids outs (req_id_to_index b));;
  match old_id_i1, old_id_i2 with
  | Some id1, Some id2 =>
      match req_id_to_index b !! id2, req_id_to_index b !! id1 with
      | Some n2, Some n1 =>
          modify (set_ids ids outs (<[id2 := n1]> (<[id1 := n2]> (req_id_to_index b))));;
          s ← lift_result (swap_list i1 i2 (slots b));
          modify (set_slots s);;
          modify (fun b => set_reqs (reqs b) (mkIndexDicts (swap_dict_values i1 i2 (min_tokens_at (dicts b)))
            (swap_dict_values i1 i2 (generators (dicts b))) (swap_dict_values i1 i2 (bad_words_at (dicts b)))) b);;
          l ← lift_result (swap_list i1 i2 (logit_biases b));
          modify (set_biases l);;
          match allowed_token_ids_mask b with
          | Some mask => mask ← lift_result (swap_rows i1 i2 mask); modify (set_mask (Some mask))
          | None => mret tt
          end;;
          zoom block_table set_table (multi_swap_row i1 i2)
      | _, _ => raise KeyError
      end
  | _, _ => raise AssertionError
  end.

(** [d[tgt] = d.pop(src)] if there is one. *)
Definition move_key {A} (src tgt : nat) (m : gmap nat A) : gmap nat A :=
  match m !! src with Some x => <[tgt := x]> (delete src m) | None => m end.

(** The arrays at [tgt] get those at [src]; of the tokens only the first
    [num_tokens] are copied. *)
Definition copy_slot (src tgt : Slot) : result Slot :=
  row ← write_slice 0 (take (Z.to_nat (num_tokens src)) (token_ids_cpu src)) (token_ids_cpu tgt);
  Ok (slot_tokens row src).

(** Moving the last request into a hole.  The bias and the mask row of [src]
    stay where they are. *)
Definition move_request (src tgt : nat) : MI unit :=
  b ← get_state;
  req_id ← lift_result (py_get (_req_ids b) src);
  out ← lift_result (py_get (req_output_token_ids b) src);
  match req_id with
  | None => raise AssertionError
  | Some id =>
      ids ← lift_result (py_set (_req_ids b) tgt (Some id));
      ids ← lift_result (py_set ids src None);
      outs ← lift_result (py_set (req_output_token_ids b) tgt out);
      outs ← lift_result (py_set outs src None);
      modify (set_ids ids outs (<[id := tgt]> (req_id_to_index b)));;
      from ← lift_result (py_get (slots b) src);
      upd_slot tgt (copy_slot from);;
      zoom block_table set_table (multi_move_row src tgt);;
      modify (fun b => set_reqs (reqs b) (mkIndexDicts (move_key src tgt (min_tokens_at (dicts b)))
        (move_key src tgt (generators (dicts b))) (move_key src tgt (bad_words_at (dicts b)))) b);;
      bias ← lift_result (py_get (logit_biases b) src);
      l ← lift_result (py_set (logit_biases b) tgt bias);
      modify (set_biases l);;
      match allowed_token_ids_mask b with
      | Some mask =>
          row ← lift_result (py_get mask src);
          mask ← lift_result (py_set mask tgt row);
          modify (set_mask (Some mask))
      | None => mret tt
      end
  end.

(** [while last_req_index in empty: last_req_index -= 1], with [top] the index
    after the last. *)
Fixpoint lower_top (top : nat) (empty : list nat) : nat :=
  match top with
  | O => O
  | S last => if decide (last ∈ empty) then lower_top last empty else top
  end.

(** The loop: [empty] is in descending order, its last element is taken. *)
Fixpoint condense_loop (n : nat) (top : nat) (empty : list nat) : MI unit :=
  match n with
  | O => mret tt
  | S n' =>
      let top := lower_top top empty in
      match last empty with
      | None => mret tt
      | Some empty_index =>
          if (top <=? S empty_index)%nat then mret tt
          else move_request (top - 1) empty_index;; condense_loop n' (top - 1) (removelast empty)
      end
  end.

Definition condense (empty_req_indices : list nat) : MI unit :=
  b ← get_state;
  let n := num_reqs b in
  if (n =? 0)%nat then modify (set_ids [] [] (req_id_to_index b))
  else
    condense_loop (length empty_req_indices) (n + length empty_req_indices) empty_req_indices;;
    modify (fun b => set_ids (take (num_reqs b) (_req_ids b)) (take (num_reqs b) (req_output_token_ids b)) (req_id_to_index b) b).

(** ** The batch as a map from requests to rows *)

(** Membership in the sets, and the entries of the dicts, of one request and of
    one position. *)
Definition flags (id : string) (r : ReqSets) : list bool :=
  (fun s : gset string => bool_decide (id ∈ s)) <$>
    [greedy_reqs r; random_reqs r; top_p_reqs r; top_k_reqs r; min_p_reqs r; frequency_penalties_reqs r;
     presence_penalties_reqs r; repetition_penalties_reqs r; has_allowed_token_ids r].
Definition logs (id : string) (r : ReqSets) : option Z * option Z := (num_logprobs r !! id, num_prompt_logprobs r !! id).
Definition dict_at (i : nat) (d : IndexDicts) : option (Z * gset Z) * option Z * option (list (list Z)) :=
  (min_tokens_at d !! i, generators d !! i, bad_words_at d !! i).

(** What the batch holds for a request: its tokens, the numbers and sampling
    values at its position ([r_values], without the token row), its blocks, and
    its entries everywhere else.  The bias and the mask row are apart. *)
Record Row := mkRow {
  r_tokens : list Z;
  r_values : Slot;
  r_blocks : list (list nat);
  r_dicts : option (Z * gset Z) * option Z * option (list (list Z));
  r_flags : list bool;
  r_logs : option Z * option Z
}.

Definition slot_row (s : Slot) : list Z := take (Z.to_nat (num_tokens s)) (token_ids_cpu s).
Definition row_at (b : InputBatch) (i : nat) (s : Slot) (id : string) : Row :=
  mkRow (slot_row s) (slot_tokens [] s) (multi_blocks (block_table b) i) (dict_at i (dicts b)) (flags id (reqs b)) (logs id (reqs b)).

(** The abstract state: the row of each request in the batch. *)
Definition view (b : InputBatch) (id : string) : option Row :=
  i ← req_id_to_index b !! id; s ← slots b !! i; Some (row_at b i s id).

(** The row of a request that has just been added. *)
Definition row_of_request (vocab_size groups : nat) (c : CachedRequestState) : Row :=
  let p := sp_sampling (c_sampling_params c) in
  let lora := match c_lora_request c with Some l => lora_int_id l | None => 0 end in
  mkRow (c_prompt_token_ids c ++ c_output_token_ids c)
    (slot_lora lora (slot_sampling vocab_size p
      (slot_nums (c_num_tokens c) (c_num_tokens c) (len (c_prompt_token_ids c)) (c_num_computed_tokens c) (empty_slot 0))))
    (take groups (c_block_ids c))
    (dict_at 0 (add_dicts 0 p (c_generator c) (mkIndexDicts ∅ ∅ ∅)))
    (flags (c_req_id c) (classify vocab_size (c_req_id c) p (prompt_logprobs (c_sampling_params c)) (mkReqSets ∅ ∅ ∅ ∅ ∅ ∅ ∅ ∅ ∅ ∅ ∅)))
    (logprobs p, prompt_logprobs (c_sampling_params c)).

(** ** The invariant *)

Definition used (b : InputBatch) (i : nat) : Prop := exists id, _req_ids b !! i = Some (Some id).

Record batch_inv (b : InputBatch) : Prop := {
  bi_slots : length (slots b) = max_num_reqs b;
  bi_rows : forall i s, slots b !! i = Some s -> length (token_ids_cpu s) = max_model_len b;
  bi_table : multi_ok (max_num_reqs b) (block_table b);
  bi_len : (length (_req_ids b) <= max_num_reqs b)%nat;
  bi_outs : req_output_token_ids b = _req_ids b;
  bi_index : forall id i, req_id_to_index b !! id = Some i <-> _req_ids b !! i = Some (Some id);
  bi_flags : forall id, req_id_to_index b !! id = None -> flags id (reqs b) = replicate 9 false /\ logs id (reqs b) = (None, None);
  bi_dicts : forall i, ~ used b i -> dict_at i (dicts b) = (None, None, None);
  bi_lora : forall id i s, req_id_to_index b !! id = Some i -> slots b !! i = Some s -> request_lora_mapping s <> 0 ->
    (exists ids, lora_id_to_request_ids b !! request_lora_mapping s = Some ids /\ id ∈ ids) /\
    is_Some (lora_id_to_lora_request b !! request_lora_mapping s);
  bi_biases : length (logit_biases b) = max_num_reqs b;
  bi_mask : forall m, allowed_token_ids_mask b = Some m -> length m = max_num_reqs b
}.

Lemma init_batch_inv n len v sizes : batch_inv (init_batch n len v sizes).
Proof.
  split; simpl; try done.
  - apply length_replicate.
  - intros i s [-> _]%lookup_replicate. simpl. apply length_replicate.
  - unfold multi_ok, init_multi. apply Forall_fmap, Forall_true. intros s. apply init_block_table_ok.
  - lia.
  - apply length_replicate.
Qed.

(** Every position in use is within the arrays. *)
Lemma inv_slot b id i : batch_inv b -> req_id_to_index b !! id = Some i ->
  exists s, slots b !! i = Some s /\ (i < length (_req_ids b))%nat /\ (i < max_num_reqs b)%nat /\ _req_ids b !! i = Some (Some id).
Proof.
  intros Hb Hi. apply (bi_index b Hb) in Hi. pose proof (lookup_lt_Some _ _ _ Hi). pose proof (bi_len b Hb).
  destruct (lookup_lt_is_Some_2 (slots b) i) as [s Hs]; [rewrite (bi_slots b Hb); lia|]. exists s. split_and!; [done..|lia|done].
Qed.

Lemma view_Some b id r : batch_inv b -> view b id = Some r <->
  exists i s, req_id_to_index b !! id = Some i /\ slots b !! i = Some s /\ r = row_at b i s id.
Proof.
  intros Hb. unfold view. destruct (req_id_to_index b !! id) as [i|] eqn:Ei; simpl.
  - destruct (slots b !! i) as [s|] eqn:Es; simpl; [|].
    + split; [intros [= <-]; by exists i, s|]. by intros (i' & s' & [= <-] & E & ->); rewrite Es in E; injection E as <-.
    + split; [done|]. intros (i' & s' & [= <-] & Hs & _). by rewrite Es in Hs.
  - split; [done|]. by intros (i' & s' & ? & _).
Qed.

Lemma view_dom b id : batch_inv b -> is_Some (view b id) <-> is_Some (req_id_to_index b !! id).
Proof.
  intros Hb. split.
  - intros [r (i & s & Hi & _)%view_Some]; [by eexists|done].
  - intros [i Hi]. destruct (inv_slot b id i Hb Hi) as (s & Hs & _). eexists. apply view_Some; [done|]. eauto.
Qed.

Lemma view_None b id : batch_inv b -> view b id = None <-> req_id_to_index b !! id = None.
Proof. intros Hb. rewrite !eq_None_not_Some. by rewrite view_dom. Qed.

(** The number of requests counts the positions in use. *)
Lemma num_reqs_count b : batch_inv b -> num_reqs b = length (omap (M := list) id (_req_ids b)).
Proof.
  intros Hb. unfold num_reqs. set (l := omap (M := list) id (_req_ids b)).
  assert (Hl : forall x, x ∈ l <-> x ∈ dom (req_id_to_index b)).
  { intros x. unfold l. rewrite list_elem_of_omap, elem_of_dom. split.
    - intros ([y|] & [i Hi]%list_elem_of_lookup & Hy); [|done]. simpl in Hy. simplify_eq. exists i. by apply (bi_index b Hb).
    - intros [i Hi%(bi_index b Hb)]. exists (Some x). split; [by eapply list_elem_of_lookup_2|done]. }
  assert (Hnd : NoDup l).
  { unfold l. assert (Hinj : forall i j x, _req_ids b !! i = Some (Some x) -> _req_ids b !! j = Some (Some x) -> i = j).
    { intros i j x Hi%(bi_index b Hb) Hj%(bi_index b Hb). congruence. }
    clear -Hinj. induction (_req_ids b) as [|[x|] k IH]; simpl; [constructor| |].
    - constructor; [|apply IH; intros i j y Hi Hj; specialize (Hinj (S i) (S j) y Hi Hj); lia].
      intros (y & [i Hi]%list_elem_of_lookup & Hy)%list_elem_of_omap. simpl in Hy. subst y.
      by specialize (Hinj 0%nat (S i) x eq_refl Hi).
    - apply IH. intros i j y Hi Hj. specialize (Hinj (S i) (S j) y Hi Hj). lia. }
  rewrite <- size_dom. assert (dom (req_id_to_index b) = list_to_set (C := gset string) l) as -> by set_solver.
  by apply size_list_to_set.
Qed.

(** Positions that can take a request. *)
Definition free (b : InputBatch) (i : nat) : Prop :=
  (i < max_num_reqs b)%nat /\ (i = length (_req_ids b) \/ _req_ids b !! i = Some None).
(** No holes. *)
Definition dense (b : InputBatch) : Prop := forall i, (i < length (_req_ids b))%nat -> used b i.

Lemma omap_length_all {A} (l : list (option A)) : (forall i, (i < length l)%nat -> exists x, l !! i = Some (Some x)) ->
  length (omap (M := list) id l) = length l.
Proof.
  induction l as [|o l IH]; intros Hl; [done|]. destruct (Hl 0%nat ltac:(simpl; lia)) as [x Hx]. simpl in Hx. simplify_eq. simpl.
  f_equal. apply IH. intros i Hi. apply (Hl (S i)). simpl. lia.
Qed.

Lemma dense_num_reqs b : batch_inv b -> dense b -> num_reqs b = length (_req_ids b).
Proof. intros Hb Hd. rewrite num_reqs_count by done. by apply omap_length_all. Qed.

(** ** Adding *)

Lemma view_at b id i s : req_id_to_index b !! id = Some i -> slots b !! i = Some s -> view b id = Some (row_at b i s id).
Proof. intros Hi Hs. unfold view. by rewrite Hi; simpl; rewrite Hs. Qed.

(** A request whose entries do not change keeps its row. *)
Lemma view_frame b b' id :
  req_id_to_index b' !! id = req_id_to_index b !! id ->
  (forall i, req_id_to_index b !! id = Some i -> slots b' !! i = slots b !! i /\
     multi_blocks (block_table b') i = multi_blocks (block_table b) i /\ dict_at i (dicts b') = dict_at i (dicts b)) ->
  flags id (reqs b') = flags id (reqs b) -> logs id (reqs b') = logs id (reqs b) -> view b' id = view b id.
Proof.
  intros Hi Hs Hf Hl. unfold view. rewrite Hi. destruct (req_id_to_index b !! id) as [i|]; [|done].
  destruct (Hs i eq_refl) as (E1 & E2 & E3). simpl. rewrite E1. destruct (slots b !! i) as [s|]; [|done]. simpl.
  unfold row_at. by rewrite E2, E3, Hf, Hl.
Qed.

(** Two requests never share a position. *)
Lemma index_inj b id id' i : batch_inv b -> req_id_to_index b !! id = Some i -> req_id_to_index b !! id' = Some i -> id = id'.
Proof. intros Hb H1%(bi_index b Hb) H2%(bi_index b Hb). congruence. Qed.

Lemma free_not_used b i : free b i -> ~ used b i.
Proof.
  intros [_ [->|Hi]] [id Hid]; [apply lookup_lt_Some in Hid; lia|congruence].
Qed.

Lemma not_used_index b id i : batch_inv b -> ~ used b i -> req_id_to_index b !! id = Some i -> False.
Proof. intros Hb Hu Hi%(bi_index b Hb). apply Hu. by exists id. Qed.

Lemma add_if_elem c id id' s : id' <> id -> bool_decide (id' ∈ add_if c id s) = bool_decide (id' ∈ s).
Proof. intros Hne. apply bool_decide_ext. destruct c; simpl; set_solver. Qed.

Lemma add_if_self c id s : bool_decide (id ∈ s) = false -> bool_decide (id ∈ add_if c id s) = c.
Proof.
  intros Hs%bool_decide_eq_false. destruct c; simpl; [apply bool_decide_eq_true|apply bool_decide_eq_false]; set_solver.
Qed.

Lemma set_opt_lookup_ne {K A} `{Countable K} (k k' : K) (v : option A) m : k' <> k -> set_opt k v m !! k' = m !! k'.
Proof. intros Hne. destruct v; simpl; [by rewrite lookup_insert_ne|done]. Qed.

Lemma set_opt_lookup {K A} `{Countable K} (k : K) (v : option A) m : m !! k = None -> set_opt k v m !! k = v.
Proof. intros Hm. destruct v; simpl; [by rewrite lookup_insert_eq|done]. Qed.

(** [classify] and [add_dicts] touch the entries of one request. *)
Lemma flags_classify_ne v id id' p l r : id' <> id ->
  flags id' (classify v id p l r) = flags id' r /\ logs id' (classify v id p l r) = logs id' r.
Proof.
  intros Hne. unfold flags, logs, classify. cbn [fmap list_fmap greedy_reqs random_reqs top_p_reqs top_k_reqs min_p_reqs
    frequency_penalties_reqs presence_penalties_reqs repetition_penalties_reqs has_allowed_token_ids num_logprobs num_prompt_logprobs].
  by rewrite !add_if_elem, !set_opt_lookup_ne by done.
Qed.

Lemma flags_classify v id p l r : flags id r = replicate 9 false -> logs id r = (None, None) ->
  flags id (classify v id p l r) = flags id (classify v id p l (mkReqSets ∅ ∅ ∅ ∅ ∅ ∅ ∅ ∅ ∅ ∅ ∅)) /\
  logs id (classify v id p l r) = (logprobs p, l).
Proof.
  unfold flags, logs, classify. cbn [fmap list_fmap greedy_reqs random_reqs top_p_reqs top_k_reqs min_p_reqs
    frequency_penalties_reqs presence_penalties_reqs repetition_penalties_reqs has_allowed_token_ids num_logprobs num_prompt_logprobs].
  intros [= ? ? ? ? ? ? ? ? ?] [= ? ?].
  rewrite !add_if_self, !set_opt_lookup by (done || (apply bool_decide_eq_false; set_solver)). done.
Qed.

Lemma dict_at_add_ne i j p g d : j <> i -> dict_at j (add_dicts i p g d) = dict_at j d.
Proof.
  intros Hne. unfold dict_at, add_dicts. cbn [min_tokens_at generators bad_words_at].
  rewrite !set_opt_lookup_ne by done. destruct (_ =? _); [done|]. by rewrite lookup_insert_ne.
Qed.

Lemma dict_at_add i j p g d : dict_at i d = (None, None, None) ->
  dict_at i (add_dicts i p g d) = dict_at j (add_dicts j p g (mkIndexDicts ∅ ∅ ∅)).
Proof.
  unfold dict_at, add_dicts. cbn [min_tokens_at generators bad_words_at]. intros [= H1 H2 H3].
  rewrite !set_opt_lookup by (done || apply lookup_empty). destruct (_ =? _); [by rewrite H1|]. by rewrite !lookup_insert_eq.
Qed.

(** The sizes that never change. *)
Definition dims (b : InputBatch) : nat * nat * nat * list nat :=
  (max_num_reqs b, max_model_len b, vocab_size b, multi_width (block_table b)).

(** A request that the arrays can hold. *)
Record fits (b : InputBatch) (c : CachedRequestState) : Prop := {
  ft_len : c_num_tokens c <= Z.of_nat (max_model_len b);
  ft_blocks : forall g w, multi_width (block_table b) !! g = Some w ->
    exists ids, c_block_ids c !! g = Some ids /\ (length ids <= w)%nat;
  ft_allowed : forall ids t, allowed_token_ids (sp_sampling (c_sampling_params c)) = Some ids -> t ∈ ids ->
    - Z.of_nat (vocab_size b) <= t < Z.of_nat (vocab_size b)
}.

Lemma fits_dims b b' c : dims b' = dims b -> fits b c -> fits b' c.
Proof. intros [= E1 E2 E3 E4] [H1 H2 H3]. split; by rewrite ?E1, ?E2, ?E3, ?E4. Qed.

Lemma put_id_spec {A} (l : list A) i x : (i <= length l)%nat -> exists l', put_id l i x = Ok l' /\
  length l' = Nat.max (length l) (S i) /\ forall j, l' !! j = if decide (j = i) then Some x else l !! j.
Proof.
  intros Hi. unfold put_id. destruct (Nat.eqb_spec i (length l)) as [->|Hne].
  - exists (l ++ [x]). split; [done|]. split; [rewrite length_app; simpl; lia|]. intros j.
    destruct (decide (j = length l)) as [->|Hj]; [by rewrite lookup_app_r, Nat.sub_diag by lia|].
    destruct (decide (j < length l)%nat); [by rewrite lookup_app_l|].
    by rewrite !lookup_ge_None_2 by (rewrite ?length_app; simpl; lia).
  - exists (<[i := x]> l). rewrite py_set_ok by lia. split; [done|]. split; [rewrite length_insert; lia|]. intros j.
    case_decide; [subst; by rewrite list_lookup_insert_eq by lia|by rewrite list_lookup_insert_ne].
Qed.

Lemma free_le b i : batch_inv b -> free b i -> (i <= length (_req_ids b))%nat.
Proof. intros Hb [_ [->|Hi%lookup_lt_Some]]; lia. Qed.

Lemma wp_upd_slot i f s s' l b P : l !! i = Some s -> f s = Ok s' -> P tt (set_slots (<[i := s']> l) b) ->
  wp (upd_slot i f) P (set_slots l b).
Proof.
  intros Hs Hf HP. unfold upd_slot. wp_steps. eapply wp_lift; [by apply py_get_Some|]. wp_steps. eapply wp_lift; [done|].
  wp_steps. done.
Qed.

Lemma clear_tokens_ok ids row : (forall t, t ∈ ids -> - len row <= t < len row) ->
  exists row', clear_tokens ids row = Ok row' /\ length row' = length row.
Proof.
  revert row. induction ids as [|t ids IH]; intros row Hr; [by exists row|]. cbn [clear_tokens mbind result_mbind].
  pose proof (Hr t ltac:(set_solver)) as Ht. unfold clear_token at 1. set (j := if t <? 0 then t + len row else t).
  assert (Hj : 0 <= j < len row) by (unfold j; destruct (Z.ltb_spec t 0); lia).
  rewrite (proj2 (andb_true_iff _ _)) by (split; lia). cbn [mbind result_mbind].
  destruct (IH (<[Z.to_nat j := false]> row)) as (row' & E & El).
  { intros u Hu. unfold len. rewrite length_insert. apply Hr. set_solver. }
  exists row'. rewrite length_insert in El. done.
Qed.

(** The mask of a request that asks for one is set; the rest of the batch stays. *)
Lemma wp_add_mask i p b P : (i < max_num_reqs b)%nat ->
  (forall m, allowed_token_ids_mask b = Some m -> length m = max_num_reqs b) ->
  (forall ids t, allowed_token_ids p = Some ids -> t ∈ ids -> - Z.of_nat (vocab_size b) <= t < Z.of_nat (vocab_size b)) ->
  (forall m, (forall l, m = Some l -> length l = max_num_reqs b) -> P tt (set_mask m b)) -> wp (add_mask i p) P b.
Proof.
  intros Hi Hm Hal HP. unfold add_mask. destruct (truthy (allowed_token_ids p)) as [ids|] eqn:Et.
  2: { wp_steps. specialize (HP (allowed_token_ids_mask b) Hm). by destruct b. }
  assert (Hids : allowed_token_ids p = Some ids) by (unfold truthy in Et; by destruct (allowed_token_ids p) as [[]|]; simplify_eq).
  wp_steps. set (mask := default _ (allowed_token_ids_mask b)).
  assert (Hlen : length mask = max_num_reqs b).
  { unfold mask. destruct (allowed_token_ids_mask b); [by apply Hm|apply length_replicate]. }
  eapply wp_lift; [apply py_set_ok; lia|]. wp_steps.
  destruct (clear_tokens_ok ids (replicate (vocab_size b) true)) as (row & E & _).
  { intros t Ht. unfold len. rewrite length_replicate. by apply (Hal ids). }
  eapply wp_lift; [exact E|]. wp_steps. eapply (HP (Some _)). intros l [= <-]. by rewrite !length_insert.
Qed.

Lemma wp_add_lora i c l s b P : l !! i = Some s ->
  (forall ids rs, let lora := match c_lora_request c with Some r => lora_int_id r | None => 0 end in
     (forall k js, lora_id_to_request_ids b !! k = Some js -> exists js', ids !! k = Some js' /\ js ⊆ js') ->
     (forall k, is_Some (lora_id_to_lora_request b !! k) -> is_Some (rs !! k)) ->
     (lora <> 0 -> (exists js, ids !! lora = Some js /\ c_req_id c ∈ js) /\ is_Some (rs !! lora)) ->
     P tt (set_loras ids rs (set_slots (<[i := slot_lora lora s]> l) b))) ->
  wp (add_lora i c) P (set_slots l b).
Proof.
  intros Hs HP. unfold add_lora. destruct (c_lora_request c) as [r|].
  - wp_steps. eapply wp_upd_slot; [done..|]. wp_steps. apply (HP _ _).
    + intros k js Hk. simpl. destruct (decide (k = lora_int_id r)) as [->|].
      * rewrite lookup_insert_eq, Hk. eexists. split; [done|]. simpl. set_solver.
      * rewrite lookup_insert_ne by done. exists js. set_solver.
    + intros k Hk. simpl. destruct (decide (k = lora_int_id r)) as [->|]; [rewrite lookup_insert_eq; by eexists|].
      by rewrite lookup_insert_ne.
    + intros _. simpl. rewrite !lookup_insert_eq. split; [|by eexists]. eexists. split; [done|]. set_solver.
  - eapply wp_upd_slot; [done..|].
    specialize (HP (lora_id_to_request_ids b) (lora_id_to_lora_request b)).
    apply HP; [eauto|done|done].
Qed.

(** What [add_request] leaves: the batch [b'] is [b] with [c] at position [i]. *)
Record added (b b' : InputBatch) (c : CachedRequestState) (i : nat) : Prop := {
  ad_inv : batch_inv b';
  ad_dims : dims b' = dims b;
  ad_len : length (_req_ids b') = Nat.max (length (_req_ids b)) (S i);
  ad_ids : forall j, _req_ids b' !! j = if decide (j = i) then Some (Some (c_req_id c)) else _req_ids b !! j;
  ad_index : req_id_to_index b' = <[c_req_id c := i]> (req_id_to_index b);
  ad_view : forall id, view b' id = if decide (id = c_req_id c)
    then Some (row_of_request (vocab_size b) (length (block_table b)) c) else view b id
}.

(** The token row after the two writes. *)
Lemma request_tokens (prompt output row : list Z) : (length prompt + length output <= length row)%nat ->
  exists row1 row2, write_slice 0 prompt row = Ok row1 /\ write_slice (length prompt) output row1 = Ok row2 /\
    length row2 = length row /\ take (length prompt + length output) row2 = prompt ++ output.
Proof.
  intros Hl. eexists _, _. rewrite write_slice_ok by lia. split; [done|]. simpl.
  rewrite write_slice_ok by (rewrite length_app, length_drop; lia). split; [done|].
  rewrite take_app_length. split; [rewrite !length_app, !length_drop, length_app, length_drop; lia|].
  rewrite app_assoc, take_app_length'; [done|]. by rewrite length_app.
Qed.

(** The fields of the batch that [add_request] ends with, in terms of those it
    starts with. *)
Record add_result (b b' : InputBatch) (c : CachedRequestState) (i : nat) : Prop := {
  ar_dims : dims b' = dims b;
  ar_len : length (_req_ids b') = Nat.max (length (_req_ids b)) (S i);
  ar_ids : forall j, _req_ids b' !! j = if decide (j = i) then Some (Some (c_req_id c)) else _req_ids b !! j;
  ar_outs : req_output_token_ids b' = _req_ids b';
  ar_index : req_id_to_index b' = <[c_req_id c := i]> (req_id_to_index b);
  ar_slots : exists s, slots b' = <[i := s]> (slots b) /\ length (token_ids_cpu s) = max_model_len b /\
    slot_row s = c_prompt_token_ids c ++ c_output_token_ids c /\
    slot_tokens [] s = r_values (row_of_request (vocab_size b) (length (block_table b)) c);
  ar_table : multi_ok (max_num_reqs b) (block_table b');
  ar_blocks : forall j, multi_blocks (block_table b') j =
    if decide (j = i) then take (length (block_table b)) (c_block_ids c) else multi_blocks (block_table b) j;
  ar_reqs : reqs b' = classify (vocab_size b) (c_req_id c) (sp_sampling (c_sampling_params c))
    (prompt_logprobs (c_sampling_params c)) (reqs b);
  ar_dicts : dicts b' = add_dicts i (sp_sampling (c_sampling_params c)) (c_generator c) (dicts b);
  ar_lora_ids : forall k js, lora_id_to_request_ids b !! k = Some js ->
    exists js', lora_id_to_request_ids b' !! k = Some js' /\ js ⊆ js';
  ar_lora_reqs : forall k, is_Some (lora_id_to_lora_request b !! k) -> is_Some (lora_id_to_lora_request b' !! k);
  ar_lora : let lora := match c_lora_request c with Some r => lora_int_id r | None => 0 end in lora <> 0 ->
    (exists js, lora_id_to_request_ids b' !! lora = Some js /\ c_req_id c ∈ js) /\ is_Some (lora_id_to_lora_request b' !! lora);
  ar_biases : length (logit_biases b') = max_num_reqs b;
  ar_mask : forall m, allowed_token_ids_mask b' = Some m -> length m = max_num_reqs b
}.

Lemma add_result_inv b b' c i : batch_inv b -> free b i -> req_id_to_index b !! c_req_id c = None ->
  add_result b b' c i -> batch_inv b'.
Proof.
  intros Hb Hi Hnew H. pose proof (free_not_used b i Hi) as Hnu. pose proof (ar_dims _ _ _ _ H) as [= D1 D2 D3 D4].
  destruct (ar_slots _ _ _ _ H) as (s & Es & Els & Erow & Ev). destruct Hi as [Hmax Hi].
  assert (Hother : forall id j, id <> c_req_id c -> req_id_to_index b !! id = Some j -> j <> i).
  { intros id j _ Hj ->. by eapply not_used_index. }
  split; rewrite ?D1, ?D2.
  - rewrite Es, length_insert. apply (bi_slots b Hb).
  - rewrite Es. intros j s' [(-> & <- & _)|[_ Hj]]%list_lookup_insert_Some; [done|by eapply bi_rows].
  - apply H.
  - rewrite (ar_len _ _ _ _ H). pose proof (bi_len b Hb). lia.
  - apply H.
  - intros id j. rewrite (ar_index _ _ _ _ H), (ar_ids _ _ _ _ H). destruct (decide (id = c_req_id c)) as [->|Hne].
    + rewrite lookup_insert_eq. case_decide as Ej; [by subst|]. split; [congruence|]. intros Hj%(bi_index b Hb). congruence.
    + rewrite lookup_insert_ne by done. case_decide as Ej; [subst j|by apply bi_index].
      split; [intros Hj; by destruct (not_used_index b id i Hb Hnu)|congruence].
  - intros id. rewrite (ar_index _ _ _ _ H), (ar_reqs _ _ _ _ H), lookup_insert_None. intros [Hid Hne].
    destruct (flags_classify_ne (vocab_size b) (c_req_id c) id (sp_sampling (c_sampling_params c))
      (prompt_logprobs (c_sampling_params c)) (reqs b)) as [-> ->]; [done|]. by apply (bi_flags b Hb).
  - intros j Hj. rewrite (ar_dicts _ _ _ _ H). assert (j <> i).
    { intros ->. apply Hj. exists (c_req_id c). by rewrite (ar_ids _ _ _ _ H), decide_True. }
    rewrite dict_at_add_ne by done. apply (bi_dicts b Hb). intros [id Hid]. apply Hj. exists id.
    by rewrite (ar_ids _ _ _ _ H), decide_False.
  - intros id j s'. rewrite (ar_index _ _ _ _ H), Es. intros [[<- <-]|[Hne Hj]]%lookup_insert_Some.
    + rewrite list_lookup_insert_eq by (rewrite (bi_slots b Hb); lia). intros [= <-].
      assert (request_lora_mapping s = match c_lora_request c with Some r => lora_int_id r | None => 0 end) as ->
        by exact (f_equal request_lora_mapping Ev). apply H.
    + rewrite list_lookup_insert_ne by (intros Heq; by apply (Hother id j)). intros Hs' Hl.
      destruct (bi_lora b Hb id j s' Hj Hs' Hl) as [(js & Ek & Hin) Hr]. split; [|by apply H].
      destruct (ar_lora_ids _ _ _ _ H _ _ Ek) as (js' & Ek' & Hsub). exists js'. set_solver.
  - apply H.
  - apply H.
Qed.

Lemma add_result_added b b' c i : batch_inv b -> free b i -> req_id_to_index b !! c_req_id c = None ->
  add_result b b' c i -> added b b' c i.
Proof.
  intros Hb Hi Hnew H. split; try apply H; [by eapply add_result_inv|].
  pose proof (free_not_used b i Hi) as Hnu. destruct (ar_slots _ _ _ _ H) as (s & Es & Els & Erow & Ev).
  intros id. case_decide as Eid; [subst id|].
  - rewrite (view_at b' _ i s);
      [|by rewrite (ar_index _ _ _ _ H), lookup_insert_eq
       |by rewrite Es, list_lookup_insert_eq by (rewrite (bi_slots b Hb); apply Hi)].
    destruct (bi_flags b Hb _ Hnew) as [Hf Hl]. unfold row_at.
    rewrite Erow, Ev, (ar_blocks _ _ _ _ H), decide_True, (ar_dicts _ _ _ _ H), (ar_reqs _ _ _ _ H) by done.
    destruct (flags_classify (vocab_size b) (c_req_id c) (sp_sampling (c_sampling_params c))
      (prompt_logprobs (c_sampling_params c)) (reqs b) Hf Hl) as [-> ->].
    rewrite (dict_at_add i 0) by (by apply (bi_dicts b Hb)). done.
  - apply view_frame.
    + by rewrite (ar_index _ _ _ _ H), lookup_insert_ne.
    + intros j Hj. assert (j <> i) by (intros ->; by eapply not_used_index).
      rewrite Es, (ar_blocks _ _ _ _ H), (ar_dicts _ _ _ _ H), decide_False, dict_at_add_ne, list_lookup_insert_ne by done. done.
    + rewrite (ar_reqs _ _ _ _ H). by apply flags_classify_ne.
    + rewrite (ar_reqs _ _ _ _ H). by apply flags_classify_ne.
Qed.

Lemma set_slots_self b : set_slots (slots b) b = b.
Proof. by destruct b. Qed.

Lemma wp_slots_self {A} (m : MI A) P b : wp m P (set_slots (slots b) b) -> wp m P b.
Proof. by rewrite set_slots_self. Qed.

Lemma wp_batch_add c oi b P :
  batch_inv b -> fits b c -> free b (default (num_reqs b) oi) -> req_id_to_index b !! c_req_id c = None ->
  (forall b', added b b' c (default (num_reqs b) oi) -> P tt b') -> wp (add_request c oi) P b.
Proof.
  intros Hb Hfits Hfree Hnew HP. unfold add_request. wp_steps. set (i := default (num_reqs b) oi) in *.
  pose proof (bi_slots b Hb) as Hsl. destruct (id Hfree) as [Hmax _].
  apply wp_assert; [by apply Nat.ltb_lt|]. wp_steps.
  destruct (put_id_spec (_req_ids b) i (Some (c_req_id c))) as (ids & E1 & Lids & Hids); [by apply free_le|].
  eapply wp_lift; [exact E1|]. wp_steps. rewrite (bi_outs b Hb). eapply wp_lift; [exact E1|]. wp_steps.
  set (b1 := set_ids ids ids _ b). rewrite <- (set_slots_self b1). change (slots b1) with (slots b).
  destruct (lookup_lt_is_Some_2 (slots b) i) as [s Hs]; [lia|].
  assert (Hin : forall l s', length l = max_num_reqs b -> <[i := s']> (l : list Slot) !! i = Some s')
    by (intros l s' Hl; apply list_lookup_insert_eq; lia).
  destruct (request_tokens (c_prompt_token_ids c) (c_output_token_ids c) (token_ids_cpu s)) as (row1 & row2 & R1 & R2 & Lrow & Erow).
  { rewrite (bi_rows b Hb i s Hs). pose proof (ft_len b c Hfits). unfold c_num_tokens, len in *. lia. }
  apply wp_bind. eapply wp_upd_slot; [done..|]. wp_steps.
  eapply wp_upd_slot; [by apply Hin|cbn; by rewrite R1|]. wp_steps. rewrite list_insert_insert_eq.
  eapply wp_upd_slot; [by apply Hin|cbn; by rewrite R2|]. wp_steps. rewrite list_insert_insert_eq.
  eapply wp_upd_slot; [by apply Hin|done|]. wp_steps. rewrite list_insert_insert_eq.
  apply (wp_multi_add_row (max_num_reqs b)); [apply (bi_table b Hb)|done|apply (ft_blocks b c Hfits)|].
  intros ts Hts Wts Bts. wp_steps. change (set_table ts (set_slots ?l ?x)) with (set_slots l (set_table ts x)).
  eapply wp_upd_slot; [by apply Hin|done|]. wp_steps. rewrite list_insert_insert_eq.
  set (p := sp_sampling (c_sampling_params c)).
  match goal with |- context [set_reqs ?r ?d (set_slots ?l ?x)] =>
    set (r' := r); set (d' := d); change (set_reqs r' d' (set_slots l x)) with (set_slots l (set_reqs r' d' x)) end.
  match goal with |- context [set_slots ?l ?x] => set (sl := l); set (b2 := x) end.
  apply (wp_mono _ (fun _ b3 => exists bs, length bs = max_num_reqs b /\ b3 = set_biases bs (set_slots sl b2))).
  { destruct (logit_bias p) as [bias|]; wp_steps.
    - eapply wp_lift; [apply py_set_ok; cbn; rewrite (bi_biases b Hb); lia|]. wp_steps. eexists. split; [|done].
      rewrite length_insert. apply Hb.
    - exists (logit_biases b). split; [apply Hb|done]. }
  intros [] b3 (bs & Lbs & ->). wp_steps.
  apply wp_add_mask; [done|apply Hb|apply (ft_allowed b c Hfits)|]. intros m Hm.
  change (set_mask m (set_biases bs (set_slots sl b2))) with (set_slots sl (set_mask m (set_biases bs b2))).
  eapply wp_add_lora; [by apply Hin|]. intros lids lrs lora H1 H2 H3. apply HP, add_result_added; [done..|].
  split; try done.
  - exact (f_equal (pair (max_num_reqs b, max_model_len b, vocab_size b)) Wts).
  - cbn. unfold sl. rewrite list_insert_insert_eq. eexists. split; [done|]. split; [cbn; by rewrite Lrow; eapply bi_rows|].
    split; [|done]. unfold slot_row. cbn. rewrite <- Erow. f_equal. unfold c_num_tokens, len. lia.
Qed.

(** ** Removing *)

Record removed (b b' : InputBatch) (id : string) (i : nat) : Prop := {
  rm_inv : batch_inv b';
  rm_dims : dims b' = dims b;
  rm_ids : _req_ids b' = <[i := None]> (_req_ids b);
  rm_index : req_id_to_index b' = delete id (req_id_to_index b);
  rm_view : forall id', view b' id' = if decide (id' = id) then None else view b id'
}.

Lemma flags_discard_ne id id' r : id' <> id -> flags id' (discard id r) = flags id' r /\ logs id' (discard id r) = logs id' r.
Proof.
  intros Hne. unfold flags, logs, discard. cbn [fmap list_fmap greedy_reqs random_reqs top_p_reqs top_k_reqs min_p_reqs
    frequency_penalties_reqs presence_penalties_reqs repetition_penalties_reqs has_allowed_token_ids num_logprobs num_prompt_logprobs].
  assert (Hd : forall s : gset string, bool_decide (id' ∈ s ∖ {[id]}) = bool_decide (id' ∈ s))
    by (intros s; apply bool_decide_ext; set_solver).
  by rewrite !lookup_delete_ne, !Hd by done.
Qed.

Lemma flags_discard id r : flags id (discard id r) = replicate 9 false /\ logs id (discard id r) = (None, None).
Proof.
  unfold flags, logs, discard. cbn [fmap list_fmap greedy_reqs random_reqs top_p_reqs top_k_reqs min_p_reqs
    frequency_penalties_reqs presence_penalties_reqs repetition_penalties_reqs has_allowed_token_ids num_logprobs num_prompt_logprobs].
  assert (Hd : forall s : gset string, bool_decide (id ∈ s ∖ {[id]}) = false)
    by (intros s; apply bool_decide_eq_false; set_solver).
  by rewrite !lookup_delete_eq, !Hd.
Qed.

Lemma dict_at_pop_ne i j d : j <> i -> dict_at j (pop_dicts i d) = dict_at j d.
Proof. intros Hne. unfold dict_at, pop_dicts. simpl. by rewrite !lookup_delete_ne. Qed.

Lemma dict_at_pop i d : dict_at i (pop_dicts i d) = (None, None, None).
Proof. unfold dict_at, pop_dicts. simpl. by rewrite !lookup_delete_eq. Qed.

(** The adapter of position [i] forgets the request; the adapters that others
    use stay registered. *)
Lemma wp_remove_lora i id s b P : slots b !! i = Some s ->
  (request_lora_mapping s <> 0 ->
     (exists js, lora_id_to_request_ids b !! request_lora_mapping s = Some js /\ id ∈ js) /\
     is_Some (lora_id_to_lora_request b !! request_lora_mapping s)) ->
  (forall ids rs s', length (token_ids_cpu s') = length (token_ids_cpu s) ->
     (forall id' k js, id' <> id -> lora_id_to_request_ids b !! k = Some js -> id' ∈ js -> is_Some (lora_id_to_lora_request b !! k) ->
        (exists js', ids !! k = Some js' /\ id' ∈ js') /\ is_Some (rs !! k)) ->
     P tt (set_loras ids rs (set_slots (<[i := s']> (slots b)) b))) ->
  wp (remove_lora i id) P b.
Proof.
  intros Hs Hlora HP. unfold remove_lora. wp_steps. eapply wp_lift; [by apply py_get_Some|].
  destruct (Z.eqb_spec (request_lora_mapping s) 0) as [E0|E0].
  { wp_steps. specialize (HP (lora_id_to_request_ids b) (lora_id_to_lora_request b) s eq_refl). rewrite list_insert_id in HP by done.
    replace (set_loras _ _ _) with b in HP by (by destruct b). apply HP. eauto. }
  destruct (Hlora E0) as [(js & Ejs & Hin) Hr]. rewrite Ejs.
  apply wp_bind. apply (wp_mono _ (fun _ b1 => exists ids rs, b1 = set_loras ids rs (set_slots (slots b) b) /\
    forall id' k js, id' <> id -> lora_id_to_request_ids b !! k = Some js -> id' ∈ js -> is_Some (lora_id_to_lora_request b !! k) ->
        (exists js', ids !! k = Some js' /\ id' ∈ js') /\ is_Some (rs !! k))).
  - rewrite set_slots_self. case_decide as Ee.
    + wp_steps. rewrite decide_True by done. wp_steps. eexists _, _. split; [done|]. intros id' k js' Hne Hk Hin' Hr'. simpl.
      assert (k <> request_lora_mapping s) by (intros ->; simplify_eq; set_solver).
      rewrite !lookup_delete_ne by done. eauto.
    + wp_steps. eexists _, _. split; [done|]. intros id' k js' Hne Hk Hin' Hr'.
      destruct (decide (k = request_lora_mapping s)) as [->|]; [|rewrite lookup_insert_ne by done; eauto].
      rewrite lookup_insert_eq. simplify_eq. split; [|done]. eexists. split; [done|]. set_solver.
  - intros [] b1 (ids & rs & -> & Hkeep).
    change (set_loras ids rs (set_slots (slots b) b)) with (set_slots (slots b) (set_loras ids rs b)).
    eapply wp_upd_slot; [done..|]. by eapply (HP ids rs (slot_lora 0 s)).
Qed.

Lemma wp_remove_request id b P : batch_inv b ->
  (req_id_to_index b !! id = None -> P None b) ->
  (forall i b', req_id_to_index b !! id = Some i -> removed b b' id i -> P (Some i) b') ->
  wp (remove_request id) P b.
Proof.
  intros Hb HN HS. unfold remove_request. wp_steps. destruct (req_id_to_index b !! id) as [i|] eqn:Ei; [|wp_steps; by apply HN].
  destruct (inv_slot b id i Hb Ei) as (s & Hs & Hlen & Hmax & Hid).
  wp_steps. eapply wp_lift; [by apply py_set_ok|]. wp_steps. eapply wp_lift; [apply py_set_ok; by rewrite (bi_outs b Hb)|]. wp_steps.
  eapply wp_remove_lora; [done|intros Hl; by apply (bi_lora b Hb id i)|]. intros lids lrs s' Ls' Hkeep. cbn in Hkeep. wp_steps.
  eapply wp_lift; [apply py_set_ok; cbn; rewrite (bi_biases b Hb); lia|]. wp_steps.
  match goal with |- wp _ _ ?x => set (b1 := x) end.
  apply (wp_mono _ (fun _ b2 => exists m, b2 = set_mask m b1 /\ forall l, m = Some l -> length l = max_num_reqs b)).
  { match goal with |- context [match ?x with Some _ => _ | None => _ end] => change x with (allowed_token_ids_mask b) end.
    destruct (allowed_token_ids_mask b) as [mask|] eqn:Em.
    - pose proof (bi_mask b Hb _ Em). destruct (lookup_lt_is_Some_2 mask i) as [row Hrow]; [lia|]. wp_steps.
      eapply wp_lift; [by apply py_get_Some|]. wp_steps. eexists. split; [done|]. intros l [= <-]. by rewrite length_insert.
    - wp_steps. exists None. split; [|done]. by unfold b1, set_mask, set_biases; simpl; rewrite Em. }
  intros [] b2 (m & -> & Hm). wp_steps. apply HS; [done|].
  assert (Hne : forall id' j, id' <> id -> req_id_to_index b !! id' = Some j -> j <> i).
  { intros id' j Hne Hj ->. apply Hne. by eapply index_inj. }
  assert (Hinv : batch_inv (set_mask m b1)).
  { split; try done; simpl.
    - rewrite length_insert. apply Hb.
    - intros j s'' [(-> & <- & _)|[_ Hj]]%list_lookup_insert_Some; [rewrite Ls'|]; by eapply bi_rows.
    - apply Hb.
    - rewrite length_insert. apply Hb.
    - by rewrite (bi_outs b Hb).
    - intros id' j. destruct (decide (id' = id)) as [->|Hid'].
      + rewrite lookup_delete_eq. split; [done|]. intros [(-> & ? & _)|[Hj Hj']]%list_lookup_insert_Some; [done|].
        apply (bi_index b Hb) in Hj'. congruence.
      + rewrite lookup_delete_ne, (bi_index b Hb) by done. split.
        * intros Hj. rewrite list_lookup_insert_ne; [done|]. intros ->. congruence.
        * intros [(-> & ? & _)|[Hj Hj']]%list_lookup_insert_Some; done.
    - intros id'. destruct (decide (id' = id)) as [->|Hid']; [intros _; apply flags_discard|].
      rewrite lookup_delete_ne by done. intros Hn. destruct (flags_discard_ne id id' (reqs b) Hid') as [-> ->]. by apply (bi_flags b Hb).
    - intros j Hj. destruct (decide (j = i)) as [->|Hji]; [apply dict_at_pop|]. rewrite dict_at_pop_ne by done.
      apply (bi_dicts b Hb). intros [x Hx]. apply Hj. exists x. simpl. by rewrite list_lookup_insert_ne.
    - intros id' j s''. rewrite lookup_delete_Some. intros [Hid' Hj]. rewrite list_lookup_insert_ne by (apply not_eq_sym; eauto).
      intros Hs'' Hl. destruct (bi_lora b Hb id' j s'' Hj Hs'' Hl) as [(js & Hk & Hin) Hr]. by eapply Hkeep.
    - rewrite length_insert. apply Hb. }
  split; try done. intros id'. case_decide as Eid.
  - apply view_None; [done|]. subst. apply lookup_delete_eq.
  - apply view_frame; simpl.
    + by rewrite lookup_delete_ne.
    + intros j Hj. pose proof (Hne id' j Eid Hj). by rewrite list_lookup_insert_ne, dict_at_pop_ne by done.
    + by apply flags_discard_ne.
    + by apply flags_discard_ne.
Qed.

(** ** Moving a request into a hole *)

(** What [move_request] leaves. *)
Record moved (b b' : InputBatch) (src tgt : nat) : Prop := {
  mv_inv : batch_inv b';
  mv_dims : dims b' = dims b;
  mv_ids : forall j, _req_ids b' !! j = if decide (j = src) then Some None else if decide (j = tgt) then _req_ids b !! src else _req_ids b !! j;
  mv_len : length (_req_ids b') = length (_req_ids b);
  mv_dom : dom (req_id_to_index b') = dom (req_id_to_index b);
  mv_view : forall id, view b' id = view b id
}.

Lemma move_key_tgt {A} src tgt (m : gmap nat A) : src <> tgt -> m !! tgt = None -> move_key src tgt m !! tgt = m !! src.
Proof. intros Hne Ht. unfold move_key. destruct (m !! src); [by rewrite lookup_insert_eq|done]. Qed.

Lemma move_key_src {A} src tgt (m : gmap nat A) : src <> tgt -> move_key src tgt m !! src = None.
Proof. intros Hne. unfold move_key. destruct (m !! src) eqn:E; [by rewrite lookup_insert_ne, lookup_delete_eq|done]. Qed.

Lemma move_key_ne {A} src tgt j (m : gmap nat A) : j <> src -> j <> tgt -> move_key src tgt m !! j = m !! j.
Proof. intros Hs Ht. unfold move_key. destruct (m !! src) eqn:E; [by rewrite lookup_insert_ne, lookup_delete_ne|done]. Qed.

Definition move_dicts (src tgt : nat) (d : IndexDicts) : IndexDicts :=
  mkIndexDicts (move_key src tgt (min_tokens_at d)) (move_key src tgt (generators d)) (move_key src tgt (bad_words_at d)).

Lemma dict_at_move src tgt j d : src <> tgt -> dict_at tgt d = (None, None, None) ->
  dict_at j (move_dicts src tgt d) = if decide (j = src) then (None, None, None)
    else if decide (j = tgt) then dict_at src d else dict_at j d.
Proof.
  intros Hne [= H1 H2 H3]. unfold dict_at, move_dicts. simpl. repeat case_decide; subst.
  - by rewrite !move_key_src.
  - by rewrite !move_key_tgt.
  - by rewrite !move_key_ne.
Qed.

Lemma copy_slot_ok src tgt : length (token_ids_cpu src) = length (token_ids_cpu tgt) ->
  exists s, copy_slot src tgt = Ok s /\ length (token_ids_cpu s) = length (token_ids_cpu tgt) /\
    slot_row s = slot_row src /\ slot_tokens [] s = slot_tokens [] src /\ request_lora_mapping s = request_lora_mapping src.
Proof.
  intros Hl. unfold copy_slot. set (n := Z.to_nat (num_tokens src)).
  assert (Hw : (0 + length (take n (token_ids_cpu src)) <= length (token_ids_cpu tgt))%nat) by (rewrite length_take; lia).
  pose proof (write_slice_ok _ _ _ Hw) as E. rewrite E. eexists. split; [done|].
  split; [exact (write_slice_length _ _ _ _ E)|]. split; [|done].
  unfold slot_row. change (num_tokens (slot_tokens ?r src)) with (num_tokens src). fold n.
  change (token_ids_cpu (slot_tokens ?r src)) with r. rewrite take_0, (app_nil_l _), Nat.add_0_l.
  rewrite length_take, take_app, take_take, Nat.min_id, length_take.
  destruct (decide (n <= length (token_ids_cpu src))%nat).
  - rewrite Nat.min_l, Nat.sub_diag, take_0, app_nil_r by done. done.
  - rewrite drop_ge, take_nil, app_nil_r by lia. done.
Qed.

Lemma wp_move_request src tgt b P : batch_inv b -> used b src -> (tgt < length (_req_ids b))%nat -> ~ used b tgt ->
  (forall b', moved b b' src tgt -> P tt b') -> wp (move_request src tgt) P b.
Proof.
  intros Hb [id Hid] Ht Hnt HP. assert (Hne : src <> tgt) by (intros ->; apply Hnt; by exists id).
  assert (Hix : req_id_to_index b !! id = Some src) by by apply (bi_index b Hb).
  destruct (inv_slot b id src Hb Hix) as (s & Hs & Hlen & Hmax & _). pose proof (bi_len b Hb) as Hlm.
  destruct (lookup_lt_is_Some_2 (slots b) tgt) as [st Hst]; [rewrite (bi_slots b Hb); lia|].
  unfold move_request. wp_steps. eapply wp_lift; [by apply py_get_Some|]. wp_steps. rewrite (bi_outs b Hb).
  eapply wp_lift; [by apply py_get_Some|]. wp_steps.
  eapply wp_lift; [by apply py_set_ok|]. wp_steps. eapply wp_lift; [apply py_set_ok; by rewrite length_insert|]. wp_steps.
  eapply wp_lift; [by apply py_set_ok|]. wp_steps. eapply wp_lift; [apply py_set_ok; by rewrite length_insert|]. wp_steps.
  eapply wp_lift; [by apply py_get_Some|]. wp_steps. set (ids := <[src := None]> _). set (b1 := set_ids ids ids _ b).
  rewrite <- (set_slots_self b1). change (slots b1) with (slots b).
  destruct (copy_slot_ok s st) as (s' & Ecopy & Ls & Erow & Eval & Elora); [by rewrite (bi_rows b Hb _ _ Hs), (bi_rows b Hb _ _ Hst)|].
  eapply wp_upd_slot; [done|exact Ecopy|]. wp_steps.
  eapply (wp_multi_move_row (max_num_reqs b)); [apply (bi_table b Hb)|lia|lia|]. intros ts Hts Wts Bts. wp_steps.
  fold (move_dicts src tgt (dicts b)).
  destruct (lookup_lt_is_Some_2 (logit_biases b) src) as [bias Hbias]; [rewrite (bi_biases b Hb); lia|].
  eapply wp_lift; [by apply py_get_Some|]. wp_steps. eapply wp_lift; [apply py_set_ok; rewrite (bi_biases b Hb); lia|]. wp_steps.
  match goal with |- wp _ _ (set_biases ?l (set_reqs ?r ?d (set_table ?t (set_slots ?sl b1)))) =>
    set (bs := l); set (b2 := set_biases bs (set_reqs r d (set_table t (set_slots sl b1)))) end.
  match goal with |- context [match ?x with Some _ => _ | None => _ end] => change x with (allowed_token_ids_mask b) end.
  apply (wp_mono _ (fun _ b3 => exists m, b3 = set_mask m b2 /\ forall l, m = Some l -> length l = max_num_reqs b)).
  { destruct (allowed_token_ids_mask b) as [mask|] eqn:Em.
    - pose proof (bi_mask b Hb _ Em). destruct (lookup_lt_is_Some_2 mask src) as [row Hrow]; [lia|].
      eapply wp_bind, wp_lift; [by apply py_get_Some|]. eapply wp_bind, wp_lift; [apply py_set_ok; lia|]. wp_steps.
      eexists. split; [done|]. intros l [= <-]. by rewrite length_insert.
    - wp_steps. exists None. split; [|done]. unfold b2, set_mask, set_biases; simpl. by rewrite Em. }
  intros [] b3 (m & -> & Hm). apply HP.
  assert (Hids : forall j, ids !! j = if decide (j = src) then Some None else if decide (j = tgt) then Some (Some id) else _req_ids b !! j).
  { intros j. unfold ids. repeat case_decide; subst;
      [by rewrite list_lookup_insert_eq by (by rewrite length_insert)|rewrite list_lookup_insert_ne by done..].
    - by rewrite list_lookup_insert_eq.
    - by rewrite list_lookup_insert_ne. }
  assert (Hother : forall id' j, id' <> id -> req_id_to_index b !! id' = Some j -> j <> src /\ j <> tgt).
  { intros id' j Hne' Hj. split; [intros ->; by apply Hne', (index_inj b id' id src)|].
    intros ->. by apply (not_used_index b id' tgt Hb). }
  assert (Hdict : forall j, dict_at j (move_dicts src tgt (dicts b)) = if decide (j = src) then (None, None, None)
    else if decide (j = tgt) then dict_at src (dicts b) else dict_at j (dicts b)).
  { intros j. apply dict_at_move; [done|]. by apply (bi_dicts b Hb). }
  assert (Hlids : length ids = length (_req_ids b)) by (unfold ids; by rewrite !length_insert).
  assert (Hlook : forall id' j, <[id := tgt]> (req_id_to_index b) !! id' = Some j <-> ids !! j = Some (Some id')).
  { intros id' j. rewrite Hids. destruct (decide (id' = id)) as [->|Hid'].
    - rewrite lookup_insert_eq. repeat case_decide; subst; [by split; [intros [=]|]|done|].
      split; [congruence|]. intros Hj%(bi_index b Hb). congruence.
    - rewrite lookup_insert_ne by done. rewrite (bi_index b Hb). split.
      + intros Hj. destruct (Hother id' j Hid') as [? ?]; [by apply (bi_index b Hb)|]. by rewrite !decide_False.
      + repeat case_decide; [done|congruence|done]. }
  assert (Hused : forall j, ~ used (set_mask m b2) j -> dict_at j (move_dicts src tgt (dicts b)) = (None, None, None)).
  { intros j Hj. rewrite Hdict. repeat case_decide; [done|subst; exfalso; apply Hj; exists id; cbn; by rewrite Hids, decide_False, decide_True|].
    apply (bi_dicts b Hb). intros [x Hx]. apply Hj. exists x. cbn. by rewrite Hids, !decide_False. }
  split; try done.
  - split; try done; cbn.
    + rewrite length_insert. apply Hb.
    + intros j s'' [(<- & <- & _)|[_ Hj]]%list_lookup_insert_Some; [rewrite Ls|]; by eapply bi_rows.
    + by rewrite Hlids.
    + intros id' Hn. apply (bi_flags b Hb). by apply lookup_insert_None in Hn as [Hn _].
    + intros id' j s''. destruct (decide (id' = id)) as [->|Hid'].
      * rewrite lookup_insert_eq. intros [= <-]. rewrite list_lookup_insert_eq by (rewrite (bi_slots b Hb); lia).
        intros [= <-]. rewrite Elora. by apply (bi_lora b Hb id src).
      * rewrite lookup_insert_ne by done. intros Hj. destruct (Hother id' j Hid' Hj). rewrite list_lookup_insert_ne by done.
        by apply (bi_lora b Hb id' j).
    + unfold bs. rewrite length_insert. apply Hb.
  - exact (f_equal (pair (max_num_reqs b, max_model_len b, vocab_size b)) Wts).
  - intros j. cbn. by rewrite Hids, Hid.
  - cbn. rewrite dom_insert_L. apply (subseteq_union_1_L). apply singleton_subseteq_l, elem_of_dom. by eexists.
  - intros id'. destruct (decide (id' = id)) as [->|Hid'].
    + rewrite (view_at b id src s) by done.
      rewrite (view_at _ id tgt s');
        [|apply lookup_insert_eq|cbn; by rewrite list_lookup_insert_eq by (rewrite (bi_slots b Hb); lia)].
      unfold row_at. cbn. rewrite Bts, decide_True, Hdict, decide_False, decide_True, Erow, Eval by done. done.
    + apply view_frame; [cbn; by rewrite lookup_insert_ne| |done..].
      intros j Hj. destruct (Hother id' j Hid' Hj). cbn.
      by rewrite list_lookup_insert_ne, Bts, Hdict, !decide_False by done.
Qed.

(** ** Condensing *)

(** [h] lists the holes. *)
Definition holes (b : InputBatch) (h : list nat) : Prop := NoDup h /\ forall i, i ∈ h <-> _req_ids b !! i = Some None.

Lemma count_holes {A} (l : list (option A)) (h : list nat) : NoDup h -> (forall i, i ∈ h <-> l !! i = Some None) ->
  (length (omap (M := list) id l) + length h = length l)%nat.
Proof.
  revert h. induction l as [|o l IH] using rev_ind; intros h Hnd Hh.
  { destruct h as [|i h]; [done|]. specialize (proj1 (Hh i) ltac:(set_solver)). done. }
  rewrite omap_app, !length_app. assert (Hlast : (l ++ [o]) !! length l = Some o) by (rewrite lookup_app_r by lia; by rewrite Nat.sub_diag).
  assert (Hlt : forall i, i <> length l -> (l ++ [o]) !! i = l !! i).
  { intros i Hi. destruct (decide (i < length l)%nat); [by rewrite lookup_app_l|].
    rewrite !lookup_ge_None_2; [done|..]; rewrite ?length_app; simpl; lia. }
  destruct o as [x|]; simpl.
  - rewrite <- (IH h Hnd); [lia|]. intros i. rewrite Hh. destruct (decide (i = length l)) as [->|Hi]; [|by rewrite Hlt].
    rewrite Hlast, lookup_ge_None_2 by lia. split; discriminate.
  - assert (Hin : length l ∈ h) by by apply Hh. apply elem_of_Permutation in Hin as [h' Hp].
    rewrite Hp in Hnd. apply NoDup_cons in Hnd as [Hni Hnd]. rewrite <- (IH h' Hnd); [rewrite Hp; simpl; lia|].
    intros i. destruct (decide (i = length l)) as [->|Hi].
    + rewrite lookup_ge_None_2 by lia. split; [done|discriminate].
    + rewrite <- Hlt, <- Hh, Hp, elem_of_cons by done. naive_solver.
Qed.

Lemma holes_count b h : batch_inv b -> holes b h -> (num_reqs b + length h = length (_req_ids b))%nat.
Proof. intros Hb [Hnd Hh]. rewrite num_reqs_count by done. by apply count_holes. Qed.

Lemma hole_used b i : (i < length (_req_ids b))%nat -> _req_ids b !! i = Some None <-> ~ used b i.
Proof.
  intros Hi. destruct (lookup_lt_is_Some_2 _ _ Hi) as [[x|] Hx]; unfold used; rewrite Hx; [|naive_solver].
  split; [done|]. intros Hn. exfalso. eauto.
Qed.

(** What [condense] keeps: the rows of the requests and the sizes. *)
Record same_rows (b b' : InputBatch) : Prop := {
  sr_inv : batch_inv b';
  sr_dims : dims b' = dims b;
  sr_dom : dom (req_id_to_index b') = dom (req_id_to_index b);
  sr_view : forall id, view b' id = view b id
}.

Lemma same_rows_refl b : batch_inv b -> same_rows b b.
Proof. intros Hb. by split. Qed.

Lemma same_rows_trans b1 b2 b3 : same_rows b1 b2 -> same_rows b2 b3 -> same_rows b1 b3.
Proof.
  intros [? D1 D2 V1] [H D3 D4 V2]. split; [done|by rewrite D3|by rewrite D4|]. intros id. by rewrite V2.
Qed.

Lemma same_rows_num b b' : same_rows b b' -> num_reqs b' = num_reqs b.
Proof. intros H. unfold num_reqs. by rewrite <- !size_dom, (sr_dom _ _ H). Qed.

Lemma moved_same_rows b b' src tgt : moved b b' src tgt -> same_rows b b'.
Proof. intros []. by split. Qed.

(** The loop: no request at [top] or after, and [h] (descending) lists the
    holes before. *)
Definition condensing (top : nat) (h : list nat) (b : InputBatch) : Prop :=
  StronglySorted gt h /\ (top <= length (_req_ids b))%nat /\ (forall i, (i < top)%nat -> ~ used b i <-> i ∈ h) /\
  (forall i, (top <= i)%nat -> ~ used b i).

Lemma lower_top_spec top h b : condensing top h b ->
  condensing (lower_top top h) h b /\ (lower_top top h = 0%nat \/ used b (lower_top top h - 1)).
Proof.
  induction top as [|last IH]; intros Hc; [by split; [|left]|]. cbn [lower_top]. pose proof Hc as (Hs & Hl & Hlt & Hge).
  case_decide as Hd.
  - apply IH. split; [done|]. split; [lia|]. split; [intros i Hi; apply Hlt; lia|]. intros i Hi.
    destruct (decide (i = last)) as [->|]; [apply Hlt; [lia|done]|apply Hge; lia].
  - split; [done|]. right. rewrite Nat.sub_succ, Nat.sub_0_r. destruct (lookup_lt_is_Some_2 (_req_ids b) last) as [[x|] Hx]; [lia|by exists x|].
    exfalso. apply Hd, Hlt; [lia|]. intros [x Hx']. congruence.
Qed.

(** Once no hole is left below [top], the requests are a prefix. *)
Definition packed (b : InputBatch) : Prop := exists top, (top <= length (_req_ids b))%nat /\ forall i, used b i <-> (i < top)%nat.

Lemma used_dec b i : used b i \/ ~ used b i.
Proof. unfold used. destruct (_req_ids b !! i) as [[x|]|]; [left; by exists x|right..]; intros [x [=]]. Qed.

Lemma condensing_packed top h b : condensing top h b -> (forall i, i ∈ h -> (top <= i)%nat) -> packed b.
Proof.
  intros (_ & Hl & Hlt & Hge) Hh. exists top. split; [done|]. intros i. split.
  - intros Hu. destruct (decide (i < top)%nat); [done|]. exfalso. apply (Hge i); [lia|done].
  - intros Hi. destruct (used_dec b i) as [|Hn]; [done|]. apply Hlt, Hh in Hn; lia.
Qed.

Lemma last_smallest (h : list nat) e : StronglySorted gt h -> last h = Some e ->
  (forall i, i ∈ h -> (e <= i)%nat) /\ StronglySorted gt (removelast h) /\ (forall i, i ∈ removelast h <-> i ∈ h /\ i <> e).
Proof.
  intros Hs [h' ->]%last_Some. rewrite removelast_last.
  assert (Hgt : forall i, i ∈ h' -> (e < i)%nat).
  { induction h' as [|x h' IH]; intros i; [by intros []%not_elem_of_nil|]. inversion Hs as [|? ? Hs' Hx]; subst.
    intros [->|Hi]%elem_of_cons; [|by apply IH]. rewrite Forall_forall in Hx. apply Hx. set_solver. }
  split_and!.
  - intros i [Hi| ->%list_elem_of_singleton]%elem_of_app; [|done]. apply Hgt in Hi. lia.
  - clear -Hs. induction h' as [|x h' IH]; [constructor|]. inversion Hs as [|? ? Hs' Hx]; subst. constructor; [by apply IH|].
    by apply Forall_app in Hx as [].
  - intros i. rewrite elem_of_app, list_elem_of_singleton. split; [|naive_solver]. intros Hi. split; [by left|].
    apply Hgt in Hi. lia.
Qed.

Lemma wp_condense_loop b0 n top h b P : same_rows b0 b -> condensing top h b -> length h = n ->
  (forall b', same_rows b0 b' -> packed b' -> P tt b') -> wp (condense_loop n top h) P b.
Proof.
  intros Hb. revert top h b Hb. induction n as [|n IH]; intros top h b Hb Hc Hn HP.
  { destruct h; [|done]. wp_steps. apply HP; [done|]. eapply condensing_packed; [done|]. by intros i []%not_elem_of_nil. }
  destruct (lower_top_spec top h b Hc) as [Hc' Htop]. cbn [condense_loop]. set (t := lower_top top h) in *.
  destruct (last h) as [e|] eqn:Ee; [|by apply last_None in Ee; subst].
  pose proof Hc' as (Hs & Hl & Hlt & Hge). destruct (last_smallest h e Hs Ee) as (Hmin & Hs' & Hrem).
  assert (Heh : e ∈ h) by (apply last_Some_elem_of; done).
  destruct (Nat.leb_spec t (S e)) as [Hle|Hgt].
  - wp_steps. apply HP; [done|]. eapply condensing_packed; [done|]. intros i Hi. apply Hmin in Hi as Hei.
    destruct (decide (t <= i)%nat); [done|]. exfalso. assert (i = t - 1)%nat as -> by lia.
    destruct Htop as [|Hu]; [lia|]. apply (Hlt (t - 1)%nat); [lia|done|done].
  - destruct Htop as [|Hu]; [lia|]. assert (Hne : ~ used b e) by (apply Hlt; [lia|done]). apply wp_bind.
    eapply wp_move_request; [apply Hb|done|lia|done|]. intros b' Hm. apply (IH (t - 1)%nat (removelast h)).
    + eapply same_rows_trans; [done|by eapply moved_same_rows].
    + assert (Hue : forall i, used b' i <-> (i = e \/ used b i) /\ i <> (t - 1)%nat).
      { intros i. unfold used. rewrite (mv_ids _ _ _ _ Hm). destruct Hu as [x Hx]. repeat case_decide; subst; [naive_solver| |naive_solver].
        split; [naive_solver|]. intros _. by exists x. }
      split; [done|]. rewrite (mv_len _ _ _ _ Hm). split; [lia|]. split.
      * intros i Hi. rewrite Hue, Hrem, <- (Hlt i) by lia. destruct (used_dec b i); destruct (decide (i = e)); subst; naive_solver lia.
      * intros i Hi. rewrite Hue. intros [[->|Hu'] Hit]; [lia|]. apply (Hge i); [lia|done].
    + apply last_Some in Ee as [h' ->]. rewrite removelast_last. rewrite length_app in Hn. simpl in Hn. lia.
    + done.
Qed.

Lemma packed_num_reqs b top : batch_inv b -> (top <= length (_req_ids b))%nat -> (forall i, used b i <-> (i < top)%nat) -> num_reqs b = top.
Proof.
  intros Hb Hl Hu. rewrite num_reqs_count by done. rewrite <- (take_drop top (_req_ids b)), omap_app, length_app.
  assert (Hd : omap (M := list) id (drop top (_req_ids b)) = []).
  { assert (Hn : forall i x, drop top (_req_ids b) !! i = Some x -> x = None).
    { intros i [x|] Hx; [|done]. rewrite lookup_drop in Hx. exfalso. assert (top + i < top)%nat by (apply Hu; by exists x). lia. }
    clear -Hn. induction (drop top (_req_ids b)) as [|o l IH]; [done|]. rewrite (Hn 0%nat o eq_refl). simpl. apply IH.
    intros i x Hx. by apply (Hn (S i)). }
  rewrite Hd, omap_length_all, length_take; simpl; [lia|]. intros i Hi. rewrite length_take in Hi. rewrite lookup_take_lt by lia.
  apply Hu. lia.
Qed.

(** Trimming the lists of a packed batch. *)
Lemma trim_packed b : batch_inv b -> packed b ->
  let b' := set_ids (take (num_reqs b) (_req_ids b)) (take (num_reqs b) (req_output_token_ids b)) (req_id_to_index b) b in
  same_rows b b' /\ dense b'.
Proof.
  intros Hb (top & Hl & Hu). rewrite (packed_num_reqs b top) by done. intros b'.
  assert (Hu' : forall i, used b' i <-> used b i).
  { intros i. unfold used at 1. subst b'. simpl. destruct (decide (i < top)%nat); [by rewrite lookup_take_lt|].
    rewrite lookup_take_ge, Hu by lia. split; [by intros [x [=]]|lia]. }
  split; [split; try done; split; try apply Hb; simpl|].
  - rewrite length_take. pose proof (bi_len b Hb). lia.
  - by rewrite (bi_outs b Hb).
  - intros id i. rewrite (bi_index b Hb). destruct (decide (i < top)%nat); [by rewrite lookup_take_lt|].
    rewrite lookup_take_ge by lia. split; [|done]. intros Hid. exfalso. assert (i < top)%nat by (apply Hu; by exists id). lia.
  - intros i. rewrite Hu'. apply Hb.
  - intros i Hi. apply Hu', Hu. subst b'. simpl in Hi. rewrite length_take in Hi. lia.
Qed.

Lemma wp_condense h b P : batch_inv b -> holes b h -> StronglySorted gt h ->
  (forall b', same_rows b b' -> dense b' -> P tt b') -> wp (condense h) P b.
Proof.
  intros Hb Hh Hs HP. unfold condense. wp_steps. destruct (Nat.eqb_spec (num_reqs b) 0) as [E0|E0].
  - wp_steps. assert (He : req_id_to_index b = ∅) by by apply map_size_empty_inv in E0.
    apply HP; [|intros i Hi; simpl in Hi; lia]. split; try done. split; try apply Hb; simpl; [lia|done| |].
    + intros id i. rewrite He, lookup_empty. split; [done|]. by rewrite lookup_nil.
    + intros i _. apply (bi_dicts b Hb). intros [id Hid%(bi_index b Hb)]. by rewrite He in Hid.
  - pose proof (holes_count b h Hb Hh) as Hc. wp_steps. eapply (wp_condense_loop b); [by apply same_rows_refl| |done|].
    + split; [done|]. split; [lia|]. rewrite Hc. split.
      * intros i Hi. rewrite <- hole_used by done. symmetry. apply Hh.
      * intros i Hi [x Hx%lookup_lt_Some]. lia.
    + intros b' Hb' Hp. wp_steps. destruct (trim_packed b' (sr_inv _ _ Hb') Hp) as [H1 H2].
      apply HP; [|done]. by eapply same_rows_trans.
Qed.

(** ** Exchanging two requests *)

Lemma swap_dict_lookup {A} k1 k2 j (m : gmap nat A) : k1 <> k2 ->
  swap_dict_values k1 k2 m !! j = if decide (j = k1) then m !! k2 else if decide (j = k2) then m !! k1 else m !! j.
Proof.
  intros Hne. unfold swap_dict_values.
  repeat case_decide; subst; destruct (m !! k1) eqn:E1, (m !! k2) eqn:E2; simplify_map_eq; done.
Qed.

Lemma swap_list_spec {A} i1 i2 (l : list A) : (i1 < length l)%nat -> (i2 < length l)%nat -> i1 <> i2 ->
  exists l', swap_list i1 i2 l = Ok l' /\ length l' = length l /\
    forall j, l' !! j = if decide (j = i1) then l !! i2 else if decide (j = i2) then l !! i1 else l !! j.
Proof.
  intros H1 H2 Hne. destruct (lookup_lt_is_Some_2 l i1 H1) as [x1 E1]. destruct (lookup_lt_is_Some_2 l i2 H2) as [x2 E2].
  exists (<[i2 := x1]> (<[i1 := x2]> l)). unfold swap_list. rewrite (py_get_Some _ _ _ E1), (py_get_Some _ _ _ E2).
  split; [done|]. split; [by rewrite !length_insert|]. intros j. rewrite E1, E2. repeat case_decide; subst.
  - by rewrite list_lookup_insert_ne, list_lookup_insert_eq.
  - by rewrite list_lookup_insert_eq by (by rewrite length_insert).
  - by rewrite !list_lookup_insert_ne.
Qed.

Lemma swap_rows_ok i1 i2 l : (i1 < length l)%nat -> (i2 < length l)%nat ->
  exists l', swap_rows i1 i2 l = Ok l' /\ length l' = length l.
Proof.
  intros H1 H2. unfold swap_rows. destruct (lookup_lt_is_Some_2 l i2 H2) as [x2 E2]. rewrite (py_get_Some _ _ _ E2).
  cbn [mbind result_mbind]. rewrite py_set_ok by done. cbn [mbind result_mbind].
  rewrite (py_get_Some _ _ x2) by by rewrite list_lookup_insert_eq. cbn [mbind result_mbind].
  rewrite py_set_ok by by rewrite length_insert. eexists. split; [done|]. by rewrite !length_insert.
Qed.

(** What [swap_states] leaves. *)
Record swapped (b b' : InputBatch) (i1 i2 : nat) : Prop := {
  sw_rows : same_rows b b';
  sw_len : length (_req_ids b') = length (_req_ids b);
  sw_ids : forall j, _req_ids b' !! j =
    if decide (j = i1) then _req_ids b !! i2 else if decide (j = i2) then _req_ids b !! i1 else _req_ids b !! j;
  sw_slots : forall j, slots b' !! j =
    if decide (j = i1) then slots b !! i2 else if decide (j = i2) then slots b !! i1 else slots b !! j
}.

(** The position of a request after the exchange. *)
Definition other (i1 i2 j : nat) : nat := if decide (j = i1) then i2 else if decide (j = i2) then i1 else j.

Lemma other_invol i1 i2 j : other i1 i2 (other i1 i2 j) = j.
Proof. unfold other. repeat case_decide; congruence. Qed.

Lemma other_lookup {A} i1 i2 (l : list A) j :
  l !! other i1 i2 j = if decide (j = i1) then l !! i2 else if decide (j = i2) then l !! i1 else l !! j.
Proof. unfold other. by repeat case_decide. Qed.

Lemma wp_swap_states i1 i2 b P : batch_inv b -> used b i1 -> used b i2 -> i1 <> i2 ->
  (forall b', swapped b b' i1 i2 -> P tt b') -> wp (swap_states i1 i2) P b.
Proof.
  intros Hb [id1 H1] [id2 H2] Hne HP.
  assert (X1 : req_id_to_index b !! id1 = Some i1) by by apply (bi_index b Hb).
  assert (X2 : req_id_to_index b !! id2 = Some i2) by by apply (bi_index b Hb).
  assert (Hid : id1 <> id2) by congruence.
  destruct (inv_slot b id1 i1 Hb X1) as (s1 & S1 & L1 & M1 & _). destruct (inv_slot b id2 i2 Hb X2) as (s2 & S2 & L2 & M2 & _).
  unfold swap_states. wp_steps. eapply wp_lift; [by apply py_get_Some|]. wp_steps. eapply wp_lift; [by apply py_get_Some|]. wp_steps.
  destruct (swap_list_spec i1 i2 (_req_ids b)) as (ids & Eids & Lids & Hids); [done..|].
  eapply wp_lift; [exact Eids|]. wp_steps. rewrite (bi_outs b Hb). eapply wp_lift; [exact Eids|]. wp_steps.
  rewrite X1, X2. wp_steps.
  destruct (swap_list_spec i1 i2 (slots b)) as (sl & Esl & Lsl & Hsl); [rewrite (bi_slots b Hb); lia..|done|].
  eapply wp_lift; [exact Esl|]. wp_steps.
  destruct (swap_list_spec i1 i2 (logit_biases b)) as (bs & Ebs & Lbs & Hbs); [rewrite (bi_biases b Hb); lia..|done|].
  eapply wp_lift; [exact Ebs|]. wp_steps.
  match goal with |- wp _ _ ?x => set (b1 := x) end.
  match goal with |- context [match ?x with Some _ => _ | None => _ end] => change x with (allowed_token_ids_mask b) end.
  apply (wp_mono _ (fun _ b2 => exists m, b2 = set_mask m b1 /\ forall l, m = Some l -> length l = max_num_reqs b)).
  { destruct (allowed_token_ids_mask b) as [mask|] eqn:Em.
    - pose proof (bi_mask b Hb _ Em) as Hm. destruct (swap_rows_ok i1 i2 mask) as (mask' & E & Lm); [lia..|].
      eapply wp_bind, wp_lift; [exact E|]. wp_steps. eexists. split; [done|]. intros l [= <-]. by rewrite Lm.
    - wp_steps. exists None. split; [|done]. unfold b1, set_mask, set_biases; simpl. by rewrite Em. }
  intros [] b2 (m & -> & Hm). apply wp_zoom. eapply (wp_multi_swap_row (max_num_reqs b)); [apply (bi_table b Hb)|lia|lia|].
  intros ts Hts Wts Bts. apply HP.
  assert (Hix : forall id, req_id_to_index (set_table ts (set_mask m b1)) !! id = other i1 i2 <$> req_id_to_index b !! id).
  { intros id. simpl. unfold other. destruct (decide (id = id2)) as [->|N2]; [rewrite lookup_insert_eq, X2; simpl; repeat case_decide; congruence|].
    rewrite lookup_insert_ne by done. destruct (decide (id = id1)) as [->|N1]; [rewrite lookup_insert_eq, X1; simpl; by rewrite decide_True|].
    rewrite lookup_insert_ne by done. destruct (req_id_to_index b !! id) as [j|] eqn:Ej; [|done]. simpl.
    rewrite !decide_False; [done|..]; intros ->; [by apply N2, (index_inj b id id2 i2)|by apply N1, (index_inj b id id1 i1)]. }
  assert (Hidl : forall j, ids !! j = _req_ids b !! other i1 i2 j) by (intros j; by rewrite Hids, other_lookup).
  assert (Hsll : forall j, sl !! j = slots b !! other i1 i2 j) by (intros j; by rewrite Hsl, other_lookup).
  assert (Hdict : forall j, dict_at j (dicts b1) = dict_at (other i1 i2 j) (dicts b)).
  { intros j. unfold dict_at, other. simpl. rewrite !swap_dict_lookup by done. by repeat case_decide. }
  assert (Htab : forall j, multi_blocks ts j = multi_blocks (block_table b) (other i1 i2 j)).
  { intros j. unfold other. rewrite Bts. change (block_table (set_mask m b1)) with (block_table b). repeat case_decide; congruence. }
  assert (Hused : forall j, used (set_table ts (set_mask m b1)) j <-> used b (other i1 i2 j)).
  { intros j. unfold used. simpl. by rewrite Hidl. }
  assert (Hinv : batch_inv (set_table ts (set_mask m b1))).
  { split; try done; try apply Hb.
    - simpl. rewrite Lsl. apply Hb.
    - intros j s. simpl. rewrite Hsll. apply (bi_rows b Hb).
    - simpl. rewrite Lids. apply Hb.
    - intros id j. rewrite Hix. simpl. rewrite Hidl, fmap_Some, <- (bi_index b Hb). split.
      + intros (k & Hk & ->). by rewrite other_invol.
      + intros Hj. exists (other i1 i2 j). by rewrite other_invol.
    - intros id. rewrite Hix, fmap_None. apply (bi_flags b Hb).
    - intros j. rewrite Hused. change (dicts (set_table ts (set_mask m b1))) with (dicts b1). rewrite Hdict. apply (bi_dicts b Hb).
    - intros id j s. rewrite Hix, fmap_Some. intros (k & Hk & ->). simpl. rewrite Hsll, other_invol. by apply (bi_lora b Hb id).
    - simpl. rewrite Lbs. apply Hb. }
  split; [split; [done|..]|done..].
  - exact (f_equal (pair (max_num_reqs b, max_model_len b, vocab_size b)) Wts).
  - apply set_eq. intros id. rewrite !elem_of_dom, Hix. by rewrite fmap_is_Some.
  - intros id. unfold view. rewrite Hix. destruct (req_id_to_index b !! id) as [j|]; [|done]. cbn [fmap option_fmap option_map mbind option_bind].
    change (slots (set_table ts (set_mask m b1))) with sl. rewrite Hsll, other_invol. destruct (slots b !! j); [|done].
    cbn [mbind option_bind]. unfold row_at. change (block_table (set_table ts (set_mask m b1))) with ts.
    change (dicts (set_table ts (set_mask m b1))) with (dicts b1). by rewrite Htab, Hdict, other_invol.
Qed.

(** ** The operations on the map of rows *)

(** [add_request] puts a request that the arrays can hold, at a free
    position or at the end, without raising: the batch stays well formed, the
    request's row holds exactly its tokens, its numbers, its sampling values, its
    blocks and its dict and set entries, and every other row is as before. *)
Theorem add_request_spec b c oi :
  batch_inv b -> fits b c -> free b (default (num_reqs b) oi) -> req_id_to_index b !! c_req_id c = None ->
  wp (add_request c oi) (fun _ b' => batch_inv b' /\ dims b' = dims b /\
    req_id_to_index b' !! c_req_id c = Some (default (num_reqs b) oi) /\
    forall id, view b' id = if decide (id = c_req_id c)
      then Some (row_of_request (vocab_size b) (length (block_table b)) c) else view b id) b.
Proof.
  intros Hb Hf Hi Hn. apply wp_batch_add; [done..|]. intros b' H. split; [apply H|]. split; [apply H|].
  split; [rewrite (ad_index _ _ _ _ H); apply lookup_insert_eq|apply H].
Qed.

(** [remove_request] never raises on a well-formed batch: an unknown id
    changes nothing; a known one leaves a hole at the position it returns, its
    row is gone, every other row and every adapter in use by others stays. *)
Theorem remove_request_spec b id : batch_inv b ->
  wp (remove_request id) (fun r b' => r = req_id_to_index b !! id /\ batch_inv b' /\ dims b' = dims b /\
    (forall id', view b' id' = if decide (id' = id) then None else view b id') /\
    match r with
    | None => b' = b
    | Some i => _req_ids b' = <[i := None]> (_req_ids b)
    end) b.
Proof.
  intros Hb. apply wp_remove_request; [done|..].
  - intros Hn. split_and!; [done..| |done]. intros id'. case_decide; [subst; by apply view_None|done].
  - intros i b' Hi H. split_and!; [done|apply H..].
Qed.

(** C26: [condense], given the holes in descending order, never raises and
    closes them: every position up to the number of requests is in use, the lists
    have that length, and no row changes. *)
Theorem condense_spec b h : batch_inv b -> holes b h -> StronglySorted gt h ->
  wp (condense h) (fun _ b' => batch_inv b' /\ dims b' = dims b /\ dense b' /\
    length (_req_ids b') = num_reqs b /\ forall id, view b' id = view b id) b.
Proof.
  intros Hb Hh Hs. apply wp_condense; [done..|]. intros b' H Hd. split_and!; [apply H|apply H|done| |apply H].
  rewrite <- (dense_num_reqs b'), (same_rows_num b b'); [done|done|apply H|done].
Qed.

(** [swap_states] exchanges two requests: their ids and their array
    elements change places, and every row is the one its request had. *)
Theorem swap_states_spec b i1 i2 : batch_inv b -> used b i1 -> used b i2 -> i1 <> i2 ->
  wp (swap_states i1 i2) (fun _ b' => batch_inv b' /\ dims b' = dims b /\
    _req_ids b' !! i1 = _req_ids b !! i2 /\ _req_ids b' !! i2 = _req_ids b !! i1 /\ forall id, view b' id = view b id) b.
Proof.
  intros Hb H1 H2 Hne. apply wp_swap_states; [done..|]. intros b' H. split_and!; try apply (sw_rows _ _ _ _ H).
  - by rewrite (sw_ids _ _ _ _ H), decide_True.
  - by rewrite (sw_ids _ _ _ _ H), decide_False, decide_True.
Qed.

(** ** What the rows do not cover: biases and masks *)

(** A request of three tokens with one block of size 4. *)
Definition sample_request (id : string) (bias : option (list (Z * Q))) (allowed : option (list Z)) : CachedRequestState :=
  mkCachedRequestState id [1; 2; 3] (mkSamplingParams None false None None false
    (mkSampling 1 1 0 0 0 0 1 None 0 ∅ None bias allowed None)) None [[1%nat]] 0 [] None.

(** The state an operation ends in. *)
Definition after {A} (m : MI A) (b : InputBatch) : InputBatch := match m b with Ret _ b' | Raise _ b' => b' end.

Definition sample_ops (ops : list (MI unit)) : MI unit := for_each (fun op => op) ops.

(** [condense] copies the bias of the request it moves and leaves it at the
    old position too, and [add_request] writes a bias only when there is one:
    request c asks for no bias and gets the bias of b. *)
Theorem condense_leaves_logit_bias : exists b,
  sample_ops [add_request (sample_request "a" None None) None; add_request (sample_request "b" (Some [(7, 100 # 1)]) None) None;
    remove_request "a";; mret tt; condense [0%nat]; add_request (sample_request "c" None None) None] (init_batch 2 16 10 [4]) = Ret tt b /\
  req_id_to_index b !! "c"%string = Some 1%nat /\ logit_biases b !! 1%nat = Some (Some [(7, 100 # 1)]).
Proof. eexists. split; [by vm_compute|]. split; by vm_compute. Qed.

(** [swap_states] exchanges two rows of the mask through views of them: both
    rows end as the second one, so request a, which may only use token 1, gets
    the mask of b, which may only use token 2. *)
Theorem swap_states_merges_masks : exists b m,
  sample_ops [add_request (sample_request "a" None (Some [1])) None; add_request (sample_request "b" None (Some [2])) None;
    swap_states 0 1] (init_batch 2 16 4 [4]) = Ret tt b /\
  req_id_to_index b !! "a"%string = Some 1%nat /\ allowed_token_ids_mask b = Some m /\
  m !! 0%nat = Some [true; true; false; true] /\ m !! 1%nat = Some [true; true; false; true].
Proof. eexists _, _. split; [by vm_compute|]. split_and!; by vm_compute. Qed.

(** ** Witnesses *)

Definition empty_batch : InputBatch := init_batch 2 16 10 [4].
Definition batch1 : InputBatch := after (add_request (sample_request "a" None None) None) empty_batch.
Definition batch2 : InputBatch := after (add_request (sample_request "b" None None) None) batch1.
Definition batch3 : InputBatch := after (remove_request "a") batch2.

Lemma after_wp {A} (m : MI A) (P : InputBatch -> Prop) b : wp m (fun _ => P) b -> P (after m b).
Proof. intros H. destruct (wp_elim _ _ _ H) as (a & b' & E & HP). unfold after. by rewrite E. Qed.

Lemma sample_fits id b : dims b = dims empty_batch -> fits b (sample_request id None None).
Proof.
  intros Hd. apply (fits_dims empty_batch); [done|]. split; [vm_compute; done| |done].
  intros [|g] w; [|by destruct g]. intros [= <-]. exists [1%nat]. split; [done|]. vm_compute. lia.
Qed.

Lemma empty_batch_free : free empty_batch (default (num_reqs empty_batch) None).
Proof. split; [vm_compute; lia|left; by vm_compute]. Qed.

Lemma batch1_added : added empty_batch batch1 (sample_request "a" None None) 0.
Proof.
  unfold batch1. apply after_wp, wp_batch_add;
    [apply init_batch_inv|by apply sample_fits|apply empty_batch_free|done|done].
Qed.

Lemma batch2_added : added batch1 batch2 (sample_request "b" None None) 1.
Proof.
  unfold batch2. apply after_wp, wp_batch_add;
    [apply batch1_added|apply sample_fits, batch1_added|split; [vm_compute; lia|left; by vm_compute]|by vm_compute|done].
Qed.

Lemma batch2_used i : (i < 2)%nat -> used batch2 i.
Proof. intros Hi. destruct i as [|[|i]]; [by exists "a"%string|by exists "b"%string|lia]. Qed.

Lemma batch3_removed : removed batch2 batch3 "a" 0.
Proof.
  unfold batch3. apply after_wp, wp_remove_request; [apply batch2_added|by vm_compute|].
  intros i b' Hi H. assert (i = 0%nat) as <- by (vm_compute in Hi; congruence). done.
Qed.

Lemma add_request_spec_witness : (0 < 1)%nat /\
  wp (add_request (sample_request "b" None None) None) (fun _ b' => batch_inv b' /\ dims b' = dims batch1 /\
    req_id_to_index b' !! "b"%string = Some (num_reqs batch1) /\
    forall id, view b' id = if decide (id = "b"%string)
      then Some (row_of_request (vocab_size batch1) (length (block_table batch1)) (sample_request "b" None None)) else view batch1 id) batch1.
Proof.
  split; [lia|]. apply (add_request_spec batch1 (sample_request "b" None None) None);
    [apply batch1_added|apply sample_fits, batch1_added|split; [vm_compute; lia|left; by vm_compute]|by vm_compute].
Defined.

Lemma remove_request_spec_witness : (0 < 1)%nat /\
  wp (remove_request "a") (fun r b' => r = req_id_to_index batch2 !! "a"%string /\ batch_inv b' /\ dims b' = dims batch2 /\
    (forall id', view b' id' = if decide (id' = "a"%string) then None else view batch2 id') /\
    match r with
    | None => b' = batch2
    | Some i => _req_ids b' = <[i := None]> (_req_ids batch2)
    end) batch2.
Proof. split; [lia|]. apply (remove_request_spec batch2 "a"), batch2_added. Defined.

Lemma condense_spec_witness : (0 < 1)%nat /\
  wp (condense [0%nat]) (fun _ b' => batch_inv b' /\ dims b' = dims batch3 /\ dense b' /\
    length (_req_ids b') = num_reqs batch3 /\ forall id, view b' id = view batch3 id) batch3.
Proof.
  split; [lia|]. apply (condense_spec batch3 [0%nat]); [apply batch3_removed| |by repeat constructor].
  split; [apply NoDup_singleton|]. intros i. rewrite list_elem_of_singleton.
  assert (E : _req_ids batch3 = [None; Some "b"%string]) by by vm_compute. rewrite E.
  destruct i as [|[|i]]; simpl; split; (done || congruence || lia).
Defined.

Lemma swap_states_spec_witness : (0 < 1)%nat /\
  wp (swap_states 0 1) (fun _ b' => batch_inv b' /\ dims b' = dims batch2 /\
    _req_ids b' !! 0%nat = _req_ids batch2 !! 1%nat /\ _req_ids b' !! 1%nat = _req_ids batch2 !! 0%nat /\
    forall id, view b' id = view batch2 id) batch2.
Proof. split; [lia|]. apply (swap_states_spec batch2 0 1); [apply batch2_added|apply batch2_used; lia..|lia]. Defined.
