(* ===== verification/ModelRunner.v ===== *)
(** The state of the HPU model runner
    ([src/vllm/v1/worker/hpu_model_runner.py]): the cached request states and
    the persistent batch, brought up to date with what the scheduler sends
    ([_update_states]), and the order decodes-then-prompts that a step needs. *)

From Stdlib Require Import ZArith QArith Lia.
From stdpp Require Import base strings numbers gmap list sorting.
From S2P Require Import Prelude.
From S2P Require Import KVBlock.
From S2P Require Import Sampling.
From S2P Require Import Request.
From S2P Require Import Scheduler.
From S2P Require Import BlockTable.
From S2P Require Import InputBatch.

Open Scope list_scope.
Open Scope Z_scope.

(** ** Data *)

Record Runner := mkRunner {
  requests : gmap string CachedRequestState;
  input_batch : InputBatch
}.

Definition set_requests (rs : gmap string CachedRequestState) (ru : Runner) : Runner := mkRunner rs (input_batch ru).
Definition set_batch (b : InputBatch) (ru : Runner) : Runner := mkRunner (requests ru) b.

Abbreviation MR := (M Runner).

(** ** [_update_states] *)

(** Removing requests that may be unknown ([checked = false]), or that are in
    the batch; the positions that became free. *)
Fixpoint remove_requests (checked : bool) (ids : list string) : MI (list nat) :=
  match ids with
  | [] => mret []
  | id :: ids' =>
      req_index ← remove_request id;
      py_assert (negb checked || bool_decide (is_Some req_index));;
      rest ← remove_requests checked ids';
      mret (match req_index with Some i => i :: rest | None => rest end)
  end.

(** The cached state of a new request; its generator is seeded when the request
    has a seed. *)
Definition new_state (d : NewRequestData) : CachedRequestState :=
  let p := sp_sampling (nr_sampling_params d) in
  mkCachedRequestState (nr_req_id d) (nr_prompt_token_ids d) (nr_sampling_params d)
    (if decide (sampling_type p = RANDOM_SEED) then seed p else None) (nr_block_ids d) (nr_num_computed_tokens d) []
    (nr_lora_request d).

(** [l[-n:]] for a positive [n]. *)
Definition last_n {A} (n : nat) (l : list A) : list A := drop (length l - n) l.

(** The sampled tokens that the runner does not have yet. *)
Definition missing_tokens (d : CachedRequestData) (c : CachedRequestState) : result (list Z) :=
  let num_new_tokens := cr_num_computed_tokens d + len (new_token_ids d) - c_num_tokens c in
  if num_new_tokens =? 1 then
    match last (new_token_ids d) with Some t => Ok [t] | None => Err IndexError end
  else if 0 <? num_new_tokens then Ok (last_n (Z.to_nat num_new_tokens) (new_token_ids d))
  else Ok [].

Definition with_computed (n : Z) (c : CachedRequestState) : CachedRequestState :=
  mkCachedRequestState (c_req_id c) (c_prompt_token_ids c) (c_sampling_params c) (c_generator c) (c_block_ids c) n
    (c_output_token_ids c) (c_lora_request c).

(** The blocks: [block_ids] is a list with one list of blocks per group, and the
    new lists go after those of the groups. *)
Definition update_state (d : CachedRequestData) (new : list Z) (c : CachedRequestState) : CachedRequestState :=
  mkCachedRequestState (c_req_id c) (c_prompt_token_ids c) (c_sampling_params c) (c_generator c)
    (if resumed_from_preemption d then new_block_ids d else c_block_ids c ++ new_block_ids d)
    (cr_num_computed_tokens d) (c_output_token_ids c ++ new) (c_lora_request c).

(** The arrays of a request that is in the batch. *)
Definition write_new (d : CachedRequestData) (s : Slot) : result Slot :=
  row ← write_slice (Z.to_nat (cr_num_computed_tokens d)) (new_token_ids d) (token_ids_cpu s);
  Ok (slot_nums (num_tokens s) (cr_num_computed_tokens d + len (new_token_ids d)) (num_prompt_tokens s)
    (num_computed_tokens_cpu s) (slot_tokens row s)).
Definition write_spec (d : CachedRequestData) (spec_token_ids : list Z) (s : Slot) : result Slot :=
  let end_token_index := cr_num_computed_tokens d + len (new_token_ids d) in
  row ← write_slice (Z.to_nat end_token_index) spec_token_ids (token_ids_cpu s);
  Ok (slot_nums (end_token_index + len spec_token_ids) (num_tokens_no_spec s) (num_prompt_tokens s)
    (num_computed_tokens_cpu s) (slot_tokens row s)).

Definition update_batch (d : CachedRequestData) (spec_token_ids : list Z) (i : nat) : MI unit :=
  upd_slot i (fun s => Ok (slot_nums (num_tokens s) (num_tokens_no_spec s) (num_prompt_tokens s) (cr_num_computed_tokens d) s));;
  zoom block_table set_table (multi_append_row (new_block_ids d) i);;
  upd_slot i (write_new d);;
  upd_slot i (write_spec d spec_token_ids).

(** One request that the scheduler knows the runner has; returned when it is
    to be added to the batch. *)
Definition update_cached (so : SchedulerOutput) (d : CachedRequestData) : MR (list string) :=
  ru ← get_state;
  let req_id := cr_req_id d in
  match requests ru !! req_id with
  | None => raise KeyError
  | Some c =>
      modify (set_requests (<[req_id := with_computed (cr_num_computed_tokens d) c]> (requests ru)));;
      new ← lift_result (missing_tokens d c);
      modify (set_requests (<[req_id := update_state d new c]> (requests ru)));;
      match InputBatch.req_id_to_index (input_batch ru) !! req_id with
      | None => mret [req_id]
      | Some i =>
          zoom input_batch set_batch (update_batch d (default [] (scheduled_spec_decode_tokens so !! req_id)) i);;
          mret []
      end
  end.

Fixpoint update_all (so : SchedulerOutput) (ds : list CachedRequestData) : MR (list string) :=
  match ds with
  | [] => mret []
  | d :: ds' => add ← update_cached so d; rest ← update_all so ds'; mret (add ++ rest)
  end.

(** Adding requests: the free positions are taken from the smallest (the last
    of the list), then the batch grows; the positions that stay free. *)
Fixpoint add_all (ids : list string) (removed_req_indices : list nat) : MR (list nat) :=
  match ids with
  | [] => mret removed_req_indices
  | id :: ids' =>
      ru ← get_state;
      match requests ru !! id with
      | None => raise KeyError
      | Some c =>
          zoom input_batch set_batch (InputBatch.add_request c (last removed_req_indices));;
          add_all ids' (removelast removed_req_indices)
      end
  end.

(** [sorted(l, reverse=True)] of distinct positions. *)
Definition sorted_desc (l : list nat) : list nat := rev (merge_sort le l).

(** [set_order] is the order in which a set of ids is iterated. *)
Definition _update_states (set_order : gset string -> list string) (so : SchedulerOutput) : MR bool :=
  let finished := set_order (out_finished_req_ids so) in
  modify (fun ru => set_requests (foldl (fun rs id => delete id rs) (requests ru) finished) ru);;
  removed1 ← zoom input_batch set_batch (remove_requests false finished);
  ru ← get_state;
  let unscheduled := dom (InputBatch.req_id_to_index (input_batch ru)) ∖ dom (num_scheduled_tokens so) in
  removed2 ← zoom input_batch set_batch (remove_requests true (set_order unscheduled));
  modify (fun ru => set_requests (foldl (fun rs d => <[nr_req_id d := new_state d]> rs) (requests ru) (scheduled_new_reqs so)) ru);;
  cached_to_add ← update_all so (scheduled_cached_reqs so);
  let req_ids_to_add := (nr_req_id <$> scheduled_new_reqs so) ++ cached_to_add in
  let removed := removed1 ++ removed2 in
  let batch_changed := (0 <? length removed)%nat || (0 <? length req_ids_to_add)%nat in
  rest ← add_all req_ids_to_add (sorted_desc removed);
  (if (0 <? length rest)%nat then zoom input_batch set_batch (condense rest) else mret tt);;
  mret batch_changed.

(** ** Decodes before prompts *)

(** A request whose prompt has not been computed. *)
Definition is_prompt (s : Slot) : bool := num_computed_tokens_cpu s <? num_prompt_tokens s.

Fixpoint find_first {A} (p : A -> bool) (l : list A) : option nat :=
  match l with
  | [] => None
  | x :: l' => if p x then Some O else S <$> find_first p l'
  end.
Fixpoint find_last {A} (p : A -> bool) (l : list A) : option nat :=
  match l with
  | [] => None
  | x :: l' => match find_last p l' with Some i => Some (S i) | None => if p x then Some O else None end
  end.

(** The loop swaps the first prompt with the last decode; [fuel] is one more
    than the number of requests. *)
Fixpoint decodes_first_loop (fuel n : nat) : MI unit :=
  match fuel with
  | O => mret tt
  | S fuel' =>
      b ← get_state;
      let row := take n (slots b) in
      match find_first is_prompt row, find_last (fun s => negb (is_prompt s)) row with
      | Some first_prompt_index, Some last_decode_index =>
          py_assert (negb (first_prompt_index =? last_decode_index)%nat);;
          if (last_decode_index <? first_prompt_index)%nat then mret tt
          else swap_states first_prompt_index last_decode_index;; decodes_first_loop fuel' n
      | _, _ => mret tt
      end
  end.

Definition ensure_decodes_first : MI unit :=
  b ← get_state;
  decodes_first_loop (S (num_reqs b)) (num_reqs b).

Record PromptDecodeInfo := mkPromptDecodeInfo {
  prompt_req_ids : list string;
  decode_req_ids : list string;
  prompt_scheduled_tokens : list Z
}.

(** The request at a position, with its arrays and the number of its scheduled
    tokens. *)
Definition request_at (so : SchedulerOutput) (b : InputBatch) (i : nat) : result (string * Slot * Z) :=
  o ← py_get (_req_ids b) i;
  match o with
  | None => Err AssertionError
  | Some id =>
      s ← py_get (slots b) i;
      match num_scheduled_tokens so !! id with Some n => Ok (id, s, n) | None => Err KeyError end
  end.

(** The decodes, up to the first prompt. *)
Fixpoint take_decodes (so : SchedulerOutput) (b : InputBatch) (ps : list nat) : result (list string) :=
  match ps with
  | [] => Ok []
  | i :: ps' =>
      x ← request_at so b i;
      let '(id, s, n) := x in
      if is_prompt s then Ok []
      else if n =? 1 then rest ← take_decodes so b ps'; Ok (id :: rest)
      else Err AssertionError
  end.

Fixpoint take_prompts (so : SchedulerOutput) (ru : Runner) (ps : list nat) : result (list string * list Z) :=
  match ps with
  | [] => Ok ([], [])
  | i :: ps' =>
      x ← request_at so (input_batch ru) i;
      let '(id, s, n) := x in
      if negb (is_prompt s) then Err AssertionError else
      match requests ru !! id with
      | None => Err KeyError
      | Some c =>
          match c_output_token_ids c with
          | [] => rest ← take_prompts so ru ps'; Ok (id :: fst rest, n :: snd rest)
          | _ => Err AssertionError
          end
      end
  end.

Definition _get_prompts_and_decodes (so : SchedulerOutput) (ru : Runner) : result PromptDecodeInfo :=
  let num_reqs := num_reqs (input_batch ru) in
  if negb (0 <? total_num_scheduled_tokens so) then Err AssertionError
  else if (num_reqs =? 0)%nat then Err AssertionError
  else
    decodes ← take_decodes so (input_batch ru) (seq 0 num_reqs);
    prompts ← take_prompts so ru (seq (length decodes) (num_reqs - length decodes));
    Ok (mkPromptDecodeInfo (fst prompts) decodes (snd prompts)).

(** [execute_model] up to the preparation of the inputs: [None] when nothing is
    scheduled. *)
Definition prepare (set_order : gset string -> list string) (so : SchedulerOutput) : MR (option PromptDecodeInfo) :=
  _update_states set_order so;;
  if total_num_scheduled_tokens so =? 0 then mret None
  else
    zoom input_batch set_batch ensure_decodes_first;;
    ru ← get_state;
    info ← lift_result (_get_prompts_and_decodes so ru);
    mret (Some info).

(** ** The sampled tokens *)

(** [postprocessed_sampled_token_ids]: the tokens of each position. *)
Definition max_index (m : gmap string nat) : nat := map_fold (fun _ i acc => Nat.max i acc) 0%nat m.
Fixpoint postprocess (m : gmap string nat) (sampled : list (Z * string)) (acc : list (list Z)) : result (list (list Z)) :=
  match sampled with
  | [] => Ok acc
  | (tok, id) :: sampled' =>
      match m !! id with
      | None => Err KeyError
      | Some i => row ← py_get acc i; postprocess m sampled' (<[i := row ++ [tok]]> acc)
      end
  end.

(** One request of the loop that stores the tokens. *)
Definition store_tokens (so : SchedulerOutput) (tokens : list (list Z)) (o : option string) : MR unit :=
  ru ← get_state;
  match o with
  | None => raise KeyError
  | Some id =>
      match requests ru !! id, InputBatch.req_id_to_index (input_batch ru) !! id, num_scheduled_tokens so !! id with
      | Some c, Some i, Some n =>
          let seq_len := c_num_computed_tokens c + n in
          token_ids ← lift_result (py_get tokens i);
          zoom input_batch set_batch (upd_slot i (fun s =>
            row ← write_slice (Z.to_nat seq_len) token_ids (token_ids_cpu s);
            Ok (slot_nums (num_tokens s + len token_ids) (num_tokens_no_spec s) (num_prompt_tokens s)
              (num_computed_tokens_cpu s) (slot_tokens row s))));;
          modify (set_requests (<[id := mkCachedRequestState (c_req_id c) (c_prompt_token_ids c) (c_sampling_params c)
            (c_generator c) (c_block_ids c) (c_num_computed_tokens c) (c_output_token_ids c ++ token_ids)
            (c_lora_request c)]> (requests ru)))
      | _, _, _ => raise KeyError
      end
  end.

(** [sampled] pairs the sampled tokens with their requests; the maximum of no
    positions raises. *)
Definition commit (so : SchedulerOutput) (sampled : list (Z * string)) : MR (list (list Z)) :=
  ru ← get_state;
  let m := InputBatch.req_id_to_index (input_batch ru) in
  (if decide (m = ∅) then raise ValueError else mret tt);;
  tokens ← lift_result (postprocess m sampled (replicate (S (max_index m)) []));
  for_each (store_tokens so tokens) (take (num_reqs (input_batch ru)) (_req_ids (input_batch ru)));;
  mret tokens.

(** ** The batch while states are updated *)

(** What a decode step makes of a row: the tokens from the computed ones on are
    replaced, the blocks of every group are extended. *)
Definition row_update (d : CachedRequestData) (spec : list Z) (r : Row) : Row :=
  let nc := cr_num_computed_tokens d in
  let e := nc + len (new_token_ids d) in
  mkRow (take (Z.to_nat nc) (r_tokens r) ++ new_token_ids d ++ spec)
    (slot_nums (e + len spec) e (num_prompt_tokens (r_values r)) nc (r_values r))
    (zip_with app (r_blocks r) (new_block_ids d)) (r_dicts r) (r_flags r) (r_logs r).

(** The tokens and the blocks that a decode step brings are within the arrays,
    and the computed tokens are among those of the row. *)
Record update_fits (b : InputBatch) (d : CachedRequestData) (spec : list Z) (r : Row) : Prop := {
  uf_computed : 0 <= cr_num_computed_tokens d <= len (r_tokens r);
  uf_len : cr_num_computed_tokens d + len (new_token_ids d) + len spec <= Z.of_nat (max_model_len b);
  uf_blocks : forall g w bs, multi_width (block_table b) !! g = Some w -> r_blocks r !! g = Some bs ->
    exists ids, new_block_ids d !! g = Some ids /\ (length bs + length ids <= w)%nat
}.

Lemma update_fits_dims b b' d spec r : dims b' = dims b -> update_fits b d spec r -> update_fits b' d spec r.
Proof. intros [= E1 E2 E3 E4] [H1 H2 H3]. split; by rewrite ?E1, ?E2, ?E3, ?E4. Qed.

(** Both writes to the token row. *)
Lemma update_tokens (nc n : nat) (new spec row : list Z) :
  (nc + length new + length spec <= length row)%nat -> (nc <= n)%nat ->
  exists row1 row2, write_slice nc new row = Ok row1 /\ write_slice (nc + length new) spec row1 = Ok row2 /\
    length row2 = length row /\ take (nc + length new + length spec) row2 = take nc (take n row) ++ new ++ spec.
Proof.
  intros Hl Hn. eexists _, _. rewrite write_slice_ok by lia. split; [done|].
  assert (H1 : length (take nc row ++ new) = (nc + length new)%nat) by (rewrite length_app, length_take; lia).
  rewrite app_assoc. rewrite write_slice_ok by (rewrite length_app, length_drop, H1; lia). split; [done|].
  rewrite take_app_length' by done. split.
  - rewrite !length_app, length_drop, length_app, length_drop, H1, length_take. lia.
  - rewrite app_assoc, take_app_length' by (rewrite length_app, H1; lia).
    rewrite take_take, Nat.min_l by done. by rewrite (assoc (++)).
Qed.

(** A change of one row of the batch, all else kept. *)
Record updated (b b' : InputBatch) (id : string) (r : Row) : Prop := {
  up_inv : batch_inv b';
  up_dims : dims b' = dims b;
  up_ids : _req_ids b' = _req_ids b;
  up_index : InputBatch.req_id_to_index b' = InputBatch.req_id_to_index b;
  up_view : forall id', view b' id' = if decide (id' = id) then Some r else view b id'
}.

(** Writing the arrays and the blocks at the position of a request. *)
Lemma updated_at b id i s s' ts : batch_inv b -> InputBatch.req_id_to_index b !! id = Some i -> slots b !! i = Some s ->
  length (token_ids_cpu s') = length (token_ids_cpu s) -> request_lora_mapping s' = request_lora_mapping s ->
  multi_ok (max_num_reqs b) ts -> multi_width ts = multi_width (block_table b) ->
  (forall j, j <> i -> multi_blocks ts j = multi_blocks (block_table b) j) ->
  updated b (set_slots (<[i := s']> (slots b)) (set_table ts b)) id
    (mkRow (slot_row s') (slot_tokens [] s') (multi_blocks ts i) (dict_at i (dicts b)) (flags id (reqs b)) (logs id (reqs b))).
Proof.
  intros Hb Hi Hs Hl Hlora Hts Hw Hbl. destruct (inv_slot b id i Hb Hi) as (s0 & Hs0 & _ & Hmax & _). simplify_eq.
  assert (Hinv : batch_inv (set_slots (<[i := s']> (slots b)) (set_table ts b))).
  { split; try done; try apply Hb; simpl.
    - rewrite length_insert. apply Hb.
    - intros j s2 [(<- & <- & _)|[_ Hj]]%list_lookup_insert_Some; [rewrite Hl|]; by eapply bi_rows.
    - intros id' j s2 Hj [(<- & <- & _)|[_ Hs2]]%list_lookup_insert_Some; [|by apply (bi_lora b Hb id' j)].
      rewrite Hlora. by apply (bi_lora b Hb id' i). }
  split; [done| |done..|].
  - exact (f_equal (pair (max_num_reqs b, max_model_len b, vocab_size b)) Hw).
  - intros id'. case_decide as Hid; [subst id'|].
    + rewrite (view_at _ id i s'); [done|done|]. simpl. apply list_lookup_insert_eq. rewrite (bi_slots b Hb). lia.
    + apply view_frame; [done| |done..]. intros j Hj. simpl.
      assert (j <> i) by (intros ->; by apply Hid, (index_inj b id' id i)). by rewrite list_lookup_insert_ne, Hbl.
Qed.

Lemma wp_update_batch d spec b r P : batch_inv b -> view b (cr_req_id d) = Some r -> update_fits b d spec r ->
  (forall b', updated b b' (cr_req_id d) (row_update d spec r) -> P tt b') ->
  exists i, InputBatch.req_id_to_index b !! cr_req_id d = Some i /\ wp (update_batch d spec i) P b.
Proof.
  intros Hb (i & s & Hi & Hs & ->)%view_Some Hfit HP; [|done]. exists i. split; [done|].
  destruct (inv_slot b _ i Hb Hi) as (s0 & Hs0 & _ & Hmax & _). simplify_eq. pose proof (bi_rows b Hb i s Hs) as Hrow.
  pose proof (uf_computed _ _ _ _ Hfit) as Hc. pose proof (uf_len _ _ _ _ Hfit) as Hlen. cbn [r_tokens row_at] in Hc.
  set (nc := cr_num_computed_tokens d) in *.
  assert (Hnc : (Z.to_nat nc <= Z.to_nat (num_tokens s))%nat).
  { unfold slot_row, len in Hc. rewrite length_take in Hc. lia. }
  destruct (update_tokens (Z.to_nat nc) (Z.to_nat (num_tokens s)) (new_token_ids d) spec (token_ids_cpu s))
    as (row1 & row2 & R1 & R2 & L2 & Erow); [rewrite Hrow; unfold len in *; lia|done|].
  unfold update_batch. wp_steps. apply wp_slots_self.
  assert (Hin : forall s', <[i := s']> (slots b) !! i = Some s') by (intros s'; apply list_lookup_insert_eq; rewrite (bi_slots b Hb); lia).
  eapply wp_upd_slot; [done..|]. wp_steps.
  eapply (wp_multi_append_row (max_num_reqs b)); [apply (bi_table b Hb)|done| |].
  { intros g t Ht. apply (uf_blocks _ _ _ _ Hfit g (max_num_blocks_per_req t) (row_blocks t i)).
    - by apply multi_width_lookup.
    - by apply multi_blocks_lookup. }
  intros ts Hts Wts Bts. wp_steps. change (set_table ts (set_slots ?l ?x)) with (set_slots l (set_table ts x)).
  eapply wp_upd_slot; [by apply Hin|unfold write_new; cbn; fold nc; by rewrite R1|]. wp_steps. rewrite list_insert_insert_eq.
  eapply wp_upd_slot; [by apply Hin| |].
  { unfold write_spec. cbn. fold nc. replace (Z.to_nat (nc + len (new_token_ids d))) with (Z.to_nat nc + length (new_token_ids d))%nat
      by (unfold len; lia). by rewrite R2. }
  rewrite list_insert_insert_eq. apply HP.
  match goal with |- updated _ (set_slots (<[i := ?x]> _) _) _ _ => set (s' := x) end.
  assert (E : row_update d spec (row_at b i s (cr_req_id d)) = mkRow (slot_row s') (slot_tokens [] s') (multi_blocks ts i)
    (dict_at i (dicts b)) (flags (cr_req_id d) (reqs b)) (logs (cr_req_id d) (reqs b))).
  { unfold row_update. f_equal.
    - cbn [r_tokens row_at]. unfold slot_row, s'. cbn. fold nc. rewrite <- Erow. f_equal. unfold len. lia.
    - by rewrite Bts, decide_True. }
  rewrite E. eapply updated_at; try done.
  intros j Hj. by rewrite Bts, decide_False.
Qed.

(** *** Removing *)

Lemma holes_perm b h h' : h ≡ₚ h' -> holes b h -> holes b h'.
Proof. intros Hp [Hnd Hh]. split; [by rewrite <- Hp|]. intros i. by rewrite <- Hp. Qed.

Lemma removed_holes b b' id i h : batch_inv b -> InputBatch.req_id_to_index b !! id = Some i -> removed b b' id i ->
  holes b h -> holes b' (i :: h).
Proof.
  intros Hb Hi H [Hnd Hh]. pose proof (proj1 (bi_index b Hb _ _) Hi) as Hid. split.
  - constructor; [|done]. rewrite Hh. congruence.
  - intros j. rewrite (rm_ids _ _ _ _ H), elem_of_cons, Hh. destruct (decide (j = i)) as [->|Hj].
    + rewrite list_lookup_insert_eq by by eapply lookup_lt_Some. naive_solver.
    + rewrite list_lookup_insert_ne by done. naive_solver.
Qed.

(** The batch without the requests of [ids]. *)
Record pruned (b b' : InputBatch) (ids : list string) (h : list nat) : Prop := {
  pr_inv : batch_inv b';
  pr_dims : dims b' = dims b;
  pr_holes : holes b' h;
  pr_view : forall id, view b' id = if decide (id ∈ ids) then None else view b id
}.

Lemma wp_remove_requests checked ids b h P : batch_inv b -> holes b h ->
  (checked = true -> NoDup ids /\ forall id, id ∈ ids -> is_Some (view b id)) ->
  (forall rs b', pruned b b' ids (rs ++ h) -> (rs = [] -> b' = b) -> P rs b') -> wp (remove_requests checked ids) P b.
Proof.
  revert b h P. induction ids as [|id ids IH]; intros b h P Hb Hh Hc HP.
  { wp_steps. apply HP; [by split|done]. }
  cbn [remove_requests]. wp_steps. apply wp_remove_request; [done|..].
  - intros Hn. wp_steps. apply wp_assert.
    { destruct checked; [|done]. destruct (Hc eq_refl) as [_ Hin]. destruct (Hin id) as [r Hr]; [left|].
      assert (Hv : view b id = None) by by apply view_None. congruence. }
    wp_steps. apply (IH b h); [done..| |].
    { intros Ec. destruct (Hc Ec) as [[_ ?]%NoDup_cons Hin]. split; [done|]. intros id' Hid'. apply Hin. by right. }
    intros rs b' H E. wp_steps. apply HP; [|done]. split; try apply H. intros id'. rewrite (pr_view _ _ _ _ H).
    destruct (decide (id' = id)) as [->|]; [|apply decide_ext; set_solver]. rewrite (decide_True (P := id ∈ id :: ids)) by left.
    assert (view b id = None) as -> by by apply view_None. by case_decide.
  - intros i b1 Hi Hr. wp_steps. apply wp_assert; [by destruct checked|]. wp_steps.
    apply (IH b1 (i :: h)); [apply Hr|by eapply removed_holes| |].
    { intros Ec. destruct (Hc Ec) as [[Hni ?]%NoDup_cons Hin]. split; [done|]. intros id' Hid'.
      rewrite (rm_view _ _ _ _ Hr), decide_False by congruence. apply Hin. by right. }
    intros rs b' H _. wp_steps. apply HP; [|done]. split; [apply H|by rewrite (pr_dims _ _ _ _ H), (rm_dims _ _ _ _ Hr)| |].
    + eapply holes_perm; [|apply H]. by rewrite <- Permutation_middle.
    + intros id'. rewrite (pr_view _ _ _ _ H), (rm_view _ _ _ _ Hr).
      destruct (decide (id' = id)) as [->|]; [by rewrite (decide_True (P := id ∈ id :: ids)) by left; case_decide|].
      apply decide_ext. set_solver.
Qed.

(** *** Adding *)

Lemma last_free b h i : batch_inv b -> holes b h -> last h = Some i -> free b i.
Proof.
  intros Hb [_ Hh] Hl. assert (Hi : _req_ids b !! i = Some None) by by apply Hh, last_Some_elem_of.
  split; [|by right]. apply lookup_lt_Some in Hi. pose proof (bi_len b Hb). lia.
Qed.

Lemma holes_dense b : holes b [] <-> dense b.
Proof.
  split.
  - intros [_ Hh] i Hi. destruct (lookup_lt_is_Some_2 _ _ Hi) as [[x|] Hx]; [by exists x|].
    apply Hh in Hx. by apply not_elem_of_nil in Hx.
  - intros Hd. split; [constructor|]. intros i. split; [by intros []%not_elem_of_nil|]. intros Hi.
    destruct (Hd i) as [x Hx]; [by eapply lookup_lt_Some|congruence].
Qed.

(** The position that a request gets is free, and is no longer a hole after. *)
Lemma added_holes b b' c h : batch_inv b -> holes b h -> added b b' c (default (num_reqs b) (last h)) -> holes b' (removelast h).
Proof.
  intros Hb Hh H. destruct (last h) as [i|] eqn:El.
  - apply last_Some in El as [h' ->]. rewrite removelast_last. destruct Hh as [Hnd Hh].
    apply NoDup_app in Hnd as (Hnd & Hdis & _). split; [done|]. intros j. rewrite (ad_ids _ _ _ _ H). simpl.
    specialize (Hh j). rewrite elem_of_app, list_elem_of_singleton in Hh. case_decide; [|naive_solver].
    subst. split; [|done]. intros Hi. by destruct (Hdis i Hi); left.
  - apply last_None in El as ->. simpl in *. apply holes_dense. apply holes_dense in Hh as Hd.
    intros j. rewrite (ad_len _ _ _ _ H). rewrite (dense_num_reqs b) in H |- * by done. intros Hj. unfold used. rewrite (ad_ids _ _ _ _ H).
    case_decide; [by eexists|]. apply Hd. lia.
Qed.

Lemma removelast_sorted (h : list nat) : StronglySorted gt h -> StronglySorted gt (removelast h).
Proof. intros Hs. destruct (last h) as [e|] eqn:El; [by destruct (last_smallest h e Hs El) as (_ & ? & _)|]. by apply last_None in El as ->. Qed.

(** The batch with requests added: [rows] gives the row of each. *)
Record grown (b b' : InputBatch) (ids : list string) (rows : string -> option Row) (h : list nat) : Prop := {
  gr_inv : batch_inv b';
  gr_dims : dims b' = dims b;
  gr_holes : holes b' h;
  gr_sorted : StronglySorted gt h;
  gr_view : forall id, view b' id = if decide (id ∈ ids) then rows id else view b id
}.

Definition fresh_row (b : InputBatch) (c : CachedRequestState) : Row := row_of_request (vocab_size b) (length (block_table b)) c.

Lemma fresh_row_dims b b' c : dims b' = dims b -> fresh_row b' c = fresh_row b c.
Proof.
  intros [= _ _ E1 E2]. unfold fresh_row. rewrite E1. f_equal.
  apply (f_equal length) in E2. unfold multi_width in E2. by rewrite !length_fmap in E2.
Qed.

Lemma wp_runner_add_all rs ids b h P : batch_inv b -> holes b h -> StronglySorted gt h -> NoDup ids ->
  (forall id, id ∈ ids -> exists c, rs !! id = Some c /\ c_req_id c = id /\ fits b c /\ view b id = None) ->
  (num_reqs b + length ids <= max_num_reqs b)%nat ->
  (forall h' b', grown b b' ids (fun id => fresh_row b <$> rs !! id) h' -> (ids = [] -> b' = b /\ h' = h) -> P h' (mkRunner rs b')) ->
  wp (add_all ids h) P (mkRunner rs b).
Proof.
  revert b h P. induction ids as [|id ids IH]; intros b h P Hb Hh Hs Hnd Hids Hn HP.
  { wp_steps. apply HP; [by split|done]. }
  cbn [add_all]. wp_steps. destruct (Hids id) as (c & Ec & Eid & Hfit & Hv); [left|]. simpl. rewrite Ec. wp_steps.
  apply NoDup_cons in Hnd as [Hni Hnd]. cbn [length] in Hn.
  assert (Hfree : free b (default (num_reqs b) (last h))).
  { destruct (last h) as [i|] eqn:El; [by eapply last_free|]. apply last_None in El as ->. apply holes_dense in Hh.
    simpl. rewrite dense_num_reqs in Hn |- * by done. split; [lia|by left]. }
  assert (Hnone : InputBatch.req_id_to_index b !! c_req_id c = None) by (rewrite Eid; by apply view_None).
  apply wp_batch_add; [done..|]. intros b1 H1.
  apply (IH b1 (removelast h)); [apply H1|by eapply added_holes|by apply removelast_sorted|done| | |].
  - intros id' Hid'. destruct (Hids id') as (c' & Ec' & Eid' & Hfit' & Hv'); [by right|]. exists c'. split_and!; [done..| |].
    + eapply fits_dims; [apply H1|done].
    + rewrite (ad_view _ _ _ _ H1), decide_False; [done|congruence].
  - pose proof (ad_dims _ _ _ _ H1) as [= Em _ _ _]. unfold num_reqs in *. rewrite Em, (ad_index _ _ _ _ H1), map_size_insert_None by done.
    simpl. lia.
  - intros h' b' H _. apply HP; [|done]. pose proof (ad_dims _ _ _ _ H1) as Hd1.
    split; [apply H|by rewrite (gr_dims _ _ _ _ _ H)|apply H|apply H|]. intros id'.
    rewrite (gr_view _ _ _ _ _ H), (ad_view _ _ _ _ H1), Eid. destruct (decide (id' = id)) as [->|Hne].
    + rewrite decide_False by done. rewrite decide_True by left. by rewrite Ec.
    + destruct (decide (id' ∈ ids)); [rewrite decide_True by by right|rewrite decide_False by set_solver; done].
      destruct (rs !! id'); [|done]. simpl. by rewrite (fresh_row_dims b b1).
Qed.

(** *** Updating *)

Definition spec_tokens (so : SchedulerOutput) (id : string) : list Z := default [] (scheduled_spec_decode_tokens so !! id).
Definition cached_ids (ds : list CachedRequestData) : list string := cr_req_id <$> ds.
Definition new_ids (ds : list NewRequestData) : list string := nr_req_id <$> ds.

(** The cached state of a request after the update. *)
Definition cached_state (d : CachedRequestData) (c : CachedRequestState) : CachedRequestState :=
  match missing_tokens d c with Ok new => update_state d new c | Err _ => c end.

(** What the scheduler must know about a request it sends an update for. *)
Definition update_ok (so : SchedulerOutput) (rs : gmap string CachedRequestState) (b : InputBatch) (d : CachedRequestData) : Prop :=
  exists c, rs !! cr_req_id d = Some c /\ (exists new, missing_tokens d c = Ok new) /\
    match view b (cr_req_id d) with Some r => update_fits b d (spec_tokens so (cr_req_id d)) r | None => True end.

(** The states and the rows after the updates; [add] are the requests that are
    not in the batch. *)
Record refreshed (so : SchedulerOutput) (ru ru' : Runner) (ds : list CachedRequestData) (add : list string) : Prop := {
  rf_inv : batch_inv (input_batch ru');
  rf_dims : dims (input_batch ru') = dims (input_batch ru);
  rf_ids : _req_ids (input_batch ru') = _req_ids (input_batch ru);
  rf_index : InputBatch.req_id_to_index (input_batch ru') = InputBatch.req_id_to_index (input_batch ru);
  rf_requests : forall d, d ∈ ds -> requests ru' !! cr_req_id d = cached_state d <$> requests ru !! cr_req_id d;
  rf_requests_ne : forall id, id ∉ cached_ids ds -> requests ru' !! id = requests ru !! id;
  rf_view : forall d, d ∈ ds -> view (input_batch ru') (cr_req_id d) =
    row_update d (spec_tokens so (cr_req_id d)) <$> view (input_batch ru) (cr_req_id d);
  rf_view_ne : forall id, id ∉ cached_ids ds -> view (input_batch ru') id = view (input_batch ru) id;
  rf_add : forall id, id ∈ add <-> id ∈ cached_ids ds /\ view (input_batch ru) id = None;
  rf_add_nodup : NoDup add
}.

Lemma wp_update_cached so d ru P : batch_inv (input_batch ru) -> update_ok so (requests ru) (input_batch ru) d ->
  (forall ru' add, refreshed so ru ru' [d] add -> P add ru') -> wp (update_cached so d) P ru.
Proof.
  intros Hb (c & Ec & (new & En) & Hv) HP. unfold update_cached. wp_steps. rewrite Ec. wp_steps.
  eapply wp_lift; [exact En|]. wp_steps.
  assert (Hst : update_state d new c = cached_state d c) by by unfold cached_state; rewrite En. rewrite Hst.
  assert (Hr : forall d', d' ∈ [d] -> <[cr_req_id d := cached_state d c]> (requests ru) !! cr_req_id d' = cached_state d' <$> requests ru !! cr_req_id d').
  { intros d' ->%list_elem_of_singleton. by rewrite lookup_insert_eq, Ec. }
  assert (Hrn : forall id, id ∉ cached_ids [d] -> <[cr_req_id d := cached_state d c]> (requests ru) !! id = requests ru !! id).
  { intros id Hid. rewrite lookup_insert_ne; [done|]. intros <-. apply Hid. by left. }
  destruct (view (input_batch ru) (cr_req_id d)) as [r|] eqn:Er.
  - assert (Hi : is_Some (InputBatch.req_id_to_index (input_batch ru) !! cr_req_id d)) by (apply view_dom; [done|by eexists]).
    destruct Hi as [i Hi]. rewrite Hi. wp_steps.
    edestruct (wp_update_batch d (spec_tokens so (cr_req_id d)) (input_batch ru) r) as (i' & Hi' & Hwp); [done..| |].
    2: { simplify_eq. exact Hwp. }
    intros b' H. wp_steps. apply HP. split; try apply H; try done.
    + intros d' ->%list_elem_of_singleton. simpl. by rewrite (up_view _ _ _ _ H), decide_True, Er.
    + intros id Hid. simpl. rewrite (up_view _ _ _ _ H), decide_False; [done|]. intros ->. apply Hid. by left.
    + intros id. split; [by intros []%not_elem_of_nil|]. intros [->%list_elem_of_singleton Hn]. congruence.
    + constructor.
  - assert (InputBatch.req_id_to_index (input_batch ru) !! cr_req_id d = None) as -> by by apply view_None.
    wp_steps. apply HP. split; try done.
    + intros d' ->%list_elem_of_singleton. simpl. by rewrite Er.
    + intros id. unfold cached_ids. simpl. rewrite list_elem_of_singleton. naive_solver.
    + apply NoDup_singleton.
Qed.

Lemma wp_update_all so ds ru P : batch_inv (input_batch ru) -> NoDup (cached_ids ds) ->
  (forall d, d ∈ ds -> update_ok so (requests ru) (input_batch ru) d) ->
  (forall ru' add, refreshed so ru ru' ds add -> P add ru') -> wp (update_all so ds) P ru.
Proof.
  revert ru P. induction ds as [|d ds IH]; intros ru P Hb Hnd Hok HP.
  { wp_steps. apply HP. split; try done; try (by intros d []%not_elem_of_nil).
    intros id. split; [by intros []%not_elem_of_nil|by intros [[]%not_elem_of_nil _]]. }
  cbn [update_all]. wp_steps. apply NoDup_cons in Hnd as [Hni Hnd]. fold (cached_ids ds) in Hni, Hnd.
  apply wp_update_cached; [done|apply Hok; by left|]. intros ru1 add1 H1. wp_steps.
  assert (Hne : forall d', d' ∈ ds -> cr_req_id d' ∉ cached_ids [d]).
  { intros d' Hd' E%list_elem_of_singleton. apply Hni. simpl in E. rewrite <- E. by apply list_elem_of_fmap_2. }
  apply IH; [apply H1|done| |].
  - intros d' Hd'. destruct (Hok d') as (c & Ec & Hm & Hv); [by right|]. exists c.
    rewrite (rf_requests_ne _ _ _ _ _ H1), (rf_view_ne _ _ _ _ _ H1) by by apply Hne. split; [done|]. split; [done|].
    destruct (view _ _); [|done]. eapply update_fits_dims; [apply H1|done].
  - intros ru' add H. wp_steps. apply HP. split.
    + apply H.
    + by rewrite (rf_dims _ _ _ _ _ H), (rf_dims _ _ _ _ _ H1).
    + by rewrite (rf_ids _ _ _ _ _ H), (rf_ids _ _ _ _ _ H1).
    + by rewrite (rf_index _ _ _ _ _ H), (rf_index _ _ _ _ _ H1).
    + intros d' [->|Hd']%elem_of_cons.
      * rewrite (rf_requests_ne _ _ _ _ _ H) by done. apply H1. by left.
      * by rewrite (rf_requests _ _ _ _ _ H), (rf_requests_ne _ _ _ _ _ H1) by eauto.
    + intros id [Hd Hid]%not_elem_of_cons. rewrite (rf_requests_ne _ _ _ _ _ H), (rf_requests_ne _ _ _ _ _ H1); [done| |done].
      by intros ->%list_elem_of_singleton.
    + intros d' [->|Hd']%elem_of_cons.
      * rewrite (rf_view_ne _ _ _ _ _ H) by done. apply H1. by left.
      * by rewrite (rf_view _ _ _ _ _ H), (rf_view_ne _ _ _ _ _ H1) by eauto.
    + intros id [Hd Hid]%not_elem_of_cons. rewrite (rf_view_ne _ _ _ _ _ H), (rf_view_ne _ _ _ _ _ H1); [done| |done].
      by intros ->%list_elem_of_singleton.
    + intros id. unfold cached_ids. rewrite fmap_cons, elem_of_app, elem_of_cons, (rf_add _ _ _ _ _ H1), (rf_add _ _ _ _ _ H).
      unfold cached_ids at 1. simpl. rewrite list_elem_of_singleton. fold (cached_ids ds).
      destruct (decide (id = cr_req_id d)) as [->|Hid]; [naive_solver|].
      rewrite (rf_view_ne _ _ _ _ _ H1) by by intros ?%list_elem_of_singleton. naive_solver.
    + apply NoDup_app. split; [apply H1|]. split; [|apply H].
      intros id (->%list_elem_of_singleton & _)%(rf_add _ _ _ _ _ H1) (Hin & _)%(rf_add _ _ _ _ _ H). done.
Qed.

(** ** The whole update *)

Lemma sorted_desc_perm l : sorted_desc l ≡ₚ l.
Proof. unfold sorted_desc. rewrite <- Permutation_rev. apply merge_sort_Permutation. Qed.

Lemma StronglySorted_snoc (l : list nat) x : StronglySorted gt l -> (forall y, y ∈ l -> (y > x)%nat) -> StronglySorted gt (l ++ [x]).
Proof.
  induction 1 as [|y l Hs IH Hy]; intros Hx; simpl; [by repeat constructor|]. constructor; [apply IH; set_solver|].
  apply Forall_app. split; [done|]. repeat constructor. apply Hx. set_solver.
Qed.

Lemma sorted_desc_sorted l : NoDup l -> StronglySorted gt (sorted_desc l).
Proof.
  intros Hnd. unfold sorted_desc. assert (Hnd' : NoDup (merge_sort le l)) by by rewrite merge_sort_Permutation.
  pose proof (StronglySorted_merge_sort le l) as Hs. revert Hnd' Hs. generalize (merge_sort le l). clear.
  induction 2 as [|x k Hk IH Hx]; simpl; [constructor|]. apply NoDup_cons in Hnd' as [Hni Hnd].
  apply StronglySorted_snoc; [by apply IH|]. intros y Hy.
  rewrite <- Permutation_rev in Hy. rename Hy into Hin.
  rewrite Forall_forall in Hx. specialize (Hx y Hin). assert (y <> x) by congruence. lia.
Qed.

Lemma foldl_delete {A} (m : gmap string A) ids id : foldl (fun rs id => delete id rs) m ids !! id = if decide (id ∈ ids) then None else m !! id.
Proof.
  revert m. induction ids as [|x ids IH]; intros m; [done|]. cbn [foldl]. rewrite IH. destruct (decide (id = x)) as [->|Hne].
  - rewrite lookup_delete_eq, (decide_True (P := x ∈ x :: ids)) by left. by case_decide.
  - rewrite lookup_delete_ne by done. apply decide_ext. set_solver.
Qed.

Lemma foldl_new (m : gmap string CachedRequestState) ds :
  let m' := foldl (fun rs d => <[nr_req_id d := new_state d]> rs) m ds in
  (forall id, id ∉ new_ids ds -> m' !! id = m !! id) /\ (NoDup (new_ids ds) -> forall d, d ∈ ds -> m' !! nr_req_id d = Some (new_state d)).
Proof.
  revert m. induction ds as [|d ds IH]; intros m; simpl; [split; [done|by intros _ d []%not_elem_of_nil]|].
  destruct (IH (<[nr_req_id d := new_state d]> m)) as [IH1 IH2]. fold (new_ids ds). split.
  - intros id [Hne Hid]%not_elem_of_cons. by rewrite IH1, lookup_insert_ne.
  - intros [Hni Hnd]%NoDup_cons d' [->|Hd']%elem_of_cons; [|by apply IH2]. by rewrite IH1, lookup_insert_eq.
Qed.

(** What a scheduler output must satisfy: the requests are distinct, they are
    the ones with scheduled tokens, and fit; a new request is not in the batch
    (unless it takes the id of one that has finished); the runner knows the
    others. *)
Record output_ok (so : SchedulerOutput) (ru : Runner) : Prop := {
  oo_nodup : NoDup (new_ids (scheduled_new_reqs so) ++ cached_ids (scheduled_cached_reqs so));
  oo_keys : dom (num_scheduled_tokens so) = list_to_set (new_ids (scheduled_new_reqs so) ++ cached_ids (scheduled_cached_reqs so));
  oo_size : (length (scheduled_new_reqs so) + length (scheduled_cached_reqs so) <= max_num_reqs (input_batch ru))%nat;
  oo_new : forall d, d ∈ scheduled_new_reqs so -> fits (input_batch ru) (new_state d) /\
    (view (input_batch ru) (nr_req_id d) = None \/ nr_req_id d ∈ out_finished_req_ids so);
  oo_cached : forall d, d ∈ scheduled_cached_reqs so -> (cr_req_id d ∉ out_finished_req_ids so) /\
    update_ok so (requests ru) (input_batch ru) d /\
    (view (input_batch ru) (cr_req_id d) = None -> forall c, requests ru !! cr_req_id d = Some c ->
       c_req_id c = cr_req_id d /\ fits (input_batch ru) (cached_state d c))
}.

(** The runner between steps. *)
Definition runner_ok (ru : Runner) : Prop := batch_inv (input_batch ru) /\ dense (input_batch ru).

(** What the step makes of the runner. *)
Record stepped (so : SchedulerOutput) (ru ru' : Runner) : Prop := {
  st_ok : runner_ok ru';
  st_dims : dims (input_batch ru') = dims (input_batch ru);
  st_new : forall d, d ∈ scheduled_new_reqs so -> requests ru' !! nr_req_id d = Some (new_state d) /\
    view (input_batch ru') (nr_req_id d) = Some (fresh_row (input_batch ru) (new_state d));
  st_cached : forall d, d ∈ scheduled_cached_reqs so ->
    requests ru' !! cr_req_id d = cached_state d <$> requests ru !! cr_req_id d /\
    view (input_batch ru') (cr_req_id d) = match view (input_batch ru) (cr_req_id d) with
      | Some r => Some (row_update d (spec_tokens so (cr_req_id d)) r)
      | None => fresh_row (input_batch ru) <$> requests ru' !! cr_req_id d
      end;
  st_other : forall id, id ∉ dom (num_scheduled_tokens so) -> view (input_batch ru') id = None /\
    requests ru' !! id = if decide (id ∈ out_finished_req_ids so) then None else requests ru !! id
}.

Section update_states.
Context (set_order : gset string -> list string) (set_order_perm : forall s, set_order s ≡ₚ elements s).
Context (so : SchedulerOutput) (ru : Runner) (ru_ok : runner_ok ru) (so_ok : output_ok so ru).

Lemma set_order_elem s id : id ∈ set_order s <-> id ∈ s.
Proof. by rewrite set_order_perm, elem_of_elements. Qed.

(** After the removals only scheduled requests that have not finished are left. *)
Definition kept (id : string) : Prop := id ∈ dom (num_scheduled_tokens so) /\ id ∉ out_finished_req_ids so.

Record pruned_runner (ru1 : Runner) (removed : list nat) : Prop := {
  pn_inv : batch_inv (input_batch ru1);
  pn_dims : dims (input_batch ru1) = dims (input_batch ru);
  pn_holes : holes (input_batch ru1) removed;
  pn_view : forall id, view (input_batch ru1) id = if decide (kept id) then view (input_batch ru) id else None;
  pn_requests : forall id, requests ru1 !! id = if decide (id ∈ out_finished_req_ids so) then None else requests ru !! id;
  pn_same : removed = [] -> input_batch ru1 = input_batch ru
}.

Lemma prune_spec rs1 rs2 b1 b2 :
  pruned (input_batch ru) b1 (set_order (out_finished_req_ids so)) rs1 -> (rs1 = [] -> b1 = input_batch ru) ->
  pruned b1 b2 (set_order (dom (InputBatch.req_id_to_index b1) ∖ dom (num_scheduled_tokens so))) (rs2 ++ rs1) -> (rs2 = [] -> b2 = b1) ->
  pruned_runner (mkRunner (foldl (fun rs id => delete id rs) (requests ru) (set_order (out_finished_req_ids so))) b2) (rs1 ++ rs2).
Proof.
  intros H1 E1 H2 E2. split; simpl.
  - apply H2.
  - by rewrite (pr_dims _ _ _ _ H2), (pr_dims _ _ _ _ H1).
  - eapply holes_perm; [|apply H2]. by rewrite Permutation_app_comm.
  - intros id. rewrite (pr_view _ _ _ _ H2). unfold kept.
    destruct (decide (id ∈ set_order (dom _ ∖ _))) as [Hid|Hid].
    + apply set_order_elem, elem_of_difference in Hid as [_ Hid]. by rewrite decide_False by tauto.
    + rewrite (pr_view _ _ _ _ H1). rewrite set_order_elem, elem_of_difference, elem_of_dom, <- view_dom, (pr_view _ _ _ _ H1) in Hid by apply H1.
      destruct (decide (id ∈ set_order (out_finished_req_ids so))) as [Hf|Hf]; rewrite set_order_elem in Hf.
      * by rewrite decide_False by tauto.
      * destruct (decide (id ∈ dom (num_scheduled_tokens so))) as [Hs|Hs]; [by rewrite decide_True|].
        rewrite decide_False by tauto. apply eq_None_not_Some. intros Hv. apply Hid. by split.
  - intros id. rewrite foldl_delete. apply decide_ext, set_order_elem.
  - intros [-> ->]%app_nil. by rewrite E2, E1.
Qed.

Lemma new_not_cached d : d ∈ scheduled_new_reqs so -> nr_req_id d ∉ cached_ids (scheduled_cached_reqs so).
Proof.
  intros Hd. destruct (proj1 (NoDup_app _ _) (oo_nodup _ _ so_ok)) as (_ & Hdis & _). apply Hdis. by apply list_elem_of_fmap_2.
Qed.

Lemma cached_not_new d : d ∈ scheduled_cached_reqs so -> cr_req_id d ∉ new_ids (scheduled_new_reqs so).
Proof.
  intros Hd Hn. destruct (proj1 (NoDup_app _ _) (oo_nodup _ _ so_ok)) as (_ & Hdis & _).
  apply (Hdis _ Hn). by apply list_elem_of_fmap_2.
Qed.

Lemma scheduled_iff id : id ∈ dom (num_scheduled_tokens so) <->
  id ∈ new_ids (scheduled_new_reqs so) \/ id ∈ cached_ids (scheduled_cached_reqs so).
Proof. by rewrite (oo_keys _ _ so_ok), elem_of_list_to_set, elem_of_app. Qed.

Section after_removal.
Context (ru1 : Runner) (removed : list nat) (Hp : pruned_runner ru1 removed).

(** The rows left are those of the requests that go on. *)
Lemma kept_view_cached d : d ∈ scheduled_cached_reqs so -> view (input_batch ru1) (cr_req_id d) = view (input_batch ru) (cr_req_id d).
Proof.
  intros Hd. rewrite (pn_view _ _ Hp). apply decide_True. split.
  - apply scheduled_iff. right. by apply list_elem_of_fmap_2.
  - by apply (oo_cached _ _ so_ok).
Qed.

Lemma kept_view_new d : d ∈ scheduled_new_reqs so -> view (input_batch ru1) (nr_req_id d) = None.
Proof.
  intros Hd. rewrite (pn_view _ _ Hp). case_decide as Hk; [|done]. destruct (oo_new _ _ so_ok d Hd) as [_ [|Hf]]; [done|].
  by destruct Hk.
Qed.

Lemma kept_view_other id : id ∉ dom (num_scheduled_tokens so) -> view (input_batch ru1) id = None.
Proof. intros Hid. rewrite (pn_view _ _ Hp). apply decide_False. by intros [? _]. Qed.

Definition ru2 : Runner := set_requests
  (foldl (fun rs d => <[nr_req_id d := new_state d]> rs) (requests ru1) (scheduled_new_reqs so)) ru1.

Lemma ru2_new d : d ∈ scheduled_new_reqs so -> requests ru2 !! nr_req_id d = Some (new_state d).
Proof. apply foldl_new. by destruct (proj1 (NoDup_app _ _) (oo_nodup _ _ so_ok)) as (? & _ & _). Qed.

Lemma ru2_old id : id ∉ new_ids (scheduled_new_reqs so) ->
  requests ru2 !! id = if decide (id ∈ out_finished_req_ids so) then None else requests ru !! id.
Proof. intros Hid. rewrite <- (pn_requests _ _ Hp). by apply foldl_new. Qed.

Lemma ru2_cached d : d ∈ scheduled_cached_reqs so -> requests ru2 !! cr_req_id d = requests ru !! cr_req_id d.
Proof.
  intros Hd. rewrite ru2_old.
  - apply decide_False. by apply (oo_cached _ _ so_ok).
  - by apply cached_not_new.
Qed.

Lemma ru2_update_ok d : d ∈ scheduled_cached_reqs so -> update_ok so (requests ru2) (input_batch ru2) d.
Proof.
  intros Hd. destruct (oo_cached _ _ so_ok d Hd) as (_ & (c & Ec & Hm & Hv) & _). exists c.
  rewrite ru2_cached by done. change (input_batch ru2) with (input_batch ru1). rewrite kept_view_cached by done.
  split; [done|]. split; [done|]. destruct (view _ _); [|done]. eapply update_fits_dims; [apply Hp|done].
Qed.

Section after_update.
Context (ru3 : Runner) (add : list string) (Hr : refreshed so ru2 ru3 (scheduled_cached_reqs so) add).

Definition to_add : list string := new_ids (scheduled_new_reqs so) ++ add.

Lemma to_add_elem id : id ∈ to_add <-> id ∈ new_ids (scheduled_new_reqs so) \/
  (id ∈ cached_ids (scheduled_cached_reqs so) /\ view (input_batch ru1) id = None).
Proof. unfold to_add. by rewrite elem_of_app, (rf_add _ _ _ _ _ Hr). Qed.

Lemma to_add_nodup : NoDup to_add.
Proof.
  apply NoDup_app. destruct (proj1 (NoDup_app _ _) (oo_nodup _ _ so_ok)) as (Hn & Hdis & _).
  split; [done|]. split; [|apply Hr]. intros id Hid [Hc _]%(rf_add _ _ _ _ _ Hr). by apply (Hdis id).
Qed.

(** None of them is in the batch, all of them fit. *)
Lemma to_add_fits id : id ∈ to_add ->
  exists c, requests ru3 !! id = Some c /\ c_req_id c = id /\ fits (input_batch ru3) c /\ view (input_batch ru3) id = None.
Proof.
  assert (Hd3 : dims (input_batch ru3) = dims (input_batch ru)) by (rewrite (rf_dims _ _ _ _ _ Hr); apply Hp).
  rewrite to_add_elem. intros [(d & -> & Hd)%list_elem_of_fmap|[(d & -> & Hd)%list_elem_of_fmap Hv]].
  - pose proof (new_not_cached d Hd) as Hnc. exists (new_state d).
    rewrite (rf_requests_ne _ _ _ _ _ Hr), ru2_new, (rf_view_ne _ _ _ _ _ Hr) by done.
    split; [done|]. split; [done|]. split; [eapply fits_dims; [done|]; by apply (oo_new _ _ so_ok)|by apply kept_view_new].
  - destruct (oo_cached _ _ so_ok d Hd) as (_ & (c & Ec & _) & Hfit). rewrite kept_view_cached in Hv by done.
    destruct (Hfit Hv c Ec) as [Eid Hf]. exists (cached_state d c).
    rewrite (rf_requests _ _ _ _ _ Hr), ru2_cached, Ec, (rf_view _ _ _ _ _ Hr) by done.
    split; [done|]. split; [unfold cached_state; by destruct (missing_tokens d c)|]. split; [by eapply fits_dims|].
    change (input_batch ru2) with (input_batch ru1). by rewrite kept_view_cached, Hv.
Qed.

(** Those in the batch and those to add are the scheduled ones. *)
Lemma to_add_count : (num_reqs (input_batch ru3) + length to_add <= max_num_reqs (input_batch ru3))%nat.
Proof.
  assert (Hd3 : dims (input_batch ru3) = dims (input_batch ru)) by (rewrite (rf_dims _ _ _ _ _ Hr); apply Hp).
  injection Hd3 as -> _ _ _. unfold num_reqs. rewrite (rf_index _ _ _ _ _ Hr), <- size_dom, <- (size_list_to_set (C := gset string) to_add)
    by apply to_add_nodup. change (input_batch ru2) with (input_batch ru1).
  rewrite <- size_union.
  - etransitivity; [|apply (oo_size _ _ so_ok)].
    assert (Hsz : (size (list_to_set (C := gset string) (new_ids (scheduled_new_reqs so) ++ cached_ids (scheduled_cached_reqs so))) =
      length (scheduled_new_reqs so) + length (scheduled_cached_reqs so))%nat).
    { rewrite size_list_to_set by apply so_ok. unfold new_ids, cached_ids. by rewrite length_app, !length_fmap. }
    rewrite <- Hsz. apply subseteq_size. intros id. rewrite elem_of_union, !elem_of_list_to_set, elem_of_app, to_add_elem, elem_of_dom, <- view_dom by apply Hp.
    intros [Hv|]; [|naive_solver]. apply scheduled_iff. destruct (decide (id ∈ dom (num_scheduled_tokens so))); [done|].
    rewrite kept_view_other in Hv by done. by destruct Hv.
  - intros id. rewrite elem_of_list_to_set, to_add_elem, elem_of_dom, <- view_dom by apply Hp. intros Hv [(d & -> & Hd)%list_elem_of_fmap|[_ Hn]].
    + rewrite kept_view_new in Hv by done. by destruct Hv.
    + rewrite Hn in Hv. by destruct Hv.
Qed.

(** Adding them, then closing the holes that are left, is the step. *)
Lemma stepped_intro h b4 b5 :
  grown (input_batch ru3) b4 to_add (fun id => fresh_row (input_batch ru3) <$> requests ru3 !! id) h ->
  same_rows b4 b5 -> dense b5 -> stepped so ru (mkRunner (requests ru3) b5).
Proof.
  intros Hg Hs Hd. assert (Hd3 : dims (input_batch ru3) = dims (input_batch ru)) by (rewrite (rf_dims _ _ _ _ _ Hr); apply Hp).
  assert (Hv : forall id, view b5 id = if decide (id ∈ to_add) then fresh_row (input_batch ru) <$> requests ru3 !! id else view (input_batch ru3) id).
  { intros id. rewrite (sr_view _ _ Hs), (gr_view _ _ _ _ _ Hg). case_decide; [|done]. destruct (requests ru3 !! id) as [c|]; [|done].
    simpl. by rewrite (fresh_row_dims _ _ c Hd3). }
  split; simpl.
  - split; [apply Hs|done].
  - by rewrite (sr_dims _ _ Hs), (gr_dims _ _ _ _ _ Hg).
  - intros d Hd'. assert (E : requests ru3 !! nr_req_id d = Some (new_state d)).
    { rewrite (rf_requests_ne _ _ _ _ _ Hr) by by apply new_not_cached. by apply ru2_new. }
    split; [done|]. rewrite Hv, decide_True, E; [done|]. apply to_add_elem. left. by apply list_elem_of_fmap_2.
  - intros d Hd'. split; [by rewrite (rf_requests _ _ _ _ _ Hr), ru2_cached|].
    rewrite Hv. rewrite <- (kept_view_cached d Hd'). destruct (view (input_batch ru1) (cr_req_id d)) as [r|] eqn:Er.
    + rewrite decide_False.
      * rewrite (rf_view _ _ _ _ _ Hr) by done. change (input_batch ru2) with (input_batch ru1). by rewrite Er.
      * rewrite to_add_elem. intros [Hn|[_ ?]]; [by apply (cached_not_new d Hd')|congruence].
    + rewrite decide_True; [done|]. apply to_add_elem. right. split; [by apply list_elem_of_fmap_2|done].
  - intros id Hid. pose proof Hid as Hid'. rewrite scheduled_iff in Hid'. split.
    + rewrite Hv, decide_False by (rewrite to_add_elem; tauto). rewrite (rf_view_ne _ _ _ _ _ Hr) by tauto. by apply kept_view_other.
    + rewrite (rf_requests_ne _ _ _ _ _ Hr) by tauto. apply ru2_old. tauto.
Qed.

End after_update.
End after_removal.

Lemma wp_update_states : wp (_update_states set_order so) (fun changed ru' => stepped so ru ru' /\
  (changed = false -> _req_ids (input_batch ru') = _req_ids (input_batch ru))) ru.
Proof.
  destruct ru_ok as [Hb Hd]. unfold _update_states. wp_steps.
  eapply (wp_remove_requests _ _ _ []); [done|by apply holes_dense|done|]. intros rs1 b1 H1 E1. rewrite app_nil_r in H1. wp_steps.
  eapply (wp_remove_requests _ _ _ rs1); [apply H1|apply H1| |].
  { intros _. split; [rewrite set_order_perm; apply NoDup_elements|]. intros id [Hid _]%set_order_elem%elem_of_difference.
    simpl in Hid. apply view_dom; [apply H1|]. by apply elem_of_dom. }
  intros rs2 b2 H2 E2. wp_steps. pose proof (prune_spec rs1 rs2 b1 b2 H1 E1 H2 E2) as Hp.
  set (ru1 := mkRunner _ b2) in *.
  match goal with |- wp _ _ ?x => change x with (ru2 ru1) end.
  apply wp_update_all; [apply Hp| |by eapply ru2_update_ok|].
  { by destruct (proj1 (NoDup_app _ _) (oo_nodup _ _ so_ok)) as (_ & _ & ?). }
  intros ru3 add Hr. wp_steps.
  assert (Hholes : holes (input_batch ru3) (sorted_desc (rs1 ++ rs2))).
  { eapply holes_perm; [by rewrite sorted_desc_perm|]. destruct (pn_holes _ _ Hp) as [? Hh]. split; [done|].
    intros i. rewrite (rf_ids _ _ _ _ _ Hr). apply Hh. }
  change ((nr_req_id <$> scheduled_new_reqs so) ++ add) with (to_add add).
  replace ru3 with (mkRunner (requests ru3) (input_batch ru3)) at 1 by by destruct ru3.
  eapply wp_runner_add_all; [apply Hr|done|apply sorted_desc_sorted, Hp|by eapply to_add_nodup|by eapply to_add_fits|by eapply to_add_count|].
  intros h b4 Hg Hsame. wp_steps.
  apply (wp_mono _ (fun _ ru5 => requests ru5 = requests ru3 /\ same_rows b4 (input_batch ru5) /\ dense (input_batch ru5) /\
    (h = [] -> input_batch ru5 = b4))).
  { destruct (Nat.ltb_spec 0 (length h)) as [Hlt|Hge].
    - wp_steps. apply wp_condense; [apply Hg..|]. intros b5 Hs5 Hd5. split_and!; [done..|]. intros ->. simpl in Hlt. lia.
    - wp_steps. destruct h; [|simpl in Hge; lia]. split_and!; [done|apply same_rows_refl, Hg|apply holes_dense, Hg|done]. }
  intros [] ru5 (Er & Hs & Hd5 & Eb). wp_steps. split.
  - replace ru5 with (mkRunner (requests ru3) (input_batch ru5)) by (rewrite <- Er; by destruct ru5). by eapply stepped_intro.
  - intros [Hrem Hadd]%orb_false_iff. apply Nat.ltb_ge in Hrem, Hadd.
    assert (Erem : rs1 ++ rs2 = []) by (apply nil_length_inv; lia). destruct Hsame as [-> ->]; [apply nil_length_inv; unfold to_add, new_ids in *; lia|].
    rewrite Eb, (rf_ids _ _ _ _ _ Hr) by by rewrite Erem. change (input_batch (ru2 ru1)) with (input_batch ru1).
    by rewrite (pn_same _ _ Hp Erem).
Qed.

End update_states.

(** ** Decodes before prompts *)

Lemma find_first_spec {A} (p : A -> bool) l : match find_first p l with
  | Some i => (exists x, l !! i = Some x /\ p x = true) /\ forall j y, (j < i)%nat -> l !! j = Some y -> p y = false
  | None => forall j y, l !! j = Some y -> p y = false
  end.
Proof.
  induction l as [|x l IH]; simpl; [by intros j y|]. destruct (p x) eqn:Ep.
  - split; [by exists x|]. intros j y Hj. lia.
  - destruct (find_first p l) as [i|]; simpl.
    + destruct IH as [Hx Hj]. split; [done|]. intros [|j] y Hlt; simpl; [by intros [= <-]|]. apply Hj. lia.
    + intros [|j] y; simpl; [by intros [= <-]|]. apply IH.
Qed.

Lemma find_last_spec {A} (p : A -> bool) l : match find_last p l with
  | Some i => (exists x, l !! i = Some x /\ p x = true) /\ forall j y, (i < j)%nat -> l !! j = Some y -> p y = false
  | None => forall j y, l !! j = Some y -> p y = false
  end.
Proof.
  induction l as [|x l IH]; simpl; [by intros j y|]. destruct (find_last p l) as [i|].
  - destruct IH as [Hx Hj]. split; [done|]. intros [|j] y Hlt; simpl; [lia|]. apply Hj. lia.
  - destruct (p x) eqn:Ep.
    + split; [by exists x|]. intros [|j] y Hlt; simpl; [lia|]. apply IH.
    + intros [|j] y; simpl; [by intros [= <-]|]. apply IH.
Qed.

(** The first [k] positions of the batch hold decodes, the others prompts. *)
Definition partitioned (b : InputBatch) (k : nat) : Prop :=
  forall i s, used b i -> slots b !! i = Some s -> is_prompt s = (k <=? i)%nat.

Lemma dense_used b i : batch_inv b -> dense b -> used b i <-> (i < num_reqs b)%nat.
Proof.
  intros Hb Hd. rewrite dense_num_reqs by done. split; [|apply Hd]. by intros [x Hx%lookup_lt_Some].
Qed.

Lemma wp_decodes_first_loop fuel b0 b f P : same_rows b0 b -> dense b ->
  (forall i s, (i < f)%nat -> slots b !! i = Some s -> is_prompt s = false) -> (num_reqs b0 < fuel + f)%nat ->
  (forall b' k, same_rows b0 b' -> dense b' -> partitioned b' k -> P tt b') ->
  wp (decodes_first_loop fuel (num_reqs b0)) P b.
Proof.
  revert b f. induction fuel as [|fuel IH]; intros b f Hs Hd Hf Hfuel HP; rewrite <- (same_rows_num b0 b) in * by done.
  { wp_steps. apply (HP b (num_reqs b)); [done..|]. intros i s Hu Hi. apply dense_used in Hu; [|apply Hs|done].
    rewrite (proj2 (Nat.leb_gt _ _)) by done. apply (Hf i s); [lia|done]. }
  cbn [decodes_first_loop]. wp_steps.
  assert (Htake : forall i s, used b i -> slots b !! i = Some s -> take (num_reqs b) (slots b) !! i = Some s).
  { intros i s Hu Hi. apply dense_used in Hu; [|apply Hs|done]. by rewrite lookup_take_lt. }
  pose proof (find_first_spec is_prompt (take (num_reqs b) (slots b))) as H1.
  pose proof (find_last_spec (fun s => negb (is_prompt s)) (take (num_reqs b) (slots b))) as H2.
  destruct (find_first is_prompt _) as [i1|].
  2: { wp_steps. apply (HP b (num_reqs b)); [done..|]. intros i s Hu Hi. rewrite (H1 i s) by by apply Htake.
       symmetry. apply Nat.leb_gt. apply dense_used in Hu; [done|apply Hs|done]. }
  destruct (find_last _ _) as [i2|].
  2: { wp_steps. apply (HP b 0%nat); [done..|]. intros i s Hu Hi. apply negb_false_iff. by apply (H2 i s), Htake. }
  destruct H1 as [(s1 & E1 & P1) H1]. destruct H2 as [(s2 & E2 & P2%negb_true_iff) H2].
  assert (Hne : i1 <> i2) by (intros ->; congruence). wp_steps. apply wp_assert; [by apply negb_true_iff, Nat.eqb_neq|].
  destruct (Nat.ltb_spec i2 i1) as [Hlt|Hge].
  { wp_steps. apply (HP b i1); [done..|]. intros i s Hu Hi. apply Htake in Hi; [|done]. destruct (Nat.leb_spec i1 i).
    - apply negb_false_iff, (H2 i s); [lia|done].
    - by apply (H1 i s). }
  apply lookup_take_Some in E1 as [E1 L1], E2 as [E2 L2]. wp_steps.
  apply wp_swap_states; [apply Hs|by apply dense_used; [apply Hs|..]..|done|]. intros b' Hsw.
  apply (IH b' (S i1)).
  - eapply same_rows_trans; [done|apply Hsw].
  - intros i. rewrite (sw_len _ _ _ _ Hsw). intros Hi. pose proof (Hd i Hi) as [x Hx]. unfold used. rewrite (sw_ids _ _ _ _ Hsw).
    repeat case_decide; [apply Hd|apply Hd|by exists x]; rewrite <- dense_num_reqs; (apply Hs || done).
  - intros i s Hi. rewrite (sw_slots _ _ _ _ Hsw). repeat case_decide; [congruence|lia|]. intros Hsi.
    apply (H1 i s); [lia|]. rewrite lookup_take_lt by lia. done.
  - destruct (decide (f <= i1)%nat) as [|Hf1]; [lia|].
    rewrite (Hf i1 s1) in P1; [done|lia|done].
  - done.
Qed.

Lemma wp_ensure_decodes_first b P : batch_inv b -> dense b ->
  (forall b' k, same_rows b b' -> dense b' -> partitioned b' k -> P tt b') -> wp ensure_decodes_first P b.
Proof.
  intros Hb Hd HP. unfold ensure_decodes_first. wp_steps.
  apply (wp_decodes_first_loop _ b b 0); [by apply same_rows_refl|done|lia|lia|done].
Qed.

(** ** Prompts and decodes of a step *)

Definition batch_ids (b : InputBatch) : list string := omap id (_req_ids b).
Definition scheduled (so : SchedulerOutput) (id : string) : Z := default 0 (num_scheduled_tokens so !! id).

Section prompts_and_decodes.
Context (so : SchedulerOutput) (ru : Runner) (k : nat) (ru_ok : runner_ok ru) (Hpart : partitioned (input_batch ru) k).
Context (Hkeys : forall id, is_Some (view (input_batch ru) id) -> is_Some (num_scheduled_tokens so !! id)).
Context (Hstates : forall id, is_Some (view (input_batch ru) id) -> is_Some (requests ru !! id)).
Context (Hdecode : forall id r, view (input_batch ru) id = Some r -> is_prompt (r_values r) = false -> scheduled so id = 1).

Lemma batch_ids_lookup i : batch_ids (input_batch ru) !! i = (_req_ids (input_batch ru) !! i) ≫= id.
Proof.
  destruct ru_ok as [_ Hd]. unfold dense, used, batch_ids in *. revert i Hd. induction (_req_ids (input_batch ru)) as [|o l IH]; intros i Hd; [done|].
  destruct (Hd 0%nat) as [x Hx]; [simpl; lia|]. simpl in Hx. simplify_eq. destruct i as [|i]; [done|]. simpl. apply IH.
  intros j Hj. apply (Hd (S j)). simpl. lia.
Qed.

Lemma batch_ids_length : length (batch_ids (input_batch ru)) = num_reqs (input_batch ru).
Proof. symmetry. by apply num_reqs_count, ru_ok. Qed.

(** The request at a position, its row and its kind. *)
Lemma request_at_spec i id : batch_ids (input_batch ru) !! i = Some id -> exists s n r,
  request_at so (input_batch ru) i = Ok (id, s, n) /\ num_scheduled_tokens so !! id = Some n /\
  view (input_batch ru) id = Some r /\ is_prompt (r_values r) = is_prompt s /\ is_prompt s = (k <=? i)%nat /\
  is_Some (requests ru !! id).
Proof.
  rewrite batch_ids_lookup. destruct (_req_ids (input_batch ru) !! i) as [o|] eqn:Eo; [|done]. intros E. simpl in E. subst o.
  assert (Hi : InputBatch.req_id_to_index (input_batch ru) !! id = Some i) by by apply bi_index; [apply ru_ok|].
  destruct (inv_slot _ id i (proj1 ru_ok) Hi) as (s & Hs & _). pose proof (view_at _ id i s Hi Hs) as Hv.
  destruct (Hkeys id) as [n Hn]; [by eexists|]. exists s, n. eexists. split; [|split; [done|split; [exact Hv|split; [done|split]]]].
  - unfold request_at. rewrite (py_get_Some _ _ _ Eo). cbn [mbind result_mbind]. rewrite (py_get_Some _ _ _ Hs).
    cbn [mbind result_mbind]. by rewrite Hn.
  - apply Hpart; [by exists id|done].
  - apply Hstates. by eexists.
Qed.

Lemma take_decodes_spec i m : (i + m = length (batch_ids (input_batch ru)))%nat ->
  take_decodes so (input_batch ru) (seq i m) = Ok (take (k - i) (drop i (batch_ids (input_batch ru)))).
Proof.
  revert i. induction m as [|m IH]; intros i Him; cbn [seq take_decodes]; [by rewrite drop_ge, take_nil by lia|].
  destruct (lookup_lt_is_Some_2 (batch_ids (input_batch ru)) i) as [id Hid]; [lia|].
  destruct (request_at_spec i id Hid) as (s & n & r & E & En & Ev & Er & Ep & _). rewrite E. cbn [mbind result_mbind].
  rewrite (drop_S _ id) by done. rewrite Ep. destruct (Nat.leb_spec k i) as [Hle|Hgt].
  - by replace (k - i)%nat with 0%nat by lia.
  - assert (n = 1) as ->. { rewrite <- (Hdecode id r Ev); [unfold scheduled; by rewrite En|]. by rewrite Er, Ep. }
    rewrite IH by lia. replace (k - i)%nat with (S (k - S i)) by lia. done.
Qed.

(** The states of the prompts have no output yet. *)
Definition no_output (id : string) : Prop := forall c, requests ru !! id = Some c -> c_output_token_ids c = [].

Lemma take_prompts_spec i m : (k <= i)%nat -> (i + m = length (batch_ids (input_batch ru)))%nat ->
  (forall id, id ∈ drop i (batch_ids (input_batch ru)) -> no_output id) ->
  take_prompts so ru (seq i m) =
    Ok (drop i (batch_ids (input_batch ru)), scheduled so <$> drop i (batch_ids (input_batch ru))).
Proof.
  revert i. induction m as [|m IH]; intros i Hki Him Hno; cbn [seq take_prompts]; [by rewrite drop_ge by lia|].
  destruct (lookup_lt_is_Some_2 (batch_ids (input_batch ru)) i) as [id Hid]; [lia|].
  destruct (request_at_spec i id Hid) as (s & n & r & E & En & Ev & Er & Ep & [c Hc]). rewrite E. cbn [mbind result_mbind].
  rewrite (drop_S _ id) in Hno |- * by done. rewrite Ep, (proj2 (Nat.leb_le _ _)), Hc by done. cbn [negb].
  rewrite (Hno id ltac:(left) c Hc), IH; [|lia|lia|intros id' Hid'; apply Hno; by right].
  assert (Hn : scheduled so id = n) by (unfold scheduled; by rewrite En). cbn [mbind result_mbind fst snd fmap list_fmap]. by rewrite Hn.
Qed.

(** A prompt whose state has output fails the assertion. *)
Lemma take_prompts_output i m id c : (k <= i)%nat -> (i + m = length (batch_ids (input_batch ru)))%nat ->
  id ∈ drop i (batch_ids (input_batch ru)) -> requests ru !! id = Some c -> c_output_token_ids c <> [] ->
  take_prompts so ru (seq i m) = Err AssertionError.
Proof.
  revert i. induction m as [|m IH]; intros i Hki Him Hin Hc Ho; cbn [seq take_prompts].
  { rewrite drop_ge in Hin by lia. by apply not_elem_of_nil in Hin. }
  destruct (lookup_lt_is_Some_2 (batch_ids (input_batch ru)) i) as [x Hx]; [lia|].
  destruct (request_at_spec i x Hx) as (s & n & r & E & En & Ev & Er & Ep & [c' Hc']). rewrite E. cbn [mbind result_mbind].
  rewrite Ep, (proj2 (Nat.leb_le _ _)), Hc' by done. cbn [negb]. rewrite (drop_S _ x) in Hin by done.
  destruct (c_output_token_ids c') eqn:Eo; [|done]. apply elem_of_cons in Hin as [->|Hin]; [congruence|].
  by rewrite (IH (S i)) by (done || lia).
Qed.

Lemma get_prompts_and_decodes_ok : 0 < total_num_scheduled_tokens so -> (0 < num_reqs (input_batch ru))%nat ->
  (forall id r, view (input_batch ru) id = Some r -> is_prompt (r_values r) = true -> no_output id) ->
  exists info, _get_prompts_and_decodes so ru = Ok info /\
    decode_req_ids info ++ prompt_req_ids info = batch_ids (input_batch ru) /\
    (forall id, id ∈ decode_req_ids info -> exists r, view (input_batch ru) id = Some r /\ is_prompt (r_values r) = false) /\
    (forall id, id ∈ prompt_req_ids info -> exists r, view (input_batch ru) id = Some r /\ is_prompt (r_values r) = true) /\
    prompt_scheduled_tokens info = scheduled so <$> prompt_req_ids info.
Proof.
  intros Ht Hn Hno. pose proof batch_ids_length as Hlen. set (ids := batch_ids (input_batch ru)) in *.
  set (m := length (take k ids)). assert (Hm : m = Nat.min k (length ids)) by apply length_take.
  assert (Hkind : forall i id, ids !! i = Some id -> exists r, view (input_batch ru) id = Some r /\ is_prompt (r_values r) = (k <=? i)%nat).
  { intros i id Hid. destruct (request_at_spec i id Hid) as (s & n & r & _ & _ & Ev & Er & Ep & _). exists r. by rewrite Er. }
  assert (Hp : forall id, id ∈ drop m ids -> exists r, view (input_batch ru) id = Some r /\ is_prompt (r_values r) = true).
  { intros id [i Hi]%list_elem_of_lookup. rewrite lookup_drop in Hi. pose proof (lookup_lt_Some _ _ _ Hi).
    destruct (Hkind _ _ Hi) as (r & Ev & Ep). exists r. split; [done|]. rewrite Ep. apply Nat.leb_le. lia. }
  assert (Hpr : take_prompts so ru (seq m (num_reqs (input_batch ru) - m)) = Ok (drop m ids, scheduled so <$> drop m ids)).
  { destruct (decide (k <= length ids)%nat).
    - apply take_prompts_spec; [lia|fold ids; lia|]. intros id Hid. destruct (Hp id Hid) as (r & Ev & Ep). by eapply Hno.
    - replace (num_reqs (input_batch ru) - m)%nat with 0%nat by lia. simpl. by rewrite drop_ge by lia. }
  unfold _get_prompts_and_decodes. rewrite (proj2 (Z.ltb_lt _ _)), (proj2 (Nat.eqb_neq _ _)) by lia. cbn [negb].
  rewrite take_decodes_spec by (fold ids; lia). cbn [mbind result_mbind]. rewrite Nat.sub_0_r, drop_0. fold ids m. rewrite Hpr.
  eexists. split; [done|]. cbn [decode_req_ids prompt_req_ids prompt_scheduled_tokens fst snd]. split; [|split; [|split; [exact Hp|done]]].
  - replace (take k ids) with (take m ids); [apply take_drop|]. rewrite Hm. rewrite <- take_take. by rewrite (take_ge ids (length ids)).
  - intros id [i [Hi Hk]%lookup_take_Some]%list_elem_of_lookup. destruct (Hkind _ _ Hi) as (r & Ev & Ep). exists r.
    split; [done|]. rewrite Ep. by apply Nat.leb_gt.
Qed.

End prompts_and_decodes.

(** ** The tokens of a request in the worker *)

Definition c_tokens (c : CachedRequestState) : list Z := c_prompt_token_ids c ++ c_output_token_ids c.

Lemma c_tokens_length c : c_num_tokens c = len (c_tokens c).
Proof. unfold c_num_tokens, c_tokens, len. rewrite length_app. lia. Qed.

(** The part of [l] from [start] to [end_]. *)
Definition slice {A} (start end_ : nat) (l : list A) : list A := take (end_ - start) (drop start l).

Lemma take_slice {A} (m e : nat) (l : list A) : (m <= e)%nat -> take m l ++ slice m e l = take e l.
Proof. intros Hme. unfold slice. rewrite take_take_drop. f_equal. lia. Qed.

Lemma last_n_slice {A} (s m e : nat) (l : list A) : (s <= m <= e)%nat -> (e <= length l)%nat ->
  last_n (e - m) (slice s e l) = slice m e l.
Proof.
  intros Hm He. unfold last_n, slice. rewrite length_take, length_drop, Nat.min_l by lia.
  replace (e - s - (e - m))%nat with (m - s)%nat by lia.
  apply list_eq. intros i. rewrite lookup_drop. destruct (decide (i < e - m)%nat).
  - rewrite !lookup_take_lt, !lookup_drop by lia. f_equal. lia.
  - by rewrite !lookup_take_ge by lia.
Qed.

(** The runner has a prefix of the sequence [t], the scheduler sends a part of
    it that begins among the tokens the runner has: what is missing is computed
    without error and extends the prefix. *)
Lemma missing_tokens_spec (t : list Z) d c : c_tokens c `prefix_of` t -> 0 <= cr_num_computed_tokens d <= c_num_tokens c ->
  cr_num_computed_tokens d + len (new_token_ids d) <= len t ->
  new_token_ids d = slice (Z.to_nat (cr_num_computed_tokens d))
    (Z.to_nat (cr_num_computed_tokens d) + length (new_token_ids d)) t ->
  (exists new, missing_tokens d c = Ok new) /\
  c_tokens (cached_state d c) =
    take (Nat.max (length (c_tokens c)) (Z.to_nat (cr_num_computed_tokens d) + length (new_token_ids d))) t.
Proof.
  intros Hpre Hnc Hlen Hnew. rewrite c_tokens_length in Hnc. unfold len in *.
  set (s := Z.to_nat (cr_num_computed_tokens d)) in *. set (n := length (new_token_ids d)) in *. set (m := length (c_tokens c)) in *.
  assert (Hc : c_tokens c = take m t). { destruct Hpre as [k ->]. unfold m. by rewrite take_app_length. }
  assert (Hst : forall new, missing_tokens d c = Ok new -> c_tokens (cached_state d c) = c_tokens c ++ new).
  { intros new E. unfold cached_state. rewrite E. unfold c_tokens. simpl. by rewrite (assoc (++)). }
  assert (Hm : missing_tokens d c = Ok (if decide (m < s + n)%nat then slice m (s + n) t else [])).
  { assert (Hx : cr_num_computed_tokens d + Z.of_nat n - c_num_tokens c = Z.of_nat (s + n) - Z.of_nat m)
      by (rewrite c_tokens_length; unfold len; fold m; lia).
    unfold missing_tokens, len. fold n. rewrite Hx. case_decide as Hd.
    - assert (Hln : last_n (s + n - m) (new_token_ids d) = slice m (s + n) t) by (rewrite Hnew; apply last_n_slice; lia).
      destruct (Z.eqb_spec (Z.of_nat (s + n) - Z.of_nat m) 1) as [E1|E1].
      + replace (s + n - m)%nat with 1%nat in Hln by lia. rewrite <- Hln. unfold last_n. fold n.
        destruct (last (new_token_ids d)) as [x|] eqn:El.
        * apply last_Some in El as [l' El]. unfold n. rewrite El, length_app. simpl.
          by rewrite drop_app_length' by lia.
        * apply last_None in El. unfold n in *. rewrite El in *. simpl in *. lia.
      + rewrite (proj2 (Z.ltb_lt _ _)) by lia. rewrite <- Hln. do 2 f_equal. lia.
    - rewrite (proj2 (Z.eqb_neq _ _)), (proj2 (Z.ltb_ge _ _)) by lia. done. }
  split; [by eexists|]. rewrite (Hst _ Hm), Hc at 1. case_decide.
  - rewrite Nat.max_r by lia. apply take_slice. lia.
  - rewrite app_nil_r, Nat.max_l by lia. done.
Qed.

(** [t] gives the token sequence of every request, as the scheduler knows it. *)
Record linked (t : string -> list Z) (ru : Runner) : Prop := {
  lk_state : forall id c, requests ru !! id = Some c -> c_req_id c = id /\ c_tokens c `prefix_of` t id;
  lk_row : forall id r, view (input_batch ru) id = Some r -> r_tokens r `prefix_of` t id /\
    exists c, requests ru !! id = Some c /\ num_prompt_tokens (r_values r) = len (c_prompt_token_ids c) /\
      num_computed_tokens_cpu (r_values r) = c_num_computed_tokens c
}.

(** The scheduler sends parts of the sequences, and no draft tokens. *)
Record sends (t : string -> list Z) (so : SchedulerOutput) (ru : Runner) : Prop := {
  sd_new : forall d, d ∈ scheduled_new_reqs so -> nr_prompt_token_ids d `prefix_of` t (nr_req_id d);
  sd_cached : forall d c, d ∈ scheduled_cached_reqs so -> requests ru !! cr_req_id d = Some c ->
    0 <= cr_num_computed_tokens d <= c_num_tokens c /\
    cr_num_computed_tokens d + len (new_token_ids d) <= len (t (cr_req_id d)) /\
    new_token_ids d = slice (Z.to_nat (cr_num_computed_tokens d))
      (Z.to_nat (cr_num_computed_tokens d) + length (new_token_ids d)) (t (cr_req_id d));
  sd_spec : forall d, d ∈ scheduled_cached_reqs so -> spec_tokens so (cr_req_id d) = []
}.

Lemma prefix_take_of {A} n (l : list A) : take n l `prefix_of` l.
Proof. exists (drop n l). by rewrite take_drop. Qed.

Lemma linked_step t so ru ru' : linked t ru -> output_ok so ru -> sends t so ru -> stepped so ru ru' -> linked t ru'.
Proof.
  intros Hl Hso Hs Hst.
  assert (Hstate : forall id c, requests ru' !! id = Some c -> c_req_id c = id /\ c_tokens c `prefix_of` t id).
  { intros id c Hc. destruct (decide (id ∈ dom (num_scheduled_tokens so))) as [Hid|Hid].
    - apply (scheduled_iff so ru Hso) in Hid as [(d & -> & Hd)%list_elem_of_fmap|(d & -> & Hd)%list_elem_of_fmap].
      + rewrite (proj1 (st_new _ _ _ Hst d Hd)) in Hc. simplify_eq. split; [done|]. unfold c_tokens. simpl. rewrite app_nil_r.
        by apply (sd_new _ _ _ Hs).
      + rewrite (proj1 (st_cached _ _ _ Hst d Hd)) in Hc. apply fmap_Some in Hc as (c0 & Hc0 & ->).
        destruct (lk_state _ _ Hl _ _ Hc0) as [Eid Hpre]. destruct (sd_cached _ _ _ Hs d c0 Hd Hc0) as (H1 & H2 & H3).
        destruct (missing_tokens_spec (t (cr_req_id d)) d c0) as [[new En] ->]; [done..|]. split; [|apply prefix_take_of].
        unfold cached_state. by rewrite En.
    - rewrite (proj2 (st_other _ _ _ Hst id Hid)) in Hc. case_decide; [done|]. by apply (lk_state _ _ Hl). }
  split; [done|]. intros id r Hr. destruct (decide (id ∈ dom (num_scheduled_tokens so))) as [Hid|Hid].
  2: { rewrite (proj1 (st_other _ _ _ Hst id Hid)) in Hr. done. }
  apply (scheduled_iff so ru Hso) in Hid as [(d & -> & Hd)%list_elem_of_fmap|(d & -> & Hd)%list_elem_of_fmap].
  - destruct (st_new _ _ _ Hst d Hd) as [Ec Ev]. rewrite Ev in Hr. simplify_eq. split; [|by exists (new_state d)].
    by apply (Hstate _ (new_state d)).
  - destruct (st_cached _ _ _ Hst d Hd) as [Ec Ev]. rewrite Ev in Hr.
    destruct (oo_cached _ _ Hso d Hd) as (_ & (c & Hc & [new En] & Hfit) & _). rewrite Hc in Ec. simpl in Ec.
    destruct (view (input_batch ru) (cr_req_id d)) as [r0|] eqn:Er0.
    + simplify_eq. destruct (lk_row _ _ Hl _ _ Er0) as [Hpre (c' & Hc' & Ep & _)]. simplify_eq.
      destruct (sd_cached _ _ _ Hs d c Hd Hc) as (H1 & H2 & H3). rewrite (sd_spec _ _ _ Hs d Hd). split.
      * simpl. rewrite app_nil_r, H3. destruct Hpre as [k Hk]. pose proof (uf_computed _ _ _ _ Hfit) as [? Hle].
        assert (Ht : take (Z.to_nat (cr_num_computed_tokens d)) (r_tokens r0) = take (Z.to_nat (cr_num_computed_tokens d)) (t (cr_req_id d))).
        { rewrite Hk, take_app_le; [done|]. unfold len in Hle. lia. }
        rewrite Ht, take_slice by lia. apply prefix_take_of.
      * exists (cached_state d c). split; [done|]. unfold cached_state. rewrite En. done.
    + rewrite Ec in Hr. simpl in Hr. simplify_eq. split; [by apply (Hstate _ (cached_state d c))|].
      exists (cached_state d c). done.
Qed.

(** ** Storing the sampled tokens *)

Definition sampled_of (sampled : list (Z * string)) (id : string) : list Z := fst <$> filter (fun p => snd p = id) sampled.

Lemma max_index_le m (id : string) i : m !! id = Some i -> (i <= max_index m)%nat.
Proof.
  unfold max_index. revert id i. refine (map_fold_weak_ind (fun acc m => forall id i, m !! id = Some i -> (i <= acc)%nat) _ 0%nat _ _ m).
  - intros id i. by rewrite lookup_empty.
  - intros k j m' acc _ IH id i [[<- <-]|[_ Hi]]%lookup_insert_Some; [lia|]. apply IH in Hi. lia.
Qed.

Lemma postprocess_ok m sampled acc :
  (forall id id' i, m !! id = Some i -> m !! id' = Some i -> id = id') ->
  (forall id, id ∈ snd <$> sampled -> exists i, m !! id = Some i /\ (i < length acc)%nat) ->
  exists acc', postprocess m sampled acc = Ok acc' /\
    forall id i, m !! id = Some i -> acc' !! i = (fun row => row ++ sampled_of sampled id) <$> acc !! i.
Proof.
  intros Hinj. revert acc. induction sampled as [|[tok x] sampled IH]; intros acc Hin; cbn [postprocess].
  { exists acc. split; [done|]. intros id i _. destruct (acc !! i); simpl; [by rewrite app_nil_r|done]. }
  destruct (Hin x ltac:(left)) as (j & Ej & Lj). rewrite Ej. destruct (lookup_lt_is_Some_2 acc j Lj) as [row Hrow].
  rewrite (py_get_Some _ _ _ Hrow). cbn [mbind result_mbind].
  destruct (IH (<[j := row ++ [tok]]> acc)) as (acc' & E & Hacc).
  { intros id Hid. rewrite length_insert. apply Hin. by right. }
  exists acc'. split; [done|]. intros id i Hi. rewrite (Hacc id i Hi). unfold sampled_of. rewrite filter_cons. simpl.
  destruct (decide (x = id)) as [->|Hne].
  - simplify_eq. rewrite list_lookup_insert_eq, Hrow by done. simpl. by rewrite <- (assoc (++)).
  - rewrite list_lookup_insert_ne; [done|]. intros ->. by apply Hne, (Hinj x id i).
Qed.

Definition row_commit (toks : list Z) (r : Row) : Row :=
  let v := r_values r in
  mkRow (r_tokens r ++ toks) (slot_nums (num_tokens v + len toks) (num_tokens_no_spec v) (num_prompt_tokens v) (num_computed_tokens_cpu v) v)
    (r_blocks r) (r_dicts r) (r_flags r) (r_logs r).
Definition state_commit (toks : list Z) (c : CachedRequestState) : CachedRequestState :=
  mkCachedRequestState (c_req_id c) (c_prompt_token_ids c) (c_sampling_params c) (c_generator c) (c_block_ids c)
    (c_num_computed_tokens c) (c_output_token_ids c ++ toks) (c_lora_request c).

(** The tokens of a request go right after those of its row, or there are none. *)
Definition commit_fits (b : InputBatch) (toks : list Z) (n : Z) (c : CachedRequestState) (r : Row) : Prop :=
  toks = [] \/ (0 <= c_num_computed_tokens c + n /\ c_num_computed_tokens c + n = num_tokens (r_values r) /\
    num_tokens (r_values r) + len toks <= Z.of_nat (max_model_len b)).

Lemma write_tokens toks n c b i s id : batch_inv b -> slots b !! i = Some s ->
  commit_fits b toks n c (row_at b i s id) ->
  exists row, write_slice (Z.to_nat (c_num_computed_tokens c + n)) toks (token_ids_cpu s) = Ok row /\
    length row = length (token_ids_cpu s) /\ take (Z.to_nat (num_tokens s + len toks)) row = slot_row s ++ toks.
Proof.
  intros Hb Hs [->|(H0 & H1 & H2)].
  - exists (token_ids_cpu s). split; [|split; [done|]].
    + unfold write_slice. simpl. destruct (_ <=? _)%nat; [|done]. by rewrite Nat.add_0_r, take_drop.
    + unfold len. simpl. by rewrite Z.add_0_r, app_nil_r.
  - cbn in H1, H2. pose proof (bi_rows b Hb i s Hs) as Hrow. unfold len in *. rewrite H1 in *.
    assert (Hw : (Z.to_nat (num_tokens s) + length toks <= length (token_ids_cpu s))%nat) by lia.
    pose proof (write_slice_ok _ _ _ Hw) as E. eexists. split; [exact E|]. split; [exact (write_slice_length _ _ _ _ E)|].
    rewrite (assoc (++)), take_app_length'; [done|]. rewrite length_app, length_take. lia.
Qed.

Lemma wp_store_tokens so tokens ru id c i n toks r P : batch_inv (input_batch ru) ->
  requests ru !! id = Some c -> InputBatch.req_id_to_index (input_batch ru) !! id = Some i ->
  num_scheduled_tokens so !! id = Some n -> tokens !! i = Some toks -> view (input_batch ru) id = Some r ->
  commit_fits (input_batch ru) toks n c r ->
  (forall b', updated (input_batch ru) b' id (row_commit toks r) ->
     P tt (mkRunner (<[id := state_commit toks c]> (requests ru)) b')) ->
  wp (store_tokens so tokens (Some id)) P ru.
Proof.
  intros Hb Hc Hi Hn Ht Hv Hfit HP. apply view_Some in Hv as (i' & s & Hi' & Hs & ->); [|done]. simplify_eq.
  unfold store_tokens. wp_steps. rewrite Hc, Hi, Hn. wp_steps. eapply wp_lift; [by apply py_get_Some|]. wp_steps.
  destruct (write_tokens toks n c _ i s id Hb Hs Hfit) as (row & E & Lrow & Erow). apply wp_slots_self.
  eapply wp_upd_slot; [done|cbn beta; by rewrite E|]. wp_steps. apply HP.
  match goal with |- updated _ ?x _ _ =>
    match x with context [<[i := ?y]> _] => set (s' := y) end end.
  eassert (Hup : updated (input_batch ru) (set_slots (<[i := s']> (slots (input_batch ru))) (set_table (block_table (input_batch ru)) (input_batch ru))) id _).
  { eapply updated_at; try done. apply Hb. }
  assert (Er : row_commit toks (row_at (input_batch ru) i s id) = mkRow (slot_row s') (slot_tokens [] s')
    (multi_blocks (block_table (input_batch ru)) i) (dict_at i (dicts (input_batch ru))) (flags id (reqs (input_batch ru))) (logs id (reqs (input_batch ru)))).
  { unfold row_commit. f_equal. cbn [r_tokens row_at]. rewrite <- Erow. done. }
  rewrite Er. exact Hup.
Qed.

Record committed (f : string -> list Z) (ids : list string) (ru ru' : Runner) : Prop := {
  cm_inv : batch_inv (input_batch ru');
  cm_dims : dims (input_batch ru') = dims (input_batch ru);
  cm_ids : _req_ids (input_batch ru') = _req_ids (input_batch ru);
  cm_index : InputBatch.req_id_to_index (input_batch ru') = InputBatch.req_id_to_index (input_batch ru);
  cm_view : forall id, view (input_batch ru') id =
    if decide (id ∈ ids) then row_commit (f id) <$> view (input_batch ru) id else view (input_batch ru) id;
  cm_requests : forall id, requests ru' !! id =
    if decide (id ∈ ids) then state_commit (f id) <$> requests ru !! id else requests ru !! id
}.

(** What has to hold of a request of the batch. *)
Definition commit_ok (so : SchedulerOutput) (ru : Runner) (tokens : list (list Z)) (toks : list Z) (id : string) : Prop :=
  exists c i n r, requests ru !! id = Some c /\ InputBatch.req_id_to_index (input_batch ru) !! id = Some i /\
    num_scheduled_tokens so !! id = Some n /\ tokens !! i = Some toks /\ view (input_batch ru) id = Some r /\
    commit_fits (input_batch ru) toks n c r.

Lemma wp_store_all so tokens f ids ru P : batch_inv (input_batch ru) -> NoDup ids ->
  (forall id, id ∈ ids -> commit_ok so ru tokens (f id) id) ->
  (forall ru', committed f ids ru ru' -> P tt ru') -> wp (for_each (store_tokens so tokens) (Some <$> ids)) P ru.
Proof.
  revert ru. induction ids as [|id ids IH]; intros ru Hb Hnd Hok HP.
  { wp_steps. apply HP. by split. }
  cbn [fmap list_fmap for_each]. wp_steps. apply NoDup_cons in Hnd as [Hni Hnd].
  destruct (Hok id) as (c & i & n & r & Hc & Hi & Hn & Ht & Hv & Hfit); [by left|].
  eapply wp_store_tokens; [done..|]. intros b1 H1. apply IH; [apply H1|done| |].
  - intros id' Hid'. assert (Hne : id' <> id) by congruence.
    destruct (Hok id') as (c' & i' & n' & r' & Hc' & Hi' & Hn' & Ht' & Hv' & Hfit'); [by right|]. exists c', i', n', r'. simpl.
    rewrite lookup_insert_ne, (up_index _ _ _ _ H1), (up_view _ _ _ _ H1), decide_False by done.
    split_and!; try done. unfold commit_fits. pose proof (up_dims _ _ _ _ H1) as [= _ -> _ _]. exact Hfit'.
  - intros ru' H. apply HP. split; try apply H.
    + rewrite (cm_dims _ _ _ _ H). apply H1.
    + rewrite (cm_ids _ _ _ _ H). apply H1.
    + rewrite (cm_index _ _ _ _ H). apply H1.
    + intros id'. rewrite (cm_view _ _ _ _ H). simpl. rewrite (up_view _ _ _ _ H1). destruct (decide (id' = id)) as [->|Hne].
      * rewrite decide_False by done. by rewrite (decide_True (P := id ∈ id :: ids)), Hv by left.
      * apply decide_ext. set_solver.
    + intros id'. rewrite (cm_requests _ _ _ _ H). simpl. destruct (decide (id' = id)) as [->|Hne].
      * rewrite decide_False, lookup_insert_eq by done. by rewrite (decide_True (P := id ∈ id :: ids)), Hc by left.
      * rewrite lookup_insert_ne by done. apply decide_ext. set_solver.
Qed.

Lemma dense_ids b : batch_inv b -> dense b -> take (num_reqs b) (_req_ids b) = Some <$> batch_ids b.
Proof.
  intros Hb Hd. rewrite dense_num_reqs, take_ge by done. unfold batch_ids, dense, used in *. clear Hb.
  induction (_req_ids b) as [|o l IH]; [done|]. destruct (Hd 0%nat) as [x Hx]; [simpl; lia|]. simpl in Hx. simplify_eq. simpl.
  f_equal. apply IH. intros j Hj. apply (Hd (S j)). simpl. lia.
Qed.

Lemma batch_ids_elem b id : batch_inv b -> id ∈ batch_ids b <-> is_Some (view b id).
Proof.
  intros Hb. unfold batch_ids. rewrite view_dom, list_elem_of_omap by done. split.
  - intros (o & [i Hi]%list_elem_of_lookup & Ho). simpl in Ho. subst o. exists i. by apply (bi_index b Hb).
  - intros [i Hi%(bi_index b Hb)]. exists (Some id). split; [by eapply list_elem_of_lookup_2|done].
Qed.

Lemma batch_ids_nodup b : batch_inv b -> dense b -> NoDup (batch_ids b).
Proof.
  intros Hb Hd. apply NoDup_alt. intros i j x Hi Hj. apply (f_equal (fmap Some)) in Hi, Hj.
  rewrite <- !list_lookup_fmap, <- dense_ids in Hi, Hj by done. simpl in Hi, Hj.
  apply lookup_take_Some in Hi as [Hi%(bi_index b Hb) _], Hj as [Hj%(bi_index b Hb) _]. congruence.
Qed.

Lemma wp_commit so sampled ru P : runner_ok ru -> (0 < num_reqs (input_batch ru))%nat ->
  (forall id, id ∈ snd <$> sampled -> is_Some (view (input_batch ru) id)) ->
  (forall id r, view (input_batch ru) id = Some r -> exists c n, requests ru !! id = Some c /\
     num_scheduled_tokens so !! id = Some n /\ commit_fits (input_batch ru) (sampled_of sampled id) n c r) ->
  (forall tokens ru', committed (sampled_of sampled) (batch_ids (input_batch ru)) ru ru' ->
     (forall id i, InputBatch.req_id_to_index (input_batch ru) !! id = Some i -> tokens !! i = Some (sampled_of sampled id)) -> P tokens ru') ->
  wp (commit so sampled) P ru.
Proof.
  intros [Hb Hd] Hn Hin Hok HP. unfold commit. wp_steps. set (m := InputBatch.req_id_to_index (input_batch ru)).
  rewrite decide_False by (intros E; unfold num_reqs in Hn; fold m in Hn; rewrite E, map_size_empty in Hn; lia). wp_steps.
  destruct (postprocess_ok m sampled (replicate (S (max_index m)) [])) as (tokens & E & Htok).
  { intros id id' i. by apply index_inj. }
  { intros id Hid. destruct (Hin id Hid) as [r Hr]. destruct (proj1 (view_dom _ id Hb)) as [i Hi]; [by eexists|].
    exists i. split; [done|]. rewrite length_replicate. apply max_index_le in Hi. fold m in Hi. lia. }
  eapply wp_lift; [exact E|]. wp_steps. rewrite dense_ids by done.
  assert (Hrow : forall id i, m !! id = Some i -> tokens !! i = Some (sampled_of sampled id)).
  { intros id i Hi. rewrite (Htok id i Hi). rewrite lookup_replicate_2; [done|]. apply max_index_le in Hi. lia. }
  eapply wp_store_all; [done|by apply batch_ids_nodup| |].
  - intros id [r Hr]%batch_ids_elem; [|done]. destruct (Hok id r Hr) as (c & n & Hc & Hnn & Hfit).
    destruct (proj1 (view_dom _ id Hb)) as [i Hi]; [by eexists|]. exists c, i, n, r. split_and!; [done..|by apply Hrow|done|done].
  - intros ru' H. wp_steps. by apply HP.
Qed.

(** ** The properties *)


(** C9: the worker's copy of every request stays a prefix of the scheduler's
    token sequence, when no draft tokens are sent: if states and rows hold
    prefixes before the step, and the scheduler sends parts that begin among
    the tokens the worker has, states and rows hold prefixes after
    [_update_states], with the row's prompt length and computed count those of
    the state. *)
Theorem worker_tokens_agree t set_order so ru : (forall s, set_order s ≡ₚ elements s) -> runner_ok ru -> output_ok so ru ->
  linked t ru -> sends t so ru -> wp (_update_states set_order so) (fun _ ru' => runner_ok ru' /\ linked t ru') ru.
Proof.
  intros Ho Hru Hso Hl Hs. eapply wp_mono; [by apply wp_update_states|]. intros changed ru' [Hst _].
  split; [apply Hst|by eapply linked_step].
Qed.

(** C11: on a batch without holes [ensure_decodes_first] ends, with the
    decodes before the prompts, and the row of every request is as it was in
    what [view] holds of it: tokens, counts, blocks, sampling parameters,
    membership in the sets, but not its logit bias and not its row of the
    allowed-token mask. The mask row is what the swaps can get wrong: see
    [swap_states_merges_masks]. *)
Theorem ensure_decodes_first_spec b : batch_inv b -> dense b ->
  wp ensure_decodes_first (fun _ b' => batch_inv b' /\ dense b' /\ (forall id, view b' id = view b id) /\
    exists k, forall i s, used b' i -> slots b' !! i = Some s -> is_prompt s = (k <=? i)%nat) b.
Proof.
  intros Hb Hd. apply wp_ensure_decodes_first; [done..|]. intros b' k Hs Hd' Hk.
  split; [apply Hs|]. split; [done|]. split; [apply Hs|]. by exists k.
Qed.

(** New requests have a prompt to compute; of the others, those whose prompt is
    computed have one token scheduled, and those whose is not have no output. *)
Definition kinds_ok (so : SchedulerOutput) (ru : Runner) : Prop :=
  (forall d, d ∈ scheduled_new_reqs so -> nr_num_computed_tokens d < len (nr_prompt_token_ids d)) /\
  (forall d c, d ∈ scheduled_cached_reqs so -> requests ru !! cr_req_id d = Some c ->
     if cr_num_computed_tokens d <? len (c_prompt_token_ids c) then c_output_token_ids (cached_state d c) = []
     else scheduled so (cr_req_id d) = 1).

(** Prompts of the batch have no output, decodes have one token. *)
Lemma stepped_kinds t so ru ru' : output_ok so ru -> linked t ru' -> kinds_ok so ru -> stepped so ru ru' ->
  forall id r, view (input_batch ru') id = Some r ->
    id ∈ dom (num_scheduled_tokens so) /\
    if is_prompt (r_values r) then no_output ru' id else scheduled so id = 1.
Proof.
  intros Hso Hl [Hkn Hkc] Hst id r Hr. assert (Hid : id ∈ dom (num_scheduled_tokens so)).
  { destruct (decide (id ∈ dom (num_scheduled_tokens so))) as [|Hid]; [done|]. rewrite (proj1 (st_other _ _ _ Hst id Hid)) in Hr. done. }
  split; [done|]. destruct (lk_row _ _ Hl _ _ Hr) as [_ (c & Hc & Ep & En)]. unfold is_prompt. rewrite Ep, En.
  apply (scheduled_iff so ru Hso) in Hid as [(d & -> & Hd)%list_elem_of_fmap|(d & -> & Hd)%list_elem_of_fmap].
  - rewrite (proj1 (st_new _ _ _ Hst d Hd)) in Hc. simplify_eq. pose proof (Hkn d Hd). cbn [new_state c_num_computed_tokens c_prompt_token_ids].
    rewrite (proj2 (Z.ltb_lt _ _)) by done. intros c' Hc'. rewrite (proj1 (st_new _ _ _ Hst d Hd)) in Hc'. by simplify_eq.
  - pose proof (proj1 (st_cached _ _ _ Hst d Hd)) as Hc'. rewrite Hc in Hc'. symmetry in Hc'. apply fmap_Some in Hc' as (c0 & Hc0 & ->).
    specialize (Hkc d c0 Hd Hc0). destruct (oo_cached _ _ Hso d Hd) as (_ & (c1 & Hc1 & [new Enew] & _) & _). simplify_eq.
    assert (Ex : c_num_computed_tokens (cached_state d c0) = cr_num_computed_tokens d /\ c_prompt_token_ids (cached_state d c0) = c_prompt_token_ids c0)
      by (unfold cached_state; by rewrite Enew).
    destruct Ex as [-> ->]. destruct (_ <? _); [|done]. intros c' Hc''. congruence.
Qed.

(** C8: [execute_model] up to its inputs. The runner is in step with the
    scheduler, whose output names requests the runner knows and the arrays can
    hold, and sends parts of their sequences and no draft tokens. New requests
    have a prompt to compute; of the others, those with a computed prompt have
    one token scheduled, and those without have no output yet: this leaves out
    resumed requests with output, for which the step fails
    ([resumed_with_output_asserts]). Then the update, the reordering and the
    split into decodes and prompts succeed; the decodes followed by the
    prompts are exactly the scheduled requests in batch order, each on the
    side its counts say, the prompts with their scheduled numbers of tokens,
    and the runner stays in step. *)
Theorem prepare_spec t set_order so ru : (forall s, set_order s ≡ₚ elements s) -> runner_ok ru -> output_ok so ru ->
  linked t ru -> sends t so ru -> kinds_ok so ru -> 0 < total_num_scheduled_tokens so -> num_scheduled_tokens so <> ∅ ->
  wp (prepare set_order so) (fun r ru' => runner_ok ru' /\ linked t ru' /\ exists info, r = Some info /\
    decode_req_ids info ++ prompt_req_ids info = batch_ids (input_batch ru') /\
    (forall id, id ∈ batch_ids (input_batch ru') <-> id ∈ dom (num_scheduled_tokens so)) /\
    (forall id, id ∈ decode_req_ids info -> exists r, view (input_batch ru') id = Some r /\ is_prompt (r_values r) = false) /\
    (forall id, id ∈ prompt_req_ids info -> exists r, view (input_batch ru') id = Some r /\ is_prompt (r_values r) = true) /\
    prompt_scheduled_tokens info = scheduled so <$> prompt_req_ids info) ru.
Proof.
  intros Ho Hru Hso Hl Hs Hk Htot Hne. unfold prepare. wp_steps. eapply wp_mono; [by apply wp_update_states|].
  intros changed ru1 [Hst _]. rewrite (proj2 (Z.eqb_neq _ _)) by lia. pose proof (linked_step t so ru ru1 Hl Hso Hs Hst) as Hl1.
  pose proof (stepped_kinds t so ru ru1 Hso Hl1 Hk Hst) as Hkinds. destruct (st_ok _ _ _ Hst) as [Hb1 Hd1]. wp_steps.
  apply wp_ensure_decodes_first; [done..|]. intros b2 k Hs2 Hd2 Hp2. set (ru2 := set_batch b2 ru1).
  assert (Hv2 : forall id, view (input_batch ru2) id = view (input_batch ru1) id) by apply Hs2.
  assert (Hru2 : runner_ok ru2) by (split; [apply Hs2|done]).
  assert (Hdom : forall id, is_Some (view b2 id) <-> id ∈ dom (num_scheduled_tokens so)).
  { intros id. rewrite (sr_view _ _ Hs2). split; [intros [r Hr]; by apply (Hkinds id r)|].
    intros [(d & -> & Hd)%list_elem_of_fmap|(d & -> & Hd)%list_elem_of_fmap]%(scheduled_iff so ru Hso).
    - rewrite (proj2 (st_new _ _ _ Hst d Hd)). by eexists.
    - destruct (st_cached _ _ _ Hst d Hd) as [Ec ->]. destruct (oo_cached _ _ Hso d Hd) as (_ & (c & Hc & _) & _).
      rewrite Hc in Ec. destruct (view (input_batch ru) _); [by eexists|]. rewrite Ec. by eexists. }
  assert (Hl2 : linked t ru2) by (destruct Hl1 as [L1 L2]; split; [exact L1|intros id r; rewrite Hv2; apply L2]).
  destruct (get_prompts_and_decodes_ok so ru2 k Hru2 Hp2) as (info & E & H1 & H2 & H3 & H4).
  - intros id Hv. by apply elem_of_dom, Hdom.
  - intros id [r Hr]. destruct (lk_row _ _ Hl2 _ _ Hr) as [_ (c & Hc & _)]. by eexists.
  - intros id r. rewrite Hv2. intros Hr Ep. destruct (Hkinds id r Hr) as [_ H]. by rewrite Ep in H.
  - done.
  - destruct (Nat.eq_0_gt_0_cases (num_reqs b2)) as [E0|]; [|done]. exfalso. apply Hne.
    assert (Hem : InputBatch.req_id_to_index b2 = ∅) by by apply map_size_empty_inv.
    apply dom_empty_inv_L, set_eq. intros id. rewrite <- Hdom, view_dom, Hem, lookup_empty by apply Hs2.
    split; [by intros []|set_solver].
  - intros id r. rewrite Hv2. intros Hr Ep. destruct (Hkinds id r Hr) as [_ H]. by rewrite Ep in H.
  - wp_steps. eapply wp_lift; [exact E|]. wp_steps. split; [done|]. split; [done|]. exists info.
    split_and!; try done. intros id. by rewrite batch_ids_elem by apply Hs2.
Qed.

(** C10: storing the sampled tokens never raises when the tokens belong to
    requests of the batch and go right after the tokens of their rows: every
    request of the batch has its tokens appended to its state and to its row, the
    returned lists hold them by position, and nothing else changes. *)
Theorem commit_spec so sampled ru : runner_ok ru -> (0 < num_reqs (input_batch ru))%nat ->
  (forall id, id ∈ snd <$> sampled -> is_Some (view (input_batch ru) id)) ->
  (forall id r, view (input_batch ru) id = Some r -> exists c n, requests ru !! id = Some c /\
     num_scheduled_tokens so !! id = Some n /\ commit_fits (input_batch ru) (sampled_of sampled id) n c r) ->
  wp (commit so sampled) (fun tokens ru' => runner_ok ru' /\
    (forall id i, InputBatch.req_id_to_index (input_batch ru') !! id = Some i -> tokens !! i = Some (sampled_of sampled id)) /\
    (forall id, view (input_batch ru') id = row_commit (sampled_of sampled id) <$> view (input_batch ru) id) /\
    (forall id, requests ru' !! id = match view (input_batch ru) id with
       | Some _ => state_commit (sampled_of sampled id) <$> requests ru !! id
       | None => requests ru !! id
       end)) ru.
Proof.
  intros Hru Hn Hin Hok. pose proof Hru as [Hb Hd]. apply wp_commit; [done..|]. intros tokens ru' H Htok.
  split; [split; [apply H|]|split; [|split]].
  - intros i. unfold used. rewrite (cm_ids _ _ _ _ H). apply Hd.
  - intros id i. rewrite (cm_index _ _ _ _ H). apply Htok.
  - intros id. rewrite (cm_view _ _ _ _ H). case_decide as Hid; rewrite batch_ids_elem in Hid by done; [done|].
    rewrite <- eq_None_not_Some in Hid. by rewrite Hid.
  - intros id. rewrite (cm_requests _ _ _ _ H). case_decide as Hid; rewrite batch_ids_elem in Hid by done.
    + by destruct Hid as [r ->].
    + rewrite <- eq_None_not_Some in Hid. by rewrite Hid.
Qed.

Lemma output_asserts so ru k id r c : runner_ok ru -> partitioned (input_batch ru) k ->
  (forall x, is_Some (view (input_batch ru) x) -> is_Some (num_scheduled_tokens so !! x)) ->
  (forall x, is_Some (view (input_batch ru) x) -> is_Some (requests ru !! x)) ->
  (forall x s, view (input_batch ru) x = Some s -> is_prompt (r_values s) = false -> scheduled so x = 1) ->
  view (input_batch ru) id = Some r -> is_prompt (r_values r) = true ->
  requests ru !! id = Some c -> c_output_token_ids c <> [] -> _get_prompts_and_decodes so ru = Err AssertionError.
Proof.
  intros Hru Hp Hkeys Hstates Hdec Hv Hpr Hc Ho. pose proof (batch_ids_length ru Hru) as Hlen. set (ids := batch_ids (input_batch ru)) in *.
  assert (Hid : id ∈ ids) by (apply batch_ids_elem; [apply Hru|by eexists]). apply list_elem_of_lookup in Hid as [i Hi].
  pose proof (lookup_lt_Some _ _ _ Hi) as Hlt.
  destruct (request_at_spec so ru k Hru Hp Hkeys Hstates i id Hi) as (s & n & r' & _ & _ & Hv' & Er & Ep & _). simplify_eq.
  assert (Hki : (k <= i)%nat) by (apply Nat.leb_le; by rewrite <- Ep, <- Er).
  unfold _get_prompts_and_decodes. destruct (0 <? total_num_scheduled_tokens so); [|done]. rewrite (proj2 (Nat.eqb_neq _ _)) by lia. cbn [negb].
  rewrite (take_decodes_spec so ru k Hru Hp Hkeys Hstates Hdec) by (fold ids; lia). cbn [mbind result_mbind].
  rewrite Nat.sub_0_r, drop_0. fold ids. rewrite length_take, Nat.min_l by lia.
  rewrite (take_prompts_output so ru k Hru Hp Hkeys Hstates k _ id c); [done|lia|fold ids; lia| |done..].
  fold ids. apply list_elem_of_lookup. exists (i - k)%nat. rewrite lookup_drop. by replace (k + (i - k))%nat with i by lia.
Qed.

(** A request whose prompt has to be computed again after it has produced
    output (preempted, then resumed) stops the step: [_get_prompts_and_decodes]
    raises its assertion although the update has accepted the request. *)
Theorem resumed_with_output_asserts so ru k id r c : runner_ok ru -> partitioned (input_batch ru) k ->
  (forall x, is_Some (view (input_batch ru) x) -> is_Some (num_scheduled_tokens so !! x)) ->
  (forall x, is_Some (view (input_batch ru) x) -> is_Some (requests ru !! x)) ->
  (forall x s, view (input_batch ru) x = Some s -> is_prompt (r_values s) = false -> scheduled so x = 1) ->
  view (input_batch ru) id = Some r -> is_prompt (r_values r) = true ->
  requests ru !! id = Some c -> c_output_token_ids c <> [] -> _get_prompts_and_decodes so ru = Err AssertionError.
Proof. apply output_asserts. Qed.

(** ** Runs *)

Definition sample_params : SamplingParams := mkSamplingParams None false None None false default_sampling.
Definition sample_new : NewRequestData := mkNewRequestData "a" [1; 2; 3] [] [] sample_params [[1%nat]] 0 None.
Definition sample_cached (resumed : bool) (tokens : list Z) (blocks : list (list nat)) (computed : Z) : CachedRequestData :=
  mkCachedRequestData "a" resumed tokens blocks computed.
Definition sample_output (new : list NewRequestData) (cached : list CachedRequestData) (n : gmap string Z) (total : Z) : SchedulerOutput :=
  mkSchedulerOutput new cached n total ∅ ∅ [] ∅ [] ∅ [].
Definition sample_runner : Runner := mkRunner ∅ (init_batch 2 16 10 [4]).

Definition step_new : SchedulerOutput := sample_output [sample_new] [] {["a" := 3]} 3.
Definition step_decode : SchedulerOutput := sample_output [] [sample_cached false [5] [[2%nat]] 3] {["a" := 1]} 1.
Definition step_empty : SchedulerOutput := sample_output [] [] ∅ 0.
(** The request comes back with one more block. *)
Definition step_back : SchedulerOutput := sample_output [] [sample_cached false [6] [[3%nat]] 4] {["a" := 1]} 1.
(** The request comes back after a preemption, all its tokens to be computed. *)
Definition step_resumed : SchedulerOutput := sample_output [] [sample_cached true [1; 2; 3; 5] [[4%nat]] 0] {["a" := 4]} 4.

Definition run (steps : list (SchedulerOutput * list (Z * string))) : MR unit :=
  for_each (fun x => prepare elements (fst x);; if total_num_scheduled_tokens (fst x) =? 0 then mret tt else commit (fst x) (snd x);; mret tt) steps.

(** A prompt, a decode. *)
Example run_decode : exists ru, run [(step_new, [(5, "a")]); (step_decode, [(6, "a")])] sample_runner = Ret tt ru /\
  (r_tokens <$> view (input_batch ru) "a") = Some [1; 2; 3; 5; 6] /\
  (r_blocks <$> view (input_batch ru) "a") = Some [[1%nat; 2%nat]].
Proof. eexists. split; [by vm_compute|]. split; by vm_compute. Qed.

(** A request that misses a step without being preempted loses blocks: the
    lists of new blocks were put after the lists of the groups, so the row that
    is built when it comes back has the blocks of its first step only (blocks 2
    and 3 are gone). *)
Theorem unscheduled_request_loses_blocks : exists ru,
  run [(step_new, [(5, "a")]); (step_decode, [(6, "a")]); (step_empty, []); (step_back, [])] sample_runner = Ret tt ru /\
  (r_blocks <$> view (input_batch ru) "a") = Some [[1%nat]] /\
  (c_block_ids <$> requests ru !! "a") = Some [[1%nat]; [2%nat]; [3%nat]].
Proof. eexists. split; [by vm_compute|]. split; by vm_compute. Qed.

(** The preempted request with output stops the runner. *)
Example run_resumed : exists ru, run [(step_new, [(5, "a")]); (step_empty, []); (step_resumed, [])] sample_runner = Raise AssertionError ru.
Proof. eexists. by vm_compute. Qed.

(** ** Witnesses *)

Lemma sample_runner_ok : runner_ok sample_runner.
Proof. split; [apply init_batch_inv|]. intros i Hi. simpl in Hi. lia. Qed.

Lemma sample_output_ok : output_ok step_new sample_runner.
Proof.
  split; simpl.
  - apply NoDup_singleton.
  - set_solver.
  - lia.
  - intros d ->%list_elem_of_singleton. split; [|by left]. split; [vm_compute; done| |done].
    intros [|g] w; [|by destruct g]. intros [= <-]. exists [1%nat]. split; [done|]. vm_compute. lia.
  - by intros d []%not_elem_of_nil.
Qed.

Definition sample_tokens (_ : string) : list Z := [1; 2; 3; 5].

Lemma sample_linked : linked sample_tokens sample_runner.
Proof. split; [by intros id c|]. by intros id r. Qed.

Lemma sample_sends : sends sample_tokens step_new sample_runner.
Proof.
  split; [|by intros d c []%not_elem_of_nil|by intros d []%not_elem_of_nil].
  intros d ->%list_elem_of_singleton. by exists [5].
Qed.


Lemma worker_tokens_agree_witness : sample_runner = sample_runner /\
  wp (_update_states elements step_new) (fun _ ru' => runner_ok ru' /\ linked sample_tokens ru') sample_runner.
Proof.
  split; [done|]. apply (worker_tokens_agree sample_tokens elements step_new sample_runner);
    [done|apply sample_runner_ok|apply sample_output_ok|apply sample_linked|apply sample_sends].
Defined.

Lemma prepare_spec_witness : sample_runner = sample_runner /\
  wp (prepare elements step_new) (fun r ru' => runner_ok ru' /\ linked sample_tokens ru' /\ exists info, r = Some info /\
    decode_req_ids info ++ prompt_req_ids info = batch_ids (input_batch ru') /\
    (forall id, id ∈ batch_ids (input_batch ru') <-> id ∈ dom (num_scheduled_tokens step_new)) /\
    (forall id, id ∈ decode_req_ids info -> exists r, view (input_batch ru') id = Some r /\ is_prompt (r_values r) = false) /\
    (forall id, id ∈ prompt_req_ids info -> exists r, view (input_batch ru') id = Some r /\ is_prompt (r_values r) = true) /\
    prompt_scheduled_tokens info = scheduled step_new <$> prompt_req_ids info) sample_runner.
Proof.
  split; [done|]. apply (prepare_spec sample_tokens elements step_new sample_runner);
    [done|apply sample_runner_ok|apply sample_output_ok|apply sample_linked|apply sample_sends| |done|done].
  split; [by intros d ->%list_elem_of_singleton|by intros d c []%not_elem_of_nil].
Defined.

(** A batch with one request. *)
Definition sample_state (output : list Z) : CachedRequestState :=
  mkCachedRequestState "a" [1; 2; 3] sample_params None [[1%nat; 2%nat]] 0 output None.
Definition sample_batch (output : list Z) : InputBatch :=
  match InputBatch.add_request (sample_state output) None (init_batch 2 16 10 [4]) with Ret _ b | Raise _ b => b end.

Lemma sample_batch_added output : (length output <= 5)%nat -> added (init_batch 2 16 10 [4]) (sample_batch output) (sample_state output) 0.
Proof.
  intros Hl. unfold sample_batch. set (b0 := init_batch 2 16 10 [4]).
  assert (Hwp : wp (InputBatch.add_request (sample_state output) None) (fun _ b => added b0 b (sample_state output) 0) b0).
  { apply wp_batch_add; [apply init_batch_inv| |split; [vm_compute; lia|by left]|done|done].
    split; [unfold c_num_tokens, len; simpl; lia| |done].
    intros [|g] w; [|by destruct g]. intros [= <-]. exists [1%nat; 2%nat]. split; [done|vm_compute; lia]. }
  by destruct (wp_elim _ _ _ Hwp) as (a & b & -> & H).
Qed.

Lemma sample_batch_ok output : (length output <= 5)%nat -> batch_inv (sample_batch output) /\ dense (sample_batch output).
Proof.
  intros Hl. pose proof (sample_batch_added output Hl) as H. split; [apply H|]. intros i. rewrite (ad_len _ _ _ _ H). simpl. intros Hi.
  exists "a". by rewrite (ad_ids _ _ _ _ H), decide_True by lia.
Qed.

Definition sample_row (output : list Z) : Row := fresh_row (init_batch 2 16 10 [4]) (sample_state output).

Lemma sample_batch_view output id : (length output <= 5)%nat ->
  view (sample_batch output) id = if decide (id = "a") then Some (sample_row output) else None.
Proof. intros Hl. by rewrite (ad_view _ _ _ _ (sample_batch_added output Hl)). Qed.

Lemma ensure_decodes_first_spec_witness : (length [5] <= 5)%nat /\
  wp ensure_decodes_first (fun _ b' => batch_inv b' /\ dense b' /\ (forall id, view b' id = view (sample_batch [5]) id) /\
    exists k, forall i s, used b' i -> slots b' !! i = Some s -> is_prompt s = (k <=? i)%nat) (sample_batch [5]).
Proof. split; [simpl; lia|]. apply (ensure_decodes_first_spec (sample_batch [5])); apply sample_batch_ok; simpl; lia. Defined.

Lemma sample_index output : (length output <= 5)%nat -> InputBatch.req_id_to_index (sample_batch output) = {["a" := 0%nat]}.
Proof. intros Hl. by rewrite (ad_index _ _ _ _ (sample_batch_added output Hl)). Qed.

Lemma commit_spec_witness : (length (@nil Z) <= 5)%nat /\
  let ru := mkRunner {["a" := sample_state []]} (sample_batch []) in
  wp (commit step_new [(5, "a")]) (fun tokens ru' => runner_ok ru' /\
    (forall id i, InputBatch.req_id_to_index (input_batch ru') !! id = Some i -> tokens !! i = Some (sampled_of [(5, "a")] id)) /\
    (forall id, view (input_batch ru') id = row_commit (sampled_of [(5, "a")] id) <$> view (input_batch ru) id) /\
    (forall id, requests ru' !! id = match view (input_batch ru) id with
       | Some _ => state_commit (sampled_of [(5, "a")] id) <$> requests ru !! id
       | None => requests ru !! id
       end)) ru.
Proof.
  split; [simpl; lia|]. set (ru := mkRunner _ _). apply (commit_spec step_new [(5, "a")] ru).
  - apply sample_batch_ok. simpl. lia.
  - vm_compute. lia.
  - intros id ->%list_elem_of_singleton. simpl. rewrite sample_batch_view by (simpl; lia). by eexists.
  - intros id r. simpl. rewrite sample_batch_view by (simpl; lia). case_decide as E; [|done]. subst. intros [= <-].
    exists (sample_state []), 3. split; [done|]. split; [done|]. right. split; [done|]. split; [done|].
    change (max_model_len (sample_batch [])) with (dims (sample_batch [])).1.1.2. rewrite (ad_dims _ _ _ _ (sample_batch_added [] ltac:(simpl; lia))). done.
Defined.

Lemma resumed_with_output_asserts_witness : (length [5] <= 5)%nat /\
  _get_prompts_and_decodes step_resumed (mkRunner {["a" := sample_state [5]]} (sample_batch [5])) = Err AssertionError.
Proof.
  split; [simpl; lia|]. assert (Hl : (length [5] <= 5)%nat) by (simpl; lia).
  apply (resumed_with_output_asserts step_resumed (mkRunner {["a" := sample_state [5]]} (sample_batch [5])) 0 "a" (sample_row [5]) (sample_state [5]));
    simpl; try done.
  - by apply sample_batch_ok.
  - intros i s [id Hid] Hs. assert (Hi : InputBatch.req_id_to_index (sample_batch [5]) !! id = Some i) by (apply bi_index; [by apply sample_batch_ok|done]).
    pose proof (view_at _ _ _ _ Hi Hs) as Hv. rewrite sample_batch_view in Hv by done. case_decide; [|done]. 
    apply (f_equal (fmap (fun r => is_prompt (r_values r)))) in Hv. by injection Hv.
  - intros x. rewrite sample_batch_view by done. case_decide; [subst; by eexists|by intros []].
  - intros x. rewrite sample_batch_view by done. case_decide; [subst; by eexists|by intros []].
  - intros x s. rewrite sample_batch_view by done. case_decide; [|done]. by intros [= <-].
Defined.
