(* ===== verification/Numpy.v ===== *)
(** The operations on numpy arrays that the HPU worker builds its batches with:
    indexing (a negative index counts from the end), fancy indexing, [cumsum],
    [np.add.at], element-wise operations with broadcasting, [np.full], and
    assignments to arrays of one, two and three dimensions.  An array of
    integers is a list of Z (nothing the batches hold reaches 2^31), an array of
    more dimensions a list of its rows. *)

From Stdlib Require Import ZArith Lia.
From stdpp Require Import base numbers list.
From S2P Require Import Prelude.

Open Scope Z_scope.

(** ** Indexing *)

(** The position a valid index names: a negative one counts from the end. *)
Definition np_index (n : nat) (i : Z) : option nat :=
  let j := if i <? 0 then i + Z.of_nat n else i in
  if (0 <=? j) && (j <? Z.of_nat n) then Some (Z.to_nat j) else None.

(** [a[i]]. *)
Definition np_get {A} (l : list A) (i : Z) : result A :=
  match np_index (length l) i ≫= (fun j => l !! j) with Some x => Ok x | None => Err IndexError end.

(** [a[i] = x]. *)
Definition np_set {A} (l : list A) (i : Z) (x : A) : result (list A) :=
  match np_index (length l) i with Some j => Ok (<[j := x]> l) | None => Err IndexError end.

(** [a[is]] for an array of indices. *)
Definition np_take {A} (l : list A) (indices : list Z) : result (list A) := mapM (np_get l) indices.

(** [a[is] = xs]: the writes in order. *)
Fixpoint np_put {A} (l : list A) (writes : list (Z * A)) : result (list A) :=
  match writes with
  | [] => Ok l
  | (i, x) :: writes' => l' ← np_set l i x; np_put l' writes'
  end.

(** [a[rows, cols] = xs] for an array of two or more dimensions. *)
Fixpoint np_put2 {A} (m : list (list A)) (writes : list (Z * Z * A)) : result (list (list A)) :=
  match writes with
  | [] => Ok m
  | (i, j, x) :: writes' =>
      row ← np_get m i;
      row' ← np_set row j x;
      m' ← np_set m i row';
      np_put2 m' writes'
  end.

(** [np.add.at(a, is, vs)]: repeated indices add up. *)
Fixpoint np_add_at (l : list Z) (adds : list (Z * Z)) : result (list Z) :=
  match adds with
  | [] => Ok l
  | (i, v) :: adds' => x ← np_get l i; l' ← np_set l i (x + v); np_add_at l' adds'
  end.

(** ** Whole arrays *)

Fixpoint cumsum_from (acc : Z) (l : list Z) : list Z :=
  match l with
  | [] => []
  | x :: l' => (acc + x) :: cumsum_from (acc + x) l'
  end.

(** [np.cumsum] and [sum]. *)
Definition np_cumsum (l : list Z) : list Z := cumsum_from 0 l.
Definition sumZ (l : list Z) : Z := foldr Z.add 0 l.

(** [np.full((n,), x)] and [np.arange(n)]. *)
Definition np_full {A} (n : Z) (x : A) : result (list A) :=
  if n <? 0 then Err ValueError else Ok (replicate (Z.to_nat n) x).
Definition np_arange (n : Z) : list Z := seqZ 0 n.

(** An element-wise operation: equal lengths, or one of the arrays has a single
    element, which is broadcast. *)
Definition np_map2 {A B C} (f : A -> B -> C) (a : list A) (b : list B) : result (list C) :=
  match a, b with
  | [x], _ => Ok (f x <$> b)
  | _, [y] => Ok ((fun x => f x y) <$> a)
  | _, _ => if (length a =? length b)%nat then Ok (zip_with f a b) else Err ValueError
  end.

(** [np.clip]. *)
Definition np_clip (x lo hi : Z) : Z := Z.min (Z.max x lo) hi.

(** [a.max()]. *)
Definition np_max (l : list Z) : result Z :=
  match l with
  | [] => Err ValueError
  | x :: l' => Ok (foldr Z.max x l')
  end.

(** [a[:-1]]. *)
Definition but_last {A} (l : list A) : list A := take (length l - 1) l.

(** [np.argwhere(p(a)).flatten()]. *)
Fixpoint argwhere_from {A} (k : Z) (p : A -> bool) (l : list A) : list Z :=
  match l with
  | [] => []
  | x :: l' => (if p x then [k] else []) ++ argwhere_from (k + 1) p l'
  end.
Definition np_argwhere {A} (p : A -> bool) (l : list A) : list Z := argwhere_from 0 p l.

(** ** What they do on valid arguments *)

Lemma mapM_Ok {A B} (f : A -> result B) (g : A -> B) (l : list A) :
  (forall x, x ∈ l -> f x = Ok (g x)) -> mapM f l = Ok (g <$> l).
Proof.
  induction l as [|x l IH]; intros Hf; [done|]. simpl. rewrite Hf by left. cbn [mbind result_mbind].
  rewrite IH by (intros; apply Hf; by right). done.
Qed.

Lemma np_index_ok n i : 0 <= i < Z.of_nat n -> np_index n i = Some (Z.to_nat i).
Proof.
  intros Hi. unfold np_index. rewrite (proj2 (Z.ltb_ge _ _)) by lia.
  by rewrite (proj2 (Z.leb_le _ _)), (proj2 (Z.ltb_lt _ _)) by lia.
Qed.

Lemma np_get_ok {A} (l : list A) i x : l !! i = Some x -> np_get l (Z.of_nat i) = Ok x.
Proof.
  intros Hx. unfold np_get. rewrite np_index_ok by (apply lookup_lt_Some in Hx; lia).
  cbn. by rewrite Nat2Z.id, Hx.
Qed.

Lemma np_get_lookup {A} (l : list A) i x : 0 <= i -> l !! Z.to_nat i = Some x -> np_get l i = Ok x.
Proof. intros Hi Hx. rewrite <- (Z2Nat.id i) by done. by apply np_get_ok. Qed.

Lemma np_get_total {A} `{Inhabited A} (l : list A) i : 0 <= i < len l -> np_get l i = Ok (l !!! Z.to_nat i).
Proof.
  intros Hi. unfold len in Hi. apply np_get_lookup; [lia|].
  apply list_lookup_lookup_total_lt. lia.
Qed.

Lemma np_set_ok {A} (l : list A) i x : 0 <= i < len l -> np_set l i x = Ok (<[Z.to_nat i := x]> l).
Proof. intros Hi. unfold np_set. by rewrite np_index_ok. Qed.

Lemma np_set_index {A} (l : list A) i x k : np_index (length l) i = Some k -> np_set l i x = Ok (<[k := x]> l).
Proof. intros Hk. unfold np_set. by rewrite Hk. Qed.

Lemma np_take_ok {A} `{Inhabited A} (l : list A) indices :
  (forall i, i ∈ indices -> 0 <= i < len l) -> np_take l indices = Ok ((fun i => l !!! Z.to_nat i) <$> indices).
Proof. intros Hi. apply mapM_Ok. intros i Hin. by apply np_get_total, Hi. Qed.

(** Fancy indexing by indices that come from another list. *)
Lemma np_take_fmap {A B} `{Inhabited A} (l : list A) (f : B -> Z) (k : list B) :
  (forall x, x ∈ k -> 0 <= f x < len l) -> np_take l (f <$> k) = Ok ((fun x => l !!! Z.to_nat (f x)) <$> k).
Proof.
  intros Hf. rewrite np_take_ok; [by rewrite <- list_fmap_compose|].
  intros i (x & -> & Hx)%list_elem_of_fmap. by apply Hf.
Qed.

Lemma np_map2_ok {A B C} (f : A -> B -> C) a b : length a = length b -> np_map2 f a b = Ok (zip_with f a b).
Proof.
  intros Hl. unfold np_map2. destruct a as [|x [|x' a]], b as [|y [|y' b]]; try done.
  simpl in *. by rewrite (proj2 (Nat.eqb_eq _ _)) by lia.
Qed.

Lemma zip_with_fmap_same {A B C D} (f : B -> C -> D) (g : A -> B) (h : A -> C) (l : list A) :
  zip_with f (g <$> l) (h <$> l) = (fun x => f (g x) (h x)) <$> l.
Proof. induction l as [|x l IH]; [done|]. cbn. f_equal. apply IH. Qed.

Lemma np_map2_fmap {A B C D} (f : B -> C -> D) (g : A -> B) (h : A -> C) (l : list A) :
  np_map2 f (g <$> l) (h <$> l) = Ok ((fun x => f (g x) (h x)) <$> l).
Proof. rewrite np_map2_ok by (by rewrite !length_fmap). f_equal. apply zip_with_fmap_same. Qed.

Lemma np_full_ok {A} n (x : A) : 0 <= n -> np_full n x = Ok (replicate (Z.to_nat n) x).
Proof. intros Hn. unfold np_full. by rewrite (proj2 (Z.ltb_ge _ _)). Qed.

Lemma length_cumsum_from acc l : length (cumsum_from acc l) = length l.
Proof. revert acc. induction l as [|x l IH]; intros acc; simpl; [done|]. by rewrite IH. Qed.

Lemma length_np_cumsum l : length (np_cumsum l) = length l.
Proof. apply length_cumsum_from. Qed.

Lemma lookup_cumsum_from acc l i :
  (i < length l)%nat -> cumsum_from acc l !! i = Some (acc + sumZ (take (S i) l)).
Proof.
  revert acc i. induction l as [|x l IH]; intros acc i Hi; simpl in *; [lia|].
  destruct i as [|i]; simpl; [f_equal; lia|]. rewrite IH by lia. f_equal. simpl. lia.
Qed.

Lemma lookup_cumsum l i : (i < length l)%nat -> np_cumsum l !! i = Some (sumZ (take (S i) l)).
Proof. intros Hi. unfold np_cumsum. by rewrite lookup_cumsum_from. Qed.

Lemma sumZ_app l k : sumZ (l ++ k) = sumZ l + sumZ k.
Proof. induction l as [|x l IH]; simpl; lia. Qed.

Lemma sumZ_nonneg l : Forall (fun x => 0 <= x) l -> 0 <= sumZ l.
Proof. induction 1; simpl; lia. Qed.

Lemma sumZ_perm l k : l ≡ₚ k -> sumZ l = sumZ k.
Proof. induction 1; simpl; lia. Qed.

Lemma sumZ_replicate n : sumZ (replicate n 0) = 0.
Proof. induction n; simpl; lia. Qed.

Lemma cumsum_last l : l <> [] -> np_get (np_cumsum l) (-1) = Ok (sumZ l).
Proof.
  intros Hl. unfold np_get. rewrite length_np_cumsum.
  assert (length l <> 0%nat) by (by intros ?%nil_length_inv).
  unfold np_index. cbn [Z.ltb Z.compare]. rewrite (proj2 (Z.leb_le _ _)), (proj2 (Z.ltb_lt _ _)) by lia. cbn.
  rewrite lookup_cumsum by lia. do 2 f_equal. apply take_ge. lia.
Qed.

(** The sum an index receives. *)
Definition sum_at (p : Z) (adds : list (Z * Z)) : Z := sumZ ((fun '(i, v) => if i =? p then v else 0) <$> adds).

Lemma sum_at_cons p i v adds : sum_at p ((i, v) :: adds) = (if i =? p then v else 0) + sum_at p adds.
Proof. done. Qed.

Lemma np_add_at_ok l adds : (forall i v, (i, v) ∈ adds -> 0 <= i < len l) ->
  exists l', np_add_at l adds = Ok l' /\ length l' = length l /\
    forall p x, l !! p = Some x -> l' !! p = Some (x + sum_at (Z.of_nat p) adds).
Proof.
  revert l. induction adds as [|[i v] adds IH]; intros l Hi.
  { exists l. split_and!; [done..|]. intros p x Hx. rewrite Hx. f_equal. cbn. lia. }
  assert (Hi0 : 0 <= i < len l) by (apply (Hi i v); left). unfold len in Hi0.
  destruct (lookup_lt_is_Some_2 l (Z.to_nat i)) as [y Hy]; [lia|].
  cbn [np_add_at]. rewrite (np_get_lookup _ _ y) by (lia || done). cbn [mbind result_mbind].
  rewrite np_set_ok by (unfold len; lia). cbn [mbind result_mbind].
  destruct (IH (<[Z.to_nat i := y + v]> l)) as (l' & -> & Hl & Hp).
  { intros j w Hin. unfold len. rewrite length_insert. apply (Hi j w). by right. }
  exists l'. split_and!; [done|by rewrite Hl, length_insert|]. intros p x Hx.
  rewrite sum_at_cons. destruct (decide (Z.to_nat i = p)) as [<-|Hne].
  - rewrite (Hp _ (y + v)) by (apply list_lookup_insert_eq; lia). rewrite Z2Nat.id, Z.eqb_refl by lia.
    simplify_eq. f_equal. lia.
  - rewrite (Hp _ x) by (by rewrite list_lookup_insert_ne). rewrite (proj2 (Z.eqb_neq _ _)) by lia. by rewrite Z.add_0_l.
Qed.

Lemma np_max_ge l m : np_max l = Ok m -> forall x, x ∈ l -> x <= m.
Proof.
  destruct l as [|y l]; [done|]. intros [= <-] x Hx. apply elem_of_cons in Hx.
  induction l as [|z l IH]; simpl; [destruct Hx as [->|Hx%not_elem_of_nil]; [lia|done]|].
  rewrite elem_of_cons in Hx. destruct Hx as [->|[->|Hx]]; [|lia|]; (etrans; [apply IH; tauto|lia]).
Qed.

Lemma np_max_in l : l <> [] -> exists m, np_max l = Ok m /\ m ∈ l.
Proof.
  destruct l as [|y l]; [done|]. intros _. eexists. split; [done|].
  induction l as [|z l IH]; simpl; [by left|]. destruct (Z.max_spec z (foldr Z.max y l)) as [[_ ->]|[_ ->]].
  - rewrite elem_of_cons in IH. rewrite !elem_of_cons. tauto.
  - right; left.
Qed.

Lemma lookup_but_last {A} (l : list A) i : (S i < length l)%nat -> but_last l !! i = l !! i.
Proof. intros Hi. unfold but_last. apply lookup_take_lt. lia. Qed.

Lemma but_last_snoc {A} (l : list A) x : but_last (l ++ [x]) = l.
Proof. unfold but_last. rewrite length_app. cbn. rewrite take_app_le by lia. apply take_ge. lia. Qed.

(** ** Arrays with one entry per request *)

Lemma as_seq {A} `{Inhabited A} (l : list A) : l = (fun g => l !!! g) <$> seq 0 (length l).
Proof.
  apply list_eq. intros g. rewrite list_lookup_fmap. destruct (l !! g) as [x|] eqn:E.
  - rewrite lookup_seq_lt by by eapply lookup_lt_Some. cbn. f_equal. by rewrite (list_lookup_total_correct l g x).
  - apply lookup_ge_None in E. by rewrite lookup_seq_ge.
Qed.

Lemma np_take_seq {A B} (f : nat -> A) n (h : B -> nat) (xs : list B) :
  (forall x, x ∈ xs -> (h x < n)%nat) ->
  np_take (f <$> seq 0 n) ((fun x => Z.of_nat (h x)) <$> xs) = Ok ((fun x => f (h x)) <$> xs).
Proof.
  intros Hx. unfold np_take. induction xs as [|x xs IH]; [done|]. cbn -[seq].
  rewrite (np_get_ok _ _ (f (h x))) by (rewrite list_lookup_fmap, lookup_seq_lt by (apply Hx; left); done).
  cbn [mbind result_mbind]. setoid_rewrite IH; [done|]. intros y Hy. apply Hx. by right.
Qed.

(** Rows of equal width: where an element of a row is in the flat array. *)
Lemma lookup_concat {A} (rows : list (list A)) w g o row :
  (forall row, row ∈ rows -> length row = w) -> rows !! g = Some row -> (o < w)%nat ->
  concat rows !! (g * w + o)%nat = row !! o.
Proof.
  revert g. induction rows as [|r rows IH]; intros g Hw Hg Ho; [done|]. cbn [concat].
  pose proof (Hw r ltac:(left)) as Hr. destruct g as [|g]; cbn in Hg.
  - simplify_eq. by rewrite lookup_app_l by lia.
  - rewrite lookup_app_r by lia. rewrite <- (IH g); [f_equal; lia| |done|done]. intros r' Hr'. apply Hw. by right.
Qed.

Lemma sumZ_fmap_ge (f : nat -> Z) n : (forall g, (g < n)%nat -> 0 <= f g) -> forall g, (g < n)%nat -> f g <= sumZ (f <$> seq 0 n).
Proof.
  induction n as [|n IH]; intros Hf g Hg; [lia|]. rewrite seq_S, fmap_app, sumZ_app. cbn.
  pose proof (Hf n ltac:(lia)). assert (0 <= sumZ (f <$> seq 0 n)).
  { apply sumZ_nonneg, Forall_fmap, Forall_forall. intros x Hx%elem_of_seq. apply Hf. lia. }
  destruct (decide (g = n)) as [->|]; [lia|]. pose proof (IH ltac:(intros; apply Hf; lia) g ltac:(lia)). lia.
Qed.

(** ** Writes, with arrays as functions of their indices *)

Definition fn_upd {A} (f : nat -> A) (k : nat) (x : A) (j : nat) : A := if decide (j = k) then x else f j.

Lemma insert_seq {A} (f : nat -> A) n k x : (k < n)%nat -> <[k := x]> (f <$> seq 0 n) = fn_upd f k x <$> seq 0 n.
Proof.
  intros Hk. apply list_eq. intros j. rewrite list_lookup_fmap. unfold fn_upd. destruct (decide (j < n)%nat).
  - rewrite lookup_seq_lt by done. cbn. destruct (decide (j = k)) as [->|].
    + apply list_lookup_insert_eq. by rewrite length_fmap, length_seq.
    + rewrite list_lookup_insert_ne by done. by rewrite list_lookup_fmap, lookup_seq_lt.
  - rewrite (lookup_seq_ge _ _ j) by lia. apply lookup_ge_None_2. rewrite length_insert, length_fmap, length_seq. lia.
Qed.

Lemma fmap_seq_ext {A} (f g : nat -> A) n : (forall j, (j < n)%nat -> f j = g j) -> f <$> seq 0 n = g <$> seq 0 n.
Proof.
  intros H. apply list_fmap_ext. intros k j [-> Hj]%lookup_seq. by apply H.
Qed.

Lemma np_index_Some n i k : np_index n i = Some k -> (k < n)%nat.
Proof. unfold np_index. destruct (i <? 0); intros H; case_match; simplify_eq; lia. Qed.

(** Writes that agree on [f'] turn [f] into [f'] where they differ. *)
Lemma np_put_fn {A} (f f' : nat -> A) n (writes : list (Z * A)) :
  (forall i x, (i, x) ∈ writes -> exists k, np_index n i = Some k /\ x = f' k) ->
  (forall k, (k < n)%nat -> (forall i x, (i, x) ∈ writes -> np_index n i <> Some k) -> f k = f' k) ->
  np_put (f <$> seq 0 n) writes = Ok (f' <$> seq 0 n).
Proof.
  revert f. induction writes as [|[i x] writes IH]; intros f Hw Hf.
  { cbn. f_equal. apply fmap_seq_ext. intros k Hk. apply Hf; [done|]. by intros ? ? ?%not_elem_of_nil. }
  destruct (Hw i x ltac:(left)) as (k & Hk & ->). cbn [np_put].
  rewrite (np_set_index _ _ _ k) by (by rewrite length_fmap, length_seq). cbn [mbind result_mbind].
  rewrite insert_seq by (by eapply np_index_Some). apply IH; [intros; apply Hw; by right|].
  intros j Hj Hno. unfold fn_upd. destruct (decide (j = k)) as [->|Hne]; [done|]. apply Hf; [done|].
  intros i' x' [[= -> ->]|Hin]%elem_of_cons; [congruence|by eapply Hno].
Qed.

(** A matrix as a function. *)
Definition mat {A} (n m : nat) (f : nat -> nat -> A) : list (list A) := (fun r => f r <$> seq 0 m) <$> seq 0 n.

Lemma mat_ext {A} n m (f g : nat -> nat -> A) :
  (forall r c, (r < n)%nat -> (c < m)%nat -> f r c = g r c) -> mat n m f = mat n m g.
Proof. intros H. apply fmap_seq_ext. intros r Hr. apply fmap_seq_ext. intros c Hc. by apply H. Qed.

Lemma np_put2_fn {A} (f f' : nat -> nat -> A) n m (writes : list (Z * Z * A)) :
  (forall i j x, (i, j, x) ∈ writes -> exists r c, np_index n i = Some r /\ np_index m j = Some c /\ x = f' r c) ->
  (forall r c, (r < n)%nat -> (c < m)%nat ->
    (forall i j x, (i, j, x) ∈ writes -> ~ (np_index n i = Some r /\ np_index m j = Some c)) -> f r c = f' r c) ->
  np_put2 (mat n m f) writes = Ok (mat n m f').
Proof.
  revert f. induction writes as [|[[i j] x] writes IH]; intros f Hw Hf.
  { cbn. f_equal. apply mat_ext. intros r c Hr Hc. apply Hf; [done..|]. by intros ? ? ? ?%not_elem_of_nil. }
  destruct (Hw i j x ltac:(left)) as (r & c & Hr & Hc & ->). cbn [np_put2].
  pose proof (np_index_Some _ _ _ Hr) as Hrn. pose proof (np_index_Some _ _ _ Hc) as Hcm.
  assert (Hget : np_get (mat n m f) i = Ok (f r <$> seq 0 m)).
  { unfold np_get, mat. rewrite length_fmap, length_seq, Hr. cbn.
    by rewrite list_lookup_fmap, lookup_seq_lt. }
  rewrite Hget. cbn [mbind result_mbind].
  rewrite (np_set_index (f r <$> seq 0 m) _ _ c) by (by rewrite length_fmap, length_seq).
  cbn [mbind result_mbind]. rewrite insert_seq by done.
  rewrite (np_set_index (mat n m f) _ _ r) by (unfold mat; by rewrite length_fmap, length_seq).
  cbn [mbind result_mbind]. unfold mat at 1. rewrite insert_seq by done.
  rewrite <- (IH (fun r' c' => if decide (r' = r /\ c' = c) then f' r c else f r' c')).
  - f_equal. unfold mat at 1. apply fmap_seq_ext. intros r' Hr'. unfold fn_upd. destruct (decide (r' = r)) as [->|].
    + apply fmap_seq_ext. intros c' Hc'. destruct (decide (c' = c)) as [->|]; [by rewrite decide_True|].
      by rewrite decide_False by naive_solver.
    + apply fmap_seq_ext. intros c' Hc'. by rewrite decide_False by naive_solver.
  - intros; apply Hw; by right.
  - intros r' c' Hr' Hc' Hno. cbn. destruct (decide _) as [[-> ->]|Hne]; [done|]. apply Hf; [done..|].
    intros i' j' x' [[= -> -> ->]|Hin]%elem_of_cons; [|by eapply Hno]. intros [??]. apply Hne. split; congruence.
Qed.

Lemma replicate_seq {A} (x : A) n : replicate n x = (fun _ => x) <$> seq 0 n.
Proof.
  apply list_eq. intros k. rewrite list_lookup_fmap. destruct (decide (k < n)%nat).
  - rewrite lookup_seq_lt, lookup_replicate_2 by done. done.
  - rewrite lookup_seq_ge by lia. apply lookup_ge_None_2. rewrite length_replicate. lia.
Qed.

Lemma replicate_mat {A} (x : A) n m : replicate n (replicate m x) = mat n m (fun _ _ => x).
Proof. rewrite replicate_seq. unfold mat. apply fmap_seq_ext. intros r _. apply replicate_seq. Qed.

(** ** Selection by a predicate *)

Lemma take_argwhere_from {A B C} (h : A -> B) (f : A -> C) (p : C -> bool) (pre l : list A) :
  np_take (h <$> (pre ++ l)) (argwhere_from (len pre) p (f <$> l)) = Ok (h <$> filter (fun x => p (f x) = true) l).
Proof.
  revert pre. induction l as [|x l IH]; intros pre; [done|]. rewrite fmap_cons. cbn [argwhere_from].
  specialize (IH (pre ++ [x])). rewrite <- app_assoc in IH. unfold len in IH. rewrite length_app in IH. cbn [length] in IH.
  replace (Z.of_nat (length pre + 1)) with (len pre + 1) in IH by (unfold len; lia). cbn [app] in IH.
  destruct (p (f x)) eqn:E.
  - rewrite filter_cons_True by done. cbn [app]. unfold np_take in *. cbn [mapM].
    rewrite (np_get_lookup _ _ (h x)); [|apply len_nonneg|].
    2:{ unfold len. by rewrite Nat2Z.id, list_lookup_fmap, lookup_app_r, Nat.sub_diag. }
    cbn [mbind result_mbind]. rewrite IH. done.
  - rewrite filter_cons_False by congruence. apply IH.
Qed.

Lemma take_argwhere {A B C} (h : A -> B) (f : A -> C) (p : C -> bool) (l : list A) :
  np_take (h <$> l) (np_argwhere p (f <$> l)) = Ok (h <$> filter (fun x => p (f x) = true) l).
Proof. apply (take_argwhere_from h f p [] l). Qed.

Lemma length_argwhere {A C} (f : A -> C) (p : C -> bool) (l : list A) :
  length (np_argwhere p (f <$> l)) = length (filter (fun x => p (f x) = true) l).
Proof.
  unfold np_argwhere. generalize 0. induction l as [|x l IH]; intros k; [done|]. rewrite fmap_cons. cbn [argwhere_from].
  rewrite length_app, IH. destruct (p (f x)) eqn:E.
  - by rewrite filter_cons_True by done.
  - by rewrite filter_cons_False by congruence.
Qed.

Lemma fmap_seq_pad {A} (f : nat -> A) n m x : (n <= m)%nat -> (forall k, (n <= k < m)%nat -> f k = x) ->
  (f <$> seq 0 n) ++ replicate (m - n) x = f <$> seq 0 m.
Proof.
  intros Hnm Hf. replace m with (n + (m - n))%nat at 2 by lia. rewrite seq_app, fmap_app. f_equal.
  apply list_eq. intros k. rewrite list_lookup_fmap. destruct (decide (k < m - n)%nat).
  - rewrite lookup_replicate_2, lookup_seq_lt by done. cbn. rewrite Hf by lia. done.
  - rewrite lookup_seq_ge by lia. apply lookup_ge_None_2. rewrite length_replicate. lia.
Qed.

Lemma fmap_as_seq {A B} `{Inhabited A} (h : A -> B) (l : list A) : h <$> l = (fun k => h (l !!! k)) <$> seq 0 (length l).
Proof. rewrite (as_seq l) at 1. by rewrite <- list_fmap_compose. Qed.

(** Fancy indexing of an array over [l] by positions in [l]. *)
Lemma np_take_positions {A B C} `{Inhabited A} (h : A -> B) (l : list A) (k : C -> nat) (xs : list C) :
  (forall x, x ∈ xs -> (k x < length l)%nat) ->
  np_take (h <$> l) ((fun x => Z.of_nat (k x)) <$> xs) = Ok ((fun x => h (l !!! k x)) <$> xs).
Proof. intros Hk. rewrite fmap_as_seq. by apply (np_take_seq (fun k => h (l !!! k))). Qed.

Lemma zip3_fmap {A B C D} (f : A -> B) (g : A -> C) (h : A -> D) (l : list A) :
  zip (zip (f <$> l) (g <$> l)) (h <$> l) = (fun x => (f x, g x, h x)) <$> l.
Proof. induction l as [|x l IH]; [done|]. cbn. f_equal. apply IH. Qed.

(** An array over [l] as a function of the position, with a value beyond it. *)
Definition at_or {A B} (h : A -> B) (d : B) (l : list A) (k : nat) : B := match l !! k with Some x => h x | None => d end.

Lemma fmap_at_or {A B} (h : A -> B) d (l : list A) : h <$> l = at_or h d l <$> seq 0 (length l).
Proof.
  apply list_eq. intros k. rewrite !list_lookup_fmap. unfold at_or. destruct (l !! k) as [x|] eqn:E.
  - rewrite lookup_seq_lt by by eapply lookup_lt_Some. cbn. by rewrite E.
  - apply lookup_ge_None in E. by rewrite lookup_seq_ge.
Qed.

Lemma at_or_out {A B} (h : A -> B) d (l : list A) k : (length l <= k)%nat -> at_or h d l k = d.
Proof. intros Hk. unfold at_or. by rewrite (lookup_ge_None_2 l). Qed.
