(* ===== verification/UnifiedBatch.v ===== *)
(** The batches of unified attention
    ([src/vllm_gaudi/extension/unified_batch.py]): prompts and decodes in one
    list of tokens, with the keys each token attends split in three: those
    computed in this step (causal), the cached blocks that several tokens read
    (shared) and the cached blocks that one token reads (unique).

    A bias is 0 or minus infinity: a mask of [bool], where [true] is minus
    infinity, so [mask_to_bias] is the identity; its placeholder only decides
    where the result is stored.  The profiler, the events and the types of the
    arrays are left out. *)

From Stdlib Require Import ZArith Lia.
From stdpp Require Import base strings numbers gmap list.
From S2P Require Import Prelude.
From S2P Require Import PyOrder.
From S2P Require Import Numpy.
From S2P Require Import BlockTable.

Open Scope list_scope.
Open Scope Z_scope.

(** ** Groups and offsets *)

Definition indices_and_offsets (counts : list Z) : result (list Z * list Z) :=
  let cum_end := np_cumsum counts in
  cum_start ← np_map2 Z.sub cum_end counts;
  last ← np_get cum_end (-1);
  let total := last + 1 in
  indices ← np_full total 0;
  indices ← np_add_at indices ((fun i => (i, 1)) <$> but_last cum_end);
  let indices := np_cumsum indices in
  starts ← np_take cum_start indices;
  offsets ← np_map2 Z.sub (np_arange total) starts;
  Ok (but_last indices, but_last offsets).

(** A table of two dimensions: its width and its rows. *)
Record Table := mkTable {
  table_cols : Z;
  table_rows : list (list Z)
}.

(** Flat indices: an offset beyond the width falls into the next row. *)
Definition fetch_2d (table : Table) (indices offsets : list Z) : result (list Z) :=
  flat_indices ← np_map2 (fun i o => i * table_cols table + o) indices offsets;
  np_take (concat (table_rows table)) flat_indices.

Definition group_sum (groups values : list Z) : result (list Z) :=
  max_value ← np_max groups;
  tmp ← np_full (max_value + 1) 0;
  tmp ← np_add_at tmp (zip groups values);
  np_take tmp groups.

(** ** Masks *)

Definition causal_row (groups positions : list Z) (g p : Z) : list bool :=
  zip_with (fun g' p' => negb (g =? g') || (p <? p')) groups positions.

Definition create_causal_bias (groups positions : list Z) : list (list bool) :=
  zip_with (causal_row groups positions) groups positions.

(** The slots of a block after its first [usage] ones are masked. *)
Definition usage_row (block_size usage : Z) : list bool := (fun k => usage <? k) <$> seqZ 1 block_size.

Definition generate_bias (block_usages : list Z) (block_size : Z) : list (list bool) :=
  usage_row block_size <$> block_usages.

(** [HPUCausalBiasGenerator]: the padding is masked as a key. *)
Definition causal_bias_generator (groups positions : list Z) (padding_mask : list bool) : list (list bool) :=
  zip_with (fun g p => zip_with orb (causal_row groups positions g p) padding_mask) groups positions.

(** ** Contexts *)

(** One entry per block of context of each request. *)
Record Context := mkContext {
  group_ids : list Z;
  group_offsets : list Z;
  block_ids : list Z;
  block_usages : list Z
}.

Definition context_create (total_tokens : list Z) (block_table : Table) (block_size : Z) : result (option Context) :=
  let num_ctx_blocks := (fun t => (t + block_size - 1) / block_size) <$> total_tokens in
  if sumZ num_ctx_blocks <=? 0 then Ok None
  else
    '(group_ids, group_offsets) ← indices_and_offsets num_ctx_blocks;
    block_ids ← fetch_2d block_table group_ids group_offsets;
    totals ← np_take total_tokens group_ids;
    block_usages ← np_map2 (fun t o => np_clip (t - o * block_size) 1 block_size) totals group_offsets;
    guard_or (bool_decide (length group_offsets = length group_ids /\ length block_ids = length group_ids /\
      length block_usages = length group_ids)) AssertionError;;
    Ok (Some (mkContext group_ids group_offsets block_ids block_usages)).

Definition index_select (ctx : Context) (indices : list Z) : result (option Context) :=
  match indices with
  | [] => Ok None
  | _ =>
      g ← np_take (group_ids ctx) indices;
      o ← np_take (group_offsets ctx) indices;
      b ← np_take (block_ids ctx) indices;
      u ← np_take (block_usages ctx) indices;
      Ok (Some (mkContext g o b u))
  end.

(** The entries whose block is read by several tokens, and the others. *)
Definition split (ctx : Context) (num_scheduled_tokens : list Z) : result (option Context * option Context) :=
  num_tokens ← np_take num_scheduled_tokens (group_ids ctx);
  block_tokens ← group_sum (block_ids ctx) num_tokens;
  let shared_idx := np_argwhere (fun n => 1 <? n) block_tokens in
  let unique_idx := np_argwhere (fun n => n =? 1) block_tokens in
  guard_or (length shared_idx + length unique_idx =? length (group_ids ctx))%nat AssertionError;;
  shared ← index_select ctx shared_idx;
  unique ← index_select ctx unique_idx;
  Ok (shared, unique).

(** ** The arrays kept between batches *)

Record PersistentContext := mkPersistentContext {
  max_num_batched_tokens : Z;
  max_shared_blocks : Z;
  max_unique_blocks : Z;
  use_persistent_shared_biases : bool
}.

Definition shared_bias_mem_threshold : Z := 64 * 2 ^ 30.

Definition init_persistent_context (max_num_batched_tokens max_shared_blocks max_unique_blocks block_size itemsize : Z) :
    PersistentContext :=
  let estimated_shared_bias_mem :=
    max_num_batched_tokens * max_shared_blocks * block_size * itemsize +
    max_shared_blocks * block_size * block_size * itemsize in
  mkPersistentContext max_num_batched_tokens max_shared_blocks max_unique_blocks
    (estimated_shared_bias_mem <=? shared_bias_mem_threshold).

(** The length of [a[:n]] for an array of length [max]. *)
Definition slice_len (n max : Z) : Z := if n <? 0 then Z.max 0 (max + n) else Z.min n max.

(** [hpu_tensor]: padded at the end up to the length asked for. *)
Definition hpu_tensor {A} (t : list A) (target : Z) (pad_value : A) : result (list A) :=
  placeholder ← np_full target pad_value;
  write_slice 0 t placeholder.

Definition hpu_tensor2 {A} (t : list (list A)) (target0 target1 : Z) (pad_value : A) : result (list (list A)) :=
  rows ← mapM (fun row => hpu_tensor row target1 pad_value) t;
  placeholder ← np_full target1 pad_value;
  hpu_tensor rows target0 placeholder.

Definition hpu_tensor3 {A} (t : list (list (list A))) (target0 target1 target2 : Z) (pad_value : A) :
    result (list (list (list A))) :=
  rows ← mapM (fun rows => hpu_tensor2 rows target1 target2 pad_value) t;
  row ← np_full target2 pad_value;
  placeholder ← np_full target1 row;
  hpu_tensor rows target0 placeholder.

(** ** The tokens of a batch *)

(** [-1] stands for a draft token that is not there. *)
Fixpoint spec_scheduled_tokens (spec : gmap string (list Z)) (req_ids : list string) (num_scheduled_tokens : list Z) :
    result (list Z) :=
  match req_ids, num_scheduled_tokens with
  | [], _ => Ok num_scheduled_tokens
  | req_id :: req_ids', [] =>
      match spec !! req_id with
      | Some _ => Err IndexError
      | None => spec_scheduled_tokens spec req_ids' []
      end
  | req_id :: req_ids', n :: ns' =>
      let n' := match spec !! req_id with
        | Some spec_tokens => len (filter (fun i => i <> -1) spec_tokens) + 1
        | None => n
        end in
      rest ← spec_scheduled_tokens spec req_ids' ns';
      Ok (n' :: rest)
  end.

Record Prep := mkPrep {
  total_tokens : list Z;
  query_len : Z;
  contains_prompts : bool;
  cached_tokens : list Z;
  group_starts : list Z;
  token_groups : list Z;
  token_positions : list Z;
  token_ids : list Z;
  token_slots : list Z;
  logits_groups : list Z;
  logits_indices : list Z;
  new_token_positions : list Z;
  query_start_loc : list Z
}.

(** One value per request in each array. *)
Definition common_prep (req_ids : list string) (all_token_ids : Table)
    (num_computed_tokens num_scheduled_tokens num_prompt_tokens : list Z) (block_table : Table) (block_size : Z) : result Prep :=
  total_tokens ← np_map2 Z.add num_computed_tokens num_scheduled_tokens;
  let query_len := sumZ num_scheduled_tokens in
  is_prompt ← np_map2 Z.leb total_tokens num_prompt_tokens;
  cached ← np_map2 (fun p n => if p : bool then 0 else n) is_prompt num_scheduled_tokens;
  cached_tokens ← np_map2 Z.add num_computed_tokens cached;
  let contains_prompts := existsb id is_prompt in
  num_output_tokens ← np_map2 (fun t p => t - p + 1) total_tokens num_prompt_tokens;
  num_output_tokens ← np_map2 (fun x n => np_clip x 0 n) num_output_tokens num_scheduled_tokens;
  group_starts ← np_map2 Z.sub (np_cumsum num_scheduled_tokens) num_scheduled_tokens;
  '(token_groups, token_offsets) ← indices_and_offsets num_scheduled_tokens;
  computed ← np_take num_computed_tokens token_groups;
  token_positions ← np_map2 Z.add token_offsets computed;
  token_ids ← fetch_2d all_token_ids token_groups token_positions;
  token_blocks ← fetch_2d block_table token_groups ((fun p => p / block_size) <$> token_positions);
  token_slots ← np_map2 (fun b p => b * block_size + p mod block_size) token_blocks token_positions;
  '(logits_groups, logits_offsets) ← indices_and_offsets num_output_tokens;
  start_logits_indices ← np_map2 Z.sub (np_cumsum num_scheduled_tokens) num_output_tokens;
  starts ← np_take start_logits_indices logits_groups;
  logits_indices ← np_map2 Z.add logits_offsets starts;
  outputs ← np_take num_output_tokens logits_groups;
  negative_logits_offsets ← np_map2 (fun n o => n - o - 1) outputs logits_offsets;
  totals ← np_take total_tokens logits_groups;
  new_token_positions ← np_map2 Z.sub totals negative_logits_offsets;
  query_start_loc ← write_slice 1 (np_cumsum num_scheduled_tokens) (replicate (length req_ids + 1) 0);
  Ok (mkPrep total_tokens query_len contains_prompts cached_tokens group_starts token_groups token_positions token_ids
    token_slots logits_groups logits_indices new_token_positions query_start_loc).

(** ** The shared and the unique part *)

(** [np.unique(a, return_inverse=True)]: the second is the position of each
    element in the first. *)
Definition position_in (l : list Z) (x : Z) : Z := Z.of_nat (default 0%nat (fst <$> list_find (fun y => y = x) l)).
Definition np_unique_inverse (a : list Z) : list Z * list Z := (sorted_set a, position_in (sorted_set a) <$> a).

Record SharedPrep := mkSharedPrep {
  shared_blocks : list Z;
  shared_token_idx : list Z;
  shared_block_idx : list Z;
  shared_block_usage : list Z
}.

(** One entry for each block of context and each token of its request. *)
Definition shared_prep (p : Prep) (num_scheduled_tokens : list Z) (ctx : Context) : result SharedPrep :=
  let '(shared_blocks, orig_shared_blocks) := np_unique_inverse (block_ids ctx) in
  shared_group_starts ← np_take (group_starts p) (group_ids ctx);
  shared_tokens ← np_take num_scheduled_tokens (group_ids ctx);
  '(shared_token_indices, shared_token_offsets) ← indices_and_offsets shared_tokens;
  starts ← np_take shared_group_starts shared_token_indices;
  shared_token_idx ← np_map2 Z.add starts shared_token_offsets;
  shared_block_idx ← np_take orig_shared_blocks shared_token_indices;
  shared_block_usage ← np_take (block_usages ctx) shared_token_indices;
  Ok (mkSharedPrep shared_blocks shared_token_idx shared_block_idx shared_block_usage).

Definition shared_writes (token_idx block_idx usage : list Z) (block_size : Z) : list (Z * Z * list bool) :=
  zip (zip token_idx block_idx) (generate_bias usage block_size).

(** An array of minus infinity, and the rows of the entries written to it.  The
    array kept between batches is filled again first. *)
Definition shared_bias_cpu (pc : PersistentContext) (block_size query_len : Z) (s : SharedPrep) : result (list (list (list bool))) :=
  let n := len (shared_blocks s) in
  let '(dim0, dim1) :=
    if use_persistent_shared_biases pc then (slice_len query_len (max_num_batched_tokens pc), slice_len n (max_shared_blocks pc))
    else (query_len, n) in
  row ← np_full block_size true;
  rows ← np_full dim1 row;
  shared_bias ← np_full dim0 rows;
  np_put2 shared_bias (shared_writes (shared_token_idx s) (shared_block_idx s) (shared_block_usage s) block_size).

Record UniquePrep := mkUniquePrep {
  up_blocks : Z;
  up_bias : list (list bool);
  up_mapping : list Z
}.

Definition unique_prep (pc : PersistentContext) (block_size : Z) (p : Prep) (ctx : Context) : result UniquePrep :=
  max_id ← np_max (block_ids ctx);
  let unique_blocks := max_id + 1 in
  row ← np_full block_size true;
  unique_bias ← np_full (slice_len unique_blocks (max_unique_blocks pc)) row;
  unique_bias ← np_put unique_bias (zip (block_ids ctx) (generate_bias (block_usages ctx) block_size));
  unique_group_starts ← np_take (group_starts p) (group_ids ctx);
  unique_block_mapping ← np_full (slice_len unique_blocks (max_unique_blocks pc)) (-1);
  unique_block_mapping ← np_put unique_block_mapping (zip (block_ids ctx) unique_group_starts);
  Ok (mkUniquePrep unique_blocks unique_bias unique_block_mapping).

(** [if x is not None]. *)
Definition opt_run {A B} (f : A -> result B) (x : option A) : result (option B) :=
  match x with Some a => b ← f a; Ok (Some b) | None => Ok None end.

(** ** The batch *)

(** What the attention of a layer reads. *)
Record AttnMetadata := mkAttnMetadata {
  slot_mapping : list Z;
  causal_bias : option (list (list bool));
  md_shared_blocks : option (list Z);
  shared_bias : option (list (list (list bool)));
  md_unique_blocks : Z;
  unique_block_mapping : option (list Z);
  unique_bias : option (list (list bool))
}.

Record UnifiedBatch := mkUnifiedBatch {
  ub_prep : Prep;
  ub_token_ids : list Z;
  ub_token_positions : list Z;
  ub_logits_indices : list Z;
  ub_attn_metadata : AttnMetadata;
  invalid_req_indices : list Z
}.

(** The requests as the arrays of the worker's batch hold them. *)
Record Inputs := mkInputs {
  req_ids : list string;
  all_token_ids : Table;
  num_computed_tokens : list Z;
  num_scheduled_tokens : list Z;
  num_prompt_tokens : list Z;
  block_table : Table;
  scheduled_spec_decode_tokens : gmap string (list Z)
}.

(** Sampled tokens that are still on the device (asynchronous scheduling). *)
Record AsyncInputs := mkAsyncInputs {
  input_ids_hpu : list Z;
  num_decodes : Z;
  decode_index : option (list Z)
}.

(** [a[:n] = b[:n]]. *)
Definition copy_prefix (a b : list Z) (n : Z) : result (list Z) :=
  let src := take (Z.to_nat (slice_len n (len b))) b in
  let room := Z.to_nat (slice_len n (len a)) in
  match src with
  | [x] => Ok (replicate room x ++ drop room a)
  | _ => if (length src =? room)%nat then Ok (src ++ drop room a) else Err RuntimeError
  end.

Definition async_token_ids (a : AsyncInputs) (token_ids_device : list Z) : result (list Z) :=
  match decode_index a with
  | Some index =>
      values ← np_take (input_ids_hpu a) index;
      np_put token_ids_device (zip index values)
  | None => copy_prefix token_ids_device (input_ids_hpu a) (num_decodes a)
  end.

Section batch.

(** The bucket of a batch and the padding for data parallelism, functions of
    the caller; and the order in which [index_put_] writes, which the device
    does not promise. *)
Context (bucketing_fn : bool -> Z -> Z -> Z -> Z -> Z * Z * Z * Z).
Context (get_dp_padding_fn : Z -> Z).
Context (put_order : list (Z * Z * list bool) -> list (Z * Z * list bool)).
Context (pc : PersistentContext).
Context (block_size : Z).

(** [HPUSharedBiasGenerator]. *)
Definition shared_bias_generator (usages token_idx block_idx : list Z) (target_qlen target_shared_blocks : Z) :
    result (list (list (list bool))) :=
  row ← np_full block_size true;
  rows ← np_full target_shared_blocks row;
  bias ← np_full target_qlen rows;
  np_put2 bias (put_order (shared_writes token_idx block_idx usages block_size)).

(** The shared bias on the device: on the host when there are more entries than
    the padded arrays hold. *)
Definition shared_bias_hpu (query_len target_qlen target_shared_blocks : Z) (s : SharedPrep) : result (list (list (list bool))) :=
  let padded_num_shared_tokens := target_shared_blocks * block_size in
  if padded_num_shared_tokens <? len (shared_block_usage s) then
    bias ← shared_bias_cpu pc block_size query_len s;
    hpu_tensor3 bias target_qlen target_shared_blocks block_size true
  else
    usages ← hpu_tensor (shared_block_usage s) padded_num_shared_tokens (-1);
    token_idx ← hpu_tensor (shared_token_idx s) padded_num_shared_tokens (-1);
    block_idx ← hpu_tensor (shared_block_idx s) padded_num_shared_tokens (-1);
    shared_bias_generator usages token_idx block_idx target_qlen target_shared_blocks.

(** The causal bias on the device. *)
Definition causal_bias_hpu (p : Prep) (target_qlen : Z) : result (list (list bool)) :=
  padding_mask ← np_full target_qlen true;
  let n := length (token_groups p) in
  let padding_mask := replicate (Nat.min n (length padding_mask)) false ++ drop n padding_mask in
  groups ← hpu_tensor (token_groups p) target_qlen (-1);
  positions ← hpu_tensor (token_positions p) target_qlen (-1);
  Ok (causal_bias_generator groups positions padding_mask).

Definition attn_metadata (hpu_bias_acceleration : bool) (p : Prep) (shared : option SharedPrep) (unique : option UniquePrep)
    (target_qlen target_shared_blocks target_unique_blocks : Z) : result AttnMetadata :=
  slot_mapping ← hpu_tensor (token_slots p) target_qlen (-1);
  causal_bias ← opt_run (fun p =>
    if hpu_bias_acceleration then causal_bias_hpu p target_qlen
    else hpu_tensor2 (create_causal_bias (token_groups p) (token_positions p)) target_qlen target_qlen true)
    (if contains_prompts p then Some p else None);
  blocks ← opt_run (fun s => hpu_tensor (shared_blocks s) target_shared_blocks (-1)) shared;
  shared_bias ← opt_run (fun s =>
    if hpu_bias_acceleration then shared_bias_hpu (query_len p) target_qlen target_shared_blocks s
    else
      bias ← shared_bias_cpu pc block_size (query_len p) s;
      hpu_tensor3 bias target_qlen target_shared_blocks block_size true) shared;
  mapping ← opt_run (fun u => hpu_tensor (up_mapping u) target_unique_blocks (-1)) unique;
  unique_bias ← opt_run (fun u => hpu_tensor2 (up_bias u) target_unique_blocks block_size true) unique;
  Ok (mkAttnMetadata slot_mapping causal_bias blocks shared_bias target_unique_blocks mapping unique_bias).

Definition create_unified_batch (i : Inputs) (async : option AsyncInputs) (hpu_bias_acceleration : bool) : result UnifiedBatch :=
  ns ← spec_scheduled_tokens (scheduled_spec_decode_tokens i) (req_ids i) (num_scheduled_tokens i);
  p ← common_prep (req_ids i) (all_token_ids i) (num_computed_tokens i) ns (num_prompt_tokens i) (block_table i) block_size;
  ctx ← context_create (cached_tokens p) (block_table i) block_size;
  '(shared_ctx, unique_ctx) ← match ctx with Some c => split c ns | None => Ok (None, None) end;
  shared ← opt_run (shared_prep p ns) shared_ctx;
  unique ← opt_run (unique_prep pc block_size p) unique_ctx;
  let '(target_qlen, target_shared_blocks, target_unique_blocks, target_logits) :=
    bucketing_fn (contains_prompts p) (len (token_ids p)) (default 0 (len ∘ shared_blocks <$> shared))
      (default 0 (up_blocks <$> unique)) (len (logits_indices p)) in
  let target_qlen := target_qlen + get_dp_padding_fn target_qlen in
  let target_shared_blocks := target_shared_blocks + get_dp_padding_fn target_shared_blocks in
  let target_unique_blocks := target_unique_blocks + get_dp_padding_fn target_unique_blocks in
  let target_logits := target_logits + get_dp_padding_fn target_logits in
  md ← attn_metadata hpu_bias_acceleration p shared unique target_qlen target_shared_blocks target_unique_blocks;
  ids ← hpu_tensor (token_ids p) target_qlen (-1);
  logits ← hpu_tensor (logits_indices p) target_logits (-1);
  positions ← hpu_tensor (token_positions p) target_qlen (-1);
  match async with
  | None => Ok (mkUnifiedBatch p ids positions logits md [])
  | Some a =>
      ids ← async_token_ids a ids;
      if len (req_ids i) - len (logits_indices p) =? 1 then
        Ok (mkUnifiedBatch p ids positions (logits ++ [query_len p - 1]) md [len (req_ids i) - 1])
      else Ok (mkUnifiedBatch p ids positions logits md [])
  end.

End batch.

(** ** The tokens of groups, as a reference

    Token [(g, o)] is the [o]-th of group [g]. *)

Fixpoint tokens_from (g : nat) (counts : list Z) : list (nat * Z) :=
  match counts with
  | [] => []
  | c :: counts' => ((fun o => (g, o)) <$> seqZ 0 c) ++ tokens_from (S g) counts'
  end.
Definition tokens (counts : list Z) : list (nat * Z) := tokens_from 0 counts.

(** Where a group starts. *)
Definition start_of (counts : list Z) (g : nat) : Z := sumZ (take g counts).

Definition counts_ok (counts : list Z) : Prop := counts <> [] /\ Forall (fun c => 0 <= c) counts.

Lemma start_of_cons c counts g : start_of (c :: counts) (S g) = c + start_of counts g.
Proof. done. Qed.

Lemma lookup_tokens_from k counts p g o : Forall (fun c => 0 <= c) counts ->
  tokens_from k counts !! p = Some (g, o) <->
  (k <= g)%nat /\ exists c, counts !! (g - k)%nat = Some c /\ 0 <= o < c /\ Z.of_nat p = start_of counts (g - k) + o.
Proof.
  intros Hc. revert k p. induction Hc as [|c counts Hc0 Hc IH]; intros k p; cbn [tokens_from].
  { split; [done|]. by intros (_ & c & ? & _). }
  rewrite lookup_app_Some, list_lookup_fmap, length_fmap, length_seqZ. split.
  - intros [(o' & Ho & [= <- <-])%fmap_Some|[Hp (Hk & c' & Hc' & Ho & Hs)%IH]].
    + apply lookup_seqZ in Ho as [-> Ho]. split; [lia|]. exists c. rewrite Nat.sub_diag. cbn. split_and!; [done|lia..].
    + split; [lia|]. exists c'. replace (g - k)%nat with (S (g - S k)) by lia. rewrite start_of_cons.
      split_and!; [done|lia..].
  - intros (Hk & c' & Hc' & Ho & Hs). destruct (g - k)%nat as [|j] eqn:Hj; cbn in Hc'.
    + left. assert (g = k) as -> by lia. change (start_of (c :: counts) 0) with 0 in Hs. simplify_eq. apply fmap_Some. exists o. split; [|done].
      apply lookup_seqZ. lia.
    + right. rewrite start_of_cons in Hs. pose proof (sumZ_nonneg (take j counts) ltac:(by apply Forall_take)). fold (start_of counts j) in *. split; [lia|].
      apply IH. split; [lia|]. exists c'. replace (g - S k)%nat with j by lia. split_and!; [done|lia..].
Qed.

Lemma lookup_tokens counts p g o : Forall (fun c => 0 <= c) counts ->
  tokens counts !! p = Some (g, o) <-> exists c, counts !! g = Some c /\ 0 <= o < c /\ Z.of_nat p = start_of counts g + o.
Proof.
  intros Hc. unfold tokens. rewrite lookup_tokens_from by done. rewrite Nat.sub_0_r. split; [tauto|].
  intros H. split; [lia|done].
Qed.

Lemma elem_of_tokens counts g o : Forall (fun c => 0 <= c) counts ->
  (g, o) ∈ tokens counts <-> exists c, counts !! g = Some c /\ 0 <= o < c.
Proof.
  intros Hc. rewrite list_elem_of_lookup. split.
  - intros (p & (c & Hg & Ho & _)%lookup_tokens); eauto.
  - intros (c & Hg & Ho). exists (Z.to_nat (start_of counts g + o)). apply lookup_tokens; [done|]. exists c.
    pose proof (sumZ_nonneg (take g counts) ltac:(by apply Forall_take)). unfold start_of. split_and!; [done|lia..].
Qed.

Lemma length_tokens_from k counts : Forall (fun c => 0 <= c) counts -> Z.of_nat (length (tokens_from k counts)) = sumZ counts.
Proof.
  intros Hc. revert k. induction Hc as [|c counts ? ? IH]; intros k; cbn [tokens_from]; [done|].
  rewrite length_app, length_fmap, length_seqZ, Nat2Z.inj_add, IH, Z2Nat.id by done. done.
Qed.

Lemma length_tokens counts : Forall (fun c => 0 <= c) counts -> len (tokens counts) = sumZ counts.
Proof. apply length_tokens_from. Qed.

Lemma start_of_S counts g c : counts !! g = Some c -> start_of counts (S g) = start_of counts g + c.
Proof. intros Hc. unfold start_of. erewrite take_S_r by done. rewrite sumZ_app. cbn. lia. Qed.

Lemma start_of_mono counts g h : Forall (fun c => 0 <= c) counts -> (g <= h)%nat -> start_of counts g <= start_of counts h.
Proof.
  intros Hc Hgh. unfold start_of. rewrite <- (take_drop g (take h counts)), take_take, Nat.min_l, sumZ_app by done.
  pose proof (sumZ_nonneg (drop g (take h counts)) ltac:(by apply Forall_drop, Forall_take)). lia.
Qed.

Lemma start_of_all counts n : (length counts <= n)%nat -> start_of counts n = sumZ counts.
Proof. intros Hn. unfold start_of. by rewrite take_ge. Qed.

(** A prefix sum of what [np.add.at] adds to zeros. *)
Definition sum_below (k : Z) (adds : list (Z * Z)) : Z := sumZ ((fun '(i, v) => if i <? k then v else 0) <$> adds).

Lemma sum_below_cons k i v adds : sum_below k ((i, v) :: adds) = (if i <? k then v else 0) + sum_below k adds.
Proof. done. Qed.

Lemma sum_below_S k adds : sum_below (k + 1) adds = sum_below k adds + sum_at k adds.
Proof.
  induction adds as [|[i v] adds IH]; [done|]. rewrite !sum_below_cons, sum_at_cons, IH.
  destruct (Z.ltb_spec i (k + 1)), (Z.ltb_spec i k), (Z.eqb_spec i k); lia.
Qed.

Lemma sum_below_0 adds : (forall i v, (i, v) ∈ adds -> 0 <= i) -> sum_below 0 adds = 0.
Proof.
  induction adds as [|[i v] adds IH]; intros Hi; [done|]. rewrite sum_below_cons.
  rewrite (proj2 (Z.ltb_ge _ _)) by (apply (Hi i v); left). apply IH. intros j w Hj. apply (Hi j w). by right.
Qed.

Lemma sum_take_adds (l : list Z) adds k : (k <= length l)%nat -> (forall i v, (i, v) ∈ adds -> 0 <= i) ->
  (forall p, (p < length l)%nat -> l !! p = Some (sum_at (Z.of_nat p) adds)) ->
  sumZ (take k l) = sum_below (Z.of_nat k) adds.
Proof.
  intros Hk Hi Hl. induction k as [|k IH]; [by rewrite sum_below_0|].
  erewrite take_S_r by (apply Hl; lia). rewrite sumZ_app, IH by lia.
  rewrite Nat2Z.inj_succ. unfold Z.succ. rewrite sum_below_S. cbn [sumZ foldr]. lia.
Qed.

(** How many groups end at or before a token of group [g]. *)
Lemma groups_ended counts g c p : Forall (fun c => 0 <= c) counts -> counts !! g = Some c ->
  start_of counts g <= p < start_of counts g + c ->
  sum_below (p + 1) ((fun i => (i, 1)) <$> but_last (np_cumsum counts)) = Z.of_nat g.
Proof.
  intros Hc Hg Hp. pose proof (lookup_lt_Some _ _ _ Hg) as Hlt.
  assert (E : but_last (np_cumsum counts) = (fun j => start_of counts (S j)) <$> seq 0 (length counts - 1)).
  { apply list_eq. intros j. rewrite list_lookup_fmap. destruct (decide (j < length counts - 1)%nat).
    - rewrite lookup_but_last by (rewrite length_np_cumsum; lia). rewrite lookup_cumsum by lia.
      by rewrite lookup_seq_lt by lia.
    - rewrite (lookup_seq_ge _ _ j) by lia. apply lookup_ge_None. unfold but_last. rewrite length_take, length_np_cumsum. lia. }
  rewrite E, <- list_fmap_compose.
  replace (length counts - 1)%nat with (g + (length counts - 1 - g))%nat by lia. rewrite seq_app, fmap_app.
  unfold sum_below. rewrite fmap_app, sumZ_app, <- !list_fmap_compose.
  assert (H1 : forall m, (m <= g)%nat -> sumZ ((fun '(i, v) => if i <? p + 1 then v else 0) ∘ (fun i => (i, 1)) ∘
    (fun j => start_of counts (S j)) <$> seq 0 m) = Z.of_nat m).
  { induction m as [|m IH]; intros Hm; [done|]. rewrite seq_S, fmap_app, sumZ_app, IH by lia. cbn.
    pose proof (start_of_mono counts (S m) g Hc ltac:(lia)). rewrite (proj2 (Z.ltb_lt _ _)) by lia. lia. }
  assert (H2 : forall m, sumZ ((fun '(i, v) => if i <? p + 1 then v else 0) ∘ (fun i => (i, 1)) ∘
    (fun j => start_of counts (S j)) <$> seq g m) = 0).
  { induction m as [|m IH]; [done|]. rewrite seq_S, fmap_app, sumZ_app, IH. cbn.
    pose proof (start_of_mono counts (S g) (S (g + m)) Hc ltac:(lia)) as Hm. rewrite (start_of_S _ _ _ Hg) in Hm.
    by rewrite (proj2 (Z.ltb_ge _ _)) by lia. }
  rewrite Nat.add_0_l. setoid_rewrite H1; [|done]. setoid_rewrite H2. lia.
Qed.

Lemma cum_start_ok counts :
  np_map2 Z.sub (np_cumsum counts) counts = Ok (start_of counts <$> seq 0 (length counts)).
Proof.
  rewrite np_map2_ok by apply length_np_cumsum. f_equal. apply list_eq. intros g.
  rewrite lookup_zip_with, list_lookup_fmap. destruct (counts !! g) as [c|] eqn:Hg.
  - pose proof (lookup_lt_Some _ _ _ Hg). rewrite lookup_cumsum, lookup_seq_lt by done. cbn -[sumZ take]. f_equal.
    fold (start_of counts (S g)). rewrite (start_of_S _ _ _ Hg). lia.
  - apply lookup_ge_None in Hg. rewrite lookup_seq_ge by done. by destruct (np_cumsum counts !! g).
Qed.

(** A position below the total belongs to a token. *)
Lemma token_at counts p : Forall (fun c => 0 <= c) counts -> Z.of_nat p < sumZ counts ->
  exists g o c, tokens counts !! p = Some (g, o) /\ counts !! g = Some c /\ 0 <= o < c /\ Z.of_nat p = start_of counts g + o.
Proof.
  intros Hc Hp. rewrite <- length_tokens in Hp by done. unfold len in Hp.
  destruct (lookup_lt_is_Some_2 (tokens counts) p) as [[g o] E]; [lia|].
  pose proof E as (c & ? & ? & ?)%lookup_tokens; [|done]. eauto 10.
Qed.

Lemma start_of_bound counts g : Forall (fun c => 0 <= c) counts -> 0 <= start_of counts g <= sumZ counts.
Proof.
  intros Hc. split; [by apply sumZ_nonneg, Forall_take|]. rewrite <- (start_of_all counts (Nat.max g (length counts))) by lia.
  apply start_of_mono; [done|lia].
Qed.

(** The additions of [indices_and_offsets]: one at the end of each group but the
    last. *)
Definition group_ends (counts : list Z) : list (Z * Z) := (fun i => (i, 1)) <$> but_last (np_cumsum counts).

Lemma group_ends_bound counts i v : Forall (fun c => 0 <= c) counts -> (i, v) ∈ group_ends counts -> 0 <= i < sumZ counts + 1.
Proof.
  intros Hc (x & [= -> ->] & Hx)%list_elem_of_fmap. apply elem_of_take_sub in Hx.
  apply list_elem_of_lookup in Hx as [k Hk]. pose proof (lookup_lt_Some _ _ _ Hk) as Hkl.
  rewrite length_np_cumsum in Hkl. rewrite lookup_cumsum in Hk by done.
  pose proof (start_of_bound counts (S k) Hc) as Hb. unfold start_of in Hb. simplify_eq. lia.
Qed.

Lemma sum_below_ends counts k : counts <> [] -> 0 <= sum_below k (group_ends counts) < Z.of_nat (length counts).
Proof.
  intros Hne. assert (Hb : forall xs, 0 <= sum_below k ((fun i => (i, 1)) <$> xs) <= Z.of_nat (length xs)).
  { induction xs as [|x xs IH]; [done|]. rewrite fmap_cons, sum_below_cons. cbn [length]. destruct (x <? k); lia. }
  specialize (Hb (but_last (np_cumsum counts))). fold (group_ends counts) in Hb.
  unfold but_last in Hb. rewrite length_take, length_np_cumsum in Hb. destruct counts; [done|]. cbn [length] in *. lia.
Qed.

(** The array of group numbers: one entry per token and one more. *)
Lemma group_indices counts : counts_ok counts ->
  exists l last, np_add_at (replicate (Z.to_nat (sumZ counts + 1)) 0) (group_ends counts) = Ok l /\
    np_cumsum l = ((fun t => Z.of_nat t.1) <$> tokens counts) ++ [last] /\ 0 <= last < Z.of_nat (length counts).
Proof.
  intros [Hne Hc]. pose proof (sumZ_nonneg _ Hc) as Hs. pose proof (length_tokens _ Hc) as Hlt. unfold len in Hlt.
  destruct (np_add_at_ok (replicate (Z.to_nat (sumZ counts + 1)) 0) (group_ends counts)) as (l & Hl0 & Hl & Hlp).
  { intros i v Hin%group_ends_bound; [|done]. unfold len. rewrite length_replicate. lia. }
  rewrite length_replicate in Hl.
  assert (Hsum : forall k, (k < length l)%nat -> np_cumsum l !! k = Some (sum_below (Z.of_nat k + 1) (group_ends counts))).
  { intros k Hk. rewrite lookup_cumsum by done. f_equal. rewrite (sum_take_adds l (group_ends counts)); [f_equal; lia|lia| |].
    - intros i v Hin%group_ends_bound; [lia|done].
    - intros p Hp. rewrite (Hlp p 0); [by rewrite Z.add_0_l|]. apply lookup_replicate. split; [done|lia]. }
  exists l, (sum_below (Z.of_nat (length (tokens counts)) + 1) (group_ends counts)).
  split; [done|]. split; [|by apply sum_below_ends].
  apply list_eq. intros k. destruct (decide (k < length (tokens counts))%nat) as [Hk|Hk].
  - rewrite lookup_app_l by (by rewrite length_fmap). destruct (lookup_lt_is_Some_2 _ _ Hk) as [[g o] E].
    rewrite list_lookup_fmap, E, Hsum by lia. cbn [fmap option_fmap option_map fst]. f_equal.
    apply lookup_tokens in E as (c & Hg & Ho & E); [|done]. apply (groups_ended _ _ c); [done..|lia].
  - rewrite lookup_app_r by (rewrite length_fmap; lia). rewrite length_fmap. destruct (decide (k = length (tokens counts))) as [->|].
    + rewrite Nat.sub_diag, Hsum by lia. done.
    + rewrite (lookup_ge_None_2 (np_cumsum l)) by (rewrite length_np_cumsum; lia).
      symmetry. apply lookup_ge_None_2. cbn. lia.
Qed.

Lemma indices_and_offsets_ok counts : counts_ok counts ->
  indices_and_offsets counts = Ok ((fun t => Z.of_nat t.1) <$> tokens counts, snd <$> tokens counts).
Proof.
  intros Hok. pose proof Hok as [Hne Hc]. pose proof (sumZ_nonneg _ Hc) as Hs.
  pose proof (length_tokens _ Hc) as Hlt. unfold len in Hlt.
  unfold indices_and_offsets. rewrite cum_start_ok. cbn [mbind result_mbind].
  rewrite cumsum_last by done. cbn [mbind result_mbind]. rewrite np_full_ok by lia. cbn [mbind result_mbind].
  fold (group_ends counts). destruct (group_indices counts Hok) as (l & last & -> & Hcum & Hlast). cbn [mbind result_mbind].
  rewrite Hcum, np_take_ok.
  2:{ intros i. unfold len. rewrite elem_of_app, length_fmap, length_seq, list_elem_of_singleton.
      intros [([g o] & -> & Hin)%list_elem_of_fmap| ->]; [|lia].
      apply elem_of_tokens in Hin as (c & Hg%lookup_lt_Some & _); [cbn; lia|done]. }
  cbn [mbind result_mbind].
  assert (Hlr : length (np_arange (sumZ counts + 1)) = S (length (tokens counts))) by (unfold np_arange; rewrite length_seqZ; lia).
  rewrite np_map2_ok by (rewrite Hlr, length_fmap, length_app, length_fmap; cbn; lia).
  cbn [mbind result_mbind]. rewrite fmap_app, but_last_snoc. do 2 f_equal.
  apply list_eq. intros k. rewrite list_lookup_fmap. destruct (tokens counts !! k) as [[g o]|] eqn:E.
  - pose proof (lookup_lt_Some _ _ _ E). rewrite lookup_but_last
      by (rewrite length_zip_with, Hlr, length_app, !length_fmap; cbn [length]; lia).
    rewrite lookup_zip_with. unfold np_arange. rewrite lookup_seqZ_lt by lia. cbn.
    rewrite lookup_app_l by (by rewrite !length_fmap). rewrite !list_lookup_fmap, E. cbn.
    apply lookup_tokens in E as (c & Hg & Ho & Hk); [|done]. f_equal.
    rewrite Nat2Z.id, list_lookup_total_alt, list_lookup_fmap, lookup_seq_lt by (by apply lookup_lt_Some in Hg).
    change (0 + Z.of_nat k - start_of counts g = o). lia.
  - apply lookup_ge_None in E. apply lookup_ge_None_2. unfold but_last.
    rewrite length_take, length_zip_with, Hlr, length_app, !length_fmap. cbn [length]. lia.
Qed.

(** ** What the preparation computes *)

Definition table_shape (n : nat) (t : Table) : Prop :=
  length (table_rows t) = n /\ forall row, row ∈ table_rows t -> len row = table_cols t.

(** The element in row [g] and column [o]. *)
Definition table_at (t : Table) (g : nat) (o : Z) : Z := (table_rows t !!! g) !!! Z.to_nat o.

Lemma fetch_2d_ok {A} n t (g : A -> nat) (o : A -> Z) (xs : list A) : table_shape n t ->
  (forall x, x ∈ xs -> (g x < n)%nat /\ 0 <= o x < table_cols t) ->
  fetch_2d t ((fun x => Z.of_nat (g x)) <$> xs) (o <$> xs) = Ok ((fun x => table_at t (g x) (o x)) <$> xs).
Proof.
  intros [Hn Hw] Hx. unfold fetch_2d. rewrite np_map2_fmap. cbn [mbind result_mbind]. unfold np_take.
  induction xs as [|x xs IH]; [done|]. rewrite fmap_cons. cbn [mapM].
  destruct (Hx x ltac:(left)) as [Hg Ho]. destruct (lookup_lt_is_Some_2 (table_rows t) (g x)) as [row Hrow]; [lia|].
  pose proof (Hw row ltac:(by eapply list_elem_of_lookup_2)) as Hr. unfold len in Hr.
  rewrite (np_get_lookup _ _ (table_at t (g x) (o x))).
  - cbn [mbind result_mbind]. rewrite IH by (intros; apply Hx; by right). done.
  - nia.
  - replace (Z.to_nat _) with (g x * Z.to_nat (table_cols t) + Z.to_nat (o x))%nat by nia.
    rewrite (lookup_concat _ _ _ _ row); [|intros r Hr'%Hw; unfold len in Hr'; lia|done|lia].
    unfold table_at. rewrite (list_lookup_total_correct _ _ _ Hrow). apply list_lookup_lookup_total_lt. lia.
Qed.

Section inputs.
Context (block_size : Z) (i : Inputs) (ns : list Z).

(** The numbers of request [g]: tokens computed, scheduled, of the prompt. *)
Definition computed_of (g : nat) : Z := num_computed_tokens i !!! g.
Definition scheduled_of (g : nat) : Z := ns !!! g.
Definition prompt_of (g : nat) : Z := num_prompt_tokens i !!! g.
Definition total_of (g : nat) : Z := computed_of g + scheduled_of g.
Definition is_prompt_of (g : nat) : bool := total_of g <=? prompt_of g.
(** Keys read from the cache, and tokens to sample. *)
Definition cached_of (g : nat) : Z := computed_of g + (if is_prompt_of g then 0 else scheduled_of g).
Definition outputs_of (g : nat) : Z := np_clip (total_of g - prompt_of g + 1) 0 (scheduled_of g).
Definition any_prompt : bool := existsb is_prompt_of (seq 0 (length ns)).

(** Where the key of position [p] of request [g] is. *)
Definition slot_of (g : nat) (p : Z) : Z := table_at (block_table i) g (p / block_size) * block_size + p mod block_size.

(** Consistent arrays: some requests, each with a token to compute, with columns
    enough for its tokens and blocks. *)
Record inputs_ok : Prop := {
  io_block_size : 0 < block_size;
  io_some : ns <> [];
  io_req_ids : length (req_ids i) = length ns;
  io_computed : length (num_computed_tokens i) = length ns;
  io_prompt : length (num_prompt_tokens i) = length ns;
  io_token_table : table_shape (length ns) (all_token_ids i);
  io_block_table : table_shape (length ns) (block_table i);
  io_computed_nonneg : forall g, (g < length ns)%nat -> 0 <= computed_of g;
  io_scheduled : forall g, (g < length ns)%nat -> 1 <= scheduled_of g;
  io_tokens_fit : forall g, (g < length ns)%nat -> total_of g <= table_cols (all_token_ids i);
  io_blocks_fit : forall g, (g < length ns)%nat -> total_of g <= table_cols (block_table i) * block_size
}.

Lemma ns_seq : ns = scheduled_of <$> seq 0 (length ns).
Proof. apply as_seq. Qed.

Hypothesis Hok : inputs_ok.

Lemma ns_counts_ok : counts_ok ns.
Proof.
  split; [apply (io_some Hok)|]. rewrite ns_seq. apply Forall_fmap, Forall_forall. intros g Hg%elem_of_seq.
  pose proof (io_scheduled Hok g ltac:(lia)). cbn. lia.
Qed.

Lemma ns_lookup g : (g < length ns)%nat -> ns !! g = Some (scheduled_of g).
Proof. apply list_lookup_lookup_total_lt. Qed.

Lemma token_range g o : (g, o) ∈ tokens ns -> (g < length ns)%nat /\ 0 <= o < scheduled_of g.
Proof.
  intros (c & Hg & Ho)%elem_of_tokens; [|apply ns_counts_ok]. pose proof (lookup_lt_Some _ _ _ Hg) as Hl.
  rewrite ns_lookup in Hg by done. simplify_eq. done.
Qed.

Definition outputs : list Z := outputs_of <$> seq 0 (length ns).

Lemma outputs_counts_ok : counts_ok outputs.
Proof.
  split.
  - unfold outputs. pose proof (io_some Hok). destruct ns; [done|]. by rewrite length_cons.
  - apply Forall_fmap, Forall_forall. intros g Hg%elem_of_seq. cbn. unfold outputs_of, np_clip.
    pose proof (io_scheduled Hok g ltac:(lia)). lia.
Qed.

Lemma output_range g o : (g, o) ∈ tokens outputs -> (g < length ns)%nat /\ 0 <= o < outputs_of g.
Proof.
  intros (c & Hg & Ho)%elem_of_tokens; [|apply outputs_counts_ok].
  unfold outputs in Hg. rewrite list_lookup_fmap in Hg. apply fmap_Some in Hg as (g' & Hg' & ->).
  apply lookup_seq in Hg' as [-> Hl]. done.
Qed.

(** The reference: each array as a function of the token or the request. *)
Definition ref_prep : Prep :=
  mkPrep (total_of <$> seq 0 (length ns)) (sumZ ns) any_prompt (cached_of <$> seq 0 (length ns))
    (start_of ns <$> seq 0 (length ns))
    ((fun t => Z.of_nat t.1) <$> tokens ns)
    ((fun t => computed_of t.1 + t.2) <$> tokens ns)
    ((fun t => table_at (all_token_ids i) t.1 (computed_of t.1 + t.2)) <$> tokens ns)
    ((fun t => slot_of t.1 (computed_of t.1 + t.2)) <$> tokens ns)
    ((fun t => Z.of_nat t.1) <$> tokens outputs)
    ((fun t => start_of ns (S t.1) - outputs_of t.1 + t.2) <$> tokens outputs)
    ((fun t => total_of t.1 - outputs_of t.1 + t.2 + 1) <$> tokens outputs)
    (0 :: np_cumsum ns).

Lemma existsb_fmap (f : nat -> bool) (l : list nat) : existsb id (f <$> l) = existsb f l.
Proof. induction l as [|x l IH]; cbn; [done|]. by rewrite IH. Qed.

Lemma group_starts_ok : np_map2 Z.sub (np_cumsum ns) ns = Ok (start_of ns <$> seq 0 (length ns)).
Proof. apply cum_start_ok. Qed.

Lemma cumsum_seq (l : list Z) : np_cumsum l = (fun g => start_of l (S g)) <$> seq 0 (length l).
Proof.
  apply list_eq. intros g. rewrite list_lookup_fmap. destruct (decide (g < length l)%nat).
  - by rewrite lookup_cumsum, lookup_seq_lt.
  - rewrite (lookup_ge_None_2 (np_cumsum l)) by (rewrite length_np_cumsum; lia). by rewrite lookup_seq_ge by lia.
Qed.

(** The arrays with one entry per request. *)
Lemma request_arrays_ok :
  np_map2 Z.add (num_computed_tokens i) ns = Ok (total_of <$> seq 0 (length ns)) /\
  np_map2 Z.leb (total_of <$> seq 0 (length ns)) (num_prompt_tokens i) = Ok (is_prompt_of <$> seq 0 (length ns)) /\
  np_map2 (fun p n => if p : bool then 0 else n) (is_prompt_of <$> seq 0 (length ns)) ns =
    Ok ((fun g => if is_prompt_of g then 0 else scheduled_of g) <$> seq 0 (length ns)) /\
  np_map2 Z.add (num_computed_tokens i) ((fun g => if is_prompt_of g then 0 else scheduled_of g) <$> seq 0 (length ns)) =
    Ok (cached_of <$> seq 0 (length ns)) /\
  np_map2 (fun t p => t - p + 1) (total_of <$> seq 0 (length ns)) (num_prompt_tokens i) =
    Ok ((fun g => total_of g - prompt_of g + 1) <$> seq 0 (length ns)) /\
  np_map2 (fun x n => np_clip x 0 n) ((fun g => total_of g - prompt_of g + 1) <$> seq 0 (length ns)) ns = Ok outputs.
Proof.
  assert (Hc : num_computed_tokens i = computed_of <$> seq 0 (length ns)).
  { rewrite <- (io_computed Hok). apply as_seq. }
  assert (Hp : num_prompt_tokens i = prompt_of <$> seq 0 (length ns)).
  { rewrite <- (io_prompt Hok). apply as_seq. }
  rewrite Hc, Hp.
  assert (Hns : forall A C (f : A -> Z -> C) (F : nat -> A),
    np_map2 f (F <$> seq 0 (length ns)) ns = Ok ((fun g => f (F g) (scheduled_of g)) <$> seq 0 (length ns))).
  { intros A C f F. rewrite <- np_map2_fmap. f_equal. apply ns_seq. }
  rewrite !Hns, !np_map2_fmap. done.
Qed.

Lemma query_start_loc_ok :
  write_slice 1 (np_cumsum ns) (replicate (length (req_ids i) + 1) 0) = Ok (0 :: np_cumsum ns).
Proof.
  rewrite write_slice_ok by (rewrite length_replicate, length_np_cumsum, (io_req_ids Hok); lia).
  f_equal. rewrite Nat.add_1_r. cbn [take replicate app]. rewrite drop_ge; [by rewrite app_nil_r|].
  rewrite length_cons, length_replicate, length_np_cumsum, (io_req_ids Hok). lia.
Qed.

Lemma common_prep_ok :
  common_prep (req_ids i) (all_token_ids i) (num_computed_tokens i) ns (num_prompt_tokens i) (block_table i) block_size =
  Ok ref_prep.
Proof.
  pose proof request_arrays_ok as (E1 & E2 & E3 & E4 & E5 & E6).
  unfold common_prep. rewrite E1. cbn [mbind result_mbind]. rewrite E2. cbn [mbind result_mbind].
  rewrite E3. cbn [mbind result_mbind]. rewrite E4. cbn [mbind result_mbind]. rewrite E5. cbn [mbind result_mbind].
  rewrite E6. cbn [mbind result_mbind]. rewrite group_starts_ok. cbn [mbind result_mbind].
  rewrite (indices_and_offsets_ok ns) by apply ns_counts_ok. cbn [mbind result_mbind].
  assert (Hc : num_computed_tokens i = computed_of <$> seq 0 (length ns)).
  { rewrite <- (io_computed Hok). apply as_seq. }
  rewrite Hc, np_take_seq by (intros [g o] Hin%token_range; cbn; lia). cbn [mbind result_mbind].
  rewrite np_map2_fmap. cbn [mbind result_mbind].
  rewrite (fetch_2d_ok (length ns) (all_token_ids i)); [|apply Hok|].
  2:{ intros [g o] Hin%token_range. cbn [fst snd]. pose proof (io_computed_nonneg Hok g ltac:(lia)). pose proof (io_tokens_fit Hok g ltac:(lia)).
      unfold total_of in *. lia. }
  cbn [mbind result_mbind]. rewrite <- list_fmap_compose. cbn [mbind result_mbind].
  rewrite (fetch_2d_ok (length ns) (block_table i)); [|apply Hok|].
  2:{ intros [g o] Hin%token_range. cbn [fst snd compose]. pose proof (io_computed_nonneg Hok g ltac:(lia)). pose proof (io_blocks_fit Hok g ltac:(lia)).
      pose proof (io_block_size Hok). unfold total_of in *. split; [lia|]. split; [apply Z.div_pos; lia|].
      apply Z.div_lt_upper_bound; [|rewrite Z.mul_comm]; lia. }
  cbn [mbind result_mbind]. rewrite np_map2_fmap. cbn [mbind result_mbind].
  rewrite (indices_and_offsets_ok outputs) by apply outputs_counts_ok. cbn [mbind result_mbind].
  assert (Hs : np_map2 Z.sub (np_cumsum ns) outputs = Ok ((fun g => start_of ns (S g) - outputs_of g) <$> seq 0 (length ns))).
  { rewrite cumsum_seq. apply np_map2_fmap. }
  rewrite Hs. cbn [mbind result_mbind].
  assert (Ht : forall F : nat -> Z, np_take (F <$> seq 0 (length ns)) ((fun t => Z.of_nat t.1) <$> tokens outputs) =
    Ok ((fun t => F t.1) <$> tokens outputs)).
  { intros F. apply np_take_seq. intros [g o] Hin%output_range. cbn. lia. }
  rewrite (Ht (fun g => start_of ns (S g) - outputs_of g)). cbn [mbind result_mbind].
  rewrite np_map2_fmap. cbn [mbind result_mbind].
  setoid_rewrite (Ht outputs_of). cbn [mbind result_mbind]. rewrite np_map2_fmap. cbn [mbind result_mbind].
  rewrite (Ht total_of). cbn [mbind result_mbind].
  rewrite np_map2_fmap. cbn [mbind result_mbind]. rewrite query_start_loc_ok. cbn [mbind result_mbind].
  unfold ref_prep. f_equal. f_equal; [apply existsb_fmap|..]; apply list_fmap_ext; intros _ [g o] _; cbn; rewrite ?(Z.add_comm o); done || lia.
Qed.
End inputs.

(** ** Padding *)

Lemma hpu_tensor_ok {A} (t : list A) target pad : len t <= target ->
  hpu_tensor t target pad = Ok (t ++ replicate (Z.to_nat target - length t) pad).
Proof.
  unfold len. intros Hl. unfold hpu_tensor. rewrite np_full_ok by lia. cbn [mbind result_mbind].
  rewrite write_slice_ok by (rewrite length_replicate; lia). cbn [take app]. by rewrite Nat.add_0_l, drop_replicate.
Qed.

Lemma hpu_tensor_seq {A} (f : nat -> A) n target pad : Z.of_nat n <= target ->
  (forall k, (n <= k < Z.to_nat target)%nat -> f k = pad) ->
  hpu_tensor (f <$> seq 0 n) target pad = Ok (f <$> seq 0 (Z.to_nat target)).
Proof.
  intros Hn Hf. assert (length (f <$> seq 0 n) = n) as Hl by by rewrite length_fmap, length_seq.
  rewrite hpu_tensor_ok by (unfold len; lia). f_equal. rewrite Hl. apply fmap_seq_pad; [lia|done].
Qed.

Lemma hpu_tensor2_mat {A} (f : nat -> nat -> A) n m t0 t1 pad : Z.of_nat n <= t0 -> Z.of_nat m <= t1 ->
  (forall r c, (n <= r)%nat \/ (m <= c)%nat -> f r c = pad) ->
  hpu_tensor2 (mat n m f) t0 t1 pad = Ok (mat (Z.to_nat t0) (Z.to_nat t1) f).
Proof.
  intros Hn Hm Hf. unfold hpu_tensor2.
  rewrite (mapM_Ok _ (fun row => row ++ replicate (Z.to_nat t1 - m) pad)).
  2:{ intros row (r & -> & _)%list_elem_of_fmap. rewrite hpu_tensor_ok; rewrite ?length_fmap, ?length_seq; [done|].
      unfold len. rewrite length_fmap, length_seq. done. }
  cbn [mbind result_mbind]. rewrite np_full_ok by lia. cbn [mbind result_mbind]. unfold mat.
  rewrite <- list_fmap_compose.
  assert (E : (fun row => row ++ replicate (Z.to_nat t1 - m) pad) ∘ (fun r => f r <$> seq 0 m) <$> seq 0 n =
    (fun r => f r <$> seq 0 (Z.to_nat t1)) <$> seq 0 n).
  { apply fmap_seq_ext. intros r Hr. cbn. apply fmap_seq_pad; [lia|]. intros k Hk. apply Hf. lia. }
  rewrite E. apply hpu_tensor_seq; [done|]. intros r Hr. rewrite replicate_seq. apply fmap_seq_ext. intros c _.
  apply Hf. lia.
Qed.

Lemma hpu_tensor3_mat {A} (f : nat -> nat -> list A) n m t0 t1 t2 pad : Z.of_nat n <= t0 -> Z.of_nat m <= t1 -> 0 <= t2 ->
  (forall r c, len (f r c) = t2) ->
  (forall r c, (n <= r)%nat \/ (m <= c)%nat -> f r c = replicate (Z.to_nat t2) pad) ->
  hpu_tensor3 (mat n m f) t0 t1 t2 pad = Ok (mat (Z.to_nat t0) (Z.to_nat t1) f).
Proof.
  intros Hn Hm Ht Hlen Hf. unfold hpu_tensor3.
  assert (H2 : forall rows, rows ∈ mat n m f -> hpu_tensor2 rows t1 t2 pad =
    Ok (rows ++ replicate (Z.to_nat t1 - m) (replicate (Z.to_nat t2) pad))).
  { intros rows (r & -> & _)%list_elem_of_fmap. unfold hpu_tensor2. rewrite (mapM_Ok _ id).
    2:{ intros row (c & -> & _)%list_elem_of_fmap. rewrite hpu_tensor_ok by (by rewrite Hlen).
        specialize (Hlen r c). unfold len in Hlen. replace (_ - _)%nat with 0%nat by lia. by rewrite app_nil_r. }
    cbn [mbind result_mbind]. rewrite list_fmap_id, np_full_ok by lia. cbn [mbind result_mbind].
    rewrite hpu_tensor_ok; rewrite ?length_fmap, ?length_seq; [done|]. unfold len. by rewrite length_fmap, length_seq. }
  rewrite (mapM_Ok _ _ _ H2). cbn [mbind result_mbind]. rewrite !np_full_ok by lia. cbn [mbind result_mbind].
  unfold mat. rewrite <- list_fmap_compose.
  assert (E : (fun rows => rows ++ replicate (Z.to_nat t1 - m) (replicate (Z.to_nat t2) pad)) ∘ (fun r => f r <$> seq 0 m)
    <$> seq 0 n = (fun r => f r <$> seq 0 (Z.to_nat t1)) <$> seq 0 n).
  { apply fmap_seq_ext. intros r Hr. cbn. apply fmap_seq_pad; [lia|]. intros k Hk. apply Hf. lia. }
  rewrite np_full_ok by lia. cbn [mbind result_mbind]. rewrite E. apply hpu_tensor_seq; [done|].
  intros r Hr. rewrite replicate_seq. apply fmap_seq_ext. intros c _. apply Hf. lia.
Qed.
