(* ===== verification/UnifiedAttention.v ===== *)
(** Which keys a token of a unified batch attends.

    The reference of the context and of the three biases that
    [UnifiedBatch.create_unified_batch] builds, and the keys that the attention
    of [src/vllm_gaudi/extension/unified.py] reads through them. *)

From Stdlib Require Import ZArith Lia.
From stdpp Require Import base strings numbers gmap list.
From S2P Require Import Prelude.
From S2P Require Import PyOrder.
From S2P Require Import Numpy.
From S2P Require Import BlockTable.
From S2P Require Import UnifiedBatch.

Open Scope list_scope.
Open Scope Z_scope.

Lemma list_non_nil_elem {A} (l : list A) : l <> [] -> exists x, x ∈ l.
Proof. destruct l as [|x l]; [done|]. exists x. left. Qed.

(** ** The keys of a batch *)

(** The elements where the mask is open. *)
Fixpoint unmasked (mask : list bool) (keys : list Z) : list Z :=
  match mask, keys with
  | m :: mask', k :: keys' => (if m then [] else [k]) ++ unmasked mask' keys'
  | _, _ => []
  end.

Definition block_slots (block_size block : Z) : list Z := (fun o => block * block_size + o) <$> seqZ 0 block_size.

(** [partial_attn_causal]: the queries in slices of [causal_width] against the
    keys up to the end of the slice. *)
Definition causal_width : nat := 512.
Definition causal_keys (md : AttnMetadata) (t : nat) : list Z :=
  match causal_bias md with
  | None => []
  | Some bias =>
      let q_max := ((t / causal_width + 1) * causal_width)%nat in
      unmasked (take q_max (bias !!! t)) (take q_max (slot_mapping md))
  end.

(** [partial_attn_shared]: every query against the listed blocks. *)
Definition shared_keys (block_size : Z) (md : AttnMetadata) (t : nat) : list Z :=
  match shared_bias md, md_shared_blocks md with
  | Some bias, Some blocks => concat (zip_with (fun mask b => unmasked mask (block_slots block_size b)) (bias !!! t) blocks)
  | _, _ => []
  end.

(** [partial_attn_unique]: the first blocks of the cache, each against the query
    it is mapped to. *)
Definition unique_keys (block_size : Z) (md : AttnMetadata) (t : nat) : list Z :=
  match unique_bias md, unique_block_mapping md with
  | Some bias, Some mapping =>
      concat ((fun b => if mapping !!! b =? Z.of_nat t then unmasked (bias !!! b) (block_slots block_size (Z.of_nat b)) else [])
        <$> seq 0 (Z.to_nat (md_unique_blocks md)))
  | _, _ => []
  end.

(** The slots of all keys that token [t] attends, as often as it does. *)
Definition attended_keys (block_size : Z) (md : AttnMetadata) (t : nat) : list Z :=
  causal_keys md t ++ shared_keys block_size md t ++ unique_keys block_size md t.

(** ** Concatenations up to order *)

(** A list of lists of which only the ones named by [s] hold something. *)
Lemma concat_supported {A B C} (F : B -> list A) (h : C -> B) (l : list B) (s : list C) :
  NoDup l -> NoDup (h <$> s) -> (forall c, c ∈ s -> h c ∈ l) -> (forall b, b ∈ l -> b ∉ h <$> s -> F b = []) ->
  concat (F <$> l) ≡ₚ concat ((fun c => F (h c)) <$> s).
Proof.
  revert l. induction s as [|c s IH]; intros l Hl Hs Hin HF.
  - assert (E : concat (F <$> l) = []).
    { clear Hl Hin. induction l as [|b l IHl]; [done|]. cbn. rewrite HF; [|left|by apply not_elem_of_nil]. apply IHl.
      intros b' Hb'. apply HF. by right. }
    by rewrite E.
  - rewrite fmap_cons in Hs. apply NoDup_cons in Hs as [Hc Hs].
    destruct (proj1 (elem_of_Permutation l (h c)) (Hin c ltac:(left))) as [k Hk].
    pose proof Hl as Hl'. rewrite Hk in Hl'. apply NoDup_cons in Hl' as [Hck Hk']. rewrite Hk. cbn. f_equiv. apply IH; [done|done|..].
    + intros c' Hc'. pose proof (Hin c' ltac:(by right)) as Hc'l. rewrite Hk in Hc'l. apply elem_of_cons in Hc'l as [E|?]; [|done].
      destruct Hc. rewrite <- E. by apply list_elem_of_fmap_2.
    + intros b Hb Hns. apply HF; [rewrite Hk; by right|]. rewrite fmap_cons, not_elem_of_cons. split; [|done].
      intros ->. by apply Hck.
Qed.

Lemma concat_partition {A B} (F : B -> list A) (P Q : B -> Prop) `{!forall x, Decision (P x), !forall x, Decision (Q x)} (l : list B) :
  (forall x, x ∈ l -> (P x /\ ~ Q x) \/ (Q x /\ ~ P x)) ->
  concat (F <$> filter P l) ++ concat (F <$> filter Q l) ≡ₚ concat (F <$> l).
Proof.
  induction l as [|x l IH]; intros Hpq; [done|]. specialize (IH ltac:(intros; apply Hpq; by right)).
  destruct (Hpq x ltac:(left)) as [[HP HQ]|[HQ HP]].
  - rewrite (filter_cons_True P), (filter_cons_False Q) by done. cbn. rewrite <- app_assoc. by f_equiv.
  - rewrite (filter_cons_False P), (filter_cons_True Q) by done. cbn. rewrite Permutation_app_swap_app. by f_equiv.
Qed.

Lemma unmasked_fmap {A} (m : A -> bool) (k : A -> Z) (l : list A) :
  unmasked (m <$> l) (k <$> l) = k <$> filter (fun x => m x = false) l.
Proof.
  induction l as [|x l IH]; [done|]. rewrite !fmap_cons. cbn [unmasked]. rewrite IH. destruct (m x) eqn:E.
  - by rewrite filter_cons_False by congruence.
  - by rewrite filter_cons_True by done.
Qed.

Lemma unmasked_all n keys : unmasked (replicate n true) keys = [].
Proof. revert keys. induction n as [|n IH]; intros [|k keys]; cbn; auto. Qed.

Lemma filter_all {A} (P : A -> Prop) `{!forall x, Decision (P x)} (l : list A) : (forall x, x ∈ l -> P x) -> filter P l = l.
Proof.
  induction l as [|x l IH]; intros HP; [done|]. rewrite filter_cons_True by (apply HP; left). f_equal. apply IH.
  intros y Hy. apply HP. by right.
Qed.

(** The open slots of a block. *)
Lemma unmasked_usage block_size u b : 0 <= u <= block_size ->
  unmasked (usage_row block_size u) (block_slots block_size b) = (fun o => b * block_size + o) <$> seqZ 0 u.
Proof.
  intros Hu. unfold usage_row, block_slots. rewrite <- (fmap_add_seqZ 1 0), <- list_fmap_compose, unmasked_fmap. cbn.
  f_equal. replace block_size with (u + (block_size - u)) by lia. rewrite seqZ_app, filter_app by lia.
  rewrite filter_all, filter_none; [by rewrite app_nil_r|..]; intros x Hx%elem_of_seqZ; cbn;
    destruct (Z.ltb_spec u (Z.succ x)) as [?|?]; (done || lia).
Qed.

(** ** The context, as a reference *)

Section context.
Context (block_size : Z) (i : Inputs) (ns : list Z).

(** The blocks of context of a request, and all of them: [(g, c)] is the
    [c]-th block of request [g]. *)
Definition nblocks_of (g : nat) : Z := (cached_of i ns g + block_size - 1) / block_size.
Definition entries : list (nat * Z) := tokens (nblocks_of <$> seq 0 (length ns)).
Definition block_of (e : nat * Z) : Z := table_at (block_table i) e.1 e.2.
Definition usage_of (e : nat * Z) : Z := np_clip (cached_of i ns e.1 - e.2 * block_size) 1 block_size.

(** How many tokens of the batch read a block. *)
Definition readers (b : Z) : Z :=
  sumZ ((fun e => if block_of e =? b then scheduled_of ns e.1 else 0) <$> entries).

Definition shared_entries : list (nat * Z) := filter (fun e => (1 <? readers (block_of e)) = true) entries.
Definition unique_entries : list (nat * Z) := filter (fun e => (readers (block_of e) =? 1) = true) entries.

Definition context_arrays (es : list (nat * Z)) : Context :=
  mkContext ((fun e => Z.of_nat e.1) <$> es) (snd <$> es) (block_of <$> es) (usage_of <$> es).
Definition context_of (es : list (nat * Z)) : option Context :=
  match es with [] => None | _ => Some (context_arrays es) end.

(** Rows of the block table: blocks of the cache, no block twice. *)
Record blocks_ok : Prop := {
  bo_nonneg : forall e, e ∈ entries -> 0 <= block_of e;
  bo_distinct : forall g c c', (g, c) ∈ entries -> (g, c') ∈ entries -> block_of (g, c) = block_of (g, c') -> c = c'
}.

Hypothesis Hok : inputs_ok block_size i ns.
Hypothesis Hblk : blocks_ok.

Lemma cached_of_nonneg g : (g < length ns)%nat -> 0 <= cached_of i ns g <= total_of i ns g.
Proof.
  intros Hg. pose proof (io_computed_nonneg _ _ _ Hok g Hg). pose proof (io_scheduled _ _ _ Hok g Hg).
  unfold cached_of, total_of. destruct (is_prompt_of i ns g); lia.
Qed.

Lemma nblocks_nonneg g : (g < length ns)%nat -> 0 <= nblocks_of g.
Proof.
  intros Hg. pose proof (cached_of_nonneg g Hg). pose proof (io_block_size _ _ _ Hok).
  unfold nblocks_of. apply Z.div_pos; lia.
Qed.

Lemma nblocks_counts_ok : counts_ok (nblocks_of <$> seq 0 (length ns)).
Proof.
  split.
  - pose proof (io_some _ _ _ Hok). destruct ns; [done|]. by rewrite length_cons.
  - apply Forall_fmap, Forall_forall. intros g Hg%elem_of_seq. apply nblocks_nonneg. lia.
Qed.

Lemma elem_of_entries g c : (g, c) ∈ entries <-> (g < length ns)%nat /\ 0 <= c < nblocks_of g.
Proof.
  unfold entries. rewrite elem_of_tokens by apply nblocks_counts_ok. split.
  - intros (k & Hk & Hc). rewrite list_lookup_fmap in Hk. apply fmap_Some in Hk as (g' & [-> ?]%lookup_seq & ->). done.
  - intros [Hg Hc]. exists (nblocks_of g). by rewrite list_lookup_fmap, lookup_seq_lt.
Qed.

(** An entry lies within the table. *)
Lemma entry_range g c : (g, c) ∈ entries -> (g < length ns)%nat /\ 0 <= c < table_cols (block_table i) /\ c * block_size < cached_of i ns g.
Proof.
  intros [Hg Hc]%elem_of_entries. pose proof (cached_of_nonneg g Hg). pose proof (io_blocks_fit _ _ _ Hok g Hg).
  pose proof (io_block_size _ _ _ Hok). unfold nblocks_of in Hc.
  assert (c * block_size < cached_of i ns g).
  { pose proof (Z.mul_div_le (cached_of i ns g + block_size - 1) block_size ltac:(lia)). nia. }
  split; [done|]. split; [nia|done].
Qed.

Lemma context_create_ok :
  context_create (cached_of i ns <$> seq 0 (length ns)) (block_table i) block_size = Ok (context_of entries).
Proof.
  pose proof nblocks_counts_ok as Hc. unfold context_create. rewrite <- list_fmap_compose.
  change ((fun t => (t + block_size - 1) / block_size) ∘ cached_of i ns) with nblocks_of.
  pose proof (length_tokens _ (proj2 Hc)) as Hl. fold entries in Hl.
  destruct (Z.leb_spec (sumZ (nblocks_of <$> seq 0 (length ns))) 0) as [Hz|Hz].
  { destruct entries; [done|]. rewrite len_cons in Hl. pose proof (len_nonneg l). lia. }
  rewrite indices_and_offsets_ok by done. cbn [mbind result_mbind]. fold entries.
  rewrite (fetch_2d_ok (length ns) (block_table i)); [|apply Hok|intros [g c] Hin%entry_range; cbn; lia].
  cbn [mbind result_mbind]. rewrite np_take_seq by (intros [g c] Hin%entry_range; cbn; lia).
  cbn [mbind result_mbind]. rewrite np_map2_fmap. cbn [mbind result_mbind].
  unfold guard_or. rewrite bool_decide_true by (by rewrite !length_fmap). cbn [mbind result_mbind].
  unfold context_of. destruct entries; [change (len []) with 0 in Hl; lia|done].
Qed.

(** ** Shared and unique blocks *)

Lemma readers_pos e : e ∈ entries -> scheduled_of ns e.1 <= readers (block_of e).
Proof.
  unfold readers. assert (Hs : forall e', e' ∈ entries -> 1 <= scheduled_of ns e'.1).
  { intros [g c] [Hg _]%elem_of_entries. by apply (io_scheduled _ _ _ Hok). }
  remember (block_of e) as b0 eqn:Hb. revert Hs. generalize entries as es.
  induction es as [|e' es IH]; intros Hs Hin; [by apply not_elem_of_nil in Hin|]. rewrite fmap_cons. cbn [sumZ foldr].
  fold (sumZ ((fun e => if block_of e =? b0 then scheduled_of ns e.1 else 0) <$> es)).
  assert (Hn : 0 <= sumZ ((fun e => if block_of e =? b0 then scheduled_of ns e.1 else 0) <$> es)).
  { apply sumZ_nonneg, Forall_fmap, Forall_forall. intros x Hx. cbn. pose proof (Hs x ltac:(by right)).
    destruct (_ =? _); lia. }
  apply elem_of_cons in Hin as [<-|Hin].
  - rewrite (proj2 (Z.eqb_eq _ _)) by done. lia.
  - pose proof (IH ltac:(intros; apply Hs; by right) Hin). pose proof (Hs e' ltac:(left)). destruct (_ =? b0); lia.
Qed.

Lemma group_sum_ok : entries <> [] ->
  group_sum (block_of <$> entries) ((fun e => scheduled_of ns e.1) <$> entries) = Ok ((fun e => readers (block_of e)) <$> entries).
Proof.
  intros Hne. destruct (np_max_in (block_of <$> entries)) as (m & Hm & Hin).
  { by intros ?%fmap_nil_inv. }
  unfold group_sum. rewrite Hm. cbn [mbind result_mbind].
  pose proof (np_max_ge _ _ Hm) as Hge. apply list_elem_of_fmap in Hin as (e0 & -> & He0).
  pose proof (bo_nonneg Hblk _ He0). rewrite np_full_ok by lia. cbn [mbind result_mbind].
  assert (Hz : zip (block_of <$> entries) ((fun e => scheduled_of ns e.1) <$> entries) =
    (fun e => (block_of e, scheduled_of ns e.1)) <$> entries) by apply zip_with_fmap_same.
  rewrite Hz.
  assert (Hb : forall e, e ∈ entries -> 0 <= block_of e <= block_of e0).
  { intros e He. split; [by apply (bo_nonneg Hblk)|]. by apply Hge, list_elem_of_fmap_2. }
  destruct (np_add_at_ok (replicate (Z.to_nat (block_of e0 + 1)) 0)
    ((fun e => (block_of e, scheduled_of ns e.1)) <$> entries)) as (l & -> & Hl & Hp).
  { intros b v (e & [= -> ->] & He)%list_elem_of_fmap. unfold len. rewrite length_replicate. specialize (Hb e He). lia. }
  rewrite length_replicate in Hl. cbn [mbind result_mbind].
  rewrite np_take_fmap by (intros e He; unfold len; specialize (Hb e He); lia). f_equal.
  apply list_fmap_ext. intros k e He%list_elem_of_lookup_2. specialize (Hb e He). apply list_lookup_total_correct.
  rewrite (Hp _ 0) by (apply lookup_replicate; split; [done|lia]). f_equal. rewrite Z2Nat.id by lia.
  unfold sum_at, readers. rewrite <- list_fmap_compose. cbn. done.
Qed.

Lemma index_select_ok (p : Z -> bool) es :
  index_select (context_arrays es) (np_argwhere p ((fun e => readers (block_of e)) <$> es)) =
  Ok (context_of (filter (fun e => p (readers (block_of e)) = true) es)).
Proof.
  pose proof (length_argwhere (fun e => readers (block_of e)) p es) as Hl.
  unfold index_select. cbn [context_arrays group_ids group_offsets block_ids block_usages]. rewrite !take_argwhere.
  cbn [mbind result_mbind]. unfold context_of.
  destruct (np_argwhere _ _), (filter _ _); cbn [length] in Hl; (lia || done).
Qed.

(** Every block of context has a reader, so the assertion of [split] holds. *)
Lemma split_ok : entries <> [] ->
  UnifiedBatch.split (context_arrays entries) ns = Ok (context_of shared_entries, context_of unique_entries).
Proof.
  intros Hne. unfold UnifiedBatch.split. cbn [context_arrays group_ids block_ids].
  assert (Ht : np_take ns ((fun e => Z.of_nat e.1) <$> entries) = Ok ((fun e => scheduled_of ns e.1) <$> entries)).
  { rewrite (ns_seq ns) at 1. apply np_take_seq. intros [g c] Hin%entry_range. apply Hin. }
  rewrite Ht. cbn [mbind result_mbind]. rewrite group_sum_ok by done. cbn [mbind result_mbind].
  rewrite !length_argwhere. unfold guard_or.
  rewrite (proj2 (Nat.eqb_eq _ _)).
  - fold (context_arrays entries). cbn [mbind result_mbind]. rewrite index_select_ok. cbn [mbind result_mbind].
    by rewrite index_select_ok.
  - rewrite length_fmap.
    assert (Hr : forall e, e ∈ entries -> 1 <= readers (block_of e)).
    { intros [g c] He. pose proof (readers_pos _ He). apply elem_of_entries in He as [Hg _].
      pose proof (io_scheduled _ _ _ Hok g Hg). cbn [fst] in *. lia. }
    revert Hr. generalize entries as es. clear. induction es as [|e es IH]; intros Hr; [done|].
    specialize (IH ltac:(intros; apply Hr; by right)). pose proof (Hr e ltac:(left)).
    rewrite !filter_cons. destruct (decide _), (decide _); cbn [length]; lia.
Qed.

(** ** The shared part *)

Definition shared_list : list Z := sorted_set (block_of <$> shared_entries).
Definition shared_tokens : list (nat * Z) := tokens ((fun e => scheduled_of ns e.1) <$> shared_entries).

(** What the mask of token [t] for the [j]-th shared block should be. *)
Definition shared_cell (t j : nat) : list bool :=
  match tokens ns !! t, shared_list !! j with
  | Some (g, _), Some b =>
      match list_find (fun e => e.1 = g /\ block_of e = b) shared_entries with
      | Some (_, e) => usage_row block_size (usage_of e)
      | None => replicate (Z.to_nat block_size) true
      end
  | _, _ => replicate (Z.to_nat block_size) true
  end.

Definition entry_at (k : nat) : nat * Z := shared_entries !!! k.
Definition ref_shared : SharedPrep :=
  mkSharedPrep shared_list
    ((fun t => start_of ns (entry_at t.1).1 + t.2) <$> shared_tokens)
    ((fun t => position_in shared_list (block_of (entry_at t.1))) <$> shared_tokens)
    ((fun t => usage_of (entry_at t.1)) <$> shared_tokens).

Lemma shared_sub e : e ∈ shared_entries -> e ∈ entries.
Proof. by intros [_ ?]%list_elem_of_filter. Qed.

Lemma shared_counts_ok : shared_entries <> [] -> counts_ok ((fun e => scheduled_of ns e.1) <$> shared_entries).
Proof.
  intros Hne. split; [by intros ?%fmap_nil_inv|]. apply Forall_fmap, Forall_forall. intros [g c] He%shared_sub.
  apply elem_of_entries in He as [Hg _]. pose proof (io_scheduled _ _ _ Hok g Hg). cbn -[scheduled_of]. lia.
Qed.

Lemma elem_of_shared_tokens k o : shared_entries <> [] -> (k, o) ∈ shared_tokens <->
  exists e, shared_entries !! k = Some e /\ 0 <= o < scheduled_of ns e.1.
Proof.
  intros Hne. unfold shared_tokens. rewrite elem_of_tokens by by apply shared_counts_ok. split.
  - intros (c & Hk & Ho). rewrite list_lookup_fmap in Hk. apply fmap_Some in Hk as (e & He & ->). eauto.
  - intros (e & He & Ho). exists (scheduled_of ns e.1). by rewrite list_lookup_fmap, He.
Qed.

Lemma shared_prep_ok : shared_entries <> [] ->
  shared_prep (ref_prep block_size i ns) ns (context_arrays shared_entries) = Ok ref_shared.
Proof.
  intros Hne. unfold shared_prep, np_unique_inverse. cbn [context_arrays group_ids block_ids block_usages ref_prep group_starts].
  fold shared_list.
  assert (Hg : forall e, e ∈ shared_entries -> (e.1 < length ns)%nat).
  { intros [g c] He%shared_sub. by apply elem_of_entries in He as [? _]. }
  rewrite np_take_seq by done. cbn [mbind result_mbind].
  assert (Ht : np_take ns ((fun e => Z.of_nat e.1) <$> shared_entries) = Ok ((fun e => scheduled_of ns e.1) <$> shared_entries)).
  { rewrite (ns_seq ns) at 1. by apply np_take_seq. }
  rewrite Ht. cbn [mbind result_mbind]. rewrite indices_and_offsets_ok by by apply shared_counts_ok.
  cbn [mbind result_mbind]. fold shared_tokens.
  assert (Hk : forall t, t ∈ shared_tokens -> (t.1 < length shared_entries)%nat).
  { intros [k o] (e & He & _)%elem_of_shared_tokens; [|done]. by eapply lookup_lt_Some. }
  assert (Hp : forall h : nat * Z -> Z, np_take (h <$> shared_entries) ((fun t => Z.of_nat t.1) <$> shared_tokens) =
    Ok ((fun t => h (entry_at t.1)) <$> shared_tokens)).
  { intros h. by apply np_take_positions. }
  rewrite (Hp (fun e => start_of ns e.1)). cbn [mbind result_mbind]. rewrite np_map2_fmap. cbn [mbind result_mbind].
  rewrite <- list_fmap_compose, (Hp (position_in shared_list ∘ block_of)). cbn [mbind result_mbind].
  rewrite (Hp usage_of). done.
Qed.

Lemma shared_list_NoDup : NoDup shared_list.
Proof. apply sorted_set_NoDup. Qed.

Lemma position_in_ok (l : list Z) j b : NoDup l -> l !! j = Some b -> position_in l b = Z.of_nat j.
Proof.
  intros Hnd Hj. unfold position_in. destruct (list_find (fun y => y = b) l) as [[k b']|] eqn:E.
  - apply list_find_Some in E as (Hk & -> & _). cbn. f_equal. by eapply NoDup_lookup.
  - apply list_find_None in E. rewrite Forall_lookup in E. by destruct (E _ _ Hj).
Qed.

(** A written entry: where it goes and what it holds. *)
Lemma shared_write_ok k o e : shared_entries !! k = Some e -> 0 <= o < scheduled_of ns e.1 ->
  exists t j, start_of ns (entry_at k).1 + o = Z.of_nat t /\ tokens ns !! t = Some (e.1, o) /\
    position_in shared_list (block_of (entry_at k)) = Z.of_nat j /\ shared_list !! j = Some (block_of e) /\
    usage_row block_size (usage_of (entry_at k)) = shared_cell t j.
Proof.
  intros He Ho. pose proof (list_elem_of_lookup_2 _ _ _ He) as Hin. pose proof (shared_sub _ Hin) as Hen.
  assert (Ee : entry_at k = e) by by apply list_lookup_total_correct. rewrite Ee. destruct e as [g c]. cbn [fst] in *.
  pose proof Hen as [Hg _]%elem_of_entries. pose proof (ns_counts_ok _ _ _ Hok) as [_ Hc].
  pose proof (start_of_bound ns g Hc).
  assert (Ht : tokens ns !! Z.to_nat (start_of ns g + o) = Some (g, o)).
  { apply lookup_tokens; [done|]. exists (scheduled_of ns g). rewrite (ns_lookup ns) by done. split_and!; [done|lia..]. }
  assert (Hb : block_of (g, c) ∈ shared_list).
  { apply elem_of_sorted_set, list_elem_of_fmap. eauto. }
  apply list_elem_of_lookup in Hb as [j Hj]. exists (Z.to_nat (start_of ns g + o)), j.
  split; [lia|]. split; [done|]. split; [by apply (position_in_ok _ _ _ shared_list_NoDup)|]. split; [done|].
  unfold shared_cell. rewrite Ht, Hj.
  destruct (list_find (fun e => e.1 = g /\ block_of e = block_of (g, c)) shared_entries) as [[k' [g' c']]|] eqn:E.
  - apply list_find_Some in E as (Hk' & [E1 E2] & _). cbn in E1. subst g'.
    apply list_elem_of_lookup_2, shared_sub in Hk'. by rewrite (bo_distinct Hblk g c' c) by done.
  - apply list_find_None in E. rewrite Forall_forall in E. by destruct (E _ Hin).
Qed.

(** The cells that no entry writes are masked. *)
Lemma shared_cell_unwritten t j : shared_entries <> [] ->
  (forall k o, (k, o) ∈ shared_tokens -> ~ (start_of ns (entry_at k).1 + o = Z.of_nat t /\
    position_in shared_list (block_of (entry_at k)) = Z.of_nat j)) ->
  shared_cell t j = replicate (Z.to_nat block_size) true.
Proof.
  intros Hne Hno. unfold shared_cell. destruct (tokens ns !! t) as [[g o]|] eqn:Ht; [|done].
  destruct (shared_list !! j) as [b|] eqn:Hj; [|done].
  destruct (list_find _ shared_entries) as [[k [g' c]]|] eqn:E; [|done]. exfalso.
  apply list_find_Some in E as (Hk & [E1 E2] & _). cbn in E1. subst g'.
  apply lookup_tokens in Ht as (n & Hn & Ho & Ht); [|apply (ns_counts_ok _ _ _ Hok)].
  assert (Hs : scheduled_of ns g = n) by by apply list_lookup_total_correct.
  apply (Hno k o).
  - apply elem_of_shared_tokens; [done|]. exists (g, c). cbn [fst]. by rewrite Hs.
  - unfold entry_at. rewrite (list_lookup_total_correct _ _ _ Hk). cbn [fst]. split; [lia|].
    apply position_in_ok; [apply shared_list_NoDup|]. by rewrite E2.
Qed.

(** ** The shared bias, on the host and on the device *)

Definition shared_write (t : nat * Z) : Z * Z * list bool :=
  (start_of ns (entry_at t.1).1 + t.2, position_in shared_list (block_of (entry_at t.1)),
   usage_row block_size (usage_of (entry_at t.1))).

Lemma shared_writes_ok :
  shared_writes (shared_token_idx ref_shared) (shared_block_idx ref_shared) (shared_block_usage ref_shared) block_size =
  shared_write <$> shared_tokens.
Proof.
  unfold shared_writes, generate_bias. cbn [ref_shared shared_token_idx shared_block_idx shared_block_usage].
  rewrite <- list_fmap_compose. apply zip3_fmap.
Qed.

Lemma tokens_length : Z.of_nat (length (tokens ns)) = sumZ ns.
Proof. apply (length_tokens ns). apply (ns_counts_ok _ _ _ Hok). Qed.

(** Writing the entries, in any order and with writes that change nothing, fills
    the matrix of a large enough shape. *)
Lemma write_shared n m (writes : list (Z * Z * list bool)) : shared_entries <> [] ->
  (length (tokens ns) <= n)%nat -> (length shared_list <= m)%nat ->
  (forall t, t ∈ shared_tokens -> shared_write t ∈ writes) ->
  (forall w, w ∈ writes -> (exists t, t ∈ shared_tokens /\ w = shared_write t) \/
    (exists r c, np_index n w.1.1 = Some r /\ np_index m w.1.2 = Some c /\ w.2 = shared_cell r c)) ->
  np_put2 (mat n m (fun _ _ => replicate (Z.to_nat block_size) true)) writes = Ok (mat n m shared_cell).
Proof.
  intros Hne Hn Hm Hall Hw.
  assert (Hreal : forall t, t ∈ shared_tokens -> exists r c, np_index n (shared_write t).1.1 = Some r /\
    np_index m (shared_write t).1.2 = Some c /\ (shared_write t).2 = shared_cell r c).
  { intros [k o] (e & He & Ho)%elem_of_shared_tokens; [|done].
    destruct (shared_write_ok k o e He Ho) as (t & j & E1 & Ht & E2 & Hj & E3). exists t, j.
    apply lookup_lt_Some in Ht, Hj. cbn [shared_write fst snd]. rewrite E1, E2, E3.
    split_and!; [rewrite np_index_ok, Nat2Z.id by lia; done..|done]. }
  apply np_put2_fn.
  - intros a b x Hin. destruct (Hw _ Hin) as [(t & Ht & E)|(r & c & Hr)]; [|by exists r, c].
    destruct (Hreal t Ht) as (r & c & Hr). rewrite <- E in Hr. by exists r, c.
  - intros r c Hr Hc Hno. symmetry. apply shared_cell_unwritten; [done|]. intros k o Hin [E1 E2].
    apply (Hno (shared_write (k, o)).1.1 (shared_write (k, o)).1.2 (shared_write (k, o)).2); [by apply Hall|].
    cbn [shared_write fst snd]. rewrite E1, E2, !np_index_ok, !Nat2Z.id by lia. done.
Qed.

Lemma shared_bias_cpu_ok pc : shared_entries <> [] ->
  (use_persistent_shared_biases pc = true -> sumZ ns <= max_num_batched_tokens pc /\ len shared_list <= max_shared_blocks pc) ->
  shared_bias_cpu pc block_size (sumZ ns) ref_shared = Ok (mat (length (tokens ns)) (length shared_list) shared_cell).
Proof.
  intros Hne Hpc. pose proof tokens_length. pose proof (io_block_size _ _ _ Hok).
  assert (Hdim : (if use_persistent_shared_biases pc
    then (slice_len (sumZ ns) (max_num_batched_tokens pc), slice_len (len shared_list) (max_shared_blocks pc))
    else (sumZ ns, len shared_list)) = (sumZ ns, len shared_list)).
  { destruct (use_persistent_shared_biases pc); [|done]. destruct Hpc as [H1 H2]; [done|]. unfold slice_len.
    pose proof (len_nonneg shared_list). rewrite !(proj2 (Z.ltb_ge _ _)) by lia. by rewrite !Z.min_l by lia. }
  unfold shared_bias_cpu. cbn [ref_shared shared_blocks]. rewrite Hdim.
  rewrite np_full_ok by lia. cbn [mbind result_mbind]. rewrite np_full_ok by apply len_nonneg. cbn [mbind result_mbind].
  rewrite np_full_ok by lia. cbn [mbind result_mbind]. fold ref_shared. rewrite shared_writes_ok.
  replace (Z.to_nat (sumZ ns)) with (length (tokens ns)) by lia. unfold len. rewrite Nat2Z.id, replicate_mat.
  apply write_shared; [done|lia|lia|intros t Ht; by apply list_elem_of_fmap_2|].
  intros w (t & -> & Ht)%list_elem_of_fmap. eauto.
Qed.

Lemma shared_cell_out t j : (length (tokens ns) <= t)%nat \/ (length shared_list <= j)%nat ->
  shared_cell t j = replicate (Z.to_nat block_size) true.
Proof.
  unfold shared_cell. intros [Ht|Hj].
  - by rewrite (lookup_ge_None_2 (tokens ns)).
  - rewrite (lookup_ge_None_2 shared_list) by done. by destruct (tokens ns !! t) as [[]|].
Qed.

Lemma usage_row_none : usage_row block_size (-1) = replicate (Z.to_nat block_size) true.
Proof.
  unfold usage_row. apply list_eq. intros k. rewrite list_lookup_fmap.
  destruct (decide (k < Z.to_nat block_size)%nat) as [Hk|Hk].
  - rewrite lookup_seqZ_lt, lookup_replicate_2 by lia. cbn. f_equal. apply Z.ltb_lt. lia.
  - rewrite lookup_seqZ_ge by lia. symmetry. apply lookup_ge_None_2. rewrite length_replicate. lia.
Qed.

Lemma length_usage_row u : 0 <= block_size -> len (usage_row block_size u) = block_size.
Proof. intros Hb. unfold usage_row, len. rewrite length_fmap, length_seqZ. lia. Qed.

Lemma shared_cell_length t j : len (shared_cell t j) = block_size.
Proof.
  pose proof (io_block_size _ _ _ Hok). unfold shared_cell.
  assert (Hr : len (replicate (Z.to_nat block_size) true) = block_size) by (unfold len; rewrite length_replicate; lia).
  destruct (tokens ns !! t) as [[]|]; [|done]. destruct (shared_list !! j); [|done].
  destruct (list_find _ _) as [[k e]|]; [|done]. apply length_usage_row. lia.
Qed.

Lemma shared_bias_generator_ok put_order target_qlen target_blocks n : shared_entries <> [] ->
  (forall l, put_order l ≡ₚ l) -> sumZ ns <= target_qlen -> len shared_list <= target_blocks ->
  (n = 0%nat \/ sumZ ns < target_qlen \/ len shared_list < target_blocks) ->
  shared_bias_generator put_order block_size (shared_block_usage ref_shared ++ replicate n (-1))
    (shared_token_idx ref_shared ++ replicate n (-1)) (shared_block_idx ref_shared ++ replicate n (-1))
    target_qlen target_blocks = Ok (mat (Z.to_nat target_qlen) (Z.to_nat target_blocks) shared_cell).
Proof.
  intros Hne Hput Hq Hb Hroom. pose proof tokens_length as Htl. pose proof (io_block_size _ _ _ Hok).
  pose proof (len_nonneg shared_list) as Hl0. unfold len in Hb, Hroom, Hl0.
  unfold shared_bias_generator. rewrite np_full_ok by lia. cbn [mbind result_mbind].
  rewrite np_full_ok by lia. cbn [mbind result_mbind]. rewrite np_full_ok by lia. cbn [mbind result_mbind].
  rewrite replicate_mat.
  assert (Hws : shared_writes (shared_token_idx ref_shared ++ replicate n (-1)) (shared_block_idx ref_shared ++ replicate n (-1))
    (shared_block_usage ref_shared ++ replicate n (-1)) block_size =
    (shared_write <$> shared_tokens) ++ replicate n (-1, -1, replicate (Z.to_nat block_size) true)).
  { rewrite <- shared_writes_ok. unfold shared_writes, generate_bias. rewrite fmap_app.
    cbn [ref_shared shared_token_idx shared_block_idx shared_block_usage].
    rewrite !zip_with_app by (rewrite ?length_zip_with, !length_fmap; lia). f_equal.
    rewrite fmap_replicate, usage_row_none, zip_with_replicate_l by (by rewrite length_replicate).
    rewrite fmap_replicate, zip_with_replicate_l by (by rewrite length_replicate). by rewrite fmap_replicate. }
  rewrite Hws. apply write_shared; [done|lia|lia| |].
  - intros t Ht. rewrite Hput. apply elem_of_app. left. by apply list_elem_of_fmap_2.
  - intros w. rewrite Hput, elem_of_app. intros [(t & -> & Ht)%list_elem_of_fmap|[-> Hn]%elem_of_replicate]; [eauto|]. right.
    assert (Hs1 : (1 <= length shared_list)%nat).
    { destruct shared_entries as [|e es] eqn:E; [done|].
      assert (Hin : block_of e ∈ shared_list) by (apply elem_of_sorted_set; rewrite E; left).
      destruct shared_list; [by apply not_elem_of_nil in Hin|cbn; lia]. }
    exists (Z.to_nat target_qlen - 1)%nat, (Z.to_nat target_blocks - 1)%nat.
    assert (Hq1 : 1 <= sumZ ns).
    { pose proof (io_some _ _ _ Hok) as Hsome. assert (Hg : (0 < length ns)%nat) by (destruct ns; [done|cbn; lia]).
      pose proof (io_scheduled _ _ _ Hok 0%nat Hg). pose proof (start_of_S ns 0 _ (ns_lookup ns 0 Hg)) as E.
      pose proof (start_of_bound ns 1 (proj2 (ns_counts_ok _ _ _ Hok))). change (start_of ns 0) with 0 in E. lia. }
    cbn [fst snd]. unfold np_index. cbn [Z.ltb Z.compare].
    rewrite !(proj2 (Z.leb_le _ _)), !(proj2 (Z.ltb_lt _ _)) by lia. cbn [andb].
    split_and!; [f_equal; lia..|]. symmetry. apply shared_cell_out. lia.
Qed.

(** The generator on the device pads its arrays with [-1], which indexes the last
    token and the last block; it agrees with the host unless that entry is a
    real one. *)
Definition padding_safe (target_qlen target_blocks : Z) : Prop :=
  len shared_tokens = target_blocks * block_size \/ sumZ ns < target_qlen \/ len shared_list < target_blocks.

Definition shared_fits (pc : PersistentContext) : Prop :=
  use_persistent_shared_biases pc = true -> sumZ ns <= max_num_batched_tokens pc /\ len shared_list <= max_shared_blocks pc.

Lemma shared_bias_padded pc target_qlen target_blocks : shared_entries <> [] -> shared_fits pc ->
  sumZ ns <= target_qlen -> len shared_list <= target_blocks ->
  (bias ← shared_bias_cpu pc block_size (sumZ ns) ref_shared; hpu_tensor3 bias target_qlen target_blocks block_size true) =
  Ok (mat (Z.to_nat target_qlen) (Z.to_nat target_blocks) shared_cell).
Proof.
  intros Hne Hpc Hq Hb. pose proof tokens_length. pose proof (io_block_size _ _ _ Hok). unfold len in Hb.
  rewrite shared_bias_cpu_ok by done. cbn [mbind result_mbind].
  apply hpu_tensor3_mat; [lia|lia|lia|apply shared_cell_length|apply shared_cell_out].
Qed.

Lemma shared_bias_hpu_ok put_order pc target_qlen target_blocks : shared_entries <> [] -> (forall l, put_order l ≡ₚ l) ->
  shared_fits pc -> sumZ ns <= target_qlen -> len shared_list <= target_blocks -> padding_safe target_qlen target_blocks ->
  shared_bias_hpu put_order pc block_size (sumZ ns) target_qlen target_blocks ref_shared =
  Ok (mat (Z.to_nat target_qlen) (Z.to_nat target_blocks) shared_cell).
Proof.
  intros Hne Hput Hpc Hq Hb Hsafe. unfold shared_bias_hpu.
  assert (Hlen : forall (f : nat * Z -> Z), len (f <$> shared_tokens) = len shared_tokens).
  { intros f. unfold len. by rewrite length_fmap. }
  cbn [ref_shared shared_block_usage shared_token_idx shared_block_idx]. rewrite Hlen.
  destruct (Z.ltb_spec (target_blocks * block_size) (len shared_tokens)); [by apply shared_bias_padded|].
  rewrite hpu_tensor_ok by (by rewrite Hlen). cbn [mbind result_mbind].
  rewrite hpu_tensor_ok by (by rewrite Hlen). cbn [mbind result_mbind].
  rewrite hpu_tensor_ok by (by rewrite Hlen). cbn [mbind result_mbind]. rewrite !length_fmap.
  apply (shared_bias_generator_ok put_order target_qlen target_blocks _); [done..|].
  destruct Hsafe as [E|?]; [left|by right]. unfold len in E. lia.
Qed.

(** ** The unique part *)

(** A block with one reader belongs to one entry. *)
Lemma unique_entry e e' : e ∈ unique_entries -> e' ∈ entries -> block_of e' = block_of e -> e' = e.
Proof.
  intros [Hr%Z.eqb_eq He]%list_elem_of_filter He' Hb. destruct (decide (e' = e)) as [|Hne]; [done|]. exfalso.
  assert (Hs : forall x, x ∈ entries -> 1 <= scheduled_of ns x.1).
  { intros [g c] [Hg _]%elem_of_entries. by apply (io_scheduled _ _ _ Hok). }
  apply elem_of_Permutation in He as [l Hl]. pose proof He' as Hin. rewrite Hl in Hin.
  apply elem_of_cons in Hin as [?|Hin]; [done|]. apply elem_of_Permutation in Hin as [k Hk].
  unfold readers in Hr. rewrite (sumZ_perm _ ((fun x => if block_of x =? block_of e then scheduled_of ns x.1 else 0) <$> e :: e' :: k)) in Hr
    by (by rewrite Hl, Hk).
  rewrite !fmap_cons in Hr. cbn [sumZ foldr] in Hr. rewrite Hb, !Z.eqb_refl in Hr.
  assert (Hn : 0 <= sumZ ((fun x => if block_of x =? block_of e then scheduled_of ns x.1 else 0) <$> k)).
  { apply sumZ_nonneg, Forall_fmap, Forall_forall. intros x Hx. cbn.
    assert (x ∈ entries) by (rewrite Hl, Hk; set_solver). specialize (Hs x). destruct (_ =? _); [|lia]. pose proof (Hs ltac:(done)). lia. }
  unfold sumZ in Hn. pose proof (Hs e ltac:(rewrite Hl; left)). pose proof (Hs e' He'). lia.
Qed.

Lemma unique_scheduled e : e ∈ unique_entries -> scheduled_of ns e.1 = 1.
Proof.
  intros [Hr%Z.eqb_eq He]%list_elem_of_filter. pose proof (readers_pos _ He). destruct e as [g c].
  apply elem_of_entries in He as [Hg _]. pose proof (io_scheduled _ _ _ Hok g Hg). cbn [fst] in *. lia.
Qed.

Definition unique_at (b : nat) : option (nat * Z) := snd <$> list_find (fun e => block_of e = Z.of_nat b) unique_entries.
Definition unique_cell (b : nat) : list bool :=
  match unique_at b with Some e => usage_row block_size (usage_of e) | None => replicate (Z.to_nat block_size) true end.
Definition unique_map (b : nat) : Z := match unique_at b with Some e => start_of ns e.1 | None => -1 end.
Definition unique_count : Z := match np_max (block_of <$> unique_entries) with Ok m => m + 1 | Err _ => 0 end.

Lemma unique_at_Some b e : unique_at b = Some e <-> e ∈ unique_entries /\ block_of e = Z.of_nat b.
Proof.
  unfold unique_at. split.
  - intros ([k e'] & (Hk & Hb & _)%list_find_Some & ->)%fmap_Some. split; [by eapply list_elem_of_lookup_2|done].
  - intros [He Hb]. destruct (list_find _ unique_entries) as [[k e']|] eqn:E.
    + apply list_find_Some in E as (Hk & Hb' & _). cbn. f_equal.
      apply unique_entry; [done| |congruence]. apply list_elem_of_lookup_2 in Hk. by apply list_elem_of_filter in Hk as [_ ?].
    + apply list_find_None in E. rewrite Forall_forall in E. by destruct (E _ He).
Qed.

Lemma unique_count_bound e : e ∈ unique_entries -> 0 <= block_of e < unique_count.
Proof.
  intros He. split; [apply (bo_nonneg Hblk); by apply list_elem_of_filter in He as [_ ?]|]. unfold unique_count.
  destruct (np_max_in (block_of <$> unique_entries)) as (m & Hm & _).
  { intros E%fmap_nil_inv. rewrite E in He. by apply not_elem_of_nil in He. }
  rewrite Hm. pose proof (np_max_ge _ _ Hm (block_of e) ltac:(by apply list_elem_of_fmap_2)). lia.
Qed.

Definition ref_unique : UniquePrep :=
  mkUniquePrep unique_count (unique_cell <$> seq 0 (Z.to_nat unique_count)) (unique_map <$> seq 0 (Z.to_nat unique_count)).

Lemma unique_prep_ok pc : unique_entries <> [] -> unique_count <= max_unique_blocks pc ->
  unique_prep pc block_size (ref_prep block_size i ns) (context_arrays unique_entries) = Ok ref_unique.
Proof.
  intros Hne Hpc. pose proof (io_block_size _ _ _ Hok).
  assert (Hin : forall e, e ∈ unique_entries -> np_index (Z.to_nat unique_count) (block_of e) = Some (Z.to_nat (block_of e)) /\
    unique_at (Z.to_nat (block_of e)) = Some e).
  { intros e He. pose proof (unique_count_bound e He). split; [apply np_index_ok; lia|]. apply unique_at_Some. split; [done|lia]. }
  unfold unique_prep. cbn [context_arrays block_ids block_usages group_ids ref_prep group_starts].
  destruct (np_max_in (block_of <$> unique_entries)) as (m & Hm & Hmin); [by intros ?%fmap_nil_inv|].
  apply list_elem_of_fmap in Hmin as (e0 & Em & He0). pose proof (unique_count_bound e0 He0).
  assert (Hu : unique_count = m + 1) by (unfold unique_count; by rewrite Hm).
  rewrite Hm. cbn [mbind result_mbind]. rewrite <- Hu, (np_full_ok block_size) by lia. cbn [mbind result_mbind].
  assert (Hsl : slice_len unique_count (max_unique_blocks pc) = unique_count).
  { unfold slice_len. rewrite (proj2 (Z.ltb_ge _ _)) by lia. lia. }
  rewrite Hsl, !(np_full_ok unique_count) by lia. cbn [mbind result_mbind]. unfold generate_bias. rewrite <- list_fmap_compose.
  assert (Hz : forall A (h : nat * Z -> A), zip (block_of <$> unique_entries) (h <$> unique_entries) =
    (fun e => (block_of e, h e)) <$> unique_entries) by (intros A h; apply zip_with_fmap_same).
  rewrite Hz, (replicate_seq (replicate (Z.to_nat block_size) true)), (np_put_fn _ unique_cell).
  2:{ intros b x (e & [= -> ->] & He)%list_elem_of_fmap. destruct (Hin e He) as [Hi Ha]. eexists. split; [done|].
      unfold unique_cell. by rewrite Ha. }
  2:{ intros b Hb Hno. unfold unique_cell. destruct (unique_at b) as [e|] eqn:E; [|done].
      apply unique_at_Some in E as [He Eb]. destruct (Hno _ _ (list_elem_of_fmap_2 _ _ _ He)).
      destruct (Hin e He) as [Hi _]. rewrite Hi. f_equal. lia. }
  cbn [mbind result_mbind]. rewrite np_take_seq.
  2:{ intros [g c] [_ He]%list_elem_of_filter. by apply elem_of_entries in He as [? _]. }
  cbn [mbind result_mbind].
  rewrite Hz, (replicate_seq (-1)), (np_put_fn _ unique_map).
  2:{ intros b x (e & [= -> ->] & He)%list_elem_of_fmap. destruct (Hin e He) as [Hi Ha]. eexists. split; [done|].
      unfold unique_map. by rewrite Ha. }
  2:{ intros b Hb Hno. unfold unique_map. destruct (unique_at b) as [e|] eqn:E; [|done].
      apply unique_at_Some in E as [He Eb]. destruct (Hno _ _ (list_elem_of_fmap_2 _ _ _ He)).
      destruct (Hin e He) as [Hi _]. rewrite Hi. f_equal. lia. }
  done.
Qed.

(** ** The causal bias *)

(** Token [t] does not see token [t']. *)
Definition causal_cell (t t' : nat) : bool :=
  match tokens ns !! t, tokens ns !! t' with
  | Some (g, o), Some (g', o') => negb (Z.of_nat g =? Z.of_nat g') || (computed_of i g + o <? computed_of i g' + o')
  | _, _ => true
  end.

Definition group_at : nat -> Z := at_or (fun t => Z.of_nat t.1) (-1) (tokens ns).
Definition position_at : nat -> Z := at_or (fun t => computed_of i t.1 + t.2) (-1) (tokens ns).

Lemma causal_row_seq n g p : causal_row (group_at <$> seq 0 n) (position_at <$> seq 0 n) g p =
  (fun t => negb (g =? group_at t) || (p <? position_at t)) <$> seq 0 n.
Proof. unfold causal_row. by rewrite zip_with_fmap_same. Qed.

Lemma causal_cell_in t t' : (t < length (tokens ns))%nat -> (t' < length (tokens ns))%nat ->
  negb (group_at t =? group_at t') || (position_at t <? position_at t') = causal_cell t t'.
Proof.
  intros [[g o] E]%lookup_lt_is_Some [[g' o'] E']%lookup_lt_is_Some.
  unfold causal_cell, group_at, position_at, at_or. by rewrite E, E'.
Qed.

Lemma causal_cell_out t t' : (length (tokens ns) <= t)%nat \/ (length (tokens ns) <= t')%nat -> causal_cell t t' = true.
Proof.
  unfold causal_cell. intros [H|H]; rewrite (lookup_ge_None_2 _ _ H); [done|]. by destruct (tokens ns !! t) as [[]|].
Qed.

Lemma causal_bias_host_ok target_qlen : sumZ ns <= target_qlen ->
  hpu_tensor2 (create_causal_bias (token_groups (ref_prep block_size i ns)) (token_positions (ref_prep block_size i ns)))
    target_qlen target_qlen true = Ok (mat (Z.to_nat target_qlen) (Z.to_nat target_qlen) causal_cell).
Proof.
  intros Hq. pose proof tokens_length. cbn [ref_prep token_groups token_positions].
  rewrite (fmap_at_or (fun t => Z.of_nat t.1) (-1)), (fmap_at_or (fun t => computed_of i t.1 + t.2) (-1)).
  fold group_at position_at. unfold create_causal_bias. rewrite zip_with_fmap_same.
  rewrite <- (hpu_tensor2_mat causal_cell (length (tokens ns)) (length (tokens ns)) _ _ true); [|lia|lia|apply causal_cell_out].
  f_equal. apply fmap_seq_ext. intros t Ht. rewrite causal_row_seq. apply fmap_seq_ext. intros t' Ht'. by apply causal_cell_in.
Qed.

Lemma causal_bias_hpu_ok target_qlen : sumZ ns <= target_qlen ->
  causal_bias_hpu (ref_prep block_size i ns) target_qlen = Ok (mat (Z.to_nat target_qlen) (Z.to_nat target_qlen) causal_cell).
Proof.
  intros Hq. pose proof tokens_length as Hl. unfold causal_bias_hpu. cbn [ref_prep token_groups token_positions].
  rewrite np_full_ok by lia. cbn [mbind result_mbind].
  rewrite (fmap_at_or (fun t => Z.of_nat t.1) (-1)), (fmap_at_or (fun t => computed_of i t.1 + t.2) (-1)).
  fold group_at position_at. rewrite hpu_tensor_seq; [|lia|intros k Hk; apply at_or_out; lia]. cbn [mbind result_mbind].
  rewrite hpu_tensor_seq; [|lia|intros k Hk; apply at_or_out; lia]. cbn [mbind result_mbind].
  rewrite length_fmap, length_seq, length_replicate, Nat.min_l, drop_replicate by lia.
  assert (Hm : replicate (length (tokens ns)) false ++ replicate (Z.to_nat target_qlen - length (tokens ns)) true =
    (fun t => negb (t <? length (tokens ns))%nat) <$> seq 0 (Z.to_nat target_qlen)).
  { rewrite <- (fmap_seq_pad _ (length (tokens ns)) (Z.to_nat target_qlen) true);
      [|lia|intros k Hk; by rewrite (proj2 (Nat.ltb_ge _ _)) by lia].
    f_equal. rewrite replicate_seq. apply fmap_seq_ext. intros k Hk. by rewrite (proj2 (Nat.ltb_lt _ _)). }
  rewrite Hm. f_equal. unfold causal_bias_generator. rewrite zip_with_fmap_same. apply fmap_seq_ext. intros t Ht.
  rewrite causal_row_seq, zip_with_fmap_same. apply fmap_seq_ext. intros t' Ht'.
  destruct (Nat.ltb_spec t' (length (tokens ns))); cbn [negb].
  - rewrite orb_false_r. destruct (decide (t < length (tokens ns))%nat); [by apply causal_cell_in|].
    rewrite causal_cell_out by lia. unfold group_at at 1. rewrite at_or_out by lia.
    destruct (lookup_lt_is_Some_2 (tokens ns) t') as [[g o] E]; [done|]. unfold group_at, at_or. rewrite E. cbn [fst].
    by rewrite (proj2 (Z.eqb_neq _ _)) by lia.
  - rewrite orb_true_r. symmetry. apply causal_cell_out. by right.
Qed.

(** ** The metadata *)

(** An array that is there when there are entries. *)
Definition ref_of {A} (es : list (nat * Z)) (x : A) : option A := match es with [] => None | _ => Some x end.

Lemma opt_run_ref {A B} es (f : A -> result B) x y :
  (es <> [] -> f x = Ok y) -> opt_run f (ref_of es x) = Ok (ref_of es y).
Proof. intros H. destruct es as [|e es]; [done|]. cbn. by rewrite H. Qed.

Definition ref_metadata (target_qlen target_blocks target_unique : Z) : AttnMetadata :=
  mkAttnMetadata
    (at_or (fun t => slot_of block_size i t.1 (computed_of i t.1 + t.2)) (-1) (tokens ns) <$> seq 0 (Z.to_nat target_qlen))
    (if any_prompt i ns then Some (mat (Z.to_nat target_qlen) (Z.to_nat target_qlen) causal_cell) else None)
    (ref_of shared_entries (shared_list ++ replicate (Z.to_nat target_blocks - length shared_list) (-1)))
    (ref_of shared_entries (mat (Z.to_nat target_qlen) (Z.to_nat target_blocks) shared_cell))
    target_unique
    (ref_of unique_entries (unique_map <$> seq 0 (Z.to_nat target_unique)))
    (ref_of unique_entries (unique_cell <$> seq 0 (Z.to_nat target_unique))).

(** The arrays kept between batches are large enough. *)
Record context_fits (pc : PersistentContext) : Prop := {
  cf_shared : shared_fits pc;
  cf_unique : unique_count <= max_unique_blocks pc
}.

(** A bucket that holds the batch. *)
Record bucket_fits (target_qlen target_blocks target_unique : Z) : Prop := {
  bf_qlen : sumZ ns <= target_qlen;
  bf_blocks : len shared_list <= target_blocks;
  bf_unique : unique_count <= target_unique
}.

Lemma unique_out b : unique_count <= Z.of_nat b -> unique_at b = None.
Proof.
  intros Hb. destruct (unique_at b) as [e|] eqn:E; [|done]. apply unique_at_Some in E as [He Eb].
  pose proof (unique_count_bound e He). lia.
Qed.

Lemma unique_bias_ok target_unique : unique_count <= target_unique -> unique_entries <> [] ->
  hpu_tensor2 (up_bias ref_unique) target_unique block_size true = Ok (unique_cell <$> seq 0 (Z.to_nat target_unique)).
Proof.
  intros Hu Hne. pose proof (io_block_size _ _ _ Hok). unfold hpu_tensor2. cbn [ref_unique up_bias].
  assert (0 <= unique_count).
  { apply list_non_nil_elem in Hne as [e He]. pose proof (unique_count_bound e He). lia. }
  rewrite (mapM_Ok _ id).
  2:{ intros row (b & -> & _)%list_elem_of_fmap. rewrite hpu_tensor_ok.
      - replace (_ - _)%nat with 0%nat; [by rewrite app_nil_r|]. unfold unique_cell.
        destruct (unique_at b); [|rewrite length_replicate; lia].
        pose proof (length_usage_row (usage_of p) ltac:(lia)) as E. unfold len in E. lia.
      - unfold unique_cell. destruct (unique_at b); [rewrite length_usage_row; lia|]. unfold len. rewrite length_replicate. lia. }
  cbn [mbind result_mbind]. rewrite list_fmap_id, np_full_ok by lia. cbn [mbind result_mbind].
  apply hpu_tensor_seq; [lia|]. intros b Hb. unfold unique_cell. by rewrite unique_out by lia.
Qed.

Lemma attn_metadata_ok put_order pc accel target_qlen target_blocks target_unique :
  (forall l, put_order l ≡ₚ l) -> context_fits pc -> bucket_fits target_qlen target_blocks target_unique ->
  (accel = true -> padding_safe target_qlen target_blocks) ->
  attn_metadata put_order pc block_size accel (ref_prep block_size i ns) (ref_of shared_entries ref_shared)
    (ref_of unique_entries ref_unique) target_qlen target_blocks target_unique =
  Ok (ref_metadata target_qlen target_blocks target_unique).
Proof.
  intros Hput [Hsf Huf] [Hq Hb Hu] Hsafe. pose proof tokens_length. unfold attn_metadata, ref_metadata.
  cbn [ref_prep token_slots contains_prompts query_len].
  rewrite (fmap_at_or _ (-1) (tokens ns)), hpu_tensor_seq; [|lia|intros k Hk; apply at_or_out; lia]. cbn [mbind result_mbind].
  assert (Hcausal : forall b, opt_run (fun p => if accel then causal_bias_hpu p target_qlen
      else hpu_tensor2 (create_causal_bias (token_groups p) (token_positions p)) target_qlen target_qlen true)
      (if b : bool then Some (ref_prep block_size i ns) else None) =
    Ok (if b then Some (mat (Z.to_nat target_qlen) (Z.to_nat target_qlen) causal_cell) else None)).
  { intros []; [|done]. cbn [opt_run]. destruct accel; [rewrite causal_bias_hpu_ok by done|rewrite causal_bias_host_ok by done]; done. }
  fold (ref_prep block_size i ns). rewrite Hcausal. cbn [mbind result_mbind].
  rewrite (opt_run_ref shared_entries _ _ (shared_list ++ replicate (Z.to_nat target_blocks - length shared_list) (-1)));
    [|intros _; by apply hpu_tensor_ok]. cbn [mbind result_mbind].
  rewrite (opt_run_ref shared_entries _ _ (mat (Z.to_nat target_qlen) (Z.to_nat target_blocks) shared_cell)).
  2:{ intros Hne. destruct accel; [apply shared_bias_hpu_ok; auto|by apply shared_bias_padded]. }
  cbn [mbind result_mbind]. rewrite (opt_run_ref unique_entries _ _ (unique_map <$> seq 0 (Z.to_nat target_unique))).
  2:{ intros [e He]%list_non_nil_elem. pose proof (unique_count_bound e He). apply hpu_tensor_seq; [lia|].
      intros b Hb'. unfold unique_map. by rewrite unique_out by lia. }
  cbn [mbind result_mbind]. rewrite (opt_run_ref unique_entries _ _ (unique_cell <$> seq 0 (Z.to_nat target_unique)));
    [done|by apply unique_bias_ok].
Qed.

(** ** The keys of a token *)

Definition entry_keys (e : nat * Z) : list Z := (fun o => block_of e * block_size + o) <$> seqZ 0 (usage_of e).

Lemma usage_bound e : 1 <= usage_of e <= block_size.
Proof. pose proof (io_block_size _ _ _ Hok). unfold usage_of, np_clip. lia. Qed.

(** The blocks of context of a request hold its cached positions in order. *)
Lemma context_keys g : (g < length ns)%nat ->
  concat ((fun c => entry_keys (g, c)) <$> seqZ 0 (nblocks_of g)) = slot_of block_size i g <$> seqZ 0 (cached_of i ns g).
Proof.
  intros Hg. pose proof (io_block_size _ _ _ Hok) as Hbs. pose proof (cached_of_nonneg g Hg) as Hc.
  pose proof (nblocks_nonneg g Hg) as Hn.
  assert (Hk : forall k : nat, Z.of_nat k <= nblocks_of g ->
    concat ((fun c => entry_keys (g, c)) <$> seqZ 0 (Z.of_nat k)) =
    slot_of block_size i g <$> seqZ 0 (Z.min (Z.of_nat k * block_size) (cached_of i ns g))).
  { induction k as [|k IH]; intros Hk; [rewrite Z.min_l by lia; done|].
    rewrite Nat2Z.inj_succ, <- Z.add_1_r, seqZ_app, fmap_app, concat_app, IH by lia. rewrite Z.add_0_l.
    change (seqZ (Z.of_nat k) 1) with [Z.of_nat k]. cbn [fmap list_fmap concat]. rewrite app_nil_r.
    assert (Hlt : Z.of_nat k * block_size < cached_of i ns g).
    { apply (entry_range g (Z.of_nat k)). apply elem_of_entries. split; [done|lia]. }
    rewrite (Z.min_l (Z.of_nat k * block_size)) by lia.
    assert (Hu : Z.min ((Z.of_nat k + 1) * block_size) (cached_of i ns g) = Z.of_nat k * block_size + usage_of (g, Z.of_nat k)).
    { unfold usage_of, np_clip. cbn [fst snd]. lia. }
    pose proof (usage_bound (g, Z.of_nat k)). rewrite Hu, seqZ_app, fmap_app, Z.add_0_l by lia. f_equal.
    rewrite <- (Z.add_0_r (Z.of_nat k * block_size)) at 1. rewrite <- fmap_add_seqZ, <- list_fmap_compose.
    apply list_fmap_ext. intros _ o Ho%list_elem_of_lookup_2%elem_of_seqZ. cbn. unfold slot_of.
    assert (E1 : (Z.of_nat k * block_size + o) / block_size = Z.of_nat k) by (rewrite Z.div_add_l, Z.div_small by lia; lia).
    assert (E2 : (Z.of_nat k * block_size + o) mod block_size = o) by (rewrite Z.add_comm, Z.mod_add, Z.mod_small by lia; lia).
    by rewrite E1, E2. }
  rewrite <- (Z2Nat.id (nblocks_of g)), Hk by lia. f_equal. f_equal. rewrite Z2Nat.id by lia. apply Z.min_r.
  unfold nblocks_of. pose proof (Z.mul_succ_div_gt (cached_of i ns g + block_size - 1) block_size ltac:(lia)). nia.
Qed.

Lemma token_entry t g o : tokens ns !! t = Some (g, o) -> (g < length ns)%nat /\ 0 <= o < scheduled_of ns g /\
  Z.of_nat t = start_of ns g + o /\ (t < length (tokens ns))%nat.
Proof.
  intros Ht. pose proof (lookup_lt_Some _ _ _ Ht). pose proof (list_elem_of_lookup_2 _ _ _ Ht) as Hin.
  apply (token_range block_size i ns Hok) in Hin as [Hg Ho].
  apply lookup_tokens in Ht as (c & Hc & _ & Ht); [|apply (ns_counts_ok _ _ _ Hok)]. done.
Qed.

(** The causal part: the tokens of the request up to this one, in order. *)
Lemma causal_keys_ok t g o target_qlen target_blocks target_unique :
  tokens ns !! t = Some (g, o) -> sumZ ns <= target_qlen ->
  causal_keys (ref_metadata target_qlen target_blocks target_unique) t =
  if any_prompt i ns then slot_of block_size i g <$> seqZ (computed_of i g) (o + 1) else [].
Proof.
  intros Ht Hq. pose proof tokens_length as Hl. destruct (token_entry t g o Ht) as (Hg & Ho & Hto & Hlt).
  unfold causal_keys. cbn [ref_metadata causal_bias slot_mapping]. destruct (any_prompt i ns); [|done].
  set (q_max := ((t / causal_width + 1) * causal_width)%nat).
  assert (Hqm : (t < q_max)%nat).
  { unfold q_max. pose proof (Nat.mul_succ_div_gt t causal_width ltac:(done)). lia. }
  rewrite (list_lookup_total_correct (mat _ _ causal_cell) t (causal_cell t <$> seq 0 (Z.to_nat target_qlen)))
    by (unfold mat; rewrite list_lookup_fmap, lookup_seq_lt by lia; done).
  rewrite <- !fmap_take, take_seq, unmasked_fmap. set (m := (q_max `min` Z.to_nat target_qlen)%nat).
  pose proof (start_of_bound ns g (proj2 (ns_counts_ok _ _ _ Hok))) as Hs.
  set (s := Z.to_nat (start_of ns g)).
  assert (Hf : filter (fun x => causal_cell t x = false) (seq 0 m) = seq s (t + 1 - s)).
  { replace m with (s + ((t + 1 - s) + (m - (t + 1))))%nat by lia. rewrite !seq_app, !filter_app. cbn [Nat.add].
    assert (Hin : forall x, (x < length (tokens ns))%nat -> causal_cell t x = false <-> (s <= x <= t)%nat).
    { intros x [[g' o'] Hx]%lookup_lt_is_Some. pose proof (token_entry x g' o' Hx) as (Hg' & Ho' & Hxo & _).
      unfold causal_cell. rewrite Ht, Hx, orb_false_iff, negb_false_iff, Z.eqb_eq, Z.ltb_ge. split.
      - intros [E%Nat2Z.inj ?]. subst g'. lia.
      - intros Hx'. assert (g' = g) as ->; [|split; [done|lia]].
        destruct (decide (g' < g)%nat) as [Hlt'|]; [|destruct (decide (g < g')%nat) as [Hlt'|]; [|lia]]; exfalso.
        + pose proof (start_of_mono ns (S g') g (proj2 (ns_counts_ok _ _ _ Hok)) ltac:(lia)) as Hm.
          rewrite (start_of_S _ _ _ (ns_lookup ns g' Hg')) in Hm. lia.
        + pose proof (start_of_mono ns (S g) g' (proj2 (ns_counts_ok _ _ _ Hok)) ltac:(lia)) as Hm.
          rewrite (start_of_S _ _ _ (ns_lookup ns g Hg)) in Hm. lia. }
    rewrite (filter_none _ (seq 0 s)), (filter_all _ (seq s _)), filter_none; [by rewrite app_nil_r| | |].
    - intros x Hx%elem_of_seq. destruct (decide (x < length (tokens ns))%nat).
      + rewrite Hin by done. lia.
      + rewrite causal_cell_out by lia. done.
    - intros x Hx%elem_of_seq. apply Hin; lia.
    - intros x Hx%elem_of_seq. rewrite Hin by lia. lia. }
  rewrite Hf. apply list_eq. intros k. rewrite !list_lookup_fmap. destruct (decide (k < t + 1 - s)%nat) as [Hk|Hk].
  - rewrite lookup_seq_lt, lookup_seqZ_lt by lia. cbn [fmap option_fmap option_map]. f_equal. unfold at_or.
    assert (E : tokens ns !! (s + k)%nat = Some (g, Z.of_nat k)).
    { apply lookup_tokens; [apply (ns_counts_ok _ _ _ Hok)|]. exists (scheduled_of ns g). rewrite (ns_lookup ns) by done.
      split_and!; [done|lia..]. }
    by rewrite E.
  - rewrite lookup_seq_ge, lookup_seqZ_ge by lia. done.
Qed.

(** The blocks of context of request [g] that are shared, and unique. *)
Definition shared_of (g : nat) : list Z := filter (fun c => (1 <? readers (block_of (g, c))) = true) (seqZ 0 (nblocks_of g)).
Definition unique_of (g : nat) : list Z := filter (fun c => (readers (block_of (g, c)) =? 1) = true) (seqZ 0 (nblocks_of g)).

Lemma elem_of_shared_of g c : (g < length ns)%nat -> c ∈ shared_of g <-> (g, c) ∈ shared_entries.
Proof.
  intros Hg. unfold shared_of, shared_entries. rewrite !list_elem_of_filter, elem_of_entries, elem_of_seqZ. naive_solver lia.
Qed.

Lemma elem_of_unique_of g c : (g < length ns)%nat -> c ∈ unique_of g <-> (g, c) ∈ unique_entries.
Proof.
  intros Hg. unfold unique_of, unique_entries. rewrite !list_elem_of_filter, elem_of_entries, elem_of_seqZ. naive_solver lia.
Qed.

(** Different blocks of a request stay different. *)
Lemma blocks_NoDup g (P : Z -> Prop) `{!forall c, Decision (P c)} : (g < length ns)%nat ->
  NoDup ((fun c => block_of (g, c)) <$> filter P (seqZ 0 (nblocks_of g))).
Proof.
  intros Hg. apply NoDup_fmap_2_strong; [|apply NoDup_filter, NoDup_seqZ].
  intros c c' [_ Hc%elem_of_seqZ]%list_elem_of_filter [_ Hc'%elem_of_seqZ]%list_elem_of_filter E.
  apply (bo_distinct Hblk g); [apply elem_of_entries; lia..|done].
Qed.

Lemma shared_cell_keys t g o j b : tokens ns !! t = Some (g, o) -> shared_list !! j = Some b ->
  unmasked (shared_cell t j) (block_slots block_size b) =
  match list_find (fun e => e.1 = g /\ block_of e = b) shared_entries with Some (_, e) => entry_keys e | None => [] end.
Proof.
  intros Ht Hj. unfold shared_cell. rewrite Ht, Hj. destruct (list_find _ _) as [[k e]|] eqn:E; [|apply unmasked_all].
  apply list_find_Some in E as (_ & [_ <-] & _). pose proof (usage_bound e). apply unmasked_usage. lia.
Qed.

Lemma shared_keys_ok t g o target_qlen target_blocks target_unique :
  tokens ns !! t = Some (g, o) -> sumZ ns <= target_qlen -> len shared_list <= target_blocks ->
  shared_keys block_size (ref_metadata target_qlen target_blocks target_unique) t ≡ₚ
  concat ((fun c => entry_keys (g, c)) <$> shared_of g).
Proof.
  intros Ht Hq Hb. pose proof tokens_length as Hl. destruct (token_entry t g o Ht) as (Hg & Ho & Hto & Hlt).
  unfold len in Hb. unfold shared_keys. cbn [ref_metadata shared_bias md_shared_blocks].
  assert (Hnil : shared_entries = [] -> shared_of g = []).
  { intros E. destruct (shared_of g) as [|c cs] eqn:Ec; [done|]. exfalso.
    apply (not_elem_of_nil (g, c)). rewrite <- E. apply elem_of_shared_of; [done|]. rewrite Ec. left. }
  destruct (decide (shared_entries = [])) as [E|Hne]; [by rewrite E, Hnil|].
  assert (Hr : forall A (x : A), ref_of shared_entries x = Some x) by (intros A x; by destruct shared_entries).
  rewrite !Hr.
  rewrite (list_lookup_total_correct (mat _ _ shared_cell) t (shared_cell t <$> seq 0 (Z.to_nat target_blocks)))
    by (unfold mat; rewrite list_lookup_fmap, lookup_seq_lt by lia; done).
  rewrite <- (list_fmap_id shared_list) at 1. rewrite (fmap_at_or id (-1) shared_list).
  rewrite (fmap_seq_pad _ _ (Z.to_nat target_blocks)); [|lia|intros k Hk; apply at_or_out; lia].
  rewrite zip_with_fmap_same. set (F := fun b => match list_find (fun e => e.1 = g /\ block_of e = b) shared_entries with
    | Some (_, e) => entry_keys e | None => [] end).
  assert (E : concat ((fun j => unmasked (shared_cell t j) (block_slots block_size (at_or id (-1) shared_list j))) <$>
    seq 0 (Z.to_nat target_blocks)) = concat (F <$> shared_list)).
  { replace (Z.to_nat target_blocks) with (length shared_list + (Z.to_nat target_blocks - length shared_list))%nat by lia.
    rewrite seq_app, fmap_app, concat_app. rewrite (fmap_as_seq F shared_list).
    rewrite <- (app_nil_r (concat ((fun k => F (shared_list !!! k)) <$> _))). f_equal.
    - f_equal. apply fmap_seq_ext. intros j Hj. destruct (lookup_lt_is_Some_2 shared_list j Hj) as [b Hjb].
      rewrite (list_lookup_total_correct _ _ _ Hjb). unfold at_or. rewrite Hjb. by apply (shared_cell_keys t g o).
    - generalize (Z.to_nat target_blocks - length shared_list)%nat as n. induction n as [|n IH]; [done|].
      rewrite seq_S, fmap_app, concat_app, IH. cbn. rewrite shared_cell_out by lia. by rewrite unmasked_all. }
  rewrite E, (concat_supported F (fun c => block_of (g, c)) shared_list (shared_of g)).
  - apply reflexive_eq, f_equal, list_fmap_ext. intros _ c Hc%list_elem_of_lookup_2. apply elem_of_shared_of in Hc; [|done]. unfold F.
    destruct (list_find _ _) as [[k [g' c']]|] eqn:Ef.
    + apply list_find_Some in Ef as (Hk & [E1 E2] & _). cbn in E1. subst g'.
      apply list_elem_of_lookup_2, shared_sub in Hk. by rewrite (bo_distinct Hblk g c' c) by (done || by apply shared_sub).
    + apply list_find_None in Ef. rewrite Forall_forall in Ef. by destruct (Ef _ Hc).
  - apply shared_list_NoDup.
  - by apply blocks_NoDup.
  - intros c Hc%elem_of_shared_of; [|done]. apply elem_of_sorted_set, list_elem_of_fmap. by exists (g, c).
  - intros b _ Hno. unfold F. destruct (list_find _ _) as [[k [g' c']]|] eqn:Ef; [|done]. exfalso.
    apply list_find_Some in Ef as (Hk & [E1 E2] & _). cbn in E1. subst g'. apply Hno, list_elem_of_fmap.
    exists c'. split; [done|]. apply elem_of_shared_of; [done|]. by eapply list_elem_of_lookup_2.
Qed.

Lemma unique_keys_ok t g o target_qlen target_blocks target_unique :
  tokens ns !! t = Some (g, o) -> unique_count <= target_unique ->
  unique_keys block_size (ref_metadata target_qlen target_blocks target_unique) t ≡ₚ
  concat ((fun c => entry_keys (g, c)) <$> unique_of g).
Proof.
  intros Ht Hu. destruct (token_entry t g o Ht) as (Hg & Ho & Hto & Hlt).
  unfold unique_keys. cbn [ref_metadata unique_bias unique_block_mapping md_unique_blocks].
  assert (Hnil : unique_entries = [] -> unique_of g = []).
  { intros E. destruct (unique_of g) as [|c cs] eqn:Ec; [done|]. exfalso.
    apply (not_elem_of_nil (g, c)). rewrite <- E. apply elem_of_unique_of; [done|]. rewrite Ec. left. }
  destruct (decide (unique_entries = [])) as [E|Hne]; [by rewrite E, Hnil|].
  assert (Hr : forall A (x : A), ref_of unique_entries x = Some x) by (intros A x; by destruct unique_entries).
  rewrite !Hr.
  set (F := fun b => match unique_at b with Some e => if start_of ns e.1 =? Z.of_nat t then entry_keys e else [] | None => [] end).
  assert (E : (fun b => if (unique_map <$> seq 0 (Z.to_nat target_unique)) !!! b =? Z.of_nat t
      then unmasked ((unique_cell <$> seq 0 (Z.to_nat target_unique)) !!! b) (block_slots block_size (Z.of_nat b)) else []) <$>
    seq 0 (Z.to_nat target_unique) = F <$> seq 0 (Z.to_nat target_unique)).
  { apply fmap_seq_ext. intros b Hb.
    rewrite (list_lookup_total_correct (unique_map <$> _) b (unique_map b)) by (by rewrite list_lookup_fmap, lookup_seq_lt).
    rewrite (list_lookup_total_correct (unique_cell <$> _) b (unique_cell b)) by (by rewrite list_lookup_fmap, lookup_seq_lt).
    unfold unique_map, unique_cell, F. destruct (unique_at b) as [e|] eqn:Eb; [|by rewrite (proj2 (Z.eqb_neq _ _)) by lia].
    apply unique_at_Some in Eb as [He Eb]. destruct (_ =? _); [|done]. pose proof (usage_bound e).
    rewrite unmasked_usage by lia. unfold entry_keys. by rewrite Eb. }
  rewrite E, (concat_supported F (fun c => Z.to_nat (block_of (g, c))) (seq 0 (Z.to_nat target_unique)) (unique_of g)).
  - apply reflexive_eq, f_equal, list_fmap_ext. intros _ c Hc%list_elem_of_lookup_2.
    apply elem_of_unique_of in Hc; [|done]. pose proof (unique_count_bound _ Hc). unfold F.
    rewrite (proj2 (unique_at_Some _ (g, c))) by (split; [done|lia]). cbn [fst].
    pose proof (unique_scheduled _ Hc) as Hs. cbn [fst] in Hs. rewrite (proj2 (Z.eqb_eq _ _)) by lia. done.
  - apply NoDup_seq.
  - unfold unique_of. pose proof (blocks_NoDup g (fun c => (readers (block_of (g, c)) =? 1) = true) Hg) as Hnd.
    apply (NoDup_fmap_2_strong Z.to_nat) in Hnd; [by rewrite <- list_fmap_compose in Hnd|].
    intros x y (c & -> & Hc)%list_elem_of_fmap (c' & -> & Hc')%list_elem_of_fmap.
    apply elem_of_unique_of in Hc, Hc'; [|done..]. pose proof (unique_count_bound _ Hc). pose proof (unique_count_bound _ Hc'). lia.
  - intros c Hc%elem_of_unique_of; [|done]. pose proof (unique_count_bound _ Hc). apply elem_of_seq. lia.
  - intros b _ Hno. unfold F. destruct (unique_at b) as [[g' c]|] eqn:Eb; [|done].
    destruct (Z.eqb_spec (start_of ns (g', c).1) (Z.of_nat t)) as [Hs|]; [|done]. exfalso.
    apply unique_at_Some in Eb as [He Eb]. cbn [fst] in Hs.
    assert (Hge : (g', c) ∈ entries) by (by apply list_elem_of_filter in He as [_ ?]).
    apply elem_of_entries in Hge as [Hg' _].
    pose proof (unique_scheduled _ He) as Hs1. cbn [fst] in Hs1.
    assert (Ht' : tokens ns !! t = Some (g', 0)).
    { apply lookup_tokens; [apply (ns_counts_ok _ _ _ Hok)|]. exists (scheduled_of ns g'). rewrite (ns_lookup ns) by done.
      split_and!; [done|lia..]. }
    rewrite Ht in Ht'. injection Ht' as <- _. apply Hno, list_elem_of_fmap. exists c. split; [by rewrite Eb, Nat2Z.id|].
    by apply elem_of_unique_of.
Qed.

(** Every block of context is read once by each token of its request. *)
Lemma block_keys_ok g : (g < length ns)%nat ->
  concat ((fun c => entry_keys (g, c)) <$> shared_of g) ++ concat ((fun c => entry_keys (g, c)) <$> unique_of g) ≡ₚ
  slot_of block_size i g <$> seqZ 0 (cached_of i ns g).
Proof.
  intros Hg. rewrite <- (context_keys g Hg). apply concat_partition. intros c Hc%elem_of_seqZ.
  assert (He : (g, c) ∈ entries) by (apply elem_of_entries; split; [done|lia]).
  pose proof (readers_pos _ He). pose proof (io_scheduled _ _ _ Hok g Hg). cbn [fst] in *.
  rewrite Z.ltb_lt, Z.eqb_eq. lia.
Qed.

(** What a token of request [g] at offset [o] should attend: the cached keys, and
    in a batch with prompts its own key and those of this step before it. *)
Definition expected_keys (g : nat) (o : Z) : list Z :=
  (slot_of block_size i g <$> seqZ 0 (cached_of i ns g)) ++
  (if any_prompt i ns then slot_of block_size i g <$> seqZ (computed_of i g) (o + 1) else []).

Lemma attended_keys_ok t g o target_qlen target_blocks target_unique :
  tokens ns !! t = Some (g, o) -> bucket_fits target_qlen target_blocks target_unique ->
  attended_keys block_size (ref_metadata target_qlen target_blocks target_unique) t ≡ₚ expected_keys g o.
Proof.
  intros Ht [Hq Hb Hu]. destruct (token_entry t g o Ht) as (Hg & _). unfold attended_keys, expected_keys.
  rewrite (causal_keys_ok t g o), (shared_keys_ok t g o), (unique_keys_ok t g o) by done.
  by rewrite block_keys_ok, Permutation_app_comm by done.
Qed.

(** ** The batch *)

Definition padded {A} (l : list A) (target : Z) (pad : A) : list A := l ++ replicate (Z.to_nat target - length l) pad.

Definition ref_batch (target_qlen target_blocks target_unique target_logits : Z) : UnifiedBatch :=
  let p := ref_prep block_size i ns in
  mkUnifiedBatch p (padded (token_ids p) target_qlen (-1)) (padded (token_positions p) target_qlen (-1))
    (padded (logits_indices p) target_logits (-1)) (ref_metadata target_qlen target_blocks target_unique) [].

(** The bucket that the caller's functions give the batch. *)
Definition batch_bucket (bucketing_fn : bool -> Z -> Z -> Z -> Z -> Z * Z * Z * Z) (pad : Z -> Z) : Z * Z * Z * Z :=
  let '(q, b, u, l) := bucketing_fn (any_prompt i ns) (sumZ ns) (len shared_list) unique_count (len (tokens (outputs i ns))) in
  (q + pad q, b + pad b, u + pad u, l + pad l).

(** The bucket holds the batch, and on the device its padding is safe. *)
Definition bucket_ok (accel : bool) (bucket : Z * Z * Z * Z) : Prop :=
  let '(q, b, u, l) := bucket in
  bucket_fits q b u /\ len (tokens (outputs i ns)) <= l /\ (accel = true -> padding_safe q b).

Definition batch_of_bucket (bucket : Z * Z * Z * Z) : UnifiedBatch :=
  let '(q, b, u, l) := bucket in ref_batch q b u l.

Lemma context_of_ref es : context_of es = ref_of es (context_arrays es).
Proof. by destruct es. Qed.

Lemma shared_nil : entries = [] -> shared_entries = [] /\ unique_entries = [].
Proof. intros E. unfold shared_entries, unique_entries. by rewrite E. Qed.

Lemma create_unified_batch_ok bucketing_fn pad put_order pc accel :
  spec_scheduled_tokens (scheduled_spec_decode_tokens i) (req_ids i) (num_scheduled_tokens i) = Ok ns ->
  (forall l, put_order l ≡ₚ l) -> context_fits pc -> bucket_ok accel (batch_bucket bucketing_fn pad) ->
  create_unified_batch bucketing_fn pad put_order pc block_size i None accel =
  Ok (batch_of_bucket (batch_bucket bucketing_fn pad)).
Proof.
  intros Hspec Hput Hpc Hbucket. unfold create_unified_batch. rewrite Hspec. cbn [mbind result_mbind].
  rewrite (common_prep_ok block_size i ns Hok). cbn [mbind result_mbind]. cbn [ref_prep cached_tokens].
  fold (ref_prep block_size i ns). rewrite context_create_ok. cbn [mbind result_mbind].
  assert (Hsplit : match context_of entries with Some c => UnifiedBatch.split c ns | None => Ok (None, None) end =
    Ok (context_of shared_entries, context_of unique_entries)).
  { destruct (decide (entries = [])) as [E|Hne].
    - destruct (shared_nil E) as [-> ->]. by rewrite E.
    - rewrite <- split_ok by done. unfold context_of. by destruct entries. }
  rewrite Hsplit. cbn [mbind result_mbind]. rewrite !context_of_ref.
  rewrite (opt_run_ref shared_entries _ _ ref_shared) by apply shared_prep_ok. cbn [mbind result_mbind].
  rewrite (opt_run_ref unique_entries _ _ ref_unique) by (intros; apply unique_prep_ok; [done|apply Hpc]).
  cbn [mbind result_mbind].
  assert (E1 : default 0 (len ∘ shared_blocks <$> ref_of shared_entries ref_shared) = len shared_list).
  { unfold shared_list, ref_of. by destruct shared_entries eqn:E; [|cbn; unfold shared_list; rewrite E]. }
  assert (E2 : default 0 (up_blocks <$> ref_of unique_entries ref_unique) = unique_count).
  { unfold unique_count, ref_of. by destruct unique_entries eqn:E; [|cbn; unfold unique_count; rewrite E]. }
  rewrite E1, E2. cbn [ref_prep contains_prompts token_ids token_positions logits_indices]. fold (ref_prep block_size i ns).
  unfold batch_bucket, bucket_ok in *.
  assert (E3 : len ((fun t => table_at (all_token_ids i) t.1 (computed_of i t.1 + t.2)) <$> tokens ns) = sumZ ns).
  { unfold len. rewrite length_fmap. apply tokens_length. }
  assert (E4 : len ((fun t => start_of ns (S t.1) - outputs_of i ns t.1 + t.2) <$> tokens (outputs i ns)) = len (tokens (outputs i ns))).
  { unfold len. by rewrite length_fmap. }
  rewrite E3, E4. destruct (bucketing_fn _ _ _ _ _) as [[[q b] u] l]. destruct Hbucket as (Hfit & Hlog & Hsafe).
  rewrite attn_metadata_ok by done. cbn [mbind result_mbind]. pose proof (bf_qlen _ _ _ Hfit).
  assert (E5 : len ((fun t => computed_of i t.1 + t.2) <$> tokens ns) = sumZ ns).
  { unfold len. rewrite length_fmap. apply tokens_length. }
  do 3 (rewrite hpu_tensor_ok by (rewrite ?E3, ?E4, ?E5; done); cbn [mbind result_mbind]). done.
Qed.

(** Positions of a request are those of its tokens in the cache up to its own. *)
Lemma expected_exact g o : (g < length ns)%nat -> 0 <= o < scheduled_of ns g ->
  is_prompt_of i ns g = true \/ (any_prompt i ns = false /\ scheduled_of ns g = 1) ->
  expected_keys g o = slot_of block_size i g <$> seqZ 0 (computed_of i g + o + 1).
Proof.
  intros Hg Ho Hcase. pose proof (io_computed_nonneg _ _ _ Hok g Hg). unfold expected_keys, cached_of.
  destruct Hcase as [Hp|[Hn Hs]].
  - assert (Hany : any_prompt i ns = true).
    { unfold any_prompt. apply existsb_exists. exists g. split; [apply in_seq; lia|done]. }
    rewrite Hp, Hany, Z.add_0_r. replace (computed_of i g + o + 1) with (computed_of i g + (o + 1)) by lia.
    rewrite (seqZ_app 0), fmap_app by lia. done.
  - assert (Hp : is_prompt_of i ns g = false).
    { destruct (is_prompt_of i ns g) eqn:E; [|done]. rewrite <- Hn. symmetry. unfold any_prompt. apply existsb_exists.
      exists g. split; [apply in_seq; lia|done]. }
    rewrite Hn, Hp, app_nil_r. f_equal. f_equal. lia.
Qed.

(** A single-token decode in a batch with prompts has its own key twice. *)
Lemma expected_mixed g : (g < length ns)%nat -> any_prompt i ns = true -> is_prompt_of i ns g = false -> scheduled_of ns g = 1 ->
  expected_keys g 0 =
  (slot_of block_size i g <$> seqZ 0 (computed_of i g + 1)) ++ [slot_of block_size i g (computed_of i g)].
Proof. intros Hg Ha Hp Hs. unfold expected_keys, cached_of. by rewrite Hp, Ha, Hs. Qed.
End context.

(** ** The properties *)

(** What the batch needs of its caller: counts corrected for draft tokens,
    consistent arrays and tables, any order of the device's writes, and arrays and
    bucket that hold the batch. *)
Record batch_ok (bucketing_fn : bool -> Z -> Z -> Z -> Z -> Z * Z * Z * Z) (pad : Z -> Z)
    (put_order : list (Z * Z * list bool) -> list (Z * Z * list bool)) (pc : PersistentContext) (block_size : Z)
    (i : Inputs) (ns : list Z) (accel : bool) : Prop := {
  bk_counts : spec_scheduled_tokens (scheduled_spec_decode_tokens i) (req_ids i) (num_scheduled_tokens i) = Ok ns;
  bk_inputs : inputs_ok block_size i ns;
  bk_blocks : blocks_ok block_size i ns;
  bk_order : forall l, put_order l ≡ₚ l;
  bk_context : context_fits block_size i ns pc;
  bk_bucket : bucket_ok block_size i ns accel (batch_bucket block_size i ns bucketing_fn pad)
}.

Lemma batch_ok_keys bucketing_fn pad put_order pc block_size i ns accel :
  batch_ok bucketing_fn pad put_order pc block_size i ns accel ->
  exists b, create_unified_batch bucketing_fn pad put_order pc block_size i None accel = Ok b /\
    forall t g o, tokens ns !! t = Some (g, o) ->
      attended_keys block_size (ub_attn_metadata b) t ≡ₚ expected_keys block_size i ns g o.
Proof.
  intros []. eexists. split; [by apply (create_unified_batch_ok block_size i ns)|].
  intros t g o Ht. unfold batch_of_bucket. destruct (batch_bucket _ _ _ _ _) as [[[q b] u] l]. cbn [ref_batch ub_attn_metadata].
  apply attended_keys_ok; [done..|]. by destruct bk_bucket0.
Qed.

(** ** Concrete batches *)

(** A decode (6 tokens of 5 in the prompt) and the second chunk of a prompt that
    share the first block, in blocks of 4. *)
Definition mixed_inputs : Inputs :=
  mkInputs ["a"; "b"]%string
    (mkTable 8 [[10; 11; 12; 13; 14; 15; 16; 17]; [20; 21; 22; 23; 24; 25; 26; 27]])
    [5; 4] [1; 3] [5; 7] (mkTable 3 [[0; 2; 5]; [0; 3; 1]]) ∅.

(** Two decodes that share a block; the second was given a draft token that is
    not there. *)
Definition decode_inputs : Inputs :=
  mkInputs ["a"; "b"]%string
    (mkTable 8 [[10; 11; 12; 13; 14; 15; 16; 17]; [20; 21; 22; 23; 24; 25; 26; 27]])
    [5; 6] [1; 2] [5; 6] (mkTable 3 [[0; 2; 5]; [0; 3; 1]]) {["b" := [-1]]}%string.

Definition sample_context : PersistentContext := init_persistent_context 16 8 8 4 4.
Definition roomy_bucket (is_causal : bool) (q b u l : Z) : Z * Z * Z * Z := (q + 1, b + 1, u + 1, 4).
Definition exact_bucket (is_causal : bool) (q b u l : Z) : Z * Z * Z * Z := (q, b, u, l).
Definition no_padding (n : Z) : Z := 0.

(** Facts about the two requests of a concrete batch. *)
Ltac each_request := intros g Hg; destruct g as [|[|g]]; [vm_compute; congruence..|cbn in Hg; lia].

Lemma entries_check block_size i ns :
  let es := entries block_size i ns in
  forallb (fun e => 0 <=? block_of i e) es = true ->
  forallb (fun e => forallb (fun e' => negb (e.1 =? e'.1)%nat || negb (block_of i e =? block_of i e') || (e.2 =? e'.2)) es) es = true ->
  blocks_ok block_size i ns.
Proof.
  intros es H1 H2. rewrite forallb_forall in H1, H2. split.
  - intros e He. apply Z.leb_le, H1. by apply list_elem_of_In.
  - intros g c c' Hc Hc' E. specialize (H2 (g, c) (proj1 (list_elem_of_In _ _) Hc)). rewrite forallb_forall in H2.
    specialize (H2 (g, c') (proj1 (list_elem_of_In _ _) Hc')). cbn in H2. rewrite E, Nat.eqb_refl, Z.eqb_refl in H2. cbn in H2. lia.
Qed.

Ltac sample_batch :=
  constructor; [vm_compute; reflexivity
    |constructor; first [vm_compute; first [done | congruence]
      |split; [reflexivity|intros row Hrow; repeat (apply elem_of_cons in Hrow as [->|Hrow]; [reflexivity|]); by apply not_elem_of_nil in Hrow]
      |each_request]
    |apply entries_check; vm_compute; reflexivity
    |intros l; reflexivity
    |constructor; [intros _; split; vm_compute; congruence|vm_compute; congruence]
    |split; [constructor; vm_compute; congruence|split; [vm_compute; congruence|intros _; right; left; vm_compute; reflexivity]]].

Lemma mixed_batch_ok accel : batch_ok roomy_bucket no_padding id sample_context 4 mixed_inputs [1; 3] accel.
Proof. sample_batch. Qed.

Lemma decode_batch_ok accel : batch_ok roomy_bucket no_padding id sample_context 4 decode_inputs [1; 1] accel.
Proof. sample_batch. Qed.

(** ** What a batch does *)

Lemma create_batch_eq bucketing_fn pad put_order pc block_size i ns accel :
  batch_ok bucketing_fn pad put_order pc block_size i ns accel ->
  create_unified_batch bucketing_fn pad put_order pc block_size i None accel =
  Ok (batch_of_bucket block_size i ns (batch_bucket block_size i ns bucketing_fn pad)).
Proof. intros []. by apply create_unified_batch_ok. Qed.

(** C17: a token of a prompt, and every token of a batch of single-token
    decodes, attends exactly the keys of its request at the positions up to
    its own, each once, however its blocks are split between shared and
    unique. The inputs are host arrays (not asynchronous), consistent, with no
    block twice in a table; the bucket and the persistent arrays hold the
    batch; and when the biases are computed on the device, its padding is safe
    ([padding_safe]): the last token or the last shared block of the bucket is
    padding, or nothing is padded. On the device a full bucket loses keys
    otherwise: see [full_bucket_masks_last_block]. *)
Theorem unified_batch_attention bucketing_fn pad put_order pc block_size i ns accel :
  batch_ok bucketing_fn pad put_order pc block_size i ns accel ->
  exists b, create_unified_batch bucketing_fn pad put_order pc block_size i None accel = Ok b /\
    forall t g o, tokens ns !! t = Some (g, o) ->
      is_prompt_of i ns g = true \/ (any_prompt i ns = false /\ scheduled_of ns g = 1) ->
      attended_keys block_size (ub_attn_metadata b) t ≡ₚ
      slot_of block_size i g <$> seqZ 0 (computed_of i g + o + 1).
Proof.
  intros Hb. destruct (batch_ok_keys _ _ _ _ _ _ _ _ Hb) as (b & E & Hk). exists b. split; [done|].
  intros t g o Ht Hcase. destruct (token_entry block_size i ns (bk_inputs _ _ _ _ _ _ _ _ Hb) t g o Ht) as (Hg & Ho & _).
  rewrite (Hk t g o Ht). by rewrite (expected_exact block_size i ns (bk_inputs _ _ _ _ _ _ _ _ Hb) g o).
Qed.

Lemma unified_batch_attention_witness :
  exists b, create_unified_batch roomy_bucket no_padding id sample_context 4 mixed_inputs None true = Ok b /\
    attended_keys 4 (ub_attn_metadata b) 2 ≡ₚ [0; 1; 2; 3; 12; 13].
Proof.
  destruct (unified_batch_attention _ _ _ _ _ _ _ _ (mixed_batch_ok true)) as (b & E & H). exists b.
  split; [exact E|]. apply (H 2%nat 1%nat 1); [vm_compute; reflexivity|left; vm_compute; reflexivity].
Defined.

(** In a batch that also holds prompts, a single-token decode attends its own
    key twice: the cached blocks include the token of this step, and the causal
    part does too. *)
Theorem mixed_batch_repeats_own_key bucketing_fn pad put_order pc block_size i ns accel :
  batch_ok bucketing_fn pad put_order pc block_size i ns accel ->
  exists b, create_unified_batch bucketing_fn pad put_order pc block_size i None accel = Ok b /\
    forall t g, tokens ns !! t = Some (g, 0) -> any_prompt i ns = true -> is_prompt_of i ns g = false -> scheduled_of ns g = 1 ->
      attended_keys block_size (ub_attn_metadata b) t ≡ₚ
      (slot_of block_size i g <$> seqZ 0 (computed_of i g + 1)) ++ [slot_of block_size i g (computed_of i g)].
Proof.
  intros Hb. destruct (batch_ok_keys _ _ _ _ _ _ _ _ Hb) as (b & E & Hk). exists b. split; [done|].
  intros t g Ht Ha Hp Hs. destruct (token_entry block_size i ns (bk_inputs _ _ _ _ _ _ _ _ Hb) t g 0 Ht) as (Hg & _).
  rewrite (Hk t g 0 Ht). by rewrite (expected_mixed block_size i ns g).
Qed.

Lemma mixed_batch_repeats_own_key_witness :
  exists b, create_unified_batch roomy_bucket no_padding id sample_context 4 mixed_inputs None true = Ok b /\
    attended_keys 4 (ub_attn_metadata b) 0 ≡ₚ [0; 1; 2; 3; 8; 9] ++ [9].
Proof.
  destruct (mixed_batch_repeats_own_key _ _ _ _ _ _ _ _ (mixed_batch_ok true)) as (b & E & H). exists b.
  split; [exact E|]. apply (H 0%nat 0%nat); vm_compute; reflexivity.
Defined.

(** Without prompts there is no causal part: a request with draft tokens has all
    its keys of this step in the cached part, so that each of its tokens attends
    also the ones after it. *)
Theorem draft_tokens_attend_later_keys bucketing_fn pad put_order pc block_size i ns accel :
  batch_ok bucketing_fn pad put_order pc block_size i ns accel -> any_prompt i ns = false ->
  exists b, create_unified_batch bucketing_fn pad put_order pc block_size i None accel = Ok b /\
    forall t g o, tokens ns !! t = Some (g, o) ->
      attended_keys block_size (ub_attn_metadata b) t ≡ₚ slot_of block_size i g <$> seqZ 0 (total_of i ns g).
Proof.
  intros Hb Hn. destruct (batch_ok_keys _ _ _ _ _ _ _ _ Hb) as (b & E & Hk). exists b. split; [done|].
  intros t g o Ht. destruct (token_entry block_size i ns (bk_inputs _ _ _ _ _ _ _ _ Hb) t g o Ht) as (Hg & _).
  rewrite (Hk t g o Ht). unfold expected_keys, cached_of. rewrite Hn, app_nil_r.
  assert (Hp : is_prompt_of i ns g = false).
  { destruct (is_prompt_of i ns g) eqn:Ep; [|done]. rewrite <- Hn. symmetry. unfold any_prompt. apply existsb_exists.
    exists g. split; [apply in_seq; lia|done]. }
  by rewrite Hp.
Qed.

(** C18: the biases computed on the device are those of the host, in whatever
    order the device writes, when its padding is safe: the batches are equal.
    The inputs are consistent host arrays, as for the attention of a batch. *)
Theorem device_batch_equals_host bucketing_fn pad put_order pc block_size i ns :
  batch_ok bucketing_fn pad put_order pc block_size i ns true ->
  create_unified_batch bucketing_fn pad put_order pc block_size i None true =
  create_unified_batch bucketing_fn pad put_order pc block_size i None false.
Proof.
  intros Hb. rewrite (create_batch_eq _ _ _ _ _ _ _ _ Hb). symmetry. apply create_batch_eq. destruct Hb. split; try done.
  unfold bucket_ok in *. destruct (batch_bucket _ _ _ _ _) as [[[q b] u] l]. naive_solver.
Qed.

Lemma device_batch_equals_host_witness :
  create_unified_batch roomy_bucket no_padding id sample_context 4 mixed_inputs None true =
  create_unified_batch roomy_bucket no_padding id sample_context 4 mixed_inputs None false.
Proof. apply (device_batch_equals_host _ _ _ _ _ _ [1; 3]), mixed_batch_ok. Defined.

(** When the bucket is exactly as large as the batch, the padding of the device's
    index arrays names the last token and the last shared block, and masks it:
    the last token loses the cached keys of that block. *)
Theorem full_bucket_masks_last_block :
  exists host device,
    create_unified_batch exact_bucket no_padding id sample_context 4 decode_inputs None false = Ok host /\
    create_unified_batch exact_bucket no_padding id sample_context 4 decode_inputs None true = Ok device /\
    shared_keys 4 (ub_attn_metadata host) 1 = [0; 1; 2; 3] /\
    shared_keys 4 (ub_attn_metadata device) 1 = [].
Proof. eexists _, _. split_and!; vm_compute; reflexivity. Qed.

(** C19: every array of a batch built from host arrays has the length of its
    bucket: the shapes for which the device has compiled graphs. The batch is
    consistent and fits the bucket, and on the device the padding is safe.
    Asynchronous inputs are not covered: with them the logits indices get one
    entry more. *)
Theorem unified_batch_shapes bucketing_fn pad put_order pc block_size i ns accel :
  batch_ok bucketing_fn pad put_order pc block_size i ns accel ->
  exists batch, create_unified_batch bucketing_fn pad put_order pc block_size i None accel = Ok batch /\
    let '(q, b, u, l) := batch_bucket block_size i ns bucketing_fn pad in
    let md := ub_attn_metadata batch in
    len (ub_token_ids batch) = q /\ len (ub_token_positions batch) = q /\ len (slot_mapping md) = q /\
    len (ub_logits_indices batch) = l /\ md_unique_blocks md = u /\
    (forall m, causal_bias md = Some m -> len m = q /\ forall row, row ∈ m -> len row = q) /\
    (forall s, md_shared_blocks md = Some s -> len s = b) /\
    (forall m, shared_bias md = Some m -> len m = q /\ forall rows, rows ∈ m -> len rows = b /\
      forall row, row ∈ rows -> len row = block_size) /\
    (forall m, unique_block_mapping md = Some m -> len m = u) /\
    (forall m, unique_bias md = Some m -> len m = u /\ forall row, row ∈ m -> len row = block_size).
Proof.
  intros Hb. eexists. split; [by apply create_batch_eq|]. pose proof (bk_inputs _ _ _ _ _ _ _ _ Hb) as Hok.
  pose proof (bk_bucket _ _ _ _ _ _ _ _ Hb) as Hbk. pose proof (tokens_length block_size i ns Hok) as Htl.
  pose proof (io_block_size _ _ _ Hok) as Hbs.
  unfold bucket_ok in Hbk. destruct (batch_bucket _ _ _ _ _) as [[[q b] u] l]. destruct Hbk as ([Hq Hs Hu] & Hl & _).
  cbn [batch_of_bucket ref_batch ub_token_ids ub_token_positions ub_attn_metadata ub_logits_indices ref_metadata slot_mapping
    causal_bias md_shared_blocks shared_bias md_unique_blocks unique_block_mapping unique_bias ref_prep token_ids
    token_positions logits_indices].
  assert (Hpad : forall A (xs : list A) n x, len xs <= n -> len (padded xs n x) = n).
  { intros A xs n x. unfold padded, len. rewrite length_app, length_replicate. lia. }
  assert (Hf : forall A (f : nat * Z -> A) xs, len (f <$> xs) = len xs) by (intros; unfold len; by rewrite length_fmap).
  assert (Hseq : forall A (f : nat -> A) n, 0 <= n -> len (f <$> seq 0 (Z.to_nat n)) = n).
  { intros A f n Hn. unfold len. rewrite length_fmap, length_seq. lia. }
  pose proof (len_nonneg (shared_list block_size i ns)) as Hs0.
  assert (Hu0 : forall x : nat * Z, x ∈ unique_entries block_size i ns -> 0 <= u).
  { intros x Hx. pose proof (unique_count_bound block_size i ns (bk_blocks _ _ _ _ _ _ _ _ Hb) x Hx). lia. }
  split; [apply Hpad; rewrite Hf; unfold len; lia|]. split; [apply Hpad; rewrite Hf; unfold len; lia|].
  split; [apply Hseq; lia|]. split; [apply Hpad; by rewrite Hf|]. split; [done|]. split.
  { intros m. destruct (any_prompt i ns); [intros [= <-]|done]. split; [apply Hseq; lia|].
    intros row (r & -> & _)%list_elem_of_fmap. apply Hseq. lia. }
  unfold ref_of. split.
  { destruct (shared_entries block_size i ns); [done|]. intros s [= <-]. by apply (Hpad Z). }
  split.
  { destruct (shared_entries block_size i ns) eqn:E; [done|]. intros m [= <-]. split; [apply Hseq; lia|].
    intros rows (r & -> & _)%list_elem_of_fmap. split; [apply Hseq; lia|].
    intros row (c & -> & _)%list_elem_of_fmap. by apply shared_cell_length. }
  revert Hu0. destruct (unique_entries block_size i ns) as [|e es]; [done|]. intros Hu0.
  pose proof (Hu0 e ltac:(left)). split; [intros m [= <-]; by apply Hseq|].
  intros m [= <-]. split; [by apply Hseq|]. intros row (b' & -> & _)%list_elem_of_fmap. unfold unique_cell.
  destruct (unique_at _ _ _ _); [apply length_usage_row; lia|]. unfold len. rewrite length_replicate. lia.
Qed.

Lemma unified_batch_shapes_witness :
  exists batch, create_unified_batch roomy_bucket no_padding id sample_context 4 decode_inputs None true = Ok batch /\
    len (ub_token_ids batch) = 3.
Proof.
  destruct (unified_batch_shapes _ _ _ _ _ _ _ _ (decode_batch_ok true)) as (b & E & H). exists b.
  split; [exact E|]. apply H.
Defined.

(** The logits of a request are taken at its last tokens, as many as it
    samples, and the token sampled from each goes to the position after it. *)
Theorem unified_batch_logits bucketing_fn pad put_order pc block_size i ns accel :
  batch_ok bucketing_fn pad put_order pc block_size i ns accel ->
  exists b, create_unified_batch bucketing_fn pad put_order pc block_size i None accel = Ok b /\
    forall k g o, tokens (outputs i ns) !! k = Some (g, o) ->
      exists t, ub_logits_indices b !! k = Some (Z.of_nat t) /\
        tokens ns !! t = Some (g, scheduled_of ns g - outputs_of i ns g + o) /\
        logits_groups (ub_prep b) !! k = Some (Z.of_nat g) /\
        exists p, ub_token_positions b !! t = Some p /\ new_token_positions (ub_prep b) !! k = Some (p + 1) /\
          ub_token_ids b !! t = Some (table_at (all_token_ids i) g p).
Proof.
  intros Hb. eexists. split; [by apply create_batch_eq|]. pose proof (bk_inputs _ _ _ _ _ _ _ _ Hb) as Hok.
  intros k g o Hk. pose proof (list_elem_of_lookup_2 _ _ _ Hk) as Hin.
  apply (output_range block_size i ns Hok) in Hin as [Hg Ho].
  pose proof (io_scheduled _ _ _ Hok g Hg) as Hs.
  assert (Hos : outputs_of i ns g <= scheduled_of ns g) by (unfold outputs_of, np_clip; lia).
  pose proof (start_of_bound ns g (proj2 (ns_counts_ok _ _ _ Hok))) as Hst.
  set (t := Z.to_nat (start_of ns g + (scheduled_of ns g - outputs_of i ns g + o))).
  assert (Ht : tokens ns !! t = Some (g, scheduled_of ns g - outputs_of i ns g + o)).
  { apply lookup_tokens; [apply (ns_counts_ok _ _ _ Hok)|]. exists (scheduled_of ns g). rewrite (ns_lookup ns) by done.
    split_and!; [done|unfold t; lia..]. }
  exists t. destruct (batch_bucket _ _ _ _ _) as [[[q b] u] l].
  cbn [batch_of_bucket ref_batch ub_token_ids ub_token_positions ub_logits_indices ub_prep ref_prep token_ids
    token_positions logits_indices logits_groups new_token_positions]. unfold padded.
  assert (Hl : forall (f : nat * Z -> Z) xs x n r, xs !! n = Some x -> ((f <$> xs) ++ r) !! n = Some (f x)).
  { intros f xs x n r Hx. rewrite lookup_app_l; [by rewrite list_lookup_fmap, Hx|].
    rewrite length_fmap. by eapply lookup_lt_Some. }
  rewrite (Hl _ _ _ _ _ Hk). cbn [fst snd]. rewrite (start_of_S ns g (scheduled_of ns g)) by by apply (ns_lookup ns).
  split; [f_equal; unfold t; lia|]. split; [done|]. rewrite !list_lookup_fmap, Hk. split; [done|].
  eexists. split; [by rewrite (Hl _ _ _ _ _ Ht)|]. rewrite (Hl _ _ _ _ _ Ht). cbn [fst snd].
  split; [|done]. cbn. f_equal. unfold total_of. lia.
Qed.

Lemma unified_batch_logits_witness :
  exists b, create_unified_batch roomy_bucket no_padding id sample_context 4 mixed_inputs None true = Ok b /\
    exists t, ub_logits_indices b !! 1%nat = Some (Z.of_nat t) /\ tokens [1; 3] !! t = Some (1%nat, 2).
Proof.
  destruct (unified_batch_logits _ _ _ _ _ _ _ _ (mixed_batch_ok true)) as (b & E & H). exists b. split; [exact E|].
  destruct (H 1%nat 1%nat 0) as (t & H1 & H2 & _); [vm_compute; reflexivity|]. exists t. split; [exact H1|exact H2].
Defined.
