(* ===== verification/V0Block.v ===== *)
(** The blocks of the V0 engine: block objects and the pool they are taken
    from, reference counts, copy on write, the naive allocator of a device and
    the pair of allocators for CPU and GPU
    (src/vllm/core/block/common.py, naive_block.py, cpu_gpu_block_allocator.py).

    A block object lives in the pool that created it, at a position that never
    changes, so [Obj d i] names it; its allocator is that of [d] and its
    [pool_id] is [i].  All objects have the block size of the cache. *)

From Stdlib Require Import ZArith Lia.
From stdpp Require Import base strings numbers gmap list sorting.
From S2P Require Import Prelude.
From S2P Require Import Heapq.

Open Scope list_scope.
Open Scope Z_scope.

Inductive Device := GPU | CPU.

#[export] Instance Device_eq_dec : EqDecision Device.
Proof. solve_decision. Defined.

(** A reference to a block: an object of a pool, or the [NullBlock]. *)
Inductive ref := Obj (d : Device) (i : nat) | Null.

#[export] Instance ref_eq_dec : EqDecision ref.
Proof. solve_decision. Defined.

(** ** State *)

Record Block := mkBlock {
  prev_block : option ref;
  token_ids : list Z;
  block_id : option nat
}.

Record BlockPool := mkPool {
  _pool_size : nat;
  _free_ids : list nat;
  _pool : list Block
}.

(** [_refcounts] is the dict of the [RefCounter], [_copy_on_writes] the list of
    the [CopyOnWriteTracker]. *)
Record NaiveBlockAllocator := mkNaive {
  _free_block_indices : list nat;
  _all_block_indices : gset nat;
  _refcounts : gmap nat Z;
  _copy_on_writes : list (nat * nat);
  _block_pool : BlockPool
}.

(** [_null_block]: the block that the [NullBlock] wraps. *)
Record CpuGpuBlockAllocator := mkAllocators {
  _gpu_allocator : NaiveBlockAllocator;
  _cpu_allocator : NaiveBlockAllocator;
  _swap_mapping : list (nat * nat);
  _null_block : option ref
}.

Definition set_token_ids f b := mkBlock (prev_block b) (f (token_ids b)) (block_id b).
Definition set_block_id v b := mkBlock (prev_block b) (token_ids b) v.

Definition set_free f a := mkNaive (f (_free_block_indices a)) (_all_block_indices a)
  (_refcounts a) (_copy_on_writes a) (_block_pool a).
Definition set_refcounts f a := mkNaive (_free_block_indices a) (_all_block_indices a)
  (f (_refcounts a)) (_copy_on_writes a) (_block_pool a).
Definition set_cows f a := mkNaive (_free_block_indices a) (_all_block_indices a)
  (_refcounts a) (f (_copy_on_writes a)) (_block_pool a).
Definition set_block_pool p a := mkNaive (_free_block_indices a) (_all_block_indices a)
  (_refcounts a) (_copy_on_writes a) p.

Definition allocator_of (d : Device) (s : CpuGpuBlockAllocator) : NaiveBlockAllocator :=
  match d with GPU => _gpu_allocator s | CPU => _cpu_allocator s end.
Definition set_allocator (d : Device) (a : NaiveBlockAllocator) (s : CpuGpuBlockAllocator) :=
  match d with
  | GPU => mkAllocators a (_cpu_allocator s) (_swap_mapping s) (_null_block s)
  | CPU => mkAllocators (_gpu_allocator s) a (_swap_mapping s) (_null_block s)
  end.
Definition set_swap_mapping f s :=
  mkAllocators (_gpu_allocator s) (_cpu_allocator s) (f (_swap_mapping s)) (_null_block s).
Definition set_null_block v s :=
  mkAllocators (_gpu_allocator s) (_cpu_allocator s) (_swap_mapping s) v.

(** Operations on a part of the allocators. *)
Definition on {A} (d : Device) : M NaiveBlockAllocator A -> M CpuGpuBlockAllocator A :=
  zoom (allocator_of d) (set_allocator d).
Definition on_pool {A} (d : Device) (m : M BlockPool A) : M CpuGpuBlockAllocator A :=
  on d (zoom _block_pool set_block_pool m).
Definition on_counter {A} : M (gmap nat Z) A -> M NaiveBlockAllocator A :=
  zoom _refcounts (fun c => set_refcounts (fun _ => c)).

(** ** RefCounter *)

Definition incr (block_id : nat) : M (gmap nat Z) Z :=
  c ← gets (.!! block_id);
  match c with
  | None => raise AssertionError
  | Some pre => py_assert (0 <=? pre);; modify <[block_id := pre + 1]>;; mret (pre + 1)
  end.

Definition decr (block_id : nat) : M (gmap nat Z) Z :=
  c ← gets (.!! block_id);
  match c with
  | None => raise AssertionError
  | Some refcount =>
      py_assert (0 <? refcount);; modify <[block_id := refcount - 1]>;; mret (refcount - 1)
  end.

Definition get (block_id : nat) : M (gmap nat Z) Z :=
  c ← gets (.!! block_id);
  match c with None => raise AssertionError | Some refcount => mret refcount end.

(** ** CopyOnWriteTracker *)

Definition is_appendable (b : Block) : M NaiveBlockAllocator bool :=
  match block_id b with
  | None => mret true
  | Some i => refcount ← on_counter (get i); mret (refcount <=? 1)
  end.

Definition record_cow (src trg : option nat) : M NaiveBlockAllocator unit :=
  match src, trg with
  | Some s, Some t => modify (set_cows (fun c => c ++ [(s, t)]))
  | _, _ => raise AssertionError
  end.

Definition clear_cows : M NaiveBlockAllocator (list (nat * nat)) :=
  cows ← gets _copy_on_writes; modify (set_cows (fun _ => []));; mret cows.

Section blocks.
Context (block_size : Z).

(** The Python recursion limit, which bounds the length of a chain of blocks
    that [get_all_blocks_recursively] can follow. *)
Context (recursion_limit : nat).

(** ** Block objects *)

Definition pool_block (d : Device) (i : nat) (s : CpuGpuBlockAllocator) : option Block :=
  _pool (_block_pool (allocator_of d s)) !! i.

(** The object behind a reference; the properties of a [NullBlock] are those of
    its proxy.  A reference always has an object. *)
Definition deref (r : ref) : M CpuGpuBlockAllocator Block := fun s =>
  let object r := match r with Obj d i => pool_block d i s | Null => None end in
  match match r with Null => _null_block s ≫= object | _ => object r end with
  | Some b => Ret b s
  | None => Raise AttributeError s
  end.

Definition put_block (d : Device) (i : nat) (b : Block) : M CpuGpuBlockAllocator unit :=
  on_pool d (modify (fun p => mkPool (_pool_size p) (_free_ids p) (<[i := b]> (_pool p)))).

(** The setter of [block_id]. *)
Definition write_block_id (r : ref) (v : option nat) : M CpuGpuBlockAllocator unit :=
  match r with
  | Null => raise ValueError
  | Obj d i => b ← deref r; put_block d i (set_block_id v b)
  end.

Definition num_empty_slots (b : Block) : Z := block_size - len (token_ids b).
Definition is_full (b : Block) : bool := num_empty_slots b =? 0.

(** [NaiveBlock._append_token_ids_no_cow] *)
Definition _append_token_ids_no_cow (d : Device) (i : nat) (toks : list Z) :
    M CpuGpuBlockAllocator unit :=
  if len toks =? 0 then mret tt
  else
    b ← deref (Obj d i);
    py_assert (len toks <=? num_empty_slots b);;
    put_block d i (set_token_ids (fun l => l ++ toks) b).

(** ** BlockPool *)

Definition new_block : Block := mkBlock None [] None.

Definition init_pool (pool_size : nat) : BlockPool :=
  mkPool pool_size (seq 0 pool_size) (replicate pool_size new_block).

Definition increase_pool (p : BlockPool) : BlockPool :=
  let cur_pool_size := _pool_size p in
  let new_pool_size := (cur_pool_size * 2)%nat in
  mkPool new_pool_size (_free_ids p ++ seq cur_pool_size (new_pool_size - cur_pool_size))
    (_pool p ++ replicate (new_pool_size - cur_pool_size) new_block).

(** [_free_ids.popleft()], after the pool is doubled when it is used up. *)
Definition pop_free_id : M BlockPool nat :=
  p ← get_state;
  (match _free_ids p with
   | [] => modify increase_pool;; p ← get_state; py_assert (negb (len (_free_ids p) =? 0))
   | _ => mret tt
   end);;
  p ← get_state;
  match _free_ids p with
  | [] => raise IndexError
  | pool_id :: rest => put_state (mkPool (_pool_size p) rest (_pool p));; mret pool_id
  end.

Definition init_block (d : Device) (prev : option ref) (toks : list Z)
    (physical_block_id : option nat) : M CpuGpuBlockAllocator ref :=
  pool_id ← on_pool d pop_free_id;
  old ← gets (pool_block d pool_id);
  match old with
  | None => raise IndexError
  | Some _ =>
      put_block d pool_id (mkBlock prev [] physical_block_id);;
      _append_token_ids_no_cow d pool_id toks;;
      mret (Obj d pool_id)
  end.

(** [BlockPool.free_block] of the pool of [d]: the [pool_id] of the object is
    its position in the pool that made it, be it this pool or not. *)
Definition release_object (d : Device) (r : ref) : M CpuGpuBlockAllocator unit :=
  match r with
  | Null => raise AttributeError
  | Obj _ i => on_pool d (modify (fun p => mkPool (_pool_size p) (i :: _free_ids p) (_pool p)))
  end.

(** ** NaiveBlockAllocator *)

Definition _allocate_block_id : M NaiveBlockAllocator nat :=
  free ← gets _free_block_indices;
  match heappop free with
  | None => raise NoFreeBlocksError
  | Some (block_id, free') =>
      modify (set_free (fun _ => free'));;
      on_counter (incr block_id);;
      mret block_id
  end.

(** [_free_block_id] of a block id, and of a block. *)
Definition free_block_id (block_id : nat) : M NaiveBlockAllocator unit :=
  refcount ← on_counter (decr block_id);
  if refcount =? 0 then modify (set_free (heappush block_id)) else mret tt.

Definition _free_block_id (d : Device) (block : ref) : M CpuGpuBlockAllocator unit :=
  b ← deref block;
  write_block_id block None;;
  match block_id b with
  | None => raise AssertionError
  | Some i => on d (free_block_id i)
  end.

Definition cow_block_if_not_appendable (d : Device) (block : ref) :
    M CpuGpuBlockAllocator nat :=
  b ← deref block;
  match block_id b with
  | None => raise AssertionError
  | Some src_block_id =>
      appendable ← on d (is_appendable b);
      if appendable : bool then mret src_block_id
      else
        _free_block_id d block;;
        trg_block_id ← on d _allocate_block_id;
        on d (record_cow (Some src_block_id) (Some trg_block_id));;
        mret trg_block_id
  end.

(** [NaiveBlock.append_token_ids], and that of [NullBlock]. *)
Definition append_token_ids (block : ref) (toks : list Z) : M CpuGpuBlockAllocator unit :=
  match block with
  | Null => raise ValueError
  | Obj d i =>
      _append_token_ids_no_cow d i toks;;
      b ← deref block;
      match block_id b with
      | None => mret tt
      | Some _ => new_id ← cow_block_if_not_appendable d block; write_block_id block (Some new_id)
      end
  end.

Definition allocate_mutable_block (d : Device) (prev : option ref) : M CpuGpuBlockAllocator ref :=
  block_id ← on d _allocate_block_id;
  init_block d prev [] (Some block_id).

Definition allocate_immutable_block (d : Device) (prev : option ref) (toks : list Z) :
    M CpuGpuBlockAllocator ref :=
  block ← allocate_mutable_block d prev;
  append_token_ids block toks;;
  mret block.

(** The second loop of [allocate_immutable_blocks]. *)
Fixpoint init_blocks (d : Device) (prev : option ref) (l : list (list Z * nat)) :
    M CpuGpuBlockAllocator (list ref) :=
  match l with
  | [] => mret []
  | (toks, block_id) :: l' =>
      block ← init_block d prev toks (Some block_id);
      blocks ← init_blocks d (Some block) l';
      mret (block :: blocks)
  end.

Definition allocate_immutable_blocks (d : Device) (prev : option ref) (block_token_ids : list (list Z)) :
    M CpuGpuBlockAllocator (list ref) :=
  block_ids ← map_each (fun _ => on d _allocate_block_id) block_token_ids;
  init_blocks d prev (zip block_token_ids block_ids).

(** [free]; [keep_block_object] is [False] in every call. *)
Definition naive_free (d : Device) (block : ref) : M CpuGpuBlockAllocator unit :=
  _free_block_id d block;; release_object d block.

Fixpoint recurse (fuel : nat) (block : ref) : M CpuGpuBlockAllocator (list ref) :=
  match fuel with
  | O => raise RuntimeError
  | S fuel' =>
      b ← deref block;
      match prev_block b with
      | None => mret [block]
      | Some prev => lst ← recurse fuel' prev; mret (lst ++ [block])
      end
  end.
Definition get_all_blocks_recursively : ref -> M CpuGpuBlockAllocator (list ref) :=
  recurse recursion_limit.

(** The loop of [fork]. *)
Fixpoint fork_blocks (d : Device) (prev : option ref) (source_blocks : list ref) :
    M CpuGpuBlockAllocator (list ref) :=
  match source_blocks with
  | [] => mret []
  | block :: rest =>
      b ← deref block;
      match block_id b with
      | None => raise AssertionError
      | Some i =>
          refcount ← on d (on_counter (incr i));
          py_assert (negb (refcount =? 1));;
          forked_block ← init_block d prev (token_ids b) (Some i);
          forked_blocks ← fork_blocks d (Some forked_block) rest;
          mret (forked_block :: forked_blocks)
      end
  end.

Definition naive_fork (d : Device) (last_block : ref) : M CpuGpuBlockAllocator (list ref) :=
  source_blocks ← get_all_blocks_recursively last_block;
  fork_blocks d None source_blocks.

Definition naive_num_free_blocks (a : NaiveBlockAllocator) : Z := len (_free_block_indices a).
Definition naive_num_total_blocks (a : NaiveBlockAllocator) : Z :=
  Z.of_nat (size (_all_block_indices a)).

(** [sorted(...).index(absolute_id)] *)
Definition naive_physical_block_id (absolute_id : nat) (a : NaiveBlockAllocator) : result Z :=
  match list_find (fun i => i = absolute_id) (merge_sort Nat.le (elements (_all_block_indices a))) with
  | Some (k, _) => Ok (Z.of_nat k)
  | None => Err ValueError
  end.

(** The set of the full blocks, by object identity. *)
Definition naive_num_full_blocks_touched (blocks : list ref) : M CpuGpuBlockAllocator Z :=
  full ← map_each (fun r => b ← deref r; mret (if is_full b then Some r else None)) blocks;
  mret (len (remove_dups (omap id full))).

Definition swap_out_blocks (d : Device) (blocks : list ref) : M CpuGpuBlockAllocator unit :=
  for_each (_free_block_id d) blocks.

Definition swap_in_block (d : Device) (block : ref) : M CpuGpuBlockAllocator unit :=
  b ← deref block;
  tmp_block ← (if is_full b then allocate_immutable_block d (prev_block b) (token_ids b)
               else
                 tmp ← allocate_mutable_block d (prev_block b);
                 append_token_ids tmp (token_ids b);;
                 mret tmp);
  tmp ← deref tmp_block;
  write_block_id tmp_block None;;
  release_object d tmp_block;;
  write_block_id block (block_id tmp).

Definition swap_in_blocks (d : Device) (blocks : list ref) : M CpuGpuBlockAllocator unit :=
  for_each (swap_in_block d) blocks.

Definition init_naive (block_ids : list nat) : NaiveBlockAllocator :=
  mkNaive (heapify block_ids) (list_to_set block_ids)
    (list_to_map ((fun i => (i, 0)) <$> block_ids)) []
    (init_pool (length block_ids * 4)).

(** ** CpuGpuBlockAllocator *)

(** [create] with the naive allocators; [reserved_blocks] is 1 on the HPU, where
    block 0 is used only for padding.  A number of blocks below zero fails the
    assertion of the allocator, that it has as many ids. *)
Definition create (reserved_blocks num_gpu_blocks num_cpu_blocks : nat) : result CpuGpuBlockAllocator :=
  let block_ids := seq reserved_blocks (num_gpu_blocks + num_cpu_blocks - reserved_blocks) in
  guard_or (reserved_blocks <=? num_gpu_blocks)%nat AssertionError;;
  let num_gpu_blocks := (num_gpu_blocks - reserved_blocks)%nat in
  mret (mkAllocators (init_naive (take num_gpu_blocks block_ids))
          (init_naive (drop num_gpu_blocks block_ids)) [] None).

(** [_block_ids_to_allocator[block_id]] *)
Definition block_ids_to_allocator (block_id : nat) : M CpuGpuBlockAllocator Device :=
  s ← get_state;
  if decide (block_id ∈ _all_block_indices (_gpu_allocator s)) then mret GPU
  else if decide (block_id ∈ _all_block_indices (_cpu_allocator s)) then mret CPU
  else raise KeyError.

Definition allocate_or_get_null_block : M CpuGpuBlockAllocator ref :=
  null ← gets _null_block;
  match null with
  | Some _ => mret Null
  | None =>
      proxy ← allocate_mutable_block GPU None;
      modify (set_null_block (Some proxy));;
      mret Null
  end.

Definition free (block : ref) : M CpuGpuBlockAllocator unit :=
  match block with
  | Null => mret tt
  | Obj _ _ =>
      b ← deref block;
      match block_id b with
      | None => raise AssertionError
      | Some i => d ← block_ids_to_allocator i; naive_free d block
      end
  end.

Definition fork (last_block : ref) : M CpuGpuBlockAllocator (list ref) :=
  match last_block with
  | Null => raise AssertionError
  | Obj _ _ =>
      b ← deref last_block;
      match block_id b with
      | None => raise AssertionError
      | Some i => d ← block_ids_to_allocator i; naive_fork d last_block
      end
  end.

Definition get_num_free_blocks (d : Device) (s : CpuGpuBlockAllocator) : Z :=
  naive_num_free_blocks (allocator_of d s).
Definition get_num_total_blocks (d : Device) (s : CpuGpuBlockAllocator) : Z :=
  naive_num_total_blocks (allocator_of d s).
Definition get_physical_block_id (d : Device) (absolute_id : nat) : M CpuGpuBlockAllocator Z :=
  s ← get_state; lift_result (naive_physical_block_id absolute_id (allocator_of d s)).

(** [d[k] = v] of a dict in insertion order. *)
Definition dict_set (k v : nat) (l : list (nat * nat)) : list (nat * nat) :=
  if decide (k ∈ l.*1) then (fun p => if decide (p.1 = k) then (k, v) else p) <$> l
  else l ++ [(k, v)].

Definition swap (blocks : list ref) (src_device dst_device : Device) :
    M CpuGpuBlockAllocator (list (nat * nat)) :=
  src_block_ids ← map_each (fun r => b ← deref r; mret (block_id b)) blocks;
  swap_out_blocks src_device blocks;;
  swap_in_blocks dst_device blocks;;
  dst_block_ids ← map_each (fun r => b ← deref r; mret (block_id b)) blocks;
  let pairs := omap (fun p => match p with (Some s, Some t) => Some (s, t) | _ => None end)
                 (zip src_block_ids dst_block_ids) in
  let record l := fold_left (fun l p => dict_set p.1 p.2 l) pairs l in
  modify (set_swap_mapping record);;
  mret (record []).

Definition get_num_full_blocks_touched (blocks : list ref) : M CpuGpuBlockAllocator Z :=
  naive_num_full_blocks_touched blocks.

Definition clear_copy_on_writes : M CpuGpuBlockAllocator (list (nat * nat)) := on GPU clear_cows.

Definition get_and_reset_swaps : M CpuGpuBlockAllocator (list (nat * nat)) :=
  mapping ← gets _swap_mapping; modify (set_swap_mapping (fun _ => []));; mret mapping.

End blocks.
