(* ===== verification/V0Sequence.v ===== *)
(** Sequences of the V0 engine (src/vllm/sequence.py): the tokens of a sequence
    and how many of them are computed, the deltas that are sent to the workers,
    and groups of sequences.  Embeddings, log-probabilities, texts and metrics
    are left out. *)

From Stdlib Require Import ZArith Lia.
From stdpp Require Import base strings numbers gmap list.
From S2P Require Import Prelude.

Open Scope list_scope.
Open Scope Z_scope.

Inductive SequenceStatus :=
  | WAITING | RUNNING | SWAPPED
  | FINISHED_STOPPED | FINISHED_LENGTH_CAPPED | FINISHED_ABORTED | FINISHED_IGNORED.

#[export] Instance SequenceStatus_eq_dec : EqDecision SequenceStatus.
Proof. solve_decision. Defined.

Definition status_value (status : SequenceStatus) : Z :=
  match status with
  | WAITING => 0 | RUNNING => 1 | SWAPPED => 2
  | FINISHED_STOPPED => 3 | FINISHED_LENGTH_CAPPED => 4 | FINISHED_ABORTED => 5 | FINISHED_IGNORED => 6
  end.
Definition status_is_finished (status : SequenceStatus) : bool := status_value SWAPPED <? status_value status.

Definition get_finished_reason (status : SequenceStatus) : option string :=
  match status with
  | FINISHED_STOPPED => Some "stop"%string
  | FINISHED_LENGTH_CAPPED => Some "length"%string
  | FINISHED_ABORTED => Some "abort"%string
  | FINISHED_IGNORED => Some "length"%string
  | _ => None
  end.

Inductive SequenceStage := PREFILL | DECODE.

#[export] Instance SequenceStage_eq_dec : EqDecision SequenceStage.
Proof. solve_decision. Defined.

(** ** SequenceData *)

Record SequenceData := mkData {
  _prompt_token_ids : list Z;
  _output_token_ids : list Z;
  _num_computed_tokens : Z;
  _num_cached_tokens : Z;
  _stage : SequenceStage;
  _cached_all_token_ids : list Z;
  _new_appended_tokens : list Z
}.

Record SequenceDataDelta := mkDelta {
  new_output_token_ids : list Z;
  new_num_computed_tokens : Z;
  new_stage : SequenceStage
}.

(** A new [SequenceData], after [__post_init__]. *)
Definition new_data (prompt output : list Z) : SequenceData :=
  mkData prompt output 0 0 PREFILL (prompt ++ output) [].

Definition append_token_id (token_id : Z) (d : SequenceData) : SequenceData :=
  mkData (_prompt_token_ids d) (_output_token_ids d ++ [token_id]) (_num_computed_tokens d)
    (_num_cached_tokens d) (_stage d) (_cached_all_token_ids d ++ [token_id])
    (_new_appended_tokens d ++ [token_id]).

Definition get_len (d : SequenceData) : Z := len (_output_token_ids d) + len (_prompt_token_ids d).
Definition get_prompt_len (d : SequenceData) : Z := len (_prompt_token_ids d).
Definition get_output_len (d : SequenceData) : Z := len (_output_token_ids d).
Definition get_token_ids (d : SequenceData) : list Z := _cached_all_token_ids d.

Definition get_prefix_token_ids (num_tokens : Z) (d : SequenceData) : list Z * option (list Z) :=
  let prompt_length := get_prompt_len d in
  if prompt_length <? num_tokens
  then (_prompt_token_ids d, Some (slice 0 (num_tokens - prompt_length) (_output_token_ids d)))
  else (slice 0 num_tokens (_prompt_token_ids d), None).

Definition get_num_computed_tokens (d : SequenceData) : Z := _num_computed_tokens d.
Definition get_num_uncomputed_tokens (d : SequenceData) : Z := get_len d - get_num_computed_tokens d.

Definition update_num_computed_tokens (num_new_computed_tokens : Z) : M SequenceData unit :=
  modify (fun d => mkData (_prompt_token_ids d) (_output_token_ids d)
    (_num_computed_tokens d + num_new_computed_tokens) (_num_cached_tokens d) (_stage d)
    (_cached_all_token_ids d) (_new_appended_tokens d));;
  d ← get_state;
  py_assert (_num_computed_tokens d <=? get_len d);;
  if get_num_uncomputed_tokens d =? 0
  then modify (fun d => mkData (_prompt_token_ids d) (_output_token_ids d) (_num_computed_tokens d)
         (_num_cached_tokens d) DECODE (_cached_all_token_ids d) (_new_appended_tokens d))
  else mret tt.

Definition update_num_cached_tokens (num_cached_tokens : Z) (d : SequenceData) : SequenceData :=
  mkData (_prompt_token_ids d) (_output_token_ids d) (_num_computed_tokens d) num_cached_tokens
    (_stage d) (_cached_all_token_ids d) (_new_appended_tokens d).

Definition reset_state_for_recompute (d : SequenceData) : SequenceData :=
  mkData (_prompt_token_ids d) (_output_token_ids d) 0 (_num_cached_tokens d) PREFILL
    (_cached_all_token_ids d) [].

(** [l[-1]] *)
Definition py_last (l : list Z) : result Z :=
  match last l with Some x => Ok x | None => Err IndexError end.

Definition get_last_token_id (d : SequenceData) : result Z :=
  match _output_token_ids d with
  | [] => py_last (_prompt_token_ids d)
  | _ => py_last (_output_token_ids d)
  end.

Definition get_delta_and_reset (d : SequenceData) : SequenceDataDelta * SequenceData :=
  (mkDelta (_new_appended_tokens d) (get_num_computed_tokens d) (_stage d),
   mkData (_prompt_token_ids d) (_output_token_ids d) (_num_computed_tokens d) (_num_cached_tokens d)
     (_stage d) (_cached_all_token_ids d) []).

Definition apply_delta (delta : SequenceDataDelta) (d : SequenceData) : SequenceData :=
  mkData (_prompt_token_ids d) (_output_token_ids d ++ new_output_token_ids delta)
    (new_num_computed_tokens delta) (_num_cached_tokens d) (new_stage delta)
    (_cached_all_token_ids d ++ new_output_token_ids delta) (_new_appended_tokens d).

(** ** Sequence and SequenceGroup *)

Record Sequence := mkSequence {
  seq_id : Z;
  data : SequenceData;
  status : SequenceStatus
}.

Definition seq_token_ids (seq : Sequence) : list Z := get_token_ids (data seq).
Definition seq_is_finished (seq : Sequence) : bool := status_is_finished (status seq).
Definition seq_is_prefill (seq : Sequence) : bool := bool_decide (_stage (data seq) = PREFILL).

Definition get_num_new_tokens (seq : Sequence) : Z :=
  match _stage (data seq) with
  | DECODE => 1
  | PREFILL => get_num_uncomputed_tokens (data seq)
  end.

(** [fork]: a deep copy under a new id. *)
Definition fork_sequence (new_seq_id : Z) (seq : Sequence) : Sequence :=
  mkSequence new_seq_id (data seq) (status seq).

Record SequenceGroup := mkGroup {
  request_id : string;
  seqs : list Sequence;
  encoder_seq : option Sequence
}.

Definition is_single_seq (g : SequenceGroup) : bool := len (seqs g) =? 1.

Definition with_status (st : option SequenceStatus) (g : SequenceGroup) : list Sequence :=
  match st with
  | None => seqs g
  | Some st =>
      match seqs g with
      | first_seq :: _ =>
          if is_single_seq g then if decide (status first_seq = st) then seqs g else []
          else filter (fun seq => status seq = st) (seqs g)
      | [] => []
      end
  end.
Definition get_seqs (st : SequenceStatus) (g : SequenceGroup) : list Sequence := with_status (Some st) g.

Definition is_encoder_decoder (g : SequenceGroup) : bool := bool_decide (is_Some (encoder_seq g)).

Definition get_finished_seqs (g : SequenceGroup) : list Sequence :=
  match seqs g with
  | first_seq :: _ =>
      if is_single_seq g then if seq_is_finished first_seq then seqs g else []
      else filter (fun seq => seq_is_finished seq = true) (seqs g)
  | [] => []
  end.

Definition num_seqs (st : option SequenceStatus) (g : SequenceGroup) : Z :=
  match st with
  | None => len (seqs g)
  | Some st' =>
      match seqs g with
      | first_seq :: _ =>
          if is_single_seq g then if decide (status first_seq = st') then 1 else 0
          else len (with_status st g)
      | [] => 0
      end
  end.
Definition num_finished_seqs (g : SequenceGroup) : Z := len (get_finished_seqs g).

Definition get_max_num_running_seqs (g : SequenceGroup) : Z :=
  match seqs g with
  | first_seq :: _ =>
      if is_single_seq g then if seq_is_finished first_seq then 0 else 1
      else num_seqs None g - num_finished_seqs g
  | [] => 0
  end.

Definition group_is_finished (g : SequenceGroup) : bool := forallb seq_is_finished (seqs g).

Fixpoint update_seqs (num_new_computed_tokens : Z) (l : list Sequence) : result (list Sequence) :=
  match l with
  | [] => mret []
  | seq :: l' =>
      seq ← (if seq_is_finished seq then mret seq
             else match update_num_computed_tokens num_new_computed_tokens (data seq) with
                  | Ret _ d => mret (mkSequence (seq_id seq) d (status seq))
                  | Raise e _ => Err e
                  end);
      rest ← update_seqs num_new_computed_tokens l';
      mret (seq :: rest)
  end.
Definition group_update_num_computed_tokens (num_new_computed_tokens : Z) (g : SequenceGroup) :
    result SequenceGroup :=
  l ← update_seqs num_new_computed_tokens (seqs g); mret (mkGroup (request_id g) l (encoder_seq g)).

Definition group_num_uncomputed_tokens (g : SequenceGroup) : Z :=
  foldr (fun seq n => if seq_is_finished seq then n else get_num_uncomputed_tokens (data seq) + n)
    0 (seqs g).

(** ** Deltas

    The driver sends the workers what has changed since the last delta. *)

Inductive data_op := AppendToken (token_id : Z) | AddComputed (num_new_computed_tokens : Z).

Definition run_op (op : data_op) (d : SequenceData) : result SequenceData :=
  match op with
  | AppendToken t => Ok (append_token_id t d)
  | AddComputed n =>
      match update_num_computed_tokens n d with Ret _ d => Ok d | Raise e _ => Err e end
  end.
Fixpoint run_ops (ops : list data_op) (d : SequenceData) : result SequenceData :=
  match ops with [] => Ok d | op :: ops' => d ← run_op op d; run_ops ops' d end.

(** What operations change: tokens are added at the end and remembered. *)
Record grows (d d' : SequenceData) : Prop := {
  gr_prompt : _prompt_token_ids d' = _prompt_token_ids d;
  gr_cached : _num_cached_tokens d' = _num_cached_tokens d;
  gr_tokens : exists toks, _output_token_ids d' = _output_token_ids d ++ toks /\
    _cached_all_token_ids d' = _cached_all_token_ids d ++ toks /\
    _new_appended_tokens d' = _new_appended_tokens d ++ toks
}.

Lemma grows_refl d : grows d d.
Proof. split; [done..|]. exists []. by rewrite !app_nil_r. Qed.

Lemma grows_trans d d' d'' : grows d d' -> grows d' d'' -> grows d d''.
Proof.
  intros [P1 C1 (t1 & A1 & B1 & D1)] [P2 C2 (t2 & A2 & B2 & D2)]. split; [congruence..|].
  exists (t1 ++ t2). rewrite !app_assoc. by rewrite A2, B2, D2, A1, B1, D1.
Qed.

Lemma run_op_grows op d d' : run_op op d = Ok d' -> grows d d'.
Proof.
  destruct op as [t|n]; cbn [run_op].
  - intros [= <-]. split; [done..|]. by exists [t].
  - unfold update_num_computed_tokens, modify, get_state, py_assert, mbind, M_mbind, M_bind. cbn.
    assert (forall d0, _prompt_token_ids d0 = _prompt_token_ids d -> _num_cached_tokens d0 = _num_cached_tokens d ->
      _output_token_ids d0 = _output_token_ids d -> _cached_all_token_ids d0 = _cached_all_token_ids d ->
      _new_appended_tokens d0 = _new_appended_tokens d -> grows d d0) as Hsame.
    { intros d0 E1 E2 E3 E4 E5. split; [done..|]. exists []. by rewrite !app_nil_r. }
    destruct (_ <=? _); cbn; [|done]. destruct (_ =? _); cbn; intros [= <-]; by apply Hsame.
Qed.

Lemma run_ops_grows ops d d' : run_ops ops d = Ok d' -> grows d d'.
Proof.
  revert d. induction ops as [|op ops IH]; intros d; cbn [run_ops]; [intros [= <-]; apply grows_refl|].
  destruct (run_op op d) as [d1|] eqn:E; [|done]. cbn [mbind result_mbind]. intros H.
  eapply grows_trans; [by eapply run_op_grows|by apply IH].
Qed.

(** A worker that applies the delta has the driver's sequence: after any
    operations on a sequence whose new tokens were all sent, the delta applied
    to the worker's copy of the old sequence gives the new one, whose new tokens
    are again all sent. *)
Theorem v0_delta_roundtrip ops d d' :
  _new_appended_tokens d = [] -> run_ops ops d = Ok d' ->
  let (delta, sent) := get_delta_and_reset d' in
  apply_delta delta d = sent /\ _new_appended_tokens sent = [] /\
  _cached_all_token_ids sent = _cached_all_token_ids d'.
Proof.
  intros Hn Hr. destruct (run_ops_grows _ _ _ Hr) as [HP HC (toks & A & B & D)].
  rewrite Hn in D. cbn in D. cbn. split; [|done]. unfold apply_delta. cbn. by rewrite Hn, D, <- A, <- B, HP, HC.
Qed.

Lemma v0_delta_roundtrip_witness :
  exists d', run_ops [AddComputed 2; AppendToken 7; AddComputed 1] (new_data [5; 6] []) = Ok d' /\
  (let (delta, sent) := get_delta_and_reset d' in
   apply_delta delta (new_data [5; 6] []) = sent /\ _new_appended_tokens sent = [] /\
   _cached_all_token_ids sent = _cached_all_token_ids d').
Proof.
  eexists. split; [vm_compute; reflexivity|].
  refine (v0_delta_roundtrip [AddComputed 2; AppendToken 7; AddComputed 1] (new_data [5; 6] []) _ _ _);
    vm_compute; reflexivity.
Defined.
