(* ===== verification/V0Table.v ===== *)
(** The block table of a sequence of the V0 engine
    (src/vllm/core/block/block_table.py, and [BlockList] of common.py): the list
    of its blocks with the cached ids, allocation for a prompt, appending of
    tokens with look-ahead slots and sliding window, forking and freeing. *)

From Stdlib Require Import ZArith Lia.
From stdpp Require Import base strings numbers gmap list.
From S2P Require Import Prelude.
From S2P Require Import V0Block.

Open Scope list_scope.
Open Scope Z_scope.

(** [chunk_list] of vllm.utils. *)
Definition chunk_list {A} (l : list A) (chunk_size : Z) : list (list A) :=
  (fun i => slice i (i + chunk_size) l) <$> py_range 0 (len l) chunk_size.

(** [_blocks] and [_block_ids] are the two lists of the [BlockList]. *)
Record BlockTable := mkTable {
  _blocks : list ref;
  _block_ids : list nat;
  _max_block_sliding_window : option Z;
  _num_full_slots : Z
}.

Definition set_list f g (t : BlockTable) : BlockTable :=
  mkTable (f (_blocks t)) (g (_block_ids t)) (_max_block_sliding_window t) (_num_full_slots t).
Definition set_num_full_slots f (t : BlockTable) : BlockTable :=
  mkTable (_blocks t) (_block_ids t) (_max_block_sliding_window t) (f (_num_full_slots t)).

(** The operations of a table act on the allocator it shares with the others. *)
Definition state : Type := CpuGpuBlockAllocator * BlockTable.
Definition on_alloc {A} : M CpuGpuBlockAllocator A -> M state A := zoom fst (fun a s => (a, s.2)).
Definition on_table {A} : M BlockTable A -> M state A := zoom snd (fun t s => (s.1, t)).

Section table.
Context (block_size : Z) (recursion_limit : nat).

(** ** BlockList *)

Definition _block_id_of (block : ref) : M state (option nat) :=
  b ← on_alloc (deref block); mret (block_id b).

Definition _add_block_id (block_id : option nat) : M state unit :=
  match block_id with
  | None => raise AssertionError
  | Some i => on_table (modify (set_list id (fun ids => ids ++ [i])))
  end.

Definition _update_block_id (block_index : nat) (new_block_id : option nat) : M state unit :=
  match new_block_id with
  | None => raise AssertionError
  | Some i =>
      t ← gets snd;
      if (block_index <? length (_block_ids t))%nat
      then on_table (modify (set_list id <[block_index := i]>))
      else raise IndexError
  end.

Definition update (blocks : list ref) : M state unit :=
  on_table (modify (set_list (fun _ => blocks) (fun _ => [])));;
  for_each (fun block => i ← _block_id_of block; _add_block_id i) blocks.

(** [self._blocks[block_index]] *)
Definition get_item (block_index : nat) : M state ref :=
  t ← gets snd;
  match _blocks t !! block_index with Some block => mret block | None => raise IndexError end.

Definition set_item (block_index : nat) (new_block : ref) : M state unit :=
  t ← gets snd;
  (if (block_index <? length (_blocks t))%nat
   then on_table (modify (set_list <[block_index := new_block]> id))
   else raise IndexError);;
  i ← _block_id_of new_block;
  _update_block_id block_index i.

Definition list_append_token_ids (block_index : nat) (toks : list Z) : M state unit :=
  block ← get_item block_index;
  prev_block_id ← _block_id_of block;
  on_alloc (append_token_ids block_size block toks);;
  new_block_id ← _block_id_of block;
  if decide (prev_block_id = new_block_id) then mret tt
  else _update_block_id block_index new_block_id.

Definition list_append (new_block : ref) : M state unit :=
  on_table (modify (set_list (fun bs => bs ++ [new_block]) id));;
  i ← _block_id_of new_block;
  _add_block_id i.

(** ** BlockTable *)

Definition _is_allocated (t : BlockTable) : bool := 0 <? len (_blocks t).
Definition physical_block_ids (t : BlockTable) : list nat := _block_ids t.

Definition _get_num_token_ids : M state Z :=
  t ← gets snd;
  lens ← map_each (fun block => b ← on_alloc (deref block); mret (len (token_ids b))) (_blocks t);
  mret (foldr Z.add 0 lens).

(** The constructor: [BlockList] takes over the blocks, then the tokens in them
    are counted. *)
Definition init_table (blocks : list ref) (max_block_sliding_window : option Z) :
    M CpuGpuBlockAllocator BlockTable := fun a =>
  match (update blocks;;
         n ← _get_num_token_ids;
         on_table (modify (set_num_full_slots (fun _ => n))))
        (a, mkTable [] [] max_block_sliding_window 0) with
  | Ret _ (a', t) => Ret t a'
  | Raise e (a', _) => Raise e a'
  end.

Definition get_num_required_blocks (toks : list Z) (num_lookahead_slots : Z) : Z :=
  cdiv (len toks + num_lookahead_slots) block_size.

Definition _allocate_blocks_for_token_ids (prev : option ref) (toks : list Z) (device : Device) :
    M CpuGpuBlockAllocator (list ref) :=
  let chunks := chunk_list toks block_size in
  let block_token_ids := filter (fun c => len c = block_size) chunks in
  let tail_token_ids := filter (fun c => len c <> block_size) chunks in
  blocks ← (if len block_token_ids =? 0 then mret []
            else allocate_immutable_blocks block_size device prev block_token_ids);
  let prev := match last blocks with Some b => Some b | None => prev end in
  match tail_token_ids with
  | [] => mret blocks
  | [cur_token_ids] =>
      block ← allocate_mutable_block block_size device prev;
      append_token_ids block_size block cur_token_ids;;
      mret (blocks ++ [block])
  | _ => raise AssertionError
  end.

(** [allocate], which is always called for the GPU. *)
Definition allocate (toks : list Z) : M state unit :=
  t ← gets snd;
  py_assert (negb (_is_allocated t));;
  py_assert (negb (len toks =? 0));;
  blocks ← on_alloc (_allocate_blocks_for_token_ids None toks GPU);
  update blocks;;
  on_table (modify (set_num_full_slots (fun _ => len toks))).

Definition _num_empty_slots (t : BlockTable) : Z := len (_blocks t) * block_size - _num_full_slots t.

(** The body of the loop of [ensure_num_empty_slots]; [self._blocks[-1]] is the
    last block. *)
Definition append_block : M state unit :=
  t ← gets snd;
  match last (_blocks t) with
  | None => raise AssertionError
  | Some prev =>
      block ← on_alloc (allocate_mutable_block block_size GPU (Some prev));
      list_append block
  end.

Definition ensure_num_empty_slots (num_empty_slots : Z) : M state unit :=
  t ← gets snd;
  py_assert (_is_allocated t);;
  if num_empty_slots <=? _num_empty_slots t then mret tt
  else
    let slots_to_allocate := num_empty_slots - _num_empty_slots t in
    for_each (fun _ => append_block) (seq 0 (Z.to_nat (cdiv slots_to_allocate block_size))).

Definition _chunk_token_blocks_for_append (toks : list Z) (t : BlockTable) : list (list Z) :=
  if len toks =? 0 then []
  else
    let first_chunk_size := block_size - _num_full_slots t mod block_size in
    slice 0 first_chunk_size toks
      :: chunk_list (slice first_chunk_size (len toks) toks) block_size.

Definition get_num_blocks_touched_by_append_slots (toks : list Z) (num_lookahead_slots : Z)
    (t : BlockTable) : Z :=
  let num_token_ids := len toks + num_lookahead_slots in
  let first_chunk_size := block_size - _num_full_slots t mod block_size in
  1 + cdiv (num_token_ids - first_chunk_size) block_size.

(** The body of the loop that drops the blocks out of the sliding window; [is
    not null_block] compares objects. *)
Definition drop_block (null_block : ref) (idx : nat) : M state unit :=
  b ← get_item idx;
  if decide (b = null_block) then mret tt
  else
    on_alloc (free b);;
    set_item idx null_block.

Definition drop_blocks (num_computed_slots : option Z) : M state unit :=
  t ← gets snd;
  match _max_block_sliding_window t with
  | None => mret tt
  | Some max_blocks =>
      null_block ← on_alloc (allocate_or_get_null_block block_size);
      match num_computed_slots with
      | None => raise AssertionError
      | Some computed =>
          let end_block_idx := computed / block_size - max_blocks in
          for_each (drop_block null_block) (seq 0 (Z.to_nat end_block_idx))
      end
  end.

(** The loop that stores the chunks, from block [first_block_idx + i] on. *)
Fixpoint store_chunks (block_index : nat) (token_blocks : list (list Z)) : M state unit :=
  match token_blocks with
  | [] => mret tt
  | token_block :: rest =>
      list_append_token_ids block_index token_block;; store_chunks (S block_index) rest
  end.

Definition table_append_token_ids (toks : list Z) (num_lookahead_slots : Z)
    (num_computed_slots : option Z) : M state unit :=
  t ← gets snd;
  py_assert (_is_allocated t);;
  py_assert (0 <? len (_blocks t));;
  drop_blocks num_computed_slots;;
  ensure_num_empty_slots (len toks + num_lookahead_slots);;
  t ← gets snd;
  let first_block_idx := _num_full_slots t / block_size in
  store_chunks (Z.to_nat first_block_idx) (_chunk_token_blocks_for_append toks t);;
  on_table (modify (set_num_full_slots (fun n => n + len toks))).

Definition table_fork (t : BlockTable) : M CpuGpuBlockAllocator BlockTable :=
  py_assert (_is_allocated t);;
  match last (_blocks t) with
  | None => raise AssertionError
  | Some last_block =>
      forked_blocks ← fork block_size recursion_limit last_block;
      init_table forked_blocks (_max_block_sliding_window t)
  end.

Definition table_free : M state unit :=
  t ← gets snd;
  for_each (fun block => on_alloc (free block)) (_blocks t);;
  on_table (modify (set_list (fun _ => []) (fun _ => []))).

Definition get_unseen_token_ids (sequence_token_ids : list Z) (t : BlockTable) : list Z :=
  drop (Z.to_nat (_num_full_slots t)) sequence_token_ids.

Definition _get_all_token_ids : M state (list Z) :=
  t ← gets snd;
  toks ← map_each (fun block => b ← on_alloc (deref block); mret (token_ids b)) (_blocks t);
  mret (concat toks).

End table.
