(* ===== verification/V0Manager.v ===== *)
(** The block manager of the V0 engine, without prefix caching
    (src/vllm/core/block_manager.py, block/utils.py and the tracker of last
    accesses of block/prefix_caching_block.py). *)

From Stdlib Require Import ZArith Lia.
From stdpp Require Import base strings numbers gmap list.
From S2P Require Import Prelude.
From S2P Require Import V0Block.
From S2P Require Import V0Table.
From S2P Require Import V0Sequence.

Open Scope list_scope.
Open Scope Z_scope.

(** [AllocStatus] of src/vllm/core/interfaces.py. *)
Inductive AllocStatus := OK | LATER | NEVER.

#[export] Instance AllocStatus_eq_dec : EqDecision AllocStatus.
Proof. solve_decision. Defined.

(** The attributes that do not change.  [watermark_blocks] is
    [int(watermark * num_gpu_blocks)]. *)
Record ManagerConfig := mkManagerConfig {
  block_size : Z;
  num_total_gpu_blocks : Z;
  max_block_sliding_window : option Z;
  watermark_blocks : Z;
  recursion_limit : nat
}.

(** [_seq_last_access] belongs to the [LastAccessBlocksTracker]; no access is
    recorded without prefix caching. *)
Record Manager := mkManager {
  block_allocator : CpuGpuBlockAllocator;
  block_tables : gmap Z BlockTable;
  cross_block_tables : gmap string BlockTable;
  _seq_last_access : gset Z
}.

Definition set_block_allocator a m :=
  mkManager a (block_tables m) (cross_block_tables m) (_seq_last_access m).
Definition set_block_tables f m :=
  mkManager (block_allocator m) (f (block_tables m)) (cross_block_tables m) (_seq_last_access m).
Definition set_cross_block_tables f m :=
  mkManager (block_allocator m) (block_tables m) (f (cross_block_tables m)) (_seq_last_access m).
Definition set_seq_last_access f m :=
  mkManager (block_allocator m) (block_tables m) (cross_block_tables m) (f (_seq_last_access m)).

(** The number of blocks of the window, with the block the window ends in and
    the one it begins in. *)
Definition window_blocks (sliding_window : option Z) (block_size : Z) : option Z :=
  match sliding_window with
  | None => None
  | Some w => let num_blocks := w / block_size + 1 in Some (num_blocks + 1)
  end.

Definition init_manager (reserved_blocks num_gpu_blocks num_cpu_blocks : nat) : result Manager :=
  a ← create reserved_blocks num_gpu_blocks num_cpu_blocks; mret (mkManager a ∅ ∅ ∅).

(** ** LastAccessBlocksTracker *)

Definition add_seq (seq_id : Z) : M Manager unit :=
  m ← get_state;
  py_assert (negb (bool_decide (seq_id ∈ _seq_last_access m)));;
  modify (set_seq_last_access (fun t => {[seq_id]} ∪ t)).

Definition remove_seq (seq_id : Z) : M Manager unit :=
  m ← get_state;
  py_assert (bool_decide (seq_id ∈ _seq_last_access m));;
  modify (set_seq_last_access (fun t => t ∖ {[seq_id]})).

(** The naive allocator ignores accesses. *)
Definition update_seq_blocks_last_access (seq_id : Z) (block_ids : list nat) : M Manager unit :=
  m ← get_state; py_assert (bool_decide (seq_id ∈ _seq_last_access m)).

Definition on_allocator {A} : M CpuGpuBlockAllocator A -> M Manager A := zoom block_allocator set_block_allocator.

(** A method of [self.block_tables[seq_id]]. *)
Definition on_seq_table {A} (seq_id : Z) (op : M state A) : M Manager A := fun m =>
  match block_tables m !! seq_id with
  | None => Raise KeyError m
  | Some t =>
      match op (block_allocator m, t) with
      | Ret x (a, t) => Ret x (set_block_tables <[seq_id := t]> (set_block_allocator a m))
      | Raise e (a, t) => Raise e (set_block_tables <[seq_id := t]> (set_block_allocator a m))
      end
  end.

Definition lookup_table (seq_id : Z) (m : Manager) : result BlockTable :=
  match block_tables m !! seq_id with Some t => Ok t | None => Err KeyError end.

Section manager.
Context (cfg : ManagerConfig).

Definition check_no_caching_or_swa_for_blockmgr_encdec (g : SequenceGroup) : result unit :=
  if is_encoder_decoder g then
    match max_block_sliding_window cfg with
    | Some _ => Err NotImplementedError
    | None => mret tt
    end
  else mret tt.

(** ** Allocation *)

Definition can_allocate (g : SequenceGroup) (num_lookahead_slots : Z) (m : Manager) : result AllocStatus :=
  check_no_caching_or_swa_for_blockmgr_encdec g;;
  match get_seqs WAITING g with
  | [] => Err IndexError
  | seq :: _ =>
      let num_required_blocks :=
        get_num_required_blocks (block_size cfg) (seq_token_ids seq) num_lookahead_slots in
      let num_required_blocks :=
        match encoder_seq g with
        | Some encoder_seq =>
            num_required_blocks
            + get_num_required_blocks (block_size cfg) (seq_token_ids encoder_seq) 0
        | None => num_required_blocks
        end in
      let num_required_blocks :=
        match max_block_sliding_window cfg with
        | Some w => Z.min num_required_blocks w
        | None => num_required_blocks
        end in
      let num_free_gpu_blocks := get_num_free_blocks GPU (block_allocator m) in
      if num_total_gpu_blocks cfg - num_required_blocks <? watermark_blocks cfg then mret NEVER
      else if watermark_blocks cfg <=? num_free_gpu_blocks - num_required_blocks then mret OK
      else mret LATER
  end.

(** [_allocate_sequence]: a new table, filled unless the sequence is empty. *)
Definition _allocate_sequence (seq : Sequence) : M Manager BlockTable := fun m =>
  let t := mkTable [] [] (max_block_sliding_window cfg) 0 in
  if len (seq_token_ids seq) =? 0 then Ret t m
  else
    match allocate (block_size cfg) (seq_token_ids seq) (block_allocator m, t) with
    | Ret _ (a, t) => Ret t (set_block_allocator a m)
    | Raise e (a, _) => Raise e (set_block_allocator a m)
    end.

Definition allocate_group (g : SequenceGroup) : M Manager unit :=
  let waiting_seqs := get_seqs WAITING g in
  m ← get_state;
  py_assert (forallb (fun seq => bool_decide (block_tables m !! seq_id seq = None)) waiting_seqs);;
  match waiting_seqs with
  | [] => raise IndexError
  | seq :: others =>
      block_table ← _allocate_sequence seq;
      modify (set_block_tables <[seq_id seq := block_table]>);;
      add_seq (seq_id seq);;
      for_each (fun seq' =>
        forked ← on_allocator (table_fork (block_size cfg) (recursion_limit cfg) block_table);
        modify (set_block_tables <[seq_id seq' := forked]>);;
        add_seq (seq_id seq')) others;;
      m ← get_state;
      py_assert (bool_decide (cross_block_tables m !! request_id g = None));;
      lift_result (check_no_caching_or_swa_for_blockmgr_encdec g);;
      match encoder_seq g with
      | None => mret tt
      | Some encoder_seq =>
          block_table ← _allocate_sequence encoder_seq;
          modify (set_cross_block_tables <[request_id g := block_table]>)
      end
  end.

(** ** Appending *)

Definition touched_blocks (num_lookahead_slots : Z) (m : Manager) (seq : Sequence) : result Z :=
  block_table ← lookup_table (seq_id seq) m;
  mret (get_num_blocks_touched_by_append_slots (block_size cfg)
          (get_unseen_token_ids (seq_token_ids seq) block_table) num_lookahead_slots block_table).

Fixpoint sum_results {A} (f : A -> result Z) (l : list A) : result Z :=
  match l with
  | [] => mret 0
  | x :: l' => n ← f x; rest ← sum_results f l'; mret (n + rest)
  end.

Definition can_append_slots (g : SequenceGroup) (num_lookahead_slots : Z) (m : Manager) : result bool :=
  num_touched_blocks ← sum_results (touched_blocks num_lookahead_slots m) (get_seqs RUNNING g);
  let num_free_gpu_blocks := get_num_free_blocks GPU (block_allocator m) in
  mret (num_touched_blocks <=? num_free_gpu_blocks).

Definition append_slots (seq : Sequence) (num_lookahead_slots : Z) : M Manager (list (nat * nat)) :=
  t ← (m ← get_state; lift_result (lookup_table (seq_id seq) m));
  on_seq_table (seq_id seq)
    (table_append_token_ids (block_size cfg) (get_unseen_token_ids (seq_token_ids seq) t)
       num_lookahead_slots (Some (get_num_computed_tokens (data seq))));;
  on_allocator clear_copy_on_writes.

(** ** Freeing and forking *)

Definition free_seq (seq : Sequence) : M Manager unit :=
  m ← get_state;
  match block_tables m !! seq_id seq with
  | None => mret tt
  | Some t =>
      update_seq_blocks_last_access (seq_id seq) (physical_block_ids t);;
      remove_seq (seq_id seq);;
      on_seq_table (seq_id seq) table_free;;
      modify (set_block_tables (delete (seq_id seq)))
  end.

Definition free_cross (g : SequenceGroup) : M Manager unit := fun m =>
  match cross_block_tables m !! request_id g with
  | None => Ret tt m
  | Some t =>
      match table_free (block_allocator m, t) with
      | Ret _ (a, _) => Ret tt (set_cross_block_tables (delete (request_id g)) (set_block_allocator a m))
      | Raise e (a, t) => Raise e (set_cross_block_tables <[request_id g := t]> (set_block_allocator a m))
      end
  end.

Definition get_block_table (seq : Sequence) (m : Manager) : result (list nat) :=
  t ← lookup_table (seq_id seq) m; mret (physical_block_ids t).

Definition get_cross_block_table (g : SequenceGroup) (m : Manager) : result (list nat) :=
  match cross_block_tables m !! request_id g with
  | Some t => mret (physical_block_ids t)
  | None => Err AssertionError
  end.

Definition fork_seq (parent_seq child_seq : Sequence) : M Manager unit :=
  m ← get_state;
  match block_tables m !! seq_id parent_seq with
  | None => mret tt
  | Some src_block_table =>
      forked ← on_allocator (table_fork (block_size cfg) (recursion_limit cfg) src_block_table);
      modify (set_block_tables <[seq_id child_seq := forked]>);;
      add_seq (seq_id child_seq)
  end.

(** ** Swapping *)

(** The body of the loops of [swap_in] and [swap_out]. *)
Definition swap_seq (src_device dst_device : Device) (seq : Sequence) : M Manager (list (Z * Z)) :=
  t ← (m ← get_state; lift_result (lookup_table (seq_id seq) m));
  if len (_blocks t) =? 0 then mret []
  else
    seq_swap_mapping ← on_allocator (swap (block_size cfg) (_blocks t) src_device dst_device);
    on_seq_table (seq_id seq) (update (_blocks t));;
    map_each (fun p =>
      src ← on_allocator (get_physical_block_id src_device p.1);
      dst ← on_allocator (get_physical_block_id dst_device p.2);
      mret (src, dst)) seq_swap_mapping.

Definition swap_group (st : SequenceStatus) (src_device dst_device : Device) (g : SequenceGroup) :
    M Manager (list (Z * Z)) :=
  physical_block_id_mappings ← map_each (swap_seq src_device dst_device) (get_seqs st g);
  mret (concat physical_block_id_mappings).
Definition swap_in : SequenceGroup -> M Manager (list (Z * Z)) := swap_group SWAPPED CPU GPU.
Definition swap_out : SequenceGroup -> M Manager (list (Z * Z)) := swap_group RUNNING GPU CPU.

Definition _can_swap (g : SequenceGroup) (device : Device) (st : SequenceStatus)
    (num_lookahead_slots : Z) (m : Manager) : result AllocStatus :=
  touched ← sum_results (touched_blocks num_lookahead_slots m) (get_seqs st g);
  let blocks := concat ((fun seq => default [] (_blocks <$> block_tables m !! seq_id seq))
                        <$> get_seqs st g) in
  full ← (match get_num_full_blocks_touched (block_size cfg) blocks (block_allocator m) with
          | Ret n _ => Ok n
          | Raise e _ => Err e
          end);
  let num_blocks_touched := touched + full in
  let watermark := match device with GPU => watermark_blocks cfg | CPU => 0 end in
  if get_num_total_blocks device (block_allocator m) <? num_blocks_touched then mret NEVER
  else if watermark <=? get_num_free_blocks device (block_allocator m) - num_blocks_touched then mret OK
  else mret LATER.

Definition can_swap_in (g : SequenceGroup) (num_lookahead_slots : Z) : Manager -> result AllocStatus :=
  _can_swap g GPU SWAPPED num_lookahead_slots.
Definition can_swap_out (g : SequenceGroup) (m : Manager) : result bool :=
  alloc_status ← _can_swap g CPU RUNNING 0 m; mret (bool_decide (alloc_status = OK)).

End manager.
