(* ===== verification/V0BlockSpec.v ===== *)
(** What the blocks of the V0 engine guarantee: reference counts are the
    numbers of references, the free heap holds the blocks without one, and no
    block object is handed out twice; the operations of the allocator in terms
    of the lists of live objects and referenced ids. *)

From Stdlib Require Import ZArith Lia.
From stdpp Require Import base strings numbers gmap list sorting.
From S2P Require Import Prelude.
From S2P Require Import Heapq.
From S2P Require Import V0Block.

Open Scope list_scope.
Open Scope Z_scope.

(** ** The invariant *)

(** The objects of a pool are free or live. *)
Record pool_ok (live : list nat) (p : BlockPool) : Prop := {
  po_len : length (_pool p) = _pool_size p;
  po_ids : _free_ids p ++ live ≡ₚ seq 0 (_pool_size p)
}.

(** [ids] lists the references to blocks, of this allocator or of another. *)
Record count_ok (ids : list nat) (a : NaiveBlockAllocator) : Prop := {
  co_heap : heap_from 0 (_free_block_indices a);
  co_nodup : NoDup (_free_block_indices a);
  co_free b : b ∈ _free_block_indices a <-> b ∈ _all_block_indices a /\ b ∉ ids;
  co_count b : _refcounts a !! b = if decide (b ∈ _all_block_indices a) then Some (occ b ids) else None
}.

Record alloc_ok (live : Device -> list nat) (ids : list nat) (s : CpuGpuBlockAllocator) : Prop := {
  ao_pool d : pool_ok (live d) (_block_pool (allocator_of d s));
  ao_count d : count_ok ids (allocator_of d s);
  ao_size d : (exists b, b ∈ _all_block_indices (allocator_of d s)) ->
    (0 < _pool_size (_block_pool (allocator_of d s)))%nat;
  ao_disjoint b : b ∈ _all_block_indices (_gpu_allocator s) ->
    b ∈ _all_block_indices (_cpu_allocator s) -> False;
  ao_known b : b ∈ ids -> exists d, b ∈ _all_block_indices (allocator_of d s)
}.

Definition nfree (d : Device) (s : CpuGpuBlockAllocator) : nat :=
  length (_free_block_indices (allocator_of d s)).
Definition known (d : Device) (s : CpuGpuBlockAllocator) : gset nat :=
  _all_block_indices (allocator_of d s).
Definition cows (d : Device) (s : CpuGpuBlockAllocator) : list (nat * nat) :=
  _copy_on_writes (allocator_of d s).

Definition add_live (d : Device) (i : nat) (live : Device -> list nat) (d' : Device) : list nat :=
  if decide (d' = d) then i :: live d' else live d'.

(** What no operation on blocks changes, and what it leaves of the objects. *)
Record keeps (s s' : CpuGpuBlockAllocator) : Prop := {
  kp_known d : known d s' = known d s;
  kp_null : _null_block s' = _null_block s;
  kp_swap : _swap_mapping s' = _swap_mapping s
}.

Definition same_on (live : Device -> list nat) (s s' : CpuGpuBlockAllocator) : Prop :=
  forall d i, i ∈ live d -> pool_block d i s' = pool_block d i s.

Definition same_objects (s s' : CpuGpuBlockAllocator) : Prop :=
  forall d i, pool_block d i s' = pool_block d i s.

Lemma keeps_refl s : keeps s s.
Proof. by split. Qed.

Lemma keeps_trans s s' s'' : keeps s s' -> keeps s' s'' -> keeps s s''.
Proof.
  intros [a b c] [a' b' c']. split; [intros d; by rewrite a', a|by rewrite b', b|by rewrite c', c].
Qed.

Lemma same_on_trans live s s' s'' : same_on live s s' -> same_on live s' s'' -> same_on live s s''.
Proof. intros H1 H2 d i Hi. rewrite H2 by done. by apply H1. Qed.

Lemma same_on_sub live live' s s' :
  (forall d i, i ∈ live' d -> i ∈ live d) -> same_on live s s' -> same_on live' s s'.
Proof. intros Hs H d i Hi. by apply H, Hs. Qed.

Lemma same_objects_on live s s' : same_objects s s' -> same_on live s s'.
Proof. by intros H d i _. Qed.

Create HintDb v0 discriminated.
#[export] Hint Resolve keeps_refl same_objects_on : v0.

(** ** Permutations *)

Lemma count_ok_perm ids ids' a : ids ≡ₚ ids' -> count_ok ids a -> count_ok ids' a.
Proof.
  intros Hp [H1 H2 H3 H4]. split; [done..| |].
  - intros b. by rewrite H3, Hp.
  - intros b. by rewrite H4, (occ_perm _ _ _ Hp).
Qed.

Lemma pool_ok_perm live live' p : live ≡ₚ live' -> pool_ok live p -> pool_ok live' p.
Proof. intros Hp [H1 H2]. split; [done|]. by rewrite <- Hp. Qed.

Lemma alloc_ok_perm live live' ids ids' s :
  (forall d, live d ≡ₚ live' d) -> ids ≡ₚ ids' -> alloc_ok live ids s -> alloc_ok live' ids' s.
Proof.
  intros Hl Hi [H1 H2 H3 H4 H5]. split; [|intros d; eapply count_ok_perm; [exact Hi|apply H2]|done..|].
  - intros d. eapply pool_ok_perm; [apply Hl|apply H1].
  - intros b. rewrite <- Hi. apply H5.
Qed.

(** References to blocks of the other allocator do not count. *)
Lemma count_ok_other b ids a :
  b ∉ _all_block_indices a -> count_ok (b :: ids) a <-> count_ok ids a.
Proof.
  intros Hb. split; intros [H1 H2 H3 H4]; split; try done.
  - intros c. rewrite H3, elem_of_cons. split; [tauto|]. intros [? ?]. split; [done|].
    intros [->|]; tauto.
  - intros c. rewrite H4. case_decide as E; [|done]. rewrite occ_cons, decide_False by congruence. done.
  - intros c. rewrite H3, elem_of_cons. split; [|tauto]. intros [? ?]. split; [done|].
    intros [->|]; tauto.
  - intros c. rewrite H4. case_decide as E; [|done]. rewrite occ_cons, decide_False by congruence. done.
Qed.

Lemma known_other live ids s d d' b :
  alloc_ok live ids s -> b ∈ known d s -> d' <> d -> b ∉ known d' s.
Proof.
  intros H Hb Hd Hb'. destruct d, d'; try done.
  - by apply (ao_disjoint _ _ _ H b).
  - by apply (ao_disjoint _ _ _ H b).
Qed.

(** ** The count of free blocks and ids *)

Lemma live_NoDup live ids s d : alloc_ok live ids s -> NoDup (live d).
Proof.
  intros H. pose proof (po_ids _ _ (ao_pool _ _ _ H d)) as Hp.
  assert (NoDup (_free_ids (_block_pool (allocator_of d s)) ++ live d)) as [_ [_ Hn]]%NoDup_app.
  { rewrite Hp. apply NoDup_seq. }
  done.
Qed.

Lemma live_lt live p i : pool_ok live p -> i ∈ live -> (i < length (_pool p))%nat.
Proof.
  intros [H1 H2] Hi. assert (i ∈ seq 0 (_pool_size p)) as Hs by (rewrite <- H2; set_solver).
  apply elem_of_seq in Hs. lia.
Qed.

Lemma allocator_of_set d a s : allocator_of d (set_allocator d a s) = a.
Proof. by destruct d. Qed.
Lemma allocator_of_set_ne d d' a s : d' <> d -> allocator_of d' (set_allocator d a s) = allocator_of d' s.
Proof. by destruct d, d'. Qed.

Lemma wp_on {A} d (m : M NaiveBlockAllocator A) (Q : A -> CpuGpuBlockAllocator -> Prop) s :
  wp m (fun x a => Q x (set_allocator d a s)) (allocator_of d s) -> wp (on d m) Q s.
Proof. apply wp_zoom. Qed.

(** ** Ids *)

(** All but the counts and the free heap stays. *)
Record counts_only (a a' : NaiveBlockAllocator) : Prop := {
  cu_all : _all_block_indices a' = _all_block_indices a;
  cu_cows : _copy_on_writes a' = _copy_on_writes a;
  cu_pool : _block_pool a' = _block_pool a
}.

Lemma wp_allocate_naive ids a :
  count_ok ids a -> _free_block_indices a <> [] ->
  wp _allocate_block_id (fun b a' =>
    b ∈ _free_block_indices a /\ count_ok (b :: ids) a' /\ counts_only a a' /\
    length (_free_block_indices a) = S (length (_free_block_indices a'))) a.
Proof.
  intros [H1 H2 H3 H4] Hne. unfold _allocate_block_id. wp_steps.
  destruct (heappop_spec _ H1 Hne) as (b & h & -> & Hp & Hh & Hmin).
  assert (b ∈ _free_block_indices a) as Hb by (rewrite Hp; set_solver).
  destruct (proj1 (H3 b) Hb) as [Hall Hids].
  wp_steps. unfold on_counter, incr. wp_steps. cbn [_refcounts set_free].
  rewrite H4, decide_True by done. assert (occ b ids = 0) as Ho.
  { pose proof (occ_nonneg b ids). pose proof (proj1 (occ_pos_iff b ids)).
    destruct (decide (0 < occ b ids)); [tauto|lia]. }
  rewrite Ho. apply wp_bind, wp_assert; [done|]. wp_steps.
  rewrite Hp in H2. apply NoDup_cons in H2 as [Hbh Hnd].
  split_and!; [done| |by split|by rewrite Hp].
  split; cbn [_free_block_indices _all_block_indices _refcounts set_refcounts set_free]; [done|done| |].
  - intros c. rewrite elem_of_cons. split.
    + intros Hc. destruct (proj1 (H3 c)) as [? ?]; [rewrite Hp; set_solver|].
      split; [done|]. intros [->|]; tauto.
    + intros [Hc Hn]. assert (c ∈ _free_block_indices a) as Hf by (apply H3; tauto).
      rewrite Hp, elem_of_cons in Hf. tauto.
  - intros c. rewrite occ_cons. destruct (decide (b = c)) as [<-|Hbc].
    + by rewrite lookup_insert_eq, decide_True, Ho.
    + rewrite lookup_insert_ne by done. by rewrite H4.
Qed.

Lemma wp_free_naive b ids a :
  count_ok (b :: ids) a -> b ∈ _all_block_indices a ->
  wp (free_block_id b) (fun _ a' => count_ok ids a' /\ counts_only a a' /\
    length (_free_block_indices a') =
      (length (_free_block_indices a) + (if decide (b ∈ ids) then 0 else 1))%nat) a.
Proof.
  intros [H1 H2 H3 H4] Hb. unfold free_block_id, on_counter, decr. wp_steps.
  rewrite H4, decide_True by done. rewrite occ_cons, decide_True by done.
  pose proof (occ_nonneg b ids) as Hpos. pose proof (occ_pos_iff b ids) as Hin.
  apply wp_bind, wp_assert; [lia|]. wp_steps.
  replace (1 + occ b ids - 1) with (occ b ids) by lia.
  assert (b ∉ _free_block_indices a) as Hnf by (rewrite H3; set_solver).
  assert (forall c, <[b := occ b ids]> (_refcounts a) !! c =
    if decide (c ∈ _all_block_indices a) then Some (occ c ids) else None) as Hc.
  { intros c. destruct (decide (b = c)) as [<-|Hbc].
    - by rewrite lookup_insert_eq, decide_True.
    - rewrite lookup_insert_ne by done. rewrite H4. case_decide; [|done]. by rewrite occ_cons, decide_False. }
  destruct (occ b ids =? 0) eqn:E; wp_steps.
  - destruct (heappush_spec b _ H1) as [Hh Hp].
    split_and!; [split; cbn [_free_block_indices _all_block_indices _refcounts set_refcounts set_free]; [done| | |apply Hc]|by split|cbn; rewrite Hp, decide_False by (rewrite <- Hin; lia); simpl; lia].
    + rewrite Hp. by apply NoDup_cons.
    + intros c. rewrite Hp, elem_of_cons, H3, elem_of_cons. split.
      * intros [->|[? ?]]; [|tauto]. split; [done|]. rewrite <- Hin. lia.
      * intros [? ?]. destruct (decide (c = b)); [by left|right; tauto].
  - rewrite decide_True by (apply Hin; lia).
    split_and!; [split; cbn [_free_block_indices _all_block_indices _refcounts set_refcounts set_free]; [done..| |apply Hc]|by split|cbn; lia].
    intros c. rewrite H3, elem_of_cons. split; [tauto|]. intros [? ?]. split; [done|].
    intros [->|]; [|done]. apply Z.eqb_neq in E. assert (b ∈ ids) by (apply Hin; lia). done.
Qed.

(** A change of the counts of [d] that leaves the rest of the allocators. *)
Lemma alloc_ok_counts live ids ids' d a s :
  alloc_ok live ids s -> counts_only (allocator_of d s) a -> count_ok ids' a ->
  (forall d', d' <> d -> count_ok ids' (allocator_of d' s)) ->
  (forall b, b ∈ ids' -> exists d', b ∈ known d' s) ->
  alloc_ok live ids' (set_allocator d a s).
Proof.
  intros [H1 H2 H3 H4 H5] [A1 A2 A3] Hc Ho Hk.
  assert (forall d', _all_block_indices (allocator_of d' (set_allocator d a s)) = known d' s) as Hall.
  { intros d'. destruct (decide (d' = d)) as [->|]; [by rewrite allocator_of_set|].
    by rewrite allocator_of_set_ne. }
  assert (forall d', _block_pool (allocator_of d' (set_allocator d a s)) = _block_pool (allocator_of d' s)) as Hpool.
  { intros d'. destruct (decide (d' = d)) as [->|]; [by rewrite allocator_of_set|].
    by rewrite allocator_of_set_ne. }
  split.
  - intros d'. by rewrite Hpool.
  - intros d'. destruct (decide (d' = d)) as [->|]; [by rewrite allocator_of_set|].
    rewrite allocator_of_set_ne by done. by apply Ho.
  - intros d'. rewrite Hall, Hpool. apply H3.
  - intros b. pose proof (Hall GPU) as E1. pose proof (Hall CPU) as E2. cbn [allocator_of] in E1, E2.
    rewrite E1, E2. apply H4.
  - intros b Hb. destruct (Hk b Hb) as [d' Hd]. exists d'. by rewrite Hall.
Qed.

Lemma set_allocator_frame d a s :
  counts_only (allocator_of d s) a ->
  keeps s (set_allocator d a s) /\ same_objects s (set_allocator d a s) /\
  (forall d', cows d' (set_allocator d a s) = cows d' s) /\
  (forall d', d' <> d -> nfree d' (set_allocator d a s) = nfree d' s).
Proof.
  intros [A1 A2 A3]. unfold known, cows, nfree.
  split_and!; [split| | |].
  - intros d'. unfold known. destruct (decide (d' = d)) as [->|]; [by rewrite allocator_of_set|].
    by rewrite allocator_of_set_ne.
  - by destruct d.
  - by destruct d.
  - intros d' i. unfold pool_block. destruct (decide (d' = d)) as [->|].
    + by rewrite allocator_of_set, A3.
    + by rewrite allocator_of_set_ne.
  - intros d'. destruct (decide (d' = d)) as [->|]; [by rewrite allocator_of_set|].
    by rewrite allocator_of_set_ne.
  - intros d' Hd. by rewrite allocator_of_set_ne.
Qed.

(** What an operation on ids leaves as it is. *)
Record id_step (d : Device) (s s' : CpuGpuBlockAllocator) : Prop := {
  is_keeps : keeps s s';
  is_objects : same_objects s s';
  is_cows d' : cows d' s' = cows d' s;
  is_other d' : d' <> d -> nfree d' s' = nfree d' s
}.

Lemma wp_allocate_block_id live ids s d :
  alloc_ok live ids s -> (0 < nfree d s)%nat ->
  wp (on d _allocate_block_id) (fun b s' =>
    b ∈ known d s /\ (b ∉ ids) /\ alloc_ok live (b :: ids) s' /\ id_step d s s' /\
    nfree d s = S (nfree d s')) s.
Proof.
  intros H Hf. apply wp_on. pose proof (ao_count _ _ _ H d) as Hc.
  eapply wp_mono; [apply (wp_allocate_naive ids)|].
  { done. } { intros E. unfold nfree in Hf. rewrite E in Hf. simpl in Hf. lia. }
  intros b a (Hb & Hc' & Hu & Hl). apply (co_free _ _ Hc) in Hb as [Hb Hids].
  destruct (set_allocator_frame _ _ _ Hu) as (F1 & F2 & F3 & F4).
  split_and!; [done|done| |by split|].
  - apply (alloc_ok_counts live ids); [done..| |].
    + intros d' Hd. apply count_ok_other; [by eapply known_other|]. apply (ao_count _ _ _ H).
    + intros c [->|Hin]%elem_of_cons; [by exists d|]. by apply (ao_known _ _ _ H).
  - unfold nfree in *. by rewrite allocator_of_set.
Qed.

Lemma wp_free_id live b ids s d :
  alloc_ok live (b :: ids) s -> b ∈ known d s ->
  wp (on d (free_block_id b)) (fun _ s' =>
    alloc_ok live ids s' /\ id_step d s s' /\
    nfree d s' = (nfree d s + (if decide (b ∈ ids) then 0 else 1))%nat) s.
Proof.
  intros H Hb. apply wp_on. pose proof (ao_count _ _ _ H d) as Hc.
  eapply wp_mono; [by apply (wp_free_naive b ids)|].
  intros [] a (Hc' & Hu & Hl).
  destruct (set_allocator_frame _ _ _ Hu) as (F1 & F2 & F3 & F4).
  split_and!; [|by split|].
  - apply (alloc_ok_counts live (b :: ids)); [done..| |].
    + intros d' Hd. apply (count_ok_other b); [by eapply known_other|]. apply (ao_count _ _ _ H).
    + intros c Hin. apply (ao_known _ _ _ H). set_solver.
  - unfold nfree in *. by rewrite allocator_of_set.
Qed.

(** ** Objects *)

Definition pool_of (d : Device) (s : CpuGpuBlockAllocator) : BlockPool := _block_pool (allocator_of d s).
Definition set_pool (d : Device) (p : BlockPool) (s : CpuGpuBlockAllocator) : CpuGpuBlockAllocator :=
  set_allocator d (set_block_pool p (allocator_of d s)) s.

Lemma wp_on_block_pool {A} d (m : M BlockPool A) (Q : A -> CpuGpuBlockAllocator -> Prop) s :
  wp m (fun x p => Q x (set_pool d p s)) (pool_of d s) -> wp (on_pool d m) Q s.
Proof. intros H. apply wp_on, wp_zoom. exact H. Qed.

(** What an operation on objects leaves as it is. *)
Record pool_step (s s' : CpuGpuBlockAllocator) : Prop := {
  ps_keeps : keeps s s';
  ps_cows d : cows d s' = cows d s;
  ps_nfree d : nfree d s' = nfree d s
}.

Lemma pool_step_trans s s' s'' : pool_step s s' -> pool_step s' s'' -> pool_step s s''.
Proof.
  intros [a b c] [a' b' c']. split; [by eapply keeps_trans|..]; intros d; [by rewrite b', b|by rewrite c', c].
Qed.

Lemma set_pool_step d p s : pool_step s (set_pool d p s).
Proof. split; [split| |]; try (intros d'); by destruct d; try destruct d'. Qed.

Lemma pool_block_set d p s d' i :
  pool_block d' i (set_pool d p s) = if decide (d' = d) then _pool p !! i else pool_block d' i s.
Proof. unfold pool_block, set_pool. by destruct d, d'. Qed.

Lemma alloc_ok_set_pool live live' ids d p s :
  alloc_ok live ids s -> pool_ok (live' d) p -> (forall d', d' <> d -> live' d' = live d') ->
  (_pool_size (pool_of d s) <= _pool_size p)%nat -> alloc_ok live' ids (set_pool d p s).
Proof.
  intros [H1 H2 H3 H4 H5] Hp Hl Hs. split.
  - intros d'. destruct (decide (d' = d)) as [->|Hd].
    + unfold set_pool. by rewrite allocator_of_set.
    + unfold set_pool. rewrite allocator_of_set_ne by done. rewrite Hl by done. apply H1.
  - intros d'. specialize (H2 d') as [C1 C2 C3 C4].
    split; unfold set_pool; destruct d, d'; assumption.
  - intros d'. specialize (H3 d'). destruct (decide (d' = d)) as [->|Hd].
    + unfold set_pool. rewrite allocator_of_set. intros Hb. specialize (H3 Hb).
      unfold pool_of in Hs. simpl. lia.
    + unfold set_pool. by rewrite allocator_of_set_ne.
  - intros b. unfold set_pool. destruct d; apply H4.
  - intros b Hb. destruct (H5 b Hb) as [d' Hd]. exists d'. unfold set_pool. by destruct d, d'.
Qed.

(** An object is overwritten. *)
Record put_step (d : Device) (i : nat) (b : Block) (s s' : CpuGpuBlockAllocator) : Prop := {
  pt_step : pool_step s s';
  pt_at : pool_block d i s' = Some b;
  pt_other d' j : (d', j) <> (d, i) -> pool_block d' j s' = pool_block d' j s
}.

Lemma wp_put_block live ids s d i b b' :
  alloc_ok live ids s -> pool_block d i s = Some b' ->
  wp (put_block d i b) (fun _ s' => alloc_ok live ids s' /\ put_step d i b s s') s.
Proof.
  intros H Hi. unfold put_block. apply wp_on_block_pool. wp_steps.
  assert (i < length (_pool (pool_of d s)))%nat as Hlt by by eapply lookup_lt_Some.
  split.
  - eapply alloc_ok_set_pool; [done| |done|done].
    destruct (ao_pool _ _ _ H d) as [P1 P2]. split; [|done]. cbn. by rewrite length_insert.
  - split; [apply set_pool_step| |].
    + rewrite pool_block_set, decide_True by done. cbn. by apply list_lookup_insert_eq.
    + intros d' j Hne. rewrite pool_block_set. case_decide as E; [|done]. subst d'. cbn.
      rewrite list_lookup_insert_ne by congruence. done.
Qed.

Lemma wp_deref d i b (Q : Block -> CpuGpuBlockAllocator -> Prop) s :
  pool_block d i s = Some b -> Q b s -> wp (deref (Obj d i)) Q s.
Proof. unfold deref, wp. by intros ->. Qed.

Lemma wp_write_block_id live ids s d i b v :
  alloc_ok live ids s -> pool_block d i s = Some b ->
  wp (write_block_id (Obj d i) v)
    (fun _ s' => alloc_ok live ids s' /\ put_step d i (set_block_id v b) s s') s.
Proof.
  intros H Hi. cbn [write_block_id]. apply wp_bind. eapply wp_deref; [done|].
  by eapply wp_put_block.
Qed.

(** *** The pool of objects *)

Lemma increase_pool_ok live p :
  pool_ok live p -> pool_ok live (increase_pool p) /\
  (forall i, i ∈ live -> _pool (increase_pool p) !! i = _pool p !! i) /\
  (_pool_size (increase_pool p) = _pool_size p * 2)%nat /\
  _free_ids (increase_pool p) = _free_ids p ++ seq (_pool_size p) (_pool_size p).
Proof.
  intros [H1 H2]. unfold increase_pool. cbn [_pool _pool_size _free_ids].
  replace (_pool_size p * 2 - _pool_size p)%nat with (_pool_size p) by lia.
  split_and!; [split|..]; cbn [_pool _pool_size _free_ids].
  - rewrite length_app, length_replicate, H1. lia.
  - replace (_pool_size p * 2)%nat with (_pool_size p + _pool_size p)%nat by lia.
    rewrite seq_app, <- H2. solve_Permutation.
  - intros i Hi. apply lookup_app_l. eapply live_lt; [by split|done].
  - done.
  - done.
Qed.

Lemma wp_pop_free_id live p :
  pool_ok live p -> (0 < _pool_size p)%nat ->
  wp pop_free_id (fun i p' =>
    pool_ok (i :: live) p' /\ (i ∉ live) /\ (_pool_size p <= _pool_size p')%nat /\
    is_Some (_pool p' !! i) /\ (forall j, j ∈ live -> _pool p' !! j = _pool p !! j)) p.
Proof.
  intros H Hs. unfold pop_free_id. wp_steps.
  eapply (wp_mono _ (fun _ p' => pool_ok live p' /\ _free_ids p' <> [] /\
    (_pool_size p <= _pool_size p')%nat /\ (forall j, j ∈ live -> _pool p' !! j = _pool p !! j))).
  - destruct (_free_ids p) as [|i l] eqn:E; wp_steps.
    + destruct (increase_pool_ok live p H) as (P1 & P2 & P3 & P4).
      rewrite E in P4. destruct (_pool_size p) as [|n] eqn:En; [lia|].
      apply wp_assert; [by rewrite P4|]. split_and!; [done|by rewrite P4|lia|done].
    + split_and!; [done|by rewrite E|lia|done].
  - intros [] p' (P1 & P2 & P3 & P4). wp_steps.
    destruct (_free_ids p') as [|i rest] eqn:E; [done|]. wp_steps. cbn [_pool _pool_size].
    destruct P1 as [L1 L2]. rewrite E in L2.
    assert (pool_ok (i :: live) (mkPool (_pool_size p') rest (_pool p'))) as Hok.
    { split; cbn; [done|]. rewrite <- L2. solve_Permutation. }
    assert (NoDup ((i :: rest) ++ live)) as Hnd by (rewrite L2; apply NoDup_seq).
    apply NoDup_app in Hnd as (_ & Hd & _).
    split_and!; [done|apply Hd; set_solver|lia| |done].
    apply lookup_lt_is_Some. pose proof (live_lt _ _ i Hok) as Hlt. cbn in Hlt. apply Hlt. set_solver.
Qed.

(** An operation that takes a new object [i] of [d] and leaves the live ones. *)
Record new_step (d : Device) (i : nat) (b : Block) (live : Device -> list nat)
    (s s' : CpuGpuBlockAllocator) : Prop := {
  ns_keeps : keeps s s';
  ns_new : i ∉ live d;
  ns_at : pool_block d i s' = Some b;
  ns_live : same_on live s s'
}.

Lemma add_live_self d i live : add_live d i live d = i :: live d.
Proof. unfold add_live. by rewrite decide_True. Qed.
Lemma add_live_other d i live d' : d' <> d -> add_live d i live d' = live d'.
Proof. intros H. unfold add_live. by rewrite decide_False. Qed.
Lemma elem_of_add_live d i live d' j :
  j ∈ add_live d i live d' <-> (d' = d /\ j = i) \/ j ∈ live d'.
Proof. unfold add_live. case_decide; set_solver. Qed.

(** ** Runs of blocks *)

Definition gpu_only (L : list nat) (d : Device) : list nat :=
  match d with GPU => L | CPU => [] end.

Lemma gpu_only_add i L d : add_live GPU i (gpu_only L) d = gpu_only (i :: L) d.
Proof. by destruct d. Qed.

(** The objects [L] of the GPU pool are linked, after [prev], refer to the
    blocks [B] and hold the tokens [C]. *)
Fixpoint segment (s : CpuGpuBlockAllocator) (prev : option ref) (L B : list nat) (C : list (list Z)) : Prop :=
  match L, B, C with
  | [], [], [] => True
  | i :: L', b :: B', c :: C' =>
      pool_block GPU i s = Some (mkBlock prev c (Some b)) /\ segment s (Some (Obj GPU i)) L' B' C'
  | _, _, _ => False
  end.

Definition last_ref (prev : option ref) (L : list nat) : option ref :=
  match last L with Some i => Some (Obj GPU i) | None => prev end.

Lemma segment_length s prev L B C : segment s prev L B C -> length B = length L /\ length C = length L.
Proof.
  revert prev B C. induction L as [|i L IH]; intros prev [|b B] [|c C]; simpl; try done.
  intros [_ H]. destruct (IH _ _ _ H) as [-> ->]. done.
Qed.

Lemma segment_frame s s' prev L B C :
  (forall i, i ∈ L -> pool_block GPU i s' = pool_block GPU i s) ->
  segment s prev L B C -> segment s' prev L B C.
Proof.
  revert prev B C. induction L as [|i L IH]; intros prev [|b B] [|c C] Hs; simpl; try done.
  intros [Hi H]. split; [rewrite Hs; set_solver|]. apply IH; [set_solver|done].
Qed.

Lemma last_ref_cons prev i L : last_ref prev (i :: L) = last_ref (Some (Obj GPU i)) L.
Proof. unfold last_ref. rewrite last_cons. by destruct (last L). Qed.

Lemma last_ref_snoc prev L i : last_ref prev (L ++ [i]) = Some (Obj GPU i).
Proof. unfold last_ref. by rewrite last_snoc. Qed.

Lemma segment_app s prev L1 L2 B1 B2 C1 C2 :
  length B1 = length L1 -> length C1 = length L1 ->
  segment s prev (L1 ++ L2) (B1 ++ B2) (C1 ++ C2) <->
  segment s prev L1 B1 C1 /\ segment s (last_ref prev L1) L2 B2 C2.
Proof.
  revert prev B1 C1. induction L1 as [|i L1 IH]; intros prev [|b B1] [|c C1] HB HC; try done.
  - simpl. tauto.
  - cbn [segment app]. rewrite IH by (simpl in *; lia). rewrite last_ref_cons. tauto.
Qed.

Lemma segment_snoc s prev L i B b C c :
  segment s prev L B C -> pool_block GPU i s = Some (mkBlock (last_ref prev L) c (Some b)) ->
  segment s prev (L ++ [i]) (B ++ [b]) (C ++ [c]).
Proof.
  intros H Hi. destruct (segment_length _ _ _ _ _ H). apply segment_app; [done..|].
  split; [done|]. by split.
Qed.

Lemma segment_lookup s prev L B C j i :
  segment s prev L B C -> L !! j = Some i ->
  exists p b c, B !! j = Some b /\ C !! j = Some c /\ pool_block GPU i s = Some (mkBlock p c (Some b)).
Proof.
  revert prev B C j. induction L as [|i' L IH]; intros prev [|b B] [|c C] j; simpl; try done.
  intros [Hi H]. destruct j as [|j]; simpl; [intros [= ->]; eauto 10|]. intros Hj. by eapply IH.
Qed.

(** One object of a run changes its block and its tokens. *)
Lemma segment_update s s' prev L B C j i p b c b' c' :
  segment s prev L B C -> NoDup L -> L !! j = Some i ->
  pool_block GPU i s = Some (mkBlock p c (Some b)) ->
  pool_block GPU i s' = Some (mkBlock p c' (Some b')) ->
  (forall k, k ∈ L -> k <> i -> pool_block GPU k s' = pool_block GPU k s) ->
  segment s' prev L (<[j := b']> B) (<[j := c']> C).
Proof.
  revert prev B C j. induction L as [|i' L IH]; intros prev [|b0 B] [|c0 C] j; try done.
  intros [Hi H] [Hn Hnd]%NoDup_cons Hj Hb Hb' Ho. destruct j as [|j]; simpl in Hj.
  - injection Hj as ->. rewrite Hi in Hb. injection Hb as -> -> ->. split; [done|].
    eapply segment_frame; [|done]. intros k Hk. apply Ho; set_solver.
  - split.
    + rewrite Ho; [done|set_solver|]. intros ->. apply Hn. by eapply list_elem_of_lookup_2.
    + eapply IH; [done..|]. intros k Hk. apply Ho. set_solver.
Qed.

(** ** The null block *)

(** The block behind the [NullBlock], once there is one, is among the others. *)
Definition null_in (R ids : list nat) (s : CpuGpuBlockAllocator) : Prop :=
  match _null_block s with
  | None => True
  | Some (Obj GPU i) => exists b, i ∈ R /\ b ∈ ids /\ b ∈ known GPU s /\
      pool_block GPU i s = Some (mkBlock None [] (Some b))
  | _ => False
  end.

Definition null_id (s : CpuGpuBlockAllocator) : nat :=
  match _null_block s with
  | Some (Obj d i) => default 0%nat (pool_block d i s ≫= block_id)
  | _ => 0%nat
  end.

Lemma null_in_frame R ids s s' :
  keeps s s' -> same_on (gpu_only R) s s' -> null_in R ids s -> null_in R ids s' /\ null_id s' = null_id s.
Proof.
  intros K O. unfold null_in, null_id. rewrite (kp_null _ _ K).
  destruct (_null_block s) as [[[] i|]|]; try done.
  intros (b & Hi & Hb & Hk & E). rewrite (O GPU i) by done. split; [|done].
  exists b. rewrite (kp_known _ _ K). by split_and!.
Qed.

Lemma null_in_sub R R' ids ids' s :
  (forall i, i ∈ R -> i ∈ R') -> (forall b, b ∈ ids -> b ∈ ids') -> null_in R ids s -> null_in R' ids' s.
Proof.
  unfold null_in. intros HR Hi. destruct (_null_block s) as [[[] i|]|]; try done.
  intros (b & ? & ? & ? & ?). exists b. split_and!; auto.
Qed.

Section blocks.
Context (bs : Z) (Hbs : 0 < bs).

Lemma wp_append_no_cow live ids s d i b toks :
  alloc_ok live ids s -> pool_block d i s = Some b -> len (token_ids b) + len toks <= bs ->
  wp (_append_token_ids_no_cow bs d i toks) (fun _ s' =>
    alloc_ok live ids s' /\ put_step d i (set_token_ids (fun l => l ++ toks) b) s s') s.
Proof.
  intros H Hi Hl. unfold _append_token_ids_no_cow. destruct (len toks =? 0) eqn:E.
  - assert (toks = []) as -> by (destruct toks; [done|]; rewrite len_cons in E; len_lia).
    apply wp_ret. split; [done|]. split; [by split; [apply keeps_refl|..]| |done].
    unfold set_token_ids. rewrite app_nil_r. rewrite Hi. by destruct b.
  - apply wp_bind. eapply wp_deref; [done|]. apply wp_bind, wp_assert.
    { unfold num_empty_slots. lia. }
    by eapply wp_put_block.
Qed.

Lemma wp_init_block live ids s d prev toks v :
  alloc_ok live ids s -> (exists b, b ∈ known d s) -> len toks <= bs ->
  wp (init_block bs d prev toks v) (fun r s' => exists i,
    r = Obj d i /\ alloc_ok (add_live d i live) ids s' /\ new_step d i (mkBlock prev toks v) live s s' /\
    (forall d', cows d' s' = cows d' s) /\ (forall d', nfree d' s' = nfree d' s)) s.
Proof.
  intros H Hk Hl. unfold init_block. apply wp_bind, wp_on_block_pool.
  eapply wp_mono; [apply (wp_pop_free_id (live d)); [apply (ao_pool _ _ _ H)|apply (ao_size _ _ _ H d Hk)]|].
  intros i p (P1 & P2 & P3 & [b0 P4] & P5). wp_steps.
  assert (pool_block d i (set_pool d p s) = Some b0) as Hb0 by (by rewrite pool_block_set, decide_True).
  rewrite Hb0. apply wp_bind.
  assert (alloc_ok (add_live d i live) ids (set_pool d p s)) as H1.
  { eapply alloc_ok_set_pool; [done|by rewrite add_live_self| |done].
    intros d' Hd. by apply add_live_other. }
  eapply wp_mono; [by apply (wp_put_block _ _ _ _ _ (mkBlock prev [] v) _ H1 Hb0)|].
  intros [] s2 [H2 [S2 A2 O2]]. apply wp_bind.
  eapply wp_mono; [apply (wp_append_no_cow _ _ _ _ _ _ toks H2 A2); cbn [token_ids];
    change (len (@nil Z)) with 0; lia|].
  intros [] s3 [H3 [S3 A3 O3]]. wp_steps. exists i.
  pose proof (pool_step_trans _ _ _ (set_pool_step d p s) (pool_step_trans _ _ _ S2 S3)) as [K C N].
  split_and!; [done|done| |done|done].
  split; [done|done|done|].
  intros d' j Hj. assert ((d', j) <> (d, i)) as Hne by (intros [= -> ->]; done).
  rewrite O3, O2 by done. rewrite pool_block_set. case_decide as E; [|done]. subst d'. by apply P5.
Qed.

Lemma wp_release_object live ids s d d' i :
  alloc_ok (add_live d i live) ids s -> d' = d ->
  wp (release_object d' (Obj d i)) (fun _ s' =>
    alloc_ok live ids s' /\ pool_step s s' /\ same_objects s s') s.
Proof.
  intros H ->. cbn [release_object]. apply wp_on_block_pool. wp_steps. split_and!.
  - eapply alloc_ok_set_pool; [done| |intros d' Hd; symmetry; by apply add_live_other|done].
    destruct (ao_pool _ _ _ H d) as [P1 P2]. rewrite add_live_self in P2. split; [done|].
    cbn. rewrite <- P2. unfold pool_of. solve_Permutation.
  - apply set_pool_step.
  - intros d' j. rewrite pool_block_set. case_decide as E; [by subst d'|done].
Qed.

(** *** Freeing an object's block, and copy on write *)

Lemma wp_free_block_id live b ids s d d' i blk :
  alloc_ok live (b :: ids) s -> pool_block d' i s = Some blk -> block_id blk = Some b -> b ∈ known d s ->
  wp (_free_block_id d (Obj d' i)) (fun _ s' =>
    alloc_ok live ids s' /\ keeps s s' /\ pool_block d' i s' = Some (set_block_id None blk) /\
    (forall d1 j, (d1, j) <> (d', i) -> pool_block d1 j s' = pool_block d1 j s) /\
    (forall d1, cows d1 s' = cows d1 s) /\ (forall d1, d1 <> d -> nfree d1 s' = nfree d1 s) /\
    nfree d s' = (nfree d s + (if decide (b ∈ ids) then 0 else 1))%nat) s.
Proof.
  intros H Hi Hb Hk. unfold _free_block_id. apply wp_bind. eapply wp_deref; [done|].
  apply wp_bind. eapply wp_mono; [by eapply wp_write_block_id|].
  intros [] s1 [H1 [[K1 C1 N1] A1 O1]]. rewrite Hb.
  eapply wp_mono; [eapply wp_free_id; [done|by rewrite (kp_known _ _ K1)]|].
  intros [] s2 (H2 & [K2 O2 C2 N2] & F2).
  split_and!.
  - done.
  - by eapply keeps_trans.
  - by rewrite O2.
  - intros d1 j Hne. by rewrite O2, O1.
  - intros d1. by rewrite C2, C1.
  - intros d1 Hd. by rewrite N2, N1.
  - by rewrite F2, N1.
Qed.

(** The outcome of appending to the block [b] of an object: it keeps a block
    that nothing else refers to, or moves to a fresh one. *)
Definition cow_outcome (ids : list nat) (b b' : nat) (C : list (nat * nat)) : Prop :=
  (C = [] /\ b' = b /\ b ∉ ids) \/ (C = [(b, b')] /\ b ∈ ids /\ b' ∉ b :: ids).

Lemma wp_append_token_ids live b ids s d i blk toks :
  alloc_ok live (b :: ids) s -> pool_block d i s = Some blk -> block_id blk = Some b -> b ∈ known d s ->
  len (token_ids blk) + len toks <= bs -> ((0 < nfree d s)%nat \/ b ∉ ids) ->
  wp (append_token_ids bs (Obj d i) toks) (fun _ s' => exists b' C,
    alloc_ok live (b' :: ids) s' /\ keeps s s' /\ b' ∈ known d s /\
    pool_block d i s' = Some (mkBlock (prev_block blk) (token_ids blk ++ toks) (Some b')) /\
    (forall d1 j, (d1, j) <> (d, i) -> pool_block d1 j s' = pool_block d1 j s) /\
    cow_outcome ids b b' C /\
    cows d s' = cows d s ++ C /\ (forall d1, d1 <> d -> cows d1 s' = cows d1 s) /\
    (nfree d s' + length C)%nat = nfree d s /\ (forall d1, d1 <> d -> nfree d1 s' = nfree d1 s)) s.
Proof.
  intros H Hi Hb Hk Hl Hf. cbn [append_token_ids]. apply wp_bind.
  eapply wp_mono; [by eapply wp_append_no_cow|].
  intros [] s1 [H1 [[K1 C1 N1] A1 O1]]. apply wp_bind. eapply wp_deref; [done|].
  cbn [block_id set_token_ids]. rewrite Hb. apply wp_bind. unfold cow_block_if_not_appendable.
  apply wp_bind. eapply wp_deref; [done|]. cbn [block_id set_token_ids]. rewrite Hb.
  apply wp_bind, wp_on. unfold is_appendable. cbn [block_id set_token_ids]. rewrite Hb.
  unfold on_counter, get. wp_steps.
  assert (b ∈ _all_block_indices (allocator_of d s1)) as Hk1.
  { fold (known d s1). by rewrite (kp_known _ _ K1). }
  rewrite (co_count _ _ (ao_count _ _ _ H1 d) b), decide_True by done. wp_steps.
  assert (set_allocator d (set_refcounts (fun _ => _refcounts (allocator_of d s1)) (allocator_of d s1)) s1 = s1) as ->.
  { destruct s1 as [[] [] ? ?], d; done. }
  rewrite occ_cons, decide_True by done.
  pose proof (occ_nonneg b ids) as Hpos. pose proof (occ_pos_iff b ids) as Hin.
  destruct (1 + occ b ids <=? 1) eqn:E; wp_steps.
  - eapply wp_mono; [by eapply wp_write_block_id|]. intros [] s2 [H2 [[K2 C2 N2] A2 O2]].
    exists b, []. split_and!.
    + done.
    + by eapply keeps_trans.
    + done.
    + done.
    + intros d1 j Hne. by rewrite O2, O1.
    + left. split_and!; [done..|]. rewrite <- Hin. lia.
    + by rewrite C2, C1, app_nil_r.
    + intros d1 _. by rewrite C2, C1.
    + simpl. rewrite N2, N1. lia.
    + intros d1 _. by rewrite N2, N1.
  - assert (b ∈ ids) as Hbi by (apply Hin; lia). destruct Hf as [Hf|]; [|done].
    eapply wp_mono; [eapply wp_free_block_id; [done|exact A1|exact Hb|by rewrite (kp_known _ _ K1)]|].
    intros [] s2 (H2 & K2 & A2 & O2 & C2 & N2 & F2). apply wp_bind.
    rewrite decide_True in F2 by done.
    eapply wp_mono; [apply (wp_allocate_block_id live ids _ d H2); rewrite F2, N1; lia|].
    intros b' s3 (Hb' & Hn' & H3 & [K3 O3 C3 N3] & F3). wp_steps. apply wp_on. unfold record_cow. wp_steps.
    set (s4 := set_allocator d _ s3).
    assert (alloc_ok live (b' :: ids) s4) as H4.
    { destruct H3 as [G1 G2 G3 G4 G5]. split; try (intros d'; specialize (G1 d'); specialize (G2 d'); specialize (G3 d'); by destruct d, d').
      - intros d'. specialize (G2 d'). destruct G2. split; subst s4; destruct d, d'; assumption.
      - subst s4. by destruct d.
      - intros c Hc. destruct (G5 c Hc) as [d' Hd']. exists d'. subst s4. by destruct d, d'. }
    assert (same_objects s3 s4 /\ keeps s3 s4 /\ (forall d', nfree d' s4 = nfree d' s3) /\
      cows d s4 = cows d s3 ++ [(b, b')] /\ (forall d', d' <> d -> cows d' s4 = cows d' s3))
      as (O4 & K4 & N4 & C4 & C4').
    { subst s4. split_and!; [intros d' j|split; [intros d'|..]|intros d'|..|intros d' Hd];
        destruct d; try destruct d'; done. }
    eapply wp_mono; [eapply (wp_write_block_id _ _ _ _ _ _ (Some b') H4); by rewrite O4, O3, A2|].
    intros [] s5 [H5 [[K5 C5 N5] A5 O5]].
    assert (known d s2 = known d s) as Hkn by by rewrite (kp_known _ _ K2), (kp_known _ _ K1).
    exists b', [(b, b')]. split_and!.
    + done.
    + repeat (eapply keeps_trans; [eassumption|]). apply keeps_refl.
    + by rewrite <- Hkn.
    + done.
    + intros d1 j Hne. by rewrite O5, O4, O3, O2, O1.
    + right. split_and!; [done..|]. intros [->|]%elem_of_cons; done.
    + by rewrite C5, C4, C3, C2, C1.
    + intros d1 Hd. by rewrite C5, C4', C3, C2, C1.
    + simpl. rewrite N5, N4. rewrite F2, N1 in F3. lia.
    + intros d1 Hd. by rewrite N5, N4, N3, N2, N1.
Qed.

(** ** New blocks *)

Lemma wp_allocate_mutable live ids s d prev :
  alloc_ok live ids s -> (0 < nfree d s)%nat ->
  wp (allocate_mutable_block bs d prev) (fun r s' => exists i b,
    r = Obj d i /\ b ∈ known d s /\ (b ∉ ids) /\
    alloc_ok (add_live d i live) (b :: ids) s' /\ new_step d i (mkBlock prev [] (Some b)) live s s' /\
    (forall d', cows d' s' = cows d' s) /\ nfree d s = S (nfree d s') /\
    (forall d', d' <> d -> nfree d' s' = nfree d' s)) s.
Proof.
  intros H Hf. unfold allocate_mutable_block. apply wp_bind.
  eapply wp_mono; [by apply (wp_allocate_block_id live ids)|].
  intros b s1 (Hb & Hn & H1 & [K1 O1 C1 N1] & F1).
  eapply wp_mono; [apply (wp_init_block _ _ _ _ prev [] (Some b) H1)|].
  { exists b. by rewrite (kp_known _ _ K1). }
  { change (len (@nil Z)) with 0. lia. }
  intros r s2 (i & -> & H2 & [K2 I2 A2 L2] & C2 & N2). exists i, b. split_and!; [done..| | | |].
  - split; [by eapply keeps_trans|done|done|]. intros d' j Hj. by rewrite L2, O1.
  - intros d'. by rewrite C2, C1.
  - by rewrite N2, F1.
  - intros d' Hd. by rewrite N2, N1.
Qed.

(** Ids for several blocks. *)
Lemma wp_allocate_ids {A} live ids s d (l : list A) :
  alloc_ok live ids s -> (length l <= nfree d s)%nat ->
  wp (map_each (fun _ => on d _allocate_block_id) l) (fun B s' =>
    length B = length l /\ NoDup B /\ (forall b, b ∈ B -> b ∈ known d s /\ (b ∉ ids)) /\
    alloc_ok live (B ++ ids) s' /\ keeps s s' /\ same_objects s s' /\
    (forall d', cows d' s' = cows d' s) /\ nfree d s = (length l + nfree d s')%nat /\
    (forall d', d' <> d -> nfree d' s' = nfree d' s)) s.
Proof.
  revert ids s. induction l as [|x l IH]; intros ids s H Hf; cbn [map_each length] in *.
  { apply wp_ret. split_and!; auto using keeps_refl, NoDup_nil_2; [set_solver|by intros ? ?]. }
  apply wp_bind. eapply wp_mono; [apply (wp_allocate_block_id _ _ _ d H); lia|].
  intros b s1 (Hb & Hn & H1 & [K1 O1 C1 N1] & F1). apply wp_bind.
  eapply wp_mono; [apply (IH _ _ H1); lia|].
  intros B s2 (L2 & D2 & B2 & H2 & K2 & O2 & C2 & F2 & N2). apply wp_ret. split_and!.
  - simpl. lia.
  - apply NoDup_cons. split; [|done]. intros Hin. destruct (B2 b Hin) as [_ Hx].
    apply Hx, list_elem_of_here.
  - intros c [->|Hc]%elem_of_cons; [done|]. destruct (B2 c Hc) as [Hk Hi].
    rewrite (kp_known _ _ K1) in Hk. split; [done|]. intros Hin. by apply Hi, list_elem_of_further.
  - eapply alloc_ok_perm; [done| |done]. simpl. by rewrite Permutation_middle.
  - by eapply keeps_trans.
  - intros d' i. by rewrite O2, O1.
  - intros d'. by rewrite C2, C1.
  - lia.
  - intros d' Hd. by rewrite N2, N1.
Qed.

(** [init_blocks] makes a run of the given ids and tokens. *)
Lemma wp_init_blocks R ids s prev B C :
  alloc_ok (gpu_only R) ids s -> (exists b, b ∈ known GPU s) -> length B = length C ->
  Forall (fun c => len c <= bs) C ->
  wp (init_blocks bs GPU prev (zip C B)) (fun rs s' => exists L,
    rs = Obj GPU <$> L /\ alloc_ok (gpu_only (L ++ R)) ids s' /\ segment s' prev L B C /\
    same_on (gpu_only R) s s' /\ keeps s s' /\
    (forall d', cows d' s' = cows d' s) /\ (forall d', nfree d' s' = nfree d' s)) s.
Proof.
  revert R s prev B. induction C as [|c C IH]; intros R s prev [|b B] H Hk Hl Hc; try done.
  { apply wp_ret. exists []. split_and!; auto using keeps_refl; [done|by intros ? ?]. }
  apply Forall_cons in Hc as [Hc HC]. cbn [zip zip_with init_blocks]. apply wp_bind.
  eapply wp_mono; [apply (wp_init_block _ _ _ _ prev c (Some b) H Hk Hc)|].
  intros r s1 (i & -> & H1 & [K1 I1 A1 L1] & C1 & N1). apply wp_bind.
  eapply wp_mono; [apply (IH (i :: R))|].
  { eapply alloc_ok_perm; [|done|exact H1]. intros d. by rewrite gpu_only_add. }
  { destruct Hk as [b0 Hb0]. exists b0. by rewrite (kp_known _ _ K1). }
  { simpl in Hl. lia. } { done. }
  intros rs s2 (L & -> & H2 & S2 & O2 & K2 & C2 & N2). apply wp_ret. exists (i :: L). split_and!.
  - done.
  - eapply alloc_ok_perm; [|done|exact H2]. intros []; simpl; [by rewrite Permutation_middle|done].
  - split; [|done]. rewrite (O2 GPU i) by (simpl; set_solver). done.
  - intros d j Hj. rewrite O2; [by apply L1|]. destruct d; simpl in *; set_solver.
  - by eapply keeps_trans.
  - intros d'. by rewrite C2, C1.
  - intros d'. by rewrite N2, N1.
Qed.

Lemma wp_allocate_immutable_blocks R ids s prev C :
  alloc_ok (gpu_only R) ids s -> (length C <= nfree GPU s)%nat -> C <> [] ->
  Forall (fun c => len c <= bs) C ->
  wp (allocate_immutable_blocks bs GPU prev C) (fun rs s' => exists L B,
    rs = Obj GPU <$> L /\ alloc_ok (gpu_only (L ++ R)) (B ++ ids) s' /\ segment s' prev L B C /\
    NoDup B /\ (forall b, b ∈ B -> b ∈ known GPU s /\ (b ∉ ids)) /\
    same_on (gpu_only R) s s' /\ keeps s s' /\ (forall d', cows d' s' = cows d' s) /\
    nfree GPU s = (length C + nfree GPU s')%nat /\ nfree CPU s' = nfree CPU s) s.
Proof.
  intros H Hf Hne Hc. unfold allocate_immutable_blocks. apply wp_bind.
  eapply wp_mono; [by apply (wp_allocate_ids _ _ _ GPU C H)|].
  intros B s1 (L1 & D1 & B1 & H1 & K1 & O1 & C1 & F1 & N1).
  eapply wp_mono; [apply (wp_init_blocks _ _ _ prev B C H1); [|done|done]|].
  { destruct B as [|b B]; [destruct C; done|]. exists b. rewrite (kp_known _ _ K1).
    by apply (B1 b), list_elem_of_here. }
  intros rs s2 (L & -> & H2 & S2 & O2 & K2 & C2 & N2). exists L, B. split_and!; try done.
  - intros d i Hi. by rewrite O2, O1.
  - by eapply keeps_trans.
  - intros d'. by rewrite C2, C1.
  - by rewrite N2.
  - rewrite N2. by apply N1.
Qed.

(** ** Freeing and sharing *)

Lemma wp_block_ids_to_allocator d b (Q : Device -> CpuGpuBlockAllocator -> Prop) live ids s :
  alloc_ok live ids s -> b ∈ known d s -> Q d s -> wp (block_ids_to_allocator b) Q s.
Proof.
  intros H Hb HQ. unfold block_ids_to_allocator. wp_steps. destruct d.
  - rewrite decide_True by done. done.
  - rewrite decide_False by (by eapply (known_other _ _ _ CPU GPU)). by rewrite decide_True.
Qed.

Lemma wp_free_object R ids s i b blk :
  alloc_ok (gpu_only (i :: R)) (b :: ids) s -> pool_block GPU i s = Some blk ->
  block_id blk = Some b -> b ∈ known GPU s ->
  wp (free (Obj GPU i)) (fun _ s' =>
    alloc_ok (gpu_only R) ids s' /\ keeps s s' /\ same_on (gpu_only R) s s' /\
    (forall d, cows d s' = cows d s) /\ nfree CPU s' = nfree CPU s /\
    nfree GPU s' = (nfree GPU s + (if decide (b ∈ ids) then 0 else 1))%nat) s.
Proof.
  intros H Hi Hb Hk. cbn [free]. apply wp_bind. eapply wp_deref; [done|]. rewrite Hb.
  apply wp_bind. eapply wp_block_ids_to_allocator; [done|exact Hk|].
  unfold naive_free. apply wp_bind. eapply wp_mono; [by eapply wp_free_block_id|].
  intros [] s1 (H1 & K1 & A1 & O1 & C1 & N1 & F1).
  eapply wp_mono; [eapply (wp_release_object (gpu_only R)); [|done]|].
  { eapply alloc_ok_perm; [|done|exact H1]. intros d. by rewrite gpu_only_add. }
  intros [] s2 (H2 & [K2 C2 N2] & O2). split_and!.
  - done.
  - by eapply keeps_trans.
  - intros d j Hj. rewrite O2. apply O1. intros [= -> ->].
    pose proof (live_NoDup _ _ _ GPU H) as Hnd. simpl in Hnd, Hj. by apply NoDup_cons in Hnd as [? _].
  - intros d. by rewrite C2, C1.
  - rewrite N2. by apply N1.
  - by rewrite N2, F1.
Qed.

Lemma wp_incr live ids s d b :
  alloc_ok live ids s -> b ∈ known d s -> b ∈ ids ->
  wp (on d (on_counter (incr b))) (fun n s' =>
    n <> 1 /\ alloc_ok live (b :: ids) s' /\ id_step d s s' /\ nfree d s' = nfree d s) s.
Proof.
  intros H Hk Hb. pose proof (ao_count _ _ _ H d) as [H1 H2 H3 H4].
  apply wp_on. unfold on_counter, incr. wp_steps. rewrite H4, decide_True by done.
  pose proof (occ_nonneg b ids). pose proof (proj2 (occ_pos_iff b ids) Hb).
  apply wp_bind, wp_assert; [lia|]. wp_steps.
  set (a := set_refcounts _ _).
  assert (counts_only (allocator_of d s) a) as Hu by by split.
  destruct (set_allocator_frame _ _ _ Hu) as (F1 & F2 & F3 & F4). split_and!.
  - lia.
  - apply (alloc_ok_counts live ids); [done..| | |].
    + split; cbn; [done|done| |].
      * intros c. rewrite H3, elem_of_cons. split; [|tauto]. intros [? ?]. split; [done|].
        intros [->|]; done.
      * intros c. rewrite occ_cons. destruct (decide (b = c)) as [<-|Hc].
        -- rewrite lookup_insert_eq, decide_True by done. f_equal. lia.
        -- rewrite lookup_insert_ne by done. by rewrite H4.
    + intros d' Hd. apply count_ok_other; [by eapply known_other|]. apply (ao_count _ _ _ H).
    + intros c [->|Hc]%elem_of_cons; [by exists d|]. by apply (ao_known _ _ _ H).
  - by split.
  - unfold nfree. by rewrite allocator_of_set.
Qed.

Lemma wp_fork_blocks R ids s prev prev0 L B C :
  alloc_ok (gpu_only R) ids s -> segment s prev0 L B C ->
  (forall i, i ∈ L -> i ∈ R) -> (forall b, b ∈ B -> b ∈ known GPU s /\ b ∈ ids) ->
  Forall (fun c => len c <= bs) C ->
  wp (fork_blocks bs GPU prev (Obj GPU <$> L)) (fun rs s' => exists L',
    rs = Obj GPU <$> L' /\ alloc_ok (gpu_only (L' ++ R)) (B ++ ids) s' /\ segment s' prev L' B C /\
    same_on (gpu_only R) s s' /\ keeps s s' /\
    (forall d, cows d s' = cows d s) /\ (forall d, nfree d s' = nfree d s)) s.
Proof.
  revert R ids s prev prev0 B C. induction L as [|i L IH];
    intros R ids s prev prev0 [|b B] [|c C] H HS HR HB HC; try done.
  { apply wp_ret. exists []. split_and!; auto using keeps_refl; by intros ? ?. }
  destruct HS as [Hi HS]. apply Forall_cons in HC as [Hc HC].
  destruct (HB b (list_elem_of_here _ _)) as [Hk Hb].
  cbn [fmap list_fmap fork_blocks]. apply wp_bind. eapply wp_deref; [done|]. cbn [block_id token_ids].
  apply wp_bind. eapply wp_mono; [by apply (wp_incr _ _ _ GPU b H)|].
  intros n s1 (Hn & H1 & [K1 O1 C1 N1] & F1). apply wp_bind, wp_assert.
  { apply negb_true_iff, Z.eqb_neq, Hn. }
  apply wp_bind. eapply wp_mono; [apply (wp_init_block _ _ _ _ prev c (Some b) H1); [|done]|].
  { exists b. by rewrite (kp_known _ _ K1). }
  intros r s2 (i' & -> & H2 & [K2 I2 A2 L2] & C2 & N2). apply wp_bind.
  assert (keeps s s2) as K by by eapply keeps_trans.
  eapply wp_mono; [apply (IH (i' :: R) (b :: ids) _ _ (Some (Obj GPU i)) B C)|].
  { eapply alloc_ok_perm; [|done|exact H2]. intros d. by rewrite gpu_only_add. }
  { eapply segment_frame; [|exact HS]. intros j Hj. rewrite (L2 GPU j); [apply O1|]. apply HR. set_solver. }
  { set_solver. }
  { intros x Hx. rewrite (kp_known _ _ K). destruct (HB x); set_solver. }
  { done. }
  intros rs s3 (L' & -> & H3 & S3 & O3 & K3 & C3 & N3). apply wp_ret. exists (i' :: L'). split_and!.
  - done.
  - eapply alloc_ok_perm; [| |exact H3].
    + intros []; simpl; [by rewrite Permutation_middle|done].
    + simpl. by rewrite Permutation_middle.
  - split; [|done]. rewrite (O3 GPU i') by (simpl; set_solver). done.
  - intros d j Hj. rewrite O3, L2, O1; [done|done|]. destruct d; simpl in *; set_solver.
  - by eapply keeps_trans.
  - intros d. by rewrite C3, C2, C1.
  - intros d. rewrite N3, N2. destruct d; [done|]. by apply N1.
Qed.

(** The chain of a run that begins a sequence is the run. *)
Lemma wp_recurse fuel s L i B C :
  segment s None (L ++ [i]) B C -> (length L < fuel)%nat ->
  wp (recurse fuel (Obj GPU i)) (fun rs s' => rs = Obj GPU <$> (L ++ [i]) /\ s' = s) s.
Proof.
  revert i B C fuel. induction L as [|j L IH] using rev_ind; intros i B C fuel HS Hf;
    (destruct fuel as [|fuel]; [lia|]); cbn [recurse].
  - destruct B as [|b [|]], C as [|c [|]]; try done; try (by destruct HS as [_ []]).
    destruct HS as [Hi _]. apply wp_bind. eapply wp_deref; [done|]. cbn [prev_block]. by apply wp_ret.
  - rewrite length_app in Hf. simpl in Hf.
    destruct (segment_length _ _ _ _ _ HS) as [LB LC]. rewrite length_app in LB, LC. simpl in LB, LC.
    destruct B as [|b B _] using rev_ind; [simpl in LB; lia|].
    destruct C as [|c C _] using rev_ind; [simpl in LC; lia|].
    rewrite length_app in LB, LC. simpl in LB, LC.
    apply segment_app in HS as [HS [Hi _]]; [|lia|lia]. rewrite last_ref_snoc in Hi.
    apply wp_bind. eapply wp_deref; [done|]. cbn [prev_block]. apply wp_bind.
    eapply wp_mono; [apply (IH _ _ _ fuel HS); lia|]. intros rs s' [-> ->]. apply wp_ret.
    split; [|done]. by rewrite (fmap_app _ (L ++ [j])).
Qed.

Lemma wp_fork limit R ids s L i B C :
  alloc_ok (gpu_only R) ids s -> segment s None (L ++ [i]) B C -> (length L < limit)%nat ->
  (forall j, j ∈ L ++ [i] -> j ∈ R) -> (forall b, b ∈ B -> b ∈ known GPU s /\ b ∈ ids) ->
  Forall (fun c => len c <= bs) C ->
  wp (fork bs limit (Obj GPU i)) (fun rs s' => exists L',
    rs = Obj GPU <$> L' /\ alloc_ok (gpu_only (L' ++ R)) (B ++ ids) s' /\ segment s' None L' B C /\
    same_on (gpu_only R) s s' /\ keeps s s' /\
    (forall d, cows d s' = cows d s) /\ (forall d, nfree d s' = nfree d s)) s.
Proof.
  intros H HS Hl HR HB HC. cbn [fork]. apply wp_bind.
  destruct (segment_lookup _ _ _ _ _ (length L) i HS) as (p & b & c & Eb & _ & Hi).
  { by rewrite lookup_app_r, Nat.sub_diag by lia. }
  eapply wp_deref; [done|]. cbn [block_id]. apply wp_bind.
  destruct (HB b) as [Hk _]; [by eapply list_elem_of_lookup_2|].
  eapply wp_block_ids_to_allocator; [done|exact Hk|].
  unfold naive_fork, get_all_blocks_recursively. apply wp_bind.
  eapply wp_mono; [by eapply wp_recurse|]. intros rs s' [-> ->].
  by eapply wp_fork_blocks.
Qed.

Lemma wp_null_block R ids s :
  alloc_ok (gpu_only R) ids s -> (is_Some (_null_block s) \/ (0 < nfree GPU s)%nat) ->
  wp (allocate_or_get_null_block bs) (fun r s' => r = Null /\ is_Some (_null_block s') /\
    ((is_Some (_null_block s) /\ s' = s) \/
     (_null_block s = None /\ exists i b,
        alloc_ok (gpu_only (i :: R)) (b :: ids) s' /\ null_in [i] [b] s' /\ (b ∉ ids) /\
        same_on (gpu_only R) s s' /\ (forall d, known d s' = known d s) /\
        (forall d, cows d s' = cows d s) /\ nfree CPU s' = nfree CPU s /\
        nfree GPU s = S (nfree GPU s')))) s.
Proof.
  intros H Hf. unfold allocate_or_get_null_block. wp_steps.
  destruct (_null_block s) as [r|] eqn:E.
  - apply wp_ret. split_and!; [done|by rewrite E|left; by split; [eexists|]].
  - destruct Hf as [[? ?]|Hf]; [done|]. apply wp_bind.
    eapply wp_mono; [by apply (wp_allocate_mutable (gpu_only R) ids s GPU None)|].
    intros r s1 (i & b & -> & Hb & Hbn & H1 & [K1 I1 A1 L1] & C1 & F1 & N1). wp_steps.
    split_and!; [done|by eexists|]. right. split; [done|]. exists i, b.
    assert (alloc_ok (gpu_only (i :: R)) (b :: ids) s1) as H1'.
    { eapply alloc_ok_perm; [|done|exact H1]. intros d. by rewrite gpu_only_add. }
    split_and!; try done.
    + destruct H1' as [G1 G2 G3 G4 G5]. split; try (intros d; specialize (G1 d); specialize (G2 d); specialize (G3 d); by destruct d).
      * done.
      * intros c Hc. destruct (G5 c Hc) as [d Hd]. exists d. by destruct d.
    + unfold null_in. cbn. exists b. split_and!; [set_solver..| |done].
      rewrite <- (kp_known _ _ K1 GPU) in Hb. exact Hb.
    + intros d. pose proof (kp_known _ _ K1 d) as E'. by destruct d.
    + specialize (N1 CPU). by apply N1.
Qed.

End blocks.

(** ** The new allocators *)

Lemma init_naive_ok ids :
  NoDup ids -> pool_ok [] (_block_pool (init_naive ids)) /\ count_ok [] (init_naive ids) /\
  (forall b, b ∈ _all_block_indices (init_naive ids) <-> b ∈ ids) /\
  length (_free_block_indices (init_naive ids)) = length ids /\
  _copy_on_writes (init_naive ids) = [].
Proof.
  intros Hnd. destruct (heapify_spec ids) as [Hh Hp].
  assert (forall b, b ∈ _all_block_indices (init_naive ids) <-> b ∈ ids) as Hall.
  { intros b. unfold init_naive. cbn. apply elem_of_list_to_set. }
  split_and!; [|split| |..].
  - split; cbn; [by rewrite length_replicate|]. by rewrite app_nil_r.
  - exact Hh.
  - cbn. by rewrite Hp.
  - intros b. cbn [_free_block_indices init_naive]. rewrite Hp, <- (Hall b). split; [|tauto].
    intros H. split; [done|]. apply not_elem_of_nil.
  - intros b. change (occ b []) with 0. cbn [_refcounts init_naive].
    assert (NoDup ((fun i => (i, 0)) <$> ids).*1) as Hnd1 by (by rewrite <- list_fmap_compose, list_fmap_id).
    destruct (decide (b ∈ _all_block_indices (init_naive ids))) as [Hb|Hb].
    + apply elem_of_list_to_map_1; [done|]. apply list_elem_of_fmap. exists b. split; [done|]. by apply Hall.
    + apply not_elem_of_list_to_map_1. rewrite <- list_fmap_compose. unfold compose. cbn [fst].
      rewrite list_fmap_id. by rewrite <- Hall.
  - done.
  - cbn. by rewrite Hp.
  - done.
Qed.

(** The blocks of a new pair of allocators: those of the GPU begin after the
    reserved one. *)
Lemma create_ok reserved num_gpu num_cpu s :
  create reserved num_gpu num_cpu = Ok s ->
  alloc_ok (gpu_only []) [] s /\ _null_block s = None /\ (forall d, cows d s = []) /\
  nfree GPU s = (num_gpu - reserved)%nat /\ nfree CPU s = num_cpu /\
  (forall b, b ∈ known GPU s <-> reserved <= b < num_gpu)%nat /\
  (forall b, b ∈ known CPU s <-> num_gpu <= b < num_gpu + num_cpu)%nat.
Proof.
  unfold create. cbv zeta. destruct (reserved <=? num_gpu)%nat eqn:E; cbn [guard_or mbind result_mbind]; [|done].
  intros [= <-]. apply Nat.leb_le in E.
  set (g := (num_gpu - reserved)%nat).
  replace (num_gpu + num_cpu - reserved)%nat with (g + num_cpu)%nat by lia.
  rewrite seq_app. rewrite take_app_length' by (by rewrite length_seq).
  rewrite drop_app_length' by (by rewrite length_seq).
  replace (reserved + g)%nat with num_gpu by lia.
  destruct (init_naive_ok (seq reserved g)) as (P1 & C1 & A1 & F1 & W1); [apply NoDup_seq|].
  destruct (init_naive_ok (seq num_gpu num_cpu)) as (P2 & C2 & A2 & F2 & W2); [apply NoDup_seq|].
  split_and!.
  - split.
    + intros []; [exact P1|exact P2].
    + intros []; [exact C1|exact C2].
    + intros [] [b Hb]; cbn [allocator_of _gpu_allocator _cpu_allocator] in *; cbn [_block_pool init_naive init_pool _pool_size];
        rewrite length_seq.
      * apply A1, elem_of_seq in Hb. lia.
      * apply A2, elem_of_seq in Hb. lia.
    + intros b H1 H2. cbn [_gpu_allocator _cpu_allocator] in *.
      apply A1, elem_of_seq in H1. apply A2, elem_of_seq in H2. lia.
    + intros b Hb. by apply not_elem_of_nil in Hb.
  - done.
  - intros []; done.
  - unfold nfree. cbn [allocator_of _gpu_allocator]. rewrite F1. apply length_seq.
  - unfold nfree. cbn [allocator_of _cpu_allocator]. rewrite F2. apply length_seq.
  - intros b. unfold known. cbn [allocator_of _gpu_allocator]. rewrite A1, elem_of_seq. lia.
  - intros b. unfold known. cbn [allocator_of _cpu_allocator]. rewrite A2, elem_of_seq. lia.
Qed.

(** ** The copies to make *)

Lemma wp_clear_copy_on_writes live ids s :
  alloc_ok live ids s ->
  wp clear_copy_on_writes (fun C s' => C = cows GPU s /\ alloc_ok live ids s' /\ keeps s s' /\
    same_objects s s' /\ cows GPU s' = [] /\ (forall d, nfree d s' = nfree d s)) s.
Proof.
  intros [G1 G2 G3 G4 G5]. unfold clear_copy_on_writes, clear_cows. apply wp_on. wp_steps.
  split_and!; [done| |split; [intros []|..]|intros [] i|..|intros []]; try done.
  split; try (intros d; specialize (G1 d); specialize (G2 d); specialize (G3 d); by destruct d).
  - intros d. specialize (G2 d). destruct d; [|done]. destruct G2. by split.
  - done.
  - intros b Hb. destruct (G5 b Hb) as [d Hd]. exists d. by destruct d.
Qed.
