(* ===== verification/V0SwapSpec.v ===== *)
(** What swapping does: the objects of a table move to fresh blocks of the other
    device and keep their tokens, and the mapping that is returned leads from
    each old block to the new one. *)

From Stdlib Require Import ZArith Lia.
From stdpp Require Import base strings numbers gmap list sorting.
From S2P Require Import Prelude.
From S2P Require Import V0Block.
From S2P Require Import V0BlockSpec.

Open Scope list_scope.
Open Scope Z_scope.

(** ** Objects and their contents *)

Definition objects (s : CpuGpuBlockAllocator) (L : list nat) (P : list Block) : Prop :=
  Forall2 (fun i p => pool_block GPU i s = Some p) L P.

Lemma objects_frame s s' L P :
  (forall i, i ∈ L -> pool_block GPU i s' = pool_block GPU i s) -> objects s L P -> objects s' L P.
Proof.
  intros Hs H. induction H as [|i p L P Hi H IH]; constructor.
  - rewrite Hs; [done|apply list_elem_of_here].
  - apply IH. intros j Hj. by apply Hs, list_elem_of_further.
Qed.

(** The objects of a segment without their ids, and with other ids. *)
Lemma segment_objects s prev L B C :
  segment s prev L B C ->
  exists P, objects s L P /\ block_id <$> P = Some <$> B /\ token_ids <$> P = C /\
    forall s' B', length B' = length L -> objects s' L (zip_with (fun b p => set_block_id (Some b) p) B' P) ->
      segment s' prev L B' C.
Proof.
  revert prev B C. induction L as [|i L IH]; intros prev [|b B] [|c C]; simpl; try done.
  { intros _. exists []. split_and!; [constructor|done..|]. by intros s' [|? ?]. }
  intros [Hi H]. destruct (IH _ _ _ H) as (P & P1 & P2 & P3 & P4).
  exists (mkBlock prev c (Some b) :: P). split_and!.
  - by constructor.
  - cbn. by rewrite P2.
  - cbn. by rewrite P3.
  - intros s' [|b' B'] HB' HO; [done|]. cbn in HO. apply Forall2_cons in HO as [HO1 HO2].
    split; [exact HO1|]. apply P4; [simpl in HB'; lia|done].
Qed.

(** ** Swapping out *)

Section swap.
Context (bs : Z) (Hbs : 0 < bs).

(** What a swap leaves: the devices' ids, the null block, the copies. *)
Lemma wp_swap_out_blocks live ids s d L P B :
  alloc_ok live (B ++ ids) s -> objects s L P -> NoDup L -> block_id <$> P = Some <$> B ->
  (forall b, b ∈ B -> b ∈ known d s) ->
  wp (swap_out_blocks d (Obj GPU <$> L)) (fun _ s' =>
    alloc_ok live ids s' /\ keeps s s' /\ objects s' L (set_block_id None <$> P) /\
    (forall d1 j, (d1 = GPU -> j ∉ L) -> pool_block d1 j s' = pool_block d1 j s) /\
    (forall d1, cows d1 s' = cows d1 s) /\ (forall d1, d1 <> d -> nfree d1 s' = nfree d1 s) /\
    (nfree d s <= nfree d s')%nat) s.
Proof.
  unfold swap_out_blocks. intros H HO. revert s B P H HO. induction L as [|i L IH]; intros s B P H HO Hnd HB Hk.
  { apply Forall2_nil_inv_l in HO as ->. destruct B; [|done]. apply wp_ret.
    split; [exact H|]. split; [apply keeps_refl|]. split; [by constructor|]. by split_and!. }
  apply Forall2_cons_inv_l in HO as (p & P' & Hi & HO & ->). destruct B as [|b B]; [done|].
  cbn in HB. injection HB as Hb HB. apply NoDup_cons in Hnd as [Hn Hnd]. cbn [fmap list_fmap for_each].
  apply wp_bind. eapply wp_mono.
  { apply (wp_free_block_id live b (B ++ ids) s d GPU i p); [exact H|done|done|apply Hk, list_elem_of_here]. }
  intros [] s1 (H1 & K1 & A1 & O1 & C1 & N1 & F1).
  assert (forall j, j ∈ L -> pool_block GPU j s1 = pool_block GPU j s) as Hsame.
  { intros j Hj. apply O1. by intros [= ->]. }
  eapply wp_mono; [apply (IH s1 B P')|].
  - done.
  - by apply (objects_frame s).
  - done.
  - done.
  - intros c Hc. rewrite (kp_known _ _ K1). by apply Hk, list_elem_of_further.
  - intros [] s2 (H2 & K2 & HO2 & O2 & C2 & N2 & F2). split_and!.
    + done.
    + by eapply keeps_trans.
    + cbn. constructor; [|done]. by rewrite O2.
    + intros d1 j Hj. rewrite O2 by (intros E Hin; apply (Hj E), list_elem_of_further, Hin).
      apply O1. intros [= -> ->]. apply (Hj eq_refl), list_elem_of_here.
    + intros d1. by rewrite C2, C1.
    + intros d1 Hd. by rewrite N2, N1.
    + lia.
Qed.

(** ** Swapping in *)

Lemma wp_swap_in_block live ids s d i p :
  alloc_ok live ids s -> i ∈ live GPU -> pool_block GPU i s = Some p -> len (token_ids p) <= bs ->
  (0 < nfree d s)%nat ->
  wp (swap_in_block bs d (Obj GPU i)) (fun _ s' => exists b,
    b ∈ known d s /\ (b ∉ ids) /\ alloc_ok live (b :: ids) s' /\ keeps s s' /\
    pool_block GPU i s' = Some (set_block_id (Some b) p) /\
    (forall d1 j, j ∈ live d1 -> (d1, j) <> (GPU, i) -> pool_block d1 j s' = pool_block d1 j s) /\
    (forall d1, cows d1 s' = cows d1 s) /\ nfree d s = S (nfree d s') /\
    (forall d1, d1 <> d -> nfree d1 s' = nfree d1 s)) s.
Proof.
  intros H Hlive Hi Hl Hf. unfold swap_in_block. apply wp_bind. eapply wp_deref; [done|].
  apply wp_bind. eapply (wp_mono _ (fun r s' => exists k b,
    r = Obj d k /\ b ∈ known d s /\ (b ∉ ids) /\ alloc_ok (add_live d k live) (b :: ids) s' /\ keeps s s' /\
    (k ∉ live d) /\ pool_block d k s' = Some (mkBlock (prev_block p) (token_ids p) (Some b)) /\
    (forall d1 j, j ∈ live d1 -> pool_block d1 j s' = pool_block d1 j s) /\
    (forall d1, cows d1 s' = cows d1 s) /\ nfree d s = S (nfree d s') /\
    (forall d1, d1 <> d -> nfree d1 s' = nfree d1 s))).
  { assert (wp (tmp ← allocate_mutable_block bs d (prev_block p);
        append_token_ids bs tmp (token_ids p);; mret tmp) (fun r s' => exists k b,
      r = Obj d k /\ b ∈ known d s /\ (b ∉ ids) /\ alloc_ok (add_live d k live) (b :: ids) s' /\ keeps s s' /\
      (k ∉ live d) /\ pool_block d k s' = Some (mkBlock (prev_block p) (token_ids p) (Some b)) /\
      (forall d1 j, j ∈ live d1 -> pool_block d1 j s' = pool_block d1 j s) /\
      (forall d1, cows d1 s' = cows d1 s) /\ nfree d s = S (nfree d s') /\
      (forall d1, d1 <> d -> nfree d1 s' = nfree d1 s)) s) as Hwp.
    { apply wp_bind. eapply wp_mono; [by apply (wp_allocate_mutable bs Hbs live ids)|].
      intros r s1 (k & b & -> & Hb & Hnb & H1 & [K1 I1 A1 L1] & C1 & F1 & N1). apply wp_bind.
      eapply wp_mono.
      { apply (wp_append_token_ids bs (add_live d k live) b ids s1 d k (mkBlock (prev_block p) [] (Some b)));
          [done|done|done|by rewrite (kp_known _ _ K1)| |by right].
        cbn [token_ids]. change (len (@nil Z)) with 0. lia. }
      intros [] s2 (b' & C & H2 & K2 & Hb' & A2 & O2 & [(-> & -> & _)|(_ & ? & _)] & C2 & C2' & F2 & N2); [|done].
      apply wp_ret. exists k, b. simpl in F2. split_and!; try done.
      - by eapply keeps_trans.
      - intros d1 j Hj. rewrite O2; [by apply L1|]. intros [= -> ->]. done.
      - intros d1. destruct (decide (d1 = d)) as [->|Hd]; [by rewrite C2, app_nil_r, C1|by rewrite C2', C1].
      - lia.
      - intros d1 Hd. by rewrite N2, N1. }
    destruct (is_full bs p); exact Hwp. }
  intros r s1 (k & b & -> & Hb & Hnb & H1 & K1 & Hk & A1 & O1 & C1 & F1 & N1).
  apply wp_bind. eapply wp_deref; [done|]. cbn [block_id].
  apply wp_bind. eapply wp_mono; [by eapply wp_write_block_id|]. intros [] s2 [H2 [[K2 C2 N2] A2 O2]].
  apply wp_bind. eapply wp_mono; [by eapply wp_release_object|]. intros [] s3 (H3 & [K3 C3 N3] & O3).
  assert (forall d1 j, j ∈ live d1 -> pool_block d1 j s3 = pool_block d1 j s) as Hsame.
  { intros d1 j Hj. rewrite O3, O2; [by apply O1|]. intros [= -> ->]. done. }
  eapply wp_mono; [eapply (wp_write_block_id _ _ _ GPU i p (Some b) H3); by rewrite Hsame|].
  intros [] s4 [H4 [[K4 C4 N4] A4 O4]]. exists b. split_and!.
  - done.
  - done.
  - done.
  - repeat (eapply keeps_trans; [eassumption|]). apply keeps_refl.
  - done.
  - intros d1 j Hj Hne. rewrite O4 by done. by apply Hsame.
  - intros d1. by rewrite C4, C3, C2, C1.
  - by rewrite N4, N3, N2.
  - intros d1 Hd. by rewrite N4, N3, N2, N1.
Qed.

Lemma wp_swap_in_blocks live ids s d L P :
  alloc_ok live ids s -> (forall i, i ∈ L -> i ∈ live GPU) -> objects s L P -> NoDup L ->
  (forall p, p ∈ P -> len (token_ids p) <= bs) -> (length L <= nfree d s)%nat ->
  wp (swap_in_blocks bs d (Obj GPU <$> L)) (fun _ s' => exists B,
    length B = length L /\ NoDup B /\ (forall b, b ∈ B -> b ∈ known d s /\ (b ∉ ids)) /\
    alloc_ok live (B ++ ids) s' /\ keeps s s' /\
    objects s' L (zip_with (fun b p => set_block_id (Some b) p) B P) /\
    (forall d1 j, j ∈ live d1 -> (d1 = GPU -> j ∉ L) -> pool_block d1 j s' = pool_block d1 j s) /\
    (forall d1, cows d1 s' = cows d1 s) /\ nfree d s = (length L + nfree d s')%nat /\
    (forall d1, d1 <> d -> nfree d1 s' = nfree d1 s)) s.
Proof.
  unfold swap_in_blocks. intros H Hlive HO. revert ids s P H HO.
  induction L as [|i L IH]; intros ids s P H HO Hnd Hl Hf.
  { apply Forall2_nil_inv_l in HO as ->. apply wp_ret. exists []. split; [done|]. split; [apply NoDup_nil_2|].
    split; [by intros b ?%not_elem_of_nil|]. split; [exact H|]. split; [apply keeps_refl|].
    split; [by constructor|]. by split_and!. }
  apply Forall2_cons_inv_l in HO as (p & P' & Hi & HO & ->). apply NoDup_cons in Hnd as [Hn Hnd].
  cbn [fmap list_fmap for_each length] in *. apply wp_bind. eapply wp_mono.
  { apply (wp_swap_in_block live ids s d i p); [exact H|apply Hlive, list_elem_of_here|done|apply Hl, list_elem_of_here|lia]. }
  intros [] s1 (b & Hb & Hnb & H1 & K1 & A1 & O1 & C1 & F1 & N1).
  assert (forall j, j ∈ L -> j ∈ live GPU) as HliveL by (intros j Hj; by apply Hlive, list_elem_of_further).
  eapply wp_mono; [apply (IH HliveL (b :: ids) s1 P' H1)|].
  - apply (objects_frame s); [|done]. intros j Hj. apply O1; [by apply HliveL|]. by intros [= ->].
  - done.
  - intros q Hq. by apply Hl, list_elem_of_further.
  - lia.
  - intros [] s2 (B & LB & ND & HB & H2 & K2 & HO2 & O2 & C2 & F2 & N2). exists (b :: B). split_and!.
    + simpl. lia.
    + apply NoDup_cons. split; [|done]. intros Hin. destruct (HB b Hin) as [_ Hx]. apply Hx, list_elem_of_here.
    + intros c [->|Hc]%elem_of_cons; [done|]. destruct (HB c Hc) as [Hk Hx]. rewrite (kp_known _ _ K1) in Hk.
      split; [done|]. intros Hin. by apply Hx, list_elem_of_further.
    + eapply alloc_ok_perm; [done| |exact H2]. solve_Permutation.
    + by eapply keeps_trans.
    + cbn. constructor; [|done]. rewrite O2; [done|apply Hlive, list_elem_of_here|done].
    + intros d1 j Hj Hx. rewrite O2; [|done|].
      * apply O1; [done|]. intros [= -> ->]. by apply (Hx eq_refl), list_elem_of_here.
      * intros E Hin. by apply (Hx E), list_elem_of_further.
    + intros d1. by rewrite C2, C1.
    + lia.
    + intros d1 Hd. by rewrite N2, N1.
Qed.

(** ** Swapping *)

Lemma wp_block_ids L P (Q : list (option nat) -> CpuGpuBlockAllocator -> Prop) s :
  objects s L P -> Q (block_id <$> P) s ->
  wp (map_each (fun r => b ← deref r; mret (block_id b)) (Obj GPU <$> L)) Q s.
Proof.
  intros HO. revert Q. induction HO as [|i p L P Hi HO IH]; intros Q HQ; cbn [fmap list_fmap map_each].
  { by apply wp_ret. }
  apply wp_bind, wp_bind. eapply wp_deref; [done|]. apply wp_ret, wp_bind. apply IH. by apply wp_ret.
Qed.

Lemma dict_set_new (pairs l : list (nat * nat)) :
  NoDup pairs.*1 -> (forall k, k ∈ pairs.*1 -> k ∉ l.*1) ->
  fold_left (fun l p => dict_set p.1 p.2 l) pairs l = l ++ pairs.
Proof.
  revert l. induction pairs as [|[k v] pairs IH]; intros l Hnd Hn; [by rewrite app_nil_r|].
  cbn in Hnd. apply NoDup_cons in Hnd as [Hk Hnd]. cbn [fold_left fst snd]. unfold dict_set at 2.
  rewrite decide_False by (apply Hn; cbn; apply list_elem_of_here). rewrite IH; [by rewrite <- app_assoc|done|].
  intros x Hx. rewrite fmap_app. cbn. intros [Hin|Hin]%elem_of_app.
  - revert Hin. apply Hn. cbn. by apply list_elem_of_further.
  - apply list_elem_of_singleton in Hin as ->. done.
Qed.

Lemma known_pairs (B B' : list nat) :
  omap (fun p : option nat * option nat => match p with (Some s, Some t) => Some (s, t) | _ => None end)
    (zip (Some <$> B) (Some <$> B')) = zip B B'.
Proof. revert B'. induction B as [|b B IH]; intros [|b' B']; [done..|]. cbn. by rewrite IH. Qed.

Lemma new_ids B P : length B = length P -> block_id <$> zip_with (fun b p => set_block_id (Some b) p) B P = Some <$> B.
Proof. revert P. induction B as [|b B IH]; intros [|p P] H; simpl in H; try done. cbn. by rewrite IH by lia. Qed.

Lemma overwritten_ids B P :
  zip_with (fun b p => set_block_id (Some b) p) B (set_block_id None <$> P) =
  zip_with (fun b p => set_block_id (Some b) p) B P.
Proof. revert P. induction B as [|b B IH]; intros [|p P]; [done..|]. cbn. by rewrite IH. Qed.

(** What a swap leaves as it is. *)
Record swap_step (live : Device -> list nat) (L : list nat) (s s' : CpuGpuBlockAllocator) : Prop := {
  sw_known d : known d s' = known d s;
  sw_null : _null_block s' = _null_block s;
  sw_cows d : cows d s' = cows d s;
  sw_objects d j : j ∈ live d -> (d = GPU -> j ∉ L) -> pool_block d j s' = pool_block d j s
}.

Lemma wp_swap live I s src dst prev L B C :
  alloc_ok live (B ++ I) s -> segment s prev L B C -> (forall i, i ∈ L -> i ∈ live GPU) -> NoDup L -> NoDup B ->
  src <> dst -> (forall b, b ∈ B -> b ∈ known src s) -> (forall c, c ∈ C -> len c <= bs) ->
  (length L <= nfree dst s)%nat ->
  wp (swap bs (Obj GPU <$> L) src dst) (fun mapping s' => exists B',
    length B' = length B /\ NoDup B' /\ (forall b, b ∈ B' -> b ∈ known dst s /\ (b ∉ I)) /\
    mapping = zip B B' /\ alloc_ok live (B' ++ I) s' /\ segment s' prev L B' C /\ swap_step live L s s' /\
    nfree dst s = (length L + nfree dst s')%nat /\ (nfree src s <= nfree src s')%nat) s.
Proof.
  intros H Hseg Hlive HL HB Hsd Hk HC Hf. destruct (segment_length _ _ _ _ _ Hseg) as [LB LC].
  destruct (segment_objects _ _ _ _ _ Hseg) as (P & HO & HP & HT & Hback).
  assert (length P = length L) as LP by (rewrite <- LC, <- HT; by rewrite length_fmap).
  unfold swap. apply wp_bind, (wp_block_ids L P); [done|]. rewrite HP.
  apply wp_bind. eapply wp_mono; [by apply (wp_swap_out_blocks live I s src L P B)|].
  intros [] s1 (H1 & K1 & HO1 & O1 & C1 & N1 & F1). apply wp_bind.
  eapply wp_mono; [apply (wp_swap_in_blocks live I s1 dst L _ H1 Hlive HO1 HL)|].
  { intros p Hp. apply list_elem_of_fmap in Hp as (q & -> & Hq). cbn. apply HC. rewrite <- HT.
    apply list_elem_of_fmap. by exists q. }
  { by rewrite N1. }
  intros [] s2 (B' & LB' & ND & HB' & H2 & K2 & HO2 & O2 & C2 & F2 & N2). rewrite overwritten_ids in HO2.
  apply wp_bind, (wp_block_ids L _ _ _ HO2). rewrite new_ids by lia. rewrite known_pairs.
  assert (NoDup (zip B B').*1) as Hz by (rewrite fst_zip by lia; done).
  cbv zeta. apply wp_bind, wp_modify, wp_ret. exists B'. split_and!.
  - lia.
  - done.
  - intros b Hb. destruct (HB' b Hb) as [E1 E2]. by rewrite (kp_known _ _ K1) in E1.
  - rewrite dict_set_new; [done|done|]. intros k _. apply not_elem_of_nil.
  - destruct H2 as [G1 G2 G3 G4 G5]. split; try (intros d; specialize (G1 d); specialize (G2 d); specialize (G3 d); by destruct d).
    + done.
    + intros b Hb. destruct (G5 b Hb) as [d Hd]. exists d. by destruct d.
  - apply (segment_frame s2); [done|]. by apply Hback.
  - split.
    + intros d. transitivity (known d s2); [by destruct d|]. by rewrite (kp_known _ _ K2), (kp_known _ _ K1).
    + cbn. by rewrite (kp_null _ _ K2), (kp_null _ _ K1).
    + intros d. transitivity (cows d s2); [by destruct d|]. by rewrite C2, C1.
    + intros d j Hj Hx. transitivity (pool_block d j s2); [by destruct d|]. by rewrite O2, O1.
  - transitivity (nfree dst s1); [symmetry; by apply N1|]. rewrite F2. by destruct dst.
  - etrans; [exact F1|]. rewrite <- (N2 src) by done. by destruct src.
Qed.

End swap.
