(* ===== verification/V0TableSpec.v ===== *)
(** What the block table of the V0 engine guarantees: its blocks hold the
    tokens of its sequence in chunks, and appending touches no more blocks than
    [get_num_blocks_touched_by_append_slots] counts. *)

From Stdlib Require Import ZArith Lia.
From stdpp Require Import base strings numbers gmap list sorting.
From S2P Require Import Prelude.
From S2P Require Import Heapq.
From S2P Require Import V0Block.
From S2P Require Import V0Table.
From S2P Require Import V0BlockSpec.

Open Scope list_scope.
Open Scope Z_scope.

(** ** Copy on write

    [cow_steps I B C B']: one after the other, entries of the block ids [B] that
    are shared, within [B] or with the references [I] of others, are replaced by
    ids that nothing refers to; [C] are the pairs. *)

Lemma lookup_split (B I : list nat) j b : B !! j = Some b -> B ++ I ≡ₚ b :: delete j B ++ I.
Proof. intros Hb. exact (Permutation_app_tail I (delete_Permutation B j b Hb)). Qed.

Lemma insert_split (B I : list nat) j b b' : B !! j = Some b -> <[j := b']> B ++ I ≡ₚ b' :: delete j B ++ I.
Proof.
  intros Hb. apply (Permutation_app_tail I (insert_Permutation B j b' (lookup_lt_Some _ _ _ Hb))).
Qed.

(** A fresh id put in the place of another is referred to once. *)
Lemma insert_fresh_occ (B I : list nat) j b b' :
  B !! j = Some b -> b' ∉ B ++ I -> occ b' (<[j := b']> B ++ I) = 1.
Proof.
  intros Hb Hf. rewrite (occ_perm b' _ _ (insert_split B I j b b' Hb)), occ_cons, decide_True by done.
  rewrite (lookup_split B I j b Hb) in Hf. pose proof (occ_nonneg b' (delete j B ++ I)).
  pose proof (proj1 (occ_pos_iff b' (delete j B ++ I))).
  destruct (decide (0 < occ b' (delete j B ++ I))); [|lia].
  exfalso. apply Hf, list_elem_of_further. auto.
Qed.

Inductive cow_steps (I : list nat) : list nat -> list (nat * nat) -> list nat -> Prop :=
  | cs_nil B : cow_steps I B [] B
  | cs_cow B j b b' C B' :
      B !! j = Some b -> b ∈ delete j B ++ I -> b' ∉ B ++ I ->
      cow_steps I (<[j := b']> B) C B' -> cow_steps I B ((b, b') :: C) B'.

Lemma cow_steps_app I B C B' C' B'' :
  cow_steps I B C B' -> cow_steps I B' C' B'' -> cow_steps I B (C ++ C') B''.
Proof. induction 1 as [|B j b b' C B' Hb Hs Hf H IH]; intros H'; [done|]. simpl. econstructor; eauto. Qed.

Lemma cow_steps_length I B C B' : cow_steps I B C B' -> length B' = length B.
Proof. induction 1 as [|B j b b' C B' Hb Hs Hf H IH]; [done|]. by rewrite IH, length_insert. Qed.

Lemma insert_split_occ (B : list nat) j b b' x :
  B !! j = Some b -> occ x (<[j := b']> B) + occ x [b] = occ x B + occ x [b'].
Proof.
  intros Hb. rewrite (occ_perm x (<[j := b']> B) (b' :: delete j B)).
  2:{ apply insert_Permutation. by eapply lookup_lt_Some. }
  rewrite (occ_perm x B (b :: delete j B)) by (by apply delete_Permutation).
  rewrite !occ_cons. change (occ x []) with 0. lia.
Qed.

(** A reference that nothing shares is not touched. *)
Lemma cow_steps_exclusive I B C B' x :
  cow_steps I B C B' -> occ x (B ++ I) = 1 ->
  occ x (B' ++ I) = 1 /\ (x ∉ C.*1) /\ (x ∉ C.*2) /\ (forall i, B !! i = Some x -> B' !! i = Some x).
Proof.
  induction 1 as [B|B j b b' C B' Hb Hs Hf H IH]; intros Hx.
  { split_and!; try done; simpl; by intros ?%not_elem_of_nil. }
  assert (x <> b) as Hxb.
  { intros ->. rewrite (occ_perm b (B ++ I) (b :: delete j B ++ I)) in Hx.
    - rewrite occ_cons, decide_True in Hx by done. apply occ_pos_iff in Hs. lia.
    - by apply lookup_split. }
  assert (x <> b') as Hxb'.
  { intros ->. apply Hf, occ_pos_iff. lia. }
  pose proof (insert_split_occ B j b b' x Hb) as E. rewrite !occ_cons, !decide_False in E by done.
  rewrite occ_app in Hx. destruct IH as (IH1 & IH2 & IH3 & IH4); [rewrite occ_app; lia|].
  split_and!; [done|simpl; set_solver|simpl; set_solver|]. intros i Hi. apply IH4.
  rewrite list_lookup_insert_ne; [done|]. intros ->. congruence.
Qed.

(** The new ids are not among those of others, nor were they in use. *)
Lemma cow_steps_fresh I B C B' d : cow_steps I B C B' -> d ∈ C.*2 -> d ∉ B ++ I.
Proof.
  induction 1 as [B|B j b b' C B' Hb Hs Hf H IH]; intros Hd; simpl in Hd; [by apply not_elem_of_nil in Hd|].
  apply elem_of_cons in Hd as [->|Hd]; [done|]. specialize (IH Hd).
  destruct (decide (d = b')) as [->|Hne]; [done|].
  assert (d ∈ B ++ I -> d ∈ <[j := b']> B ++ I \/ d = b) as Hor.
  { rewrite !elem_of_app. intros [Hin|Hin]; [|tauto]. apply list_elem_of_lookup in Hin as [i Hi].
    destruct (decide (i = j)) as [->|]; [right; congruence|]. left. left.
    apply (list_elem_of_lookup_2 _ i). by rewrite list_lookup_insert_ne. }
  intros Hin. destruct (Hor Hin) as [|Hdb]; [done|]. subst d. apply IH.
  rewrite (insert_split B I j b b' Hb). set_solver.
Qed.

(** What is replaced was in use, and the ids in use are the old or the new ones. *)
Lemma cow_steps_src I B C B' x : cow_steps I B C B' -> x ∈ B ++ I -> x ∈ B' ++ I.
Proof.
  induction 1 as [B|B j b b' C B' Hb Hs Hf H IH]; intros Hx; [done|]. apply IH.
  rewrite (insert_split B I j b b' Hb). rewrite (lookup_split B I j b Hb) in Hx. set_solver.
Qed.

Lemma cow_steps_ids I B C B' x : cow_steps I B C B' -> x ∈ B' ++ I -> x ∈ B ++ I \/ x ∈ C.*2.
Proof.
  induction 1 as [B|B j b b' C B' Hb Hs Hf H IH]; intros Hx; [by left|]. simpl.
  destruct (IH Hx) as [Hx'|]; [|set_solver].
  rewrite (insert_split B I j b b' Hb) in Hx'. rewrite (lookup_split B I j b Hb). set_solver.
Qed.

(** ** Chunks *)

Section table.
Context (bs : Z) (Hbs : 0 < bs).

(** The tokens of [T] that block [j] of a table holds. *)
Definition chunk (T : list Z) (j : nat) : list Z :=
  slice (Z.of_nat j * bs) (Z.of_nat j * bs + bs) T.
Definition chunks (T : list Z) (k n : nat) : list (list Z) := chunk T <$> seq k n.

Lemma chunk_eq T j : chunk T j = take (Z.to_nat bs) (drop (j * Z.to_nat bs) T).
Proof. unfold chunk, slice. f_equal; [lia|]. f_equal. lia. Qed.

Lemma chunk_length T j : len (chunk T j) <= bs.
Proof. rewrite chunk_eq. unfold len. rewrite length_take. lia. Qed.

(** Tokens appended to [T] only show in the block they fall in. *)
Lemma chunk_app_before T c j : (Z.of_nat j + 1) * bs <= len T -> chunk (T ++ c) j = chunk T j.
Proof.
  intros Hj. rewrite !chunk_eq. unfold len in Hj.
  rewrite drop_app_le, take_app_le; [done| |nia]. rewrite length_drop. nia.
Qed.

Lemma chunk_app_after T c j : len T + len c <= Z.of_nat j * bs -> chunk (T ++ c) j = chunk T j.
Proof.
  intros Hj. rewrite !chunk_eq. unfold len in Hj.
  rewrite (drop_ge T), (drop_ge (T ++ c)); [done|rewrite length_app; nia|nia].
Qed.

Lemma chunk_app_at T c j :
  Z.of_nat j * bs <= len T -> len T + len c <= (Z.of_nat j + 1) * bs ->
  chunk (T ++ c) j = chunk T j ++ c.
Proof.
  intros Hj Hj'. rewrite !chunk_eq. unfold len in Hj, Hj'. rewrite drop_app_le by nia.
  rewrite (take_ge (drop _ T)) by (rewrite length_drop; nia).
  apply take_ge. rewrite length_app, length_drop. nia.
Qed.

Lemma chunk_nil T j : len T <= Z.of_nat j * bs -> chunk T j = [].
Proof. intros Hj. rewrite chunk_eq. unfold len in Hj. rewrite drop_ge by nia. by rewrite take_nil. Qed.

Lemma chunk_full T j : (Z.of_nat j + 1) * bs <= len T -> len (chunk T j) = bs.
Proof. intros Hj. rewrite chunk_eq. unfold len in *. rewrite length_take, length_drop. nia. Qed.

Lemma chunk_len_at T j :
  Z.of_nat j * bs <= len T -> len T <= (Z.of_nat j + 1) * bs -> len (chunk T j) = len T - Z.of_nat j * bs.
Proof. intros Hj Hj'. rewrite chunk_eq. unfold len in *. rewrite length_take, length_drop. nia. Qed.

Lemma chunks_length T k n : length (chunks T k n) = n.
Proof. unfold chunks. by rewrite length_fmap, length_seq. Qed.

Lemma chunks_lookup T k n j : (j < n)%nat -> chunks T k n !! j = Some (chunk T (k + j)).
Proof. intros Hj. unfold chunks. rewrite list_lookup_fmap, lookup_seq_lt by done. done. Qed.

Lemma chunks_S T k n : chunks T k (S n) = chunk T k :: chunks T (S k) n.
Proof. done. Qed.

Lemma chunks_snoc T k n : chunks T k (n + 1) = chunks T k n ++ [chunk T (k + n)].
Proof. unfold chunks. rewrite seq_app, fmap_app. done. Qed.

Lemma chunks_Forall T k n : Forall (fun c => len c <= bs) (chunks T k n).
Proof. apply Forall_fmap, Forall_forall. intros j _. apply chunk_length. Qed.

(** Appending [c] within block [j] changes that chunk alone. *)
Lemma chunks_app T c k n j :
  (j < n)%nat -> Z.of_nat (k + j) * bs <= len T -> len T + len c <= (Z.of_nat (k + j) + 1) * bs ->
  chunks (T ++ c) k n = <[j := chunk T (k + j) ++ c]> (chunks T k n).
Proof.
  intros Hj H1 H2. apply list_eq. intros i. destruct (decide (i < n)%nat) as [Hi|Hi].
  - rewrite chunks_lookup by done. destruct (decide (i = j)) as [->|Hij].
    + rewrite list_lookup_insert_eq by (by rewrite chunks_length). f_equal. by apply chunk_app_at.
    + rewrite list_lookup_insert_ne, chunks_lookup by done. f_equal.
      destruct (decide (i < j)%nat); [apply chunk_app_before; nia|apply chunk_app_after; nia].
  - rewrite !lookup_ge_None_2; [done|rewrite length_insert, chunks_length; lia|rewrite chunks_length; lia].
Qed.

(** [chunk_list] cuts a list into its chunks. *)
Lemma chunk_list_chunks T : chunk_list T bs = chunks T 0 (Z.to_nat (cdiv (len T) bs)).
Proof.
  unfold chunk_list, chunks, py_range. rewrite Z.sub_0_r.
  apply list_eq. intros i. rewrite !list_lookup_fmap.
  destruct (decide (i < Z.to_nat (cdiv (len T) bs))%nat) as [Hi|Hi].
  - rewrite lookup_range_fuel, lookup_seq_lt by done. by rewrite Z.add_0_l.
  - rewrite !lookup_ge_None_2; [done|rewrite length_seq; lia|rewrite length_range_fuel; lia].
Qed.

Lemma concat_chunks T : concat (chunks T 0 (Z.to_nat (cdiv (len T) bs))) = T.
Proof.
  assert (forall n k, len T <= Z.of_nat (k + n) * bs ->
    concat (chunks T k n) = drop (k * Z.to_nat bs) T) as H.
  { induction n as [|n IH]; intros k Hk.
    - simpl. rewrite drop_ge; [done|]. unfold len in Hk. nia.
    - rewrite chunks_S. cbn [concat]. rewrite IH by lia. rewrite chunk_eq.
      rewrite <- (take_drop (Z.to_nat bs) (drop (k * Z.to_nat bs) T)) at 2. f_equal.
      rewrite drop_drop. f_equal. lia. }
  rewrite H; [done|]. pose proof (cdiv_spec (len T) bs Hbs).
  pose proof (cdiv_nonneg (len T) bs Hbs (len_nonneg T)). lia.
Qed.

(** [token_blocks] are the pieces in which tokens are appended after [f] slots:
    every piece fits in the block it goes to and all but the last fill it. *)
Fixpoint fits (f : Z) (token_blocks : list (list Z)) : Prop :=
  match token_blocks with
  | [] => True
  | c :: rest =>
      let room := bs - f mod bs in
      len c <= room /\ (rest <> [] -> len c = room) /\ fits (f + len c) rest
  end.

Lemma fits_chunk_list f T k n :
  f mod bs = 0 -> (0 < n)%nat -> Z.of_nat (k + n - 1) * bs <= len T -> fits f (chunks T k n).
Proof.
  revert f k. induction n as [|n IH]; intros f k Hf Hn Hl; [lia|].
  rewrite chunks_S. cbn [fits]. rewrite Hf, Z.sub_0_r.
  split; [by apply chunk_length|].
  destruct n as [|n]; [by split|].
  assert (len (chunk T k) = bs) as E by (apply chunk_full; nia).
  split; [done|]. rewrite E. apply IH; [|lia|nia]. rewrite <- Z.add_mod_idemp_l by lia.
  rewrite Hf, Z.add_0_l. by apply Z_mod_same_full.
Qed.

(** Where the next tokens go. *)
Lemma div_mod_pos f : 0 <= f -> f = bs * (f / bs) + f mod bs /\ 0 <= f mod bs < bs /\ 0 <= f / bs.
Proof.
  intros Hf. split_and!; [apply Z.div_mod; lia|apply Z.mod_pos_bound; lia..|apply Z.div_pos; lia].
Qed.

Lemma cdiv_shift a q : cdiv (a + q * bs) bs = cdiv a bs + q.
Proof. unfold cdiv. rewrite <- (Z.mul_opp_opp q bs), Z.div_add by lia. lia. Qed.

Lemma cdiv_pos a : 0 < a -> 1 <= cdiv a bs.
Proof. intros Ha. pose proof (cdiv_spec a bs Hbs). nia. Qed.

Lemma append_pieces t toks :
  0 <= _num_full_slots t ->
  fits (_num_full_slots t) (_chunk_token_blocks_for_append bs toks t) /\
  concat (_chunk_token_blocks_for_append bs toks t) = toks /\
  (toks <> [] -> len (_chunk_token_blocks_for_append bs toks t) =
     cdiv (_num_full_slots t + len toks) bs - _num_full_slots t / bs) /\
  (toks = [] -> _chunk_token_blocks_for_append bs toks t = []).
Proof.
  intros Hf. set (f := _num_full_slots t) in *. unfold _chunk_token_blocks_for_append. fold f.
  destruct (len toks =? 0) eqn:E.
  { assert (toks = []) as -> by (destruct toks; [done|]; rewrite len_cons in E; len_lia). done. }
  assert (toks <> []) as Hne by (intros ->; done).
  assert (0 < len toks) as Hpos by (destruct toks; [done|rewrite len_cons; len_lia]).
  destruct (div_mod_pos f Hf) as (Ef & Hm & Hq).
  set (room := bs - f mod bs) in *. set (rest := slice room (len toks) toks).
  rewrite (chunk_list_chunks rest).
  assert (slice 0 room toks = take (Z.to_nat room) toks) as Etake.
  { unfold slice. by rewrite Z.sub_0_r. }
  assert (rest = drop (Z.to_nat room) toks) as Edrop.
  { subst rest. unfold slice. apply take_ge. rewrite length_drop. unfold len. lia. }
  assert (len (slice 0 room toks) = Z.min room (len toks)) as El.
  { rewrite Etake. unfold len. rewrite length_take. lia. }
  assert (len rest = Z.max 0 (len toks - room)) as Er.
  { rewrite Edrop. unfold len. rewrite length_drop. lia. }
  assert (cdiv (f + len toks) bs - f / bs = 1 + cdiv (len toks - room) bs) as Ec.
  { replace (f + len toks) with (len toks - room + (f / bs + 1) * bs) by (subst room; lia).
    rewrite cdiv_shift. lia. }
  split_and!; [|rewrite Etake|..].
  - cbn [fits]. fold room. rewrite El. split; [lia|].
    pose proof (cdiv_nonneg (len rest) bs Hbs (len_nonneg rest)) as Hn.
    destruct (Z.to_nat (cdiv (len rest) bs)) as [|n] eqn:En.
    + split; [by intros []|done].
    + assert (0 < len rest) as Hr.
      { destruct (decide (0 < len rest)); [done|]. pose proof (len_nonneg rest).
        assert (len rest = 0) as E0 by lia. rewrite E0 in En. change (cdiv 0 bs) with (cdiv (0 + 0 * bs) bs) in En.
        rewrite cdiv_shift in En. pose proof (cdiv_spec 0 bs Hbs). nia. }
      split; [intros _; lia|]. apply fits_chunk_list; [|lia|].
      * rewrite Z.min_l by lia. replace (f + room) with (0 + (f / bs + 1) * bs) by (subst room; lia).
        rewrite Z.mod_add by lia. by apply Zmod_0_l.
      * pose proof (cdiv_spec (len rest) bs Hbs). nia.
  - cbn [concat]. rewrite concat_chunks by done. rewrite Edrop. apply take_drop.
  - intros _. rewrite len_cons, Ec. f_equal. unfold len at 1. rewrite chunks_length, Er.
    destruct (decide (0 <= len toks - room)).
    + rewrite Z.max_r by done. pose proof (cdiv_nonneg (len toks - room) bs Hbs ltac:(done)). lia.
    + rewrite Z.max_l by lia. pose proof (cdiv_spec (len toks - room) bs Hbs).
      pose proof (cdiv_spec 0 bs Hbs). nia.
  - done.
Qed.

(** [get_num_blocks_touched_by_append_slots] counts the blocks from the one that
    the next slot is in to the one that the last slot is in. *)
Lemma touched_eq t toks la :
  0 <= _num_full_slots t ->
  get_num_blocks_touched_by_append_slots bs toks la t =
    cdiv (_num_full_slots t + len toks + la) bs - _num_full_slots t / bs.
Proof.
  intros Hf. unfold get_num_blocks_touched_by_append_slots.
  destruct (div_mod_pos _ Hf) as (Ef & Hm & Hq). set (f := _num_full_slots t) in *.
  replace (f + len toks + la) with (len toks + la - (bs - f mod bs) + (f / bs + 1) * bs) by lia.
  rewrite cdiv_shift. lia.
Qed.

(** ** The table *)

(** A table whose first [k] blocks were dropped out of the window and whose
    others are the objects [L], on the blocks [B], with the tokens [T]. *)
Record run_ok (s : CpuGpuBlockAllocator) (t : BlockTable) (k : nat) (L B : list nat) (T : list Z) : Prop := {
  rk_blocks : _blocks t = replicate k Null ++ (Obj GPU <$> L);
  rk_ids : _block_ids t = replicate k (null_id s) ++ B;
  rk_seg : exists prev, segment s prev L B (chunks T k (length L)) /\ (k = 0%nat -> prev = None);
  rk_room : len T <= Z.of_nat (k + length L) * bs;
  rk_null : (0 < k)%nat -> is_Some (_null_block s)
}.

(** What appending leaves of the table's attributes. *)
Definition same_head (t t' : BlockTable) : Prop :=
  _max_block_sliding_window t' = _max_block_sliding_window t /\ _num_full_slots t' = _num_full_slots t.

Lemma run_ok_frame s s' t k L B T :
  (is_Some (_null_block s) -> null_id s' = null_id s /\ is_Some (_null_block s')) ->
  (forall i, i ∈ L -> pool_block GPU i s' = pool_block GPU i s) ->
  run_ok s t k L B T -> run_ok s' t k L B T.
Proof.
  intros Hn Ho [H1 H2 (prev & H3 & H4) H5 H6].
  split; [done| | |done|].
  - destruct k as [|k]; [done|]. by destruct Hn as [-> _]; [apply H6; lia|].
  - exists prev. split; [|done]. by eapply segment_frame.
  - intros Hk. by apply Hn, H6.
Qed.

Lemma run_ok_length s t k L B T : run_ok s t k L B T -> length B = length L.
Proof. intros [_ _ (prev & H & _) _ _]. by destruct (segment_length _ _ _ _ _ H). Qed.

Lemma wp_on_alloc {A} (m : M CpuGpuBlockAllocator A) (Q : A -> state -> Prop) a t :
  wp m (fun x a' => Q x (a', t)) a -> wp (on_alloc m) Q (a, t).
Proof. intros H. by apply wp_zoom. Qed.

Lemma wp_on_table {A} (m : M BlockTable A) (Q : A -> state -> Prop) a t :
  wp m (fun x t' => Q x (a, t')) t -> wp (on_table m) Q (a, t).
Proof. intros H. by apply wp_zoom. Qed.

Lemma wp_deref_null R ids (Q : Block -> CpuGpuBlockAllocator -> Prop) s :
  null_in R ids s -> is_Some (_null_block s) -> Q (mkBlock None [] (Some (null_id s))) s ->
  wp (deref Null) Q s.
Proof.
  unfold null_in, null_id, deref, wp. intros Hn [r Hr]. rewrite Hr in *. destruct r as [[] i|]; [|done..].
  destruct Hn as (b & _ & _ & _ & E). simpl. rewrite E. done.
Qed.

Lemma insert_middle {A} (l1 l2 : list A) x y i : i = length l1 -> <[i := y]> (l1 ++ x :: l2) = l1 ++ y :: l2.
Proof. intros ->. rewrite insert_app_r_alt by lia. by rewrite Nat.sub_diag. Qed.

Lemma lookup_middle {A} (l1 l2 : list A) x i : i = length l1 -> (l1 ++ x :: l2) !! i = Some x.
Proof. intros ->. by apply list_lookup_middle. Qed.

(** *** Dropping blocks out of the window *)

Lemma wp_drop_block I R s t k a L b B T :
  run_ok s t k (a :: L) (b :: B) T -> alloc_ok (gpu_only (a :: L ++ R)) (b :: B ++ I) s ->
  null_in R I s -> is_Some (_null_block s) -> b ∈ known GPU s ->
  wp (drop_block Null k) (fun _ st => run_ok st.1 st.2 (S k) L B T /\
    alloc_ok (gpu_only (L ++ R)) (B ++ I) st.1 /\ keeps s st.1 /\ same_head t st.2 /\
    same_on (gpu_only R) s st.1 /\ (forall d, cows d st.1 = cows d s) /\
    nfree CPU st.1 = nfree CPU s /\ (nfree GPU s <= nfree GPU st.1)%nat) (s, t).
Proof.
  intros [H1 H2 (prev & [Ha HS] & _) H4 H5] Ha' Hnull Hsome Hk.
  unfold drop_block, get_item. wp_steps. cbn [snd].
  rewrite H1, fmap_cons, lookup_middle by (by rewrite length_replicate). wp_steps.
  rewrite decide_False by done. wp_steps. apply wp_on_alloc.
  eapply wp_mono; [by eapply (wp_free_object (L ++ R) (B ++ I))|].
  intros [] s1 (G1 & K1 & O1 & C1 & N1 & F1).
  assert (same_on (gpu_only R) s s1) as OR.
  { intros d i Hi. apply O1. destruct d; simpl in *; set_solver. }
  destruct (null_in_frame _ _ _ _ K1 OR Hnull) as [Hnull1 Hid].
  unfold set_item. wp_steps. cbn [snd]. rewrite H1.
  rewrite (proj2 (Nat.ltb_lt _ _)) by (rewrite length_app, length_replicate; simpl; lia).
  apply wp_on_table. wp_steps. unfold _block_id_of. wp_steps. apply wp_on_alloc.
  eapply wp_deref_null; [done|by rewrite (kp_null _ _ K1)|]. wp_steps. cbn [block_id _update_block_id].
  wp_steps. cbn [snd _block_ids set_list].
  unfold id. rewrite H2. rewrite (proj2 (Nat.ltb_lt _ _)) by (rewrite length_app, length_replicate; simpl; lia).
  apply wp_on_table. wp_steps. cbn [fst snd].
  split_and!; [|done|done|done|done|done|done|rewrite F1; lia].
  split; cbn [_blocks _block_ids set_list].
  - unfold id. rewrite H1, fmap_cons, insert_middle by (by rewrite length_replicate).
    by rewrite replicate_S_end, <- app_assoc.
  - unfold id. rewrite H2, insert_middle by (by rewrite length_replicate).
    by rewrite Hid, replicate_S_end, <- app_assoc.
  - exists (Some (Obj GPU a)). split; [|done].
    change (segment s (Some (Obj GPU a)) L B (chunks T (S k) (length L))) in HS.
    eapply segment_frame; [|exact HS]. intros i Hi. apply (O1 GPU). simpl. set_solver.
  - cbn [length] in H4. lia.
  - intros _. by rewrite (kp_null _ _ K1).
Qed.

Lemma wp_drop_loop I R n i s t k L B T :
  run_ok s t k L B T -> alloc_ok (gpu_only (L ++ R)) (B ++ I) s -> null_in R I s ->
  is_Some (_null_block s) -> (forall b, b ∈ B -> b ∈ known GPU s) ->
  (i <= k)%nat -> (i + n < k + length L)%nat ->
  wp (for_each (drop_block Null) (seq i n)) (fun _ st => exists m, m = (Nat.max k (i + n) - k)%nat /\
    run_ok st.1 st.2 (k + m) (drop m L) (drop m B) T /\
    alloc_ok (gpu_only (drop m L ++ R)) (drop m B ++ I) st.1 /\ keeps s st.1 /\ same_head t st.2 /\
    same_on (gpu_only R) s st.1 /\ (forall d, cows d st.1 = cows d s) /\
    nfree CPU st.1 = nfree CPU s /\ (nfree GPU s <= nfree GPU st.1)%nat) (s, t).
Proof.
  revert i s t k L B. induction n as [|n IH]; intros i s t k L B H Ha Hnull Hsome Hk Hi Hl.
  { cbn [seq for_each]. apply wp_ret. exists 0%nat. cbn [fst snd drop]. rewrite !Nat.add_0_r.
    split_and!; auto using keeps_refl; try lia; try (by split); by intros ? ?. }
  cbn [seq for_each]. apply wp_bind. pose proof (run_ok_length _ _ _ _ _ _ H) as Hlen.
  destruct (decide (i < k)%nat) as [Hlt|Hge].
  - unfold drop_block, get_item. wp_steps. cbn [snd].
    rewrite (rk_blocks _ _ _ _ _ _ H), lookup_app_l by (rewrite length_replicate; lia).
    rewrite lookup_replicate_2 by done. wp_steps. rewrite decide_True by done. apply wp_ret.
    eapply wp_mono; [apply (IH (S i) s t k L B); try done; lia|].
    intros [] [s' t'] (m & Em & G). exists m. split; [lia|]. exact G.
  - assert (i = k) as -> by lia. destruct L as [|a L]; [simpl in Hl; lia|].
    destruct B as [|b B]; [done|].
    eapply wp_mono; [apply (wp_drop_block I R s t k a L b B T); try done; apply Hk; set_solver|].
    intros [] [s1 t1] (G1 & G2 & K1 & T1 & O1 & C1 & N1 & F1). cbn [fst snd] in *.
    destruct (null_in_frame _ _ _ _ K1 O1 Hnull) as [Hnull1 Hid].
    eapply wp_mono; [apply (IH (S k) s1 t1 (S k) L B); try done|].
    { by rewrite (kp_null _ _ K1). }
    { intros c Hc. rewrite (kp_known _ _ K1). apply Hk. set_solver. }
    { simpl in Hl. lia. }
    intros [] [s' t'] (m & Em & G3 & G4 & K2 & T2 & O2 & C2 & N2 & F2). cbn [fst snd] in *.
    exists (S m). cbn [drop]. replace (k + S m)%nat with (S k + m)%nat by lia. split_and!; try done.
    + lia.
    + by eapply keeps_trans.
    + destruct T1, T2. split; congruence.
    + by eapply same_on_trans.
    + intros d. by rewrite C2, C1.
    + by rewrite N2.
    + lia.
Qed.

(** How many blocks [drop_blocks] drops from a table of which [k] are dropped. *)
Definition window_drop (t : BlockTable) (computed : Z) (k : nat) : nat :=
  match _max_block_sliding_window t with
  | None => 0
  | Some w => Nat.max k (Z.to_nat (computed / bs - w)) - k
  end.

(** The [NullBlock] is made for the first window. *)
Definition null_need (t : BlockTable) (s : CpuGpuBlockAllocator) : nat :=
  match _max_block_sliding_window t, _null_block s with Some _, None => 1 | _, _ => 0 end.

(** What an operation on a table guarantees to the rest. *)
Record table_frame (R : list nat) (s s' : CpuGpuBlockAllocator) : Prop := {
  tf_known d : known d s' = known d s;
  tf_on : same_on (gpu_only R) s s';
  tf_null : is_Some (_null_block s) -> _null_block s' = _null_block s;
  tf_cpu : nfree CPU s' = nfree CPU s
}.

Lemma keeps_frame R s s' :
  keeps s s' -> same_on (gpu_only R) s s' -> nfree CPU s' = nfree CPU s -> table_frame R s s'.
Proof. intros [K1 K2 K3] O N. by split. Qed.

Lemma table_frame_trans R s s' s'' : table_frame R s s' -> table_frame R s' s'' -> table_frame R s s''.
Proof.
  intros [a b c d] [a' b' c' d']. split.
  - intros e. by rewrite a', a.
  - by eapply same_on_trans.
  - intros H. rewrite c', c; [done|done|by rewrite c].
  - by rewrite d', d.
Qed.

Lemma null_in_table R ids s s' : table_frame R s s' -> is_Some (_null_block s) ->
  null_in R ids s -> null_in R ids s' /\ null_id s' = null_id s.
Proof.
  intros [K O N _] Hs. unfold null_in, null_id. rewrite N by done. destruct (_null_block s) as [[[] i|]|]; try done.
  intros (b & Hi & Hb & Hk & E). rewrite (O GPU i) by done. split; [|done].
  exists b. rewrite (K GPU). by split_and!.
Qed.

(** The [NullBlock] was there, or is what the operation made. *)
Definition null_part (nl nids : list nat) (s s' : CpuGpuBlockAllocator) : Prop :=
  (is_Some (_null_block s) /\ nl = [] /\ nids = []) \/
  (_null_block s = None /\ (null_in nl nids s' /\ (length nids <= 1)%nat) /\
    (_null_block s' = None -> nl = [] /\ nids = [])).

Lemma null_part_refl s : null_part [] [] s s.
Proof.
  unfold null_part, null_in. destruct (_null_block s) as [r|]; [left|right; split_and!; simpl; try done; lia].
  by split; [eexists|].
Qed.

Lemma null_part_frame R nl nids s s' s'' :
  null_part nl nids s s' -> keeps s' s'' -> same_on (gpu_only (nl ++ R)) s' s'' -> null_part nl nids s s''.
Proof.
  intros [H|(H & [Hn H1] & Hz)] K O; [by left|right]. split_and!; [done| |done|by rewrite (kp_null _ _ K)].
  eapply null_in_frame; [exact K| |exact Hn]. intros d j Hj. apply O. destruct d; simpl in *; set_solver.
Qed.

Lemma wp_drop_blocks I R s t k L B T computed :
  run_ok s t k L B T -> L <> [] -> alloc_ok (gpu_only (L ++ R)) (B ++ I) s -> null_in R I s ->
  (forall b, b ∈ B -> b ∈ known GPU s) -> (null_need t s <= nfree GPU s)%nat ->
  (forall w, _max_block_sliding_window t = Some w -> 1 <= w /\ 0 <= computed <= len T) ->
  wp (drop_blocks bs (Some computed)) (fun _ st => exists m nl nids, m = window_drop t computed k /\
    (m < length L)%nat /\
    run_ok st.1 st.2 (k + m) (drop m L) (drop m B) T /\
    alloc_ok (gpu_only (drop m L ++ nl ++ R)) (drop m B ++ nids ++ I) st.1 /\
    null_in (nl ++ R) (nids ++ I) st.1 /\ null_part nl nids s st.1 /\ length nids = null_need t s /\
    (forall b, b ∈ nids -> b ∉ B ++ I) /\ NoDup nids /\ table_frame R s st.1 /\ same_head t st.2 /\
    (_max_block_sliding_window t <> None -> is_Some (_null_block st.1)) /\
    (forall d, cows d st.1 = cows d s) /\ (nfree GPU s <= null_need t s + nfree GPU st.1)%nat) (s, t).
Proof.
  intros H HL Ha Hnull Hk Hf Hw. unfold drop_blocks, window_drop, null_need in *. wp_steps. cbn [snd].
  assert (0 < length L)%nat as Hpos by (destruct L; [done|simpl; lia]).
  destruct (_max_block_sliding_window t) as [w|] eqn:Ew.
  2:{ apply wp_ret. exists 0%nat, [], []. cbn [fst snd drop app length]. rewrite !Nat.add_0_r.
      split_and!; try done; try apply NoDup_nil_2; try (by intros ? ?%not_elem_of_nil).
      apply null_part_refl. }
  destruct (Hw w eq_refl) as [Hw1 Hw2]. wp_steps. apply wp_on_alloc.
  eapply wp_mono; [apply (wp_null_block _ Hbs (L ++ R) (B ++ I) s Ha)|].
  { destruct (_null_block s); [left; by eexists|right; lia]. }
  intros r s1 (-> & Hsome & Hcase).
  assert (exists nl nids, alloc_ok (gpu_only (L ++ nl ++ R)) (B ++ nids ++ I) s1 /\
    null_in (nl ++ R) (nids ++ I) s1 /\ null_part nl nids s s1 /\ length nids = (match _null_block s with None => 1 | _ => 0 end)%nat /\
    (forall b, b ∈ nids -> b ∉ B ++ I) /\ NoDup nids /\ same_on (gpu_only (L ++ R)) s s1 /\
    table_frame R s s1 /\ (is_Some (_null_block s) -> s1 = s) /\ (forall d, cows d s1 = cows d s) /\
    nfree GPU s = (length nids + nfree GPU s1)%nat)
    as (nl & nids & A1 & Nu1 & NP1 & E1 & Fr1 & ND1 & O1 & T1 & S1 & C1 & F1).
  { destruct Hcase as [[[r Hr] ->]|(En & i & b & A1 & Nu1 & Hb & O1 & K1 & C1 & N1 & F1)].
    - exists [], []. rewrite Hr. split_and!; try done; try apply NoDup_nil_2; try (by intros ? ?%not_elem_of_nil).
      left. rewrite Hr. by split; [eexists|].
    - exists [i], [b]. rewrite En. split_and!; try done.
      + eapply alloc_ok_perm; [| |exact A1]; [|simpl; by rewrite Permutation_middle].
        intros []; simpl; [by rewrite Permutation_middle|done].
      + eapply null_in_sub; [| |exact Nu1]; set_solver.
      + right. split_and!; [done|done|simpl; lia|]. intros Hz. destruct Hsome as [? ?]. congruence.
      + set_solver.
      + apply NoDup_singleton.
      + split; [done| |intros [? ?]; congruence|done].
        intros d j Hj. apply O1. destruct d; simpl in *; set_solver. }
  set (n := Z.to_nat (computed / bs - w)).
  assert (run_ok s1 t k L B T) as H1.
  { eapply run_ok_frame; [| |exact H].
    - intros Hs. by rewrite S1.
    - intros i Hi. apply (O1 GPU). simpl. set_solver. }
  assert (n < k + length L)%nat as Hn.
  { pose proof (rk_room _ _ _ _ _ _ H). subst n.
    assert (computed / bs <= Z.of_nat (k + length L)) by (apply Z.div_le_upper_bound; lia). lia. }
  eapply wp_mono; [apply (wp_drop_loop (nids ++ I) (nl ++ R) n 0 s1 t k L B T); try done; try lia|].
  { intros b Hb. rewrite (tf_known _ _ _ T1). by apply Hk. }
  intros [] [s2 t2] (m & Em & G1 & G2 & K2 & Hd2 & O2 & C2 & N2 & F2). cbn [fst snd] in *.
  exists m, nl, nids. rewrite Nat.add_0_l in Em. split_and!; try done.
  - lia.
  - by destruct (null_in_frame _ _ _ _ K2 O2 Nu1).
  - by eapply null_part_frame.
  - eapply table_frame_trans; [exact T1|]. apply keeps_frame; [done| |done].
    intros d j Hj. apply O2. destruct d; simpl in *; set_solver.
  - intros _. by rewrite (kp_null _ _ K2).
  - intros d. by rewrite C2, C1.
  - destruct (_null_block s); simpl in *; lia.
Qed.

(** *** New blocks at the end *)

Lemma wp_append_block I R s t k L B T :
  run_ok s t k L B T -> L <> [] -> alloc_ok (gpu_only (L ++ R)) (B ++ I) s -> null_in R I s ->
  (0 < nfree GPU s)%nat ->
  wp (append_block bs) (fun _ st => exists i b,
    b ∈ known GPU s /\ (b ∉ B ++ I) /\
    run_ok st.1 st.2 k (L ++ [i]) (B ++ [b]) T /\
    alloc_ok (gpu_only ((L ++ [i]) ++ R)) ((B ++ [b]) ++ I) st.1 /\ keeps s st.1 /\
    same_on (gpu_only R) s st.1 /\ same_head t st.2 /\ (forall d, cows d st.1 = cows d s) /\
    nfree CPU st.1 = nfree CPU s /\ nfree GPU s = S (nfree GPU st.1)) (s, t).
Proof.
  intros H HL Ha Hnull Hf. unfold append_block. wp_steps. cbn [snd].
  destruct L as [|x L0 _] using rev_ind; [done|]. set (L := L0 ++ [x]) in *.
  assert (last (_blocks t) = Some (Obj GPU x)) as ->.
  { rewrite (rk_blocks _ _ _ _ _ _ H). subst L. rewrite fmap_app, app_assoc. apply last_snoc. }
  wp_steps. apply wp_on_alloc.
  eapply wp_mono; [apply (wp_allocate_mutable bs Hbs _ _ _ GPU (Some (Obj GPU x)) Ha Hf)|].
  intros r s1 (i & b & -> & Hb & Hn & A1 & [K1 I1 P1 L1] & C1 & F1 & N1).
  unfold list_append. wp_steps. apply wp_on_table. wp_steps. unfold _block_id_of. wp_steps.
  apply wp_on_alloc. eapply wp_deref; [done|]. wp_steps. cbn [block_id _add_block_id].
  apply wp_on_table. wp_steps. exists i, b. cbn [fst snd]. unfold id.
  assert (same_on (gpu_only R) s s1) as OR.
  { intros d j Hj. apply L1. destruct d; simpl in *; set_solver. }
  destruct (null_in_frame _ _ _ _ K1 OR Hnull) as [Hnull1 Hid].
  assert (run_ok s1 t k L B T) as [H1 H2 (prev & H3 & H3') H4 H5].
  { eapply run_ok_frame; [| |exact H].
    - intros Hs. by rewrite (kp_null _ _ K1).
    - intros j Hj. apply (L1 GPU). simpl. set_solver. }
  split_and!; try done.
  - split; cbn [_blocks _block_ids set_list]; [by rewrite H1, fmap_app, app_assoc|
      by rewrite H2, app_assoc| |rewrite length_app; simpl; lia|done].
    exists prev. split; [|done]. rewrite length_app. cbn [length]. rewrite chunks_snoc.
    apply segment_snoc; [done|]. rewrite P1. subst L. rewrite last_ref_snoc. by rewrite chunk_nil by lia.
  - eapply alloc_ok_perm; [| |exact A1]; [|solve_Permutation].
    intros d. rewrite gpu_only_add. destruct d; simpl; [solve_Permutation|done].
  - by apply N1.
Qed.

Lemma wp_append_blocks {A} (l : list A) I R s t k L B T :
  run_ok s t k L B T -> L <> [] -> alloc_ok (gpu_only (L ++ R)) (B ++ I) s -> null_in R I s ->
  (length l <= nfree GPU s)%nat ->
  wp (for_each (fun _ => append_block bs) l) (fun _ st => exists Ln Bn,
    length Bn = length l /\ (forall b, b ∈ Bn -> b ∈ known GPU s /\ (b ∉ B ++ I)) /\ NoDup Bn /\
    run_ok st.1 st.2 k (L ++ Ln) (B ++ Bn) T /\
    alloc_ok (gpu_only ((L ++ Ln) ++ R)) ((B ++ Bn) ++ I) st.1 /\ keeps s st.1 /\
    same_on (gpu_only R) s st.1 /\ same_head t st.2 /\ (forall d, cows d st.1 = cows d s) /\
    nfree CPU st.1 = nfree CPU s /\ nfree GPU s = (length l + nfree GPU st.1)%nat) (s, t).
Proof.
  revert s t L B. induction l as [|x l IH]; intros s t L B H HL Ha Hnull Hf; cbn [for_each length] in *.
  { apply wp_ret. exists [], []. cbn [fst snd]. rewrite !app_nil_r.
    split_and!; auto using keeps_refl, NoDup_nil_2; try done. by intros ? ?%not_elem_of_nil. }
  apply wp_bind. eapply wp_mono; [apply (wp_append_block I R s t k L B T); try done; lia|].
  intros [] [s1 t1] (i & b & Hb & Hn & G1 & A1 & K1 & O1 & T1 & C1 & N1 & F1). cbn [fst snd] in *.
  destruct (null_in_frame _ _ _ _ K1 O1 Hnull) as [Hnull1 _].
  eapply wp_mono; [apply (IH s1 t1 (L ++ [i]) (B ++ [b])); try done; [by destruct L|lia]|].
  intros [] [s2 t2] (Ln & Bn & E2 & Fr2 & ND2 & G2 & A2 & K2 & O2 & T2 & C2 & N2 & F2). cbn [fst snd] in *.
  rewrite <- !app_assoc in *. cbn [app] in *.
  exists (i :: Ln), (b :: Bn). rewrite <- !app_assoc. cbn [app]. split_and!; try done.
  - simpl. lia.
  - intros c [->|Hc]%elem_of_cons; [done|]. destruct (Fr2 c Hc) as [Hk Hc'].
    rewrite (kp_known _ _ K1) in Hk. split; [done|]. intros Hin. apply Hc'. clear -Hin.
    apply elem_of_app in Hin. apply elem_of_app. rewrite elem_of_cons. tauto.
  - apply NoDup_cons. split; [|done]. intros Hc. destruct (Fr2 b Hc) as [_ Hb']. apply Hb'.
    apply elem_of_app. right. apply list_elem_of_here.
  - by eapply keeps_trans.
  - by eapply same_on_trans.
  - destruct T1, T2. split; congruence.
  - intros d. by rewrite C2, C1.
  - by rewrite N2.
  - lia.
Qed.

Lemma run_ok_full_slots f s t k L B T :
  run_ok s t k L B T -> run_ok s (set_num_full_slots f t) k L B T.
Proof. intros [H1 H2 H3 H4 H5]. by split. Qed.

(** The number of blocks that [ensure_num_empty_slots] adds to [n]. *)
Definition new_blocks (n slots : Z) : nat := Z.to_nat (cdiv slots bs - n).

Lemma wp_ensure I R s t k L B T num_empty :
  run_ok s t k L B T -> L <> [] -> alloc_ok (gpu_only (L ++ R)) (B ++ I) s -> null_in R I s ->
  _num_full_slots t = len T ->
  (new_blocks (Z.of_nat (k + length L)) (len T + num_empty) <= nfree GPU s)%nat ->
  wp (ensure_num_empty_slots bs num_empty) (fun _ st => exists Ln Bn,
    length Bn = new_blocks (Z.of_nat (k + length L)) (len T + num_empty) /\
    (forall b, b ∈ Bn -> b ∈ known GPU s /\ (b ∉ B ++ I)) /\ NoDup Bn /\
    run_ok st.1 st.2 k (L ++ Ln) (B ++ Bn) T /\
    alloc_ok (gpu_only ((L ++ Ln) ++ R)) ((B ++ Bn) ++ I) st.1 /\ keeps s st.1 /\
    same_on (gpu_only R) s st.1 /\ same_head t st.2 /\ (forall d, cows d st.1 = cows d s) /\
    nfree CPU st.1 = nfree CPU s /\
    nfree GPU s = (length Bn + nfree GPU st.1)%nat /\
    len T + num_empty <= Z.of_nat (k + length (L ++ Ln)) * bs) (s, t).
Proof.
  intros H HL Ha Hnull HT Hf. unfold ensure_num_empty_slots, new_blocks in *. wp_steps. cbn [snd].
  assert (len (_blocks t) = Z.of_nat (k + length L)) as Eb.
  { rewrite (rk_blocks _ _ _ _ _ _ H). unfold len. by rewrite length_app, length_replicate, length_fmap. }
  assert (0 < length L)%nat as Hpos by (destruct L; [done|simpl; lia]).
  apply wp_assert; [unfold _is_allocated; rewrite Eb; apply Z.ltb_lt; lia|].
  unfold _num_empty_slots. rewrite Eb, HT. set (n := Z.of_nat (k + length L)) in *.
  pose proof (cdiv_spec (len T + num_empty) bs Hbs) as Hc.
  destruct (num_empty <=? n * bs - len T) eqn:E.
  - apply wp_ret. exists [], []. cbn [fst snd]. rewrite !app_nil_r.
    assert (cdiv (len T + num_empty) bs <= n) by (apply cdiv_le_iff; lia).
    split_and!; auto using keeps_refl, NoDup_nil_2; try done; try (by intros ? ?%not_elem_of_nil); simpl; lia.
  - assert (cdiv (num_empty - (n * bs - len T)) bs = cdiv (len T + num_empty) bs - n) as Ec.
    { replace (len T + num_empty) with (num_empty - (n * bs - len T) + n * bs) by lia.
      rewrite cdiv_shift. lia. }
    rewrite Ec. eapply wp_mono; [apply (wp_append_blocks _ I R s t k L B T); try done; by rewrite length_seq|].
    intros [] [s1 t1] (Ln & Bn & E1 & G). exists Ln, Bn. rewrite length_seq in *.
    destruct G as (Fr & ND & G1 & A1 & K1 & O1 & T1 & C1 & N1 & F1). cbn [fst snd] in *.
    split_and!; try done; [lia|]. pose proof (run_ok_length _ _ _ _ _ _ G1) as El.
    rewrite !length_app in *. pose proof (run_ok_length _ _ _ _ _ _ H). lia.
Qed.

(** *** Storing tokens *)

Lemma cow_outcome_steps I B j b b' C :
  B !! j = Some b -> cow_outcome (delete j B ++ I) b b' C -> cow_steps I B C (<[j := b']> B).
Proof.
  intros Hb [(-> & -> & Hn)|(-> & Hs & Hf)].
  - rewrite list_insert_id by done. constructor.
  - econstructor; [done..| |constructor]. by rewrite (lookup_split B I j b Hb).
Qed.

Lemma wp_list_append_token_ids I R s t k L B T c j b :
  run_ok s t k L B T -> alloc_ok (gpu_only (L ++ R)) (B ++ I) s -> null_in R I s ->
  (forall b, b ∈ B -> b ∈ known GPU s) -> B !! j = Some b ->
  Z.of_nat (k + j) * bs <= len T -> len T + len c <= (Z.of_nat (k + j) + 1) * bs ->
  ((0 < nfree GPU s)%nat \/ b ∉ delete j B ++ I) ->
  wp (list_append_token_ids bs (k + j) c) (fun _ st => exists b' C,
    cow_outcome (delete j B ++ I) b b' C /\ b' ∈ known GPU s /\
    run_ok st.1 st.2 k L (<[j := b']> B) (T ++ c) /\
    alloc_ok (gpu_only (L ++ R)) (<[j := b']> B ++ I) st.1 /\ keeps s st.1 /\
    same_on (gpu_only R) s st.1 /\ same_head t st.2 /\ cows GPU st.1 = cows GPU s ++ C /\
    nfree CPU st.1 = nfree CPU s /\ (nfree GPU st.1 + length C)%nat = nfree GPU s) (s, t).
Proof.
  intros H Ha Hnull Hk Hb Hl1 Hl2 Hf. pose proof (run_ok_length _ _ _ _ _ _ H) as Hlen.
  pose proof (lookup_lt_Some _ _ _ Hb) as Hj.
  destruct (lookup_lt_is_Some_2 L j) as [i Hi]; [lia|].
  destruct (rk_seg _ _ _ _ _ _ H) as (prev & HS & Hprev).
  destruct (segment_lookup _ _ _ _ _ j i HS Hi) as (p & b0 & ch & Eb & Ec & Hobj).
  rewrite Hb in Eb. injection Eb as <-. rewrite chunks_lookup in Ec by lia. injection Ec as <-.
  unfold list_append_token_ids, get_item. wp_steps. cbn [snd].
  assert (_blocks t !! (k + j)%nat = Some (Obj GPU i)) as ->.
  { rewrite (rk_blocks _ _ _ _ _ _ H), lookup_app_r by (rewrite length_replicate; lia).
    rewrite length_replicate, list_lookup_fmap. replace (k + j - k)%nat with j by lia. by rewrite Hi. }
  wp_steps. unfold _block_id_of. wp_steps. apply wp_on_alloc. eapply wp_deref; [done|]. wp_steps.
  apply wp_on_alloc. cbn [block_id].
  eapply wp_mono.
  { eapply (wp_append_token_ids bs _ b (delete j B ++ I) s GPU i _ c); [|exact Hobj|done|apply Hk|..].
    - eapply alloc_ok_perm; [|by apply lookup_split|exact Ha]. done.
    - by eapply list_elem_of_lookup_2.
    - cbn [token_ids]. rewrite chunk_len_at by (pose proof (len_nonneg c); lia). lia.
    - done. }
  cbn [prev_block token_ids].
  intros [] s1 (b' & C & A1 & K1 & Hb' & P1 & O1 & HC & C1 & C1' & F1 & N1).
  assert (alloc_ok (gpu_only (L ++ R)) (<[j := b']> B ++ I) s1) as A1'.
  { eapply alloc_ok_perm; [done|symmetry; by apply (insert_split B I j b b')|exact A1]. }
  pose proof (live_NoDup _ _ _ GPU Ha) as Hnd. cbn [gpu_only] in Hnd.
  apply NoDup_app in Hnd as (HndL & HLR & _).
  assert (same_on (gpu_only R) s s1) as OR.
  { intros d x Hx. apply O1. intros [= -> ->]. apply (HLR i); [|exact Hx]. by eapply list_elem_of_lookup_2. }
  destruct (null_in_frame _ _ _ _ K1 OR Hnull) as [Hnull1 Hid].
  (* the table after the update of the cached id *)
  assert (forall t1, _blocks t1 = _blocks t -> _block_ids t1 = replicate k (null_id s) ++ <[j := b']> B ->
    run_ok s1 t1 k L (<[j := b']> B) (T ++ c)) as Hrun.
  { intros t1 E1 E2. split.
    - by rewrite E1, (rk_blocks _ _ _ _ _ _ H).
    - by rewrite E2, Hid.
    - exists prev. split; [|done]. rewrite (chunks_app T c k (length L) j) by lia.
      eapply segment_update; [done..|].
      intros x Hx Hne. apply O1. congruence.
    - rewrite len_app. assert (S j <= length L)%nat by lia. pose proof (len_nonneg c). nia.
    - intros Hk0. rewrite (kp_null _ _ K1). by apply (rk_null _ _ _ _ _ _ H). }
  wp_steps. apply wp_on_alloc. eapply wp_deref; [done|]. wp_steps. cbn [block_id].
  destruct (decide (Some b = Some b')) as [E|E].
  - injection E as <-. apply wp_ret. exists b, C. cbn [fst snd]. split_and!; try done.
    + apply Hrun; [done|]. rewrite list_insert_id by done. apply (rk_ids _ _ _ _ _ _ H).
    + by apply N1.
  - cbn [_update_block_id]. wp_steps. cbn [snd]. rewrite (rk_ids _ _ _ _ _ _ H).
    rewrite (proj2 (Nat.ltb_lt _ _)) by (rewrite length_app, length_replicate; lia).
    apply wp_on_table. wp_steps. exists b', C. cbn [fst snd]. split_and!; try done.
    + apply Hrun; [done|]. cbn [_block_ids set_list]. rewrite (rk_ids _ _ _ _ _ _ H).
      rewrite insert_app_r_alt by (rewrite length_replicate; lia). rewrite length_replicate.
      by replace (k + j - k)%nat with j by lia.
    + by apply N1.
Qed.

(** The blocks from [k + mo] on are not shared; fewer than [mo - j] of those
    before can be. *)
Lemma wp_store_chunks I R cs s t k L B T j mo :
  run_ok s t k L B T -> alloc_ok (gpu_only (L ++ R)) (B ++ I) s -> null_in R I s ->
  (forall b, b ∈ B -> b ∈ known GPU s) ->
  fits (len T) cs -> (cs <> [] -> Z.of_nat (k + j) = len T / bs) -> (j + length cs <= length L)%nat ->
  (forall i b, (mo <= i)%nat -> B !! i = Some b -> occ b (B ++ I) = 1) ->
  (Nat.min (length cs) (mo - j) <= nfree GPU s)%nat ->
  wp (store_chunks bs (k + j) cs) (fun _ st => exists B' C,
    cow_steps I B C B' /\ (forall b, b ∈ B' -> b ∈ known GPU s) /\
    run_ok st.1 st.2 k L B' (T ++ concat cs) /\
    alloc_ok (gpu_only (L ++ R)) (B' ++ I) st.1 /\ keeps s st.1 /\ same_on (gpu_only R) s st.1 /\
    same_head t st.2 /\ cows GPU st.1 = cows GPU s ++ C /\ nfree CPU st.1 = nfree CPU s /\
    (nfree GPU st.1 + length C)%nat = nfree GPU s /\
    (length C <= Nat.min (length cs) (mo - j))%nat /\
    (forall i b, (j <= i < j + length cs)%nat -> B' !! i = Some b -> occ b (B' ++ I) = 1)) (s, t).
Proof.
  revert s t B T j. induction cs as [|c cs IH]; intros s t B T j H Ha Hnull Hk Hfit Hj Hl Hx Hf;
    cbn [store_chunks concat length] in *.
  { apply wp_ret. exists B, []. cbn [fst snd]. rewrite !app_nil_r.
    split_and!; auto using keeps_refl, cs_nil; try done; simpl; lia. }
  destruct Hfit as (Hc1 & Hc2 & Hfit). specialize (Hj ltac:(done)).
  destruct (div_mod_pos (len T) (len_nonneg T)) as (Ef & Hm & Hq).
  pose proof (run_ok_length _ _ _ _ _ _ H) as Hlen.
  destruct (lookup_lt_is_Some_2 B j) as [b Hb]; [lia|].
  assert (b ∉ delete j B ++ I <-> occ b (B ++ I) = 1) as Hocc.
  { rewrite (occ_perm b _ _ (lookup_split B I j b Hb)), occ_cons, decide_True by done.
    pose proof (occ_nonneg b (delete j B ++ I)). rewrite <- occ_pos_iff. lia. }
  apply wp_bind. eapply wp_mono; [apply (wp_list_append_token_ids I R s t k L B T c j b); try done; try nia|].
  { destruct (decide (mo <= j)%nat) as [Hmo|Hmo]; [right; by apply Hocc, (Hx j)|left; lia]. }
  intros [] [s1 t1] (b' & C & HC & Hb' & G1 & A1 & K1 & O1 & T1 & C1 & N1 & F1). cbn [fst snd] in *.
  destruct (null_in_frame _ _ _ _ K1 O1 Hnull) as [Hnull1 _].
  pose proof (cow_outcome_steps I B j b b' C Hb HC) as Hstep.
  assert (length C <= 1)%nat as HC1 by (destruct HC as [(-> & _)|(-> & _)]; simpl; lia).
  assert ((mo <= j)%nat -> length C = 0%nat) as HC0.
  { intros Hmo. destruct HC as [(-> & _)|(-> & Hs & _)]; [done|].
    exfalso. apply (proj2 Hocc); [by apply (Hx j)|done]. }
  assert (occ b' (<[j := b']> B ++ I) = 1) as Hown.
  { rewrite (occ_perm b' _ _ (insert_split B I j b b' Hb)), occ_cons, decide_True by done.
    assert (b' ∉ delete j B ++ I) as Hn.
    { destruct HC as [(_ & -> & Hn)|(_ & _ & Hn)]; [done|]. set_solver. }
    pose proof (occ_nonneg b' (delete j B ++ I)). rewrite <- occ_pos_iff in Hn. lia. }
  eapply wp_mono.
  { replace (S (k + j)) with (k + S j)%nat by lia.
    apply (IH s1 t1 (<[j := b']> B) (T ++ c) (S j)); try done.
    - intros x Hxin. rewrite (kp_known _ _ K1). apply list_elem_of_lookup in Hxin as [i Hi].
      destruct (decide (i = j)) as [->|Hij].
      + rewrite list_lookup_insert_eq in Hi by (by eapply lookup_lt_Some). injection Hi as <-. done.
      + rewrite list_lookup_insert_ne in Hi by done. by apply Hk, (list_elem_of_lookup_2 _ i).
    - rewrite len_app. done.
    - intros Hne. specialize (Hc2 Hne). rewrite len_app, Hc2.
      replace (len T + (bs - len T mod bs)) with ((len T / bs + 1) * bs) by lia.
      rewrite Z.div_mul by lia. lia.
    - lia.
    - intros i x Hi Hxi. destruct (decide (i = j)) as [->|Hij].
      + rewrite list_lookup_insert_eq in Hxi by (by eapply lookup_lt_Some). by injection Hxi as <-.
      + rewrite list_lookup_insert_ne in Hxi by done.
        by apply (cow_steps_exclusive I B C (<[j := b']> B) x Hstep), (Hx i).
    - destruct (decide (mo <= j)%nat); [rewrite HC0 in F1 by done|]; lia. }
  intros [] [s2 t2] (B2 & C2 & S2 & Hk2 & G2 & A2 & K2 & O2 & T2 & E2 & N2 & F2 & L2 & X2). cbn [fst snd] in *.
  exists B2, (C ++ C2). rewrite app_assoc. split_and!; try done.
  - by eapply cow_steps_app.
  - intros x Hxin. rewrite <- (kp_known _ _ K1). by apply Hk2.
  - by eapply keeps_trans.
  - by eapply same_on_trans.
  - destruct T1, T2. split; congruence.
  - by rewrite E2, C1, app_assoc.
  - by rewrite N2.
  - rewrite length_app. lia.
  - rewrite length_app. destruct (decide (mo <= j)%nat); [rewrite HC0 by done|]; lia.
  - intros i x Hi Hxi. destruct (decide (i = j)) as [->|Hij].
    + assert (B2 !! j = Some b') as E.
      { apply (cow_steps_exclusive I _ C2 B2 b' S2 Hown).
        apply list_lookup_insert_eq. by eapply lookup_lt_Some. }
      rewrite E in Hxi. injection Hxi as <-. by apply (cow_steps_exclusive I _ C2 B2 b' S2).
    + apply (X2 i); [lia|done].
Qed.

(** *** Appending *)

Record table_ok (s : CpuGpuBlockAllocator) (t : BlockTable) (k : nat) (L B : list nat) (T : list Z) : Prop := {
  to_run : run_ok s t k L B T;
  to_full : _num_full_slots t = len T;
  to_drop : Z.of_nat k * bs <= len T
}.

Lemma fresh_occ (X Y : list nat) b i :
  NoDup X -> (forall b, b ∈ X -> b ∉ Y) -> X !! i = Some b -> occ b (Y ++ X) = 1.
Proof.
  intros Hnd Hf Hb. apply list_elem_of_lookup_2 in Hb. rewrite occ_app, (occ_NoDup b X Hnd), decide_True by done.
  pose proof (occ_nonneg b Y). pose proof (proj1 (occ_pos_iff b Y)). destruct (decide (0 < occ b Y)); [|lia].
  by destruct (Hf b Hb); auto.
Qed.

(** What appending [toks] makes of the blocks [B] of a table. *)
Record appended (I : list nat) (B : list nat) (m k : nat) (T toks : list Z) (nids Bn : list nat)
    (C : list (nat * nat)) (B' : list nat) : Prop := {
  ap_steps : cow_steps (nids ++ I) (drop m B ++ Bn) C B';
  ap_nodup : NoDup Bn;
  ap_fresh b : b ∈ Bn -> b ∉ drop m B ++ nids ++ I;
  ap_null b : b ∈ nids -> b ∉ B ++ I;
  ap_owned q b : len T <= Z.of_nat q < len (T ++ toks) ->
    B' !! (q / Z.to_nat bs - (k + m))%nat = Some b -> occ b (B' ++ nids ++ I) = 1
}.

Lemma wp_table_append I R s t k L B T toks la computed :
  table_ok s t k L B T -> L <> [] -> alloc_ok (gpu_only (L ++ R)) (B ++ I) s -> null_in R I s ->
  (forall b, b ∈ B -> b ∈ known GPU s) -> 0 <= la ->
  (forall w, _max_block_sliding_window t = Some w -> 1 <= w /\ 0 <= computed <= len T) ->
  Z.of_nat (null_need t s) + get_num_blocks_touched_by_append_slots bs toks la t <= Z.of_nat (nfree GPU s) ->
  wp (table_append_token_ids bs toks la (Some computed)) (fun _ st => exists m nl nids Ln Bn C B',
    m = window_drop t computed k /\ (m < length L)%nat /\
    appended I B m k T toks nids Bn C B' /\
    table_ok st.1 st.2 (k + m) (drop m L ++ Ln) B' (T ++ toks) /\
    alloc_ok (gpu_only ((drop m L ++ Ln) ++ nl ++ R)) (B' ++ nids ++ I) st.1 /\
    null_in (nl ++ R) (nids ++ I) st.1 /\ null_part nl nids s st.1 /\ length nids = null_need t s /\
    (forall b, b ∈ B' -> b ∈ known GPU s) /\ table_frame R s st.1 /\
    _max_block_sliding_window st.2 = _max_block_sliding_window t /\
    (_max_block_sliding_window t <> None -> is_Some (_null_block st.1)) /\
    cows GPU st.1 = cows GPU s ++ C /\
    Z.of_nat (nfree GPU s) <= Z.of_nat (null_need t s)
      + get_num_blocks_touched_by_append_slots bs toks la t + Z.of_nat (nfree GPU st.1)) (s, t).
Proof.
  intros [H HT HK] HL Ha Hnull Hk Hla Hw Hf.
  assert (0 < length L)%nat as HLpos by (destruct L; [done|simpl; lia]).
  unfold table_append_token_ids. wp_steps. cbn [snd].
  assert (0 < len (_blocks t)) as Hpos.
  { rewrite (rk_blocks _ _ _ _ _ _ H). unfold len. rewrite length_app, length_fmap. lia. }
  apply wp_assert; [by apply Z.ltb_lt|]. wp_steps. apply wp_assert; [by apply Z.ltb_lt|]. wp_steps.
  pose proof (len_nonneg T) as HT0. rewrite touched_eq in * by lia. rewrite HT in *.
  destruct (div_mod_pos (len T) HT0) as (Ef & Hm & Hq).
  pose proof (cdiv_spec (len T + len toks + la) bs Hbs) as Hcd. pose proof (len_nonneg toks) as Htk.
  assert (len T / bs <= cdiv (len T + len toks + la) bs) as Hge.
  { etrans; [apply (div_le_cdiv (len T) bs Hbs)|]. apply cdiv_mono; lia. }
  eapply wp_mono; [apply (wp_drop_blocks I R s t k L B T computed); try done; lia|].
  intros [] [s1 t1] (m & nl & nids & Em & Hml & G1 & A1 & Nu1 & NP1 & E1 & Fr1 & _ & F1 & T1 & S1 & C1 & N1).
  cbn [fst snd] in *. wp_steps.
  set (L1 := drop m L) in *. set (B1 := drop m B) in *. set (R1 := nl ++ R) in *. set (I1 := nids ++ I) in *.
  assert (L1 <> []) as HL1.
  { intros E. apply (f_equal length) in E. subst L1. rewrite length_drop in E. simpl in E. lia. }
  assert (length L1 = length L - m)%nat as El1 by apply length_drop.
  destruct T1 as [TW TF].
  assert (_num_full_slots t1 = len T) as HT1 by congruence.
  eapply wp_mono; [apply (wp_ensure I1 R1 s1 t1 (k + m) L1 B1 T (len toks + la)); try done|].
  { unfold new_blocks. replace (k + m + length L1)%nat with (k + length L)%nat by lia.
    replace (len T + (len toks + la)) with (len T + len toks + la) by lia.
    pose proof (rk_room _ _ _ _ _ _ H). assert (len T / bs <= Z.of_nat (k + length L)) by (apply Z.div_le_upper_bound; lia).
    lia. }
  intros [] [s2 t2] (Ln & Bn & E2 & Fr2 & ND2 & G2 & A2 & K2 & O2 & T2 & C2 & N2 & F2 & Hroom).
  cbn [fst snd] in *. wp_steps. cbn [snd]. destruct T2 as [TW2 TF2].
  destruct (null_in_frame _ _ _ _ K2 O2 Nu1) as [Nu2 _].
  assert (_num_full_slots t2 = len T) as HT2 by congruence.
  assert (Z.of_nat (k + m) <= len T / bs) as Hkm.
  { apply Z.div_le_lower_bound; [done|]. subst m. unfold window_drop.
    destruct (_max_block_sliding_window t) as [w|] eqn:Ew; [|lia].
    destruct (Hw w eq_refl) as [Hw1 Hw2].
    assert (computed / bs * bs <= computed) by (pose proof (Z.mul_div_le computed bs Hbs); lia).
    destruct (decide (k <= Z.to_nat (computed / bs - w)))%nat; nia. }
  set (j := (Z.to_nat (len T / bs) - (k + m))%nat).
  rewrite HT2. replace (Z.to_nat (len T / bs)) with (k + m + j)%nat by (subst j; lia).
  destruct (append_pieces t2 toks) as (P1 & P2 & P3 & P4); [lia|]. rewrite HT2 in P1, P3.
  set (cs := _chunk_token_blocks_for_append bs toks t2) in *.
  pose proof (run_ok_length _ _ _ _ _ _ G1) as EB1. pose proof (run_ok_length _ _ _ _ _ _ G2) as EB2.
  rewrite !length_app in EB2.
  assert (toks <> [] -> Z.of_nat (length cs) = cdiv (len T + len toks) bs - len T / bs) as P3'.
  { intros Hne. by rewrite <- P3. }
  assert (Z.of_nat (j + length cs) <= Z.of_nat (length (L1 ++ Ln))) as Hfit.
  { destruct (decide (toks = [])) as [->|Hne].
    - rewrite P4 by done. simpl. subst j. rewrite length_app.
      pose proof (rk_room _ _ _ _ _ _ G1). assert (len T / bs <= Z.of_nat (k + m + length L1)) by (apply Z.div_le_upper_bound; lia).
      lia.
    - specialize (P3' Hne). assert (cdiv (len T + len toks) bs <= Z.of_nat (k + m + length (L1 ++ Ln))).
      { apply cdiv_le_iff; lia. }
      subst j. lia. }
  eapply wp_mono.
  { apply (wp_store_chunks I1 R1 cs s2 t2 (k + m) (L1 ++ Ln) (B1 ++ Bn) T j (length L1)); try done.
    - intros b [Hb|Hb]%elem_of_app; rewrite (kp_known _ _ K2).
      + rewrite (tf_known _ _ _ F1). apply Hk. subst B1. rewrite <- (take_drop m B). set_solver.
      + by apply Fr2.
    - intros _. subst j. lia.
    - lia.
    - intros i b Hi Hb. rewrite (occ_perm b _ ((B1 ++ I1) ++ Bn)) by solve_Permutation.
      eapply (fresh_occ Bn (B1 ++ I1) b (i - length B1)); [done|by intros x Hx; apply Fr2|].
      by rewrite <- lookup_app_r by lia.
    - destruct (decide (toks = [])) as [->|Hne]; [rewrite P4 by done; simpl; lia|].
      specialize (P3' Hne). assert (cdiv (len T + len toks) bs <= cdiv (len T + len toks + la) bs) by (apply cdiv_mono; lia).
      unfold new_blocks in E2. replace (len T + (len toks + la)) with (len T + len toks + la) in E2 by lia.
      subst j. lia. }
  intros [] [s3 t3] (B' & C & S3 & Hk3 & G3 & A3 & K3 & O3 & T3 & C3 & N3 & F3 & L3 & X3).
  cbn [fst snd] in *. wp_steps. apply wp_on_table. wp_steps. cbn [fst snd].
  destruct T3 as [TW3 TF3]. rewrite P2 in G3.
  assert (table_frame R s s3) as Fr.
  { eapply table_frame_trans; [exact F1|]. apply keeps_frame; [by eapply keeps_trans| |congruence].
    intros d x Hx. rewrite O3, O2; [done|..]; destruct d; simpl in *; set_solver. }
  assert (forall d, known d s2 = known d s) as Hkn.
  { intros d. by rewrite (kp_known _ _ K2), (tf_known _ _ _ F1). }
  exists m, nl, nids, Ln, Bn, C, B'. split_and!; try done.
  - split; try done.
    + intros b Hb. by apply Fr2.
    + intros q b Hqr Hb. apply (X3 (q / Z.to_nat bs - (k + m))%nat); [|done].
      assert (toks <> []) as Hne by (intros ->; rewrite app_nil_r in Hqr; lia).
      specialize (P3' Hne). rewrite len_app in Hqr.
      assert (Z.of_nat (q / Z.to_nat bs) = Z.of_nat q / bs) as Eq.
      { rewrite Nat2Z.inj_div. by rewrite Z2Nat.id by lia. }
      assert (len T / bs <= Z.of_nat q / bs) by (apply Z.div_le_mono; lia).
      assert (Z.of_nat q / bs < cdiv (len T + len toks) bs).
      { pose proof (cdiv_spec (len T + len toks) bs Hbs). apply Z.div_lt_upper_bound; lia. }
      subst j. lia.
  - split; [by apply run_ok_full_slots| |].
    + cbn [_num_full_slots set_num_full_slots]. rewrite TF3, HT2. by rewrite len_app.
    + rewrite len_app. assert (Z.of_nat (k + m) * bs <= len T / bs * bs) by nia. lia.
  - subst I1 R1. by destruct (null_in_frame _ _ _ _ K3 O3 Nu2).
  - eapply null_part_frame; [|exact K3|exact O3]. eapply null_part_frame; [exact NP1|exact K2|exact O2].
  - intros b Hb. rewrite <- Hkn. by apply Hk3.
  - cbn [_max_block_sliding_window set_num_full_slots]. congruence.
  - intros HW. rewrite (kp_null _ _ K3), (kp_null _ _ K2). by apply S1.
  - by rewrite C3, C2, C1.
  - assert (len T / bs <= Z.of_nat (k + m + length L1)) by
      (apply Z.div_le_upper_bound; [done|pose proof (rk_room _ _ _ _ _ _ G1); lia]).
    destruct (decide (toks = [])) as [->|Hne].
    + rewrite P4 in L3 by done. simpl in L3. unfold new_blocks in E2.
      replace (len T + (len [] + la)) with (len T + len (@nil Z) + la) in E2 by lia.
      lia.
    + specialize (P3' Hne). assert (cdiv (len T + len toks) bs <= cdiv (len T + len toks + la) bs) by (apply cdiv_mono; lia).
      unfold new_blocks in E2. replace (len T + (len toks + la)) with (len T + len toks + la) in E2 by lia.
      subst j. lia.
Qed.

(** *** The cached ids and the count of tokens *)

Lemma wp_update_ids s prev L B C t :
  segment s prev L B C ->
  wp (for_each (fun block => i ← _block_id_of block; _add_block_id i) (Obj GPU <$> L))
    (fun _ st => st = (s, set_list id (fun ids => ids ++ B) t)) (s, t).
Proof.
  revert prev B C t. induction L as [|i L IH]; intros prev [|b B] [|c C] t; try done.
  { intros _. apply wp_ret. f_equal. destruct t. unfold set_list, id. cbn. by rewrite app_nil_r. }
  intros [Hi HS]. cbn [fmap list_fmap for_each]. apply wp_bind. unfold _block_id_of. wp_steps.
  apply wp_on_alloc. eapply wp_deref; [done|]. wp_steps. cbn [block_id _add_block_id].
  apply wp_on_table. wp_steps. cbn [fst]. eapply wp_mono; [by eapply IH|].
  intros [] st ->. f_equal. unfold set_list, id. cbn. by rewrite <- app_assoc.
Qed.

Lemma wp_update s prev L B C t :
  segment s prev L B C ->
  wp (update (Obj GPU <$> L)) (fun _ st => st = (s, set_list (fun _ => Obj GPU <$> L) (fun _ => B) t)) (s, t).
Proof.
  intros HS. unfold update. wp_steps. apply wp_on_table. wp_steps. cbn [fst].
  eapply wp_mono; [by eapply wp_update_ids|]. intros [] st ->. by destruct t.
Qed.

Lemma wp_token_lens s prev L B C t :
  segment s prev L B C ->
  wp (map_each (fun block => b ← on_alloc (deref block); mret (len (token_ids b))) (Obj GPU <$> L))
    (fun lens st => foldr Z.add 0 lens = len (concat C) /\ st = (s, t)) (s, t).
Proof.
  revert prev B C. induction L as [|i L IH]; intros prev [|b B] [|c C]; try done.
  intros [Hi HS]. cbn [fmap list_fmap map_each]. apply wp_bind. wp_steps.
  apply wp_on_alloc. eapply wp_deref; [done|]. wp_steps. cbn [token_ids].
  eapply wp_mono; [by eapply IH|]. intros lens st [E ->]. wp_steps. split; [|done].
  cbn [foldr concat]. rewrite E, len_app. done.
Qed.

Lemma concat_chunks_room T n : len T <= Z.of_nat n * bs -> concat (chunks T 0 n) = T.
Proof.
  intros Hn. pose proof (cdiv_nonneg (len T) bs Hbs (len_nonneg T)).
  assert (cdiv (len T) bs <= Z.of_nat n) as Hc by (by apply cdiv_le_iff).
  replace n with (Z.to_nat (cdiv (len T) bs) + (n - Z.to_nat (cdiv (len T) bs)))%nat by lia.
  unfold chunks. rewrite seq_app, fmap_app, concat_app.
  change (concat (chunks T 0 (Z.to_nat (cdiv (len T) bs))) ++
    concat (chunks T (Z.to_nat (cdiv (len T) bs)) (n - Z.to_nat (cdiv (len T) bs))) = T).
  assert (forall m k, (Z.to_nat (cdiv (len T) bs) <= k)%nat -> concat (chunks T k m) = []) as Hnil.
  { intros m. induction m as [|m IH]; intros k Hk; [done|]. rewrite chunks_S. cbn [concat].
    rewrite IH by lia. rewrite chunk_nil; [done|]. pose proof (cdiv_spec (len T) bs Hbs). nia. }
  rewrite concat_chunks, Hnil by lia. apply app_nil_r.
Qed.

(** *** Forking and freeing *)

Lemma wp_table_fork limit R I s t L B T :
  table_ok s t 0 L B T -> L <> [] -> alloc_ok (gpu_only R) I s ->
  (forall i, i ∈ L -> i ∈ R) -> (forall b, b ∈ B -> b ∈ known GPU s /\ b ∈ I) -> (length L <= limit)%nat ->
  wp (table_fork bs limit t) (fun t' s' => exists L',
    table_ok s' t' 0 L' B T /\ length L' = length L /\
    _max_block_sliding_window t' = _max_block_sliding_window t /\
    alloc_ok (gpu_only (L' ++ R)) (B ++ I) s' /\ same_on (gpu_only R) s s' /\ keeps s s' /\
    (forall d, cows d s' = cows d s) /\ (forall d, nfree d s' = nfree d s)) s.
Proof.
  intros [[H1 H2 (prev & H3 & Hp) H4 H5] HT _] HL Ha HR HB Hlim. rewrite (Hp eq_refl) in H3.
  cbn [replicate app] in H1. rewrite Nat.add_0_l in H4.
  unfold table_fork. apply wp_bind, wp_assert.
  { unfold _is_allocated. rewrite H1. apply Z.ltb_lt. unfold len. rewrite length_fmap.
    destruct L; [done|]. simpl. lia. }
  destruct L as [|x L0 _] using rev_ind; [done|]. rewrite H1, fmap_app. cbn [fmap list_fmap]. rewrite last_snoc.
  apply wp_bind. eapply wp_mono.
  { eapply (wp_fork bs Hbs limit R I s L0 x B); [done|exact H3|rewrite length_app in Hlim; simpl in Hlim; lia|done..|].
    apply chunks_Forall. }
  intros rs s1 (L' & -> & A1 & S1 & O1 & K1 & C1 & N1).
  destruct (segment_length _ _ _ _ _ H3) as [EB _]. destruct (segment_length _ _ _ _ _ S1) as [EB' _].
  set (L := L0 ++ [x]) in *.
  set (t0 := mkTable [] [] (_max_block_sliding_window t) 0).
  assert (wp (init_table (Obj GPU <$> L') (_max_block_sliding_window t))
    (fun t' s' => s' = s1 /\ t' = mkTable (Obj GPU <$> L') B (_max_block_sliding_window t) (len T)) s1) as Hinit.
  { assert (wp (update (Obj GPU <$> L');; n ← _get_num_token_ids; on_table (modify (set_num_full_slots (fun _ => n))))
      (fun _ st => st = (s1, mkTable (Obj GPU <$> L') B (_max_block_sliding_window t) (len T))) (s1, t0)) as Hw.
    { apply wp_bind. eapply wp_mono; [by eapply wp_update|]. intros [] st ->.
      apply wp_bind. unfold _get_num_token_ids. wp_steps. cbn [snd _blocks set_list t0].
      eapply wp_mono; [by eapply wp_token_lens|]. intros lens st [E ->]. wp_steps.
      apply wp_on_table. wp_steps. cbn [fst]. rewrite E, concat_chunks_room by lia. done. }
    unfold init_table, wp in *. fold t0. destruct ((update _;; _) (s1, t0)) as [u [s2 t2]|e [s2 t2]]; [|done].
    by injection Hw as -> ->. }
  eapply wp_mono; [exact Hinit|]. intros t' s2 [-> ->]. exists L'. split_and!; try done; [|congruence].
  split; cbn [_num_full_slots]; [|done|pose proof (len_nonneg T); lia].
  split; cbn [_blocks _block_ids]; [done..| | |intros; lia].
  - exists None. split; [|done]. replace (length L') with (length L) by congruence. done.
  - rewrite <- EB', EB. lia.
Qed.

Lemma wp_free_objects s prev L B C R I t :
  segment s prev L B C -> alloc_ok (gpu_only (L ++ R)) (B ++ I) s -> (forall b, b ∈ B -> b ∈ known GPU s) ->
  wp (for_each (fun block => on_alloc (free block)) (Obj GPU <$> L)) (fun _ st =>
    alloc_ok (gpu_only R) I st.1 /\ keeps s st.1 /\ same_on (gpu_only R) s st.1 /\ st.2 = t /\
    (forall d, cows d st.1 = cows d s) /\ nfree CPU st.1 = nfree CPU s /\
    (nfree GPU s <= nfree GPU st.1)%nat) (s, t).
Proof.
  revert s prev B C. induction L as [|i L IH]; intros s prev [|b B] [|c C] HS Ha Hk; try done.
  destruct HS as [Hi HS]. cbn [fmap list_fmap for_each]. apply wp_bind, wp_on_alloc.
  eapply wp_mono; [eapply (wp_free_object (L ++ R) (B ++ I)); [exact Ha|exact Hi|done|apply Hk; set_solver]|].
  intros [] s1 (A1 & K1 & O1 & C1 & N1 & F1).
  eapply wp_mono; [eapply (IH s1 _ B C); [|exact A1|]|].
  - eapply segment_frame; [|exact HS]. intros j Hj. apply (O1 GPU). simpl. set_solver.
  - intros x Hx. rewrite (kp_known _ _ K1). apply Hk. set_solver.
  - intros [] [s2 t2] (A2 & K2 & O2 & T2 & C2 & N2 & F2). cbn [fst snd] in *. split_and!; try done.
    + by eapply keeps_trans.
    + intros d j Hj. rewrite O2 by done. apply O1. destruct d; simpl in *; set_solver.
    + intros d. by rewrite C2, C1.
    + by rewrite N2.
    + lia.
Qed.

Lemma wp_table_free s t k L B T R I :
  run_ok s t k L B T -> alloc_ok (gpu_only (L ++ R)) (B ++ I) s -> (forall b, b ∈ B -> b ∈ known GPU s) ->
  wp table_free (fun _ st =>
    alloc_ok (gpu_only R) I st.1 /\ keeps s st.1 /\ same_on (gpu_only R) s st.1 /\
    (forall d, cows d st.1 = cows d s) /\ nfree CPU st.1 = nfree CPU s /\
    (nfree GPU s <= nfree GPU st.1)%nat) (s, t).
Proof.
  intros [H1 H2 (prev & H3 & Hp) H4 H5] Ha Hk. unfold table_free. wp_steps. cbn [snd]. rewrite H1.
  generalize (chunks T k (length L)) H3. intros C HC. clear H1 H2 H3 H4 H5 Hp. induction k as [|k IH].
  - cbn [replicate app]. eapply wp_mono; [by eapply wp_free_objects|].
    intros [] [s1 t1] (A1 & K1 & O1 & T1 & C1 & N1 & F1). cbn [fst snd] in *. wp_steps. apply wp_on_table. wp_steps.
    cbn [fst]. split_and!; done.
  - cbn [replicate app for_each]. wp_steps. apply wp_on_alloc. cbn [free]. wp_steps.
    exact IH.
Qed.

(** *** Allocating for a prompt *)

Lemma filter_every {A} (P : A -> Prop) `{!forall x, Decision (P x)} (l : list A) :
  (forall x, x ∈ l -> P x) -> filter P l = l.
Proof.
  induction l as [|x l IH]; intros HP; [done|].
  rewrite filter_cons_True by (apply HP; set_solver). rewrite IH; [done|]. intros y Hy. apply HP. set_solver.
Qed.

(** The chunks of a prompt: full ones, and one that is not full. *)
Lemma prompt_chunks T :
  let q := Z.to_nat (len T / bs) in
  let tail := if decide (len T mod bs = 0) then [] else [chunk T q] in
  filter (fun c => len c = bs) (chunk_list T bs) = chunks T 0 q /\
  filter (fun c => len c <> bs) (chunk_list T bs) = tail /\
  Z.to_nat (cdiv (len T) bs) = (q + length tail)%nat.
Proof.
  intros q tail. destruct (div_mod_pos (len T) (len_nonneg T)) as (Ef & Hm & Hq).
  assert (cdiv (len T) bs = len T / bs + (if decide (len T mod bs = 0) then 0 else 1)) as Ec.
  { pose proof (cdiv_spec (len T) bs Hbs). case_decide; nia. }
  assert (Z.to_nat (cdiv (len T) bs) = (q + length tail)%nat) as En.
  { rewrite Ec. subst q tail. case_decide; simpl; lia. }
  assert (chunk_list T bs = chunks T 0 q ++ tail) as Echunks.
  { rewrite chunk_list_chunks, En. subst tail. case_decide; cbn [length].
    - by rewrite Nat.add_0_r, app_nil_r.
    - by rewrite chunks_snoc. }
  assert (forall c, c ∈ chunks T 0 q -> len c = bs) as Hfull.
  { intros c. unfold chunks. intros (j & -> & Hj)%list_elem_of_fmap. apply elem_of_seq in Hj.
    apply chunk_full. nia. }
  assert (forall c, c ∈ tail -> len c <> bs) as Htail.
  { intros c. subst tail. case_decide; [by intros ?%not_elem_of_nil|]. intros ->%list_elem_of_singleton.
    rewrite chunk_len_at by nia. nia. }
  rewrite Echunks, !filter_app. split_and!; [|..|done].
  - rewrite filter_every by done. rewrite filter_none by (intros c Hc; by apply Htail). apply app_nil_r.
  - rewrite filter_none by (intros c Hc Hne; by apply Hne, Hfull). rewrite filter_every by done. done.
Qed.

Lemma wp_allocate_blocks R I s toks :
  alloc_ok (gpu_only R) I s -> toks <> [] -> cdiv (len toks) bs <= Z.of_nat (nfree GPU s) ->
  wp (_allocate_blocks_for_token_ids bs None toks GPU) (fun rs s' => exists L B,
    rs = Obj GPU <$> L /\ Z.of_nat (length L) = cdiv (len toks) bs /\
    segment s' None L B (chunks toks 0 (length L)) /\
    alloc_ok (gpu_only (L ++ R)) (B ++ I) s' /\ keeps s s' /\ same_on (gpu_only R) s s' /\
    NoDup B /\ (forall b, b ∈ B -> b ∈ known GPU s /\ (b ∉ I)) /\
    (forall d, cows d s' = cows d s) /\ nfree CPU s' = nfree CPU s /\
    nfree GPU s = (length L + nfree GPU s')%nat) s.
Proof.
  intros Ha Hne Hf. unfold _allocate_blocks_for_token_ids. cbv zeta.
  destruct (prompt_chunks toks) as (E1 & E2 & En). cbv zeta in En.
  set (q := Z.to_nat (len toks / bs)) in *. rewrite E1, E2.
  pose proof (cdiv_nonneg (len toks) bs Hbs (len_nonneg toks)) as Hn0.
  assert (len (chunks toks 0 q) = Z.of_nat q) as Eq by (unfold len; by rewrite chunks_length).
  apply wp_bind.
  eapply (wp_mono _ (fun rs s' => exists L B, rs = Obj GPU <$> L /\ length L = q /\
    segment s' None L B (chunks toks 0 q) /\
    alloc_ok (gpu_only (L ++ R)) (B ++ I) s' /\ keeps s s' /\ same_on (gpu_only R) s s' /\
    NoDup B /\ (forall b, b ∈ B -> b ∈ known GPU s /\ (b ∉ I)) /\
    (forall d, cows d s' = cows d s) /\ nfree CPU s' = nfree CPU s /\
    nfree GPU s = (q + nfree GPU s')%nat)).
  { rewrite Eq. destruct (Z.of_nat q =? 0) eqn:E.
    - assert (q = 0%nat) as Eq0 by lia. rewrite Eq0. apply wp_ret. exists [], [].
      split_and!; auto using keeps_refl, NoDup_nil_2; try done; by intros ? ?%not_elem_of_nil.
    - eapply wp_mono; [apply (wp_allocate_immutable_blocks bs Hbs R I s None _ Ha)|].
      + rewrite chunks_length. lia.
      + intros Hnil. rewrite Hnil in Eq. change (len []) with 0 in Eq. lia.
      + apply chunks_Forall.
      + intros rs s' (L & B & -> & A1 & S1 & ND & Fr & O1 & K1 & C1 & F1 & N1). exists L, B.
        destruct (segment_length _ _ _ _ _ S1) as [_ EL]. rewrite chunks_length in EL, F1.
        split_and!; done. }
  intros rs s1 (L & B & -> & EL & S1 & A1 & K1 & O1 & ND & Fr & C1 & N1 & F1). cbv beta.
  assert (match last (Obj GPU <$> L) with Some b => Some b | None => None end = last_ref None L) as ->.
  { unfold last_ref. rewrite fmap_last. by destruct (last L). }
  destruct (segment_length _ _ _ _ _ S1) as [EB _].
  destruct (decide (len toks mod bs = 0)) as [Hm|Hm]; cbn [length] in En.
  - wp_steps. exists L, B. rewrite EL. split_and!; try done; lia.
  - apply wp_bind. eapply wp_mono; [apply (wp_allocate_mutable bs Hbs _ _ _ GPU (last_ref None L) A1); lia|].
    intros r s2 (i & b & -> & Hb & Hbn & A2 & [K2 I2 P2 O2] & C2 & F2 & N2).
    assert (len (chunk toks q) <= bs) as Hlen by apply chunk_length.
    assert (alloc_ok (gpu_only (i :: L ++ R)) (b :: B ++ I) s2) as A2'.
    { eapply alloc_ok_perm; [|done|exact A2]. intros d. by rewrite gpu_only_add. }
    apply wp_bind. eapply wp_mono.
    { eapply (wp_append_token_ids bs _ b (B ++ I) s2 GPU i _ (chunk toks q) A2' P2); [done| | |by right].
      - by rewrite (kp_known _ _ K2).
      - cbn [token_ids]. change (len (@nil Z)) with 0. lia. }
    intros [] s3 (b' & C & A3 & K3 & Hb' & P3 & O3 & HC & C3 & C3' & F3 & N3). wp_steps.
    assert (C = [] /\ b' = b) as [-> ->].
    { destruct HC as [(-> & -> & _)|(_ & Hin & _)]; [done|by destruct Hbn]. }
    cbn [token_ids prev_block app] in P3. rewrite app_nil_r in C3. simpl in F3.
    assert (forall j, j ∈ L ++ R -> pool_block GPU j s3 = pool_block GPU j s1) as Hsame.
    { intros j Hj. rewrite O3; [by apply (O2 GPU)|]. intros [= ->]. by apply I2. }
    exists (L ++ [i]), (B ++ [b]). rewrite length_app. cbn [length].
    assert (keeps s s3) as K by (eapply keeps_trans; [exact K1|]; by eapply keeps_trans).
    split_and!.
    + by rewrite fmap_app.
    + lia.
    + rewrite EL, chunks_snoc. apply segment_snoc; [|done].
      eapply segment_frame; [|exact S1]. intros j Hj. apply Hsame. set_solver.
    + eapply alloc_ok_perm; [| |exact A3]; [|solve_Permutation]. intros []; simpl; [solve_Permutation|done].
    + done.
    + intros d j Hj. destruct d; [|by apply not_elem_of_nil in Hj]. rewrite Hsame; [by apply (O1 GPU)|].
      simpl in Hj. set_solver.
    + apply NoDup_app. split_and!; [done| |apply NoDup_singleton]. set_solver.
    + intros x [Hx|Hx]%elem_of_app; [by apply Fr|]. apply list_elem_of_singleton in Hx as ->.
      split; [by rewrite <- (kp_known _ _ K1)|set_solver].
    + intros d. destruct d; [by rewrite C3, C2, C1|]. by rewrite C3', C2, C1 by done.
    + rewrite N3, N2 by done. done.
    + lia.
Qed.

Lemma wp_table_allocate R I s t toks :
  alloc_ok (gpu_only R) I s -> _blocks t = [] -> toks <> [] -> cdiv (len toks) bs <= Z.of_nat (nfree GPU s) ->
  wp (allocate bs toks) (fun _ st => exists L B,
    table_ok st.1 st.2 0 L B toks /\ L <> [] /\ Z.of_nat (length L) = cdiv (len toks) bs /\
    _max_block_sliding_window st.2 = _max_block_sliding_window t /\
    alloc_ok (gpu_only (L ++ R)) (B ++ I) st.1 /\ keeps s st.1 /\ same_on (gpu_only R) s st.1 /\
    NoDup B /\ (forall b, b ∈ B -> b ∈ known GPU s /\ (b ∉ I)) /\
    (forall d, cows d st.1 = cows d s) /\ nfree CPU st.1 = nfree CPU s /\
    nfree GPU s = (length L + nfree GPU st.1)%nat) (s, t).
Proof.
  intros Ha Ht Hne Hf. unfold allocate. wp_steps. cbn [snd]. unfold _is_allocated. rewrite Ht.
  apply wp_assert; [done|]. wp_steps.
  assert (0 < len toks) as Hpos by (destruct toks; [done|rewrite len_cons; len_lia]).
  apply wp_assert; [by apply negb_true_iff, Z.eqb_neq; lia|]. wp_steps. apply wp_on_alloc.
  eapply wp_mono; [by apply wp_allocate_blocks|].
  intros rs s1 (L & B & -> & EL & S1 & A1 & K1 & O1 & ND & Fr & C1 & N1 & F1). wp_steps.
  eapply wp_mono; [by eapply wp_update|]. intros [] st ->. apply wp_on_table. wp_steps.
  exists L, B. cbn [fst snd].
  pose proof (cdiv_pos (len toks) Hpos). pose proof (cdiv_spec (len toks) bs Hbs).
  split_and!; try done; [|intros ->; simpl in EL; lia].
  split; cbn [_num_full_slots set_num_full_slots]; [|done|lia].
  split; cbn [_blocks _block_ids set_num_full_slots set_list]; [done..|by exists None| |].
  - nia.
  - intros Hz. exfalso. lia.
Qed.

End table.
