(* ===== verification/V0ManagerSpec.v ===== *)
(** What the block manager of the V0 engine guarantees: its tables and its
    allocator agree at all times, and the admission tests promise what the
    operations need. *)

From Stdlib Require Import ZArith Lia.
From stdpp Require Import base strings numbers gmap list sorting.
From S2P Require Import Prelude.
From S2P Require Import V0Block.
From S2P Require Import V0Table.
From S2P Require Import V0Sequence.
From S2P Require Import V0Manager.
From S2P Require Import V0BlockSpec.
From S2P Require Import V0TableSpec.

Open Scope list_scope.
Open Scope Z_scope.

(** ** The invariant *)

(** What a table stands for: blocks dropped, objects, block ids, tokens. *)
Record view := mkView {
  v_dropped : nat;
  v_objects : list nat;
  v_ids : list nat;
  v_tokens : list Z
}.

Definition all_of (f : view -> list nat) (V : gmap Z view) : list nat :=
  concat (f <$> (map_to_list V).*2).

Lemma all_of_delete f V k v : V !! k = Some v -> all_of f V ≡ₚ f v ++ all_of f (delete k V).
Proof. intros H. unfold all_of. by rewrite <- (map_to_list_delete V k v H). Qed.

Lemma all_of_insert f V k v : all_of f (<[k := v]> V) ≡ₚ f v ++ all_of f (delete k V).
Proof.
  rewrite (all_of_delete f _ k v) by apply lookup_insert_eq. by rewrite delete_insert_eq.
Qed.

Lemma elem_of_all_of f V x : x ∈ all_of f V <-> exists k v, V !! k = Some v /\ x ∈ f v.
Proof.
  unfold all_of. split.
  - intros (l & Hl%list_elem_of_In & Hx%list_elem_of_In)%list_elem_of_In%in_concat. apply list_elem_of_fmap in Hl as (v & -> & Hv).
    apply list_elem_of_fmap in Hv as ([k v'] & -> & Hkv). apply elem_of_map_to_list in Hkv. eauto.
  - intros (k & v & Hk & Hx). apply list_elem_of_In, in_concat. exists (f v).
    split; [apply list_elem_of_In|by apply list_elem_of_In]. apply list_elem_of_fmap. exists v. split; [done|]. apply list_elem_of_fmap. exists (k, v).
    split; [done|]. by apply elem_of_map_to_list.
Qed.

Section manager.
Context (cfg : ManagerConfig).
Abbreviation bs := (block_size cfg).

Definition table_view (s : CpuGpuBlockAllocator) (t : BlockTable) (v : view) : Prop :=
  table_ok bs s t (v_dropped v) (v_objects v) (v_ids v) (v_tokens v) /\
  _max_block_sliding_window t = max_block_sliding_window cfg /\
  (v_objects v = [] -> v_tokens v = []).

Record manager_ok (V : gmap Z view) (nl nids : list nat) (m : Manager) : Prop := {
  mo_alloc : alloc_ok (gpu_only (all_of v_objects V ++ nl)) (all_of v_ids V ++ nids) (block_allocator m);
  mo_null : null_in nl nids (block_allocator m);
  mo_none : _null_block (block_allocator m) = None -> nl = [] /\ nids = [];
  mo_one : (length nids <= 1)%nat;
  mo_gpu b : b ∈ all_of v_ids V -> b ∈ known GPU (block_allocator m);
  mo_tables sid : match block_tables m !! sid, V !! sid with
    | Some t, Some v => table_view (block_allocator m) t v
    | None, None => True
    | _, _ => False
    end;
  mo_access : _seq_last_access m = dom V;
  mo_cows : cows GPU (block_allocator m) = [];
  mo_distinct sid v : V !! sid = Some v -> NoDup (v_ids v)
}.

Lemma table_of V nl nids m sid t :
  manager_ok V nl nids m -> block_tables m !! sid = Some t ->
  exists v, V !! sid = Some v /\ table_view (block_allocator m) t v.
Proof.
  intros H Ht. pose proof (mo_tables _ _ _ _ H sid) as Hs. rewrite Ht in Hs.
  destruct (V !! sid) as [v|]; [by exists v|done].
Qed.

Lemma view_of V nl nids m sid v :
  manager_ok V nl nids m -> V !! sid = Some v ->
  exists t, block_tables m !! sid = Some t /\ table_view (block_allocator m) t v.
Proof.
  intros H Ht. pose proof (mo_tables _ _ _ _ H sid) as Hs. rewrite Ht in Hs.
  destruct (block_tables m !! sid) as [t|]; [by exists t|done].
Qed.

(** What one table owns and the rest. *)
Definition rest_objects (sid : Z) (V : gmap Z view) (nl : list nat) : list nat :=
  all_of v_objects (delete sid V) ++ nl.
Definition rest_ids (sid : Z) (V : gmap Z view) (nids : list nat) : list nat :=
  all_of v_ids (delete sid V) ++ nids.

Lemma alloc_split V nl nids m sid v :
  manager_ok V nl nids m -> V !! sid = Some v ->
  alloc_ok (gpu_only (v_objects v ++ rest_objects sid V nl)) (v_ids v ++ rest_ids sid V nids)
    (block_allocator m).
Proof.
  intros H Hv. eapply alloc_ok_perm; [| |exact (mo_alloc _ _ _ _ H)].
  - intros []; simpl; [|done]. unfold rest_objects. by rewrite (all_of_delete v_objects V sid v Hv), app_assoc.
  - unfold rest_ids. by rewrite (all_of_delete v_ids V sid v Hv), app_assoc.
Qed.

Lemma null_in_rest V nl nids m sid :
  manager_ok V nl nids m -> null_in (rest_objects sid V nl) (rest_ids sid V nids) (block_allocator m).
Proof.
  intros H. eapply null_in_sub; [| |exact (mo_null _ _ _ _ H)]; unfold rest_objects, rest_ids; set_solver.
Qed.

(** A change of the allocator that leaves a table's objects leaves the table. *)
Lemma table_view_frame R nl nids s s' t v :
  table_frame R s s' -> null_in nl nids s -> (forall i, i ∈ nl -> i ∈ R) ->
  (forall i, i ∈ v_objects v -> i ∈ R) -> table_view s t v -> table_view s' t v.
Proof.
  intros F Hn Hnl Hv (H & Hw). split; [|done].
  assert (table_frame nl s s') as F'.
  { destruct F as [F1 F2 F3 F4]. split; try done. intros d i Hi. apply F2. destruct d; simpl in *; auto. }
  destruct H as [H1 H2 H3]. split; [|done..]. eapply run_ok_frame; [| |exact H1].
  - intros Hs. split; [|by rewrite (tf_null _ _ _ F)]. by eapply null_in_table.
  - intros i Hi. apply (tf_on _ _ _ F GPU), Hv, Hi.
Qed.

Lemma null_in_part V nl nids m sid nl' nids' s' :
  manager_ok V nl nids m -> table_frame (rest_objects sid V nl) (block_allocator m) s' ->
  null_part nl' nids' (block_allocator m) s' -> null_in (nl' ++ nl) (nids' ++ nids) s'.
Proof.
  intros H F [(Hs & -> & ->)|(Hs & [Hn _] & _)].
  - cbn [app]. assert (table_frame nl (block_allocator m) s') as F'.
    { destruct F as [F1 F2 F3 F4]. split; try done. intros d i Hi. apply F2.
      destruct d; simpl in *; [unfold rest_objects; set_solver|done]. }
    by apply (null_in_table _ _ _ _ F' Hs (mo_null _ _ _ _ H)).
  - destruct (mo_none _ _ _ _ H Hs) as [-> ->]. by rewrite !app_nil_r.
Qed.

(** The manager after an operation on the table of [sid]. *)
Lemma manager_ok_step V nl nids m sid v' nl' nids' a' bt' cr' acc' C :
  manager_ok V nl nids m ->
  table_frame (rest_objects sid V nl) (block_allocator m) a' ->
  alloc_ok (gpu_only (v_objects v' ++ nl' ++ rest_objects sid V nl))
    (v_ids v' ++ nids' ++ rest_ids sid V nids) a' ->
  null_part nl' nids' (block_allocator m) a' ->
  (forall b, b ∈ v_ids v' -> b ∈ known GPU a') ->
  (exists t', bt' !! sid = Some t' /\ table_view a' t' v') ->
  (forall sid', sid' <> sid -> bt' !! sid' = block_tables m !! sid') ->
  acc' = {[sid]} ∪ _seq_last_access m -> cows GPU a' = C -> C = [] -> NoDup (v_ids v') ->
  manager_ok (<[sid := v']> V) (nl' ++ nl) (nids' ++ nids)
    (mkManager a' bt' cr' acc').
Proof.
  intros H F Ha Hnp Hk (t' & Ht' & Hv') Hbt -> Hc -> HND. split; cbn [block_allocator block_tables _seq_last_access].
  - eapply alloc_ok_perm; [| |exact Ha].
    + intros []; simpl; [|done]. unfold rest_objects. rewrite all_of_insert. solve_Permutation.
    + unfold rest_ids. rewrite all_of_insert. solve_Permutation.
  - by eapply null_in_part.
  - intros Hn. destruct Hnp as [(Hs & -> & ->)|(Hs & _ & Hz)].
    + rewrite (tf_null _ _ _ F) in Hn by done. destruct Hs as [r Hr]. congruence.
    + destruct (Hz Hn) as [-> ->]. by apply (mo_none _ _ _ _ H).
  - destruct Hnp as [(Hs & -> & ->)|(Hs & [_ H1] & _)]; [apply (mo_one _ _ _ _ H)|].
    destruct (mo_none _ _ _ _ H Hs) as [_ ->]. by rewrite app_nil_r.
  - intros b. rewrite all_of_insert. intros [Hb|Hb]%elem_of_app; [by apply Hk|].
    rewrite (tf_known _ _ _ F). apply (mo_gpu _ _ _ _ H).
    apply elem_of_all_of in Hb as (k & v & Hkv & Hb). apply lookup_delete_Some in Hkv as [_ Hkv].
    apply elem_of_all_of. eauto.
  - intros sid'. destruct (decide (sid' = sid)) as [->|Hne].
    + by rewrite Ht', lookup_insert_eq.
    + rewrite Hbt, lookup_insert_ne by done. pose proof (mo_tables _ _ _ _ H sid') as Hs.
      destruct (block_tables m !! sid') as [t|], (V !! sid') as [v|] eqn:Ev; try done.
      eapply table_view_frame; [exact F|exact (mo_null _ _ _ _ H)|unfold rest_objects; set_solver| |exact Hs].
      intros i Hi. unfold rest_objects. apply elem_of_app. left. apply elem_of_all_of.
      exists sid', v. by rewrite lookup_delete_ne.
  - rewrite dom_insert_L. by rewrite (mo_access _ _ _ _ H).
  - done.
  - intros sid' w [[<- <-]|[_ Hw]]%lookup_insert_Some; [done|]. by apply (mo_distinct _ _ _ _ H sid').
Qed.

(** ** Appending *)

Lemma wp_on_seq_table {A} sid t (op : M state A) (Q : A -> Manager -> Prop) m :
  block_tables m !! sid = Some t ->
  wp op (fun x st => Q x (set_block_tables <[sid := st.2]> (set_block_allocator st.1 m)))
    (block_allocator m, t) ->
  wp (on_seq_table sid op) Q m.
Proof. intros Ht. unfold wp, on_seq_table. rewrite Ht. by destruct (op _) as [x []|e []]. Qed.

Lemma wp_on_allocator {A} (op : M CpuGpuBlockAllocator A) (Q : A -> Manager -> Prop) m :
  wp op (fun x a => Q x (set_block_allocator a m)) (block_allocator m) -> wp (on_allocator op) Q m.
Proof. apply wp_zoom. Qed.

(** The block that the first window needs for the [NullBlock]. *)
Definition null_needed (m : Manager) : Z :=
  match max_block_sliding_window cfg, _null_block (block_allocator m) with Some _, None => 1 | _, _ => 0 end.

Lemma null_needed_eq t m :
  _max_block_sliding_window t = max_block_sliding_window cfg ->
  Z.of_nat (null_need t (block_allocator m)) = null_needed m.
Proof. intros E. unfold null_need, null_needed. rewrite E. by repeat case_match. Qed.

(** The tokens a call of [append_slots] is for: the table has a prefix of them,
    and the window has not passed what is computed. *)
Record appendable (v : view) (seq : Sequence) : Prop := {
  aa_prefix : v_tokens v `prefix_of` seq_token_ids seq;
  aa_nonempty : v_objects v <> [];
  aa_window w : max_block_sliding_window cfg = Some w ->
    1 <= w /\ 0 <= get_num_computed_tokens (data seq) <= len (v_tokens v)
}.

(** How [append_slots] changes a view, with the ids it takes. *)
Record append_view (I : list nat) (v v' : view) (seq : Sequence) (nids : list nat)
    (C : list (nat * nat)) : Prop := {
  av_tokens : v_tokens v' = seq_token_ids seq;
  av_dropped : v_dropped v' = match max_block_sliding_window cfg with
    | None => v_dropped v
    | Some w => Nat.max (v_dropped v) (Z.to_nat (get_num_computed_tokens (data seq) / bs - w))
    end;
  av_nonempty : v_objects v' <> [];
  av_blocks : exists toks Bn, v_tokens v' = v_tokens v ++ toks /\
    appended bs I (v_ids v) (v_dropped v' - v_dropped v) (v_dropped v) (v_tokens v) toks nids Bn C (v_ids v')
}.

(** Appending keeps the blocks of a table distinct. *)
Lemma cow_steps_distinct I B C B' : cow_steps I B C B' -> NoDup B -> NoDup B'.
Proof.
  induction 1 as [B|B j b b' C B' Hb Hs Hf H IH]; intros Hnd; [done|]. apply IH.
  assert (b' ∉ B) as Hn by (intros Hin; apply Hf, elem_of_app; by left).
  apply NoDup_alt. intros i1 i2 x H1 H2.
  destruct (decide (i1 = j)) as [->|N1], (decide (i2 = j)) as [->|N2]; [done|..].
  - rewrite list_lookup_insert_eq in H1 by (by eapply lookup_lt_Some). injection H1 as <-.
    rewrite list_lookup_insert_ne in H2 by done. by apply list_elem_of_lookup_2 in H2.
  - rewrite list_lookup_insert_eq in H2 by (by eapply lookup_lt_Some). injection H2 as <-.
    rewrite list_lookup_insert_ne in H1 by done. by apply list_elem_of_lookup_2 in H1.
  - rewrite list_lookup_insert_ne in H1, H2 by done. by eapply NoDup_lookup.
Qed.

Lemma appended_distinct I B m k T toks nids Bn C B' :
  appended bs I B m k T toks nids Bn C B' -> NoDup B -> NoDup B'.
Proof.
  intros [Hst Hnd Hfr _ _] HB. eapply cow_steps_distinct; [exact Hst|]. apply NoDup_app.
  split_and!; [eapply sublist_NoDup; [exact HB|apply sublist_drop]| |done].
  intros b Hb Hb'. apply (Hfr b Hb'), elem_of_app. by left.
Qed.

Lemma prefix_drop (l k : list Z) : l `prefix_of` k -> l ++ drop (Z.to_nat (len l)) k = k.
Proof. intros [x ->]. unfold len. rewrite Nat2Z.id, drop_app_length. done. Qed.

Lemma wp_append_slots V nl nids m seq v la n :
  0 < bs -> manager_ok V nl nids m -> V !! seq_id seq = Some v -> appendable v seq -> 0 <= la ->
  touched_blocks cfg la m seq = Ok n -> null_needed m + n <= get_num_free_blocks GPU (block_allocator m) ->
  wp (append_slots cfg seq la) (fun C m' => exists v' nl' nids',
    append_view (rest_ids (seq_id seq) V nids) v v' seq nids' C /\
    manager_ok (<[seq_id seq := v']> V) (nl' ++ nl) (nids' ++ nids) m' /\
    (forall sid, sid <> seq_id seq -> block_tables m' !! sid = block_tables m !! sid) /\
    (forall d, known d (block_allocator m') = known d (block_allocator m)) /\
    cross_block_tables m' = cross_block_tables m /\
    nfree CPU (block_allocator m') = nfree CPU (block_allocator m) /\
    (max_block_sliding_window cfg <> None -> is_Some (_null_block (block_allocator m'))) /\
    (is_Some (_null_block (block_allocator m)) -> is_Some (_null_block (block_allocator m'))) /\
    get_num_free_blocks GPU (block_allocator m)
      <= null_needed m + n + get_num_free_blocks GPU (block_allocator m')) m.
Proof.
  intros Hbs H Hv [Hpre Hne Hwin] Hla Hn Hf.
  destruct (view_of _ _ _ _ _ _ H Hv) as (t & Ht & [Htab [Hw Hemp]]).
  unfold touched_blocks, lookup_table in Hn. rewrite Ht in Hn. cbn [mbind result_mbind] in Hn. injection Hn as <-.
  unfold append_slots. apply wp_bind. apply wp_bind, wp_get_state.
  apply (wp_lift _ t); [unfold lookup_table; by rewrite Ht|]. apply wp_bind.
  set (toks := get_unseen_token_ids (seq_token_ids seq) t) in *.
  assert (v_tokens v ++ toks = seq_token_ids seq) as Htoks.
  { subst toks. unfold get_unseen_token_ids. rewrite (to_full _ _ _ _ _ _ _ Htab). by apply prefix_drop. }
  rewrite <- (null_needed_eq t m Hw) in *.
  apply (wp_on_seq_table _ t); [done|].
  eapply wp_mono.
  { apply (wp_table_append bs Hbs (rest_ids (seq_id seq) V nids) (rest_objects (seq_id seq) V nl)
      (block_allocator m) t _ _ _ _ toks la (get_num_computed_tokens (data seq)) Htab Hne).
    - by apply alloc_split.
    - by apply (null_in_rest V).
    - intros b Hb. apply (mo_gpu _ _ _ _ H). apply elem_of_all_of. eauto.
    - done.
    - intros w. rewrite Hw. apply Hwin.
    - exact Hf. }
  intros [] [s1 t1] (k & nl' & nids' & Ln & Bn & C & B' & Ek & Hkl & Hap & Htab1 & A1 & Nu1 & NP1 & En & Hk1 &
    F1 & W1 & S1 & C1 & N1). cbn [fst snd] in *.
  apply wp_on_allocator. cbn [block_allocator set_block_tables set_block_allocator].
  eapply wp_mono; [by apply wp_clear_copy_on_writes|].
  intros C' s2 (-> & A2 & K2 & O2 & C2 & N2). rewrite C1, (mo_cows _ _ _ _ H). cbn [app].
  set (v' := mkView (v_dropped v + k) (drop k (v_objects v) ++ Ln) B' (seq_token_ids seq)).
  rewrite Htoks in Htab1.
  assert (null_in (nl' ++ rest_objects (seq_id seq) V nl) (nids' ++ rest_ids (seq_id seq) V nids) s2 /\
    null_id s2 = null_id s1) as [Nu2 Hid2].
  { eapply null_in_frame; [exact K2|intros d i _; apply O2|exact Nu1]. }
  assert (table_frame (rest_objects (seq_id seq) V nl) (block_allocator m) s2) as F2.
  { eapply table_frame_trans; [exact F1|]. apply keeps_frame; [done|intros d i _; apply O2|apply N2]. }
  assert (table_view s2 t1 v') as Hview.
  { split; [|split; [by rewrite W1|]].
    - destruct Htab1 as [R1 R2 R3]. split; [|done..]. eapply run_ok_frame; [| |exact R1].
      + intros Hs. split; [done|by rewrite (kp_null _ _ K2)].
      + intros i _. apply O2.
    - intros Hnil. exfalso. cbn [v_objects v'] in Hnil. apply app_eq_nil in Hnil as [Hnil _].
      apply (f_equal length) in Hnil. rewrite length_drop in Hnil. simpl in Hnil. lia. }
  exists v', nl', nids'. split_and!.
  - split; cbn [v_tokens v_dropped v_ids v'].
    + done.
    + rewrite Ek. unfold window_drop. rewrite Hw. destruct (max_block_sliding_window cfg); lia.
    + cbn [v_objects v']. intros Hnil. apply app_eq_nil in Hnil as [Hnil _].
      apply (f_equal length) in Hnil. rewrite length_drop in Hnil. simpl in Hnil. lia.
    + exists toks, Bn. split; [done|]. by replace (v_dropped v + k - v_dropped v)%nat with k by lia.
  - refine (manager_ok_step _ _ _ m _ _ nl' nids' _ _ _ _ _ H F2 _ _ _ _ _ _ eq_refl C2 _).
    + eapply alloc_ok_perm; [|done|exact A2]. done.
    + eapply (null_part_frame bs Hbs [] _ _ _ _ _ NP1 K2). intros d i _. apply O2.
    + intros b Hb. rewrite (kp_known _ _ K2), (tf_known _ _ _ F1). by apply Hk1.
    + exists t1. split; [apply lookup_insert_eq|done].
    + intros sid Hsid. by apply lookup_insert_ne.
    + cbn. rewrite (mo_access _ _ _ _ H). symmetry. apply subseteq_union_1_L, singleton_subseteq_l.
      by eapply elem_of_dom_2.
    + cbn [v_ids v']. eapply appended_distinct; [exact Hap|by apply (mo_distinct _ _ _ _ H _ _ Hv)].
  - intros sid Hsid. by apply lookup_insert_ne.
  - intros d. by rewrite (kp_known _ _ K2), (tf_known _ _ _ F1).
  - done.
  - unfold set_block_allocator. cbn. by rewrite N2, (tf_cpu _ _ _ F1).
  - cbn. intros Hwn. rewrite (kp_null _ _ K2). apply S1. by rewrite Hw.
  - cbn. intros Hs. by rewrite (tf_null _ _ _ F2).
  - unfold get_num_free_blocks, naive_num_free_blocks, len. cbn.
    specialize (N2 GPU). unfold nfree in N2, N1. cbn [allocator_of] in *. rewrite N2. exact N1.
Qed.

(** ** Forking *)

Lemma wp_add_seq sid (Q : unit -> Manager -> Prop) m :
  sid ∉ _seq_last_access m -> Q tt (set_seq_last_access (fun t => {[sid]} ∪ t) m) -> wp (add_seq sid) Q m.
Proof.
  intros Hs HQ. unfold add_seq. wp_steps. apply wp_assert; [by rewrite bool_decide_eq_false_2|]. by wp_steps.
Qed.

Lemma fresh_rest V nl nids sid :
  V !! sid = None -> rest_objects sid V nl = all_of v_objects V ++ nl /\ rest_ids sid V nids = all_of v_ids V ++ nids.
Proof. intros Hs. unfold rest_objects, rest_ids. by rewrite delete_id. Qed.

(** A table forked from the one of [v] becomes the table of [sid]. *)
Lemma wp_fork_table V nl nids m parent t v sid (Q : unit -> Manager -> Prop) :
  0 < bs -> manager_ok V nl nids m -> V !! parent = Some v -> block_tables m !! parent = Some t ->
  v_dropped v = 0%nat -> v_objects v <> [] -> (length (v_objects v) <= recursion_limit cfg)%nat ->
  V !! sid = None ->
  (forall L m', manager_ok (<[sid := mkView 0 L (v_ids v) (v_tokens v)]> V) nl nids m' -> L <> [] ->
     length L = length (v_objects v) ->
     keeps (block_allocator m) (block_allocator m') ->
     (forall sid', sid' <> sid -> block_tables m' !! sid' = block_tables m !! sid') ->
     cross_block_tables m' = cross_block_tables m ->
     (forall d, nfree d (block_allocator m') = nfree d (block_allocator m)) -> Q tt m') ->
  wp (forked ← on_allocator (table_fork bs (recursion_limit cfg) t);
      modify (set_block_tables <[sid := forked]>);;
      add_seq sid) Q m.
Proof.
  intros Hbs H Hv Ht Hd Hne Hlim Hsid HQ.
  destruct (view_of _ _ _ _ _ _ H Hv) as (t' & Et & Htab & Hw & Hemp). rewrite Ht in Et. injection Et as <-.
  rewrite Hd in Htab. destruct (fresh_rest V nl nids sid Hsid) as [ER EI].
  apply wp_bind, wp_on_allocator. eapply wp_mono.
  { apply (wp_table_fork bs Hbs _ _ _ _ _ _ _ _ Htab Hne (mo_alloc _ _ _ _ H)); [| |done].
    - intros i Hi. apply elem_of_app. left. apply elem_of_all_of. eauto.
    - intros b Hb. assert (b ∈ all_of v_ids V) as Hb' by (apply elem_of_all_of; eauto).
      split; [by apply (mo_gpu _ _ _ _ H)|]. apply elem_of_app. by left. }
  intros t' s' (L & Htab' & HL & Hw' & A' & O' & K' & C' & N'). wp_steps. apply wp_add_seq.
  { cbn. rewrite (mo_access _ _ _ _ H). by apply not_elem_of_dom_2. }
  assert (L <> []) as HLne.
  { intros ->. simpl in HL. destruct (v_objects v); [done|]. simpl in HL. lia. }
  apply (HQ L); try done; [|intros sid' Hs; by apply lookup_insert_ne].
  refine (manager_ok_step _ _ _ m sid _ [] [] _ _ _ _ _ H _ _ _ _ _ _ _ eq_refl _ _).
  - rewrite ER. apply keeps_frame; [done..|apply N'].
  - rewrite ER, EI. exact A'.
  - eapply (null_part_frame bs Hbs (all_of v_objects V ++ nl)); [apply null_part_refl|exact K'|exact O'].
  - cbn. intros b Hb. rewrite (kp_known _ _ K'). apply (mo_gpu _ _ _ _ H). apply elem_of_all_of. eauto.
  - exists t'. cbn. split; [apply lookup_insert_eq|]. split; [done|]. split; [congruence|done].
  - cbn. intros sid' Hs. by apply lookup_insert_ne.
  - done.
  - cbn. rewrite C'. apply (mo_cows _ _ _ _ H).
  - by apply (mo_distinct _ _ _ _ H _ _ Hv).
Qed.

Lemma wp_fork_seq V nl nids m parent child v :
  0 < bs -> manager_ok V nl nids m -> V !! seq_id parent = Some v -> v_dropped v = 0%nat -> v_objects v <> [] ->
  (length (v_objects v) <= recursion_limit cfg)%nat -> V !! seq_id child = None ->
  wp (fork_seq cfg parent child) (fun _ m' => exists L,
    manager_ok (<[seq_id child := mkView 0 L (v_ids v) (v_tokens v)]> V) nl nids m' /\ L <> [] /\
    keeps (block_allocator m) (block_allocator m') /\
    (forall d, nfree d (block_allocator m') = nfree d (block_allocator m))) m.
Proof.
  intros Hbs H Hv Hd Hne Hlim Hc. destruct (view_of _ _ _ _ _ _ H Hv) as (t & Et & _).
  unfold fork_seq. apply wp_bind, wp_get_state. rewrite Et.
  eapply wp_fork_table; [done..|]. intros L m' Hm' HL Hlen K O Cr N. by exists L.
Qed.

(** ** Freeing *)

Lemma wp_free_seq V nl nids m seq v :
  0 < bs -> manager_ok V nl nids m -> V !! seq_id seq = Some v ->
  wp (free_seq seq) (fun _ m' => manager_ok (delete (seq_id seq) V) nl nids m' /\
    (forall sid, sid <> seq_id seq -> block_tables m' !! sid = block_tables m !! sid) /\
    keeps (block_allocator m) (block_allocator m') /\
    (nfree GPU (block_allocator m) <= nfree GPU (block_allocator m'))%nat) m.
Proof.
  intros Hbs H Hv. destruct (view_of _ _ _ _ _ _ H Hv) as (t & Et & [Htab _ _] & Hw & Hemp).
  unfold free_seq. apply wp_bind, wp_get_state. rewrite Et.
  assert (seq_id seq ∈ _seq_last_access m) as Hacc.
  { rewrite (mo_access _ _ _ _ H). by eapply elem_of_dom_2. }
  apply wp_bind. unfold update_seq_blocks_last_access. wp_steps. apply wp_assert; [by apply bool_decide_eq_true_2|].
  unfold remove_seq. wp_steps. apply wp_assert; [by apply bool_decide_eq_true_2|]. wp_steps.
  apply (wp_on_seq_table _ t); [done|]. cbn [block_allocator set_seq_last_access].
  eapply wp_mono; [eapply (wp_table_free _ Hbs _ _ _ _ _ _ _ _ Htab); [by apply alloc_split|]|].
  { intros b Hb. apply (mo_gpu _ _ _ _ H). apply elem_of_all_of. eauto. }
  intros [] [s1 t1] (A1 & K1 & O1 & C1 & N1 & F1). cbn [fst snd] in *. wp_steps.
  assert (table_frame (rest_objects (seq_id seq) V nl) (block_allocator m) s1) as F by by apply keeps_frame.
  split_and!; try done.
  2:{ intros sid Hs. cbn. rewrite lookup_delete_ne, lookup_insert_ne by done. done. }
  split; cbn [block_allocator block_tables _seq_last_access set_block_tables set_block_allocator set_seq_last_access].
  - exact A1.
  - assert (table_frame nl (block_allocator m) s1) as Fn.
    { apply keeps_frame; [done| |done]. intros d i Hi. apply O1.
      destruct d; simpl in *; [unfold rest_objects; set_solver|done]. }
    destruct (_null_block (block_allocator m)) as [r|] eqn:E.
    + apply (null_in_table _ _ _ _ Fn); [by rewrite E; eexists|]. apply (mo_null _ _ _ _ H).
    + unfold null_in. by rewrite (kp_null _ _ K1), E.
  - rewrite (kp_null _ _ K1). apply (mo_none _ _ _ _ H).
  - apply (mo_one _ _ _ _ H).
  - intros b Hb. rewrite (kp_known _ _ K1). apply (mo_gpu _ _ _ _ H).
    apply elem_of_all_of in Hb as (k & w & Hk & Hb). apply lookup_delete_Some in Hk as [_ Hk].
    apply elem_of_all_of. eauto.
  - intros sid. destruct (decide (sid = seq_id seq)) as [->|Hne].
    + by rewrite !lookup_delete_eq.
    + rewrite !lookup_delete_ne, lookup_insert_ne by done. pose proof (mo_tables _ _ _ _ H sid) as Hs.
      destruct (block_tables m !! sid) as [t'|], (V !! sid) as [v'|] eqn:Ev; try done.
      eapply table_view_frame; [exact F|exact (mo_null _ _ _ _ H)|unfold rest_objects; set_solver| |exact Hs].
      intros i Hi. unfold rest_objects. apply elem_of_app. left. apply elem_of_all_of.
      exists sid, v'. by rewrite lookup_delete_ne.
  - rewrite (mo_access _ _ _ _ H), dom_delete_L. done.
  - rewrite C1. apply (mo_cows _ _ _ _ H).
  - intros sid w [_ Hw']%lookup_delete_Some. by apply (mo_distinct _ _ _ _ H sid).
Qed.

(** ** Allocating *)

(** The sequences of [l] are views of the same blocks and tokens; the others are
    as before. *)
Record same_prompt (V V' : gmap Z view) (l : list Sequence) (B : list nat) (T : list Z) : Prop := {
  sp_new seq : seq ∈ l -> exists L, V' !! seq_id seq = Some (mkView 0 L B T) /\ L <> [];
  sp_old sid : sid ∉ (seq_id <$> l) -> V' !! sid = V !! sid
}.

Lemma wp_fork_others V nl nids m first t v l :
  0 < bs -> manager_ok V nl nids m -> V !! first = Some v -> block_tables m !! first = Some t ->
  v_dropped v = 0%nat -> v_objects v <> [] -> (l <> [] -> length (v_objects v) <= recursion_limit cfg)%nat ->
  NoDup (seq_id <$> l) -> (forall seq, seq ∈ l -> V !! seq_id seq = None) ->
  wp (for_each (fun seq' =>
        forked ← on_allocator (table_fork bs (recursion_limit cfg) t);
        modify (set_block_tables <[seq_id seq' := forked]>);;
        add_seq (seq_id seq')) l) (fun _ m' => exists V',
    manager_ok V' nl nids m' /\ same_prompt V V' l (v_ids v) (v_tokens v) /\
    cross_block_tables m' = cross_block_tables m /\
    keeps (block_allocator m) (block_allocator m') /\
    (forall d, nfree d (block_allocator m') = nfree d (block_allocator m))) m.
Proof.
  intros Hbs. revert V m. induction l as [|seq l IH]; intros V m H Hv Ht Hd Hne Hlim Hnd Hnew.
  { apply wp_ret. exists V. split_and!; auto using keeps_refl. split; [|done].
    intros seq Hseq. by apply not_elem_of_nil in Hseq. }
  cbn [for_each]. cbn in Hnd. apply NoDup_cons in Hnd as [Hn Hnd]. apply wp_bind.
  eapply wp_fork_table; [done..|by apply Hlim| |].
  { apply Hnew. set_solver. }
  assert (first <> seq_id seq) as Hfs.
  { intros E. rewrite E, (Hnew seq) in Hv by set_solver. done. }
  intros L m1 H1 HL HlenL K1 T1 Cr1 N1.
  eapply wp_mono; [eapply (IH _ m1 H1)|].
  - by rewrite lookup_insert_ne by done.
  - by rewrite T1.
  - done.
  - done.
  - intros _. by apply Hlim.
  - done.
  - intros s Hs. rewrite lookup_insert_ne; [apply Hnew; set_solver|].
    intros E. apply Hn. rewrite E. apply list_elem_of_fmap. by exists s.
  - intros [] m2 (V' & H2 & [P1 P2] & Cr2 & K2 & N2). exists V'. split_and!; try done.
    + split.
      * intros s [->|Hs]%elem_of_cons; [|by apply P1]. exists L. split; [|done].
        rewrite P2 by done. apply lookup_insert_eq.
      * intros sid Hs. rewrite fmap_cons in Hs. apply not_elem_of_cons in Hs as [Hs1 Hs2].
        rewrite P2 by done. by apply lookup_insert_ne.
    + congruence.
    + by eapply keeps_trans.
    + intros d. by rewrite N2, N1.
Qed.

(** A group whose sequences are new and share a prompt, without an encoder. *)
Record group_new (V : gmap Z view) (m : Manager) (g : SequenceGroup) (first : Sequence)
    (others : list Sequence) : Prop := {
  gn_waiting : get_seqs WAITING g = first :: others;
  gn_nodup : NoDup (seq_id <$> first :: others);
  gn_new seq : seq ∈ first :: others -> V !! seq_id seq = None;
  gn_tokens : seq_token_ids first <> [];
  gn_encoder : encoder_seq g = None;
  gn_cross : cross_block_tables m !! request_id g = None;
  gn_depth : others <> [] -> cdiv (len (seq_token_ids first)) bs <= Z.of_nat (recursion_limit cfg)
}.

Lemma wp_allocate_group V nl nids m g first others :
  0 < bs -> manager_ok V nl nids m -> group_new V m g first others ->
  cdiv (len (seq_token_ids first)) bs <= get_num_free_blocks GPU (block_allocator m) ->
  wp (allocate_group cfg g) (fun _ m' => exists V' B,
    manager_ok V' nl nids m' /\ same_prompt V V' (first :: others) B (seq_token_ids first) /\
    NoDup B /\ (forall b, b ∈ B -> b ∉ all_of v_ids V ++ nids) /\
    cross_block_tables m' = cross_block_tables m /\ keeps (block_allocator m) (block_allocator m') /\
    get_num_free_blocks GPU (block_allocator m) =
      cdiv (len (seq_token_ids first)) bs + get_num_free_blocks GPU (block_allocator m')) m.
Proof.
  intros Hbs H [Hw Hnd Hnew Htoks Henc Hcross Hdepth] Hf. set (T := seq_token_ids first) in *.
  pose proof (proj1 (NoDup_cons _ _) Hnd) as [Hn1 Hnd'].
  unfold allocate_group. rewrite Hw. apply wp_bind, wp_get_state. apply wp_bind, wp_assert.
  { apply forallb_forall. intros seq Hseq%list_elem_of_In. apply bool_decide_eq_true_2.
    pose proof (mo_tables _ _ _ _ H (seq_id seq)) as Hs. rewrite Hnew in Hs by done.
    by destruct (block_tables m !! seq_id seq). }
  assert (V !! seq_id first = None) as Hfirst by apply Hnew, list_elem_of_here.
  destruct (fresh_rest V nl nids _ Hfirst) as [ER EI].
  apply wp_bind. set (t0 := mkTable [] [] (max_block_sliding_window cfg) 0).
  assert (0 < len T) as Hpos by (destruct T; [done|rewrite len_cons; len_lia]).
  assert (wp (_allocate_sequence cfg first) (fun t m' => exists L B,
      m' = set_block_allocator (block_allocator m') m /\
      table_ok bs (block_allocator m') t 0 L B T /\ L <> [] /\ Z.of_nat (length L) = cdiv (len T) bs /\
      _max_block_sliding_window t = max_block_sliding_window cfg /\
      alloc_ok (gpu_only (L ++ rest_objects (seq_id first) V nl)) (B ++ rest_ids (seq_id first) V nids)
        (block_allocator m') /\
      keeps (block_allocator m) (block_allocator m') /\
      same_on (gpu_only (rest_objects (seq_id first) V nl)) (block_allocator m) (block_allocator m') /\
      NoDup B /\ (forall b, b ∈ B -> b ∈ known GPU (block_allocator m) /\ (b ∉ rest_ids (seq_id first) V nids)) /\
      (forall d, cows d (block_allocator m') = cows d (block_allocator m)) /\
      nfree CPU (block_allocator m') = nfree CPU (block_allocator m) /\
      nfree GPU (block_allocator m) = (length L + nfree GPU (block_allocator m'))%nat) m) as Hseq.
  { unfold _allocate_sequence. fold T t0. rewrite (proj2 (Z.eqb_neq _ _)) by lia. unfold wp at 1.
    pose proof (wp_table_allocate bs Hbs (rest_objects (seq_id first) V nl) (rest_ids (seq_id first) V nids)
      (block_allocator m) t0 T) as Hall. unfold wp in Hall.
    destruct (allocate bs T (block_allocator m, t0)) as [[] [a t]|e [a t]].
    - destruct Hall as (L & B & G1 & G2 & G3 & G4 & G5 & G6 & G7 & G8 & G9 & G10 & G11 & G12); [|done..|].
      { rewrite ER, EI. apply (mo_alloc _ _ _ _ H). }
      exists L, B. cbn. split_and!; done.
    - apply Hall; [|done..]. rewrite ER, EI. apply (mo_alloc _ _ _ _ H). }
  eapply wp_mono; [exact Hseq|].
  intros t m1 (L & B & Em & Htab & HL & HlenL & HW & A1 & K1 & O1 & ND & Fr & C1 & N1 & F1).
  wp_steps. apply wp_add_seq.
  { rewrite Em. cbn. rewrite (mo_access _ _ _ _ H). by apply not_elem_of_dom_2. }
  set (v := mkView 0 L B T). set (m2 := set_seq_last_access _ _).
  assert (manager_ok (<[seq_id first := v]> V) nl nids m2) as H2.
  { refine (manager_ok_step _ _ _ m (seq_id first) v [] [] _ _ _ _ _ H _ A1 _ _ _ _ _ eq_refl _ ND).
    - by apply keeps_frame.
    - eapply (null_part_frame bs Hbs (rest_objects (seq_id first) V nl)); [apply null_part_refl|exact K1|exact O1].
    - cbn. intros b Hb. rewrite (kp_known _ _ K1). by apply Fr.
    - exists t. cbn. split; [apply lookup_insert_eq|]. split; [done|]. split; [done|done].
    - cbn. intros sid Hs. rewrite lookup_insert_ne by done. by rewrite Em.
    - cbn. by rewrite Em.
    - rewrite C1. apply (mo_cows _ _ _ _ H). }
  apply wp_bind. eapply wp_mono.
  { eapply (wp_fork_others _ nl nids m2 (seq_id first) t v others Hbs H2).
    - apply lookup_insert_eq.
    - cbn. apply lookup_insert_eq.
    - done.
    - done.
    - intros Ho. specialize (Hdepth Ho). cbn. lia.
    - done.
    - intros seq Hs. rewrite lookup_insert_ne; [by apply Hnew, list_elem_of_further|].
      intros E. apply Hn1. rewrite E. apply list_elem_of_fmap. by exists seq. }
  intros [] m3 (V' & H3 & [P1 P2] & Cr3 & K3 & N3). apply wp_bind, wp_get_state.
  assert (cross_block_tables m3 = cross_block_tables m) as Cr by (rewrite Cr3; cbn; by rewrite Em).
  apply wp_bind, wp_assert; [apply bool_decide_eq_true_2; by rewrite Cr|].
  apply wp_bind. apply (wp_lift _ tt).
  { unfold check_no_caching_or_swa_for_blockmgr_encdec, is_encoder_decoder. rewrite Henc.
    rewrite bool_decide_eq_false_2; [done|]. intros [? ?]; done. }
  rewrite Henc. apply wp_ret. exists V', B. split_and!; try done.
  - split.
    + intros seq [->|Hs]%elem_of_cons; [|by apply P1]. exists L. split; [|done].
      rewrite P2 by done. apply lookup_insert_eq.
    + intros sid Hs. rewrite fmap_cons in Hs. apply not_elem_of_cons in Hs as [Hs1 Hs2].
      rewrite P2 by done. by apply lookup_insert_ne.
  - intros b Hb. rewrite <- EI. by apply Fr.
  - eapply keeps_trans; [exact K1|exact K3].
  - unfold get_num_free_blocks, naive_num_free_blocks, len. specialize (N3 GPU).
    change (block_allocator m2) with (block_allocator m1) in N3.
    unfold nfree in *. cbn [allocator_of] in *. unfold len in HlenL. lia.
Qed.

(** ** Admission *)

(** The number of touched blocks of a sequence depends on its table alone. *)
Lemma touched_blocks_same la m m' seq :
  block_tables m' !! seq_id seq = block_tables m !! seq_id seq ->
  touched_blocks cfg la m' seq = touched_blocks cfg la m seq.
Proof. unfold touched_blocks, lookup_table. by intros ->. Qed.

Lemma sum_results_ok {A} (f : A -> result Z) x l n :
  sum_results f (x :: l) = Ok n -> exists a b, f x = Ok a /\ sum_results f l = Ok b /\ n = a + b.
Proof.
  cbn. destruct (f x) as [a|]; [|done]. cbn. destruct (sum_results f l) as [b|]; [|done]. cbn.
  intros [= <-]. by exists a, b.
Qed.

Lemma sum_results_same {A} (f g : A -> result Z) l :
  (forall x, x ∈ l -> f x = g x) -> sum_results f l = sum_results g l.
Proof.
  induction l as [|x l IH]; intros H; [done|]. cbn. rewrite (H x) by apply list_elem_of_here.
  rewrite IH; [done|]. intros y Hy. by apply H, list_elem_of_further.
Qed.

Lemma touched_nonneg V nl nids m seq v la n :
  0 < bs -> manager_ok V nl nids m -> V !! seq_id seq = Some v -> 0 <= la ->
  touched_blocks cfg la m seq = Ok n -> 0 <= n.
Proof.
  intros Hbs H Hv Hla. destruct (view_of _ _ _ _ _ _ H Hv) as (t & Ht & [Htab _]).
  unfold touched_blocks, lookup_table. rewrite Ht. cbn. intros [= <-].
  rewrite (touched_eq _ Hbs) by (rewrite (to_full _ _ _ _ _ _ _ Htab); apply len_nonneg).
  pose proof (to_full _ _ _ _ _ _ _ Htab) as E. rewrite E. pose proof (len_nonneg (v_tokens v)).
  set (toks := get_unseen_token_ids _ _). pose proof (len_nonneg toks).
  pose proof (div_le_cdiv (len (v_tokens v)) bs Hbs).
  pose proof (cdiv_mono (len (v_tokens v)) (len (v_tokens v) + len toks + la) bs Hbs ltac:(lia)). lia.
Qed.

(** When the free blocks suffice for all of a list of sequences, their slots can
    be appended one after the other. *)
Lemma wp_append_all V nl nids m la l n :
  0 < bs -> manager_ok V nl nids m -> NoDup (seq_id <$> l) ->
  (forall seq, seq ∈ l -> exists v, V !! seq_id seq = Some v /\ appendable v seq) ->
  0 <= la -> null_needed m = 0 -> sum_results (touched_blocks cfg la m) l = Ok n ->
  n <= get_num_free_blocks GPU (block_allocator m) ->
  wp (map_each (fun seq => append_slots cfg seq la) l) (fun _ m' => exists V' nl' nids',
    manager_ok V' nl' nids' m' /\
    (forall seq, seq ∈ l -> exists v', V' !! seq_id seq = Some v' /\ v_tokens v' = seq_token_ids seq) /\
    (forall sid, sid ∉ (seq_id <$> l) -> V' !! sid = V !! sid) /\
    (forall sid, sid ∉ (seq_id <$> l) -> block_tables m' !! sid = block_tables m !! sid) /\
    get_num_free_blocks GPU (block_allocator m) - n <= get_num_free_blocks GPU (block_allocator m')) m.
Proof.
  intros Hbs. revert V nl nids m n. induction l as [|seq l IH]; intros V nl nids m n H Hnd Hap Hla Hnull Hsum Hf.
  { cbn in Hsum. injection Hsum as <-. apply wp_ret. exists V, nl, nids. split_and!; [done| |done|done|lia].
    intros seq Hs. by apply not_elem_of_nil in Hs. }
  destruct (sum_results_ok _ _ _ _ Hsum) as (a & b & Ha & Hb & ->).
  cbn in Hnd. apply NoDup_cons in Hnd as [Hn Hnd].
  destruct (Hap seq (list_elem_of_here _ _)) as (v & Hv & Hav).
  assert (forall s, s ∈ l -> seq_id s <> seq_id seq) as Hother.
  { intros s Hs E. apply Hn. rewrite <- E. apply list_elem_of_fmap. by exists s. }
  assert (0 <= b) as Hb0.
  { assert (forall l', (forall s, s ∈ l' -> s ∈ l) -> forall b', sum_results (touched_blocks cfg la m) l' = Ok b' -> 0 <= b') as Hp.
    { induction l' as [|s l' IHl]; intros Hsub b' Hb'; [cbn in Hb'; injection Hb' as <-; lia|].
      destruct (sum_results_ok _ _ _ _ Hb') as (x & y & Hx & Hy & ->).
      destruct (Hap s) as (vs & Hvs & _); [apply list_elem_of_further, Hsub, list_elem_of_here|].
      pose proof (touched_nonneg _ _ _ _ _ _ _ _ Hbs H Hvs Hla Hx).
      pose proof (IHl ltac:(intros z Hz; by apply Hsub, list_elem_of_further) y Hy). lia. }
    by apply (Hp l). }
  cbn [map_each]. apply wp_bind. eapply wp_mono.
  { apply (wp_append_slots V nl nids m seq v la a); try done. rewrite Hnull. lia. }
  intros C m1 (v1 & nl1 & nids1 & Hav1 & H1 & T1 & K1 & Cr1 & N1 & W1 & S1 & F1).
  assert (null_needed m1 = 0) as Hnull1.
  { unfold null_needed in *. destruct (max_block_sliding_window cfg) as [w|]; [|done].
    destruct W1 as [r ->]; done. }
  apply wp_bind. eapply wp_mono; [apply (IH _ _ _ m1 b H1); try done|].
  - intros s Hs. rewrite lookup_insert_ne by (intros E; by apply (Hother s)).
    apply Hap. by apply list_elem_of_further.
  - rewrite <- Hb. apply sum_results_same. intros s Hs. apply touched_blocks_same, T1. by apply Hother.
  - lia.
  - intros Cs m2 (V2 & nl2 & nids2 & H2 & D2 & VF & T2 & F2). apply wp_ret.
    exists V2, nl2, nids2. split_and!; [done| | | |lia].
    + intros s [->|Hs]%elem_of_cons; [|by apply D2]. exists v1. rewrite VF by done.
      split; [apply lookup_insert_eq|]. by destruct Hav1.
    + intros sid Hs. rewrite fmap_cons in Hs. apply not_elem_of_cons in Hs as [Hs1 Hs2].
      rewrite VF by done. by apply lookup_insert_ne.
    + intros sid Hs. rewrite fmap_cons in Hs. apply not_elem_of_cons in Hs as [Hs1 Hs2].
      rewrite T2, T1 by done. done.
Qed.

End manager.
