(* ===== verification/V0Cache.v ===== *)
(** The device cache of the V0 engine: the copies and swaps of cache blocks
    (src/vllm_gaudi/extension/cache_ops.py), the slots that a step writes, and
    the theorem that every sequence reads its own keys and values through its
    block table, whatever the manager shares, copies, drops and reuses. *)

From Stdlib Require Import ZArith Lia.
From stdpp Require Import base strings numbers functions gmap list relations.
From S2P Require Import Prelude.
From S2P Require Import Heapq.
From S2P Require Import V0Block.
From S2P Require Import V0Table.
From S2P Require Import V0Sequence.
From S2P Require Import V0Manager.
From S2P Require Import V0BlockSpec.
From S2P Require Import V0TableSpec.
From S2P Require Import V0ManagerSpec.

Open Scope list_scope.
Open Scope Z_scope.

(** ** Copies *)

(** [index_select(0, src)] and [index_put_] / [index_copy_] on dimension 0. *)
Definition index_select {C} (cache : nat -> C) (src : list nat) : list C := cache <$> src.
Definition index_put {C} (cache : nat -> C) (dst : list nat) (rows : list C) : nat -> C :=
  fold_left (fun c p => <[p.1 := p.2]> c) (zip dst rows) cache.

Definition swap_blocks {C} (src dst : nat -> C) (block_mapping : list (nat * nat)) : nat -> C :=
  if len block_mapping =? 0 then dst
  else index_put dst block_mapping.*2 (index_select src block_mapping.*1).

(** One cache of [copy_blocks]. *)
Definition copy_blocks {C} (block_mapping : list (nat * nat)) (cache : nat -> C) : nat -> C :=
  if len block_mapping =? 0 then cache
  else index_put cache block_mapping.*2 (index_select cache block_mapping.*1).

Section copies.
Context {C : Type}.
Implicit Types (cache : nat -> C) (l : list (nat * nat)).

Lemma copy_blocks_eq l cache :
  copy_blocks l cache = fold_left (fun c p => <[p.2 := cache p.1]> c) l cache.
Proof.
  unfold copy_blocks, index_put, index_select. destruct (len l =? 0) eqn:E.
  { destruct l; [done|]. rewrite len_cons in E. len_lia. }
  generalize cache at 2 4. clear E. induction l as [|[s d] l IH]; intros c; [done|]. simpl. apply IH.
Qed.

Lemma copy_loop_not c0 l cache x :
  x ∉ l.*2 -> fold_left (fun c p => <[p.2 := c0 p.1]> c) l cache x = cache x.
Proof.
  revert cache. induction l as [|[s d] l IH]; intros cache Hx; [done|]. cbn in Hx.
  apply not_elem_of_cons in Hx as [Hd Hx]. simpl. rewrite IH by done.
  by rewrite fn_lookup_insert_ne.
Qed.

Lemma copy_loop_sources c0 c1 l cache :
  (forall x, x ∈ l.*1 -> c0 x = c1 x) ->
  fold_left (fun c p => <[p.2 := c0 p.1]> c) l cache = fold_left (fun c p => <[p.2 := c1 p.1]> c) l cache.
Proof.
  revert cache. induction l as [|[s d] l IH]; intros cache H; [done|]. simpl.
  rewrite (H s) by (cbn; apply list_elem_of_here). apply IH. intros x Hx. apply H. cbn. by apply list_elem_of_further.
Qed.

Lemma copy_blocks_not l cache x : x ∉ l.*2 -> copy_blocks l cache x = cache x.
Proof. intros Hx. rewrite copy_blocks_eq. by apply copy_loop_not. Qed.

(** Copies whose sources are no earlier targets may be made one after the other. *)
Lemma copy_blocks_app l k cache :
  (forall x, x ∈ k.*1 -> x ∉ l.*2) -> copy_blocks (l ++ k) cache = copy_blocks k (copy_blocks l cache).
Proof.
  intros H. rewrite !copy_blocks_eq, fold_left_app. apply copy_loop_sources.
  intros x Hx. symmetry. apply copy_loop_not. by apply H.
Qed.

(** After the copies of copy on write every reference reads what it read
    before: those of the table through its new ids, those of others through
    theirs. *)
Lemma cow_copies I B l B' cache :
  cow_steps I B l B' ->
  (forall j b, B !! j = Some b -> exists b', B' !! j = Some b' /\ copy_blocks l cache b' = cache b) /\
  (forall b, b ∈ I -> copy_blocks l cache b = cache b).
Proof.
  intros H. revert cache. induction H as [B|B j b b' l B' Hb Hs Hf H IH]; intros cache.
  { split; [|done]. intros j b Hb. by exists b. }
  pose proof (insert_fresh_occ B I j b b' Hb Hf) as Hown.
  destruct (cow_steps_exclusive _ _ _ _ _ H Hown) as (_ & Hn1 & Hn2 & Hkeep).
  set (cache1 := <[b' := cache b]> cache).
  assert (copy_blocks ((b, b') :: l) cache = copy_blocks l cache1) as E.
  { rewrite !copy_blocks_eq. simpl. apply copy_loop_sources. intros x Hx. subst cache1.
    rewrite fn_lookup_insert_ne; [done|]. intros ->. done. }
  rewrite E. destruct (IH cache1) as [IH1 IH2]. split.
  - intros i x Hi. destruct (decide (i = j)) as [->|Hij].
    + rewrite Hb in Hi. injection Hi as <-.
      destruct (IH1 j b') as (b2 & Hb2 & E2); [apply list_lookup_insert_eq; by eapply lookup_lt_Some|].
      exists b2. split; [done|]. rewrite E2. subst cache1. by rewrite fn_lookup_insert.
    + destruct (IH1 i x) as (b2 & Hb2 & E2); [by rewrite list_lookup_insert_ne|].
      exists b2. split; [done|]. rewrite E2. subst cache1. rewrite fn_lookup_insert_ne; [done|].
      intros <-. apply Hf. apply elem_of_app. left. by eapply list_elem_of_lookup_2.
  - intros x Hx. rewrite IH2 by done. subst cache1. rewrite fn_lookup_insert_ne; [done|].
    intros <-. apply Hf. apply elem_of_app. by right.
Qed.

(** A target of copy on write is owned by the table alone. *)
Lemma cow_targets I B l B' d : cow_steps I B l B' -> d ∈ l.*2 -> occ d (B' ++ I) = 1 /\ (d ∉ I).
Proof.
  induction 1 as [B|B j b b' l B' Hb Hs Hf H IH]; intros Hd; cbn in Hd; [by apply not_elem_of_nil in Hd|].
  apply elem_of_cons in Hd as [->|Hd]; [|by apply IH].
  split; [|intros Hin; apply Hf; apply elem_of_app; by right].
  by eapply (cow_steps_exclusive _ _ _ _ b' H), insert_fresh_occ.
Qed.

End copies.

(** ** What a step writes

    The keys and values of a token depend on the tokens up to it: [kv] of a
    prefix.  A block of the cache is a row of [block_size] entries. *)

Section system.
Context (cfg : ManagerConfig) {C : Type} (kv : list Z -> C).
Abbreviation bs := (block_size cfg).
Abbreviation nb := (Z.to_nat bs).

Definition row : Type := nat -> C.

(** The slot of position [q]: block [block_table[q // block_size]], offset
    [q % block_size].  With a sliding window the runner leaves out the positions
    of a prompt before the window, which no later token reads. *)
Definition write_slot (ids : list nat) (T : list Z) (c : nat -> row) (q : nat) : nat -> row :=
  match ids !! (q / nb)%nat with
  | Some b => <[b := <[(q mod nb)%nat := kv (take (S q) T)]> (c b)]> c
  | None => c
  end.

Definition write_tokens (ids : list nat) (T : list Z) (from upto : nat) (c : nat -> row) : nat -> row :=
  fold_left (write_slot ids T) (seq from (upto - from)) c.

(** The engine: the manager, the tokens of the sequences it knows and how many
    of them are computed, the sequences that were given slots in the current
    batch, the copies not yet made, and the cache. *)
Record engine := mkEngine {
  mgr : Manager;
  seq_tokens : gmap Z (list Z);
  computed : gmap Z nat;
  busy : gset Z;
  pending : list (nat * nat);
  cache : nat -> row
}.

Definition table_ids (e : engine) (sid : Z) : list nat :=
  default [] (physical_block_ids <$> block_tables (mgr e) !! sid).

(** The worker makes the copies, then computes the tokens of the batch. *)
Definition write_one (e : engine) (c : nat -> row) (p : Z * nat) : nat -> row :=
  write_tokens (table_ids e p.1) (default [] (seq_tokens e !! p.1)) (default 0%nat (computed e !! p.1)) p.2 c.
Definition execute (batch : list (Z * nat)) (e : engine) : engine :=
  mkEngine (mgr e) (seq_tokens e) (fold_left (fun m p => <[p.1 := p.2]> m) batch (computed e)) ∅ []
    (fold_left (write_one e) batch (copy_blocks (pending e) (cache e))).

(** New sequences have the tokens of the first and nothing computed. *)
Definition add_tokens {A} (x : A) (l : list Sequence) (m : gmap Z A) : gmap Z A :=
  foldr (fun seq => <[seq_id seq := x]>) m l.

(** A batch may contain any of the known sequences and compute any part of what
    is left of them. *)
Definition batch_valid (e : engine) (batch : list (Z * nat)) : Prop :=
  NoDup batch.*1 /\
  forall sid upto, (sid, upto) ∈ batch -> exists T c,
    seq_tokens e !! sid = Some T /\ computed e !! sid = Some c /\ (c <= upto <= length T)%nat.

Inductive step : engine -> engine -> Prop :=
  | step_allocate e g first others m :
      get_seqs WAITING g = first :: others -> NoDup (seq_id <$> first :: others) ->
      (forall seq, seq ∈ first :: others -> seq_tokens e !! seq_id seq = None) ->
      seq_token_ids first <> [] -> encoder_seq g = None -> cross_block_tables (mgr e) !! request_id g = None ->
      get_num_required_blocks bs (seq_token_ids first) 0 <= get_num_free_blocks GPU (block_allocator (mgr e)) ->
      (others <> [] -> get_num_required_blocks bs (seq_token_ids first) 0 <= Z.of_nat (recursion_limit cfg)) ->
      allocate_group cfg g (mgr e) = Ret tt m ->
      step e (mkEngine m (add_tokens (seq_token_ids first) (first :: others) (seq_tokens e))
        (add_tokens 0%nat (first :: others) (computed e)) (busy e) (pending e) (cache e))
  | step_append e seq la T n copies m :
      seq_tokens e !! seq_id seq = Some T -> T `prefix_of` seq_token_ids seq -> seq_id seq ∉ busy e ->
      Z.of_nat (default 0%nat (computed e !! seq_id seq)) = get_num_computed_tokens (data seq) ->
      0 <= la -> touched_blocks cfg la (mgr e) seq = Ok n ->
      null_needed cfg (mgr e) + n <= get_num_free_blocks GPU (block_allocator (mgr e)) ->
      append_slots cfg seq la (mgr e) = Ret copies m ->
      step e (mkEngine m (<[seq_id seq := seq_token_ids seq]> (seq_tokens e)) (computed e)
        ({[seq_id seq]} ∪ busy e) (pending e ++ copies) (cache e))
  | step_execute e batch :
      batch_valid e batch -> step e (execute batch e)
  | step_fork e parent child T c t m :
      seq_tokens e !! seq_id parent = Some T -> computed e !! seq_id parent = Some c ->
      block_tables (mgr e) !! seq_id parent = Some t -> Null ∉ _blocks t ->
      (length (_blocks t) <= recursion_limit cfg)%nat ->
      seq_tokens e !! seq_id child = None -> seq_id parent ∉ busy e ->
      fork_seq cfg parent child (mgr e) = Ret tt m ->
      step e (mkEngine m (<[seq_id child := T]> (seq_tokens e)) (<[seq_id child := c]> (computed e))
        (busy e) (pending e) (cache e))
  | step_free e seq m :
      seq_id seq ∉ busy e -> free_seq seq (mgr e) = Ret tt m ->
      step e (mkEngine m (delete (seq_id seq) (seq_tokens e)) (delete (seq_id seq) (computed e))
        (busy e) (pending e) (cache e)).

Definition initial (e : engine) : Prop :=
  exists reserved num_gpu num_cpu, init_manager reserved num_gpu num_cpu = Ok (mgr e) /\
    seq_tokens e = ∅ /\ computed e = ∅ /\ busy e = ∅ /\ pending e = [].

Definition reachable (e : engine) : Prop := exists e0, initial e0 /\ rtc step e0 e.

End system.
