(* ===== verification/V0CacheSpec.v ===== *)
(** In every reachable state of the V0 engine each sequence reads its own keys
    and values through its block table. *)

From Stdlib Require Import ZArith Lia.
From stdpp Require Import base strings numbers functions gmap list relations.
From S2P Require Import Prelude.
From S2P Require Import V0Block.
From S2P Require Import V0Table.
From S2P Require Import V0Sequence.
From S2P Require Import V0Manager.
From S2P Require Import V0BlockSpec.
From S2P Require Import V0TableSpec.
From S2P Require Import V0ManagerSpec.
From S2P Require Import V0Cache.

Open Scope list_scope.
Open Scope Z_scope.

Lemma occ_unique (l : list nat) b i j : occ b l = 1 -> l !! i = Some b -> l !! j = Some b -> i = j.
Proof.
  revert i j. induction l as [|x l IH]; intros i j Ho Hi Hj; [done|]. rewrite occ_cons in Ho.
  assert (b ∈ l -> 1 <= occ b l) as Hin by (intros H; apply occ_pos_iff in H; lia).
  pose proof (occ_nonneg b l).
  destruct i as [|i], j as [|j]; simpl in Hi, Hj; [done|..].
  - injection Hi as ->. rewrite decide_True in Ho by done. apply list_elem_of_lookup_2, Hin in Hj. lia.
  - injection Hj as ->. rewrite decide_True in Ho by done. apply list_elem_of_lookup_2, Hin in Hi. lia.
  - f_equal. apply IH; [|done..]. apply list_elem_of_lookup_2, Hin in Hi. case_decide; lia.
Qed.

Lemma wp_ret_elim {S A} (m : M S A) (Q : A -> S -> Prop) s a s' : wp m Q s -> m s = Ret a s' -> Q a s'.
Proof. unfold wp. intros H E. by rewrite E in H. Qed.

Section spec.
Context (cfg : ManagerConfig) {C : Type} (kv : list Z -> C).
Abbreviation bs := (block_size cfg).
Abbreviation nb := (Z.to_nat bs).
Context (Hbs : 0 < bs) (Hwin : forall w, max_block_sliding_window cfg = Some w -> 1 <= w).

Implicit Types (e : engine (C := C)) (v : view) (G : nat -> row (C := C)).

(** ** Writes *)

(** Writes to slots where [G] has the value written only change slots to [G]. *)
Definition writes_agree (ids : list nat) (T : list Z) (from upto : nat) (G : nat -> row (C := C)) : Prop :=
  forall q b, (from <= q < upto)%nat -> ids !! (q / nb)%nat = Some b ->
    G b (q mod nb)%nat = kv (take (S q) T).

Lemma write_slot_at ids T c q b : ids !! (q / nb)%nat = Some b -> write_slot cfg kv ids T c q b (q mod nb)%nat = kv (take (S q) T).
Proof. intros Hq. unfold write_slot. rewrite Hq, fn_lookup_insert. apply fn_lookup_insert. Qed.

Lemma write_slot_other ids T c q b o :
  ~ (ids !! (q / nb)%nat = Some b /\ (q mod nb)%nat = o) -> write_slot cfg kv ids T c q b o = c b o.
Proof.
  intros H. unfold write_slot. destruct (ids !! (q / nb)%nat) as [b'|]; [|done].
  destruct (decide (b' = b)) as [->|]; [|by rewrite fn_lookup_insert_ne].
  rewrite fn_lookup_insert. destruct (decide ((q mod nb)%nat = o)) as [E|]; [|by apply fn_lookup_insert_ne].
  exfalso. by apply H.
Qed.

Lemma write_slot_cases ids T c q b o (x : C) :
  (ids !! (q / nb)%nat = Some b -> (q mod nb)%nat = o -> kv (take (S q) T) = x) ->
  write_slot cfg kv ids T c q b o = c b o \/ write_slot cfg kv ids T c q b o = x.
Proof.
  intros H. destruct (decide (ids !! (q / nb)%nat = Some b)) as [E|E]; [|left; apply write_slot_other; tauto].
  destruct (decide ((q mod nb)%nat = o)) as [<-|E2]; [|left; apply write_slot_other; tauto].
  right. rewrite write_slot_at by done. by apply H.
Qed.

Lemma write_loop_agree ids T l G c :
  (forall q b, q ∈ l -> ids !! (q / nb)%nat = Some b -> G b (q mod nb)%nat = kv (take (S q) T)) ->
  (forall b o, fold_left (write_slot cfg kv ids T) l c b o = c b o \/
     fold_left (write_slot cfg kv ids T) l c b o = G b o) /\
  (forall q b, q ∈ l -> ids !! (q / nb)%nat = Some b ->
     fold_left (write_slot cfg kv ids T) l c b (q mod nb)%nat = G b (q mod nb)%nat).
Proof.
  revert c. induction l as [|q l IH]; intros c H; simpl.
  { split; [by left|]. intros q b Hq. by apply not_elem_of_nil in Hq. }
  destruct (IH (write_slot cfg kv ids T c q)) as [IH1 IH2].
  { intros q' b Hq'. apply H. by apply list_elem_of_further. }
  split.
  - intros b o. destruct (IH1 b o) as [-> | ->]; [|by right].
    apply write_slot_cases. intros Hb <-. symmetry. apply H; [apply list_elem_of_here|done].
  - intros q' b [->|Hq']%elem_of_cons Hb; [|by apply IH2].
    destruct (IH1 b (q mod nb)%nat) as [-> | ->]; [|done].
    rewrite write_slot_at by done. symmetry. apply H; [apply list_elem_of_here|done].
Qed.

Lemma write_tokens_agree ids T from upto G c :
  writes_agree ids T from upto G ->
  (forall b o, write_tokens cfg kv ids T from upto c b o = c b o \/
     write_tokens cfg kv ids T from upto c b o = G b o) /\
  (forall q b, (from <= q < upto)%nat -> ids !! (q / nb)%nat = Some b ->
     write_tokens cfg kv ids T from upto c b (q mod nb)%nat = G b (q mod nb)%nat).
Proof.
  intros H. unfold write_tokens.
  destruct (write_loop_agree ids T (seq from (upto - from)) G c) as [H1 H2].
  { intros q b Hq. apply elem_of_seq in Hq. apply H. lia. }
  split; [done|]. intros q b Hq. apply H2. apply elem_of_seq. lia.
Qed.

(** Writes leave the slots they do not go to. *)
Lemma write_tokens_other ids T from upto c b o :
  (forall q, (from <= q < upto)%nat -> ids !! (q / nb)%nat = Some b -> (q mod nb)%nat = o -> False) ->
  write_tokens cfg kv ids T from upto c b o = c b o.
Proof.
  unfold write_tokens. intros H.
  assert (forall q, q ∈ seq from (upto - from) -> ids !! (q / nb)%nat = Some b -> (q mod nb)%nat = o -> False) as H'.
  { intros q Hq. apply elem_of_seq in Hq. apply H. lia. }
  clear H. revert c. induction (seq from (upto - from)) as [|q l IH]; intros c; [done|]. simpl.
  rewrite IH by (intros q' Hq'; by apply H', list_elem_of_further).
  apply write_slot_other. intros [Hb Ho]. by apply (H' q (list_elem_of_here _ _)).
Qed.

(** Writes to blocks that occur once in a table leave the values written. *)
Lemma write_tokens_owned ids T from upto c q b :
  (from <= q < upto)%nat -> ids !! (q / nb)%nat = Some b ->
  (forall q', (from <= q' < upto)%nat -> ids !! (q' / nb)%nat = Some b -> (q' / nb = q / nb)%nat) ->
  write_tokens cfg kv ids T from upto c b (q mod nb)%nat = kv (take (S q) T).
Proof.
  unfold write_tokens. intros Hq Hb Hu. assert (nb <> 0)%nat as Hnb by lia.
  assert (forall q', q' ∈ seq from (upto - from) -> ids !! (q' / nb)%nat = Some b ->
    (q' mod nb = q mod nb)%nat -> q' = q) as Huq.
  { intros q' Hq' Hb' Hm. apply elem_of_seq in Hq'.
    rewrite (Nat.div_mod q' nb), (Nat.div_mod q nb), Hm by done. rewrite (Hu q'); [done|lia|done]. }
  assert (q ∈ seq from (upto - from)) as Hin by (apply elem_of_seq; lia). clear Hq Hu.
  assert (forall l, (forall q', q' ∈ l -> ids !! (q' / nb)%nat = Some b -> (q' mod nb = q mod nb)%nat -> q' = q) ->
    forall c, (fold_left (write_slot cfg kv ids T) l c b (q mod nb)%nat = c b (q mod nb)%nat /\ q ∉ l) \/
      fold_left (write_slot cfg kv ids T) l c b (q mod nb)%nat = kv (take (S q) T)) as Hgen.
  { clear Huq Hin c. induction l as [|q' l IH]; intros Hl c; simpl; [left; split; [done|apply not_elem_of_nil]|].
    destruct (IH ltac:(intros x Hx; by apply Hl, list_elem_of_further) (write_slot cfg kv ids T c q'))
      as [[-> Hn]| ->]; [|by right].
    destruct (decide (q' = q)) as [->|Hne]; [right; by apply write_slot_at|left].
    split; [|by apply not_elem_of_cons]. apply write_slot_other. intros [Hb' Hm].
    apply Hne, Hl; [apply list_elem_of_here|done..]. }
  destruct (Hgen _ Huq c) as [[_ Hn]|]; done.
Qed.

(** ** The invariant *)

(** The slots of the first [n] tokens of a view hold their keys and values. *)
Definition holds (G : nat -> row (C := C)) (v : view) (n : nat) : Prop :=
  forall p b, (v_dropped v * nb <= p < n)%nat -> v_ids v !! (p / nb - v_dropped v)%nat = Some b ->
    G b (p mod nb)%nat = kv (take (S p) (v_tokens v)).

(** Nothing but the table of [sid] refers to [d]. *)
Definition owned (V : gmap Z view) (nids : list nat) (sid : Z) (d : nat) : Prop :=
  exists v, V !! sid = Some v /\ d ∈ v_ids v /\ occ d (v_ids v) = 1 /\
    (forall sid' v', sid' <> sid -> V !! sid' = Some v' -> d ∉ v_ids v') /\ (d ∉ nids).

(** The window keeps [w] blocks before what is computed. *)
Definition window_kept (v : view) (c : nat) : Prop :=
  v_dropped v = 0%nat \/
  exists w, max_block_sliding_window cfg = Some w /\ (Z.of_nat (v_dropped v) + w) * bs <= Z.of_nat c.

Definition seq_ok (e : engine (C := C)) (V : gmap Z view) (sid : Z) : Prop :=
  match V !! sid, seq_tokens e !! sid, computed e !! sid with
  | Some v, Some T, Some c => v_tokens v = T /\ (c <= length T)%nat /\ v_objects v <> [] /\ window_kept v c
  | None, None, None => True
  | _, _, _ => False
  end.

(** [G] is the cache as it will be when all that has slots is computed. *)
Record engine_ok (e : engine (C := C)) (V : gmap Z view) (nl nids : list nat) (G : nat -> row (C := C)) : Prop := {
  eo_manager : manager_ok cfg V nl nids (mgr e);
  eo_seq sid : seq_ok e V sid;
  eo_ideal sid v : V !! sid = Some v -> holds G v (length (v_tokens v));
  eo_cache sid v c : V !! sid = Some v -> computed e !! sid = Some c ->
    holds (copy_blocks (pending e) (cache e)) v c;
  eo_pending d : d ∈ (pending e).*2 -> exists sid, sid ∈ busy e /\ owned V nids sid d
}.

Lemma seq_ok_view e V sid v :
  seq_ok e V sid -> V !! sid = Some v -> exists c, seq_tokens e !! sid = Some (v_tokens v) /\
    computed e !! sid = Some c /\ (c <= length (v_tokens v))%nat /\ v_objects v <> [] /\ window_kept v c.
Proof.
  unfold seq_ok. intros H Hv. rewrite Hv in H. destruct (seq_tokens e !! sid) as [T|]; [|done].
  destruct (computed e !! sid) as [c|]; [|done]. destruct H as (<- & H1 & H2 & H3). by exists c.
Qed.

Lemma seq_ok_tokens e V sid T :
  seq_ok e V sid -> seq_tokens e !! sid = Some T -> exists v c, V !! sid = Some v /\
    v_tokens v = T /\ computed e !! sid = Some c /\ (c <= length T)%nat /\ v_objects v <> [] /\ window_kept v c.
Proof.
  unfold seq_ok. intros H Hv. rewrite Hv in H. destruct (V !! sid) as [v|]; [|done].
  destruct (computed e !! sid) as [c|]; [|done]. destruct H as (? & ? & ? & ?). by exists v, c.
Qed.

Lemma seq_ok_none e V sid :
  seq_ok e V sid -> seq_tokens e !! sid = None -> V !! sid = None /\ computed e !! sid = None.
Proof.
  unfold seq_ok. intros H Hv. rewrite Hv in H. destruct (V !! sid); [done|]. by destruct (computed e !! sid).
Qed.

(** The ids of the table of a view: those of dropped blocks, then its own. *)
Lemma table_ids_view V nl nids e sid v :
  manager_ok cfg V nl nids (mgr e) -> V !! sid = Some v ->
  table_ids e sid = replicate (v_dropped v) (null_id (block_allocator (mgr e))) ++ v_ids v /\
  (length (v_tokens v) <= (v_dropped v + length (v_ids v)) * nb)%nat.
Proof.
  intros H Hv. destruct (view_of cfg _ _ _ _ _ _ H Hv) as (t & Et & [Hrun _ _] & _).
  unfold table_ids. rewrite Et. cbn. split; [apply (rk_ids _ _ _ _ _ _ _ Hrun)|].
  pose proof (rk_room _ _ _ _ _ _ _ Hrun) as Hroom. rewrite (run_ok_length _ _ _ _ _ _ _ Hrun).
  unfold len in Hroom. nia.
Qed.

Lemma lookup_view_ids (x : nat) k (ids : list nat) q :
  (k * nb <= q)%nat -> (replicate k x ++ ids) !! (q / nb)%nat = ids !! (q / nb - k)%nat.
Proof.
  intros Hq. assert (k <= q / nb)%nat by (apply Nat.div_le_lower_bound; lia).
  rewrite lookup_app_r by (rewrite length_replicate; lia). by rewrite length_replicate.
Qed.

Lemma dropped_computed v c : window_kept v c -> (v_dropped v * nb <= c)%nat.
Proof.
  intros [->|(w & Ew & Hw)]; [lia|]. specialize (Hwin w Ew). nia.
Qed.

(** A view's blocks hold the same in caches that agree on them. *)
Lemma holds_ext G G' v n :
  (forall b, b ∈ v_ids v -> G' b = G b) -> holds G v n -> holds G' v n.
Proof.
  intros H Hh p b Hp Hb. rewrite H by (by eapply list_elem_of_lookup_2). by apply Hh.
Qed.

Lemma holds_sub G v n n' : (n' <= n)%nat -> holds G v n -> holds G v n'.
Proof. intros Hn H p b Hp. apply H. lia. Qed.

(** ** Computing a batch *)

Lemma execute_computed e batch sid :
  NoDup batch.*1 ->
  (forall upto, (sid, upto) ∈ batch -> computed (execute cfg kv batch e) !! sid = Some upto) /\
  (sid ∉ batch.*1 -> computed (execute cfg kv batch e) !! sid = computed e !! sid).
Proof.
  cbn [computed execute]. generalize (computed e) as m.
  induction batch as [|[s u] batch IH]; intros m Hnd; simpl.
  { split; [|done]. intros upto Hu. by apply not_elem_of_nil in Hu. }
  cbn in Hnd. apply NoDup_cons in Hnd as [Hs Hnd]. destruct (IH (<[s := u]> m) Hnd) as [IH1 IH2]. split.
  - intros upto [[= -> ->]|Hu]%elem_of_cons; [|by apply IH1]. rewrite IH2 by done. apply lookup_insert_eq.
  - intros [Hne Hn]%not_elem_of_cons. rewrite IH2 by done. by apply lookup_insert_ne.
Qed.

Lemma write_batch_agree e batch G c0 :
  (forall sid upto, (sid, upto) ∈ batch ->
     writes_agree (table_ids e sid) (default [] (seq_tokens e !! sid)) (default 0%nat (computed e !! sid)) upto G) ->
  (forall b o, fold_left (write_one cfg kv e) batch c0 b o = c0 b o \/
     fold_left (write_one cfg kv e) batch c0 b o = G b o) /\
  (forall sid upto q b, (sid, upto) ∈ batch -> (default 0%nat (computed e !! sid) <= q < upto)%nat ->
     table_ids e sid !! (q / nb)%nat = Some b ->
     fold_left (write_one cfg kv e) batch c0 b (q mod nb)%nat = G b (q mod nb)%nat).
Proof.
  revert c0. induction batch as [|[s u] batch IH]; intros c0 H; simpl.
  { split; [by left|]. intros sid upto q b Hin. by apply not_elem_of_nil in Hin. }
  destruct (write_tokens_agree _ _ _ _ _ c0 (H s u (list_elem_of_here _ _))) as [W1 W2].
  destruct (IH (write_one cfg kv e c0 (s, u))) as [IH1 IH2].
  { intros sid upto Hin. by apply H, list_elem_of_further. }
  split.
  - intros b o. destruct (IH1 b o) as [-> | ->]; [|by right]. apply W1.
  - intros sid upto q b [[= -> ->]|Hin]%elem_of_cons Hq Hb; [|by eapply IH2].
    destruct (IH1 b (q mod nb)%nat) as [-> | ->]; [|done]. by apply W2.
Qed.

Lemma execute_ok e V nl nids G batch :
  engine_ok e V nl nids G -> batch_valid e batch -> engine_ok (execute cfg kv batch e) V nl nids G.
Proof.
  intros [H1 H2 H3 H4 H5] [Hnd Hb].
  assert (forall sid v, V !! sid = Some v -> forall q b,
    (v_dropped v * nb <= q < length (v_tokens v))%nat -> table_ids e sid !! (q / nb)%nat = Some b ->
    v_ids v !! (q / nb - v_dropped v)%nat = Some b) as Hids.
  { intros sid v Hv q b Hq Hqb. destruct (table_ids_view _ _ _ _ _ _ H1 Hv) as [E _].
    by rewrite E, lookup_view_ids in Hqb by lia. }
  assert (forall v c, window_kept v c -> v_dropped v * nb <= c)%nat as Hwk.
  { exact dropped_computed. }
  destruct (write_batch_agree e batch G (copy_blocks (pending e) (cache e))) as [W1 W2].
  { intros sid upto Hin q b Hq Hqb. destruct (Hb sid upto Hin) as (T & c & ET & Ec & Hc).
    destruct (seq_ok_tokens _ _ _ _ (H2 sid) ET) as (v & c' & Hv & Ev & Ec' & Hc' & _ & Hw).
    rewrite ET, Ec in *. cbn in *. injection Ec' as <-. subst T. specialize (Hwk v c Hw).
    apply (H3 sid v Hv); [lia|]. apply (Hids sid v Hv); [lia|done]. }
  split.
  - exact H1.
  - intros sid. specialize (H2 sid). unfold seq_ok in *.
    destruct (execute_computed e batch sid Hnd) as [E1 E2]. cbn [seq_tokens execute].
    destruct (decide (sid ∈ batch.*1)) as [Hin|Hn]; [|by rewrite E2].
    apply list_elem_of_fmap in Hin as ([s upto] & -> & Hin). cbn [fst] in *. rewrite (E1 upto Hin).
    destruct (Hb s upto Hin) as (T & c & ET & Ec & Hc). rewrite ET, Ec in H2. rewrite ET.
    destruct (V !! s) as [v|]; [|done]. destruct H2 as (Ev & _ & Hne & Hw). split_and!; [done|lia|done|].
    destruct Hw as [Hw|(w & Ew & Hw)]; [by left|right]. exists w. split; [done|]. lia.
  - exact H3.
  - intros sid v c Hv Ec p b Hp Hpb. cbn [pending cache execute]. rewrite (copy_blocks_not []) by apply not_elem_of_nil.
    destruct (seq_ok_view _ _ _ _ (H2 sid) Hv) as (c0 & ET & Ec0 & Hc0 & _ & Hw).
    destruct (table_ids_view _ _ _ _ _ _ H1 Hv) as [Etab _].
    destruct (decide (p < c0)%nat) as [Hlt|Hge].
    + destruct (W1 b (p mod nb)%nat) as [-> | ->]; [apply (H4 sid v c0); [done..|lia|done]|].
      apply (H3 sid v Hv); [lia|done].
    + destruct (execute_computed e batch sid Hnd) as [E1 E2].
      destruct (decide (sid ∈ batch.*1)) as [Hin|Hn].
      * apply list_elem_of_fmap in Hin as ([s upto] & -> & Hin). cbn [fst] in *.
        rewrite (E1 upto Hin) in Ec. injection Ec as <-.
        destruct (Hb s upto Hin) as (T & c & ET' & Ec & Hc). rewrite ET in ET'. injection ET' as <-.
        rewrite (W2 s upto p b Hin); [apply (H3 s v Hv); [lia|done]| |].
        -- rewrite Ec0. cbn. lia.
        -- rewrite Etab, lookup_view_ids by lia. done.
      * rewrite E2 in Ec by done. rewrite Ec0 in Ec. injection Ec as <-. lia.
  - intros d Hd. cbn in Hd. by apply not_elem_of_nil in Hd.
Qed.

(** ** Appending *)

Section append.
Context (V : gmap Z view) (nids : list nat) (sq : Sequence) (v v' : view) (nids' : list nat)
  (copies : list (nat * nat)).
Abbreviation sid := (seq_id sq).
Abbreviation I := (rest_ids sid V nids).
Context (Hv : V !! sid = Some v) (Hav : append_view cfg I v v' sq nids' copies).
Context (Hroom : (length (v_tokens v) <= (v_dropped v + length (v_ids v)) * nb)%nat)
  (Hdrop : (v_dropped v' * nb <= length (v_tokens v))%nat).

Lemma append_dropped : (v_dropped v <= v_dropped v')%nat.
Proof. rewrite (av_dropped _ _ _ _ _ _ _ Hav). destruct (max_block_sliding_window cfg); lia. Qed.

Lemma append_prefix p : (p < length (v_tokens v))%nat -> take (S p) (v_tokens v') = take (S p) (v_tokens v).
Proof.
  destruct (av_blocks _ _ _ _ _ _ _ Hav) as (toks & Bn & -> & _). intros Hp. by rewrite take_app_le by lia.
Qed.

Lemma other_ids sid2 v2 b : sid2 <> sid -> V !! sid2 = Some v2 -> b ∈ v_ids v2 -> b ∈ I.
Proof.
  intros Hne H2 Hb. apply elem_of_app. left. apply elem_of_all_of. exists sid2, v2.
  by rewrite lookup_delete_ne.
Qed.

(** The copies keep what the sequence and the others read. *)
Lemma copies_own G n : (n <= length (v_tokens v))%nat -> holds G v n -> holds (copy_blocks copies G) v' n.
Proof.
  intros Hn HG p b Hp Hb. pose proof append_dropped as Hd.
  destruct (av_blocks _ _ _ _ _ _ _ Hav) as (toks & Bn & ET & [Hst Hnd Hfr Hnu Hown]).
  set (m := (v_dropped v' - v_dropped v)%nat) in *.
  destruct (cow_copies _ _ _ _ G Hst) as [H1 _].
  assert (nb <> 0)%nat as Hnb by lia.
  assert (p / nb < v_dropped v + length (v_ids v))%nat as Hidx by (apply Nat.Div0.div_lt_upper_bound; lia).
  assert (v_dropped v' <= p / nb)%nat as Hge by (apply Nat.div_le_lower_bound; lia).
  destruct (lookup_lt_is_Some_2 (v_ids v) (p / nb - v_dropped v)) as [b0 Hb0]; [lia|].
  destruct (H1 (p / nb - v_dropped v')%nat b0) as (b' & Hb' & E).
  { rewrite lookup_app_l by (rewrite length_drop; lia). rewrite lookup_drop.
    replace (m + (p / nb - v_dropped v'))%nat with (p / nb - v_dropped v)%nat by lia. done. }
  rewrite Hb in Hb'. injection Hb' as <-. rewrite E, append_prefix by lia. apply HG; [nia|done].
Qed.

Lemma copies_other G b : b ∈ I -> copy_blocks copies G b = G b.
Proof.
  destruct (av_blocks _ _ _ _ _ _ _ Hav) as (toks & Bn & ET & [Hst _ _ _ _]).
  destruct (cow_copies _ _ _ _ G Hst) as [_ H2]. intros Hb. apply H2, elem_of_app. by right.
Qed.

(** What another sequence alone refers to is neither copied nor written over. *)
Lemma copies_owned d : d ∈ I -> occ d I = 1 -> (d ∉ v_ids v) -> (d ∉ copies.*1) /\ (d ∉ copies.*2) /\ (d ∉ v_ids v').
Proof.
  intros Hd Ho Hdv. destruct (av_blocks _ _ _ _ _ _ _ Hav) as (toks & Bn & ET & [Hst Hnd Hfr Hnu Hown]).
  set (m := (v_dropped v' - v_dropped v)%nat) in *.
  assert (d ∉ drop m (v_ids v)) as H1 by (intros Hin; apply Hdv; rewrite <- (take_drop m (v_ids v)); set_solver).
  assert (d ∉ Bn) as H2.
  { intros Hin. apply (Hfr d Hin). apply elem_of_app. right. apply elem_of_app. by right. }
  assert (d ∉ nids') as H3 by (intros Hin; apply (Hnu d Hin), elem_of_app; by right).
  assert (forall l : list nat, d ∉ l -> occ d l = 0) as Hz.
  { intros l Hl. pose proof (occ_nonneg d l). pose proof (proj1 (occ_pos_iff d l)).
    destruct (decide (0 < occ d l)); [|lia]. exfalso. auto. }
  destruct (cow_steps_exclusive _ _ _ _ d Hst) as (E1 & E2 & E3 & _).
  { rewrite !occ_app, (Hz _ H1), (Hz _ H2), (Hz _ H3). lia. }
  split_and!; [done..|]. intros Hin. rewrite !occ_app in E1. apply occ_pos_iff in Hin.
  pose proof (occ_nonneg d nids'). lia.
Qed.

(** The blocks that the new tokens go to belong to the table alone. *)
Definition ideal (G : nat -> row (C := C)) : nat -> row :=
  write_tokens cfg kv (replicate (v_dropped v') 0%nat ++ v_ids v') (v_tokens v')
    (length (v_tokens v)) (length (v_tokens v')) (copy_blocks copies G).

Lemma ideal_other G b : b ∈ I -> forall o, ideal G b o = G b o.
Proof.
  intros Hb o. unfold ideal. rewrite write_tokens_other; [by rewrite copies_other|].
  intros q Hq Hqb _. rewrite lookup_view_ids in Hqb by lia.
  destruct (av_blocks _ _ _ _ _ _ _ Hav) as (toks & Bn & ET & [Hst Hnd Hfr Hnu Hown]).
  replace (v_dropped v + (v_dropped v' - v_dropped v))%nat with (v_dropped v') in Hown
    by (pose proof append_dropped; lia).
  assert (occ b (v_ids v' ++ nids' ++ I) = 1) as Ho.
  { apply (Hown q); [rewrite <- ET; unfold len; lia|done]. }
  rewrite !occ_app in Ho. apply list_elem_of_lookup_2, occ_pos_iff in Hqb. apply occ_pos_iff in Hb.
  pose proof (occ_nonneg b nids'). lia.
Qed.

Lemma ideal_own G : holds G v (length (v_tokens v)) -> holds (ideal G) v' (length (v_tokens v')).
Proof.
  intros HG p b Hp Hb. unfold ideal.
  destruct (av_blocks _ _ _ _ _ _ _ Hav) as (toks & Bn & ET & [Hst Hnd Hfr Hnu Hown]).
  replace (v_dropped v + (v_dropped v' - v_dropped v))%nat with (v_dropped v') in Hown
    by (pose proof append_dropped; lia).
  assert (forall q, (length (v_tokens v) <= q < length (v_tokens v'))%nat ->
    v_ids v' !! (q / nb - v_dropped v')%nat = Some b -> (q / nb = p / nb)%nat) as Hone.
  { intros q Hq Hqb. assert (occ b (v_ids v' ++ nids' ++ I) = 1) as Ho.
    { apply (Hown q); [rewrite <- ET; unfold len; lia|done]. }
    rewrite occ_app in Ho. pose proof (occ_nonneg b (nids' ++ I)).
    assert (1 <= occ b (v_ids v')) by (apply list_elem_of_lookup_2, occ_pos_iff in Hqb; lia).
    pose proof (occ_unique (v_ids v') b _ _ ltac:(lia) Hqb Hb).
    assert (v_dropped v' <= p / nb)%nat by (apply Nat.div_le_lower_bound; lia).
    assert (v_dropped v' <= q / nb)%nat by (apply Nat.div_le_lower_bound; lia). lia. }
  destruct (decide (p < length (v_tokens v))%nat) as [Hlt|Hge].
  - rewrite write_tokens_other.
    + rewrite (copies_own G (length (v_tokens v)) (le_n _) HG p b); [by rewrite append_prefix|lia|done].
    + intros q Hq Hqb Hm. rewrite lookup_view_ids in Hqb by lia. specialize (Hone q Hq Hqb).
      assert (q = p); [|lia]. rewrite (Nat.div_mod q nb), (Nat.div_mod p nb), Hone, Hm by lia. done.
  - apply write_tokens_owned; [lia| |].
    + rewrite lookup_view_ids by lia. done.
    + intros q Hq Hqb. rewrite lookup_view_ids in Hqb by lia. by apply Hone.
Qed.

End append.

(** ** The steps *)

Lemma owned_rest V nids sid sid2 d :
  owned V nids sid d -> sid <> sid2 -> occ d (rest_ids sid2 V nids) = 1 /\ d ∈ rest_ids sid2 V nids /\
    (forall v2, V !! sid2 = Some v2 -> d ∉ v_ids v2).
Proof.
  intros (v & Hv & Hd & Ho & Hu & Hn) Hne. unfold rest_ids.
  assert (d ∈ all_of v_ids (delete sid2 V) ++ nids) as Hin.
  { apply elem_of_app. left. apply elem_of_all_of. exists sid, v. by rewrite lookup_delete_ne. }
  split_and!; [|done|intros v2 Hv2; by eapply Hu].
  rewrite (occ_perm d _ (v_ids v ++ (all_of v_ids (delete sid (delete sid2 V)) ++ nids))).
  2:{ rewrite app_assoc. f_equiv. apply all_of_delete. by rewrite lookup_delete_ne. }
  rewrite occ_app, Ho. enough (occ d (all_of v_ids (delete sid (delete sid2 V)) ++ nids) = 0) by lia.
  pose proof (occ_nonneg d (all_of v_ids (delete sid (delete sid2 V)) ++ nids)).
  destruct (decide (0 < occ d (all_of v_ids (delete sid (delete sid2 V)) ++ nids))) as [Hp|]; [|lia].
  apply occ_pos_iff, elem_of_app in Hp as [Hp|]; [|done].
  apply elem_of_all_of in Hp as (k & w & Hk & Hw). apply lookup_delete_Some in Hk as [Hks Hk].
  apply lookup_delete_Some in Hk as [_ Hk]. exfalso. by apply (Hu k w).
Qed.

Lemma append_ok e V nl nids G sq la T n copies m :
  engine_ok e V nl nids G ->
  seq_tokens e !! seq_id sq = Some T -> T `prefix_of` seq_token_ids sq -> seq_id sq ∉ busy e ->
  Z.of_nat (default 0%nat (computed e !! seq_id sq)) = get_num_computed_tokens (data sq) ->
  0 <= la -> touched_blocks cfg la (mgr e) sq = Ok n ->
  null_needed cfg (mgr e) + n <= get_num_free_blocks GPU (block_allocator (mgr e)) ->
  append_slots cfg sq la (mgr e) = Ret copies m ->
  exists V' nl' nids' G', engine_ok (mkEngine m (<[seq_id sq := seq_token_ids sq]> (seq_tokens e)) (computed e)
    ({[seq_id sq]} ∪ busy e) (pending e ++ copies) (cache e)) V' nl' nids' G'.
Proof.
  intros [H1 H2 H3 H4 H5] HT Hpre Hbusy Hc Hla Hn Hf Hret.
  destruct (seq_ok_tokens _ _ _ _ (H2 (seq_id sq)) HT) as (v & c & Hv & Ev & Ec & Hcl & Hne & Hw).
  rewrite Ec in Hc. cbn in Hc. subst T.
  assert (appendable cfg v sq) as Hap.
  { split; [done..|]. intros w Ew. rewrite <- Hc. split; [by apply Hwin|]. unfold len. lia. }
  pose proof (wp_ret_elim _ _ _ _ _ (wp_append_slots cfg V nl nids (mgr e) sq v la n Hbs H1 Hv Hap Hla Hn Hf) Hret)
    as (v' & nl' & nids' & Hav & H1' & _ & _ & _ & _ & _ & _ & _).
  destruct (table_ids_view _ _ _ _ _ _ H1 Hv) as [_ Hroom].
  pose proof (av_tokens _ _ _ _ _ _ _ Hav) as ET. pose proof (prefix_length _ _ Hpre) as Hlen.
  assert (window_kept v' c) as Hw'.
  { unfold window_kept. rewrite (av_dropped _ _ _ _ _ _ _ Hav), <- Hc.
    destruct (max_block_sliding_window cfg) as [w|] eqn:Ew; [|destruct Hw as [->|(w & E & _)]; [by left|congruence]].
    destruct (decide (Z.to_nat (Z.of_nat c / bs - w) <= v_dropped v))%nat as [Hle|Hgt].
    - rewrite Nat.max_l by done. destruct Hw as [->|(w' & E & Hw)]; [by left|right].
      rewrite Ew in E. injection E as <-. by exists w.
    - rewrite Nat.max_r by lia. right. exists w. split; [done|].
      pose proof (Z.mul_div_le (Z.of_nat c) bs Hbs). nia. }
  pose proof (dropped_computed v' c Hw') as Hdrop.
  assert (forall d, d ∈ (pending e).*2 -> (d ∉ copies.*1) /\ (d ∉ copies.*2) /\ (d ∉ v_ids v')) as Hpend.
  { intros d Hd. destruct (H5 d Hd) as (sid & Hsid & Hown).
    assert (sid <> seq_id sq) as Hs by (intros ->; done).
    destruct (owned_rest _ _ _ _ _ Hown Hs) as (Ho & Hin & Hout).
    eapply (copies_owned V nids sq v v'); [exact Hv|exact Hav|done|lia|done|done|by apply Hout]. }
  assert (copy_blocks (pending e ++ copies) (cache e) = copy_blocks copies (copy_blocks (pending e) (cache e))) as Ecopy.
  { apply copy_blocks_app. intros x Hx Hin. by destruct (Hpend x Hin) as (Hno & _). }
  exists (<[seq_id sq := v']> V), (nl' ++ nl), (nids' ++ nids), (ideal v v' copies G). split; cbn [mgr seq_tokens computed busy pending cache].
  - done.
  - intros sid. unfold seq_ok. cbn [seq_tokens computed]. destruct (decide (sid = seq_id sq)) as [->|Hs].
    + rewrite !lookup_insert_eq, Ec. split_and!; [done|lia|by eapply av_nonempty|done].
    + rewrite !lookup_insert_ne by done. apply (H2 sid).
  - intros sid v2 Hv2. destruct (decide (sid = seq_id sq)) as [->|Hs].
    + rewrite lookup_insert_eq in Hv2. injection Hv2 as <-.
      eapply (ideal_own V nids sq v v' nids'); [exact Hav|done|lia|exact (H3 _ _ Hv)].
    + rewrite lookup_insert_ne in Hv2 by done. intros p b Hp Hb.
      rewrite (ideal_other V nids sq v v' nids' copies); [by apply (H3 sid v2 Hv2)|exact Hav|done|lia|].
      eapply (other_ids V nids sq sid v2); [done..|by eapply list_elem_of_lookup_2].
  - intros sid v2 c2 Hv2 Hc2. rewrite Ecopy. destruct (decide (sid = seq_id sq)) as [->|Hs].
    + rewrite lookup_insert_eq in Hv2. injection Hv2 as <-. rewrite Ec in Hc2. injection Hc2 as <-.
      eapply (copies_own V nids sq v v' nids'); [exact Hav|done|lia|lia|by eapply H4].
    + rewrite lookup_insert_ne in Hv2 by done. eapply holds_ext; [|by eapply H4].
      intros b Hb. eapply (copies_other V nids sq v v' nids'); [exact Hav|]. by eapply (other_ids V nids sq sid v2).
  - intros d Hd. rewrite fmap_app in Hd. apply elem_of_app in Hd as [Hd|Hd].
    + destruct (Hpend d Hd) as (_ & _ & Hnv'). destruct (H5 d Hd) as (sid & Hsid & v2 & Hv2 & Hd2 & Ho2 & Hu2 & Hn2).
      assert (sid <> seq_id sq) as Hs by (intros ->; done).
      exists sid. split; [apply elem_of_union; by right|]. exists v2. split_and!; try done.
      * by rewrite lookup_insert_ne.
      * intros sid' w Hne' Hw2. destruct (decide (sid' = seq_id sq)) as [->|Hs'].
        -- rewrite lookup_insert_eq in Hw2. by injection Hw2 as <-.
        -- rewrite lookup_insert_ne in Hw2 by done. by eapply Hu2.
      * intros [Hin|]%elem_of_app; [|done].
        destruct (av_blocks _ _ _ _ _ _ _ Hav) as (toks & Bn & _ & [_ _ _ Hnu _]).
        apply (Hnu d Hin), elem_of_app. right. eapply (other_ids V nids sq sid v2); done.
    + destruct (av_blocks _ _ _ _ _ _ _ Hav) as (toks & Bn & _ & [Hst _ _ Hnu _]).
      destruct (cow_targets _ _ _ _ _ Hst Hd) as [Ho Hni]. exists (seq_id sq).
      split; [apply elem_of_union; left; by apply elem_of_singleton|]. exists v'.
      apply not_elem_of_app in Hni as [Hn1 Hn2].
      assert (forall l : list nat, d ∉ l -> occ d l = 0) as Hz.
      { intros l Hl. pose proof (occ_nonneg d l). pose proof (proj1 (occ_pos_iff d l)).
        destruct (decide (0 < occ d l)); [|lia]. exfalso. auto. }
      rewrite !occ_app, (Hz _ Hn1), (Hz _ Hn2) in Ho. split_and!.
      * apply lookup_insert_eq.
      * apply occ_pos_iff. lia.
      * lia.
      * intros sid' w Hne' Hw2 Hin. rewrite lookup_insert_ne in Hw2 by done. apply Hn2. by eapply other_ids.
      * intros [Hin|Hin]%elem_of_app; [done|]. apply Hn2, elem_of_app. by right.
Qed.

Lemma fork_ok e V nl nids G parent child T c t m :
  engine_ok e V nl nids G ->
  seq_tokens e !! seq_id parent = Some T -> computed e !! seq_id parent = Some c ->
  block_tables (mgr e) !! seq_id parent = Some t -> Null ∉ _blocks t ->
  (length (_blocks t) <= recursion_limit cfg)%nat ->
  seq_tokens e !! seq_id child = None -> seq_id parent ∉ busy e ->
  fork_seq cfg parent child (mgr e) = Ret tt m ->
  exists V' nl' nids' G', engine_ok (mkEngine m (<[seq_id child := T]> (seq_tokens e)) (<[seq_id child := c]> (computed e))
    (busy e) (pending e) (cache e)) V' nl' nids' G'.
Proof.
  intros [H1 H2 H3 H4 H5] HT Hc Ht Hnull Hlim Hchild Hbusy Hret.
  destruct (seq_ok_tokens _ _ _ _ (H2 _) HT) as (v & c' & Hv & Ev & Ec & Hcl & Hne & Hw).
  rewrite Hc in Ec. injection Ec as <-.
  destruct (view_of cfg _ _ _ _ _ _ H1 Hv) as (t' & Et & [Hrun _ _] & _). rewrite Ht in Et. injection Et as <-.
  rewrite (rk_blocks _ _ _ _ _ _ _ Hrun) in Hnull, Hlim.
  assert (v_dropped v = 0%nat) as Hd.
  { destruct (v_dropped v); [done|]. exfalso. apply Hnull. apply list_elem_of_here. }
  rewrite Hd in Hlim. cbn [replicate app] in Hlim. rewrite length_fmap in Hlim.
  destruct (seq_ok_none _ _ _ (H2 _) Hchild) as [HVc Hcc].
  pose proof (wp_ret_elim _ _ _ _ _ (wp_fork_seq cfg V nl nids (mgr e) parent child v Hbs H1 Hv Hd Hne Hlim HVc) Hret)
    as (L & H1' & HL & _ & _).
  assert (forall G' n, holds G' v n -> holds G' (mkView 0 L (v_ids v) (v_tokens v)) n) as Hsame.
  { intros G' n Hh p b Hp Hb. apply Hh; rewrite Hd; done. }
  exists (<[seq_id child := mkView 0 L (v_ids v) (v_tokens v)]> V), nl, nids, G.
  split; cbn [mgr seq_tokens computed busy pending cache].
  - done.
  - intros sid. unfold seq_ok. cbn [seq_tokens computed]. destruct (decide (sid = seq_id child)) as [->|Hs].
    + rewrite !lookup_insert_eq. split_and!; [done|done|done|by left].
    + rewrite !lookup_insert_ne by done. apply (H2 sid).
  - intros sid v2 Hv2. destruct (decide (sid = seq_id child)) as [->|Hs].
    + rewrite lookup_insert_eq in Hv2. injection Hv2 as <-. apply Hsame. exact (H3 _ _ Hv).
    + rewrite lookup_insert_ne in Hv2 by done. exact (H3 _ _ Hv2).
  - intros sid v2 c2 Hv2 Hc2. destruct (decide (sid = seq_id child)) as [->|Hs].
    + rewrite lookup_insert_eq in Hv2. rewrite lookup_insert_eq in Hc2.
      injection Hv2 as <-. injection Hc2 as <-. apply Hsame.
      exact (H4 _ _ _ Hv Hc).
    + rewrite lookup_insert_ne in Hv2 by done. rewrite lookup_insert_ne in Hc2 by done.
      exact (H4 _ _ _ Hv2 Hc2).
  - intros d Hin. destruct (H5 d Hin) as (sid & Hsid & v2 & Hv2 & Hd2 & Ho2 & Hu2 & Hn2).
    exists sid. split; [done|]. exists v2. split_and!; try done.
    + rewrite lookup_insert_ne; [done|]. intros <-. congruence.
    + intros sid' w Hne' Hw2. destruct (decide (sid' = seq_id child)) as [->|Hs'].
      * rewrite lookup_insert_eq in Hw2. injection Hw2 as <-. apply (Hu2 (seq_id parent) v); [intros E; apply Hbusy; by rewrite E|done].
      * rewrite lookup_insert_ne in Hw2 by done. by eapply Hu2.
Qed.

Lemma free_ok e V nl nids G sq m :
  engine_ok e V nl nids G -> seq_id sq ∉ busy e -> free_seq sq (mgr e) = Ret tt m ->
  exists V' nl' nids' G', engine_ok (mkEngine m (delete (seq_id sq) (seq_tokens e)) (delete (seq_id sq) (computed e))
    (busy e) (pending e) (cache e)) V' nl' nids' G'.
Proof.
  intros [H1 H2 H3 H4 H5] Hbusy Hret. exists (delete (seq_id sq) V), nl, nids, G.
  assert (manager_ok cfg (delete (seq_id sq) V) nl nids m) as H1'.
  { destruct (V !! seq_id sq) as [v|] eqn:Hv.
    - by apply (wp_ret_elim _ _ _ _ _ (wp_free_seq cfg V nl nids (mgr e) sq v Hbs H1 Hv) Hret).
    - rewrite delete_id by done. pose proof (mo_tables _ _ _ _ _ H1 (seq_id sq)) as Hs. rewrite Hv in Hs.
      unfold free_seq, mbind, M_mbind, M_bind, get_state in Hret.
      destruct (block_tables (mgr e) !! seq_id sq); [done|]. unfold mret, M_mret, M_ret in Hret.
      by injection Hret as <-. }
  split; cbn [mgr seq_tokens computed busy pending cache]; [done|..].
  - intros sid. unfold seq_ok. cbn [seq_tokens computed]. destruct (decide (sid = seq_id sq)) as [->|Hs].
    + by rewrite !lookup_delete_eq.
    + rewrite !lookup_delete_ne by done. apply (H2 sid).
  - intros sid v2 [_ Hv2]%lookup_delete_Some. exact (H3 _ _ Hv2).
  - intros sid v2 c2 [_ Hv2]%lookup_delete_Some [_ Hc2]%lookup_delete_Some. exact (H4 _ _ _ Hv2 Hc2).
  - intros d Hin. destruct (H5 d Hin) as (sid & Hsid & v2 & Hv2 & Hd2 & Ho2 & Hu2 & Hn2).
    exists sid. split; [done|]. exists v2. split_and!; try done.
    + rewrite lookup_delete_ne; [done|]. by intros <-.
    + intros sid' w Hne' [_ Hw2]%lookup_delete_Some. by eapply Hu2.
Qed.

Lemma add_tokens_lookup {A} (x : A) l m sid :
  (sid ∈ (seq_id <$> l) -> add_tokens x l m !! sid = Some x) /\
  (sid ∉ (seq_id <$> l) -> add_tokens x l m !! sid = m !! sid).
Proof.
  induction l as [|s l [IH1 IH2]]; cbn.
  { split; [by intros ?%not_elem_of_nil|done]. }
  destruct (decide (sid = seq_id s)) as [->|Hne].
  - rewrite lookup_insert_eq. split; [done|]. intros Hn. exfalso. apply Hn, list_elem_of_here.
  - rewrite lookup_insert_ne by done. split.
    + intros [|Hin]%elem_of_cons; [done|by apply IH1].
    + intros [_ Hn]%not_elem_of_cons. by apply IH2.
Qed.

Lemma allocate_ok e V nl nids G g first others m :
  engine_ok e V nl nids G ->
  get_seqs WAITING g = first :: others -> NoDup (seq_id <$> first :: others) ->
  (forall seq, seq ∈ first :: others -> seq_tokens e !! seq_id seq = None) ->
  seq_token_ids first <> [] -> encoder_seq g = None -> cross_block_tables (mgr e) !! request_id g = None ->
  get_num_required_blocks bs (seq_token_ids first) 0 <= get_num_free_blocks GPU (block_allocator (mgr e)) ->
  (others <> [] -> get_num_required_blocks bs (seq_token_ids first) 0 <= Z.of_nat (recursion_limit cfg)) ->
  allocate_group cfg g (mgr e) = Ret tt m ->
  exists V' nl' nids' G', engine_ok
    (mkEngine m (add_tokens (seq_token_ids first) (first :: others) (seq_tokens e))
      (add_tokens 0%nat (first :: others) (computed e)) (busy e) (pending e) (cache e)) V' nl' nids' G'.
Proof.
  intros [H1 H2 H3 H4 H5] Hw Hnd Hnew Hne Henc Hcr Hfree Hlim Hret. set (T := seq_token_ids first) in *.
  unfold get_num_required_blocks in *. rewrite Z.add_0_r in *.
  assert (forall seq, seq ∈ first :: others -> V !! seq_id seq = None) as HnewV.
  { intros seq Hs. by eapply seq_ok_none; [apply H2|apply Hnew]. }
  pose proof (wp_ret_elim _ _ _ _ _ (wp_allocate_group cfg V nl nids (mgr e) g first others Hbs H1
    (Build_group_new _ _ _ _ _ _ Hw Hnd HnewV Hne Henc Hcr Hlim) Hfree) Hret)
    as (V' & B & H1' & [P1 P2] & HndB & Hfr & _ & _ & _).
  fold T in P1. set (ids := seq_id <$> first :: others) in *.
  set (G' := write_tokens cfg kv B T 0 (length T) G).
  assert (forall sid, sid ∈ ids -> exists L, V' !! sid = Some (mkView 0 L B T) /\ L <> []) as Hin.
  { intros sid Hs. apply list_elem_of_fmap in Hs as (seq & -> & Hs). by apply P1. }
  assert (forall sid, sid ∈ ids -> V !! sid = None) as HidsV.
  { intros sid Hs. apply list_elem_of_fmap in Hs as (seq & -> & Hs). by apply HnewV. }
  assert (forall sid v b, V !! sid = Some v -> b ∈ v_ids v -> b ∉ B) as HnB.
  { intros sid v b Hv Hb HbB. apply (Hfr b HbB), elem_of_app. left. apply elem_of_all_of. eauto. }
  exists V', nl, nids, G'. split; cbn [mgr seq_tokens computed busy pending cache].
  - done.
  - intros sid. unfold seq_ok. cbn [seq_tokens computed].
    destruct (add_tokens_lookup T (first :: others) (seq_tokens e) sid) as [A1 A2].
    destruct (add_tokens_lookup 0%nat (first :: others) (computed e) sid) as [B1 B2].
    destruct (decide (sid ∈ ids)) as [Hs|Hs].
    + rewrite A1, B1 by done. destruct (Hin sid Hs) as (L & -> & HL). split_and!; [done|lia|done|by left].
    + rewrite A2, B2, P2 by done. apply H2.
  - intros sid v Hv. destruct (decide (sid ∈ ids)) as [Hs|Hs].
    + destruct (Hin sid Hs) as (L & E & HL). rewrite E in Hv. injection Hv as <-. cbn [v_tokens].
      intros p b Hp Hb. cbn [v_dropped v_ids v_tokens] in *. rewrite Nat.sub_0_r in Hb.
      apply write_tokens_owned; [lia|done|]. intros q Hq Hqb. by eapply NoDup_lookup.
    + rewrite P2 in Hv by done. intros p b Hp Hb. unfold G'. rewrite write_tokens_other; [by apply (H3 sid v Hv)|].
      intros q Hq Hqb _. apply list_elem_of_lookup_2 in Hb, Hqb. by eapply HnB.
  - intros sid v c Hv Hc. destruct (add_tokens_lookup 0%nat (first :: others) (computed e) sid) as [B1 B2].
    destruct (decide (sid ∈ ids)) as [Hs|Hs].
    + rewrite B1 in Hc by done. injection Hc as <-. intros p b Hp. lia.
    + rewrite B2 in Hc by done. rewrite P2 in Hv by done. exact (H4 _ _ _ Hv Hc).
  - intros d Hd. destruct (H5 d Hd) as (sid & Hsid & v2 & Hv2 & Hd2 & Ho2 & Hu2 & Hn2).
    assert (sid ∉ ids) as Hs by (intros Hs; rewrite (HidsV sid Hs) in Hv2; done).
    exists sid. split; [done|]. exists v2. split_and!; try done.
    + by rewrite P2.
    + intros sid' w Hne' Hw2. destruct (decide (sid' ∈ ids)) as [Hs'|Hs'].
      * destruct (Hin sid' Hs') as (L & E & _). rewrite E in Hw2. injection Hw2 as <-. cbn. by eapply HnB.
      * rewrite P2 in Hw2 by done. by eapply Hu2.
Qed.

Lemma initial_ok e : initial e -> exists G, engine_ok e ∅ [] [] G.
Proof.
  intros (reserved & num_gpu & num_cpu & Hm & Ht & Hc & Hb & Hp). exists (cache e).
  unfold init_manager in Hm. destruct (create reserved num_gpu num_cpu) as [a|] eqn:Ea; [|done].
  cbn [mbind result_mbind] in Hm. injection Hm as Em.
  destruct (create_ok _ _ _ _ Ea) as (A1 & A2 & A3 & _).
  split.
  - rewrite <- Em. split; cbn; [done|unfold null_in; by rewrite A2|done|lia|by intros b ?%not_elem_of_nil| |done|apply (A3 GPU)|by intros sid v].
    intros sid. by rewrite !lookup_empty.
  - intros sid. unfold seq_ok. by rewrite Ht, Hc, !lookup_empty.
  - intros sid v Hv. by rewrite lookup_empty in Hv.
  - intros sid v c Hv. by rewrite lookup_empty in Hv.
  - intros d Hd. rewrite Hp in Hd. by apply not_elem_of_nil in Hd.
Qed.

Lemma step_ok e e' V nl nids G :
  step cfg kv e e' -> engine_ok e V nl nids G -> exists V' nl' nids' G', engine_ok e' V' nl' nids' G'.
Proof.
  intros Hs H. destruct Hs.
  - by eapply allocate_ok.
  - by eapply append_ok.
  - exists V, nl, nids, G. by apply execute_ok.
  - by eapply fork_ok.
  - by eapply free_ok.
Qed.

Lemma reachable_ok e : reachable cfg kv e -> exists V nl nids G, engine_ok e V nl nids G.
Proof.
  intros (e0 & Hi & Hr). destruct (initial_ok e0 Hi) as [G H].
  assert (exists V nl nids G, engine_ok e0 V nl nids G) as H0 by eauto. clear Hi H.
  induction Hr as [|e0 e1 e2 Hs Hr IH]; [done|]. apply IH.
  destruct H0 as (V & nl & nids & G' & H0). by eapply step_ok.
Qed.

End spec.
