(* ===== verification/V0Swap.v ===== *)
(** Swapping a sequence of the V0 engine, from the manager to the rows of the
    caches: the blocks of the sequence move to the other device with their
    tokens, and the rows that are copied are those at the positions of the
    blocks among the blocks of their devices. *)

From Stdlib Require Import ZArith Lia.
From stdpp Require Import base strings numbers functions gmap list sorting relations.
From S2P Require Import Prelude.
From S2P Require Import V0Block.
From S2P Require Import V0Table.
From S2P Require Import V0Sequence.
From S2P Require Import V0Manager.
From S2P Require Import V0BlockSpec.
From S2P Require Import V0SwapSpec.
From S2P Require Import V0TableSpec.
From S2P Require Import V0ManagerSpec.
From S2P Require Import V0Cache.
From S2P Require Import V0CacheSpec.

Open Scope list_scope.
Open Scope Z_scope.

(** ** Positions *)

(** The blocks of a device in order. *)
Definition sorted_ids (X : gset nat) : list nat := merge_sort Nat.le (elements X).

Lemma physical_lookup b a k :
  naive_physical_block_id b a = Ok k -> 0 <= k /\ sorted_ids (_all_block_indices a) !! Z.to_nat k = Some b.
Proof.
  unfold naive_physical_block_id, sorted_ids. destruct (list_find _ _) as [[i x]|] eqn:E; [|done].
  intros [= <-]. apply list_find_Some in E as (E & -> & _). rewrite Nat2Z.id. split; [lia|done].
Qed.

Lemma physical_known b a :
  b ∈ _all_block_indices a -> exists k, naive_physical_block_id b a = Ok k.
Proof.
  intros Hb. unfold naive_physical_block_id.
  destruct (list_find_elem_of (fun i => i = b) (merge_sort Nat.le (elements (_all_block_indices a))) b) as [[k x] ->];
    [|done|by eexists].
  rewrite merge_sort_Permutation. by apply elem_of_elements.
Qed.

(** ** Rows *)

Section rows.
Context {C : Type}.
Implicit Types cache gpu cpu : nat -> C.

Lemma index_put_other dst rows cache x : x ∉ dst -> index_put cache dst rows x = cache x.
Proof.
  unfold index_put. revert rows cache. induction dst as [|d dst IH]; intros [|r rows] cache Hx; simpl; try done.
  apply not_elem_of_cons in Hx as [Hd Hx]. rewrite IH by done. by apply fn_lookup_insert_ne.
Qed.

Lemma index_put_at dst rows cache j d r :
  NoDup dst -> dst !! j = Some d -> rows !! j = Some r -> index_put cache dst rows d = r.
Proof.
  revert rows cache j. induction dst as [|d0 dst IH]; intros [|r0 rows] cache j Hnd Hd Hr; try done.
  apply NoDup_cons in Hnd as [Hn Hnd]. destruct j as [|j]; simpl in Hd, Hr.
  - injection Hd as ->. injection Hr as ->. unfold index_put. simpl.
    fold (index_put (<[d:=r]> cache) dst rows). rewrite index_put_other by done. by apply fn_lookup_insert.
  - unfold index_put. simpl. fold (index_put (<[d0:=r0]> cache) dst rows). by eapply IH.
Qed.

(** Each pair of a mapping with distinct targets copies its row. *)
Lemma swap_blocks_at gpu cpu mapping j x y :
  NoDup mapping.*2 -> mapping !! j = Some (x, y) -> swap_blocks gpu cpu mapping y = gpu x.
Proof.
  intros Hnd Hj. unfold swap_blocks. destruct (len mapping =? 0) eqn:E.
  { destruct mapping; [done|]. rewrite len_cons in E. len_lia. }
  eapply (index_put_at _ _ _ j); [done| |].
  - by rewrite list_lookup_fmap, Hj.
  - unfold index_select. by rewrite !list_lookup_fmap, Hj.
Qed.

End rows.

(** The mapping of the worker, as indices. *)
Definition row_pairs (mapping : list (Z * Z)) : list (nat * nat) := (fun p => (Z.to_nat p.1, Z.to_nat p.2)) <$> mapping.

(** The rows at the positions of the old blocks are copied to the rows at the
    positions of the new ones. *)
Record rows_moved (a a' : NaiveBlockAllocator) (ids ids' : list nat) (mapping : list (Z * Z)) : Prop := {
  rm_length : length mapping = length ids;
  rm_pairs j b b' : ids !! j = Some b -> ids' !! j = Some b' ->
    exists x y, naive_physical_block_id b a = Ok x /\ naive_physical_block_id b' a' = Ok y /\
      mapping !! j = Some (x, y)
}.

Lemma rows_moved_targets a a' ids ids' mapping :
  rows_moved a a' ids ids' mapping -> length ids' = length ids -> NoDup ids' -> NoDup (row_pairs mapping).*2.
Proof.
  intros [HL HP] Hlen Hnd. apply NoDup_alt. intros i j y Hi Hj.
  unfold row_pairs in Hi, Hj. rewrite <- list_fmap_compose, list_lookup_fmap in Hi, Hj.
  destruct (mapping !! i) as [[x1 y1]|] eqn:E1, (mapping !! j) as [[x2 y2]|] eqn:E2; simpl in Hi, Hj; try done.
  injection Hi as <-. injection Hj as Hy.
  destruct (lookup_lt_is_Some_2 ids i) as [b1 Hb1]; [rewrite <- HL; by eapply lookup_lt_Some|].
  destruct (lookup_lt_is_Some_2 ids j) as [b2 Hb2]; [rewrite <- HL; by eapply lookup_lt_Some|].
  destruct (lookup_lt_is_Some_2 ids' i) as [c1 Hc1]; [rewrite Hlen; by eapply lookup_lt_Some|].
  destruct (lookup_lt_is_Some_2 ids' j) as [c2 Hc2]; [rewrite Hlen; by eapply lookup_lt_Some|].
  destruct (HP i b1 c1 Hb1 Hc1) as (x1' & y1' & _ & P1 & M1). rewrite E1 in M1. injection M1 as <- <-.
  destruct (HP j b2 c2 Hb2 Hc2) as (x2' & y2' & _ & P2 & M2). rewrite E2 in M2. injection M2 as <- <-.
  destruct (physical_lookup _ _ _ P1) as [_ L1]. destruct (physical_lookup _ _ _ P2) as [_ L2].
  rewrite Hy in L2. rewrite L1 in L2. injection L2 as ->. by eapply NoDup_lookup.
Qed.

Lemma rows_moved_copy {C} a a' ids ids' mapping (src dst : nat -> C) j b b' x y :
  rows_moved a a' ids ids' mapping -> length ids' = length ids -> NoDup ids' ->
  ids !! j = Some b -> ids' !! j = Some b' -> naive_physical_block_id b a = Ok x ->
  naive_physical_block_id b' a' = Ok y ->
  swap_blocks src dst (row_pairs mapping) (Z.to_nat y) = src (Z.to_nat x).
Proof.
  intros H Hlen Hnd Hb Hb' Hx Hy. destruct (rm_pairs _ _ _ _ _ H j b b' Hb Hb') as (x' & y' & Hx' & Hy' & Hm).
  rewrite Hx in Hx'. injection Hx' as <-. rewrite Hy in Hy'. injection Hy' as <-.
  apply (swap_blocks_at _ _ _ j); [by eapply rows_moved_targets|].
  unfold row_pairs. by rewrite list_lookup_fmap, Hm.
Qed.

(** ** The manager *)

Lemma physical_same b a a' :
  _all_block_indices a = _all_block_indices a' -> naive_physical_block_id b a = naive_physical_block_id b a'.
Proof. unfold naive_physical_block_id. by intros ->. Qed.

Lemma wp_physical_pairs src dst B B' m :
  (forall b, b ∈ B -> b ∈ known src (block_allocator m)) -> (forall b, b ∈ B' -> b ∈ known dst (block_allocator m)) ->
  length B' = length B ->
  wp (map_each (fun p : nat * nat =>
        x ← on_allocator (get_physical_block_id src p.1);
        y ← on_allocator (get_physical_block_id dst p.2);
        mret (x, y)) (zip B B'))
    (fun ys m' => m' = m /\
      rows_moved (allocator_of src (block_allocator m)) (allocator_of dst (block_allocator m)) B B' ys) m.
Proof.
  revert B'. induction B as [|b B IH]; intros [|b' B'] HB HB' HL; [by apply wp_ret|done..|].
  destruct (physical_known b (allocator_of src (block_allocator m))) as [x Hx]; [apply HB, list_elem_of_here|].
  destruct (physical_known b' (allocator_of dst (block_allocator m))) as [y Hy]; [apply HB', list_elem_of_here|].
  assert (forall d c k, naive_physical_block_id c (allocator_of d (block_allocator m)) = Ok k ->
    forall Q : Z -> Manager -> Prop, Q k m -> wp (on_allocator (get_physical_block_id d c)) Q m) as Hget.
  { intros d c k Hk Q HQ. apply wp_on_allocator. unfold get_physical_block_id. apply wp_bind, wp_get_state.
    apply (wp_lift _ k); [done|]. by destruct m. }
  change (zip (b :: B) (b' :: B')) with ((b, b') :: zip B B'). cbn [map_each]. apply wp_bind, wp_bind.
  apply (Hget _ _ x Hx), wp_bind, (Hget _ _ y Hy), wp_ret, wp_bind. eapply wp_mono.
  { apply (IH B').
    - intros c Hc. by apply HB, list_elem_of_further.
    - intros c Hc. by apply HB', list_elem_of_further.
    - simpl in HL. lia. }
  intros ys m' [-> [HL' HP]]. apply wp_ret. split; [done|]. split; [simpl; by rewrite HL'|].
  intros [|j] c c' Hc Hc'; simpl in Hc, Hc'; [|by apply HP]. injection Hc as <-. injection Hc' as <-. by exists x, y.
Qed.

Section manager.
Context (cfg : ManagerConfig).
Abbreviation bs := (block_size cfg).

(** A table whose objects are linked, hold [C] and have the blocks [B] of the
    device [d], besides the references [I]. *)
Record located (d : Device) (live : Device -> list nat) (I : list nat) (prev : option ref)
    (L B : list nat) (C : list (list Z)) (sid : Z) (m : Manager) : Prop := {
  lc_alloc : alloc_ok live (B ++ I) (block_allocator m);
  lc_segment : segment (block_allocator m) prev L B C;
  lc_live i : i ∈ L -> i ∈ live GPU;
  lc_objects : NoDup L;
  lc_blocks : NoDup B;
  lc_known b : b ∈ B -> b ∈ known d (block_allocator m);
  lc_room c : c ∈ C -> len c <= bs;
  lc_table : exists t, block_tables m !! sid = Some t /\ _blocks t = Obj GPU <$> L /\ physical_block_ids t = B
}.

Lemma wp_swap_seq src dst live I prev L B C seq m :
  0 < bs -> located src live I prev L B C (seq_id seq) m -> L <> [] -> src <> dst ->
  (length L <= nfree dst (block_allocator m))%nat ->
  wp (swap_seq cfg src dst seq) (fun pairs m' => exists B',
    located dst live I prev L B' C (seq_id seq) m' /\ length B' = length B /\
    rows_moved (allocator_of src (block_allocator m)) (allocator_of dst (block_allocator m)) B B' pairs /\
    swap_step live L (block_allocator m) (block_allocator m') /\
    (forall sid, sid <> seq_id seq -> block_tables m' !! sid = block_tables m !! sid) /\
    nfree dst (block_allocator m) = (length L + nfree dst (block_allocator m'))%nat /\
    (nfree src (block_allocator m) <= nfree src (block_allocator m'))%nat) m.
Proof.
  intros Hbs [Ha Hseg Hlive HL HB Hk HC (t & Ht & Hb & Hi)] HLne Hsd Hf.
  destruct (segment_length _ _ _ _ _ Hseg) as [LB _].
  unfold swap_seq. apply wp_bind, wp_bind, wp_get_state. apply (wp_lift _ t); [unfold lookup_table; by rewrite Ht|].
  assert ((len (_blocks t) =? 0) = false) as ->.
  { rewrite Hb. destruct L; [done|]. cbn. rewrite len_cons. apply Z.eqb_neq. len_lia. }
  rewrite Hb. apply wp_bind, wp_on_allocator. eapply wp_mono; [by apply (wp_swap bs Hbs live I _ src dst prev L B C)|].
  intros mapping s (B' & LB' & ND & HB' & -> & Ha' & Hseg' & Hstep & F1 & F2).
  apply wp_bind, (wp_on_seq_table _ t); [exact Ht|]. eapply wp_mono; [by eapply wp_update|].
  intros [] st ->. cbn [fst snd]. set (m1 := set_block_tables _ _).
  assert (block_allocator m1 = s) as Em1 by done.
  eapply wp_mono; [apply (wp_physical_pairs src dst B B' m1); rewrite ?Em1|].
  { intros b Hin. rewrite (sw_known _ _ _ _ Hstep). by apply Hk. }
  { intros b Hin. rewrite (sw_known _ _ _ _ Hstep). by apply HB'. }
  { done. }
  intros pairs m' [-> [RL RP]]. rewrite Em1 in *. exists B'.
  assert (forall d c, naive_physical_block_id c (allocator_of d s) =
    naive_physical_block_id c (allocator_of d (block_allocator m))) as Hphys.
  { intros d c. apply physical_same, (sw_known _ _ _ _ Hstep d). }
  split_and!; try done.
  - split; try done.
    + intros b Hin. rewrite Em1, (sw_known _ _ _ _ Hstep). by apply HB'.
    + eexists. split; [apply lookup_insert_eq|]. by split.
  - split; [done|]. intros j b b' Hj Hj'. destruct (RP j b b' Hj Hj') as (x & y & Hx & Hy & Hm).
    exists x, y. by rewrite <- !Hphys.
  - intros sid Hs. cbn. by rewrite lookup_insert_ne.
Qed.

Lemma segment_tokens s s' prev L B B' C i :
  segment s prev L B C -> segment s' prev L B' C -> i ∈ L ->
  token_ids <$> pool_block GPU i s' = token_ids <$> pool_block GPU i s.
Proof.
  intros H H' Hi. apply list_elem_of_lookup_1 in Hi as [j Hj].
  destruct (segment_lookup _ _ _ _ _ _ _ H Hj) as (p & b & c & _ & Hc & ->).
  destruct (segment_lookup _ _ _ _ _ _ _ H' Hj) as (p' & b' & c' & _ & Hc' & ->). cbn. congruence.
Qed.

(** A table without null blocks is located on the GPU. *)
Lemma located_of V nl nids m sid t :
  0 < bs -> manager_ok cfg V nl nids m -> block_tables m !! sid = Some t -> (Null ∉ _blocks t) ->
  exists L C live I, _blocks t = Obj GPU <$> L /\ located GPU live I None L (physical_block_ids t) C sid m.
Proof.
  intros Hbs H Ht Hn. destruct (table_of cfg _ _ _ _ _ _ H Ht) as (v & Hv & [Hrun _ _] & _).
  pose proof (alloc_split cfg _ _ _ _ _ _ H Hv) as Ha.
  destruct Hrun as [Rb Ri (prev & Hseg & Hprev) _ _].
  assert (v_dropped v = 0%nat) as E.
  { destruct (v_dropped v) as [|k] eqn:Ek; [done|]. exfalso. apply Hn. rewrite Rb. simpl. apply list_elem_of_here. }
  rewrite E in *. rewrite (Hprev eq_refl) in Hseg. simpl in Rb, Ri.
  exists (v_objects v), (chunks bs (v_tokens v) 0 (length (v_objects v))),
    (gpu_only (v_objects v ++ rest_objects sid V nl)), (rest_ids sid V nids).
  split; [done|]. unfold physical_block_ids. rewrite Ri. split; try done.
  - intros i Hi. cbn. apply elem_of_app. by left.
  - pose proof (live_NoDup _ _ _ GPU Ha) as Hnd. simpl in Hnd. by apply NoDup_app in Hnd as [? _].
  - by apply (mo_distinct _ _ _ _ _ H sid).
  - intros b Hb. apply (mo_gpu _ _ _ _ _ H). apply elem_of_all_of. eauto.
  - intros c Hc. apply list_elem_of_fmap in Hc as (j & -> & _). by apply chunk_length.
  - exists t. by split_and!.
Qed.

(** Out and in again. *)
Lemma swap_out_and_in {C} V nl nids m seq t :
  0 < bs -> manager_ok cfg V nl nids m -> block_tables m !! seq_id seq = Some t -> _blocks t <> [] ->
  (Null ∉ _blocks t) -> len (_blocks t) <= get_num_free_blocks CPU (block_allocator m) ->
  len (_blocks t) <= get_num_free_blocks GPU (block_allocator m) ->
  exists out m1 back m2 t2, swap_seq cfg GPU CPU seq m = Ret out m1 /\ swap_seq cfg CPU GPU seq m1 = Ret back m2 /\
    block_tables m2 !! seq_id seq = Some t2 /\ _blocks t2 = _blocks t /\
    (forall i, Obj GPU i ∈ _blocks t -> token_ids <$> pool_block GPU i (block_allocator m2) =
       token_ids <$> pool_block GPU i (block_allocator m)) /\
    (forall sid, sid <> seq_id seq -> block_tables m2 !! sid = block_tables m !! sid) /\
    forall (gpu gpu' cpu : nat -> C) j b b2 x y,
      physical_block_ids t !! j = Some b -> physical_block_ids t2 !! j = Some b2 ->
      naive_physical_block_id b (_gpu_allocator (block_allocator m)) = Ok x ->
      naive_physical_block_id b2 (_gpu_allocator (block_allocator m)) = Ok y ->
      swap_blocks (swap_blocks gpu cpu (row_pairs out)) gpu' (row_pairs back) (Z.to_nat y) = gpu (Z.to_nat x).
Proof.
  intros Hbs H Ht Hne Hn Hcpu Hgpu. destruct (located_of _ _ _ _ _ _ Hbs H Ht Hn) as (L & Ck & live & I & Hb & HL).
  assert (length (_blocks t) = length L) as Hlen by (rewrite Hb; by rewrite length_fmap).
  assert (L <> []) as HLne by (intros ->; rewrite Hb in Hne; done).
  unfold get_num_free_blocks, naive_num_free_blocks, len in Hcpu, Hgpu. cbn [allocator_of] in Hcpu, Hgpu.
  set (B := physical_block_ids t) in *.
  assert (length B = length L) as LB.
  { destruct (segment_length _ _ _ _ _ (lc_segment _ _ _ _ _ _ _ _ _ HL)) as [E _]. exact E. }
  pose proof (wp_swap_seq GPU CPU live I None L B Ck seq m Hbs HL HLne ltac:(done)) as W1.
  unfold wp in W1. unfold nfree in W1. cbn [allocator_of] in W1. specialize (W1 ltac:(lia)).
  destruct (swap_seq cfg GPU CPU seq m) as [out m1|] eqn:E1; [|done].
  destruct W1 as (B1 & HL1 & LB1 & R1 & S1 & T1 & F1 & G1).
  pose proof (wp_swap_seq CPU GPU live I None L B1 Ck seq m1 Hbs HL1 HLne ltac:(done)) as W2.
  unfold wp in W2. unfold nfree in W2, G1. cbn [allocator_of] in W2, G1. specialize (W2 ltac:(lia)).
  destruct (swap_seq cfg CPU GPU seq m1) as [back m2|] eqn:E2; [|done].
  destruct W2 as (B2 & HL2 & LB2 & R2 & S2 & T2 & F2 & G2).
  destruct (lc_table _ _ _ _ _ _ _ _ _ HL2) as (t2 & Ht2 & Hb2 & Hi2).
  exists out, m1, back, m2, t2. split; [done|]. split; [done|]. split; [done|]. split; [congruence|]. split_and!.
  - intros i Hi. rewrite Hb in Hi. apply list_elem_of_fmap in Hi as (i' & [= <-] & Hi).
    eapply segment_tokens; [exact (lc_segment _ _ _ _ _ _ _ _ _ HL)|exact (lc_segment _ _ _ _ _ _ _ _ _ HL2)|done].
  - intros sid Hs. by rewrite T2, T1.
  - intros gpu gpu' cpu j b b2 x y Hj Hj2 Hx Hy. rewrite Hi2 in Hj2.
    destruct (lookup_lt_is_Some_2 B1 j) as [b1 Hb1]; [rewrite LB1; by eapply lookup_lt_Some|].
    destruct (rm_pairs _ _ _ _ _ R1 j b b1 Hj Hb1) as (x' & z & Hx' & Hz & _).
    assert (naive_physical_block_id b2 (_gpu_allocator (block_allocator m1)) = Ok y) as Hy1.
    { rewrite <- Hy. apply physical_same, (sw_known _ _ _ _ S1 GPU). }
    assert (naive_physical_block_id b1 (_cpu_allocator (block_allocator m1)) = Ok z) as Hz1.
    { etrans; [|exact Hz]. apply physical_same, (sw_known _ _ _ _ S1 CPU). }
    rewrite (rows_moved_copy _ _ _ _ _ _ _ j b1 b2 z y R2 LB2 (lc_blocks _ _ _ _ _ _ _ _ _ HL2) Hb1 Hj2 Hz1 Hy1).
    exact (rows_moved_copy _ _ _ _ _ _ _ j b b1 x z R1 LB1 (lc_blocks _ _ _ _ _ _ _ _ _ HL1) Hj Hb1 Hx Hz).
Qed.

End manager.
