(* ===== verification/V0Results.v ===== *)
(** What the block management of the V0 engine guarantees to the scheduler and
    to the worker, and where the code departs from it. *)

From Stdlib Require Import ZArith Lia.
From stdpp Require Import base strings numbers functions gmap list sorting relations.
From S2P Require Import Prelude.
From S2P Require Import V0Block.
From S2P Require Import V0Table.
From S2P Require Import V0Sequence.
From S2P Require Import V0Manager.
From S2P Require Import V0BlockSpec.
From S2P Require Import V0TableSpec.
From S2P Require Import V0ManagerSpec.
From S2P Require Import V0Cache.
From S2P Require Import V0CacheSpec.
From S2P Require Import V0Swap.

Open Scope list_scope.
Open Scope Z_scope.

(** ** References *)

(** The block ids of the objects of a table. *)
Definition entries (t : BlockTable) : list nat :=
  omap (fun p => match p.1 with Null => None | Obj _ _ => Some p.2 end) (zip (_blocks t) (physical_block_ids t)).

(** All references to blocks: those of the tables and that of the null block. *)
Definition references (m : Manager) : list nat :=
  concat (entries <$> (map_to_list (block_tables m)).*2)
  ++ match _null_block (block_allocator m) with
     | None => []
     | Some _ => [null_id (block_allocator m)]
     end.

Lemma entries_null k x l l' :
  omap (fun p : ref * nat => match p.1 with Null => None | Obj _ _ => Some p.2 end)
    (zip (replicate k Null ++ l) (replicate k x ++ l')) =
  omap (fun p => match p.1 with Null => None | Obj _ _ => Some p.2 end) (zip l l').
Proof. induction k as [|k IH]; [done|exact IH]. Qed.

Lemma entries_objects d L B :
  length L = length B ->
  omap (fun p : ref * nat => match p.1 with Null => None | Obj _ _ => Some p.2 end) (zip (Obj d <$> L) B) = B.
Proof.
  revert B. induction L as [|i L IH]; intros [|b B] H; simpl in H; try done.
  cbn. f_equal. apply IH. lia.
Qed.

Section results.
Context (cfg : ManagerConfig) {C : Type} (kv : list Z -> C).
Abbreviation bs := (block_size cfg).
Abbreviation nb := (Z.to_nat bs).

Lemma entries_view V nl nids m sid t v :
  manager_ok cfg V nl nids m -> block_tables m !! sid = Some t -> V !! sid = Some v -> entries t = v_ids v.
Proof.
  intros H Ht Hv. destruct (view_of cfg _ _ _ _ _ _ H Hv) as (t' & Et & [Hrun _ _] & _).
  rewrite Et in Ht. injection Ht as ->. unfold entries, physical_block_ids.
  rewrite (rk_blocks _ _ _ _ _ _ _ Hrun), (rk_ids _ _ _ _ _ _ _ Hrun), entries_null.
  apply entries_objects. symmetry. exact (run_ok_length _ _ _ _ _ _ _ Hrun).
Qed.

Lemma references_ok V nl nids m :
  manager_ok cfg V nl nids m -> references m ≡ₚ all_of v_ids V ++ nids.
Proof.
  intros H. unfold references. f_equiv.
  - assert (entries <$> block_tables m = v_ids <$> V) as E.
    { apply map_eq. intros sid. rewrite !lookup_fmap. pose proof (mo_tables _ _ _ _ _ H sid) as Hs.
      destruct (block_tables m !! sid) as [t|] eqn:Et, (V !! sid) as [v|] eqn:Ev; try done.
      cbn. f_equal. by eapply entries_view. }
    assert (forall {A} (f : A -> list nat) (X : gmap Z A),
      f <$> (map_to_list X).*2 = (map_to_list (f <$> X)).*2) as Hf.
    { intros A f X. rewrite map_to_list_fmap, <- !list_fmap_compose. done. }
    unfold all_of. by rewrite !Hf, E.
  - pose proof (mo_null _ _ _ _ _ H) as Hn. pose proof (mo_one _ _ _ _ _ H) as H1.
    unfold null_in in Hn. unfold null_id. destruct (_null_block (block_allocator m)) as [[[] i|]|] eqn:E; try done.
    + destruct Hn as (b & _ & Hb & _ & Hp). destruct nids as [|x [|]]; simpl in H1; [by apply not_elem_of_nil in Hb| |lia].
      apply list_elem_of_singleton in Hb as ->.
      by rewrite Hp.
    + by destruct (mo_none _ _ _ _ _ H E) as [_ ->].
Qed.

Lemma accounted V nl nids m b :
  manager_ok cfg V nl nids m -> b ∈ known GPU (block_allocator m) ->
  _refcounts (_gpu_allocator (block_allocator m)) !! b = Some (occ b (references m)) /\
  (b ∈ _free_block_indices (_gpu_allocator (block_allocator m)) <-> b ∉ references m).
Proof.
  intros H Hb. pose proof (references_ok _ _ _ _ H) as HR.
  destruct (ao_count _ _ _ (mo_alloc _ _ _ _ _ H) GPU) as [_ _ Hfr Hc]. split.
  - rewrite (occ_perm b _ _ HR). etrans; [apply Hc|]. by apply decide_True.
  - rewrite HR. etrans; [apply Hfr|]. naive_solver.
Qed.

Context (Hbs : 0 < bs).

(** What a sequence still needs lies behind what its table has dropped. *)
Lemma window_reads sliding_window v c p :
  max_block_sliding_window cfg = window_blocks sliding_window bs ->
  match sliding_window with None => True | Some w => 0 <= w /\ Z.of_nat c - w <= Z.of_nat p end ->
  window_kept cfg v c -> (v_dropped v * nb <= p)%nat.
Proof.
  intros Ew Hp [->|(w & Hw & Hk)]; [lia|]. rewrite Ew in Hw.
  destruct sliding_window as [sw|]; [|done]. cbn in Hw. injection Hw as <-.
  pose proof (Z.div_mod sw bs). pose proof (Z.mod_pos_bound sw bs). nia.
Qed.

Lemma window_positive sliding_window :
  max_block_sliding_window cfg = window_blocks sliding_window bs ->
  match sliding_window with None => True | Some w => 0 <= w end ->
  forall w, max_block_sliding_window cfg = Some w -> 1 <= w.
Proof.
  intros -> Hs w. destruct sliding_window as [sw|]; [|done]. cbn. intros [= <-].
  pose proof (Z.div_pos sw bs). lia.
Qed.

Lemma reads_own_kv sliding_window (e : engine (C := C)) sid T c p :
  max_block_sliding_window cfg = window_blocks sliding_window bs ->
  match sliding_window with None => True | Some w => 0 <= w /\ Z.of_nat c - w <= Z.of_nat p end ->
  reachable cfg kv e -> seq_tokens e !! sid = Some T -> computed e !! sid = Some c -> (p < c)%nat ->
  exists t b, block_tables (mgr e) !! sid = Some t /\ physical_block_ids t !! (p / nb)%nat = Some b /\
    copy_blocks (pending e) (cache e) b (p mod nb)%nat = kv (take (S p) T).
Proof.
  intros Ew Hsw Hr HT Hc Hp.
  assert (forall w, max_block_sliding_window cfg = Some w -> 1 <= w) as Hwin.
  { eapply window_positive; [exact Ew|]. by destruct sliding_window; [destruct Hsw|]. }
  destruct (reachable_ok cfg kv Hbs Hwin e Hr) as (V & nl & nids & G & [Hm Hq _ Hca _]).
  destruct (seq_ok_tokens cfg e V sid T (Hq sid) HT) as (v & c' & Hv & <- & Hc' & Hlen & _ & Hk).
  rewrite Hc in Hc'. injection Hc' as <-.
  pose proof (window_reads _ _ _ _ Ew Hsw Hk) as Hdrop.
  destruct (view_of cfg _ _ _ _ _ _ Hm Hv) as (t & Et & _).
  destruct (table_ids_view cfg Hbs _ _ _ e _ _ Hm Hv) as [Eids Hroom].
  unfold table_ids in Eids. rewrite Et in Eids. cbn in Eids.
  assert (p / nb < v_dropped v + length (v_ids v))%nat by (apply Nat.Div0.div_lt_upper_bound; lia).
  assert (v_dropped v <= p / nb)%nat by (apply Nat.div_le_lower_bound; lia).
  destruct (lookup_lt_is_Some_2 (v_ids v) (p / nb - v_dropped v)) as [b Hb]; [lia|].
  exists t, b. split; [done|]. split.
  - by rewrite Eids, (lookup_view_ids cfg Hbs) by lia.
  - apply (Hca sid v c Hv Hc); [lia|done].
Qed.

(** ** Admission *)

Lemma reachable_manager e :
  (forall w, max_block_sliding_window cfg = Some w -> 1 <= w) -> reachable cfg kv e ->
  exists V nl nids, manager_ok cfg V nl nids (mgr e) /\ forall sid, seq_ok cfg e V sid.
Proof.
  intros Hwin Hr. destruct (reachable_ok cfg kv Hbs Hwin e Hr) as (V & nl & nids & G & [Hm Hq _ _ _]). eauto.
Qed.

(** A running group whose sequences are known and have grown. *)
Definition running_known (e : engine (C := C)) (g : SequenceGroup) : Prop :=
  NoDup (seq_id <$> get_seqs RUNNING g) /\
  forall seq, seq ∈ get_seqs RUNNING g -> exists T c,
    seq_tokens e !! seq_id seq = Some T /\ T `prefix_of` seq_token_ids seq /\
    computed e !! seq_id seq = Some c /\ get_num_computed_tokens (data seq) = Z.of_nat c.

Lemma appended_when_admitted e g la :
  (forall w, max_block_sliding_window cfg = Some w -> 1 <= w) -> reachable cfg kv e ->
  running_known e g -> 0 <= la -> null_needed cfg (mgr e) = 0 ->
  can_append_slots cfg g la (mgr e) = Ok true ->
  exists copies m', map_each (fun seq => append_slots cfg seq la) (get_seqs RUNNING g) (mgr e) = Ret copies m'.
Proof.
  intros Hwin Hr [Hnd Hk] Hla Hnull Hcan. destruct (reachable_manager e Hwin Hr) as (V & nl & nids & Hm & Hq).
  unfold can_append_slots in Hcan.
  destruct (sum_results (touched_blocks cfg la (mgr e)) (get_seqs RUNNING g)) as [n|] eqn:En; [|done].
  cbn in Hcan. injection Hcan as Hn%Z.leb_le.
  assert (wp (map_each (fun seq => append_slots cfg seq la) (get_seqs RUNNING g)) (fun _ _ => True) (mgr e)) as Hwp.
  { eapply wp_mono; [apply (wp_append_all cfg V nl nids (mgr e) la (get_seqs RUNNING g) n Hbs Hm Hnd); try done|done].
    intros seq Hs. destruct (Hk seq Hs) as (T & c & HT & Hpre & Hc & Hcomp).
    destruct (seq_ok_tokens cfg e V _ T (Hq _) HT) as (v & c' & Hv & Ev & Hc' & Hlen & Hne & _).
    exists v. split; [done|]. rewrite Hc in Hc'. injection Hc' as <-. rewrite <- Ev in *. split; [done..|].
    intros w Hw. split; [by apply Hwin|]. rewrite Hcomp. unfold len. lia. }
  unfold wp in Hwp. destruct (map_each _ _ _) as [copies m'|]; [eauto|done].
Qed.

(** A waiting group that the engine does not know yet. *)
Definition waiting_new (e : engine (C := C)) (g : SequenceGroup) (first : Sequence) (others : list Sequence) : Prop :=
  get_seqs WAITING g = first :: others /\ NoDup (seq_id <$> first :: others) /\
  (forall seq, seq ∈ first :: others -> seq_tokens e !! seq_id seq = None) /\
  seq_token_ids first <> [] /\ encoder_seq g = None /\ cross_block_tables (mgr e) !! request_id g = None /\
  (others <> [] -> cdiv (len (seq_token_ids first)) bs <= Z.of_nat (recursion_limit cfg)).

Lemma allocated_when_admitted e g first others la :
  max_block_sliding_window cfg = None -> reachable cfg kv e -> waiting_new e g first others ->
  0 <= la -> 0 <= watermark_blocks cfg -> can_allocate cfg g la (mgr e) = Ok OK ->
  exists m', allocate_group cfg g (mgr e) = Ret tt m'.
Proof.
  intros Hw Hr (Hg & Hnd & Hnew & Htoks & Henc & Hcr & Hdep) Hla Hwm Hcan.
  destruct (reachable_manager e) as (V & nl & nids & Hm & Hq); [by rewrite Hw|done|].
  unfold can_allocate, check_no_caching_or_swa_for_blockmgr_encdec, is_encoder_decoder in Hcan.
  rewrite Henc, Hg, Hw in Hcan. rewrite bool_decide_eq_false_2 in Hcan by (by intros [? ?]).
  cbn [mbind result_mbind] in Hcan.
  assert (cdiv (len (seq_token_ids first)) bs <= get_num_free_blocks GPU (block_allocator (mgr e))) as Hf.
  { destruct (_ <? _); [done|]. destruct (_ <=? _) eqn:E; [|done]. apply Z.leb_le in E.
    unfold get_num_required_blocks in E.
    pose proof (cdiv_mono (len (seq_token_ids first)) (len (seq_token_ids first) + la) bs Hbs ltac:(lia)).
    lia. }
  assert (wp (allocate_group cfg g) (fun _ _ => True) (mgr e)) as Hwp.
  { eapply wp_mono; [apply (wp_allocate_group cfg V nl nids (mgr e) g first others Hbs Hm); [|done]|done].
    split; try done. intros seq Hs. by apply (seq_ok_none cfg e V _ (Hq _)), Hnew. }
  unfold wp in Hwp. destruct (allocate_group cfg g (mgr e)) as [[] m'|]; [eauto|done].
Qed.

(** A sequence that is known can be freed. *)
Lemma freed_when_known e seq :
  (forall w, max_block_sliding_window cfg = Some w -> 1 <= w) -> reachable cfg kv e ->
  exists m', free_seq seq (mgr e) = Ret tt m' /\ block_tables m' !! seq_id seq = None.
Proof.
  intros Hwin Hr. destruct (reachable_manager e Hwin Hr) as (V & nl & nids & Hm & _).
  pose proof (mo_tables _ _ _ _ _ Hm (seq_id seq)) as Hs.
  destruct (block_tables (mgr e) !! seq_id seq) as [t|] eqn:Et.
  - destruct (V !! seq_id seq) as [v|] eqn:Ev; [|done].
    pose proof (wp_free_seq cfg V nl nids (mgr e) seq v Hbs Hm Ev) as Hwp. unfold wp in Hwp.
    destruct (free_seq seq (mgr e)) as [[] m'|]; [|done]. exists m'. split; [done|].
    destruct Hwp as [Hm' _]. pose proof (mo_tables _ _ _ _ _ Hm' (seq_id seq)) as Hs'.
    rewrite lookup_delete_eq in Hs'. by destruct (block_tables m' !! seq_id seq).
  - exists (mgr e). split; [|done]. unfold free_seq. unfold mbind, M_mbind, M_bind. cbn. by rewrite Et.
Qed.

End results.

(** ** An engine at work

    Four blocks of two slots: a prompt of three tokens is computed, the sequence
    is forked, and the first of the two grows, which copies the block they
    share. *)

Definition small_config (num_blocks : Z) (sliding_window : option Z) : ManagerConfig :=
  mkManagerConfig 2 num_blocks (window_blocks sliding_window 2) 0 100.
Definition started (m : result Manager) : Manager :=
  match m with Ok m => m | Err _ => mkManager (mkAllocators (init_naive []) (init_naive []) [] None) ∅ ∅ ∅ end.
Definition after {S A} (x : outcome S A) : S := match x with Ret _ s | Raise _ s => s end.
Definition token_list (n : nat) : list Z := Z.of_nat <$> seq 0 n.
Definition fresh_seq (sid : Z) (n : nat) (st : SequenceStatus) : Sequence :=
  mkSequence sid (new_data (token_list n) []) st.
Definition grown_seq (sid : Z) (n c : nat) : Sequence :=
  mkSequence sid (mkData (token_list n) [] (Z.of_nat c) 0 DECODE (token_list n) []) RUNNING.
Definition lone_group (s : Sequence) : SequenceGroup := mkGroup "r" [s] None.

Definition demo_config : ManagerConfig := small_config 4 None.
Definition demo_kv (T : list Z) : list Z := T.
Definition prompt_group : SequenceGroup := lone_group (fresh_seq 0 3 WAITING).

Definition started_manager : Manager := Eval cbv in started (init_manager 0 4 4).
Definition allocated_manager : Manager := Eval cbv in after (allocate_group demo_config prompt_group started_manager).
Definition forked_manager : Manager :=
  Eval cbv in after (fork_seq demo_config (fresh_seq 0 3 RUNNING) (fresh_seq 1 3 RUNNING) allocated_manager).
Definition appended_manager : Manager :=
  Eval cbv in after (append_slots demo_config (grown_seq 0 4 3) 0 forked_manager).

Definition demo_start : engine (C := list Z) := mkEngine started_manager ∅ ∅ ∅ [] (fun _ _ => []).
Definition demo_allocated : engine (C := list Z) :=
  mkEngine allocated_manager (add_tokens (token_list 3) [fresh_seq 0 3 WAITING] ∅)
    (add_tokens 0%nat [fresh_seq 0 3 WAITING] ∅) ∅ [] (fun _ _ => []).
Definition demo_computed : engine (C := list Z) := execute demo_config demo_kv [(0, 3%nat)] demo_allocated.
Definition demo_forked : engine (C := list Z) :=
  mkEngine forked_manager (<[1 := token_list 3]> (seq_tokens demo_computed))
    (<[1 := 3%nat]> (computed demo_computed)) (busy demo_computed) (pending demo_computed) (cache demo_computed).
Definition demo_appended : engine (C := list Z) :=
  mkEngine appended_manager (<[0 := token_list 4]> (seq_tokens demo_forked)) (computed demo_forked)
    ({[0]} ∪ busy demo_forked) (pending demo_forked ++ [(1%nat, 2%nat)]) (cache demo_forked).

Lemma demo_allocate : step demo_config demo_kv demo_start demo_allocated.
Proof.
  refine (step_allocate demo_config demo_kv demo_start prompt_group (fresh_seq 0 3 WAITING) [] allocated_manager
    _ _ _ _ _ _ _ _ _).
  - reflexivity.
  - apply NoDup_singleton.
  - by intros s ->%list_elem_of_singleton.
  - done.
  - done.
  - vm_compute. reflexivity.
  - vm_compute. intros H. discriminate H.
  - done.
  - vm_compute. reflexivity.
Qed.

Lemma demo_execute : step demo_config demo_kv demo_allocated demo_computed.
Proof.
  apply step_execute. split; [apply NoDup_singleton|].
  intros sid upto Hin. apply list_elem_of_singleton in Hin. injection Hin as -> ->.
  exists (token_list 3), 0%nat. split_and!; [vm_compute; reflexivity|vm_compute; reflexivity|lia|].
  unfold token_list. simpl. lia.
Qed.

Lemma demo_fork : step demo_config demo_kv demo_computed demo_forked.
Proof.
  refine (step_fork demo_config demo_kv demo_computed (fresh_seq 0 3 RUNNING) (fresh_seq 1 3 RUNNING)
    (token_list 3) 3%nat (mkTable [Obj GPU 0; Obj GPU 1] [0%nat; 1%nat] None 3) forked_manager _ _ _ _ _ _ _ _).
  - vm_compute. reflexivity.
  - vm_compute. reflexivity.
  - vm_compute. reflexivity.
  - simpl. intros [H|[H|H%not_elem_of_nil]%elem_of_cons]%elem_of_cons; done.
  - simpl. lia.
  - vm_compute. reflexivity.
  - vm_compute. intros H. discriminate H.
  - vm_compute. reflexivity.
Qed.

Lemma demo_append : step demo_config demo_kv demo_forked demo_appended.
Proof.
  refine (step_append demo_config demo_kv demo_forked (grown_seq 0 4 3) 0 (token_list 3) 1 [(1%nat, 2%nat)]
    appended_manager _ _ _ _ _ _ _ _).
  - vm_compute. reflexivity.
  - exists [3]. reflexivity.
  - vm_compute. intros H. discriminate H.
  - vm_compute. reflexivity.
  - lia.
  - vm_compute. reflexivity.
  - vm_compute. intros H. discriminate H.
  - vm_compute. reflexivity.
Qed.

Lemma demo_reachable : reachable demo_config demo_kv demo_appended.
Proof.
  exists demo_start. split.
  { exists 0%nat, 4%nat, 4%nat. split_and!; [vm_compute; reflexivity|done..]. }
  apply (rtc_l _ _ demo_allocated); [apply demo_allocate|].
  apply (rtc_l _ _ demo_computed); [apply demo_execute|].
  apply (rtc_l _ _ demo_forked); [apply demo_fork|].
  apply rtc_once, demo_append.
Qed.

(** ** The theorems *)

(** C20: Every sequence reads its own keys and values: after any steps its
    block table leads, for each computed position the window still needs, to a
    slot with the value of its own tokens, once the pending copies are made.
    The steps ([V0Cache.step]): prompts, appending with copy on write and
    sliding window (both with enough free blocks), batches, forks and frees. A
    fork is of a sequence without appends still to be executed whose table has
    no null block: after the window has dropped blocks, a fork gives the child
    a wrong table (see the findings). Swaps and encoder tables are not among
    the steps. *)
Theorem v0_reads_own_kv cfg {C} (kv : list Z -> C) sliding_window (e : engine (C := C)) sid T c p :
  0 < block_size cfg -> max_block_sliding_window cfg = window_blocks sliding_window (block_size cfg) ->
  match sliding_window with None => True | Some w => 0 <= w /\ Z.of_nat c - w <= Z.of_nat p end ->
  reachable cfg kv e -> seq_tokens e !! sid = Some T -> computed e !! sid = Some c -> (p < c)%nat ->
  exists t b, block_tables (mgr e) !! sid = Some t /\
    physical_block_ids t !! (p / Z.to_nat (block_size cfg))%nat = Some b /\
    copy_blocks (pending e) (cache e) b (p mod Z.to_nat (block_size cfg))%nat = kv (take (S p) T).
Proof. intros Hbs. by apply reads_own_kv. Qed.

Lemma v0_reads_own_kv_witness :
  reachable demo_config demo_kv demo_appended /\
  exists t b, block_tables (mgr demo_appended) !! 0 = Some t /\
    physical_block_ids t !! (2 / 2)%nat = Some b /\
    copy_blocks (pending demo_appended) (cache demo_appended) b (2 mod 2)%nat = take 3 (token_list 4).
Proof.
  split; [exact demo_reachable|].
  apply (v0_reads_own_kv demo_config demo_kv None demo_appended 0 (token_list 4) 3%nat 2%nat); try done; try lia.
  exact demo_reachable.
Defined.

(** C21: No block is lost or handed out twice: in every state that prompts,
    appends (both with enough free blocks), batches, forks of tables without
    null blocks and frees reach, without swaps and encoder tables, the
    reference count of a block is the number of table entries (and the null
    block) that refer to it, and the heap of free blocks holds, once each,
    exactly the blocks nothing refers to. An allocation without enough free
    blocks is not among the steps: it raises and the blocks it took so far are
    lost (see the findings). *)
Theorem v0_blocks_accounted cfg {C} (kv : list Z -> C) (e : engine (C := C)) :
  0 < block_size cfg -> (forall w, max_block_sliding_window cfg = Some w -> 1 <= w) ->
  reachable cfg kv e ->
  let a := _gpu_allocator (block_allocator (mgr e)) in
  NoDup (_free_block_indices a) /\
  forall b, b ∈ _all_block_indices a ->
    _refcounts a !! b = Some (occ b (references (mgr e))) /\
    (b ∈ _free_block_indices a <-> b ∉ references (mgr e)).
Proof.
  intros Hbs Hwin Hr a. destruct (reachable_manager cfg kv Hbs e Hwin Hr) as (V & nl & nids & Hm & _).
  split; [apply (co_nodup _ _ (ao_count _ _ _ (mo_alloc _ _ _ _ _ Hm) GPU))|].
  intros b Hb. by eapply accounted.
Qed.

Lemma v0_blocks_accounted_witness :
  reachable demo_config demo_kv demo_appended /\ references (mgr demo_appended) = [0%nat; 1%nat; 0%nat; 2%nat] /\
  let a := _gpu_allocator (block_allocator (mgr demo_appended)) in
  NoDup (_free_block_indices a) /\
  forall b, b ∈ _all_block_indices a ->
    _refcounts a !! b = Some (occ b (references (mgr demo_appended))) /\
    (b ∈ _free_block_indices a <-> b ∉ references (mgr demo_appended)).
Proof.
  split; [exact demo_reachable|]. split; [reflexivity|].
  apply (v0_blocks_accounted demo_config demo_kv demo_appended); [done|by intros w|exact demo_reachable].
Defined.

Definition demo_running : SequenceGroup := mkGroup "r" [grown_seq 0 4 3; grown_seq 1 5 3] None.

(** C22: The admission test of the scheduler is sound for running groups: when
    [can_append_slots] says yes and no sliding window needs a null block first,
    the slots of all sequences of the group can be appended one after the other,
    copies on write and lookahead slots included. *)
Theorem v0_admitted_appends cfg {C} (kv : list Z -> C) (e : engine (C := C)) g la :
  0 < block_size cfg -> (forall w, max_block_sliding_window cfg = Some w -> 1 <= w) ->
  reachable cfg kv e -> running_known e g -> 0 <= la -> null_needed cfg (mgr e) = 0 ->
  can_append_slots cfg g la (mgr e) = Ok true ->
  exists copies m', map_each (fun seq => append_slots cfg seq la) (get_seqs RUNNING g) (mgr e) = Ret copies m'.
Proof. intros Hbs Hwin Hr. by apply (appended_when_admitted cfg kv Hbs). Qed.

Lemma demo_running_known : running_known demo_forked demo_running.
Proof.
  split.
  - apply NoDup_cons. split; [by intros ?%list_elem_of_singleton|apply NoDup_singleton].
  - intros s Hs. exists (token_list 3), 3%nat.
    apply elem_of_cons in Hs as [->|Hs]; [|apply list_elem_of_singleton in Hs as ->].
    + split_and!; [vm_compute; reflexivity|by exists [3]|vm_compute; reflexivity|reflexivity].
    + split_and!; [vm_compute; reflexivity|by exists [3; 4]|vm_compute; reflexivity|reflexivity].
Qed.

Lemma demo_forked_reachable : reachable demo_config demo_kv demo_forked.
Proof.
  exists demo_start. split.
  { exists 0%nat, 4%nat, 4%nat. split_and!; [vm_compute; reflexivity|done..]. }
  apply (rtc_l _ _ demo_allocated); [apply demo_allocate|].
  apply (rtc_l _ _ demo_computed); [apply demo_execute|].
  apply rtc_once, demo_fork.
Qed.

Lemma v0_admitted_appends_witness :
  can_append_slots demo_config demo_running 0 (mgr demo_forked) = Ok false /\
  can_append_slots demo_config (lone_group (grown_seq 0 5 3)) 0 (mgr demo_forked) = Ok true /\
  exists copies m', map_each (fun seq => append_slots demo_config seq 0)
    (get_seqs RUNNING (lone_group (grown_seq 0 5 3))) (mgr demo_forked) = Ret copies m'.
Proof.
  split; [vm_compute; reflexivity|]. split; [vm_compute; reflexivity|].
  apply (v0_admitted_appends demo_config demo_kv demo_forked); [done|by intros w|exact demo_forked_reachable| |done|done|vm_compute; reflexivity].
  split; [apply NoDup_singleton|]. intros s Hs%list_elem_of_singleton. subst s. exists (token_list 3), 3%nat.
  split_and!; [vm_compute; reflexivity|by exists [3; 4]|vm_compute; reflexivity|reflexivity].
Defined.

(** C23: The admission test is sound for waiting groups when there is no sliding
    window: when [can_allocate] says OK, allocating the group returns. *)
Theorem v0_admitted_allocates cfg {C} (kv : list Z -> C) (e : engine (C := C)) g first others la :
  0 < block_size cfg -> max_block_sliding_window cfg = None -> reachable cfg kv e ->
  waiting_new cfg e g first others -> 0 <= la -> 0 <= watermark_blocks cfg ->
  can_allocate cfg g la (mgr e) = Ok OK -> exists m', allocate_group cfg g (mgr e) = Ret tt m'.
Proof. intros Hbs. by apply allocated_when_admitted. Qed.

Lemma v0_admitted_allocates_witness :
  let g := lone_group (fresh_seq 7 2 WAITING) in
  can_allocate demo_config g 2 (mgr demo_forked) = Ok OK /\
  exists m', allocate_group demo_config g (mgr demo_forked) = Ret tt m'.
Proof.
  intros g. assert (can_allocate demo_config g 2 (mgr demo_forked) = Ok OK) as Hc by (vm_compute; reflexivity).
  split; [exact Hc|].
  apply (v0_admitted_allocates demo_config demo_kv demo_forked g (fresh_seq 7 2 WAITING) [] 2);
    [done|done|exact demo_forked_reachable| |done|done|exact Hc].
  split; [reflexivity|]. split; [apply NoDup_singleton|]. split.
  { intros s Hs%list_elem_of_singleton. subst s. vm_compute. reflexivity. }
  split; [discriminate|]. split; [reflexivity|]. split; [vm_compute; reflexivity|].
  intros H. by destruct H.
Defined.

(** C24: Swapping out and in again loses nothing of the rows it copies: with
    enough free blocks on both devices and no dropped block, both swaps
    return, the table has the same objects and tokens, other tables are
    unchanged, and the two copies bring the row at the physical id of each old
    block to the row at that of the new one. The physical id is what
    [naive_physical_block_id] gives, the position among the ids of the device.
    Where the ids start at 0 that is the row the table leads to; with the
    reserved block of the HPU it is the row before, so that the data of the
    table's own row is not what is saved ([v0_swap_copies_another_row]). *)
Theorem v0_swap_roundtrip cfg {C D} (kv : list Z -> C) (e : engine (C := C)) seq t :
  0 < block_size cfg -> (forall w, max_block_sliding_window cfg = Some w -> 1 <= w) -> reachable cfg kv e ->
  block_tables (mgr e) !! seq_id seq = Some t -> _blocks t <> [] -> (Null ∉ _blocks t) ->
  len (_blocks t) <= get_num_free_blocks CPU (block_allocator (mgr e)) ->
  len (_blocks t) <= get_num_free_blocks GPU (block_allocator (mgr e)) ->
  exists out m1 back m2 t2,
    swap_seq cfg GPU CPU seq (mgr e) = Ret out m1 /\ swap_seq cfg CPU GPU seq m1 = Ret back m2 /\
    block_tables m2 !! seq_id seq = Some t2 /\ _blocks t2 = _blocks t /\
    (forall i, Obj GPU i ∈ _blocks t -> token_ids <$> pool_block GPU i (block_allocator m2) =
       token_ids <$> pool_block GPU i (block_allocator (mgr e))) /\
    (forall sid, sid <> seq_id seq -> block_tables m2 !! sid = block_tables (mgr e) !! sid) /\
    forall (gpu gpu' cpu : nat -> D) j b b2 x y,
      physical_block_ids t !! j = Some b -> physical_block_ids t2 !! j = Some b2 ->
      naive_physical_block_id b (_gpu_allocator (block_allocator (mgr e))) = Ok x ->
      naive_physical_block_id b2 (_gpu_allocator (block_allocator (mgr e))) = Ok y ->
      swap_blocks (swap_blocks gpu cpu (row_pairs out)) gpu' (row_pairs back) (Z.to_nat y) = gpu (Z.to_nat x).
Proof.
  intros Hbs Hwin Hr. destruct (reachable_manager cfg kv Hbs e Hwin Hr) as (V & nl & nids & Hm & _).
  by eapply swap_out_and_in.
Qed.

Lemma v0_swap_roundtrip_witness :
  len (_blocks (mkTable [Obj GPU 2; Obj GPU 3] [0%nat; 1%nat] None 3)) = 2 /\
  exists out m1 back m2 t2,
    swap_seq demo_config GPU CPU (grown_seq 1 3 3) (mgr demo_forked) = Ret out m1 /\
    swap_seq demo_config CPU GPU (grown_seq 1 3 3) m1 = Ret back m2 /\
    block_tables m2 !! 1 = Some t2 /\ _blocks t2 = [Obj GPU 2; Obj GPU 3].
Proof.
  split; [reflexivity|].
  destruct (v0_swap_roundtrip (D := Z) demo_config demo_kv demo_forked (grown_seq 1 3 3)
    (mkTable [Obj GPU 2; Obj GPU 3] [0%nat; 1%nat] None 3)) as (out & m1 & back & m2 & t2 & H1 & H2 & H3 & H4 & _).
  - done.
  - by intros w.
  - exact demo_forked_reachable.
  - vm_compute. reflexivity.
  - discriminate.
  - intros [H|[H|H%not_elem_of_nil]%elem_of_cons]%elem_of_cons; done.
  - vm_compute. intros H. discriminate H.
  - vm_compute. intros H. discriminate H.
  - exists out, m1, back, m2, t2. exact (conj H1 (conj H2 (conj H3 H4))).
Defined.

(** ** Physical block ids *)

Lemma find_seq r n b : (r <= b < r + n)%nat -> list_find (fun i => i = b) (seq r n) = Some ((b - r)%nat, b).
Proof.
  revert r. induction n as [|n IH]; intros r H; [lia|]. simpl. destruct (decide (r = b)) as [->|Hne].
  - by rewrite Nat.sub_diag.
  - rewrite IH by lia. simpl. do 2 f_equal. lia.
Qed.

Lemma index_sorted (X : gset nat) r n : X = list_to_set (seq r n) -> merge_sort Nat.le (elements X) = seq r n.
Proof.
  intros ->. apply (Sorted_unique Nat.le).
  - apply Sorted_merge_sort, _.
  - clear. revert r. induction n as [|n IH]; intros r; simpl; constructor; [apply IH|].
    destruct n; simpl; constructor. lia.
  - rewrite merge_sort_Permutation. apply elements_list_to_set, NoDup_seq.
Qed.

Lemma physical_position a r n b :
  _all_block_indices a = list_to_set (seq r n) -> (r <= b < r + n)%nat ->
  naive_physical_block_id b a = Ok (Z.of_nat (b - r)).
Proof. intros H Hb. unfold naive_physical_block_id. by rewrite (index_sorted _ r n), find_seq. Qed.

Lemma created_ids reserved num_gpu num_cpu a :
  create reserved num_gpu num_cpu = Ok a ->
  _all_block_indices (_gpu_allocator a) = list_to_set (seq reserved (num_gpu - reserved)) /\
  _all_block_indices (_cpu_allocator a) = list_to_set (seq num_gpu num_cpu).
Proof.
  unfold create. cbv zeta. destruct (reserved <=? num_gpu)%nat eqn:E; cbn [guard_or mbind result_mbind]; [|done].
  intros [= <-]. apply Nat.leb_le in E. cbn.
  replace (num_gpu + num_cpu - reserved)%nat with ((num_gpu - reserved) + num_cpu)%nat by lia.
  rewrite seq_app, take_app_length', drop_app_length' by (by rewrite length_seq).
  by replace (reserved + (num_gpu - reserved))%nat with num_gpu by lia.
Qed.

(** C25: The physical id of a block is its position among the ids of its device:
    for a GPU block the id less the reserved blocks (so on the HPU swapping
    copies the row before the one the table leads to), for a CPU block the id
    less the GPU blocks, and a ValueError on the wrong device. *)
Theorem v0_physical_block_ids reserved num_gpu num_cpu a b :
  create reserved num_gpu num_cpu = Ok a -> (reserved <= b < num_gpu + num_cpu)%nat ->
  naive_physical_block_id b (_gpu_allocator a) =
    (if decide (b < num_gpu)%nat then Ok (Z.of_nat (b - reserved)) else Err ValueError) /\
  naive_physical_block_id b (_cpu_allocator a) =
    (if decide (b < num_gpu)%nat then Err ValueError else Ok (Z.of_nat (b - num_gpu))).
Proof.
  intros Ha Hb. destruct (created_ids _ _ _ _ Ha) as [Hg Hc].
  assert (forall X r n, _all_block_indices X = list_to_set (seq r n) -> ~ (r <= b < r + n)%nat ->
    naive_physical_block_id b X = Err ValueError) as Hout.
  { intros X r n HX Hr. unfold naive_physical_block_id. rewrite (index_sorted _ r n HX).
    destruct (list_find _ _) as [[k x]|] eqn:E; [|done]. apply list_find_Some in E as (E & -> & _).
    apply list_elem_of_lookup_2, elem_of_seq in E. lia. }
  destruct (decide (b < num_gpu)%nat).
  - split; [eapply physical_position; [exact Hg|lia]|eapply Hout; [exact Hc|lia]].
  - split; [eapply Hout; [exact Hg|lia]|eapply physical_position; [exact Hc|lia]].
Qed.

Lemma v0_physical_block_ids_witness :
  exists a, create 1 4 2 = Ok a /\ naive_physical_block_id 3 (_gpu_allocator a) = Ok 2 /\
    naive_physical_block_id 3 (_cpu_allocator a) = Err ValueError.
Proof.
  eexists. split; [reflexivity|]. apply (v0_physical_block_ids 1 4 2 _ 3); [reflexivity|lia].
Defined.

(** ** Where the code departs from what it promises

    Each example runs the operations on a manager of a few blocks of two
    slots. *)

Definition outcome_error {S A} (x : outcome S A) : option exn :=
  match x with Ret _ _ => None | Raise e _ => Some e end.
Definition outcome_value {S A} (x : outcome S A) : option A :=
  match x with Ret a _ => Some a | Raise _ _ => None end.

(** With a sliding window [can_allocate] counts the blocks of the window, but
    [allocate] takes the blocks of the whole prompt. *)
Lemma v0_window_prompt_overcommits :
  let cfg := small_config 4 (Some 2) in
  let g := lone_group (fresh_seq 0 10 WAITING) in
  let m := started (init_manager 0 4 0) in
  can_allocate cfg g 0 m = Ok OK /\ outcome_error (allocate_group cfg g m) = Some NoFreeBlocksError.
Proof. vm_compute. by split. Qed.

(** [can_append_slots] does not count the block that the first append with a
    sliding window takes for the null block. *)
Lemma v0_null_block_not_counted :
  let cfg := small_config 2 (Some 2) in
  let m := after (allocate_group cfg (lone_group (fresh_seq 0 2 WAITING)) (started (init_manager 0 2 0))) in
  let s := grown_seq 0 3 2 in
  can_append_slots cfg (lone_group s) 0 m = Ok true /\
  outcome_error (append_slots cfg s 0 m) = Some NoFreeBlocksError.
Proof. vm_compute. by split. Qed.

(** A block object that was swapped out belongs to the allocator of its new id
    when it is freed: its position is then free twice in the pool of the CPU,
    and never again in the pool of the GPU that made it. *)
Lemma v0_free_of_swapped_mixes_pools :
  let cfg := small_config 2 None in
  let s := grown_seq 0 2 2 in
  let m := after (free_seq s (after (swap_out cfg (lone_group s)
             (after (allocate_group cfg (lone_group (fresh_seq 0 2 WAITING)) (started (init_manager 0 2 2))))))) in
  block_tables m = ∅ /\
  _free_ids (_block_pool (_cpu_allocator (block_allocator m))) = 0%nat :: List.seq 0 8 /\
  bool_decide (0%nat ∈ _free_ids (_block_pool (_gpu_allocator (block_allocator m)))) = false.
Proof. vm_compute. by split_and!. Qed.

(** After the sliding window has dropped blocks, forking follows [prev_block] to
    objects that were freed and have been used again: here they form a cycle. *)
Lemma v0_fork_after_window_fails :
  let cfg := small_config 8 (Some 2) in
  let m := after (append_slots cfg (grown_seq 0 11 10) 0
             (after (allocate_group cfg (lone_group (fresh_seq 0 10 WAITING)) (started (init_manager 0 8 0))))) in
  outcome_error (fork_seq cfg (grown_seq 0 11 10) (grown_seq 1 11 10) m) = Some RuntimeError.
Proof. vm_compute. reflexivity. Qed.

(** On the HPU the reserved block is part of the total, so that a prompt which
    needs every block of the total is told to wait, on an empty cache too. *)
Lemma v0_reserved_block_waits_forever :
  let cfg := small_config 3 None in
  let g := lone_group (fresh_seq 0 6 WAITING) in
  can_allocate cfg g 0 (started (init_manager 1 3 0)) = Ok LATER /\
  get_num_free_blocks GPU (block_allocator (started (init_manager 1 3 0)))
    = get_num_total_blocks GPU (block_allocator (started (init_manager 1 3 0))).
Proof. vm_compute. by split. Qed.

(** A sequence with a null block in its table cannot be swapped out, though
    [can_swap_out] says so. *)
Lemma v0_swap_of_null_block_fails :
  let cfg := small_config 8 (Some 2) in
  let s := grown_seq 0 11 10 in
  let m := after (append_slots cfg s 0
             (after (allocate_group cfg (lone_group (fresh_seq 0 10 WAITING)) (started (init_manager 0 8 8))))) in
  can_swap_out cfg (lone_group s) m = Ok true /\ outcome_error (swap_out cfg (lone_group s) m) = Some ValueError.
Proof. vm_compute. by split. Qed.

(** [can_swap_out] does not count the blocks allocated ahead for lookahead slots. *)
Lemma v0_swap_of_lookahead_overcommits :
  let cfg := small_config 4 None in
  let s := grown_seq 0 3 2 in
  let m := after (append_slots cfg s 2
             (after (allocate_group cfg (lone_group (fresh_seq 0 2 WAITING)) (started (init_manager 0 4 2))))) in
  can_swap_out cfg (lone_group s) m = Ok true /\
  outcome_error (swap_out cfg (lone_group s) m) = Some NoFreeBlocksError.
Proof. vm_compute. by split. Qed.

(** On the HPU swapping out copies a row that the table does not lead to. *)
Lemma v0_swap_copies_another_row :
  let cfg := small_config 3 None in
  let s := grown_seq 0 2 2 in
  let m := after (allocate_group cfg (lone_group (fresh_seq 0 2 WAITING)) (started (init_manager 1 3 2))) in
  get_block_table s m = Ok [1%nat] /\ outcome_value (swap_out cfg (lone_group s) m) = Some [(0, 0)].
Proof. vm_compute. by split. Qed.

(** Without tokens there is no chunk, but a block is said to be touched when the
    last one is partly full. *)
Lemma v0_touched_without_tokens :
  let t := mkTable [Obj GPU 0] [0%nat] None 1 in
  get_num_blocks_touched_by_append_slots 2 [] 0 t = 1 /\ _chunk_token_blocks_for_append 2 [] t = [].
Proof. vm_compute. by split. Qed.
