(* ===== verification/DecodeInputs.v ===== *)
(** The inputs of the decodes of a step
    ([src/vllm_gaudi/v1/worker/hpu_model_runner.py]): the flat positions and
    tokens of the batch, the rows of one token that a decode is padded to, the
    slots they write, and the block buffers of the paged attention. *)

From Stdlib Require Import ZArith Lia.
From stdpp Require Import base strings numbers gmap list.
From S2P Require Import Prelude.
From S2P Require Import PyOrder.
From S2P Require Import BucketRanges.
From S2P Require Import BucketGen.
From S2P Require Import BucketManager.
From S2P Require Import Numpy.
From S2P Require Import Defrag.
From S2P Require Import UnifiedBatch.
From S2P Require Import UnifiedAttention.

Open Scope list_scope.
Open Scope Z_scope.

(** ** Helpers *)

Definition flatten {A} (in_list : list (list A)) : list A := concat in_list.

(** An element per index, [v] where there is none. *)
Definition gather_list {A} (input : list A) (indices : list (option nat)) (v : A) : result (list A) :=
  mapM (fun i => match i with Some k => np_get input (Z.of_nat k) | None => Ok v end) indices.

Definition round_up (value k : Z) : Z := (value + k - 1) / k * k.

(** [pad_list] with a generator that repeats [v]. *)
Definition pad_list {A} (input : list A) (target_len : Z) (v : A) : list A :=
  input ++ replicate (Z.to_nat (target_len - len input)) v.

(** The attributes of the runner that the inputs of a step depend on. *)
Record StepRunner := mkStepRunner {
  run_config : RuntimeConfig;
  run_block_size : Z;
  unified_attn : bool;
  (** Set by [initialize_kv_cache]: the block after the last one of the pool,
      and its first slot. *)
  _PAD_BLOCK_ID : nat;
  _PAD_SLOT_ID : Z;
  max_prefill_batch_size : Z;
  max_num_tokens : Z;
  logits_rounding : Z;
  interleaved_sliding_window : bool;
  sliding_window : option Z
}.

Definition set_pads (num_blocks : nat) (r : StepRunner) : StepRunner :=
  mkStepRunner (run_config r) (run_block_size r) (unified_attn r) num_blocks (Z.of_nat num_blocks * run_block_size r)
    (max_prefill_batch_size r) (max_num_tokens r) (logits_rounding r) (interleaved_sliding_window r) (sliding_window r).

Section inputs.
(** What the ranks of data parallelism agree to add to a number. *)
Context (r : StepRunner) (get_dp_padding : Z -> Z).
Abbreviation bs := (run_block_size r).

(** ** The block buffers of the paged attention *)

(** The padding of one of the three lists: by block number when the cache is
    read from its start, at the end otherwise. *)
Definition padding_fn (indices : option (list (option nat))) (block_bucket_size : Z) (tensor : list Z) (pad_value : Z) : result (list Z) :=
  match indices with
  | Some indices => gather_list tensor indices pad_value
  | None => Ok (pad_list tensor block_bucket_size pad_value)
  end.

Record BlockBuffers := mkBuffers {
  block_list : list Z;
  block_groups : list Z;
  block_usage : list Z
}.

Definition get_habana_paged_attn_buffers (block_tables : list (list nat)) (slot_mapping : list (list Z)) (batch_size : Z) : MB BlockBuffers :=
  last_block_usage ← lift_result (mapM (fun slot => s ← np_get slot 0; Ok (s mod bs + 1)) slot_mapping);
  let groups := imap (fun i bt => replicate (length bt) (Z.of_nat i)) block_tables in
  let usages := (fun '(bt, lbu) => replicate (length bt - 1) bs ++ [lbu])
    <$> filter (fun p => p.1 <> []) (zip block_tables last_block_usage) in
  let blocks := flatten block_tables in
  let groups := flatten groups in
  let usages := flatten usages in
  py_assert (length blocks =? length groups)%nat;;
  py_assert (length blocks =? length usages)%nat;;
  let block_list := Z.of_nat <$> blocks in
  '(indices, size) ←
    (if use_contiguous_pa (run_config r) then
       highest ← lift_result (np_max block_list);
       bucket ← find_decode_bucket batch_size (Z.max (highest + 1) (len block_list)) false;
       let size := bucket.2 + get_dp_padding bucket.2 in
       indices ← lift_result (np_put (replicate (Z.to_nat size) None) (imap (fun i bid => (bid, Some i)) block_list));
       mret (Some indices, size)
     else
       bucket ← find_decode_bucket batch_size (len block_list) false;
       mret (None, bucket.2 + get_dp_padding bucket.2));
  block_list ← lift_result (padding_fn indices size block_list (Z.of_nat (_PAD_BLOCK_ID r)));
  block_groups ← lift_result (padding_fn indices size groups (-1));
  block_usage ← lift_result (padding_fn indices size usages 1);
  mret (mkBuffers block_list block_groups block_usage).

(** ** The rows of the decodes *)

(** [torch.split]: consecutive parts of the given sizes. *)
Fixpoint parts (l : list Z) (sizes : list Z) : list (list Z) :=
  match sizes with
  | [] => []
  | n :: sizes' => take (Z.to_nat n) l :: parts (drop (Z.to_nat n) l) sizes'
  end.
Definition torch_split (l : list Z) (sizes : list Z) : result (list (list Z)) :=
  guard_or (sumZ sizes =? len l) RuntimeError;; Ok (parts l sizes).

(** [pad_sequence]: rows as long as the longest. *)
Definition pad_sequence (rows : list (list Z)) (padding_value : Z) : list (list Z) :=
  (fun row => pad_list row (foldr Z.max 0 (len <$> rows)) padding_value) <$> rows.

(** The first [num_decodes] of [padded] rows of [num_tokens], the others of zeros. *)
Definition fill_rows (padded num_tokens : Z) (rows : list (list Z)) : result (list (list Z)) :=
  guard_or (len rows <=? padded) RuntimeError;;
  Ok (pad_list rows padded (replicate (Z.to_nat num_tokens) 0)).

(** Positions or tokens of the decodes as rows, from the flat array of the step. *)
Definition decode_rows (cpu : list Z) (num_decodes : nat) (total num_tokens padded : Z) (num_tokens_per_req : list Z) : result (list (list Z)) :=
  rows ←
    (if num_tokens =? 1 then
       guard_or (num_decodes <=? length cpu)%nat RuntimeError;;
       Ok ((fun x => [x]) <$> take num_decodes cpu)
     else
       rows ← torch_split (take (Z.to_nat total) cpu) num_tokens_per_req;
       Ok (take num_decodes (pad_sequence rows 0)));
  fill_rows padded num_tokens rows.

(** [torch.gather] along the rows of the block table. *)
Definition gather_blocks (block_table : list (list nat)) (index : list (list Z)) : result (list (list nat)) :=
  guard_or (length index <=? length block_table)%nat RuntimeError;;
  mapM (fun '(row, idx) => np_take row ((fun p => p / bs) <$> idx)) (zip block_table index).

(** The slots of the padding rows run through the padding block. *)
Definition dummy_row (num_tokens : nat) (k : nat) : list Z :=
  (fun j => _PAD_SLOT_ID r + (Z.of_nat (k * num_tokens + j)) mod bs) <$> seq 0 num_tokens.

(** One row per token. *)
Definition view_rows (num_tokens : Z) (rows : list (list Z)) : list (list Z) :=
  if 1 <? num_tokens then (fun x => [x]) <$> flatten rows else rows.

Definition make_slot_mapping (d : OnlineDefragmenter) (block_table : list (list nat)) (num_decodes : nat) (padded num_tokens : Z)
    (padded_index : list (list Z)) : result (list (list Z)) :=
  gathered ← gather_blocks block_table (take num_decodes padded_index);
  let block_number := pad_list gathered padded (replicate (Z.to_nat num_tokens) (_PAD_BLOCK_ID r)) in
  let block_number := (fun row : list nat => resolve d <$> row) <$> block_number in
  let slots := zip_with (zip_with (fun b p => Z.of_nat b * bs + p mod bs)) block_number padded_index in
  Ok (take num_decodes slots ++ imap (fun k _ => dummy_row (Z.to_nat num_tokens) k) (drop num_decodes slots)).

(** The blocks of the window: the last ones of a row. *)
Definition last_blocks {A} (n : Z) (l : list A) : list A :=
  if n =? 0 then l else drop (length l - Z.to_nat n) l.

Record DecodeInputData := mkDecodeInputData {
  num_decodes : nat;
  token_ids : list (list Z);
  position_ids : list (list Z);
  slot_mapping : list (list Z);
  buffers : BlockBuffers;
  window_buffers : option BlockBuffers;
  decode_logits_indices : list Z
}.

(** [_create_decode_input_data] of a model without M-RoPE. *)
Definition _create_decode_input_data (d : OnlineDefragmenter) (positions_cpu input_ids_cpu : list Z)
    (num_decodes : nat) (num_scheduled_tokens context_lens : list Z) (block_table : list (list nat)) : MB DecodeInputData :=
  let num_blocks := (fun c => cdiv (c + 1) bs) <$> context_lens in
  let num_tokens_per_req := take num_decodes num_scheduled_tokens in
  num_tokens ← lift_result (np_max num_tokens_per_req);
  bucket ← find_decode_bucket (Z.of_nat num_decodes) (sumZ num_blocks) (1 <? num_tokens);
  let padded := bucket.1.1 + get_dp_padding bucket.1.1 in
  let total := sumZ num_tokens_per_req in
  let num_tokens_per_req := pad_list num_tokens_per_req (len num_tokens_per_req + (padded - Z.of_nat num_decodes)) 0 in
  block_tables_list ← lift_result (mapM (fun '(i, n) =>
    row ← np_get block_table (Z.of_nat i);
    let seq_block_table := take (Z.to_nat n) row in
    guard_or (len seq_block_table =? n) AssertionError;;
    Ok (replicate (Z.to_nat num_tokens) seq_block_table)) (imap pair num_blocks));
  let block_tables_list := flatten block_tables_list in
  positions ← lift_result (decode_rows positions_cpu num_decodes total num_tokens padded num_tokens_per_req);
  token_ids ← lift_result (decode_rows input_ids_cpu num_decodes total num_tokens padded num_tokens_per_req);
  slot_mapping ← lift_result (make_slot_mapping d block_table num_decodes padded num_tokens positions);
  let token_ids := view_rows num_tokens token_ids in
  let positions := view_rows num_tokens positions in
  let slot_mapping := view_rows num_tokens slot_mapping in
  let query_start_loc := imap (fun i n => Z.of_nat i * num_tokens + n) (take num_decodes num_scheduled_tokens) in
  let logits_indices := pad_list ((fun q => q - 1) <$> query_start_loc) padded 0 in
  let block_tables_list := resolve_all d block_tables_list in
  buffers ← get_habana_paged_attn_buffers block_tables_list slot_mapping (padded * num_tokens);
  window ←
    match interleaved_sliding_window r, sliding_window r with
    | true, Some w =>
        if 0 <? w then
          let window_tables := last_blocks (w / bs) <$> block_tables_list in
          b ← get_habana_paged_attn_buffers window_tables slot_mapping (padded * num_tokens);
          mret (Some b)
        else raise NameError
    | _, _ => mret None
    end;
  mret (mkDecodeInputData num_decodes token_ids positions slot_mapping buffers window logits_indices).

(** A decode of one token, for a rank that has none while another has. *)
Definition _create_dummy_decode_input_data (d : OnlineDefragmenter) (positions_cpu input_ids_cpu : list Z) : MB DecodeInputData :=
  _create_decode_input_data d positions_cpu input_ids_cpu 1 [1] [128] [replicate (_PAD_BLOCK_ID r) 0%nat].

(** The data of the decodes, if there are any, and dummy data. *)
Definition _prepare_decode_inputs (d : OnlineDefragmenter) (positions_cpu input_ids_cpu : list Z) (num_decodes : nat)
    (num_scheduled_tokens num_computed_tokens : list Z) (block_table : list (list nat)) : MB (option DecodeInputData * option DecodeInputData) :=
  let num_pad_across_dp := get_dp_padding (Z.of_nat num_decodes) in
  if (num_decodes =? 0)%nat then
    if 0 <? num_pad_across_dp then
      dummy ← _create_dummy_decode_input_data d positions_cpu input_ids_cpu;
      mret (None, Some dummy)
    else mret (None, None)
  else
    data ← _create_decode_input_data d positions_cpu input_ids_cpu num_decodes num_scheduled_tokens (take num_decodes num_computed_tokens) block_table;
    mret (Some data, None).

End inputs.

(** ** The flat arrays of a step *)

Definition np_repeat {A} (l : list A) (counts : list Z) : result (list A) :=
  rows ← np_map2 (fun x n => replicate (Z.to_nat n) x) l counts; Ok (concat rows).

Definition _get_cumsum_and_arange (num_tokens : list Z) : result (list Z * list Z) :=
  let cu_num_tokens := np_cumsum num_tokens in
  total_num_tokens ← np_get cu_num_tokens (-1);
  starts ← np_map2 Z.sub cu_num_tokens num_tokens;
  cumsums_offsets ← np_repeat starts num_tokens;
  arange ← np_map2 Z.sub (np_arange total_num_tokens) cumsums_offsets;
  Ok (cu_num_tokens, arange).

(** The part of [_prepare_inputs] that fills [positions_cpu] and [input_ids_cpu]
    from the persistent batch. *)
Definition prepare_flat (num_computed_tokens num_scheduled_tokens : list Z) (token_ids : Table) : result (list Z * list Z) :=
  req_indices ← np_repeat (np_arange (len num_scheduled_tokens)) num_scheduled_tokens;
  '(_, arange) ← _get_cumsum_and_arange num_scheduled_tokens;
  computed ← np_take num_computed_tokens req_indices;
  positions ← np_map2 Z.add computed arange;
  input_ids ← fetch_2d token_ids req_indices positions;
  Ok (positions, input_ids).
