(* ===== verification/DecodeSpec.v ===== *)
(** What the decodes of a step read and write.

    The buffers of [DecodeInputs.get_habana_paged_attn_buffers], as the paged
    attention reads them, give a row exactly the slots of its own positions;
    the slots of the batch are where the new tokens belong. *)

From Stdlib Require Import ZArith Lia.
From stdpp Require Import base strings numbers gmap list.
From S2P Require Import Prelude.
From S2P Require Import PyOrder.
From S2P Require Import BucketRanges.
From S2P Require Import BucketGen.
From S2P Require Import BucketManager.
From S2P Require Import Numpy.
From S2P Require Import Defrag.
From S2P Require Import UnifiedBatch.
From S2P Require Import UnifiedAttention.
From S2P Require Import DecodeInputs.

Open Scope list_scope.
Open Scope Z_scope.

(** ** The buckets of the pool *)

(** A bucketing manager whose decode buckets have no more blocks than the pool. *)
Record pool_buckets (N : Z) (m : HPUBucketingManager) : Prop := {
  pb_lookup : lookup_inv m;
  pb_blocks : num_hpu_blocks m = Some N;
  pb_within : Forall (fun b : Bucket => b.2 <= N) (decode_buckets m)
}.

Lemma find_decode_ok N m batch_size nb seek : pool_buckets N m ->
  exists b m', find_decode_bucket batch_size nb seek m = Ret b m' /\ pool_buckets N m' /\
    batch_size <= b.1.1 /\ (nb <= N -> nb <= b.2) /\ (seek = false -> b.2 <= N).
Proof.
  intros [Hm HN Hw]. unfold find_decode_bucket, mbind, M_mbind, M_bind, get_state. rewrite (li_initialized m Hm).
  set (from := match seed_decode_buckets m with Some _ => _ | None => None end).
  destruct from as [b|] eqn:Ef.
  - exists b, m. split; [done|]. split; [done|]. unfold from in Ef.
    destruct (seed_decode_buckets m) as [seeds|] eqn:Es; [|done]. destruct seek; [|done].
    pose proof (find_bucket_ok seeds (batch_size, 1, nb) (li_seeds m Hm _ Es)) as Hf. rewrite Ef in Hf.
    destruct Hf as (_ & Hd & _). unfold dominates in Hd. simpl in Hd. split; [lia|]. split; [lia|done].
  - pose proof (find_bucket_ok (decode_buckets m) (batch_size, 1, nb) (li_decode m Hm)) as Hf.
    destruct (find_equal_or_closest_greater_config _ _) as [b|].
    + destruct Hf as (Hb & Hd & _). unfold dominates in Hd. simpl in Hd. exists b, m. split; [done|]. split; [done|].
      rewrite Forall_forall in Hw. specialize (Hw b Hb). simpl in Hw. split; [lia|]. split; [lia|done].
    + unfold generate_fallback_bucket.
      destruct (calc_fallback_value_ok batch_size (fallback_bs_base_step m) (li_bs_step m Hm)) as (b1 & -> & H1 & _).
      destruct (calc_fallback_value_ok 1 (fallback_seq_base_step m) (li_seq_step m Hm)) as (s1 & -> & H2 & _).
      destruct (calc_fallback_value_ok nb (fallback_blocks_base_step m) (li_blocks_step m Hm)) as (c1 & -> & H3 & _).
      cbn [mbind result_mbind]. rewrite HN.
      assert (exists q, (if BucketManager.use_sliding_window m && (slice_thld m <=? 1) then
         slices ← ceildiv 1 (BucketManager.slice_size m); Ok (slices * BucketManager.slice_size m)
         else Ok (Z.min s1 (BucketManager.max_num_batched_tokens m))) = Ok q) as [q ->].
      { destruct (BucketManager.use_sliding_window m && _) eqn:Es; [|by eexists]. apply andb_true_iff in Es as [Hs _].
        pose proof (li_slice m Hm Hs). rewrite ceildiv_ok by lia. by eexists. }
      cbn [mbind result_mbind]. unfold lift_result, modify. eexists (b1, q, Z.min c1 N), _. split; [done|]. split.
      * split; [by apply lookup_inv_decode, sorted_sorted|done|]. cbn [set_decode_buckets decode_buckets].
        rewrite sorted_perm. apply Forall_app. split; [done|]. apply Forall_singleton. simpl. lia.
      * simpl. split; [lia|]. split; lia.
Qed.

(** ** The entries of the buffers *)

Lemma fmap_zip_with {A B C D} (f : A -> B -> C) (g : C -> D) l k : g <$> zip_with f l k = zip_with (fun x y => g (f x y)) l k.
Proof. revert k. induction l as [|x l IH]; intros [|y k]; cbn; [done..|]. by rewrite IH. Qed.

Lemma elem_of_concat {A} (x : A) ls : x ∈ concat ls <-> exists l, l ∈ ls /\ x ∈ l.
Proof. rewrite list_elem_of_In, in_concat. by setoid_rewrite list_elem_of_In. Qed.

Section buffers.
Context (bs : Z) (Hbs : 0 < bs).

(** A block with the row it belongs to and how many of its slots that row reads. *)
Definition row_usages (n : nat) (u : Z) : list Z := replicate (n - 1) bs ++ [u].
Definition row_entries (g : Z) (bt : list nat) (u : Z) : list (nat * Z * Z) :=
  zip_with (fun b us => (b, g, us)) bt (row_usages (length bt) u).
Definition entries_of (h : nat -> Z) (tables : list (list nat)) (us : list Z) : list (nat * Z * Z) :=
  concat (imap (fun i p => row_entries (h i) p.1 p.2) (zip tables us)).

Lemma length_row_usages (bt : list nat) u : bt <> [] -> length (row_usages (length bt) u) = length bt.
Proof. intros H. unfold row_usages. rewrite length_app, length_replicate. destruct bt; [done|]. cbn. lia. Qed.

Lemma row_entries_components g bt u : bt <> [] ->
  (fun e => e.1.1) <$> row_entries g bt u = bt /\ (fun e => e.1.2) <$> row_entries g bt u = replicate (length bt) g /\
  (fun e => e.2) <$> row_entries g bt u = row_usages (length bt) u.
Proof.
  intros H. pose proof (length_row_usages bt u H) as Hl. unfold row_entries. revert Hl. generalize (row_usages (length bt) u). clear.
  induction bt as [|b bt IH]; intros [|x l] Hl; try done. cbn in Hl. destruct (IH l ltac:(lia)) as (H1 & H2 & H3).
  cbn. split_and!; f_equal; done.
Qed.

(** The three lists of the code are the components of the entries. *)
Lemma entries_lists h tables us : Forall (fun bt => bt <> []) tables -> (length tables <= length us)%nat ->
  flatten tables = (fun e => e.1.1) <$> entries_of h tables us /\
  flatten (imap (fun i bt => replicate (length bt) (h i)) tables) = (fun e => e.1.2) <$> entries_of h tables us /\
  flatten ((fun '(bt, lbu) => replicate (length bt - 1) bs ++ [lbu]) <$> filter (fun p => p.1 <> []) (zip tables us)) =
    (fun e => e.2) <$> entries_of h tables us.
Proof.
  unfold flatten, entries_of. revert h us. induction tables as [|bt tables IH]; intros h us Hne Hl; [done|].
  destruct us as [|u us]; [cbn in Hl; lia|]. apply Forall_cons in Hne as [Hb Hne]. cbn [zip zip_with imap].
  destruct (IH (h ∘ S) us Hne ltac:(cbn in Hl; lia)) as (H1 & H2 & H3).
  rewrite filter_cons_True by done. rewrite fmap_cons. cbn [concat fst snd]. rewrite !fmap_app.
  destruct (row_entries_components (h 0%nat) bt u Hb) as (-> & -> & ->).
  split; [|split]; f_equal; [apply H1|apply H2|apply H3].
Qed.

(** The slots that an entry lets its row read. *)
Definition entry_slots (b : Z) (u : Z) : list Z := (fun o => b * bs + o) <$> seqZ 0 u.
Definition row_slots (bt : list nat) (u : Z) : list Z :=
  concat (zip_with (fun b us => entry_slots (Z.of_nat b) us) bt (row_usages (length bt) u)).

Definition group_slots (g : Z) (e : nat * Z * Z) : list Z :=
  if e.1.2 =? g then entry_slots (Z.of_nat e.1.1) e.2 else [].

Lemma row_entries_slots g h bt u :
  concat (group_slots g <$> row_entries h bt u) = if h =? g then row_slots bt u else [].
Proof.
  unfold row_slots, row_entries. rewrite fmap_zip_with. unfold group_slots. cbn [fst snd].
  destruct (h =? g); [done|]. generalize (row_usages (length bt) u). clear.
  induction bt as [|b bt IH]; intros [|x l]; try done. cbn. apply IH.
Qed.

Lemma entries_other h tables us g : (forall j, (j < length tables)%nat -> h j <> g) ->
  concat (group_slots g <$> entries_of h tables us) = [].
Proof.
  unfold entries_of. revert h us. induction tables as [|bt tables IH]; intros h us Hh; [done|].
  destruct us as [|u us]; [done|]. cbn [zip zip_with imap concat]. rewrite fmap_app, concat_app, row_entries_slots. cbn [fst snd].
  rewrite (proj2 (Z.eqb_neq _ _)) by (apply Hh; cbn; lia). apply (IH (h ∘ S)). intros j Hj. apply Hh. cbn. lia.
Qed.

(** A row reads the blocks of its own table. *)
Lemma entries_slots h tables us (i : nat) bt u : (forall j, h j = h i -> j = i) ->
  tables !! i = Some bt -> us !! i = Some u ->
  concat (group_slots (h i) <$> entries_of h tables us) = row_slots bt u.
Proof.
  revert h us i. induction tables as [|bt' tables IH]; intros h us i Hh Ht Hu; [done|].
  destruct us as [|u' us]; [done|]. unfold entries_of. cbn [zip zip_with imap concat].
  rewrite fmap_app, concat_app, row_entries_slots. cbn [fst snd].
  fold (zip tables us). change (concat (imap _ (zip tables us))) with (entries_of (h ∘ S) tables us).
  destruct i as [|i]; cbn in Ht, Hu.
  - simplify_eq. rewrite Z.eqb_refl, entries_other, app_nil_r; [done|]. intros j _ E. by apply Hh in E.
  - rewrite (proj2 (Z.eqb_neq _ _)); [|intros E; by apply Hh in E]. cbn [app].
    apply (IH (h ∘ S) us i); [|done|done]. intros j E. apply Hh in E. lia.
Qed.

(** The slot of a position, from a row of blocks. *)
Definition slot_at (bt : list nat) (p : Z) : Z := Z.of_nat (bt !!! Z.to_nat (p / bs)) * bs + p mod bs.

Lemma slot_at_app bt bt' p : 0 <= p < len bt * bs -> slot_at (bt ++ bt') p = slot_at bt p.
Proof.
  intros Hp. unfold slot_at. rewrite lookup_total_app_l; [done|].
  assert (p / bs < len bt) by (apply Z.div_lt_upper_bound; lia). pose proof (Z.div_pos p bs ltac:(lia) Hbs). unfold len in *. lia.
Qed.

Lemma snoc_slots bt b n : 0 <= n <= bs ->
  entry_slots (Z.of_nat b) n = slot_at (bt ++ [b]) <$> seqZ (len bt * bs) n.
Proof.
  intros Hn. unfold entry_slots. assert (seqZ (len bt * bs) n = Z.add (len bt * bs) <$> seqZ 0 n) as ->
    by (by rewrite fmap_add_seqZ, Z.add_0_r).
  rewrite <- list_fmap_compose. apply list_fmap_ext. intros _ o Ho%list_elem_of_lookup_2%elem_of_seqZ. unfold slot_at, compose.
  rewrite (Z.add_comm (len bt * bs) o), Z.mod_add, Z.div_add, (Z.div_small o), (Z.mod_small o) by lia.
  rewrite lookup_total_app_r by (unfold len; lia). unfold len. rewrite Z.add_0_l, Nat2Z.id, Nat.sub_diag. done.
Qed.

Lemma full_slots bt : concat ((fun b => entry_slots (Z.of_nat b) bs) <$> bt) = slot_at bt <$> seqZ 0 (len bt * bs).
Proof.
  induction bt as [|b bt IH] using rev_ind; [done|]. pose proof (len_nonneg bt).
  rewrite fmap_app, concat_app, IH, fmap_cons. cbn [concat fmap list_fmap]. rewrite app_nil_r, (snoc_slots bt) by lia.
  rewrite len_app. change (len [b]) with 1. replace ((len bt + 1) * bs) with (len bt * bs + bs) by lia.
  rewrite seqZ_app, fmap_app by lia. f_equal. apply list_fmap_ext. intros _ p Hp%list_elem_of_lookup_2%elem_of_seqZ.
  symmetry. apply slot_at_app. lia.
Qed.

(** A row reads its positions, from the first to the last in use. *)
Lemma row_slots_positions bt u : bt <> [] -> 0 <= u <= bs ->
  row_slots bt u = slot_at bt <$> seqZ 0 ((len bt - 1) * bs + u).
Proof.
  intros Hne Hu. destruct bt as [|b bt _] using rev_ind; [done|]. pose proof (len_nonneg bt).
  unfold row_slots, row_usages. rewrite length_app. cbn [length]. rewrite Nat.add_sub.
  rewrite zip_with_app by (by rewrite length_replicate). rewrite concat_app. cbn [zip_with concat]. rewrite app_nil_r.
  rewrite len_app. change (len [b]) with 1. replace (len bt + 1 - 1) with (len bt) by lia.
  rewrite seqZ_app, fmap_app by nia. rewrite Z.add_0_l. f_equal; [|by apply snoc_slots].
  transitivity (slot_at bt <$> seqZ 0 (len bt * bs)).
  - rewrite <- full_slots. f_equal. clear. induction bt as [|b bt IH]; [done|]. cbn. by rewrite IH.
  - apply list_fmap_ext. intros _ p Hp%list_elem_of_lookup_2%elem_of_seqZ. symmetry. apply slot_at_app. lia.
Qed.

End buffers.

(** ** What a row of the paged attention reads *)

(** [attn_bias] of [_set_block_mapping]: the slots of a block that are masked. *)
Definition usage_mask (block_size usage : Z) : list bool := (fun o => usage <=? o) <$> seqZ 0 block_size.

(** The slots that row [g] reads: of every block with its number the ones that
    are not masked.  A contiguous cache is read from its start. *)
Definition attended_slots (contiguous : bool) (block_size : Z) (b : BlockBuffers) (g : Z) : list Z :=
  concat ((fun k => if block_groups b !!! k =? g then
      unmasked (usage_mask block_size (block_usage b !!! k))
        (block_slots block_size (if contiguous then Z.of_nat k else block_list b !!! k)) else [])
    <$> seq 0 (length (block_groups b))).

Lemma usage_mask_row block_size u : usage_mask block_size u = usage_row block_size u.
Proof.
  unfold usage_mask, usage_row. rewrite <- (fmap_add_seqZ 1 0), <- list_fmap_compose. apply list_fmap_ext.
  intros _ o _. unfold compose. destruct (Z.leb_spec u o), (Z.ltb_spec u (1 + o)); (done || lia).
Qed.

Lemma unmasked_entry bs u b : 0 <= u <= bs -> unmasked (usage_mask bs u) (block_slots bs b) = entry_slots bs b u.
Proof. intros Hu. rewrite usage_mask_row. by apply unmasked_usage. Qed.

(** Buffers that hold an entry, or padding, at every index. *)
Section reading.
Context (contiguous : bool) (bs : Z) (pad : Z) (size : nat) (ea : nat -> option (nat * Z * Z)).

Definition buffer_of (c : nat * Z * Z -> Z) (v : Z) : list Z := (fun k => from_option c v (ea k)) <$> seq 0 size.
Definition buffers_of : BlockBuffers :=
  mkBuffers (buffer_of (fun e => Z.of_nat e.1.1) pad) (buffer_of (fun e => e.1.2) (-1)) (buffer_of (fun e => e.2) 1).

Lemma lookup_buffer_of c v k : (k < size)%nat -> buffer_of c v !!! k = from_option c v (ea k).
Proof.
  intros Hk. apply list_lookup_total_correct. unfold buffer_of. by rewrite list_lookup_fmap, lookup_seq_lt.
Qed.

Lemma attended_entries g : 0 <= g ->
  (contiguous = true -> forall k e, ea k = Some e -> e.1.1 = k) -> (forall k e, ea k = Some e -> 0 <= e.2 <= bs) ->
  attended_slots contiguous bs buffers_of g = concat ((fun k => from_option (group_slots bs g) [] (ea k)) <$> seq 0 size).
Proof.
  intros Hg Hc Hu. unfold attended_slots, buffers_of. cbn [block_groups block_usage block_list].
  assert (Hl : length (buffer_of (fun e => e.1.2) (-1)) = size) by (unfold buffer_of; by rewrite length_fmap, length_seq).
  rewrite Hl. f_equal. apply fmap_seq_ext. intros k Hk. rewrite !lookup_buffer_of by done.
  destruct (ea k) as [e|] eqn:E; unfold from_option; [|destruct (Z.eqb_spec (-1) g); [lia|done]].
  unfold group_slots. destruct (e.1.2 =? g); [|done]. rewrite unmasked_entry by by eapply Hu.
  destruct contiguous; [|done]. by rewrite (Hc eq_refl k e).
Qed.

End reading.

(** Entries in order, and padding. *)
Lemma padded_buffer es c (v : Z) n :
  pad_list (c <$> es) n v = buffer_of (Nat.max (length es) (Z.to_nat n)) (fun k : nat => es !! k) c v.
Proof.
  unfold pad_list, buffer_of. unfold len. rewrite length_fmap. apply list_eq. intros k. rewrite list_lookup_fmap.
  destruct (decide (k < length es)%nat) as [Hk|Hk].
  - rewrite lookup_app_l by (by rewrite length_fmap). rewrite lookup_seq_lt by lia. cbn. rewrite list_lookup_fmap.
    by destruct (lookup_lt_is_Some_2 es k Hk) as [e ->].
  - rewrite lookup_app_r by (rewrite length_fmap; lia). rewrite length_fmap.
    destruct (decide (k < Z.to_nat n)%nat) as [Hn|Hn].
    + rewrite lookup_replicate_2 by lia. rewrite lookup_seq_lt by lia. cbn. by rewrite (lookup_ge_None_2 es) by lia.
    + rewrite lookup_seq_ge by lia. apply lookup_replicate_None. lia.
Qed.

Lemma padded_entries {A} (F : nat * Z * Z -> list A) es n : (length es <= n)%nat ->
  concat ((fun k => from_option F [] (es !! k)) <$> seq 0 n) = concat (F <$> es).
Proof.
  intros Hn. change (fun k => from_option F [] (es !! k)) with (at_or F [] es).
  rewrite <- (fmap_seq_pad (at_or F [] es) (length es) n []) by (done || (intros k Hk; apply at_or_out; lia)).
  rewrite concat_app, <- fmap_at_or. assert (forall m, concat (replicate m ([] : list A)) = []) as -> by (by induction m).
  by rewrite app_nil_r.
Qed.

(** Entries by block number. *)
Definition by_block (es : list (nat * Z * Z)) (k : nat) : option (nat * Z * Z) :=
  snd <$> list_find (fun e => e.1.1 = k) es.

Lemma by_block_Some es k e : by_block es k = Some e -> e ∈ es /\ e.1.1 = k.
Proof.
  unfold by_block. intros ([i e'] & (Hi & Hk & _)%list_find_Some & ->)%fmap_Some. split; [|done].
  by eapply list_elem_of_lookup_2.
Qed.

Lemma by_block_in es e : NoDup ((fun e => e.1.1) <$> es) -> e ∈ es -> by_block es e.1.1 = Some e.
Proof.
  intros Hnd [i Hi]%list_elem_of_lookup. unfold by_block.
  assert (list_find (fun e' : nat * Z * Z => e'.1.1 = e.1.1) es = Some (i, e)) as ->; [|done].
  apply list_find_Some. split; [done|]. split; [done|]. intros j y Hj Hji E.
  assert (j = i); [|lia]. eapply (NoDup_lookup ((fun e => e.1.1) <$> es)); [done|..];
    rewrite list_lookup_fmap; [by rewrite Hj|by rewrite Hi; cbn; rewrite E].
Qed.

Lemma by_block_None es k : (forall e, e ∈ es -> e.1.1 <> k) -> by_block es k = None.
Proof.
  intros H. unfold by_block. rewrite (proj2 (list_find_None _ _)); [done|]. apply Forall_forall. intros e He. by apply H.
Qed.

(** The index of every block, as the code writes it: the last one is kept. *)
Definition index_of (es : list (nat * Z * Z)) (k : nat) : option nat := fst <$> list_find (fun e => e.1.1 = k) es.

Lemma block_indices es size : NoDup ((fun e => e.1.1) <$> es) -> (forall e, e ∈ es -> (e.1.1 < size)%nat) ->
  np_put (replicate size None) (imap (fun i bid => (bid, Some i)) ((fun e => Z.of_nat e.1.1) <$> es)) =
  Ok (index_of es <$> seq 0 size).
Proof.
  intros Hnd Hlt. rewrite replicate_seq.
  assert (Hin : forall i x, (i, x) ∈ imap (fun i bid => (bid, Some i)) ((fun e : nat * Z * Z => Z.of_nat e.1.1) <$> es) <->
    exists j e, es !! j = Some e /\ i = Z.of_nat e.1.1 /\ x = Some j).
  { intros i x. rewrite list_elem_of_lookup. setoid_rewrite list_lookup_imap. split.
    - intros (j & Hj). apply fmap_Some in Hj as (b & Hb & [= -> ->]). rewrite list_lookup_fmap in Hb.
      apply fmap_Some in Hb as (e & He & ->). by exists j, e.
    - intros (j & e & He & -> & ->). exists j. by rewrite list_lookup_fmap, He. }
  apply np_put_fn.
  - intros i x (j & e & He & -> & ->)%Hin. exists e.1.1. pose proof (list_elem_of_lookup_2 _ _ _ He) as Hel. specialize (Hlt e Hel).
    rewrite np_index_ok by lia. rewrite Nat2Z.id. split; [done|]. unfold index_of.
    assert (list_find (fun e' : nat * Z * Z => e'.1.1 = e.1.1) es = Some (j, e)) as ->; [|done].
    apply list_find_Some. split; [done|]. split; [done|]. intros j' y Hj' Hji E.
    assert (j' = j); [|lia]. eapply (NoDup_lookup ((fun e => e.1.1) <$> es)); [done|..];
      rewrite list_lookup_fmap; [by rewrite Hj'|by rewrite He; cbn; rewrite E].
  - intros k Hk Hno. unfold index_of. destruct (list_find _ es) as [[j e]|] eqn:E; [|done]. exfalso.
    apply list_find_Some in E as (He & Hek & _). apply (Hno (Z.of_nat e.1.1) (Some j)); [apply Hin; by exists j, e|].
    rewrite np_index_ok by lia. by rewrite Nat2Z.id, Hek.
Qed.

Lemma gathered_buffer es size c v :
  gather_list (c <$> es) (index_of es <$> seq 0 size) v = Ok (buffer_of size (by_block es) c v).
Proof.
  unfold gather_list, buffer_of. rewrite (mapM_Ok _ (fun i : option nat => match i with Some j => default v (c <$> es !! j) | None => v end)).
  - f_equal. rewrite <- list_fmap_compose. apply fmap_seq_ext. intros k _. unfold compose, index_of, by_block.
    destruct (list_find _ es) as [[j e]|] eqn:E; [|done]. apply list_find_Some in E as (He & _). cbn. by rewrite He.
  - intros i (k & -> & Hk)%list_elem_of_fmap. unfold index_of. destruct (list_find _ es) as [[j e]|] eqn:E; [|done].
    apply list_find_Some in E as (He & _). cbn. rewrite He. cbn. apply np_get_ok. by rewrite list_lookup_fmap, He.
Qed.

Lemma contiguous_entries {A} (F : nat * Z * Z -> list A) es size :
  NoDup ((fun e => e.1.1) <$> es) -> (forall e, e ∈ es -> (e.1.1 < size)%nat) ->
  concat ((fun k => from_option F [] (by_block es k)) <$> seq 0 size) ≡ₚ concat (F <$> es).
Proof.
  intros Hnd Hlt. rewrite (concat_supported _ (fun e : nat * Z * Z => e.1.1) _ es).
  - assert (E : (fun c : nat * Z * Z => from_option F [] (by_block es c.1.1)) <$> es = F <$> es); [|by rewrite E].
    apply list_fmap_ext. intros i e He%list_elem_of_lookup_2. by rewrite by_block_in.
  - apply NoDup_seq.
  - done.
  - intros e He. apply elem_of_seq. specialize (Hlt e He). lia.
  - intros k _ Hk. rewrite by_block_None; [done|]. intros e He <-. apply Hk. by apply (list_elem_of_fmap_2 (fun e => e.1.1)).
Qed.

(** ** The buffers *)

(** What the ranks of data parallelism agree on: never less, and within the
    pool when every rank is. *)
Record padding_ok (N : Z) (dp : Z -> Z) : Prop := {
  po_nonneg : forall n, 0 <= dp n;
  po_within : forall n, n <= N -> n + dp n <= N
}.

(** Rows of blocks of a pool; no block twice when the cache is read from its start. *)
Record tables_ok (contiguous : bool) (N : Z) (tables : list (list nat)) : Prop := {
  to_some : tables <> [];
  to_rows : Forall (fun bt => bt <> []) tables;
  to_pool : Forall (fun b => Z.of_nat b < N) (flatten tables);
  to_unshared : contiguous = true -> NoDup (flatten tables)
}.

(** Buffers of a given length that describe rows of entries. *)
Record buffers_read (contiguous : bool) (bs N : Z) (tables : list (list nat)) (ss : list Z) (b : BlockBuffers) : Prop := {
  br_lengths : length (block_list b) = length (block_groups b) /\ length (block_usage b) = length (block_groups b);
  br_contiguous : contiguous = true -> len (block_groups b) <= N;
  br_usage : Forall (fun u => 1 <= u <= bs) (block_usage b);
  br_blocks : contiguous = false -> Forall (fun x => 0 <= x <= N) (block_list b);
  br_groups : Forall (fun g => g = -1 \/ 0 <= g < len tables) (block_groups b);
  br_rows : forall i bt s, tables !! i = Some bt -> ss !! i = Some s ->
    attended_slots contiguous bs b (Z.of_nat i) ≡ₚ slot_at bs bt <$> seqZ 0 ((len bt - 1) * bs + s mod bs + 1);
  br_others : forall g, len tables <= g -> attended_slots contiguous bs b g = []
}.

Section get_buffers.
Context (r : StepRunner) (dp : Z -> Z) (N : Z).
Abbreviation bs := (run_block_size r).
Abbreviation contiguous := (use_contiguous_pa (run_config r)).
Context (Hbs : 0 < bs) (Hpad : Z.of_nat (_PAD_BLOCK_ID r) = N) (Hdp : padding_ok N dp).

Definition usages_of (ss : list Z) : list Z := (fun s => s mod bs + 1) <$> ss.

Lemma usages_bound ss u : u ∈ usages_of ss -> 1 <= u <= bs.
Proof. intros (s & -> & _)%list_elem_of_fmap. pose proof (Z.mod_pos_bound s bs Hbs). lia. Qed.

Lemma entries_usage h tables us e : (forall u, u ∈ us -> 1 <= u <= bs) -> e ∈ entries_of bs h tables us -> 1 <= e.2 <= bs.
Proof.
  intros Hu. unfold entries_of. intros (l & (i & p & -> & Hp)%elem_of_lookup_imap & Hl)%elem_of_concat.
  apply list_elem_of_lookup_2 in Hp. destruct p as [bt u]. apply elem_of_zip_r in Hp. specialize (Hu u Hp).
  unfold row_entries in Hl. apply elem_of_zip_with in Hl as (b & x & -> & _ & Hx). cbn.
  unfold row_usages in Hx. apply elem_of_app in Hx as [[-> _]%elem_of_replicate|Hx%list_elem_of_singleton]; [lia|subst x; cbn; lia].
Qed.

Lemma entries_group h tables us e : e ∈ entries_of bs h tables us -> exists i, (i < length tables)%nat /\ e.1.2 = h i.
Proof.
  unfold entries_of. intros (l & (i & p & -> & Hp)%elem_of_lookup_imap & Hl)%elem_of_concat.
  exists i. split; [apply lookup_lt_Some in Hp; rewrite length_zip_with in Hp; lia|].
  unfold row_entries in Hl. apply elem_of_zip_with in Hl as (b & x & -> & _ & Hx). done.
Qed.

Lemma length_bounded (l : list nat) n : NoDup l -> Forall (fun b => Z.of_nat b < n) l -> len l <= Z.max 0 n.
Proof.
  intros Hnd Hb. unfold len. assert (length l <= length (seq 0 (Z.to_nat n)))%nat; [|rewrite length_seq in *; lia].
  apply submseteq_length, NoDup_submseteq; [done|]. intros b Hb'. apply elem_of_seq. rewrite Forall_forall in Hb. specialize (Hb b Hb'). lia.
Qed.

(** The computation of the buffers, over the entries it describes. *)
Lemma get_buffers_entries tables slots us es batch_size m : pool_buckets N m ->
  mapM (fun slot => s ← np_get slot 0; Ok (s mod bs + 1)) slots = Ok us ->
  flatten tables = (fun e => e.1.1) <$> es ->
  flatten (imap (fun i bt => replicate (length bt) (Z.of_nat i)) tables) = (fun e => e.1.2) <$> es ->
  flatten ((fun '(bt, lbu) => replicate (length bt - 1) bs ++ [lbu]) <$> filter (fun p => p.1 <> []) (zip tables us)) = (fun e => e.2) <$> es ->
  es <> [] -> (forall e, e ∈ es -> Z.of_nat e.1.1 < N) -> (contiguous = true -> NoDup ((fun e => e.1.1) <$> es)) ->
  exists size ea m',
    get_habana_paged_attn_buffers r dp tables slots batch_size m = Ret (buffers_of (Z.of_nat (_PAD_BLOCK_ID r)) size ea) m' /\
    pool_buckets N m' /\ (contiguous = true -> Z.of_nat size <= N) /\ (forall k e, ea k = Some e -> e ∈ es) /\
    (contiguous = true -> forall k e, ea k = Some e -> e.1.1 = k) /\
    forall A (F : nat * Z * Z -> list A), concat ((fun k => from_option F [] (ea k)) <$> seq 0 size) ≡ₚ concat (F <$> es).
Proof.
  intros Hm Hus E1 E2 E3 Hne Hin Hnd. unfold get_habana_paged_attn_buffers. rewrite Hus. unfold mbind, M_mbind, M_bind, py_assert, mret, M_mret, M_ret.
  unfold lift_result at 1. rewrite E1, E2, E3.
  rewrite !length_fmap, Nat.eqb_refl. cbv beta iota. rewrite <- list_fmap_compose. unfold compose.
  assert (Hlen : forall f : nat * Z * Z -> Z, len (f <$> es) = len es) by (intros; unfold len; by rewrite length_fmap).
  destruct contiguous eqn:Ec.
  - specialize (Hnd eq_refl). destruct (np_max_in ((fun e => Z.of_nat e.1.1) <$> es)) as (hi & Hhi & Hel); [by intros ?%fmap_nil_inv|].
    pose proof (np_max_ge _ _ Hhi) as Hge. unfold lift_result at 1. rewrite Hhi, Hlen.
    apply list_elem_of_fmap in Hel as (e0 & -> & He0). pose proof (Hin e0 He0).
    destruct (find_decode_ok N m batch_size (Z.max (Z.of_nat e0.1.1 + 1) (len es)) false Hm) as (b & m' & -> & Hm' & _ & Hb & Hb').
    assert (len es <= N).
    { rewrite <- (Hlen (fun e => Z.of_nat e.1.1)). unfold len. rewrite length_fmap. fold (len es).
      pose proof (length_bounded _ N Hnd) as Hlb. unfold len in *. rewrite length_fmap in Hlb.
      specialize (Hlb ltac:(apply Forall_fmap, Forall_forall; exact Hin)). lia. }
    specialize (Hb ltac:(lia)). specialize (Hb' eq_refl). pose proof (po_nonneg _ _ Hdp b.2). pose proof (po_within _ _ Hdp b.2 Hb').
    assert (Hlt : forall e, e ∈ es -> (e.1.1 < Z.to_nat (b.2 + dp b.2))%nat).
    { intros e He. pose proof (Hge (Z.of_nat e.1.1) ltac:(by apply (list_elem_of_fmap_2 (fun e => Z.of_nat e.1.1)))). lia. }
    unfold lift_result at 1. rewrite block_indices by done. unfold lift_result, padding_fn.
    rewrite !gathered_buffer. eexists _, _, m'. split; [reflexivity|]. split; [done|]. split; [lia|].
    split; [by intros k e [? _]%by_block_Some|]. split; [by intros _ k e [_ ?]%by_block_Some|].
    intros A F. by apply contiguous_entries.
  - destruct (find_decode_ok N m batch_size (len ((fun e => Z.of_nat e.1.1) <$> es)) false Hm) as (b & m' & -> & Hm' & _).
    unfold lift_result, padding_fn. rewrite !padded_buffer. eexists _, _, m'. split; [reflexivity|]. split; [done|].
    split; [done|]. split; [by intros k e He%list_elem_of_lookup_2|]. split; [done|].
    intros A F. rewrite padded_entries by lia. done.
Qed.

Lemma get_buffers_ok tables ss batch_size m : pool_buckets N m -> tables_ok contiguous N tables -> (length tables <= length ss)%nat ->
  exists b m', get_habana_paged_attn_buffers r dp tables ((fun s => [s]) <$> ss) batch_size m = Ret b m' /\ pool_buckets N m' /\
    buffers_read contiguous bs N tables ss b.
Proof.
  intros Hm [Hne Hrows Hpool Hnd] Hl. set (us := usages_of ss).
  assert (Hus : mapM (fun slot => s ← np_get slot 0; Ok (s mod bs + 1)) ((fun s => [s]) <$> ss) = Ok us).
  { rewrite (mapM_Ok _ (fun slot : list Z => slot !!! 0%nat mod bs + 1)).
    - unfold us, usages_of. by rewrite <- list_fmap_compose.
    - by intros slot (s & -> & _)%list_elem_of_fmap. }
  destruct (entries_lists bs Z.of_nat tables us Hrows) as (E1 & E2 & E3); [unfold us, usages_of; by rewrite length_fmap|].
  set (es := entries_of bs Z.of_nat tables us) in *.
  assert (Hu : forall e, e ∈ es -> 1 <= e.2 <= bs) by (intros e; apply entries_usage, usages_bound).
  assert (Hg : forall e, e ∈ es -> 0 <= e.1.2 < len tables).
  { intros e (i & Hi & ->)%entries_group. unfold len. lia. }
  assert (Hin : forall e, e ∈ es -> 0 <= Z.of_nat e.1.1 < N).
  { intros e He. rewrite E1 in Hpool. rewrite Forall_fmap, Forall_forall in Hpool. specialize (Hpool e He). cbn in Hpool. lia. }
  assert (Hrd : exists size ea m',
    get_habana_paged_attn_buffers r dp tables ((fun s => [s]) <$> ss) batch_size m = Ret (buffers_of (Z.of_nat (_PAD_BLOCK_ID r)) size ea) m' /\
    pool_buckets N m' /\ (contiguous = true -> Z.of_nat size <= N) /\ (forall k e, ea k = Some e -> e ∈ es) /\
    (contiguous = true -> forall k e, ea k = Some e -> e.1.1 = k) /\
    forall A (F : nat * Z * Z -> list A), concat ((fun k => from_option F [] (ea k)) <$> seq 0 size) ≡ₚ concat (F <$> es)).
  { apply (get_buffers_entries tables _ us es); try done.
    - intros Hes. rewrite Hes in E1. destruct tables as [|bt tables]; [done|]. apply Forall_cons in Hrows as [Hb _].
      destruct bt; [done|]. by apply (f_equal length) in E1.
    - intros e He. by apply Hin.
    - intros Ec. rewrite <- E1. by apply Hnd. }
  destruct Hrd as (size & ea & m' & -> & Hm' & Hsz & Hea & Hk & Hc). eexists _, m'. split; [done|]. split; [done|].
  assert (Hr : forall g, 0 <= g -> attended_slots contiguous bs (buffers_of (Z.of_nat (_PAD_BLOCK_ID r)) size ea) g ≡ₚ concat (group_slots bs g <$> es)).
  { intros g H0. rewrite attended_entries; [apply Hc|done|done|]. intros k e He%Hea%Hu. lia. }
  split.
  - unfold buffers_of, buffer_of. cbn. rewrite !length_fmap. done.
  - intros Ec. unfold len, buffers_of, buffer_of. cbn. rewrite length_fmap, length_seq. by apply Hsz.
  - apply Forall_fmap, Forall_forall. intros k _. cbn. destruct (ea k) as [e|] eqn:E; cbn; [by eapply Hu, Hea|lia].
  - intros _. apply Forall_fmap, Forall_forall. intros k _. cbn. destruct (ea k) as [e|] eqn:E; cbn; [|lia].
    apply Hea, Hin in E. lia.
  - apply Forall_fmap, Forall_forall. intros k _. cbn. destruct (ea k) as [e|] eqn:E; cbn; [right; by eapply Hg, Hea|by left].
  - intros i bt s Hi Hs. rewrite Hr by lia. unfold es. 
    rewrite (entries_slots bs Z.of_nat tables us i bt (s mod bs + 1)); [|intros; lia|done|unfold us, usages_of; by rewrite list_lookup_fmap, Hs].
    rewrite row_slots_positions; [by rewrite Z.add_assoc|done| |pose proof (Z.mod_pos_bound s bs Hbs); lia].
    rewrite Forall_forall in Hrows. apply Hrows. by eapply list_elem_of_lookup_2.
  - intros g Hge. pose proof (len_nonneg tables). apply Permutation_nil_r. rewrite Hr by lia.
    unfold es. rewrite entries_other; [done|]. intros j Hj. unfold len in Hge. lia.
Qed.

End get_buffers.
