(* ===== verification/DecodeRows.v ===== *)
(** The rows of the decodes of a step: positions, tokens, slots and tables.

    [DecodeInputs._create_decode_input_data] over a batch of decodes, with the
    arrays it builds as functions of the request and of the token. *)

From Stdlib Require Import ZArith Lia.
From stdpp Require Import base strings numbers gmap list.
From S2P Require Import Prelude.
From S2P Require Import PyOrder.
From S2P Require Import BucketRanges.
From S2P Require Import BucketGen.
From S2P Require Import BucketManager.
From S2P Require Import Numpy.
From S2P Require Import Defrag.
From S2P Require Import UnifiedBatch.
From S2P Require Import UnifiedAttention.
From S2P Require Import DecodeInputs.
From S2P Require Import DecodeSpec.

Open Scope list_scope.
Open Scope Z_scope.

(** ** Rows of tokens *)

Lemma fmap_concat {A B} (f : A -> B) (ls : list (list A)) :
  (f <$> concat ls : list B) = concat ((fun l : list A => (f <$> l : list B)) <$> ls).
Proof. induction ls as [|l ls IH]; [done|]. cbn [concat]. rewrite fmap_app, IH. done. Qed.

Lemma parts_concat (rows : list (list Z)) k :
  parts (concat rows) ((len <$> rows) ++ replicate k 0) = rows ++ replicate k [].
Proof.
  induction rows as [|row rows IH]; cbn [concat fmap list_fmap app parts].
  - induction k as [|k IH]; [done|]. cbn [replicate parts]. by rewrite take_nil, drop_nil, IH.
  - unfold len at 1. rewrite Nat2Z.id, take_app_length. f_equal. unfold len at 1. by rewrite Nat2Z.id, drop_app_length.
Qed.

Lemma max_of_lengths (ls : list Z) T : np_max ls = Ok T -> Forall (fun x => 0 <= x) ls -> foldr Z.max 0 ls = T.
Proof.
  intros HT Hp. assert (Hge := np_max_ge _ _ HT).
  destruct (np_max_in ls) as (T' & HT' & Hin); [by intros ->|]. rewrite HT in HT'. injection HT' as <-.
  apply Z.le_antisymm.
  - rewrite Forall_forall in Hp. pose proof (Hp T Hin). clear -Hge H. induction ls as [|x ls IH]; cbn; [done|].
    pose proof (Hge x ltac:(left)). specialize (IH ltac:(intros; apply Hge; by right)). lia.
  - clear -Hin. induction ls as [|x ls IH]; [by apply not_elem_of_nil in Hin|]. cbn.
    apply elem_of_cons in Hin as [->|Hin]; [lia|]. specialize (IH Hin). lia.
Qed.

Lemma foldr_max_zeros ls k : foldr Z.max 0 (ls ++ replicate k 0) = foldr Z.max 0 ls.
Proof. rewrite foldr_app. f_equal. induction k as [|k IH]; [done|]. cbn. lia. Qed.

Lemma sumZ_len (rows : list (list Z)) : sumZ (len <$> rows) = len (concat rows).
Proof. induction rows as [|row rows IH]; [done|]. rewrite fmap_cons. cbn [concat]. rewrite len_app, <- IH. done. Qed.

Lemma concat_singletons (rows : list (list Z)) : Forall (fun row => len row = 1) rows -> (fun x => [x]) <$> concat rows = rows.
Proof.
  induction rows as [|row rows IH]; intros H; [done|]. apply Forall_cons in H as [Hr H]. cbn [concat]. rewrite fmap_app, IH by done.
  unfold len in Hr. destruct row as [|x [|]]; cbn in Hr; (lia || done).
Qed.

Lemma pad_list_full {A} (l : list A) n v : n <= len l -> pad_list l n v = l.
Proof. intros H. unfold pad_list. replace (Z.to_nat (n - len l)) with 0%nat by lia. apply app_nil_r. Qed.

Lemma fmap_pad_full {A} (rows : list (list A)) n v : (forall row, row ∈ rows -> n <= len row) ->
  (fun row => pad_list row n v) <$> rows = rows.
Proof.
  intros H. rewrite <- (list_fmap_id rows) at 2. apply list_fmap_ext. intros _ row Hr%list_elem_of_lookup_2.
  by apply pad_list_full, H.
Qed.

(** The rows of a flat array, padded: one code path for one token per request,
    another for several, with the same result. *)
Lemma decode_rows_ok (rows : list (list Z)) rest T padded :
  np_max (len <$> rows) = Ok T -> Forall (fun row => 1 <= len row) rows -> len rows <= padded ->
  decode_rows (concat rows ++ rest) (length rows) (sumZ (len <$> rows)) T padded
    (pad_list (len <$> rows) (len rows + (padded - len rows)) 0) =
  Ok (pad_list ((fun row => pad_list row T 0) <$> rows) padded (replicate (Z.to_nat T) 0)).
Proof.
  intros HT Hpos Hpad. unfold decode_rows. pose proof (np_max_ge _ _ HT) as Hge.
  assert (Hle : forall row, row ∈ rows -> 1 <= len row <= T).
  { intros row Hr. rewrite Forall_forall in Hpos. split; [by apply Hpos|]. apply Hge. by apply list_elem_of_fmap_2. }
  assert (Hfill : forall k : list (list Z), length k = length rows ->
    fill_rows padded T k = Ok (pad_list k padded (replicate (Z.to_nat T) 0))).
  { intros k Hk. unfold fill_rows, guard_or, len. rewrite Hk. rewrite (proj2 (Z.leb_le _ _)) by done. done. }
  destruct (Z.eqb_spec T 1) as [->|HT1].
  - assert (H1 : Forall (fun row => len row = 1) rows).
    { apply Forall_forall. intros row Hr. specialize (Hle row Hr). lia. }
    assert (Hl : length (concat rows) = length rows).
    { rewrite <- (concat_singletons rows H1) at 2. by rewrite length_fmap. }
    unfold guard_or. rewrite (proj2 (Nat.leb_le _ _)) by (rewrite length_app; lia). cbn [mbind result_mbind].
    rewrite <- Hl, take_app_length, concat_singletons by done. rewrite Hfill by done. f_equal. f_equal.
    symmetry. apply fmap_pad_full. intros row Hr. specialize (Hle row Hr). lia.
  - unfold torch_split. assert (Hsum : sumZ (pad_list (len <$> rows) (len rows + (padded - len rows)) 0) = sumZ (len <$> rows)).
    { unfold pad_list. rewrite sumZ_app, sumZ_replicate. lia. }
    assert (Htake : take (Z.to_nat (sumZ (len <$> rows))) (concat rows ++ rest) = concat rows).
    { rewrite sumZ_len. unfold len. by rewrite Nat2Z.id, take_app_length. }
    rewrite Htake, Hsum, sumZ_len, Z.eqb_refl. cbn [guard_or mbind result_mbind].
    unfold pad_list at 1. rewrite parts_concat. unfold pad_sequence. rewrite !fmap_app, !fmap_replicate.
    rewrite foldr_max_zeros. rewrite (max_of_lengths _ T) by (done || (apply Forall_fmap, Forall_forall; intros; apply len_nonneg)).
    rewrite take_app_length' by (by rewrite length_fmap). by rewrite Hfill by (by rewrite length_fmap).
Qed.

(** The rows of the windows. *)
Lemma last_blocks_drop {A} k (l : list A) : 0 <= k -> last_blocks k l = drop (Z.to_nat (if k =? 0 then 0 else len l - k)) l.
Proof. intros Hk. unfold last_blocks, len. destruct (Z.eqb_spec k 0) as [->|]; [done|]. f_equal. lia. Qed.

(** ** A batch of decodes *)

Section batch.
Context (r : StepRunner) (d : OnlineDefragmenter).
Abbreviation bs := (run_block_size r).
(** The requests, their computed and scheduled tokens, and the block table. *)
Context (n : nat) (cs ns : list Z) (table : list (list nat)).

Definition computed (i : nat) : Z := cs !!! i.
Definition scheduled (i : nat) : Z := ns !!! i.

(** The position of token [j] of request [i]; a padding token has position 0. *)
Definition position (i j : nat) : Z := if decide (Z.of_nat j < scheduled i) then computed i + Z.of_nat j else 0.

(** The slot of a position of request [i], after the renaming of its blocks. *)
Definition slot_of (i : nat) (p : Z) : Z := slot_at bs (resolve d <$> table !!! i) p.

(** Decodes whose blocks are in the table. *)
Record decodes_ok : Prop := {
  do_some : (0 < n)%nat;
  do_computed : length cs = n;
  do_scheduled : (n <= length ns)%nat;
  do_table : (n <= length table)%nat;
  do_positive : forall i, (i < n)%nat -> 1 <= scheduled i;
  do_nonneg : forall i, (i < n)%nat -> 0 <= computed i;
  do_blocks : forall i, (i < n)%nat -> (computed i + scheduled i - 1) / bs < len (table !!! i)
}.

Context (Hbs : 0 < bs) (Hok : decodes_ok) (T : Z) (HT : np_max (take n ns) = Ok T).
Abbreviation T' := (Z.to_nat T).

Lemma scheduled_le i : (i < n)%nat -> 1 <= scheduled i <= T.
Proof.
  intros Hi. split; [by apply do_positive|]. apply (np_max_ge _ _ HT). unfold scheduled.
  pose proof (do_scheduled Hok). apply list_elem_of_lookup. exists i. rewrite lookup_take_lt by done.
  apply list_lookup_lookup_total_lt. lia.
Qed.

Lemma T_pos : 1 <= T.
Proof. pose proof (scheduled_le 0 (do_some Hok)). lia. Qed.

Lemma take_scheduled : take n ns = scheduled <$> seq 0 n.
Proof.
  pose proof (do_scheduled Hok). apply list_eq. intros i. rewrite list_lookup_fmap. destruct (decide (i < n)%nat).
  - rewrite lookup_take_lt, lookup_seq_lt by done. cbn. apply list_lookup_lookup_total_lt. lia.
  - rewrite lookup_take_ge, lookup_seq_ge by lia. done.
Qed.

Lemma computed_seq : cs = computed <$> seq 0 n.
Proof. rewrite <- (do_computed Hok). apply as_seq. Qed.

Lemma position_bound i j : (i < n)%nat -> 0 <= position i j /\ position i j / bs < len (table !!! i).
Proof.
  intros Hi. pose proof (do_nonneg Hok i Hi). pose proof (do_blocks Hok i Hi) as Hb. pose proof (do_positive Hok i Hi).
  unfold position. destruct (decide _) as [Hj|Hj].
  - split; [lia|]. eapply Z.le_lt_trans; [|exact Hb]. apply Z.div_le_mono; lia.
  - split; [done|]. rewrite Z.div_0_l by lia. eapply Z.le_lt_trans; [|exact Hb]. apply Z.div_pos; lia.
Qed.

(** The row of positions of a request, padded. *)
Lemma position_row i : (i < n)%nat -> pad_list (seqZ (computed i) (scheduled i)) T 0 = position i <$> seq 0 T'.
Proof.
  intros Hi. pose proof (scheduled_le i Hi) as Hs. unfold pad_list, len. rewrite length_seqZ.
  apply list_eq. intros j. rewrite list_lookup_fmap. unfold position. destruct (decide (j < Z.to_nat (scheduled i))%nat).
  - rewrite lookup_app_l by (rewrite length_seqZ; lia). rewrite lookup_seqZ_lt, lookup_seq_lt by lia. cbn. by rewrite decide_True by lia.
  - rewrite lookup_app_r by (rewrite length_seqZ; lia). rewrite length_seqZ. destruct (decide (j < T')%nat).
    + rewrite lookup_replicate_2, lookup_seq_lt by lia. cbn. by rewrite decide_False by lia.
    + rewrite lookup_seq_ge by lia. apply lookup_replicate_None. lia.
Qed.

Lemma slot_at_resolved bt p : 0 <= p -> p / bs < len bt ->
  slot_at bs (resolve d <$> bt) p = Z.of_nat (resolve d (bt !!! Z.to_nat (p / bs))) * bs + p mod bs.
Proof.
  intros Hp Hb. pose proof (Z.div_pos p bs Hp Hbs). unfold slot_at, len in *. f_equal. f_equal. f_equal.
  apply list_lookup_total_correct. rewrite list_lookup_fmap.
  by rewrite (list_lookup_lookup_total_lt bt (Z.to_nat (p / bs))) by lia.
Qed.

Lemma gather_ok :
  gather_blocks r table ((fun i => position i <$> seq 0 T') <$> seq 0 n) =
  Ok ((fun i => (fun j => (table !!! i) !!! Z.to_nat (position i j / bs)) <$> seq 0 T') <$> seq 0 n).
Proof.
  pose proof (do_table Hok) as Ht. unfold gather_blocks, guard_or. rewrite length_fmap, length_seq, (proj2 (Nat.leb_le _ _)) by done.
  cbn [mbind result_mbind].
  assert (Hz : zip table ((fun i => position i <$> seq 0 T') <$> seq 0 n) = (fun i => (table !!! i, position i <$> seq 0 T')) <$> seq 0 n).
  { apply list_eq. intros i. rewrite list_lookup_fmap, lookup_zip_with, list_lookup_fmap. destruct (decide (i < n)%nat).
    - rewrite lookup_seq_lt by done. rewrite (list_lookup_lookup_total_lt table i) by lia. done.
    - rewrite lookup_seq_ge by lia. by destruct (table !! i). }
  rewrite Hz. rewrite (mapM_Ok _ (fun p : list nat * list Z => (fun q => p.1 !!! Z.to_nat (q / bs)) <$> p.2)).
  - f_equal. rewrite <- list_fmap_compose. apply fmap_seq_ext. intros i _. unfold compose. cbn [fst snd]. by rewrite <- list_fmap_compose.
  - intros [bt idx] (i & [= -> ->] & Hi%elem_of_seq)%list_elem_of_fmap. cbn [fst snd]. rewrite <- list_fmap_compose.
    rewrite np_take_fmap.
    + by rewrite <- list_fmap_compose.
    + intros j _. destruct (position_bound i j ltac:(lia)) as [H1 H2]. split; [by apply Z.div_pos|done].
Qed.

Definition pad_rows (padded : Z) : nat := Z.to_nat (padded - Z.of_nat n).

Lemma pad_seq {A} (f : nat -> A) padded v :
  pad_list (f <$> seq 0 n) padded v = (f <$> seq 0 n) ++ replicate (pad_rows padded) v.
Proof. unfold pad_list, len, pad_rows. by rewrite length_fmap, length_seq. Qed.

Lemma take_seq_app {A} (f : nat -> A) l : take n ((f <$> seq 0 n) ++ l) = f <$> seq 0 n.
Proof. rewrite take_app_length'; [done|]. by rewrite length_fmap, length_seq. Qed.
Lemma drop_seq_app {A} (f : nat -> A) l : drop n ((f <$> seq 0 n) ++ l) = l.
Proof. rewrite drop_app_length'; [done|]. by rewrite length_fmap, length_seq. Qed.

Definition decode_slots (padded : Z) : list (list Z) :=
  ((fun i => (fun j => slot_of i (position i j)) <$> seq 0 T') <$> seq 0 n) ++ (dummy_row r T' <$> seq 0 (pad_rows padded)).

Lemma slot_mapping_ok padded :
  make_slot_mapping r d table n padded T (pad_list ((fun i => position i <$> seq 0 T') <$> seq 0 n) padded (replicate T' 0)) =
  Ok (decode_slots padded).
Proof.
  unfold make_slot_mapping. rewrite pad_seq, take_seq_app, gather_ok. cbn [mbind result_mbind].
  rewrite pad_seq, fmap_app, <- list_fmap_compose, fmap_replicate.
  rewrite zip_with_app by (by rewrite !length_fmap, !length_seq).
  assert (Hz : zip_with (zip_with (fun b p => Z.of_nat b * bs + p mod bs))
      (((fun row : list nat => resolve d <$> row) ∘ (fun i => (fun j => (table !!! i) !!! Z.to_nat (position i j / bs)) <$> seq 0 T')) <$> seq 0 n)
      ((fun i => position i <$> seq 0 T') <$> seq 0 n) =
    (fun i => (fun j => slot_of i (position i j)) <$> seq 0 T') <$> seq 0 n).
  { rewrite zip_with_fmap_same. apply fmap_seq_ext. intros i Hi. unfold compose. rewrite <- list_fmap_compose, zip_with_fmap_same.
    apply fmap_seq_ext. intros j _. unfold compose, slot_of. destruct (position_bound i j Hi) as [H1 H2]. by rewrite slot_at_resolved. }
  rewrite Hz, take_seq_app, drop_seq_app. f_equal. unfold decode_slots. f_equal.
  apply list_eq. intros k. rewrite list_lookup_imap, list_lookup_fmap. destruct (decide (k < pad_rows padded)%nat).
  - rewrite lookup_seq_lt by done. rewrite lookup_zip_with, !lookup_replicate_2 by done. done.
  - rewrite lookup_seq_ge by lia. rewrite lookup_zip_with, (lookup_ge_None_2 (replicate _ (resolve d <$> _))); [done|].
    rewrite length_replicate. lia.
Qed.

Lemma decode_slots_width padded row : row ∈ decode_slots padded -> length row = T'.
Proof.
  unfold decode_slots. intros [(i & -> & _)%list_elem_of_fmap|(k & -> & _)%list_elem_of_fmap]%elem_of_app;
    unfold dummy_row; by rewrite length_fmap, length_seq.
Qed.

(** One row per token, whatever the width. *)
Lemma view_rows_ok (rows : list (list Z)) : (forall row, row ∈ rows -> length row = T') ->
  view_rows T rows = (fun x => [x]) <$> concat rows.
Proof.
  intros Hw. unfold view_rows. pose proof T_pos. destruct (Z.ltb_spec 1 T) as [?|?]; [done|].
  symmetry. apply concat_singletons, Forall_forall. intros row Hr. unfold len. rewrite (Hw row Hr). lia.
Qed.

Lemma lookup_view (rows : list (list Z)) i j row : (forall row, row ∈ rows -> length row = T') -> rows !! i = Some row -> (j < T')%nat ->
  view_rows T rows !! (i * T' + j)%nat = (fun x => [x]) <$> row !! j.
Proof. intros Hw Hi Hj. rewrite view_rows_ok by done. by rewrite list_lookup_fmap, (lookup_concat rows T' i j row). Qed.

(** ** The tables *)

Definition num_blocks_of (i : nat) : Z := computed i / bs + 1.
Definition read_table (i : nat) : list nat := take (Z.to_nat (num_blocks_of i)) (resolve d <$> table !!! i).
Definition decode_tables : list (list nat) := concat ((fun i => replicate T' (read_table i)) <$> seq 0 n).

Lemma num_blocks_ok i : (i < n)%nat -> cdiv (computed i + 1) bs = num_blocks_of i /\ 1 <= num_blocks_of i <= len (table !!! i).
Proof.
  intros Hi. pose proof (do_nonneg Hok i Hi) as Hc. pose proof (do_positive Hok i Hi). pose proof (do_blocks Hok i Hi).
  pose proof (cdiv_spec (computed i + 1) bs Hbs). pose proof (Z.div_pos (computed i) bs Hc Hbs).
  pose proof (Z.mul_div_le (computed i) bs Hbs). pose proof (Z.mul_succ_div_gt (computed i) bs Hbs).
  assert (computed i / bs <= (computed i + scheduled i - 1) / bs) by (apply Z.div_le_mono; lia).
  unfold num_blocks_of. split; [nia|lia].
Qed.

Lemma length_read_table i : (i < n)%nat -> len (read_table i) = num_blocks_of i.
Proof.
  intros Hi. destruct (num_blocks_ok i Hi) as [_ Hb]. unfold read_table, len in *. rewrite length_take, length_fmap. lia.
Qed.

Lemma tables_list_ok :
  mapM (fun '(i, k) =>
    row ← np_get table (Z.of_nat i);
    let seq_block_table := take (Z.to_nat k) row in
    guard_or (len seq_block_table =? k) AssertionError;;
    Ok (replicate (Z.to_nat T) seq_block_table)) (imap pair ((fun c => cdiv (c + 1) bs) <$> cs)) =
  Ok ((fun i => replicate T' (take (Z.to_nat (num_blocks_of i)) (table !!! i))) <$> seq 0 n).
Proof.
  assert (Hi : imap pair ((fun c => cdiv (c + 1) bs) <$> cs) = (fun i => (i, num_blocks_of i)) <$> seq 0 n).
  { rewrite computed_seq, <- list_fmap_compose. apply list_eq. intros i. rewrite list_lookup_imap, !list_lookup_fmap.
    destruct (decide (i < n)%nat) as [Hi|Hi]; [|by rewrite lookup_seq_ge by lia]. rewrite lookup_seq_lt by done.
    change (Some (i, cdiv (computed i + 1) bs) = Some (i, num_blocks_of i)). by rewrite (proj1 (num_blocks_ok i Hi)). }
  rewrite Hi. rewrite (mapM_Ok _ (fun p : nat * Z => replicate T' (take (Z.to_nat p.2) (table !!! p.1)))).
  - by rewrite <- list_fmap_compose.
  - intros [i k] (i' & [= -> ->] & Hi'%elem_of_seq)%list_elem_of_fmap. cbn [fst snd]. pose proof (do_table Hok).
    destruct (num_blocks_ok i' ltac:(lia)) as [_ Hb].
    rewrite (np_get_ok table i' (table !!! i')) by (apply list_lookup_lookup_total_lt; lia). cbn [mbind result_mbind].
    unfold guard_or, len in *. rewrite length_take. rewrite (proj2 (Z.eqb_eq _ _)) by lia. done.
Qed.

Lemma resolved_tables :
  resolve_all d (flatten ((fun i => replicate T' (take (Z.to_nat (num_blocks_of i)) (table !!! i))) <$> seq 0 n)) = decode_tables.
Proof.
  unfold resolve_all, flatten, decode_tables. rewrite fmap_concat, <- list_fmap_compose. f_equal. apply fmap_seq_ext. intros i _.
  unfold compose, read_table. by rewrite fmap_replicate, fmap_take.
Qed.

Lemma lookup_tables i j : (i < n)%nat -> (j < T')%nat -> decode_tables !! (i * T' + j)%nat = Some (read_table i).
Proof.
  intros Hi Hj. unfold decode_tables. rewrite (lookup_concat _ T' i j (replicate T' (read_table i))).
  - by rewrite lookup_replicate_2.
  - intros row (i' & -> & _)%list_elem_of_fmap. by rewrite length_replicate.
  - by rewrite list_lookup_fmap, lookup_seq_lt.
  - done.
Qed.

Lemma length_decode_tables : length decode_tables = (n * T')%nat.
Proof.
  unfold decode_tables. generalize n. clear. intros n. induction n as [|n IH]; [done|].
  rewrite seq_S, fmap_app, concat_app, length_app, IH. cbn. rewrite app_nil_r, length_replicate. lia.
Qed.

(** ** The whole *)

Context (N : Z) (dp : Z -> Z) (Hdp : padding_ok N dp) (Hpad : Z.of_nat (_PAD_BLOCK_ID r) = N).
Abbreviation contiguous := (use_contiguous_pa (run_config r)).

(** The blocks that the decodes read: of the pool, and none twice when the
    cache is read from its start. *)
Record blocks_ready : Prop := {
  rd_pool : forall i b, (i < n)%nat -> b ∈ read_table i -> Z.of_nat b < N;
  rd_unshared : contiguous = true -> T = 1 /\ NoDup (concat (read_table <$> seq 0 n))
}.

Lemma decode_tables_ok : blocks_ready -> tables_ok contiguous N decode_tables.
Proof.
  intros [Hpool Hun]. pose proof T_pos. pose proof (do_some Hok). split.
  - intros E. apply (f_equal length) in E. rewrite length_decode_tables in E. cbn in E. nia.
  - apply Forall_forall. intros bt (l & (i & -> & Hi%elem_of_seq)%list_elem_of_fmap & [-> _]%elem_of_replicate)%elem_of_concat E.
    pose proof (length_read_table i ltac:(lia)) as Hl. rewrite E in Hl. destruct (num_blocks_ok i ltac:(lia)) as [_ ?]. unfold len in Hl.
    cbn in Hl. lia.
  - apply Forall_forall. intros b (bt & (l & (i & -> & Hi%elem_of_seq)%list_elem_of_fmap & [-> _]%elem_of_replicate)%elem_of_concat & Hb)%elem_of_concat.
    eapply (Hpool i); [lia|done].
  - intros Hc. destruct (Hun Hc) as [HT1 Hnd]. unfold decode_tables, flatten. rewrite HT1. change (Z.to_nat 1) with 1%nat.
    assert (E : concat ((fun i => replicate 1 (read_table i)) <$> seq 0 n) = read_table <$> seq 0 n); [|by rewrite E].
    generalize (seq 0 n). clear. intros l. induction l as [|i l IH]; [done|]. cbn. f_equal. apply IH.
Qed.

Definition window_start (w : Z) (i : nat) : Z := if w =? 0 then 0 else Z.max 0 (num_blocks_of i - w).

Lemma window_tables_ok w tables : 0 <= w -> tables_ok contiguous N tables -> tables_ok contiguous N (last_blocks w <$> tables).
Proof.
  intros Hw [H1 H2 H3 H4].
  assert (Hs : flatten (last_blocks w <$> tables) `sublist_of` flatten tables).
  { clear -Hw. induction tables as [|bt tables IH]; [done|]. cbn. apply sublist_app; [|done]. rewrite last_blocks_drop by done. apply sublist_drop. }
  split.
  - by intros ?%fmap_nil_inv.
  - rewrite Forall_fmap. eapply Forall_impl; [exact H2|]. intros bt Hbt. cbn. rewrite last_blocks_drop by done. intros E.
    apply (f_equal length) in E. rewrite length_drop in E. destruct bt as [|b bt]; [done|]. unfold len in E. cbn in E.
    destruct (Z.eqb_spec w 0); cbn in E; lia.
  - rewrite Forall_forall in H3 |- *. intros b Hb. apply H3. by eapply sublist_subseteq.
  - intros Hc. by eapply sublist_NoDup; [apply H4|].
Qed.

(** The tokens that the batch schedules, as rows. *)
Context (ids : nat -> list Z) (Hids : forall i, (i < n)%nat -> len (ids i) = scheduled i).

Definition flat_positions : list Z := concat ((fun i => seqZ (computed i) (scheduled i)) <$> seq 0 n).
Definition flat_ids : list Z := concat (ids <$> seq 0 n).

(** The result over the rows [i * T + j] of token [j] of request [i]. *)
Record decode_result (padded : Z) (out : DecodeInputData) : Prop := {
  dr_padded : Z.of_nat n <= padded;
  dr_rows : length (slot_mapping out) = (Z.to_nat padded * T')%nat;
  dr_tokens : forall i j, (i < n)%nat -> Z.of_nat j < scheduled i -> token_ids out !! (i * T' + j)%nat = Some [ids i !!! j];
  dr_positions : forall i j, (i < n)%nat -> (j < T')%nat -> position_ids out !! (i * T' + j)%nat = Some [position i j];
  dr_slots : forall i j, (i < n)%nat -> (j < T')%nat -> slot_mapping out !! (i * T' + j)%nat = Some [slot_of i (position i j)];
  dr_dummies : forall k, (n * T' <= k < Z.to_nat padded * T')%nat ->
    slot_mapping out !! k = Some [_PAD_SLOT_ID r + (Z.of_nat (k - n * T')) mod bs];
  dr_buffers : buffers_read contiguous bs N decode_tables (concat (decode_slots padded)) (buffers out);
  dr_window : forall w, interleaved_sliding_window r = true -> sliding_window r = Some w -> exists b, window_buffers out = Some b /\
    buffers_read contiguous bs N (last_blocks (w / bs) <$> decode_tables) (concat (decode_slots padded)) b;
  dr_logits : forall i, (i < n)%nat -> decode_logits_indices out !! i = Some (Z.of_nat i * T + scheduled i - 1)
}.

Lemma flat_rows (f : nat -> list Z) (rest : list Z) padded : (forall i, (i < n)%nat -> len (f i) = scheduled i) -> Z.of_nat n <= padded ->
  decode_rows (concat (f <$> seq 0 n) ++ rest) n (sumZ (take n ns)) T padded
    (pad_list (take n ns) (len (take n ns) + (padded - Z.of_nat n)) 0) =
  Ok (pad_list ((fun i => pad_list (f i) T 0) <$> seq 0 n) padded (replicate T' 0)).
Proof.
  intros Hf Hp. assert (E : take n ns = len <$> (f <$> seq 0 n)).
  { rewrite take_scheduled, <- list_fmap_compose. apply fmap_seq_ext. intros i Hi. symmetry. by apply Hf. }
  assert (Hn : length (f <$> seq 0 n) = n) by (by rewrite length_fmap, length_seq).
  assert (Hl : len (f <$> seq 0 n) = Z.of_nat n) by (unfold len; by rewrite Hn).
  assert (Hl' : len (len <$> (f <$> seq 0 n)) = Z.of_nat n) by (unfold len at 1; by rewrite length_fmap, Hn).
  pose proof (decode_rows_ok (f <$> seq 0 n) rest T padded) as H. rewrite Hl, Hn in H.
  rewrite E, Hl'. rewrite E in HT. rewrite H.
  - by rewrite <- list_fmap_compose.
  - done.
  - apply Forall_fmap, Forall_forall. intros i Hi%elem_of_seq. cbn. rewrite Hf by lia. apply do_positive; [done|lia].
  - done.
Qed.

Lemma lookup_padded_rows (f : nat -> list Z) padded i j x : (forall i, (i < n)%nat -> length (f i) = T') -> (i < n)%nat -> (j < T')%nat ->
  f i !! j = Some x ->
  view_rows T (pad_list (f <$> seq 0 n) padded (replicate T' 0)) !! (i * T' + j)%nat = Some [x].
Proof.
  intros Hf Hi Hj Hx. rewrite pad_seq. rewrite (lookup_view _ i j (f i)); [by rewrite Hx| |..|done].
  - intros row [(k & -> & Hk%elem_of_seq)%list_elem_of_fmap|[-> _]%elem_of_replicate]%elem_of_app; [apply Hf; lia|].
    by rewrite length_replicate.
  - rewrite lookup_app_l by (by rewrite length_fmap, length_seq). by rewrite list_lookup_fmap, lookup_seq_lt.
Qed.

Lemma length_decode_slots padded : Z.of_nat n <= padded -> length (concat (decode_slots padded)) = (Z.to_nat padded * T')%nat.
Proof.
  intros Hp. assert (H : forall rows : list (list Z), (forall row, row ∈ rows -> length row = T') -> length (concat rows) = (length rows * T')%nat).
  { induction rows as [|row rows IH]; intros Hw; [done|]. cbn. rewrite length_app, IH by (intros; apply Hw; by right).
    by rewrite (Hw row) by left. }
  rewrite H by apply decode_slots_width. f_equal. unfold decode_slots, pad_rows.
  rewrite length_app, !length_fmap, !length_seq. lia.
Qed.

Lemma lookup_decode_slots padded i j : (i < n)%nat -> (j < T')%nat ->
  concat (decode_slots padded) !! (i * T' + j)%nat = Some (slot_of i (position i j)).
Proof.
  intros Hi Hj. rewrite (lookup_concat _ T' i j ((fun j => slot_of i (position i j)) <$> seq 0 T')); [|apply decode_slots_width| |done].
  - by rewrite list_lookup_fmap, lookup_seq_lt.
  - unfold decode_slots. rewrite lookup_app_l by (by rewrite length_fmap, length_seq). by rewrite list_lookup_fmap, lookup_seq_lt.
Qed.

Lemma lookup_dummy padded k : (n * T' <= k < Z.to_nat padded * T')%nat ->
  concat (decode_slots padded) !! k = Some (_PAD_SLOT_ID r + (Z.of_nat (k - n * T')) mod bs).
Proof.
  intros Hk. pose proof T_pos. set (m := (k - n * T')%nat). pose proof (Nat.div_mod m T' ltac:(lia)) as Hm.
  pose proof (Nat.mod_upper_bound m T' ltac:(lia)) as Hj. set (q := (m / T')%nat) in *. set (j := (m mod T')%nat) in *.
  assert (Hq : (q < pad_rows padded)%nat).
  { apply Nat.Div0.div_lt_upper_bound. unfold pad_rows, m. nia. }
  replace k with ((n + q) * T' + j)%nat by (unfold m in Hm; nia).
  rewrite (lookup_concat _ T' (n + q) j (dummy_row r T' q)); [|apply decode_slots_width| |done].
  - unfold dummy_row. rewrite list_lookup_fmap, lookup_seq_lt by done. cbn -[Z.of_nat]. do 4 f_equal. lia.
  - unfold decode_slots. rewrite lookup_app_r by (rewrite length_fmap, length_seq; lia). rewrite length_fmap, length_seq.
    rewrite list_lookup_fmap, lookup_seq_lt by lia. cbn. do 2 f_equal. lia.
Qed.

Lemma wp_find_decode batch_size nb seek (Q : Bucket -> HPUBucketingManager -> Prop) m : pool_buckets N m ->
  (forall b m', pool_buckets N m' -> batch_size <= b.1.1 -> Q b m') -> wp (find_decode_bucket batch_size nb seek) Q m.
Proof. intros Hm HQ. destruct (find_decode_ok N m batch_size nb seek Hm) as (b & m' & E & H & Hb & _). by apply (wp_intro _ _ _ b m' E), HQ. Qed.

Lemma wp_get_buffers tables ss batch_size (Q : BlockBuffers -> HPUBucketingManager -> Prop) m : pool_buckets N m ->
  tables_ok contiguous N tables -> (length tables <= length ss)%nat ->
  (forall b m', pool_buckets N m' -> buffers_read contiguous bs N tables ss b -> Q b m') ->
  wp (get_habana_paged_attn_buffers r dp tables ((fun s => [s]) <$> ss) batch_size) Q m.
Proof.
  intros Hm Ht Hl HQ. destruct (get_buffers_ok r dp N Hbs Hpad Hdp tables ss batch_size m Hm Ht Hl) as (b & m' & E & H & Hb).
  by apply (wp_intro _ _ _ b m' E), HQ.
Qed.

(** A window, when there is one, has at least one token. *)
Definition window_ok : Prop := interleaved_sliding_window r = true -> forall w, sliding_window r = Some w -> 0 < w.

Lemma create_decode_ok rest rest' m : pool_buckets N m -> blocks_ready -> window_ok ->
  wp (_create_decode_input_data r dp d (flat_positions ++ rest) (flat_ids ++ rest') n ns cs table)
    (fun out m' => pool_buckets N m' /\ exists padded, decode_result padded out) m.
Proof.
  intros Hm Hrd Hwin. pose proof (decode_tables_ok Hrd) as Htab. pose proof T_pos as HT1.
  unfold _create_decode_input_data. cbv zeta.
  apply wp_bind, (wp_lift _ T); [done|]. apply wp_bind, wp_find_decode; [done|]. intros bk m1 Hm1 Hbk.
  set (padded := bk.1.1 + dp bk.1.1). assert (Hp : Z.of_nat n <= padded) by (pose proof (po_nonneg _ _ Hdp bk.1.1); lia).
  apply wp_bind. eapply wp_lift; [apply tables_list_ok|]. cbv beta.
  apply wp_bind. eapply wp_lift.
  { apply (flat_rows (fun i => seqZ (computed i) (scheduled i)) rest padded); [|done]. intros i Hi. unfold len.
    rewrite length_seqZ. pose proof (scheduled_le i Hi). lia. }
  apply wp_bind. eapply wp_lift; [by apply (flat_rows ids rest' padded)|].
  rewrite (fmap_seq_ext (fun i => pad_list (seqZ (computed i) (scheduled i)) T 0) (fun i => position i <$> seq 0 T') n)
    by (intros i Hi; by apply position_row).
  apply wp_bind. eapply wp_lift; [apply slot_mapping_ok|].
  rewrite (view_rows_ok (decode_slots padded)) by apply decode_slots_width. rewrite resolved_tables.
  assert (Hlen : (length decode_tables <= length (concat (decode_slots padded)))%nat).
  { rewrite length_decode_tables, length_decode_slots by done. nia. }
  apply wp_bind, wp_get_buffers; [done..|]. intros b m2 Hm2 Hb.
  apply wp_bind, (wp_mono _ (fun ow m' => pool_buckets N m' /\ forall w, interleaved_sliding_window r = true -> sliding_window r = Some w ->
    exists b, ow = Some b /\ buffers_read contiguous bs N (last_blocks (w / bs) <$> decode_tables) (concat (decode_slots padded)) b)).
  { destruct (interleaved_sliding_window r) eqn:Ei; [|by apply wp_ret]. destruct (sliding_window r) as [w|] eqn:Ew; [|by apply wp_ret].
    pose proof (Hwin Ei w Ew) as H0. rewrite (proj2 (Z.ltb_lt _ _)) by done. apply wp_bind, wp_get_buffers; [done| |by rewrite length_fmap|].
    - apply window_tables_ok; [by apply Z.div_pos; lia|done].
    - intros wb m3 Hm3 Hwb. apply wp_ret. split; [done|]. intros w' _ [= <-]. by exists wb. }
  intros ow m3 [Hm3 Hwb]. apply wp_ret. split; [done|]. exists padded.
  split; cbn [slot_mapping token_ids position_ids buffers window_buffers decode_logits_indices].
  - done.
  - by rewrite length_fmap, length_decode_slots.
  - intros i j Hi Hj. pose proof (scheduled_le i Hi). apply (lookup_padded_rows (fun i => pad_list (ids i) T 0)); [|done|lia|].
    + intros k Hk. unfold pad_list. rewrite length_app, length_replicate. pose proof (Hids k Hk) as E. unfold len in *.
      pose proof (scheduled_le k Hk). lia.
    + unfold pad_list. pose proof (Hids i Hi) as E. unfold len in E. rewrite lookup_app_l by lia. apply list_lookup_lookup_total_lt. lia.
  - intros i j Hi Hj. apply (lookup_padded_rows (fun i => position i <$> seq 0 T')); [|done..|].
    + intros k _. by rewrite length_fmap, length_seq.
    + by rewrite list_lookup_fmap, lookup_seq_lt.
  - intros i j Hi Hj. by rewrite list_lookup_fmap, lookup_decode_slots.
  - intros k Hk. by rewrite list_lookup_fmap, lookup_dummy.
  - done.
  - done.
  - intros i Hi. unfold pad_list. rewrite take_scheduled. rewrite lookup_app_l.
    + rewrite list_lookup_fmap, list_lookup_imap, list_lookup_fmap, lookup_seq_lt by done. done.
    + by rewrite length_fmap, length_imap, length_fmap, length_seq.
Qed.

(** ** What the rows read *)

Lemma perm_of_eq {A} (l k : list A) : l = k -> l ≡ₚ k.
Proof. by intros ->. Qed.

(** The rows of request [i] read its positions below this, for a row at [p]. *)
Definition read_upto (i : nat) (p : Z) : Z := computed i / bs * bs + p mod bs + 1.
Definition window_first (i : nat) (k : Z) : Z := (if k =? 0 then 0 else Z.max 0 (num_blocks_of i - k)) * bs.

Lemma slot_of_mod i p : slot_of i p mod bs = p mod bs.
Proof. unfold slot_of, slot_at. rewrite Z.add_comm, Z.mod_add, Z.mod_mod by lia. done. Qed.

Lemma read_table_slots i p : (i < n)%nat -> 0 <= p < num_blocks_of i * bs -> slot_at bs (read_table i) p = slot_of i p.
Proof.
  intros Hi Hp. unfold slot_of. rewrite <- (take_drop (Z.to_nat (num_blocks_of i)) (resolve d <$> table !!! i)).
  symmetry. apply slot_at_app; [done|]. fold (read_table i). by rewrite length_read_table.
Qed.

Lemma read_upto_range i j : (i < n)%nat -> 0 < read_upto i (position i j) <= num_blocks_of i * bs.
Proof.
  intros Hi. unfold read_upto, num_blocks_of. pose proof (Z.mod_pos_bound (position i j) bs Hbs).
  pose proof (Z.div_pos (computed i) bs (do_nonneg Hok i Hi) Hbs). nia.
Qed.

Lemma row_reads padded b i j : buffers_read contiguous bs N decode_tables (concat (decode_slots padded)) b ->
  (i < n)%nat -> (j < T')%nat ->
  attended_slots contiguous bs b (Z.of_nat (i * T' + j)) ≡ₚ slot_of i <$> seqZ 0 (read_upto i (position i j)).
Proof.
  intros Hb Hi Hj. rewrite (br_rows _ _ _ _ _ _ Hb (i * T' + j) (read_table i) (slot_of i (position i j)))
    by (by apply lookup_tables || by apply lookup_decode_slots).
  rewrite slot_of_mod, length_read_table by done. unfold read_upto. replace (num_blocks_of i - 1) with (computed i / bs) by (unfold num_blocks_of; lia).
  pose proof (read_upto_range i j Hi) as Hr. unfold read_upto in Hr. apply perm_of_eq, list_fmap_ext.
  intros _ p Hp%list_elem_of_lookup_2%elem_of_seqZ. apply read_table_slots; [done|lia].
Qed.

Lemma slot_at_drop bt k p : 0 <= k -> 0 <= p -> slot_at bs (drop (Z.to_nat k) bt) p = slot_at bs bt (k * bs + p).
Proof.
  intros Hk Hp. pose proof (Z.div_pos p bs Hp Hbs). unfold slot_at. rewrite Z.div_add_l by lia. rewrite (Z.add_comm (k * bs)), Z.mod_add by lia.
  do 3 f_equal. rewrite lookup_total_drop. f_equal. lia.
Qed.

Lemma row_reads_window padded b i j k : 0 <= k ->
  buffers_read contiguous bs N (last_blocks k <$> decode_tables) (concat (decode_slots padded)) b ->
  (i < n)%nat -> (j < T')%nat ->
  attended_slots contiguous bs b (Z.of_nat (i * T' + j)) ≡ₚ
    slot_of i <$> seqZ (window_first i k) (read_upto i (position i j) - window_first i k).
Proof.
  intros Hk Hb Hi Hj. rewrite (br_rows _ _ _ _ _ _ Hb (i * T' + j) (last_blocks k (read_table i)) (slot_of i (position i j)))
    by (by rewrite list_lookup_fmap, lookup_tables || by apply lookup_decode_slots).
  pose proof (length_read_table i Hi) as Hl. rewrite slot_of_mod, last_blocks_drop, Hl by done.
  set (f := if k =? 0 then 0 else num_blocks_of i - k). destruct (num_blocks_ok i Hi) as [_ [H1 _]].
  assert (Hf : 0 <= Z.max 0 f < num_blocks_of i) by (unfold f; destruct (Z.eqb_spec k 0); lia).
  assert (Hw : window_first i k = Z.max 0 f * bs) by (unfold window_first, f; destruct (k =? 0); lia). rewrite Hw.
  replace (Z.to_nat f) with (Z.to_nat (Z.max 0 f)) by lia.
  assert (Hlen : len (drop (Z.to_nat (Z.max 0 f)) (read_table i)) = num_blocks_of i - Z.max 0 f).
  { unfold len in *. rewrite length_drop. lia. }
  rewrite Hlen. unfold read_upto. pose proof (Z.mod_pos_bound (position i j) bs Hbs).
  replace ((num_blocks_of i - Z.max 0 f - 1) * bs + position i j mod bs + 1)
    with (computed i / bs * bs + position i j mod bs + 1 - Z.max 0 f * bs) by (unfold num_blocks_of; lia).
  apply perm_of_eq. rewrite <- (Z.add_0_r (Z.max 0 f * bs)) at 2. rewrite <- fmap_add_seqZ, <- list_fmap_compose.
  apply list_fmap_ext. intros _ p Hp%list_elem_of_lookup_2%elem_of_seqZ. unfold compose. rewrite slot_at_drop by lia.
  apply read_table_slots; [done|]. unfold num_blocks_of in *. nia.
Qed.

End batch.

(** ** The flat arrays of the step *)

Lemma repeat_groups k counts : Forall (fun c => 0 <= c) counts ->
  concat (zip_with (fun x n => replicate (Z.to_nat n) x) (seqZ (Z.of_nat k) (len counts)) counts) = (fun t => Z.of_nat t.1) <$> tokens_from k counts.
Proof.
  intros Hc. revert k. induction Hc as [|c counts Hc0 Hc IH]; intros k; [done|]. pose proof (len_nonneg counts).
  rewrite len_cons, seqZ_cons by lia. cbn [zip_with concat tokens_from]. rewrite fmap_app, <- list_fmap_compose. f_equal.
  - unfold compose. cbn. rewrite <- (length_seqZ 0 c). generalize (seqZ 0 c). intros l. induction l as [|x l IHl]; [done|]. cbn. by rewrite IHl.
  - replace (Z.succ (Z.of_nat k)) with (Z.of_nat (S k)) by lia. replace (Z.pred (1 + len counts)) with (len counts) by lia. apply IH.
Qed.

Lemma arange_offsets s k counts : Forall (fun c => 0 <= c) counts ->
  zip_with Z.sub (seqZ s (sumZ counts)) (concat (zip_with (fun x n => replicate (Z.to_nat n) x) (zip_with Z.sub (cumsum_from s counts) counts) counts)) =
  snd <$> tokens_from k counts.
Proof.
  intros Hc. revert s k. induction Hc as [|c counts Hc0 Hc IH]; intros s k; [done|]. pose proof (sumZ_nonneg counts Hc).
  cbn [cumsum_from zip_with concat tokens_from sumZ foldr]. fold (sumZ counts). rewrite seqZ_app by lia.
  rewrite zip_with_app by (by rewrite length_seqZ, length_replicate). rewrite fmap_app, <- list_fmap_compose. f_equal; [|apply IH].
  replace (s + c - c) with s by lia. assert (seqZ s c = Z.add s <$> seqZ 0 c) as -> by (by rewrite fmap_add_seqZ, Z.add_0_r).
  unfold compose. cbn [snd]. rewrite <- (length_seqZ 0 c) at 1. generalize (seqZ 0 c). intros l. induction l as [|x l IHl]; [done|].
  cbn. rewrite IHl. f_equal. lia.
Qed.

Lemma length_cumsum_tokens s k counts : Forall (fun c => 0 <= c) counts ->
  length (concat (zip_with (fun x n => replicate (Z.to_nat n) x) (zip_with Z.sub (cumsum_from s counts) counts) counts)) =
  length (tokens_from k counts).
Proof.
  intros Hc. revert s k. induction Hc as [|c counts Hc0 Hc IH]; intros s k; [done|]. cbn [cumsum_from zip_with concat tokens_from].
  rewrite !length_app, length_replicate, length_fmap, length_seqZ. f_equal. apply IH.
Qed.

Lemma cumsum_and_arange_ok counts : counts_ok counts ->
  _get_cumsum_and_arange counts = Ok (np_cumsum counts, snd <$> tokens counts).
Proof.
  intros [Hne Hc]. unfold _get_cumsum_and_arange, np_cumsum, np_repeat. rewrite cumsum_last by done. cbn [mbind result_mbind].
  rewrite np_map2_ok by apply length_cumsum_from. cbn [mbind result_mbind].
  rewrite np_map2_ok by (rewrite length_zip_with, length_cumsum_from; lia). cbn [mbind result_mbind].
  rewrite np_map2_ok.
  - cbn [mbind result_mbind]. unfold np_arange, tokens. by rewrite (arange_offsets 0 0).
  - rewrite (length_cumsum_tokens 0 0) by done. unfold np_arange. rewrite length_seqZ, <- (length_tokens_from 0) by done. by rewrite Nat2Z.id.
Qed.

(** Positions and tokens are the scheduled ones of every request in turn. *)
Lemma prepare_flat_ok cs ns table : counts_ok ns -> len ns <= len cs -> table_shape (length ns) table ->
  (forall i, (i < length ns)%nat -> 0 <= cs !!! i /\ cs !!! i + ns !!! i <= table_cols table) ->
  prepare_flat cs ns table =
    Ok ((fun t => cs !!! t.1 + t.2) <$> tokens ns, (fun t => table_at table t.1 (cs !!! t.1 + t.2)) <$> tokens ns).
Proof.
  intros Hc Hl Hs Hfit. assert (Hr : forall g o, (g, o) ∈ tokens ns -> (g < length ns)%nat /\ 0 <= o < ns !!! g).
  { intros g o (c & Hg & Ho)%elem_of_tokens; [|apply Hc]. split; [by eapply lookup_lt_Some|]. by rewrite (list_lookup_total_correct _ _ _ Hg). }
  unfold prepare_flat. unfold np_repeat at 1. rewrite np_map2_ok by (unfold np_arange, len; rewrite length_seqZ; lia). cbn [mbind result_mbind].
  pose proof (repeat_groups 0 ns (proj2 Hc)) as Hg. change (Z.of_nat 0) with 0 in Hg. fold (tokens ns) in Hg. unfold np_arange. rewrite Hg.
  rewrite cumsum_and_arange_ok by done. cbn [mbind result_mbind].
  assert (Ht : np_take cs ((fun t => Z.of_nat t.1) <$> tokens ns) = Ok ((fun t => cs !!! t.1) <$> tokens ns)).
  { rewrite (as_seq cs) at 1. apply np_take_seq. intros [g o] [? _]%Hr. unfold len in Hl. cbn. lia. }
  rewrite Ht. cbn [mbind result_mbind].
  rewrite np_map2_fmap. cbn [mbind result_mbind].
  rewrite (fetch_2d_ok (length ns)) by (done || (intros [g o] [? ?]%Hr; cbn [fst snd]; destruct (Hfit g ltac:(lia)); lia)).
  done.
Qed.

(** Those of the first requests come first. *)
Lemma tokens_rows (f : nat -> Z -> Z) k counts : Forall (fun c => 0 <= c) counts ->
  (fun t => f t.1 t.2) <$> tokens_from k counts = concat (imap (fun i c => f (k + i)%nat <$> seqZ 0 c) counts).
Proof.
  intros Hc. revert k. induction Hc as [|c counts Hc0 Hc IH]; intros k; [done|]. cbn [tokens_from imap concat].
  rewrite fmap_app, <- list_fmap_compose, Nat.add_0_r. f_equal. rewrite IH. f_equal. apply imap_ext. intros i c' _. unfold compose.
  by rewrite Nat.add_succ_comm.
Qed.

Lemma tokens_prefix (f : nat -> Z -> Z) n counts : Forall (fun c => 0 <= c) counts -> (n <= length counts)%nat ->
  exists rest, (fun t => f t.1 t.2) <$> tokens counts = concat ((fun i => f i <$> seqZ 0 (counts !!! i)) <$> seq 0 n) ++ rest.
Proof.
  intros Hc Hn. unfold tokens. rewrite tokens_rows by done. cbn [Nat.add].
  assert (E : imap (fun i c => f i <$> seqZ 0 c) counts = (fun i => f i <$> seqZ 0 (counts !!! i)) <$> seq 0 (length counts)).
  { apply list_eq. intros i. rewrite list_lookup_imap, list_lookup_fmap. destruct (decide (i < length counts)%nat).
    - rewrite lookup_seq_lt by done. by rewrite (list_lookup_lookup_total_lt counts i).
    - rewrite lookup_seq_ge by lia. by rewrite lookup_ge_None_2 by lia. }
  rewrite E. replace (length counts) with (n + (length counts - n))%nat by lia. rewrite seq_app, fmap_app, concat_app. by eexists.
Qed.
