(* ===== verification/PagedAttention.v ===== *)
(** The paged attention of a decode
    ([flat_pa], [pipelined_pa] and [grouped_max] of
    [src/vllm_gaudi/extension/ops.py], [_set_block_mapping] of the model
    adapter), in exact real numbers, for one query head: softmax of every block
    by itself, then the blocks of a sequence brought to a common maximum and
    sum.  It is the softmax attention over the keys its buffers let a row
    read. *)

From Stdlib Require Import ZArith Lia Reals Lra.
From stdpp Require Import base strings numbers gmap list.
From S2P Require Import Prelude.
From S2P Require Import Numpy.
From S2P Require Import UnifiedAttention.
From S2P Require Import DecodeInputs.
From S2P Require Import DecodeSpec.

Open Scope list_scope.
Open Scope R_scope.

#[export] Instance R_inhabited : Inhabited R := populate 0.

(** ** Sums and vectors *)

Abbreviation vec := (list R).

Definition Rsum (l : list R) : R := foldr Rplus 0 l.
Definition dot (a b : vec) : R := Rsum (zip_with Rmult a b).
Definition scale_row (c : R) (v : vec) : vec := Rmult c <$> v.

(** The sum of rows of [w] numbers with a weight each. *)
Definition weighted_rows (w : nat) (weights : vec) (rows : list vec) : vec :=
  foldr (fun '(x, row) acc => zip_with Rplus (scale_row x row) acc) (replicate w 0) (zip weights rows).

(** [torch.matmul], the second matrix with rows of [w] numbers. *)
Definition matmul (w : nat) (a b : list vec) : list vec := (fun row => weighted_rows w row b) <$> a.
Definition transpose (cols : nat) (m : list vec) : list vec := (fun g => (fun row : vec => row !!! g) <$> m) <$> seq 0 cols.

(** [b2b_impl] of a tensor with rows of [w] numbers. *)
Definition batch2block (w : nat) (tensor : list vec) (block_mapping : list vec) : list vec := matmul w block_mapping tensor.
Definition block2batch (w batch_size : nat) (tensor : list vec) (block_mapping : list vec) : list vec :=
  matmul w (transpose batch_size block_mapping) tensor.

(** ** Masks and block mapping *)

Definition one_hot (num_classes : nat) (c : Z) : vec := (fun j => if decide (Z.of_nat j = c) then 1 else 0) <$> seq 0 num_classes.

Record BlockMapping := mkMapping {
  (** Where [attn_bias] is minus infinity. *)
  attn_mask : list (list bool);
  block_mapping : list vec;
  mapped_groups : list nat
}.

(** Negative groups map to no row of the batch, and to the extra group of [grouped_max]. *)
Definition _set_block_mapping (block_size : Z) (batch_size : nat) (b : BlockBuffers) : BlockMapping :=
  mkMapping (usage_mask block_size <$> block_usage b)
    ((fun g => let row := one_hot batch_size (Z.max g 0) in if (g <? 0)%Z then (fun _ => 0) <$> row else row) <$> block_groups b)
    ((fun g => if (g <? 0)%Z then batch_size else Z.to_nat g) <$> block_groups b).

(** ** The attention over blocks *)

(** A masked score is [None], minus infinity. *)
Definition add_mask (masked : bool) (x : R) : option R := if masked then None else Some x.
Definition emax (x y : option R) : option R :=
  match x, y with
  | Some a, Some b => Some (Rmax a b)
  | Some a, None | None, Some a => Some a
  | None, None => None
  end.
Definition amax (l : list (option R)) : option R := foldr emax None l.
Definition exp_sub (m : R) (x : option R) : R := match x with Some a => exp (a - m) | None => 0 end.

Definition grouped_max (block_max : list R) (batch_size : nat) (block_groups : list nat) : list (option R) :=
  let group_max := foldl (fun gm '(g, m) => alter (emax (Some m)) g gm) (replicate (S batch_size) None) (zip block_groups block_max) in
  (fun g => default None (group_max !! g)) <$> block_groups.

(** [None] where the code has a maximum of minus infinity, and would go on with
    values that are no numbers. *)
Definition pipelined_pa (w : nat) (attn : list vec) (value : list (list vec)) (block_bias : list (list bool))
    (block_groups : list nat) (block_mapping : list vec) (batch_size : nat) : option (list vec) :=
  let attn := zip_with (zip_with add_mask) block_bias attn in
  block_max ← mapM amax attn;
  let attn := zip_with (fun m row => exp_sub m <$> row) block_max attn in
  let block_sums := Rsum <$> attn in
  let attn := zip_with (weighted_rows w) attn value in
  group_max ← mapM (fun x : option R => x) (grouped_max block_max batch_size block_groups);
  let block_adjustment := zip_with (fun m gm => exp (m - gm)) block_max group_max in
  let sum_adjusted := zip_with Rmult block_sums block_adjustment in
  let group_sum_adjusted := block2batch 1 batch_size ((fun x => [x]) <$> sum_adjusted) block_mapping in
  let group_sum_adjusted := batch2block 1 group_sum_adjusted block_mapping in
  let group_sum_adjusted := zip_with Rmax (concat group_sum_adjusted) sum_adjusted in
  let rescale := zip_with Rdiv block_adjustment group_sum_adjusted in
  Some (zip_with scale_row rescale attn).

(** The cache as blocks, and the blocks that are read. *)
Definition unflatten (block_size : Z) (cache : list vec) : list (list vec) :=
  (fun b : nat => take (Z.to_nat block_size) (drop (b * Z.to_nat block_size) cache)) <$> seq 0 (length cache / Z.to_nat block_size).
Definition fetch_from_cache (contiguous : bool) (cache : list (list vec)) (blocks : list Z) : option (list (list vec)) :=
  if contiguous then Some (take (length blocks) cache)
  else mapM (fun b : Z => cache !! Z.to_nat b) blocks.

Definition flat_pa (w : nat) (scale : R) (contiguous : bool) (block_size : Z) (query : list vec) (key_cache value_cache : list vec)
    (block_list : list Z) (md : BlockMapping) : option (list vec) :=
  let batch_size := length query in
  let query := batch2block w (scale_row scale <$> query) (block_mapping md) in
  key ← fetch_from_cache contiguous (unflatten block_size key_cache) block_list;
  value ← fetch_from_cache contiguous (unflatten block_size value_cache) block_list;
  let attn := zip_with (fun q ks => dot q <$> ks) query key in
  attn ← pipelined_pa w attn value (attn_mask md) (mapped_groups md) (block_mapping md) batch_size;
  Some (block2batch w batch_size attn (block_mapping md)).

(** ** The reference *)

(** Softmax attention of one query over keys and values. *)
Definition softmax_attention (w : nat) (scale : R) (q : vec) (kvs : list (vec * vec)) : vec :=
  let scores := (fun kv => dot (scale_row scale q) kv.1) <$> kvs in
  let total := Rsum (exp <$> scores) in
  weighted_rows w ((fun s => exp s / total) <$> scores) (snd <$> kvs).

(** ** Lemmas on sums *)

Lemma Rsum_cons x l : Rsum (x :: l) = x + Rsum l.
Proof. done. Qed.

Lemma Rsum_app l k : Rsum (l ++ k) = Rsum l + Rsum k.
Proof. induction l as [|x l IH]; cbn [app]; [cbn; lra|]. rewrite !Rsum_cons, IH. lra. Qed.

#[export] Instance Rsum_perm : Proper ((≡ₚ) ==> (=)) Rsum.
Proof. induction 1; rewrite ?Rsum_cons; lra. Qed.

Lemma Rsum_scale {A} c (f : A -> R) (l : list A) : Rsum ((fun x => c * f x) <$> l) = c * Rsum (f <$> l).
Proof. induction l as [|x l IH]; [cbn; lra|]. rewrite !fmap_cons, !Rsum_cons, IH. lra. Qed.

Lemma Rsum_ext {A} (f g : A -> R) (l : list A) : (forall x, x ∈ l -> f x = g x) -> Rsum (f <$> l) = Rsum (g <$> l).
Proof. intros H. f_equal. apply list_fmap_ext. intros i x Hx%list_elem_of_lookup_2. by apply H. Qed.

Lemma Rsum_nonneg {A} (f : A -> R) (l : list A) : (forall x, x ∈ l -> 0 <= f x) -> 0 <= Rsum (f <$> l).
Proof.
  induction l as [|x l IH]; intros H; [cbn; lra|]. rewrite fmap_cons, Rsum_cons.
  pose proof (H x ltac:(left)). specialize (IH ltac:(intros; apply H; by right)). lra.
Qed.

Lemma Rsum_ge {A} (f : A -> R) (l : list A) x : (forall x, x ∈ l -> 0 <= f x) -> x ∈ l -> f x <= Rsum (f <$> l).
Proof.
  intros H. induction l as [|y l IH]; intros Hx; [by apply not_elem_of_nil in Hx|]. rewrite fmap_cons, Rsum_cons.
  pose proof (H y ltac:(left)). pose proof (Rsum_nonneg f l ltac:(intros; apply H; by right)).
  apply elem_of_cons in Hx as [->|Hx]; [lra|]. specialize (IH ltac:(intros; apply H; by right) Hx). lra.
Qed.

Lemma Rsum_concat {A} (f : A -> R) (ls : list (list A)) : Rsum (f <$> concat ls) = Rsum ((fun l => Rsum (f <$> l)) <$> ls).
Proof.
  induction ls as [|l ls IH]; [done|]. cbn [concat]. rewrite fmap_app, Rsum_app, IH. done.
Qed.

Lemma Rsum_zero {A} (f : A -> R) (l : list A) : (forall x, x ∈ l -> f x = 0) -> Rsum (f <$> l) = 0.
Proof.
  intros H. rewrite (Rsum_ext f (fun _ => 0 * 0)) by (intros x Hx; rewrite H; [lra|done]). rewrite (Rsum_scale 0 (fun _ => 0)). lra.
Qed.

(** ** Lemmas on vectors *)

Lemma weighted_rows_cons w x ws row rows :
  weighted_rows w (x :: ws) (row :: rows) = zip_with Rplus (scale_row x row) (weighted_rows w ws rows).
Proof. done. Qed.
Lemma weighted_rows_nil w ws : weighted_rows w ws [] = replicate w 0.
Proof. by destruct ws. Qed.

Lemma length_weighted_rows w ws rows : Forall (fun row => length row = w) rows -> length (weighted_rows w ws rows) = w.
Proof.
  revert ws. induction rows as [|row rows IH]; intros ws H; [by rewrite weighted_rows_nil, length_replicate|].
  destruct ws as [|x ws]; [apply length_replicate|].
  apply Forall_cons in H as [Hr H]. rewrite weighted_rows_cons, length_zip_with, (IH ws H). unfold scale_row. rewrite length_fmap. lia.
Qed.

(** A coordinate of a weighted sum. *)
Lemma weighted_rows_coord w ws rows d : Forall (fun row => length row = w) rows -> (d < w)%nat ->
  weighted_rows w ws rows !!! d = Rsum (zip_with (fun x (row : vec) => x * row !!! d) ws rows).
Proof.
  intros Hr Hd. assert (H0 : replicate w 0 !!! d = 0) by by apply list_lookup_total_correct, lookup_replicate_2.
  revert ws. induction rows as [|row rows IH]; intros ws.
  - rewrite weighted_rows_nil. by destruct ws.
  - destruct ws as [|x ws]; [done|].
    apply Forall_cons in Hr as [Hrow Hr]. specialize (IH Hr ws). pose proof (length_weighted_rows w ws rows Hr) as Hl.
    rewrite weighted_rows_cons. cbn [zip_with]. rewrite Rsum_cons, <- IH. apply list_lookup_total_correct.
    rewrite lookup_zip_with. unfold scale_row. rewrite list_lookup_fmap.
    rewrite (list_lookup_lookup_total_lt row d) by lia. cbn.
    by rewrite (list_lookup_lookup_total_lt (weighted_rows w ws rows) d) by lia.
Qed.

Lemma vec_ext w (a b : vec) : length a = w -> length b = w -> (forall d, (d < w)%nat -> a !!! d = b !!! d) -> a = b.
Proof.
  intros Ha Hb H. apply list_eq. intros d. destruct (decide (d < w)%nat).
  - rewrite !list_lookup_lookup_total_lt by lia. by rewrite H.
  - rewrite !lookup_ge_None_2 by lia. done.
Qed.

Lemma length_scale_row c v : length (scale_row c v) = length v.
Proof. apply length_fmap. Qed.

Lemma scale_row_coord c v d : (d < length v)%nat -> scale_row c v !!! d = c * v !!! d.
Proof. intros Hd. apply list_lookup_total_correct. unfold scale_row. by rewrite list_lookup_fmap, list_lookup_lookup_total_lt. Qed.

Lemma scale_row_scale a b v : scale_row a (scale_row b v) = scale_row (a * b) v.
Proof. unfold scale_row. rewrite <- list_fmap_compose. apply list_fmap_ext. intros _ x _. unfold compose. lra. Qed.

Lemma Rsum_scale_row c l : Rsum (scale_row c l) = c * Rsum l.
Proof. unfold scale_row. rewrite (Rsum_scale c (fun x => x)). by rewrite list_fmap_id. Qed.

Lemma zip_with_add_replicate w (v : vec) : length v = w -> zip_with Rplus (replicate w 0) v = v.
Proof.
  intros <-. induction v as [|x v IH]; [done|]. cbn. rewrite IH. f_equal. lra.
Qed.

Lemma weighted_rows_scale w c ws rows : weighted_rows w (scale_row c ws) rows = scale_row c (weighted_rows w ws rows).
Proof.
  assert (H0 : replicate w 0 = scale_row c (replicate w 0)).
  { unfold scale_row. rewrite fmap_replicate. f_equal. lra. }
  revert rows. induction ws as [|x ws IH]; intros [|row rows]; try exact H0. 
  unfold scale_row at 1. rewrite fmap_cons. fold (scale_row c ws). rewrite !weighted_rows_cons, IH.
  generalize (weighted_rows w ws rows). intros acc. clear.
  revert acc. induction row as [|y row IH]; intros [|a acc]; try done. cbn. f_equal; [lra|]. apply IH.
Qed.

(** One term of a sum over an index. *)
Lemma Rsum_delta (f : nat -> R) g n :
  Rsum ((fun j => (if decide (j = g) then 1 else 0) * f j) <$> seq 0 n) = if decide (g < n)%nat then f g else 0.
Proof.
  induction n as [|n IH]; [by rewrite decide_False by lia|]. rewrite seq_S, fmap_app, Rsum_app, IH. cbn.
  destruct (decide (n = g)) as [->|].
  - rewrite decide_False by lia. rewrite decide_True by lia. lra.
  - destruct (decide (g < n)%nat); [rewrite decide_True by lia|rewrite decide_False by lia]; lra.
Qed.

Lemma weighted_singles {A} ws (f : A -> R) (l : list A) :
  weighted_rows 1 ws ((fun x => [f x]) <$> l) = [Rsum (zip_with Rmult ws (f <$> l))].
Proof.
  revert ws. induction l as [|x l IH]; intros ws; [by destruct ws|]. destruct ws as [|c ws]; [done|].
  rewrite !fmap_cons, weighted_rows_cons, IH. done.
Qed.

Lemma mapM_option_fn {A B} (f : A -> option B) (g : A -> B) (l : list A) :
  (forall x : A, x ∈ l -> f x = Some (g x)) -> mapM f l = Some (g <$> l).
Proof.
  induction l as [|x l IH]; intros H; [done|]. cbn. rewrite H by left. cbn. rewrite IH by (intros; apply H; by right). done.
Qed.

(** ** A masked row of scores *)

(** The exponentials of the scores that are not masked. *)
Definition exps (mask : list bool) (scores : vec) : vec := zip_with (fun (b : bool) s => if b then 0 else exp s) mask scores.

Lemma exp_sub_row m mask scores : exp_sub m <$> zip_with add_mask mask scores = scale_row (exp (- m)) (exps mask scores).
Proof.
  unfold scale_row, exps. revert scores. induction mask as [|b mask IH]; intros [|s scores]; try done. cbn. rewrite IH. f_equal.
  destruct b; cbn; [lra|]. rewrite <- exp_plus. f_equal. lra.
Qed.

Lemma amax_open (mask : list bool) (scores : vec) (k : nat) : mask !! k = Some false -> (k < length scores)%nat -> exists m, amax (zip_with add_mask mask scores) = Some m.
Proof.
  revert scores k. induction mask as [|b mask IH]; intros [|s scores] k Hk Hl; cbn in *; try (done || lia).
  destruct k as [|k]; cbn in Hk.
  - injection Hk as ->. cbn. destruct (foldr _ _ _); by eexists.
  - destruct (IH scores k Hk ltac:(lia)) as [m Hm]. unfold amax in Hm. rewrite Hm. destruct b; by eexists.
Qed.

Lemma exps_nonneg mask scores (x : R) : x ∈ exps mask scores -> 0 <= x.
Proof.
  unfold exps. intros (b & s & -> & _ & _)%elem_of_zip_with. destruct b; [lra|]. left. apply exp_pos.
Qed.

Lemma exps_sum_nonneg mask scores : 0 <= Rsum (exps mask scores).
Proof. rewrite <- (list_fmap_id (exps mask scores)). apply (Rsum_nonneg id). intros x. apply exps_nonneg. Qed.

Lemma exps_sum_pos (mask : list bool) (scores : vec) (k : nat) : mask !! k = Some false -> (k < length scores)%nat -> 0 < Rsum (exps mask scores).
Proof.
  intros Hk Hl. destruct (lookup_lt_is_Some_2 scores k Hl) as [s Hs].
  assert (Hin : exp s ∈ exps mask scores).
  { apply list_elem_of_lookup. exists k. unfold exps. by rewrite lookup_zip_with, Hk, Hs. }
  pose proof (Rsum_ge id (exps mask scores) (exp s) ltac:(intros x; apply exps_nonneg) Hin) as H. rewrite list_fmap_id in H.
  pose proof (exp_pos s). unfold id in H. lra.
Qed.

(** ** The maximum of a group *)

Lemma grouped_max_some (m : nat -> R) (grp : nat -> nat) batch n : (forall k, (k < n)%nat -> (grp k <= batch)%nat) ->
  exists G, grouped_max (m <$> seq 0 n) batch (grp <$> seq 0 n) = (fun k => Some (G (grp k))) <$> seq 0 n.
Proof.
  intros Hg. unfold grouped_max. set (step := fun (gm : list (option R)) '(g, x) => alter (emax (Some x)) g gm).
  assert (Hinv : forall l (arr : list (option R)) k, length arr = S batch -> (forall p, p ∈ l -> (p.1 <= batch)%nat) ->
    (is_Some (default None (arr !! k)) \/ exists x, (k, x) ∈ l) -> (k <= batch)%nat -> is_Some (default None (foldl step arr l !! k))).
  { induction l as [|[g x] l IH]; intros arr k Hl Hp Hk Hkb; cbn.
    - destruct Hk as [?|[x ?%not_elem_of_nil]]; done.
    - apply IH; [by rewrite length_alter|intros; apply Hp; by right| |done].
      pose proof (Hp (g, x) ltac:(left)) as Hgb. cbn in Hgb. destruct (decide (g = k)) as [->|Hne].
      + left. rewrite list_lookup_alter_eq. destruct (lookup_lt_is_Some_2 arr k ltac:(lia)) as [y ->]. cbn. destruct y; by eexists.
      + destruct Hk as [Hk|[y [[= <- _]|Hy]%elem_of_cons]]; [|done|right; by exists y].
        left. by rewrite list_lookup_alter_ne. }
  set (arr := foldl step _ _). exists (fun g => default 0 (default None (arr !! g))).
  rewrite <- list_fmap_compose. apply fmap_seq_ext. intros k Hk. unfold compose.
  assert (H : is_Some (default None (arr !! grp k))) by
    (apply Hinv; [by rewrite length_replicate| |right; exists (m k)|by apply Hg];
     [intros [g x]; rewrite zip_with_fmap_same; intros (k' & [= -> ->] & Hk'%elem_of_seq)%list_elem_of_fmap; apply Hg; lia|
      rewrite zip_with_fmap_same; apply list_elem_of_fmap; exists k; split; [done|apply elem_of_seq; lia]]).
  destruct H as [x Hx]. by rewrite Hx.
Qed.

(** ** The attention over blocks, as functions of the block *)

Section blocks.
Context (w n batch : nat) (score : nat -> vec) (mask : nat -> list bool) (value : nat -> list vec) (grp : nat -> nat).
Context (Hgrp : forall k, (k < n)%nat -> (grp k <= batch)%nat).
Context (Hopen : forall k, (k < n)%nat -> exists i : nat, mask k !! i = Some false /\ (i < length (score k))%nat).
Context (Hval : forall k, (k < n)%nat -> Forall (fun row => length row = w) (value k)).

Definition in_group (g k : nat) : R := if decide (grp k = g) then 1 else 0.
Definition block_total (k : nat) : R := Rsum (exps (mask k) (score k)).
Definition group_total (g : nat) : R := Rsum ((fun k => in_group g k * block_total k) <$> seq 0 n).
Definition map_row (g : nat) : vec := (fun j => if decide (j = g) then 1 else 0) <$> seq 0 batch.
Definition block_rows (k : nat) : vec := weighted_rows w (exps (mask k) (score k)) (value k).

Lemma transpose_map_rows : transpose batch ((fun k => map_row (grp k)) <$> seq 0 n) = (fun g => in_group g <$> seq 0 n) <$> seq 0 batch.
Proof.
  unfold transpose. apply fmap_seq_ext. intros g Hg. rewrite <- list_fmap_compose. apply fmap_seq_ext. intros k _. unfold compose, map_row, in_group.
  apply list_lookup_total_correct. rewrite list_lookup_fmap, lookup_seq_lt by done. cbn. f_equal.
  destruct (decide (g = grp k)), (decide (grp k = g)); (done || congruence).
Qed.

(** Rows summed over the blocks of a sequence. *)
Lemma block2batch_coord v (f : nat -> vec) g d : (forall k, (k < n)%nat -> length (f k) = v) -> (g < batch)%nat -> (d < v)%nat ->
  exists row, block2batch v batch (f <$> seq 0 n) ((fun k => map_row (grp k)) <$> seq 0 n) !! g = Some row /\ length row = v /\
    row !!! d = Rsum ((fun k => in_group g k * f k !!! d) <$> seq 0 n).
Proof.
  intros Hf Hg Hd. unfold block2batch, matmul. rewrite transpose_map_rows, <- list_fmap_compose.
  assert (Hrows : Forall (fun row => length row = v) (f <$> seq 0 n)).
  { apply Forall_fmap, Forall_forall. intros k Hk%elem_of_seq. apply Hf. lia. }
  exists (weighted_rows v (in_group g <$> seq 0 n) (f <$> seq 0 n)). split; [by rewrite list_lookup_fmap, lookup_seq_lt|].
  split; [by apply length_weighted_rows|]. rewrite weighted_rows_coord by done. by rewrite zip_with_fmap_same.
Qed.

(** The sums of the blocks of a sequence, and the sum of its sequence for a block. *)
Lemma block2batch_sums (f : nat -> R) :
  block2batch 1 batch ((fun x => [x]) <$> (f <$> seq 0 n)) ((fun k => map_row (grp k)) <$> seq 0 n) =
  (fun g => [Rsum ((fun k => in_group g k * f k) <$> seq 0 n)]) <$> seq 0 batch.
Proof.
  unfold block2batch, matmul. rewrite transpose_map_rows, <- !list_fmap_compose. apply fmap_seq_ext. intros g _.
  unfold compose. by rewrite weighted_singles, zip_with_fmap_same.
Qed.

Lemma batch2block_sums (f : nat -> R) :
  concat (batch2block 1 ((fun g => [f g]) <$> seq 0 batch) ((fun k => map_row (grp k)) <$> seq 0 n)) =
  (fun k => if decide (grp k < batch)%nat then f (grp k) else 0) <$> seq 0 n.
Proof.
  unfold batch2block, matmul. rewrite <- list_fmap_compose.
  assert (E : forall l : list nat, concat ((fun k => weighted_rows 1 (map_row (grp k)) ((fun g => [f g]) <$> seq 0 batch)) <$> l) =
    (fun k => if decide (grp k < batch)%nat then f (grp k) else 0) <$> l); [|apply E].
  induction l as [|k l IH]; [done|]. rewrite !fmap_cons. cbn [concat]. rewrite IH. unfold map_row.
  by rewrite weighted_singles, zip_with_fmap_same, Rsum_delta.
Qed.

Lemma block_total_pos k : (k < n)%nat -> 0 < block_total k.
Proof. intros Hk. destruct (Hopen k Hk) as (i & Hi & Hl). by eapply exps_sum_pos. Qed.

Lemma group_total_ge k : (k < n)%nat -> block_total k <= group_total (grp k).
Proof.
  intros Hk. pose proof (Rsum_ge (fun j => in_group (grp k) j * block_total j) (seq 0 n) k) as H. cbv beta in H.
  unfold in_group at 2 in H. rewrite decide_True in H by done. rewrite Rmult_1_l in H. apply H.
  - intros j Hj%elem_of_seq. pose proof (block_total_pos j ltac:(lia)). unfold in_group. destruct (decide _); lra.
  - apply elem_of_seq. lia.
Qed.

(** Every block that belongs to a sequence holds its keys' share of the
    softmax over the whole sequence. *)
Lemma pipelined_pa_ok : exists res,
  pipelined_pa w (score <$> seq 0 n) (value <$> seq 0 n) (mask <$> seq 0 n) (grp <$> seq 0 n) ((fun k => map_row (grp k)) <$> seq 0 n) batch =
    Some (res <$> seq 0 n) /\
  (forall k, (k < n)%nat -> length (res k) = w) /\
  (forall k, (k < n)%nat -> (grp k < batch)%nat -> res k = scale_row (/ group_total (grp k)) (block_rows k)).
Proof.
  set (m := fun k => default 0 (amax (zip_with add_mask (mask k) (score k)))).
  assert (Hm : mapM amax ((fun k => zip_with add_mask (mask k) (score k)) <$> seq 0 n) = Some (m <$> seq 0 n)).
  { rewrite (mapM_option_fn _ (fun row => default 0 (amax row))); [by rewrite <- list_fmap_compose|].
    intros row (k & -> & Hk%elem_of_seq)%list_elem_of_fmap. destruct (Hopen k ltac:(lia)) as (i & Hi & Hl).
    by destruct (amax_open (mask k) (score k) i Hi Hl) as [x ->]. }
  destruct (grouped_max_some m grp batch n Hgrp) as [G HG].
  unfold pipelined_pa. rewrite zip_with_fmap_same, Hm. cbn [mbind option_bind]. rewrite !zip_with_fmap_same, HG.
  rewrite (mapM_option_fn _ (default 0)) by (by intros x (k & -> & _)%list_elem_of_fmap). cbn [mbind option_bind].
  rewrite <- !list_fmap_compose. unfold compose. cbn [default]. rewrite !zip_with_fmap_same.
  rewrite <- (list_fmap_compose _ (fun x => [x])). rewrite (list_fmap_compose _ (fun x : R => [x])).
  rewrite block2batch_sums, batch2block_sums, !zip_with_fmap_same. eexists. split; [reflexivity|].
  split; intros k Hk; cbv beta; rewrite exp_sub_row, weighted_rows_scale, ?scale_row_scale.
  { rewrite !length_scale_row. by apply length_weighted_rows, Hval. }
  intros Hb. rewrite decide_True by done. fold (block_rows k). f_equal.
  unfold Datatypes.id. set (c := exp (- G (grp k))). pose proof (exp_pos (- G (grp k))) as Hc. fold c in Hc.
  pose proof (block_total_pos k Hk) as Hbt. pose proof (group_total_ge k Hk) as Hge.
  assert (Hx : forall k0, exp (- m k0) * exp (m k0 - G (grp k0)) = exp (- G (grp k0))) by (intros; rewrite <- exp_plus; f_equal; lra).
  rewrite (Rsum_ext _ (fun k0 => c * (in_group (grp k) k0 * block_total k0))).
  - rewrite Rsum_scale. fold (group_total (grp k)). rewrite Rsum_scale_row. fold (block_total k).
    replace (exp (- m k) * block_total k * exp (m k - G (grp k))) with (c * block_total k) by (unfold c; rewrite <- Hx; lra).
    rewrite Rmax_left by (apply Rmult_le_compat_l; lra).
    replace (exp (m k - G (grp k)) / (c * group_total (grp k)) * exp (- m k)) with (c / (c * group_total (grp k))).
    + field. lra.
    + unfold Rdiv. unfold c at 1. rewrite <- Hx. lra.
  - intros k0 _. rewrite exp_sub_row, Rsum_scale_row. fold (block_total k0). unfold in_group. destruct (decide (grp k0 = grp k)) as [E|]; [|lra].
    unfold c. rewrite <- E, <- Hx. lra.
Qed.

(** A row of the batch, from the blocks of its sequence. *)
Lemma row_of_blocks g d : (g < batch)%nat -> (d < w)%nat -> exists res,
  pipelined_pa w (score <$> seq 0 n) (value <$> seq 0 n) (mask <$> seq 0 n) (grp <$> seq 0 n) ((fun k => map_row (grp k)) <$> seq 0 n) batch = Some res /\
  exists row, block2batch w batch res ((fun k => map_row (grp k)) <$> seq 0 n) !! g = Some row /\ length row = w /\
    row !!! d = Rsum ((fun k => in_group g k * (/ group_total g * block_rows k !!! d)) <$> seq 0 n).
Proof.
  intros Hg Hd. destruct pipelined_pa_ok as (res & E & Hl & Hres). eexists. split; [exact E|].
  destruct (block2batch_coord w res g d Hl Hg Hd) as (row & Hrow & Hlr & Hc). exists row. split; [done|]. split; [done|].
  rewrite Hc. apply Rsum_ext. intros k Hk%elem_of_seq. unfold in_group. destruct (decide (grp k = g)) as [<-|]; [|lra].
  rewrite Hres by lia. rewrite scale_row_coord; [done|]. unfold block_rows. rewrite length_weighted_rows; [done|]. apply Hval. lia.
Qed.

End blocks.

(** ** The blocks of the cache *)

Definition row_at (cache : list vec) (slot : Z) : vec := cache !!! Z.to_nat slot.

Lemma cache_block (block_size : Z) (cache : list vec) (N b : Z) : (0 < block_size)%Z -> len cache = (N * block_size)%Z -> (0 <= b < N)%Z ->
  unflatten block_size cache !! Z.to_nat b = Some (row_at cache <$> block_slots block_size b).
Proof.
  intros Hbs Hl Hb. unfold unflatten, len in *. set (s := Z.to_nat block_size).
  assert (Hn : (length cache / s = Z.to_nat N)%nat).
  { assert (length cache = (Z.to_nat N * s)%nat) as -> by (unfold s; nia). apply Nat.div_mul. unfold s. lia. }
  rewrite Hn, list_lookup_fmap, lookup_seq_lt by lia. cbn. f_equal. apply list_eq. intros o.
  unfold block_slots. rewrite <- list_fmap_compose, list_lookup_fmap. destruct (decide (o < s)%nat) as [Ho|Ho].
  - rewrite lookup_take_lt, lookup_drop, lookup_seqZ_lt by (unfold s in *; lia). cbn. unfold compose, row_at.
    rewrite list_lookup_lookup_total_lt by (unfold s in *; nia). do 2 f_equal. unfold s. nia.
  - rewrite lookup_take_ge by lia. rewrite (lookup_ge_None_2 (seqZ 0 block_size)); [done|]. rewrite length_seqZ. unfold s in Ho. lia.
Qed.

Lemma length_unflatten (block_size : Z) (cache : list vec) (N : Z) : (0 < block_size)%Z -> (0 <= N)%Z -> len cache = (N * block_size)%Z ->
  length (unflatten block_size cache) = Z.to_nat N.
Proof.
  intros Hbs HN Hl. unfold unflatten, len in *. rewrite length_fmap, length_seq.
  assert (length cache = (Z.to_nat N * Z.to_nat block_size)%nat) as -> by nia. apply Nat.div_mul. lia.
Qed.

Lemma fetch_ok (contiguous : bool) (block_size : Z) (cache : list vec) (N : Z) (blocks : list Z) :
  (0 < block_size)%Z -> (0 <= N)%Z -> len cache = (N * block_size)%Z ->
  (contiguous = true -> (len blocks <= N)%Z) -> (contiguous = false -> Forall (fun b => 0 <= b < N)%Z blocks) ->
  fetch_from_cache contiguous (unflatten block_size cache) blocks =
  Some ((fun k => row_at cache <$> block_slots block_size (if contiguous then Z.of_nat k else blocks !!! k)) <$> seq 0 (length blocks)).
Proof.
  intros Hbs HN Hl Hc Hn. unfold fetch_from_cache. destruct contiguous.
  - specialize (Hc eq_refl). f_equal. apply list_eq. intros k. rewrite list_lookup_fmap. unfold len in Hc. destruct (decide (k < length blocks)%nat).
    + rewrite lookup_take_lt, lookup_seq_lt by done. cbn. rewrite <- (Nat2Z.id k) at 1. by apply (cache_block block_size cache N); [..|lia].
    + rewrite lookup_take_ge, lookup_seq_ge by lia. done.
  - specialize (Hn eq_refl). rewrite (mapM_option_fn _ (fun b => row_at cache <$> block_slots block_size b)).
    + f_equal. rewrite (as_seq blocks) at 1. by rewrite <- list_fmap_compose.
    + intros b Hb. rewrite Forall_forall in Hn. by apply (cache_block block_size cache N), Hn.
Qed.

(** The row that a mapping selects. *)
Lemma select_row w batch g (rows : list vec) : length rows = batch -> (g < batch)%nat -> Forall (fun row => length row = w) rows ->
  weighted_rows w (map_row batch g) rows = rows !!! g.
Proof.
  intros Hl Hg Hw. apply (vec_ext w); [by apply length_weighted_rows| |].
  - rewrite Forall_forall in Hw. apply Hw. apply list_elem_of_lookup. exists g. apply list_lookup_lookup_total_lt. lia.
  - intros d Hd. rewrite weighted_rows_coord by done. rewrite (as_seq rows) at 1. unfold map_row. rewrite Hl, zip_with_fmap_same.
    rewrite (Rsum_delta (fun j => (rows !!! j) !!! d)). by rewrite decide_True.
Qed.

(** ** The attention of the buffers *)

Lemma Rsum_unmasked (f : Z -> R) mask slots :
  Rsum (f <$> unmasked mask slots) = Rsum (zip_with (fun (b : bool) x => if b then 0 else f x) mask slots).
Proof.
  revert slots. induction mask as [|b mask IH]; intros [|x slots]; try done. cbn [unmasked zip_with].
  rewrite fmap_app, Rsum_app, IH, Rsum_cons. destruct b; cbn; lra.
Qed.

Lemma elem_of_unmasked x mask slots : x ∈ unmasked mask slots -> x ∈ slots.
Proof.
  revert slots. induction mask as [|b mask IH]; intros [|y slots]; cbn [unmasked]; try (by intros ?%not_elem_of_nil).
  intros [Hx|Hx%IH]%elem_of_app; [|by right]. destruct b; [by apply not_elem_of_nil in Hx|]. apply list_elem_of_singleton in Hx as ->. left.
Qed.

Lemma zip_with_fmap_snd {A B C D} (f : A -> C -> D) (g : B -> C) (l : list A) (k : list B) :
  zip_with f l (g <$> k) = zip_with (fun x y => f x (g y)) l k.
Proof. revert k. induction l as [|x l IH]; intros [|y k]; cbn; [done..|]. by rewrite IH. Qed.

Section flat.
Context (w : nat) (scale : R) (contiguous : bool) (block_size N : Z) (query : list vec) (key_cache value_cache : list vec) (b : BlockBuffers).
Abbreviation batch := (length query).
Abbreviation n := (length (block_groups b)).

(** Buffers for a batch, and a cache with a block more than the pool. *)
Record attention_inputs : Prop := {
  ai_block_size : (0 < block_size)%Z;
  ai_pool : (0 <= N)%Z;
  ai_query : Forall (fun row => length row = w) query;
  ai_keys : len key_cache = ((N + 1) * block_size)%Z;
  ai_values : len value_cache = ((N + 1) * block_size)%Z;
  ai_width : Forall (fun row => length row = w) value_cache;
  ai_lengths : length (block_list b) = n /\ length (block_usage b) = n;
  ai_contiguous : contiguous = true -> (len (block_groups b) <= N)%Z;
  ai_usage : Forall (fun u => 1 <= u <= block_size)%Z (block_usage b);
  ai_blocks : contiguous = false -> Forall (fun x => 0 <= x <= N)%Z (block_list b);
  ai_groups : Forall (fun g => g = -1 \/ 0 <= g < Z.of_nat batch)%Z (block_groups b)
}.
Context (Hin : attention_inputs).

Definition read_block (k : nat) : Z := if contiguous then Z.of_nat k else block_list b !!! k.
Definition group_of (k : nat) : nat := let g := block_groups b !!! k in if (g <? 0)%Z then batch else Z.to_nat g.
Definition mask_of (k : nat) : list bool := usage_mask block_size (block_usage b !!! k).
Definition query_of (k : nat) : vec := weighted_rows w (map_row batch (group_of k)) (scale_row scale <$> query).
Definition score_of (k : nat) : vec := (fun x => dot (query_of k) (row_at key_cache x)) <$> block_slots block_size (read_block k).
Definition value_of (k : nat) : list vec := row_at value_cache <$> block_slots block_size (read_block k).

Lemma group_cases k : (k < n)%nat -> (block_groups b !!! k = (-1)%Z /\ group_of k = batch) \/
  (block_groups b !!! k = Z.of_nat (group_of k) /\ (group_of k < batch)%nat).
Proof.
  intros Hk. pose proof (ai_groups Hin) as Hg. rewrite Forall_forall in Hg. unfold group_of.
  specialize (Hg (block_groups b !!! k)). destruct Hg as [->|Hg].
  - apply list_elem_of_lookup. exists k. by apply list_lookup_lookup_total_lt.
  - by left.
  - right. destruct (Z.ltb_spec (block_groups b !!! k) 0) as [?|?]; lia.
Qed.

Lemma mapping_ok : _set_block_mapping block_size batch b =
  mkMapping (mask_of <$> seq 0 n) ((fun k => map_row batch (group_of k)) <$> seq 0 n) (group_of <$> seq 0 n).
Proof.
  pose proof (ai_lengths Hin) as [_ Hu]. unfold _set_block_mapping. f_equal.
  - rewrite (as_seq (block_usage b)) at 1. by rewrite Hu, <- list_fmap_compose.
  - rewrite (as_seq (block_groups b)) at 1. rewrite <- list_fmap_compose. apply fmap_seq_ext. intros k Hk. unfold compose, one_hot, map_row.
    destruct (group_cases k Hk) as [[-> E]|[-> E]].
    + cbn. rewrite <- list_fmap_compose. apply fmap_seq_ext. intros j Hj. unfold compose. by rewrite decide_False by lia.
    + rewrite (proj2 (Z.ltb_ge _ _)) by lia. apply fmap_seq_ext. intros j Hj.
      destruct (decide (Z.of_nat j = _)), (decide (j = _)); (done || lia).
  - rewrite (as_seq (block_groups b)) at 1. by rewrite <- list_fmap_compose.
Qed.

Lemma mask_open k : (k < n)%nat -> exists i : nat, mask_of k !! i = Some false /\ (i < length (score_of k))%nat.
Proof.
  intros Hk. pose proof (ai_block_size Hin). pose proof (ai_usage Hin) as Hu. rewrite Forall_forall in Hu.
  specialize (Hu (block_usage b !!! k)). exists 0%nat. unfold mask_of, usage_mask, score_of, block_slots.
  rewrite !length_fmap, length_seqZ, list_lookup_fmap, lookup_seqZ_lt by lia. cbn. split; [|lia].
  f_equal. apply Z.leb_gt. assert (1 <= block_usage b !!! k)%Z; [|lia]. apply Hu. apply list_elem_of_lookup. exists k.
  apply list_lookup_lookup_total_lt. by rewrite (proj2 (ai_lengths Hin)).
Qed.

Lemma read_block_range k : (k < n)%nat -> (0 <= read_block k < N + 1)%Z.
Proof.
  intros Hk. unfold read_block. destruct contiguous eqn:Ec.
  - pose proof (ai_contiguous Hin Ec). unfold len in *. lia.
  - pose proof (ai_blocks Hin Ec) as Hb. rewrite Forall_forall in Hb. specialize (Hb (block_list b !!! k)).
    assert (0 <= block_list b !!! k <= N)%Z; [|lia]. apply Hb. apply list_elem_of_lookup. exists k.
    apply list_lookup_lookup_total_lt. by rewrite (proj1 (ai_lengths Hin)).
Qed.

Lemma row_width k x : (k < n)%nat -> x ∈ block_slots block_size (read_block k) -> length (row_at value_cache x) = w.
Proof.
  intros Hk (o & -> & Ho%elem_of_seqZ)%list_elem_of_fmap. pose proof (read_block_range k Hk).
  pose proof (ai_width Hin) as Hw. rewrite Forall_forall in Hw. apply Hw.
  pose proof (ai_values Hin) as Hl. unfold len in Hl. pose proof (ai_block_size Hin).
  apply list_elem_of_lookup. eexists. apply list_lookup_lookup_total_lt. nia.
Qed.

Lemma value_width k : (k < n)%nat -> Forall (fun row => length row = w) (value_of k).
Proof. intros Hk. apply Forall_fmap, Forall_forall. intros x Hx. by apply (row_width k). Qed.

(** The kernel, over the blocks. *)
Lemma flat_pa_blocks g d : (g < batch)%nat -> (d < w)%nat -> exists out row,
  flat_pa w scale contiguous block_size query key_cache value_cache (block_list b) (_set_block_mapping block_size batch b) = Some out /\
  out !! g = Some row /\ length row = w /\
  row !!! d = Rsum ((fun k => in_group group_of g k * (/ group_total n score_of mask_of group_of g * block_rows w score_of mask_of value_of k !!! d))
    <$> seq 0 n).
Proof.
  intros Hg Hd. pose proof (ai_block_size Hin) as Hbs. pose proof (ai_pool Hin). destruct (ai_lengths Hin) as [Hlb Hlu].
  unfold flat_pa. rewrite mapping_ok. cbn [attn_mask block_mapping mapped_groups].
  assert (Hc : contiguous = true -> (len (block_list b) <= N + 1)%Z).
  { intros E. pose proof (ai_contiguous Hin E). unfold len in *. lia. }
  assert (Hn : contiguous = false -> Forall (fun x => 0 <= x < N + 1)%Z (block_list b)).
  { intros E. eapply Forall_impl; [apply (ai_blocks Hin E)|]. intros x. cbn. lia. }
  rewrite (fetch_ok contiguous block_size key_cache (N + 1)) by (done || lia || apply (ai_keys Hin)).
  rewrite (fetch_ok contiguous block_size value_cache (N + 1)) by (done || lia || apply (ai_values Hin)).
  cbn [mbind option_bind]. rewrite Hlb. unfold batch2block, matmul. rewrite <- list_fmap_compose, zip_with_fmap_same.
  destruct (row_of_blocks w n batch score_of mask_of value_of group_of) with (g := g) (d := d) as (res & E & row & Hrow & Hl & Hcoord);
    [..|done|done|].
  - intros k Hk. destruct (group_cases k Hk) as [[_ ->]|[_ ?]]; lia.
  - apply mask_open.
  - apply value_width.
  - exists (block2batch w batch res ((fun k => map_row batch (group_of k)) <$> seq 0 n)), row. split; [|done].
    assert (Es : (fun x => (fun q ks => dot q <$> ks) (((fun row => weighted_rows w row (scale_row scale <$> query)) ∘ (fun k => map_row batch (group_of k))) x)
      (row_at key_cache <$> block_slots block_size (if contiguous then Z.of_nat x else block_list b !!! x))) <$> seq 0 n = score_of <$> seq 0 n).
    { apply fmap_seq_ext. intros k _. unfold score_of, compose. by rewrite <- list_fmap_compose. }
    rewrite Es. unfold value_of, read_block in E. rewrite E. done.
Qed.
(** Sums over the slots that a row reads, block by block. *)
Lemma read_sum (f : Z -> R) g : (g < batch)%nat ->
  Rsum (f <$> attended_slots contiguous block_size b (Z.of_nat g)) =
  Rsum ((fun k => in_group group_of g k * Rsum (zip_with (fun (m : bool) x => if m then 0 else f x) (mask_of k) (block_slots block_size (read_block k))))
    <$> seq 0 n).
Proof.
  intros Hg. unfold attended_slots. rewrite Rsum_concat, <- list_fmap_compose. apply Rsum_ext. intros k Hk%elem_of_seq. unfold compose, in_group.
  destruct (group_cases k ltac:(lia)) as [[-> E]|[-> E]].
  - rewrite E. rewrite decide_False by lia. rewrite (proj2 (Z.eqb_neq _ _)) by lia. cbn. lra.
  - destruct (decide (group_of k = g)) as [->|Hne]; [|rewrite (proj2 (Z.eqb_neq _ _)) by lia; cbn; lra].
    rewrite Z.eqb_refl, Rsum_unmasked. unfold mask_of, read_block. lra.
Qed.

(** What a row of the batch gets. *)
Lemma flat_pa_ok g : (0 < w)%nat -> (g < batch)%nat -> exists out,
  flat_pa w scale contiguous block_size query key_cache value_cache (block_list b) (_set_block_mapping block_size batch b) = Some out /\
  out !! g = Some (softmax_attention w scale (query !!! g)
    ((fun x => (row_at key_cache x, row_at value_cache x)) <$> attended_slots contiguous block_size b (Z.of_nat g))).
Proof.
  intros Hw Hg. destruct (flat_pa_blocks g 0 Hg Hw) as (out & row & E & Hrow & Hl & _). exists out. split; [done|]. rewrite Hrow. f_equal.
  set (sl := attended_slots contiguous block_size b (Z.of_nat g)).
  set (sc := fun x => dot (scale_row scale (query !!! g)) (row_at key_cache x)).
  assert (Hq : forall k, (k < n)%nat -> group_of k = g -> query_of k = scale_row scale (query !!! g)).
  { intros k Hk <-. unfold query_of. rewrite select_row; [|by rewrite length_fmap|done|].
    - apply list_lookup_total_correct. by rewrite list_lookup_fmap, list_lookup_lookup_total_lt.
    - apply Forall_fmap. eapply Forall_impl; [apply (ai_query Hin)|]. intros v Hv. cbn. by rewrite length_scale_row. }
  assert (Hex : forall k, (k < n)%nat -> group_of k = g -> exps (mask_of k) (score_of k) =
      zip_with (fun (m : bool) x => if m then 0 else exp (sc x)) (mask_of k) (block_slots block_size (read_block k))).
  { intros k Hk Eg. unfold exps, score_of. rewrite zip_with_fmap_snd, (Hq k Hk Eg). done. }
  assert (Htot : Rsum (exp <$> (sc <$> sl)) = group_total n score_of mask_of group_of g).
  { rewrite <- list_fmap_compose. unfold sl. rewrite read_sum by done. unfold group_total. apply Rsum_ext. intros k Hk%elem_of_seq.
    unfold in_group. destruct (decide (group_of k = g)) as [Eg|]; [|lra]. unfold block_total. by rewrite Hex by (done || lia). }
  assert (Hwid : Forall (fun row => length row = w) (row_at value_cache <$> sl)).
  { apply Forall_fmap, Forall_forall. intros x (l & Hx & Hl')%elem_of_concat. apply list_elem_of_fmap in Hx as (k & -> & Hk%elem_of_seq).
    destruct (_ =? _)%Z; [|by apply not_elem_of_nil in Hl']. apply (row_width k); [lia|]. by eapply elem_of_unmasked. }
  unfold softmax_attention. rewrite <- !list_fmap_compose. unfold compose. cbn [fst snd].
  apply (vec_ext w); [done|by apply length_weighted_rows|]. intros d Hd. rewrite weighted_rows_coord by done.
  destruct (flat_pa_blocks g d Hg Hd) as (out' & row' & E' & Hrow' & _ & Hc). rewrite E in E'. injection E' as <-.
  rewrite Hrow in Hrow'. injection Hrow' as <-. rewrite Hc, zip_with_fmap_same. rewrite <- list_fmap_compose in Htot. unfold compose in Htot.
  unfold sc in Htot. rewrite Htot. fold sc.
  rewrite (Rsum_ext (fun x => exp (dot (scale_row scale (query !!! g)) (row_at key_cache x)) / group_total n score_of mask_of group_of g * row_at value_cache x !!! d)
    (fun x => / group_total n score_of mask_of group_of g * (exp (sc x) * row_at value_cache x !!! d))) by (intros x _; unfold sc; lra).
  rewrite Rsum_scale. unfold sl. rewrite read_sum by done. rewrite <- Rsum_scale. apply Rsum_ext. intros k Hk%elem_of_seq.
  unfold in_group. destruct (decide (group_of k = g)) as [Eg|]; [|lra]. rewrite !Rmult_1_l. f_equal.
  unfold block_rows. rewrite weighted_rows_coord; [|apply value_width; lia|done]. rewrite Hex by (done || lia).
  unfold value_of. rewrite zip_with_fmap_snd. generalize (mask_of k) (block_slots block_size (read_block k)). clear.
  intros mask slots. f_equal. revert slots. induction mask as [|m mask IH]; intros [|x slots]; try done. cbn. f_equal; [|apply IH].
  destruct m; lra.
Qed.

End flat.

(** ** The order of the keys *)

Lemma plus_rows_swap (a b c : vec) : zip_with Rplus a (zip_with Rplus b c) = zip_with Rplus b (zip_with Rplus a c).
Proof.
  revert b c. induction a as [|x a IH]; intros [|y b] [|z c]; try done. cbn. rewrite IH. f_equal. lra.
Qed.

Lemma weighted_rows_fmap {A} w (f : A -> R) (h : A -> vec) (l : list A) :
  weighted_rows w (f <$> l) (h <$> l) = foldr (fun x acc => zip_with Rplus (scale_row (f x) (h x)) acc) (replicate w 0) l.
Proof. induction l as [|x l IH]; [done|]. by rewrite !fmap_cons, weighted_rows_cons, IH. Qed.

Lemma weighted_rows_perm {A} w (f : A -> R) (h : A -> vec) (l k : list A) : l ≡ₚ k ->
  weighted_rows w (f <$> l) (h <$> l) = weighted_rows w (f <$> k) (h <$> k).
Proof.
  intros Hp. rewrite !weighted_rows_fmap. induction Hp as [|x l k _ IH|x y l|l k q _ IH1 _ IH2]; cbn.
  - done.
  - by rewrite IH.
  - apply plus_rows_swap.
  - by rewrite IH1.
Qed.

#[export] Instance softmax_attention_perm w scale q : Proper ((≡ₚ) ==> (=)) (softmax_attention w scale q).
Proof.
  intros l k Hp. unfold softmax_attention. rewrite <- !list_fmap_compose. unfold compose.
  assert (Ht : Rsum ((fun kv : vec * vec => exp (dot (scale_row scale q) kv.1)) <$> l) =
    Rsum ((fun kv : vec * vec => exp (dot (scale_row scale q) kv.1)) <$> k)) by by rewrite Hp.
  rewrite Ht. by apply weighted_rows_perm.
Qed.
