(* ===== verification/DecodeResults.v ===== *)
(** The decodes of a step: from the persistent batch to the attention of every
    row, and where several tokens per request, the window or a cache that is
    read from its start lead. *)

From Stdlib Require Import ZArith Lia Reals.
From stdpp Require Import base strings numbers gmap list.
From S2P Require Import Prelude.
From S2P Require Import PyOrder.
From S2P Require Import BucketRanges.
From S2P Require Import BucketGen.
From S2P Require Import BucketManager.
From S2P Require Import Numpy.
From S2P Require Import Defrag.
From S2P Require Import UnifiedBatch.
From S2P Require Import UnifiedAttention.
From S2P Require Import DecodeInputs.
From S2P Require Import DecodeSpec.
From S2P Require Import DecodeRows.
From S2P Require Import PagedAttention.

Open Scope list_scope.
Open Scope Z_scope.

(** ** The decodes of a step *)

Section step.
Context (r : StepRunner) (dp : Z -> Z) (d : OnlineDefragmenter) (N : Z).
(** The decodes come first among the requests of the batch. *)
Context (n : nat) (num_computed ns : list Z) (table : list (list nat)) (token_table : Table) (m : HPUBucketingManager).
Abbreviation bs := (run_block_size r).
Abbreviation contiguous := (use_contiguous_pa (run_config r)).
Abbreviation cs := (take n num_computed).

Record step_ok : Prop := {
  so_block_size : 0 < bs;
  so_pad_block : Z.of_nat (_PAD_BLOCK_ID r) = N;
  so_pad_slot : _PAD_SLOT_ID r = N * bs;
  so_dp : padding_ok N dp;
  so_buckets : pool_buckets N m;
  so_window : window_ok r;
  so_decodes : decodes_ok r n cs ns table;
  so_counts : counts_ok ns;
  so_computed : len ns <= len num_computed;
  so_tokens : table_shape (length ns) token_table;
  so_tokens_fit : forall i, (i < length ns)%nat -> 0 <= num_computed !!! i /\ num_computed !!! i + ns !!! i <= table_cols token_table
}.

(** The flat arrays of the step, then the inputs of its decodes. *)
Definition decode_step : result (HPUBucketingManager * option DecodeInputData) :=
  '(positions, input_ids) ← prepare_flat num_computed ns token_table;
  match _prepare_decode_inputs r dp d positions input_ids n ns num_computed table m with
  | Ret out m' => Ok (m', out.1)
  | Raise e _ => Err e
  end.

Definition token_of (i : nat) (p : Z) : Z := table_at token_table i p.
Definition ids_of (i : nat) : list Z := token_of i <$> seqZ (computed cs i) (scheduled ns i).

Lemma computed_take i : step_ok -> (i < n)%nat -> computed cs i = num_computed !!! i.
Proof.
  intros H Hi. pose proof (do_computed _ _ _ _ _ (so_decodes H)) as Hl. unfold computed. apply list_lookup_total_correct.
  rewrite lookup_take_lt by done. apply list_lookup_lookup_total_lt. rewrite length_take in Hl. lia.
Qed.

Lemma decode_step_ok T : step_ok -> np_max (take n ns) = Ok T -> blocks_ready r d n cs table T N ->
  exists m' out padded, decode_step = Ok (m', Some out) /\ pool_buckets N m' /\ decode_result r d n cs ns table T N ids_of padded out.
Proof.
  intros H HT Hrd. unfold decode_step. rewrite prepare_flat_ok by apply H. cbn [mbind result_mbind].
  assert (Hl : (n <= length ns)%nat) by apply (so_decodes H).
  assert (Hpos : Forall (fun c => 0 <= c) ns) by apply H.
  destruct (tokens_prefix (fun i o => num_computed !!! i + o) n ns Hpos Hl) as [rest Er].
  destruct (tokens_prefix (fun i o => token_of i (num_computed !!! i + o)) n ns Hpos Hl) as [rest' Er'].
  assert (Ep : (fun t => num_computed !!! t.1 + t.2) <$> tokens ns = flat_positions n cs ns ++ rest).
  { rewrite Er. f_equal. unfold flat_positions. f_equal. apply fmap_seq_ext. intros i Hi. rewrite computed_take by done.
    unfold scheduled. by rewrite fmap_add_seqZ, Z.add_0_r. }
  assert (Ei : (fun t => table_at token_table t.1 (num_computed !!! t.1 + t.2)) <$> tokens ns = flat_ids n ids_of ++ rest').
  { unfold token_of in Er'. rewrite Er'. f_equal. unfold flat_ids. f_equal. apply fmap_seq_ext. intros i Hi. unfold ids_of, token_of.
    rewrite computed_take by done. unfold scheduled. assert (seqZ (num_computed !!! i) (ns !!! i) = Z.add (num_computed !!! i) <$> seqZ 0 (ns !!! i)) as ->
      by (by rewrite fmap_add_seqZ, Z.add_0_r). by rewrite <- list_fmap_compose. }
  rewrite Ep, Ei.
  destruct (wp_elim _ _ _ (create_decode_ok r d n cs ns table (so_block_size H) (so_decodes H) T HT N dp (so_dp H) (so_pad_block H)
    ids_of ltac:(intros i Hi; unfold ids_of, len; rewrite length_fmap, length_seqZ; pose proof (do_positive _ _ _ _ _ (so_decodes H) i Hi); lia)
    rest rest' m (so_buckets H) Hrd (so_window H))) as (out & m' & E & Hm' & padded & Hres).
  exists m', out, padded. split; [|done]. unfold _prepare_decode_inputs. pose proof (do_some _ _ _ _ _ (so_decodes H)).
  rewrite (proj2 (Nat.eqb_neq n 0)) by lia. unfold mbind, M_mbind, M_bind. by rewrite E.
Qed.

End step.

(** A cache with a padding block after the blocks of the pool. *)
Record cache_ok (w : nat) (block_size N : Z) (key_cache value_cache : list vec) : Prop := {
  ca_width : (0 < w)%nat;
  ca_pool : 0 <= N;
  ca_keys : len key_cache = (N + 1) * block_size;
  ca_values : len value_cache = (N + 1) * block_size;
  ca_rows : Forall (fun row => length row = w) value_cache
}.

Lemma buffers_attention contiguous bs N tables ss b w (query K V : list vec) : 0 < bs ->
  buffers_read contiguous bs N tables ss b -> cache_ok w bs N K V -> Forall (fun row => length row = w) query -> (length tables <= length query)%nat ->
  attention_inputs w contiguous bs N query K V b.
Proof.
  intros Hbs [? ? ? ? Hg ? ?] [? ? ? ? ?] Hq Hl. split; try done. eapply Forall_impl; [exact Hg|]. intros g. cbn. unfold len. lia.
Qed.

Section results.
Context (r : StepRunner) (dp : Z -> Z) (d : OnlineDefragmenter) (N : Z).
Context (n : nat) (num_computed ns : list Z) (table : list (list nat)) (token_table : Table) (m : HPUBucketingManager).
Abbreviation bs := (run_block_size r).
Abbreviation contiguous := (use_contiguous_pa (run_config r)).
Abbreviation cs := (take n num_computed).
Abbreviation slot i p := (slot_of r d table i p).
Context (Hok : step_ok r dp N n num_computed ns table token_table m).

Lemma one_token : (forall i, (i < n)%nat -> ns !!! i = 1) -> np_max (take n ns) = Ok 1.
Proof.
  intros H1. pose proof (do_some _ _ _ _ _ (so_decodes _ _ _ _ _ _ _ _ _ Hok)). pose proof (do_scheduled _ _ _ _ _ (so_decodes _ _ _ _ _ _ _ _ _ Hok)).
  destruct (np_max_in (take n ns)) as (T & HT & Hin).
  - intros E. apply (f_equal length) in E. rewrite length_take in E. cbn in E. lia.
  - rewrite HT. f_equal. apply list_elem_of_lookup in Hin as [i Hi]. assert (i < n)%nat by (apply lookup_lt_Some in Hi; rewrite length_take in Hi; lia).
    rewrite lookup_take_lt in Hi by done. rewrite <- (H1 i) by done. symmetry. by apply list_lookup_total_correct.
Qed.

Lemma attention_of_row T padded out w scale query K V i j : np_max (take n ns) = Ok T -> blocks_ready r d n cs table T N ->
  decode_result r d n cs ns table T N (ids_of n num_computed ns token_table) padded out -> cache_ok w bs N K V ->
  Forall (fun row => length row = w) query -> length query = length (slot_mapping out) -> (i < n)%nat -> (j < Z.to_nat T)%nat ->
  exists rows, flat_pa w scale contiguous bs query K V (block_list (buffers out)) (_set_block_mapping bs (length query) (buffers out)) = Some rows /\
    rows !! (i * Z.to_nat T + j)%nat = Some (softmax_attention w scale (query !!! (i * Z.to_nat T + j)%nat)
      ((fun p => (row_at K (slot i p), row_at V (slot i p))) <$> seqZ 0 (read_upto r cs i (position cs ns i j)))).
Proof.
  intros HT Hrd Hres Hca Hq Hlen Hi Hj. pose proof Hok as [Hbs _ _ _ _ _ Hdec _ _ _ _].
  pose proof (T_pos r n cs ns table Hdec T HT) as HT1. pose proof (dr_padded _ _ _ _ _ _ _ _ _ _ _ Hres) as Hp.
  rewrite (dr_rows _ _ _ _ _ _ _ _ _ _ _ Hres) in Hlen. pose proof (dr_buffers _ _ _ _ _ _ _ _ _ _ _ Hres) as Hb.
  assert (Hin : attention_inputs w contiguous bs N query K V (buffers out)).
  { eapply buffers_attention; [done..|]. rewrite (length_decode_tables r d n cs table T). nia. }
  destruct (flat_pa_ok w scale contiguous bs N query K V (buffers out) Hin (i * Z.to_nat T + j)%nat) as (rows & E & Hrow); [apply Hca|nia|].
  exists rows. split; [done|]. rewrite Hrow. f_equal.
  rewrite (row_reads r d n cs ns table Hbs Hdec T N padded (buffers out) i j Hb Hi Hj). by rewrite <- list_fmap_compose.
Qed.

End results.

(** C12: decodes of one token each, whose blocks are of the pool (and, when
    the cache is read from its start, not shared). From the persistent batch
    the step builds inputs without raising; request [i] writes the slot of its
    own last position, and the paged attention of its row is softmax attention
    over exactly its positions up to that one, wherever the blocks were moved.
    *)
Theorem decode_attention_spec r dp d N n num_computed ns table token_table m w scale K V :
  let bs := run_block_size r in
  let contiguous := use_contiguous_pa (run_config r) in
  step_ok r dp N n num_computed ns table token_table m -> (forall i, (i < n)%nat -> ns !!! i = 1) ->
  blocks_ready r d n (take n num_computed) table 1 N -> cache_ok w bs N K V ->
  exists m' out, decode_step r dp d n num_computed ns table token_table m = Ok (m', Some out) /\ pool_buckets N m' /\
    forall i, (i < n)%nat -> let c := num_computed !!! i in
      token_ids out !! i = Some [table_at token_table i c] /\ slot_mapping out !! i = Some [slot_of r d table i c] /\
      forall query, Forall (fun row => length row = w) query -> length query = length (slot_mapping out) ->
        exists rows, flat_pa w scale contiguous bs query K V (block_list (buffers out)) (_set_block_mapping bs (length query) (buffers out)) = Some rows /\
          rows !! i = Some (softmax_attention w scale (query !!! i)
            ((fun p => (row_at K (slot_of r d table i p), row_at V (slot_of r d table i p))) <$> seqZ 0 (c + 1))).
Proof.
  intros bs contiguous Hok H1 Hrd Hca. pose proof (one_token r dp N n num_computed ns table token_table m Hok H1) as HT.
  destruct (decode_step_ok r dp d N n num_computed ns table token_table m 1 Hok HT Hrd) as (m' & out & padded & E & Hm' & Hres).
  exists m', out. split; [done|]. split; [done|]. intros i Hi c.
  pose proof (computed_take r dp N n num_computed ns table token_table m i Hok Hi) as Hc. fold c in Hc.
  assert (Hpos : position (take n num_computed) ns i 0 = c) by (unfold position, scheduled; rewrite H1, Hc by done; rewrite decide_True by lia; lia).
  assert (Hread : read_upto r (take n num_computed) i c = c + 1).
  { unfold read_upto. rewrite Hc. pose proof (so_block_size _ _ _ _ _ _ _ _ _ Hok). pose proof (Z_div_mod_eq_full c bs). fold bs. lia. }
  assert (Ei : (i * Z.to_nat 1 + 0)%nat = i) by lia. assert (Hs1 : scheduled ns i = 1) by (by apply H1).
  split; [|split].
  - pose proof (dr_tokens _ _ _ _ _ _ _ _ _ _ _ Hres i 0%nat Hi ltac:(lia)) as Ht. rewrite Ei in Ht. rewrite Ht.
    unfold ids_of. by rewrite Hs1, Hc.
  - pose proof (dr_slots _ _ _ _ _ _ _ _ _ _ _ Hres i 0%nat Hi ltac:(lia)) as Hs. rewrite Ei in Hs. by rewrite Hs, Hpos.
  - intros query Hq Hl. pose proof (attention_of_row r dp d N n num_computed ns table token_table m Hok 1 padded out w scale query K V i 0 HT Hrd Hres Hca Hq Hl Hi ltac:(lia)) as Ha.
    rewrite Hpos, Hread, Ei in Ha. exact Ha.
Qed.



(** ** Where several tokens per request lead *)

(** A draft token beyond the block of the context: the number of blocks is that
    of the first token, so the row stops before the position it writes. *)
Lemma draft_beyond_block r c p : 0 < run_block_size r -> 0 <= c -> c / run_block_size r < p / run_block_size r ->
  c / run_block_size r * run_block_size r + p mod run_block_size r + 1 <= p.
Proof.
  intros Hbs Hc Hlt. pose proof (Z_div_mod_eq_full p (run_block_size r)). nia.
Qed.

(** A request with fewer tokens than the widest: its padding token is written to
    the slot of the request's first position. *)
Lemma padding_token_slot r dp d N n num_computed ns table token_table m T m' out i j :
  step_ok r dp N n num_computed ns table token_table m -> np_max (take n ns) = Ok T -> blocks_ready r d n (take n num_computed) table T N ->
  decode_step r dp d n num_computed ns table token_table m = Ok (m', Some out) ->
  (i < n)%nat -> ns !!! i <= Z.of_nat j < T ->
  slot_mapping out !! (i * Z.to_nat T + j)%nat = Some [slot_of r d table i 0].
Proof.
  intros Hok HT Hrd E Hi Hj.
  destruct (decode_step_ok r dp d N n num_computed ns table token_table m T Hok HT Hrd) as (m1 & out1 & padded & E1 & _ & Hres).
  rewrite E in E1. injection E1 as -> ->. rewrite (dr_slots _ _ _ _ _ _ _ _ _ _ _ Hres) by (done || lia).
  unfold position, scheduled. by rewrite decide_False by lia.
Qed.

(** ** Concrete steps *)

Definition sample_runner (contiguous : bool) (window : option Z) : StepRunner :=
  set_pads 8 (mkStepRunner (mkRuntimeConfig false contiguous None None None None None None) 4 false 0 0 1 64 1
    (match window with Some _ => true | None => false end) window).
Definition no_padding (_ : Z) : Z := 0.
Definition still : OnlineDefragmenter := init_defrag None false.
Definition sample_buckets : HPUBucketingManager := set_num_hpu_blocks 8 sample_manager.
Definition sample_table : list (list nat) := [[1; 2; 0]; [3; 0; 0]]%nat.
Definition sample_tokens : Table := mkTable 12 [seqZ 100 12; seqZ 200 12].

Lemma no_padding_ok N : padding_ok N no_padding.
Proof. unfold no_padding. split; intros; lia. Qed.

Lemma sample_buckets_ok : pool_buckets 8 sample_buckets.
Proof.
  pose proof sample_manager_inv as [? ? ? ? ? ? ? ?]. split; [by split|done|]. unfold sample_buckets, set_num_hpu_blocks, sample_manager, decode_buckets. constructor; [cbn; lia|constructor].
Qed.

Lemma lookup_two (P : nat -> Prop) : P 0%nat -> P 1%nat -> forall i, (i < 2)%nat -> P i.
Proof. intros H0 H1 [|[|i]] Hi; [done|done|lia]. Qed.

Lemma sample_step_ok contiguous window ns : (forall w, window = Some w -> 0 < w) -> ns = [1; 1] \/ ns = [2; 1] ->
  step_ok (sample_runner contiguous window) no_padding 8 2 [5; 2] ns sample_table sample_tokens sample_buckets.
Proof.
  intros Hw Hns. split.
  - done.
  - done.
  - done.
  - apply no_padding_ok.
  - apply sample_buckets_ok.
  - intros _ w Ew. by apply Hw.
  - split; [lia|done|by destruct Hns as [-> | ->]|done|..]; apply lookup_two; destruct Hns as [-> | ->]; vm_compute; done.
  - destruct Hns as [-> | ->]; (split; [done|repeat constructor; lia]).
  - destruct Hns as [-> | ->]; done.
  - destruct Hns as [-> | ->]; (split; [reflexivity|]); intros row Hrow; unfold sample_tokens, table_rows in Hrow; repeat (apply elem_of_cons in Hrow as [->|Hrow]; [done|]);
      by apply not_elem_of_nil in Hrow.
  - destruct Hns as [-> | ->]; apply lookup_two; vm_compute; done.
Qed.

Lemma sample_blocks_ready contiguous window T : T = 1 \/ contiguous = false ->
  blocks_ready (sample_runner contiguous window) still 2 [5; 2] sample_table T 8.
Proof.
  intros HT. split.
  - intros i b Hi. revert b. revert i Hi. refine (lookup_two _ _ _); intros b Hb; vm_compute in Hb;
      repeat (apply elem_of_cons in Hb as [->|Hb]; [done|]); by apply not_elem_of_nil in Hb.
  - cbn. intros Hc. destruct HT as [HT|HT]; [|congruence]. split; [done|]. vm_compute. repeat constructor; set_solver.
Qed.

(** One number per key and value, the same for a slot. *)
Definition sample_cache : list vec := replicate 36 [R1].

Lemma sample_cache_ok : cache_ok 1 4 8 sample_cache sample_cache.
Proof. split; [lia|done|done|done|]. by apply Forall_replicate. Qed.

Lemma decode_attention_spec_witness :
  step_ok (sample_runner true None) no_padding 8 2 [5; 2] [1; 1] sample_table sample_tokens sample_buckets /\
  exists m' out, decode_step (sample_runner true None) no_padding still 2 [5; 2] [1; 1] sample_table sample_tokens sample_buckets = Ok (m', Some out) /\
    slot_mapping out !! 0%nat = Some [9] /\
    exists rows, flat_pa 1 R1 true 4 (replicate (length (slot_mapping out)) [R1]) sample_cache sample_cache (block_list (buffers out))
        (_set_block_mapping 4 (length (replicate (length (slot_mapping out)) [R1])) (buffers out)) = Some rows /\ is_Some (rows !! 0%nat).
Proof.
  assert (Hok : step_ok (sample_runner true None) no_padding 8 2 [5; 2] [1; 1] sample_table sample_tokens sample_buckets) by
    (apply sample_step_ok; [done|by left]).
  split; [exact Hok|].
  destruct (decode_attention_spec (sample_runner true None) no_padding still 8 2 [5; 2] [1; 1] sample_table sample_tokens sample_buckets 1 R1
    sample_cache sample_cache Hok ltac:(by apply lookup_two) (sample_blocks_ready true None 1 ltac:(by left)) sample_cache_ok)
    as (m' & out & E & _ & H).
  exists m', out. split; [exact E|]. destruct (H 0%nat ltac:(lia)) as (_ & Hs & Ha). split; [exact Hs|].
  destruct (Ha (replicate (length (slot_mapping out)) [R1])) as (rows & Er & Hr).
  - by apply Forall_replicate.
  - apply length_replicate.
  - exists rows. split; [exact Er|]. rewrite Hr. by eexists.
Defined.


Definition is_ok {A} (o : result A) (f : A -> bool) : bool := match o with Ok x => f x | Err _ => false end.

(** Two tokens for request 0 and one for request 1: the padding token goes to
    slot 12, the first of request 1. *)
Example padding_token_example :
  is_ok (decode_step (sample_runner false None) no_padding still 2 [5; 2] [2; 1] sample_table sample_tokens sample_buckets)
    (fun p => bool_decide ((fun out => take 4 (slot_mapping out)) <$> p.2 = Some [[9]; [10]; [14]; [12]])) = true.
Proof. vm_compute. reflexivity. Qed.

(** A cache that is read from its start, with two tokens: the second row of a
    request takes its blocks, and the first reads nothing. *)
Example contiguous_drafts_example :
  is_ok (decode_step (sample_runner true None) no_padding still 2 [5; 2] [2; 1] sample_table sample_tokens sample_buckets)
    (fun p => bool_decide ((fun out => (attended_slots true 4 (buffers out) 0, attended_slots true 4 (buffers out) 1)) <$> p.2 =
      Some ([], [4; 5; 6; 7; 8; 9; 10]))) = true.
Proof. vm_compute. reflexivity. Qed.
