(* ===== verification/PrefillInputs.v ===== *)
(** The inputs of the prefills of a step
    ([src/vllm_gaudi/v1/worker/hpu_model_runner.py]): prompts gathered into
    batches within the limits of the runner, every batch padded to a bucket,
    either as a row per prompt or merged into one row, and the masks of their
    attention. *)

From Stdlib Require Import ZArith Lia.
From stdpp Require Import base strings numbers gmap list.
From S2P Require Import Prelude.
From S2P Require Import PyOrder.
From S2P Require Import BucketRanges.
From S2P Require Import BucketGen.
From S2P Require Import BucketManager.
From S2P Require Import Numpy.
From S2P Require Import Defrag.
From S2P Require Import UnifiedBatch.
From S2P Require Import UnifiedAttention.
From S2P Require Import DecodeInputs.

Open Scope list_scope.
Open Scope Z_scope.

(** ** Batches of prompts *)

Record BatchContents := mkContents {
  req_ids : list string;
  bc_token_ids : list (list Z);
  context_lens : list Z;
  prompt_lens : list Z;
  blocks : list (list nat);
  logits_positions : list (list Z)
}.

Definition empty_contents : BatchContents := mkContents [] [] [] [] [] [].
Definition get_num_tokens (c : BatchContents) : list Z := len <$> bc_token_ids c.

(** Keeps no [prompt_lens], like the code. *)
Definition clone (c : BatchContents) : BatchContents :=
  mkContents (req_ids c) (bc_token_ids c) (context_lens c) [] (blocks c) (logits_positions c).

Definition merge_contents (lhs rhs : BatchContents) : BatchContents :=
  mkContents (req_ids lhs ++ req_ids rhs) (bc_token_ids lhs ++ bc_token_ids rhs) (context_lens lhs ++ context_lens rhs)
    (prompt_lens lhs ++ prompt_lens rhs) (blocks lhs ++ blocks rhs) (logits_positions lhs ++ logits_positions rhs).

(** The rows of the persistent batch that the prefills read. *)
Record PromptRows := mkPromptRows {
  row_req_ids : list string;
  row_num_computed : list Z;
  row_num_prompt : list Z;
  row_tokens : list (list Z);
  row_blocks : list (list nat)
}.

Section prefills.
Context (r : StepRunner) (get_dp_padding : Z -> Z).
Abbreviation bs := (run_block_size r).

(** ** Buckets *)

Definition _skip_bucketing (seq_lens num_blocks : list Z) : MB Bucket := mret (len seq_lens, 0, 0).

Definition _bucketize_merged_prompt (seq_lens num_blocks : list Z) : MB Bucket :=
  let num_blocks := sumZ num_blocks in
  b ← find_prompt_bucket 1 (sumZ seq_lens) num_blocks;
  mret (1, b.1.2, round_up num_blocks 32).

Definition _bucketize_2d_prompt (seq_lens num_blocks : list Z) : MB Bucket :=
  let n := len seq_lens in
  if max_prefill_batch_size r <? n then raise BucketingFailedException
  else
    seq ← lift_result (np_max seq_lens);
    num_blocks ← (match num_blocks with [] => mret 0 | _ => lift_result (np_max num_blocks) end);
    find_prompt_bucket n seq num_blocks.

Definition _get_prompt_bucketing_fn : list Z -> list Z -> MB Bucket :=
  if unified_attn r then _skip_bucketing
  else if merged_prefill (run_config r) then _bucketize_merged_prompt
  else _bucketize_2d_prompt.

(** The context is left out of the question. *)
Definition _can_merge_prefill_contents (lhs rhs : BatchContents) : MB bool := fun m =>
  let combined_num_tokens := get_num_tokens lhs ++ get_num_tokens rhs in
  match _get_prompt_bucketing_fn combined_num_tokens [] m with
  | Raise BucketingFailedException m' => Ret false m'
  | Raise e m' => Raise e m'
  | Ret _ m' =>
      (b ← _get_prompt_bucketing_fn combined_num_tokens [];
       mret ((b.1.1 <=? max_prefill_batch_size r) && (b.1.1 * b.1.2 <=? max_num_tokens r))) m'
  end.

(** ** Gathering the prompts *)

(** The contents of one request. *)
Definition request_contents (d : OnlineDefragmenter) (warmup : bool) (rows : PromptRows) (num_scheduled_tokens : list Z) (batch_idx : nat) : result BatchContents :=
  let i := Z.of_nat batch_idx in
  req_id ← np_get (row_req_ids rows) i;
  seq_num_computed_tokens ← np_get (row_num_computed rows) i;
  seq_num_scheduled_tokens ← np_get num_scheduled_tokens i;
  tokens ← np_get (row_tokens rows) i;
  let token_ids := slice seq_num_computed_tokens (seq_num_computed_tokens + seq_num_scheduled_tokens) tokens in
  let num_blocks := round_up (seq_num_computed_tokens + seq_num_scheduled_tokens) bs / bs in
  table ← np_get (row_blocks rows) i;
  let blocks := take (Z.to_nat num_blocks) table in
  let blocks := if warmup then blocks else resolve d <$> blocks in
  num_prompt_tokens ← np_get (row_num_prompt rows) i;
  let num_output_logits := Z.max 0 (seq_num_computed_tokens + seq_num_scheduled_tokens - num_prompt_tokens + 1) in
  let logits_positions := seqZ (seq_num_scheduled_tokens - num_output_logits) num_output_logits in
  Ok (mkContents [req_id] [token_ids] [seq_num_computed_tokens] [num_prompt_tokens] [blocks] [logits_positions]).

(** A new request joins the last batch or starts one. *)
Definition add_contents (all : list BatchContents) (new : BatchContents) : MB (list BatchContents) :=
  match last all with
  | None => raise IndexError
  | Some lhs =>
      merge ← _can_merge_prefill_contents lhs new;
      mret (if merge : bool then take (length all - 1) all ++ [merge_contents lhs new] else all ++ [new])
  end.

Fixpoint gather_contents (d : OnlineDefragmenter) (warmup : bool) (rows : PromptRows) (num_scheduled_tokens : list Z)
    (all : list BatchContents) (idxs : list nat) : MB (list BatchContents) :=
  match idxs with
  | [] => mret all
  | batch_idx :: idxs =>
      new ← lift_result (request_contents d warmup rows num_scheduled_tokens batch_idx);
      all ← add_contents all new;
      gather_contents d warmup rows num_scheduled_tokens all idxs
  end.

(** The batches, and how many dummy ones the other ranks of data parallelism ask for. *)
Definition _extract_prefill_batch_contents (d : OnlineDefragmenter) (num_prefills num_decodes : nat) (num_scheduled_tokens : list Z)
    (warmup : bool) (rows : PromptRows) : MB (list BatchContents * Z) :=
  all ← gather_contents d warmup rows num_scheduled_tokens [empty_contents] (seq num_decodes num_prefills);
  let num_real_prefill_batches := len (filter (fun c => req_ids c <> []) all) in
  mret (all, get_dp_padding num_real_prefill_batches).

(** ** Forming a batch *)

(** Rows of equal length, or all of them in one. *)
Definition align_and_pad (data : list (list Z)) (target_bs target_len v : Z) : result (list (list Z)) :=
  let data := if (target_bs =? 1) && (1 <? len data) then [flatten data] else data in
  let data := (fun x => pad_list x target_len v) <$> data in
  guard_or ((0 <=? target_len) && (len data <=? target_bs)) ValueError;;
  Ok (pad_list data target_bs (replicate (Z.to_nat target_len) v)).

(** [_make_attn_bias] of one row: masked are the keys of other prompts and, of
    the new tokens, the later ones.  A block counts with all its slots. *)
Definition make_attn_mask (context_groups token_groups : list Z) : list (list bool) :=
  let context_groups := flatten ((fun g => replicate (Z.to_nat bs) g) <$> context_groups) in
  imap (fun q g =>
      ((fun c => negb (c =? g)) <$> context_groups) ++
      imap (fun k t => negb (t =? g) || (q <? k)%nat) token_groups)
    token_groups.

Record PrefillInputData := mkPrefillInput {
  pi_request_ids : list string;
  (** [seq_lens_tensor] and [context_lens_tensor] of the metadata. *)
  pi_query_lens : list Z;
  pi_context_lens : list Z;
  pi_token_ids : list (list Z);
  pi_position_ids : list (list Z);
  pi_slot_mapping : list (list Z);
  pi_block_list : option (list Z);
  pi_attn_bias : option (list (list (list bool)));
  pi_logits_indices : list Z;
  pi_logits_requests : list string
}.

(** The flat index of every position whose logits are wanted, and its request;
    [step] is how far a prompt moves the offset. *)
Fixpoint logits_of (step : Z -> Z) (cur_offset : Z) (l : list (string * Z * list Z)) : list (Z * string) :=
  match l with
  | [] => []
  | (req_id, qlen, log_pos) :: l => ((fun x => (cur_offset + x, req_id)) <$> log_pos) ++ logits_of step (cur_offset + step qlen) l
  end.

(** Positions of the new tokens of every prompt. *)
Definition token_positions (context_lens query_lens : list Z) : list (list Z) :=
  zip_with (fun cl ql => seqZ cl ql) context_lens query_lens.

(** Their slots. *)
Definition token_slots (blocks : list (list nat)) (positions : list (list Z)) : result (list (list Z)) :=
  mapM (fun '(blocks, positions) =>
    mapM (fun pos => b ← np_get blocks (pos / bs); Ok (Z.of_nat b * bs + pos mod bs)) positions) (zip blocks positions).

(** [_form_prefill_batch] of a model without M-RoPE; [None] for no request. *)
Definition _form_prefill_batch (contents : BatchContents) : MB (option PrefillInputData) :=
  if (length (req_ids contents) =? 0)%nat then mret None
  else
    let query_lens := get_num_tokens contents in
    let context_lens := context_lens contents in
    let positions := token_positions context_lens query_lens in
    slots ← lift_result (token_slots (blocks contents) positions);
    let groups := imap (fun i tid => replicate (length tid) (Z.of_nat i)) (bc_token_ids contents) in
    let num_context_blocks := (fun c => round_up c bs / bs) <$> context_lens in
    let context_blocks := zip_with (fun blocks n => Z.of_nat <$> take (Z.to_nat n) blocks) (blocks contents) num_context_blocks in
    let num_context_blocks := len <$> context_blocks in
    let context_groups := imap (fun i b => replicate (Z.to_nat b) (Z.of_nat i)) num_context_blocks in
    let has_context := 0 <? sumZ context_lens in
    bucket ← _get_prompt_bucketing_fn query_lens num_context_blocks;
    let target_bs := bucket.1.1 + get_dp_padding bucket.1.1 in
    let target_seq := bucket.1.2 + get_dp_padding bucket.1.2 in
    let target_blocks := bucket.2 + get_dp_padding bucket.2 in
    token_ids ← lift_result (align_and_pad (bc_token_ids contents) target_bs target_seq (-1));
    let query_lens := pad_list query_lens target_bs 0 in
    let context_lens := pad_list context_lens target_bs 0 in
    positions ← lift_result (align_and_pad positions target_bs target_seq (-1));
    slots ← lift_result (align_and_pad slots target_bs target_seq (-1));
    groups ← lift_result (align_and_pad groups target_bs target_seq (-1));
    context_blocks ← lift_result (align_and_pad context_blocks target_bs target_blocks (-1));
    context_groups ← lift_result (align_and_pad context_groups target_bs target_blocks (-1));
    first ← lift_result (np_get token_ids 0);
    let step := if merged_prefill (run_config r) then (fun qlen => qlen) else (fun _ => len first) in
    let logits := logits_of step 0 (zip (zip (req_ids contents) query_lens) (logits_positions contents)) in
    let attn_bias := if merged_prefill (run_config r) then Some (zip_with make_attn_mask context_groups groups) else None in
    let logits_indices := pad_list logits.*1 (round_up (len logits) (logits_rounding r)) (-1) in
    mret (Some (mkPrefillInput (req_ids contents) query_lens context_lens token_ids positions slots
      (if has_context then Some (flatten context_blocks) else None) attn_bias logits_indices logits.*2)).

(** ** What the attention of a prompt reads *)

(** [_set_attn_bias]: the mask of the adapter, where the batch has none and the
    kernel is not left to its own causal mask.  For row [i] and query [q]: the
    context beyond the row's length, later tokens and padding. *)
Definition _set_attn_bias (prefill_use_fusedsdpa : bool) (md : PrefillInputData) (batch_size seq_len : nat) : option (list (list (list bool))) :=
  match pi_attn_bias md, pi_block_list md with
  | Some bias, _ => Some bias
  | None, block_list =>
      if prefill_use_fusedsdpa && (match block_list with None => true | Some _ => false end) then None
      else
        let max_context_len := (match block_list with Some l => len l / Z.of_nat batch_size | None => 0 end) * bs in
        Some ((fun i =>
          (fun q =>
            ((fun c => (pi_context_lens md !!! i) <=? c) <$> seqZ 0 max_context_len) ++
            ((fun t => (Z.of_nat q <? t) || ((pi_query_lens md !!! i) <=? t)) <$> seqZ 0 (Z.of_nat seq_len)))
          <$> seq 0 seq_len) <$> seq 0 batch_size)
  end.

(** The keys of row [i]: the slots of its part of the block list
    ([_include_past]), a contiguous cache read from its start, then the slots
    of the new tokens of the row. *)
Definition row_keys (batch_size : nat) (md : PrefillInputData) (i : nat) : list Z :=
  let block_list := default [] (pi_block_list md) in
  let fetched := if use_contiguous_pa (run_config r) then Z.of_nat <$> seq 0 (length block_list) else block_list in
  let width := (length block_list / batch_size)%nat in
  flatten (block_slots bs <$> take width (drop (i * width) fetched)) ++ pi_slot_mapping md !!! i.

(** The slots whose keys query [q] of row [i] attends. *)
Definition prefill_reads (mask : list (list (list bool))) (batch_size : nat) (md : PrefillInputData) (i q : nat) : list Z :=
  unmasked ((mask !!! i) !!! q) (row_keys batch_size md i).

End prefills.

(** ** Joining the batches of a step *)

(** [merge_contents] of the inputs: a list per attribute. *)
Definition merge_inputs (all : list (option PrefillInputData)) : list PrefillInputData := omap id all.

Section all_prefills.
Context (r : StepRunner) (get_dp_padding : Z -> Z).

(** Dummy batches of one prompt, for a rank that has fewer than another. *)
Definition _create_dummy_prefill_batch_contents (has_kv_transfer_group : bool) (num_prefills : nat) : MB (list (option PrefillInputData)) :=
  let context_len := if has_kv_transfer_group then 127 else 0 in
  let query_len := if has_kv_transfer_group then 1 else 128 in
  let prompt_tokens := 128 in
  let num_blocks := round_up (context_len + query_len) (run_block_size r) / run_block_size r in
  let num_output_logits := context_len + query_len - prompt_tokens + 1 in
  let contents := mkContents ["-1"%string] [seqZ 0 query_len] [context_len] [] [replicate (Z.to_nat num_blocks) 0%nat]
    [seqZ (query_len - num_output_logits) num_output_logits] in
  map_each (fun _ => _form_prefill_batch r get_dp_padding (clone contents)) (seq 0 num_prefills).

(** The data of the prompts, and of dummy ones. *)
Definition _prepare_prefill_inputs (has_kv_transfer_group : bool) (d : OnlineDefragmenter) (num_prefills num_decodes : nat) (num_scheduled_tokens : list Z)
    (rows : PromptRows) : MB (list PrefillInputData * list PrefillInputData) :=
  '(all_batch_contents, num_pad_across_dp) ← _extract_prefill_batch_contents r get_dp_padding d num_prefills num_decodes num_scheduled_tokens false rows;
  all_batches ← map_each (_form_prefill_batch r get_dp_padding) all_batch_contents;
  dummies ← (if 0 <? num_pad_across_dp then _create_dummy_prefill_batch_contents has_kv_transfer_group (Z.to_nat num_pad_across_dp) else mret []);
  mret (merge_inputs all_batches, merge_inputs dummies).

End all_prefills.
