(* ===== verification/PrefillSpec.v ===== *)
(** What the prompts of a batch write and read.

    [PrefillInputs._form_prefill_batch] over the requests of a batch: the slots
    of the new tokens, the logits that are kept, and the keys that a query
    attends, as a row per prompt and merged into one row. *)

From Stdlib Require Import ZArith Lia.
From stdpp Require Import base strings numbers gmap list.
From S2P Require Import Prelude.
From S2P Require Import PyOrder.
From S2P Require Import BucketRanges.
From S2P Require Import BucketGen.
From S2P Require Import BucketManager.
From S2P Require Import Numpy.
From S2P Require Import Defrag.
From S2P Require Import UnifiedBatch.
From S2P Require Import UnifiedAttention.
From S2P Require Import DecodeInputs.
From S2P Require Import DecodeSpec.
From S2P Require Import DecodeRows.
From S2P Require Import PrefillInputs.

Open Scope list_scope.
Open Scope Z_scope.

(** ** Masks over keys *)

Lemma unmasked_app m1 m2 k1 k2 : length m1 = length k1 -> unmasked (m1 ++ m2) (k1 ++ k2) = unmasked m1 k1 ++ unmasked m2 k2.
Proof.
  revert k1. induction m1 as [|b m1 IH]; intros [|x k1] Hl; try done. cbn in *. rewrite IH by lia. by rewrite app_assoc.
Qed.

(** A mask that opens the keys before a bound. *)
Lemma unmasked_below bound s keys : unmasked ((fun t => bound <=? t) <$> seqZ s (len keys)) keys = take (Z.to_nat (bound - s)) keys.
Proof.
  revert s. induction keys as [|x keys IH]; intros s; [by rewrite take_nil; destruct (_ <$> _)|].
  pose proof (len_nonneg keys). rewrite len_cons, seqZ_cons by lia. rewrite fmap_cons. cbn [unmasked].
  replace (Z.pred (1 + len keys)) with (len keys) by lia. rewrite IH. destruct (Z.leb_spec bound s) as [Hle|Hlt].
  - replace (Z.to_nat (bound - s)) with 0%nat by lia. by replace (Z.to_nat (bound - Z.succ s)) with 0%nat by lia.
  - replace (Z.to_nat (bound - s)) with (S (Z.to_nat (bound - Z.succ s))) by lia. done.
Qed.

(** Keys in groups, of which one is open, but for what [p] masks. *)
Definition group_rows (h : nat -> Z) (rows : list (list Z)) : list Z := flatten (imap (fun i row => replicate (length row) (h i)) rows).

Lemma group_rows_cons h row rows : group_rows h (row :: rows) = replicate (length row) (h 0%nat) ++ group_rows (h ∘ S) rows.
Proof. done. Qed.

Lemma imap_replicate {A B} (f : nat -> A -> B) n x : imap f (replicate n x) = (fun k => f k x) <$> seq 0 n.
Proof.
  apply list_eq. intros k. rewrite list_lookup_imap, list_lookup_fmap. destruct (decide (k < n)%nat).
  - by rewrite lookup_replicate_2, lookup_seq_lt.
  - rewrite lookup_seq_ge by lia. by rewrite lookup_ge_None_2 by (rewrite length_replicate; lia).
Qed.

Lemma fmap_seq_true {A} (p : A -> bool) (l : list A) : (forall k, p k = true) -> p <$> l = replicate (length l) true.
Proof. intros Hp. induction l as [|x l IH]; [done|]. cbn. by rewrite Hp, IH. Qed.

Lemma unmasked_others (p : nat -> bool) (h : nat -> Z) (rows : list (list Z)) x : (forall i, h i <> x) ->
  unmasked (imap (fun k y => negb (y =? x) || p k) (group_rows h rows)) (flatten rows) = [].
Proof.
  revert p h. induction rows as [|row rows IH]; intros p h Hh; [done|]. rewrite group_rows_cons, imap_app. unfold flatten. cbn [concat].
  rewrite unmasked_app by (by rewrite length_imap, length_replicate). rewrite imap_replicate.
  rewrite fmap_seq_true by (intros k; by rewrite (proj2 (Z.eqb_neq (h 0%nat) x)) by apply Hh). rewrite unmasked_all.
  apply (IH (fun k => p (length (replicate (length row) (h 0%nat)) + k)%nat) (h ∘ S)). intros i. apply Hh.
Qed.

Lemma unmasked_groups (p : nat -> bool) (h : nat -> Z) (rows : list (list Z)) g row : (forall i, h i = h g -> i = g) -> rows !! g = Some row ->
  unmasked (imap (fun k x => negb (x =? h g) || p k) (group_rows h rows)) (flatten rows) =
  unmasked ((fun o => p (length (concat (take g rows)) + o)%nat) <$> seq 0 (length row)) row.
Proof.
  revert p h g. induction rows as [|row' rows IH]; intros p h g Hh Hg; [done|].
  rewrite group_rows_cons, imap_app. unfold flatten. cbn [concat].
  rewrite unmasked_app by (by rewrite length_imap, length_replicate). rewrite imap_replicate.
  destruct g as [|g]; cbn in Hg.
  - simplify_eq. rewrite Z.eqb_refl. cbn [negb orb take concat length Nat.add].
    pose proof (unmasked_others (fun k => p (length (replicate (length row) (h 0%nat)) + k)%nat) (h ∘ S) rows (h 0%nat)) as E.
    etransitivity; [|apply app_nil_r]. f_equal. apply E. intros i Ei. by apply Hh in Ei.
  - rewrite fmap_seq_true by (intros k; by rewrite (proj2 (Z.eqb_neq (h 0%nat) (h (S g)))) by (intros E; by apply Hh in E)).
    rewrite unmasked_all. cbn [app take concat].
    etransitivity; [apply (IH (fun k => p (length (replicate (length row') (h 0%nat)) + k)%nat) (h ∘ S) g); [intros i E; apply Hh in E; lia|done]|].
    f_equal. apply fmap_seq_ext. intros o _. f_equal. rewrite length_replicate, length_app. lia.
Qed.

(** All keys of the group, or those up to an offset. *)
Lemma unmasked_group (h : nat -> Z) (rows : list (list Z)) g row : (forall i, h i = h g -> i = g) -> rows !! g = Some row ->
  unmasked ((fun x => negb (x =? h g)) <$> group_rows h rows) (flatten rows) = row.
Proof.
  intros Hh Hg. pose proof (unmasked_groups (fun _ => false) h rows g row Hh Hg) as E.
  rewrite <- (imap_const (fun x => negb (x =? h g))). erewrite imap_ext; [rewrite E|intros; cbn; by rewrite orb_false_r].
  rewrite <- replicate_seq. clear. induction row as [|x row IH]; [done|]. cbn. by rewrite IH.
Qed.

Lemma unmasked_causal (h : nat -> Z) (rows : list (list Z)) g row j : (forall i, h i = h g -> i = g) -> rows !! g = Some row ->
  unmasked (imap (fun k x => negb (x =? h g) || (length (concat (take g rows)) + j <? k)%nat) (group_rows h rows)) (flatten rows) = take (S j) row.
Proof.
  intros Hh Hg. rewrite (unmasked_groups (fun k => (length (concat (take g rows)) + j <? k)%nat) h rows g row Hh Hg).
  pose proof (unmasked_below (Z.of_nat (S j)) 0 row) as E. rewrite Z.sub_0_r, Nat2Z.id in E. rewrite <- E. f_equal.
  unfold len, seqZ. rewrite Nat2Z.id, <- list_fmap_compose. apply fmap_seq_ext. intros o _. unfold compose.
  destruct (Nat.ltb_spec (length (concat (take g rows)) + j) (length (concat (take g rows)) + o)), (Z.leb_spec (Z.of_nat (S j)) (Z.of_nat o + 0)); (done || lia).
Qed.

Lemma lookup_total_fmap_seq {A} `{Inhabited A} (f : nat -> A) n i : (i < n)%nat -> (f <$> seq 0 n) !!! i = f i.
Proof. intros Hi. apply list_lookup_total_correct. by rewrite list_lookup_fmap, lookup_seq_lt. Qed.

Lemma imap_fmap_seq {A B} (g : nat -> A -> B) (f : nat -> A) n : imap g (f <$> seq 0 n) = (fun i => g i (f i)) <$> seq 0 n.
Proof.
  apply list_eq. intros i. rewrite list_lookup_imap, !list_lookup_fmap. destruct (decide (i < n)%nat).
  - by rewrite lookup_seq_lt.
  - by rewrite lookup_seq_ge by lia.
Qed.

(** A context of full blocks, then new positions. *)
Lemma full_context {A} (f : Z -> A) c q bs : 0 < bs -> 0 <= c -> c mod bs = 0 -> 0 <= q ->
  (f <$> seqZ 0 (cdiv c bs * bs)) ++ (f <$> seqZ c (q + 1)) = f <$> seqZ 0 (c + q + 1).
Proof.
  intros Hbs Hn Hm Hq. assert (E : cdiv c bs * bs = c).
  { pose proof (cdiv_spec c bs Hbs) as [H1 H2]. pose proof (Z.div_mod c bs ltac:(lia)) as Ed. rewrite Hm in Ed.
    assert (Ey : cdiv c bs = c / bs) by (revert H1 H2 Ed; generalize (cdiv c bs), (c / bs); intros; nia).
    rewrite Ey. lia. }
  rewrite E. rewrite <- fmap_app. f_equal. rewrite <- Z.add_assoc. symmetry. apply seqZ_app; lia.
Qed.

(** ** A batch of prompts *)

Section batch.
Context (r : StepRunner) (dp : Z -> Z) (c : BatchContents).
Abbreviation bs := (run_block_size r).
Abbreviation k := (length (req_ids c)).

Definition tokens_of (i : nat) : list Z := bc_token_ids c !!! i.
Definition query_len (i : nat) : Z := len (tokens_of i).
Definition context_of (i : nat) : Z := context_lens c !!! i.
Definition blocks_of (i : nat) : list nat := blocks c !!! i.
Definition prompt_slot (i : nat) (p : Z) : Z := slot_at bs (blocks_of i) p.

(** Prompts with their new tokens and the blocks for all of them. *)
Record contents_ok : Prop := {
  co_some : (0 < k)%nat;
  co_tokens : length (bc_token_ids c) = k;
  co_contexts : length (context_lens c) = k;
  co_block_rows : length (blocks c) = k;
  co_logits : length (logits_positions c) = k;
  co_positive : forall i, (i < k)%nat -> 1 <= query_len i;
  co_nonneg : forall i, (i < k)%nat -> 0 <= context_of i;
  co_blocks : forall i, (i < k)%nat -> (context_of i + query_len i - 1) / bs < len (blocks_of i)
}.

Context (Hbs : 0 < bs) (Hc : contents_ok).

Lemma lists_as_seq : bc_token_ids c = tokens_of <$> seq 0 k /\ context_lens c = context_of <$> seq 0 k /\ blocks c = blocks_of <$> seq 0 k.
Proof.
  split; [|split].
  - rewrite (as_seq (bc_token_ids c)) at 1. by rewrite (co_tokens Hc).
  - rewrite (as_seq (context_lens c)) at 1. by rewrite (co_contexts Hc).
  - rewrite (as_seq (blocks c)) at 1. by rewrite (co_block_rows Hc).
Qed.

Lemma positions_ok : token_positions (context_lens c) (get_num_tokens c) = (fun i => seqZ (context_of i) (query_len i)) <$> seq 0 k.
Proof.
  destruct lists_as_seq as (E1 & E2 & _). unfold token_positions, get_num_tokens. rewrite E1, E2, <- list_fmap_compose.
  by rewrite zip_with_fmap_same.
Qed.

Lemma block_in_row i p : (i < k)%nat -> 0 <= p < context_of i + query_len i -> 0 <= p / bs < len (blocks_of i).
Proof.
  intros Hi Hp. split; [by apply Z.div_pos; lia|]. eapply Z.le_lt_trans; [|apply (co_blocks Hc i Hi)]. apply Z.div_le_mono; lia.
Qed.

Lemma token_slots_ok : token_slots r (blocks c) ((fun i => seqZ (context_of i) (query_len i)) <$> seq 0 k) =
  Ok ((fun i => prompt_slot i <$> seqZ (context_of i) (query_len i)) <$> seq 0 k).
Proof.
  destruct lists_as_seq as (_ & _ & E). unfold token_slots. rewrite E at 1.
  assert (Hz : zip (blocks_of <$> seq 0 k) ((fun i => seqZ (context_of i) (query_len i)) <$> seq 0 k) =
    (fun i => (blocks_of i, seqZ (context_of i) (query_len i))) <$> seq 0 k) by apply zip_with_fmap_same.
  rewrite Hz. rewrite (mapM_Ok _ (fun p : list nat * list Z => slot_at bs p.1 <$> p.2)).
  - by rewrite <- list_fmap_compose.
  - intros [bl ps] (i & [= -> ->] & Hi%elem_of_seq)%list_elem_of_fmap. cbn [fst snd]. apply mapM_Ok.
    intros p Hp%elem_of_seqZ. pose proof (co_nonneg Hc i ltac:(lia)).
    rewrite np_get_total by (apply block_in_row; lia). done.
Qed.

(** The blocks of the context of a prompt. *)
Definition context_blocks_of (i : nat) : Z := cdiv (context_of i) bs.

Lemma round_up_blocks x : round_up x bs / bs = cdiv x bs.
Proof.
  unfold round_up. rewrite Z.div_mul by lia. pose proof (cdiv_spec x bs Hbs). pose proof (Z.mul_div_le (x + bs - 1) bs Hbs).
  pose proof (Z.mul_succ_div_gt (x + bs - 1) bs Hbs). nia.
Qed.

Lemma context_blocks_bound i : (i < k)%nat -> 0 <= context_blocks_of i <= len (blocks_of i) /\ context_of i <= context_blocks_of i * bs.
Proof.
  intros Hi. pose proof (co_nonneg Hc i Hi). pose proof (co_positive Hc i Hi). pose proof (cdiv_spec (context_of i) bs Hbs).
  unfold context_blocks_of. split; [split; [by apply cdiv_nonneg|]|lia].
  destruct (decide (context_of i = 0)) as [->|]; [apply cdiv_le_iff; [done|]; apply Z.mul_nonneg_nonneg; [apply len_nonneg|lia]|].
  destruct (block_in_row i (context_of i - 1) Hi ltac:(lia)) as [_ Hb]. apply cdiv_le_iff; [done|].
  pose proof (Z.mul_succ_div_gt (context_of i - 1) bs Hbs). nia.
Qed.

Definition context_row (i : nat) : list nat := take (Z.to_nat (context_blocks_of i)) (blocks_of i).

Lemma len_context_row i : (i < k)%nat -> len (context_row i) = context_blocks_of i.
Proof. intros Hi. destruct (context_blocks_bound i Hi) as [[? ?] _]. unfold context_row, len in *. rewrite length_take. lia. Qed.

Lemma context_slots i : (i < k)%nat ->
  concat (block_slots bs <$> (Z.of_nat <$> context_row i)) = prompt_slot i <$> seqZ 0 (context_blocks_of i * bs).
Proof.
  intros Hi. rewrite <- list_fmap_compose. transitivity (slot_at bs (context_row i) <$> seqZ 0 (len (context_row i) * bs)).
  - by rewrite <- full_slots.
  - rewrite len_context_row by done. apply list_fmap_ext. intros _ p Hp%list_elem_of_lookup_2%elem_of_seqZ. unfold prompt_slot.
    rewrite <- (take_drop (Z.to_nat (context_blocks_of i)) (blocks_of i)). fold (context_row i). symmetry. apply slot_at_app; [done|].
    rewrite len_context_row by done. lia.
Qed.

Lemma context_lists :
  (zip_with (fun bl n => Z.of_nat <$> take (Z.to_nat n) bl) (blocks c) ((fun x => round_up x bs / bs) <$> context_lens c) : list (list Z)) =
    (fun i => Z.of_nat <$> context_row i) <$> seq 0 k.
Proof.
  destruct lists_as_seq as (_ & E2 & E3). rewrite E2, E3, <- list_fmap_compose, zip_with_fmap_same. apply fmap_seq_ext. intros i _.
  unfold compose, context_row, context_blocks_of. by rewrite round_up_blocks.
Qed.

(** ** A row per prompt *)

(** Padded rows: the rows of the prompts, then rows of padding. *)
Lemma align_rows (f : nat -> list Z) target_bs target_len v : 0 <= target_len -> Z.of_nat k <= target_bs -> (target_bs = 1 -> k = 1%nat) ->
  align_and_pad (f <$> seq 0 k) target_bs target_len v =
  Ok (((fun i => pad_list (f i) target_len v) <$> seq 0 k) ++ replicate (Z.to_nat (target_bs - Z.of_nat k)) (replicate (Z.to_nat target_len) v)).
Proof.
  intros Hlen Hb H1. unfold align_and_pad. assert (El : forall A (g : nat -> A), len (g <$> seq 0 k) = Z.of_nat k).
  { intros A g. unfold len. by rewrite length_fmap, length_seq. }
  assert (Hcond : (target_bs =? 1) && (1 <? len (f <$> seq 0 k)) = false).
  { rewrite El. destruct (Z.eqb_spec target_bs 1) as [->|]; [|done]. apply Z.ltb_ge. rewrite (H1 eq_refl). lia. }
  rewrite Hcond, <- list_fmap_compose. unfold compose. unfold guard_or. rewrite El, (proj2 (Z.leb_le _ _)) by done.
  rewrite (proj2 (Z.leb_le _ _)) by done. cbn [andb mbind result_mbind]. unfold pad_list at 1. by rewrite El.
Qed.

(** The attributes of a batch with a row per prompt. *)
Definition padded_rows (tb tl : Z) (f : nat -> list Z) : list (list Z) :=
  ((fun i => pad_list (f i) tl (-1)) <$> seq 0 k) ++ replicate (Z.to_nat (tb - Z.of_nat k)) (replicate (Z.to_nat tl) (-1)).
Definition slots_row (i : nat) : list Z := prompt_slot i <$> seqZ (context_of i) (query_len i).
Definition has_context : bool := 0 <? sumZ (context_lens c).

Definition row_inputs (tb ts tk : Z) : PrefillInputData :=
  let logits := logits_of (fun _ => ts) 0 (zip (zip (req_ids c) (pad_list (query_len <$> seq 0 k) tb 0)) (logits_positions c)) in
  mkPrefillInput (req_ids c) (pad_list (query_len <$> seq 0 k) tb 0) (pad_list (context_of <$> seq 0 k) tb 0)
    (padded_rows tb ts tokens_of) (padded_rows tb ts (fun i => seqZ (context_of i) (query_len i))) (padded_rows tb ts slots_row)
    (if has_context then Some (flatten (padded_rows tb tk (fun i => Z.of_nat <$> context_row i))) else None) None
    (pad_list logits.*1 (round_up (len logits) (logits_rounding r)) (-1)) logits.*2.

(** A bucket that is large enough for the batch. *)
Record bucket_fits (tb ts tk : Z) : Prop := {
  bf_bs : Z.of_nat k <= tb;
  bf_seq : forall i, (i < k)%nat -> query_len i <= ts;
  bf_blocks : forall i, (i < k)%nat -> context_blocks_of i <= tk
}.

Lemma length_padded_rows tb tl f : Z.of_nat k <= tb -> length (padded_rows tb tl f) = Z.to_nat tb.
Proof. intros Hb. unfold padded_rows. rewrite length_app, length_fmap, length_seq, length_replicate. lia. Qed.

Lemma lookup_padded_row tb tl f i : (i < k)%nat -> padded_rows tb tl f !! i = Some (pad_list (f i) tl (-1)).
Proof.
  intros Hi. unfold padded_rows. rewrite lookup_app_l by (by rewrite length_fmap, length_seq). by rewrite list_lookup_fmap, lookup_seq_lt.
Qed.

Lemma filter_pads n : filter (fun s => 0 <= s) (replicate n (-1)) = [].
Proof. apply filter_none. intros x [-> _]%elem_of_replicate. lia. Qed.

(** Without the padding: the rows themselves. *)
Lemma filter_padded tb tl f : (forall i, (i < k)%nat -> Forall (fun s => 0 <= s) (f i)) ->
  filter (fun s => 0 <= s) (concat (padded_rows tb tl f)) = concat (f <$> seq 0 k).
Proof.
  intros Hf. unfold padded_rows. rewrite concat_app, filter_app.
  assert (Hpad : forall n, filter (fun s => 0 <= s) (concat (replicate n (replicate (Z.to_nat tl) (-1)))) = []).
  { intros n. induction n as [|n IH]; [done|]. cbn [replicate concat]. by rewrite filter_app, IH, filter_pads. }
  rewrite Hpad, app_nil_r. assert (Hseq : forall i, i ∈ seq 0 k -> (i < k)%nat) by (intros i Hi%elem_of_seq; lia).
  revert Hseq. generalize (seq 0 k). intros l Hl. induction l as [|i l IH]; [done|]. rewrite !fmap_cons. cbn [concat].
  rewrite filter_app, IH by (intros; apply Hl; by right). f_equal. unfold pad_list. rewrite filter_app, filter_pads, app_nil_r.
  apply filter_all, Forall_forall, Hf, Hl. left.
Qed.

Lemma length_pad_list {A} (l : list A) n v : len l <= n -> length (pad_list l n v) = Z.to_nat n.
Proof. intros Hl. unfold pad_list. rewrite length_app, length_replicate. unfold len in *. lia. Qed.

Lemma padded_width tb tl f row : (forall i, (i < k)%nat -> len (f i) <= tl) -> row ∈ padded_rows tb tl f -> length row = Z.to_nat tl.
Proof.
  intros Hf [(i & -> & Hi%elem_of_seq)%list_elem_of_fmap|[-> _]%elem_of_replicate]%elem_of_app.
  - apply length_pad_list, Hf. lia.
  - apply length_replicate.
Qed.

Lemma concat_row {A} (rows : list (list A)) w i row : (forall row, row ∈ rows -> length row = w) -> rows !! i = Some row ->
  take w (drop (i * w) (concat rows)) = row.
Proof.
  revert i. induction rows as [|row' rows IH]; intros i Hw Hi; [done|]. cbn [concat]. pose proof (Hw row' ltac:(left)) as Hr.
  destruct i as [|i]; cbn in Hi.
  - simplify_eq. rewrite drop_0. apply take_app_length'. done.
  - replace (S i * w)%nat with (length row' + i * w)%nat by lia. rewrite drop_app_add. apply IH; [intros; apply Hw; by right|done].
Qed.

Lemma length_concat_rows {A} (rows : list (list A)) w : (forall row, row ∈ rows -> length row = w) -> length (concat rows) = (length rows * w)%nat.
Proof.
  induction rows as [|row rows IH]; intros Hw; [done|]. cbn. rewrite length_app, IH by (intros; apply Hw; by right).
  by rewrite (Hw row) by left.
Qed.

Lemma len_block_slots b : len (block_slots bs b) = bs.
Proof. unfold block_slots, len. rewrite length_fmap, length_seqZ. lia. Qed.

Lemma len_slots_of (l : list Z) : len (concat (block_slots bs <$> l)) = len l * bs.
Proof.
  induction l as [|b l IH]; [done|]. rewrite fmap_cons. cbn [concat]. rewrite len_app, len_cons, IH, len_block_slots. lia.
Qed.

Lemma context_len i : (i < k)%nat -> pad_list (context_of <$> seq 0 k) (Z.of_nat k) 0 !!! i = context_of i.
Proof.
  intros Hi. apply list_lookup_total_correct. unfold pad_list. rewrite lookup_app_l by (by rewrite length_fmap, length_seq).
  by rewrite list_lookup_fmap, lookup_seq_lt.
Qed.

Lemma lookup_padded_fn (f : nat -> Z) n v i : (i < k)%nat -> pad_list (f <$> seq 0 k) n v !!! i = f i.
Proof.
  intros Hi. apply list_lookup_total_correct. unfold pad_list. rewrite lookup_app_l by (by rewrite length_fmap, length_seq).
  by rewrite list_lookup_fmap, lookup_seq_lt.
Qed.

(** The slots of the context of a row, padded. *)
Definition past_slots (tk : Z) (i : nat) : list Z :=
  if has_context then concat (block_slots bs <$> pad_list (Z.of_nat <$> context_row i) tk (-1)) else [].

Lemma no_context i : has_context = false -> (i < k)%nat -> context_of i = 0.
Proof.
  unfold has_context. intros Hz%Z.ltb_ge Hi. destruct lists_as_seq as (_ & E & _). rewrite E in Hz.
  pose proof (sumZ_fmap_ge context_of k (co_nonneg Hc) i Hi). pose proof (co_nonneg Hc i Hi). lia.
Qed.

Lemma past_below tk i : (i < k)%nat -> context_blocks_of i <= tk ->
  take (Z.to_nat (context_of i)) (past_slots tk i) = prompt_slot i <$> seqZ 0 (context_of i).
Proof.
  intros Hi Hk. unfold past_slots. destruct has_context eqn:Eh.
  - unfold pad_list. rewrite fmap_app, concat_app, context_slots by done. destruct (context_blocks_bound i Hi) as [_ Hb].
    pose proof (co_nonneg Hc i Hi). rewrite take_app_le by (rewrite length_fmap, length_seqZ; lia).
    rewrite <- fmap_take. f_equal. replace (context_blocks_of i * bs) with (context_of i + (context_blocks_of i * bs - context_of i)) by lia.
    rewrite seqZ_app by lia. apply take_app_length'. rewrite length_seqZ. lia.
  - by rewrite (no_context i Eh Hi).
Qed.

Lemma context_row_fits i tk : (i < k)%nat -> context_blocks_of i <= tk -> len (Z.of_nat <$> context_row i) <= tk.
Proof. intros Hi Hk. unfold len. rewrite length_fmap. fold (len (context_row i)). by rewrite len_context_row. Qed.

(** What a row reads is what [row_keys] fetches. *)
Lemma row_keys_ok tb ts tk i : bucket_fits tb ts tk -> (i < k)%nat -> use_contiguous_pa (run_config r) = false \/ has_context = false ->
  row_keys r (Z.to_nat tb) (row_inputs tb ts tk) i = past_slots tk i ++ pad_list (slots_row i) ts (-1).
Proof.
  intros [Hb Hs Hk] Hi Hcp. unfold row_keys, row_inputs. cbn [pi_slot_mapping pi_block_list]. f_equal.
  2:{ by apply list_lookup_total_correct, lookup_padded_row. }
  unfold past_slots. destruct has_context eqn:Eh; cbn [default].
  - destruct Hcp as [->|?]; [|done]. unfold flatten. do 2 f_equal. cbn [id].
    assert (Hw : forall row, row ∈ padded_rows tb tk (fun i => Z.of_nat <$> context_row i) -> length row = Z.to_nat tk).
    { intros row. apply padded_width. intros j Hj. by apply context_row_fits, Hk. }
    rewrite (length_concat_rows _ _ Hw), length_padded_rows by done. rewrite Nat.mul_comm, Nat.div_mul by (pose proof (co_some Hc); lia).
    apply concat_row; [done|]. by apply lookup_padded_row.
  - rewrite Nat.Div0.div_0_l. done.
Qed.

(** The keys that a query attends: its positions up to its own, in order. *)
Lemma row_reads_ok fused tb ts tk mask i q : bucket_fits tb ts tk -> (i < k)%nat -> Z.of_nat q < query_len i ->
  use_contiguous_pa (run_config r) = false \/ has_context = false ->
  _set_attn_bias r fused (row_inputs tb ts tk) (Z.to_nat tb) (Z.to_nat ts) = Some mask ->
  prefill_reads r mask (Z.to_nat tb) (row_inputs tb ts tk) i q = prompt_slot i <$> seqZ 0 (context_of i + Z.of_nat q + 1).
Proof.
  intros Hf Hi Hq Hcp Hmask. pose proof Hf as [Hb Hs Hk]. unfold prefill_reads. rewrite row_keys_ok by done.
  assert (Hm : (mask !!! i) !!! q =
    ((fun x => context_of i <=? x) <$> seqZ 0 (len (past_slots tk i))) ++
    ((fun t => Z.min (Z.of_nat q + 1) (query_len i) <=? t) <$> seqZ 0 (len (pad_list (slots_row i) ts (-1))))).
  { unfold _set_attn_bias, row_inputs in Hmask. cbn [pi_attn_bias pi_block_list pi_context_lens pi_query_lens] in Hmask.
    destruct (fused && _); [done|]. injection Hmask as <-.
    assert (HtS : (q < Z.to_nat ts)%nat) by (specialize (Hs i Hi); lia). assert (HiB : (i < Z.to_nat tb)%nat) by lia.
    rewrite !lookup_total_fmap_seq by done. rewrite !lookup_padded_fn by done. f_equal.
    - do 2 f_equal. unfold past_slots. destruct has_context; [|done].
      rewrite len_slots_of. f_equal. unfold flatten, len at 1. rewrite (length_concat_rows _ (Z.to_nat tk)).
      + rewrite length_padded_rows by done. rewrite Nat2Z.inj_mul, Z.mul_comm, Z.div_mul by lia.
        unfold len. rewrite length_pad_list; [done|]. apply context_row_fits; [done|by apply Hk].
      + intros row. apply padded_width. intros j Hj. apply context_row_fits; [done|by apply Hk].
    - assert (El : len (pad_list (slots_row i) ts (-1)) = Z.of_nat (Z.to_nat ts)).
      { unfold len at 1. rewrite length_pad_list; [done|]. unfold slots_row, len. rewrite length_fmap, length_seqZ. specialize (Hs i Hi). lia. }
      rewrite El. apply list_fmap_ext. intros _ t _. destruct (Z.ltb_spec (Z.of_nat q) t), (Z.leb_spec (query_len i) t),
        (Z.leb_spec (Z.min (Z.of_nat q + 1) (query_len i)) t); (done || lia). }
  rewrite Hm, unmasked_app by (rewrite length_fmap, length_seqZ; unfold len; lia).
  rewrite !unmasked_below, !Z.sub_0_r, past_below by (done || by apply Hk). rewrite Z.min_l by lia.
  unfold pad_list, slots_row. rewrite take_app_le by (rewrite length_fmap, length_seqZ; lia). rewrite <- fmap_take.
  pose proof (co_nonneg Hc i Hi).
  replace (context_of i + Z.of_nat q + 1) with (context_of i + (Z.of_nat q + 1)) by lia. rewrite seqZ_app, fmap_app by lia.
  f_equal. f_equal. rewrite Z.add_0_l. replace (query_len i) with ((Z.of_nat q + 1) + (query_len i - (Z.of_nat q + 1))) by lia.
  rewrite seqZ_app by lia. apply take_app_length'. rewrite length_seqZ. lia.
Qed.

(** ** Forming a batch of rows *)

Definition same_limits (m m' : HPUBucketingManager) : Prop :=
  BucketManager.max_num_batched_tokens m' = BucketManager.max_num_batched_tokens m /\ num_hpu_blocks m' = num_hpu_blocks m /\
  decode_buckets m' = decode_buckets m.

Lemma pool_same N m m' : pool_buckets N m -> lookup_inv m' -> same_limits m m' -> pool_buckets N m'.
Proof. intros [? ? ?] Hm (_ & E1 & E2). split; [done|by rewrite E1|by rewrite E2]. Qed.

Lemma wp_find_prompt n seq ctx (Q : Bucket -> HPUBucketingManager -> Prop) m : lookup_inv m ->
  seq <= BucketManager.max_num_batched_tokens m -> ctx <= default 0 (num_hpu_blocks m) ->
  (forall b m', lookup_inv m' -> same_limits m m' -> n <= b.1.1 /\ seq <= b.1.2 /\ ctx <= b.2 -> Q b m') ->
  wp (find_prompt_bucket n seq ctx) Q m.
Proof.
  intros Hm Hseq Hctx HQ. destruct (lookup_ok m (prompt_buckets m) (n, seq, ctx) Hm (li_prompt m Hm)) as (b & l' & Hr & Hcase).
  assert (Hfits : fits m (n, seq, ctx)) by (unfold fits; cbn; split; [by left|done]).
  destruct (proj2 (proj2 (proj2 Hr)) Hfits) as [Hd _]. unfold dominates in Hd. simpl in Hd.
  apply (wp_intro _ _ _ b (set_prompt_buckets l' m)).
  - unfold find_prompt_bucket, mbind, M_mbind, M_bind, get_state. rewrite (li_initialized m Hm).
    destruct Hcase as [[-> ->]|(-> & Eb & ->)]; [by rewrite set_prompt_same|]. simpl in Eb. unfold lift_result, modify. by rewrite Eb.
  - apply HQ; [apply lookup_inv_prompt; [done|apply Hr]|done|lia].
Qed.

Lemma np_max_seq (f : nat -> Z) n : (0 < n)%nat -> exists x, np_max (f <$> seq 0 n) = Ok x /\ (forall i, (i < n)%nat -> f i <= x) /\
  exists i, (i < n)%nat /\ x = f i.
Proof.
  intros Hn. destruct (np_max_in (f <$> seq 0 n)) as (x & Hx & Hin); [destruct n; [lia|done]|].
  exists x. split; [done|]. split.
  - intros i Hi. apply (np_max_ge _ _ Hx), list_elem_of_fmap. exists i. split; [done|]. apply elem_of_seq. lia.
  - apply list_elem_of_fmap in Hin as (i & -> & Hi%elem_of_seq). exists i. split; [lia|done].
Qed.

Context (Hdp : forall n, 0 <= dp n).

Lemma form_rows_ok m : unified_attn r = false -> merged_prefill (run_config r) = false -> lookup_inv m ->
  Z.of_nat k <= max_prefill_batch_size r ->
  (forall i, (i < k)%nat -> query_len i <= BucketManager.max_num_batched_tokens m /\ context_blocks_of i <= default 0 (num_hpu_blocks m)) ->
  wp (_form_prefill_batch r dp c) (fun o m' => lookup_inv m' /\ same_limits m m' /\
    exists tb ts tk, o = Some (row_inputs tb ts tk) /\ bucket_fits tb ts tk) m.
Proof.
  intros Hu Hmp Hm Hmax Hlim. pose proof (co_some Hc) as Hk. unfold _form_prefill_batch. rewrite (proj2 (Nat.eqb_neq k 0)) by lia.
  cbv zeta. rewrite positions_ok. apply wp_bind. eapply wp_lift; [apply token_slots_ok|].
  rewrite context_lists. destruct lists_as_seq as (E1 & E2 & E3).
  assert (Eq : get_num_tokens c = query_len <$> seq 0 k) by (unfold get_num_tokens; rewrite E1, <- list_fmap_compose; done).
  assert (El : len <$> ((fun i => Z.of_nat <$> context_row i) <$> seq 0 k) = context_blocks_of <$> seq 0 k).
  { rewrite <- list_fmap_compose. apply fmap_seq_ext. intros i Hi. unfold compose, len. rewrite length_fmap. by apply len_context_row. }
  unfold _get_prompt_bucketing_fn. rewrite Hu, Hmp. rewrite Eq. rewrite El.
  destruct (np_max_seq query_len k Hk) as (Q & HQ & HQle & iq & Hiq & EQ). destruct (np_max_seq context_blocks_of k Hk) as (B & HB & HBle & ib & Hib & EB).
  apply wp_bind. unfold _bucketize_2d_prompt. assert (Elen : len (query_len <$> seq 0 k) = Z.of_nat k) by (unfold len; by rewrite length_fmap, length_seq).
  rewrite Elen. rewrite (proj2 (Z.ltb_ge _ _)) by done. apply wp_bind. eapply wp_lift; [exact HQ|]. apply wp_bind.
  apply (wp_mono _ (fun x m' => x = B /\ m' = m)).
  { rewrite HB. destruct (context_blocks_of <$> seq 0 k) eqn:E0; [|by apply (wp_lift _ B)]. apply (f_equal length) in E0.
    rewrite length_fmap, length_seq in E0. cbn in E0. lia. }
  intros x m1 [-> ->]. apply wp_find_prompt; [done|rewrite EQ; by apply Hlim|rewrite EB; by apply Hlim|].
  intros b m' Hm' Hsame (Hb1 & Hb2 & Hb3).
  set (tb := b.1.1 + dp b.1.1). set (ts := b.1.2 + dp b.1.2). set (tk := b.2 + dp b.2).
  pose proof (Hdp b.1.1). pose proof (Hdp b.1.2). pose proof (Hdp b.2).
  assert (Hf : bucket_fits tb ts tk).
  { split; [unfold tb; lia|intros i Hi; pose proof (HQle i Hi); unfold ts; lia|intros i Hi; pose proof (HBle i Hi); unfold tk; lia]. }
  assert (Hone : tb = 1 -> k = 1%nat) by (unfold tb; lia). assert (Hts : 0 <= ts) by (pose proof (co_positive Hc 0 Hk); pose proof (bf_seq _ _ _ Hf 0 Hk); lia).
  assert (Htk : 0 <= tk) by (pose proof (context_blocks_bound 0 Hk); pose proof (bf_blocks _ _ _ Hf 0 Hk); lia).
  assert (Hal : forall f tl, 0 <= tl -> align_and_pad (f <$> seq 0 k) tb tl (-1) = Ok (padded_rows tb tl f)).
  { intros f tl Htl. apply align_rows; [done|apply Hf|done]. }
  rewrite E1. rewrite !imap_fmap_seq.
  apply wp_bind. eapply wp_lift; [by apply Hal|]. apply wp_bind. eapply wp_lift; [by apply Hal|].
  apply wp_bind. eapply wp_lift; [by apply Hal|]. apply wp_bind. eapply wp_lift; [by apply Hal|].
  apply wp_bind. eapply wp_lift; [by apply Hal|]. apply wp_bind. eapply wp_lift; [by apply Hal|].
  apply wp_bind. eapply wp_lift; [apply (np_get_ok _ 0), (lookup_padded_row tb ts tokens_of 0 Hk)|].
  apply wp_ret. split; [done|]. split; [done|]. exists tb, ts, tk. split; [|done]. f_equal. unfold row_inputs.
  assert (Efirst : len (pad_list (tokens_of 0) ts (-1)) = ts).
  { unfold len. rewrite length_pad_list; [lia|]. by apply (bf_seq _ _ _ Hf). }
  rewrite Efirst. unfold has_context. by rewrite E2.
Qed.

(** ** The logits that are kept *)

Definition request_of (i : nat) : string := req_ids c !!! i.
Definition logits_pos_of (i : nat) : list Z := logits_positions c !!! i.
(** The wanted positions: request and position in its new tokens. *)
Definition wanted : list (nat * Z) := concat ((fun i => pair i <$> logits_pos_of i) <$> seq 0 k).

Lemma zip_requests tb :
  zip (zip (req_ids c) (pad_list (query_len <$> seq 0 k) tb 0)) (logits_positions c) =
  (fun i => (request_of i, query_len i, logits_pos_of i)) <$> seq 0 k.
Proof.
  assert (Er : req_ids c = request_of <$> seq 0 k) by apply as_seq.
  assert (El : logits_positions c = logits_pos_of <$> seq 0 k).
  { rewrite (as_seq (logits_positions c)) at 1. by rewrite (co_logits Hc). }
  rewrite El. rewrite Er at 1. unfold pad_list.
  rewrite <- (app_nil_r (request_of <$> seq 0 k)). rewrite zip_with_app by (by rewrite !length_fmap).
  cbn [zip_with]. rewrite app_nil_r.
  assert (Ez : zip (request_of <$> seq 0 k) (query_len <$> seq 0 k) = (fun i => (request_of i, query_len i)) <$> seq 0 k) by apply zip_with_fmap_same.
  rewrite Ez. apply zip_with_fmap_same.
Qed.

Lemma logits_of_rows (step : Z -> Z) (start : nat -> Z) s n : (forall i, start (S i) = start i + step (query_len i)) ->
  logits_of step (start s) ((fun i => (request_of i, query_len i, logits_pos_of i)) <$> seq s n) =
  (fun e => (start e.1 + e.2, request_of e.1)) <$> concat ((fun i => pair i <$> logits_pos_of i) <$> seq s n).
Proof.
  intros Hs. revert s. induction n as [|n IH]; intros s; [done|]. cbn [seq]. rewrite !fmap_cons. cbn [logits_of concat].
  rewrite fmap_app, <- list_fmap_compose. unfold compose. cbn [fst snd]. f_equal. rewrite <- Hs. apply IH.
Qed.

(** The start of a prompt in the flat row of a merged batch. *)
Definition merged_start (i : nat) : Z := sumZ (query_len <$> seq 0 i).

Lemma merged_start_S i : merged_start (S i) = merged_start i + query_len i.
Proof. unfold merged_start. rewrite seq_S, fmap_app, sumZ_app. cbn. lia. Qed.

(** What a batch keeps: the wanted positions of every request, in order, as flat
    indices from where its row starts. *)
Definition keeps_logits (start : nat -> Z) (md : PrefillInputData) : Prop :=
  pi_logits_indices md = (fun e => start e.1 + e.2) <$> wanted /\ pi_logits_requests md = (fun e => request_of e.1) <$> wanted /\
  forall i x, (i < k)%nat -> 0 <= x < query_len i -> flatten (pi_token_ids md) !! Z.to_nat (start i + x) = tokens_of i !! Z.to_nat x.

Lemma round_up_1 (l : list Z) : pad_list l (round_up (len l) 1) (-1) = l.
Proof. apply pad_list_full. unfold round_up. rewrite Z.div_1_r. lia. Qed.

Lemma row_logits_ok tb ts tk : logits_rounding r = 1 -> bucket_fits tb ts tk -> keeps_logits (fun i => Z.of_nat i * ts) (row_inputs tb ts tk).
Proof.
  intros Hr [Hb Hs Hk]. unfold keeps_logits, row_inputs. cbn [pi_logits_indices pi_logits_requests pi_token_ids]. rewrite zip_requests.
  pose proof (logits_of_rows (fun _ => ts) (fun i => Z.of_nat i * ts) 0 k ltac:(intros; cbv beta; lia)) as E. cbv beta in E.
  change (Z.of_nat 0 * ts) with 0 in E. rewrite E. fold wanted. clear E.
  assert (El : len ((fun e : nat * Z => (Z.of_nat e.1 * ts + e.2, request_of e.1)) <$> wanted) =
    len (((fun e : nat * Z => (Z.of_nat e.1 * ts + e.2, request_of e.1)) <$> wanted).*1)) by (unfold len; by rewrite !length_fmap).
  rewrite Hr, El, round_up_1, <- !list_fmap_compose. split; [done|]. split; [done|].
  intros i x Hi Hx. pose proof (Hs i Hi). unfold flatten.
  replace (Z.to_nat (Z.of_nat i * ts + x)) with (i * Z.to_nat ts + Z.to_nat x)%nat by nia.
  rewrite (lookup_concat _ (Z.to_nat ts) i (Z.to_nat x) (pad_list (tokens_of i) ts (-1))).
  - unfold pad_list. rewrite lookup_app_l; [done|]. unfold query_len, len in *. lia.
  - intros row. apply padded_width. apply Hs.
  - by apply lookup_padded_row.
  - lia.
Qed.

(** ** Prompts merged into one row *)

Lemma align_merge (f : nat -> list Z) tl v : 0 <= tl ->
  align_and_pad (f <$> seq 0 k) 1 tl v = Ok [pad_list (concat (f <$> seq 0 k)) tl v].
Proof.
  intros Htl. pose proof (co_some Hc) as Hk. unfold align_and_pad. cbn [Z.eqb Pos.eqb andb].
  assert (El : len (f <$> seq 0 k) = Z.of_nat k) by (unfold len; by rewrite length_fmap, length_seq). rewrite El.
  destruct (Z.ltb_spec 1 (Z.of_nat k)) as [H1|H1].
  - cbn [fmap list_fmap]. unfold guard_or. rewrite (proj2 (Z.leb_le _ _)) by done. done.
  - assert (k = 1%nat) as -> by lia. cbn [seq fmap list_fmap concat]. rewrite app_nil_r. unfold guard_or.
    rewrite (proj2 (Z.leb_le _ _)) by done. done.
Qed.

Definition context_rows : list (list Z) := (fun i => Z.of_nat <$> context_row i) <$> seq 0 k.

Definition merged_inputs (ts tk : Z) : PrefillInputData :=
  let logits := logits_of (fun q => q) 0 (zip (zip (req_ids c) (query_len <$> seq 0 k)) (logits_positions c)) in
  mkPrefillInput (req_ids c) (query_len <$> seq 0 k) (context_of <$> seq 0 k)
    [pad_list (concat (tokens_of <$> seq 0 k)) ts (-1)]
    [pad_list (concat ((fun i => seqZ (context_of i) (query_len i)) <$> seq 0 k)) ts (-1)]
    [pad_list (concat (slots_row <$> seq 0 k)) ts (-1)]
    (if has_context then Some (flatten [pad_list (concat context_rows) tk (-1)]) else None)
    (Some [make_attn_mask r (pad_list (group_rows Z.of_nat context_rows) tk (-1))
      (pad_list (group_rows Z.of_nat (tokens_of <$> seq 0 k)) ts (-1))])
    (pad_list logits.*1 (round_up (len logits) (logits_rounding r)) (-1)) logits.*2.

Lemma form_merged_ok m : unified_attn r = false -> merged_prefill (run_config r) = true -> lookup_inv m -> (forall n, dp n = 0) ->
  merged_start k <= BucketManager.max_num_batched_tokens m -> sumZ (context_blocks_of <$> seq 0 k) <= default 0 (num_hpu_blocks m) ->
  wp (_form_prefill_batch r dp c) (fun o m' => lookup_inv m' /\ same_limits m m' /\
    exists ts, merged_start k <= ts /\ o = Some (merged_inputs ts (round_up (sumZ (context_blocks_of <$> seq 0 k)) 32))) m.
Proof.
  intros Hu Hmp Hm Hdp0 Hlim1 Hlim2. pose proof (co_some Hc) as Hk. unfold _form_prefill_batch. rewrite (proj2 (Nat.eqb_neq k 0)) by lia.
  cbv zeta. rewrite positions_ok. apply wp_bind. eapply wp_lift; [apply token_slots_ok|].
  rewrite context_lists. destruct lists_as_seq as (E1 & E2 & E3).
  assert (Eq : get_num_tokens c = query_len <$> seq 0 k) by (unfold get_num_tokens; rewrite E1, <- list_fmap_compose; done).
  assert (El : len <$> ((fun i => Z.of_nat <$> context_row i) <$> seq 0 k) = context_blocks_of <$> seq 0 k).
  { rewrite <- list_fmap_compose. apply fmap_seq_ext. intros i Hi. unfold compose, len. rewrite length_fmap. by apply len_context_row. }
  unfold _get_prompt_bucketing_fn. rewrite Hu, Hmp. rewrite Eq. rewrite El. apply wp_bind. unfold _bucketize_merged_prompt. apply wp_bind.
  apply wp_find_prompt; [done|done|done|]. intros b m' Hm' Hsame (Hb1 & Hb2 & Hb3). apply wp_ret. cbn [fst snd]. rewrite !Hdp0, !Z.add_0_r.
  assert (Hts : 0 <= b.1.2).
  { eapply Z.le_trans; [|exact Hb2]. apply sumZ_nonneg, Forall_fmap, Forall_forall. intros i Hi%elem_of_seq. cbn. apply len_nonneg. }
  assert (Htk : 0 <= round_up (sumZ (context_blocks_of <$> seq 0 k)) 32).
  { assert (Hn : forall x, 0 <= x -> 0 <= round_up x 32) by (intros x Hx; unfold round_up; pose proof (Z.div_pos (x + 32 - 1) 32); lia).
    apply Hn, sumZ_nonneg, Forall_fmap, Forall_forall. intros i Hi%elem_of_seq. cbn.
    by destruct (context_blocks_bound i ltac:(lia)) as [[? _] _]. }
  rewrite E1, !imap_fmap_seq.
  assert (Hpl : forall f : nat -> Z, pad_list (f <$> seq 0 k) 1 0 = f <$> seq 0 k).
  { intros f. apply pad_list_full. unfold len. rewrite length_fmap, length_seq. lia. }
  apply wp_bind. eapply wp_lift; [by apply align_merge|]. apply wp_bind. eapply wp_lift; [by apply align_merge|].
  apply wp_bind. eapply wp_lift; [by apply align_merge|]. apply wp_bind. eapply wp_lift; [by apply align_merge|].
  apply wp_bind. eapply wp_lift; [by apply align_merge|]. apply wp_bind. eapply wp_lift; [by apply align_merge|].
  apply wp_bind. eapply wp_lift; [by apply (np_get_ok _ 0)|]. apply wp_ret. split; [done|]. split; [done|].
  exists b.1.2. split; [done|]. f_equal. unfold merged_inputs, has_context. rewrite E2, !Hpl. cbn [zip_with].
  unfold group_rows, context_rows. rewrite !imap_fmap_seq. unfold flatten.
  assert (Eg : (fun i => replicate (Z.to_nat (context_blocks_of i)) (Z.of_nat i)) <$> seq 0 k =
    (fun i => replicate (length (Z.of_nat <$> context_row i)) (Z.of_nat i)) <$> seq 0 k).
  { apply fmap_seq_ext. intros i Hi. rewrite length_fmap. pose proof (len_context_row i Hi). unfold len in *. f_equal. lia. }
  by rewrite Eg.
Qed.

Lemma sumZ_lens (f : nat -> list Z) n : sumZ ((fun i => len (f i)) <$> seq 0 n) = len (concat (f <$> seq 0 n)).
Proof. rewrite <- sumZ_len, <- list_fmap_compose. done. Qed.

Lemma take_fmap_seq {A} (f : nat -> A) n i : (i <= n)%nat -> take i (f <$> seq 0 n) = f <$> seq 0 i.
Proof. intros Hi. rewrite <- fmap_take. f_equal. rewrite take_seq. by rewrite Nat.min_l. Qed.

(** Where the tokens of a prompt start, in any list with a row per token. *)
Lemma start_length (f : nat -> list Z) i : (forall j, (j < k)%nat -> len (f j) = query_len j) -> (i <= k)%nat ->
  Z.of_nat (length (concat (take i (f <$> seq 0 k)))) = merged_start i.
Proof.
  intros Hf Hi. rewrite take_fmap_seq by done. fold (len (concat (f <$> seq 0 i))). rewrite <- sumZ_lens. unfold merged_start. f_equal.
  apply fmap_seq_ext. intros j Hj. apply Hf. lia.
Qed.

Lemma merged_logits_ok ts tk : logits_rounding r = 1 -> merged_start k <= ts -> keeps_logits merged_start (merged_inputs ts tk).
Proof.
  intros Hr Hts. unfold keeps_logits, merged_inputs. cbn [pi_logits_indices pi_logits_requests pi_token_ids].
  pose proof (zip_requests (Z.of_nat k)) as Ez. rewrite pad_list_full in Ez by (unfold len; rewrite length_fmap, length_seq; lia). rewrite Ez.
  pose proof (logits_of_rows (fun q => q) merged_start 0 k ltac:(intros; apply merged_start_S)) as E. change (merged_start 0) with 0 in E.
  rewrite E. fold wanted. clear E.
  assert (El : len ((fun e : nat * Z => (merged_start e.1 + e.2, request_of e.1)) <$> wanted) =
    len (((fun e : nat * Z => (merged_start e.1 + e.2, request_of e.1)) <$> wanted).*1)) by (unfold len; by rewrite !length_fmap).
  rewrite Hr, El, round_up_1, <- !list_fmap_compose. split; [done|]. split; [done|].
  intros i x Hi Hx. unfold flatten. cbn [concat]. rewrite app_nil_r. unfold pad_list.
  pose proof (start_length tokens_of i ltac:(done) ltac:(lia)) as Hs.
  assert (Hrow : (tokens_of <$> seq 0 k) !! i = Some (tokens_of i)) by (by rewrite list_lookup_fmap, lookup_seq_lt).
  rewrite <- (take_drop_middle _ _ _ Hrow), concat_app. cbn [concat].
  rewrite <- !app_assoc, lookup_app_r by lia. rewrite lookup_app_l by (unfold query_len, len in *; lia). f_equal. lia.
Qed.

(** Expanded to slots, the groups of the context rows are those of their slots. *)
Lemma expand_groups (h : nat -> Z) (f : nat -> list Z) (g : nat -> list Z) s n :
  (forall i, len (g i) = len (f i) * bs) ->
  flatten ((fun x => replicate (Z.to_nat bs) x) <$> flatten (imap (fun i row => replicate (length row) (h i)) (f <$> seq s n))) =
  flatten (imap (fun i row => replicate (length row) (h i)) (g <$> seq s n)).
Proof.
  intros Hl. revert h s. induction n as [|n IH]; intros h s; [done|]. cbn [seq fmap list_fmap imap]. unfold flatten. cbn [concat].
  rewrite fmap_app, concat_app. f_equal; [|apply (IH (h ∘ S))]. specialize (Hl s). unfold len in Hl.
  replace (length (g s)) with (length (f s) * Z.to_nat bs)%nat by nia. generalize (length (f s)) as x. intros x. clear. 
  induction x as [|x IHx]; [done|]. cbn [replicate fmap list_fmap concat Nat.mul]. rewrite IHx. by rewrite <- replicate_add.
Qed.

Definition past_row (i : nat) : list Z := concat (block_slots bs <$> (Z.of_nat <$> context_row i)).

Lemma past_rows : concat (past_row <$> seq 0 k) = concat (block_slots bs <$> concat context_rows).
Proof.
  unfold context_rows, past_row. generalize (seq 0 k). intros l. induction l as [|i l IH]; [done|]. rewrite !fmap_cons. cbn [concat].
  by rewrite fmap_app, concat_app, IH.
Qed.

Lemma masked_all {A} (f : nat -> A -> bool) (l : list A) keys : (forall j x, x ∈ l -> f j x = true) -> unmasked (imap f l) keys = [].
Proof.
  revert f keys. induction l as [|x l IH]; intros f keys Hf; [done|]. cbn [imap]. destruct keys as [|y keys]; [done|]. cbn [unmasked].
  rewrite Hf by left. cbn. apply IH. intros j z Hz. apply Hf. by right.
Qed.

Lemma group_rows_len (h : nat -> Z) (f g : nat -> list Z) n : (forall i, (i < n)%nat -> len (f i) = len (g i)) ->
  group_rows h (f <$> seq 0 n) = group_rows h (g <$> seq 0 n).
Proof.
  intros Hl. unfold group_rows. rewrite !imap_fmap_seq. f_equal. apply fmap_seq_ext. intros i Hi. specialize (Hl i Hi). unfold len in Hl. f_equal. lia.
Qed.

Lemma past_row_len i : len (past_row i) = len (Z.of_nat <$> context_row i) * bs.
Proof. apply len_slots_of. Qed.

(** The context part of a merged row. *)
Lemma merged_past tk i : sumZ (context_blocks_of <$> seq 0 k) <= tk -> (has_context = false -> tk = 0) -> (i < k)%nat ->
  let groups := flatten ((fun g => replicate (Z.to_nat bs) g) <$> pad_list (group_rows Z.of_nat context_rows) tk (-1)) in
  let keys := if has_context then concat (block_slots bs <$> pad_list (concat context_rows) tk (-1)) else [] in
  length groups = length keys /\ unmasked ((fun x => negb (x =? Z.of_nat i)) <$> groups) keys = past_row i.
Proof.
  intros Htk Hz Hi groups keys.
  assert (Hgl : len (group_rows Z.of_nat context_rows) = len (concat context_rows)).
  { unfold group_rows, context_rows. rewrite imap_fmap_seq. unfold flatten. rewrite <- !sumZ_lens. f_equal. apply fmap_seq_ext.
    intros j _. unfold len. by rewrite length_replicate. }
  set (n := Z.to_nat (tk - len (concat context_rows))).
  assert (Hg : groups = group_rows Z.of_nat (past_row <$> seq 0 k) ++ replicate (n * Z.to_nat bs) (-1)).
  { unfold groups, pad_list. rewrite Hgl. fold n. rewrite fmap_app. unfold flatten at 1. rewrite concat_app. f_equal.
    - apply (expand_groups Z.of_nat (fun i => Z.of_nat <$> context_row i) past_row). intros j. apply past_row_len.
    - generalize n. clear. intros n. induction n as [|n IH]; [done|]. cbn [replicate fmap list_fmap concat Nat.mul]. by rewrite IH, <- replicate_add. }
  assert (Hgrp : length (group_rows Z.of_nat (past_row <$> seq 0 k)) = length (concat (past_row <$> seq 0 k))).
  { unfold group_rows. rewrite imap_fmap_seq. unfold flatten. apply Nat2Z.inj. fold (len (concat (past_row <$> seq 0 k))). rewrite <- sumZ_lens.
    fold (len (concat ((fun i => replicate (length (past_row i)) (Z.of_nat i)) <$> seq 0 k))). rewrite <- sumZ_lens. f_equal. apply fmap_seq_ext.
    intros j _. unfold len. by rewrite length_replicate. }
  assert (Hopen : unmasked ((fun x => negb (x =? Z.of_nat i)) <$> group_rows Z.of_nat (past_row <$> seq 0 k)) (concat (past_row <$> seq 0 k)) = past_row i).
  { apply unmasked_group; [intros j E; lia|]. by rewrite list_lookup_fmap, lookup_seq_lt. }
  assert (Hk : keys = concat (past_row <$> seq 0 k) ++ (if has_context then concat (block_slots bs <$> replicate n (-1)) else [])).
  { unfold keys. destruct has_context eqn:Eh.
    - unfold pad_list. by rewrite fmap_app, concat_app, past_rows.
    - rewrite app_nil_r. assert (forall l, (forall j, j ∈ l -> (j < k)%nat) -> concat (past_row <$> l) = []) as ->; [|done|intros j Hj%elem_of_seq; lia].
      intros l. induction l as [|j l IH]; intros Hl; [done|]. rewrite fmap_cons. cbn [concat]. rewrite IH by (intros; apply Hl; by right).
      assert (E : context_row j = []); [|unfold past_row; by rewrite E]. unfold context_row, context_blocks_of.
      rewrite (no_context j Eh) by (apply Hl; left). done. }
  assert (Hn : has_context = false -> n = 0%nat) by (intros E; unfold n; rewrite (Hz E); pose proof (len_nonneg (concat context_rows)); lia).
  split.
  - rewrite Hg, Hk, !length_app, Hgrp, length_replicate. f_equal. destruct has_context; [|by rewrite Hn].
    pose proof (len_slots_of (replicate n (-1))) as El. unfold len in El. rewrite length_replicate in El. nia.
  - rewrite Hg, Hk, fmap_app, unmasked_app, Hopen by (by rewrite length_fmap). rewrite fmap_replicate.
    rewrite (proj2 (Z.eqb_neq (-1) (Z.of_nat i))) by lia. cbn [negb]. rewrite unmasked_all. apply app_nil_r.
Qed.

(** Its new tokens. *)
Lemma merged_new ts i q : merged_start k <= ts -> (i < k)%nat -> Z.of_nat q < query_len i ->
  let groups := pad_list (group_rows Z.of_nat (tokens_of <$> seq 0 k)) ts (-1) in
  let keys := pad_list (concat (slots_row <$> seq 0 k)) ts (-1) in
  let row := (Z.to_nat (merged_start i) + q)%nat in
  groups !! row = Some (Z.of_nat i) /\
  unmasked (imap (fun j x => negb (x =? Z.of_nat i) || (row <? j)%nat) groups) keys = take (S q) (slots_row i).
Proof.
  intros Hts Hi Hq groups keys row.
  assert (Hlen : forall j, (j < k)%nat -> len (tokens_of j) = len (slots_row j)).
  { intros j Hj. unfold slots_row, len. rewrite length_fmap, length_seqZ. unfold query_len, len. lia. }
  assert (Egr : group_rows Z.of_nat (tokens_of <$> seq 0 k) = group_rows Z.of_nat (slots_row <$> seq 0 k)) by (by apply group_rows_len).
  assert (Hgl : length (group_rows Z.of_nat (slots_row <$> seq 0 k)) = length (concat (slots_row <$> seq 0 k))).
  { unfold group_rows. rewrite imap_fmap_seq. unfold flatten. apply Nat2Z.inj. fold (len (concat (slots_row <$> seq 0 k))). rewrite <- sumZ_lens.
    fold (len (concat ((fun i => replicate (length (slots_row i)) (Z.of_nat i)) <$> seq 0 k))). rewrite <- sumZ_lens. f_equal. apply fmap_seq_ext.
    intros j _. unfold len. by rewrite length_replicate. }
  pose proof (start_length slots_row i ltac:(intros; by rewrite <- Hlen) ltac:(lia)) as Hst.
  assert (Hrow : (slots_row <$> seq 0 k) !! i = Some (slots_row i)) by (by rewrite list_lookup_fmap, lookup_seq_lt).
  assert (Er : row = (length (concat (take i (slots_row <$> seq 0 k))) + q)%nat) by (unfold row; lia).
  unfold groups, keys. rewrite Egr. split.
  - unfold pad_list. rewrite lookup_app_l.
    + rewrite Er. unfold group_rows. rewrite imap_fmap_seq. unfold flatten.
      assert (Hrow' : ((fun j => replicate (length (slots_row j)) (Z.of_nat j)) <$> seq 0 k) !! i = Some (replicate (length (slots_row i)) (Z.of_nat i)))
        by (by rewrite list_lookup_fmap, lookup_seq_lt).
      rewrite <- (take_drop_middle _ _ _ Hrow'), concat_app. cbn [concat].
      assert (El : length (concat (take i ((fun j => replicate (length (slots_row j)) (Z.of_nat j)) <$> seq 0 k))) = length (concat (take i (slots_row <$> seq 0 k)))).
      { apply Nat2Z.inj. rewrite Hst. apply start_length; [|lia]. intros j Hj. unfold len. rewrite length_replicate. specialize (Hlen j Hj). unfold query_len, len in *. lia. }
      rewrite lookup_app_r by lia. rewrite El. replace (_ + q - _)%nat with q by lia. rewrite lookup_app_l; [apply lookup_replicate_2|rewrite length_replicate];
        specialize (Hlen i Hi); unfold query_len, len in *; lia.
    + rewrite Hgl, Er. rewrite <- (take_drop_middle _ _ _ Hrow) at 2. rewrite concat_app, length_app. cbn [concat]. rewrite length_app.
      specialize (Hlen i Hi). unfold query_len, len in *. lia.
  - unfold pad_list. assert (Hgl' : len (group_rows Z.of_nat (slots_row <$> seq 0 k)) = len (concat (slots_row <$> seq 0 k))) by (unfold len; by rewrite Hgl).
    rewrite Hgl', imap_app, unmasked_app by (by rewrite length_imap). rewrite Er, (unmasked_causal Z.of_nat (slots_row <$> seq 0 k) i (slots_row i) q) by (done || (intros j E; lia)).
    rewrite masked_all; [apply app_nil_r|]. intros j x [-> _]%elem_of_replicate. by rewrite (proj2 (Z.eqb_neq (-1) (Z.of_nat i))) by lia.
Qed.

Lemma round_up_ge x n : 0 < n -> x <= round_up x n.
Proof. intros Hn. unfold round_up. pose proof (Z.mul_succ_div_gt (x + n - 1) n Hn). nia. Qed.

Lemma no_context_blocks : has_context = false -> sumZ (context_blocks_of <$> seq 0 k) = 0.
Proof.
  intros Eh. assert (E : context_blocks_of <$> seq 0 k = (fun _ => 0) <$> seq 0 k).
  { apply fmap_seq_ext. intros i Hi. unfold context_blocks_of. rewrite (no_context i Eh Hi). pose proof (cdiv_spec 0 bs Hbs). nia. }
  rewrite E. generalize (seq 0 k). intros l. induction l as [|x l IH]; [done|]. rewrite fmap_cons. exact IH.
Qed.

(** The keys that a query of a merged row attends: all slots of the blocks of
    its context, then its new tokens up to its own. *)
Lemma merged_reads_ok fused ts mask i q : merged_start k <= ts -> (i < k)%nat -> Z.of_nat q < query_len i ->
  use_contiguous_pa (run_config r) = false \/ has_context = false ->
  let md := merged_inputs ts (round_up (sumZ (context_blocks_of <$> seq 0 k)) 32) in
  _set_attn_bias r fused md 1 (Z.to_nat ts) = Some mask ->
  prefill_reads r mask 1 md 0 (Z.to_nat (merged_start i) + q) =
    (prompt_slot i <$> seqZ 0 (context_blocks_of i * bs)) ++ (prompt_slot i <$> seqZ (context_of i) (Z.of_nat q + 1)).
Proof.
  intros Hts Hi Hq Hcp md Hmask. set (tk := round_up _ _) in md. unfold _set_attn_bias, md, merged_inputs in Hmask.
  cbn [pi_attn_bias] in Hmask. injection Hmask as <-.
  assert (Htk : sumZ (context_blocks_of <$> seq 0 k) <= tk) by (by apply round_up_ge).
  assert (Hz : has_context = false -> tk = 0) by (intros Eh; unfold tk; by rewrite no_context_blocks).
  destruct (merged_past tk i Htk Hz Hi) as [Hlen Hpast]. destruct (merged_new ts i q Hts Hi Hq) as [Hgroup Hnew].
  unfold prefill_reads. cbn [lookup_total list_lookup_total]. unfold make_attn_mask.
  erewrite list_lookup_total_correct; [|rewrite list_lookup_imap, Hgroup; cbn; reflexivity].
  assert (Hk : row_keys r 1 md 0 = (if has_context then concat (block_slots bs <$> pad_list (concat context_rows) tk (-1)) else []) ++
    pad_list (concat (slots_row <$> seq 0 k)) ts (-1)).
  { unfold row_keys, md, merged_inputs. cbn [pi_slot_mapping pi_block_list lookup_total list_lookup_total]. f_equal.
    destruct has_context; [|done]. destruct Hcp as [->|]; [|done]. cbn [default id]. unfold flatten at 1. cbn [flatten concat].
    rewrite Nat.div_1_r, Nat.mul_0_l, drop_0, take_ge by done. unfold flatten. cbn [concat]. by rewrite app_nil_r. }
  rewrite Hk, unmasked_app by (by rewrite length_fmap). etransitivity; [apply (f_equal2 app); [exact Hpast|exact Hnew]|]. unfold past_row.
  rewrite context_slots by done. f_equal.
  unfold slots_row. rewrite <- fmap_take. f_equal. replace (query_len i) with ((Z.of_nat q + 1) + (query_len i - (Z.of_nat q + 1))) by lia.
  rewrite seqZ_app by lia. apply take_app_length'. rewrite length_seqZ. lia.
Qed.

End batch.
