(* ===== verification/PrefillGather.v ===== *)
(** The prompts of a step, gathered into batches and formed.

    [PrefillInputs._prepare_prefill_inputs]: from the rows of the persistent
    batch to the inputs of every batch. *)

From Stdlib Require Import ZArith Lia.
From stdpp Require Import base strings numbers gmap list.
From S2P Require Import Prelude.
From S2P Require Import PyOrder.
From S2P Require Import BucketRanges.
From S2P Require Import BucketGen.
From S2P Require Import BucketManager.
From S2P Require Import Numpy.
From S2P Require Import Defrag.
From S2P Require Import UnifiedBatch.
From S2P Require Import UnifiedAttention.
From S2P Require Import DecodeInputs.
From S2P Require Import DecodeSpec.
From S2P Require Import DecodeRows.
From S2P Require Import PrefillInputs.
From S2P Require Import PrefillSpec.

Open Scope list_scope.
Open Scope Z_scope.

Lemma same_limits_trans m1 m2 m3 : same_limits m1 m2 -> same_limits m2 m3 -> same_limits m1 m3.
Proof. intros (E1 & E2 & E3) (E4 & E5 & E6). split; [|split]; congruence. Qed.

Lemma sumZ_ge_elem l x : Forall (fun y => 0 <= y) l -> x ∈ l -> x <= sumZ l.
Proof.
  induction 1 as [|y l Hy Hl IH]; intros Hx; [by apply not_elem_of_nil in Hx|]. pose proof (sumZ_nonneg l Hl). change (sumZ (y :: l)) with (y + sumZ l).
  apply elem_of_cons in Hx as [->|Hx]; [lia|]. specialize (IH Hx). lia.
Qed.

Lemma sumZ_le_len l x : Forall (fun y => 0 <= y <= x) l -> sumZ l <= len l * x.
Proof.
  induction 1 as [|y l Hy Hl IH]; [done|]. change (sumZ (y :: l)) with (y + sumZ l). rewrite len_cons. lia.
Qed.

Section gather.
Context (r : StepRunner) (dp : Z -> Z) (d : OnlineDefragmenter) (rows : PromptRows) (ns : list Z).
Abbreviation bs := (run_block_size r).

(** ** The contents of a list of requests *)

Definition prompt_computed (x : nat) : Z := row_num_computed rows !!! x.
Definition prompt_new (x : nat) : Z := ns !!! x.
Definition prompt_end (x : nat) : Z := prompt_computed x + prompt_new x.
Definition prompt_ids (x : nat) : list Z := slice (prompt_computed x) (prompt_end x) (row_tokens rows !!! x).
Definition prompt_blocks (x : nat) : list nat := resolve d <$> take (Z.to_nat (cdiv (prompt_end x) bs)) (row_blocks rows !!! x).
(** The last ones of the new tokens, from the last one of the prompt on. *)
Definition prompt_logits (x : nat) : list Z :=
  let n := Z.max 0 (prompt_end x - (row_num_prompt rows !!! x) + 1) in seqZ (prompt_new x - n) n.

Definition contents_of (g : list nat) : BatchContents :=
  mkContents ((fun x => row_req_ids rows !!! x) <$> g) (prompt_ids <$> g) (prompt_computed <$> g) ((fun x => row_num_prompt rows !!! x) <$> g)
    (prompt_blocks <$> g) (prompt_logits <$> g).

(** A row of the persistent batch with a prompt to run. *)
Record prompt_row (x : nat) : Prop := {
  pr_id : (x < length (row_req_ids rows))%nat;
  pr_num_computed : (x < length (row_num_computed rows))%nat;
  pr_num_prompt : (x < length (row_num_prompt rows))%nat;
  pr_tokens : (x < length (row_tokens rows))%nat;
  pr_blocks : (x < length (row_blocks rows))%nat;
  pr_scheduled : (x < length ns)%nat;
  pr_nonneg : 0 <= prompt_computed x;
  pr_positive : 1 <= prompt_new x;
  pr_fits : prompt_end x <= len (row_tokens rows !!! x);
  pr_table : cdiv (prompt_end x) bs <= len (row_blocks rows !!! x)
}.

Context (Hbs : 0 < bs).

Lemma request_contents_ok x : prompt_row x -> request_contents r d false rows ns x = Ok (contents_of [x]).
Proof.
  intros [? ? ? ? ? ? ? ? ? ?]. unfold request_contents. rewrite !np_get_total by (unfold len; lia).
  cbn [mbind result_mbind]. rewrite Nat2Z.id, (round_up_blocks r Hbs). done.
Qed.

Lemma merge_contents_of g g' : merge_contents (contents_of g) (contents_of g') = contents_of (g ++ g').
Proof. unfold merge_contents, contents_of. cbn. by rewrite !fmap_app. Qed.

Lemma prompt_ids_len x : prompt_row x -> len (prompt_ids x) = prompt_new x.
Proof.
  intros [? ? ? ? ? ? ? ? Hf ?]. unfold prompt_ids. rewrite slice_length by (unfold prompt_end in *; lia). unfold prompt_end in *. lia.
Qed.

Lemma num_tokens_of g : Forall prompt_row g -> get_num_tokens (contents_of g) = prompt_new <$> g.
Proof.
  intros Hg. unfold get_num_tokens, contents_of. cbn [bc_token_ids]. rewrite <- list_fmap_compose. apply list_fmap_ext.
  intros i x Hx%list_elem_of_lookup_2. rewrite Forall_forall in Hg. by apply prompt_ids_len, Hg.
Qed.

Lemma positive_prompts g : Forall prompt_row g -> Forall (fun y => 0 <= y) (prompt_new <$> g).
Proof. intros Hg. apply Forall_fmap. eapply Forall_impl; [exact Hg|]. intros x Hx. cbn. pose proof (pr_positive x Hx). lia. Qed.

Lemma len_prompt_blocks x : prompt_row x -> len (prompt_blocks x) = cdiv (prompt_end x) bs.
Proof.
  intros Hx. pose proof (pr_table x Hx). pose proof (pr_nonneg x Hx). pose proof (pr_positive x Hx).
  assert (0 <= cdiv (prompt_end x) bs) by (apply cdiv_nonneg; [done|unfold prompt_end; lia]).
  unfold prompt_blocks, len in *. rewrite length_fmap, length_take. lia.
Qed.

Lemma lookup_total_fmap_at {A} `{Inhabited A} (f : nat -> A) (g : list nat) i : (i < length g)%nat -> (f <$> g) !!! i = f (g !!! i).
Proof.
  intros Hi. apply list_lookup_total_correct. rewrite list_lookup_fmap. by rewrite (list_lookup_lookup_total_lt _ _ Hi).
Qed.

Lemma contents_of_ok g : g <> [] -> Forall prompt_row g -> contents_ok r (contents_of g).
Proof.
  intros Hne Hg. assert (Hx : forall i, (i < length g)%nat -> prompt_row (g !!! i)).
  { intros i Hi. rewrite Forall_forall in Hg. apply Hg. apply list_elem_of_lookup. exists i. by apply list_lookup_lookup_total_lt. }
  assert (Hl : length (req_ids (contents_of g)) = length g) by (cbn; by rewrite length_fmap).
  split; rewrite ?Hl; cbn; rewrite ?length_fmap; try done.
  - destruct g; [done|cbn; lia].
  - intros i Hi. unfold query_len, tokens_of. cbn. rewrite lookup_total_fmap_at by done. rewrite prompt_ids_len by auto. by apply pr_positive, Hx.
  - intros i Hi. unfold context_of. cbn. rewrite lookup_total_fmap_at by done. by apply pr_nonneg, Hx.
  - intros i Hi. unfold context_of, query_len, tokens_of, blocks_of. cbn. rewrite !lookup_total_fmap_at by done.
    rewrite prompt_ids_len, len_prompt_blocks by auto. fold (prompt_end (g !!! i)). set (e := prompt_end (g !!! i)).
    pose proof (cdiv_spec e bs Hbs). apply Z.div_lt_upper_bound; lia.
Qed.

(** ** Gathering *)

Abbreviation merged := (merged_prefill (run_config r)).

(** A batch of several prompts is within the limits of the runner. *)
Definition group_ok (g : list nat) : Prop :=
  (1 < length g)%nat -> sumZ (prompt_new <$> g) <= max_num_tokens r /\ (merged = false -> len g <= max_prefill_batch_size r).

Lemma bucketing_ok l m : unified_attn r = false -> lookup_inv m -> l <> [] -> Forall (fun y => 0 <= y) l ->
  sumZ l <= BucketManager.max_num_batched_tokens m -> 0 <= default 0 (num_hpu_blocks m) ->
  match _get_prompt_bucketing_fn r l [] m with
  | Ret b m' => lookup_inv m' /\ same_limits m m' /\ sumZ l <= b.1.1 * b.1.2 /\ (merged = false -> len l <= max_prefill_batch_size r)
  | Raise e m' => e = BucketingFailedException /\ m' = m /\ merged = false /\ max_prefill_batch_size r < len l
  end.
Proof.
  intros Hu Hm Hne Hl Hsum Hblocks. unfold _get_prompt_bucketing_fn. rewrite Hu. destruct merged eqn:Emp.
  - unfold _bucketize_merged_prompt. destruct (wp_elim _ _ _ (wp_find_prompt 1 (sumZ l) (sumZ [])
      (fun b m' => lookup_inv m' /\ same_limits m m' /\ 1 <= b.1.1 /\ sumZ l <= b.1.2) m Hm Hsum Hblocks ltac:(intros; tauto)))
      as (b & m' & E & H1 & H2 & H3 & H4).
    unfold mbind, M_mbind, M_bind. rewrite E. cbn. split; [done|]. split; [done|]. split; [lia|done].
  - unfold _bucketize_2d_prompt. destruct (Z.ltb_spec (max_prefill_batch_size r) (len l)) as [Hlt|Hge]; [done|].
    destruct (np_max_in l Hne) as (mx & Emx & Hin). pose proof (sumZ_ge_elem l mx Hl Hin).
    destruct (wp_elim _ _ _ (wp_find_prompt (len l) mx 0
      (fun b m' => lookup_inv m' /\ same_limits m m' /\ len l <= b.1.1 /\ mx <= b.1.2) m Hm ltac:(lia) Hblocks ltac:(intros; tauto)))
      as (b & m' & E & H1 & H2 & H3 & H4).
    unfold mbind, M_mbind, M_bind, mret, M_mret, M_ret. rewrite Emx. cbn [lift_result]. rewrite E. split; [done|]. split; [done|]. split; [|done].
    assert (Hle : sumZ l <= len l * mx).
    { apply sumZ_le_len. rewrite Forall_forall in Hl |- *. intros y Hy. split; [by apply Hl|]. by apply (np_max_ge _ _ Emx). }
    assert (0 <= mx) by (rewrite Forall_forall in Hl; by apply Hl). pose proof (len_nonneg l). nia.
Qed.

(** What the bucket lookups need of the step. *)
Record limits_ok (total pool : Z) (m : HPUBucketingManager) : Prop := {
  lo_inv : lookup_inv m;
  lo_tokens : total <= BucketManager.max_num_batched_tokens m;
  lo_pool : 0 <= pool;
  lo_blocks : pool <= default 0 (num_hpu_blocks m)
}.

Lemma limits_same total pool m m' : limits_ok total pool m -> lookup_inv m' -> same_limits m m' -> limits_ok total pool m'.
Proof. intros [? ? ? ?] Hi (E1 & E2 & _). split; [done|by rewrite E1|done|by rewrite E2]. Qed.

Lemma can_merge_ok g x pool m : unified_attn r = false -> Forall prompt_row (g ++ [x]) -> limits_ok (sumZ (prompt_new <$> g ++ [x])) pool m ->
  wp (_can_merge_prefill_contents r (contents_of g) (contents_of [x])) (fun b m' =>
    lookup_inv m' /\ same_limits m m' /\ (b = true -> group_ok (g ++ [x]))) m.
Proof.
  intros Hu Hg Hlim. pose proof Hlim as [Hm Hsum Hpool Hblocks0]. assert (Hblocks : 0 <= default 0 (num_hpu_blocks m)) by lia.
  pose proof (positive_prompts _ Hg) as Hpos. apply Forall_app in Hg as [Hg Hx].
  unfold _can_merge_prefill_contents, wp. rewrite !num_tokens_of, <- fmap_app by done.
  assert (Hne : prompt_new <$> g ++ [x] <> []) by (destruct g; done).
  pose proof (bucketing_ok _ m Hu Hm Hne Hpos Hsum Hblocks) as H.
  destruct (_get_prompt_bucketing_fn r (prompt_new <$> g ++ [x]) [] m) as [b m1|e m1] eqn:E1.
  - destruct H as (Hm1 & Hs1 & Ha1 & Hl1). pose proof (limits_same _ _ _ _ Hlim Hm1 Hs1) as [_ Hsum1 _ Hblocks01].
    assert (Hblocks1 : 0 <= default 0 (num_hpu_blocks m1)) by lia.
    pose proof (bucketing_ok _ m1 Hu Hm1 Hne Hpos Hsum1 Hblocks1) as H.
    unfold mbind, M_mbind, M_bind. destruct (_get_prompt_bucketing_fn r (prompt_new <$> g ++ [x]) [] m1) as [b' m2|e m2].
    + destruct H as (Hm2 & Hs2 & Ha2 & Hl2). cbn. split; [done|]. split; [by eapply same_limits_trans|].
      intros [_ Hb]%andb_prop _. apply Z.leb_le in Hb. split; [lia|]. intros Emp. unfold len. rewrite <- (length_fmap prompt_new). by apply Hl2.
    + destruct H as (_ & _ & Emp & Hlt). specialize (Hl1 Emp). lia.
  - destruct H as (-> & -> & _). done.
Qed.

Lemma last_groups {A B} (f : A -> B) (gs : list A) (g : A) : last (f <$> gs ++ [g]) = Some (f g).
Proof. rewrite fmap_app. apply last_snoc. Qed.

Lemma gather_contents_ok pool idxs : forall gs g m, unified_attn r = false -> Forall prompt_row (concat (gs ++ [g]) ++ idxs) ->
  limits_ok (sumZ (prompt_new <$> concat (gs ++ [g]) ++ idxs)) pool m -> Forall group_ok (gs ++ [g]) -> 
  wp (gather_contents r d false rows ns (contents_of <$> gs ++ [g]) idxs) (fun all m' => lookup_inv m' /\ same_limits m m' /\
    exists groups, all = contents_of <$> groups /\ concat groups = concat (gs ++ [g]) ++ idxs /\ Forall group_ok groups) m.
Proof.
  induction idxs as [|x idxs IH]; intros gs g m Hu Hrows Hlim Hok; cbn [gather_contents].
  - apply wp_ret. split; [apply Hlim|]. split; [done|]. exists (gs ++ [g]). by rewrite app_nil_r.
  - assert (Hx : prompt_row x). { rewrite Forall_forall in Hrows. apply Hrows. set_solver. }
    apply wp_bind. eapply wp_lift; [by apply request_contents_ok|]. apply wp_bind. unfold add_contents. rewrite last_groups. apply wp_bind.
    assert (Ec : concat (gs ++ [g]) ++ x :: idxs = concat gs ++ (g ++ [x]) ++ idxs) by (rewrite concat_app; cbn; by rewrite app_nil_r, <- !app_assoc).
    assert (Hsub : limits_ok (sumZ (prompt_new <$> g ++ [x])) pool m).
    { destruct Hlim as [? Hs ? ?]. split; [done| |done|done]. rewrite Ec in Hs, Hrows. apply positive_prompts in Hrows.
      rewrite !fmap_app in Hs, Hrows. apply Forall_app in Hrows as [H1 [_ H2]%Forall_app]. rewrite !sumZ_app in Hs.
      apply sumZ_nonneg in H1, H2. rewrite fmap_app, sumZ_app. lia. }
    eapply wp_mono; [eapply can_merge_ok; [done| |exact Hsub]|].
    { rewrite Ec in Hrows. by apply Forall_app in Hrows as [_ [? _]%Forall_app]. }
    cbv beta. intros b m1 (Hm1 & Hs1 & Hb). apply wp_ret.
    assert (Hstep : (if b then take (length (contents_of <$> gs ++ [g]) - 1) (contents_of <$> gs ++ [g]) ++ [merge_contents (contents_of g) (contents_of [x])]
      else (contents_of <$> gs ++ [g]) ++ [contents_of [x]]) = contents_of <$> (if b then gs ++ [g ++ [x]] else (gs ++ [g]) ++ [[x]])).
    { destruct b.
      - rewrite merge_contents_of, !fmap_app, length_app. cbn. rewrite Nat.add_sub. f_equal. by rewrite take_app_length.
      - by rewrite !fmap_app. }
    rewrite Hstep. set (gs' := if b then gs else gs ++ [g]). set (g' := if b then g ++ [x] else [x]).
    assert (Eg : (if b then gs ++ [g ++ [x]] else (gs ++ [g]) ++ [[x]]) = gs' ++ [g']) by (by destruct b).
    assert (Ec' : concat (gs' ++ [g']) ++ idxs = concat (gs ++ [g]) ++ x :: idxs).
    { unfold gs', g'. destruct b; rewrite !concat_app; cbn; rewrite ?app_nil_r, <- !app_assoc; done. }
    rewrite Eg. eapply wp_mono; [apply (IH gs' g' m1 Hu)|].
    + by rewrite Ec'.
    + rewrite Ec'. by eapply limits_same.
    + unfold gs', g'. apply Forall_app in Hok as [Hgs Hg]. destruct b.
      * apply Forall_app. split; [done|]. constructor; [by apply Hb|done].
      * rewrite !Forall_app. repeat split; [done|done|]. constructor; [|done]. intros Hl. cbn in Hl. lia.
    + intros all m2 (? & ? & groups & ? & ? & ?). split; [done|]. split; [by eapply same_limits_trans|]. exists groups. by rewrite <- Ec'.
Qed.

(** From the empty batch: the requests in order. *)
Lemma gather_all nd np pool m : unified_attn r = false -> Forall prompt_row (seq nd np) -> limits_ok (sumZ (prompt_new <$> seq nd np)) pool m ->
  wp (_extract_prefill_batch_contents r dp d np nd ns false rows) (fun out m' => lookup_inv m' /\ same_limits m m' /\
    exists groups, out.1 = contents_of <$> groups /\ concat groups = seq nd np /\ Forall group_ok groups /\
      out.2 = dp (len (filter (fun g => g <> []) groups))) m.
Proof.
  intros Hu Hrows Hlim. unfold _extract_prefill_batch_contents. apply wp_bind.
  eapply wp_mono; [apply (gather_contents_ok pool (seq nd np) [] [] m Hu Hrows Hlim)|].
  { cbn [app]. constructor; [intros Hl; cbn in Hl; lia|constructor]. }
  intros all m' (Hm' & Hs & groups & -> & Hc & Hok). apply wp_ret. split; [done|]. split; [done|]. exists groups.
  split; [done|]. split; [done|]. split; [done|]. cbn [snd]. do 2 f_equal. unfold len. f_equal. clear.
  induction groups as [|g gs IH]; [done|]. rewrite fmap_cons. destruct g as [|y g].
  - rewrite !filter_cons_False by naive_solver. exact IH.
  - rewrite !filter_cons_True by done. cbn [length]. f_equal. exact IH.
Qed.

(** ** Forming every batch *)

Lemma form_each (P : list nat -> PrefillInputData -> Prop) total pool groups m :
  (forall g m, g <> [] -> g ∈ groups -> limits_ok total pool m ->
    wp (_form_prefill_batch r dp (contents_of g)) (fun o m' => lookup_inv m' /\ same_limits m m' /\ exists md, o = Some md /\ P g md) m) ->
  limits_ok total pool m ->
  wp (map_each (_form_prefill_batch r dp) (contents_of <$> groups)) (fun os m' => lookup_inv m' /\ same_limits m m' /\
    Forall2 P (filter (fun g => g <> []) groups) (omap id os)) m.
Proof.
  revert m. induction groups as [|g gs IH]; intros m Hform Hlim; cbn [map_each].
  - apply wp_ret. split; [apply Hlim|]. split; [done|constructor].
  - rewrite fmap_cons. cbn [map_each]. apply wp_bind. destruct (decide (g = [])) as [->|Hne].
    + apply wp_ret. apply wp_bind. eapply wp_mono; [apply IH; [|done]|].
      { intros g m0 ? ?. apply Hform; [done|by right]. }
      intros os m' (? & ? & HP). apply wp_ret. split; [done|]. split; [done|]. rewrite filter_cons_False by naive_solver. exact HP.
    + eapply wp_mono; [apply (Hform g m Hne ltac:(left) Hlim)|]. intros o m1 (Hm1 & Hs1 & md & -> & HP).
      apply wp_bind. eapply wp_mono; [apply IH; [|by eapply limits_same]|].
      { intros g' m0 ? ?. apply Hform; [done|by right]. }
      intros os m' (? & ? & HPs). apply wp_ret. split; [done|]. split; [by eapply same_limits_trans|].
      rewrite filter_cons_True by done. constructor; [exact HP|exact HPs].
Qed.

Lemma concat_nonempty {A} (gs : list (list A)) : concat (filter (fun g => g <> []) gs) = concat gs.
Proof.
  induction gs as [|g gs IH]; [done|]. destruct (decide (g = [])) as [->|Hne].
  - rewrite filter_cons_False by naive_solver. exact IH.
  - rewrite filter_cons_True by done. cbn. by rewrite IH.
Qed.

End gather.
