(* ===== verification/PrefillResults.v ===== *)
(** The prefills of a step: from the persistent batch to what every prompt
    writes, reads and samples from, in a row per prompt and merged into one. *)

From Stdlib Require Import ZArith Lia.
From stdpp Require Import base strings numbers gmap list.
From S2P Require Import Prelude.
From S2P Require Import PyOrder.
From S2P Require Import BucketRanges.
From S2P Require Import BucketGen.
From S2P Require Import BucketManager.
From S2P Require Import Numpy.
From S2P Require Import Defrag.
From S2P Require Import UnifiedBatch.
From S2P Require Import UnifiedAttention.
From S2P Require Import DecodeInputs.
From S2P Require Import DecodeSpec.
From S2P Require Import DecodeRows.
From S2P Require Import PrefillInputs.
From S2P Require Import PrefillSpec.
From S2P Require Import PrefillGather.

Open Scope list_scope.
Open Scope Z_scope.

Section step.
Context (r : StepRunner) (d : OnlineDefragmenter) (rows : PromptRows) (ns : list Z).
Abbreviation bs := (run_block_size r).
Abbreviation computed := (prompt_computed rows).
Abbreviation new := (prompt_new ns).
Abbreviation ids := (prompt_ids rows ns).
Abbreviation contents := (contents_of r d rows ns).
Abbreviation logits := (prompt_logits rows ns).
(** The same slots as the decodes'. *)
Abbreviation slot x p := (slot_of r d (row_blocks rows) x p).

(** The prompts of a step: requests [nd], ..., [nd + np - 1] of the batch. *)
Record prefill_ok (nd np : nat) (pool : Z) (m : HPUBucketingManager) : Prop := {
  pf_block_size : 0 < bs;
  pf_not_unified : unified_attn r = false;
  pf_batch : 1 <= max_prefill_batch_size r;
  pf_rounding : logits_rounding r = 1;
  pf_rows : Forall (prompt_row r rows ns) (seq nd np);
  (** Asserted by [_get_prompts_and_decodes]. *)
  pf_prompts : Forall (fun x => computed x < row_num_prompt rows !!! x) (seq nd np);
  pf_limits : limits_ok (sumZ (new <$> seq nd np)) pool m;
  pf_contexts : sumZ ((fun x => cdiv (computed x) bs) <$> seq nd np) <= pool
}.

(** The tokens whose logits a batch keeps, with their requests. *)
Definition sampled_tokens (md : PrefillInputData) : list (string * option Z) :=
  zip_with (fun req k => (req, flatten (pi_token_ids md) !! Z.to_nat k)) (pi_logits_requests md) (pi_logits_indices md).

(** The tokens whose logits a group of prompts wants. *)
Definition wanted_tokens (g : list nat) : list (string * option Z) :=
  concat ((fun x => (fun l => (row_req_ids rows !!! x, ids x !! Z.to_nat l)) <$> logits x) <$> g).

Section group.
Context (Hbs : 0 < bs) (g : list nat) (Hg : Forall (prompt_row r rows ns) g).

Lemma in_group i x : g !! i = Some x -> (i < length (req_ids (contents g)))%nat /\ prompt_row r rows ns x.
Proof.
  intros Hi. split; [cbn; rewrite length_fmap; by eapply lookup_lt_Some|]. rewrite Forall_forall in Hg. apply Hg. by eapply list_elem_of_lookup_2.
Qed.

Lemma tokens_of_group i x : g !! i = Some x -> tokens_of (contents g) i = ids x.
Proof. intros Hi. unfold tokens_of. cbn. apply list_lookup_total_correct. by rewrite list_lookup_fmap, Hi. Qed.

Lemma query_of_group i x : g !! i = Some x -> query_len (contents g) i = new x.
Proof. intros Hi. unfold query_len. rewrite (tokens_of_group i x Hi). apply prompt_ids_len with r. by apply (in_group i). Qed.

Lemma context_of_group i x : g !! i = Some x -> context_of (contents g) i = computed x.
Proof. intros Hi. unfold context_of. cbn. apply list_lookup_total_correct. by rewrite list_lookup_fmap, Hi. Qed.

Lemma slot_of_group i x p : g !! i = Some x -> 0 <= p < cdiv (prompt_end rows ns x) bs * bs -> prompt_slot r (contents g) i p = slot x p.
Proof.
  intros Hi Hp. unfold prompt_slot. assert (E : blocks_of (contents g) i = prompt_blocks r d rows ns x).
  { unfold blocks_of. cbn. apply list_lookup_total_correct. by rewrite list_lookup_fmap, Hi. }
  destruct (in_group i x Hi) as [_ Hx]. pose proof (len_prompt_blocks r d rows ns Hbs x Hx) as Hl.
  rewrite E. unfold slot_of. rewrite <- (take_drop (Z.to_nat (cdiv (prompt_end rows ns x) bs)) (row_blocks rows !!! x)) at 1.
  rewrite fmap_app. unfold prompt_blocks in *. symmetry. apply slot_at_app; [done|]. by rewrite Hl.
Qed.

Lemma slots_of_group i x s n : g !! i = Some x -> 0 <= s -> s + n <= cdiv (prompt_end rows ns x) bs * bs ->
  prompt_slot r (contents g) i <$> seqZ s n = (fun p => slot x p) <$> seqZ s n.
Proof.
  intros Hi Hs Hn. apply list_fmap_ext. intros _ p Hp%list_elem_of_lookup_2%elem_of_seqZ. apply slot_of_group; [done|lia].
Qed.

Lemma slots_row_group i x : g !! i = Some x -> slots_row r (contents g) i = (fun p => slot x p) <$> seqZ (computed x) (new x).
Proof.
  intros Hi. destruct (in_group i x Hi) as [_ Hx]. unfold slots_row. rewrite (context_of_group i x Hi), (query_of_group i x Hi).
  apply slots_of_group; [done|by apply (pr_nonneg _ _ _ _ Hx)|]. fold (prompt_end rows ns x). by apply cdiv_spec.
Qed.

(** The wanted logits are kept wherever the rows start. *)
Lemma sampled_ok start md : g <> [] -> Forall (fun x => computed x < row_num_prompt rows !!! x) g ->
  keeps_logits (contents g) start md -> sampled_tokens md = wanted_tokens g.
Proof.
  intros Hne Hp (Ei & Er & Ht). unfold sampled_tokens, wanted_tokens. rewrite Ei, Er, zip_with_fmap_same. unfold wanted.
  assert (Hk : length (req_ids (contents g)) = length g) by (cbn; by rewrite length_fmap). rewrite Hk in *.
  rewrite fmap_concat, <- list_fmap_compose. f_equal. rewrite (as_seq g) at 2. rewrite <- list_fmap_compose. apply fmap_seq_ext.
  intros i Hi. unfold compose. rewrite <- list_fmap_compose. assert (Hx : g !! i = Some (g !!! i)) by (by apply list_lookup_lookup_total_lt).
  set (x := g !!! i) in *. assert (El : logits_pos_of (contents g) i = logits x).
  { unfold logits_pos_of. cbn. apply list_lookup_total_correct. by rewrite list_lookup_fmap, Hx. }
  rewrite El. apply list_fmap_ext. intros _ l Hl%list_elem_of_lookup_2. unfold compose. cbn [fst snd].
  assert (Hcx : computed x < row_num_prompt rows !!! x) by (rewrite Forall_forall in Hp; apply Hp; by eapply list_elem_of_lookup_2).
  pose proof (pr_positive _ _ _ _ (proj2 (in_group i x Hx))) as Hpos.
  rewrite Ht; [rewrite (tokens_of_group i x Hx); f_equal|done|].
  - unfold request_of. cbn. apply list_lookup_total_correct. by rewrite list_lookup_fmap, Hx.
  - rewrite (query_of_group i x Hx). unfold prompt_logits in Hl. cbv zeta in Hl. apply elem_of_seqZ in Hl. unfold prompt_end in Hl. lia.
Qed.

(** ** A batch with a row per prompt *)

Lemma Forall_group (P : nat -> Prop) : (forall i x, g !! i = Some x -> P x) -> Forall P g.
Proof. intros H. apply Forall_forall. intros x [i Hi]%list_elem_of_lookup. by eapply H. Qed.

Lemma no_context_group : Forall (fun x => computed x = 0) g -> has_context (contents g) = false.
Proof.
  intros H0. unfold has_context. cbn [contents_of context_lens]. apply Z.ltb_ge. clear Hg. induction H0 as [|x g' Hx H0 IH]; [done|].
  change (sumZ (computed <$> x :: g')) with (computed x + sumZ (computed <$> g')). lia.
Qed.

End group.

(** Row [i] of the inputs is prompt [i]: its tokens at their positions, its
    slots, and the keys of its queries. *)
Record rows_formed (width : Z) (g : list nat) (md : PrefillInputData) : Prop := {
  rf_rows : forall i x, g !! i = Some x -> pi_token_ids md !! i = Some (pad_list (ids x) width (-1)) /\
    pi_position_ids md !! i = Some (pad_list (seqZ (computed x) (new x)) width (-1)) /\
    pi_slot_mapping md !! i = Some (pad_list ((fun p => slot x p) <$> seqZ (computed x) (new x)) width (-1));
  rf_reads : forall fused mask i x q, g !! i = Some x -> Z.of_nat q < new x ->
    use_contiguous_pa (run_config r) = false \/ Forall (fun x => computed x = 0) g ->
    _set_attn_bias r fused md (length (pi_token_ids md)) (Z.to_nat width) = Some mask ->
    prefill_reads r mask (length (pi_token_ids md)) md i q = (fun p => slot x p) <$> seqZ 0 (computed x + Z.of_nat q + 1);
  (** Nothing but padding besides. *)
  rf_slots : filter (fun s => 0 <= s) (flatten (pi_slot_mapping md)) = concat ((fun x => (fun p => slot x p) <$> seqZ (computed x) (new x)) <$> g);
  rf_logits : sampled_tokens md = wanted_tokens g
}.

(** One row for all: its tokens are those of the prompts in turn. *)
Record merged_formed (width : Z) (g : list nat) (md : PrefillInputData) : Prop := {
  mf_tokens : pi_token_ids md = [pad_list (concat (ids <$> g)) width (-1)];
  mf_slots : pi_slot_mapping md = [pad_list (concat ((fun x => (fun p => slot x p) <$> seqZ (computed x) (new x)) <$> g)) width (-1)];
  mf_reads : forall fused mask i x q, g !! i = Some x -> Z.of_nat q < new x ->
    use_contiguous_pa (run_config r) = false \/ Forall (fun x => computed x = 0) g ->
    _set_attn_bias r fused md 1 (Z.to_nat width) = Some mask ->
    prefill_reads r mask 1 md 0 (Z.to_nat (sumZ (new <$> take i g)) + q) =
      ((fun p => slot x p) <$> seqZ 0 (cdiv (computed x) bs * bs)) ++ ((fun p => slot x p) <$> seqZ (computed x) (Z.of_nat q + 1));
  (** A context of whole blocks is read exactly. *)
  mf_exact : forall fused mask i x q, g !! i = Some x -> Z.of_nat q < new x -> computed x mod bs = 0 ->
    use_contiguous_pa (run_config r) = false \/ Forall (fun x => computed x = 0) g ->
    _set_attn_bias r fused md 1 (Z.to_nat width) = Some mask ->
    prefill_reads r mask 1 md 0 (Z.to_nat (sumZ (new <$> take i g)) + q) = (fun p => slot x p) <$> seqZ 0 (computed x + Z.of_nat q + 1);
  mf_logits : sampled_tokens md = wanted_tokens g
}.

Context (dp : Z -> Z) (kv : bool) (Hdp : forall n, 0 <= dp n).

Lemma over_group {A} (f : nat -> A) (h : nat -> A) g : (forall i x, g !! i = Some x -> f i = h x) -> f <$> seq 0 (length g) = h <$> g.
Proof.
  intros H. rewrite (as_seq g) at 2. rewrite <- list_fmap_compose. apply fmap_seq_ext. intros i Hi. apply H. by apply list_lookup_lookup_total_lt.
Qed.


Lemma rows_formed_ok g tb ts tk : 0 < bs -> logits_rounding r = 1 -> g <> [] -> Forall (prompt_row r rows ns) g ->
  Forall (fun x => computed x < row_num_prompt rows !!! x) g -> bucket_fits r (contents g) tb ts tk ->
  rows_formed ts g (row_inputs r (contents g) tb ts tk).
Proof.
  intros Hbs Hr Hne Hg Hp Hf. pose proof (contents_of_ok r d rows ns Hbs g Hne Hg) as Hc. pose proof (bf_bs _ _ _ _ _ Hf) as Hb.
  assert (Hl : length (pi_token_ids (row_inputs r (contents g) tb ts tk)) = Z.to_nat tb) by (unfold row_inputs; cbn [pi_token_ids]; by apply length_padded_rows).
  split.
  - intros i x Hi. destruct (in_group g Hg i x Hi) as [Hk _]. unfold row_inputs. cbn [pi_token_ids pi_position_ids pi_slot_mapping].
    rewrite !lookup_padded_row by done. rewrite (tokens_of_group g i x Hi), (context_of_group g i x Hi), (query_of_group g Hg i x Hi).
    by rewrite (slots_row_group Hbs g Hg i x Hi).
  - intros fused mask i x q Hi Hq Hcp Hmask. destruct (in_group g Hg i x Hi) as [Hk Hx]. rewrite Hl in *.
    pose proof (query_of_group g Hg i x Hi) as Eq. pose proof (context_of_group g i x Hi) as Ec.
    rewrite (row_reads_ok r (contents g) Hbs Hc fused tb ts tk mask i q Hf Hk) by (rewrite ?Eq; (done || (destruct Hcp as [?|?%no_context_group]; auto))).
    rewrite Ec. apply (slots_of_group Hbs g Hg i x); [done|lia|]. pose proof (cdiv_spec (prompt_end rows ns x) bs Hbs). unfold prompt_end in *. lia.
  - unfold row_inputs, flatten. cbn [pi_slot_mapping]. rewrite filter_padded.
    + cbn [contents_of req_ids]. rewrite length_fmap. by rewrite (over_group _ _ g (slots_row_group Hbs g Hg)).
    + intros i Hi. apply Forall_fmap, Forall_forall. intros p Hin%elem_of_seqZ. cbn. unfold prompt_slot, slot_at.
      pose proof (Z.mod_pos_bound p bs Hbs). nia.
  - apply (sampled_ok g Hg (fun i => Z.of_nat i * ts)); [done|done|]. by apply row_logits_ok.
Qed.

Lemma sum_new_take g i : Forall (prompt_row r rows ns) g -> (i <= length g)%nat -> merged_start (contents g) i = sumZ (new <$> take i g).
Proof.
  intros Hg Hi. unfold merged_start. f_equal. apply list_eq. intros j. rewrite !list_lookup_fmap. destruct (decide (j < i)%nat) as [Hj|Hj].
  - rewrite lookup_seq_lt, lookup_take_lt by done. destruct (lookup_lt_is_Some_2 g j ltac:(lia)) as [x Hx]. rewrite Hx. cbn. f_equal.
    by apply (query_of_group g Hg j x).
  - rewrite lookup_seq_ge, lookup_take_ge by lia. done.
Qed.

Lemma merged_keys_ok g ts fused mask i x q : 0 < bs -> g <> [] -> Forall (prompt_row r rows ns) g -> g !! i = Some x -> Z.of_nat q < new x ->
  merged_start (contents g) (length g) <= ts -> use_contiguous_pa (run_config r) = false \/ Forall (fun x => computed x = 0) g ->
  let md := merged_inputs r (contents g) ts (round_up (sumZ (context_blocks_of r (contents g) <$> seq 0 (length (req_ids (contents g))))) 32) in
  _set_attn_bias r fused md 1 (Z.to_nat ts) = Some mask ->
  prefill_reads r mask 1 md 0 (Z.to_nat (sumZ (new <$> take i g)) + q) =
    ((fun p => slot x p) <$> seqZ 0 (cdiv (computed x) bs * bs)) ++ ((fun p => slot x p) <$> seqZ (computed x) (Z.of_nat q + 1)).
Proof.
  intros Hbs Hne Hg Hi Hq Hts Hcp md Hmask. pose proof (contents_of_ok r d rows ns Hbs g Hne Hg) as Hc.
  assert (Hk : length (req_ids (contents g)) = length g) by (cbn; by rewrite length_fmap).
  assert (Hts' : merged_start (contents g) (length (req_ids (contents g))) <= ts) by (by rewrite Hk).
  destruct (in_group g Hg i x Hi) as [Hik Hx].
  pose proof (query_of_group g Hg i x Hi) as Eq. pose proof (context_of_group g i x Hi) as Ec.
  rewrite <- sum_new_take by (done || (apply lookup_lt_Some in Hi; lia)).
  etransitivity; [apply (merged_reads_ok r (contents g) Hbs Hc fused ts mask i q Hts' Hik); [by rewrite Eq|destruct Hcp as [?|?%no_context_group]; auto|exact Hmask]|].
  pose proof (cdiv_spec (prompt_end rows ns x) bs Hbs) as [_ Hend]. pose proof (pr_nonneg _ _ _ _ Hx). pose proof (pr_positive _ _ _ _ Hx).
  assert (Hcd : context_blocks_of r (contents g) i = cdiv (computed x) bs) by (unfold context_blocks_of; by rewrite Ec).
  pose proof (cdiv_spec (computed x) bs Hbs). assert (Hle : cdiv (computed x) bs * bs <= cdiv (prompt_end rows ns x) bs * bs).
  { apply Z.mul_le_mono_nonneg_r; [lia|]. apply cdiv_le_iff; [done|]. unfold prompt_end in *. lia. }
  rewrite Hcd, Ec. f_equal; apply (slots_of_group Hbs g Hg i x); try done; unfold prompt_end in *; lia.
Qed.

Lemma merged_formed_ok g ts : 0 < bs -> logits_rounding r = 1 -> g <> [] -> Forall (prompt_row r rows ns) g ->
  Forall (fun x => computed x < row_num_prompt rows !!! x) g ->
  merged_start (contents g) (length g) <= ts ->
  merged_formed ts g (merged_inputs r (contents g) ts (round_up (sumZ (context_blocks_of r (contents g) <$> seq 0 (length (req_ids (contents g))))) 32)).
Proof.
  intros Hbs Hr Hne Hg Hp Hts. pose proof (contents_of_ok r d rows ns Hbs g Hne Hg) as Hc.
  assert (Hk : length (req_ids (contents g)) = length g) by (cbn; by rewrite length_fmap).
  split.
  - unfold merged_inputs. cbn [pi_token_ids]. rewrite Hk. by rewrite (over_group _ ids g (tokens_of_group g)).
  - unfold merged_inputs. cbn [pi_slot_mapping]. rewrite Hk. by rewrite (over_group _ _ g (slots_row_group Hbs g Hg)).
  - intros fused mask i x q Hi Hq Hcp Hmask. by eapply merged_keys_ok.
  - intros fused mask i x q Hi Hq Hm Hcp Hmask. etransitivity; [by eapply merged_keys_ok|]. apply full_context; [done| |done|lia].
    by apply (pr_nonneg _ _ _ _ (proj2 (in_group g Hg i x Hi))).
  - apply (sampled_ok g Hg (merged_start (contents g))); [done|done|]. apply merged_logits_ok; try done. by rewrite Hk.
Qed.

(** ** All batches of a step *)

Lemma sum_group (f : nat -> Z) (groups : list (list nat)) g : Forall (fun x => 0 <= f x) (concat groups) -> g ∈ groups ->
  sumZ (f <$> g) <= sumZ (f <$> concat groups).
Proof.
  induction groups as [|g' groups IH]; intros Hf Hg; [by apply not_elem_of_nil in Hg|]. cbn [concat] in *. rewrite fmap_app, sumZ_app.
  apply Forall_app in Hf as [H1 H2]. assert (H0 : forall l, Forall (fun x => 0 <= f x) l -> 0 <= sumZ (f <$> l)) by (intros l Hl; by apply sumZ_nonneg, Forall_fmap).
  apply H0 in H1. apply elem_of_cons in Hg as [->|Hg]; [|specialize (IH H2 Hg); lia]. apply H0 in H2. lia.
Qed.

Lemma in_groups (P : nat -> Prop) (groups : list (list nat)) g : Forall P (concat groups) -> g ∈ groups -> Forall P g.
Proof.
  induction groups as [|g' groups IH]; intros H Hg; [by apply not_elem_of_nil in Hg|]. cbn [concat] in H. apply Forall_app in H as [H1 H2].
  apply elem_of_cons in Hg as [->|Hg]; [done|by apply IH].
Qed.

(** Dummy batches are formed as well. *)
Lemma dummy_ok k m : 0 < bs -> unified_attn r = false -> merged_prefill (run_config r) = false -> 1 <= max_prefill_batch_size r -> lookup_inv m ->
  128 <= BucketManager.max_num_batched_tokens m -> cdiv 127 bs <= default 0 (num_hpu_blocks m) ->
  wp (_create_dummy_prefill_batch_contents r dp kv k) (fun _ m' => lookup_inv m' /\ same_limits m m') m.
Proof.
  intros Hbs Hu Hmp Hmax Hm Htok Hblk. unfold _create_dummy_prefill_batch_contents. cbv zeta.
  set (cl := if kv then 127 else 0). set (ql := if kv then 1 else 128). assert (Hsum : cl + ql = 128) by (by destruct kv).
  assert (Hcl : 0 <= cl <= 127) by (destruct kv; done). assert (Hql : 1 <= ql <= 128) by (destruct kv; done).
  set (c := clone _). assert (Hq : query_len c 0 = ql) by (unfold query_len, tokens_of, len; cbn; rewrite length_seqZ; lia).
  assert (Hx : context_of c 0 = cl) by done.
  assert (Hc : contents_ok r c).
  { assert (H1 : forall i, (i < length (req_ids c))%nat -> i = 0%nat) by (cbn; lia). split; try done; [cbn; lia|..]; intros i ->%H1.
    - rewrite Hq. lia.
    - rewrite Hx. lia.
    - rewrite Hq, Hx, Hsum. unfold blocks_of, len. cbn. rewrite length_replicate, (round_up_blocks r Hbs), Hsum.
      pose proof (cdiv_spec 128 bs Hbs). pose proof (cdiv_nonneg 128 bs). apply Z.div_lt_upper_bound; lia. }
  generalize (seq 0 k). intros l. revert m Hm Htok Hblk. induction l as [|x l IH]; intros m Hm Htok Hblk; [by apply wp_ret|].
  cbn [map_each]. apply wp_bind. eapply wp_mono; [apply (form_rows_ok r dp c Hbs Hc Hdp m Hu Hmp Hm)|].
  - cbn. lia.
  - intros i Hi. assert (i = 0%nat) as -> by (cbn in Hi; lia). rewrite Hq. unfold context_blocks_of. rewrite Hx. split; [lia|].
    etransitivity; [|exact Hblk]. apply cdiv_le_iff; [done|]. pose proof (cdiv_spec 127 bs Hbs). lia.
  - intros o m1 (Hm1 & Hs1 & _). apply wp_bind. pose proof Hs1 as (E1 & E2 & _).
    eapply wp_mono; [apply (IH m1 Hm1); by rewrite ?E1, ?E2|]. intros os m2 [Hm2 Hs2]. apply wp_ret. split; [done|]. by eapply same_limits_trans.
Qed.

(** From what holds of every batch that is formed, what holds of the step. *)
Lemma prepare_ok (P : list nat -> PrefillInputData -> Prop) nd np pool m : prefill_ok nd np pool m ->
  (forall g m, g <> [] -> Forall (prompt_row r rows ns) g -> Forall (fun x => computed x < row_num_prompt rows !!! x) g ->
    group_ok r ns g -> limits_ok (sumZ (new <$> g)) (sumZ ((fun x => cdiv (computed x) bs) <$> g)) m ->
    wp (_form_prefill_batch r dp (contents g)) (fun o m' => lookup_inv m' /\ same_limits m m' /\ exists md, o = Some md /\ P g md) m) ->
  (forall k m', 0 < dp k -> lookup_inv m' -> same_limits m m' ->
    wp (_create_dummy_prefill_batch_contents r dp kv (Z.to_nat (dp k))) (fun _ m2 => lookup_inv m2 /\ same_limits m' m2) m') ->
  exists groups mds dummies m', _prepare_prefill_inputs r dp kv d np nd ns rows m = Ret (mds, dummies) m' /\ lookup_inv m' /\ same_limits m m' /\
    concat groups = seq nd np /\ Forall2 P groups mds.
Proof.
  intros [Hbs Hu Hmax Hr Hrows Hp Hlim Hctx] Hform Hdummy.
  destruct (wp_elim (_prepare_prefill_inputs r dp kv d np nd ns rows) (fun o m' => lookup_inv m' /\ same_limits m m' /\
    exists groups, concat groups = seq nd np /\ Forall2 P groups o.1) m) as ([mds dummies] & m' & E & Hm' & Hs & groups & Hc & HP).
  2:{ by exists groups, mds, dummies, m'. }
  unfold _prepare_prefill_inputs. apply wp_bind. eapply wp_mono; [by apply (gather_all r dp d rows ns Hbs nd np pool m)|].
  intros [all pad] m1 (Hm1 & Hs1 & groups & Hall & Hc & Hok & Hpad). cbn [fst snd] in Hall, Hpad. subst all. rewrite <- Hc in Hrows, Hp, Hctx, Hlim.
  apply wp_bind. eapply wp_mono; [eapply (form_each r dp d rows ns P (sumZ (new <$> concat groups)) pool groups m1)|].
  - intros g m2 Hne Hg [? Htot Hpool Hblk]. pose proof (in_groups _ _ _ Hrows Hg) as Hgr. apply Hform; [done|done|by eapply in_groups| |].
    + rewrite Forall_forall in Hok. by apply Hok.
    + assert (H1 : sumZ (new <$> g) <= sumZ (new <$> concat groups)).
      { apply sum_group; [|done]. eapply Forall_impl; [exact Hrows|]. intros x Hx. pose proof (pr_positive _ _ _ _ Hx). lia. }
      assert (Hn : Forall (fun x => 0 <= cdiv (computed x) bs) (concat groups)).
      { eapply Forall_impl; [exact Hrows|]. intros x Hx. apply cdiv_nonneg; [done|]. by apply (pr_nonneg _ _ _ _ Hx). }
      pose proof (sum_group _ groups g Hn Hg) as H2. split; [done|lia| |lia].
      apply sumZ_nonneg, Forall_fmap. by apply (in_groups _ _ _ Hn).
  - eapply limits_same; [exact Hlim|done|done].
  - intros os m2 (Hm2 & Hs2 & HP). assert (Hs02 : same_limits m m2) by (by eapply same_limits_trans). apply wp_bind.
    apply (wp_mono _ (fun _ m3 => lookup_inv m3 /\ same_limits m2 m3)).
    { destruct (Z.ltb_spec 0 pad); [|by apply wp_ret]. subst pad. by apply Hdummy. }
    intros dummies m3 [Hm3 Hs3]. apply wp_ret. split; [done|]. split; [by eapply same_limits_trans|].
    exists (filter (fun g => g <> []) groups). split; [by rewrite concat_nonempty|exact HP].
Qed.

End step.

(** The batches of a step, with a row per prompt. *)
Lemma prefill_parts r dp kv d rows ns nd np pool m :
  merged_prefill (run_config r) = false -> (forall n, 0 <= dp n) -> prefill_ok r rows ns nd np pool m ->
  (forall n, 0 < dp n -> 128 <= BucketManager.max_num_batched_tokens m /\ cdiv 127 (run_block_size r) <= pool) ->
  exists groups mds dummies m', _prepare_prefill_inputs r dp kv d np nd ns rows m = Ret (mds, dummies) m' /\ lookup_inv m' /\ same_limits m m' /\ concat groups = seq nd np /\
    Forall2 (fun g md => g <> [] /\ len g <= max_prefill_batch_size r /\ exists width, rows_formed r d rows ns width g md) groups mds.
Proof.
  intros Hmp Hdp Hok Hdum. pose proof Hok as [Hbs Hu Hmax Hr _ _ Hlim _]. apply (prepare_ok r d rows ns dp kv _ nd np pool m Hok).
  2:{ intros k m' Hk Hm' (E1 & E2 & _). destruct (Hdum k Hk). destruct Hlim. apply dummy_ok; try done; rewrite ?E1, ?E2; lia. }
  intros g m0 Hne Hg Hp Hlg [Hm Htot _ Hblk].
  pose proof (contents_of_ok r d rows ns Hbs g Hne Hg) as Hc.
  assert (Hk : length (req_ids (contents_of r d rows ns g)) = length g) by (cbn; by rewrite length_fmap).
  assert (Hlen : len g <= max_prefill_batch_size r).
  { destruct (decide (1 < length g)%nat) as [H1|H1]; [by apply (Hlg H1)|]. unfold len. lia. }
  eapply wp_mono; [apply (form_rows_ok r dp _ Hbs Hc Hdp m0 Hu Hmp Hm); [by rewrite Hk|]|].
  - intros i Hi. rewrite Hk in Hi. assert (Hx : g !! i = Some (g !!! i)) by (by apply list_lookup_lookup_total_lt).
    assert (Hin : g !!! i ∈ g) by (by eapply list_elem_of_lookup_2).
    rewrite (query_of_group r d rows ns g Hg i _ Hx). unfold context_blocks_of. rewrite (context_of_group r d rows ns g i _ Hx). split.
    + etransitivity; [|exact Htot]. apply sumZ_ge_elem; [by eapply positive_prompts|]. by apply list_elem_of_fmap_2.
    + etransitivity; [|exact Hblk]. apply sumZ_ge_elem.
      * apply Forall_fmap. eapply Forall_impl; [exact Hg|]. intros x Hx'. apply cdiv_nonneg; [done|]. by apply (pr_nonneg _ _ _ _ Hx').
      * by apply (list_elem_of_fmap_2 (fun x => cdiv (prompt_computed rows x) (run_block_size r))).
  - intros o m' (Hm' & Hs & tb & ts & tk & -> & Hf). split; [done|]. split; [done|]. eexists. split; [done|]. split; [done|]. split; [done|].
    exists ts. by apply rows_formed_ok.
Qed.

(** C14: prompts as rows of a batch, without merged prefill and without
    unified attention, with [logits_rounding] 1 and tokens, blocks and
    contexts within the limits of the runner. The prompts of a step are formed
    in order into batches within the limit of the runner, without raising;
    each prompt writes the slots of its new positions, in its own row, and the
    logits kept are the wanted ones. A query reads exactly the slots of the
    positions up to its own, if the cache is not read from its start (no
    contiguous attention) or no prompt of the batch has context; with both it
    does not ([contiguous_context_example]). *)
Theorem prefill_rows_spec r dp kv d rows ns nd np pool m :
  merged_prefill (run_config r) = false -> (forall n, 0 <= dp n) -> prefill_ok r rows ns nd np pool m ->
  (forall n, 0 < dp n -> 128 <= BucketManager.max_num_batched_tokens m /\ cdiv 127 (run_block_size r) <= pool) ->
  exists groups mds dummies m', _prepare_prefill_inputs r dp kv d np nd ns rows m = Ret (mds, dummies) m' /\ lookup_inv m' /\ same_limits m m' /\ concat groups = seq nd np /\
    Forall2 (fun g md => g <> [] /\ len g <= max_prefill_batch_size r /\ exists width, rows_formed r d rows ns width g md) groups mds.
Proof. apply prefill_parts. Qed.

(** C16: prompts merged into one row, without padding for data parallelism and
    without unified attention, [logits_rounding] 1, within the limits of the
    runner. The prompts of a step are formed in order into rows within the
    limit of the runner, without raising; each writes the slots of its new
    positions. If the cache is not read from its start (no contiguous
    attention) or no prompt of the row has context, a query reads all slots of
    the blocks of its own context and its new positions up to itself (exactly
    the positions before it, when the context fills its blocks). *)
Theorem merged_prefill_spec r dp kv d rows ns nd np pool m :
  merged_prefill (run_config r) = true -> (forall n, dp n = 0) -> prefill_ok r rows ns nd np pool m ->
  exists groups mds dummies m', _prepare_prefill_inputs r dp kv d np nd ns rows m = Ret (mds, dummies) m' /\ lookup_inv m' /\ same_limits m m' /\ concat groups = seq nd np /\
    Forall2 (fun g md => ((1 < length g)%nat -> sumZ (prompt_new ns <$> g) <= max_num_tokens r) /\
      exists width, sumZ (prompt_new ns <$> g) <= width /\ merged_formed r d rows ns width g md) groups mds.
Proof.
  intros Hmp Hdp Hok. apply (prepare_ok r d rows ns dp kv _ nd np pool m Hok).
  2:{ intros k m' Hk. rewrite Hdp in Hk. lia. }
  intros g m0 Hne Hg Hp Hlg [Hm Htot _ Hblk]. pose proof Hok as [Hbs Hu Hmax Hr _ _ _ _].
  pose proof (contents_of_ok r d rows ns Hbs g Hne Hg) as Hc.
  assert (Hk : length (req_ids (contents_of r d rows ns g)) = length g) by (cbn; by rewrite length_fmap).
  assert (Hst : merged_start (contents_of r d rows ns g) (length g) = sumZ (prompt_new ns <$> g)).
  { rewrite (sum_new_take r d rows ns) by done. by rewrite firstn_all. }
  assert (Hcb : context_blocks_of r (contents_of r d rows ns g) <$> seq 0 (length g) =
    (fun x => cdiv (prompt_computed rows x) (run_block_size r)) <$> g).
  { apply over_group. intros i x Hi. unfold context_blocks_of. by rewrite (context_of_group r d rows ns g i x Hi). }
  eapply wp_mono; [apply (form_merged_ok r dp _ Hbs Hc m0 Hu Hmp Hm Hdp); [by rewrite Hk, Hst|by rewrite Hk, Hcb]|].
  intros o m' (Hm' & Hs & ts & Hts & ->). split; [done|]. split; [done|]. eexists. split; [done|]. split; [intros Hl; by apply Hlg|].
  rewrite Hk in Hts. exists ts. split; [by rewrite <- Hst|]. by apply merged_formed_ok.
Qed.

(** ** Where a merged row reads too much *)

(** A context that ends inside a block: its last block reaches the position of
    the first new token and the ones after it, which every query then reads. *)
Lemma merged_tail r d rows x q : 0 < run_block_size r -> 0 <= prompt_computed rows x ->
  let c := prompt_computed rows x in let slot := slot_of r d (row_blocks rows) x in
  forall p, c <= p < cdiv c (run_block_size r) * run_block_size r -> p < c + Z.of_nat q + 1 ->
    exists l1 l2 l3, ((fun p => slot p) <$> seqZ 0 (cdiv c (run_block_size r) * run_block_size r)) ++ ((fun p => slot p) <$> seqZ c (Z.of_nat q + 1)) =
      l1 ++ slot p :: l2 ++ slot p :: l3.
Proof.
  intros Hbs Hc c slot p Hp Hq.
  assert (Hsplit : forall a n, a <= p < a + n -> exists l k, (fun p => slot p) <$> seqZ a n = l ++ slot p :: k).
  { intros a n Ha. destruct (list_elem_of_split (seqZ a n) p) as (l & k & E); [apply elem_of_seqZ; lia|].
    exists ((fun p => slot p) <$> l), ((fun p => slot p) <$> k). by rewrite E, fmap_app. }
  destruct (Hsplit 0 (cdiv c (run_block_size r) * run_block_size r)) as (l1 & l2 & E1); [lia|].
  destruct (Hsplit c (Z.of_nat q + 1)) as (l3 & l4 & E2); [lia|]. rewrite E1, E2. exists l1, (l2 ++ l3), l4. by rewrite <- !app_assoc.
Qed.

(** ** Concrete steps *)

Definition prefill_runner (merged : bool) : StepRunner :=
  set_pads 8 (mkStepRunner (mkRuntimeConfig merged false None None None None None None) 4 false 0 0 2 64 1 false None).
Definition alone (_ : Z) : Z := 0.
Definition unmoved : OnlineDefragmenter := init_defrag None false.
Definition prefill_buckets : HPUBucketingManager := set_num_hpu_blocks 8 sample_manager.
(** A decode, a prompt in its last chunk, and the first chunk of another. *)
Definition sample_rows : PromptRows :=
  mkPromptRows ["a"; "b"; "c"]%string [4; 5; 0] [4; 8; 9] [seqZ 100 12; seqZ 200 12; seqZ 300 12] [[1; 2; 0]; [3; 4; 0]; [5; 0; 0]]%nat.
Definition sample_scheduled : list Z := [1; 3; 4].

Lemma sample_prefill_ok merged : prefill_ok (prefill_runner merged) sample_rows sample_scheduled 1 2 3 prefill_buckets.
Proof.
  split; try done.
  - repeat constructor; vm_compute; (done || lia).
  - repeat constructor; vm_compute; done.
  - split; try done. pose proof sample_manager_inv as [? ? ? ? ? ? ? ?]. by split.
Qed.

Lemma prefill_rows_spec_witness :
  prefill_ok (prefill_runner false) sample_rows sample_scheduled 1 2 3 prefill_buckets /\
  exists groups mds dummies m', _prepare_prefill_inputs (prefill_runner false) alone false unmoved 2 1 sample_scheduled sample_rows prefill_buckets = Ret (mds, dummies) m' /\
    concat groups = [1; 2]%nat /\
    Forall2 (fun g md => g <> [] /\ len g <= 2 /\ exists width, rows_formed (prefill_runner false) unmoved sample_rows sample_scheduled width g md) groups mds.
Proof.
  split; [apply sample_prefill_ok|].
  destruct (prefill_rows_spec (prefill_runner false) alone false unmoved sample_rows sample_scheduled 1 2 3 prefill_buckets eq_refl ltac:(done) (sample_prefill_ok false) ltac:(done))
    as (groups & mds & dummies & m' & E & _ & _ & Hc & HP).
  exists groups, mds, dummies, m'. split; [exact E|]. split; [exact Hc|exact HP].
Defined.

Lemma merged_prefill_spec_witness :
  prefill_ok (prefill_runner true) sample_rows sample_scheduled 1 2 3 prefill_buckets /\
  exists groups mds dummies m', _prepare_prefill_inputs (prefill_runner true) alone false unmoved 2 1 sample_scheduled sample_rows prefill_buckets = Ret (mds, dummies) m' /\
    concat groups = [1; 2]%nat /\ length mds = length groups.
Proof.
  split; [apply sample_prefill_ok|].
  destruct (merged_prefill_spec (prefill_runner true) alone false unmoved sample_rows sample_scheduled 1 2 3 prefill_buckets eq_refl ltac:(done) (sample_prefill_ok true))
    as (groups & mds & dummies & m' & E & _ & _ & Hc & HP).
  exists groups, mds, dummies, m'. split; [exact E|]. split; [exact Hc|]. symmetry. by eapply Forall2_length.
Defined.

Definition on_ret {S A} (o : outcome S A) (f : A -> bool) : bool := match o with Ret x _ => f x | Raise _ _ => false end.

(** Two batches, a bucket of two rows being too large for the runner: the slots
    of ["b"] are those of positions 5, 6, 7 in block 4, and its last query reads
    positions 0 to 7. *)
Example prefill_rows_example :
  on_ret (_prepare_prefill_inputs (prefill_runner false) alone false unmoved 2 1 sample_scheduled sample_rows prefill_buckets) (fun o =>
    match o.1 with
    | [md; _] => bool_decide (take 3 (pi_slot_mapping md !!! 0%nat) = [17; 18; 19] /\ sampled_tokens md = [("b"%string, Some 207)]) &&
        match _set_attn_bias (prefill_runner false) false md 1 64 with
        | Some mask => bool_decide (prefill_reads (prefill_runner false) mask 1 md 0 2 = [12; 13; 14; 15; 16; 17; 18; 19])
        | None => false
        end
    | _ => false
    end) = true.
Proof. vm_compute. reflexivity. Qed.

(** Merged, the first query of ["b"] (position 5) reads the whole second block
    of its context: positions 5, 6 and 7, and its own again. *)
Example merged_tail_example :
  on_ret (_prepare_prefill_inputs (prefill_runner true) alone false unmoved 2 1 sample_scheduled sample_rows prefill_buckets) (fun o =>
    match o.1 with
    | [md] => match _set_attn_bias (prefill_runner true) false md 1 64 with
        | Some mask => bool_decide (prefill_reads (prefill_runner true) mask 1 md 0 0 = [12; 13; 14; 15; 16; 17; 18; 19; 17])
        | None => false
        end
    | _ => false
    end) = true.
Proof. vm_compute. reflexivity. Qed.

(** With a contiguous cache the context comes from the first blocks of the
    cache, not from the block list. *)
Example contiguous_context_example :
  let r := mkStepRunner (mkRuntimeConfig false true None None None None None None) 4 false 8 32 2 64 1 false None in
  on_ret (_prepare_prefill_inputs r alone false unmoved 2 1 sample_scheduled sample_rows prefill_buckets) (fun o =>
    match o.1 with
    | md :: _ => match _set_attn_bias r false md 1 64 with
        | Some mask => bool_decide (pi_block_list md = Some [3; 4; -1; -1] /\ prefill_reads r mask 1 md 0 0 = [0; 1; 2; 3; 4; 17])
        | None => false
        end
    | _ => false
    end) = true.
Proof. vm_compute. reflexivity. Qed.
