(* ===== verification/StepInputs.v ===== *)
(** The inputs of a step: decodes and prompts together
    ([_prepare_inputs] of [src/vllm_gaudi/v1/worker/hpu_model_runner.py]), and
    what the step writes to the cache. *)

From Stdlib Require Import ZArith Lia.
From stdpp Require Import base strings numbers gmap list.
From S2P Require Import Prelude.
From S2P Require Import PyOrder.
From S2P Require Import BucketRanges.
From S2P Require Import BucketGen.
From S2P Require Import BucketManager.
From S2P Require Import Numpy.
From S2P Require Import Defrag.
From S2P Require Import UnifiedBatch.
From S2P Require Import UnifiedAttention.
From S2P Require Import DecodeInputs.
From S2P Require Import DecodeSpec.
From S2P Require Import DecodeRows.
From S2P Require Import DecodeResults.
From S2P Require Import PrefillInputs.
From S2P Require Import PrefillSpec.
From S2P Require Import PrefillGather.
From S2P Require Import PrefillResults.

Open Scope list_scope.
Open Scope Z_scope.

(** The prompts first, then the decodes; the tokens of the batch are a table of
    [cols] columns, and the total of the scheduler is the sum of its counts. *)
Definition _prepare_inputs (r : StepRunner) (get_dp_padding : Z -> Z) (has_kv_transfer_group : bool) (d : OnlineDefragmenter)
    (num_prefills num_decodes : nat) (cols : Z) (rows : PromptRows) (num_scheduled_tokens : list Z) :
    MB ((list PrefillInputData * list PrefillInputData) * (option DecodeInputData * option DecodeInputData)) :=
  py_assert (0 <? sumZ num_scheduled_tokens);;
  '(positions_cpu, input_ids_cpu) ← lift_result (prepare_flat (row_num_computed rows) num_scheduled_tokens (mkTable cols (row_tokens rows)));
  prefill ← _prepare_prefill_inputs r get_dp_padding has_kv_transfer_group d num_prefills num_decodes num_scheduled_tokens rows;
  decode ← _prepare_decode_inputs r get_dp_padding d positions_cpu input_ids_cpu num_decodes num_scheduled_tokens (row_num_computed rows) (row_blocks rows);
  mret (prefill, decode).

(** The slots that a step writes for its requests: the rows of the decodes, and
    what is not padding of the prompts. *)
Definition written_slots (num_decodes : nat) (mds : list PrefillInputData) (out : DecodeInputData) : list Z :=
  concat (take num_decodes (slot_mapping out)) ++ concat ((fun md => filter (fun s => 0 <= s) (flatten (pi_slot_mapping md))) <$> mds).

(** ** Blocks of one request each *)

Lemma concat_unique {A} (f : nat -> list A) n x y i j b : NoDup (concat (f <$> seq 0 n)) -> (x < n)%nat -> (y < n)%nat ->
  f x !! i = Some b -> f y !! j = Some b -> x = y /\ i = j.
Proof.
  revert x y. induction n as [|n IH]; intros x y Hnd Hx Hy Hfx Hfy; [lia|].
  rewrite seq_S, fmap_app, concat_app in Hnd. cbn in Hnd. rewrite app_nil_r in Hnd. apply NoDup_app in Hnd as (Hnd & Hdis & Hlast).
  assert (Hin : forall z k, (z < n)%nat -> f z !! k = Some b -> b ∈ concat (f <$> seq 0 n)).
  { intros z k Hz Hk. assert (Hr : (f <$> seq 0 n) !! z = Some (f z)) by (by rewrite list_lookup_fmap, lookup_seq_lt).
    rewrite <- (take_drop_middle _ _ _ Hr), concat_app. cbn [concat]. apply elem_of_app. right. apply elem_of_app. left. by eapply list_elem_of_lookup_2. }
  destruct (decide (x = n)) as [->|], (decide (y = n)) as [->|].
  - split; [done|]. by eapply NoDup_lookup.
  - exfalso. apply (Hdis b); [apply (Hin y j); [lia|done]|by eapply list_elem_of_lookup_2].
  - exfalso. apply (Hdis b); [apply (Hin x i); [lia|done]|by eapply list_elem_of_lookup_2].
  - apply IH; (done || lia).
Qed.

Lemma NoDup_concat_seq {A} (f : nat -> list A) n : (forall x, (x < n)%nat -> NoDup (f x)) ->
  (forall x y a, (x < n)%nat -> (y < n)%nat -> a ∈ f x -> a ∈ f y -> x = y) -> NoDup (concat (f <$> seq 0 n)).
Proof.
  induction n as [|n IH]; intros Hnd Hdis; [constructor|]. rewrite seq_S, fmap_app, concat_app. cbn. rewrite app_nil_r.
  apply NoDup_app. split; [apply IH; intros; [apply Hnd; lia|eapply Hdis; [..|done|done]; lia]|]. split; [|apply Hnd; lia].
  intros a Ha Hn. assert (Hx : exists x, (x < n)%nat /\ a ∈ f x).
  { clear -Ha. revert Ha. assert (Hs : forall x, x ∈ seq 0 n -> (x < n)%nat) by (intros x Hx%elem_of_seq; lia). revert Hs. generalize (seq 0 n).
    intros l Hl. induction l as [|x l IH]; intros Ha; [by apply not_elem_of_nil in Ha|]. rewrite fmap_cons in Ha. cbn in Ha.
    apply elem_of_app in Ha as [Ha|Ha]; [exists x; split; [apply Hl; left|done]|]. apply IH; [|done]. intros y Hy. apply Hl. by right. }
  destruct Hx as (x & Hx & Hax). assert (x = n) by (apply (Hdis x n a); (done || lia)). lia.
Qed.

Section step.
Context (r : StepRunner) (d : OnlineDefragmenter) (rows : PromptRows) (ns : list Z) (n : nat).
Abbreviation bs := (run_block_size r).
Abbreviation computed := (prompt_computed rows).
Abbreviation new := (prompt_new ns).
Abbreviation slot x p := (slot_of r d (row_blocks rows) x p).

(** The blocks that the requests need, after the renaming, are all distinct. *)
Definition blocks_apart : Prop := NoDup (concat (prompt_blocks r d rows ns <$> seq 0 n)).
(** And there are as many as the positions need. *)
Definition blocks_enough : Prop := forall x, (x < n)%nat -> 0 <= computed x /\ 1 <= new x /\ cdiv (prompt_end rows ns x) bs <= len (row_blocks rows !!! x).

Context (Hbs : 0 < bs) (Hap : blocks_apart) (Hen : blocks_enough).

Lemma slot_block x p : (x < n)%nat -> 0 <= p < prompt_end rows ns x -> exists b, prompt_blocks r d rows ns x !! Z.to_nat (p / bs) = Some b /\
  slot x p = Z.of_nat b * bs + p mod bs.
Proof.
  intros Hx Hp. destruct (Hen x Hx) as (Hc & Hn & Hl). pose proof (cdiv_spec (prompt_end rows ns x) bs Hbs).
  assert (Hk : 0 <= p / bs < cdiv (prompt_end rows ns x) bs) by (split; [apply Z.div_pos; lia|apply Z.div_lt_upper_bound; lia]).
  assert (Hlt : (Z.to_nat (p / bs) < length (row_blocks rows !!! x))%nat) by (unfold len in Hl; lia).
  destruct (lookup_lt_is_Some_2 (row_blocks rows !!! x) _ Hlt) as [b Hb]. exists (resolve d b). split.
  - unfold prompt_blocks. rewrite list_lookup_fmap, lookup_take_lt by lia. by rewrite Hb.
  - unfold slot_of, slot_at. do 3 f_equal. apply list_lookup_total_correct. by rewrite list_lookup_fmap, Hb.
Qed.

(** Slots of different positions, or of different requests, are different. *)
Lemma slot_inj x y p q : (x < n)%nat -> (y < n)%nat -> 0 <= p < prompt_end rows ns x -> 0 <= q < prompt_end rows ns y ->
  slot x p = slot y q -> x = y /\ p = q.
Proof.
  intros Hx Hy Hp Hq E. destruct (slot_block x p Hx Hp) as (b & Hb & E1), (slot_block y q Hy Hq) as (b' & Hb' & E2).
  rewrite E1, E2 in E. pose proof (Z.mod_pos_bound p bs Hbs). pose proof (Z.mod_pos_bound q bs Hbs).
  assert (b = b') as <- by nia. assert (Em : p mod bs = q mod bs) by lia.
  destruct (concat_unique _ n x y _ _ b Hap Hx Hy Hb Hb') as [-> Ed]. split; [done|].
  pose proof (Z.div_pos p bs ltac:(lia) Hbs). pose proof (Z.div_pos q bs ltac:(lia) Hbs).
  rewrite (Z.div_mod p bs), (Z.div_mod q bs) by lia. lia.
Qed.

Lemma writes_apart : NoDup (concat ((fun x => (fun p => slot x p) <$> seqZ (computed x) (new x)) <$> seq 0 n)).
Proof.
  assert (Hpos : forall x p, (x < n)%nat -> p ∈ seqZ (computed x) (new x) -> 0 <= p < prompt_end rows ns x).
  { intros x p Hx Hp%elem_of_seqZ. destruct (Hen x Hx). unfold prompt_end. lia. }
  apply NoDup_concat_seq.
  - intros x Hx. apply NoDup_fmap_2_strong; [|apply NoDup_seqZ]. intros p q Hp Hq E. by apply (slot_inj x x p q); auto.
  - intros x y a Hx Hy (p & -> & Hp)%list_elem_of_fmap (q & E & Hq)%list_elem_of_fmap. by apply (slot_inj x y p q); auto.
Qed.

End step.

Lemma step_ok_buckets r dp N n num_computed ns table token_table m m' :
  step_ok r dp N n num_computed ns table token_table m -> pool_buckets N m' -> step_ok r dp N n num_computed ns table token_table m'.
Proof. intros [? ? ? ? ? ? ? ? ? ? ?] Hm. by split. Qed.

(** The decodes of a step, from any state of the buckets. *)
Lemma decode_part r dp d N n num_computed ns table token_table m : step_ok r dp N n num_computed ns table token_table m ->
  (forall i, (i < n)%nat -> ns !!! i = 1) -> blocks_ready r d n (take n num_computed) table 1 N ->
  exists pos ids, prepare_flat num_computed ns token_table = Ok (pos, ids) /\ forall m1, pool_buckets N m1 ->
    exists m' out dummy, _prepare_decode_inputs r dp d pos ids n ns num_computed table m1 = Ret (Some out, dummy) m' /\ pool_buckets N m' /\
      take n (slot_mapping out) = (fun i => [slot_of r d table i (num_computed !!! i)]) <$> seq 0 n.
Proof.
  intros Hok H1 Hrd. destruct (prepare_flat num_computed ns token_table) as [[pos ids]|e] eqn:Ef.
  2:{ pose proof (prepare_flat_ok num_computed ns token_table (so_counts _ _ _ _ _ _ _ _ _ Hok) (so_computed _ _ _ _ _ _ _ _ _ Hok)
        (so_tokens _ _ _ _ _ _ _ _ _ Hok) (so_tokens_fit _ _ _ _ _ _ _ _ _ Hok)) as E. congruence. }
  exists pos, ids. split; [done|]. intros m1 Hm1. pose proof (step_ok_buckets _ _ _ _ _ _ _ _ _ m1 Hok Hm1) as Hok1.
  pose proof (one_token r dp N n num_computed ns table token_table m1 Hok1 H1) as HT.
  destruct (decode_step_ok r dp d N n num_computed ns table token_table m1 1 Hok1 HT Hrd) as (m' & out & padded & E & Hm' & Hres).
  unfold decode_step in E. rewrite Ef in E. cbn [mbind result_mbind] in E.
  destruct (_prepare_decode_inputs r dp d pos ids n ns num_computed table m1) as [[o dummy] m2|e m2]; [|done].
  injection E as -> ->. exists m', out, dummy. split; [done|]. split; [done|].
  pose proof (so_decodes _ _ _ _ _ _ _ _ _ Hok) as Hdec.
  assert (Hrow : forall i, (i < n)%nat -> slot_mapping out !! i = Some [slot_of r d table i (num_computed !!! i)]).
  { intros i Hi. pose proof (dr_slots _ _ _ _ _ _ _ _ _ _ _ Hres i 0%nat Hi ltac:(lia)) as Hs.
    replace (i * Z.to_nat 1 + 0)%nat with i in Hs by lia. rewrite Hs. unfold position, DecodeRows.scheduled. rewrite H1 by done.
    rewrite decide_True by lia. rewrite (computed_take r dp N n num_computed ns table token_table m1 i Hok1 Hi). by rewrite Z.add_0_r. }
  apply list_eq. intros i. rewrite list_lookup_fmap. destruct (decide (i < n)%nat) as [Hi|Hi].
  - by rewrite lookup_take_lt, lookup_seq_lt, Hrow.
  - by rewrite lookup_take_ge, lookup_seq_ge by lia.
Qed.

Lemma concat_one {A} (f : nat -> A) l : concat ((fun i => [f i]) <$> l) = f <$> l.
Proof. induction l as [|x l IH]; [done|]. rewrite !fmap_cons. cbn. by rewrite IH. Qed.

(** The slots that the batches of prompts write. *)
Lemma prompts_write r d rows ns groups mds :
  Forall2 (fun g md => exists width, rows_formed r d rows ns width g md) groups mds ->
  concat ((fun md => filter (fun s => 0 <= s) (flatten (pi_slot_mapping md))) <$> mds) =
  concat ((fun x => (fun p => slot_of r d (row_blocks rows) x p) <$> seqZ (prompt_computed rows x) (prompt_new ns x)) <$> concat groups).
Proof.
  induction 1 as [|g md groups mds [width Hf] HF IH]; [done|]. rewrite fmap_cons. cbn [concat]. rewrite fmap_app, concat_app.
  rewrite IH, (rf_slots _ _ _ _ _ _ _ Hf). done.
Qed.

(** C13: a step of at least one decode of one token each and any prompts,
    without merged prefill and without unified attention, one logits row per
    prompt ([logits_rounding] 1), within the limits of the runner.
    [_prepare_inputs] forms both parts without raising; what the step writes
    for its requests ([written_slots]: the rows of the decodes, and of the
    prompts what is not padding) is, request by request, the slots of its new
    positions; if the requests have blocks enough and of their own, these are
    all distinct and none holds a position of another request. With draft
    tokens this fails: a padding token writes the slot of a first position
    ([padding_token_slot]). *)
Theorem step_writes_apart r dp kv d N nd np cols rows ns pool m :
  merged_prefill (run_config r) = false -> 0 < sumZ ns ->
  step_ok r dp N nd (row_num_computed rows) ns (row_blocks rows) (mkTable cols (row_tokens rows)) m ->
  (forall i, (i < nd)%nat -> ns !!! i = 1) -> blocks_ready r d nd (take nd (row_num_computed rows)) (row_blocks rows) 1 N ->
  prefill_ok r rows ns nd np pool m ->
  (forall n, 0 < dp n -> 128 <= BucketManager.max_num_batched_tokens m /\ cdiv 127 (run_block_size r) <= pool) ->
  blocks_apart r d rows ns (nd + np) -> blocks_enough r rows ns (nd + np) ->
  exists mds dummies out dummy m', _prepare_inputs r dp kv d np nd cols rows ns m = Ret ((mds, dummies), (Some out, dummy)) m' /\ pool_buckets N m' /\
    let slots x := (fun p => slot_of r d (row_blocks rows) x p) <$> seqZ (prompt_computed rows x) (prompt_new ns x) in
    written_slots nd mds out = concat (slots <$> seq 0 (nd + np)) /\ NoDup (written_slots nd mds out) /\
    forall x y p, (x < nd + np)%nat -> (y < nd + np)%nat -> x <> y -> 0 <= p < prompt_end rows ns y -> slot_of r d (row_blocks rows) y p ∉ slots x.
Proof.
  intros Hmp Htot Hok H1 Hrd Hpf Hdum Hap Hen. pose proof (so_block_size _ _ _ _ _ _ _ _ _ Hok) as Hbs.
  pose proof (po_nonneg _ _ (so_dp _ _ _ _ _ _ _ _ _ Hok)) as Hdp.
  destruct (decode_part r dp d N nd _ ns _ _ m Hok H1 Hrd) as (pos & ids & Ef & Hdec).
  destruct (prefill_parts r dp kv d rows ns nd np pool m Hmp Hdp Hpf Hdum) as (groups & mds & dummies & m1 & Ep & Hm1 & Hs1 & Hc & HF).
  destruct (Hdec m1) as (m' & out & dummy & Ed & Hm' & Hrows); [by eapply pool_same; [apply Hok|..]|].
  exists mds, dummies, out, dummy, m'. split.
  { unfold _prepare_inputs, mbind, M_mbind, M_bind. rewrite (proj2 (Z.ltb_lt _ _)) by done. cbn [py_assert].
    unfold mret, M_mret, M_ret, lift_result. by rewrite Ef, Ep, Ed. }
  split; [done|]. intros slots. assert (Hw : written_slots nd mds out = concat (slots <$> seq 0 (nd + np))).
  { unfold written_slots. rewrite Hrows, concat_one, seq_app, fmap_app, concat_app. f_equal.
    - rewrite <- concat_one. f_equal. apply fmap_seq_ext. intros i Hi. unfold slots, prompt_new, prompt_computed. by rewrite H1.
    - rewrite (prompts_write r d rows ns groups mds); [by rewrite Hc|]. eapply Forall2_impl; [exact HF|]. by intros g md (_ & _ & ?). }
  split; [exact Hw|]. rewrite Hw. split; [by apply writes_apart|].
  intros x y p Hx Hy Hxy Hp (q & E & Hq%elem_of_seqZ)%list_elem_of_fmap. apply Hxy. destruct (Hen x Hx) as (? & ? & _).
  symmetry. eapply (slot_inj r d rows ns (nd + np) Hbs Hap Hen y x p q); [done|done|done| |done]. unfold prompt_end. lia.
Qed.

(** ** A concrete step *)

Lemma lookup_one (P : nat -> Prop) : P 0%nat -> forall i, (i < 1)%nat -> P i.
Proof. intros H0 [|i] Hi; [done|lia]. Qed.

Lemma prefill_pool_ok : pool_buckets 8 prefill_buckets.
Proof. apply sample_buckets_ok. Qed.

Lemma sample_decode_ok : step_ok (prefill_runner false) alone 8 1 [4; 5; 0] sample_scheduled (row_blocks sample_rows) (mkTable 12 (row_tokens sample_rows)) prefill_buckets.
Proof.
  split; try done.
  - apply no_padding_ok.
  - apply prefill_pool_ok.
  - split; [lia|done|cbn; lia|cbn; lia|..]; apply lookup_one; vm_compute; done.
  - split; [done|repeat constructor; lia].
  - split; [reflexivity|]. intros row Hrow. cbn [table_rows sample_rows row_tokens] in Hrow.
    repeat (apply elem_of_cons in Hrow as [->|Hrow]; [done|]). by apply not_elem_of_nil in Hrow.
  - intros [|[|[|i]]] Hi; [vm_compute; done..|cbn in Hi; lia].
Qed.

Lemma sample_decode_ready : blocks_ready (prefill_runner false) unmoved 1 (take 1 [4; 5; 0]) (row_blocks sample_rows) 1 8.
Proof.
  split; [|done]. intros i b Hi. revert b. revert i Hi. refine (lookup_one _ _). intros b Hb. vm_compute in Hb.
  repeat (apply elem_of_cons in Hb as [->|Hb]; [done|]). by apply not_elem_of_nil in Hb.
Qed.

Lemma step_writes_apart_witness :
  blocks_apart (prefill_runner false) unmoved sample_rows sample_scheduled 3 /\
  exists mds dummies out dummy m', _prepare_inputs (prefill_runner false) alone false unmoved 2 1 12 sample_rows sample_scheduled prefill_buckets =
      Ret ((mds, dummies), (Some out, dummy)) m' /\
    written_slots 1 mds out = [8; 17; 18; 19; 20; 21; 22; 23] /\ NoDup (written_slots 1 mds out).
Proof.
  assert (Hap : blocks_apart (prefill_runner false) unmoved sample_rows sample_scheduled 3).
  { vm_compute. repeat constructor; set_solver. }
  split; [exact Hap|].
  destruct (step_writes_apart (prefill_runner false) alone false unmoved 8 1 2 12 sample_rows sample_scheduled 3 prefill_buckets eq_refl eq_refl
    sample_decode_ok ltac:(by apply lookup_one) sample_decode_ready (sample_prefill_ok false) ltac:(done) Hap
    ltac:(intros [|[|[|x]]] Hx; [vm_compute; done..|cbn in Hx; lia]))
    as (mds & dummies & out & dummy & m' & E & _ & Hw & Hnd & _).
  exists mds, dummies, out, dummy, m'. split; [exact E|]. split; [rewrite Hw; vm_compute; reflexivity|exact Hnd].
Defined.
